(* ===== verification/_CoqProject ===== *)
-Q . S2P
Prelude.v
JsValue.v
JsonText.v
Keyset.v
Billing.v
Entitlements.v
FamilyBilling.v
BillingStore.v
UsageMeter.v
RateLimit.v
Csv.v
OAuthFlow.v
Sessions.v
SyncLease.v
Outbox.v
OutboxRuns.v
Access.v
Team.v
Incident.v
Workspace.v
Disclosure.v
Notifications.v
Tx.v
SafetyPolicy.v
SafetyPolicyStore.v
FamilyStore.v
Household.v
Guardianship.v
Recipients.v
NotifyKernel.v
NotifyRuns.v
Evidence.v
RiskRules.v
HybridPipeline.v
ControlCenter.v
LiveSafety.v
LiveActions.v
LiveRuns.v
Contacts.v
ContactStore.v
ContactActions.v
MetaLeads.v
