(* ===== verification/Prelude.v ===== *)
(** * Tamanor: the guarded core of a multi-tenant protection service

    Tamanor watches the social accounts of businesses and, in its family workspaces,
    protects children from online risk. The repository is a TypeScript monorepo:
    [packages/core] holds the pure policy, [packages/db] the repositories over
    PostgreSQL (Prisma, one transaction per operation, row-level security by
    tenant), [packages/sync] the background jobs, [apps/*] the web, mobile and
    worker processes that wire them together. This library models the parts whose
    mistakes cost most: who is charged and what a plan allows, what is metered, who
    may act, what may be disclosed about a child and to whom, and the concurrent
    bookkeeping (leases, one-time states, a durable outbox) behind them.

    ** Files

    This file: JavaScript's strings, truthiness, string-valued enumerations (the
    class [JsEnum] and its laws), sets and sorts, object-as-map ([jsmap]); lemmas on
    lists; the databases [guards] and [tam]. Then, each requiring what its code calls:

    - [Keyset]: the order, pages and cursors of keyset pagination, for every list.
    - [Billing] (core/billing.ts): catalogue, price environment and its reverse map,
      readiness, access and lifecycle, what is presented, the order of Stripe events,
      the duplicate-checkout guard.
    - [Entitlements] (core/entitlements.ts, usage-policy.ts, usage-pricing.ts): what a
      plan allows, the operation gate, the reconciliation after a downgrade.
    - [FamilyBilling] (core/family-billing.ts, family-entitlements.ts): family plans,
      their prices, the billing floor and the caps.
    - [BillingStore] (db/billing-repo.ts, db/family-trial.ts, web stripe-mapping.ts):
      stored billing and what it reads as, the Stripe webhook, the checkout
      reservation, trial sweeps and the family trial.
    - [UsageMeter] (db/usage-repo.ts): billing periods, the ledger and the counters;
      reservation, finalization, release, recovery.
    - [RateLimit] (core/rate-limit.ts, rate-limit-store.ts): the in-process limiter
      ([Limiter]) and the shared store as the class [RateLimitStore] with laws, the
      in-memory store as its instance ([Store]).
    - [Csv] (core/csv.ts): the exporter against an RFC 4180 reader.
    - [OAuthFlow] (db/connector-oauth-flow.ts, web mobile-callback.ts): the one-time
      state of a connection attempt and the callback that redeems it.
    - [Sessions] (db/session.ts, session-mgmt.ts, auth-tokens.ts): sessions, their
      two-phase rotation and every way to revoke them; verification and reset tokens.
    - [SyncLease] (db/sync-lease.ts, sync/lease-heartbeat.ts): fenced leases ([Lease])
      and the controller that keeps one alive ([Heartbeat]).
    - [Outbox], [OutboxRuns] (db/internal/family-notification-outbox*.ts): enqueue and
      dedupe; claim, classification, backoff and settlement; whole runs.
    - [Access] (core/permissions.ts, team.ts, moderation.ts): roles, approvals, seats.
    - [Team] (db/team-repo.ts): memberships, invites and the seat limit.
    - [Incident] (core/cyberbullying-incident.ts, security.ts): lifecycles, triage,
      report validation.
    - [Workspace] (core/workspace.ts, child-safety-family.ts): workspace kinds, family
      roles, the gate every family service starts with.
    - [Disclosure] (core/child-safety-{signal,consent,recipient-authorization,delivery,
      safety-signal}.ts): when each record is effective, what a signal may disclose.
    - [Tx]: transactions as a state-and-error monad, over any tables.
    - [FamilyStore] (db/tenant-db.ts and the shared helpers of the family
      repositories): the tables and the guards.
    - [Household] (db/child-safety-family.ts, family-invitation.ts,
      family-billing-guard.ts): protected profiles, guardian relationships and
      invitations under the capacity of the plan; what the writes of its services
      satisfy holds of every run ([writes], [run_keeps]).
    - [Guardianship] (db/child-safety-consent.ts): every command on authorities,
      consents and assessments, runs of commands, and the resolvers.
    - [Recipients] (db/child-safety-recipient-authorization.ts, child-safety-delivery.ts):
      decisions and deliveries, live re-evaluation included.
    - [Notifications] (core/family-notifications.ts, db/family-notification-repo.ts):
      the catalogue of thirteen types, keys and metadata, and a user's own
      notifications (create, list, mark, dismiss).
    - [NotifyKernel] (db/internal/family-notification-authorization.ts,
      family-incident-visibility.ts): who is notified of what, per type, and the
      authorized creation the outbox calls.
    - [NotifyRuns] (db/internal/family-notification-expiry.ts,
      family-notification-scheduler.ts): the expiry scans, the scheduler's lease and
      its cycle over outbox and kernel, its health; the step relation of the outbox.

    - [Contacts] (core/business-contacts.ts): a business contact's status and privacy
      lifecycle, what lead ads still need, selections, search terms, notes, the
      timeline, export rows, the privacy review.
    - [ContactStore] (db/business-contacts-repo.ts): connections, contacts, notes, audit
      rows and ingestion events of all tenants in one [store]; every repository
      operation, runs of them, row security as [view], the walk through the pages.
    - [ContactActions] (web dashboard/contacts/actions.ts, server/audit.ts): the server
      actions over that store, with their gate and their audit rows.
    - [MetaLeads] (sync/meta-leads.ts): a webhook body to lead changes, a fetched lead to
      a contact, and the ingestion of one event.

    - [JsValue], [JsonText]: parsed JSON and JavaScript numbers, for the code that reads
      untyped data, and the text it is written as ([NumberText]: what is assumed of the
      text of a number).
    - [SafetyPolicy] (core/child-safety-policy.ts): the vocabulary of child-safety policies,
      the validator over untyped data and the typed definition behind it, conditions, the
      merge of effects, the evaluation and its canonical input.
    - [SafetyPolicyStore] (db/child-safety-policy.ts): stored policies from draft to
      retirement under two-person control, a tenant's evaluation with its decision log,
      simulation; runs of services whose reads may be stale.
    - [Evidence] (ai/evidence.ts): where a text bears a term, what a claim is worth, and
      what a customer is shown of a stored classification, as columns and as totals.
    - [RiskRules] (ai/risk-classifier.ts): the rule engine, its lexicon and confidence.
    - [HybridPipeline] (ai/brand-memory.ts, pipeline.ts): brand memory, the answer of a
      model, the evidence gate over both, and the record kept.
    - [ControlCenter] (ai/auto-protect.ts, control-center.ts): the category a comment falls
      under, the Auto-Protect decision, the candidates for an autonomous hide.
    - [LiveSafety] (sync/production-safety.ts, web safety-actions.ts): the tables of live
      actions, the safety envelope, the counts it is given, the operator's switches.
    - [LiveActions] (sync/live-actions.ts, connectors/meta/facebook-hide.ts, web
      action-queue actions, sync/index.ts from the control center on): one attempt at
      hiding a comment step by step, rollback, and everyone who calls them.
    - [LiveRuns]: what holds of live actions through any run of the system.

    A comment "src: file:lines symbol" before a definition names the code it
    translates. Definitions keep the source's names where they can.

    ** How the code is modelled

    - A string is Rocq's [string], one 8-bit character per UTF-16 unit: code units
      above 255 do not occur in the model. Enumerations are inductive types with the
      source's literal as [js_name]; where the code compares raw strings (a database
      column may hold any text) the model keeps the raw string.
    - Numbers that the code keeps integral are [Z]; a count or a cost stays far below
      2^53, so no rounding occurs, and a fraction is modelled where the code lets one
      in (page sizes, confidences: exact rationals, a decimal literal standing for the
      double nearest to it). A [Date] is its milliseconds.
    - The clock, fresh ids and hashes are arguments ([now], [stamp], [sha256]).
      Nothing is assumed of a hash that no theorem names.
    - A table is the list of its rows, a service a function of state and error:
      [outcome] is the value returned or the exception thrown, and a transaction that
      throws leaves the tables as they were ([Tx.after]).
    - Concurrency is interleaving: sequences of atomic operations; where a transaction
      reads and writes in separate statements under Read Committed, the row it read is
      an argument ([UsageMeter.reserve_seeing], [finalizeTx]), so it may be stale.
    - What a provider answers is a function of the calls made before, which the tables of
      [LiveSafety] keep as a log, so theorems speak of what was asked. Sentences that use
      characters beyond the model (the reasons of decisions) are constructors.
    - Code outside a component is a parameter: the outbox processor takes the
      creation function, which [NotifyRuns] instantiates with the kernel; the session
      lookup and the provider stay parameters. No fuel is used: every recursion of the
      modelled code is structural (the scheduler's drain on the batches it may still run).

    ** What the theorems show

    Disclosure: a decision or a delivery that resolves is effective now, along a
    complete chain of authority, consent, assessment, relationship and membership;
    what it discloses lies within the policy for the signal and the decision;
    revocation is final under any run of commands; commands are confined to their
    tenant and role. Metering and billing: counters equal the ledger in every
    reachable state, unless two settlements of one reservation overlap (a finding), a
    grant stays within the quota, settlement is idempotent; the
    webhook refines the pure ordering rule under any interleaving and changes a
    tenant at most once per event, a tenant has one live checkout and is never locked
    out of the next, no billing event restricts a family, readers and sweeps agree,
    prices round trip. Identity: a revoked session is refused for ever, a rotation never outlives
    the ceiling of the login it came from, a reset link resets once, an invite link
    joins once, seats stay within the plan, an owner remains. Household: a profile has
    one active primary guardian, no run of services promotes anyone, an invitation is
    answered once and grants exactly what it says, caps hold. Concurrency: claims are
    disjoint, an event is attempted at most eight times by one worker at a time, a fenced
    holder can do nothing, a state is redeemed at most once. Limits:
    the limiters bound memory and admissions. Lifecycles: exactness, progress and
    finality of every state machine. Text: exports and keys read back.
    Notifications: whoever is notified is admitted by the rule of the catalogue for that
    very source at that instant, may open what the notice is about, and gets one notification per event
    however often delivery is retried; a stale warning reaches nobody; the outbox is
    well typed under any interleaving of workers, a scheduler cycle returns, catches up
    and releases its lease, which excludes; pages list each notification once.
    Contacts: an anonymized contact stays so whatever calls or requests follow, loses
    the text of the notes it had, and is not made again by a replay; only a confirmed
    request of a manager anonymizes; tenants do not meet; a bulk change is the single
    changes; pages, counts and export agree with the list; a redelivered lead event
    adds nothing, and only allow-listed answers of a lead are stored.
    Classification: an accusing category a customer is shown is borne by words of the
    comment whatever a model answers, a model alone raises nothing, memory keeps the
    floor, fraud is exactly the context rule, the persisted projection reads back, the
    matched category is the most severe one triggered. Live actions: a hide is posted
    only where every gate, switch, policy and limit allows it, at most once per attempt
    and, once on record, never again; success is what the provider said; the prediction
    is what the buttons of the page then do; limits hold through any day; rollback is
    exact. Policies: what the validator accepts never trips the engine and bears no effect
    members beyond its type's, the merge of effects is the documented precedence, a
    decision depends on its canonical input alone; no version becomes active
    without two people, a submitted one never changes, a tenant's evaluation fails closed.
    Where the code departs from its own documentation the departure is a theorem
    too, next to the property it breaks.

    ** Not modelled

    React and React Native interfaces, route handlers, dictionaries and legal texts;
    provider transports and model calls (network I/O); language detection, whose
    signals lie beyond Latin-1, translation and topics; environment parsing; Prisma
    and PostgreSQL themselves; audit metadata beyond event, actor and target; most list
    endpoints that only read; the wording of notices. *)
From Stdlib Require Export ZArith Lia Ascii String Bool Permutation.
From stdpp Require Export base gmap sets list strings sorting.

Declare Scope tam_scope.
Delimit Scope tam_scope with tam.
#[export] Set Default Goal Selector "!".
#[export] Unset Program Cases.

(** * JavaScript strings

    A string of the source is a sequence of code units; the model keeps the
    Latin-1 ones (Rocq's 8-bit [ascii]). *)

Infix "=s" := String.eqb (at level 70, no associativity) : tam_scope.
Open Scope Z_scope.
Open Scope tam_scope.

Definition code (c : ascii) : Z := Z.of_nat (nat_of_ascii c).

Definition between (lo hi x : Z) : bool := (lo <=? x) && (x <=? hi).

(** What [String.prototype.trim] strips and the regular expression class [\s]
    matches among the Latin-1 code units: TAB, LF, VT, FF, CR, SPACE, NBSP. *)
Definition is_ws (c : ascii) : bool :=
  between 9 13 (code c) || (code c =? 32) || (code c =? 160).

Definition is_digit (c : ascii) : bool := between 48 57 (code c).
Definition is_upper (c : ascii) : bool := between 65 90 (code c).
Definition is_lower (c : ascii) : bool := between 97 122 (code c).
Definition is_alnum (c : ascii) : bool := is_digit c || is_upper c || is_lower c.

(** [String.prototype.toLowerCase] on Latin-1. *)
Definition lower_ascii (c : ascii) : ascii :=
  if is_upper c || (between 192 222 (code c) && negb (code c =? 215))
  then ascii_of_nat (nat_of_ascii c + 32) else c.

Fixpoint str_map (f : ascii -> ascii) (s : string) : string :=
  match s with EmptyString => EmptyString | String c r => String (f c) (str_map f r) end.

Definition toLowerCase : string -> string := str_map lower_ascii.

Fixpoint str_forallb (p : ascii -> bool) (s : string) : bool :=
  match s with EmptyString => true | String c r => p c && str_forallb p r end.

Fixpoint trimStart (s : string) : string :=
  match s with
  | EmptyString => EmptyString
  | String c r => if is_ws c then trimStart r else s
  end.

(** Drop the trailing white space: a white-space suffix vanishes. *)
Fixpoint trimEnd (s : string) : string :=
  match s with
  | EmptyString => EmptyString
  | String c r =>
      match trimEnd r with
      | EmptyString => if is_ws c then EmptyString else String c EmptyString
      | r' => String c r'
      end
  end.

Definition trim (s : string) : string := trimEnd (trimStart s).

Definition str_len (s : string) : Z := Z.of_nat (String.length s).

(** A double quote. *)
Definition dquote : string := String "034" EmptyString.

(** JavaScript truthiness of a string. *)
Definition nonempty (s : string) : bool := negb (s =s "").

(** [env[key]?.trim()]: absent stays absent. *)
Definition opt_trim (o : option string) : option string := option_map trim o.

(** Truthiness of a [string | null | undefined]. *)
Definition truthy (o : option string) : bool :=
  match o with Some s => nonempty s | None => false end.

Fixpoint startsWith (pre s : string) : bool :=
  match pre, s with
  | EmptyString, _ => true
  | String a p, String b r => Ascii.eqb a b && startsWith p r
  | _, _ => false
  end.

Fixpoint str_drop (n : nat) (s : string) : string :=
  match n, s with
  | O, _ => s
  | S n', String _ r => str_drop n' r
  | S _, EmptyString => EmptyString
  end.

(** [Array.prototype.includes] on strings. *)
Definition includes (l : list string) (s : string) : bool := existsb (String.eqb s) l.

(** The property names every object literal inherits from [Object.prototype]:
    [k in obj] holds for them as well as for the object's own keys. *)
Definition object_prototype_keys : list string :=
  ["constructor"; "__defineGetter__"; "__defineSetter__"; "hasOwnProperty";
   "__lookupGetter__"; "__lookupSetter__"; "isPrototypeOf"; "propertyIsEnumerable";
   "toString"; "valueOf"; "__proto__"; "toLocaleString"]%string.

Definition in_object (own : list string) (k : string) : bool :=
  includes own k || includes object_prototype_keys k.

(** * Options *)

(** [a ?? b] *)
Definition nullish {A} (o : option A) (d : A) : A := match o with Some a => a | None => d end.
Infix "??" := nullish (at level 61, left associativity) : tam_scope.

Definition is_some {A} (o : option A) : bool := match o with Some _ => true | None => false end.
Definition is_none {A} (o : option A) : bool := negb (is_some o).

Definition obind {A B} (o : option A) (f : A -> option B) : option B :=
  match o with Some a => f a | None => None end.

(** [a ?? b] where [b] may itself be absent. *)
Definition or_else {A} (a b : option A) : option A := match a with Some _ => a | None => b end.

(** [o === s] for an optional string. *)
Definition status_is (o : option string) (s : string) : bool :=
  match o with Some x => x =s s | None => false end.

(** * String-valued enumerations

    A TypeScript union of string literals (or a string [enum]) is an inductive
    type together with the literal each constructor stands for. *)

Class JsEnum (A : Type) := {
  js_name : A -> string;
  js_values : list A;
  js_names_distinct : bool_decide (NoDup (map js_name js_values)) = true;
  js_values_complete : forall a, In a js_values
}.

Lemma NoDup_map_inj_in {A B} (f : A -> B) (l : list A) (a b : A) :
  NoDup (map f l) -> In a l -> In b l -> f a = f b -> a = b.
Proof.
  induction l as [|x l IH]; simpl; [done|].
  intros Hnd Ha Hb Hf. apply NoDup_cons in Hnd as [Hx Hnd].
  destruct Ha as [->|Ha], Hb as [->|Hb]; auto; exfalso; apply Hx, list_elem_of_In.
  - rewrite Hf. by apply in_map.
  - rewrite <- Hf. by apply in_map.
Qed.

Lemma js_name_inj {A} `{JsEnum A} (a b : A) : js_name a = js_name b -> a = b.
Proof.
  apply NoDup_map_inj_in with (l := js_values); auto using js_values_complete.
  pose proof js_names_distinct as Hd. by apply bool_decide_eq_true in Hd.
Qed.

(** Recognise a raw string as a literal of the union. *)
Definition parse {A} `{JsEnum A} (s : string) : option A :=
  List.find (fun a => js_name a =s s) js_values.

Definition parse_opt {A} `{JsEnum A} (o : option string) : option A :=
  match o with Some s => parse s | None => None end.

Lemma parse_Some {A} `{JsEnum A} (s : string) (a : A) : parse s = Some a <-> js_name a = s.
Proof.
  unfold parse. split.
  - intros Hf. apply List.find_some in Hf as [_ Hf]. by apply String.eqb_eq in Hf.
  - intros <-. destruct (List.find _ _) as [b|] eqn:Hf.
    + apply List.find_some in Hf as [_ Hf]. apply String.eqb_eq in Hf.
      f_equal. by apply js_name_inj.
    + exfalso. pose proof (List.find_none _ _ Hf a (js_values_complete a)) as Hn.
      simpl in Hn. by rewrite String.eqb_refl in Hn.
Qed.

Lemma parse_name {A} `{JsEnum A} (a : A) : parse (js_name a) = Some a.
Proof. by apply parse_Some. Qed.

Lemma parse_None {A} `{JsEnum A} (s : string) :
  parse (A := A) s = None <-> forall a : A, js_name a <> s.
Proof.
  split.
  - intros Hn a Ha. apply parse_Some in Ha. congruence.
  - intros Hn. destruct (parse s) as [a|] eqn:Hp; [|done].
    apply parse_Some in Hp. by destruct (Hn a).
Qed.

(** Comparing a raw string with one literal, read off the parsed value. *)
Lemma status_is_parse {A} `{JsEnum A, EqDecision A} (o : option string) (b : A) :
  status_is o (js_name b) = bool_decide (parse_opt o = Some b).
Proof.
  destruct o as [s|]; simpl; [|done].
  destruct (String.eqb s (js_name b)) eqn:He; symmetry.
  - apply String.eqb_eq in He as ->. apply bool_decide_eq_true. apply parse_name.
  - apply String.eqb_neq in He. apply bool_decide_eq_false. intros Hp%parse_Some. congruence.
Qed.

(** Equality of enumeration values, decided through their literals. *)
Definition enum_eqb {A} `{JsEnum A} (a b : A) : bool := js_name a =s js_name b.
Infix "=e" := enum_eqb (at level 70, no associativity) : tam_scope.

Lemma enum_eqb_eq {A} `{JsEnum A} (a b : A) : (a =e b) = true <-> a = b.
Proof.
  unfold enum_eqb. rewrite String.eqb_eq. split; [apply js_name_inj | congruence].
Qed.

Lemma enum_eqb_refl {A} `{JsEnum A} (a : A) : (a =e a) = true.
Proof. by apply enum_eqb_eq. Qed.

(** Discharge the laws of a finite [JsEnum]. *)
Ltac solve_js_enum :=
  first [ vm_compute; reflexivity
        | let a := fresh in intros a; destruct a; simpl; tauto ].

(** * Lists *)

(** The fold of pairwise commuting steps does not depend on the order. *)
Lemma fold_left_permutation {A B} (f : A -> B -> A) (l l' : list B) (a : A) :
  (forall s x y, f (f s x) y = f (f s y) x) ->
  Permutation l l' -> fold_left f l a = fold_left f l' a.
Proof.
  intros Hcomm Hp. revert a.
  induction Hp as [|x l l' _ IH|x y l|l l' l'' _ IH1 _ IH2]; intros a; simpl; auto.
  - by rewrite Hcomm.
  - by rewrite IH1.
Qed.

Lemma omap_NoDup_inj {A B} (f : A -> option B) (l : list A) (a b : A) (x : B) :
  NoDup (omap f l) -> a ∈ l -> b ∈ l -> f a = Some x -> f b = Some x -> a = b.
Proof.
  induction l as [|y l IH]; simpl; [by intros _ ?%not_elem_of_nil|].
  intros Hnd Ha Hb Hfa Hfb.
  apply elem_of_cons in Ha, Hb.
  assert (Htail : forall c, c ∈ l -> f c = Some x -> x ∈ omap f l).
  { intros c Hc Hfc. apply list_elem_of_omap. eauto. }
  destruct (f y) as [z|] eqn:Hfy.
  - apply NoDup_cons in Hnd as [Hz Hnd].
    destruct Ha as [->|Ha], Hb as [->|Hb]; auto; exfalso; simplify_eq; eauto.
  - destruct Ha as [->|Ha], Hb as [->|Hb]; simplify_eq; auto.
Qed.

Lemma omap_nil_iff {A B} (f : A -> option B) (l : list A) :
  omap f l = [] <-> forall x, In x l -> f x = None.
Proof.
  induction l as [|y l IH]; simpl; [by split|]. split.
  - intros Hn x [<-|Hx]; destruct (f y) eqn:Hy; try done. by apply IH.
  - intros Hall. rewrite (Hall y (or_introl eq_refl)). apply IH. auto.
Qed.

Lemma filter_nil_iff {A} (p : A -> bool) (l : list A) :
  List.filter p l = [] <-> forall x, In x l -> p x = false.
Proof.
  induction l as [|y l IH]; simpl; [by split|]. split.
  - intros Hn x [<-|Hx]; destruct (p y) eqn:Hy; try done. by apply IH.
  - intros Hall. rewrite (Hall y (or_introl eq_refl)). apply IH. auto.
Qed.

Lemma length_remove_dups_le `{EqDecision A} (l : list A) :
  (length (remove_dups l) <= length l)%nat.
Proof. induction l as [|x l IH]; simpl; [done|]. case_decide; simpl; lia. Qed.

(** [new Set(l).size === l.length] says that [l] has no duplicates. *)
Lemma remove_dups_length_NoDup `{EqDecision A} (l : list A) :
  length (remove_dups l) = length l -> NoDup l.
Proof.
  induction l as [|x l IH]; simpl; [constructor|].
  pose proof (length_remove_dups_le l). case_decide; simpl; intros Hl; [lia|].
  constructor; auto with lia.
Qed.

(** A predicate that selects exactly one element selects a unique one. *)
Lemma filter_length_1_unique {A} (P : A -> bool) (l : list A) (a b : A) :
  length (List.filter P l) = 1%nat -> In a l -> In b l -> P a = true -> P b = true -> a = b.
Proof.
  intros Hl Ha Hb HPa HPb.
  assert (Ia : In a (List.filter P l)) by (apply filter_In; auto).
  assert (Ib : In b (List.filter P l)) by (apply filter_In; auto).
  destruct (List.filter P l) as [|x [|y r]]; try discriminate.
  destruct Ia as [<-|[]], Ib as [<-|[]]. done.
Qed.

(** Keeping some elements keeps their keys distinct. *)
Lemma NoDup_map_filter {A B} (g : A -> B) (p : A -> bool) (l : list A) :
  NoDup (map g l) -> NoDup (map g (List.filter p l)).
Proof.
  induction l as [|x l IH]; simpl; [done|]. intros [Hx Hl]%NoDup_cons.
  destruct (p x); [|auto]. simpl. constructor; [|auto]. intros Hin. apply Hx.
  apply list_elem_of_In, in_map_iff in Hin as [y [Hy Hin]]. apply filter_In in Hin as [Hin _].
  apply list_elem_of_In, in_map_iff. eauto.
Qed.

Lemma includes_In l s : includes l s = true <-> In s l.
Proof.
  unfold includes. rewrite existsb_exists. split.
  - by intros [x [Hx ->%String.eqb_eq]].
  - intros Hs. exists s. by rewrite String.eqb_refl.
Qed.

Lemma includes_elem l s : includes l s = true <-> s ∈ l.
Proof. by rewrite includes_In, list_elem_of_In. Qed.

Lemma includes_not_In l s : includes l s = false -> s ∉ l.
Proof. intros Hl Hin%list_elem_of_In%includes_In. congruence. Qed.

(** [new Set(l)] enumerated in insertion order: first occurrences only. *)
Definition set_add `{EqDecision A} (l : list A) (x : A) : list A :=
  if bool_decide (x ∈ l) then l else l ++ [x].
Definition js_set `{EqDecision A} (l : list A) : list A := fold_left set_add l [].

Lemma elem_of_set_add `{EqDecision A} (l : list A) (x y : A) : y ∈ set_add l x <-> y ∈ l \/ y = x.
Proof. unfold set_add. case_bool_decide; set_solver. Qed.

Lemma elem_of_js_set `{EqDecision A} (l : list A) (y : A) : y ∈ js_set l <-> y ∈ l.
Proof.
  unfold js_set. cut (forall a, y ∈ fold_left set_add l a <-> y ∈ a \/ y ∈ l).
  { intros Hc. rewrite Hc. set_solver. }
  induction l as [|x l IH]; intros a; simpl; [set_solver|].
  rewrite IH, elem_of_set_add. set_solver.
Qed.

Lemma NoDup_js_set `{EqDecision A} (l : list A) : NoDup (js_set l).
Proof.
  unfold js_set. cut (forall a, NoDup a -> NoDup (fold_left set_add l a)).
  { intros Hc. apply Hc. constructor. }
  induction l as [|x l IH]; intros a Ha; simpl; [done|].
  apply IH. unfold set_add. case_bool_decide; [done|].
  apply NoDup_app. split; [done|]. split; [set_solver|apply NoDup_singleton].
Qed.

(** [Array.prototype.sort] with a comparator: the stable sort. *)
Fixpoint sort_insert {A} (cmp : A -> A -> Z) (x : A) (l : list A) : list A :=
  match l with
  | [] => [x]
  | y :: r => if cmp x y <=? 0 then x :: l else y :: sort_insert cmp x r
  end.
Definition js_sort {A} (cmp : A -> A -> Z) (l : list A) : list A := foldr (sort_insert cmp) [] l.

Lemma sort_insert_perm {A} (cmp : A -> A -> Z) x l : Permutation (sort_insert cmp x l) (x :: l).
Proof.
  induction l as [|y l IH]; simpl; [done|]. destruct (cmp x y <=? 0); [done|].
  rewrite IH. apply perm_swap.
Qed.

Lemma js_sort_perm {A} (cmp : A -> A -> Z) l : Permutation (js_sort cmp l) l.
Proof. induction l as [|x l IH]; simpl; [done|]. by rewrite sort_insert_perm, IH. Qed.

Section Sorted.
Context {A : Type} (cmp : A -> A -> Z).
Hypothesis cmp_total : forall x y, cmp x y <= 0 \/ cmp y x <= 0.
Hypothesis cmp_trans : forall x y z, cmp x y <= 0 -> cmp y z <= 0 -> cmp x z <= 0.

Let le x y := cmp x y <= 0.

Lemma sort_insert_sorted x l : StronglySorted le l -> StronglySorted le (sort_insert cmp x l).
Proof.
  induction 1 as [|y l Hl IH Hy]; simpl; [repeat constructor|].
  destruct (Z.leb_spec (cmp x y) 0) as [Hle|Hgt].
  - assert (Hxl : Forall (le x) l).
    { eapply Forall_impl; [exact Hy|]. intros z Hz. eapply cmp_trans; [exact Hle | exact Hz]. }
    by repeat constructor.
  - constructor; [done|]. rewrite sort_insert_perm. constructor; [|done].
    unfold le. destruct (cmp_total x y); [lia|done].
Qed.

Lemma js_sort_sorted l : StronglySorted le (js_sort cmp l).
Proof. induction l; simpl; [constructor|]. by apply sort_insert_sorted. Qed.

(** Filtering commutes with the stable sort. *)
Lemma js_sort_filter (p : A -> bool) l : js_sort cmp (List.filter p l) = List.filter p (js_sort cmp l).
Proof.
  assert (Hins : forall x l, StronglySorted le l ->
    List.filter p (sort_insert cmp x l) = if p x then sort_insert cmp x (List.filter p l) else List.filter p l).
  { intros x l0 Hl. induction Hl as [|y l0 Hl IH Hy]; cbn [sort_insert List.filter]; [done|].
    destruct (Z.leb_spec (cmp x y) 0) as [Hle|Hgt]; cbn [List.filter].
    - destruct (p x); [|done]. destruct (p y) eqn:Hp; cbn [sort_insert]; [by replace (cmp x y <=? 0) with true by lia|].
      assert (Hx : Forall (le x) (List.filter p l0)).
      { apply Forall_forall. intros z Hz. rewrite list_elem_of_In, filter_In, <- list_elem_of_In in Hz. destruct Hz as [Hz _].
        rewrite Forall_forall in Hy. by eapply cmp_trans; [exact Hle|apply Hy]. }
      destruct (List.filter p l0) as [|z r]; [done|]. cbn [sort_insert]. inversion Hx; subst. unfold le in *. by replace (cmp x z <=? 0) with true by lia.
    - rewrite IH. destruct (p x), (p y); cbn [sort_insert]; try done. by replace (cmp x y <=? 0) with false by lia. }
  induction l as [|x l IH]; [done|]. cbn [js_sort foldr List.filter]. fold (js_sort cmp l). rewrite (Hins _ _ (js_sort_sorted l)).
  destruct (p x); cbn [js_sort foldr]; [|done]. by rewrite <- IH.
Qed.

(** What a prefix keeps is no later in the order than what it leaves out. *)
Lemma js_sort_take_drop n l x y :
  x ∈ take n (js_sort cmp l) -> y ∈ drop n (js_sort cmp l) -> cmp x y <= 0.
Proof.
  pose proof (js_sort_sorted l) as Hs. rewrite <- (take_drop n (js_sort cmp l)) in Hs.
  revert Hs. generalize (take n (js_sort cmp l)) as p, (drop n (js_sort cmp l)) as q.
  induction p as [|z p IH]; simpl; intros q Hs Hx Hy; [by apply not_elem_of_nil in Hx|].
  apply StronglySorted_inv in Hs as [Hs Hz].
  apply elem_of_cons in Hx as [->|Hx]; [|by eapply IH].
  rewrite Forall_forall in Hz. apply Hz. set_solver.
Qed.
End Sorted.

(** What two sorted arrangements of one list without ties have in common: everything. *)
Lemma sorted_unique {A} (cmp : A -> A -> Z) (l l' : list A) :
  (forall x y, In x l -> In y l -> cmp x y <= 0 -> cmp y x <= 0 -> x = y) -> Permutation l l' ->
  StronglySorted (fun x y => cmp x y <= 0) l -> StronglySorted (fun x y => cmp x y <= 0) l' -> l = l'.
Proof.
  intros Hanti Hp Hs. revert l' Hp. induction Hs as [|x l Hs IH Hx]; intros l' Hp Hs'; [by apply Permutation_nil in Hp|].
  destruct l' as [|y l']; [by apply Permutation_sym, Permutation_nil in Hp|]. apply StronglySorted_inv in Hs' as [Hs' Hy].
  rewrite Forall_forall in Hx, Hy.
  assert (x = y) as <-.
  { assert (Hin : In y (x :: l)) by (eapply Permutation_in; [by apply Permutation_sym|by left]).
    assert (Hin' : In x (y :: l')) by (eapply Permutation_in; [done|by left]).
    destruct Hin as [->|Hin]; [done|]. destruct Hin' as [->|Hin']; [done|].
    apply Hanti; [by left|by right|apply Hx|apply Hy]; by apply list_elem_of_In. }
  f_equal. apply IH; [|by eapply Permutation_cons_inv|done]. intros a b Ha Hb. apply Hanti; by right.
Qed.

(** * Errors *)

(** A call that returns a value or throws. *)
Inductive outcome (A E : Type) := Ret (a : A) | Throw (e : E).
Arguments Ret {A E} a.
Arguments Throw {A E} e.

(** * Ordering of strings *)

(** [a < b] on strings: the lexicographic order of their code units. *)
Fixpoint str_ltb (s t : string) : bool :=
  match s, t with
  | _, EmptyString => false
  | EmptyString, String _ _ => true
  | String a r, String b r' => (code a <? code b) || ((code a =? code b) && str_ltb r r')
  end.

Lemma code_inj (a b : ascii) : code a = code b -> a = b.
Proof.
  unfold code. intros H%Nat2Z.inj.
  by rewrite <- (ascii_nat_embedding a), <- (ascii_nat_embedding b), H.
Qed.

Lemma str_ltb_trans s t u : str_ltb s t = true -> str_ltb t u = true -> str_ltb s u = true.
Proof.
  revert t u. induction s as [|a s IH]; intros [|b t] [|c u]; simpl; try done.
  rewrite !orb_true_iff, !andb_true_iff. intros [?|[? ?]] [?|[? ?]]; try (left; lia).
  right. split; [lia|]. eauto.
Qed.

Lemma str_ltb_total s t : str_ltb s t = true \/ str_ltb t s = true \/ s = t.
Proof.
  revert t. induction s as [|a s IH]; intros [|b t]; simpl; auto.
  destruct (Z.lt_total (code a) (code b)) as [H|[H|H]].
  - left. apply orb_true_iff. left. lia.
  - destruct (IH t) as [Ht|[Ht| ->]].
    + left. rewrite Ht, H, Z.eqb_refl. by rewrite orb_true_r.
    + right; left. rewrite Ht, H, Z.eqb_refl. by rewrite orb_true_r.
    + right; right. by rewrite (code_inj _ _ H).
  - right; left. apply orb_true_iff. left. lia.
Qed.

Lemma str_ltb_irrefl s : str_ltb s s = false.
Proof. induction s as [|a s IH]; simpl; [done|]. by rewrite IH, Z.ltb_irrefl, andb_false_r. Qed.

(** The three-way comparison that order makes. *)
Definition code_unit_cmp (a b : string) : Z := if str_ltb a b then -1 else if str_ltb b a then 1 else 0.
Lemma str_ltb_asym a b : str_ltb a b = true -> str_ltb b a = false.
Proof. intros H. destruct (str_ltb b a) eqn:Hba; [|done]. pose proof (str_ltb_trans a b a H Hba) as Hx. by rewrite str_ltb_irrefl in Hx. Qed.
Lemma code_unit_cmp_le a b : code_unit_cmp a b <= 0 <-> str_ltb b a = false.
Proof.
  unfold code_unit_cmp. destruct (str_ltb a b) eqn:Hab; [|destruct (str_ltb b a); split; done || lia].
  split; [intros _; by apply str_ltb_asym|lia].
Qed.
Lemma str_le_trans a b c : str_ltb b a = false -> str_ltb c b = false -> str_ltb c a = false.
Proof.
  intros Hab Hbc. destruct (str_ltb c a) eqn:Hca; [|done]. exfalso.
  destruct (str_ltb_total a b) as [H|[H|H]]; [|congruence|subst; congruence].
  rewrite (str_ltb_trans c a b Hca H) in Hbc. done.
Qed.
Lemma str_le_antisym a b : str_ltb b a = false -> str_ltb a b = false -> a = b.
Proof. intros H1 H2. destruct (str_ltb_total a b) as [H|[H|H]]; congruence. Qed.
Lemma code_unit_total a b : code_unit_cmp a b <= 0 \/ code_unit_cmp b a <= 0.
Proof.
  rewrite !code_unit_cmp_le. destruct (str_ltb_total a b) as [H|[H| ->]]; [left|right|left]; [by apply str_ltb_asym..|apply str_ltb_irrefl].
Qed.
Lemma code_unit_trans a b c : code_unit_cmp a b <= 0 -> code_unit_cmp b c <= 0 -> code_unit_cmp a c <= 0.
Proof. rewrite !code_unit_cmp_le. apply str_le_trans. Qed.

(** ** Separators *)

Definition char_free (c : ascii) (s : string) : bool := str_forallb (fun x => negb (Ascii.eqb x c)) s.

(** Up to the first separator two equal strings agree. *)
Lemma split_first c a a' r r' : char_free c a = true -> char_free c a' = true ->
  String.append a (String c r) = String.append a' (String c r') -> a = a' /\ r = r'.
Proof.
  unfold char_free. revert a'. induction a as [|x a IH]; intros [|x' a']; simpl.
  - by intros _ _ [= ->].
  - intros _ Hb [= Hc _]. by rewrite <- Hc, Ascii.eqb_refl in Hb.
  - intros Hb _ [= Hc _]. by rewrite Hc, Ascii.eqb_refl in Hb.
  - intros [_ Ha]%andb_true_iff [_ Ha']%andb_true_iff [= -> H]. by destruct (IH a' Ha Ha' H) as [-> ->].
Qed.

(** * Insertion-ordered maps

    A JavaScript [Map] is an association list in insertion order: [set] updates
    a present key in place and appends an absent one. *)

Section JsMap.
Context {V : Type}.

Definition jsmap : Type := list (string * V).

Fixpoint map_get (m : jsmap) (k : string) : option V :=
  match m with [] => None | (k', v) :: r => if k' =s k then Some v else map_get r k end.

Fixpoint map_set (m : jsmap) (k : string) (v : V) : jsmap :=
  match m with
  | [] => [(k, v)]
  | (k', v') :: r => if k' =s k then (k', v) :: r else (k', v') :: map_set r k v
  end.

Definition map_keys (m : jsmap) : list string := map fst m.

(** The invariant of a map: no key occurs twice. *)
Definition map_wf (m : jsmap) : Prop := NoDup (map_keys m).

Lemma map_get_set m k v k' :
  map_get (map_set m k v) k' = if k =s k' then Some v else map_get m k'.
Proof.
  induction m as [|[a w] m IH]; simpl; [done|].
  destruct (String.eqb_spec a k) as [->|Hak]; simpl.
  - by destruct (k =s k').
  - rewrite IH. destruct (String.eqb_spec a k') as [->|]; [|done].
    destruct (String.eqb_spec k k') as [->|]; congruence.
Qed.

Lemma elem_of_map_keys m k : k ∈ map_keys m <-> map_get m k <> None.
Proof.
  induction m as [|[a w] m IH]; simpl; [split; [by intros ?%not_elem_of_nil|done]|].
  rewrite elem_of_cons, IH. destruct (String.eqb_spec a k) as [->|]; [naive_solver|].
  split; [intros [?|?]; congruence|auto].
Qed.

Lemma map_keys_set m k v :
  map_keys (map_set m k v) = match map_get m k with Some _ => map_keys m | None => map_keys m ++ [k] end.
Proof.
  induction m as [|[a w] m IH]; simpl; [done|].
  destruct (String.eqb_spec a k) as [->|]; simpl; [done|].
  rewrite IH. by destruct (map_get m k).
Qed.

Lemma map_wf_set m k v : map_wf m -> map_wf (map_set m k v).
Proof.
  unfold map_wf. rewrite map_keys_set. destruct (map_get m k) eqn:Hk; [done|].
  intros Hm. apply NoDup_app. split; [done|]. split; [|apply NoDup_singleton].
  intros x Hx ->%list_elem_of_singleton. by apply elem_of_map_keys in Hx.
Qed.

Lemma length_map_set m k v :
  length (map_set m k v) = match map_get m k with Some _ => length m | None => S (length m) end.
Proof.
  pose proof (map_keys_set m k v) as Hk. unfold map_keys in Hk.
  apply (f_equal length) in Hk. rewrite length_map in Hk. rewrite Hk.
  destruct (map_get m k); [apply length_map|].
  rewrite length_app, length_map. simpl. lia.
Qed.
End JsMap.
Arguments jsmap V : clear implicits.

(** * Lists with unique keys, and filters *)

Lemma find_unique_by {A B} (f : A -> B) (p : A -> bool) (l : list A) (x : A) :
  NoDup (map f l) -> In x l -> p x = true -> (forall y, p y = true -> f y = f x) -> List.find p l = Some x.
Proof.
  intros Hnd Hin Hx Hp. induction l as [|y l IH]; [done|]. cbn [map List.find] in *. apply NoDup_cons in Hnd as [Hy Hnd].
  destruct Hin as [->|Hin]; [by rewrite Hx|]. destruct (p y) eqn:Hpy; [|by apply IH].
  destruct Hy. rewrite (Hp y Hpy). apply list_elem_of_In. by apply in_map.
Qed.
Lemma find_unique_key {A} (key : A -> string) (l : list A) (x : A) :
  NoDup (map key l) -> In x l -> List.find (fun y => key y =s key x) l = Some x.
Proof. intros Hnd Hin. apply (find_unique_by key); [done|done|apply String.eqb_refl|]. by intros y ?%String.eqb_eq. Qed.

Lemma existsb_false {A} (p : A -> bool) l : existsb p l = false -> forall x, In x l -> p x = false.
Proof. intros H x Hx. destruct (p x) eqn:Hp; [|done]. rewrite <- H. symmetry. apply existsb_exists. by exists x. Qed.

Lemma NoDup_key_inj {A} (key : A -> string) (l : list A) x y : NoDup (map key l) -> In x l -> In y l -> key x = key y -> x = y.
Proof. intros Hnd Hx Hy Hk. by apply (NoDup_map_inj_in key l). Qed.

Lemma filter_all {A} (p : A -> bool) l : (forall x, In x l -> p x = true) -> List.filter p l = l.
Proof.
  induction l as [|x l IH]; intros H; [done|]. cbn [List.filter]. rewrite (H x) by (by left). f_equal. apply IH. intros y Hy. apply H. by right.
Qed.
Lemma filter_andb {A} (p q : A -> bool) l : List.filter (fun x => p x && q x) l = List.filter q (List.filter p l).
Proof. induction l as [|x l IH]; [done|]. cbn [List.filter]. destruct (p x); cbn [andb List.filter]; [destruct (q x)|]; by rewrite IH. Qed.
Lemma filter_split_length {A} (p : A -> bool) l : (length (List.filter p l) + length (List.filter (fun x => negb (p x)) l) = length l)%nat.
Proof. induction l as [|x l IH]; [done|]. cbn [List.filter]. destruct (p x); cbn [length negb]; lia. Qed.
Lemma filter_perm {A} (p : A -> bool) l l' : Permutation l l' -> Permutation (List.filter p l) (List.filter p l').
Proof.
  induction 1 as [|x l l' _ IH|x y l|l l' l'' _ IH _ IH']; [done| | |by rewrite IH]; cbn [List.filter]; [by destruct (p x); rewrite IH|].
  destruct (p x), (p y); done || apply Permutation_swap.
Qed.
Lemma filter_comm {A} (p q : A -> bool) l : List.filter p (List.filter q l) = List.filter q (List.filter p l).
Proof. induction l as [|x l IH]; [done|]. cbn [List.filter]. destruct (p x) eqn:Hp, (q x) eqn:Hq; cbn [List.filter]; rewrite ?Hp, ?Hq, ?IH; done. Qed.

(** * Counting rows *)

Definition count {A} (p : A -> bool) (l : list A) : Z := Z.of_nat (length (List.filter p l)).
Lemma count_app {A} (p : A -> bool) l l' : count p (l ++ l') = count p l + count p l'.
Proof. unfold count. rewrite List.filter_app, length_app. lia. Qed.
Lemma count_one {A} (p : A -> bool) x : count p [x] = if p x then 1 else 0.
Proof. unfold count. simpl. by destruct (p x). Qed.
Lemma count_cons {A} (p : A -> bool) x l : count p (x :: l) = (if p x then 1 else 0) + count p l.
Proof. unfold count. simpl. destruct (p x); simpl; lia. Qed.
Lemma count_nonneg {A} (p : A -> bool) l : 0 <= count p l.
Proof. unfold count. lia. Qed.
Lemma count_le {A} (p q : A -> bool) l : (forall x, In x l -> p x = true -> q x = true) -> count p l <= count q l.
Proof.
  induction l as [|x l IH]; intros H; [done|]. rewrite !count_cons.
  assert (IH' : count p l <= count q l) by (apply IH; intros y Hy; apply H; by right).
  pose proof (H x (or_introl eq_refl)) as Hx. destruct (p x); [rewrite Hx by done|destruct (q x)]; lia.
Qed.
Lemma count_pos {A} (p : A -> bool) l x : In x l -> p x = true -> 1 <= count p l.
Proof.
  induction l as [|y l IH]; [by intros []|]. rewrite count_cons. intros [->|Hin] Hp; [rewrite Hp|specialize (IH Hin Hp); destruct (p y)];
    pose proof (count_nonneg p l); lia.
Qed.
Lemma count_map_le {A} (p : A -> bool) (f : A -> A) l : (forall x, In x l -> p (f x) = true -> p x = true) -> count p (map f l) <= count p l.
Proof.
  induction l as [|x l IH]; intros H; [done|]. cbn [map]. rewrite !count_cons.
  assert (IH' : count p (map f l) <= count p l) by (apply IH; intros y Hy; apply H; by right).
  pose proof (H x (or_introl eq_refl)) as Hx. destruct (p (f x)); [rewrite Hx by done|destruct (p x)]; lia.
Qed.
(** A counted row that the rewriting takes out of the count. *)
Lemma count_map_lt {A} (p : A -> bool) (f : A -> A) l x :
  (forall x, In x l -> p (f x) = true -> p x = true) -> In x l -> p x = true -> p (f x) = false -> count p (map f l) + 1 <= count p l.
Proof.
  induction l as [|y l IH]; intros H; [by intros []|]. cbn [map]. rewrite !count_cons.
  assert (Hl : forall z, In z l -> p (f z) = true -> p z = true) by (intros z Hz; apply H; by right).
  pose proof (count_map_le p f l Hl). intros [->|Hin] Hp Hf; [rewrite Hp, Hf; lia|]. specialize (IH Hl Hin Hp Hf).
  pose proof (H y (or_introl eq_refl)) as Hy. destruct (p (f y)); [rewrite Hy by done|destruct (p y)]; lia.
Qed.
Lemma count_filter_le {A} (p q : A -> bool) l : count p (List.filter q l) <= count p l.
Proof. induction l as [|x l IH]; [done|]. cbn [List.filter]. destruct (q x); rewrite !count_cons; destruct (p x); lia. Qed.

Lemma find_app_l {A} (p : A -> bool) l l' x : List.find p l = Some x -> List.find p (l ++ l') = Some x.
Proof. induction l as [|y l IH]; [done|]. cbn. by destruct (p y). Qed.

(** [updateMany({ where, data })] on a table. *)
Definition update_where {A} (p : A -> bool) (f : A -> A) (l : list A) : list A := map (fun x => if p x then f x else x) l.

Lemma update_where_keys {A K} (key : A -> K) (p : A -> bool) f l : (forall x, key (f x) = key x) -> map key (update_where p f l) = map key l.
Proof. intros Hk. unfold update_where. rewrite map_map. apply map_ext. intros x. by destruct (p x). Qed.
Lemma find_update_where {A} (q p : A -> bool) f l : (forall x, q (f x) = q x) ->
  List.find q (update_where p f l) = option_map (fun x => if p x then f x else x) (List.find q l).
Proof.
  intros Hq. induction l as [|x l IH]; [done|]. cbn [update_where map List.find]. destruct (p x) eqn:Hp; rewrite ?Hq; destruct (q x); cbn [option_map];
    rewrite ?Hp; done || apply IH.
Qed.
Lemma find_key_update {A} (q p : A -> bool) f l : (forall x, In x l -> q x = p x) -> (forall x, q (f x) = q x) ->
  List.find q (update_where p f l) = option_map f (List.find q l).
Proof.
  intros Hqp Hq. rewrite find_update_where by done. destruct (List.find q l) as [x|] eqn:Hf; [|done].
  apply List.find_some in Hf as [Hin Hx]. cbn. by rewrite <- Hqp, Hx.
Qed.
Lemma update_none {A} (p : A -> bool) f l : (forall x, In x l -> p x = false) -> update_where p f l = l.
Proof. intros H. unfold update_where. rewrite <- (map_id l) at 2. apply map_ext_in. intros x Hx. by rewrite H. Qed.

(** ** Tables that grow

    A table evolves when each row becomes a row related to it and rows that satisfy [Q]
    are appended. *)
Section Evolves.
Context {A : Type} (R : A -> A -> Prop) (Q : A -> Prop).
Definition evolves (l l' : list A) : Prop := exists kept new, l' = kept ++ new /\ Forall2 R l kept /\ Forall Q new.
Hypothesis R_refl : forall x, R x x.
Hypothesis R_trans : forall x y z, R x y -> R y z -> R x z.
Hypothesis Q_step : forall x y, Q x -> R x y -> Q y.

Lemma Forall2_same l : Forall2 R l l.
Proof. induction l; by constructor. Qed.
Lemma Forall2_steps l1 l2 l3 : Forall2 R l1 l2 -> Forall2 R l2 l3 -> Forall2 R l1 l3.
Proof. intros H. revert l3. induction H as [|a b l1 l2 Hab _ IH]; intros l3 H2; inversion H2; subst; constructor; [by eapply R_trans|auto]. Qed.
Lemma Forall_step l l' : Forall Q l -> Forall2 R l l' -> Forall Q l'.
Proof. intros Hq H. induction H as [|x y l l' Hxy _ IH]; inversion Hq; subst; constructor; [by eapply Q_step|auto]. Qed.
Lemma evolves_grow l new : Forall Q new -> evolves l (l ++ new).
Proof. intros Hq. exists l, new. split; [done|]. split; [apply Forall2_same|done]. Qed.
Lemma evolves_refl l : evolves l l.
Proof. rewrite <- (app_nil_r l) at 2. by apply evolves_grow. Qed.
Lemma evolves_map f l : (forall x, In x l -> R x (f x)) -> evolves l (map f l).
Proof.
  intros H. exists (map f l), []. rewrite app_nil_r. split; [done|]. split; [|done]. induction l as [|x l IH]; constructor; [apply H; by left|].
  apply IH. intros y Hy. apply H. by right.
Qed.
Lemma evolves_trans l1 l2 l3 : evolves l1 l2 -> evolves l2 l3 -> evolves l1 l3.
Proof.
  intros (k1 & n1 & -> & F1 & Q1) (k2 & n2 & -> & F2 & Q2). apply Forall2_app_inv_l in F2 as (k3 & n3 & Fk & Fn & ->).
  exists k3, (n3 ++ n2). rewrite <- app_assoc. split; [done|]. split; [by eapply Forall2_steps|]. apply Forall_app. split; [|done].
  exact (Forall_step _ _ Q1 Fn).
Qed.
End Evolves.

(** * Automation

    [guards] holds the equations between a boolean guard of the source and the
    condition it tests; [guards_in H] turns the guards of a hypothesis into
    conditions. [tam] holds the facts about the shared functions that close goals. *)
Create Rewrite HintDb guards.
Create HintDb tam.
#[export] Hint Rewrite andb_true_iff orb_true_iff orb_false_iff negb_true_iff negb_false_iff String.eqb_eq
  bool_decide_eq_true includes_In Z.eqb_eq Z.leb_le : guards.
#[export] Hint Rewrite @enum_eqb_eq using typeclasses eauto : guards.
#[export] Hint Resolve js_sort_perm NoDup_js_set length_remove_dups_le enum_eqb_refl code_inj
  str_ltb_irrefl map_wf_set : tam.
Ltac guards_in H := autorewrite with guards in H.
Ltac guards_goal := autorewrite with guards.
