(* ===== verification/JsValue.v ===== *)
(** Values of the language that the source receives untyped (a request body, a JSON
    column, the answer of a model) and has to look at before it trusts them. *)
From S2P Require Import Prelude.
From Stdlib Require Import QArith.
Open Scope string_scope.
Open Scope list_scope.
Open Scope Z_scope.
Open Scope tam_scope.

Module JsValue.

(** A number of the language: a finite double is a rational, beside the special values. *)
Inductive js_number := NNaN | NPosInf | NNegInf | NFin (q : Q).

(** A raw value, as far as the validator distinguishes values. *)
Inductive raw_value :=
| VUndefined | VNull | VBool (b : bool) | VNumber (n : js_number) | VString (s : string)
| VArray (l : list raw_value) | VObject (fields : list (string * raw_value)).

(** [obj[k]] on own fields: no field of the contract is inherited. *)
Definition field (fields : list (string * raw_value)) (k : string) : raw_value :=
  nullish (map_get fields k) VUndefined.

Definition is_undefined (v : raw_value) : bool := match v with VUndefined => true | _ => false end.
(** [v === undefined || v === null] *)
Definition is_nullish (v : raw_value) : bool := match v with VUndefined | VNull => true | _ => false end.
(** [l.includes(v as string)] *)
Definition includes_value (l : list string) (v : raw_value) : bool :=
  match v with VString s => includes l s | _ => false end.
(** [n < 0 || n > 1]; every comparison with NaN is false. *)
Definition outside_unit (n : js_number) : bool :=
  match n with
  | NNaN => false | NPosInf | NNegInf => true
  | NFin q => negb (Qle_bool 0 q) || negb (Qle_bool q 1)
  end.

End JsValue.
