(* ===== verification/JsonText.v ===== *)
(** JSON as text: [JSON.stringify] of an untyped value, the same with sorted keys
    ([packages/db/src/child-safety-policy.ts stableStringify]), and what a text determines:
    members written one after the other can be read back, so two flat objects with the same text
    are the same object. *)
From S2P Require Import Prelude JsValue.
From Stdlib Require Import QArith.
Open Scope string_scope.
Open Scope list_scope.
Open Scope Z_scope.
Open Scope tam_scope.
Import JsValue.

Module JsonText.

(** The decimal text of a finite number is the language's own. What is relied on: it is one token
    of digits, signs, a point and an exponent, and two numbers with the same text are the same. *)
Definition is_number_char (c : ascii) : bool :=
  is_digit c || Ascii.eqb c "-"%char || Ascii.eqb c "+"%char || Ascii.eqb c "."%char || Ascii.eqb c "e"%char.
Class NumberText (number_string : Q -> string) : Prop := {
  number_chars : forall q, str_forallb is_number_char (number_string q) = true;
  number_nonempty : forall q, number_string q <> "";
  number_inj : forall p q, number_string p = number_string q -> (p == q)%Q }.

(** * Writing *)

Definition hex_digit (n : Z) : ascii := ascii_of_nat (Z.to_nat (if n <? 10 then 48 + n else 87 + n)).
(** A character inside a JSON string: the quote, the backslash and the control characters are escaped. *)
Definition escape_char (c : ascii) : string :=
  if code c =? 34 then String "\" dquote
  else if code c =? 92 then "\\"
  else if code c =? 8 then "\b" else if code c =? 9 then "\t" else if code c =? 10 then "\n"
  else if code c =? 12 then "\f" else if code c =? 13 then "\r"
  else if code c <? 32 then "\u00" +:+ String (hex_digit (code c / 16)) (String (hex_digit (code c mod 16)) "")
  else String c "".
Fixpoint escape (s : string) : string :=
  match s with EmptyString => "" | String c r => escape_char c +:+ escape r end.
Definition quote (s : string) : string := dquote +:+ escape s +:+ dquote.

Section Text.
Context (number_string : Q -> string).

Definition number_json (n : js_number) : string := match n with NFin q => number_string q | _ => "null" end.
Definition scalar_json (v : raw_value) : string :=
  match v with
  | VBool b => if b then "true" else "false"
  | VNumber n => number_json n
  | VString s => quote s
  | _ => "null"
  end.
Definition member (k t : string) : string := quote k +:+ ":" +:+ t.
Definition braces (members : list string) : string := "{" +:+ String.concat "," members +:+ "}".

(** [JSON.stringify(v)]; [None] is [undefined], which an object drops and an array writes as null. *)
Fixpoint stringify (v : raw_value) : option string :=
  match v with
  | VUndefined => None
  | VArray l => Some ("[" +:+ String.concat "," (map (fun x => stringify x ?? "null") l) +:+ "]")
  | VObject fields => Some (braces (flat_map (fun '(k, x) => match stringify x with Some t => [member k t] | None => [] end) fields))
  | _ => Some (scalar_json v)
  end.

(** Keys in code-unit order. *)
Definition key_cmp {A} (a b : string * A) : Z := if str_ltb (fst b) (fst a) then 1 else 0.
Definition sort_keys {A} (l : list (string * A)) : list (string * A) := js_sort key_cmp l.
(** [JSON.stringify(v)] written into a template: the absent value as the word undefined. *)
(* src: packages/db/src/child-safety-policy.ts:36-41 stableStringify *)
Fixpoint stableStringify (v : raw_value) : string :=
  match v with
  | VUndefined => "undefined"
  | VArray l => "[" +:+ String.concat "," (map stableStringify l) +:+ "]"
  | VObject fields => braces (map (fun '(k, t) => member k t) (sort_keys (map (fun '(k, x) => (k, stableStringify x)) fields)))
  | _ => scalar_json v
  end.

(** * Reading back *)

Definition scalar (v : raw_value) : Prop :=
  match v with VBool _ | VString _ | VNumber (NFin _) => True | _ => False end.
(** Equal as far as the language can tell: numbers by value. *)
Definition same_value (v w : raw_value) : Prop :=
  match v, w with
  | VNumber (NFin p), VNumber (NFin q) => (p == q)%Q
  | VNumber (NFin _), _ | _, VNumber (NFin _) => False
  | _, _ => v = w
  end.

Lemma same_value_refl v : same_value v v.
Proof. destruct v as [| |b|[| | |q]|s|l|f]; simpl; try done. Qed.

(** One escaped character read back. *)
Definition hex_value (c : ascii) : Z := if code c <? 58 then code c - 48 else code c - 87.
Definition unescape (s : string) : option (ascii * string) :=
  match s with
  | String c r =>
      if code c =? 34 then None
      else if code c =? 92 then
        match r with
        | String x r' =>
            if Ascii.eqb x "u"%char then
              match r' with
              | String _ (String _ (String h (String l r''))) => Some (ascii_of_nat (Z.to_nat (hex_value h * 16 + hex_value l)), r'')
              | _ => None
              end
            else Some (if Ascii.eqb x "b"%char then "008" else if Ascii.eqb x "t"%char then "009" else if Ascii.eqb x "n"%char then "010"
                       else if Ascii.eqb x "f"%char then "012" else if Ascii.eqb x "r"%char then "013" else x, r')%char
        | EmptyString => None
        end
      else Some (c, r)
  | EmptyString => None
  end.
Lemma unescape_escape c r : unescape (escape_char c +:+ r) = Some (c, r).
Proof. destruct c as [[] [] [] [] [] [] [] []]; reflexivity. Qed.

Lemma text_app_assoc (a b c : string) : (a +:+ b) +:+ c = a +:+ (b +:+ c).
Proof. induction a as [|x a IH]; [done|]. change (String x ((a +:+ b) +:+ c) = String x (a +:+ (b +:+ c))). by rewrite IH. Qed.

Lemma escape_inj s s' r r' : escape s +:+ dquote +:+ r = escape s' +:+ dquote +:+ r' -> s = s' /\ r = r'.
Proof.
  revert s'. induction s as [|c s IH]; intros [|c' s']; cbn [escape]; intros H.
  - by injection H.
  - apply (f_equal unescape) in H. by rewrite text_app_assoc, unescape_escape in H.
  - apply (f_equal unescape) in H. by rewrite text_app_assoc, unescape_escape in H.
  - rewrite !text_app_assoc in H. apply (f_equal unescape) in H. rewrite !unescape_escape in H.
    injection H as -> H. by destruct (IH _ H) as [-> ->].
Qed.
Lemma quote_inj s s' r r' : quote s +:+ r = quote s' +:+ r' -> s = s' /\ r = r'.
Proof.
  intros H. apply (escape_inj s s' r r'). change (String "034" ((escape s +:+ dquote) +:+ r) = String "034" ((escape s' +:+ dquote) +:+ r')) in H.
  injection H as H. by rewrite !text_app_assoc in H.
Qed.

(** A token ends where its characters do. *)
Lemma token_split (p : ascii -> bool) a b c d r r' : str_forallb p a = true -> str_forallb p b = true -> p c = false -> p d = false ->
  a +:+ String c r = b +:+ String d r' -> a = b /\ String c r = String d r'.
Proof.
  intros Ha Hb Hc Hd. revert b Hb. induction a as [|x a IH]; intros [|y b] Hb H; cbn in *.
  - done.
  - injection H as -> _. apply andb_true_iff in Hb as [Hb _]. congruence.
  - injection H as -> _. apply andb_true_iff in Ha as [Ha _]. congruence.
  - apply andb_true_iff in Ha as [_ Ha], Hb as [_ Hb]. injection H as -> H. by destruct (IH Ha b Hb H) as [-> ->].
Qed.

Section Injective.
Context `{!NumberText number_string}.
(** The two characters that may follow a member of a flat object. *)
Definition is_end (c : ascii) : bool := Ascii.eqb c ","%char || Ascii.eqb c "}"%char.
Lemma end_no_number c : is_end c = true -> is_number_char c = false.
Proof. unfold is_end. rewrite orb_true_iff, !Ascii.eqb_eq. by intros [-> | ->]. Qed.
Lemma number_first q : exists c t, number_string q = String c t /\ is_number_char c = true.
Proof.
  pose proof (number_nonempty q) as Hn. pose proof (number_chars q) as Hc. destruct (number_string q) as [|c t]; [done|].
  cbn in Hc. apply andb_true_iff in Hc as [Hc _]. by exists c, t.
Qed.

Lemma scalar_json_inj v w c d r r' : scalar v -> scalar w -> is_end c = true -> is_end d = true ->
  scalar_json v +:+ String c r = scalar_json w +:+ String d r' -> same_value v w /\ String c r = String d r'.
Proof.
  destruct v as [| |b|[| | |q]|s|l|f], w as [| |b'|[| | |q']|s'|l'|f']; cbn [scalar scalar_json number_json same_value]; try done; intros _ _ Hc Hd H.
  - destruct b, b'; cbn in H; try done; injection H; split; congruence.
  - destruct (number_first q') as (x & t & Ht & Hx). rewrite Ht in H. destruct b; injection H as <- _; done.
  - by destruct b.
  - destruct (number_first q) as (x & t & Ht & Hx). rewrite Ht in H. destruct b'; injection H as -> _; done.
  - destruct (token_split is_number_char (number_string q) (number_string q') c d r r') as [Hq Hr]; auto using number_chars, end_no_number.
    split; [by apply number_inj|done].
  - destruct (number_first q) as (x & t & Ht & Hx). rewrite Ht in H. injection H as -> _. done.
  - by destruct b'.
  - destruct (number_first q') as (x & t & Ht & Hx). rewrite Ht in H. injection H as <- _. done.
  - apply quote_inj in H as [-> H]. done.
Qed.

Definition write_member (p : string * raw_value) : string := member (fst p) (scalar_json (snd p)).
Definition same_member (p q : string * raw_value) : Prop := fst p = fst q /\ same_value (snd p) (snd q).
Lemma member_inj p q c d r r' : scalar (snd p) -> scalar (snd q) -> is_end c = true -> is_end d = true ->
  write_member p +:+ String c r = write_member q +:+ String d r' -> same_member p q /\ String c r = String d r'.
Proof.
  unfold write_member, member, same_member. intros Hp Hq Hc Hd H. rewrite !text_app_assoc in H. apply quote_inj in H as [Hk H]. cbn in H. injection H as H.
  by destruct (scalar_json_inj _ _ _ _ _ _ Hp Hq Hc Hd H) as [? ?].
Qed.
Lemma write_member_cons p : exists t, write_member p = String "034" t.
Proof. unfold write_member, member, quote, dquote. cbn. by eexists. Qed.

(** The text of a flat object determines its members. *)
Lemma members_inj l l' r r' : Forall (fun p => scalar (snd p)) l -> Forall (fun p => scalar (snd p)) l' ->
  String.concat "," (map write_member l) +:+ String "}" r = String.concat "," (map write_member l') +:+ String "}" r' ->
  Forall2 same_member l l'.
Proof.
  intros Hl. revert l'. induction Hl as [|p l Hp Hl IH]; intros l' Hl' H.
  - destruct l' as [|q l']; [constructor|]. destruct (write_member_cons q) as (t & Ht). cbn [map String.concat] in H. rewrite Ht in H. by destruct (map write_member l').
  - destruct Hl' as [|q l' Hq Hl'].
    { destruct (write_member_cons p) as (t & Ht). cbn [map String.concat] in H. rewrite Ht in H. by destruct (map write_member l). }
    destruct l as [|p2 l], l' as [|q2 l']; cbn [map String.concat] in H.
    + destruct (member_inj p q "}"%char "}"%char r r' Hp Hq) as [Hs _]; [done..|]. constructor; [done|]. apply Forall2_nil_2.
    + rewrite !text_app_assoc in H. by destruct (member_inj p q "}"%char ","%char _ _ Hp Hq eq_refl eq_refl H) as [_ ?].
    + rewrite !text_app_assoc in H. by destruct (member_inj p q ","%char "}"%char _ _ Hp Hq eq_refl eq_refl H) as [_ ?].
    + rewrite !text_app_assoc in H. destruct (member_inj p q ","%char ","%char _ _ Hp Hq eq_refl eq_refl H) as [Hs Hr].
      constructor; [done|]. apply IH; [done|]. by injection Hr.
Qed.
End Injective.
End Text.
End JsonText.
