(* ===== verification/Keyset.v ===== *)
(** Keyset pagination: the order (time descending, id descending) in which the
    repositories list rows, the page after a row, and the walk through all pages. *)
From S2P Require Import Prelude.
Open Scope string_scope.
Open Scope list_scope.
Open Scope Z_scope.
Open Scope tam_scope.

Module Keyset.

Section Keyset.
Context {A : Type} (at_ : A -> Z) (ident : A -> string).

(** [a] is listed before [b]: it is newer, or as new with a greater id. *)
Definition newer (a b : A) : bool := (at_ b <? at_ a) || ((at_ a =? at_ b) && str_ltb (ident b) (ident a)).
Definition list_order (a b : A) : Z := if newer b a then 1 else 0.
(** Rows whose ids are distinct are listed in one order only. *)
Abbreviation listing := (StronglySorted (fun a b => list_order a b <= 0)).

Lemma newer_irrefl a : newer a a = false.
Proof. unfold newer. by rewrite Z.ltb_irrefl, str_ltb_irrefl, andb_false_r. Qed.
Lemma newer_trans a b c : newer a b = true -> newer b c = true -> newer a c = true.
Proof.
  unfold newer. rewrite !orb_true_iff, !andb_true_iff, !Z.ltb_lt, !Z.eqb_eq. intros [H|[H H']] [G|[G G']]; [left; lia..|].
  right. split; [lia|]. by eapply str_ltb_trans.
Qed.
Lemma newer_total a b : ident a <> ident b -> newer a b = true \/ newer b a = true.
Proof.
  intros Hid. unfold newer. rewrite !orb_true_iff, !andb_true_iff, !Z.ltb_lt, !Z.eqb_eq.
  destruct (Z.lt_total (at_ a) (at_ b)) as [|[|]]; [by right; left| |by left; left].
  destruct (str_ltb_total (ident a) (ident b)) as [|[|]]; [right|left|done]; right; done.
Qed.
Lemma list_order_le a b : list_order a b <= 0 <-> newer b a = false.
Proof. unfold list_order. by destruct (newer b a). Qed.
Lemma list_order_total a b : list_order a b <= 0 \/ list_order b a <= 0.
Proof. rewrite !list_order_le. destruct (newer b a) eqn:H; [|by left]. right. destruct (newer a b) eqn:G; [|done]. by rewrite <- (newer_irrefl a), (newer_trans a b a). Qed.
Lemma list_order_trans a b c : list_order a b <= 0 -> list_order b c <= 0 -> list_order a c <= 0.
Proof.
  rewrite !list_order_le. intros H G. destruct (newer c a) eqn:Hca; [|done]. destruct (decide (ident a = ident b)) as [He|Hne].
  - revert H G Hca. unfold newer. rewrite He. rewrite !orb_false_iff, !andb_false_iff, orb_true_iff, andb_true_iff, !Z.ltb_lt, !Z.ltb_ge, !Z.eqb_eq, !Z.eqb_neq.
    rewrite str_ltb_irrefl. intros [H1 _] [G1 G2] [|[]]; [lia|]. destruct G2 as [|G2]; [lia|congruence].
  - destruct (newer_total a b Hne) as [Hab|]; [|congruence]. by rewrite <- G, (newer_trans c a b).
Qed.
Lemma js_sort_listing l : listing (js_sort list_order l).
Proof. apply js_sort_sorted; [exact list_order_total|exact list_order_trans]. Qed.

Lemma filter_before (p : A -> bool) pre x rest : (forall n, In n pre -> p n = false) -> p x = false -> (forall n, In n rest -> p n = true) ->
  List.filter p (pre ++ x :: rest) = rest.
Proof.
  intros Hpre Hx Hrest. rewrite List.filter_app. rewrite (proj2 (filter_nil_iff p pre)) by done. cbn [app List.filter]. rewrite Hx. by apply filter_all.
Qed.
(** In a listing, the rows older than one of them are those after it. *)
Lemma sorted_split pre x rest : NoDup (map ident (pre ++ x :: rest)) -> listing (pre ++ x :: rest) ->
  List.filter (newer x) (pre ++ x :: rest) = rest.
Proof.
  intros Hnd Hs. assert (Hxrest : forall n, In n rest -> newer n x = false /\ ident n <> ident x).
  { clear - Hnd Hs. induction pre as [|y pre IH]; cbn [app] in *.
    - apply StronglySorted_inv in Hs as [_ Hs]. cbn [map] in Hnd. apply NoDup_cons in Hnd as [Hx _]. rewrite Forall_forall in Hs.
      intros n Hn. split; [apply list_order_le, Hs; by apply list_elem_of_In|]. intros He. apply Hx. rewrite <- He. apply list_elem_of_In. by apply in_map.
    - apply StronglySorted_inv in Hs as [Hs _]. cbn [map] in Hnd. apply NoDup_cons in Hnd as [_ Hnd]. auto. }
  assert (Hpre : forall n, In n pre -> newer x n = false).
  { clear - Hs. induction pre as [|y pre IH]; [by intros ? []|]. cbn [app] in Hs. apply StronglySorted_inv in Hs as [Hs Hy].
    intros n [<-|Hn]; [|auto]. rewrite Forall_forall in Hy. apply list_order_le, Hy. set_solver. }
  apply filter_before; [done|apply newer_irrefl|]. intros n Hn. destruct (Hxrest n Hn) as [Hnx Hid].
  destruct (newer_total x n); [congruence|done|congruence].
Qed.
(** Selecting the rows after [x] and then sorting is taking what follows [x] in the listing. *)
Lemma rows_after (p : A -> bool) t pre x rest : NoDup (map ident t) -> js_sort list_order (List.filter p t) = pre ++ x :: rest ->
  js_sort list_order (List.filter (fun n => p n && newer x n) t) = rest.
Proof.
  intros Hnd Hs. rewrite filter_andb, (js_sort_filter list_order list_order_total list_order_trans), Hs. apply sorted_split.
  - rewrite <- Hs, js_sort_perm. by apply NoDup_map_filter.
  - rewrite <- Hs. apply js_sort_listing.
Qed.
End Keyset.
End Keyset.
