(* ===== verification/Billing.v ===== *)
(** Business billing: the plan catalogue, Stripe price resolution and readiness,
    access and lifecycle resolution, the billing presentation, webhook ordering
    and the duplicate-checkout guard ([packages/core/src/billing.ts]).

    Instants are milliseconds since the epoch ([Z], the value of [getTime()]).
    The optional [now] argument of the source, which defaults to the clock, is an
    explicit argument here. *)

From S2P Require Import Prelude.
Open Scope string_scope.
Open Scope list_scope.
Open Scope Z_scope.
Open Scope tam_scope.

(** * Data model *)

(* src: packages/core/src/billing.ts:9-9 BillingPlanId *)
Inductive BillingPlanId := free_trial | starter | growth | agency | enterprise.

(* src: packages/core/src/billing.ts:10-10 BillingInterval *)
Inductive BillingInterval := monthly | yearly.

(* src: packages/core/src/billing.ts:12-19 BillingStatus *)
Inductive BillingStatus :=
  | trialing | active | past_due | unpaid | canceled
  | incomplete | incomplete_expired | paused | no_subscription.

(* src: packages/core/src/billing.ts:21-23 AccessState *)
Inductive AccessState := full_access | grace_period | restricted | suspended.

(* src: packages/core/src/billing.ts:362-366 TenantLifecycleState *)
Inductive TenantLifecycleState :=
  | lc_active_trial | lc_trial_expired | lc_active_paid | lc_past_due | lc_canceled | lc_suspended.

#[export] Instance BillingPlanId_eq_dec : EqDecision BillingPlanId.
Proof. solve_decision. Defined.
#[export] Instance BillingInterval_eq_dec : EqDecision BillingInterval.
Proof. solve_decision. Defined.
#[export] Instance BillingStatus_eq_dec : EqDecision BillingStatus.
Proof. solve_decision. Defined.
#[export] Instance AccessState_eq_dec : EqDecision AccessState.
Proof. solve_decision. Defined.
#[export] Instance TenantLifecycleState_eq_dec : EqDecision TenantLifecycleState.
Proof. solve_decision. Defined.

#[export] Program Instance BillingPlanId_enum : JsEnum BillingPlanId := {|
  js_name p := match p with
    | free_trial => "free_trial" | starter => "starter" | growth => "growth"
    | agency => "agency" | enterprise => "enterprise" end;
  js_values := [free_trial; starter; growth; agency; enterprise] |}.
Solve All Obligations with solve_js_enum.

#[export] Program Instance BillingInterval_enum : JsEnum BillingInterval := {|
  js_name i := match i with monthly => "monthly" | yearly => "yearly" end;
  js_values := [monthly; yearly] |}.
Solve All Obligations with solve_js_enum.

#[export] Program Instance BillingStatus_enum : JsEnum BillingStatus := {|
  js_name s := match s with
    | trialing => "trialing" | active => "active" | past_due => "past_due"
    | unpaid => "unpaid" | canceled => "canceled" | incomplete => "incomplete"
    | incomplete_expired => "incomplete_expired" | paused => "paused"
    | no_subscription => "no_subscription" end;
  js_values := [trialing; active; past_due; unpaid; canceled; incomplete;
                incomplete_expired; paused; no_subscription] |}.
Solve All Obligations with solve_js_enum.

#[export] Program Instance AccessState_enum : JsEnum AccessState := {|
  js_name a := match a with
    | full_access => "full_access" | grace_period => "grace_period"
    | restricted => "restricted" | suspended => "suspended" end;
  js_values := [full_access; grace_period; restricted; suspended] |}.
Solve All Obligations with solve_js_enum.

(* src: packages/core/src/billing.ts:25-41 PlanCatalogueEntry *)
Record PlanCatalogueEntry := {
  pce_id : BillingPlanId;
  pce_name : string;
  tagline : string;
  priceMonthly : option Z;
  priceYearly : option Z;
  currency : string;
  aiPlan : string;
  connectedAccounts : option Z;
  teamMembers : option Z;
  features : list string;
  selfServeCheckout : bool;
  pce_env : option (string * string)  (* env var names: monthly, yearly *)
}.

(* src: packages/core/src/billing.ts:47-87 BILLING_PLANS *)
Definition BILLING_PLANS (p : BillingPlanId) : PlanCatalogueEntry :=
  match p with
  | free_trial => {|
      pce_id := free_trial; pce_name := "Free Trial"; tagline := "14 days, no card required.";
      priceMonthly := Some 0; priceYearly := Some 0; currency := "EUR"; aiPlan := "free_trial";
      connectedAccounts := Some 1; teamMembers := Some 2;
      features := ["1 protected brand"; "Connect one channel to try it"; "AI-assisted risk scoring"; "Human approval workflow"];
      selfServeCheckout := false; pce_env := None |}
  | starter => {|
      pce_id := starter; pce_name := "Starter"; tagline := "For a small brand, creator or local business.";
      priceMonthly := Some 59; priceYearly := Some 590; currency := "EUR"; aiPlan := "starter";
      connectedAccounts := Some 4; teamMembers := Some 3;
      features := ["1 protected brand"; "4,000 comments / month"; "1 Facebook Page + 1 Instagram"; "1 Google Business Profile"; "Comments, reviews & action queue"];
      selfServeCheckout := true;
      pce_env := Some ("STRIPE_PRICE_STARTER_MONTHLY", "STRIPE_PRICE_STARTER_YEARLY") |}
  | growth => {|
      pce_id := growth; pce_name := "Growth"; tagline := "For an active e-shop, brand or agency client.";
      priceMonthly := Some 189; priceYearly := Some 1890; currency := "EUR"; aiPlan := "growth";
      connectedAccounts := Some 12; teamMembers := Some 8;
      features := ["3 protected brands"; "13,000 comments / month"; "Facebook, Instagram & Google Business per brand"; "Reputation analytics & actor risk"; "Control Center rules"];
      selfServeCheckout := true;
      pce_env := Some ("STRIPE_PRICE_GROWTH_MONTHLY", "STRIPE_PRICE_GROWTH_YEARLY") |}
  | agency => {|
      pce_id := agency; pce_name := "Business"; tagline := "For brands and agencies protecting many channels.";
      priceMonthly := Some 499; priceYearly := Some 4990; currency := "EUR"; aiPlan := "agency";
      connectedAccounts := Some 40; teamMembers := Some 25;
      features := ["10 protected brands"; "25,000 comments / month"; "Facebook, Instagram & Google Business per brand"; "Reputation + actor risk"; "Priority support"];
      selfServeCheckout := true;
      pce_env := Some ("STRIPE_PRICE_AGENCY_MONTHLY", "STRIPE_PRICE_AGENCY_YEARLY") |}
  | enterprise => {|
      pce_id := enterprise; pce_name := "Enterprise / Custom"; tagline := "For media, public figures and larger brands.";
      priceMonthly := None; priceYearly := None; currency := "EUR"; aiPlan := "enterprise";
      connectedAccounts := None; teamMembers := None;
      features := ["Custom brand & comment volume"; "Multiple brands by agreement"; "Advanced controls & roles"; "Onboarding & dedicated support"];
      selfServeCheckout := false; pce_env := None |}
  end.

(* src: packages/core/src/billing.ts:89-89 SELF_SERVE_PLANS *)
Definition SELF_SERVE_PLANS : list BillingPlanId := [starter; growth; agency].

(** An [unknown] value is [None] when it is not a string. *)
(* src: packages/core/src/billing.ts:91-93 isBillingPlanId *)
Definition isBillingPlanId (v : option string) : bool :=
  match v with
  | Some s => in_object (map js_name (js_values (A := BillingPlanId))) s
  | None => false
  end.

(** On an inherited key [BILLING_PLANS[v].selfServeCheckout] is [undefined]. *)
(* src: packages/core/src/billing.ts:94-96 isSelfServePlan *)
Definition isSelfServePlan (v : option string) : bool :=
  isBillingPlanId v &&
  match parse_opt v with Some p => selfServeCheckout (BILLING_PLANS p) | None => false end.

(* src: packages/core/src/billing.ts:97-99 isBillingInterval *)
Definition isBillingInterval (v : option string) : bool :=
  is_some (parse_opt (A := BillingInterval) v).

(** * Stripe price identifiers *)

(** [process.env]: a partial map from names to strings. *)
Definition Env := string -> option string.

(* src: packages/core/src/billing.ts:107-117 resolveStripePriceId *)
Definition resolveStripePriceId (plan : BillingPlanId) (interval : BillingInterval) (env : Env) : option string :=
  let entry := BILLING_PLANS plan in
  match selfServeCheckout entry, pce_env entry with
  | true, Some (m, y) =>
      let key := match interval with monthly => m | yearly => y end in
      match opt_trim (env key) with
      | Some id => if nonempty id then Some id else None
      | None => None
      end
  | _, _ => None
  end.

(* src: packages/core/src/billing.ts:124-133 planForStripePriceId *)
Fixpoint planForStripePriceId_in (plans : list BillingPlanId) (priceId : string) (env : Env)
  : option (BillingPlanId * BillingInterval) :=
  match plans with
  | [] => None
  | plan :: rest =>
      if bool_decide (resolveStripePriceId plan monthly env = Some priceId) then Some (plan, monthly)
      else if bool_decide (resolveStripePriceId plan yearly env = Some priceId) then Some (plan, yearly)
      else planForStripePriceId_in rest priceId env
  end.

(* src: packages/core/src/billing.ts:124-133 planForStripePriceId *)
Definition planForStripePriceId (priceId : string) (env : Env) : option (BillingPlanId * BillingInterval) :=
  planForStripePriceId_in SELF_SERVE_PLANS priceId env.

(* src: packages/core/src/billing.ts:138-138 StripeConfigStatus *)
Inductive StripeConfigStatus := healthy | misconfigured | billing_unavailable.

(* src: packages/core/src/billing.ts:140-147 StripeBillingReadiness *)
Record StripeBillingReadiness := {
  apiConfig : StripeConfigStatus;
  prices : StripeConfigStatus;
  webhookConfig : StripeConfigStatus;
  portalConfig : StripeConfigStatus;
  duplicatePriceIds : bool;
  configured : bool
}.

Definition status_healthy (s : StripeConfigStatus) : bool :=
  match s with healthy => true | _ => false end.

(** [/^https:\/\/[^\s]+$/] *)
(* src: packages/core/src/billing.ts:182-182 stripeBillingReadiness *)
Definition https_url (s : string) : bool :=
  startsWith "https://" s &&
  let rest := str_drop 8 s in nonempty rest && str_forallb (fun c => negb (is_ws c)) rest.

(* src: packages/core/src/billing.ts:159-160 stripeBillingReadiness *)
Definition stripeSecretOk (env : Env) (requireLive : bool) : bool :=
  match opt_trim (env "STRIPE_SECRET_KEY") with
  | Some secret => nonempty secret && startsWith "sk_" secret
                   && (negb requireLive || startsWith "sk_live_" secret)
  | None => false
  end.

(** The six (plan, interval) pairs in the order the nested loops visit them. *)
(* src: packages/core/src/billing.ts:166-167 stripeBillingReadiness *)
Definition selfServePairs : list (BillingPlanId * BillingInterval) :=
  flat_map (fun p => [(p, monthly); (p, yearly)]) SELF_SERVE_PLANS.

(* src: packages/core/src/billing.ts:163-173 stripeBillingReadiness *)
Definition resolvedPriceIds (env : Env) : list string :=
  omap (fun '(p, i) => resolveStripePriceId p i env) selfServePairs.

(* src: packages/core/src/billing.ts:155-186 stripeBillingReadiness *)
Definition stripeBillingReadiness (env : Env) (requireLive : bool) : StripeBillingReadiness :=
  let secret := opt_trim (env "STRIPE_SECRET_KEY") in
  let api := if stripeSecretOk env requireLive then healthy
             else if truthy secret then misconfigured else billing_unavailable in
  let ids := resolvedPriceIds env in
  let allPresent := forallb (fun '(p, i) => is_some (resolveStripePriceId p i env)) selfServePairs in
  let allFormatOk := forallb (startsWith "price_") ids in
  let dup := negb (bool_decide (length (remove_dups ids) = length ids)) in
  let prices_ := match ids with
                 | [] => billing_unavailable
                 | _ => if negb allPresent || negb allFormatOk || dup then misconfigured else healthy
                 end in
  let webhook := match opt_trim (env "STRIPE_WEBHOOK_SECRET") with
                 | Some wh => if nonempty wh
                              then if startsWith "whsec_" wh then healthy else misconfigured
                              else billing_unavailable
                 | None => billing_unavailable
                 end in
  let portal := match opt_trim (env "STRIPE_BILLING_PORTAL_RETURN_URL") with
                | Some ret => if negb (nonempty ret) then billing_unavailable
                              else if https_url ret then healthy else misconfigured
                | None => billing_unavailable
                end in
  {| apiConfig := api; prices := prices_; webhookConfig := webhook; portalConfig := portal;
     duplicatePriceIds := dup;
     configured := status_healthy api && status_healthy prices_ && status_healthy webhook |}.

(* src: packages/core/src/billing.ts:195-199 StripePriceKey *)
Inductive StripePriceKey :=
  | STARTER_MONTHLY | STARTER_YEARLY | GROWTH_MONTHLY | GROWTH_YEARLY | AGENCY_MONTHLY | AGENCY_YEARLY.

#[export] Instance StripePriceKey_eq_dec : EqDecision StripePriceKey.
Proof. solve_decision. Defined.

(* src: packages/core/src/billing.ts:201-208 PRICE_KEY_MAP *)
Definition PRICE_KEY_MAP : list (StripePriceKey * BillingPlanId * BillingInterval) :=
  [(STARTER_MONTHLY, starter, monthly); (STARTER_YEARLY, starter, yearly);
   (GROWTH_MONTHLY, growth, monthly); (GROWTH_YEARLY, growth, yearly);
   (AGENCY_MONTHLY, agency, monthly); (AGENCY_YEARLY, agency, yearly)].

(* src: packages/core/src/billing.ts:211-214 stripePriceKeyFor *)
Definition stripePriceKeyFor (plan : BillingPlanId) (interval : BillingInterval) : option StripePriceKey :=
  if negb (isSelfServePlan (Some (js_name plan))) then None
  else option_map (fun '(k, _, _) => k)
         (List.find (fun '(_, p, i) => (p =e plan) && (i =e interval)) PRICE_KEY_MAP).

(** [/^price_[A-Za-z0-9]+$/] *)
(* src: packages/core/src/billing.ts:249-250 stripePriceAvailability *)
Definition stripePriceShape (s : string) : bool :=
  startsWith "price_" s && let rest := str_drop 6 s in nonempty rest && str_forallb is_alnum rest.

(** The number of keys whose resolved identifier is [id]: [counts.get(id) ?? 0]. *)
(* src: packages/core/src/billing.ts:238-244 stripePriceAvailability *)
Definition priceIdCount (env : Env) (id : string) : nat :=
  length (List.filter (fun '(_, p, i) => bool_decide (resolveStripePriceId p i env = Some id)) PRICE_KEY_MAP).

(* src: packages/core/src/billing.ts:229-235 stripePriceAvailability *)
Definition stripeChainReady (env : Env) (requireLive : bool) : bool :=
  let webhookOk := match opt_trim (env "STRIPE_WEBHOOK_SECRET") with
                   | Some wh => nonempty wh && startsWith "whsec_" wh | None => false end in
  let portalOk := match opt_trim (env "STRIPE_BILLING_PORTAL_RETURN_URL") with
                  | Some ret => nonempty ret && https_url ret | None => false end in
  stripeSecretOk env requireLive && webhookOk && portalOk.

(* src: packages/core/src/billing.ts:225-254 stripePriceAvailability *)
Definition stripePriceAvailability (env : Env) (requireLive : bool) : list (StripePriceKey * bool) :=
  map (fun '(key, p, i) =>
         let priceValid := match resolveStripePriceId p i env with
                           | Some id => stripePriceShape id && (priceIdCount env id =? 1)%nat
                           | None => false
                           end in
         (key, stripeChainReady env requireLive && priceValid)) PRICE_KEY_MAP.

(** * Access state *)

(* src: packages/core/src/billing.ts:258-268 AccessInput *)
Record AccessInput := {
  ai_status : option string;
  ai_trialEndsAt : option Z;
  ai_currentPeriodEnd : option Z;
  ai_cancelAtPeriodEnd : option bool;
  ai_graceDays : option Z
}.

(* src: packages/core/src/billing.ts:270-270 DEFAULT_GRACE_DAYS *)
Definition DEFAULT_GRACE_DAYS : Z := 7.

Definition DAY_MS : Z := 24 * 60 * 60 * 1000.

(** [d && d.getTime() > now.getTime()] *)
(* src: packages/core/src/billing.ts:371-372 resolveTenantLifecycle *)
Definition window_open (d : option Z) (now : Z) : bool :=
  match d with Some t => now <? t | None => false end.

(* src: packages/core/src/billing.ts:277-308 resolveAccessState *)
Definition resolveAccessState (now : Z) (input : AccessInput) : AccessState :=
  let graceMs := (ai_graceDays input ?? DEFAULT_GRACE_DAYS) * 24 * 60 * 60 * 1000 in
  let periodEnd := ai_currentPeriodEnd input in
  let trialEnds := ai_trialEndsAt input in
  match parse_opt (ai_status input) with
  | Some active => full_access
  | Some trialing => if window_open trialEnds now then full_access else restricted
  | Some past_due =>
      match periodEnd with
      | Some pe => if now <=? pe + graceMs then grace_period else restricted
      | None => restricted
      end
  | Some canceled => if window_open periodEnd now then full_access else restricted
  | Some no_subscription => if window_open trialEnds now then full_access else restricted
  | Some unpaid | Some incomplete | Some incomplete_expired | Some paused => restricted
  | None => restricted
  end.

(* src: packages/core/src/billing.ts:311-313 accessAllowsPaidWork *)
Definition accessAllowsPaidWork (state : AccessState) : bool :=
  (state =e full_access) || (state =e grace_period).

(* src: packages/core/src/billing.ts:315-317 accessAllowsOperations *)
Definition accessAllowsOperations (state : AccessState) : bool :=
  (state =e full_access) || (state =e grace_period).

(* src: packages/core/src/billing.ts:329-333 EffectiveAccessInput *)
Record EffectiveAccessInput := {
  ea_access :> AccessInput;
  persistedAccessState : option string;
  internalAccess : bool
}.

(* src: packages/core/src/billing.ts:343-349 resolveEffectiveAccessState *)
Definition resolveEffectiveAccessState (now : Z) (input : EffectiveAccessInput) : AccessState :=
  if internalAccess input then full_access
  else if status_is (persistedAccessState input) "suspended" then suspended
  else if status_is (ai_status input) "unpaid" || status_is (ai_status input) "paused" then suspended
  else resolveAccessState now input.

(* src: packages/core/src/billing.ts:369-396 resolveTenantLifecycle *)
Definition resolveTenantLifecycle (now : Z) (input : EffectiveAccessInput) : TenantLifecycleState :=
  let trialActive := window_open (ai_trialEndsAt input) now in
  let periodActive := window_open (ai_currentPeriodEnd input) now in
  let by_trial := if trialActive then lc_active_trial else lc_trial_expired in
  if internalAccess input then lc_active_paid
  else if status_is (persistedAccessState input) "suspended" then lc_suspended
  else match parse_opt (ai_status input) with
  | Some active => lc_active_paid
  | Some trialing | Some no_subscription => by_trial
  | Some past_due | Some incomplete => lc_past_due
  | Some unpaid | Some paused => lc_suspended
  | Some canceled => if periodActive then lc_active_paid else lc_canceled
  | Some incomplete_expired => by_trial
  | None => by_trial
  end.

(** [Math.ceil(ms / DAY_MS)] on integers. *)
(* src: packages/core/src/billing.ts:399-403 trialDaysRemaining *)
Definition trialDaysRemaining (trialEndsAt : option Z) (now : Z) : option Z :=
  match trialEndsAt with
  | None => None
  | Some t => let ms := t - now in
              Some (if ms <=? 0 then 0 else (ms + DAY_MS - 1) / DAY_MS)
  end.

(** * Billing presentation *)

(* src: packages/core/src/billing.ts:411-411 BusinessBillingSource *)
Inductive BusinessBillingSource := src_internal | src_subscription | src_trial | src_tenant | src_none.

(* src: packages/core/src/billing.ts:413-419 BusinessBillingSubscriptionInput *)
Record BusinessBillingSubscriptionInput := {
  sub_plan : option string;
  sub_status : option string;
  sub_billingInterval : option string;
  sub_currentPeriodEnd : option Z;
  sub_cancelAtPeriodEnd : bool
}.

(* src: packages/core/src/billing.ts:420-429 BusinessBillingInput *)
Record BusinessBillingInput := {
  bi_tenantPlan : option string;
  bi_billingStatus : option string;
  bi_persistedAccessState : option string;
  bi_internalAccess : bool;
  bi_trialEndsAt : option Z;
  bi_subscription : option BusinessBillingSubscriptionInput
}.

(* src: packages/core/src/billing.ts:430-449 BusinessBillingPresentation *)
Record BusinessBillingPresentation := {
  effectivePlanId : BillingPlanId;
  effectivePlanName : string;
  effectiveAccessState : AccessState;
  lifecycle : TenantLifecycleState;
  subscriptionStatus : string;
  bp_billingInterval : option BillingInterval;
  bp_currentPeriodEnd : option Z;
  bp_cancelAtPeriodEnd : bool;
  bp_trialEndsAt : option Z;
  bp_trialDaysRemaining : option Z;
  isPaid : bool;
  isTrial : bool;
  isInternalUnlimited : bool;
  holdsCurrentSubscription : bool;
  source : BusinessBillingSource
}.

(* src: packages/core/src/billing.ts:452-456 normalizeBusinessPaidPlan *)
Definition normalizeBusinessPaidPlan (plan : option string) : option BillingPlanId :=
  match plan with
  | None => None
  | Some s => let p := toLowerCase (trim s) in
              if p =s "starter" then Some starter
              else if p =s "growth" then Some growth
              else if p =s "agency" then Some agency else None
  end.

(* src: packages/core/src/billing.ts:470-472 resolveBusinessBillingPresentation *)
Definition presentationStatus (input : BusinessBillingInput) : string :=
  or_else (obind (bi_subscription input) sub_status) (bi_billingStatus input) ?? "no_subscription".

(* src: packages/core/src/billing.ts:473-481 resolveBusinessBillingPresentation *)
Definition presentationAccessInput (input : BusinessBillingInput) : EffectiveAccessInput := {|
  ea_access := {|
    ai_status := Some (presentationStatus input);
    ai_trialEndsAt := bi_trialEndsAt input;
    ai_currentPeriodEnd := obind (bi_subscription input) sub_currentPeriodEnd;
    ai_cancelAtPeriodEnd := option_map sub_cancelAtPeriodEnd (bi_subscription input);
    ai_graceDays := None |};
  persistedAccessState := bi_persistedAccessState input;
  internalAccess := bi_internalAccess input |}.

(* src: packages/core/src/billing.ts:469-528 resolveBusinessBillingPresentation *)
Definition resolveBusinessBillingPresentation (now : Z) (input : BusinessBillingInput) : BusinessBillingPresentation :=
  let sub := bi_subscription input in
  let st := presentationStatus input in
  let li := presentationAccessInput input in
  let lc := resolveTenantLifecycle now li in
  let interval := obind sub (fun s => parse_opt (sub_billingInterval s)) in
  let subPaid := obind sub (fun s => normalizeBusinessPaidPlan (sub_plan s)) in
  let tenantPaid := normalizeBusinessPaidPlan (bi_tenantPlan input) in
  let hasLiveSub := is_some sub && negb (st =s "no_subscription") in
  let build planId paid trial internal holds source_ := {|
    effectivePlanId := planId;
    effectivePlanName := pce_name (BILLING_PLANS planId);
    effectiveAccessState := resolveEffectiveAccessState now li;
    lifecycle := lc;
    subscriptionStatus := st;
    bp_billingInterval := interval;
    bp_currentPeriodEnd := obind sub sub_currentPeriodEnd;
    bp_cancelAtPeriodEnd := option_map sub_cancelAtPeriodEnd sub ?? false;
    bp_trialEndsAt := bi_trialEndsAt input;
    bp_trialDaysRemaining := trialDaysRemaining (bi_trialEndsAt input) now;
    isPaid := paid; isTrial := trial; isInternalUnlimited := internal;
    holdsCurrentSubscription := holds; source := source_ |} in
  if bi_internalAccess input then build (or_else subPaid tenantPaid ?? agency) false false true false src_internal
  else match lc, subPaid with
  | lc_active_paid, Some p => build p true false false true src_subscription
  | lc_past_due, Some p | lc_suspended, Some p => build p false false false true src_subscription
  | lc_active_trial, _ => build free_trial false true false false src_trial
  | lc_canceled, Some p => build p false false false false src_subscription
  | _, _ =>
      if hasLiveSub then build free_trial false false false false src_none
      else build (tenantPaid ?? free_trial) false false false false
                 (if is_some tenantPaid then src_tenant else src_none)
  end.

(* src: packages/core/src/billing.ts:535-537 resolveEffectiveBusinessPlan *)
Definition resolveEffectiveBusinessPlan (now : Z) (input : BusinessBillingInput) : BillingPlanId :=
  effectivePlanId (resolveBusinessBillingPresentation now input).

(** * Stripe event ordering *)

(* src: packages/core/src/billing.ts:544-544 StripeEventOrder *)
Record StripeEventOrder := { createdAt : Z; terminal : bool }.

#[export] Instance StripeEventOrder_eq_dec : EqDecision StripeEventOrder.
Proof. solve_decision. Defined.

(* src: packages/core/src/billing.ts:556-563 shouldApplyStripeEvent *)
Definition shouldApplyStripeEvent (stored : option StripeEventOrder) (incoming : StripeEventOrder) : bool :=
  match stored with
  | None => true
  | Some st =>
      let a := createdAt incoming in
      let b := createdAt st in
      if b <? a then true
      else if a <? b then false
      else terminal incoming && negb (terminal st)
  end.

(** * Duplicate-checkout guard *)

(* src: packages/core/src/billing.ts:576-576 CheckoutGuardReason *)
Inductive CheckoutGuardReason := subscription_active | payment_update_needed | complete_payment.

(** [{ allowed: true }] or [{ allowed: false; reason }] *)
(* src: packages/core/src/billing.ts:577-579 CheckoutGuardDecision *)
Inductive CheckoutGuardDecision := cg_allowed | cg_blocked (reason : CheckoutGuardReason).

(* src: packages/core/src/billing.ts:582-582 CheckoutGuardSubscription *)
Record CheckoutGuardSubscription := { cgs_status : option string; cgs_currentPeriodEnd : option Z }.

(* src: packages/core/src/billing.ts:584-616 evaluateCheckoutGuard *)
Definition evaluateCheckoutGuard (now : Z) (sub : option CheckoutGuardSubscription) : CheckoutGuardDecision :=
  match sub with
  | None => cg_allowed
  | Some s =>
      if negb (truthy (cgs_status s)) then cg_allowed else
      match parse_opt (cgs_status s) with
      | Some no_subscription => cg_allowed
      | Some active | Some trialing | Some paused => cg_blocked subscription_active
      | Some past_due | Some unpaid => cg_blocked payment_update_needed
      | Some incomplete => cg_blocked complete_payment
      | Some incomplete_expired => cg_allowed
      | Some canceled => if window_open (cgs_currentPeriodEnd s) now
                         then cg_blocked subscription_active else cg_allowed
      | None => cg_blocked subscription_active
      end
  end.

(** * Price identifiers: the reverse map inverts the resolution *)

Lemma selfServePairs_complete p i env id :
  resolveStripePriceId p i env = Some id -> (p, i) ∈ selfServePairs.
Proof.
  rewrite list_elem_of_In. destruct p, i; simpl; try discriminate; tauto.
Qed.

Lemma planForStripePriceId_sound id env p i :
  planForStripePriceId id env = Some (p, i) -> resolveStripePriceId p i env = Some id.
Proof.
  unfold planForStripePriceId. generalize SELF_SERVE_PLANS as ps.
  induction ps as [|q ps IH]; simpl; [done|].
  repeat case_bool_decide; intros; simplify_eq; auto.
Qed.

Lemma planForStripePriceId_total id env p i :
  resolveStripePriceId p i env = Some id -> is_Some (planForStripePriceId id env).
Proof.
  intros Hr. pose proof (selfServePairs_complete _ _ _ _ Hr) as Hin.
  unfold planForStripePriceId, selfServePairs in *. revert Hin.
  generalize SELF_SERVE_PLANS as ps.
  induction ps as [|q ps IH]; simpl; [by intros ?%not_elem_of_nil|].
  rewrite !elem_of_cons. repeat case_bool_decide; eauto.
  intros [?|[?|?]]; simplify_eq; auto.
Qed.

(** Whatever the reverse map answers is the pair itself once the pair is the
    only one that resolves to the identifier. *)
Lemma planForStripePriceId_unique id env p i :
  resolveStripePriceId p i env = Some id ->
  (forall q j, resolveStripePriceId q j env = Some id -> (q, j) = (p, i)) ->
  planForStripePriceId id env = Some (p, i).
Proof.
  intros Hr Huniq. destruct (planForStripePriceId_total _ _ _ _ Hr) as [[q j] Hq].
  rewrite Hq. f_equal. apply Huniq. by apply planForStripePriceId_sound.
Qed.

Lemma prices_healthy_NoDup env live :
  prices (stripeBillingReadiness env live) = healthy -> NoDup (resolvedPriceIds env).
Proof.
  simpl. destruct (resolvedPriceIds env) as [|x l] eqn:Hids; [done|].
  destruct (_ || _ || _) eqn:Hb; [done|]. intros _.
  apply orb_false_iff in Hb as [_ Hd]. apply negb_false_iff, bool_decide_eq_true in Hd.
  by apply remove_dups_length_NoDup.
Qed.

(** When the readiness report calls the price configuration healthy, the
    reverse map used by the webhook inverts the resolution used by checkout: the
    price a tenant is charged for maps back to exactly the (plan, interval) that
    was bought. *)
Theorem healthy_prices_roundtrip (env : Env) (live : bool) (p : BillingPlanId) (i : BillingInterval) (id : string) :
  prices (stripeBillingReadiness env live) = healthy ->
  resolveStripePriceId p i env = Some id ->
  planForStripePriceId id env = Some (p, i).
Proof.
  intros Hh Hr. apply planForStripePriceId_unique; [done|]. intros q j Hq.
  eapply (omap_NoDup_inj (fun '(p, i) => resolveStripePriceId p i env));
    eauto using prices_healthy_NoDup, selfServePairs_complete.
Qed.

(** A configuration with six distinct prices. *)
Definition env_six : Env := fun k =>
  if k =s "STRIPE_SECRET_KEY" then Some "sk_live_1" else
  if k =s "STRIPE_WEBHOOK_SECRET" then Some "whsec_1" else
  if k =s "STRIPE_BILLING_PORTAL_RETURN_URL" then Some "https://t.example/b" else
  if k =s "STRIPE_PRICE_STARTER_MONTHLY" then Some "price_a" else
  if k =s "STRIPE_PRICE_STARTER_YEARLY" then Some "price_b" else
  if k =s "STRIPE_PRICE_GROWTH_MONTHLY" then Some " price_c " else
  if k =s "STRIPE_PRICE_GROWTH_YEARLY" then Some "price_d" else
  if k =s "STRIPE_PRICE_AGENCY_MONTHLY" then Some "price_e" else
  if k =s "STRIPE_PRICE_AGENCY_YEARLY" then Some "price_f" else None.

Lemma healthy_prices_roundtrip_witness :
  planForStripePriceId "price_c" env_six = Some (growth, monthly).
Proof. apply (healthy_prices_roundtrip env_six true growth monthly); reflexivity. Defined.

Lemma availability_true_inv env live k :
  In (k, true) (stripePriceAvailability env live) ->
  exists p i id, In (k, p, i) PRICE_KEY_MAP /\ resolveStripePriceId p i env = Some id /\
    stripeChainReady env live = true /\ stripePriceShape id = true /\ priceIdCount env id = 1%nat.
Proof.
  unfold stripePriceAvailability. rewrite in_map_iff.
  intros ([[k' p] i] & Heq & Hin). simplify_eq.
  destruct (resolveStripePriceId p i env) as [id|] eqn:Hr; [|by rewrite andb_false_r in *].
  match goal with H : _ = true |- _ => apply andb_true_iff in H as [Hc Hv] end.
  apply andb_true_iff in Hv as [Hs Hn%Nat.eqb_eq]. eauto 10.
Qed.

Lemma price_key_of_pair p i env id :
  resolveStripePriceId p i env = Some id -> exists k, In (k, p, i) PRICE_KEY_MAP.
Proof.
  intros Hr%selfServePairs_complete. revert Hr. unfold selfServePairs. simpl.
  rewrite !elem_of_cons, elem_of_nil.
  intuition; simplify_eq; eexists; simpl; eauto 10.
Qed.

(** A checkout key shown as available resolves to a price that the webhook
    maps back to the same plan and interval, and the secret, webhook and portal
    configuration it needs is in place: a price shared by two keys fails both. *)
Theorem available_key_maps_back (env : Env) (live : bool) (k : StripePriceKey) :
  In (k, true) (stripePriceAvailability env live) ->
  exists p i id,
    stripePriceKeyFor p i = Some k /\ resolveStripePriceId p i env = Some id /\
    planForStripePriceId id env = Some (p, i) /\ stripeChainReady env live = true /\
    (forall q j, resolveStripePriceId q j env = Some id -> (q, j) = (p, i)).
Proof.
  intros (p & i & id & Hin & Hr & Hc & _ & Hn)%availability_true_inv.
  assert (Huniq : forall q j, resolveStripePriceId q j env = Some id -> (q, j) = (p, i)).
  { intros q j Hq. destruct (price_key_of_pair _ _ _ _ Hq) as [k' Hk'].
    assert (Heq : (k', q, j) = (k, p, i)); [|by simplify_eq].
    eapply (filter_length_1_unique _ _ _ _ Hn); eauto; by apply bool_decide_eq_true. }
  exists p, i, id. repeat split; auto using planForStripePriceId_unique.
  simpl in Hin. intuition; simplify_eq; reflexivity.
Qed.

Lemma available_key_maps_back_witness :
  exists p i id,
    stripePriceKeyFor p i = Some GROWTH_MONTHLY /\ resolveStripePriceId p i env_six = Some id /\
    planForStripePriceId id env_six = Some (p, i) /\ stripeChainReady env_six true = true /\
    (forall q j, resolveStripePriceId q j env_six = Some id -> (q, j) = (p, i)).
Proof. apply (available_key_maps_back env_six true GROWTH_MONTHLY). vm_compute. tauto. Defined.

(** * Access resolution *)

(** Case analysis on a raw status: every literal of the union, or another string. *)
Lemma status_cases (o : option string) :
  (exists s : BillingStatus, o = Some (js_name s) /\ parse_opt o = Some s) \/
  parse_opt (A := BillingStatus) o = None.
Proof.
  destruct o as [s|]; simpl; [|by right].
  destruct (parse s) as [b|] eqn:Hp; [left|by right].
  exists b. apply parse_Some in Hp. by subst.
Qed.

Lemma effective_access_unfold now input :
  resolveEffectiveAccessState now input =
  if internalAccess input then full_access
  else if status_is (persistedAccessState input) "suspended" then suspended
  else match parse_opt (ai_status input) with
       | Some unpaid | Some paused => suspended
       | _ => resolveAccessState now input
       end.
Proof.
  unfold resolveEffectiveAccessState.
  pose proof (status_is_parse (ai_status input) unpaid) as Hu.
  pose proof (status_is_parse (ai_status input) paused) as Hp.
  simpl in Hu, Hp. rewrite Hu, Hp.
  by destruct (parse_opt (ai_status input)) as [[]|].
Qed.

(** Reduce a statement about access or lifecycle to its finitely many cases. *)
Ltac access_cases input :=
  rewrite ?effective_access_unfold; unfold resolveAccessState, resolveTenantLifecycle;
  destruct (internalAccess input);
  [| destruct (status_is (persistedAccessState input) "suspended");
     [| destruct (parse_opt (ai_status input)) as [[]|]]].

Definition access_rank (a : AccessState) : Z :=
  match a with full_access => 3 | grace_period => 2 | restricted => 1 | suspended => 0 end.

(** With the billing facts unchanged, the passage of time never improves a
    tenant's access: an expired trial, grace window or paid period takes effect
    on the next read and nothing restores access without a billing event. *)
Theorem access_never_improves (now now' : Z) (input : EffectiveAccessInput) :
  now <= now' ->
  access_rank (resolveEffectiveAccessState now' input)
    <= access_rank (resolveEffectiveAccessState now input).
Proof.
  intros Hle. access_cases input; simpl; unfold window_open; try lia;
    repeat match goal with |- context [match ?o with Some _ => _ | None => _ end] => destruct o end;
    simpl; try lia;
    repeat match goal with |- context [if ?b then _ else _] => destruct b eqn:? end; simpl; lia.
Qed.

Definition trial_input (status : string) (trialEnd : Z) : EffectiveAccessInput := {|
  ea_access := {| ai_status := Some status; ai_trialEndsAt := Some trialEnd;
                  ai_currentPeriodEnd := None; ai_cancelAtPeriodEnd := None; ai_graceDays := None |};
  persistedAccessState := None; internalAccess := false |}.

Lemma access_never_improves_witness :
  access_rank (resolveEffectiveAccessState 20 (trial_input "trialing" 15))
    <= access_rank (resolveEffectiveAccessState 10 (trial_input "trialing" 15)).
Proof. apply access_never_improves. lia. Defined.

(** The billing facts under which a tenant may run operations. *)
Definition billing_grants (now : Z) (input : AccessInput) : Prop :=
  match parse_opt (ai_status input) with
  | Some active => True
  | Some trialing | Some no_subscription => exists t, ai_trialEndsAt input = Some t /\ now < t
  | Some past_due => exists t, ai_currentPeriodEnd input = Some t /\
                               now <= t + (ai_graceDays input ?? DEFAULT_GRACE_DAYS) * DAY_MS
  | Some canceled => exists t, ai_currentPeriodEnd input = Some t /\ now < t
  | _ => False
  end.

(** Operations (and paid work) are allowed exactly for an internal tenant, or
    for a tenant that is not suspended by an administrator and whose billing
    facts grant it: current subscription, open trial window, grace window after a
    failed payment, or a canceled subscription still inside its paid period.
    Every other status, unknown ones included, is denied. *)
Theorem operations_allowed_iff (now : Z) (input : EffectiveAccessInput) :
  accessAllowsOperations (resolveEffectiveAccessState now input) = true <->
  internalAccess input = true \/
  (status_is (persistedAccessState input) "suspended" = false /\ billing_grants now input).
Proof.
  unfold billing_grants. replace DAY_MS with 86400000 by reflexivity.
  access_cases input; simpl; unfold window_open;
    repeat match goal with |- context [match ?o with Some _ => _ | None => _ end] => destruct o eqn:? end;
    repeat match goal with |- context [if ?b then _ else _] => destruct b eqn:? end;
    cbn; naive_solver lia.
Qed.

(** The lifecycle label and the enforced access state agree: suspended is
    suspended on both sides; an active paid label means full access; expired and
    canceled labels mean restricted; an active-trial label means full access
    except for a dead first payment or an unknown status, which enforcement
    restricts. *)
Theorem lifecycle_access_agree (now : Z) (input : EffectiveAccessInput) :
  let access := resolveEffectiveAccessState now input in
  match resolveTenantLifecycle now input with
  | lc_suspended => access = suspended
  | lc_active_paid => access = full_access
  | lc_trial_expired | lc_canceled => access = restricted
  | lc_past_due => access = grace_period \/ access = restricted
  | lc_active_trial =>
      access = full_access \/
      (access = restricted /\
       (parse_opt (ai_status input) = Some incomplete_expired \/
        parse_opt (A := BillingStatus) (ai_status input) = None))
  end.
Proof.
  cbv zeta. access_cases input; simpl; auto;
    repeat match goal with |- context [if ?b then _ else _] => destruct b end;
    repeat match goal with |- context [match ?o with Some _ => _ | None => _ end] => destruct o end;
    repeat match goal with |- context [if ?b then _ else _] => destruct b end; auto.
Qed.

(** The exception is real: a subscription whose first payment expired is
    labelled an active trial while every operation is refused. *)
Theorem incomplete_expired_label_diverges (now : Z) :
  let input := trial_input "incomplete_expired" (now + 1) in
  resolveTenantLifecycle now input = lc_active_trial /\
  resolveEffectiveAccessState now input = restricted /\
  accessAllowsOperations (resolveEffectiveAccessState now input) = false.
Proof.
  unfold resolveTenantLifecycle. simpl.
  repeat split. by replace (now <? now + 1) with true by lia.
Qed.

(** The remaining trial days are 0 exactly when the trial is over, and
    otherwise the least whole number of days that covers the rest. *)
Theorem trialDaysRemaining_ceiling (trialEnd now : Z) :
  exists d, trialDaysRemaining (Some trialEnd) now = Some d /\ 0 <= d /\
    (d = 0 <-> trialEnd <= now) /\
    (now < trialEnd -> (d - 1) * DAY_MS < trialEnd - now <= d * DAY_MS).
Proof.
  simpl. eexists; split; [reflexivity|]. change DAY_MS with 86400000.
  destruct (Z.leb_spec (trialEnd - now) 0).
  - lia.
  - pose proof (Z.div_mod (trialEnd - now + 86400000 - 1) 86400000 ltac:(lia)).
    pose proof (Z.mod_pos_bound (trialEnd - now + 86400000 - 1) 86400000 ltac:(lia)).
    lia.
Qed.

(** * Presentation *)

Definition subscription_paid_plan (input : BusinessBillingInput) : option BillingPlanId :=
  obind (bi_subscription input) (fun s => normalizeBusinessPaidPlan (sub_plan s)).

(** The guard's view of the subscription row the presentation reads. *)
Definition guard_view (s : BusinessBillingSubscriptionInput) : CheckoutGuardSubscription :=
  {| cgs_status := sub_status s; cgs_currentPeriodEnd := sub_currentPeriodEnd s |}.

Ltac presentation_cases input :=
  unfold resolveBusinessBillingPresentation, subscription_paid_plan in *;
  destruct (bi_internalAccess input) eqn:?;
  [| destruct (resolveTenantLifecycle _ (presentationAccessInput input)) eqn:?;
     destruct (obind (bi_subscription input) (fun s => normalizeBusinessPaidPlan (sub_plan s))) eqn:?;
     try destruct (is_some (bi_subscription input) && negb (presentationStatus input =s "no_subscription")) eqn:? ].

(** The effective plan is never invented. A plan other than the free trial is
    the paid plan of the subscription row, or the tenant's own plan when no live
    subscription exists, or the display plan of an internal tenant. *)
Theorem effective_plan_provenance (now : Z) (input : BusinessBillingInput) :
  let r := resolveBusinessBillingPresentation now input in
  effectivePlanId r <> free_trial ->
  match source r with
  | src_internal => bi_internalAccess input = true
  | src_subscription => subscription_paid_plan input = Some (effectivePlanId r)
  | src_tenant => normalizeBusinessPaidPlan (bi_tenantPlan input) = Some (effectivePlanId r) /\
                  (bi_subscription input = None \/ presentationStatus input = "no_subscription")
  | src_trial | src_none => False
  end.
Proof.
  cbv zeta. presentation_cases input; simpl; try done; intros Hne;
    destruct (normalizeBusinessPaidPlan (bi_tenantPlan input)); simpl in *; try done.
  all: split; [done|]; apply andb_false_iff in Heqb0 as [Hs|Hs];
    [left; by destruct (bi_subscription input)
    | right; by apply negb_false_iff, String.eqb_eq in Hs].
Qed.

Definition paying_tenant (st : string) : BusinessBillingInput := {|
  bi_tenantPlan := Some "free_trial"; bi_billingStatus := None;
  bi_persistedAccessState := None; bi_internalAccess := false; bi_trialEndsAt := None;
  bi_subscription := Some {| sub_plan := Some " Growth "; sub_status := Some st;
    sub_billingInterval := Some "yearly"; sub_currentPeriodEnd := Some 100;
    sub_cancelAtPeriodEnd := false |} |}.

Lemma effective_plan_provenance_witness :
  subscription_paid_plan (paying_tenant "active") = Some growth.
Proof.
  apply (effective_plan_provenance 10 (paying_tenant "active")). vm_compute. discriminate.
Defined.

(** A presentation flagged as paid is backed by a subscription row whose plan
    is the displayed plan, and it never flags a tenant without full access. *)
Theorem paid_presentation_backed (now : Z) (input : BusinessBillingInput) :
  let r := resolveBusinessBillingPresentation now input in
  isPaid r = true ->
  subscription_paid_plan input = Some (effectivePlanId r) /\
  effectiveAccessState r = full_access /\ isTrial r = false /\ holdsCurrentSubscription r = true.
Proof.
  cbv zeta.
  pose proof (lifecycle_access_agree now (presentationAccessInput input)) as Ha.
  presentation_cases input; simpl; try done.
  all: match goal with H : resolveTenantLifecycle _ _ = _ |- _ => rewrite H in Ha end; done.
Qed.

Lemma paid_presentation_backed_witness :
  subscription_paid_plan (paying_tenant "canceled") = Some growth.
Proof. apply (paid_presentation_backed 10 (paying_tenant "canceled")). reflexivity. Defined.

Lemma holds_subscription now input :
  holdsCurrentSubscription (resolveBusinessBillingPresentation now input) = true ->
  bi_internalAccess input = false /\ is_Some (bi_subscription input) /\
  (resolveTenantLifecycle now (presentationAccessInput input) = lc_active_paid \/
   resolveTenantLifecycle now (presentationAccessInput input) = lc_past_due \/
   resolveTenantLifecycle now (presentationAccessInput input) = lc_suspended).
Proof.
  presentation_cases input; simpl; try done; intros _;
    destruct (bi_subscription input); simpl in *; naive_solver.
Qed.

(** The plan card shown as current and the checkout guard agree: for a tenant
    that is not suspended by an administrator, holding a current subscription
    means a fresh checkout is blocked. *)
Theorem current_subscription_blocks_checkout (now : Z) (input : BusinessBillingInput)
    (s : BusinessBillingSubscriptionInput) :
  holdsCurrentSubscription (resolveBusinessBillingPresentation now input) = true ->
  bi_subscription input = Some s -> is_Some (sub_status s) ->
  status_is (bi_persistedAccessState input) "suspended" = false ->
  exists reason, evaluateCheckoutGuard now (Some (guard_view s)) = cg_blocked reason.
Proof.
  intros Hh Hs [st Hst] Hsusp. apply holds_subscription in Hh as (Hi & _ & Hlc).
  unfold resolveTenantLifecycle, presentationAccessInput, presentationStatus in Hlc.
  rewrite Hs in Hlc. simpl in *. rewrite Hst, Hi, Hsusp in Hlc. simpl in Hlc.
  rewrite Hst. simpl.
  destruct (window_open (sub_currentPeriodEnd s) now), (window_open (bi_trialEndsAt input) now);
    (destruct st as [|c st]; [simpl in Hlc; naive_solver|]);
    simpl negb; cbv iota; destruct (parse (String c st)) as [[]|]; naive_solver.
Qed.

Lemma current_subscription_blocks_checkout_witness :
  exists reason, evaluateCheckoutGuard 10
    (Some {| cgs_status := Some "past_due"; cgs_currentPeriodEnd := Some 100 |}) = cg_blocked reason.
Proof.
  apply (current_subscription_blocks_checkout 10 (paying_tenant "past_due")
    {| sub_plan := Some " Growth "; sub_status := Some "past_due";
       sub_billingInterval := Some "yearly"; sub_currentPeriodEnd := Some 100;
       sub_cancelAtPeriodEnd := false |}); [reflexivity | reflexivity | by eexists | reflexivity].
Defined.

(** The administrator's suspension is the exception: a suspended tenant whose
    subscription ended is shown as holding a current subscription although the
    guard lets it start a new checkout. *)
Theorem suspended_canceled_card_diverges (now : Z) :
  let s := {| sub_plan := Some "growth"; sub_status := Some "canceled"; sub_billingInterval := None;
              sub_currentPeriodEnd := None; sub_cancelAtPeriodEnd := false |} in
  let input := {| bi_tenantPlan := None; bi_billingStatus := None;
                  bi_persistedAccessState := Some "suspended"; bi_internalAccess := false;
                  bi_trialEndsAt := None; bi_subscription := Some s |} in
  holdsCurrentSubscription (resolveBusinessBillingPresentation now input) = true /\
  evaluateCheckoutGuard now (Some (guard_view s)) = cg_allowed.
Proof. split; reflexivity. Qed.

(** * Webhook ordering *)

(** One delivery: the incoming event replaces the stored position if it applies. *)
Definition apply_event (stored : option StripeEventOrder) (e : StripeEventOrder) : option StripeEventOrder :=
  if shouldApplyStripeEvent stored e then Some e else stored.

Definition apply_events (evs : list StripeEventOrder) : option StripeEventOrder :=
  fold_left apply_event evs None.

Ltac order_cases :=
  repeat match goal with
  | |- context [?a <? ?b] => destruct (Z.ltb_spec a b); simpl
  | H : context [?a <? ?b] |- _ => destruct (Z.ltb_spec a b); simpl in H
  end.

Lemma apply_event_comm s x y :
  apply_event (apply_event s x) y = apply_event (apply_event s y) x.
Proof.
  destruct x as [a ta], y as [b tb]. unfold apply_event, shouldApplyStripeEvent.
  destruct s as [[c tc]|]; simpl; order_cases; try lia; try done;
    destruct ta, tb; try destruct tc; simpl; order_cases; try lia; try done;
    repeat f_equal; lia.
Qed.

(** Stripe may deliver the events of a subscription in any order: the stored
    billing position converges to the same event. *)
Theorem event_order_convergence (evs evs' : list StripeEventOrder) :
  Permutation evs evs' -> apply_events evs = apply_events evs'.
Proof. apply fold_left_permutation, apply_event_comm. Qed.

Lemma event_order_convergence_witness :
  apply_events [{| createdAt := 5; terminal := false |}; {| createdAt := 7; terminal := true |};
                {| createdAt := 7; terminal := false |}] =
  apply_events [{| createdAt := 7; terminal := false |}; {| createdAt := 5; terminal := false |};
                {| createdAt := 7; terminal := true |}].
Proof.
  apply event_order_convergence.
  etransitivity; [apply perm_skip, perm_swap | apply perm_swap].
Defined.

Lemma apply_event_keeps s e x :
  shouldApplyStripeEvent (Some s) x = false ->
  exists s', apply_event (Some s) e = Some s' /\ shouldApplyStripeEvent (Some s') x = false.
Proof.
  destruct s as [c tc], e as [b tb], x as [a ta]. unfold apply_event, shouldApplyStripeEvent.
  simpl. intros Hx. order_cases; try discriminate; try lia;
    destruct ta, tb, tc; simpl in *; try discriminate;
    eexists; split; try reflexivity; simpl; order_cases; try lia; done.
Qed.

Lemma apply_events_dominates s evs x :
  shouldApplyStripeEvent (Some s) x = false ->
  exists s', fold_left apply_event evs (Some s) = Some s' /\ shouldApplyStripeEvent (Some s') x = false.
Proof.
  revert s. induction evs as [|e evs IH]; simpl; intros s Hx; [eauto|].
  destruct (apply_event_keeps s e x Hx) as (s' & -> & Hx'). eauto.
Qed.

Lemma apply_event_self s e :
  exists s', apply_event s e = Some s' /\ shouldApplyStripeEvent (Some s') e = false.
Proof.
  unfold apply_event. destruct (shouldApplyStripeEvent s e) eqn:Ha.
  - exists e. split; [done|]. simpl. rewrite Z.ltb_irrefl. by destruct (terminal e).
  - destruct s as [s|]; [eauto|done].
Qed.

(** No event that was ever received would still apply over the stored
    position: in particular a replay of any delivery is stale, and a terminal
    event is never overwritten by a non-terminal one of the same second. *)
Theorem stored_event_is_latest (evs : list StripeEventOrder) (e : StripeEventOrder) :
  e ∈ evs -> exists s, apply_events evs = Some s /\ shouldApplyStripeEvent (Some s) e = false.
Proof.
  unfold apply_events. generalize (None : option StripeEventOrder).
  induction evs as [|x evs IH]; simpl; intros s; [by intros ?%not_elem_of_nil|].
  intros [->|Hin]%elem_of_cons; [|by apply IH].
  destruct (apply_event_self s x) as (s' & -> & Hs'). by apply apply_events_dominates.
Qed.

Lemma stored_event_is_latest_witness :
  exists s, apply_events [{| createdAt := 7; terminal := true |}; {| createdAt := 7; terminal := false |}] = Some s
            /\ shouldApplyStripeEvent (Some s) {| createdAt := 7; terminal := false |} = false.
Proof. apply stored_event_is_latest. right. left. Defined.
