(* ===== verification/Entitlements.v ===== *)
(** The entitlement catalogue with access-state precedence, limit arithmetic,
    the keep-oldest monitoring reconciliation, the operation gate
    ([packages/core/src/entitlements.ts]) and the AI usage policies
    ([packages/core/src/usage-policy.ts], [usage-pricing.ts]). *)

From S2P Require Import Prelude Billing.
Open Scope string_scope.
Open Scope list_scope.
Open Scope Z_scope.
Open Scope tam_scope.

(** * Entitlement records *)

(** A [number | null] limit as the code can read it: a cap, [null] for
    unlimited, or [undefined] when the record it is read from is not an
    entitlement record at all (see [planEntitlements]). *)
Inductive limit := Cap (n : Z) | Unlimited | Undefined.

#[export] Instance limit_eq_dec : EqDecision limit.
Proof. solve_decision. Defined.

(** A boolean field read as [undefined] is falsy and appears as [false]. *)
(* src: packages/core/src/entitlements.ts:13-64 PlanEntitlements *)
Record PlanEntitlements := {
  ent_plan : option BillingPlanId;
  maxBrands : limit;
  maxConnectedAccounts : limit;
  maxFacebookPages : limit;
  maxInstagramAccounts : limit;
  maxFacebookPerBrand : limit;
  maxInstagramPerBrand : limit;
  maxGoogleBusinessPerBrand : limit;
  maxYouTubePerBrand : limit;
  maxTeamMembers : limit;
  monthlyProcessedItems : limit;
  monthlyAiActions : limit;
  reputationAnalytics : bool;
  riskProfiles : bool;
  incidents : bool;
  controlCenter : bool;
  advancedRules : bool;
  auditLog : bool;
  securitySuite : bool;
  cyberbullyingProtection : bool;
  businessConnectedPlatforms : bool;
  prioritySupport : bool;
  multiWorkspace : bool;
  agencyClientManagement : bool;
  export_ : bool;
  providerSync : bool;
  moderationExecution : bool;
  paidAi : bool;
  billingAccess : bool;
  deletionAccess : bool;
  dataRetentionDays : limit
}.

(* src: packages/core/src/entitlements.ts:74-124 BASE *)
Definition BASE (p : BillingPlanId) : PlanEntitlements :=
  match p with
  | free_trial => {|
      ent_plan := Some free_trial;
      maxBrands := Cap 1; maxConnectedAccounts := Cap 1; maxFacebookPages := Cap 1; maxInstagramAccounts := Cap 1;
      maxFacebookPerBrand := Cap 1; maxInstagramPerBrand := Cap 1; maxGoogleBusinessPerBrand := Cap 1; maxYouTubePerBrand := Cap 1;
      maxTeamMembers := Cap 2; monthlyProcessedItems := Cap 500; monthlyAiActions := Cap 10;
      reputationAnalytics := false; riskProfiles := false; incidents := false; controlCenter := false; advancedRules := false;
      auditLog := true; securitySuite := false; cyberbullyingProtection := false; businessConnectedPlatforms := false;
      prioritySupport := false; multiWorkspace := false; agencyClientManagement := false; export_ := false;
      providerSync := true; moderationExecution := true; paidAi := true; billingAccess := true; deletionAccess := true;
      dataRetentionDays := Cap 30 |}
  | starter => {|
      ent_plan := Some starter;
      maxBrands := Cap 1; maxConnectedAccounts := Cap 4; maxFacebookPages := Cap 1; maxInstagramAccounts := Cap 1;
      maxFacebookPerBrand := Cap 1; maxInstagramPerBrand := Cap 1; maxGoogleBusinessPerBrand := Cap 1; maxYouTubePerBrand := Cap 1;
      maxTeamMembers := Cap 3; monthlyProcessedItems := Cap 4000; monthlyAiActions := Cap 200;
      reputationAnalytics := false; riskProfiles := false; incidents := false; controlCenter := false; advancedRules := false;
      auditLog := true; securitySuite := false; cyberbullyingProtection := false; businessConnectedPlatforms := false;
      prioritySupport := false; multiWorkspace := false; agencyClientManagement := false; export_ := true;
      providerSync := true; moderationExecution := true; paidAi := true; billingAccess := true; deletionAccess := true;
      dataRetentionDays := Cap 90 |}
  | growth => {|
      ent_plan := Some growth;
      maxBrands := Cap 3; maxConnectedAccounts := Cap 12; maxFacebookPages := Cap 3; maxInstagramAccounts := Cap 3;
      maxFacebookPerBrand := Cap 1; maxInstagramPerBrand := Cap 1; maxGoogleBusinessPerBrand := Cap 1; maxYouTubePerBrand := Cap 1;
      maxTeamMembers := Cap 8; monthlyProcessedItems := Cap 13000; monthlyAiActions := Cap 1000;
      reputationAnalytics := true; riskProfiles := true; incidents := true; controlCenter := true; advancedRules := true;
      auditLog := true; securitySuite := true; cyberbullyingProtection := true; businessConnectedPlatforms := true;
      prioritySupport := false; multiWorkspace := false; agencyClientManagement := false; export_ := true;
      providerSync := true; moderationExecution := true; paidAi := true; billingAccess := true; deletionAccess := true;
      dataRetentionDays := Cap 180 |}
  | agency => {|
      ent_plan := Some agency;
      maxBrands := Cap 10; maxConnectedAccounts := Cap 40; maxFacebookPages := Cap 10; maxInstagramAccounts := Cap 10;
      maxFacebookPerBrand := Cap 1; maxInstagramPerBrand := Cap 1; maxGoogleBusinessPerBrand := Cap 1; maxYouTubePerBrand := Cap 1;
      maxTeamMembers := Cap 25; monthlyProcessedItems := Cap 25000; monthlyAiActions := Cap 5000;
      reputationAnalytics := true; riskProfiles := true; incidents := true; controlCenter := true; advancedRules := true;
      auditLog := true; securitySuite := true; cyberbullyingProtection := true; businessConnectedPlatforms := true;
      prioritySupport := true; multiWorkspace := false; agencyClientManagement := false; export_ := true;
      providerSync := true; moderationExecution := true; paidAi := true; billingAccess := true; deletionAccess := true;
      dataRetentionDays := Cap 365 |}
  | enterprise => {|
      ent_plan := Some enterprise;
      maxBrands := Unlimited; maxConnectedAccounts := Unlimited; maxFacebookPages := Unlimited; maxInstagramAccounts := Unlimited;
      maxFacebookPerBrand := Unlimited; maxInstagramPerBrand := Unlimited; maxGoogleBusinessPerBrand := Unlimited; maxYouTubePerBrand := Unlimited;
      maxTeamMembers := Unlimited; monthlyProcessedItems := Unlimited; monthlyAiActions := Unlimited;
      reputationAnalytics := true; riskProfiles := true; incidents := true; controlCenter := true; advancedRules := true;
      auditLog := true; securitySuite := true; cyberbullyingProtection := true; businessConnectedPlatforms := true;
      prioritySupport := true; multiWorkspace := false; agencyClientManagement := false; export_ := true;
      providerSync := true; moderationExecution := true; paidAi := true; billingAccess := true; deletionAccess := true;
      dataRetentionDays := Unlimited |}
  end.

(* src: packages/core/src/entitlements.ts:127-136 MINIMAL *)
Definition MINIMAL : PlanEntitlements :=
  let base := BASE free_trial in {|
  ent_plan := ent_plan base;
  maxBrands := Cap 1; maxConnectedAccounts := Cap 0; maxFacebookPages := Cap 0; maxInstagramAccounts := Cap 0;
  maxFacebookPerBrand := Cap 0; maxInstagramPerBrand := Cap 0; maxGoogleBusinessPerBrand := Cap 0; maxYouTubePerBrand := Cap 0;
  maxTeamMembers := maxTeamMembers base; monthlyProcessedItems := Cap 0; monthlyAiActions := Cap 0;
  reputationAnalytics := false; riskProfiles := false; incidents := false; controlCenter := false; advancedRules := false;
  auditLog := auditLog base; securitySuite := false; cyberbullyingProtection := false; businessConnectedPlatforms := false;
  prioritySupport := prioritySupport base; multiWorkspace := multiWorkspace base;
  agencyClientManagement := agencyClientManagement base; export_ := export_ base;
  providerSync := false; moderationExecution := false; paidAi := false; billingAccess := true; deletionAccess := true;
  dataRetentionDays := dataRetentionDays base |}.

(* src: packages/core/src/entitlements.ts:144-153 INTERNAL *)
Definition INTERNAL : PlanEntitlements :=
  let base := BASE enterprise in {|
  ent_plan := ent_plan base;
  maxBrands := Unlimited; maxConnectedAccounts := Unlimited; maxFacebookPages := Unlimited; maxInstagramAccounts := Unlimited;
  maxFacebookPerBrand := Unlimited; maxInstagramPerBrand := Unlimited; maxGoogleBusinessPerBrand := Unlimited; maxYouTubePerBrand := Unlimited;
  maxTeamMembers := Unlimited; monthlyProcessedItems := Unlimited; monthlyAiActions := Unlimited;
  reputationAnalytics := true; riskProfiles := true; incidents := true; controlCenter := true; advancedRules := true;
  auditLog := true; securitySuite := securitySuite base; cyberbullyingProtection := cyberbullyingProtection base;
  businessConnectedPlatforms := businessConnectedPlatforms base;
  prioritySupport := true; multiWorkspace := multiWorkspace base;
  agencyClientManagement := agencyClientManagement base; export_ := true;
  providerSync := true; moderationExecution := true; paidAi := true; billingAccess := true; deletionAccess := true;
  dataRetentionDays := Unlimited |}.

(** What reading entitlement fields off an inherited [Object.prototype] member
    (a function, or the prototype itself) gives: no field is there. *)
Definition NOT_A_RECORD : PlanEntitlements := {|
  ent_plan := None;
  maxBrands := Undefined; maxConnectedAccounts := Undefined; maxFacebookPages := Undefined; maxInstagramAccounts := Undefined;
  maxFacebookPerBrand := Undefined; maxInstagramPerBrand := Undefined; maxGoogleBusinessPerBrand := Undefined; maxYouTubePerBrand := Undefined;
  maxTeamMembers := Undefined; monthlyProcessedItems := Undefined; monthlyAiActions := Undefined;
  reputationAnalytics := false; riskProfiles := false; incidents := false; controlCenter := false; advancedRules := false;
  auditLog := false; securitySuite := false; cyberbullyingProtection := false; businessConnectedPlatforms := false;
  prioritySupport := false; multiWorkspace := false; agencyClientManagement := false; export_ := false;
  providerSync := false; moderationExecution := false; paidAi := false; billingAccess := false; deletionAccess := false;
  dataRetentionDays := Undefined |}.

(* src: packages/core/src/entitlements.ts:155-157 isKnownBillingPlan *)
Definition isKnownBillingPlan (plan : option string) : bool :=
  match plan with
  | Some s => in_object (map js_name (js_values (A := BillingPlanId))) s
  | None => false
  end.

(** [BASE[plan]] on an inherited key is not an entitlement record. *)
(* src: packages/core/src/entitlements.ts:160-162 planEntitlements *)
Definition planEntitlements (plan : option string) : PlanEntitlements :=
  if isKnownBillingPlan plan
  then match parse_opt plan with Some p => BASE p | None => NOT_A_RECORD end
  else MINIMAL.

(* src: packages/core/src/entitlements.ts:180-187 resolveEntitlements *)
Definition lockedEnt (base : PlanEntitlements) : PlanEntitlements := {|
  ent_plan := ent_plan base;
  maxBrands := Cap 0; maxConnectedAccounts := Cap 0; maxFacebookPages := Cap 0; maxInstagramAccounts := Cap 0;
  maxFacebookPerBrand := Cap 0; maxInstagramPerBrand := Cap 0; maxGoogleBusinessPerBrand := Cap 0; maxYouTubePerBrand := Cap 0;
  maxTeamMembers := maxTeamMembers base; monthlyProcessedItems := monthlyProcessedItems base; monthlyAiActions := Cap 0;
  reputationAnalytics := reputationAnalytics base; riskProfiles := riskProfiles base; incidents := incidents base;
  controlCenter := controlCenter base; advancedRules := advancedRules base;
  auditLog := auditLog base; securitySuite := securitySuite base; cyberbullyingProtection := cyberbullyingProtection base;
  businessConnectedPlatforms := businessConnectedPlatforms base; prioritySupport := prioritySupport base;
  multiWorkspace := multiWorkspace base; agencyClientManagement := agencyClientManagement base; export_ := export_ base;
  providerSync := false; moderationExecution := false; paidAi := false; billingAccess := true; deletionAccess := true;
  dataRetentionDays := dataRetentionDays base |}.

(* src: packages/core/src/entitlements.ts:173-195 resolveEntitlements *)
Definition resolveEntitlements (plan accessState : option string) (deletingTenant internalAccess_ : bool) : PlanEntitlements :=
  let base := planEntitlements plan in
  if deletingTenant then lockedEnt base
  else if internalAccess_ then INTERNAL
  else if status_is accessState "suspended" || status_is accessState "restricted" then lockedEnt base
  else base.

(* src: packages/core/src/entitlements.ts:199-204 EntitlementReason *)
Inductive EntitlementReason :=
  | plan_upgrade_required | trial_expired | billing_restricted
  | account_limit_reached | brand_limit_reached | team_limit_reached
  | brand_platform_limit_reached
  | usage_limit_reached | feature_not_in_plan | operation_not_allowed.

#[export] Instance EntitlementReason_eq_dec : EqDecision EntitlementReason.
Proof. solve_decision. Defined.

(* src: packages/core/src/entitlements.ts:210-213 BooleanFeature *)
Inductive BooleanFeature :=
  | f_reputationAnalytics | f_riskProfiles | f_incidents | f_controlCenter | f_advancedRules
  | f_auditLog | f_securitySuite | f_cyberbullyingProtection | f_businessConnectedPlatforms
  | f_export | f_multiWorkspace | f_agencyClientManagement | f_prioritySupport
  | f_providerSync | f_moderationExecution | f_paidAi | f_billingAccess | f_deletionAccess.

(* src: packages/core/src/entitlements.ts:215-217 hasEntitlement *)
Definition hasEntitlement (ent : PlanEntitlements) (feature : BooleanFeature) : bool :=
  match feature with
  | f_reputationAnalytics => reputationAnalytics ent | f_riskProfiles => riskProfiles ent
  | f_incidents => incidents ent | f_controlCenter => controlCenter ent
  | f_advancedRules => advancedRules ent | f_auditLog => auditLog ent
  | f_securitySuite => securitySuite ent | f_cyberbullyingProtection => cyberbullyingProtection ent
  | f_businessConnectedPlatforms => businessConnectedPlatforms ent | f_export => export_ ent
  | f_multiWorkspace => multiWorkspace ent | f_agencyClientManagement => agencyClientManagement ent
  | f_prioritySupport => prioritySupport ent | f_providerSync => providerSync ent
  | f_moderationExecution => moderationExecution ent | f_paidAi => paidAi ent
  | f_billingAccess => billingAccess ent | f_deletionAccess => deletionAccess ent
  end.

(* src: packages/core/src/entitlements.ts:218-220 assertEntitlement *)
Definition assertEntitlement (ent : PlanEntitlements) (feature : BooleanFeature)
    (reason : EntitlementReason) : outcome unit EntitlementReason :=
  if hasEntitlement ent feature then Ret tt else Throw reason.

(** [current < undefined] is false. *)
(* src: packages/core/src/entitlements.ts:223-225 isWithinLimit *)
Definition isWithinLimit (current : Z) (max : limit) : bool :=
  match max with Unlimited => true | Cap n => current <? n | Undefined => false end.

(* src: packages/core/src/entitlements.ts:226-228 assertWithinLimit *)
Definition assertWithinLimit (current : Z) (max : limit) (reason : EntitlementReason) : outcome unit EntitlementReason :=
  if isWithinLimit current max then Ret tt else Throw reason.

(** The remaining allowance; [Infinity] for unlimited, [NaN] for an absent limit. *)
Inductive remaining := Finite (n : Z) | Infinity | NotANumber.

(* src: packages/core/src/entitlements.ts:231-233 getUsageRemaining *)
Definition getUsageRemaining (current : Z) (max : limit) : remaining :=
  match max with Unlimited => Infinity | Cap n => Finite (Z.max 0 (n - current)) | Undefined => NotANumber end.

(* src: packages/core/src/entitlements.ts:241-249 maxPerBrandForPlatform *)
Definition maxPerBrandForPlatform (ent : PlanEntitlements) (platform : string) : limit :=
  if platform =s "facebook_page" then maxFacebookPerBrand ent
  else if platform =s "instagram_business" then maxInstagramPerBrand ent
  else if platform =s "google_business" then maxGoogleBusinessPerBrand ent
  else if platform =s "youtube" then maxYouTubePerBrand ent
  else Cap 0.

(* src: packages/core/src/entitlements.ts:299-301 GatedOperation *)
Inductive GatedOperation := provider_sync | moderation_execution | paid_ai | connect_account | create_brand.

#[export] Program Instance GatedOperation_enum : JsEnum GatedOperation := {|
  js_name o := match o with
    | provider_sync => "provider_sync" | moderation_execution => "moderation_execution"
    | paid_ai => "paid_ai" | connect_account => "connect_account" | create_brand => "create_brand" end;
  js_values := [provider_sync; moderation_execution; paid_ai; connect_account; create_brand] |}.
Solve All Obligations with solve_js_enum.

(** [(max ?? 1) > 0]: both [null] and [undefined] fall back to 1. *)
(* src: packages/core/src/entitlements.ts:309-310 canPerformOperation *)
Definition limit_positive (l : limit) : bool :=
  match l with Cap n => 0 <? n | Unlimited | Undefined => true end.

(** [None] stands for [{ ok: true }], [Some reason] for the denial. *)
(* src: packages/core/src/entitlements.ts:304-313 canPerformOperation *)
Definition canPerformOperation (ent : PlanEntitlements) (op : string) : option EntitlementReason :=
  let gate (b : bool) := if b then None else Some billing_restricted in
  match parse op with
  | Some provider_sync => gate (providerSync ent)
  | Some moderation_execution => gate (moderationExecution ent)
  | Some paid_ai => gate (paidAi ent)
  | Some connect_account => gate (limit_positive (maxConnectedAccounts ent))
  | Some create_brand => gate (limit_positive (maxBrands ent))
  | None => Some operation_not_allowed
  end.

(** * Keep-oldest monitoring reconciliation *)

(* src: packages/core/src/entitlements.ts:262-262 MonitoredAccountRef *)
Record MonitoredAccountRef := { acc_id : string; acc_brandId : option string; acc_createdAt : Z }.
(* src: packages/core/src/entitlements.ts:263-263 BrandRef *)
Record BrandRef := { brand_id : string; brand_createdAt : Z }.
(* src: packages/core/src/entitlements.ts:264-264 MonitoringCaps *)
Record MonitoringCaps := { cap_maxBrands : option Z; cap_maxConnectedAccounts : option Z }.

#[export] Instance MonitoredAccountRef_eq_dec : EqDecision MonitoredAccountRef.
Proof. solve_decision. Defined.

(** The comparator on (createdAt, id). *)
(* src: packages/core/src/entitlements.ts:267-269 byOldest *)
Definition byOldest (a b : Z * string) : Z :=
  let d := fst a - fst b in
  if d =? 0 then if str_ltb (snd a) (snd b) then -1
                 else if str_ltb (snd b) (snd a) then 1 else 0
  else d.

Definition acc_age (a : MonitoredAccountRef) : Z * string := (acc_createdAt a, acc_id a).
Definition brand_age (b : BrandRef) : Z * string := (brand_createdAt b, brand_id b).

(** [slice(0, Math.max(0, n))] and [slice(Math.max(0, n))] *)
Definition slice_to {A} (n : Z) (l : list A) : list A := take (Z.to_nat (Z.max 0 n)) l.
Definition slice_from {A} (n : Z) (l : list A) : list A := drop (Z.to_nat (Z.max 0 n)) l.

(** The brands that stay, or [None] when the plan has no brand cap. *)
(* src: packages/core/src/entitlements.ts:281-282 selectMonitoringToDisable *)
Definition keptBrands (brands : list BrandRef) (caps : MonitoringCaps) : option (list string) :=
  option_map (fun n => map brand_id (slice_to n (js_sort (fun a b => byOldest (brand_age a) (brand_age b)) brands)))
             (cap_maxBrands caps).

(** The complement of [a.brandId !== null && !keep.has(a.brandId)]. *)
(* src: packages/core/src/entitlements.ts:280-288 selectMonitoringToDisable *)
Definition survivesBrandCap (keep : option (list string)) (a : MonitoredAccountRef) : bool :=
  match keep, acc_brandId a with
  | Some ids, Some b => includes ids b
  | _, _ => true
  end.

(* src: packages/core/src/entitlements.ts:272-297 selectMonitoringToDisable *)
Definition selectMonitoringToDisable (accounts : list MonitoredAccountRef) (brands : list BrandRef)
    (caps : MonitoringCaps) : list string :=
  let keep := keptBrands brands caps in
  let disabled := List.filter (fun a => negb (survivesBrandCap keep a)) accounts in
  let survivors := List.filter (survivesBrandCap keep) accounts in
  let over := match cap_maxConnectedAccounts caps with
              | Some n => slice_from n (js_sort (fun a b => byOldest (acc_age a) (acc_age b)) survivors)
              | None => []
              end in
  js_set (map acc_id disabled ++ map acc_id over).

(** * AI usage policies *)

(* src: packages/core/src/usage-policy.ts:9-10 UsagePlan *)
Inductive UsagePlan := up_free | up_free_trial | up_starter | up_growth | up_agency | up_pro | up_enterprise.

#[export] Program Instance UsagePlan_enum : JsEnum UsagePlan := {|
  js_name p := match p with
    | up_free => "free" | up_free_trial => "free_trial" | up_starter => "starter" | up_growth => "growth"
    | up_agency => "agency" | up_pro => "pro" | up_enterprise => "enterprise" end;
  js_values := [up_free; up_free_trial; up_starter; up_growth; up_agency; up_pro; up_enterprise] |}.
Solve All Obligations with solve_js_enum.

(* src: packages/core/src/usage-policy.ts:12-23 UsagePolicy *)
Record UsagePolicy := {
  pol_plan : UsagePlan;
  basicUnitsPerPeriod : option Z;
  premiumCallsPerPeriod : option Z;
  premiumCostLimitMicros : option Z;
  maxInputTokensPerCall : Z;
  maxOutputTokensPerCall : Z;
  allowRules : bool;
  allowLocalModel : bool;
  allowPaidFallback : bool;
  allowGeneratedReplies : bool
}.

Definition mkPolicy p b c m i o paid replies : UsagePolicy := {|
  pol_plan := p; basicUnitsPerPeriod := b; premiumCallsPerPeriod := c; premiumCostLimitMicros := m;
  maxInputTokensPerCall := i; maxOutputTokensPerCall := o; allowRules := true; allowLocalModel := true;
  allowPaidFallback := paid; allowGeneratedReplies := replies |}.

(* src: packages/core/src/usage-policy.ts:31-88 POLICIES *)
Definition POLICIES (p : UsagePlan) : UsagePolicy :=
  match p with
  | up_free => mkPolicy up_free (Some 500) (Some 10) (Some 200000) 2000 512 true false
  | up_free_trial => mkPolicy up_free_trial (Some 500) (Some 10) (Some 200000) 2000 512 true false
  | up_starter => mkPolicy up_starter (Some 4000) (Some 200) (Some 5000000) 4000 1024 true false
  | up_growth => mkPolicy up_growth (Some 13000) (Some 1000) (Some 25000000) 6000 1536 true false
  | up_agency => mkPolicy up_agency (Some 25000) (Some 5000) (Some 100000000) 8000 2048 true true
  | up_pro => mkPolicy up_pro (Some 50000) (Some 5000) (Some 100000000) 8000 2048 true true
  | up_enterprise => mkPolicy up_enterprise None None None 16000 4096 true true
  end.

(* src: packages/core/src/usage-policy.ts:94-99 RESTRICTED *)
Definition RESTRICTED : UsagePolicy := mkPolicy up_free (Some 500) (Some 0) (Some 0) 2000 512 false false.

(* src: packages/core/src/usage-policy.ts:103-105 isKnownPlan *)
Definition isKnownPlan (plan : option string) : bool := is_some (parse_opt (A := UsagePlan) plan).

(* src: packages/core/src/usage-policy.ts:112-114 resolveUsagePolicy *)
Definition resolveUsagePolicy (plan : option string) : UsagePolicy :=
  match parse_opt plan with Some p => POLICIES p | None => POLICIES up_free end.

(* src: packages/core/src/usage-policy.ts:124-134 resolveEffectiveUsagePolicy *)
Definition resolveEffectiveUsagePolicy (plan accessState : option string) (internalAccess_ : bool) : UsagePolicy :=
  if internalAccess_ then POLICIES up_enterprise
  else if status_is accessState "restricted" || status_is accessState "suspended" then RESTRICTED
  else resolveUsagePolicy plan.

(** * AI cost estimates *)

(** Prices are kept exact, in hundredths of a micro per token; the source's
    [0.15] and [0.60] are the decimals 15/100 and 60/100. *)
(* src: packages/core/src/usage-pricing.ts:20-29 PRICING *)
Definition PRICING (provider modelKey : string) : option (Z * Z) :=
  if (provider =s "none") && (modelKey =s "none") then Some (0, 0)
  else if (provider =s "mock") && (modelKey =s "mock") then Some (0, 0)
  else if (provider =s "openai") && (modelKey =s "gpt-4o-mini") then Some (15, 60)
  else None.

(* src: packages/core/src/usage-pricing.ts:32-32 SAFE_FALLBACK_MICROS *)
Definition SAFE_FALLBACK_MICROS : Z := 200000.

(** [Math.ceil] of the exact sum. *)
(* src: packages/core/src/usage-pricing.ts:42-47 estimateCostMicros *)
Definition estimateCostMicros (provider modelKey : string) (maxInputTokens maxOutputTokens : Z) : Z :=
  match PRICING provider modelKey with
  | None => SAFE_FALLBACK_MICROS
  | Some (i, o) => Z.max 0 ((i * Z.max 0 maxInputTokens + o * Z.max 0 maxOutputTokens + 99) / 100)
  end.

(* src: packages/core/src/usage-pricing.ts:53-58 actualCostMicros *)
Definition actualCostMicros (provider modelKey : string) (inputTokens outputTokens : Z) : Z :=
  match PRICING provider modelKey with
  | None => SAFE_FALLBACK_MICROS
  | Some (i, o) => Z.max 0 ((i * Z.max 0 inputTokens + o * Z.max 0 outputTokens + 99) / 100)
  end.

(** * The reconciliation keeps the oldest and respects both caps *)

Lemma byOldest_nonpos a b :
  byOldest a b <= 0 <-> fst a < fst b \/ (fst a = fst b /\ str_ltb (snd b) (snd a) = false) .
Proof.
  unfold byOldest. destruct (Z.eqb_spec (fst a - fst b) 0); [|lia].
  destruct (str_ltb (snd a) (snd b)) eqn:H1.
  - split; [|lia]. intros _. right. split; [lia|].
    destruct (str_ltb (snd b) (snd a)) eqn:H2; [|done].
    pose proof (str_ltb_trans _ _ _ H1 H2) as H3. by rewrite str_ltb_irrefl in H3.
  - destruct (str_ltb (snd b) (snd a)); [|lia]. split; [lia|]. intros [?|[? ?]]; [lia|done].
Qed.

Lemma byOldest_total a b : byOldest a b <= 0 \/ byOldest b a <= 0.
Proof.
  rewrite !byOldest_nonpos.
  destruct (Z.lt_total (fst a) (fst b)) as [?|[?|?]]; auto.
  destruct (str_ltb (snd b) (snd a)) eqn:H1; [|by auto].
  right. right. split; [done|].
  destruct (str_ltb (snd a) (snd b)) eqn:H2; [|done].
  pose proof (str_ltb_trans _ _ _ H1 H2) as H3. by rewrite str_ltb_irrefl in H3.
Qed.

Lemma byOldest_trans a b c : byOldest a b <= 0 -> byOldest b c <= 0 -> byOldest a c <= 0.
Proof.
  rewrite !byOldest_nonpos. intros [?|[? H1]] [?|[? H2]]; try (left; lia).
  right. split; [lia|]. destruct (str_ltb (snd c) (snd a)) eqn:H3; [|done].
  destruct (str_ltb_total (snd a) (snd b)) as [Ht|[Ht|Ht]].
  - by rewrite (str_ltb_trans _ _ _ H3 Ht) in H2.
  - congruence.
  - congruence.
Qed.

Section Reconciliation.
Context (accounts : list MonitoredAccountRef) (brands : list BrandRef) (caps : MonitoringCaps).
Hypothesis ids_distinct : NoDup (map acc_id accounts).

Let keep := keptBrands brands caps.
Let survivors := List.filter (survivesBrandCap keep) accounts.
Let ordered := js_sort (fun a b => byOldest (acc_age a) (acc_age b)) survivors.
Let over := match cap_maxConnectedAccounts caps with Some n => slice_from n ordered | None => [] end.

(** The accounts whose monitoring stays on. *)
Definition keptAccounts : list MonitoredAccountRef :=
  List.filter (fun a => negb (includes (selectMonitoringToDisable accounts brands caps) (acc_id a))) accounts.

Lemma acc_id_inj a b : a ∈ accounts -> b ∈ accounts -> acc_id a = acc_id b -> a = b.
Proof. rewrite !list_elem_of_In. by apply NoDup_map_inj_in. Qed.

Lemma ordered_elem a : a ∈ ordered <-> a ∈ accounts /\ survivesBrandCap keep a = true.
Proof.
  unfold ordered. rewrite js_sort_perm. unfold survivors.
  by rewrite !list_elem_of_In, filter_In.
Qed.

Lemma over_sub a : a ∈ over -> a ∈ ordered.
Proof.
  unfold over, slice_from. destruct (cap_maxConnectedAccounts caps); [|set_solver].
  intros H. rewrite <- (take_drop (Z.to_nat (Z.max 0 z)) ordered). set_solver.
Qed.

Lemma disabled_iff a : a ∈ accounts ->
  acc_id a ∈ selectMonitoringToDisable accounts brands caps <->
  survivesBrandCap keep a = false \/ a ∈ over.
Proof.
  intros Ha. unfold selectMonitoringToDisable. rewrite elem_of_js_set, elem_of_app.
  rewrite !list_elem_of_fmap. fold keep survivors ordered over. split.
  - intros [(b & Hid & Hb)|(b & Hid & Hb)].
    + rewrite list_elem_of_In, filter_In, <- list_elem_of_In in Hb. destruct Hb as [Hb Hs].
      apply acc_id_inj in Hid; auto. subst. left. by apply negb_true_iff.
    + right. apply acc_id_inj in Hid; [by subst|done|]. by apply over_sub, ordered_elem in Hb as [? _].
  - intros [Hs|Ho]; [left|right]; exists a; split; auto.
    rewrite list_elem_of_In, filter_In, <- list_elem_of_In. by rewrite Hs.
Qed.

Lemma kept_iff a : a ∈ keptAccounts <-> a ∈ ordered /\ a ∉ over.
Proof.
  unfold keptAccounts. rewrite list_elem_of_In, filter_In, <- list_elem_of_In, negb_true_iff, ordered_elem.
  rewrite <- not_true_iff_false, includes_elem. split.
  - intros [Ha Hd]. rewrite disabled_iff in Hd by done.
    destruct (survivesBrandCap keep a); tauto.
  - intros [[Ha Hs] Ho]. split; [done|]. rewrite disabled_iff by done. intros [?|?]; congruence.
Qed.

Lemma accounts_NoDup : NoDup accounts.
Proof. by apply NoDup_fmap_1 in ids_distinct. Qed.

Lemma ordered_NoDup : NoDup ordered.
Proof.
  unfold ordered. rewrite js_sort_perm. unfold survivors.
  apply NoDup_ListNoDup, List.NoDup_filter, NoDup_ListNoDup, accounts_NoDup.
Qed.

Lemma keptAccounts_NoDup : NoDup keptAccounts.
Proof. apply NoDup_ListNoDup, List.NoDup_filter, NoDup_ListNoDup, accounts_NoDup. Qed.

(** With an account cap, the kept accounts are exactly the oldest survivors. *)
Lemma kept_is_prefix n : cap_maxConnectedAccounts caps = Some n ->
  Permutation keptAccounts (slice_to n ordered).
Proof.
  intros Hn. pose proof ordered_NoDup as Hnd. apply NoDup_Permutation.
  - apply keptAccounts_NoDup.
  - unfold slice_to. rewrite <- (take_drop (Z.to_nat (Z.max 0 n)) ordered) in Hnd.
    by apply NoDup_app in Hnd as [? _].
  - intros a. rewrite kept_iff. unfold over, slice_to, slice_from. rewrite Hn.
    rewrite <- (take_drop (Z.to_nat (Z.max 0 n)) ordered) in Hnd.
    apply NoDup_app in Hnd as (_ & Hd & _). specialize (Hd a).
    rewrite <- (take_drop (Z.to_nat (Z.max 0 n)) ordered) at 1. set_solver.
Qed.
End Reconciliation.

Lemma reconciliation_cap_aux accounts brands caps (Hnd : NoDup (map acc_id accounts)) n :
  cap_maxConnectedAccounts caps = Some n ->
  Z.of_nat (length (keptAccounts accounts brands caps)) <= Z.max 0 n.
Proof.
  intros Hn. rewrite (kept_is_prefix _ _ _ Hnd n Hn). unfold slice_to. rewrite length_take. lia.
Qed.

(** Retroactive plan enforcement disables just enough: what stays monitored
    fits the account cap, lies in at most the capped number of brands, and every
    kept account is at least as old as any account dropped by the account cap. *)
Theorem reconciliation_respects_caps (accounts : list MonitoredAccountRef) (brands : list BrandRef) (caps : MonitoringCaps) :
  NoDup (map acc_id accounts) ->
  let kept := keptAccounts accounts brands caps in
  (forall n, cap_maxConnectedAccounts caps = Some n -> Z.of_nat (length kept) <= Z.max 0 n) /\
  (forall n, cap_maxBrands caps = Some n -> exists ids, Z.of_nat (length ids) <= Z.max 0 n /\
     forall a b, a ∈ kept -> acc_brandId a = Some b -> b ∈ ids) /\
  (forall a b, a ∈ kept -> b ∈ accounts -> b ∉ kept ->
     survivesBrandCap (keptBrands brands caps) b = true -> byOldest (acc_age a) (acc_age b) <= 0).
Proof.
  intros Hnd. cbv zeta. split; [|split].
  - intros n Hn. by apply reconciliation_cap_aux.
  - intros n Hn. unfold keptBrands.
    exists (map brand_id (slice_to n (js_sort (fun a b => byOldest (brand_age a) (brand_age b)) brands))).
    split; [rewrite length_map; unfold slice_to; rewrite length_take; lia|].
    intros a b [Ho _]%kept_iff Hb; [|done]. apply ordered_elem in Ho as [_ Hs].
    revert Hs. unfold survivesBrandCap, keptBrands. rewrite Hn, Hb. simpl. by rewrite includes_elem.
  - intros a b Ha Hb Hnb Hs. rewrite kept_iff in Ha, Hnb by done. destruct Ha as [Ha Hao].
    assert (Hbo : b ∈ js_sort (fun a b => byOldest (acc_age a) (acc_age b))
                    (List.filter (survivesBrandCap (keptBrands brands caps)) accounts)) by (by apply ordered_elem).
    destruct (cap_maxConnectedAccounts caps) as [n|]; [|set_solver].
    unfold slice_from in *.
    apply (js_sort_take_drop (fun a b => byOldest (acc_age a) (acc_age b))
             (fun x y => byOldest_total _ _) (fun x y z => byOldest_trans _ _ _)
             (Z.to_nat (Z.max 0 n)) (List.filter (survivesBrandCap (keptBrands brands caps)) accounts)).
    + rewrite <- (take_drop (Z.to_nat (Z.max 0 n)) (js_sort _ _)) in Ha. set_solver.
    + destruct (decide (b ∈ drop (Z.to_nat (Z.max 0 n)) (js_sort (fun a b => byOldest (acc_age a) (acc_age b))
        (List.filter (survivesBrandCap (keptBrands brands caps)) accounts)))); [done|naive_solver].
Qed.

(** Reconciling again right after a reconciliation disables nothing more. *)
Theorem reconciliation_idempotent (accounts : list MonitoredAccountRef) (brands : list BrandRef) (caps : MonitoringCaps) :
  NoDup (map acc_id accounts) ->
  selectMonitoringToDisable (keptAccounts accounts brands caps) brands caps = [].
Proof.
  intros Hnd. unfold selectMonitoringToDisable.
  set (keep := keptBrands brands caps). set (kept := keptAccounts accounts brands caps).
  assert (Hall : forall a, a ∈ kept -> survivesBrandCap keep a = true).
  { intros a [Ho _]%kept_iff; [|done]. by apply ordered_elem in Ho as [_ ?]. }
  replace (List.filter (fun a => negb (survivesBrandCap keep a)) kept) with (@nil MonitoredAccountRef).
  2:{ symmetry. clearbody kept. induction kept as [|a l IH]; simpl; [done|].
      rewrite (Hall a) by left. simpl. apply IH. intros x Hx. apply Hall. by right. }
  destruct (cap_maxConnectedAccounts caps) as [n|] eqn:Hn; [|done].
  assert (Hlen : Z.of_nat (length kept) <= Z.max 0 n).
  { by apply (reconciliation_cap_aux accounts brands caps Hnd). }
  unfold slice_from. rewrite drop_ge; [done|].
  rewrite (Permutation_length (js_sort_perm _ _)).
  pose proof (List.filter_length_le (survivesBrandCap keep) kept). lia.
Qed.

Definition three_accounts : list MonitoredAccountRef :=
  [{| acc_id := "c"; acc_brandId := Some "b1"; acc_createdAt := 30 |};
   {| acc_id := "a"; acc_brandId := Some "b1"; acc_createdAt := 10 |};
   {| acc_id := "b"; acc_brandId := Some "b2"; acc_createdAt := 20 |}].
Definition two_brands : list BrandRef :=
  [{| brand_id := "b2"; brand_createdAt := 2 |}; {| brand_id := "b1"; brand_createdAt := 1 |}].

Lemma reconciliation_respects_caps_witness :
  Z.of_nat (length (keptAccounts three_accounts two_brands
    {| cap_maxBrands := Some 1; cap_maxConnectedAccounts := Some 1 |})) <= 1.
Proof.
  assert (Hnd : NoDup (map acc_id three_accounts)) by (apply (bool_decide_unpack _); vm_compute; exact I).
  destruct (reconciliation_respects_caps three_accounts two_brands
           {| cap_maxBrands := Some 1; cap_maxConnectedAccounts := Some 1 |} Hnd) as [H _].
  exact (H 1 eq_refl).
Defined.

Lemma reconciliation_idempotent_witness :
  selectMonitoringToDisable (keptAccounts three_accounts two_brands
    {| cap_maxBrands := Some 1; cap_maxConnectedAccounts := Some 1 |}) two_brands
    {| cap_maxBrands := Some 1; cap_maxConnectedAccounts := Some 1 |} = [].
Proof.
  apply reconciliation_idempotent. apply (bool_decide_unpack _). vm_compute. exact I.
Defined.

(** * Access-state precedence *)

(** A deleting tenant, or a non-internal tenant whose access is restricted or
    suspended, can start no operation and create no resource whatever its plan
    string is, while billing and deletion stay reachable. *)
Theorem locked_tenant_cannot_operate (plan accessState : option string) (deleting internal : bool) (op : string) :
  deleting = true \/
  (internal = false /\ (accessState = Some "suspended" \/ accessState = Some "restricted")) ->
  let ent := resolveEntitlements plan accessState deleting internal in
  is_some (canPerformOperation ent op) = true /\
  hasEntitlement ent f_billingAccess = true /\ hasEntitlement ent f_deletionAccess = true /\
  (forall n, 0 <= n -> isWithinLimit n (maxConnectedAccounts ent) = false /\
                       isWithinLimit n (maxBrands ent) = false).
Proof.
  intros Hl. cbv zeta.
  assert (Heq : resolveEntitlements plan accessState deleting internal = lockedEnt (planEntitlements plan)).
  { unfold resolveEntitlements. destruct Hl as [->|[-> [-> | ->]]]; [done| |]; by destruct deleting. }
  rewrite Heq. unfold canPerformOperation. simpl.
  repeat split; try lia. by destruct (parse op) as [[]|].
Qed.

Lemma locked_tenant_cannot_operate_witness :
  is_some (canPerformOperation (resolveEntitlements (Some "agency") (Some "restricted") false false) "paid_ai") = true.
Proof.
  refine (proj1 (locked_tenant_cannot_operate (Some "agency") (Some "restricted") false false "paid_ai" _)).
  tauto.
Defined.

(** An unlocked tenant on a catalogue plan gets exactly the plan's record, an
    internal one the unlimited record, and a plan string that names no plan and
    no inherited object key gets a record that permits no operation. *)
Theorem unlocked_entitlements (plan accessState : option string) (op : string) :
  status_is accessState "suspended" = false -> status_is accessState "restricted" = false ->
  resolveEntitlements plan accessState false true = INTERNAL /\
  (forall p, parse_opt plan = Some p -> resolveEntitlements plan accessState false false = BASE p) /\
  (isKnownBillingPlan plan = false ->
     let ent := resolveEntitlements plan accessState false false in
     op <> "create_brand" -> is_some (canPerformOperation ent op) = true).
Proof.
  intros Hs Hr. unfold resolveEntitlements. rewrite Hs, Hr. cbn [orb].
  split; [done|]. unfold planEntitlements. split.
  - intros p Hp. replace (isKnownBillingPlan plan) with true; [by rewrite Hp|].
    symmetry. destruct plan as [s|]; [|done]. simpl in Hp. apply parse_Some in Hp. subst. by destruct p.
  - intros ->. cbv zeta. intros Hop. unfold canPerformOperation. simpl.
    destruct (parse op) as [[]|] eqn:Hp; try done. by apply parse_Some in Hp as <-.
Qed.

Lemma unlocked_entitlements_witness :
  resolveEntitlements (Some "growth") (Some "grace_period") false false = BASE growth.
Proof. eapply (unlocked_entitlements (Some "growth") (Some "grace_period") "paid_ai"); reflexivity. Defined.

(** The membership test is fooled by the keys every object inherits: for such
    a plan string the result is not the minimal record, and the gate lets the
    tenant connect accounts and create brands. *)
Theorem inherited_key_escapes_minimal (k : string) :
  k ∈ object_prototype_keys ->
  planEntitlements (Some k) = NOT_A_RECORD /\
  canPerformOperation (planEntitlements (Some k)) "connect_account" = None /\
  canPerformOperation MINIMAL "connect_account" = Some billing_restricted.
Proof.
  intros Hk. unfold object_prototype_keys in Hk.
  repeat (apply elem_of_cons in Hk as [->|Hk]; [repeat split; reflexivity|]).
  by apply not_elem_of_nil in Hk.
Qed.

Lemma inherited_key_escapes_minimal_witness :
  canPerformOperation (planEntitlements (Some "constructor")) "connect_account" = None.
Proof. apply (inherited_key_escapes_minimal "constructor"). left. Defined.

Definition limit_of (o : option Z) : limit := match o with Some n => Cap n | None => Unlimited end.

(** The three catalogues agree on every plan: the metering allowance is the
    sold monthly item count, and the marketed account and team limits are the
    enforced ones. *)
Theorem catalogues_agree (p : BillingPlanId) :
  limit_of (basicUnitsPerPeriod (resolveUsagePolicy (Some (aiPlan (BILLING_PLANS p))))) = monthlyProcessedItems (BASE p) /\
  limit_of (connectedAccounts (BILLING_PLANS p)) = maxConnectedAccounts (BASE p) /\
  limit_of (teamMembers (BILLING_PLANS p)) = maxTeamMembers (BASE p) /\
  ent_plan (BASE p) = Some (pce_id (BILLING_PLANS p)).
Proof. destruct p; repeat split; reflexivity. Qed.

(** The reserved estimate is an upper bound: a call that stays within the
    policy's token limits never costs more than what was reserved for it. *)
Theorem estimate_covers_actual (provider modelKey : string) (maxIn maxOut inTok outTok : Z) :
  inTok <= maxIn -> outTok <= maxOut ->
  0 <= actualCostMicros provider modelKey inTok outTok
    <= estimateCostMicros provider modelKey maxIn maxOut.
Proof.
  intros Hi Ho. unfold actualCostMicros, estimateCostMicros, PRICING, SAFE_FALLBACK_MICROS.
  repeat match goal with |- context [if ?b then _ else _] => destruct b end; try lia.
  all: split; [apply Z.le_max_l|]; apply Z.max_le_compat_l, Z.div_le_mono; lia.
Qed.

Lemma estimate_covers_actual_witness :
  0 <= actualCostMicros "openai" "gpt-4o-mini" 1200 300
    <= estimateCostMicros "openai" "gpt-4o-mini" 2000 512.
Proof. apply estimate_covers_actual; lia. Defined.
