(* ===== verification/FamilyBilling.v ===== *)
(** Family plans ([packages/core/src/family-billing.ts] and [family-entitlements.ts]):
    the catalogue, the price environment and its reverse map, the plan and access a
    subscription gives, and the caps and capabilities of a plan. *)
From S2P Require Import Prelude Billing Entitlements.
Open Scope string_scope.
Open Scope list_scope.
Open Scope Z_scope.
Open Scope tam_scope.

Module FamilyBilling.

(** * Catalogue *)

(* src: packages/core/src/family-billing.ts:22-24 FamilyPlanId *)
Inductive FamilyPlanId := family_free | family_basic | family_plus | family_premium.
#[export] Instance FamilyPlanId_dec : EqDecision FamilyPlanId.
Proof. solve_decision. Defined.
#[export] Program Instance FamilyPlanId_enum : JsEnum FamilyPlanId := {|
  js_name p := match p with
    | family_free => "family_free" | family_basic => "family_basic" | family_plus => "family_plus" | family_premium => "family_premium" end;
  js_values := [family_free; family_basic; family_plus; family_premium] |}.
Solve All Obligations with solve_js_enum.

(** The marketing feature lines are left out. *)
(* src: packages/core/src/family-billing.ts:26-34 FamilyPlanCatalogueEntry *)
Record FamilyPlanCatalogueEntry := { fc_name : string; fc_tagline : string; fc_selfServeCheckout : bool }.

(* src: packages/core/src/family-billing.ts:36-101 FAMILY_BILLING_PLANS *)
Definition FAMILY_BILLING_PLANS (p : FamilyPlanId) : FamilyPlanCatalogueEntry :=
  match p with
  | family_free => {| fc_name := "Family Free"; fc_tagline := "Everyday family safety, free for as long as you need it."; fc_selfServeCheckout := false |}
  | family_basic => {| fc_name := "Family"; fc_tagline := "Calm protection for one child."; fc_selfServeCheckout := true |}
  | family_plus => {| fc_name := "Family Plus"; fc_tagline := "More capacity and everyday convenience for a growing family."; fc_selfServeCheckout := true |}
  | family_premium => {| fc_name := "Family Pro"; fc_tagline := "For big or blended households."; fc_selfServeCheckout := true |}
  end.

(** [v in FAMILY_BILLING_PLANS]: inherited property names included. *)
(* src: packages/core/src/family-billing.ts:104-106 isFamilyPlanId *)
Definition isFamilyPlanId (v : option string) : bool :=
  match v with Some s => in_object (map js_name (js_values (A := FamilyPlanId))) s | None => false end.

(* src: packages/core/src/family-billing.ts:112-114 isFamilySelfServePlan *)
Definition isFamilySelfServePlan (v : option string) : bool :=
  isFamilyPlanId v && match parse_opt (A := FamilyPlanId) v with Some p => fc_selfServeCheckout (FAMILY_BILLING_PLANS p) | None => false end.

(** * Prices *)

(* src: packages/core/src/family-billing.ts:119-119 FAMILY_SELF_SERVE_PLANS *)
Definition FAMILY_SELF_SERVE_PLANS : list FamilyPlanId := [family_basic; family_plus; family_premium].

(* src: packages/core/src/family-billing.ts:126-135 FAMILY_PRICE_ENV *)
Definition FAMILY_PRICE_ENV (p : FamilyPlanId) : option (string * string) :=
  match p with
  | family_free => None
  | family_basic => Some ("STRIPE_FAMILY_BASIC_MONTHLY_PRICE_ID", "STRIPE_FAMILY_BASIC_YEARLY_PRICE_ID")
  | family_plus => Some ("STRIPE_FAMILY_PLUS_MONTHLY_PRICE_ID", "STRIPE_FAMILY_PLUS_YEARLY_PRICE_ID")
  | family_premium => Some ("STRIPE_FAMILY_PREMIUM_MONTHLY_PRICE_ID", "STRIPE_FAMILY_PREMIUM_YEARLY_PRICE_ID")
  end.

(* src: packages/core/src/family-billing.ts:142-152 resolveFamilyStripePriceId *)
Definition resolveFamilyStripePriceId (plan : FamilyPlanId) (interval : BillingInterval) (env : Env) : option string :=
  match FAMILY_PRICE_ENV plan with
  | None => None
  | Some (m, y) =>
      match opt_trim (env (match interval with monthly => m | yearly => y end)) with
      | Some id => if nonempty id then Some id else None
      | None => None
      end
  end.

(* src: packages/core/src/family-billing.ts:159-168 familyPlanForStripePriceId *)
Fixpoint familyPlanForStripePriceId_in (plans : list FamilyPlanId) (priceId : string) (env : Env) : option (FamilyPlanId * BillingInterval) :=
  match plans with
  | [] => None
  | plan :: rest =>
      if bool_decide (resolveFamilyStripePriceId plan monthly env = Some priceId) then Some (plan, monthly)
      else if bool_decide (resolveFamilyStripePriceId plan yearly env = Some priceId) then Some (plan, yearly)
      else familyPlanForStripePriceId_in rest priceId env
  end.
(* src: packages/core/src/family-billing.ts:159-168 familyPlanForStripePriceId *)
Definition familyPlanForStripePriceId (priceId : string) (env : Env) : option (FamilyPlanId * BillingInterval) :=
  familyPlanForStripePriceId_in FAMILY_SELF_SERVE_PLANS priceId env.

(** A price key is its plan and interval. *)
(* src: packages/core/src/family-billing.ts:171-184 FAMILY_PRICE_KEY_MAP *)
Definition FAMILY_PRICE_KEY_MAP : list (FamilyPlanId * BillingInterval) :=
  [(family_basic, monthly); (family_basic, yearly); (family_plus, monthly); (family_plus, yearly);
   (family_premium, monthly); (family_premium, yearly)].

(** [counts.get(id) ?? 0] *)
(* src: packages/core/src/family-billing.ts:196-202 familyStripePriceAvailability *)
Definition familyIdCount (env : Env) (id : string) : nat :=
  length (List.filter (fun '(p, i) => bool_decide (resolveFamilyStripePriceId p i env = Some id)) FAMILY_PRICE_KEY_MAP).

(* src: packages/core/src/family-billing.ts:193-210 familyStripePriceAvailability *)
Definition familyStripePriceAvailability (env : Env) : list (FamilyPlanId * BillingInterval * bool) * bool :=
  (map (fun '(p, i) => (p, i, match resolveFamilyStripePriceId p i env with
                              | Some id => stripePriceShape id && (familyIdCount env id =? 1)%nat
                              | None => false end)) FAMILY_PRICE_KEY_MAP,
   existsb (fun '(p, i) => match resolveFamilyStripePriceId p i env with
                           | Some id => (1 <? familyIdCount env id)%nat | None => false end) FAMILY_PRICE_KEY_MAP).

(* src: packages/core/src/family-billing.ts:219-222 familyBillingEnabled *)
Definition familyBillingEnabled (env : Env) : bool :=
  match opt_trim (env "FAMILY_BILLING_ENABLED") with
  | Some v => let v := toLowerCase v in (v =s "1") || (v =s "true")
  | None => false
  end.

(** [paidPlan] is a cast of the subscription's plan string. *)
(* src: packages/core/src/family-billing.ts:233-259 resolveFamilyBillingState *)
Definition resolveFamilyBillingState (now : Z) (paidPlan : string) (input : AccessInput) : string * AccessState :=
  let access := resolveAccessState now input in
  if (access =e full_access) || (access =e grace_period) then (paidPlan, access) else (js_name family_free, full_access).

(** * Entitlements *)

(* src: packages/core/src/family-entitlements.ts:28-45 CriticalSafetyGuarantee *)
Record CriticalSafetyGuarantee := {
  detection : bool; classification : bool; evidence : bool; incident : bool; escalation : bool; notification : bool }.
(* src: packages/core/src/family-entitlements.ts:38-45 CRITICAL_SAFETY_ALWAYS *)
Definition CRITICAL_SAFETY_ALWAYS : CriticalSafetyGuarantee :=
  {| detection := true; classification := true; evidence := true; incident := true; escalation := true; notification := true |}.

(* src: packages/core/src/family-entitlements.ts:48-48 FamilyAlertChannel *)
Inductive FamilyAlertChannel := inapp | email | email_push.
(* src: packages/core/src/family-entitlements.ts:50-50 FamilyAiTier *)
Inductive FamilyAiTier := ai_none | ai_standard | ai_full.

(** A field an object does not have reads as [None] ([Undefined] for the caps, false
    for the flags). *)
(* src: packages/core/src/family-entitlements.ts:52-76 FamilyEntitlements *)
Record FamilyEntitlements := {
  fe_plan : option FamilyPlanId;
  maxProtectedProfiles : limit; maxGuardians : limit; maxFamilyMembers : limit; maxPendingInvitations : limit;
  historyRetentionDays : limit; nonCriticalAlerts : option FamilyAlertChannel; aiAnalysis : option FamilyAiTier;
  fe_reporting : bool; fe_export : bool; integrations : bool; fe_prioritySupport : bool; canManageFamily : bool;
  fe_billingAccess : bool; fe_deletionAccess : bool; criticalSafety : option CriticalSafetyGuarantee }.

(* src: packages/core/src/family-entitlements.ts:82-163 FAMILY_BASE *)
Definition FAMILY_BASE (p : FamilyPlanId) : FamilyEntitlements :=
  match p with
  | family_free => {| fe_plan := Some family_free; maxProtectedProfiles := Cap 1; maxGuardians := Cap 2; maxFamilyMembers := Cap 3;
      maxPendingInvitations := Cap 2; historyRetentionDays := Cap 90; nonCriticalAlerts := Some email; aiAnalysis := Some ai_none;
      fe_reporting := false; fe_export := false; integrations := false; fe_prioritySupport := false; canManageFamily := true;
      fe_billingAccess := true; fe_deletionAccess := true; criticalSafety := Some CRITICAL_SAFETY_ALWAYS |}
  | family_basic => {| fe_plan := Some family_basic; maxProtectedProfiles := Cap 3; maxGuardians := Cap 4; maxFamilyMembers := Cap 5;
      maxPendingInvitations := Cap 4; historyRetentionDays := Cap 365; nonCriticalAlerts := Some email_push; aiAnalysis := Some ai_standard;
      fe_reporting := true; fe_export := false; integrations := false; fe_prioritySupport := false; canManageFamily := true;
      fe_billingAccess := true; fe_deletionAccess := true; criticalSafety := Some CRITICAL_SAFETY_ALWAYS |}
  | family_plus => {| fe_plan := Some family_plus; maxProtectedProfiles := Cap 5; maxGuardians := Cap 8; maxFamilyMembers := Cap 10;
      maxPendingInvitations := Cap 10; historyRetentionDays := Cap 365; nonCriticalAlerts := Some email_push; aiAnalysis := Some ai_standard;
      fe_reporting := true; fe_export := true; integrations := true; fe_prioritySupport := false; canManageFamily := true;
      fe_billingAccess := true; fe_deletionAccess := true; criticalSafety := Some CRITICAL_SAFETY_ALWAYS |}
  | family_premium => {| fe_plan := Some family_premium; maxProtectedProfiles := Unlimited; maxGuardians := Unlimited;
      maxFamilyMembers := Unlimited; maxPendingInvitations := Unlimited; historyRetentionDays := Unlimited;
      nonCriticalAlerts := Some email_push; aiAnalysis := Some ai_full; fe_reporting := true; fe_export := true; integrations := true;
      fe_prioritySupport := true; canManageFamily := true; fe_billingAccess := true; fe_deletionAccess := true;
      criticalSafety := Some CRITICAL_SAFETY_ALWAYS |}
  end.

(* src: packages/core/src/family-entitlements.ts:170-187 FAMILY_MINIMAL *)
Definition FAMILY_MINIMAL : FamilyEntitlements :=
  {| fe_plan := Some family_free; maxProtectedProfiles := Cap 0; maxGuardians := Cap 0; maxFamilyMembers := Cap 0;
     maxPendingInvitations := Cap 0; historyRetentionDays := Cap 90; nonCriticalAlerts := Some inapp; aiAnalysis := Some ai_none;
     fe_reporting := false; fe_export := false; integrations := false; fe_prioritySupport := false; canManageFamily := false;
     fe_billingAccess := true; fe_deletionAccess := true; criticalSafety := Some CRITICAL_SAFETY_ALWAYS |}.

(** What reading the fields of an inherited member of [Object.prototype] gives. *)
Definition FAMILY_NOT_A_RECORD : FamilyEntitlements :=
  {| fe_plan := None; maxProtectedProfiles := Undefined; maxGuardians := Undefined; maxFamilyMembers := Undefined;
     maxPendingInvitations := Undefined; historyRetentionDays := Undefined; nonCriticalAlerts := None; aiAnalysis := None;
     fe_reporting := false; fe_export := false; integrations := false; fe_prioritySupport := false; canManageFamily := false;
     fe_billingAccess := false; fe_deletionAccess := false; criticalSafety := None |}.

(* src: packages/core/src/family-entitlements.ts:190-192 familyPlanEntitlements *)
Definition familyPlanEntitlements (plan : option string) : FamilyEntitlements :=
  if isFamilyPlanId plan then match parse_opt plan with Some p => FAMILY_BASE p | None => FAMILY_NOT_A_RECORD end
  else FAMILY_MINIMAL.

(* src: packages/core/src/family-entitlements.ts:226-240 resolveFamilyEntitlements *)
Definition familyLocked (base : FamilyEntitlements) : FamilyEntitlements :=
  {| fe_plan := fe_plan base; maxProtectedProfiles := Cap 0; maxGuardians := Cap 0; maxFamilyMembers := Cap 0;
     maxPendingInvitations := Cap 0; historyRetentionDays := historyRetentionDays base; nonCriticalAlerts := nonCriticalAlerts base;
     aiAnalysis := Some ai_none; fe_reporting := false; fe_export := false; integrations := false;
     fe_prioritySupport := fe_prioritySupport base; canManageFamily := false; fe_billingAccess := true; fe_deletionAccess := true;
     criticalSafety := Some CRITICAL_SAFETY_ALWAYS |}.

(* src: packages/core/src/family-entitlements.ts:216-246 resolveFamilyEntitlements *)
Definition resolveFamilyEntitlements (plan accessState : option string) (deletingTenant : bool) : FamilyEntitlements :=
  let base := familyPlanEntitlements plan in
  if deletingTenant then familyLocked base
  else if status_is accessState "full_access" || status_is accessState "grace_period" then base
  else familyLocked base.

(* src: packages/core/src/family-entitlements.ts:251-255 FamilyLimitedResource *)
Inductive FamilyLimitedResource := res_protected_profile | res_guardian | res_family_member | res_invitation.

(* src: packages/core/src/family-entitlements.ts:258-265 familyResourceLimit *)
Definition familyResourceLimit (ent : FamilyEntitlements) (r : FamilyLimitedResource) : limit :=
  match r with
  | res_protected_profile => maxProtectedProfiles ent | res_guardian => maxGuardians ent
  | res_family_member => maxFamilyMembers ent | res_invitation => maxPendingInvitations ent
  end.

(** * Prices map back *)

Lemma family_pair_listed p i env id : resolveFamilyStripePriceId p i env = Some id -> In (p, i) FAMILY_PRICE_KEY_MAP.
Proof. destruct p, i; cbn; tauto || discriminate. Qed.

Lemma familyPlanFor_sound_in ps id env p i :
  familyPlanForStripePriceId_in ps id env = Some (p, i) -> resolveFamilyStripePriceId p i env = Some id.
Proof. induction ps as [|q ps IH]; simpl; [done|]. repeat case_bool_decide; intros; simplify_eq; auto. Qed.
Lemma familyPlanFor_total id env p i : resolveFamilyStripePriceId p i env = Some id -> is_Some (familyPlanForStripePriceId id env).
Proof.
  intros Hr. assert (Hp : In p FAMILY_SELF_SERVE_PLANS) by (destruct p, i; cbn; try tauto; discriminate Hr).
  unfold familyPlanForStripePriceId. revert Hp. generalize FAMILY_SELF_SERVE_PLANS as ps.
  induction ps as [|q ps IH]; simpl; [tauto|]. repeat case_bool_decide; eauto. intros [->|?]; [|by auto]. destruct i; congruence.
Qed.

(** A family price shown as available is the price of its plan and interval
    alone, has Stripe's shape, and the webhook's reverse map gives that plan and
    interval back; a price two keys share is shown for neither. *)
Theorem family_price_roundtrip (env : Env) (p : FamilyPlanId) (i : BillingInterval) :
  In (p, i, true) (fst (familyStripePriceAvailability env)) <->
  exists id, resolveFamilyStripePriceId p i env = Some id /\ stripePriceShape id = true /\
    (forall q j, resolveFamilyStripePriceId q j env = Some id -> (q, j) = (p, i)) /\ familyPlanForStripePriceId id env = Some (p, i).
Proof.
  unfold familyStripePriceAvailability. cbn [fst]. rewrite in_map_iff. split.
  - intros ([q j] & Heq & Hin). injection Heq as -> -> Hb. destruct (resolveFamilyStripePriceId p i env) as [id|] eqn:Hr; [|discriminate Hb].
    apply andb_true_iff in Hb as [Hs Hn%Nat.eqb_eq]. exists id.
    assert (Huniq : forall q j, resolveFamilyStripePriceId q j env = Some id -> (q, j) = (p, i)).
    { intros q j Hq. eapply (filter_length_1_unique _ _ _ _ Hn); eauto using family_pair_listed; by apply bool_decide_eq_true. }
    split_and!; [done|done|done|]. destruct (familyPlanFor_total id env p i Hr) as [[q j] Hq]. rewrite Hq. f_equal. apply Huniq.
    by apply familyPlanFor_sound_in in Hq.
  - intros (id & Hr & Hs & Huniq & _). exists (p, i). rewrite Hr, Hs. split; [|by apply (family_pair_listed p i env id)]. f_equal. cbn [andb].
    apply Nat.eqb_eq. unfold familyIdCount. erewrite (filter_ext_in _ (fun pi => bool_decide (pi = (p, i)))).
    + apply family_pair_listed in Hr. revert Hr. unfold FAMILY_PRICE_KEY_MAP. destruct p, i; cbn; reflexivity || (intuition congruence).
    + intros [q j] _. apply bool_decide_ext. split; [apply Huniq|by intros [= -> ->]].
Qed.

(** * Plans and access *)

(** Billing never restricts a family: whatever the subscription's status and
    dates, the tenant keeps full access or a grace period; it holds the plan it paid
    for exactly while the subscription grants access, and the free plan otherwise. *)
Theorem family_never_restricted (now : Z) (paid : string) (input : AccessInput) :
  let '(plan, access) := resolveFamilyBillingState now paid input in
  accessAllowsOperations access = true /\
  (accessAllowsOperations (resolveAccessState now input) = true -> plan = paid /\ access = resolveAccessState now input) /\
  (accessAllowsOperations (resolveAccessState now input) = false -> plan = "family_free" /\ access = full_access).
Proof. unfold resolveFamilyBillingState, accessAllowsOperations. destruct (resolveAccessState now input); cbn; intuition congruence. Qed.

(** A family may manage its workspace exactly when its plan is known, its access
    is full or in grace and it is not being deleted; otherwise every capacity is
    closed, the paid conveniences are off, and billing and deletion stay reachable. *)
Theorem family_management_exact (plan access : option string) (deleting : bool) :
  isFamilyPlanId plan = is_some (parse_opt (A := FamilyPlanId) plan) ->
  let ent := resolveFamilyEntitlements plan access deleting in
  (canManageFamily ent = true <->
     deleting = false /\ (access = Some "full_access" \/ access = Some "grace_period") /\ exists p, plan = Some (js_name p) /\ ent = FAMILY_BASE p) /\
  (canManageFamily ent = false ->
     (forall r, familyResourceLimit ent r = Cap 0) /\ aiAnalysis ent = Some ai_none /\ fe_reporting ent = false /\ fe_export ent = false /\
     integrations ent = false) /\
  fe_billingAccess ent = true /\ fe_deletionAccess ent = true /\ criticalSafety ent = Some CRITICAL_SAFETY_ALWAYS.
Proof.
  intros Hknown ent. unfold ent, resolveFamilyEntitlements, familyPlanEntitlements. rewrite Hknown.
  assert (Hacc : (status_is access "full_access" || status_is access "grace_period") = true <-> access = Some "full_access" \/ access = Some "grace_period").
  { rewrite orb_true_iff. unfold status_is. destruct access as [a|]; [|intuition congruence]. rewrite !String.eqb_eq. intuition congruence. }
  destruct deleting.
  { split; [cbn; intuition congruence|]. split; [|by destruct plan as [s|]; cbn]. intros _. split; [by intros []|by split_and!]. }
  destruct (_ || _).
  2: { split; [split; [discriminate|intros (_ & Ha & _); apply Hacc in Ha; discriminate]|]. split; [|done]. intros _. split; [by intros []|by split_and!]. }
  destruct plan as [s|]; cbn [parse_opt obind]; [|split; [split; [discriminate|intros (_ & _ & p & ? & _); congruence]|split; [|done]];
    intros _; split; [by intros []|by split_and!]].
  destruct (parse s) as [p|] eqn:Hp; cbn [is_some].
  - apply parse_Some in Hp. split; [|split; [by destruct p|by destruct p]]. split; [intros _|by destruct p].
    split; [done|]. split; [by apply Hacc|]. exists p. by rewrite Hp.
  - split; [split; [discriminate|intros (_ & _ & p & [= ->] & _); change (parse (js_name p) = None) in Hp; by rewrite parse_name in Hp]|]. split; [|done].
    intros _. split; [by intros []|by split_and!].
Qed.

(** Capacity never falls along the ladder of plans. *)
Definition limit_le (a b : limit) : Prop :=
  match a, b with _, Unlimited => True | Cap x, Cap y => x <= y | _, _ => False end.
Definition plan_rank (p : FamilyPlanId) : Z := match p with family_free => 0 | family_basic => 1 | family_plus => 2 | family_premium => 3 end.
Theorem family_ladder (p q : FamilyPlanId) (r : FamilyLimitedResource) :
  plan_rank p <= plan_rank q ->
  limit_le (familyResourceLimit (FAMILY_BASE p) r) (familyResourceLimit (FAMILY_BASE q) r) /\
  limit_le (historyRetentionDays (FAMILY_BASE p)) (historyRetentionDays (FAMILY_BASE q)) /\
  (fe_reporting (FAMILY_BASE p) = true -> fe_reporting (FAMILY_BASE q) = true) /\
  (fe_export (FAMILY_BASE p) = true -> fe_export (FAMILY_BASE q) = true).
Proof. destruct p, q, r; cbn; intros; repeat split; lia || done. Qed.

(** * Where the catalogue and its documentation part *)

(** A plan string that names an inherited property passes for a known plan: nothing
    that is documented to hold of every family (critical safety, access to billing
    and deletion) can be read off the result. *)
Theorem inherited_family_plan (k : string) :
  In k object_prototype_keys ->
  let ent := resolveFamilyEntitlements (Some k) (Some "full_access") false in
  criticalSafety ent = None /\ fe_billingAccess ent = false /\ fe_deletionAccess ent = false /\ canManageFamily ent = false.
Proof. intros Hin. cbn in Hin. repeat destruct Hin as [<-|Hin]; try (by repeat split); done. Qed.

(** The two catalogues are checked apart: a price configured in both is available to
    families and yet taken by the webhook for the business plan, which a family
    tenant may not have. *)
Example shared_catalogue_price :
  let env k := if k =s "STRIPE_FAMILY_PLUS_MONTHLY_PRICE_ID" then Some "price_x"
               else if k =s "STRIPE_PRICE_GROWTH_MONTHLY" then Some "price_x" else None in
  In (family_plus, monthly, true) (fst (familyStripePriceAvailability env)) /\ planForStripePriceId "price_x" env = Some (growth, monthly).
Proof. split; [cbn; tauto|reflexivity]. Qed.

Example family_price_env :
  let env k := if k =s "STRIPE_FAMILY_PREMIUM_YEARLY_PRICE_ID" then Some " price_9 " else None in
  familyPlanForStripePriceId "price_9" env = Some (family_premium, yearly).
Proof. reflexivity. Qed.
Lemma family_management_exact_witness :
  canManageFamily (resolveFamilyEntitlements (Some "family_plus") (Some "grace_period") false) = true /\
  maxGuardians (resolveFamilyEntitlements (Some "family_plus") (Some "restricted") false) = Cap 0.
Proof.
  destruct (family_management_exact (Some "family_plus") (Some "grace_period") false eq_refl) as [H _].
  destruct (family_management_exact (Some "family_plus") (Some "restricted") false eq_refl) as [_ [H' _]].
  split; [apply H; split_and!; [done|by right|by exists family_plus]|exact (proj1 (H' eq_refl) res_guardian)].
Defined.
Lemma family_ladder_witness : limit_le (familyResourceLimit (FAMILY_BASE family_free) res_guardian) (familyResourceLimit (FAMILY_BASE family_plus) res_guardian).
Proof. apply (family_ladder family_free family_plus res_guardian). discriminate. Defined.
Lemma inherited_family_plan_witness : criticalSafety (resolveFamilyEntitlements (Some "constructor") (Some "full_access") false) = None.
Proof. apply (inherited_family_plan "constructor"). by left. Defined.
End FamilyBilling.
