(* ===== verification/BillingStore.v ===== *)
(** Billing persistence ([packages/db/src/billing-repo.ts] and [family-trial.ts]):
    what a tenant's stored billing fields mean when they are read, the Stripe webhook,
    the durable checkout reservation, the trial sweeps and the one-time family trial.

    A webhook reads (is the event known, whose customer, which workspace) before its
    transaction; the model takes the database those reads saw apart from the one the
    transaction runs on. The sweeps do the same for their candidates. *)
From S2P Require Import Prelude Billing Entitlements FamilyBilling.
Open Scope string_scope.
Open Scope list_scope.
Open Scope Z_scope.
Open Scope tam_scope.

Module BillingStore.
Import FamilyBilling.

(** * State *)

Record tenant_row := {
  tn_id : string; tn_plan : string; tn_kind : string; tn_access : string; tn_status : string; tn_trialStartsAt : option Z;
  tn_trialEndsAt : option Z; tn_internal : bool; tn_deletionState : string; tn_trialConsumedAt : option Z }.
Record sub_row := {
  sb_tenant : string; sb_customer : string; sb_subscriptionId : option string; sb_priceId : option string; sb_plan : string;
  sb_interval : option string; sb_status : string; sb_periodStart : option Z; sb_periodEnd : option Z; sb_cancelAtPeriodEnd : bool;
  sb_canceledAt : option Z; sb_trialEndsAt : option Z; sb_invoiceStatus : option string; sb_eventAt : option Z; sb_eventTerminal : bool }.
Inductive AttemptStatus := CREATING | OPEN | COMPLETED | EXPIRED | FAILED.
#[export] Instance AttemptStatus_dec : EqDecision AttemptStatus.
Proof. solve_decision. Defined.
#[export] Program Instance AttemptStatus_enum : JsEnum AttemptStatus := {|
  js_name s := match s with CREATING => "CREATING" | OPEN => "OPEN" | COMPLETED => "COMPLETED" | EXPIRED => "EXPIRED" | FAILED => "FAILED" end;
  js_values := [CREATING; OPEN; COMPLETED; EXPIRED; FAILED] |}.
Solve All Obligations with solve_js_enum.
Record attempt_row := {
  at_id : string; at_tenant : string; at_status : AttemptStatus; at_plan : string; at_interval : string; at_priceId : string;
  at_session : option string; at_url : option string; at_urlExpiresAt : option Z; at_key : string; at_createdBy : option string;
  at_createdAt : Z; at_expiresAt : Z; at_failureCode : option string }.
Record hook_row := { hk_event : string; hk_type : string; hk_result : string; hk_processedAt : option Z; hk_createdAt : Z }.

Record billing_db := { tenants : list tenant_row; subs : list sub_row; attempts : list attempt_row; hooks : list hook_row }.
Definition set_tenants (l : list tenant_row) (d : billing_db) : billing_db :=
  {| tenants := l; subs := subs d; attempts := attempts d; hooks := hooks d |}.
Definition set_subs (l : list sub_row) (d : billing_db) : billing_db :=
  {| tenants := tenants d; subs := l; attempts := attempts d; hooks := hooks d |}.
Definition set_attempts (l : list attempt_row) (d : billing_db) : billing_db :=
  {| tenants := tenants d; subs := subs d; attempts := l; hooks := hooks d |}.
Definition set_hooks (l : list hook_row) (d : billing_db) : billing_db :=
  {| tenants := tenants d; subs := subs d; attempts := attempts d; hooks := l |}.

Definition find_tenant (t : string) (d : billing_db) : option tenant_row := List.find (fun r => tn_id r =s t) (tenants d).
Definition find_sub (t : string) (d : billing_db) : option sub_row := List.find (fun r => sb_tenant r =s t) (subs d).

(** * Reading *)

(** The fields every reader hands to the central access resolver. *)
(* src: packages/db/src/billing-repo.ts:72-80 getTenantBilling *)
Definition lifecycleInput (t : tenant_row) (s : option sub_row) : EffectiveAccessInput := {|
  ea_access := {| ai_status := Some (tn_status t); ai_trialEndsAt := tn_trialEndsAt t; ai_currentPeriodEnd := obind s sb_periodEnd;
                  ai_cancelAtPeriodEnd := option_map sb_cancelAtPeriodEnd s; ai_graceDays := None |};
  persistedAccessState := Some (tn_access t); internalAccess := tn_internal t |}.

(* src: packages/db/src/billing-repo.ts:83-96 getTenantBilling *)
Definition presentationInput (t : tenant_row) (s : option sub_row) : BusinessBillingInput := {|
  bi_tenantPlan := Some (tn_plan t); bi_billingStatus := Some (tn_status t); bi_persistedAccessState := Some (tn_access t);
  bi_internalAccess := tn_internal t; bi_trialEndsAt := tn_trialEndsAt t;
  bi_subscription := option_map (fun s => {| sub_plan := Some (sb_plan s); sub_status := Some (sb_status s); sub_billingInterval := sb_interval s;
    sub_currentPeriodEnd := sb_periodEnd s; sub_cancelAtPeriodEnd := sb_cancelAtPeriodEnd s |}) s |}.

(* src: packages/db/src/billing-repo.ts:22-53 TenantBilling *)
Record TenantBilling := {
  tb_tenant : tenant_row; tb_effectiveAccessState : AccessState; tb_lifecycle : TenantLifecycleState; tb_trialDaysRemaining : option Z;
  tb_presentation : BusinessBillingPresentation; tb_subscription : option sub_row; tb_hasStripeCustomer : bool }.
(* src: packages/db/src/billing-repo.ts:55-114 getTenantBilling *)
Definition getTenantBilling (t : string) (now : Z) (d : billing_db) : option TenantBilling :=
  match find_tenant t d with
  | None => None
  | Some r =>
      let s := find_sub t d in
      Some {| tb_tenant := r; tb_effectiveAccessState := resolveEffectiveAccessState now (lifecycleInput r s);
              tb_lifecycle := resolveTenantLifecycle now (lifecycleInput r s); tb_trialDaysRemaining := trialDaysRemaining (tn_trialEndsAt r) now;
              tb_presentation := resolveBusinessBillingPresentation now (presentationInput r s); tb_subscription := s;
              tb_hasStripeCustomer := match s with Some s => nonempty (sb_customer s) | None => false end |}
  end.

(* src: packages/db/src/billing-repo.ts:121-161 getTenantEntitlements *)
Definition getTenantEntitlements (t : string) (now : Z) (d : billing_db) : PlanEntitlements :=
  match find_tenant t d with
  | None => resolveEntitlements None None false false
  | Some r =>
      let s := find_sub t d in
      let effective := resolveEffectiveAccessState now (lifecycleInput r s) in
      let plan := if tn_kind r =s "family" then tn_plan r else js_name (resolveEffectiveBusinessPlan now (presentationInput r s)) in
      resolveEntitlements (Some plan) (Some (js_name effective)) (negb (tn_deletionState r =s "active")) (tn_internal r)
  end.

(* src: packages/db/src/billing-repo.ts:168-168 OperationGateReason *)
Inductive OperationGateReason := gate_tenant_deleting | gate_billing_restricted | gate_suspended | gate_tenant_missing.
(** [{ allowed: true, reason: null }] is [None]. *)
(* src: packages/db/src/billing-repo.ts:175-200 getTenantOperationGate *)
Definition getTenantOperationGate (t : string) (now : Z) (d : billing_db) : option OperationGateReason :=
  match find_tenant t d with
  | None => Some gate_tenant_missing
  | Some r =>
      if negb (tn_deletionState r =s "active") then Some gate_tenant_deleting
      else
        let effective := resolveEffectiveAccessState now (lifecycleInput r (find_sub t d)) in
        if effective =e suspended then Some gate_suspended
        else if negb (accessAllowsOperations effective) then Some gate_billing_restricted
        else None
  end.
(* src: packages/db/src/billing-repo.ts:164-166 tenantAllowsOperations *)
Definition tenantAllowsOperations (t : string) (now : Z) (d : billing_db) : bool := is_none (getTenantOperationGate t now d).

(* src: packages/db/src/billing-repo.ts:203-206 getStripeCustomerId *)
Definition getStripeCustomerId (t : string) (d : billing_db) : option string := option_map sb_customer (find_sub t d).
(* src: packages/db/src/billing-repo.ts:361-364 findTenantIdByStripeCustomer *)
Definition findTenantIdByStripeCustomer (c : string) (d : billing_db) : option string :=
  option_map sb_tenant (List.find (fun s => sb_customer s =s c) (subs d)).
(* src: packages/db/src/billing-repo.ts:371-377 ensureStripeCustomer *)
Definition ensureStripeCustomer (t c : string) (d : billing_db) : outcome billing_db string :=
  if existsb (fun s => (sb_customer s =s c) && negb (sb_tenant s =s t)) (subs d) then Throw "P2002"
  else match find_sub t d with
  | Some _ => Ret (set_subs (update_where (fun s => sb_tenant s =s t) (fun s => {|
      sb_tenant := sb_tenant s; sb_customer := c; sb_subscriptionId := sb_subscriptionId s; sb_priceId := sb_priceId s; sb_plan := sb_plan s;
      sb_interval := sb_interval s; sb_status := sb_status s; sb_periodStart := sb_periodStart s; sb_periodEnd := sb_periodEnd s;
      sb_cancelAtPeriodEnd := sb_cancelAtPeriodEnd s; sb_canceledAt := sb_canceledAt s; sb_trialEndsAt := sb_trialEndsAt s;
      sb_invoiceStatus := sb_invoiceStatus s; sb_eventAt := sb_eventAt s; sb_eventTerminal := sb_eventTerminal s |}) (subs d)) d)
  | None =>
      if is_none (find_tenant t d) then Throw "P2003"
      else Ret (set_subs (subs d ++ [{| sb_tenant := t; sb_customer := c; sb_subscriptionId := None; sb_priceId := None; sb_plan := "free_trial";
        sb_interval := None; sb_status := "no_subscription"; sb_periodStart := None; sb_periodEnd := None; sb_cancelAtPeriodEnd := false;
        sb_canceledAt := None; sb_trialEndsAt := None; sb_invoiceStatus := None; sb_eventAt := None; sb_eventTerminal := false |}]) d)
  end.

(** * The Stripe webhook *)

(* src: packages/db/src/billing-repo.ts:379-392 StripeSubStateInput *)
Record StripeSubStateInput := {
  si_customer : string; si_subscriptionId : option string; si_priceId : option string; si_plan : string; si_interval : option string;
  si_status : string; si_periodStart : option Z; si_periodEnd : option Z; si_cancelAtPeriodEnd : option bool; si_canceledAt : option Z;
  si_trialEndsAt : option Z; si_invoiceStatus : option string }.
(** One delivery: the event id, type and creation second, and the normalized state. *)
Record delivery := { dl_event : string; dl_type : string; dl_input : option StripeSubStateInput; dl_created : Z }.

(* src: packages/db/src/billing-repo.ts:394-394 WebhookOutcome *)
Inductive WebhookOutcome := wo_processed (tenant : string) (access : AccessState) | wo_duplicate | wo_ignored | wo_failed (tenant : string) | wo_stale (tenant : string).

(** [upsert]: the row of the event id, created or rewritten. *)
(* src: packages/db/src/billing-repo.ts:421-425 recordAndApplyStripeEvent *)
Definition record_event (event type result : string) (now : Z) (d : billing_db) : billing_db :=
  if existsb (fun h => hk_event h =s event) (hooks d)
  then set_hooks (update_where (fun h => hk_event h =s event) (fun h => {| hk_event := event; hk_type := hk_type h; hk_result := result;
                    hk_processedAt := Some now; hk_createdAt := hk_createdAt h |}) (hooks d)) d
  else set_hooks (hooks d ++ [{| hk_event := event; hk_type := type; hk_result := result; hk_processedAt := Some now; hk_createdAt := now |}]) d.

(** What the reads before the transaction decide. *)
Inductive routing := rt_duplicate | rt_ignore | rt_apply (tenant : string) (input : StripeSubStateInput).
(* src: packages/db/src/billing-repo.ts:407-456 recordAndApplyStripeEvent *)
Definition route (enabled : bool) (e : delivery) (d : billing_db) : routing :=
  if existsb (fun h => (hk_event h =s dl_event e) && (hk_result h =s "processed")) (hooks d) then rt_duplicate
  else match dl_input e with
  | None => rt_ignore
  | Some input =>
      match findTenantIdByStripeCustomer (si_customer input) d with
      | None => rt_ignore
      | Some t =>
          if negb (nonempty t) then rt_ignore
          else
            let kind := option_map tn_kind (find_tenant t d) ?? "business" in
            let family := isFamilyPlanId (Some (si_plan input)) in
            let mismatch := if family then negb (kind =s "family") else kind =s "family" in
            if mismatch || (family && negb enabled) then rt_ignore else rt_apply t input
      end
  end.

(* src: packages/db/src/billing-repo.ts:461-485 recordAndApplyStripeEvent *)
Definition planAndAccess (input : StripeSubStateInput) (now : Z) : string * AccessState :=
  let ai := {| ai_status := Some (si_status input); ai_trialEndsAt := si_trialEndsAt input; ai_currentPeriodEnd := si_periodEnd input;
               ai_cancelAtPeriodEnd := si_cancelAtPeriodEnd input; ai_graceDays := None |} in
  if isFamilyPlanId (Some (si_plan input)) then resolveFamilyBillingState now (si_plan input) ai
  else (si_plan input, resolveEffectiveAccessState now {| ea_access := ai; persistedAccessState := None; internalAccess := false |}).

(* src: packages/db/src/billing-repo.ts:489-490 recordAndApplyStripeEvent *)
Definition event_order (e : delivery) (input : StripeSubStateInput) : StripeEventOrder :=
  {| createdAt := dl_created e * 1000; terminal := (dl_type e =s "customer.subscription.deleted") || (si_status input =s "canceled") |}.

(** The condition of the conditional update. *)
(* src: packages/db/src/billing-repo.ts:495-499 recordAndApplyStripeEvent *)
Definition orderingOr (o : StripeEventOrder) (s : sub_row) : bool :=
  is_none (sb_eventAt s) ||
  match sb_eventAt s with Some t => t <? createdAt o | None => false end ||
  (terminal o && match sb_eventAt s with Some t => (t =? createdAt o) && negb (sb_eventTerminal s) | None => false end).

(** [undefined] in an update keeps the stored value. *)
(* src: packages/db/src/billing-repo.ts:506-520 recordAndApplyStripeEvent *)
Definition apply_sub (input : StripeSubStateInput) (o : StripeEventOrder) (s : sub_row) : sub_row := {|
  sb_tenant := sb_tenant s; sb_customer := sb_customer s; sb_subscriptionId := or_else (si_subscriptionId input) (sb_subscriptionId s);
  sb_priceId := or_else (si_priceId input) (sb_priceId s); sb_plan := si_plan input; sb_interval := or_else (si_interval input) (sb_interval s);
  sb_status := si_status input; sb_periodStart := or_else (si_periodStart input) (sb_periodStart s);
  sb_periodEnd := or_else (si_periodEnd input) (sb_periodEnd s); sb_cancelAtPeriodEnd := si_cancelAtPeriodEnd input ?? sb_cancelAtPeriodEnd s;
  sb_canceledAt := or_else (si_canceledAt input) (sb_canceledAt s); sb_trialEndsAt := or_else (si_trialEndsAt input) (sb_trialEndsAt s);
  sb_invoiceStatus := or_else (si_invoiceStatus input) (sb_invoiceStatus s); sb_eventAt := Some (createdAt o); sb_eventTerminal := terminal o |}.

(* src: packages/db/src/billing-repo.ts:525-530 recordAndApplyStripeEvent *)
Definition apply_tenant (plan status access : string) (r : tenant_row) : tenant_row := {|
  tn_id := tn_id r; tn_plan := plan; tn_kind := tn_kind r; tn_access := access; tn_status := status; tn_trialStartsAt := tn_trialStartsAt r;
  tn_trialEndsAt := tn_trialEndsAt r; tn_internal := tn_internal r; tn_deletionState := tn_deletionState r; tn_trialConsumedAt := tn_trialConsumedAt r |}.

(** The subscription id is unique: taking another row's aborts the transaction. *)
Definition subscription_id_taken (t : string) (sid : option string) (d : billing_db) : bool :=
  match sid with
  | Some x => existsb (fun s => negb (sb_tenant s =s t) && status_is (sb_subscriptionId s) x) (subs d)
  | None => false
  end.

(* src: packages/db/src/billing-repo.ts:501-543 recordAndApplyStripeEvent *)
Definition apply_event_tx (e : delivery) (t : string) (input : StripeSubStateInput) (now : Z) (d : billing_db) : billing_db * WebhookOutcome :=
  let o := event_order e input in
  let '(plan, access) := planAndAccess input now in
  let p s := (sb_tenant s =s t) && orderingOr o s in
  let applied := existsb p (subs d) in
  if applied && (subscription_id_taken t (si_subscriptionId input) d || is_none (find_tenant t d)) then (d, wo_failed t)
  else
    let d1 := set_subs (update_where p (apply_sub input o) (subs d)) d in
    let d2 := if applied then set_tenants (update_where (fun r => tn_id r =s t) (apply_tenant plan (si_status input) (js_name access)) (tenants d1)) d1 else d1 in
    (record_event (dl_event e) (dl_type e) (if applied then "processed" else "stale") now d2,
     if applied then wo_processed t access else wo_stale t).

(** [seen] is the database of the reads before the transaction. *)
(* src: packages/db/src/billing-repo.ts:407-544 recordAndApplyStripeEvent *)
Definition recordAndApply_seeing (enabled : bool) (seen : billing_db) (e : delivery) (now : Z) (d : billing_db) : billing_db * WebhookOutcome :=
  match route enabled e seen with
  | rt_duplicate => (d, wo_duplicate)
  | rt_ignore => (record_event (dl_event e) (dl_type e) "ignored" now d, wo_ignored)
  | rt_apply t input => apply_event_tx e t input now d
  end.
Definition recordAndApplyStripeEvent (enabled : bool) (e : delivery) (now : Z) (d : billing_db) : billing_db * WebhookOutcome :=
  recordAndApply_seeing enabled d e now d.

(** ** Stripe's subscription object, normalized *)

(** The fields the mapping reads, each absent or of its type. *)
Record stripe_item := { it_price : option string; it_start : option Z; it_end : option Z }.
Record stripe_subscription := {
  ss_id : string; ss_customer : option string; ss_status : string; ss_items : list stripe_item; ss_cancelAtPeriodEnd : option bool;
  ss_canceledAt : option Z; ss_trialEnd : option Z }.

(* src: apps/web/src/server/billing/stripe-mapping.ts:12-14 toDate *)
Definition toDate (n : option Z) : option Z := match n with Some n => if 0 <? n then Some (n * 1000) else None | None => None end.
Definition positives (l : list (option Z)) : list Z := omap (fun n => match n with Some n => if 0 <? n then Some n else None | None => None end) l.
Definition extremum (f : Z -> Z -> Z) (l : list Z) : option Z := match l with [] => None | x :: r => Some (fold_left f r x) end.
(* src: apps/web/src/server/billing/stripe-mapping.ts:22-34 subscriptionPeriod *)
Definition subscriptionPeriod (s : stripe_subscription) : option Z * option Z :=
  (toDate (extremum Z.min (positives (map it_start (ss_items s)))), toDate (extremum Z.max (positives (map it_end (ss_items s))))).

Definition normalize_with (mapped : option (string * BillingInterval)) (priceId : option string) (s : stripe_subscription) (invoice : option string)
    : option StripeSubStateInput :=
  match mapped with
  | None => None
  | Some (plan, interval) =>
      if negb (truthy (ss_customer s)) then None
      else Some {| si_customer := ss_customer s ?? ""; si_subscriptionId := Some (ss_id s); si_priceId := priceId; si_plan := plan;
        si_interval := Some (js_name interval); si_status := ss_status s; si_periodStart := fst (subscriptionPeriod s);
        si_periodEnd := snd (subscriptionPeriod s); si_cancelAtPeriodEnd := ss_cancelAtPeriodEnd s; si_canceledAt := toDate (ss_canceledAt s);
        si_trialEndsAt := toDate (ss_trialEnd s); si_invoiceStatus := invoice |}
  end.
Definition first_price (s : stripe_subscription) : option string := match ss_items s with it :: _ => it_price it | [] => None end.
(* src: apps/web/src/server/billing/stripe-mapping.ts:52-74 normalizeSubscription *)
Definition normalizeSubscription (env : Env) (s : stripe_subscription) (invoice : option string) : option StripeSubStateInput :=
  let priceId := first_price s in
  let mapped := if truthy priceId then planForStripePriceId (priceId ?? "") env else None in
  normalize_with (option_map (fun '(p, i) => (js_name p, i)) mapped) priceId s invoice.
(* src: apps/web/src/server/billing/stripe-mapping.ts:84-106 familyNormalizeSubscription *)
Definition familyNormalizeSubscription (env : Env) (s : stripe_subscription) (invoice : option string) : option StripeSubStateInput :=
  let priceId := first_price s in
  let mapped := if truthy priceId then familyPlanForStripePriceId (priceId ?? "") env else None in
  normalize_with (option_map (fun '(p, i) => (js_name p, i)) mapped) priceId s invoice.
(* src: apps/web/src/app/api/webhooks/stripe/route.ts:84-85 POST *)
Definition normalizeAny (env : Env) (s : stripe_subscription) (invoice : option string) : option StripeSubStateInput :=
  match normalizeSubscription env s invoice with
  | Some i => Some i
  | None => if familyBillingEnabled env then familyNormalizeSubscription env s invoice else None
  end.

(** * The checkout reservation *)

Definition live_status (s : AttemptStatus) : bool := (s =e CREATING) || (s =e OPEN).
Definition live (t : string) (a : attempt_row) : bool := (at_tenant a =s t) && live_status (at_status a).

Definition with_status (s : AttemptStatus) (a : attempt_row) : attempt_row := {|
  at_id := at_id a; at_tenant := at_tenant a; at_status := s; at_plan := at_plan a; at_interval := at_interval a; at_priceId := at_priceId a;
  at_session := at_session a; at_url := at_url a; at_urlExpiresAt := at_urlExpiresAt a; at_key := at_key a; at_createdBy := at_createdBy a;
  at_createdAt := at_createdAt a; at_expiresAt := at_expiresAt a; at_failureCode := at_failureCode a |}.

(* src: packages/db/src/billing-repo.ts:216-225 ReserveCheckoutInput *)
Record ReserveCheckoutInput := {
  rc_tenant : string; rc_user : option string; rc_plan : string; rc_interval : string; rc_priceId : string; rc_creatingTtlMs : option Z }.
(* src: packages/db/src/billing-repo.ts:226-233 ReserveCheckoutResult *)
Inductive ReserveCheckoutResult :=
| rv_blocked (reason : CheckoutGuardReason)
| rv_existing (attemptId : string) (samePlan : bool) (url : option string) (key : string)
| rv_reserved (attemptId key priceId : string).

(* src: packages/db/src/billing-repo.ts:235-235 DEFAULT_CREATING_TTL_MS *)
Definition DEFAULT_CREATING_TTL_MS : Z := 3 * 60 * 1000.

(** [orderBy: { createdAt: "desc" }] *)
Definition newest_attempt (l : list attempt_row) : option attempt_row := head (js_sort (fun a b => at_createdAt b - at_createdAt a) l).

(** [wall] is the clock the guard and the row's [createdAt] read; [uuid] and [id] are
    fresh. *)
(* src: packages/db/src/billing-repo.ts:243-302 reserveCheckoutAttempt *)
Definition reserveCheckoutAttempt (input : ReserveCheckoutInput) (now wall : Z) (id uuid : string) (d : billing_db)
    : billing_db * outcome ReserveCheckoutResult string :=
  let t := rc_tenant input in
  match evaluateCheckoutGuard wall (option_map (fun s => {| cgs_status := Some (sb_status s); cgs_currentPeriodEnd := sb_periodEnd s |}) (find_sub t d)) with
  | cg_blocked reason => (d, Ret (rv_blocked reason))
  | cg_allowed =>
      let d1 := set_attempts (update_where (fun a => live t a && (at_expiresAt a <? now)) (with_status EXPIRED) (attempts d)) d in
      match newest_attempt (List.filter (live t) (attempts d1)) with
      | Some a =>
          let samePlan := (at_plan a =s rc_plan input) && (at_interval a =s rc_interval input) in
          let urlUsable := (at_status a =e OPEN) && truthy (at_url a) && match at_urlExpiresAt a with Some e => now <? e | None => true end in
          (d1, Ret (rv_existing (at_id a) samePlan (if urlUsable then at_url a else None) (at_key a)))
      | None =>
          let key := "checkout_attempt:" +:+ uuid in
          if existsb (fun a => (at_key a =s key) || (at_id a =s id)) (attempts d) then (d, Throw "P2002")
          else
            let row := {| at_id := id; at_tenant := t; at_status := CREATING; at_plan := rc_plan input; at_interval := rc_interval input;
              at_priceId := rc_priceId input; at_session := None; at_url := None; at_urlExpiresAt := None; at_key := key;
              at_createdBy := rc_user input; at_createdAt := wall; at_expiresAt := now + (rc_creatingTtlMs input ?? DEFAULT_CREATING_TTL_MS);
              at_failureCode := None |} in
            (set_attempts (attempts d1 ++ [row]) d1, Ret (rv_reserved id key (rc_priceId input)))
      end
  end.

Definition opened (session : string) (url : option string) (sessionExpiresAt : option Z) (wall : Z) (a : attempt_row) : attempt_row := {|
  at_id := at_id a; at_tenant := at_tenant a; at_status := OPEN; at_plan := at_plan a; at_interval := at_interval a; at_priceId := at_priceId a;
  at_session := Some session; at_url := url; at_urlExpiresAt := sessionExpiresAt; at_key := at_key a; at_createdBy := at_createdBy a;
  at_createdAt := at_createdAt a; at_expiresAt := sessionExpiresAt ?? (wall + 24 * 60 * 60 * 1000); at_failureCode := at_failureCode a |}.
(** The session id is unique. *)
(* src: packages/db/src/billing-repo.ts:309-322 markCheckoutAttemptOpen *)
Definition markCheckoutAttemptOpen (id t session : string) (url : option string) (sessionExpiresAt : option Z) (wall : Z) (d : billing_db)
    : outcome billing_db string :=
  let p a := (at_id a =s id) && (at_tenant a =s t) && (at_status a =e CREATING) in
  if existsb p (attempts d) && existsb (fun a => negb (p a) && status_is (at_session a) session) (attempts d) then Throw "P2002"
  else Ret (set_attempts (update_where p (opened session url sessionExpiresAt wall) (attempts d)) d).

(* src: packages/db/src/billing-repo.ts:325-330 markCheckoutAttemptFailed *)
Definition markCheckoutAttemptFailed (id t code : string) (d : billing_db) : billing_db :=
  set_attempts (update_where (fun a => (at_id a =s id) && (at_tenant a =s t) && (at_status a =e CREATING))
    (fun a => let a' := with_status FAILED a in {|
      at_id := at_id a'; at_tenant := at_tenant a'; at_status := at_status a'; at_plan := at_plan a'; at_interval := at_interval a';
      at_priceId := at_priceId a'; at_session := at_session a'; at_url := at_url a'; at_urlExpiresAt := at_urlExpiresAt a'; at_key := at_key a';
      at_createdBy := at_createdBy a'; at_createdAt := at_createdAt a'; at_expiresAt := at_expiresAt a'; at_failureCode := Some (String.substring 0 64 code) |})
    (attempts d)) d.

Definition settle_attempts (p : attempt_row -> bool) (s : AttemptStatus) (d : billing_db) : billing_db :=
  set_attempts (update_where (fun a => p a && live_status (at_status a)) (with_status s) (attempts d)) d.
(* src: packages/db/src/billing-repo.ts:333-338 completeCheckoutAttemptBySession *)
Definition completeCheckoutAttemptBySession (session : string) (d : billing_db) : billing_db :=
  settle_attempts (fun a => status_is (at_session a) session) COMPLETED d.
(* src: packages/db/src/billing-repo.ts:341-346 expireCheckoutAttemptBySession *)
Definition expireCheckoutAttemptBySession (session : string) (d : billing_db) : billing_db :=
  settle_attempts (fun a => status_is (at_session a) session) EXPIRED d.
(* src: packages/db/src/billing-repo.ts:353-358 completeLiveCheckoutAttemptsForTenant *)
Definition completeLiveCheckoutAttemptsForTenant (t : string) (d : billing_db) : billing_db :=
  settle_attempts (fun a => at_tenant a =s t) COMPLETED d.

(** * Trials *)

Definition past (o : option Z) (now : Z) : bool := match o with Some t => t <? now | None => false end.
Definition batch (n : Z) : nat := Z.to_nat (Z.min (Z.max n 1) 5000).

(* src: packages/db/src/billing-repo.ts:557-568 sweepTrialExpirations *)
Definition trial_candidate (now : Z) (r : tenant_row) : bool :=
  negb (tn_kind r =s "family") && (tn_status r =s "no_subscription") && (tn_access r =s "full_access") && past (tn_trialEndsAt r) now.
(* src: packages/db/src/billing-repo.ts:571-574 sweepTrialExpirations *)
Definition restrict_one (id : string) (d : billing_db) : billing_db * Z :=
  let p r := (tn_id r =s id) && negb (tn_kind r =s "family") && (tn_status r =s "no_subscription") && (tn_access r =s "full_access") in
  (set_tenants (update_where p (fun r => apply_tenant (tn_plan r) (tn_status r) "restricted" r) (tenants d)) d, count p (tenants d)).
Definition sweep_each (one : string -> billing_db -> billing_db * Z) (ids : list string) (d : billing_db) : billing_db * Z :=
  fold_left (fun '(d, n) id => let '(d', k) := one id d in (d', n + k)) ids (d, 0).
(** The notifications of the restricted tenants are left out. *)
(* src: packages/db/src/billing-repo.ts:556-588 sweepTrialExpirations *)
Definition sweepTrialExpirations_seeing (seen : billing_db) (now batchSize : Z) (d : billing_db) : billing_db * Z :=
  sweep_each restrict_one (map tn_id (take (batch batchSize) (List.filter (trial_candidate now) (tenants seen)))) d.
Definition sweepTrialExpirations (now batchSize : Z) (d : billing_db) : billing_db * Z := sweepTrialExpirations_seeing d now batchSize d.

(* src: packages/db/src/billing-repo.ts:606-613 sweepFamilyTrialExpirations *)
Definition family_candidate (now : Z) (d : billing_db) (r : tenant_row) : bool :=
  (tn_kind r =s "family") && (tn_status r =s "trialing") && past (tn_trialEndsAt r) now &&
  match find_sub (tn_id r) d with None => true | Some s => negb ((sb_status s =s "active") || (sb_status s =s "trialing")) end.
Definition to_family_free (r : tenant_row) : tenant_row := {|
  tn_id := tn_id r; tn_plan := "family_free"; tn_kind := tn_kind r; tn_access := "full_access"; tn_status := "no_subscription";
  tn_trialStartsAt := None; tn_trialEndsAt := None; tn_internal := tn_internal r; tn_deletionState := tn_deletionState r;
  tn_trialConsumedAt := tn_trialConsumedAt r |}.
(* src: packages/db/src/billing-repo.ts:619-630 sweepFamilyTrialExpirations *)
Definition convert_one (now : Z) (id : string) (d : billing_db) : billing_db * Z :=
  let p r := (tn_id r =s id) && (tn_kind r =s "family") && (tn_status r =s "trialing") && past (tn_trialEndsAt r) now in
  (set_tenants (update_where p to_family_free (tenants d)) d, count p (tenants d)).
(* src: packages/db/src/billing-repo.ts:605-634 sweepFamilyTrialExpirations *)
Definition sweepFamilyTrialExpirations_seeing (seen : billing_db) (now batchSize : Z) (d : billing_db) : billing_db * Z :=
  sweep_each (convert_one now) (map tn_id (take (batch batchSize) (List.filter (family_candidate now seen) (tenants seen)))) d.
Definition sweepFamilyTrialExpirations (now batchSize : Z) (d : billing_db) : billing_db * Z := sweepFamilyTrialExpirations_seeing d now batchSize d.

(* src: packages/db/src/family-trial.ts:24-24 CONFLICTING_SUBSCRIPTION_STATUSES *)
Definition CONFLICTING_SUBSCRIPTION_STATUSES : list string := ["active"; "trialing"; "past_due"; "unpaid"; "incomplete"; "paused"].
(* src: packages/db/src/family-trial.ts:27-27 DEFAULT_FAMILY_TRIAL_DAYS *)
Definition DEFAULT_FAMILY_TRIAL_DAYS : Z := 14.
(* src: packages/db/src/family-trial.ts:29-39 StartFamilyTrialReason *)
Inductive StartFamilyTrialReason :=
| ft_family_billing_disabled | ft_tenant_missing | ft_not_family_workspace | ft_invalid_plan | ft_trial_already_consumed | ft_subscription_active.
(* src: packages/db/src/family-trial.ts:56-104 startFamilyTrial *)
Definition startFamilyTrial (t targetPlan : string) (durationDays : option Z) (enabled : bool) (now : Z) (d : billing_db)
    : billing_db * outcome (string * Z) StartFamilyTrialReason :=
  if negb enabled then (d, Throw ft_family_billing_disabled)
  else if negb (isFamilySelfServePlan (Some targetPlan)) then (d, Throw ft_invalid_plan)
  else
    let days := match durationDays with Some n => if 0 <? n then n else DEFAULT_FAMILY_TRIAL_DAYS | None => DEFAULT_FAMILY_TRIAL_DAYS end in
    let trialEndsAt := now + days * 24 * 60 * 60 * 1000 in
    match find_tenant t d with
    | None => (d, Throw ft_tenant_missing)
    | Some r =>
        if negb (tn_kind r =s "family") then (d, Throw ft_not_family_workspace)
        else if is_some (tn_trialConsumedAt r) then (d, Throw ft_trial_already_consumed)
        else if match find_sub t d with Some s => includes CONFLICTING_SUBSCRIPTION_STATUSES (sb_status s) | None => false end
        then (d, Throw ft_subscription_active)
        else
          let p r := (tn_id r =s t) && (tn_kind r =s "family") && is_none (tn_trialConsumedAt r) in
          if negb (count p (tenants d) =? 1) then (d, Throw ft_trial_already_consumed)
          else (set_tenants (update_where p (fun r => {| tn_id := tn_id r; tn_plan := targetPlan; tn_kind := tn_kind r; tn_access := "full_access";
                  tn_status := "trialing"; tn_trialStartsAt := Some now; tn_trialEndsAt := Some trialEndsAt; tn_internal := tn_internal r;
                  tn_deletionState := tn_deletionState r; tn_trialConsumedAt := Some now |}) (tenants d)) d, Ret (targetPlan, trialEndsAt))
    end.

(** * Retention *)

(* src: packages/db/src/billing-repo.ts:666-672 purgeStripeWebhookEvents *)
Fixpoint purge_batches (fuel take_ : nat) (cutoff : Z) (l : list hook_row) : list hook_row * Z :=
  match fuel with
  | O => (l, 0)
  | S fuel =>
      let ids := map hk_event (take take_ (List.filter (fun h => hk_createdAt h <? cutoff) l)) in
      if (length ids =? 0)%nat then (l, 0)
      else
        let gone h := includes ids (hk_event h) in
        let l' := List.filter (fun h => negb (gone h)) l in
        let n := count gone l in
        if (length ids <? take_)%nat then (l', n) else let '(l'', n') := purge_batches fuel take_ cutoff l' in (l'', n + n')
  end.
(* src: packages/db/src/billing-repo.ts:663-674 purgeStripeWebhookEvents *)
Definition purgeStripeWebhookEvents (cutoff batchSize maxBatches : Z) (d : billing_db) : billing_db * Z :=
  let '(l, n) := purge_batches (Z.to_nat maxBatches) (batch batchSize) cutoff (hooks d) in (set_hooks l d, n).

(** * Runs *)

Inductive op :=
| BDeliver (enabled : bool) (seen : billing_db) (e : delivery) (now : Z)
| BCustomer (t c : string)
| BSweep (seen : billing_db) (now batchSize : Z)
| BFamilySweep (seen : billing_db) (now batchSize : Z)
| BTrial (t plan : string) (days : option Z) (enabled : bool) (now : Z)
| BReserve (input : ReserveCheckoutInput) (now wall : Z) (id uuid : string)
| BOpen (id t session : string) (url : option string) (expires : option Z) (wall : Z)
| BFail (id t code : string)
| BComplete (session : string)
| BExpire (session : string)
| BRetire (t : string)
| BPurge (cutoff batchSize maxBatches : Z).

Definition keep (d : billing_db) (o : outcome billing_db string) : billing_db := match o with Ret d' => d' | Throw _ => d end.
Definition exec (o : op) (d : billing_db) : billing_db :=
  match o with
  | BDeliver enabled seen e now => fst (recordAndApply_seeing enabled seen e now d)
  | BCustomer t c => keep d (ensureStripeCustomer t c d)
  | BSweep seen now n => fst (sweepTrialExpirations_seeing seen now n d)
  | BFamilySweep seen now n => fst (sweepFamilyTrialExpirations_seeing seen now n d)
  | BTrial t plan days enabled now => fst (startFamilyTrial t plan days enabled now d)
  | BReserve input now wall id uuid => fst (reserveCheckoutAttempt input now wall id uuid d)
  | BOpen id t s url ex wall => keep d (markCheckoutAttemptOpen id t s url ex wall d)
  | BFail id t code => markCheckoutAttemptFailed id t code d
  | BComplete s => completeCheckoutAttemptBySession s d
  | BExpire s => expireCheckoutAttemptBySession s d
  | BRetire t => completeLiveCheckoutAttemptsForTenant t d
  | BPurge cutoff n m => fst (purgeStripeWebhookEvents cutoff n m d)
  end.
Definition run (os : list op) (d : billing_db) : billing_db := fold_left (fun d o => exec o d) os d.

Lemma sweep_each_spec one ids d (P : billing_db -> Prop) :
  P d -> (forall id d, P d -> P (fst (one id d))) -> P (fst (sweep_each one ids d)).
Proof.
  unfold sweep_each. intros Hd Hone. revert Hd. generalize 0 as n. revert d. induction ids as [|id ids IH]; intros d n Hd; [done|]. cbn [fold_left].
  destruct (one id d) as [d' k] eqn:Hk. apply IH. specialize (Hone id d Hd). by rewrite Hk in Hone.
Qed.

(** ** The webhook advances the subscription by the central rule *)

Definition position (s : sub_row) : option StripeEventOrder :=
  option_map (fun t => {| createdAt := t; terminal := sb_eventTerminal s |}) (sb_eventAt s).
Definition position_of (t : string) (d : billing_db) : option StripeEventOrder := obind (find_sub t d) position.

(** The guard of the conditional update is the pure rule. *)
Lemma orderingOr_rule o s : orderingOr o s = shouldApplyStripeEvent (position s) o.
Proof.
  unfold orderingOr, shouldApplyStripeEvent, position. destruct (sb_eventAt s) as [t|]; [|done]. cbn.
  destruct (Z.ltb_spec t (createdAt o)); cbn; [done|]. destruct (Z.ltb_spec (createdAt o) t); destruct (Z.eqb_spec t (createdAt o)); try lia;
    destruct (terminal o); done.
Qed.

(** What a delivery does to a tenant's subscription: the order it presents, unless it is
    routed elsewhere or its transaction fails. *)
Definition presented (t : string) (o : op) (d : billing_db) : option (StripeEventOrder * StripeSubStateInput) :=
  match o with
  | BDeliver enabled seen e now =>
      match route enabled e seen with
      | rt_apply t' input =>
          if (t' =s t) && match snd (recordAndApply_seeing enabled seen e now d) with wo_failed _ => false | _ => true end
          then Some (event_order e input, input) else None
      | _ => None
      end
  | _ => None
  end.
Fixpoint deliveries (t : string) (os : list op) (d : billing_db) : list (StripeEventOrder * StripeSubStateInput) :=
  match os with
  | [] => []
  | o :: os => match presented t o d with Some x => [x] | None => [] end ++ deliveries t os (exec o d)
  end.

Lemma record_event_subs e ty r now d : subs (record_event e ty r now d) = subs d.
Proof. unfold record_event. by destruct (existsb _ _). Qed.
Lemma record_event_tenants e ty r now d : tenants (record_event e ty r now d) = tenants d.
Proof. unfold record_event. by destruct (existsb _ _). Qed.
Lemma record_event_attempts e ty r now d : attempts (record_event e ty r now d) = attempts d.
Proof. unfold record_event. by destruct (existsb _ _). Qed.

Lemma apply_event_subs e t input now d d' r : apply_event_tx e t input now d = (d', r) ->
  match r with
  | wo_failed _ => d' = d
  | _ => subs d' = update_where (fun s => (sb_tenant s =s t) && orderingOr (event_order e input) s) (apply_sub input (event_order e input)) (subs d)
  end.
Proof.
  unfold apply_event_tx. destruct (planAndAccess _ _) as [plan access]. set (p := fun s => (sb_tenant s =s t) && _).
  destruct (existsb p (subs d)) eqn:Ha; cbn [andb]; [destruct (_ || _); [by intros [= <- <-]|]|]; intros [= <- <-]; by rewrite record_event_subs.
Qed.

Lemma find_sub_update t p f d : (forall s, sb_tenant (f s) = sb_tenant s) ->
  List.find (fun r => sb_tenant r =s t) (update_where p f (subs d)) = option_map (fun s => if p s then f s else s) (find_sub t d).
Proof. intros Hf. apply find_update_where. intros s. by rewrite Hf. Qed.

Lemma apply_sub_position input o s : position (apply_sub input o s) = Some o.
Proof. by destruct o. Qed.

Lemma sweep_each_subs one ids d : (forall id d, subs (fst (one id d)) = subs d) -> subs (fst (sweep_each one ids d)) = subs d.
Proof. intros H. apply (sweep_each_spec one ids d (fun d' => subs d' = subs d)); [done|]. intros id d' <-. apply H. Qed.

(** Only deliveries and the customer record touch subscriptions. *)
Lemma exec_subs o d : match o with BDeliver _ _ _ _ | BCustomer _ _ => True | _ => subs (exec o d) = subs d end.
Proof.
  destruct o; cbn [exec]; try done.
  - by apply sweep_each_subs.
  - by apply sweep_each_subs.
  - unfold startFamilyTrial. repeat case_match; done.
  - unfold reserveCheckoutAttempt. destruct (evaluateCheckoutGuard _ _); [|done]. destruct (newest_attempt _); [done|]. by destruct (existsb _ _).
  - unfold markCheckoutAttemptOpen. by destruct (_ && _).
  - unfold purgeStripeWebhookEvents. by destruct (purge_batches _ _ _ _).
Qed.

Lemma customer_sub t c u d s : find_sub u d = Some s ->
  exists s', find_sub u (keep d (ensureStripeCustomer t c d)) = Some s' /\ position s' = position s /\ sb_plan s' = sb_plan s /\ sb_status s' = sb_status s.
Proof.
  intros Hs. unfold ensureStripeCustomer. destruct (existsb _ _); [by exists s|]. destruct (find_sub t d) eqn:Ht.
  - cbn [keep]. unfold find_sub. cbn [subs set_subs]. rewrite find_sub_update, Hs by done. cbn [option_map].
    destruct (sb_tenant s =s t); by eexists.
  - destruct (is_none _); [by exists s|]. exists s. split; [|done]. cbn [keep]. unfold find_sub. cbn [subs set_subs]. by apply find_app_l.
Qed.

Lemma step_position o d t s : find_sub t d = Some s ->
  exists s', find_sub t (exec o d) = Some s' /\
    match presented t o d with
    | Some (x, input) => position s' = apply_event (position s) x /\
        (position s' = position s /\ sb_plan s' = sb_plan s /\ sb_status s' = sb_status s \/
         position s' = Some x /\ sb_plan s' = si_plan input /\ sb_status s' = si_status input)
    | None => position s' = position s /\ sb_plan s' = sb_plan s /\ sb_status s' = sb_status s
    end.
Proof.
  intros Hs. pose proof (exec_subs o d) as Hsame. destruct o; cbn [presented];
    try (exists s; split; [unfold find_sub; rewrite Hsame; exact Hs|done]); clear Hsame.
  - cbn [exec]. unfold recordAndApply_seeing. destruct (route enabled e seen) as [| |t' input]; [by exists s| |].
    { exists s. split; [|done]. unfold find_sub. cbn [fst]. by rewrite record_event_subs. }
    destruct (apply_event_tx e t' input now d) as [d' r] eqn:H. apply apply_event_subs in H. cbn [fst snd].
    destruct (match r with wo_failed _ => true | _ => false end) eqn:Hr.
    { destruct r; try discriminate. subst d'. exists s. rewrite andb_false_r. done. }
    assert (Hd' : subs d' = update_where (fun s => (sb_tenant s =s t') && orderingOr (event_order e input) s) (apply_sub input (event_order e input)) (subs d))
      by (destruct r; done). clear H.
    assert (Hf : find_sub t d' = Some (if (sb_tenant s =s t') && orderingOr (event_order e input) s then apply_sub input (event_order e input) s else s)).
    { unfold find_sub. rewrite Hd', find_sub_update, Hs; done. }
    eexists. split; [exact Hf|]. replace (match r with wo_failed _ => false | _ => true end) with true by by destruct r.
    assert (Ht : sb_tenant s = t) by (apply List.find_some in Hs as [_ Ht%String.eqb_eq]; exact Ht). rewrite Ht, (String.eqb_sym t' t).
    destruct (t =s t'); cbn [andb]; [|done]. unfold apply_event. rewrite <- orderingOr_rule.
    destruct (orderingOr _ s); [|by split; [|left]]. rewrite apply_sub_position. split; [done|by right].
  - cbn [exec]. destruct (customer_sub t0 c t d s Hs) as (s' & ? & ? & ? & ?). by exists s'.
Qed.

Lemma run_position os d t s : find_sub t d = Some s ->
  exists s', find_sub t (run os d) = Some s' /\ position s' = fold_left apply_event (map fst (deliveries t os d)) (position s).
Proof.
  revert d s. induction os as [|o os IH]; intros d s Hs; [by exists s|]. destruct (step_position o d t s Hs) as (s1 & Hs1 & Hp).
  destruct (IH (exec o d) s1 Hs1) as (s' & Hs' & Hpos). exists s'. split; [done|]. cbn [deliveries]. rewrite map_app, fold_left_app, Hpos.
  destruct (presented t o d) as [[x input]|]; cbn [map fold_left fst]; destruct Hp as [-> _]; done.
Qed.

(** C1 — The stored subscription refines the pure ordering rule: along any run
    (webhooks whose first reads saw any database at all, interleaved with checkouts,
    sweeps, trials and purges), a tenant's position is the fold of
    [shouldApplyStripeEvent] over the events presented to it, in whatever order their
    transactions ran, and its plan and status are those of the event at that position
    (or the original ones, when no event applied). *)
Theorem webhook_refines_rule (os : list op) (d : billing_db) (t : string) (s : sub_row) :
  find_sub t d = Some s ->
  exists s', find_sub t (run os d) = Some s' /\
    position s' = fold_left apply_event (map fst (deliveries t os d)) (position s) /\
    (position s' = position s /\ sb_plan s' = sb_plan s /\ sb_status s' = sb_status s \/
     exists x input, In (x, input) (deliveries t os d) /\ position s' = Some x /\ sb_plan s' = si_plan input /\ sb_status s' = si_status input).
Proof.
  intros Hs. destruct (run_position os d t s Hs) as (s' & Hs' & Hpos). exists s'. split_and!; [done|done|]. clear Hpos. revert d s Hs Hs'.
  induction os as [|o os IH]; intros d s Hs Hs'; [change (find_sub t d = Some s') in Hs'; rewrite Hs in Hs'; injection Hs' as <-; by left|].
  destruct (step_position o d t s Hs) as (s1 & Hs1 & Hp). cbn [deliveries].
  destruct (IH (exec o d) s1 Hs1 Hs') as [(Hq & -> & ->)|(y & inp & Hin & Hy)]; [|right; exists y, inp; split; [apply in_or_app; by right|done]].
  destruct (presented t o d) as [[x input]|]; [destruct Hp as [_ [(Hr & -> & ->)|(Hr & -> & ->)]]|destruct Hp as (Hr & -> & ->)].
  - left. by rewrite Hq.
  - right. exists x, input. split_and!; [by left|by rewrite Hq|done|done].
  - left. by rewrite Hq.
Qed.

(** ** Replays *)

Lemma exec_sub_tenants o d : NoDup (map sb_tenant (subs d)) -> NoDup (map sb_tenant (subs (exec o d))).
Proof.
  intros Hnd. pose proof (exec_subs o d) as Hsame. destruct o; try (by rewrite Hsame); clear Hsame; cbn [exec].
  - unfold recordAndApply_seeing. destruct (route enabled e seen) as [| |t' input]; [done|cbn [fst]; by rewrite record_event_subs|].
    destruct (apply_event_tx e t' input now d) as [d' r] eqn:H. apply apply_event_subs in H. cbn [fst].
    destruct r; subst; try done; rewrite H, update_where_keys; done.
  - unfold ensureStripeCustomer. destruct (existsb _ _); [done|]. destruct (find_sub t d) eqn:Ht; cbn [keep subs set_subs].
    + by rewrite update_where_keys.
    + destruct (is_none _); [done|]. cbn [keep subs set_subs]. rewrite map_app. apply NoDup_app. split; [done|]. split; [|apply NoDup_singleton].
      intros x Hx Hy%list_elem_of_singleton. cbn in Hy. subst x. apply list_elem_of_In, in_map_iff in Hx as (r & Hr & Hin).
      pose proof (List.find_none _ _ Ht r Hin) as Hn. cbv beta in Hn. by rewrite Hr, String.eqb_refl in Hn.
Qed.
Lemma run_sub_tenants os d : NoDup (map sb_tenant (subs d)) -> NoDup (map sb_tenant (subs (run os d))).
Proof. revert d. induction os as [|o os IH]; intros d Hnd; [done|]. cbn [run fold_left]. by apply (IH (exec o d)), exec_sub_tenants. Qed.

Lemma processed_position e t input now d d' t' a : apply_event_tx e t input now d = (d', wo_processed t' a) ->
  NoDup (map sb_tenant (subs d)) -> t' = t /\ exists s, find_sub t d' = Some s /\ position s = Some (event_order e input).
Proof.
  intros H Hnd. pose proof (apply_event_subs _ _ _ _ _ _ _ H) as Hs. cbv beta iota in Hs. revert H. unfold apply_event_tx.
  destruct (planAndAccess _ _) as [plan access]. set (p := fun s => (sb_tenant s =s t) && _). destruct (existsb p (subs d)) eqn:Ha; cbn [andb].
  2: { intros H. by injection H. }
  destruct (_ || _); [discriminate|]. intros [= _ <- _]. split; [done|].
  apply existsb_exists in Ha as (s & Hin & Hp). exists (apply_sub input (event_order e input) s). split; [|apply apply_sub_position].
  unfold find_sub. rewrite Hs, find_sub_update by done.
  assert (Hf : find_sub t d = Some s).
  { unfold p in Hp. apply andb_true_iff in Hp as [<-%String.eqb_eq _]. by apply find_unique_key. }
  by rewrite Hf; cbn [option_map]; change ((sb_tenant s =s t) && _) with (p s); rewrite Hp.
Qed.

Lemma stale_delivery e t input now d s : NoDup (map sb_tenant (subs d)) -> find_sub t d = Some s ->
  shouldApplyStripeEvent (position s) (event_order e input) = false ->
  exists d', apply_event_tx e t input now d = (d', wo_stale t) /\ subs d' = subs d /\ tenants d' = tenants d.
Proof.
  intros Hnd Hs Hno. assert (Hp : forall x, In x (subs d) -> (sb_tenant x =s t) && orderingOr (event_order e input) x = false).
  { intros x Hx. destruct (String.eqb_spec (sb_tenant x) t) as [<-|]; [cbn [andb]|done].
    assert (Some x = Some s) as [= ->] by (rewrite <- Hs; symmetry; by apply find_unique_key). by rewrite orderingOr_rule. }
  unfold apply_event_tx. destruct (planAndAccess _ _) as [plan access].
  destruct (existsb _ (subs d)) eqn:Ha; [apply existsb_exists in Ha as (x & Hx & Hpx); by rewrite Hp in Hpx|]. cbn [andb].
  eexists. split; [reflexivity|]. rewrite record_event_subs, record_event_tenants. cbn [subs tenants set_subs]. by rewrite update_none.
Qed.

Lemma route_input enabled e d t i : route enabled e d = rt_apply t i -> dl_input e = Some i.
Proof. unfold route. destruct (existsb _ _); [done|]. destruct (dl_input e) as [j|]; [|done]. repeat case_match; try done; by intros [= _ <-]. Qed.

(** C21 — An event changes a tenant's billing at most once: after a delivery that was
    processed for a tenant, and any run (concurrent deliveries, retries, purges of the
    webhook log included), delivering the same event to that tenant again changes
    neither a subscription nor a tenant, whatever its first reads saw. *)
Theorem webhook_applies_once (enabled enabled' : bool) (seen seen' : billing_db) (e : delivery) (now now' : Z) (d d1 d2 : billing_db)
    (t : string) (a : AccessState) (os : list op) (res : WebhookOutcome) :
  NoDup (map sb_tenant (subs d)) ->
  recordAndApply_seeing enabled seen e now d = (d1, wo_processed t a) ->
  recordAndApply_seeing enabled' seen' e now' (run os d1) = (d2, res) ->
  match route enabled' e seen' with rt_apply t' _ => t' = t | _ => True end ->
  subs d2 = subs (run os d1) /\ tenants d2 = tenants (run os d1) /\ match res with wo_processed _ _ => False | _ => True end.
Proof.
  intros Hnd H1 H2 Hroute. unfold recordAndApply_seeing in H1, H2. destruct (route enabled e seen) as [| |t1 i1] eqn:Hr1; [by injection H1..|].
  destruct (route enabled' e seen') as [| |t2 i2] eqn:Hr2; [by injection H2 as <- <-| |].
  { injection H2 as <- <-. rewrite record_event_subs, record_event_tenants. done. }
  assert (i2 = i1) as -> by (apply route_input in Hr1, Hr2; congruence).
  assert (Hnd1 : NoDup (map sb_tenant (subs d1))).
  { pose proof (apply_event_subs _ _ _ _ _ _ _ H1) as Hs. cbv beta iota in Hs. by rewrite Hs, update_where_keys. }
  apply processed_position in H1 as [-> (s & Hs & Hpos)]; [|done]. subst t2.
  destruct (run_position os d1 t1 s Hs) as (s' & Hs' & Hp).
  assert (Hno : shouldApplyStripeEvent (Some (event_order e i1)) (event_order e i1) = false).
  { unfold shouldApplyStripeEvent. rewrite Z.ltb_irrefl. by destruct (terminal _). }
  rewrite Hpos in Hp. destruct (apply_events_dominates _ (map fst (deliveries t1 os d1)) _ Hno) as (o & Ho & Hno').
  destruct (stale_delivery e t1 i1 now' (run os d1) s' (run_sub_tenants os d1 Hnd1) Hs') as (d' & Hd' & ? & ?); [by rewrite Hp, Ho|].
  rewrite Hd' in H2. injection H2 as <- <-. done.
Qed.

(** ** Families are never restricted *)

Definition kinds (d : billing_db) : list (string * string) := map (fun r => (tn_id r, tn_kind r)) (tenants d).
Definition reads (o : op) : option billing_db :=
  match o with BDeliver _ seen _ _ | BSweep seen _ _ | BFamilySweep seen _ _ => Some seen | _ => None end.

Lemma kinds_update p f d : (forall r, tn_id (f r) = tn_id r) -> (forall r, tn_kind (f r) = tn_kind r) ->
  kinds (set_tenants (update_where p f (tenants d)) d) = kinds d.
Proof. intros H1 H2. unfold kinds. cbn [tenants set_tenants]. apply (update_where_keys (fun r => (tn_id r, tn_kind r))). intros r. by rewrite H1, H2. Qed.

(** What happens to the rows of the tenants table in one statement or transaction:
    [P] holds of (row, its replacement). *)
Definition tenant_step (P : tenant_row -> tenant_row -> Prop) (d d' : billing_db) : Prop :=
  exists f, tenants d' = map f (tenants d) /\ forall r, In r (tenants d) -> P r (f r).
Lemma tenant_step_same (P : tenant_row -> tenant_row -> Prop) d d' : (forall r, P r r) -> tenants d' = tenants d -> tenant_step P d d'.
Proof. intros HP Hd. exists (fun r => r). by rewrite map_id, Hd. Qed.
Lemma tenant_step_update (P : tenant_row -> tenant_row -> Prop) p f d d' : (forall r, P r r) ->
  (forall r, In r (tenants d) -> p r = true -> P r (f r)) -> tenants d' = update_where p f (tenants d) -> tenant_step P d d'.
Proof. intros HP Hf Hd. eexists. split; [exact Hd|]. intros r Hr. cbv beta. destruct (p r) eqn:Hp; [by apply Hf|done]. Qed.
Lemma tenant_step_trans (P : tenant_row -> tenant_row -> Prop) d1 d2 d3 : (forall a b c, P a b -> P b c -> P a c) ->
  tenant_step P d1 d2 -> tenant_step P d2 d3 -> tenant_step P d1 d3.
Proof.
  intros Ht (f & Hf & HPf) (g & Hg & HPg). exists (fun r => g (f r)). split; [by rewrite Hg, Hf, map_map|]. intros r Hr.
  apply (Ht _ (f r)); [by apply HPf|]. apply HPg. rewrite Hf. by apply in_map.
Qed.
Lemma tenant_step_sweep (P : tenant_row -> tenant_row -> Prop) one ids d : (forall r, P r r) -> (forall a b c, P a b -> P b c -> P a c) ->
  (forall id d, tenant_step P d (fst (one id d))) -> tenant_step P d (fst (sweep_each one ids d)).
Proof.
  intros HP Ht Hone. apply (sweep_each_spec one ids d (tenant_step P d)); [by apply tenant_step_same|]. intros id d' Hd'.
  by apply (tenant_step_trans P d d').
Qed.

Lemma apply_event_tenants e t input now d d' r : apply_event_tx e t input now d = (d', r) ->
  tenants d' = tenants d \/
  tenants d' = update_where (fun r => tn_id r =s t) (apply_tenant (fst (planAndAccess input now)) (si_status input) (js_name (snd (planAndAccess input now)))) (tenants d).
Proof.
  unfold apply_event_tx. destruct (planAndAccess _ _) as [plan access]. destruct (existsb _ (subs d)); cbn [andb].
  - destruct (_ || _); [intros [= <- _]; by left|]. intros [= <- _]. right. by rewrite record_event_tenants.
  - intros [= <- _]. left. by rewrite record_event_tenants.
Qed.

(** The rows of the tenants table along one operation. *)
Lemma exec_tenants (P : tenant_row -> tenant_row -> Prop) o d :
  (forall r, P r r) -> (forall a b c, P a b -> P b c -> P a c) ->
  (forall r, tn_kind r <> "family" -> P r (apply_tenant (tn_plan r) (tn_status r) "restricted" r)) ->
  (forall r, tn_kind r = "family" -> P r (to_family_free r)) ->
  (forall r plan now ends, tn_kind r = "family" -> tn_trialConsumedAt r = None ->
     P r {| tn_id := tn_id r; tn_plan := plan; tn_kind := tn_kind r; tn_access := "full_access"; tn_status := "trialing";
            tn_trialStartsAt := Some now; tn_trialEndsAt := Some ends; tn_internal := tn_internal r; tn_deletionState := tn_deletionState r;
            tn_trialConsumedAt := Some now |}) ->
  match o with
  | BDeliver enabled seen e now => forall t input r, route enabled e seen = rt_apply t input -> In r (tenants d) -> tn_id r = t ->
      P r (apply_tenant (fst (planAndAccess input now)) (si_status input) (js_name (snd (planAndAccess input now))) r)
  | _ => True
  end -> tenant_step P d (exec o d).
Proof.
  intros HP Ht Hrestrict Hfree Htrial Ho. destruct o; cbn [exec].
  - unfold recordAndApply_seeing. destruct (route enabled e seen) as [| |t input] eqn:Hr; [by apply tenant_step_same| |].
    { apply tenant_step_same; [done|]. cbn [fst]. apply record_event_tenants. }
    destruct (apply_event_tx e t input now d) as [d' res] eqn:H. cbn [fst]. apply apply_event_tenants in H as [H|H]; [by apply tenant_step_same|].
    eapply tenant_step_update; [done| |exact H]. intros r Hin Heq%String.eqb_eq. by apply (Ho t).
  - apply tenant_step_same; [done|]. unfold ensureStripeCustomer. repeat case_match; done.
  - apply tenant_step_sweep; [done..|]. intros id d'. unfold restrict_one. eapply tenant_step_update; [done| |reflexivity].
    intros r _ Hp. cbv beta in Hp. apply Hrestrict. intros Hk. rewrite Hk, andb_false_r in Hp. discriminate.
  - apply tenant_step_sweep; [done..|]. intros id d'. unfold convert_one. eapply tenant_step_update; [done| |reflexivity].
    intros r _ Hp. cbv beta in Hp. apply Hfree. by apply andb_true_iff in Hp as [[[_ Hk%String.eqb_eq]%andb_true_iff _]%andb_true_iff _].
  - unfold startFamilyTrial. pose proof (tenant_step_same P d d HP eq_refl) as Hsame. destruct (negb enabled); [done|].
    destruct (negb _); [done|]. destruct (find_tenant t d) as [r0|]; [|done]. destruct (negb (_ =s _)); [done|]. destruct (is_some _); [done|].
    destruct (match find_sub t d with Some _ => _ | None => _ end); [done|]. destruct (negb _); [done|].
    eapply tenant_step_update; [done| |reflexivity].
    intros r _ Hp. cbv beta in Hp. apply andb_true_iff in Hp as [[_ Hk%String.eqb_eq]%andb_true_iff Hn]. apply Htrial; [done|].
    by destruct (tn_trialConsumedAt r).
  - apply tenant_step_same; [done|]. unfold reserveCheckoutAttempt. repeat case_match; done.
  - apply tenant_step_same; [done|]. unfold markCheckoutAttemptOpen. by destruct (_ && _).
  - by apply tenant_step_same.
  - by apply tenant_step_same.
  - by apply tenant_step_same.
  - by apply tenant_step_same.
  - apply tenant_step_same; [done|]. unfold purgeStripeWebhookEvents. by destruct (purge_batches _ _ _ _).
Qed.

Definition access_open (s : string) : Prop := s = "full_access" \/ s = "grace_period".
Definition families_open (d : billing_db) : Prop := forall r, In r (tenants d) -> tn_kind r = "family" -> access_open (tn_access r).

Lemma find_kind d seen r : kinds seen = kinds d -> NoDup (map tn_id (tenants d)) -> In r (tenants d) ->
  option_map tn_kind (find_tenant (tn_id r) seen) = Some (tn_kind r).
Proof.
  intros Hk Hnd Hin. assert (H : option_map tn_kind (find_tenant (tn_id r) d) = Some (tn_kind r)).
  { unfold find_tenant. by rewrite (find_unique_key tn_id (tenants d) r). }
  rewrite <- H. unfold find_tenant, kinds in *. clear - Hk. revert Hk. generalize (tenants d) as l'. generalize (tenants seen) as l.
  induction l as [|x l IH]; intros [|y l']; cbn; try discriminate; [done|]. intros [= Hid Hki Hl]. rewrite Hid. destruct (tn_id y =s tn_id r); [cbn; by f_equal|].
  by apply IH.
Qed.

Lemma exec_kinds o d : kinds (exec o d) = kinds d.
Proof.
  destruct (exec_tenants (fun r r' => tn_id r' = tn_id r /\ tn_kind r' = tn_kind r) o d) as (f & Hf & HP); try done.
  - intros a b c [? ?] [? ?]. split; congruence.
  - by destruct o.
  - unfold kinds. rewrite Hf, map_map. apply map_ext_in. intros r Hr. by destruct (HP r Hr) as [-> ->].
Qed.

Lemma exec_families o d : NoDup (map tn_id (tenants d)) -> (forall seen, reads o = Some seen -> kinds seen = kinds d) ->
  families_open d -> families_open (exec o d).
Proof.
  intros Hnd Hreads Hopen.
  destruct (exec_tenants (fun r r' => tn_kind r' = tn_kind r /\ (tn_kind r = "family" -> access_open (tn_access r) -> access_open (tn_access r'))) o d)
    as (f & Hf & HP).
  - by intros r.
  - intros a b c [H1 H2] [H3 H4]. split; [congruence|]. intros Hk Ha. apply H4; [congruence|by apply H2].
  - intros r Hk. split; [done|]. intros Hk'. by destruct Hk.
  - intros r Hk. split; [done|]. intros _ _. by left.
  - intros r plan now ends Hk _. split; [done|]. intros _ _. by left.
  - destruct o; try done. intros t input r Hroute Hin <-. split; [done|]. intros Hk _. cbn [tn_access apply_tenant].
    unfold route in Hroute. destruct (existsb _ _); [done|]. destruct (dl_input e) as [j|]; [|done].
    destruct (findTenantIdByStripeCustomer _ _) as [u|]; [|done]. destruct (negb (nonempty u)); [done|].
    destruct (_ || _) eqn:Hb; [done|]. injection Hroute as -> ->. apply orb_false_iff in Hb as [Hb _].
    rewrite (find_kind d seen r) in Hb; [|by apply Hreads|done|done]. cbn [nullish] in Hb. rewrite Hk in Hb.
    unfold planAndAccess. destruct (isFamilyPlanId (Some (si_plan input))); [|discriminate].
    unfold resolveFamilyBillingState, access_open. destruct (resolveAccessState now _); cbn; tauto.
  - intros r' Hr' Hk. rewrite Hf in Hr'. apply in_map_iff in Hr' as (r & <- & Hr). destruct (HP r Hr) as [Hkind Ha]. rewrite Hkind in Hk.
    apply Ha; [done|]. by apply Hopen.
Qed.

(** No billing event, sweep or trial ever restricts or suspends a family: from
    tables where every family has full access or a grace period, every later state
    has too, along any run whose reads saw the same tenants. *)
Theorem families_stay_open (os : list op) (d : billing_db) :
  NoDup (map tn_id (tenants d)) -> (forall o seen, In o os -> reads o = Some seen -> kinds seen = kinds d) ->
  families_open d -> families_open (run os d).
Proof.
  revert d. induction os as [|o os IH]; intros d Hnd Hreads Hopen; [done|]. cbn [run fold_left]. apply (IH (exec o d)).
  - pose proof (f_equal (map fst) (exec_kinds o d)) as He. unfold kinds in He. rewrite !map_map in He. exact (eq_ind_r (fun l => NoDup l) Hnd He).
  - intros o' seen Ho Hr. rewrite exec_kinds. apply (Hreads o'); [by right|done].
  - apply exec_families; [done| |done]. intros seen Hr. apply (Hreads o); [by left|done].
Qed.

(** ** The one-time family trial *)

Lemma find_tenant_map f d d' t r : tenants d' = map f (tenants d) -> (forall r, In r (tenants d) -> tn_id (f r) = tn_id r) ->
  find_tenant t d = Some r -> find_tenant t d' = Some (f r).
Proof.
  intros Hd Hf. unfold find_tenant. rewrite Hd. clear Hd. induction (tenants d) as [|x l IH]; [done|]. cbn [List.find map].
  rewrite (Hf x) by (by left). destruct (tn_id x =s t); [by intros [= ->]|]. apply IH. intros y Hy. apply Hf. by right.
Qed.

Lemma exec_consumed o d t r : find_tenant t d = Some r -> tn_trialConsumedAt r <> None ->
  exists r', find_tenant t (exec o d) = Some r' /\ tn_trialConsumedAt r' <> None.
Proof.
  intros Hr Hc. destruct (exec_tenants (fun r r' => tn_id r' = tn_id r /\ (tn_trialConsumedAt r <> None -> tn_trialConsumedAt r' <> None)) o d)
    as (f & Hf & HP); try done.
  - intros a b c [? ?] [? ?]. split; [congruence|tauto].
  - by destruct o.
  - exists (f r). split; [apply (find_tenant_map f d); [done| |done]; intros x Hx; by apply HP|]. apply HP; [|done].
    by apply List.find_some in Hr as [? _].
Qed.

Lemma trial_consumed t plan days enabled now d r : find_tenant t d = Some r -> tn_trialConsumedAt r <> None ->
  exists e, startFamilyTrial t plan days enabled now d = (d, Throw e).
Proof.
  intros Hr Hc. unfold startFamilyTrial. destruct (negb enabled); [by eexists|]. destruct (negb _); [by eexists|]. rewrite Hr.
  destruct (negb _); [by eexists|]. destruct (tn_trialConsumedAt r); [by eexists|done].
Qed.

(** The family trial is granted once: after it was granted to a tenant, and
    whatever happens next (expiry, cancellation, other webhooks), every later attempt
    is refused and changes nothing. *)
Theorem family_trial_once (t plan : string) (days : option Z) (enabled : bool) (now : Z) (d d1 : billing_db) (x : string * Z) (os : list op)
    (plan' : string) (days' : option Z) (enabled' : bool) (now' : Z) :
  startFamilyTrial t plan days enabled now d = (d1, Ret x) ->
  exists e, startFamilyTrial t plan' days' enabled' now' (run os d1) = (run os d1, Throw e).
Proof.
  intros H. assert (Hc : exists r, find_tenant t d1 = Some r /\ tn_trialConsumedAt r <> None).
  { revert H. unfold startFamilyTrial. destruct (negb enabled); [done|]. destruct (negb (isFamilySelfServePlan _)); [done|].
    destruct (find_tenant t d) as [r|] eqn:Hr; [|done]. destruct (String.eqb_spec (tn_kind r) "family") as [Hk|]; cbn [negb]; [|done].
    destruct (tn_trialConsumedAt r) eqn:Hn; cbn [is_some]; [done|]. destruct (match find_sub t d with Some _ => _ | None => _ end); [done|].
    destruct (negb _); [done|]. intros [= <- _]. unfold find_tenant. cbn [tenants set_tenants]. rewrite find_update_where by done.
    change (List.find _ (tenants d)) with (find_tenant t d). rewrite Hr. cbn [option_map].
    assert (Ht : tn_id r = t) by (apply List.find_some in Hr as [_ Ht%String.eqb_eq]; exact Ht).
    rewrite Ht, Hk, Hn, String.eqb_refl. by eexists. }
  clear H. revert d1 Hc. induction os as [|o os IH]; intros d1 (r & Hr & Hc); [by apply (trial_consumed t plan' days' enabled' now' d1 r)|].
  cbn [run fold_left]. apply (IH (exec o d1)). by apply (exec_consumed o d1 t r).
Qed.

(** ** Reading is not affected by the sweep *)

Lemma restrict_reads id d t now :
  getTenantOperationGate t now (fst (restrict_one id d)) = getTenantOperationGate t now d /\
  getTenantEntitlements t now (fst (restrict_one id d)) = getTenantEntitlements t now d /\
  option_map tb_presentation (getTenantBilling t now (fst (restrict_one id d))) = option_map tb_presentation (getTenantBilling t now d).
Proof.
  unfold restrict_one. set (p := fun r => (tn_id r =s id) && _ && _ && _). cbn [fst].
  assert (Hf : find_tenant t (set_tenants (update_where p (fun r => apply_tenant (tn_plan r) (tn_status r) "restricted" r) (tenants d)) d) =
    option_map (fun r => if p r then apply_tenant (tn_plan r) (tn_status r) "restricted" r else r) (find_tenant t d)).
  { unfold find_tenant. cbn [tenants set_tenants]. by apply find_update_where. }
  unfold getTenantOperationGate, getTenantEntitlements, getTenantBilling. rewrite Hf. change (find_sub t (set_tenants _ d)) with (find_sub t d).
  destruct (find_tenant t d) as [r|]; cbn [option_map]; [|done]. destruct (p r) eqn:Hp; [|done]. unfold p in Hp.
  apply andb_true_iff in Hp as [_ Ha%String.eqb_eq].
  assert (Hsusp : forall x, status_is (Some (tn_access x)) "suspended" = (tn_access x =s "suspended")) by done.
  assert (Hea : resolveEffectiveAccessState now (lifecycleInput (apply_tenant (tn_plan r) (tn_status r) "restricted" r) (find_sub t d)) =
                resolveEffectiveAccessState now (lifecycleInput r (find_sub t d))).
  { unfold resolveEffectiveAccessState, lifecycleInput. cbn [persistedAccessState internalAccess ea_access tn_access tn_internal apply_tenant].
    by rewrite Ha. }
  assert (Hpr : resolveBusinessBillingPresentation now (presentationInput (apply_tenant (tn_plan r) (tn_status r) "restricted" r) (find_sub t d)) =
                resolveBusinessBillingPresentation now (presentationInput r (find_sub t d))).
  { unfold resolveBusinessBillingPresentation, presentationAccessInput, resolveTenantLifecycle, resolveEffectiveAccessState, presentationInput.
    cbn [bi_persistedAccessState persistedAccessState apply_tenant tn_access tn_plan tn_status tn_internal tn_trialEndsAt bi_subscription bi_tenantPlan
      bi_billingStatus bi_internalAccess bi_trialEndsAt internalAccess ea_access]. rewrite Ha. reflexivity. }
  rewrite Hea. unfold resolveEffectiveBusinessPlan. rewrite Hpr. done.
Qed.

(** The trial sweep is only a cache: whatever it changes, no reader sees a
    difference, at any time: the operation gate, the entitlements and the billing
    presentation of every tenant are what they were. *)
Theorem sweep_invisible (seen : billing_db) (now batchSize : Z) (d : billing_db) (t : string) (now' : Z) :
  let d' := fst (sweepTrialExpirations_seeing seen now batchSize d) in
  getTenantOperationGate t now' d' = getTenantOperationGate t now' d /\
  getTenantEntitlements t now' d' = getTenantEntitlements t now' d /\
  option_map tb_presentation (getTenantBilling t now' d') = option_map tb_presentation (getTenantBilling t now' d).
Proof.
  cbv zeta. unfold sweepTrialExpirations_seeing. apply (sweep_each_spec restrict_one _ d (fun d' =>
    getTenantOperationGate t now' d' = getTenantOperationGate t now' d /\ getTenantEntitlements t now' d' = getTenantEntitlements t now' d /\
    option_map tb_presentation (getTenantBilling t now' d') = option_map tb_presentation (getTenantBilling t now' d))); [done|].
  intros id d1 (<- & <- & <-). apply restrict_reads.
Qed.

(** Gate and entitlements agree: for a tenant that is not a family (or does not
    exist), synchronisation, moderation and paid AI are entitled exactly when the
    operation gate is open. *)
Theorem gate_agrees_with_entitlements (t : string) (now : Z) (d : billing_db) :
  match find_tenant t d with Some r => tn_kind r <> "family" | None => True end ->
  let ent := getTenantEntitlements t now d in
  providerSync ent = tenantAllowsOperations t now d /\ moderationExecution ent = tenantAllowsOperations t now d /\
  paidAi ent = tenantAllowsOperations t now d.
Proof.
  unfold getTenantEntitlements, tenantAllowsOperations, getTenantOperationGate. destruct (find_tenant t d) as [r|]; [|done].
  intros Hk. destruct (String.eqb_spec (tn_kind r) "family") as [|_]; [done|]. unfold resolveEntitlements.
  destruct (negb (tn_deletionState r =s "active")); [done|]. set (plan := resolveEffectiveBusinessPlan _ _). unfold resolveEffectiveAccessState. cbn [internalAccess lifecycleInput].
  destruct (tn_internal r); [done|].
  match goal with |- context [Some (js_name ?x)] => set (a := x) end. clearbody plan. destruct a, plan; done.
Qed.

(** ** At most one live checkout *)

Definition one_live (d : billing_db) : Prop := forall t, count (live t) (attempts d) <= 1.

(** Rewritings that bring no attempt to life. *)
Lemma count_live_update t p f l : (forall a, In a l -> p a = true -> live t (f a) = true -> live t a = true) ->
  count (live t) (update_where p f l) <= count (live t) l.
Proof. intros H. unfold update_where. apply count_map_le. intros a Ha. destruct (p a) eqn:Hp; [by apply H|done]. Qed.
Lemma closed_attempt_not_live t s a : live_status s = false -> live t (with_status s a) = true -> live t a = true.
Proof. unfold live. cbn [with_status at_status at_tenant]. intros ->. by rewrite andb_false_r. Qed.

Lemma newest_none l : newest_attempt l = None -> l = [].
Proof.
  unfold newest_attempt. pose proof (js_sort_perm (fun a b => at_createdAt b - at_createdAt a) l) as Hp.
  destruct (js_sort _ l); [|done]. intros _. by apply Permutation_nil_l in Hp.
Qed.
Lemma newest_in l a : newest_attempt l = Some a -> In a l.
Proof.
  unfold newest_attempt. pose proof (js_sort_perm (fun a b => at_createdAt b - at_createdAt a) l) as Hp.
  destruct (js_sort _ l) as [|x r]; [done|]. intros [= ->]. apply (Permutation_in a Hp). by left.
Qed.

Lemma reserve_one_live input now wall id uuid d : one_live d -> one_live (fst (reserveCheckoutAttempt input now wall id uuid d)).
Proof.
  intros H. unfold reserveCheckoutAttempt. destruct (evaluateCheckoutGuard _ _); [|done].
  set (l1 := update_where _ _ (attempts d)). cbn [attempts set_attempts].
  assert (Hl1 : forall t, count (live t) l1 <= 1).
  { intros t. etransitivity; [|apply (H t)]. apply count_live_update. intros a _ _. by apply closed_attempt_not_live. }
  destruct (newest_attempt _) eqn:Hnew; [intros t; apply Hl1|]. destruct (existsb _ _); [done|]. intros t. cbn [fst attempts set_attempts].
  rewrite count_app, count_one. unfold live at 2. cbn [at_tenant at_status]. destruct (String.eqb_spec (rc_tenant input) t) as [<-|]; cbn [andb].
  - apply newest_none in Hnew. unfold count. rewrite Hnew. cbn. lia.
  - rewrite Z.add_0_r. apply Hl1.
Qed.

Lemma exec_one_live o d : one_live d -> one_live (exec o d).
Proof.
  intros H.
  assert (Hset : forall p f, (forall t a, p a = true -> live t (f a) = true -> live t a = true) -> one_live (set_attempts (update_where p f (attempts d)) d)).
  { intros p f Hf t. etransitivity; [|apply (H t)]. apply count_live_update. intros a _. apply Hf. }
  destruct o; cbn [exec].
  - unfold recordAndApply_seeing. destruct (route _ _ _) as [| |t input]; [done| |]; [intros t; cbn [fst]; rewrite record_event_attempts; apply H|].
    unfold apply_event_tx. destruct (planAndAccess _ _) as [plan access]. destruct (_ && _); [done|]. intros u. cbn [fst].
    rewrite record_event_attempts. destruct (existsb _ _); apply H.
  - unfold ensureStripeCustomer. repeat case_match; exact H.
  - apply (sweep_each_spec restrict_one _ d one_live); [done|]. intros id d' Hd'. exact Hd'.
  - apply (sweep_each_spec (convert_one now) _ d one_live); [done|]. intros id d' Hd'. exact Hd'.
  - unfold startFamilyTrial. repeat case_match; exact H.
  - by apply reserve_one_live.
  - unfold markCheckoutAttemptOpen. destruct (_ && _); [done|]. apply Hset. intros u a Hp. guards_in Hp. unfold live. cbn [opened at_tenant at_status].
    destruct Hp as [_ ->]. by rewrite !andb_true_r.
  - unfold markCheckoutAttemptFailed. apply Hset. intros u a _. unfold live. cbn. by rewrite andb_false_r.
  - apply Hset. intros u a _. by apply closed_attempt_not_live.
  - apply Hset. intros u a _. by apply closed_attempt_not_live.
  - apply Hset. intros u a _. by apply closed_attempt_not_live.
  - unfold purgeStripeWebhookEvents. destruct (purge_batches _ _ _ _). exact H.
Qed.

(** A tenant never has two live checkouts: along any run, from tables where it
    holds, at most one attempt per tenant is being created or open. *)
Theorem checkout_one_live (os : list op) (d : billing_db) : one_live d -> one_live (run os d).
Proof. revert d. induction os as [|o os IH]; intros d H; [done|]. cbn [run fold_left]. by apply (IH (exec o d)), exec_one_live. Qed.

Definition guard_of (wall : Z) (s : option sub_row) : CheckoutGuardDecision :=
  evaluateCheckoutGuard wall (option_map (fun s => {| cgs_status := Some (sb_status s); cgs_currentPeriodEnd := sb_periodEnd s |}) s).

(** C40 — A reservation is answered exactly: a current subscription blocks it and
    nothing is written; otherwise an attempt that is live and has not passed its
    expiry is handed back with its stored key (so a retry is the same Stripe request);
    otherwise, crashed or lapsed attempts notwithstanding, a fresh one is reserved and
    is the tenant's only live attempt. *)
Theorem reserve_exact (input : ReserveCheckoutInput) (now wall : Z) (id uuid : string) (d : billing_db) :
  one_live d -> (forall a, In a (attempts d) -> at_id a <> id /\ at_key a <> "checkout_attempt:" +:+ uuid) ->
  let '(d', res) := reserveCheckoutAttempt input now wall id uuid d in
  match guard_of wall (find_sub (rc_tenant input) d) with
  | cg_blocked reason => d' = d /\ res = Ret (rv_blocked reason)
  | cg_allowed =>
      (forall a, In a (attempts d) -> live (rc_tenant input) a = true -> now <= at_expiresAt a ->
         res = Ret (rv_existing (at_id a) ((at_plan a =s rc_plan input) && (at_interval a =s rc_interval input))
                 (if (at_status a =e OPEN) && truthy (at_url a) && match at_urlExpiresAt a with Some e => now <? e | None => true end
                  then at_url a else None) (at_key a)) /\ length (attempts d') = length (attempts d)) /\
      ((forall a, In a (attempts d) -> live (rc_tenant input) a = true -> at_expiresAt a < now) ->
         res = Ret (rv_reserved id ("checkout_attempt:" +:+ uuid) (rc_priceId input)) /\
         exists a, In a (attempts d') /\ at_id a = id /\ at_key a = "checkout_attempt:" +:+ uuid /\ live (rc_tenant input) a = true /\
                   at_expiresAt a = now + (rc_creatingTtlMs input ?? 180000) /\ count (live (rc_tenant input)) (attempts d') = 1)
  end.
Proof.
  intros H1 Hfresh. unfold reserveCheckoutAttempt. change (evaluateCheckoutGuard wall _) with (guard_of wall (find_sub (rc_tenant input) d)).
  destruct (guard_of _ _); [|done]. set (t := rc_tenant input). set (l1 := update_where _ _ (attempts d)). cbn [attempts set_attempts].
  assert (Hl1 : forall a, In a (List.filter (live t) l1) <-> In a (attempts d) /\ live t a = true /\ now <= at_expiresAt a).
  { intros a. rewrite filter_In. unfold l1, update_where. rewrite in_map_iff. split.
    - intros [(x & <- & Hx) Hl]. destruct (live t x && (at_expiresAt x <? now)) eqn:Hp.
      + unfold live in Hl. cbn in Hl. by rewrite andb_false_r in Hl.
      + rewrite Hl in Hp. cbn [andb] in Hp. apply Z.ltb_ge in Hp. done.
    - intros (Hin & Hl & He). split; [|done]. exists a. split; [|done]. rewrite Hl. apply Z.ltb_ge in He. by rewrite He. }
  assert (Hone : forall a b, In a (List.filter (live t) l1) -> In b (List.filter (live t) l1) -> a = b).
  { assert (Hc : count (live t) l1 <= 1) by (etransitivity; [apply count_live_update; intros a _ _; by apply closed_attempt_not_live|apply H1]).
    unfold count in Hc. destruct (List.filter (live t) l1) as [|x [|y r]]; cbn in Hc |- *; [tauto| |lia]. intros a b [<-|[]] [<-|[]]. done. }
  destruct (newest_attempt _) as [a|] eqn:Hnew.
  - apply newest_in in Hnew. split.
    + intros b Hb Hlb Heb. assert (b = a) as -> by (apply Hone; [by apply Hl1|done]). split; [done|]. unfold l1, update_where. cbn. by rewrite length_map.
    + intros Hall. apply Hl1 in Hnew as (Hin & Hla & Hea). specialize (Hall a Hin Hla). lia.
  - apply newest_none in Hnew. destruct (existsb _ (attempts d)) eqn:Hex.
    { apply existsb_exists in Hex as (a & Ha & Hk). destruct (Hfresh a Ha). rewrite orb_true_iff, !String.eqb_eq in Hk. tauto. }
    split.
    + intros b Hb Hlb Heb. assert (Hc : In b (List.filter (live t) l1)) by (by apply Hl1). by rewrite Hnew in Hc.
    + intros _. split; [done|]. cbn [fst attempts set_attempts]. eexists. split; [apply in_or_app; right; left; reflexivity|]. cbn [at_id at_key at_expiresAt].
      split_and!; [done|done|unfold live; cbn; by rewrite String.eqb_refl|done|]. rewrite count_app, count_one. unfold count at 1. rewrite Hnew.
      unfold live. cbn. by rewrite String.eqb_refl.
Qed.

(** ** The normalized period *)

Lemma fold_bound (f : Z -> Z -> Z) (R : Z -> Z -> Prop) l x y :
  (forall a b, R a (f a b)) -> (forall a b, R b (f a b)) -> (forall a, R a a) -> (forall a b c, R a b -> R b c -> R a c) ->
  In y (x :: l) -> R y (fold_left f l x).
Proof.
  intros Hl Hr Hrefl Htr. assert (Hstart : forall l x, R x (fold_left f l x)).
  { induction l0 as [|z l0 IH]; intros w; [apply Hrefl|]. cbn. apply (Htr _ (f w z)); [apply Hl|apply IH]. }
  revert x. induction l as [|z l IH]; intros x Hin; [destruct Hin as [->|[]]; apply Hrefl|]. cbn. destruct Hin as [->|[->|Hin]].
  - apply (Htr _ (f y z)); [apply Hl|apply Hstart].
  - apply (Htr _ (f x y)); [apply Hr|apply Hstart].
  - apply IH. by right.
Qed.
Lemma positives_in l n : In n (positives l) <-> In (Some n) l /\ 0 < n.
Proof.
  unfold positives. rewrite <- !list_elem_of_In, list_elem_of_omap. split.
  - intros (o & Ho & Hx). destruct o as [m|]; [|done]. destruct (Z.ltb_spec 0 m); [|done]. injection Hx as ->. done.
  - intros [Ho Hn]. exists (Some n). split; [done|]. by destruct (Z.ltb_spec 0 n); [|lia].
Qed.
Lemma toDate_extremum f l y (R : Z -> Z -> Prop) :
  (forall a b, R a (f a b)) -> (forall a b, R b (f a b)) -> (forall a, R a a) -> (forall a b c, R a b -> R b c -> R a c) ->
  (forall a b, 0 < a -> 0 < b -> 0 < f a b) -> In (Some y) l -> 0 < y ->
  exists e, extremum f (positives l) = Some e /\ toDate (Some e) = Some (e * 1000) /\ R y e.
Proof.
  intros Hl Hr Hrefl Htr Hpos Hin Hy. assert (Hiny : In y (positives l)) by (by apply positives_in).
  assert (Hall : forall x, In x (positives l) -> 0 < x) by (intros x Hx; apply positives_in in Hx; tauto).
  destruct (positives l) as [|x r]; [done|]. exists (fold_left f r x). split; [done|]. split; [|by apply fold_bound].
  assert (H : 0 < fold_left f r x).
  { clear Hiny. revert x Hall. induction r as [|z r IH]; intros x Hall; [apply Hall; by left|]. cbn. apply IH. intros w [<-|Hw].
    - apply Hpos; apply Hall; [by left|by right; left].
    - apply Hall. by right; right. }
  unfold toDate. by destruct (Z.ltb_spec 0 (fold_left f r x)); [|lia].
Qed.

(** A paid period is never cut short by the normalization: whichever catalogue
    the price is in, the stored end is at or after the end of every item of the
    subscription, the stored start at or before every start. *)
Theorem normalized_period_covers (env : Env) (s : stripe_subscription) (invoice : option string) (i : StripeSubStateInput) (it : stripe_item) (n : Z) :
  normalizeAny env s invoice = Some i -> In it (ss_items s) -> 0 < n ->
  (it_end it = Some n -> exists pe, si_periodEnd i = Some pe /\ n * 1000 <= pe) /\
  (it_start it = Some n -> exists ps, si_periodStart i = Some ps /\ ps <= n * 1000).
Proof.
  intros Hi Hit Hn.
  assert (Hp : si_periodStart i = fst (subscriptionPeriod s) /\ si_periodEnd i = snd (subscriptionPeriod s)).
  { assert (Hw : forall m p, normalize_with m p s invoice = Some i ->
      si_periodStart i = fst (subscriptionPeriod s) /\ si_periodEnd i = snd (subscriptionPeriod s)).
    { intros [[plan iv]|] p; [|done]. unfold normalize_with. destruct (negb _); [done|]. by intros [= <-]. }
    unfold normalizeAny in Hi. destruct (normalizeSubscription env s invoice) eqn:H1; [injection Hi as ->; by apply Hw in H1|].
    destruct (familyBillingEnabled env); [by apply Hw in Hi|done]. }
  destruct Hp as [-> ->]. unfold subscriptionPeriod. cbn [fst snd]. split; intros He.
  - destruct (toDate_extremum Z.max (map it_end (ss_items s)) n Z.le) as (e & -> & -> & Hle); try (intros; lia); [|eexists; split; [reflexivity|lia]].
    rewrite <- He. by apply in_map.
  - destruct (toDate_extremum Z.min (map it_start (ss_items s)) n (fun a b => b <= a)) as (e & -> & -> & Hle); try (intros; lia); [|eexists; split; [reflexivity|lia]].
    rewrite <- He. by apply in_map.
Qed.

(** * Where the code and its documentation part *)

Definition tenant0 (kind plan status : string) (trial : option Z) : tenant_row := {|
  tn_id := "t1"; tn_plan := plan; tn_kind := kind; tn_access := "full_access"; tn_status := status; tn_trialStartsAt := None; tn_trialEndsAt := trial;
  tn_internal := false; tn_deletionState := "active"; tn_trialConsumedAt := None |}.
Definition sub0 (plan : string) : sub_row := {|
  sb_tenant := "t1"; sb_customer := "cus_1"; sb_subscriptionId := None; sb_priceId := None; sb_plan := plan; sb_interval := None;
  sb_status := "no_subscription"; sb_periodStart := None; sb_periodEnd := None; sb_cancelAtPeriodEnd := false; sb_canceledAt := None;
  sb_trialEndsAt := None; sb_invoiceStatus := None; sb_eventAt := None; sb_eventTerminal := false |}.
Definition billing0 (kind plan status : string) (trial : option Z) : billing_db :=
  {| tenants := [tenant0 kind plan status trial]; subs := [sub0 plan]; attempts := []; hooks := [] |}.
Definition event0 (id type plan status : string) (trialEnd periodEnd : option Z) (created : Z) : delivery := {|
  dl_event := id; dl_type := type; dl_created := created;
  dl_input := Some {| si_customer := "cus_1"; si_subscriptionId := Some "sub_1"; si_priceId := Some "price_1"; si_plan := plan; si_interval := Some "monthly";
    si_status := status; si_periodStart := None; si_periodEnd := periodEnd; si_cancelAtPeriodEnd := None; si_canceledAt := None;
    si_trialEndsAt := trialEnd; si_invoiceStatus := None |} |}.

(** A Stripe trial grants access when the webhook writes it, and is refused when it is
    read: the reader takes the end of the trial from the tenant, which the webhook
    never sets. *)
Example trialing_subscription_is_restricted :
  let '(d, r) := recordAndApplyStripeEvent true (event0 "ev1" "customer.subscription.created" "starter" "trialing" (Some 9000) None 5) 6000
                   (billing0 "business" "free_trial" "no_subscription" None) in
  r = wo_processed "t1" full_access /\ option_map tn_access (find_tenant "t1" d) = Some "full_access" /\
  getTenantOperationGate "t1" 6001 d = Some gate_billing_restricted.
Proof. repeat split. Qed.

(** A family whose subscription ended keeps full access on its free plan, and is told
    by the operation gate that billing restricts it. *)
Example family_gate_restricted :
  let '(d, r) := recordAndApplyStripeEvent true (event0 "ev1" "customer.subscription.deleted" "family_plus" "canceled" None (Some 4000) 5) 6000
                   (billing0 "family" "family_plus" "active" None) in
  option_map (fun t => (tn_plan t, tn_access t)) (find_tenant "t1" d) = Some ("family_free", "full_access") /\
  getTenantOperationGate "t1" 6001 d = Some gate_billing_restricted.
Proof. repeat split. Qed.

(** The write of the family sweep does not repeat the subscription clause of its read:
    a conversion to a Stripe trial between the two is overwritten. *)
Example family_sweep_overwrites_conversion :
  let d0 := billing0 "family" "family_plus" "trialing" (Some 4000) in
  let d1 := fst (recordAndApplyStripeEvent true (event0 "ev1" "customer.subscription.created" "family_premium" "trialing" (Some 9000) None 5) 6000 d0) in
  let d2 := fst (sweepFamilyTrialExpirations_seeing d0 6000 500 d1) in
  option_map tn_plan (find_tenant "t1" d1) = Some "family_premium" /\ option_map sb_status (find_sub "t1" d1) = Some "trialing" /\
  option_map (fun t => (tn_plan t, tn_status t)) (find_tenant "t1" d2) = Some ("family_free", "no_subscription").
Proof. repeat split. Qed.

(** * Witnesses *)

Definition business0 : billing_db := billing0 "business" "free_trial" "no_subscription" (Some 9000).
Definition ev_active : delivery := event0 "ev1" "customer.subscription.created" "starter" "active" None (Some 90000) 5.
Definition ev_canceled : delivery := event0 "ev2" "customer.subscription.deleted" "starter" "canceled" None (Some 90000) 7.
Definition hooks0 : list op :=
  [BDeliver true business0 ev_canceled 6000; BPurge 10000 500 20; BDeliver true business0 ev_active 6001; BSweep business0 10000 500].

Lemma webhook_refines_rule_witness :
  exists s', find_sub "t1" (run hooks0 business0) = Some s' /\ sb_status s' = "canceled" /\ position s' = Some {| createdAt := 7000; terminal := true |}.
Proof.
  destruct (webhook_refines_rule hooks0 business0 "t1" (sub0 "free_trial") eq_refl) as (s' & Hs' & Hp & Hr).
  exists s'. split; [exact Hs'|]. split; [|exact Hp]. injection Hs' as <-. reflexivity.
Defined.

Lemma webhook_applies_once_witness :
  let d := run [BPurge 10000 500 20] (fst (recordAndApplyStripeEvent true ev_active 6000 business0)) in
  subs (fst (recordAndApplyStripeEvent true ev_active 8000 d)) = subs d.
Proof.
  set (d1 := fst (recordAndApplyStripeEvent true ev_active 6000 business0)). intros d.
  refine (proj1 (webhook_applies_once true true business0 d ev_active 6000 8000 business0 d1 (fst (recordAndApply_seeing true d ev_active 8000 d))
    "t1" full_access [BPurge 10000 500 20] (snd (recordAndApply_seeing true d ev_active 8000 d)) _ _ _ _)).
  - by apply (bool_decide_unpack _).
  - by vm_compute.
  - apply surjective_pairing.
  - by vm_compute.
Defined.

Definition family0 : billing_db := billing0 "family" "family_plus" "active" None.
Definition ev_unpaid : delivery := event0 "ev3" "customer.subscription.updated" "family_plus" "unpaid" None None 9.
Lemma families_stay_open_witness : families_open (run [BDeliver true family0 ev_unpaid 6000; BFamilySweep family0 7000 10] family0).
Proof.
  apply (families_stay_open [BDeliver true family0 ev_unpaid 6000; BFamilySweep family0 7000 10] family0).
  - by apply (bool_decide_unpack _).
  - intros o seen [<-|[<-|[]]] [= <-]; reflexivity.
  - intros r [<-|[]] _. by left.
Defined.

Lemma family_trial_once_witness :
  let d1 := fst (startFamilyTrial "t1" "family_premium" None true 5000 (billing0 "family" "family_free" "no_subscription" None)) in
  exists e, startFamilyTrial "t1" "family_plus" None true (10 ^ 12) (run [BFamilySweep d1 (10 ^ 11) 500] d1) = (run [BFamilySweep d1 (10 ^ 11) 500] d1, Throw e).
Proof.
  cbv zeta. eapply (family_trial_once "t1" "family_premium" None true 5000 (billing0 "family" "family_free" "no_subscription" None)). reflexivity.
Defined.

Lemma gate_agrees_with_entitlements_witness :
  providerSync (getTenantEntitlements "t1" 8000 business0) = true /\ tenantAllowsOperations "t1" 8000 business0 = true /\
  providerSync (getTenantEntitlements "t1" 9001 business0) = tenantAllowsOperations "t1" 9001 business0.
Proof.
  split; [reflexivity|]. split; [reflexivity|]. apply (gate_agrees_with_entitlements "t1" 9001 business0). discriminate.
Defined.

Definition reserve0 (plan : string) : ReserveCheckoutInput :=
  {| rc_tenant := "t1"; rc_user := Some "u1"; rc_plan := plan; rc_interval := "monthly"; rc_priceId := "price_1"; rc_creatingTtlMs := None |}.
Definition checkout0 : list op :=
  [BReserve (reserve0 "starter") 0 0 "a1" "k1"; BReserve (reserve0 "growth") 10 10 "a2" "k2"; BOpen "a1" "t1" "cs_1" (Some "https://pay") (Some 5000) 20;
   BReserve (reserve0 "growth") 5001 5001 "a3" "k3"].
Lemma one_live_empty d : attempts d = [] -> one_live d.
Proof. intros H t. rewrite H. discriminate. Qed.
Lemma checkout_one_live_witness : one_live (run checkout0 business0) /\ map at_id (attempts (run checkout0 business0)) = ["a1"; "a3"].
Proof. split; [apply (checkout_one_live checkout0 business0); by apply one_live_empty|reflexivity]. Defined.

Lemma reserve_exact_witness :
  snd (reserveCheckoutAttempt (reserve0 "starter") 5001 5001 "a3" "k3" (run (take 3 checkout0) business0)) = Ret (rv_reserved "a3" "checkout_attempt:k3" "price_1").
Proof.
  pose proof (reserve_exact (reserve0 "starter") 5001 5001 "a3" "k3" (run (take 3 checkout0) business0)) as H.
  destruct (reserveCheckoutAttempt (reserve0 "starter") 5001 5001 "a3" "k3" (run (take 3 checkout0) business0)) as [d' res].
  refine (proj1 (proj2 (H _ _) _)).
  - intros t. let l := eval vm_compute in (attempts (run (take 3 checkout0) business0)) in change (attempts (run (take 3 checkout0) business0)) with l.
    rewrite count_one. unfold live. cbn [at_tenant]. destruct (String.eqb _ t); reflexivity || discriminate.
  - intros a Ha. vm_compute in Ha. destruct Ha as [<-|[]]. split; discriminate.
  - intros a Ha _. vm_compute in Ha. destruct Ha as [<-|[]]. reflexivity.
Defined.

Definition prices0 : Env := fun k => if k =s "STRIPE_PRICE_STARTER_MONTHLY" then Some "price_s" else None.
Definition stripe0 : stripe_subscription := {|
  ss_id := "sub_1"; ss_customer := Some "cus_1"; ss_status := "active"; ss_cancelAtPeriodEnd := Some false; ss_canceledAt := None; ss_trialEnd := None;
  ss_items := [{| it_price := Some "price_s"; it_start := Some 10; it_end := Some 20 |}; {| it_price := None; it_start := None; it_end := Some 30 |}] |}.
Lemma normalized_period_covers_witness :
  obind (normalizeAny prices0 stripe0 None) si_periodEnd = Some 30000 /\
  match normalizeAny prices0 stripe0 None with Some i => exists pe, si_periodEnd i = Some pe /\ 20 * 1000 <= pe | None => False end.
Proof.
  split; [reflexivity|].
  exact (proj1 (normalized_period_covers prices0 stripe0 None _ {| it_price := Some "price_s"; it_start := Some 10; it_end := Some 20 |} 20 eq_refl
    (or_introl eq_refl) eq_refl) eq_refl).
Defined.
End BillingStore.
