(* ===== verification/UsageMeter.v ===== *)
(** Usage metering ([packages/db/src/usage-repo.ts]): the UTC billing month, the
    per-period counters, the event ledger, and the consume / reserve / finalize /
    release / recover transactions over one tenant's rows.

    [withTenantDb] runs each body as one database transaction on the rows of one
    tenant, so the state below is one tenant's tables. Under the read-committed
    isolation the transactions use, the ledger row a body reads first may be
    stale by the time it writes; each body therefore takes the row it read
    ([seen]) apart from the tables it writes, and the serial operation reads and
    writes the same tables. Row identifiers are drawn from a counter. *)

From S2P Require Import Prelude Billing Entitlements.
Open Scope string_scope.
Open Scope list_scope.
Open Scope Z_scope.
Open Scope tam_scope.

(** * UTC calendar months *)

Definition MS_PER_DAY : Z := 86400000.

(** Day number of January 1st of year [y]. *)
Definition day_from_year (y : Z) : Z :=
  365 * (y - 1970) + (y - 1969) / 4 - (y - 1901) / 100 + (y - 1601) / 400.

Definition is_leap (y : Z) : bool :=
  (y mod 4 =? 0) && (negb (y mod 100 =? 0) || (y mod 400 =? 0)).

(** Days of the year before month [m] (0 = January), and 12 for the whole year. *)
Definition days_before_month (leap : bool) (m : Z) : Z :=
  let l := if leap then 1 else 0 in
  match m with
  | 0 => 0 | 1 => 31 | 2 => 59 + l | 3 => 90 + l | 4 => 120 + l | 5 => 151 + l | 6 => 181 + l
  | 7 => 212 + l | 8 => 243 + l | 9 => 273 + l | 10 => 304 + l | 11 => 334 + l | _ => 365 + l
  end.

(** [getUTCFullYear]: an estimate from the mean year length, off by at most one. *)
Definition utc_year (now : Z) : Z :=
  let d := now / MS_PER_DAY in
  let est := 1970 + (d * 400) / 146097 in
  if d <? day_from_year est then est - 1
  else if day_from_year (est + 1) <=? d then est + 1 else est.

(** [getUTCMonth] *)
Definition utc_month (now : Z) : Z :=
  let y := utc_year now in
  let yd := now / MS_PER_DAY - day_from_year y in
  Z.of_nat (length (List.filter (fun m => days_before_month (is_leap y) (Z.of_nat m) <=? yd) (seq 1 11))).

(** [Date.UTC(y, m, 1)]; a month past December carries into the year. *)
Definition date_utc_first (y m : Z) : Z :=
  let y' := y + m / 12 in
  (day_from_year y' + days_before_month (is_leap y') (m mod 12)) * MS_PER_DAY.

(* src: packages/db/src/usage-repo.ts:19-22 currentPeriodBounds *)
Definition currentPeriodBounds (now : Z) : Z * Z :=
  let y := utc_year now in
  let m := utc_month now in
  (date_utc_first y m, date_utc_first y (m + 1)).

(** * Rows *)

Inductive UsageEventStatus := reserved | succeeded | failed | released | denied | cached.
Inductive ProcessingTier := tier_rules | tier_local | tier_paid.
Inductive UsageEventType :=
  | usage_limit_reached | usage_basic_consumed | usage_denied | usage_premium_reserved
  | usage_premium_released | usage_premium_finalized | usage_cache_hit.

#[export] Instance UsageEventStatus_eq_dec : EqDecision UsageEventStatus.
Proof. solve_decision. Defined.
#[export] Instance UsageEventType_eq_dec : EqDecision UsageEventType.
Proof. solve_decision. Defined.

Record UsagePeriod := {
  per_id : nat;
  periodStart : Z;
  periodEnd : Z;
  per_plan : string;
  basicUnitsUsed : Z;
  premiumCallsUsed : Z;
  premiumCostMicros : Z
}.

Record UsageEvent := {
  ev_id : nat;
  usagePeriodId : nat;
  eventType : UsageEventType;
  processingTier : ProcessingTier;
  units : Z;
  reservedCostMicros : Z;
  ev_actualCostMicros : option Z;
  idempotencyKey : string;
  ev_status : UsageEventStatus;
  ev_reason : option string;
  ev_createdAt : Z
}.

(** Audit entries carry the event name and the bounded reason only. *)
Record AuditEntry := { au_event : UsageEventType; au_reason : option string }.

Record UsageDb := {
  periods : list UsagePeriod;
  events : list UsageEvent;
  audit : list AuditEntry;
  next_id : nat
}.

Definition empty_db : UsageDb := {| periods := []; events := []; audit := []; next_id := 0 |}.

(** * Statements *)

Definition find_event_key (k : string) (db : UsageDb) : option UsageEvent :=
  List.find (fun e => idempotencyKey e =s k) (events db).
Definition find_event_id (i : nat) (db : UsageDb) : option UsageEvent :=
  List.find (fun e => (ev_id e =? i)%nat) (events db).
Definition find_period_id (i : nat) (db : UsageDb) : option UsagePeriod :=
  List.find (fun p => (per_id p =? i)%nat) (periods db).

(** [UPDATE usage_periods SET ... WHERE id = i] *)
Definition update_period (i : nat) (f : UsagePeriod -> UsagePeriod) (db : UsageDb) : UsageDb := {|
  periods := map (fun p => if (per_id p =? i)%nat then f p else p) (periods db);
  events := events db; audit := audit db; next_id := next_id db |}.

(** [usageEvent.update({ where: { id: i }, ... })] *)
Definition update_event (i : nat) (f : UsageEvent -> UsageEvent) (db : UsageDb) : UsageDb := {|
  periods := periods db;
  events := map (fun e => if (ev_id e =? i)%nat then f e else e) (events db);
  audit := audit db; next_id := next_id db |}.

(* src: packages/db/src/usage-repo.ts:34-36 usageAudit *)
Definition usageAudit (ev : UsageEventType) (reason : option string) (db : UsageDb) : UsageDb := {|
  periods := periods db; events := events db;
  audit := audit db ++ [{| au_event := ev; au_reason := reason |}]; next_id := next_id db |}.

(** [usageEvent.create]: the unique index on the idempotency key refuses a
    duplicate, which aborts the transaction (Prisma's P2002). *)
Definition create_event (mk : nat -> UsageEvent) (db : UsageDb) : option (UsageEvent * UsageDb) :=
  let ev := mk (next_id db) in
  match find_event_key (idempotencyKey ev) db with
  | Some _ => None
  | None => Some (ev, {| periods := periods db; events := events db ++ [ev];
                         audit := audit db; next_id := S (next_id db) |})
  end.

Definition addBasic (n : Z) (p : UsagePeriod) : UsagePeriod := {|
  per_id := per_id p; periodStart := periodStart p; periodEnd := periodEnd p; per_plan := per_plan p;
  basicUnitsUsed := basicUnitsUsed p + n; premiumCallsUsed := premiumCallsUsed p;
  premiumCostMicros := premiumCostMicros p |}.

(** Set the two premium counters. *)
Definition setPremium (calls cost : Z) (p : UsagePeriod) : UsagePeriod := {|
  per_id := per_id p; periodStart := periodStart p; periodEnd := periodEnd p; per_plan := per_plan p;
  basicUnitsUsed := basicUnitsUsed p; premiumCallsUsed := calls; premiumCostMicros := cost |}.

Definition reservePeriod (est : Z) (p : UsagePeriod) : UsagePeriod :=
  setPremium (premiumCallsUsed p + 1) (premiumCostMicros p + est) p.

(** [GREATEST(x, 0)] on both counters. *)
(* src: packages/db/src/usage-repo.ts:173-176 finalizePremiumCall *)
Definition refundPeriod (est : Z) (p : UsagePeriod) : UsagePeriod :=
  setPremium (Z.max (premiumCallsUsed p - 1) 0) (Z.max (premiumCostMicros p - est) 0) p.

(* src: packages/db/src/usage-repo.ts:184-187 finalizePremiumCall *)
Definition adjustPeriod (delta : Z) (p : UsagePeriod) : UsagePeriod :=
  setPremium (premiumCallsUsed p) (Z.max (premiumCostMicros p + delta) 0) p.

(** [limit === null || x <= limit] *)
Definition under (limit : option Z) (x : Z) : bool :=
  match limit with None => true | Some n => x <=? n end.

(** * Transactions *)

(** [INSERT ... ON CONFLICT ("tenantId","periodStart") DO NOTHING], then read. *)
(* src: packages/db/src/usage-repo.ts:44-53 getOrCreateCurrentPeriod *)
Definition getOrCreateCurrentPeriod (plan : string) (now : Z) (db : UsageDb) : UsagePeriod * UsageDb :=
  let '(ps, pe) := currentPeriodBounds now in
  match List.find (fun p => periodStart p =? ps) (periods db) with
  | Some p => (p, db)
  | None =>
      let p := {| per_id := next_id db; periodStart := ps; periodEnd := pe; per_plan := plan;
                  basicUnitsUsed := 0; premiumCallsUsed := 0; premiumCostMicros := 0 |} in
      (p, {| periods := periods db ++ [p]; events := events db; audit := audit db; next_id := S (next_id db) |})
  end.

(* src: packages/db/src/usage-repo.ts:56-56 BasicResult *)
Record BasicResult := {
  br_consumed : bool; br_reused : bool; br_denied : bool; br_reason : option string; br_eventId : nat
}.

(* src: packages/db/src/usage-repo.ts:98-101 ReserveArgs *)
Record ReserveArgs := {
  ra_estMicros : Z; ra_idempotencyKey : string; ra_internalAccess : bool
}.

(* src: packages/db/src/usage-repo.ts:94-96 ReserveResult *)
Inductive ReserveResult :=
  | reserve_ok (eventId periodId : nat) (reused : bool) (reservedMicros : Z)
  | reserve_denied (reason : string) (eventId : nat).

(** The transaction body of [consumeBasicUnit]; [None] is an aborted transaction. *)
(* src: packages/db/src/usage-repo.ts:71-90 consumeBasicUnit *)
Definition consumeTx (policy : UsagePolicy) (period : UsagePeriod) (key : string) (tier : ProcessingTier) (now : Z)
    (seen : option UsageEvent) (db : UsageDb) : option (BasicResult * UsageDb) :=
  match seen with
  | Some existing =>
      Some ({| br_consumed := false; br_reused := true; br_denied := false; br_reason := None;
               br_eventId := ev_id existing |}, db)
  | None =>
      let updated := match find_period_id (per_id period) db with
                     | Some p => under (basicUnitsPerPeriod policy) (basicUnitsUsed p + 1)
                     | None => false end in
      let mk ty u st r i := {| ev_id := i; usagePeriodId := per_id period; eventType := ty; processingTier := tier;
        units := u; reservedCostMicros := 0; ev_actualCostMicros := None; idempotencyKey := key;
        ev_status := st; ev_reason := r; ev_createdAt := now |} in
      if updated then
        let db1 := update_period (per_id period) (addBasic 1) db in
        match create_event (mk usage_basic_consumed 1 succeeded None) db1 with
        | None => None
        | Some (ev, db2) =>
            Some ({| br_consumed := true; br_reused := false; br_denied := false; br_reason := None;
                     br_eventId := ev_id ev |}, usageAudit usage_basic_consumed None db2)
        end
      else
        match create_event (mk usage_limit_reached 0 denied (Some "basic_limit_reached")) db with
        | None => None
        | Some (ev, db2) =>
            Some ({| br_consumed := false; br_reused := false; br_denied := true;
                     br_reason := Some "basic_limit_reached"; br_eventId := ev_id ev |},
                  usageAudit usage_limit_reached (Some "basic_limit_reached") db2)
        end
  end.

(* src: packages/db/src/usage-repo.ts:64-91 consumeBasicUnit *)
Definition consumeBasicUnit (plan key : string) (tier : ProcessingTier) (internal : bool) (now : Z) (db : UsageDb)
    : option (BasicResult * UsageDb) :=
  let policy := resolveEffectiveUsagePolicy (Some plan) None internal in
  let '(period, db1) := getOrCreateCurrentPeriod plan now db in
  consumeTx policy period key tier now (find_event_key key db1) db1.

(** What an existing ledger row answers to a repeated reservation. *)
(* src: packages/db/src/usage-repo.ts:107-110 reserveOnce *)
Definition reuseResult (fallback : string) (existing : UsageEvent) : ReserveResult :=
  match ev_status existing with
  | reserved | succeeded => reserve_ok (ev_id existing) (usagePeriodId existing) true (reservedCostMicros existing)
  | _ => reserve_denied (ev_reason existing ?? fallback) (ev_id existing)
  end.

(** The transaction body of [reserveOnce]; [None] is the aborted transaction. *)
(* src: packages/db/src/usage-repo.ts:105-132 reserveOnce *)
Definition reserveTx (policy : UsagePolicy) (period : UsagePeriod) (args : ReserveArgs) (now : Z)
    (seen : option UsageEvent) (db : UsageDb) : option (ReserveResult * UsageDb) :=
  match seen with
  | Some existing => Some (reuseResult "already_finalized" existing, db)
  | None =>
      let callLimit := premiumCallsPerPeriod policy in
      let costLimit := premiumCostLimitMicros policy in
      let calls := option_map premiumCallsUsed (find_period_id (per_id period) db) ?? 0 in
      let updated := match find_period_id (per_id period) db with
                     | Some p => under callLimit (premiumCallsUsed p + 1)
                                 && under costLimit (premiumCostMicros p + ra_estMicros args)
                     | None => false end in
      let mk ty res st r i := {| ev_id := i; usagePeriodId := per_id period; eventType := ty;
        processingTier := tier_paid; units := 0; reservedCostMicros := res; ev_actualCostMicros := None;
        idempotencyKey := ra_idempotencyKey args; ev_status := st; ev_reason := r; ev_createdAt := now |} in
      if updated then
        let db1 := update_period (per_id period) (reservePeriod (ra_estMicros args)) db in
        match create_event (mk usage_premium_reserved (ra_estMicros args) reserved None) db1 with
        | None => None
        | Some (ev, db2) => Some (reserve_ok (ev_id ev) (per_id period) false (ra_estMicros args),
                                  usageAudit usage_premium_reserved None db2)
        end
      else
        let reason := if negb (under callLimit (calls + 1)) then "premium_call_limit_reached"
                      else "premium_cost_limit_reached" in
        match create_event (mk usage_denied 0 denied (Some reason)) db with
        | None => None
        | Some (ev, db2) => Some (reserve_denied reason (ev_id ev), usageAudit usage_denied (Some reason) db2)
        end
  end.

(** [reservePremiumCall], with the ledger row the transaction read given apart:
    an aborted transaction is rolled back and the committed row answers. *)
(* src: packages/db/src/usage-repo.ts:140-154 reservePremiumCall *)
Definition reserve_seeing (seen : UsageDb -> option UsageEvent) (plan : string) (args : ReserveArgs) (now : Z)
    (db : UsageDb) : option (ReserveResult * UsageDb) :=
  let policy := resolveEffectiveUsagePolicy (Some plan) None (ra_internalAccess args) in
  let '(period, db1) := getOrCreateCurrentPeriod (js_name (pol_plan policy)) now db in
  match reserveTx policy period args now (seen db1) db1 with
  | Some r => Some r
  | None => option_map (fun ev => (reuseResult "denied" ev, db1)) (find_event_key (ra_idempotencyKey args) db1)
  end.

(** The serial operation reads the current row. *)
(* src: packages/db/src/usage-repo.ts:103-154 reservePremiumCall *)
Definition reservePremiumCall (plan : string) (args : ReserveArgs) (now : Z) (db : UsageDb)
    : option (ReserveResult * UsageDb) :=
  reserve_seeing (find_event_key (ra_idempotencyKey args)) plan args now db.

Definition setOutcome (st : UsageEventStatus) (ty : UsageEventType) (u : Z) (actual : Z) (e : UsageEvent) : UsageEvent := {|
  ev_id := ev_id e; usagePeriodId := usagePeriodId e; eventType := ty; processingTier := processingTier e;
  units := u; reservedCostMicros := reservedCostMicros e; ev_actualCostMicros := Some actual;
  idempotencyKey := idempotencyKey e; ev_status := st; ev_reason := ev_reason e; ev_createdAt := ev_createdAt e |}.

Definition setReason (r : string) (e : UsageEvent) : UsageEvent := {|
  ev_id := ev_id e; usagePeriodId := usagePeriodId e; eventType := eventType e; processingTier := processingTier e;
  units := units e; reservedCostMicros := reservedCostMicros e; ev_actualCostMicros := ev_actualCostMicros e;
  idempotencyKey := idempotencyKey e; ev_status := ev_status e; ev_reason := Some r; ev_createdAt := ev_createdAt e |}.

(** The provider outcome; [oc_succeeded] is [status === "succeeded"]. *)
(* src: packages/db/src/usage-repo.ts:164-164 finalizePremiumCall *)
Record CallOutcome := { oc_succeeded : bool; oc_actual : option Z; oc_billed : option bool }.

Inductive FinalizeResult := fin_ok | fin_not_found.

(* src: packages/db/src/usage-repo.ts:166-195 finalizePremiumCall *)
Definition finalizeTx (eventId : nat) (outcome : CallOutcome) (seen : option UsageEvent) (db : UsageDb)
    : FinalizeResult * UsageDb :=
  match seen with
  | None => (fin_not_found, db)
  | Some ev =>
      if negb (bool_decide (ev_status ev = reserved)) then (fin_ok, db)
      else if negb (oc_succeeded outcome) && negb (oc_billed outcome ?? false) then
        let db1 := update_period (usagePeriodId ev) (refundPeriod (reservedCostMicros ev)) db in
        let db2 := update_event eventId (setOutcome released usage_premium_released (units ev) 0) db1 in
        (fin_ok, usageAudit usage_premium_released None db2)
      else
        let actual := oc_actual outcome ?? reservedCostMicros ev in
        let delta := actual - reservedCostMicros ev in
        let db1 := if delta =? 0 then db else update_period (usagePeriodId ev) (adjustPeriod delta) db in
        let st := if oc_succeeded outcome then succeeded else failed in
        let db2 := update_event eventId (setOutcome st usage_premium_finalized 1 actual) db1 in
        (fin_ok, usageAudit usage_premium_finalized None db2)
  end.

(* src: packages/db/src/usage-repo.ts:162-196 finalizePremiumCall *)
Definition finalizePremiumCall (eventId : nat) (outcome : CallOutcome) (db : UsageDb) : FinalizeResult * UsageDb :=
  finalizeTx eventId outcome (find_event_id eventId db) db.

(* src: packages/db/src/usage-repo.ts:199-204 releaseReservation *)
Definition releaseReservation (eventId : nat) (reason : string) (db : UsageDb) : bool * UsageDb :=
  match finalizePremiumCall eventId {| oc_succeeded := false; oc_actual := None; oc_billed := Some false |} db with
  | (fin_ok, db1) => (true, update_event eventId (setReason reason) db1)
  | (fin_not_found, db1) => (false, db1)
  end.

(** One iteration of the recovery loop. *)
(* src: packages/db/src/usage-repo.ts:211-218 recoverStaleReservations *)
Definition recoverOne (db : UsageDb) (s : UsageEvent) : UsageDb :=
  let db1 := update_period (usagePeriodId s) (refundPeriod (reservedCostMicros s)) db in
  let db2 := update_event (ev_id s)
    (fun e => setReason "stale_reservation_recovered" (setOutcome released usage_premium_released (units e) 0 e)) db1 in
  usageAudit usage_premium_released (Some "stale_reservation_recovered") db2.

(* src: packages/db/src/usage-repo.ts:207-221 recoverStaleReservations *)
Definition recoverStaleReservations (olderThanMs now : Z) (db : UsageDb) : nat * UsageDb :=
  let cutoff := now - olderThanMs in
  let stale := List.filter (fun e => bool_decide (ev_status e = reserved) && (ev_createdAt e <? cutoff)) (events db) in
  (length stale, fold_left recoverOne stale db).

(** The transaction body of [recordCacheHit]. *)
(* src: packages/db/src/usage-repo.ts:236-242 recordCacheHit *)
Definition cacheTx (period : UsagePeriod) (key : string) (now : Z) (seen : option UsageEvent) (db : UsageDb) : option UsageDb :=
  match seen with
  | Some _ => Some db
  | None =>
      match create_event (fun i => {| ev_id := i; usagePeriodId := per_id period; eventType := usage_cache_hit;
              processingTier := tier_rules; units := 0; reservedCostMicros := 0; ev_actualCostMicros := None;
              idempotencyKey := key; ev_status := cached; ev_reason := None; ev_createdAt := now |}) db with
      | None => None
      | Some (_, db2) => Some (usageAudit usage_cache_hit None db2)
      end
  end.
(* src: packages/db/src/usage-repo.ts:234-243 recordCacheHit *)
Definition recordCacheHit (key plan : string) (now : Z) (db : UsageDb) : option UsageDb :=
  let '(period, db1) := getOrCreateCurrentPeriod plan now db in
  cacheTx period key now (find_event_key key db1) db1.

(** * The billing month *)

Lemma div_succ x n k : 0 < n ->
  (x + k * n + 1) / n = (x + k * n) / n + (if (x + 1) mod n =? 0 then 1 else 0).
Proof.
  intros Hn. replace (x + k * n + 1) with ((x + 1) + k * n) by lia.
  rewrite !Z.div_add by lia.
  pose proof (Z.div_mod x n ltac:(lia)). pose proof (Z.mod_pos_bound x n ltac:(lia)).
  destruct (Z.eqb_spec ((x + 1) mod n) 0) as [Hz|Hz];
    pose proof (Z.div_mod (x + 1) n ltac:(lia)); pose proof (Z.mod_pos_bound (x + 1) n ltac:(lia)); nia.
Qed.

Lemma day_from_year_step y : day_from_year (y + 1) = day_from_year y + 365 + (if is_leap y then 1 else 0).
Proof.
  unfold day_from_year, is_leap.
  replace (y + 1 - 1969) with ((y - 1) + (-492) * 4 + 1) by lia.
  replace (y + 1 - 1901) with ((y - 1) + (-19) * 100 + 1) by lia.
  replace (y + 1 - 1601) with ((y - 1) + (-4) * 400 + 1) by lia.
  rewrite !div_succ by lia. replace (y - 1 + 1) with y by lia.
  replace (y - 1 + -492 * 4) with (y - 1969) by lia.
  replace (y - 1 + -19 * 100) with (y - 1901) by lia.
  replace (y - 1 + -4 * 400) with (y - 1601) by lia.
  destruct (Z.eqb_spec (y mod 4) 0) as [H4|H4], (Z.eqb_spec (y mod 100) 0) as [H100|H100],
    (Z.eqb_spec (y mod 400) 0) as [H400|H400]; cbn [andb orb negb]; try lia;
    exfalso; Z.div_mod_to_equations; lia.
Qed.

Lemma utc_year_bracket now :
  day_from_year (utc_year now) <= now / MS_PER_DAY < day_from_year (utc_year now + 1).
Proof.
  unfold utc_year. generalize (now / MS_PER_DAY) as d. intros d. cbv zeta.
  set (est := 1970 + d * 400 / 146097).
  assert (Hlo : day_from_year (est - 1) <= d) by (unfold est, day_from_year; Z.div_mod_to_equations; lia).
  assert (Hhi : d < day_from_year (est + 1 + 1)) by (unfold est, day_from_year; Z.div_mod_to_equations; lia).
  clearbody est.
  destruct (Z.ltb_spec d (day_from_year est)); [replace (est - 1 + 1) with est by lia; lia|].
  destruct (Z.leb_spec (day_from_year (est + 1)) d); lia.
Qed.

Lemma days_before_month_12 leap : days_before_month leap 12 = 365 + (if leap then 1 else 0).
Proof. reflexivity. Qed.

(** The months whose start lies within the first [yd] days, as [utc_month] counts them. *)
Definition month_of_day (leap : bool) (yd : Z) : Z :=
  Z.of_nat (length (List.filter (fun m => days_before_month leap (Z.of_nat m) <=? yd) (seq 1 11))).

Lemma days_before_month_step leap j : (j < 12)%nat ->
  28 <= days_before_month leap (Z.of_nat (S j)) - days_before_month leap (Z.of_nat j) <= 31.
Proof.
  intros Hj. do 12 (destruct j as [|j]; [destruct leap; split; apply Z.leb_le; reflexivity|]). lia.
Qed.

Lemma days_before_month_mono leap i j : (i <= j <= 12)%nat ->
  days_before_month leap (Z.of_nat i) <= days_before_month leap (Z.of_nat j).
Proof.
  intros [Hij Hj]. induction Hij as [|j Hij IH]; [lia|].
  pose proof (days_before_month_step leap j ltac:(lia)). specialize (IH ltac:(lia)). lia.
Qed.

Lemma month_of_day_bracket leap yd :
  0 <= yd < days_before_month leap 12 ->
  0 <= month_of_day leap yd <= 11 /\
  days_before_month leap (month_of_day leap yd) <= yd < days_before_month leap (month_of_day leap yd + 1).
Proof.
  intros Hy.
  assert (Hstep : forall n, (n <= 12)%nat -> yd < days_before_month leap (Z.of_nat n) ->
    exists j, (j < 12)%nat /\ days_before_month leap (Z.of_nat j) <= yd < days_before_month leap (Z.of_nat (S j))).
  { induction n as [|n IH]; intros Hn Hlt; [simpl in Hlt; lia|].
    destruct (Z.lt_ge_cases yd (days_before_month leap (Z.of_nat n))); [apply IH; [lia|done]|].
    exists n. lia. }
  destruct (Hstep 12%nat) as (j & Hj & Hb); [lia|change (Z.of_nat 12) with 12; lia|].
  assert (Hm : month_of_day leap yd = Z.of_nat j).
  { unfold month_of_day. replace 11%nat with (j + (11 - j))%nat by lia. rewrite seq_app, List.filter_app, length_app.
    rewrite filter_all, (proj2 (filter_nil_iff _ _)), length_seq; simpl; try lia; intros m Hm%in_seq.
    - pose proof (days_before_month_mono leap (S j) m ltac:(lia)). lia.
    - pose proof (days_before_month_mono leap m j ltac:(lia)). lia. }
  rewrite Hm. replace (Z.of_nat j + 1) with (Z.of_nat (S j)) by lia. lia.
Qed.

Lemma utc_month_bracket now :
  let y := utc_year now in
  0 <= utc_month now <= 11 /\
  days_before_month (is_leap y) (utc_month now) <= now / MS_PER_DAY - day_from_year y
    < days_before_month (is_leap y) (utc_month now + 1).
Proof.
  cbv zeta. apply month_of_day_bracket. rewrite days_before_month_12.
  pose proof (utc_year_bracket now) as Hb. rewrite day_from_year_step in Hb. lia.
Qed.

Lemma date_utc_first_in_year y m : 0 <= m <= 12 ->
  date_utc_first y m = (day_from_year y + days_before_month (is_leap y) m) * MS_PER_DAY.
Proof.
  intros Hm. unfold date_utc_first. destruct (decide (m = 12)) as [->|Hne].
  - change (12 / 12) with 1. change (12 mod 12) with 0. cbv zeta. rewrite day_from_year_step.
    rewrite days_before_month_12. cbn [days_before_month]. lia.
  - rewrite Z.div_small, Z.mod_small by lia. cbv zeta. by rewrite Z.add_0_r.
Qed.

Lemma month_length leap m : 0 <= m <= 11 ->
  28 <= days_before_month leap (m + 1) - days_before_month leap m <= 31.
Proof.
  intros H. pose proof (days_before_month_step leap (Z.to_nat m) ltac:(lia)) as Hs.
  replace (Z.of_nat (S (Z.to_nat m))) with (m + 1) in Hs by lia. by rewrite Z2Nat.id in Hs by lia.
Qed.

(** The billing period of an instant is the calendar month that contains it:
    it starts at or before the instant, ends strictly after it, and is 28 to 31
    days long. *)
Theorem currentPeriodBounds_contains (now : Z) :
  let '(ps, pe) := currentPeriodBounds now in
  ps <= now < pe /\ 28 * MS_PER_DAY <= pe - ps <= 31 * MS_PER_DAY.
Proof.
  unfold currentPeriodBounds.
  pose proof (utc_month_bracket now) as [Hm Hb]. cbv zeta in *.
  pose proof (month_length (is_leap (utc_year now)) _ Hm) as Hl.
  rewrite !date_utc_first_in_year by lia. unfold MS_PER_DAY in *.
  pose proof (Z.div_mod now 86400000 ltac:(lia)).
  pose proof (Z.mod_pos_bound now 86400000 ltac:(lia)). lia.
Qed.

(** * The ledger and the counters *)

(** What one ledger row contributes to each counter of its period. *)
Definition calls_of (e : UsageEvent) : Z :=
  match ev_status e, eventType e with
  | reserved, _ | _, usage_premium_finalized => 1
  | _, _ => 0
  end.

Definition cost_of (e : UsageEvent) : Z :=
  match ev_status e, eventType e with
  | reserved, _ => reservedCostMicros e
  | _, usage_premium_finalized => ev_actualCostMicros e ?? 0
  | _, _ => 0
  end.

Definition basic_of (e : UsageEvent) : Z :=
  match eventType e with usage_basic_consumed => units e | _ => 0 end.

(** The sum of [w] over the ledger rows of period [i]. *)
Fixpoint total (w : UsageEvent -> Z) (i : nat) (l : list UsageEvent) : Z :=
  match l with
  | [] => 0
  | e :: r => (if (usagePeriodId e =? i)%nat then w e else 0) + total w i r
  end.

(** Keys, identifiers and charges are sane, and every counter of every period is
    the sum of its ledger rows. *)
Record Books (db : UsageDb) : Prop := {
  bk_event_ids : NoDup (map ev_id (events db));
  bk_keys : NoDup (map idempotencyKey (events db));
  bk_period_ids : NoDup (map per_id (periods db));
  bk_starts : NoDup (map periodStart (periods db));
  bk_fresh : (forall e, e ∈ events db -> (ev_id e < next_id db)%nat /\ (usagePeriodId e < next_id db)%nat) /\
             (forall p, p ∈ periods db -> (per_id p < next_id db)%nat);
  bk_charges : forall e, e ∈ events db -> 0 <= cost_of e /\ 0 <= basic_of e;
  bk_reserved : forall e, e ∈ events db -> ev_status e = reserved -> eventType e = usage_premium_reserved;
  bk_balance : forall p, p ∈ periods db ->
    basicUnitsUsed p = total basic_of (per_id p) (events db) /\
    premiumCallsUsed p = total calls_of (per_id p) (events db) /\
    premiumCostMicros p = total cost_of (per_id p) (events db)
}.

Lemma calls_of_nonneg e : 0 <= calls_of e.
Proof. unfold calls_of. destruct (ev_status e), (eventType e); lia. Qed.

Lemma total_app w i l1 l2 : total w i (l1 ++ l2) = total w i l1 + total w i l2.
Proof. induction l1 as [|e l1 IH]; simpl; lia. Qed.

Lemma total_nonneg w i l : (forall e, e ∈ l -> 0 <= w e) -> 0 <= total w i l.
Proof.
  induction l as [|e l IH]; simpl; intros H; [lia|].
  assert (0 <= w e) by (apply H; left). assert (0 <= total w i l) by (apply IH; intros; apply H; by right).
  destruct (_ =? _)%nat; lia.
Qed.

Lemma total_ge w i l e : (forall e, e ∈ l -> 0 <= w e) -> e ∈ l -> usagePeriodId e = i -> w e <= total w i l.
Proof.
  induction l as [|x l IH]; simpl; intros H He Hi; [by apply not_elem_of_nil in He|].
  assert (0 <= w x) by (apply H; left).
  assert (0 <= total w i l) by (apply total_nonneg; intros; apply H; by right).
  apply elem_of_cons in He as [->|He].
  - rewrite Hi, Nat.eqb_refl. lia.
  - assert (w e <= total w i l) by (apply IH; auto; intros; apply H; by right).
    destruct (_ =? _)%nat; lia.
Qed.

Lemma total_out_of_period w i l : (forall e, e ∈ l -> usagePeriodId e <> i) -> total w i l = 0.
Proof.
  induction l as [|e l IH]; simpl; intros H; [done|].
  rewrite (proj2 (Nat.eqb_neq _ _)) by (apply H; left). rewrite IH; [lia|]. intros; apply H; by right.
Qed.

Definition update_in (i : nat) (f : UsageEvent -> UsageEvent) (l : list UsageEvent) : list UsageEvent :=
  map (fun e => if (ev_id e =? i)%nat then f e else e) l.

Lemma update_in_absent i f l : i ∉ map ev_id l -> update_in i f l = l.
Proof.
  induction l as [|e l IH]; simpl; intros H; [done|].
  apply not_elem_of_cons in H as [Hne H]. rewrite (proj2 (Nat.eqb_neq _ _)) by congruence. by rewrite IH.
Qed.

(** Updating one row moves a total by the change of that row. *)
Lemma total_update w i f l e : NoDup (map ev_id l) -> e ∈ l -> usagePeriodId (f e) = usagePeriodId e ->
  total w i (update_in (ev_id e) f l) =
  total w i l + (if (usagePeriodId e =? i)%nat then w (f e) - w e else 0).
Proof.
  induction l as [|x l IH]; simpl; intros Hnd He Hf; [by apply not_elem_of_nil in He|].
  apply NoDup_cons in Hnd as [Hx Hnd]. apply elem_of_cons in He as [->|He].
  - rewrite Nat.eqb_refl, Hf. fold (update_in (ev_id x) f l). rewrite update_in_absent by done.
    destruct (_ =? _)%nat; lia.
  - rewrite (proj2 (Nat.eqb_neq (ev_id x) (ev_id e))).
    + fold (update_in (ev_id e) f l). rewrite IH by done. lia.
    + intros Heq. apply Hx. rewrite Heq. apply list_elem_of_In, in_map, list_elem_of_In, He.
Qed.

Lemma map_update_in {B} (g : UsageEvent -> B) i f l : (forall e, g (f e) = g e) ->
  map g (update_in i f l) = map g l.
Proof.
  intros Hg. unfold update_in. rewrite map_map. apply map_ext. intros e.
  by destruct (_ =? _)%nat.
Qed.

Lemma elem_of_update_in i f l e : e ∈ update_in i f l -> (e ∈ l /\ ev_id e <> i) \/ exists x, x ∈ l /\ ev_id x = i /\ e = f x.
Proof.
  unfold update_in. rewrite list_elem_of_In, in_map_iff. intros (x & Hx & Hin).
  apply list_elem_of_In in Hin. destruct (Nat.eqb_spec (ev_id x) i); subst; eauto.
Qed.

Definition update_per (i : nat) (f : UsagePeriod -> UsagePeriod) (l : list UsagePeriod) : list UsagePeriod :=
  map (fun p => if (per_id p =? i)%nat then f p else p) l.

Lemma map_update_per {B} (g : UsagePeriod -> B) i f l : (forall p, g (f p) = g p) ->
  map g (update_per i f l) = map g l.
Proof.
  intros Hg. unfold update_per. rewrite map_map. apply map_ext. intros e.
  by destruct (_ =? _)%nat.
Qed.

Lemma elem_of_update_per i f l p : p ∈ update_per i f l ->
  (p ∈ l /\ per_id p <> i) \/ exists q, q ∈ l /\ per_id q = i /\ p = f q.
Proof.
  unfold update_per. rewrite list_elem_of_In, in_map_iff. intros (x & Hx & Hin).
  apply list_elem_of_In in Hin. destruct (Nat.eqb_spec (per_id x) i); subst; eauto.
Qed.

(** A period update that leaves identity alone. *)
Definition period_frame (g : UsagePeriod -> UsagePeriod) : Prop :=
  forall p, per_id (g p) = per_id p /\ periodStart (g p) = periodStart p.

Lemma setPremium_frame f h : period_frame (fun p => setPremium (f p) (h p) p).
Proof. done. Qed.

(** Settling one ledger row: its period's counters move with it. *)
Lemma settle_books db e f g :
  Books db -> e ∈ events db ->
  (forall x, ev_id (f x) = ev_id x /\ idempotencyKey (f x) = idempotencyKey x /\ usagePeriodId (f x) = usagePeriodId x) ->
  basic_of (f e) = basic_of e -> 0 <= cost_of (f e) -> ev_status (f e) <> reserved ->
  period_frame g ->
  (forall p, p ∈ periods db -> per_id p = usagePeriodId e ->
     calls_of e <= premiumCallsUsed p -> cost_of e <= premiumCostMicros p ->
     basicUnitsUsed (g p) = basicUnitsUsed p /\
     premiumCallsUsed (g p) = premiumCallsUsed p + (calls_of (f e) - calls_of e) /\
     premiumCostMicros (g p) = premiumCostMicros p + (cost_of (f e) - cost_of e)) ->
  Books (update_event (ev_id e) f (update_period (usagePeriodId e) g db)).
Proof.
  intros [Hei Hk Hpi Hst [Hfe Hfp] Hc Hrs Hb] He Hf Hbas Hcost Hnr Hg Hp.
  constructor; simpl; fold (update_in (ev_id e) f (events db));
    fold (update_per (usagePeriodId e) g (periods db)).
  - rewrite map_update_in; [done|apply Hf].
  - rewrite map_update_in; [done|apply Hf].
  - rewrite map_update_per; [done|apply Hg].
  - rewrite map_update_per; [done|apply Hg].
  - split.
    + intros x [[Hx _]|(y & Hy & _ & ->)]%elem_of_update_in; [by apply Hfe|].
      destruct (Hf y) as (-> & _ & ->). by apply Hfe.
    + intros p [[? _]|(q & Hq & _ & ->)]%elem_of_update_per; [by apply Hfp|].
      destruct (Hg q) as [-> _]. by apply Hfp.
  - intros x [[Hx _]|(y & Hy & Hid & ->)]%elem_of_update_in; [by apply Hc|].
    assert (y = e) as ->.
    { apply list_elem_of_In in Hy, He. by apply (NoDup_map_inj_in ev_id (events db)). }
    rewrite Hbas. split; [done|]. by apply Hc.
  - intros x [[Hx _]|(y & Hy & Hid & ->)]%elem_of_update_in; [by apply Hrs|].
    assert (y = e) as ->; [|done].
    apply list_elem_of_In in Hy, He. by apply (NoDup_map_inj_in ev_id (events db)).
  - intros p Hpin.
    assert (Htot : forall w i, total w i (update_in (ev_id e) f (events db)) =
       total w i (events db) + (if (usagePeriodId e =? i)%nat then w (f e) - w e else 0)).
    { intros w i. apply total_update; auto. apply Hf. }
    rewrite !Htot, Hbas.
    apply elem_of_update_per in Hpin as [[Hpin Hne]|(q & Hq & Hid & ->)].
    + rewrite (proj2 (Nat.eqb_neq _ _)) by congruence. destruct (Hb p Hpin) as (? & ? & ?). lia.
    + destruct (Hg q) as [-> _]. rewrite Hid, Nat.eqb_refl.
      destruct (Hb q Hq) as (H1 & H2 & H3). rewrite Hid in *.
      destruct (Hp q Hq Hid) as (-> & -> & ->); try lia.
      * rewrite H2. apply total_ge; auto. intros; apply calls_of_nonneg.
      * rewrite H3. apply total_ge; auto. intros x Hx. by apply Hc.
Qed.

Lemma find_event_key_None k db : find_event_key k db = None -> k ∉ map idempotencyKey (events db).
Proof.
  unfold find_event_key. intros Hn Hin. apply list_elem_of_In, in_map_iff in Hin as (e & <- & He).
  pose proof (List.find_none _ _ Hn e He) as Hx. simpl in Hx. by rewrite String.eqb_refl in Hx.
Qed.

Lemma find_event_key_Some k db e : find_event_key k db = Some e -> e ∈ events db /\ idempotencyKey e = k.
Proof.
  intros [Hin Hk]%List.find_some. simpl in Hk. apply String.eqb_eq in Hk. by rewrite list_elem_of_In.
Qed.

Lemma find_event_id_Some i db e : find_event_id i db = Some e -> e ∈ events db /\ ev_id e = i.
Proof. intros [Hin Hk]%List.find_some. apply Nat.eqb_eq in Hk. by rewrite list_elem_of_In. Qed.

Lemma find_period_id_Some i db p : find_period_id i db = Some p -> p ∈ periods db /\ per_id p = i.
Proof. intros [Hin Hk]%List.find_some. apply Nat.eqb_eq in Hk. by rewrite list_elem_of_In. Qed.

Lemma books_audit db ty r : Books db -> Books (usageAudit ty r db).
Proof. by intros []; constructor. Qed.

(** Posting a new ledger row together with its counters. *)
Lemma post_books db mk i g ev db' :
  Books db -> create_event mk (update_period i g db) = Some (ev, db') ->
  (forall n, ev_id (mk n) = n /\ usagePeriodId (mk n) = i) ->
  (exists p, p ∈ periods db /\ per_id p = i) ->
  period_frame g -> 0 <= cost_of ev -> 0 <= basic_of ev ->
  (ev_status ev = reserved -> eventType ev = usage_premium_reserved) ->
  (forall p, p ∈ periods db -> per_id p = i ->
     basicUnitsUsed (g p) = basicUnitsUsed p + basic_of ev /\
     premiumCallsUsed (g p) = premiumCallsUsed p + calls_of ev /\
     premiumCostMicros (g p) = premiumCostMicros p + cost_of ev) ->
  Books db'.
Proof.
  intros [Hei Hk Hpi Hst [Hfe Hfp] Hc Hrs Hb] Hcr Hmk (p0 & Hp0 & Hi) Hg Hcost Hbas Hres Hp.
  unfold create_event in Hcr.
  destruct (find_event_key _ _) eqn:Hfind in Hcr; [done|]. simplify_eq Hcr. intros Hev <-.
  apply find_event_key_None in Hfind. simpl in Hfind, Hev. rewrite Hev in Hfind.
  pose proof (Hmk (next_id db)) as [Hid Hper]. simpl in Hid, Hper. rewrite Hev in Hid, Hper.
  constructor; simpl; fold (update_per i g (periods db)); rewrite ?Hev.
  - rewrite map_app. apply NoDup_app. split; [done|]. split; [|apply NoDup_singleton].
    intros x Hx ->%list_elem_of_singleton. apply list_elem_of_In, in_map_iff in Hx as (y & Hy & Hin).
    apply list_elem_of_In in Hin. apply Hfe in Hin. lia.
  - rewrite map_app. apply NoDup_app. split; [done|]. split; [|apply NoDup_singleton].
    by intros x Hx ->%list_elem_of_singleton.
  - by rewrite map_update_per by apply Hg.
  - by rewrite map_update_per by apply Hg.
  - split.
    + intros e [He|He%list_elem_of_singleton]%elem_of_app; [apply Hfe in He; lia|].
      subst e. apply Hfp in Hp0. lia.
    + intros p [[? _]|(q & Hq & _ & ->)]%elem_of_update_per; [apply Hfp in H; lia|].
      destruct (Hg q) as [-> _]. apply Hfp in Hq. lia.
  - intros e [He| ->%list_elem_of_singleton]%elem_of_app; auto.
  - intros e [He| ->%list_elem_of_singleton]%elem_of_app; auto.
  - intros p Hpin. rewrite !total_app. simpl. rewrite Hper.
    apply elem_of_update_per in Hpin as [[Hpin Hne]|(q & Hq & Hqi & ->)].
    + rewrite (proj2 (Nat.eqb_neq _ _)) by congruence. destruct (Hb p Hpin) as (? & ? & ?). lia.
    + destruct (Hg q) as [-> _]. rewrite Hqi, Nat.eqb_refl.
      destruct (Hp q Hq Hqi) as (-> & -> & ->). destruct (Hb q Hq) as (? & ? & ?). rewrite Hqi in *. lia.
Qed.

Lemma update_period_id i db : update_period i (fun p => p) db = db.
Proof.
  destruct db. unfold update_period. simpl. f_equal. rewrite <- (map_id periods0) at 2. apply map_ext.
  intros p. by destruct (_ =? _)%nat.
Qed.

(** Posting a row that touches no counter. *)
Lemma post_neutral_books db mk i ev db' :
  Books db -> create_event mk db = Some (ev, db') ->
  (forall n, ev_id (mk n) = n /\ usagePeriodId (mk n) = i) ->
  (exists p, p ∈ periods db /\ per_id p = i) ->
  cost_of ev = 0 -> basic_of ev = 0 -> calls_of ev = 0 -> ev_status ev <> reserved -> Books db'.
Proof.
  intros Hb Hcr Hmk Hp Hc Hbs Hcl Hnr. rewrite <- (update_period_id i db) in Hcr.
  eapply (post_books db mk i (fun p => p)); eauto; try done; lia.
Qed.

Lemma getOrCreate_spec plan now db : Books db ->
  let '(p, db1) := getOrCreateCurrentPeriod plan now db in
  Books db1 /\ p ∈ periods db1 /\ events db1 = events db /\ periodStart p = fst (currentPeriodBounds now).
Proof.
  intros HB. unfold getOrCreateCurrentPeriod. destruct (currentPeriodBounds now) as [ps pe].
  destruct (List.find _ _) as [p|] eqn:Hf.
  - apply List.find_some in Hf as [Hin Hs]. rewrite list_elem_of_In.
    split_and!; auto. simpl. lia.
  - destruct HB as [Hei Hk Hpi Hst [Hfe Hfp] Hc Hrs Hb]. split_and!; simpl; auto; [|set_solver].
    constructor; simpl; auto.
    + rewrite map_app. apply NoDup_app. split; [done|]. split; [|apply NoDup_singleton].
      intros x Hx ->%list_elem_of_singleton. apply list_elem_of_In, in_map_iff in Hx as (y & Hy & Hin).
      apply list_elem_of_In in Hin. apply Hfp in Hin. simpl in Hy. lia.
    + rewrite map_app. apply NoDup_app. split; [done|]. split; [|apply NoDup_singleton].
      intros x Hx ->%list_elem_of_singleton. apply list_elem_of_In, in_map_iff in Hx as (y & Hy & Hin).
      pose proof (List.find_none _ _ Hf y Hin) as Hn. simpl in Hn, Hy. lia.
    + split; [intros e He; apply Hfe in He; lia|].
      intros p [Hp| ->%list_elem_of_singleton]%elem_of_app; [apply Hfp in Hp; lia|simpl; lia].
    + intros p [Hp| ->%list_elem_of_singleton]%elem_of_app; [by apply Hb|]. simpl.
      rewrite !total_out_of_period; [done| | |]; intros e He; apply Hfe in He; lia.
Qed.

Lemma create_event_ev mk db ev db' : create_event mk db = Some (ev, db') -> ev = mk (next_id db).
Proof. unfold create_event. destruct (find_event_key _ _); [done|]. intros; by simplify_eq. Qed.

(** The period a transaction works on: created before, perhaps changed since. *)
Definition known_period (db : UsageDb) (period : UsagePeriod) : Prop := exists p, p ∈ periods db /\ per_id p = per_id period.

Lemma consumeTx_books policy period key tier now seen db r db' :
  Books db -> known_period db period ->
  consumeTx policy period key tier now seen db = Some (r, db') -> Books db'.
Proof.
  intros HB Hp. unfold consumeTx. destruct seen; [intros; by simplify_eq|].
  destruct (match find_period_id _ _ with Some _ => _ | None => _ end).
  - destruct (create_event _ _) as [[ev db2]|] eqn:Hcr; [|done]. intros. simplify_eq.
    apply books_audit. pose proof (create_event_ev _ _ _ _ Hcr) as ->.
    eapply post_books; [done|exact Hcr|done|exact Hp|done|done|done|done|].
    intros p _ _. cbn. lia.
  - destruct (create_event _ _) as [[ev db2]|] eqn:Hcr; [|done]. intros. simplify_eq.
    apply books_audit. pose proof (create_event_ev _ _ _ _ Hcr) as ->.
    eapply (post_neutral_books _ _ (per_id period)); [done|exact Hcr|done|exact Hp|done..].
Qed.

Lemma reserveTx_books policy period args now seen db r db' :
  Books db -> known_period db period -> 0 <= ra_estMicros args ->
  reserveTx policy period args now seen db = Some (r, db') -> Books db'.
Proof.
  intros HB Hp Hest. unfold reserveTx. destruct seen; [intros; by simplify_eq|].
  destruct (match find_period_id _ _ with Some _ => _ | None => _ end).
  - destruct (create_event _ _) as [[ev db2]|] eqn:Hcr; [|done]. intros. simplify_eq.
    apply books_audit. pose proof (create_event_ev _ _ _ _ Hcr) as ->.
    eapply post_books; [done|exact Hcr|done|exact Hp|done|done|done|done|].
    intros p _ _. cbn. lia.
  - destruct (create_event _ _) as [[ev db2]|] eqn:Hcr; [|done]. intros. simplify_eq.
    apply books_audit. pose proof (create_event_ev _ _ _ _ Hcr) as ->.
    eapply (post_neutral_books _ _ (per_id period)); [done|exact Hcr|done|exact Hp|done..].
Qed.

Lemma reserved_row db e : Books db -> e ∈ events db -> ev_status e = reserved ->
  calls_of e = 1 /\ cost_of e = reservedCostMicros e /\ basic_of e = 0 /\ 0 <= reservedCostMicros e.
Proof.
  intros HB He Hs. pose proof (bk_reserved _ HB e He Hs) as Ht.
  destruct (bk_charges _ HB e He) as [Hc _].
  unfold calls_of, cost_of, basic_of in *. rewrite Hs, Ht in *. auto.
Qed.

(** Releasing a reserved row refunds exactly its reservation. *)
Lemma release_books db e f : Books db -> e ∈ events db -> ev_status e = reserved ->
  (forall x, ev_id (f x) = ev_id x /\ idempotencyKey (f x) = idempotencyKey x /\ usagePeriodId (f x) = usagePeriodId x) ->
  ev_status (f e) = released -> eventType (f e) = usage_premium_released ->
  Books (update_event (ev_id e) f (update_period (usagePeriodId e) (refundPeriod (reservedCostMicros e)) db)).
Proof.
  intros HB He Hs Hf Hst Hty. destruct (reserved_row _ _ HB He Hs) as (Hcl & Hco & Hba & Hn).
  assert (Hfe : calls_of (f e) = 0 /\ cost_of (f e) = 0 /\ basic_of (f e) = 0).
  { unfold calls_of, cost_of, basic_of. by rewrite Hst, Hty. }
  destruct Hfe as (Hc1 & Hc2 & Hc3).
  apply settle_books; auto; try lia; try congruence; [done|].
  intros p _ _. rewrite Hcl, Hco, Hc1, Hc2. simpl. lia.
Qed.

(** No other settlement of the reservation committed since [seen] read it as reserved: the row is still
    reserved, for the period and the cost that were read. *)
Definition still_reserved (seen : UsageEvent) (db : UsageDb) : Prop :=
  exists e, find_event_id (ev_id seen) db = Some e /\ ev_status e = reserved /\
    usagePeriodId e = usagePeriodId seen /\ reservedCostMicros e = reservedCostMicros seen.
Definition unraced (eventId : nat) (seen : option UsageEvent) (db : UsageDb) : Prop :=
  match seen with Some e => ev_id e = eventId /\ (ev_status e = reserved -> still_reserved e db) | None => True end.

Lemma finalizeTx_books eventId outcome seen db :
  Books db -> (forall a, oc_actual outcome = Some a -> 0 <= a) -> unraced eventId seen db ->
  Books (snd (finalizeTx eventId outcome seen db)).
Proof.
  intros HB Hact Hun. unfold finalizeTx. destruct seen as [e0|]; [|done].
  case_bool_decide as Hs0; [|done]. destruct Hun as [<- Hun]. destruct (Hun Hs0) as (e & Hf & Hs & Hper & Hres).
  apply find_event_id_Some in Hf as [He Hid]. rewrite <- Hid, <- Hper, <- Hres. simpl negb. cbv iota.
  destruct (negb (oc_succeeded outcome) && negb (oc_billed outcome ?? false)).
  - apply books_audit, release_books; auto.
  - destruct (reserved_row _ _ HB He Hs) as (Hcl & Hco & Hba & Hn).
    set (actual := oc_actual outcome ?? reservedCostMicros e).
    assert (Ha : 0 <= actual).
    { unfold actual. destruct (oc_actual outcome) eqn:E; [by apply Hact|done]. }
    set (st := if oc_succeeded outcome then succeeded else failed).
    set (f := setOutcome st usage_premium_finalized 1 actual).
    assert (Hfe : calls_of (f e) = 1 /\ cost_of (f e) = actual /\ basic_of (f e) = 0 /\ ev_status (f e) <> reserved).
    { unfold f, st. by destruct (oc_succeeded outcome). }
    destruct Hfe as (Hc1 & Hc2 & Hc3 & Hc4). simpl. apply books_audit.
    destruct (Z.eqb_spec (actual - reservedCostMicros e) 0) as [Hd|Hd].
    + rewrite <- (update_period_id (usagePeriodId e) db).
      apply settle_books; auto; try lia; try congruence; done.
    + apply settle_books; auto; try lia; try congruence; [done|].
      intros p _ _. rewrite Hcl, Hco, Hc1, Hc2. simpl. lia.
Qed.

Lemma total_update_neutral w j i f l :
  (forall e, w (f e) = w e /\ usagePeriodId (f e) = usagePeriodId e) -> total w j (update_in i f l) = total w j l.
Proof.
  intros Hw. induction l as [|e l IH]; simpl; [done|]. rewrite IH.
  destruct (ev_id e =? i)%nat; [|done]. by destruct (Hw e) as [-> ->].
Qed.

Lemma setReason_books i r db : Books db -> Books (update_event i (setReason r) db).
Proof.
  intros [Hei Hk Hpi Hst [Hfe Hfp] Hc Hrs Hb].
  constructor; simpl; fold (update_in i (setReason r) (events db)); auto;
    try (by rewrite map_update_in).
  - split; [|done]. intros e [[He _]|(x & Hx & _ & ->)]%elem_of_update_in; [exact (Hfe e He)|exact (Hfe x Hx)].
  - intros e [[He _]|(x & Hx & _ & ->)]%elem_of_update_in; [exact (Hc e He)|exact (Hc x Hx)].
  - intros e [[He _]|(x & Hx & _ & ->)]%elem_of_update_in; [exact (Hrs e He)|exact (Hrs x Hx)].
  - intros p Hp. rewrite !total_update_neutral by done. by apply Hb.
Qed.

Lemma find_event_id_after i j f db : (forall e, ev_id (f e) = ev_id e) ->
  find_event_id i (update_event j f db) = option_map (fun e => if (ev_id e =? j)%nat then f e else e) (find_event_id i db).
Proof. intros Hf. apply find_update_where. intros e. by rewrite Hf. Qed.

Lemma recover_fold_books stale db : Books db -> NoDup (map ev_id stale) ->
  (forall s, s ∈ stale -> still_reserved s db) -> Books (fold_left recoverOne stale db).
Proof.
  revert db. induction stale as [|s stale IH]; simpl; intros db HB Hnd Hs; [done|].
  apply NoDup_cons in Hnd as [Hx Hnd]. destruct (Hs s) as (e & Hf & Hr & Hper & Hres); [left|].
  apply find_event_id_Some in Hf as [He Hid]. apply IH; [|done|].
  - apply books_audit. rewrite <- Hid, <- Hper, <- Hres. by apply release_books.
  - intros x Hin. destruct (Hs x) as (ex & Hfx & Hrx); [by right|]. exists ex. split; [|done].
    unfold recoverOne. change (find_event_id (ev_id x) (usageAudit ?a ?b ?d)) with (find_event_id (ev_id x) d).
    rewrite find_event_id_after by done. change (find_event_id (ev_id x) (update_period ?i ?f db)) with (find_event_id (ev_id x) db). rewrite Hfx. cbn.
    rewrite (proj2 (Nat.eqb_neq _ _)); [done|]. intros Heq. apply Hx. rewrite <- Heq.
    apply find_event_id_Some in Hfx as [_ Hix]. rewrite Hix. by apply list_elem_of_In, in_map, list_elem_of_In.
Qed.

Lemma cacheTx_books period key now seen db db' :
  Books db -> known_period db period -> cacheTx period key now seen db = Some db' -> Books db'.
Proof.
  intros HB Hp. unfold cacheTx. destruct seen; [intros; by simplify_eq|].
  destruct (create_event _ _) as [[ev db2]|] eqn:Hcr; [|done]. intros. simplify_eq.
  apply books_audit. pose proof (create_event_ev _ _ _ _ Hcr) as ->.
  eapply (post_neutral_books _ _ (per_id period)); [done|exact Hcr|done|exact Hp|done..].
Qed.

(** * Reachable tables *)

(** One committed transaction; the operations are sequences of these ([reserve_steps] and its like), so the
    transactions of concurrent operations interleave. What a transaction read before it writes may be stale:
    a reservation, a consumption and a cache hit may have read any row or none under their key ([seen], the
    unique index decides), the period was found earlier. A settlement read its row as it was earlier; the one
    interleaving left out is that another settlement of the same reservation commits between that read and its
    own write ([unraced]): then the refund is applied twice, see [racing_finalizations_refund_twice]. *)
Inductive step (db : UsageDb) : UsageDb -> Prop :=
  | step_period plan now : step db (snd (getOrCreateCurrentPeriod plan now db))
  | step_consume policy period key tier now seen r db' :
      known_period db period -> consumeTx policy period key tier now seen db = Some (r, db') -> step db db'
  | step_reserve policy period args now seen r db' :
      known_period db period -> 0 <= ra_estMicros args -> reserveTx policy period args now seen db = Some (r, db') -> step db db'
  | step_finalize eventId outcome seen :
      (forall a, oc_actual outcome = Some a -> 0 <= a) -> unraced eventId seen db ->
      step db (snd (finalizeTx eventId outcome seen db))
  | step_reason eventId reason : step db (update_event eventId (setReason reason) db)
  | step_recover stale : NoDup (map ev_id stale) -> (forall s, s ∈ stale -> still_reserved s db) ->
      step db (fold_left recoverOne stale db)
  | step_cache period key now seen db' :
      known_period db period -> cacheTx period key now seen db = Some db' -> step db db'.

Inductive reachable : UsageDb -> Prop :=
  | reach_init : reachable empty_db
  | reach_step db db' : reachable db -> step db db' -> reachable db'.

Lemma books_empty : Books empty_db.
Proof.
  constructor; simpl; try (by apply NoDup_nil); [split|..]; intros ? []%not_elem_of_nil.
Qed.

Lemma step_books db db' : Books db -> step db db' -> Books db'.
Proof.
  intros HB [plan now| | | | |stale Hnd Hs|]; try by eauto using consumeTx_books, reserveTx_books, finalizeTx_books, setReason_books, cacheTx_books.
  - pose proof (getOrCreate_spec plan now db HB) as Hsp. destruct (getOrCreateCurrentPeriod plan now db). apply Hsp.
  - by apply recover_fold_books.
Qed.

Lemma reachable_books db : reachable db -> Books db.
Proof. induction 1; eauto using books_empty, step_books. Qed.

(** ** The operations as sequences of transactions *)

Definition steps : UsageDb -> UsageDb -> Prop := rtc step.
Lemma reachable_steps db db' : reachable db -> steps db db' -> reachable db'.
Proof. intros Hr Hs. induction Hs as [|? ? ? H _ IH]; [done|]. apply IH. by eapply reach_step. Qed.

Lemma opened_period plan now db : Books db -> known_period (snd (getOrCreateCurrentPeriod plan now db)) (fst (getOrCreateCurrentPeriod plan now db)).
Proof.
  intros HB. pose proof (getOrCreate_spec plan now db HB) as Hg. destruct (getOrCreateCurrentPeriod plan now db) as [p db1].
  destruct Hg as (_ & Hp & _). by exists p.
Qed.
Lemma unraced_now eventId db : unraced eventId (find_event_id eventId db) db.
Proof.
  destruct (find_event_id eventId db) as [e|] eqn:Hf; [|done]. pose proof (find_event_id_Some _ _ _ Hf) as [_ <-].
  split; [done|]. intros Hs. by exists e.
Qed.

Lemma consume_steps plan key tier internal now db r db' : Books db ->
  consumeBasicUnit plan key tier internal now db = Some (r, db') -> steps db db'.
Proof.
  unfold consumeBasicUnit. intros HB Hc. pose proof (opened_period plan now db HB) as Hp.
  pose proof (step_period db plan now) as Hs. destruct (getOrCreateCurrentPeriod plan now db) as [period db1]. simpl in Hp, Hs.
  eapply rtc_l; [exact Hs|]. apply rtc_once. by eapply step_consume.
Qed.
Lemma reserve_steps seen plan args now db r db' : Books db -> 0 <= ra_estMicros args ->
  reserve_seeing seen plan args now db = Some (r, db') -> steps db db'.
Proof.
  unfold reserve_seeing. set (policy := resolveEffectiveUsagePolicy _ _ _). intros HB Hest Hr.
  pose proof (opened_period (js_name (pol_plan policy)) now db HB) as Hp. pose proof (step_period db (js_name (pol_plan policy)) now) as Hs.
  destruct (getOrCreateCurrentPeriod _ now db) as [period db1]. simpl in Hp, Hs. eapply rtc_l; [exact Hs|].
  destruct (reserveTx _ _ _ _ _ _) as [[r1 db2]|] eqn:Hx; [simplify_eq; apply rtc_once; by eapply step_reserve|].
  destruct (find_event_key _ db1); simpl in Hr; by simplify_eq.
Qed.
Lemma release_steps eventId reason db : steps db (snd (releaseReservation eventId reason db)).
Proof.
  unfold releaseReservation, finalizePremiumCall.
  set (outcome := {| oc_succeeded := false; oc_actual := None; oc_billed := Some false |}).
  assert (Hs : step db (snd (finalizeTx eventId outcome (find_event_id eventId db) db))) by (apply step_finalize; [done|apply unraced_now]).
  destruct (finalizeTx _ _ _ _) as [[] db1]; simpl in *; (eapply rtc_l; [exact Hs|]); [apply rtc_once, step_reason|done].
Qed.
Lemma recover_steps ms now db : Books db -> steps db (snd (recoverStaleReservations ms now db)).
Proof.
  intros HB. apply rtc_once, step_recover; [apply NoDup_map_filter, HB|]. intros s Hs.
  rewrite list_elem_of_In, filter_In in Hs. destruct Hs as [Hs [Hb _]%andb_true_iff]. apply bool_decide_eq_true in Hb.
  exists s. split; [|done]. unfold find_event_id. apply (find_unique_by ev_id); [apply HB|done|apply Nat.eqb_refl|].
  intros y Hy. by apply Nat.eqb_eq in Hy.
Qed.
Lemma cache_steps key plan now db db' : Books db -> recordCacheHit key plan now db = Some db' -> steps db db'.
Proof.
  unfold recordCacheHit. intros HB Hc. pose proof (opened_period plan now db HB) as Hp.
  pose proof (step_period db plan now) as Hs. destruct (getOrCreateCurrentPeriod plan now db) as [period db1]. simpl in Hp, Hs.
  eapply rtc_l; [exact Hs|]. apply rtc_once. by eapply step_cache.
Qed.

(** * What the operations guarantee *)

Definition result_event (r : ReserveResult) : nat :=
  match r with reserve_ok i _ _ _ => i | reserve_denied _ i => i end.
Definition result_is_ok (r : ReserveResult) : bool :=
  match r with reserve_ok _ _ _ _ => true | reserve_denied _ _ => false end.

(** The plan a reservation's period row is labelled with. *)
Local Abbreviation period_plan plan args :=
  (js_name (pol_plan (resolveEffectiveUsagePolicy (Some plan) None (ra_internalAccess args)))).

(** The tables changed by at most a new, empty period. *)
Definition only_new_periods (db db' : UsageDb) : Prop :=
  events db' = events db /\
  (periods db' = periods db \/
   exists p, periods db' = periods db ++ [p] /\ basicUnitsUsed p = 0 /\ premiumCallsUsed p = 0 /\ premiumCostMicros p = 0).

Lemma getOrCreate_only_new plan now db : only_new_periods db (snd (getOrCreateCurrentPeriod plan now db)).
Proof.
  unfold getOrCreateCurrentPeriod. destruct (currentPeriodBounds now) as [ps pe].
  destruct (List.find _ _); simpl; split; eauto. right. eexists; split; eauto.
Qed.

Lemma create_event_spec mk db ev db' : create_event mk db = Some (ev, db') ->
  ev = mk (next_id db) /\ find_event_key (idempotencyKey ev) db = None /\
  events db' = events db ++ [ev] /\ periods db' = periods db.
Proof.
  unfold create_event. destruct (find_event_key _ _) eqn:Hf; [done|]. intros. simplify_eq. auto.
Qed.

Lemma find_app_new {A} (P : A -> bool) l x : List.find P l = None -> P x = true -> List.find P (l ++ [x]) = Some x.
Proof.
  induction l as [|y l IH]; simpl; intros Hn Hx; [by rewrite Hx|].
  destruct (P y); [done|]. by apply IH.
Qed.

Lemma find_event_key_events k db db' : events db' = events db -> find_event_key k db' = find_event_key k db.
Proof. unfold find_event_key. by intros ->. Qed.

(** Whatever it had read, a reservation under a key the ledger knows changes nothing. *)
Lemma reserve_known_key seen plan args now db e :
  find_event_key (ra_idempotencyKey args) db = Some e ->
  exists r, reserve_seeing seen plan args now db =
    Some (r, snd (getOrCreateCurrentPeriod (period_plan plan args) now db)) /\
  ((seen (snd (getOrCreateCurrentPeriod (period_plan plan args) now db)) = None \/
    seen (snd (getOrCreateCurrentPeriod (period_plan plan args) now db)) = Some e) ->
   result_event r = ev_id e /\ result_is_ok r = bool_decide (ev_status e = reserved \/ ev_status e = succeeded)).
Proof.
  intros Hk. unfold reserve_seeing. set (policy := resolveEffectiveUsagePolicy _ _ _).
  pose proof (getOrCreate_only_new (js_name (pol_plan policy)) now db) as [Hev _].
  destruct (getOrCreateCurrentPeriod _ now db) as [period db1]. simpl in *.
  assert (Hk1 : find_event_key (ra_idempotencyKey args) db1 = Some e) by (by rewrite (find_event_key_events _ _ _ Hev)).
  assert (Hreuse : forall fb x, result_event (reuseResult fb x) = ev_id x /\
    result_is_ok (reuseResult fb x) = bool_decide (ev_status x = reserved \/ ev_status x = succeeded)).
  { intros fb x. unfold reuseResult. destruct (ev_status x); split; done. }
  unfold reserveTx. destruct (seen db1) as [e0|] eqn:Hs.
  - eexists; split; [reflexivity|]. intros [?|?]; [done|]. simplify_eq. apply Hreuse.
  - destruct (match find_period_id _ _ with Some _ => _ | None => _ end);
      destruct (create_event _ _) as [[ev db2]|] eqn:Hcr.
    1,3: exfalso; apply create_event_spec in Hcr as (-> & Hn & _ & _);
         unfold find_event_key in *; simpl in *; congruence.
    all: rewrite Hk1; simpl; eexists; split; [reflexivity|]; intros _; apply Hreuse.
Qed.

(** The row a reservation answers for is in the ledger under its key. *)
Lemma reserve_row plan args now db r db' : reservePremiumCall plan args now db = Some (r, db') ->
  exists e, find_event_key (ra_idempotencyKey args) db' = Some e /\ ev_id e = result_event r /\
    result_is_ok r = bool_decide (ev_status e = reserved \/ ev_status e = succeeded).
Proof.
  unfold reservePremiumCall. intros Hres.
  destruct (find_event_key (ra_idempotencyKey args) db) as [e|] eqn:Hk.
  - destruct (reserve_known_key (find_event_key (ra_idempotencyKey args)) plan args now db e Hk) as (r' & Heq & Hr).
    rewrite Heq in Hres. simplify_eq.
    pose proof (getOrCreate_only_new (period_plan plan args) now db) as [Hev _].
    exists e. rewrite (find_event_key_events _ _ _ Hev). split; [done|].
    destruct Hr as [-> ->]; [right; by rewrite (find_event_key_events _ _ _ Hev)|done].
  - unfold reserve_seeing in Hres. set (policy := resolveEffectiveUsagePolicy _ _ _) in *.
    pose proof (getOrCreate_only_new (js_name (pol_plan policy)) now db) as [Hev _].
    destruct (getOrCreateCurrentPeriod _ now db) as [period db1]. simpl in Hev.
    rewrite <- (find_event_key_events _ _ _ Hev) in Hk. rewrite Hk in Hres.
    unfold reserveTx in Hres.
    assert (Hnew : forall ev db2, events db2 = events db1 ++ [ev] -> idempotencyKey ev = ra_idempotencyKey args ->
      find_event_key (ra_idempotencyKey args) db2 = Some ev).
    { intros ev db2 He Hkey. unfold find_event_key in *. rewrite He. apply find_app_new; [done|].
      rewrite Hkey. apply String.eqb_refl. }
    destruct (match find_period_id _ _ with Some _ => _ | None => _ end).
    + destruct (create_event _ _) as [[ev db2]|] eqn:Hcr; simpl in Hres; [|done].
      simplify_eq. apply create_event_spec in Hcr as (-> & _ & He & _). simpl in He.
      eexists; split; [apply Hnew; [exact He|done]|done].
    + destruct (create_event _ _) as [[ev db2]|] eqn:Hcr; simpl in Hres; [|done].
      simplify_eq. apply create_event_spec in Hcr as (-> & _ & He & _). simpl in He.
      eexists; split; [apply Hnew; [exact He|done]|done].
Qed.

(** C3 — The counters are the ledger: in every state that any interleaving of the transactions of the metering
    operations reaches, as long as no two settlements (finalization, release, recovery) of one and the same
    reservation overlap and no cost is negative, each period's basic units, premium calls and premium cost are
    exactly the sums over its ledger rows; what reservations, consumptions and cache hits read may be stale in
    any way. (Settlements that do overlap refund twice: [racing_finalizations_refund_twice].) *)
Theorem counters_equal_ledger (db : UsageDb) (p : UsagePeriod) :
  reachable db -> p ∈ periods db ->
  basicUnitsUsed p = total basic_of (per_id p) (events db) /\
  premiumCallsUsed p = total calls_of (per_id p) (events db) /\
  premiumCostMicros p = total cost_of (per_id p) (events db).
Proof. intros HB%reachable_books Hp. by apply HB. Qed.

(** Retrying a reservation under the same key, on whatever plan and at
    whatever time, answers for the same ledger row with the same verdict and
    charges nothing. *)
Theorem reserve_idempotent (plan plan' : string) (args args' : ReserveArgs) (now now' : Z) (db db' : UsageDb) (r : ReserveResult) :
  reservePremiumCall plan args now db = Some (r, db') ->
  ra_idempotencyKey args' = ra_idempotencyKey args ->
  exists r' db'', reservePremiumCall plan' args' now' db' = Some (r', db'') /\
    result_event r' = result_event r /\ result_is_ok r' = result_is_ok r /\ only_new_periods db' db''.
Proof.
  intros (e & Hk & Hid & Hok)%reserve_row Hkey. rewrite <- Hkey in Hk.
  destruct (reserve_known_key (find_event_key (ra_idempotencyKey args')) plan' args' now' db' e Hk) as (r' & Heq & Hr).
  pose proof (getOrCreate_only_new (period_plan plan' args') now' db') as Hnew.
  exists r'. eexists; split; [exact Heq|].
  destruct Hr as [-> ->]; [right; by rewrite (find_event_key_events _ _ _ (proj1 Hnew))|].
  split_and!; auto.
Qed.

(** Two requests racing on one key charge once: whatever the second had read
    before the first committed, its transaction leaves ledger and counters alone. *)
Theorem racing_reservation_charges_once (seen : UsageDb -> option UsageEvent) (plan : string) (args : ReserveArgs)
    (now : Z) (db : UsageDb) (e : UsageEvent) :
  find_event_key (ra_idempotencyKey args) db = Some e ->
  exists r db', reserve_seeing seen plan args now db = Some (r, db') /\ only_new_periods db db'.
Proof.
  intros Hk. destruct (reserve_known_key seen plan args now db e Hk) as (r & Heq & _).
  eexists r, _. split; [exact Heq|]. apply getOrCreate_only_new.
Qed.

Lemma find_map_same {A} (P : A -> bool) (f : A -> A) l :
  (forall x, P (f x) = P x) -> List.find P (map f l) = option_map f (List.find P l).
Proof.
  intros HP. induction l as [|x l IH]; simpl; [done|]. rewrite HP. by destruct (P x).
Qed.

Lemma find_period_update i g db p : period_frame g -> find_period_id i db = Some p ->
  find_period_id i (update_period i g db) = Some (g p).
Proof.
  intros Hg Hf. pose proof (find_period_id_Some _ _ _ Hf) as [_ Hid].
  unfold find_period_id in *. simpl. rewrite find_map_same, Hf; simpl.
  - by rewrite Hid, Nat.eqb_refl.
  - intros x. destruct (per_id x =? i)%nat eqn:E; [|done]. by destruct (Hg x) as [-> _].
Qed.

(** The shape of a fresh reservation. *)
Lemma reserve_fresh_inv seen plan args now db eid pid m db' :
  reserve_seeing seen plan args now db = Some (reserve_ok eid pid false m, db') ->
  let policy := resolveEffectiveUsagePolicy (Some plan) None (ra_internalAccess args) in
  let db1 := snd (getOrCreateCurrentPeriod (period_plan plan args) now db) in
  exists p ev db2,
    find_period_id pid db1 = Some p /\ m = ra_estMicros args /\ eid = next_id db1 /\
    under (premiumCallsPerPeriod policy) (premiumCallsUsed p + 1) = true /\
    under (premiumCostLimitMicros policy) (premiumCostMicros p + m) = true /\
    db' = usageAudit usage_premium_reserved None db2 /\
    events db2 = events db1 ++ [ev] /\ periods db2 = periods (update_period pid (reservePeriod m) db1) /\
    ev_id ev = eid /\ usagePeriodId ev = pid /\ ev_status ev = reserved /\ reservedCostMicros ev = m.
Proof.
  unfold reserve_seeing. cbv zeta. set (policy := resolveEffectiveUsagePolicy _ _ _).
  destruct (getOrCreateCurrentPeriod _ now db) as [period db1]. simpl.
  assert (Hno : forall fb x d, Some (reuseResult fb x, d) = Some (reserve_ok eid pid false m, db') -> False).
  { intros fb x d. unfold reuseResult. destruct (ev_status x); intros; simplify_eq. }
  destruct (reserveTx _ _ _ _ _ _) as [[r0 d0]|] eqn:Hr; intros Heq.
  2:{ destruct (find_event_key _ db1); simpl in Heq; [by apply Hno in Heq|done]. }
  simplify_eq. unfold reserveTx in Hr. destruct (seen db1); [by apply Hno in Hr|].
  destruct (find_period_id (per_id period) db1) as [p|] eqn:Hp.
  2:{ destruct (create_event _ _) as [[? ?]|]; simplify_eq. }
  destruct (under _ _ && under _ _) eqn:Hu; [|destruct (create_event _ _) as [[? ?]|]; simplify_eq].
  destruct (create_event _ _) as [[ev db2]|] eqn:Hcr; [|done]. simplify_eq.
  apply andb_true_iff in Hu as [Hu1 Hu2].
  apply create_event_spec in Hcr as (-> & _ & He & Hper). simpl in He, Hper.
  eexists p, _, db2. split_and!; eauto.
Qed.

(** A reservation is granted only inside the plan's quota and budget: after a
    fresh grant the period's premium calls and premium cost, this call included,
    are within the plan's limits, even when the request raced. *)
Theorem granted_reservation_within_limits (seen : UsageDb -> option UsageEvent) (plan : string) (args : ReserveArgs)
    (now : Z) (db db' : UsageDb) (eid pid : nat) (m : Z) :
  reserve_seeing seen plan args now db = Some (reserve_ok eid pid false m, db') ->
  let policy := resolveEffectiveUsagePolicy (Some plan) None (ra_internalAccess args) in
  exists p, find_period_id pid db' = Some p /\
    under (premiumCallsPerPeriod policy) (premiumCallsUsed p) = true /\
    under (premiumCostLimitMicros policy) (premiumCostMicros p) = true.
Proof.
  intros (p & ev & db2 & Hp & -> & _ & Hu1 & Hu2 & -> & _ & Hper & _)%reserve_fresh_inv. cbv zeta in *.
  exists (reservePeriod (ra_estMicros args) p). split_and!; auto.
  change (find_period_id pid (usageAudit usage_premium_reserved None db2)) with (find_period_id pid db2).
  unfold find_period_id at 1. rewrite Hper.
  by apply (find_period_update pid (reservePeriod (ra_estMicros args)) (snd (getOrCreateCurrentPeriod (period_plan plan args) now db))).
Qed.

Lemma find_event_id_update i f db e : (forall x, ev_id (f x) = ev_id x) -> find_event_id i db = Some e ->
  find_event_id i (update_event i f db) = Some (f e).
Proof.
  intros Hf Hfind. pose proof (find_event_id_Some _ _ _ Hfind) as [_ Hid].
  unfold find_event_id in *. simpl. rewrite find_map_same, Hfind; simpl.
  - by rewrite Hid, Nat.eqb_refl.
  - intros x. destruct (ev_id x =? i)%nat eqn:E; [|done]. by rewrite Hf.
Qed.

Lemma find_event_id_audit i ty r db : find_event_id i (usageAudit ty r db) = find_event_id i db.
Proof. done. Qed.

(** A reservation settles once: after any finalization of a known row, another
    finalization, with whatever outcome, succeeds without effect. *)
Theorem finalize_settles_once (eventId : nat) (o o' : CallOutcome) (db : UsageDb) (e : UsageEvent) :
  find_event_id eventId db = Some e ->
  let db' := snd (finalizePremiumCall eventId o db) in
  finalizePremiumCall eventId o' db' = (fin_ok, db').
Proof.
  intros Hf. cbv zeta.
  assert (Hdone : forall d x, find_event_id eventId d = Some x -> ev_status x <> reserved ->
    finalizePremiumCall eventId o' d = (fin_ok, d)).
  { intros d x Hd Hx. unfold finalizePremiumCall, finalizeTx. rewrite Hd. by rewrite bool_decide_eq_false_2. }
  unfold finalizePremiumCall at 2 3. unfold finalizeTx. rewrite Hf.
  case_bool_decide as Hs; simpl; [|by apply (Hdone _ e)].
  destruct (negb (oc_succeeded o) && negb (oc_billed o ?? false)); simpl.
  - eapply Hdone.
    + rewrite find_event_id_audit. apply find_event_id_update; [done|exact Hf].
    + done.
  - eapply Hdone.
    + rewrite find_event_id_audit. apply find_event_id_update; [done|].
      destruct (_ =? 0); exact Hf.
    + by destruct (oc_succeeded o).
Qed.

(** Releasing an unused reservation restores the counters: a fresh grant
    followed by its release leaves every period exactly as it was. *)
Theorem release_restores_counters (plan reason : string) (args : ReserveArgs) (now : Z) (db db' : UsageDb)
    (eid pid : nat) (m : Z) :
  reachable db -> 0 <= ra_estMicros args ->
  reservePremiumCall plan args now db = Some (reserve_ok eid pid false m, db') ->
  fst (releaseReservation eid reason db') = true /\
  periods (snd (releaseReservation eid reason db')) =
  periods (snd (getOrCreateCurrentPeriod (period_plan plan args) now db)).
Proof.
  intros HB%reachable_books Hest (p & ev & db2 & Hp & Hm & -> & _ & _ & -> & Hev & Hper & Hid & Hpid & Hst & Hres)%reserve_fresh_inv.
  cbv zeta in *. pose proof (getOrCreate_spec (period_plan plan args) now db HB) as Hsp.
  destruct (getOrCreateCurrentPeriod (period_plan plan args) now db) as [period db1]. simpl in *.
  destruct Hsp as (HB1 & _).
  assert (Hfind : find_event_id (next_id db1) (usageAudit usage_premium_reserved None db2) = Some ev).
  { unfold find_event_id. simpl. rewrite Hev. apply find_app_new; [|rewrite Hid; apply Nat.eqb_refl].
    destruct (List.find _ (events db1)) as [x|] eqn:Hx; [|done].
    apply List.find_some in Hx as [Hx Hxi%Nat.eqb_eq]. apply list_elem_of_In in Hx.
    destruct (bk_fresh _ HB1) as [Hfe _]. apply Hfe in Hx. lia. }
  unfold releaseReservation, finalizePremiumCall, finalizeTx. rewrite Hfind, Hst. simpl.
  split; [done|]. rewrite Hper, Hpid, Hres. rewrite map_map.
  rewrite <- (map_id (periods db1)) at 2. apply map_ext_in. intros q Hq%list_elem_of_In.
  destruct (Nat.eqb_spec (per_id q) pid); simpl; [|by rewrite (proj2 (Nat.eqb_neq _ _))].
  rewrite e, Nat.eqb_refl. destruct (bk_balance _ HB1 q Hq) as (_ & Hc & Hco).
  assert (0 <= premiumCallsUsed q) by (rewrite Hc; apply total_nonneg; intros; apply calls_of_nonneg).
  assert (0 <= premiumCostMicros q) by (rewrite Hco; apply total_nonneg; intros; by apply (bk_charges _ HB1)).
  destruct q; unfold refundPeriod, reservePeriod, setPremium; simpl in *. f_equal; lia.
Qed.

(** A content version is metered once: after a consumption, a repetition under
    the same key is reported as reused and changes neither ledger nor counters. *)
Theorem basic_unit_metered_once (plan plan' key : string) (tier tier' : ProcessingTier) (internal internal' : bool)
    (now now' : Z) (db db' : UsageDb) (r : BasicResult) :
  consumeBasicUnit plan key tier internal now db = Some (r, db') ->
  exists r' db'', consumeBasicUnit plan' key tier' internal' now' db' = Some (r', db'') /\
    br_consumed r' = false /\ br_reused r' = true /\ br_eventId r' = br_eventId r /\ only_new_periods db' db''.
Proof.
  intros Hc. assert (Hrow : exists e, find_event_key key db' = Some e /\ ev_id e = br_eventId r).
  { unfold consumeBasicUnit in Hc. destruct (getOrCreateCurrentPeriod plan now db) as [period db1].
    unfold consumeTx in Hc. destruct (find_event_key key db1) as [e|] eqn:Hk; [simplify_eq; eauto|].
    assert (Hnew : forall ev db2, events db2 = events db1 ++ [ev] -> idempotencyKey ev = key ->
      find_event_key key db2 = Some ev).
    { intros ev db2 He Hkey. unfold find_event_key in *. rewrite He. apply find_app_new; [done|].
      rewrite Hkey. apply String.eqb_refl. }
    destruct (match find_period_id _ _ with Some _ => _ | None => _ end);
      destruct (create_event _ _) as [[ev db2]|] eqn:Hcr; simplify_eq;
      apply create_event_spec in Hcr as (-> & _ & He & _); simpl in He;
      (eexists; split; [apply Hnew; [exact He|done]|done]). }
  destruct Hrow as (e & Hk & Hid). unfold consumeBasicUnit.
  pose proof (getOrCreate_only_new plan' now' db') as Hnew.
  destruct (getOrCreateCurrentPeriod plan' now' db') as [period db1]. simpl in *.
  rewrite (find_event_key_events _ _ _ (proj1 Hnew)), Hk. simpl.
  eexists _, _. split; [reflexivity|]. auto.
Qed.

(** Finalization checks the row's status in one statement and writes in
    others: two releases that both read the reserved row refund it twice, and a
    later reservation's charge disappears from the counters. *)
Theorem racing_finalizations_refund_twice :
  exists (db : UsageDb) (e : UsageEvent),
    reachable db /\ find_event_id (ev_id e) db = Some e /\ ev_status e = reserved /\
    let release := {| oc_succeeded := false; oc_actual := None; oc_billed := None |} in
    let db1 := snd (finalizeTx (ev_id e) release (Some e) db) in
    let db2 := snd (finalizeTx (ev_id e) release (Some e) db1) in
    map premiumCallsUsed (periods db) = [2] /\ map premiumCallsUsed (periods db1) = [1] /\
    map premiumCallsUsed (periods db2) = [0] /\ total calls_of 0 (events db2) = 1.
Proof.
  set (args k := {| ra_estMicros := 600; ra_idempotencyKey := k; ra_internalAccess := false |}).
  set (db1 := option_map snd (reservePremiumCall "starter" (args "k1") 0 empty_db) ?? empty_db).
  set (db2 := option_map snd (reservePremiumCall "starter" (args "k2") 0 db1) ?? empty_db).
  assert (Hr : reachable db2).
  { assert (H1 : reachable db1)
      by (apply (reachable_steps empty_db); [constructor|]; eapply (reserve_steps (find_event_key "k1") "starter" (args "k1") 0); [apply books_empty|done|reflexivity]).
    apply (reachable_steps db1); [done|].
    eapply (reserve_steps (find_event_key "k2") "starter" (args "k2") 0); [by apply reachable_books|done|reflexivity]. }
  exists db2. destruct (find_event_key "k1" db2) as [e|] eqn:He; [|discriminate].
  exists e. split; [done|]. vm_compute in He. injection He as <-. vm_compute. auto 10.
Qed.

(** ** Witnesses *)

Definition demo_args (k : string) : ReserveArgs :=
  {| ra_estMicros := 600; ra_idempotencyKey := k; ra_internalAccess := false |}.
Definition demo_db : UsageDb :=
  option_map snd (reservePremiumCall "starter" (demo_args "k1") 0 empty_db) ?? empty_db.
Definition demo_period : UsagePeriod :=
  {| per_id := 0; periodStart := 0; periodEnd := 2678400000; per_plan := "starter";
     basicUnitsUsed := 0; premiumCallsUsed := 1; premiumCostMicros := 600 |}.

Lemma demo_reachable : reachable demo_db.
Proof.
  apply (reachable_steps empty_db); [constructor|].
  eapply (reserve_steps (find_event_key "k1") "starter" (demo_args "k1") 0); [apply books_empty|done|reflexivity].
Qed.

Lemma counters_equal_ledger_witness :
  premiumCallsUsed demo_period = total calls_of (per_id demo_period) (events demo_db).
Proof.
  refine (proj1 (proj2 (counters_equal_ledger demo_db demo_period demo_reachable _))).
  apply list_elem_of_In. vm_compute. auto.
Defined.

Lemma reserve_idempotent_witness :
  exists r' db'', reservePremiumCall "growth" (demo_args "k1") 99 demo_db = Some (r', db'') /\
    result_event r' = 1%nat /\ result_is_ok r' = true /\ only_new_periods demo_db db''.
Proof. apply (reserve_idempotent "starter" "growth" (demo_args "k1") (demo_args "k1") 0 99 empty_db demo_db
  (reserve_ok 1 0 false 600)); reflexivity. Defined.

Lemma racing_reservation_charges_once_witness :
  exists r db', reserve_seeing (fun _ => None) "starter" (demo_args "k1") 5 demo_db = Some (r, db') /\
    only_new_periods demo_db db'.
Proof. eapply (racing_reservation_charges_once (fun _ => None) "starter" (demo_args "k1") 5 demo_db). reflexivity. Defined.

Lemma granted_reservation_within_limits_witness :
  exists p, find_period_id 0 demo_db = Some p /\
    under (Some 200) (premiumCallsUsed p) = true /\ under (Some 5000000) (premiumCostMicros p) = true.
Proof.
  eapply (granted_reservation_within_limits (find_event_key "k1") "starter" (demo_args "k1") 0 empty_db demo_db 1 0 600).
  reflexivity.
Defined.

Lemma finalize_settles_once_witness :
  let o := {| oc_succeeded := true; oc_actual := Some 450; oc_billed := None |} in
  let db' := snd (finalizePremiumCall 1 o demo_db) in
  finalizePremiumCall 1 {| oc_succeeded := false; oc_actual := None; oc_billed := None |} db' = (fin_ok, db').
Proof. cbv zeta. eapply finalize_settles_once. reflexivity. Defined.

Lemma release_restores_counters_witness :
  fst (releaseReservation 1 "fuse_open" demo_db) = true.
Proof.
  refine (proj1 (release_restores_counters "starter" "fuse_open" (demo_args "k1") 0 empty_db demo_db 1 0 600 reach_init _ _));
    [by vm_compute | reflexivity].
Defined.

Lemma basic_unit_metered_once_witness :
  exists r' db'', consumeBasicUnit "starter" "c1" tier_rules false 7
      (option_map snd (consumeBasicUnit "starter" "c1" tier_local false 3 empty_db) ?? empty_db) = Some (r', db'') /\
    br_consumed r' = false /\ br_reused r' = true /\ br_eventId r' = 1%nat /\
    only_new_periods (option_map snd (consumeBasicUnit "starter" "c1" tier_local false 3 empty_db) ?? empty_db) db''.
Proof.
  eapply (basic_unit_metered_once "starter" "starter" "c1" tier_local tier_rules false false 3 7 empty_db _
    {| br_consumed := true; br_reused := false; br_denied := false; br_reason := None; br_eventId := 1 |}).
  reflexivity.
Defined.
