(* ===== verification/RateLimit.v ===== *)
(** Rate limiting ([packages/core/src/rate-limit.ts], [rate-limit-store.ts]).

    Module [Limiter] is the bounded in-process limiter, module [Store] the
    shared-store contract as a type class, its in-memory and Upstash
    implementations and the limiter that is written against the contract. *)
From S2P Require Import Prelude.
Open Scope string_scope.
Open Scope list_scope.
Open Scope Z_scope.
Open Scope tam_scope.

Module Limiter.

(* src: packages/core/src/rate-limit.ts:10-15 RateLimitResult *)
Record RateLimitResult := { allowed : bool; remaining : Z; resetMs : Z }.

(* src: packages/core/src/rate-limit.ts:17-24 RateLimiterOptions *)
Record RateLimiterOptions := { opt_limit : Z; opt_windowMs : Z; opt_maxKeys : Z }.

(** One tracked key: [{ count, windowStart }]. *)
(* src: packages/core/src/rate-limit.ts:27-27 hits *)
Record hit_entry := { count : Z; windowStart : Z }.

(** The object: its map of hits and its three bounds. *)
(* src: packages/core/src/rate-limit.ts:26-30 RateLimiter *)
Record RateLimiter := { hits : jsmap hit_entry; limit : Z; windowMs : Z; maxKeys : Z }.

(** The options are integers here, on which [Math.floor] is the identity. *)
(* src: packages/core/src/rate-limit.ts:32-36 constructor *)
Definition new_RateLimiter (opts : RateLimiterOptions) : RateLimiter :=
  {| hits := []; limit := Z.max 1 (opt_limit opts);
     windowMs := Z.max 1 (opt_windowMs opts); maxKeys := Z.max 1 (opt_maxKeys opts) |}.

Definition with_hits (r : RateLimiter) (h : jsmap hit_entry) : RateLimiter :=
  {| hits := h; limit := limit r; windowMs := windowMs r; maxKeys := maxKeys r |}.

(* src: packages/core/src/rate-limit.ts:54-54 size *)
Definition size (r : RateLimiter) : Z := Z.of_nat (length (hits r)).

Definition live (r : RateLimiter) (now : Z) (e : hit_entry) : bool :=
  negb (windowMs r <=? now - windowStart e).

(* src: packages/core/src/rate-limit.ts:56-64 evict *)
Definition evict (r : RateLimiter) (now : Z) : RateLimiter :=
  let fresh := List.filter (fun kv => live r now (snd kv)) (hits r) in
  let r1 := with_hits r fresh in
  if maxKeys r <=? size r1
  then with_hits r (drop (Z.to_nat (size r1 - maxKeys r + 1)) fresh)
  else r1.

(* src: packages/core/src/rate-limit.ts:39-51 check *)
Definition check (r0 : RateLimiter) (key : string) (now : Z) : RateLimiter * RateLimitResult :=
  let r := if maxKeys r0 <=? size r0 then evict r0 now else r0 in
  let new_window :=
    (with_hits r (map_set (hits r) key {| count := 1; windowStart := now |}),
     {| allowed := true; remaining := limit r - 1; resetMs := windowMs r |}) in
  match map_get (hits r) key with
  | None => new_window
  | Some e =>
      if windowMs r <=? now - windowStart e then new_window
      else
        let reset := windowMs r - (now - windowStart e) in
        if limit r <=? count e
        then (r, {| allowed := false; remaining := 0; resetMs := reset |})
        else
          let e' := {| count := count e + 1; windowStart := windowStart e |} in
          (with_hits r (map_set (hits r) key e'),
           {| allowed := true; remaining := limit r - count e'; resetMs := reset |})
  end.

Fixpoint split_first (sep : ascii) (s : string) : string :=
  match s with
  | EmptyString => EmptyString
  | String c r => if Ascii.eqb c sep then EmptyString else String c (split_first sep r)
  end.

Definition ip_char (c : ascii) : bool :=
  is_alnum c || includes [":"; "."; "_"; "-"] (String c EmptyString).

(* src: packages/core/src/rate-limit.ts:68-73 ipKeyFromHeader *)
Definition ipKeyFromHeader (forwardedFor : option string) (fallback : string) : string :=
  if negb (truthy forwardedFor) then fallback
  else
    let first := trim (split_first "," (forwardedFor ?? "")) in
    if between 1 45 (str_len first) && str_forallb ip_char first then first else fallback.

(** A run of hits, in order, with the decision taken on each. *)
Fixpoint run (r : RateLimiter) (evs : list (string * Z)) : RateLimiter * list bool :=
  match evs with
  | [] => (r, [])
  | (k, t) :: rest =>
      let '(r1, d) := check r k t in
      let '(r2, ds) := run r1 rest in (r2, allowed d :: ds)
  end.

(** What a limiter keeps: a well-formed map no larger than the cap, whose
    counts stay between one and the limit. *)
Record Inv (r : RateLimiter) : Prop := {
  inv_limit : 1 <= limit r;
  inv_window : 1 <= windowMs r;
  inv_cap : 1 <= maxKeys r;
  inv_wf : map_wf (hits r);
  inv_size : size r <= maxKeys r;
  inv_counts : forall k e, map_get (hits r) k = Some e -> 1 <= count e <= limit r
}.

Lemma new_inv opts : Inv (new_RateLimiter opts).
Proof. split; simpl; try lia; [constructor|cbv [size]; simpl; lia|done]. Qed.

Lemma map_wf_filter {V} (p : string * V -> bool) (m : jsmap V) :
  map_wf m -> map_wf (List.filter p m).
Proof. apply NoDup_map_filter. Qed.

Lemma map_wf_drop {V} n (m : jsmap V) : map_wf m -> map_wf (drop n m).
Proof.
  unfold map_wf, map_keys. intros Hm. rewrite <- (take_drop n m), map_app in Hm.
  by apply NoDup_app in Hm as (_ & _ & Hm).
Qed.

Lemma map_get_In {V} (m : jsmap V) k v : map_get m k = Some v -> In (k, v) m.
Proof.
  induction m as [|[a w] m IH]; simpl; [done|].
  destruct (String.eqb_spec a k) as [->|]; [intros [= ->]; auto|auto].
Qed.

Lemma map_In_get {V} (m : jsmap V) k v : map_wf m -> In (k, v) m -> map_get m k = Some v.
Proof.
  unfold map_wf. induction m as [|[a w] m IH]; simpl; [done|].
  intros Hnd Hin. apply NoDup_cons in Hnd as [Ha Hnd]. destruct Hin as [[= -> ->]|Hin].
  - by rewrite String.eqb_refl.
  - destruct (String.eqb_spec a k) as [->|]; [|auto].
    exfalso. apply Ha, list_elem_of_In, in_map_iff. by exists (k, v).
Qed.

Lemma In_drop {A} n (l : list A) x : In x (drop n l) -> In x l.
Proof. intros H. rewrite <- (take_drop n l). apply in_or_app. auto. Qed.

Lemma evict_sub r now k e : Inv r -> map_get (hits (evict r now)) k = Some e ->
  map_get (hits r) k = Some e.
Proof.
  intros Hr Hg. apply map_In_get; [apply Hr|]. apply map_get_In in Hg.
  unfold evict in Hg. destruct (_ <=? _); simpl in Hg; [apply In_drop in Hg|];
    by apply filter_In in Hg as [Hg _].
Qed.

(** Eviction always leaves room for one more key. *)
Lemma evict_room r now : Inv r -> size (evict r now) < maxKeys r.
Proof.
  intros Hr. pose proof (inv_cap r Hr). unfold evict. set (f := List.filter _ _).
  unfold size; simpl. destruct (Z.leb_spec (maxKeys r) (Z.of_nat (length f))); simpl; [|lia].
  rewrite length_drop. lia.
Qed.

Lemma evict_fields r now :
  limit (evict r now) = limit r /\ windowMs (evict r now) = windowMs r /\
  maxKeys (evict r now) = maxKeys r.
Proof. unfold evict. by destruct (_ <=? _). Qed.

Lemma evict_inv r now : Inv r -> Inv (evict r now).
Proof.
  intros Hr. destruct (evict_fields r now) as (Hl & Hw & Hm).
  split; rewrite ?Hl, ?Hw, ?Hm; try apply Hr.
  - unfold evict. destruct (_ <=? _); simpl; [apply map_wf_drop|]; apply map_wf_filter, Hr.
  - pose proof (evict_room r now Hr). lia.
  - intros k e Hg. apply (inv_counts r Hr k). by apply (evict_sub r now).
Qed.

(** Writing an admissible entry keeps the invariant when there is room. *)
Lemma set_inv r k e : Inv r -> size r < maxKeys r \/ map_get (hits r) k <> None ->
  1 <= count e <= limit r -> Inv (with_hits r (map_set (hits r) k e)).
Proof.
  intros Hr Hroom He. split; simpl; try apply Hr.
  - apply map_wf_set, Hr.
  - pose proof (inv_size r Hr). unfold size in *. simpl. rewrite length_map_set.
    destruct (map_get (hits r) k); [done|]. destruct Hroom; [lia|done].
  - intros k' e'. rewrite map_get_set. destruct (k =s k'); [by intros [= <-]|apply (inv_counts r Hr)].
Qed.

Lemma check_inv r0 k t : Inv r0 -> Inv (fst (check r0 k t)).
Proof.
  intros Hr0. unfold check. set (r := if _ <=? _ then _ else _).
  assert (Hr : Inv r /\ size r < maxKeys r).
  { unfold r. destruct (Z.leb_spec (maxKeys r0) (size r0)); [|split; [done|lia]].
    split; [by apply evict_inv|]. destruct (evict_fields r0 t) as (_ & _ & ->).
    by apply evict_room. }
  destruct Hr as [Hr Hroom]. pose proof (inv_limit r Hr).
  assert (Hnew : Inv (with_hits r (map_set (hits r) k {| count := 1; windowStart := t |}))).
  { apply set_inv; auto. simpl. lia. }
  destruct (map_get (hits r) k) as [e|] eqn:He; [|done].
  destruct (windowMs r <=? _); [done|].
  destruct (Z.leb_spec (limit r) (count e)); simpl; [done|].
  apply set_inv; auto. simpl. pose proof (inv_counts r Hr k e He). lia.
Qed.

Lemma check_fields r k t :
  limit (fst (check r k t)) = limit r /\ windowMs (fst (check r k t)) = windowMs r /\
  maxKeys (fst (check r k t)) = maxKeys r.
Proof.
  unfold check. set (r' := if _ <=? _ then _ else _).
  assert (limit r' = limit r /\ windowMs r' = windowMs r /\ maxKeys r' = maxKeys r).
  { unfold r'. destruct (_ <=? _); [apply evict_fields|done]. }
  destruct (map_get (hits r') k) as [e|]; [|done].
  destruct (windowMs r' <=? _); [done|]. by destruct (limit r' <=? _).
Qed.

Lemma run_inv evs : forall r, Inv r ->
  Inv (fst (run r evs)) /\ maxKeys (fst (run r evs)) = maxKeys r.
Proof.
  induction evs as [|[k t] evs IH]; intros r Hr; simpl; [done|].
  pose proof (check_inv r k t Hr) as H1. pose proof (check_fields r k t) as (_ & _ & H2).
  destruct (check r k t) as [r1 d]; simpl in *. destruct (IH r1 H1) as [H3 H4].
  destruct (run r1 evs) as [r2 ds]; simpl in *. split; [done|congruence].
Qed.

(** * The decisions taken for one key *)

Definition times (key : string) (evs : list (string * Z)) : list Z :=
  map snd (List.filter (fun e => fst e =s key) evs).

(** The times of the hits of [key] that a run admits. *)
Definition admitted (r : RateLimiter) (evs : list (string * Z)) (key : string) : list Z :=
  map (fun p => snd (fst p))
    (List.filter (fun p : (string * Z) * bool => (fst (fst p) =s key) && snd p)
       (combine evs (snd (run r evs)))).

(** The same for a single key that is never evicted. *)
Definition kstep (L W : Z) (o : option hit_entry) (t : Z) : option hit_entry * bool :=
  let fresh := (Some {| count := 1; windowStart := t |}, true) in
  match o with
  | None => fresh
  | Some e =>
      if W <=? t - windowStart e then fresh
      else if L <=? count e then (o, false)
      else (Some {| count := count e + 1; windowStart := windowStart e |}, true)
  end.

Fixpoint kadm (L W : Z) (o : option hit_entry) (ts : list Z) : list Z :=
  match ts with
  | [] => []
  | t :: rest =>
      let '(o', b) := kstep L W o t in
      if b then t :: kadm L W o' rest else kadm L W o' rest
  end.

(** Below the cap a check touches its own key only, by [kstep]. *)
Lemma check_below_cap r k t : size r < maxKeys r ->
  allowed (snd (check r k t)) = snd (kstep (limit r) (windowMs r) (map_get (hits r) k) t) /\
  (forall k', map_get (hits (fst (check r k t))) k' =
     if k =s k' then fst (kstep (limit r) (windowMs r) (map_get (hits r) k) t)
     else map_get (hits r) k') /\
  (forall k', k' ∈ map_keys (hits (fst (check r k t))) -> k' = k \/ k' ∈ map_keys (hits r)).
Proof.
  intros Hs. unfold check, kstep.
  replace (maxKeys r <=? size r) with false by lia.
  assert (Hk : forall e k', k' ∈ map_keys (map_set (hits r) k e) -> k' = k \/ k' ∈ map_keys (hits r)).
  { intros e k' Hin. rewrite !elem_of_map_keys, map_get_set in *.
    destruct (String.eqb_spec k k'); auto. }
  destruct (map_get (hits r) k) as [e|] eqn:He; simpl.
  2:{ split; [done|]. split; [|by apply Hk]. intros k'. apply map_get_set. }
  destruct (windowMs r <=? _); simpl.
  { split; [done|]. split; [|by apply Hk]. intros k'. apply map_get_set. }
  destruct (limit r <=? _); simpl.
  - split; [done|]. split; [|auto]. intros k'. by destruct (String.eqb_spec k k') as [<-|].
  - split; [done|]. split; [|by apply Hk]. intros k'. apply map_get_set.
Qed.

Lemma size_below r (S : list string) : Inv r -> Z.of_nat (length S) < maxKeys r ->
  (forall k, k ∈ map_keys (hits r) -> k ∈ S) -> size r < maxKeys r.
Proof.
  intros Hr HS Hin. assert ((length (map_keys (hits r)) <= length S)%nat).
  { apply NoDup_incl_length; [apply NoDup_ListNoDup, (inv_wf r Hr)|].
    intros k Hk%list_elem_of_In. by apply list_elem_of_In, Hin. }
  unfold map_keys in *. rewrite length_map in *. unfold size. lia.
Qed.

Lemma admitted_kadm (S : list string) key evs : forall r, Inv r ->
  Z.of_nat (length S) < maxKeys r ->
  (forall k, k ∈ map_keys (hits r) -> k ∈ S) -> (forall k, k ∈ map fst evs -> k ∈ S) ->
  admitted r evs key = kadm (limit r) (windowMs r) (map_get (hits r) key) (times key evs).
Proof.
  unfold admitted, times.
  induction evs as [|[k t] evs IH]; intros r Hr HS Hk He; [done|].
  pose proof (check_below_cap r k t (size_below r S Hr HS Hk)) as (Hd & Hg & Hks).
  pose proof (check_inv r k t Hr) as Hr1. pose proof (check_fields r k t) as (Hl & Hw & Hm).
  simpl. destruct (check r k t) as [r1 d]; simpl in *.
  assert (IHr := IH r1 Hr1 ltac:(congruence)
    ltac:(intros k' [->|?]%Hks; [apply He; left|auto]) ltac:(intros; apply He; by right)).
  rewrite Hl, Hw, (Hg key) in IHr. clear IH.
  destruct (run r1 evs) as [r2 ds]; simpl in *.
  destruct (String.eqb_spec k key) as [->|Hne]; simpl; [|done].
  rewrite Hd. destruct (kstep _ _ _ t) as [o' b]; simpl in *. destruct b; simpl; congruence.
Qed.

Section OneKey.
Context (L W : Z) (HL : 1 <= L) (HW : 1 <= W).

Lemma kadm_window_exact c ws ts : 1 <= c <= L -> Forall (fun t => t - ws < W) ts ->
  kadm L W (Some {| count := c; windowStart := ws |}) ts = take (Z.to_nat (L - c)) ts.
Proof.
  intros Hc Hts. revert c Hc. induction Hts as [|t ts Ht _ IH]; intros c Hc; simpl.
  { by rewrite take_nil. }
  replace (W <=? t - ws) with false by lia. destruct (Z.leb_spec L c); simpl.
  - rewrite IH by lia. by replace (Z.to_nat (L - c)) with 0%nat by lia.
  - rewrite IH by lia. by replace (Z.to_nat (L - c)) with (S (Z.to_nat (L - (c + 1)))) by lia.
Qed.

Definition within (a : Z) (l : list Z) : Z :=
  Z.of_nat (length (List.filter (fun t => (a <=? t) && (t <? a + W)) l)).

Lemma within_cons a t l : 0 <= within a l /\ within a (t :: l) <= within a l + 1 /\
  (a + W <= t \/ t < a -> within a (t :: l) = within a l).
Proof.
  unfold within. simpl. destruct (_ && _) eqn:Hb; simpl; [|lia].
  apply andb_true_iff in Hb as [Hb1 Hb2]. repeat split; lia.
Qed.

Lemma within_late a o ts : Forall (fun t => a + W <= t) ts -> within a (kadm L W o ts) = 0.
Proof.
  intros Hts. revert o. induction Hts as [|t ts Ht _ IH]; intros o; simpl; [done|].
  destruct (kstep L W o t) as [o' [|]]; [|done].
  destruct (within_cons a t (kadm L W o' ts)) as (_ & _ & ->); [done|by left].
Qed.

Lemma within_own_window a c ws ts : 1 <= c <= L -> a <= ws -> StronglySorted Z.le ts ->
  within a (kadm L W (Some {| count := c; windowStart := ws |}) ts) <= L - c.
Proof.
  intros Hc Hws Hts. revert c Hc. induction Hts as [|t ts Hts IH Ht]; intros c Hc; simpl.
  { unfold within; simpl; lia. }
  destruct (Z.leb_spec W (t - ws)).
  - assert (Hlate : Forall (fun x => a + W <= x) ts) by (eapply Forall_impl; [done|]; simpl; lia).
    pose proof (within_late a (Some {| count := 1; windowStart := t |}) ts Hlate).
    destruct (within_cons a t (kadm L W (Some {| count := 1; windowStart := t |}) ts))
      as (_ & _ & ->); lia.
  - destruct (Z.leb_spec L c); [by apply IH|].
    pose proof (IH (c + 1) ltac:(lia)).
    pose proof (within_cons a t (kadm L W (Some {| count := c + 1; windowStart := ws |}) ts)). lia.
Qed.

Lemma within_from a o ts : StronglySorted Z.le ts -> Forall (fun t => a <= t) ts ->
  (forall e, o = Some e -> 1 <= count e <= L) ->
  within a (kadm L W o ts) <= match o with Some e => L - count e + L | None => L end.
Proof.
  intros Hts. revert o. induction Hts as [|t ts Hts IH Ht]; intros o Ha Ho; simpl.
  { destruct o as [e|]; [specialize (Ho e eq_refl)|]; unfold within; simpl; lia. }
  apply Forall_cons in Ha as [Hat Ha].
  assert (Hfresh : within a (t :: kadm L W (Some {| count := 1; windowStart := t |}) ts) <= L).
  { pose proof (within_own_window a 1 t ts ltac:(lia) Hat Hts).
    pose proof (within_cons a t (kadm L W (Some {| count := 1; windowStart := t |}) ts)). lia. }
  destruct o as [e|]; simpl; [|done]. specialize (Ho e eq_refl).
  destruct (W <=? t - windowStart e); [lia|]. destruct (Z.leb_spec L (count e)).
  - apply IH; [done|]. by intros ? [= <-].
  - pose proof (IH (Some {| count := count e + 1; windowStart := windowStart e |}) Ha) as Hi.
    simpl in Hi. specialize (Hi ltac:(intros ? [= <-]; simpl; lia)).
    pose proof (within_cons a t
      (kadm L W (Some {| count := count e + 1; windowStart := windowStart e |}) ts)). lia.
Qed.

Lemma within_twice a o ts : StronglySorted Z.le ts ->
  (forall e, o = Some e -> 1 <= count e <= L) -> within a (kadm L W o ts) <= 2 * L.
Proof.
  intros Hts. revert o. induction Hts as [|t ts Hts IH Ht]; intros o Ho.
  { unfold within; simpl. lia. }
  destruct (Z.lt_ge_cases t a) as [Hlt|Hge].
  - simpl. destruct (kstep L W o t) as [o' b] eqn:Hk.
    assert (Ho' : forall e, o' = Some e -> 1 <= count e <= L).
    { intros e ->. unfold kstep in Hk. destruct o as [e0|].
      - specialize (Ho e0 eq_refl). destruct (W <=? _); [by injection Hk as <- <-; simpl; lia|].
        destruct (Z.leb_spec L (count e0)); injection Hk as <- <-; simpl; lia.
      - injection Hk as <- <-. simpl. lia. }
    destruct b; [|by apply IH].
    destruct (within_cons a t (kadm L W o' ts)) as (_ & _ & ->); [by apply IH|by right].
  - assert (Ha : Forall (fun x => a <= x) (t :: ts)).
    { constructor; [done|]. eapply Forall_impl; [done|]. simpl. lia. }
    pose proof (within_from a o (t :: ts) (SSorted_cons _ Hts Ht) Ha Ho) as Hb.
    destruct o as [e|]; [specialize (Ho e eq_refl)|]; lia.
Qed.
End OneKey.

Lemma times_sorted key evs : StronglySorted Z.le (map snd evs) -> StronglySorted Z.le (times key evs).
Proof.
  unfold times. induction evs as [|[k t] evs IH]; simpl; [done|].
  intros [Hs Ht]%StronglySorted_inv. destruct (k =s key); simpl; [|auto].
  constructor; [auto|]. rewrite Forall_forall in *. intros x Hx. apply Ht.
  apply list_elem_of_In, in_map_iff in Hx as [y [<- Hy]]. apply filter_In in Hy as [Hy _].
  apply list_elem_of_In. by apply in_map.
Qed.

Lemma admitted_fresh opts evs key :
  Z.of_nat (length (js_set (map fst evs))) < Z.max 1 (opt_maxKeys opts) ->
  admitted (new_RateLimiter opts) evs key =
    kadm (Z.max 1 (opt_limit opts)) (Z.max 1 (opt_windowMs opts)) None (times key evs).
Proof.
  intros Hcap. apply (admitted_kadm (js_set (map fst evs))); [apply new_inv|done| |].
  - intros k Hk. by apply not_elem_of_nil in Hk.
  - intros k Hk. by apply elem_of_js_set.
Qed.

(** * The properties *)

(** Memory is hard-bounded: whatever keys are sprayed at it, in whatever
    order and at whatever times, a limiter never tracks more keys than its cap. *)
Theorem limiter_memory_bounded (opts : RateLimiterOptions) (evs : list (string * Z)) :
  size (fst (run (new_RateLimiter opts) evs)) <= Z.max 1 (opt_maxKeys opts).
Proof.
  destruct (run_inv evs (new_RateLimiter opts) (new_inv opts)) as [Hi Hm].
  pose proof (inv_size _ Hi). rewrite Hm in H. exact H.
Qed.

(** Exactness in one window: as long as fewer distinct keys than the cap
    are in play, the hits of a key that fall within one window of its first hit
    are admitted up to the limit, the earliest ones, and every later one is denied. *)
Theorem limiter_admits_first_hits (opts : RateLimiterOptions) (evs : list (string * Z))
    (key : string) (t0 : Z) (rest : list Z) :
  Z.of_nat (length (js_set (map fst evs))) < Z.max 1 (opt_maxKeys opts) ->
  times key evs = t0 :: rest ->
  Forall (fun t => t - t0 < Z.max 1 (opt_windowMs opts)) rest ->
  admitted (new_RateLimiter opts) evs key = take (Z.to_nat (Z.max 1 (opt_limit opts))) (t0 :: rest).
Proof.
  intros Hcap Hts Hw. rewrite admitted_fresh, Hts by done. simpl.
  rewrite kadm_window_exact by (done || lia).
  by replace (Z.to_nat (Z.max 1 (opt_limit opts)))
    with (S (Z.to_nat (Z.max 1 (opt_limit opts) - 1))) by lia.
Qed.

Lemma limiter_admits_first_hits_witness :
  admitted (new_RateLimiter {| opt_limit := 2; opt_windowMs := 10; opt_maxKeys := 5 |})
    [("a", 0); ("b", 1); ("a", 2); ("a", 3); ("a", 9)] "a" = [0; 2].
Proof.
  refine (limiter_admits_first_hits {| opt_limit := 2; opt_windowMs := 10; opt_maxKeys := 5 |}
    [("a", 0); ("b", 1); ("a", 2); ("a", 3); ("a", 9)] "a" 0 [2; 3; 9] eq_refl eq_refl _).
  repeat constructor; simpl; lia.
Defined.

(** Fixed windows across a boundary: with a monotone clock and fewer
    distinct keys than the cap, any interval one window long, wherever it
    starts, sees at most twice the limit admitted for a key. *)
Theorem limiter_sliding_bound (opts : RateLimiterOptions) (evs : list (string * Z))
    (key : string) (a : Z) :
  Z.of_nat (length (js_set (map fst evs))) < Z.max 1 (opt_maxKeys opts) ->
  StronglySorted Z.le (map snd evs) ->
  within (Z.max 1 (opt_windowMs opts)) a (admitted (new_RateLimiter opts) evs key) <=
    2 * Z.max 1 (opt_limit opts).
Proof.
  intros Hcap Hs. rewrite admitted_fresh by done.
  apply within_twice; [lia|by apply times_sorted|done].
Qed.

Lemma limiter_sliding_bound_witness :
  within 10 9 (admitted (new_RateLimiter {| opt_limit := 1; opt_windowMs := 10; opt_maxKeys := 5 |})
    [("a", 9); ("a", 19); ("a", 20)] "a") <= 2.
Proof.
  refine (limiter_sliding_bound {| opt_limit := 1; opt_windowMs := 10; opt_maxKeys := 5 |}
    [("a", 9); ("a", 19); ("a", 20)] "a" 9 eq_refl _).
  repeat constructor; simpl; lia.
Defined.

(** A full limiter forgets: when the map is at its cap and no window has
    expired, a hit on the oldest-inserted key evicts that key's own window first,
    so the hit is admitted however far over the limit the key already is. *)
Theorem full_limiter_forgets_oldest (r : RateLimiter) (key : string) (e : hit_entry)
    (m : jsmap hit_entry) (now : Z) :
  Inv r -> hits r = (key, e) :: m -> size r = maxKeys r ->
  Forall (fun kv => live r now (snd kv) = true) (hits r) ->
  allowed (snd (check r key now)) = true.
Proof.
  intros Hr Hh Hsz Hlive. unfold check. rewrite Hsz, Z.leb_refl.
  unfold evict. rewrite List.forallb_filter_id.
  2:{ apply forallb_forall. intros kv Hin%list_elem_of_In. rewrite Forall_forall in Hlive. auto. }
  unfold size in *; simpl. rewrite Hsz, Z.leb_refl, Z.sub_diag. simpl. rewrite Hh. simpl.
  rewrite drop_0. pose proof (inv_wf r Hr) as Hwf. unfold map_wf in Hwf. rewrite Hh in Hwf.
  apply NoDup_cons in Hwf as [Hk _].
  destruct (map_get m key) as [e'|] eqn:He; [|done].
  exfalso. apply Hk, elem_of_map_keys. simpl. by rewrite He.
Qed.

Lemma full_limiter_forgets_oldest_witness :
  allowed (snd (check (fst (run (new_RateLimiter {| opt_limit := 1; opt_windowMs := 10; opt_maxKeys := 1 |})
    [("a", 0)])) "a" 1)) = true.
Proof.
  refine (full_limiter_forgets_oldest _ "a" {| count := 1; windowStart := 0 |} [] 1
    (proj1 (run_inv [("a", 0)] _
      (new_inv {| opt_limit := 1; opt_windowMs := 10; opt_maxKeys := 1 |}))) eq_refl eq_refl _).
  repeat constructor.
Defined.

(** A rate-limit key taken from an untrusted header is bounded and safe: it
    is the fallback, or one to 45 characters of the allowed set. *)
Theorem ipKey_bounded (h : option string) (fallback : string) :
  ipKeyFromHeader h fallback = fallback \/
  (1 <= str_len (ipKeyFromHeader h fallback) <= 45 /\
   str_forallb ip_char (ipKeyFromHeader h fallback) = true).
Proof.
  unfold ipKeyFromHeader. destruct (negb _); [auto|].
  set (first := trim _). unfold between. destruct (_ && _) eqn:Hb; [|auto].
  guards_in Hb. right. tauto.
Qed.

End Limiter.

(** * The shared store *)

Module Store.

(* src: packages/core/src/rate-limit-store.ts:18-24 RateLimitDecision *)
Record RateLimitDecision := { allowed : bool; count : Z; resetAt : Z }.

(** The contract a store offers the limiter: registering a hit either throws or
    decides against the limit it was given. *)
(* src: packages/core/src/rate-limit-store.ts:26-30 RateLimitStore *)
Class RateLimitStore (S : Type) := {
  store_name : string;
  hit : S -> string -> Z -> Z -> Z -> S * outcome RateLimitDecision string;
  hit_decides : forall s key windowMs limit now s' d,
    hit s key windowMs limit now = (s', Ret d) -> allowed d = true -> count d <= limit
}.

(** ** In memory *)

(* src: packages/core/src/rate-limit-store.ts:40-40 windows *)
Record window := { w_count : Z; w_resetAt : Z }.

(* src: packages/core/src/rate-limit-store.ts:38-41 InMemoryRateLimitStore *)
Record InMemoryRateLimitStore := { windows : jsmap window; maxKeys : Z }.

Definition default_maxKeys : Z := 20000.

(** [this.windows.delete(this.windows.keys().next().value)] *)
Definition delete_oldest (m : jsmap window) : jsmap window := match m with [] => [] | _ :: r => r end.

(* src: packages/core/src/rate-limit-store.ts:47-51 hit *)
Definition make_room (m : jsmap window) (cap now : Z) : jsmap window :=
  if cap <=? Z.of_nat (length m) then
    let m1 := List.filter (fun kv => negb (w_resetAt (snd kv) <=? now)) m in
    if cap <=? Z.of_nat (length m1) then delete_oldest m1 else m1
  else m.

(* src: packages/core/src/rate-limit-store.ts:42-57 hit *)
Definition memory_hit (s : InMemoryRateLimitStore) (key : string) (windowMs limit now : Z)
  : InMemoryRateLimitStore * outcome RateLimitDecision string :=
  let '(m, w) :=
    match map_get (windows s) key with
    | Some w => if w_resetAt w <=? now
                then (make_room (windows s) (maxKeys s) now, {| w_count := 0; w_resetAt := now + windowMs |})
                else (windows s, w)
    | None => (make_room (windows s) (maxKeys s) now, {| w_count := 0; w_resetAt := now + windowMs |})
    end in
  let w' := {| w_count := w_count w + 1; w_resetAt := w_resetAt w |} in
  ({| windows := map_set m key w'; maxKeys := maxKeys s |},
   Ret {| allowed := w_count w' <=? limit; count := w_count w'; resetAt := w_resetAt w' |}).

#[export] Program Instance memory_store : RateLimitStore InMemoryRateLimitStore :=
  {| store_name := "memory"; hit := memory_hit |}.
Next Obligation.
  intros s key windowMs limit now s' d. unfold memory_hit.
  destruct (match map_get (windows s) key with Some _ => _ | None => _ end) as [m w].
  intros [= <- <-]; simpl. apply Z.leb_le.
Qed.

(** ** Upstash *)

Section Upstash.
(** The REST round trip ([fetch] of a pipeline [INCR key; PEXPIRE key window NX])
    is the outside world: it takes the Redis key and the window and yields the
    response, or throws. *)
Record rest_response := { ok : bool; http_status : string; result0 : option Z }.
Context (World : Type) (pipeline : World -> string -> Z -> World * outcome rest_response string).

(* src: packages/core/src/rate-limit-store.ts:67-78 hit *)
Definition upstash_hit (s : World) (key : string) (windowMs limit now : Z)
  : World * outcome RateLimitDecision string :=
  match pipeline s ("rl:" ++ key)%string windowMs with
  | (s', Throw e) => (s', Throw e)
  | (s', Ret resp) =>
      if negb (ok resp) then (s', Throw ("upstash_" ++ http_status resp)%string)
      else
        let c := result0 resp ?? 0 in
        (s', Ret {| allowed := c <=? limit; count := c; resetAt := now + windowMs |})
  end.

(* src: packages/core/src/rate-limit-store.ts:64-66 UpstashRateLimitStore *)
Program Definition upstash_store : RateLimitStore World :=
  {| store_name := "upstash"; hit := upstash_hit |}.
Next Obligation.
  intros s key windowMs limit now s' d. unfold upstash_hit.
  destruct (pipeline _ _ _) as [s1 [resp|e]]; [|done].
  destruct (negb (ok resp)); [done|]. intros [= <- <-]; simpl. apply Z.leb_le.
Qed.
End Upstash.

(** ** The limiter over any store *)

Section Shared.
(** [sha256] is Node's hash, rendered base64url. *)
Context (sha256_base64url : string -> string).

(* src: packages/core/src/rate-limit-store.ts:33-35 minimizeKey *)
Definition minimizeKey (raw : string) : string := String.substring 0 24 (sha256_base64url raw).

(* src: packages/core/src/rate-limit-store.ts:86-87 SharedRateLimiter *)
Record SharedRateLimiter (S : Type) := {
  store : S; opt_windowMs : Z; opt_limit : Z; opt_failClosed : option bool
}.

Context {S : Type} `{RateLimitStore S}.

(* src: packages/core/src/rate-limit-store.ts:88-96 check *)
Definition check (l : SharedRateLimiter S) (rawKey : string) (now : Z)
  : SharedRateLimiter S * RateLimitDecision :=
  let '(s', o) := hit (store S l) (minimizeKey rawKey) (opt_windowMs S l) (opt_limit S l) now in
  ({| store := s'; opt_windowMs := opt_windowMs S l; opt_limit := opt_limit S l;
      opt_failClosed := opt_failClosed S l |},
   match o with
   | Ret d => d
   | Throw _ =>
       let failClosed := opt_failClosed S l ?? true in
       {| allowed := negb failClosed; count := opt_limit S l + 1; resetAt := now + opt_windowMs S l |}
   end).
End Shared.

(* src: packages/core/src/rate-limit-store.ts:105-109 createRateLimitStore *)
Definition createRateLimitStore (URL TOKEN : option string)
  : (string * string) + InMemoryRateLimitStore :=
  let url := opt_trim URL in
  let token := opt_trim TOKEN in
  if truthy url && truthy token then inl (url ?? "", token ?? "")
  else inr {| windows := []; maxKeys := default_maxKeys |}.

Lemma length_make_room m cap now :
  (length (make_room m cap now) <= length m)%nat /\
  (1 <= cap -> Z.of_nat (length m) <= cap -> Z.of_nat (length (make_room m cap now)) < cap).
Proof.
  unfold make_room. destruct (Z.leb_spec cap (Z.of_nat (length m))); [|lia].
  pose proof (List.filter_length_le (fun kv => negb (w_resetAt (snd kv) <=? now)) m) as Hf.
  destruct (List.filter _ m) as [|x m1]; [destruct (Z.leb_spec cap (Z.of_nat (length (@nil (string * window))))); simpl in *; lia|].
  destruct (Z.leb_spec cap (Z.of_nat (length (x :: m1)))); simpl in *; lia.
Qed.

(** A run of hits on the in-memory store. *)
Fixpoint hits (s : InMemoryRateLimitStore) (evs : list (string * Z * Z * Z)) : InMemoryRateLimitStore :=
  match evs with
  | [] => s
  | (k, w, l, t) :: rest => hits (fst (memory_hit s k w l t)) rest
  end.

Lemma memory_hit_bounded s k w l t :
  1 <= maxKeys s -> Z.of_nat (length (windows s)) <= maxKeys s ->
  maxKeys (fst (memory_hit s k w l t)) = maxKeys s /\
  Z.of_nat (length (windows (fst (memory_hit s k w l t)))) <= maxKeys s.
Proof.
  intros Hc Hs. unfold memory_hit.
  pose proof (length_make_room (windows s) (maxKeys s) t) as [H1 H2].
  destruct (map_get (windows s) k) as [e|] eqn:He; [destruct (w_resetAt e <=? t)|]; simpl;
    (split; [done|]); rewrite length_map_set.
  2:{ by rewrite He. }
  all: destruct (map_get (make_room _ _ _) k); specialize (H2 Hc Hs); lia.
Qed.

(** The in-memory store is bounded: however it is driven, it holds at most
    [maxKeys] windows. *)
Theorem memory_store_bounded (cap : Z) (evs : list (string * Z * Z * Z)) :
  1 <= cap ->
  Z.of_nat (length (windows (hits {| windows := []; maxKeys := cap |} evs))) <= cap.
Proof.
  intros Hc. cut (forall s, maxKeys s = cap -> Z.of_nat (length (windows s)) <= cap ->
    Z.of_nat (length (windows (hits s evs))) <= cap); [intros H; apply H; [done|simpl; lia]|].
  induction evs as [|[[[k w] l] t] evs IH]; intros s Hs Hl; cbn [hits]; [done|].
  destruct (memory_hit_bounded s k w l t) as [H1 H2]; [lia|lia|]. apply IH; congruence.
Qed.

Lemma memory_store_bounded_witness :
  Z.of_nat (length (windows (hits {| windows := []; maxKeys := 2 |}
    [("a", 10, 1, 0); ("b", 10, 1, 0); ("c", 10, 1, 0)]))) <= 2.
Proof. apply (memory_store_bounded 2). lia. Defined.

(** The in-memory store counts exactly: the first hit of a key without a
    live window counts one, every further hit before the window resets counts
    one more and keeps the reset time, and a hit is allowed exactly while the
    count is within the limit. *)
Theorem memory_hit_counts (s : InMemoryRateLimitStore) (key : string) (windowMs limit now : Z)
    (s' : InMemoryRateLimitStore) (d : RateLimitDecision) :
  hit s key windowMs limit now = (s', Ret d) ->
  (match map_get (windows s) key with
   | Some w => if w_resetAt w <=? now then count d = 1 /\ resetAt d = now + windowMs
               else count d = w_count w + 1 /\ resetAt d = w_resetAt w
   | None => count d = 1 /\ resetAt d = now + windowMs
   end) /\
  allowed d = (count d <=? limit) /\
  map_get (windows s') key = Some {| w_count := count d; w_resetAt := resetAt d |}.
Proof.
  simpl. unfold memory_hit.
  destruct (map_get (windows s) key) as [w|]; [destruct (w_resetAt w <=? now)|];
    intros [= <- <-]; simpl; rewrite map_get_set, String.eqb_refl; auto.
Qed.

Lemma memory_hit_counts_witness :
  let s := hits {| windows := []; maxKeys := 2 |} [("a", 10, 1, 0)] in
  allowed {| allowed := false; count := 2; resetAt := 10 |} = (2 <=? 1) /\
  w_count {| w_count := 2; w_resetAt := 10 |} = 2 /\
  map_get (windows (fst (memory_hit s "a" 10 1 5))) "a" = Some {| w_count := 2; w_resetAt := 10 |}.
Proof.
  intros s. destruct (memory_hit_counts s "a" 10 1 5 (fst (memory_hit s "a" 10 1 5))
    {| allowed := false; count := 2; resetAt := 10 |} eq_refl) as (_ & H1 & H2).
  split; [exact H1|]. split; [reflexivity|exact H2].
Defined.

(** A sensitive path fails closed, over any store that keeps the contract:
    with [failClosed] left at its default a hit is allowed only when the store
    answered and its count is within the limit; a store that throws denies. *)
Theorem shared_limiter_fails_closed (S : Type) (St : RateLimitStore S) (sha : string -> string)
    (l : SharedRateLimiter S) (rawKey : string) (now : Z) :
  opt_failClosed S l ?? true = true ->
  allowed (snd (check sha l rawKey now)) = true ->
  exists s' d, hit (store S l) (minimizeKey sha rawKey) (opt_windowMs S l) (opt_limit S l) now = (s', Ret d) /\
    count d <= opt_limit S l /\ count (snd (check sha l rawKey now)) = count d.
Proof.
  intros Hf. unfold check. destruct (hit _ _ _ _ _) as [s' [d|e]] eqn:He; simpl.
  - intros Ha. exists s', d. split; [done|]. split; [|done]. by eapply hit_decides.
  - by rewrite Hf.
Qed.

Lemma shared_limiter_fails_closed_witness :
  exists s' d, memory_hit {| windows := []; maxKeys := 9 |} "ip" 10 3 0 = (s', Ret d) /\ count d <= 3 /\
    count (snd (check (fun s => s)
      {| store := {| windows := []; maxKeys := 9 |}; opt_windowMs := 10; opt_limit := 3; opt_failClosed := None |} "ip" 0)) = count d.
Proof.
  exact (shared_limiter_fails_closed InMemoryRateLimitStore memory_store (fun s => s)
    {| store := {| windows := []; maxKeys := 9 |}; opt_windowMs := 10; opt_limit := 3; opt_failClosed := None |}
    "ip" 0 eq_refl eq_refl).
Defined.

End Store.
