(* ===== verification/Csv.v ===== *)
(** CSV export ([packages/core/src/csv.ts]): field escaping with the formula
    guard, the document builder, and the round trip through an independent
    RFC 4180 reader. *)
From S2P Require Import Prelude.
Open Scope string_scope.
Open Scope list_scope.
Open Scope Z_scope.
Open Scope tam_scope.

Module Csv.

(** A cell is [unknown]: absent, a string, or another value with the text
    [String(value)] gives for it. *)
Inductive cell := CNull | CStr (s : string) | COther (rendered : string).

Definition TAB : ascii := "009".
Definition LF : ascii := "010".
Definition CR : ascii := "013".
Definition QUOTE : ascii := "034".
Definition COMMA : ascii := "044".

Definition chr (c : ascii) : string := String c EmptyString.

(** What a spreadsheet reads as the start of a formula, or a TAB or CR. *)
Definition formula_char (c : ascii) : bool :=
  existsb (Ascii.eqb c) ["="%char; "+"%char; "-"%char; "@"%char; TAB; CR].

(** A quote, a comma, CR or LF. *)
Definition special_char (c : ascii) : bool := existsb (Ascii.eqb c) [QUOTE; COMMA; CR; LF].

Definition starts_formula (s : string) : bool :=
  match s with EmptyString => false | String c _ => formula_char c end.

Definition has_special (s : string) : bool := negb (str_forallb (fun c => negb (special_char c)) s).

(** Every quote doubled. *)
Fixpoint double_quotes (s : string) : string :=
  match s with
  | EmptyString => EmptyString
  | String c r => if Ascii.eqb c QUOTE then String QUOTE (String QUOTE (double_quotes r))
                  else String c (double_quotes r)
  end.

Definition cell_text (value : cell) : string :=
  match value with CNull => "" | CStr s => s | COther s => s end.

(* src: packages/core/src/csv.ts:9-11 csvEscapeField *)
Definition neutralize (s : string) : string := if starts_formula s then String "'" s else s.

(* src: packages/core/src/csv.ts:7-14 csvEscapeField *)
Definition csvEscapeField (value : cell) : string :=
  let s := neutralize (cell_text value) in
  if has_special s then String QUOTE (double_quotes s +:+ chr QUOTE) else s.

(** [Array.prototype.join] *)
Definition join (sep : string) (l : list string) : string := String.concat sep l.

Definition CRLF : string := String CR (chr LF).

(* src: packages/core/src/csv.ts:17-21 toCsv *)
Definition toCsv (headers : list string) (rows : list (list cell)) : string :=
  let out := join (chr COMMA) (map (fun h => csvEscapeField (CStr h)) headers)
             :: map (fun row => join (chr COMMA) (map csvEscapeField row)) rows in
  join CRLF out +:+ CRLF.

(** * An RFC 4180 reader

    The specification side: one left-to-right pass that knows nothing of the
    writer. [row] and [field] are what has been read of the current record and
    field, the mode whether a quoted field is open. *)

Inductive mode := Start | Bare | Quoted | Closed.

Definition push (field : string) (c : ascii) : string := field +:+ chr c.

Fixpoint read (md : mode) (row : list string) (field : string) (s : string) : option (list (list string)) :=
  match s with
  | EmptyString =>
      match md, row, field with Start, [], EmptyString => Some [] | _, _, _ => None end
  | String c r =>
      match md with
      | Quoted =>
          if Ascii.eqb c QUOTE then read Closed row field r else read Quoted row (push field c) r
      | Closed =>
          if Ascii.eqb c QUOTE then read Quoted row (push field QUOTE) r
          else if Ascii.eqb c COMMA then read Start (row ++ [field]) "" r
          else if Ascii.eqb c CR then
            match r with
            | String c' r' => if Ascii.eqb c' LF
                then option_map (cons (row ++ [field])) (read Start [] "" r') else None
            | EmptyString => None
            end
          else None
      | Start | Bare =>
          if Ascii.eqb c QUOTE then
            match md with Start => read Quoted row "" r | _ => None end
          else if Ascii.eqb c COMMA then read Start (row ++ [field]) "" r
          else if Ascii.eqb c CR then
            match r with
            | String c' r' => if Ascii.eqb c' LF
                then option_map (cons (row ++ [field])) (read Start [] "" r') else None
            | EmptyString => None
            end
          else if Ascii.eqb c LF then None
          else read Bare row (push field c) r
      end
  end.

Definition parseCsv (s : string) : option (list (list string)) := read Start [] "" s.

(** What follows a field: the rest of the document from its separator on. *)
Definition after_field (row : list string) (field : string) (tail : string) : option (list (list string)) :=
  read Closed row field tail.

Definition separator (tail : string) : Prop :=
  (exists r, tail = String COMMA r) \/ (exists r, tail = String CR (String LF r)).

Lemma str_app_cons c (a b : string) : String c a +:+ b = String c (a +:+ b).
Proof. done. Qed.

Lemma str_app_assoc (a b c : string) : (a +:+ b) +:+ c = a +:+ b +:+ c.
Proof. induction a as [|x a IH]; rewrite ?str_app_cons; [done|]. by rewrite IH. Qed.

Lemma str_app_nil (a : string) : a +:+ "" = a.
Proof. induction a as [|x a IH]; rewrite ?str_app_cons; [done|]. by rewrite IH. Qed.

Lemma push_app field c r : push field c +:+ r = field +:+ String c r.
Proof. unfold push. by rewrite str_app_assoc. Qed.

Lemma read_quoted row field s tail :
  read Quoted row field (double_quotes s +:+ String QUOTE tail) = read Closed row (field +:+ s) tail.
Proof.
  revert field. induction s as [|c s IH]; intros field; [by rewrite str_app_nil|].
  cbn [double_quotes]. destruct (Ascii.eqb_spec c QUOTE) as [->|Hc]; rewrite ?str_app_cons; cbn [read].
  - rewrite !Ascii.eqb_refl. by rewrite IH, push_app.
  - destruct (Ascii.eqb_spec c QUOTE); [done|]. by rewrite IH, push_app.
Qed.

Lemma not_special c : special_char c = false -> c <> QUOTE /\ c <> COMMA /\ c <> CR /\ c <> LF.
Proof.
  unfold special_char. simpl. rewrite !orb_false_iff. intros (H1 & H2 & H3 & H4 & _).
  by apply Ascii.eqb_neq in H1, H2, H3, H4.
Qed.

Lemma has_special_cons c s : has_special (String c s) = false ->
  special_char c = false /\ has_special s = false.
Proof.
  unfold has_special. simpl. rewrite !negb_false_iff, andb_true_iff, negb_true_iff. auto.
Qed.

Lemma read_bare_sep md row field tail : md = Start \/ md = Bare -> separator tail ->
  read md row field tail = read Closed row field tail.
Proof. by intros [-> | ->] [[r ->]|[r ->]]. Qed.

Lemma read_bare row field s tail : has_special s = false -> separator tail ->
  read Bare row field (s +:+ tail) = read Closed row (field +:+ s) tail.
Proof.
  revert field. induction s as [|c s IH]; intros field Hs Ht.
  { rewrite str_app_nil. apply read_bare_sep; auto. }
  apply has_special_cons in Hs as [Hc Hs]. apply not_special in Hc as (H1 & H2 & H3 & H4).
  rewrite ?str_app_cons; cbn [read]. destruct (Ascii.eqb_spec c QUOTE); [done|].
  destruct (Ascii.eqb_spec c COMMA); [done|]. destruct (Ascii.eqb_spec c CR); [done|].
  destruct (Ascii.eqb_spec c LF); [done|]. by rewrite IH, push_app.
Qed.

(** One escaped field, whatever follows it. *)
Lemma read_field row (v : cell) tail : separator tail ->
  read Start row "" (csvEscapeField v +:+ tail) = read Closed row (neutralize (cell_text v)) tail.
Proof.
  intros Ht. unfold csvEscapeField. set (s := neutralize _).
  destruct (has_special s) eqn:Hs.
  - rewrite ?str_app_cons; cbn [read]. rewrite Ascii.eqb_refl, str_app_assoc. apply read_quoted.
  - destruct s as [|c s']; [by apply read_bare_sep; auto|].
    apply has_special_cons in Hs as [Hc Hs]. apply not_special in Hc as (H1 & H2 & H3 & H4).
    rewrite ?str_app_cons; cbn [read]. destruct (Ascii.eqb_spec c QUOTE); [done|].
    destruct (Ascii.eqb_spec c COMMA); [done|]. destruct (Ascii.eqb_spec c CR); [done|].
    destruct (Ascii.eqb_spec c LF); [done|]. by apply (read_bare row (chr c)).
Qed.

Lemma read_closed_comma row field r : read Closed row field (String COMMA r) = read Start (row ++ [field]) "" r.
Proof. done. Qed.

Lemma read_closed_crlf row field r :
  read Closed row field (CRLF +:+ r) = option_map (cons (row ++ [field])) (read Start [] "" r).
Proof. done. Qed.

Definition cell_value (v : cell) : string := neutralize (cell_text v).

Lemma read_line row (vs : list cell) tail : vs <> [] ->
  read Start row "" (join (chr COMMA) (map csvEscapeField vs) +:+ CRLF +:+ tail) =
  option_map (cons (row ++ map cell_value vs)) (read Start [] "" tail).
Proof.
  revert row. induction vs as [|v vs IH]; intros row Hne; [done|]. destruct vs as [|w vs].
  - cbn [map join String.concat]. rewrite read_field by (right; eexists; reflexivity).
    by rewrite read_closed_crlf.
  - change (join (chr COMMA) (map csvEscapeField (v :: w :: vs)))
      with (csvEscapeField v +:+ String COMMA (join (chr COMMA) (map csvEscapeField (w :: vs)))).
    rewrite str_app_assoc. rewrite ?str_app_cons. rewrite read_field by (left; eexists; reflexivity).
    rewrite read_closed_comma, IH by done. by rewrite <- app_assoc.
Qed.

Lemma join_lines_cons l ls : join CRLF (l :: ls) +:+ CRLF =
  l +:+ CRLF +:+ match ls with [] => "" | _ => join CRLF ls +:+ CRLF end.
Proof.
  destruct ls as [|l' ls]; [by rewrite str_app_nil|].
  change (join CRLF (l :: l' :: ls)) with (l +:+ CRLF +:+ join CRLF (l' :: ls)).
  by rewrite !str_app_assoc.
Qed.

Lemma read_lines (lines : list (list cell)) : lines <> [] -> Forall (fun l => l <> []) lines ->
  read Start [] "" (join CRLF (map (fun l => join (chr COMMA) (map csvEscapeField l)) lines) +:+ CRLF) =
  Some (map (map cell_value) lines).
Proof.
  intros Hne Hall. induction Hall as [|l ls Hl Hls IH]; [done|]. cbn [map].
  rewrite join_lines_cons, read_line by done. destruct ls as [|l' ls]; [done|].
  cbn [map] in *. by rewrite IH.
Qed.

(** The export reads back: an RFC 4180 reader recovers from a built document
    exactly the header row and the data rows, cell by cell, each with the formula
    guard applied, whatever quotes, commas and line breaks the cells hold. *)
Theorem csv_roundtrip (headers : list string) (rows : list (list cell)) :
  headers <> [] -> Forall (fun r => r <> []) rows ->
  parseCsv (toCsv headers rows) =
  Some (map neutralize headers :: map (map (fun v => neutralize (cell_text v))) rows).
Proof.
  intros Hh Hr. unfold parseCsv, toCsv.
  pose proof (read_lines (map CStr headers :: rows) ltac:(done)
    ltac:(constructor; [by destruct headers|done])) as H.
  cbn [map] in H. rewrite !map_map in H. exact H.
Qed.

Lemma csv_roundtrip_witness :
  parseCsv (toCsv ["a"; "b,c"] [[CStr "=1+1"; CNull]; [CStr (chr QUOTE); COther "12"]]) =
  Some [["a"; "b,c"]; ["'=1+1"; ""]; [chr QUOTE; "12"]].
Proof.
  exact (csv_roundtrip ["a"; "b,c"] [[CStr "=1+1"; CNull]; [CStr (chr QUOTE); COther "12"]]
    ltac:(discriminate) ltac:(repeat constructor; discriminate)).
Defined.

(** No exported cell is a formula: neither the text a spreadsheet reads out
    of an exported cell nor the raw text of the field starts with a character
    that opens a formula, and a value that needed no guard is exported unchanged. *)
Theorem csv_no_formula (v : cell) :
  starts_formula (neutralize (cell_text v)) = false /\
  starts_formula (csvEscapeField v) = false /\
  (starts_formula (cell_text v) = false -> neutralize (cell_text v) = cell_text v).
Proof.
  assert (H : starts_formula (neutralize (cell_text v)) = false).
  { unfold neutralize. destruct (starts_formula (cell_text v)) eqn:Hs; [done|done]. }
  split; [done|]. split.
  - unfold csvEscapeField. by destruct (has_special _).
  - unfold neutralize. by intros ->.
Qed.

End Csv.
