(* ===== verification/OAuthFlow.v ===== *)
(** Connector OAuth flows ([packages/db/src/connector-oauth-flow.ts]) and the
    mobile branch of the provider callback
    ([apps/web/src/server/oauth/mobile-callback.ts]).

    The table is a list of rows; every operation is the statement the code sends
    to it, with the clock made explicit. The operations interleave through
    [step]. *)
From S2P Require Import Prelude.
Open Scope string_scope.
Open Scope list_scope.
Open Scope Z_scope.
Open Scope tam_scope.

Module OAuthFlow.

(* src: packages/db/src/connector-oauth-flow.ts:28-29 OAuthFlowSurface *)
Inductive OAuthFlowSurface := web | mobile.
#[export] Instance OAuthFlowSurface_dec : EqDecision OAuthFlowSurface.
Proof. solve_decision. Defined.
#[export] Program Instance OAuthFlowSurface_enum : JsEnum OAuthFlowSurface := {|
  js_name s := match s with web => "web" | mobile => "mobile" end;
  js_values := [web; mobile] |}.
Solve All Obligations with solve_js_enum.

(* src: packages/db/src/connector-oauth-flow.ts:32-33 OAuthFlowProvider *)
Inductive OAuthFlowProvider := meta | google_business.
#[export] Instance OAuthFlowProvider_dec : EqDecision OAuthFlowProvider.
Proof. solve_decision. Defined.
#[export] Program Instance OAuthFlowProvider_enum : JsEnum OAuthFlowProvider := {|
  js_name p := match p with meta => "meta" | google_business => "google_business" end;
  js_values := [meta; google_business] |}.
Solve All Obligations with solve_js_enum.

(* src: packages/db/src/connector-oauth-flow.ts:35-36 OAuthFlowIntent *)
Inductive OAuthFlowIntent := connect | reconnect.
#[export] Instance OAuthFlowIntent_dec : EqDecision OAuthFlowIntent.
Proof. solve_decision. Defined.
#[export] Program Instance OAuthFlowIntent_enum : JsEnum OAuthFlowIntent := {|
  js_name i := match i with connect => "connect" | reconnect => "reconnect" end;
  js_values := [connect; reconnect] |}.
Solve All Obligations with solve_js_enum.

(* src: packages/db/src/connector-oauth-flow.ts:46-50 OAuthFlowStatus *)
Inductive OAuthFlowStatus :=
| pending | provider_pending | selection_required | completed | failed | cancelled | expired.
#[export] Instance OAuthFlowStatus_dec : EqDecision OAuthFlowStatus.
Proof. solve_decision. Defined.
#[export] Program Instance OAuthFlowStatus_enum : JsEnum OAuthFlowStatus := {|
  js_name s := match s with
    | pending => "pending" | provider_pending => "provider_pending"
    | selection_required => "selection_required" | completed => "completed"
    | failed => "failed" | cancelled => "cancelled" | expired => "expired" end;
  js_values := [pending; provider_pending; selection_required; completed; failed; cancelled; expired] |}.
Solve All Obligations with solve_js_enum.

(* src: packages/db/src/connector-oauth-flow.ts:53-53 OAUTH_FLOW_TTL_MS *)
Definition OAUTH_FLOW_TTL_MS : Z := 10 * 60 * 1000.

(* src: packages/db/src/connector-oauth-flow.ts:56-56 TERMINAL *)
Definition TERMINAL : list OAuthFlowStatus := [completed; failed; cancelled; expired].

(* src: packages/db/src/connector-oauth-flow.ts:57-59 isTerminalFlowStatus *)
Definition isTerminalFlowStatus (status : string) : bool := includes (map js_name TERMINAL) status.

(** The row; [status], [surface], [provider] and [intent] are plain strings in it. *)
(* src: packages/db/src/connector-oauth-flow.ts:87-105 ConnectorOAuthFlowRecord *)
Record ConnectorOAuthFlowRecord := {
  id : string; userId : string; tenantId : string; sessionId : string;
  surface : string; provider : string; intent : string;
  brandId : option string; accountId : option string;
  status : string; resultCode : option string; resultAccountId : option string;
  resultRefId : option string; createdAt : Z; expiresAt : Z;
  stateConsumedAt : option Z; completedAt : option Z
}.

(** The table keeps the hash of the state beside each record; [id] and
    [stateHash] are unique columns. *)
Record row := { stateHash : string; flow : ConnectorOAuthFlowRecord }.
Definition table := list row.

Definition wf (t : table) : Prop := NoDup (map stateHash t) /\ NoDup (map (fun r => id (flow r)) t).

(* src: packages/db/src/connector-oauth-flow.ts:107-119 CreateConnectorOAuthFlowInput *)
Record CreateConnectorOAuthFlowInput := {
  in_userId : string; in_tenantId : string; in_sessionId : string;
  in_surface : OAuthFlowSurface; in_provider : OAuthFlowProvider; in_intent : OAuthFlowIntent;
  in_brandId : option string; in_accountId : option string;
  in_stateHash : string; in_expiresAt : Z
}.

(** [newId] is the id the database draws; a duplicate id or hash violates a
    unique constraint and throws. *)
(* src: packages/db/src/connector-oauth-flow.ts:125-146 createConnectorOAuthFlow *)
Definition createConnectorOAuthFlow (newId : string) (now : Z)
    (input : CreateConnectorOAuthFlowInput) (t : table) : table * outcome string string :=
  if includes (map stateHash t) (in_stateHash input) || includes (map (fun r => id (flow r)) t) newId
  then (t, Throw "unique_constraint")
  else
    (t ++ [{| stateHash := in_stateHash input;
              flow := {| id := newId; userId := in_userId input; tenantId := in_tenantId input;
                sessionId := in_sessionId input; surface := js_name (in_surface input);
                provider := js_name (in_provider input); intent := js_name (in_intent input);
                brandId := in_brandId input; accountId := in_accountId input;
                status := js_name pending; resultCode := None; resultAccountId := None;
                resultRefId := None; createdAt := now; expiresAt := in_expiresAt input;
                stateConsumedAt := None; completedAt := None |} |}], Ret newId).

(* src: packages/db/src/connector-oauth-flow.ts:149-153 ConsumeStateFailure *)
Inductive ConsumeStateFailure := not_found | already_used | expired_state | terminal.

(* src: packages/db/src/connector-oauth-flow.ts:155-158 ConsumeStateResult *)
Inductive ConsumeStateResult :=
| Consumed (f : ConnectorOAuthFlowRecord)
| Refused (reason : ConsumeStateFailure) (flowId tenant : option string).

(** [updateMany]: the rows that match are rewritten, and counted. *)
Definition updateMany (where_ : row -> bool) (data : ConnectorOAuthFlowRecord -> ConnectorOAuthFlowRecord)
    (t : table) : table * Z :=
  (map (fun r => if where_ r then {| stateHash := stateHash r; flow := data (flow r) |} else r) t,
   Z.of_nat (length (List.filter where_ t))).

Definition findUnique (h : string) (t : table) : option row :=
  List.find (fun r => stateHash r =s h) t.

Definition set_consumed (now : Z) (f : ConnectorOAuthFlowRecord) : ConnectorOAuthFlowRecord :=
  {| id := id f; userId := userId f; tenantId := tenantId f; sessionId := sessionId f;
     surface := surface f; provider := provider f; intent := intent f; brandId := brandId f;
     accountId := accountId f; status := js_name provider_pending; resultCode := resultCode f;
     resultAccountId := resultAccountId f; resultRefId := resultRefId f; createdAt := createdAt f;
     expiresAt := expiresAt f; stateConsumedAt := Some now; completedAt := completedAt f |}.

(** The guard of the atomic consume. *)
(* src: packages/db/src/connector-oauth-flow.ts:181-186 consumeConnectorOAuthState *)
Definition consumable (h : string) (now : Z) (r : row) : bool :=
  (stateHash r =s h) && is_none (stateConsumedAt (flow r)) && (now <? expiresAt (flow r)) &&
  negb (isTerminalFlowStatus (status (flow r))).

(* src: packages/db/src/connector-oauth-flow.ts:176-208 consumeConnectorOAuthState *)
Definition consumeConnectorOAuthState (h : string) (now : Z) (t : table) : table * ConsumeStateResult :=
  let '(t', count) := updateMany (consumable h now) (set_consumed now) t in
  if count =? 1 then
    (t', match findUnique h t' with
         | Some r => Consumed (flow r)
         | None => Refused not_found None None
         end)
  else
    (t', match findUnique h t' with
         | None => Refused not_found None None
         | Some r =>
             let f := flow r in
             if is_some (stateConsumedAt f) then Refused already_used (Some (id f)) (Some (tenantId f))
             else if isTerminalFlowStatus (status f) then Refused terminal (Some (id f)) (Some (tenantId f))
             else Refused expired_state (Some (id f)) (Some (tenantId f))
         end).

(* src: packages/db/src/connector-oauth-flow.ts:222-225 userSession *)
Record UserSession := { s_id : string; revokedAt : option Z; s_expiresAt : Z; absoluteExpiresAt : option Z }.

(* src: packages/db/src/connector-oauth-flow.ts:218-231 originatingSessionIsValid *)
Definition originatingSessionIsValid (sessions : list UserSession) (sid : string) (now : Z) : bool :=
  match List.find (fun s => s_id s =s sid) sessions with
  | None => false
  | Some s =>
      if is_some (revokedAt s) then false
      else if s_expiresAt s <=? now then false
      else match absoluteExpiresAt s with
           | Some a => if a <=? now then false else true
           | None => true
           end
  end.

(* src: packages/db/src/connector-oauth-flow.ts:240-250 readConnectorOAuthFlow *)
Definition readConnectorOAuthFlow (tenant user fid : string) (t : table) : option ConnectorOAuthFlowRecord :=
  option_map flow
    (List.find (fun r => (id (flow r) =s fid) && (tenantId (flow r) =s tenant) && (userId (flow r) =s user)) t).

(** [undefined] leaves a column alone, [null] clears it: an optional nullable
    input is an [option (option _)]. *)
(* src: packages/db/src/connector-oauth-flow.ts:253-261 updateConnectorOAuthFlow *)
Record UpdateInput := {
  u_tenantId : string; u_flowId : string; u_status : OAuthFlowStatus;
  u_resultCode : option (option string); u_resultAccountId : option (option string);
  u_resultRefId : option (option string); u_completedAt : option (option Z)
}.

(* src: packages/db/src/connector-oauth-flow.ts:265-271 updateConnectorOAuthFlow *)
Definition update_data (i : UpdateInput) (f : ConnectorOAuthFlowRecord) : ConnectorOAuthFlowRecord :=
  {| id := id f; userId := userId f; tenantId := tenantId f; sessionId := sessionId f;
     surface := surface f; provider := provider f; intent := intent f; brandId := brandId f;
     accountId := accountId f; status := js_name (u_status i);
     resultCode := u_resultCode i ?? resultCode f;
     resultAccountId := u_resultAccountId i ?? resultAccountId f;
     resultRefId := u_resultRefId i ?? resultRefId f; createdAt := createdAt f;
     expiresAt := expiresAt f; stateConsumedAt := stateConsumedAt f;
     completedAt := u_completedAt i ?? completedAt f |}.

(* src: packages/db/src/connector-oauth-flow.ts:253-275 updateConnectorOAuthFlow *)
Definition updateConnectorOAuthFlow (i : UpdateInput) (t : table) : table * Z :=
  updateMany (fun r => (id (flow r) =s u_flowId i) && (tenantId (flow r) =s u_tenantId i)) (update_data i) t.

(* src: packages/db/src/connector-oauth-flow.ts:288-288 finalizeConnectorOAuthFlow *)
Inductive FinalStatus := to_completed | to_failed | to_cancelled.

Definition final_status (s : FinalStatus) : OAuthFlowStatus :=
  match s with to_completed => completed | to_failed => failed | to_cancelled => cancelled end.

(* src: packages/db/src/connector-oauth-flow.ts:285-292 finalizeConnectorOAuthFlow *)
Record FinalizeInput := {
  f_tenantId : string; f_flowId : string; f_status : FinalStatus;
  f_resultCode : option string; f_resultAccountId : option (option string)
}.

Definition final_data (i : FinalizeInput) (now : Z) (f : ConnectorOAuthFlowRecord) : ConnectorOAuthFlowRecord :=
  {| id := id f; userId := userId f; tenantId := tenantId f; sessionId := sessionId f;
     surface := surface f; provider := provider f; intent := intent f; brandId := brandId f;
     accountId := accountId f; status := js_name (final_status (f_status i));
     resultCode := f_resultCode i;
     resultAccountId := f_resultAccountId i ?? resultAccountId f;
     resultRefId := resultRefId f; createdAt := createdAt f;
     expiresAt := expiresAt f; stateConsumedAt := stateConsumedAt f; completedAt := Some now |}.

(* src: packages/db/src/connector-oauth-flow.ts:285-310 finalizeConnectorOAuthFlow *)
Definition finalizeConnectorOAuthFlow (i : FinalizeInput) (now : Z) (t : table) : table * bool :=
  let '(t', count) :=
    updateMany (fun r => (id (flow r) =s f_flowId i) && (tenantId (flow r) =s f_tenantId i) &&
                         negb (isTerminalFlowStatus (status (flow r)))) (final_data i now) t in
  (t', count =? 1).

(* src: packages/db/src/connector-oauth-flow.ts:318-329 deleteExpiredConnectorOAuthFlows *)
Definition deleteExpiredConnectorOAuthFlows (now : Z) (batch : nat) (t : table) : table * Z :=
  let stale := take batch (List.filter (fun r => expiresAt (flow r) <? now) t) in
  let ids := map (fun r => id (flow r)) stale in
  let gone r := includes ids (id (flow r)) in
  if (length stale =? 0)%nat then (t, 0)
  else (List.filter (fun r => negb (gone r)) t, Z.of_nat (length (List.filter gone t))).

(** * The mobile callback *)

Section MobileCallback.
(** [sha256(state)] in hex, Node's hash. *)
Context (hashOAuthState : string -> string).

(* src: apps/web/src/server/oauth/mobile-callback.ts:56-60 MobileCallbackFailure *)
Inductive MobileCallbackFailure :=
| invalid_state | f_expired | session_invalid | user_cancelled | token_exchange_failed
| no_accounts | missing_permission | provider_unavailable | save_failed | unknown.

Definition failure_code (c : MobileCallbackFailure) : string :=
  match c with
  | invalid_state => "invalid_state" | f_expired => "expired" | session_invalid => "session_invalid"
  | user_cancelled => "user_cancelled" | token_exchange_failed => "token_exchange_failed"
  | no_accounts => "no_accounts" | missing_permission => "missing_permission"
  | provider_unavailable => "provider_unavailable" | save_failed => "save_failed" | unknown => "unknown"
  end.

(** The actor a resolved flow yields; the caller fills in its role. *)
Record OAuthActor := { a_userId : string; a_tenantId : string; a_role : string; a_sessionId : string; a_surface : OAuthFlowSurface }.

(* src: apps/web/src/server/oauth/mobile-callback.ts:49-53 MobileFlowResolution *)
Inductive MobileFlowResolution :=
| not_mobile
| resolved (f : ConnectorOAuthFlowRecord) (a : OAuthActor)
| rejected (flowId : option string) (code : MobileCallbackFailure).

Definition fail_input (f : ConnectorOAuthFlowRecord) (code : MobileCallbackFailure) : FinalizeInput :=
  {| f_tenantId := tenantId f; f_flowId := id f; f_status := to_failed;
     f_resultCode := Some (failure_code code); f_resultAccountId := None |}.

(** [now] is the clock of the callback, [now2] the one [finalize] reads itself. *)
(* src: apps/web/src/server/oauth/mobile-callback.ts:67-124 tryResolveMobileFlow *)
Definition tryResolveMobileFlow (rawState : option string) (p : OAuthFlowProvider)
    (sessions : list UserSession) (now now2 : Z) (t : table) : table * MobileFlowResolution :=
  let raw := opt_trim rawState in
  if negb (truthy raw) then (t, not_mobile)
  else
    match consumeConnectorOAuthState (hashOAuthState (raw ?? "")) now t with
    | (t1, Refused not_found _ _) => (t1, not_mobile)
    | (t1, Refused reason flowId _) =>
        (t1, rejected flowId (match reason with expired_state => f_expired | _ => invalid_state end))
    | (t1, Consumed f) =>
        if negb (provider f =s js_name p) then
          (fst (finalizeConnectorOAuthFlow (fail_input f invalid_state) now2 t1),
           rejected (Some (id f)) invalid_state)
        else if negb (surface f =s js_name mobile) then (t1, not_mobile)
        else if negb (originatingSessionIsValid sessions (sessionId f) now) then
          (fst (finalizeConnectorOAuthFlow (fail_input f session_invalid) now2 t1),
           rejected (Some (id f)) session_invalid)
        else (t1, resolved f {| a_userId := userId f; a_tenantId := tenantId f; a_role := "";
                                a_sessionId := sessionId f; a_surface := mobile |})
    end.
End MobileCallback.

(* src: apps/web/src/server/oauth/mobile-callback.ts:127-139 markSelectionRequired *)
Definition markSelectionRequired (f : ConnectorOAuthFlowRecord) (refId : option string) (t : table) : table :=
  fst (updateConnectorOAuthFlow
    {| u_tenantId := tenantId f; u_flowId := id f; u_status := selection_required;
       u_resultCode := Some None; u_resultAccountId := None; u_resultRefId := Some refId;
       u_completedAt := None |} t).

(* src: apps/web/src/server/oauth/mobile-callback.ts:142-149 failMobileFlow *)
Definition failMobileFlow (f : ConnectorOAuthFlowRecord) (code : MobileCallbackFailure) (now : Z) (t : table) : table :=
  fst (finalizeConnectorOAuthFlow (fail_input f code) now t).

(** * Lemmas on statements *)

Lemma In_updateMany w d t r : In r (fst (updateMany w d t)) <->
  exists r0, In r0 t /\ r = if w r0 then {| stateHash := stateHash r0; flow := d (flow r0) |} else r0.
Proof.
  unfold updateMany. simpl. rewrite in_map_iff. split; intros (r0 & H1 & H2); eauto.
Qed.

Lemma updateMany_none w d t : List.filter w t = [] -> updateMany w d t = (t, 0).
Proof.
  intros Hf. unfold updateMany. rewrite Hf. f_equal. induction t as [|r t IH]; simpl in *; [done|].
  destruct (w r); [done|]. by rewrite IH.
Qed.

Definition keeps_key (d : ConnectorOAuthFlowRecord -> ConnectorOAuthFlowRecord) : Prop :=
  forall f, id (d f) = id f /\ tenantId (d f) = tenantId f.

Lemma updateMany_keys w d t : keeps_key d ->
  map stateHash (fst (updateMany w d t)) = map stateHash t /\
  map (fun r => id (flow r)) (fst (updateMany w d t)) = map (fun r => id (flow r)) t.
Proof.
  intros Hd. unfold updateMany. simpl. rewrite !map_map. split; apply map_ext; intros r;
    destruct (w r); simpl; auto. apply Hd.
Qed.

Lemma updateMany_wf w d t : keeps_key d -> wf t -> wf (fst (updateMany w d t)).
Proof. unfold wf. intros Hd. destruct (updateMany_keys w d t Hd) as [-> ->]. done. Qed.

Lemma set_consumed_keeps now : keeps_key (set_consumed now). Proof. done. Qed.
Lemma update_data_keeps i : keeps_key (update_data i). Proof. done. Qed.
Lemma final_data_keeps i now : keeps_key (final_data i now). Proof. done. Qed.
#[local] Hint Resolve set_consumed_keeps update_data_keeps final_data_keeps updateMany_wf : core.

Lemma wf_hash_unique t r r' : wf t -> In r t -> In r' t -> stateHash r = stateHash r' -> r = r'.
Proof. intros [H _]. by apply NoDup_map_inj_in. Qed.

Lemma wf_id_unique t r r' : wf t -> In r t -> In r' t -> id (flow r) = id (flow r') -> r = r'.
Proof. intros [_ H]. by apply (NoDup_map_inj_in (fun r => id (flow r))). Qed.

(** A statement whose condition pins a unique key touches at most that row. *)
Lemma filter_unique (w : row -> bool) t r : NoDup t -> In r t ->
  (forall r', In r' t -> w r' = true -> r' = r) ->
  List.filter w t = if w r then [r] else [].
Proof.
  intros Hnd Hin Hu. induction t as [|x t IH]; [done|]. apply NoDup_cons in Hnd as [Hx Hnd].
  simpl. destruct Hin as [->|Hin].
  - assert (Hnil : List.filter w t = []).
    { destruct (List.filter w t) as [|y l] eqn:Hf; [done|].
      assert (Hy : In y (List.filter w t)) by (rewrite Hf; by left).
      apply filter_In in Hy as [Hy Hw]. rewrite (Hu y (or_intror Hy) Hw) in Hy.
      by apply list_elem_of_In in Hy. }
    rewrite Hnil. by destruct (w r).
  - rewrite IH; [|done..|by intros r' ?; apply Hu; right].
    destruct (w x) eqn:Hwx; [|done]. rewrite (Hu x (or_introl eq_refl) Hwx) in Hx.
    by destruct Hx; apply list_elem_of_In.
Qed.

Lemma wf_NoDup t : wf t -> NoDup t.
Proof. intros [H _]. by apply (NoDup_fmap_1 stateHash). Qed.

Lemma findUnique_Some h t r : findUnique h t = Some r -> In r t /\ stateHash r = h.
Proof. intros Hf. apply List.find_some in Hf as [? Hh]. by apply String.eqb_eq in Hh. Qed.

Lemma findUnique_In h t r : wf t -> In r t -> stateHash r = h -> findUnique h t = Some r.
Proof.
  intros Hwf Hin Hh. unfold findUnique. destruct (List.find _ t) as [r'|] eqn:Hf.
  - apply findUnique_Some in Hf as [Hin' Hh']. f_equal. apply (wf_hash_unique t); congruence.
  - exfalso. pose proof (List.find_none _ _ Hf r Hin) as Hn. simpl in Hn.
    by rewrite Hh, String.eqb_refl in Hn.
Qed.

Lemma consumable_hash h now r : consumable h now r = true -> stateHash r = h.
Proof. unfold consumable. rewrite !andb_true_iff. intros [[[H _] _] _]. by apply String.eqb_eq. Qed.

Definition consumed_row (now : Z) (r : row) : row :=
  {| stateHash := stateHash r; flow := set_consumed now (flow r) |}.

(** What the atomic consume does, read off the row the hash names. *)
Definition consume_spec (h : string) (now : Z) (t : table) : table * ConsumeStateResult :=
  match findUnique h t with
  | None => (t, Refused not_found None None)
  | Some r =>
      let f := flow r in
      let refuse reason := (t, Refused reason (Some (id f)) (Some (tenantId f))) in
      if is_some (stateConsumedAt f) then refuse already_used
      else if isTerminalFlowStatus (status f) then refuse terminal
      else if expiresAt f <=? now then refuse expired_state
      else (map (fun r' => if stateHash r' =s h then consumed_row now r' else r') t,
            Consumed (set_consumed now f))
  end.

Lemma consume_refine h now t : wf t -> consumeConnectorOAuthState h now t = consume_spec h now t.
Proof.
  intros Hwf. unfold consumeConnectorOAuthState, consume_spec.
  destruct (findUnique h t) as [r|] eqn:Hf.
  - pose proof (findUnique_Some _ _ _ Hf) as [Hin Hh].
    assert (Hfilter : List.filter (consumable h now) t = if consumable h now r then [r] else []).
    { apply filter_unique; auto using wf_NoDup. intros r' Hin' Hc%consumable_hash.
      apply (wf_hash_unique t); congruence. }
    destruct (consumable h now r) eqn:Hc.
    + unfold updateMany. rewrite Hfilter. simpl.
      assert (Hr : forall r', In r' t -> consumable h now r' = (stateHash r' =s h)).
      { intros r' Hin'. destruct (String.eqb_spec (stateHash r') h) as [He|He].
        - by rewrite (wf_hash_unique t r' r Hwf Hin' Hin ltac:(congruence)).
        - destruct (consumable h now r') eqn:Hc'; [|done]. by apply consumable_hash in Hc'. }
      pose proof Hc as Hc'. unfold consumable in Hc'. rewrite !andb_true_iff in Hc'.
      destruct Hc' as [[[_ H1] H2] H3]. apply negb_true_iff in H1, H3. rewrite H1, H3.
      replace (expiresAt (flow r) <=? now) with false by lia.
      assert (Hmap : map (fun r0 => if consumable h now r0 then {| stateHash := stateHash r0; flow := set_consumed now (flow r0) |} else r0) t
        = map (fun r' => if stateHash r' =s h then consumed_row now r' else r') t).
      { apply map_ext_in. intros r' Hin'. by rewrite (Hr r' Hin'). }
      rewrite Hmap. f_equal.
      rewrite (findUnique_In h _ (consumed_row now r)); [done| | |done].
      * rewrite <- Hmap. exact (updateMany_wf (consumable h now) _ t (set_consumed_keeps now) Hwf).
      * apply in_map_iff. exists r. by rewrite Hh, String.eqb_refl.
    + rewrite updateMany_none by done. simpl. rewrite Hf.
      unfold consumable in Hc. rewrite Hh, String.eqb_refl in Hc. simpl in Hc.
      unfold is_none in Hc. destruct (is_some _); [done|]. simpl in Hc.
      destruct (isTerminalFlowStatus _); [done|]. rewrite andb_true_r in Hc.
      by replace (expiresAt (flow r) <=? now) with true by lia.
  - rewrite updateMany_none; [simpl; by rewrite Hf|].
    destruct (List.filter _ t) as [|r l] eqn:Hl; [done|].
    assert (Hin : In r (List.filter (consumable h now) t)) by (rewrite Hl; by left).
    apply filter_In in Hin as [Hin Hc%consumable_hash].
    by rewrite (findUnique_In h t r) in Hf.
Qed.

(** * Interleavings *)

Inductive op :=
| OpCreate (newId : string) (now : Z) (i : CreateConnectorOAuthFlowInput)
| OpConsume (h : string) (now : Z)
| OpUpdate (i : UpdateInput)
| OpFinalize (i : FinalizeInput) (now : Z)
| OpSweep (now : Z) (batch : nat).

Definition exec1 (o : op) (t : table) : table :=
  match o with
  | OpCreate nid now i => fst (createConnectorOAuthFlow nid now i t)
  | OpConsume h now => fst (consumeConnectorOAuthState h now t)
  | OpUpdate i => fst (updateConnectorOAuthFlow i t)
  | OpFinalize i now => fst (finalizeConnectorOAuthFlow i now t)
  | OpSweep now batch => fst (deleteExpiredConnectorOAuthFlows now batch t)
  end.

Definition exec (ops : list op) (t : table) : table := fold_left (fun t o => exec1 o t) ops t.

Definition creates (h : string) (o : op) (t : table) : nat :=
  match o with
  | OpCreate nid now i =>
      match createConnectorOAuthFlow nid now i t with
      | (_, Ret _) => if in_stateHash i =s h then 1 else 0
      | _ => 0
      end
  | _ => 0
  end%nat.

Definition consumes (h : string) (o : op) (t : table) : nat :=
  match o with
  | OpConsume h' now =>
      match consumeConnectorOAuthState h' now t with
      | (_, Consumed _) => if h' =s h then 1 else 0
      | _ => 0
      end
  | _ => 0
  end%nat.

(** How often an operation of a run did something, summed over the run. *)
Fixpoint total (m : op -> table -> nat) (ops : list op) (t : table) : nat :=
  match ops with [] => 0 | o :: rest => m o t + total m rest (exec1 o t) end%nat.

(** Rows with the hash whose state is still to be consumed. *)
Definition open_states (h : string) (t : table) : nat :=
  length (List.filter (fun r => (stateHash r =s h) && is_none (stateConsumedAt (flow r))) t).

Lemma open_updateMany h w d t :
  (forall f, stateConsumedAt (d f) = stateConsumedAt f) ->
  open_states h (fst (updateMany w d t)) = open_states h t.
Proof.
  intros Hd. unfold open_states, updateMany. simpl. induction t as [|r t IH]; simpl; [done|].
  destruct (w r); simpl; rewrite ?Hd; destruct (_ && _); simpl; congruence.
Qed.

Lemma open_consume h h' now t :
  (open_states h (fst (updateMany (consumable h' now) (set_consumed now) t)) +
   (if h' =s h then length (List.filter (consumable h' now) t) else 0) = open_states h t)%nat.
Proof.
  unfold open_states, updateMany. simpl. induction t as [|r t IH]; simpl; [by destruct (h' =s h)|].
  destruct (consumable h' now r) eqn:Hc; simpl.
  - pose proof (consumable_hash _ _ _ Hc) as Hh. rewrite Hh, andb_false_r.
    unfold consumable in Hc. rewrite !andb_true_iff in Hc. destruct Hc as [[[_ Hc] _] _].
    rewrite Hc. destruct (h' =s h); simpl; lia.
  - destruct (_ && _); simpl; destruct (h' =s h); lia.
Qed.

Lemma open_filter h p t : (open_states h (List.filter p t) <= open_states h t)%nat.
Proof.
  unfold open_states. induction t as [|r t IH]; simpl; [done|].
  destruct (p r); simpl; destruct (_ && _); simpl; lia.
Qed.

Lemma exec1_open h o t :
  (consumes h o t + open_states h (exec1 o t) <= open_states h t + creates h o t)%nat.
Proof.
  destruct o as [nid now i|h' now|i|i now|now batch]; cbn [consumes creates exec1].
  - unfold createConnectorOAuthFlow. destruct (_ || _); simpl; [lia|].
    unfold open_states. rewrite List.filter_app, length_app. simpl.
    destruct (in_stateHash i =s h); simpl; lia.
  - pose proof (open_consume h h' now t) as Ho. unfold consumeConnectorOAuthState.
    unfold updateMany in *. simpl in *. set (n := length (List.filter (consumable h' now) t)) in *.
    destruct (Z.eqb_spec (Z.of_nat n) 1); simpl.
    + destruct (findUnique h' _); simpl; destruct (h' =s h); lia.
    + destruct (findUnique h' _) as [r|]; simpl.
      * destruct (is_some _); [lia|]. destruct (isTerminalFlowStatus _); lia.
      * lia.
  - unfold updateConnectorOAuthFlow. rewrite open_updateMany by done. lia.
  - unfold finalizeConnectorOAuthFlow.
    pose proof (open_updateMany h (fun r => (id (flow r) =s f_flowId i) && (tenantId (flow r) =s f_tenantId i) &&
      negb (isTerminalFlowStatus (status (flow r)))) (final_data i now) t ltac:(done)) as H.
    unfold updateMany in *. simpl in *. lia.
  - unfold deleteExpiredConnectorOAuthFlows. destruct (_ =? _)%nat; simpl; [lia|].
    pose proof (open_filter h (fun r => negb (includes (map (fun r0 => id (flow r0))
      (take batch (List.filter (fun r0 => expiresAt (flow r0) <? now) t))) (id (flow r)))) t). lia.
Qed.

(** C38 — A state is redeemed at most once: in any interleaving of creations,
    consumes, updates, finalizations and sweeps, the consumes of a state hash
    that succeed are no more than the flows created with that hash. *)
Theorem state_consumed_at_most_once (h : string) (ops : list op) :
  (total (consumes h) ops [] <= total (creates h) ops [])%nat.
Proof.
  cut (forall t, (total (consumes h) ops t <= open_states h t + total (creates h) ops t)%nat).
  { intros H. apply H. }
  induction ops as [|o ops IH]; intros t; simpl; [lia|].
  pose proof (exec1_open h o t). pose proof (IH (exec1 o t)). lia.
Qed.

(** Consuming a state, on every branch: over a table with unique keys the
    guarded update marks exactly the row the hash names, and only when it is
    unconsumed, unexpired and not terminal; otherwise nothing is written and the
    refusal says not found, already used, terminal or expired, in that order. *)
Theorem consume_functional (h : string) (now : Z) (t : table) :
  wf t -> consumeConnectorOAuthState h now t = consume_spec h now t.
Proof. apply consume_refine. Qed.

Definition demo_flow (st : string) (consumed : option Z) : ConnectorOAuthFlowRecord :=
  {| id := "f1"; userId := "u1"; tenantId := "t1"; sessionId := "s1"; surface := "mobile";
     provider := "meta"; intent := "connect"; brandId := None; accountId := None; status := st;
     resultCode := None; resultAccountId := None; resultRefId := None; createdAt := 0;
     expiresAt := 100; stateConsumedAt := consumed; completedAt := None |}.
Definition demo_table (st : string) (consumed : option Z) : table :=
  [{| stateHash := "h1"; flow := demo_flow st consumed |}].

Lemma demo_wf st c : wf (demo_table st c).
Proof. split; repeat constructor; by apply not_elem_of_nil. Qed.

Lemma consume_functional_witness :
  consumeConnectorOAuthState "h1" 50 (demo_table "pending" None) =
  (demo_table "provider_pending" (Some 50), Consumed (demo_flow "provider_pending" (Some 50))).
Proof. exact (consume_functional "h1" 50 (demo_table "pending" None) (demo_wf _ _)). Defined.

(** * Terminal states *)

Lemma wf_exec1 o t : wf t -> wf (exec1 o t).
Proof.
  intros Hwf. destruct o as [nid now i|h' now|i|i now|now batch]; cbn [exec1].
  - unfold createConnectorOAuthFlow. destruct (_ || _) eqn:Hd; [done|]. simpl.
    apply orb_false_iff in Hd as [H1 H2]. destruct Hwf as [Hh Hi].
    split; rewrite map_app; apply NoDup_app; (split; [done|split; [|apply NoDup_singleton]]);
      intros s Hs ->%list_elem_of_singleton; [exact (includes_not_In _ _ H1 Hs)|exact (includes_not_In _ _ H2 Hs)].
  - unfold consumeConnectorOAuthState.
    pose proof (updateMany_wf (consumable h' now) _ t (set_consumed_keeps now) Hwf) as Hu.
    destruct (updateMany _ _ t) as [t' c]. simpl in Hu.
    destruct (c =? 1); [exact Hu|]. destruct (findUnique h' t') as [r|]; [|exact Hu].
    destruct (is_some (stateConsumedAt (flow r))); [exact Hu|]. destruct (isTerminalFlowStatus (status (flow r))); exact Hu.
  - unfold updateConnectorOAuthFlow. auto.
  - unfold finalizeConnectorOAuthFlow.
    pose proof (updateMany_wf (fun r => (id (flow r) =s f_flowId i) && (tenantId (flow r) =s f_tenantId i) &&
      negb (isTerminalFlowStatus (status (flow r)))) _ t (final_data_keeps i now) Hwf) as Hu.
    by destruct (updateMany _ _ t) as [t' c].
  - unfold deleteExpiredConnectorOAuthFlows. destruct (_ =? _)%nat; [done|]. simpl.
    destruct Hwf as [Hh Hi]. split; by apply NoDup_map_filter.
Qed.

Definition is_update (o : op) : bool := match o with OpUpdate _ => true | _ => false end.

(** The sweep of a run that may delete the row. *)
Definition sweeps_past (r : row) (o : op) : Prop :=
  match o with OpSweep now _ => expiresAt (flow r) < now | _ => False end.

(** The sweep deletes nothing that has not expired. *)
Lemma sweep_keeps_live now batch t r :
  wf t -> In r t -> now <= expiresAt (flow r) ->
  In r (fst (deleteExpiredConnectorOAuthFlows now batch t)).
Proof.
  intros Hwf Hin He. unfold deleteExpiredConnectorOAuthFlows. destruct (_ =? _)%nat; [done|].
  cbn [fst]. apply filter_In. split; [done|]. apply negb_true_iff.
  destruct (includes _ _) eqn:Hi; [|done]. exfalso.
  apply includes_In, in_map_iff in Hi as [r' [Hid Hin']].
  assert (Hin'' : In r' (List.filter (fun r => expiresAt (flow r) <? now) t)).
  { rewrite <- (take_drop batch). apply in_or_app. by left. }
  apply filter_In in Hin'' as [Ht Hexp].
  rewrite (wf_id_unique t r' r Hwf Ht Hin Hid) in Hexp. lia.
Qed.

Lemma terminal_kept1 o t r :
  wf t -> In r t -> isTerminalFlowStatus (status (flow r)) = true -> is_update o = false ->
  In r (exec1 o t) \/ sweeps_past r o.
Proof.
  intros Hwf Hin Ht Hu.
  assert (Hskip : forall w d, w r = false -> In r (fst (updateMany w d t))).
  { intros w d Hw. apply In_updateMany. exists r. by rewrite Hw. }
  destruct o as [nid now i|h' now|i|i now|now batch]; cbn [exec1 is_update sweeps_past] in *; [| |done| |].
  - left. unfold createConnectorOAuthFlow. destruct (_ || _); [done|]. apply in_or_app. by left.
  - left. unfold consumeConnectorOAuthState.
    assert (Hc : consumable h' now r = false) by (unfold consumable; rewrite Ht; apply andb_false_r).
    pose proof (Hskip _ (set_consumed now) Hc) as Hk.
    destruct (updateMany _ _ t) as [t' c]. simpl in Hk.
    destruct (c =? 1); [exact Hk|]. destruct (findUnique h' t') as [r'|]; [|exact Hk].
    destruct (is_some (stateConsumedAt (flow r'))); [exact Hk|]. destruct (isTerminalFlowStatus (status (flow r'))); exact Hk.
  - left. unfold finalizeConnectorOAuthFlow.
    match goal with |- context [updateMany ?w ?d t] => pose proof (Hskip w d) as Hk;
      destruct (updateMany w d t) as [t' c] end.
    apply Hk. rewrite Ht. apply andb_false_r.
  - destruct (Z.lt_ge_cases (expiresAt (flow r)) now); [by right|left; by apply sweep_keeps_live].
Qed.

(** Terminal states are final under the guarded writes: a row whose flow is
    completed, failed, cancelled or expired survives any interleaving of
    creations, consumes, finalizations and sweeps unchanged, until a sweep that
    runs after its expiry deletes it. *)
Theorem terminal_flow_is_final (ops : list op) (t : table) (r : row) :
  wf t -> In r t -> isTerminalFlowStatus (status (flow r)) = true ->
  Forall (fun o => is_update o = false) ops ->
  In r (exec ops t) \/ Exists (sweeps_past r) ops.
Proof.
  intros Hwf Hin Ht Hops. revert t Hwf Hin. unfold exec.
  induction Hops as [|o ops Ho _ IH]; intros t Hwf Hin; simpl; [by left|].
  destruct (terminal_kept1 o t r) as [Hk|Hk]; auto.
  destruct (IH (exec1 o t)); auto using wf_exec1.
Qed.

Lemma terminal_flow_is_final_witness :
  In {| stateHash := "h1"; flow := demo_flow "cancelled" None |}
    (exec [OpConsume "h1" 50; OpFinalize {| f_tenantId := "t1"; f_flowId := "f1"; f_status := to_completed;
                                            f_resultCode := None; f_resultAccountId := None |} 60]
       (demo_table "cancelled" None)) \/
  Exists (sweeps_past {| stateHash := "h1"; flow := demo_flow "cancelled" None |})
    [OpConsume "h1" 50; OpFinalize {| f_tenantId := "t1"; f_flowId := "f1"; f_status := to_completed;
                                      f_resultCode := None; f_resultAccountId := None |} 60].
Proof.
  apply terminal_flow_is_final; [apply demo_wf|by left|reflexivity|repeat constructor].
Defined.

(** The selection write is not guarded: [markSelectionRequired] puts any
    flow back into [selection_required], a cancelled or failed one included, and
    a later finalization as completed then succeeds on it. *)
Theorem selection_overwrites_terminal (t : table) (r : row) (refId : option string) (now : Z) :
  wf t -> In r t ->
  let t1 := markSelectionRequired (flow r) refId t in
  (exists r', In r' t1 /\ id (flow r') = id (flow r) /\ status (flow r') = js_name selection_required) /\
  snd (finalizeConnectorOAuthFlow
    {| f_tenantId := tenantId (flow r); f_flowId := id (flow r); f_status := to_completed;
       f_resultCode := None; f_resultAccountId := None |} now t1) = true.
Proof.
  intros Hwf Hin t1.
  set (i := {| u_tenantId := tenantId (flow r); u_flowId := id (flow r); u_status := selection_required;
       u_resultCode := Some None; u_resultAccountId := None; u_resultRefId := Some refId; u_completedAt := None |}).
  set (r1 := {| stateHash := stateHash r; flow := update_data i (flow r) |}).
  assert (Hwf1 : wf t1) by (apply updateMany_wf; auto).
  assert (Hin1 : In r1 t1).
  { apply In_updateMany. exists r. simpl. by rewrite !String.eqb_refl. }
  split; [by exists r1|].
  unfold finalizeConnectorOAuthFlow, updateMany. simpl.
  rewrite (filter_unique _ t1 r1); [|by apply wf_NoDup|done|].
  - simpl. by rewrite !String.eqb_refl.
  - intros r' Hin' Hw. guards_in Hw. destruct Hw as [[Hid _] _].
    by apply (wf_id_unique t1).
Qed.

Lemma selection_overwrites_terminal_witness :
  snd (finalizeConnectorOAuthFlow
    {| f_tenantId := "t1"; f_flowId := "f1"; f_status := to_completed; f_resultCode := None;
       f_resultAccountId := None |} 60
    (markSelectionRequired (demo_flow "cancelled" (Some 1)) None (demo_table "cancelled" (Some 1)))) = true.
Proof.
  exact (proj2 (selection_overwrites_terminal (demo_table "cancelled" (Some 1))
    {| stateHash := "h1"; flow := demo_flow "cancelled" (Some 1) |} None 60 (demo_wf _ _) (or_introl eq_refl))).
Defined.

(** * Tenants *)

Lemma updateMany_other w d t (p : row -> bool) : keeps_key d ->
  (forall r, w r = true -> p r = false) ->
  (forall r, p {| stateHash := stateHash r; flow := d (flow r) |} = p r) ->
  List.filter p (fst (updateMany w d t)) = List.filter p t.
Proof.
  intros Hd Hw Hp. unfold updateMany. simpl. induction t as [|r t IH]; simpl; [done|].
  destruct (w r) eqn:Hwr; [rewrite Hp, (Hw r Hwr); done|]. destruct (p r); by rewrite IH.
Qed.

(** Tenant isolation: the tenant-scoped writes leave every row of another
    tenant as it was, and a read returns only a flow of the asking tenant and user. *)
Theorem flow_tenant_isolation (tenant : string) (t : table) (u : UpdateInput) (f : FinalizeInput) (now : Z) :
  u_tenantId u = tenant -> f_tenantId f = tenant ->
  let others := List.filter (fun r => negb (tenantId (flow r) =s tenant)) in
  others (fst (updateConnectorOAuthFlow u t)) = others t /\
  others (fst (finalizeConnectorOAuthFlow f now t)) = others t /\
  (forall user fid rec, readConnectorOAuthFlow tenant user fid t = Some rec ->
    tenantId rec = tenant /\ userId rec = user /\ id rec = fid).
Proof.
  intros Hu Hf others. split; [|split].
  - apply updateMany_other; [done| |done]. intros r. rewrite andb_true_iff, Hu.
    by intros [_ ->].
  - unfold finalizeConnectorOAuthFlow.
    match goal with |- context [updateMany ?w ?d t] =>
      pose proof (updateMany_other w d t (fun r => negb (tenantId (flow r) =s tenant))) as Ho;
      destruct (updateMany w d t) as [t' c] end.
    apply Ho; [done| |done]. intros r. rewrite !andb_true_iff, Hf. by intros [[_ ->] _].
  - intros user fid rec. unfold readConnectorOAuthFlow.
    destruct (List.find _ t) as [r|] eqn:Hr; [|done]. intros [= <-].
    apply List.find_some in Hr as [_ Hr]. guards_in Hr. tauto.
Qed.

Lemma flow_tenant_isolation_witness :
  List.filter (fun r => negb (tenantId (flow r) =s "t2"))
    (fst (finalizeConnectorOAuthFlow {| f_tenantId := "t2"; f_flowId := "f1"; f_status := to_failed;
       f_resultCode := None; f_resultAccountId := None |} 7 (demo_table "pending" None))) =
  demo_table "pending" None.
Proof.
  exact (proj1 (proj2 (flow_tenant_isolation "t2" (demo_table "pending" None)
    {| u_tenantId := "t2"; u_flowId := ""; u_status := failed; u_resultCode := None;
       u_resultAccountId := None; u_resultRefId := None; u_completedAt := None |}
    {| f_tenantId := "t2"; f_flowId := "f1"; f_status := to_failed; f_resultCode := None;
       f_resultAccountId := None |} 7 eq_refl eq_refl))).
Defined.

(** The sweep is bounded and safe: it deletes at most one batch of rows and
    no row whose flow has not expired. *)
Theorem sweep_bounded (now : Z) (batch : nat) (t : table) :
  wf t ->
  0 <= snd (deleteExpiredConnectorOAuthFlows now batch t) <= Z.of_nat batch /\
  (forall r, In r t -> now <= expiresAt (flow r) ->
     In r (fst (deleteExpiredConnectorOAuthFlows now batch t))).
Proof.
  intros Hwf. split; [|intros r; by apply sweep_keeps_live].
  unfold deleteExpiredConnectorOAuthFlows. destruct (_ =? _)%nat; simpl; [lia|].
  split; [lia|]. apply inj_le.
  set (stale := take batch _). transitivity (length stale); [|unfold stale; rewrite length_take; lia].
  rewrite <- (length_map (fun r => id (flow r)) (List.filter _ t)),
    <- (length_map (fun r => id (flow r)) stale).
  apply NoDup_incl_length.
  - apply NoDup_ListNoDup, NoDup_map_filter, Hwf.
  - intros s Hs. apply in_map_iff in Hs as [r [<- Hr]]. apply filter_In in Hr as [_ Hr].
    by apply includes_In in Hr.
Qed.

Lemma sweep_bounded_witness :
  0 <= snd (deleteExpiredConnectorOAuthFlows 200 5 (demo_table "pending" None)) <= 5.
Proof. exact (proj1 (sweep_bounded 200 5 (demo_table "pending" None) (demo_wf _ _))). Defined.

(** * The callback *)

Lemma resolve_consumed hash raw p ss now now2 t t' f a :
  wf t -> tryResolveMobileFlow hash raw p ss now now2 t = (t', resolved f a) ->
  exists r, findUnique (hash (opt_trim raw ?? "")) t = Some r /\
    stateConsumedAt (flow r) = None /\ isTerminalFlowStatus (status (flow r)) = false /\
    now < expiresAt (flow r) /\ f = set_consumed now (flow r) /\
    provider (flow r) = js_name p /\ surface (flow r) = js_name mobile /\
    originatingSessionIsValid ss (sessionId (flow r)) now = true /\
    a = {| a_userId := userId f; a_tenantId := tenantId f; a_role := ""; a_sessionId := sessionId f; a_surface := mobile |} /\
    t' = exec1 (OpConsume (hash (opt_trim raw ?? "")) now) t.
Proof.
  intros Hwf. unfold tryResolveMobileFlow. destruct (negb (truthy _)); [done|].
  cbn [exec1]. rewrite (consume_refine _ _ _ Hwf). unfold consume_spec.
  destruct (findUnique _ t) as [r|] eqn:Hr; [|done].
  destruct (stateConsumedAt (flow r)) eqn:Hc; cbn [is_some]; [by intros [=]|].
  destruct (isTerminalFlowStatus _) eqn:Hterm; [by intros [=]|].
  destruct (Z.leb_spec (expiresAt (flow r)) now); [by intros [=]|].
  change (provider (set_consumed now (flow r))) with (provider (flow r)).
  change (surface (set_consumed now (flow r))) with (surface (flow r)).
  change (sessionId (set_consumed now (flow r))) with (sessionId (flow r)).
  destruct (String.eqb_spec (provider (flow r)) (js_name p)) as [Hp|]; cbn [negb]; [|by intros [=]].
  destruct (String.eqb_spec (surface (flow r)) (js_name mobile)) as [Hs|]; cbn [negb]; [|by intros [=]].
  destruct (originatingSessionIsValid _ _ _) eqn:Hv; cbn [negb]; [|by intros [=]].
  intros [= <- <- <-]. exists r. auto 12.
Qed.

(** A resolved callback is genuine and is not replayable: [resolved] means
    the stored flow was unconsumed, live and unexpired, belongs to this provider
    and the mobile surface, and its login session is still valid; the actor is
    read off the stored flow; and delivering the same state again, at any later
    clock and to any provider, never resolves a second time. *)
Theorem callback_resolves_once (hash : string -> string) (raw : option string) (p p' : OAuthFlowProvider)
    (ss ss' : list UserSession) (now now2 now' now2' : Z) (t t' : table)
    (f : ConnectorOAuthFlowRecord) (a : OAuthActor) :
  wf t -> tryResolveMobileFlow hash raw p ss now now2 t = (t', resolved f a) ->
  (exists r, In r t /\ stateHash r = hash (opt_trim raw ?? "") /\ f = set_consumed now (flow r) /\
    stateConsumedAt (flow r) = None /\ isTerminalFlowStatus (status (flow r)) = false /\
    now < expiresAt (flow r)) /\
  provider f = js_name p /\ surface f = js_name mobile /\
  originatingSessionIsValid ss (sessionId f) now = true /\
  a_userId a = userId f /\ a_tenantId a = tenantId f /\
  (forall f' a', snd (tryResolveMobileFlow hash raw p' ss' now' now2' t') <> resolved f' a').
Proof.
  intros Hwf Hres. pose proof (resolve_consumed _ _ _ _ _ _ _ _ _ _ Hwf Hres)
    as (r & Hr & Hc & Hterm & Hexp & -> & Hp & Hs & Hv & -> & Ht').
  pose proof (findUnique_Some _ _ _ Hr) as [Hin Hh].
  split; [by exists r|]. do 5 (split; [done|]). intros f' a' Hagain.
  destruct (tryResolveMobileFlow hash raw p' ss' now' now2' t') as [t2 res] eqn:Hres2.
  simpl in Hagain. subst res t'.
  apply resolve_consumed in Hres2 as (r2 & Hr2 & Hc2 & _); [|by apply wf_exec1].
  cbn [exec1] in Hr2. rewrite (consume_refine _ _ _ Hwf) in Hr2. unfold consume_spec in Hr2.
  rewrite Hr, Hc, Hterm in Hr2. simpl in Hr2. replace (expiresAt (flow r) <=? now) with false in Hr2 by lia.
  simpl in Hr2. apply findUnique_Some in Hr2 as [Hin2 Hh2].
  apply in_map_iff in Hin2 as [r0 [Hr0 _]]. rewrite <- Hr0 in Hh2, Hc2.
  destruct (String.eqb_spec (stateHash r0) (hash (opt_trim raw ?? ""))); [done|]. congruence.
Qed.

Lemma callback_resolves_once_witness :
  match snd (tryResolveMobileFlow (fun s => s) (Some " h1 ") meta
    [{| s_id := "s1"; revokedAt := None; s_expiresAt := 500; absoluteExpiresAt := None |}] 50 50
    (demo_table "pending" None)) with resolved _ _ => True | _ => False end /\
  forall f' a', snd (tryResolveMobileFlow (fun s => s) (Some " h1 ") meta
    [{| s_id := "s1"; revokedAt := None; s_expiresAt := 500; absoluteExpiresAt := None |}] 60 60
    (demo_table "provider_pending" (Some 50))) <> resolved f' a'.
Proof.
  split; [vm_compute; exact I|]. refine (proj2 (proj2 (proj2 (proj2 (proj2 (proj2 (callback_resolves_once (fun s => s) (Some " h1 ") meta meta
    [{| s_id := "s1"; revokedAt := None; s_expiresAt := 500; absoluteExpiresAt := None |}]
    [{| s_id := "s1"; revokedAt := None; s_expiresAt := 500; absoluteExpiresAt := None |}] 50 50 60 60
    (demo_table "pending" None) (demo_table "provider_pending" (Some 50))
    (demo_flow "provider_pending" (Some 50)) _ (demo_wf _ _) _))))))).
  vm_compute. reflexivity.
Defined.

End OAuthFlow.
