(* ===== verification/Sessions.v ===== *)
(** Sessions and one-time tokens ([packages/db/src/session.ts], [session-mgmt.ts],
    [auth-tokens.ts]): opaque session tokens with idle and absolute limits, their
    rotation, and the e-mail verification and password reset tokens.

    Operations that the code runs as separate statements are separate here too:
    [rotateUserSession] is [beginRotation] followed by [completeRotation], so that
    another operation may come between them. *)
From S2P Require Import Prelude.
Open Scope string_scope.
Open Scope list_scope.
Open Scope Z_scope.
Open Scope tam_scope.

Module Sessions.

(** * State *)

(* src: packages/db/src/session.ts:33-38 SessionTimeouts *)
Record SessionTimeouts := { idleMs : Z; absoluteMs : Z; rememberMs : Z; touchMs : Z }.

(** The columns read of users, tenants and memberships. *)
Record user_row := {
  u_id : string; u_name : option string; u_email : string; u_emailVerifiedAt : option Z;
  u_passwordHash : option string; u_passwordChangedAt : option Z }.
Record tenant_row := { t_id : string; t_name : string; t_workspaceKind : string; t_deletionState : string }.
Record membership_row := { m_id : string; m_userId : string; m_tenantId : string; m_role : string; m_createdAt : Z }.

(** A row of [user_sessions]. *)
Record session_row := {
  s_id : string; s_tokenHash : string; s_userId : string; s_activeTenantId : string; s_createdAt : Z;
  s_expiresAt : Z; s_absoluteExpiresAt : option Z; s_rememberMe : bool; s_userAgentSummary : option string;
  s_lastSeenAt : option Z; s_revokedAt : option Z; s_rotatedFromId : option string }.

(** A row of [email_verification_tokens] or [password_reset_tokens]. *)
Record token_row := { k_id : string; k_tokenHash : string; k_userId : string; k_expiresAt : Z; k_consumedAt : option Z }.

Record auth_db := {
  users : list user_row; tenants : list tenant_row; memberships : list membership_row;
  sessions : list session_row; verifications : list token_row; resets : list token_row }.

Definition set_users (l : list user_row) (d : auth_db) : auth_db :=
  {| users := l; tenants := tenants d; memberships := memberships d; sessions := sessions d;
     verifications := verifications d; resets := resets d |}.
Definition set_sessions (l : list session_row) (d : auth_db) : auth_db :=
  {| users := users d; tenants := tenants d; memberships := memberships d; sessions := l;
     verifications := verifications d; resets := resets d |}.
Definition set_verifications (l : list token_row) (d : auth_db) : auth_db :=
  {| users := users d; tenants := tenants d; memberships := memberships d; sessions := sessions d;
     verifications := l; resets := resets d |}.
Definition set_resets (l : list token_row) (d : auth_db) : auth_db :=
  {| users := users d; tenants := tenants d; memberships := memberships d; sessions := sessions d;
     verifications := verifications d; resets := l |}.

(** * Sessions *)

(* src: packages/db/src/session.ts:55-66 SessionRejectReason *)
Inductive SessionRejectReason :=
| unauthenticated | session_expired | session_expired_idle | session_expired_absolute | session_revoked
| membership_missing | user_missing | tenant_missing | tenant_deleting | password_changed.
#[export] Instance SessionRejectReason_dec : EqDecision SessionRejectReason.
Proof. solve_decision. Defined.

(* src: packages/db/src/session.ts:68-84 ResolvedSession *)
Record ResolvedSession := {
  sessionId : string; userId : string; userName : string; userEmail : string; emailVerified : bool;
  tenantId : string; tenantName : string; workspaceKind : string; role : string;
  expiresAt : Z; absoluteExpiresAt : option Z; rememberMe : bool }.

(* src: packages/db/src/session.ts:86-90 ReadSessionResult *)
Inductive ReadSessionResult := Accepted (s : ResolvedSession) | Rejected (r : SessionRejectReason).

Definition find_user (d : auth_db) (u : string) : option user_row := List.find (fun r => u_id r =s u) (users d).
Definition find_tenant (d : auth_db) (t : string) : option tenant_row := List.find (fun r => t_id r =s t) (tenants d).
Definition find_membership (d : auth_db) (u t : string) : option membership_row :=
  List.find (fun m => (m_userId m =s u) && (m_tenantId m =s t)) (memberships d).
Definition find_session (d : auth_db) (id : string) : option session_row := List.find (fun s => s_id s =s id) (sessions d).

(** A tenant that exists and is not being deleted. *)
Definition tenant_active (d : auth_db) (t : string) : bool :=
  match find_tenant d t with Some r => t_deletionState r =s "active" | None => false end.

(* src: packages/db/src/session.ts:98-101 assertMembership *)
Definition assertMembership (d : auth_db) (u t : string) : bool := is_some (find_membership d u t).

(** [orderBy: createdAt, id], ascending. *)
Definition membership_order (a b : membership_row) : Z :=
  if m_createdAt a - m_createdAt b =? 0
  then (if str_ltb (m_id a) (m_id b) then -1 else if str_ltb (m_id b) (m_id a) then 1 else 0)
  else m_createdAt a - m_createdAt b.

(* src: packages/db/src/session.ts:107-120 resolveActiveTenant *)
Definition resolveActiveTenant (d : auth_db) (u : string) (requested : option string) : option string :=
  if truthy requested then
    let t := requested ?? "" in
    if negb (assertMembership d u t) then None
    else if tenant_active d t then Some t else None
  else
    option_map m_tenantId
      (hd_error (js_sort membership_order
        (List.filter (fun m => (m_userId m =s u) && tenant_active d (m_tenantId m)) (memberships d)))).

(** Joining a membership with a missing user or tenant is an inconsistency the
    foreign keys exclude; the client throws. *)
(* src: packages/db/src/session.ts:167-206 hydrate *)
Definition hydrate (d : auth_db) (sid u t : string) (exp : Z) (abs : option Z) (remember : bool) (createdAt : option Z)
    : outcome ReadSessionResult string :=
  match find_membership d u t with
  | None => Ret (Rejected membership_missing)
  | Some m =>
      match find_user d u, find_tenant d t with
      | Some us, Some te =>
          if negb (t_deletionState te =s "active") then Ret (Rejected tenant_deleting)
          else if match createdAt, u_passwordChangedAt us with Some c, Some p => c <? p | _, _ => false end
          then Ret (Rejected password_changed)
          else Ret (Accepted {|
            sessionId := sid; userId := u_id us; userName := u_name us ?? u_email us; userEmail := u_email us;
            emailVerified := is_some (u_emailVerifiedAt us); tenantId := t_id te; tenantName := t_name te;
            workspaceKind := t_workspaceKind te; role := m_role m; expiresAt := exp; absoluteExpiresAt := abs;
            rememberMe := remember |})
      | _, _ => Throw "inconsistent query result"
      end
  end.

Definition update_session (where_ : session_row -> bool) (f : session_row -> session_row) (d : auth_db) : auth_db :=
  set_sessions (map (fun s => if where_ s then f s else s) (sessions d)) d.
Definition set_lastSeen (now : Z) (s : session_row) : session_row :=
  {| s_id := s_id s; s_tokenHash := s_tokenHash s; s_userId := s_userId s; s_activeTenantId := s_activeTenantId s;
     s_createdAt := s_createdAt s; s_expiresAt := s_expiresAt s; s_absoluteExpiresAt := s_absoluteExpiresAt s;
     s_rememberMe := s_rememberMe s; s_userAgentSummary := s_userAgentSummary s; s_lastSeenAt := Some now;
     s_revokedAt := s_revokedAt s; s_rotatedFromId := s_rotatedFromId s |}.
Definition set_revoked (now : Z) (s : session_row) : session_row :=
  {| s_id := s_id s; s_tokenHash := s_tokenHash s; s_userId := s_userId s; s_activeTenantId := s_activeTenantId s;
     s_createdAt := s_createdAt s; s_expiresAt := s_expiresAt s; s_absoluteExpiresAt := s_absoluteExpiresAt s;
     s_rememberMe := s_rememberMe s; s_userAgentSummary := s_userAgentSummary s; s_lastSeenAt := s_lastSeenAt s;
     s_revokedAt := Some now; s_rotatedFromId := s_rotatedFromId s |}.
Definition set_rotatedFrom (id : string) (s : session_row) : session_row :=
  {| s_id := s_id s; s_tokenHash := s_tokenHash s; s_userId := s_userId s; s_activeTenantId := s_activeTenantId s;
     s_createdAt := s_createdAt s; s_expiresAt := s_expiresAt s; s_absoluteExpiresAt := s_absoluteExpiresAt s;
     s_rememberMe := s_rememberMe s; s_userAgentSummary := s_userAgentSummary s; s_lastSeenAt := s_lastSeenAt s;
     s_revokedAt := s_revokedAt s; s_rotatedFromId := Some id |}.

(** Revoke the live sessions that match. *)
Definition revoke_where (p : session_row -> bool) (now : Z) (d : auth_db) : auth_db :=
  update_session (fun s => p s && is_none (s_revokedAt s)) (set_revoked now) d.
Definition count_live (p : session_row -> bool) (d : auth_db) : Z :=
  Z.of_nat (length (List.filter (fun s => p s && is_none (s_revokedAt s)) (sessions d))).

Section Auth.
(** [sha256] in hex. *)
Context (sha256 : string -> string).

(* src: packages/db/src/session.ts:93-95 hashSessionToken *)
Definition hashSessionToken (token : string) : string := sha256 token.

(** What a fresh session draws: its id, its raw token and the database's clock. *)
Record fresh_session := { f_id : string; f_token : string; f_createdAt : Z }.

(* src: packages/db/src/session.ts:130-141 createUserSession *)
Record CreateSessionInput := {
  c_userId : string; c_activeTenantId : option string; c_ttlMs : option Z; c_rememberMe : option bool;
  c_absoluteExpiresAt : option Z; c_userAgentSummary : option string }.
Record CreatedSession := { cr_token : string; cr_sessionId : string; cr_session : ResolvedSession }.

(* src: packages/db/src/session.ts:142-164 createUserSession *)
Definition createUserSession (i : CreateSessionInput) (t : SessionTimeouts) (fr : fresh_session) (now : Z) (d : auth_db)
    : auth_db * outcome CreatedSession string :=
  match find_user d (c_userId i) with
  | None => (d, Throw "createUserSession: user not found")
  | Some _ =>
      match resolveActiveTenant d (c_userId i) (c_activeTenantId i) with
      | None => (d, Throw "createUserSession: no valid tenant membership")
      | Some te =>
          if negb (nonempty te) then (d, Throw "createUserSession: no valid tenant membership")
          else
          let remember := c_rememberMe i ?? false in
          let ceiling := if remember then rememberMs t else absoluteMs t in
          let abs := c_absoluteExpiresAt i ?? (now + ceiling) in
          let exp := match c_ttlMs i with Some ms => now + ms | None => abs end in
          let row := {|
            s_id := f_id fr; s_tokenHash := hashSessionToken (f_token fr); s_userId := c_userId i; s_activeTenantId := te;
            s_createdAt := f_createdAt fr; s_expiresAt := exp; s_absoluteExpiresAt := Some abs; s_rememberMe := remember;
            s_userAgentSummary := c_userAgentSummary i; s_lastSeenAt := Some now; s_revokedAt := None; s_rotatedFromId := None |} in
          let d' := set_sessions (sessions d ++ [row]) d in
          if existsb (fun s => (s_tokenHash s =s s_tokenHash row) || (s_id s =s s_id row)) (sessions d) then (d, Throw "P2002")
          else
          match hydrate d' (f_id fr) (c_userId i) te exp (Some abs) remember (Some (f_createdAt fr)) with
          | Ret (Accepted s) => (d', Ret {| cr_token := f_token fr; cr_sessionId := f_id fr; cr_session := s |})
          | Ret (Rejected _) => (d', Throw "createUserSession: could not hydrate")
          | Throw e => (d', Throw e)
          end
      end
  end.

Definition find_by_token (d : auth_db) (token : string) : option session_row :=
  List.find (fun s => s_tokenHash s =s hashSessionToken token) (sessions d).

(* src: packages/db/src/session.ts:213-242 readUserSession *)
Definition readUserSession (token : option string) (now : Z) (t : SessionTimeouts) (d : auth_db)
    : auth_db * outcome ReadSessionResult string :=
  if negb (truthy token) then (d, Ret (Rejected unauthenticated))
  else
    match find_by_token d (token ?? "") with
    | None => (d, Ret (Rejected unauthenticated))
    | Some row =>
        if is_some (s_revokedAt row) then (d, Ret (Rejected session_revoked))
        else if s_expiresAt row <=? now then (d, Ret (Rejected session_expired))
        else if match s_absoluteExpiresAt row with Some a => a <=? now | None => false end
        then (d, Ret (Rejected session_expired_absolute))
        else if match s_lastSeenAt row with Some l => idleMs t <? now - l | None => false end
        then (d, Ret (Rejected session_expired_idle))
        else
          match hydrate d (s_id row) (s_userId row) (s_activeTenantId row) (s_expiresAt row) (s_absoluteExpiresAt row)
                  (s_rememberMe row) (Some (s_createdAt row)) with
          | Ret (Accepted s) =>
              let stale := match s_lastSeenAt row with Some l => touchMs t <? now - l | None => true end in
              ((if stale then update_session (fun x => s_id x =s s_id row) (set_lastSeen now) d else d), Ret (Accepted s))
          | r => (d, r)
          end
    end.

(* src: packages/db/src/session.ts:245-248 revokeUserSession *)
Definition revokeUserSession (token : option string) (now : Z) (d : auth_db) : auth_db :=
  if negb (truthy token) then d
  else revoke_where (fun s => s_tokenHash s =s hashSessionToken (token ?? "")) now d.

(* src: packages/db/src/session.ts:250-252 revokeUserSessionById *)
Definition revokeUserSessionById (id : string) (now : Z) (d : auth_db) : auth_db := revoke_where (fun s => s_id s =s id) now d.

(** A rotation between its reads and its writes. *)
Record rotation := { ro_current : ResolvedSession; ro_prior : option session_row; ro_tenant : string }.

(* src: packages/db/src/session.ts:259-264 rotateUserSession *)
Definition beginRotation (token : string) (tenant : option string) (now : Z) (t : SessionTimeouts) (d : auth_db)
    : auth_db * outcome rotation string :=
  match readUserSession (Some token) now t d with
  | (d1, Throw e) => (d1, Throw e)
  | (d1, Ret (Rejected _)) => (d1, Throw "rotateUserSession: current session invalid")
  | (d1, Ret (Accepted s)) =>
      let next := tenant ?? tenantId s in
      if negb (assertMembership d1 (userId s) next) then (d1, Throw "rotateUserSession: no membership in target tenant")
      else (d1, Ret {| ro_current := s; ro_prior := find_session d1 (sessionId s); ro_tenant := next |})
  end.

(** The session a rotation asks for: the prior one's ceiling, never a new one. *)
Definition rotation_input (r : rotation) : CreateSessionInput :=
  {| c_userId := userId (ro_current r); c_activeTenantId := Some (ro_tenant r); c_ttlMs := None;
     c_rememberMe := Some (match ro_prior r with Some p => s_rememberMe p | None => false end);
     c_absoluteExpiresAt := obind (ro_prior r) s_absoluteExpiresAt; c_userAgentSummary := None |}.

(* src: packages/db/src/session.ts:265-274 rotateUserSession *)
Definition completeRotation (r : rotation) (t : SessionTimeouts) (fr : fresh_session) (now now' : Z) (d : auth_db)
    : auth_db * outcome CreatedSession string :=
  match createUserSession (rotation_input r) t fr now d with
  | (d1, Throw e) => (d1, Throw e)
  | (d1, Ret c) =>
      let d2 := update_session (fun s => s_id s =s cr_sessionId c) (set_rotatedFrom (sessionId (ro_current r))) d1 in
      (revokeUserSessionById (sessionId (ro_current r)) now' d2, Ret c)
  end.

(* src: packages/db/src/session.ts:259-274 rotateUserSession *)
Definition rotateUserSession (token : string) (tenant : option string) (t : SessionTimeouts) (fr : fresh_session)
    (now now' now'' : Z) (d : auth_db) : auth_db * outcome CreatedSession string :=
  match beginRotation token tenant now t d with
  | (d1, Throw e) => (d1, Throw e)
  | (d1, Ret r) => completeRotation r t fr now' now'' d1
  end.

(** * A user's own sessions *)

(* src: packages/db/src/session-mgmt.ts:30-33 revokeOwnedSession *)
Definition revokeOwnedSession (u id : string) (now : Z) (d : auth_db) : auth_db * bool :=
  let p s := (s_id s =s id) && (s_userId s =s u) in (revoke_where p now d, 0 <? count_live p d).
(* src: packages/db/src/session-mgmt.ts:36-39 revokeOtherSessions *)
Definition revokeOtherSessions (u keep : string) (now : Z) (d : auth_db) : auth_db * Z :=
  let p s := (s_userId s =s u) && negb (s_id s =s keep) in (revoke_where p now d, count_live p d).
(* src: packages/db/src/session-mgmt.ts:42-45 revokeAllSessions *)
Definition revokeAllSessions (u : string) (now : Z) (d : auth_db) : auth_db * Z :=
  let p s := s_userId s =s u in (revoke_where p now d, count_live p d).

Definition set_password (h : string) (now : Z) (r : user_row) : user_row :=
  {| u_id := u_id r; u_name := u_name r; u_email := u_email r; u_emailVerifiedAt := u_emailVerifiedAt r;
     u_passwordHash := Some h; u_passwordChangedAt := Some now |}.
Definition update_user (u : string) (f : user_row -> user_row) (d : auth_db) : auth_db :=
  set_users (map (fun r => if u_id r =s u then f r else r) (users d)) d.

(** One transaction: [update] throws when the user is gone, and nothing is written. *)
(* src: packages/db/src/session-mgmt.ts:59-68 changeUserPassword *)
Definition changeUserPassword (u h : string) (keep : option string) (now : Z) (d : auth_db) : auth_db * outcome () string :=
  match find_user d u with
  | None => (d, Throw "P2025")
  | Some _ =>
      let d1 := update_user u (set_password h now) d in
      (revoke_where (fun s => (s_userId s =s u) && negb (truthy keep && (s_id s =s (keep ?? "")))) now d1, Ret tt)
  end.

(** * One-time tokens *)

(* src: packages/db/src/auth-tokens.ts:13-13 VERIFICATION_TTL_MS *)
Definition VERIFICATION_TTL_MS : Z := 24 * 60 * 60 * 1000.
(* src: packages/db/src/auth-tokens.ts:14-14 RESET_TTL_MS *)
Definition RESET_TTL_MS : Z := 60 * 60 * 1000.

(* src: packages/db/src/auth-tokens.ts:17-19 hashAuthToken *)
Definition hashAuthToken (raw : string) : string := sha256 raw.

(* src: packages/db/src/auth-tokens.ts:24-27 ConsumeReason *)
Inductive ConsumeReason := invalid | expired | consumed.
Inductive ConsumeResult := TokenOk (user : string) | TokenRefused (r : ConsumeReason).

Definition consume_row (now : Z) (k : token_row) : token_row :=
  {| k_id := k_id k; k_tokenHash := k_tokenHash k; k_userId := k_userId k; k_expiresAt := k_expiresAt k; k_consumedAt := Some now |}.
Definition consume_where (p : token_row -> bool) (now : Z) (l : list token_row) : list token_row :=
  map (fun k => if p k && is_none (k_consumedAt k) then consume_row now k else k) l.
Definition find_token (h : string) (l : list token_row) : option token_row := List.find (fun k => k_tokenHash k =s h) l.

(** Retire the user's open tokens, then add the new one: two statements, so a
    refused insert leaves the old tokens retired. *)
Definition issue_token (u raw id : string) (ttl now : Z) (l : list token_row) : list token_row * bool :=
  let l1 := consume_where (fun k => k_userId k =s u) now l in
  if existsb (fun k => (k_tokenHash k =s hashAuthToken raw) || (k_id k =s id)) l1 then (l1, false)
  else (l1 ++ [{| k_id := id; k_tokenHash := hashAuthToken raw; k_userId := u; k_expiresAt := now + ttl; k_consumedAt := None |}], true).

(* src: packages/db/src/auth-tokens.ts:35-45 createEmailVerificationToken *)
Definition createEmailVerificationToken (u raw id : string) (now : Z) (d : auth_db) : auth_db * outcome (string * Z) string :=
  let '(l, ok) := issue_token u raw id VERIFICATION_TTL_MS now (verifications d) in
  (set_verifications l d, if ok then Ret (raw, now + VERIFICATION_TTL_MS) else Throw "P2002").

(* src: packages/db/src/auth-tokens.ts:69-79 createPasswordResetToken *)
Definition createPasswordResetToken (u raw id : string) (now : Z) (d : auth_db) : auth_db * outcome (string * Z) string :=
  let '(l, ok) := issue_token u raw id RESET_TTL_MS now (resets d) in
  (set_resets l d, if ok then Ret (raw, now + RESET_TTL_MS) else Throw "P2002").

(* src: packages/db/src/auth-tokens.ts:121-127 classify *)
Definition classify (h : string) (now : Z) (l : list token_row) : ConsumeReason :=
  match find_token h l with
  | None => invalid
  | Some k => if is_some (k_consumedAt k) then consumed else if k_expiresAt k <=? now then expired else invalid
  end.

(** The guard of the atomic consume, beside [consumedAt: null]. *)
Definition redeemable (h : string) (now : Z) (k : token_row) : bool := (k_tokenHash k =s h) && (now <? k_expiresAt k).
Definition redeem_count (h : string) (now : Z) (l : list token_row) : Z :=
  Z.of_nat (length (List.filter (fun k => redeemable h now k && is_none (k_consumedAt k)) l)).

Definition set_verified (now : Z) (r : user_row) : user_row :=
  match u_emailVerifiedAt r with
  | Some _ => r
  | None => {| u_id := u_id r; u_name := u_name r; u_email := u_email r; u_emailVerifiedAt := Some now;
               u_passwordHash := u_passwordHash r; u_passwordChangedAt := u_passwordChangedAt r |}
  end.

(* src: packages/db/src/auth-tokens.ts:52-65 consumeEmailVerificationToken *)
Definition consumeEmailVerificationToken (raw : string) (now : Z) (d : auth_db) : auth_db * ConsumeResult :=
  let h := hashAuthToken raw in
  let d1 := set_verifications (consume_where (redeemable h now) now (verifications d)) d in
  if negb (redeem_count h now (verifications d) =? 1) then (d1, TokenRefused (classify h now (verifications d1)))
  else match find_token h (verifications d1) with
       | None => (d1, TokenRefused invalid)
       | Some k => (update_user (k_userId k) (set_verified now) d1, TokenOk (k_userId k))
       end.

(** One transaction; a refused guard rolls it back and classifies from a fresh read. *)
(* src: packages/db/src/auth-tokens.ts:87-110 resetPasswordWithToken *)
Definition resetPasswordWithToken (raw newHash : string) (now now' : Z) (d : auth_db) : auth_db * outcome ConsumeResult string :=
  let h := hashAuthToken raw in
  let refused := (d, Ret (TokenRefused (classify h now' (resets d)))) in
  if negb (redeem_count h now (resets d) =? 1) then refused
  else
    let d1 := set_resets (consume_where (redeemable h now) now (resets d)) d in
    match find_token h (resets d1) with
    | None => refused
    | Some k =>
        match find_user d1 (k_userId k) with
        | None => (d, Throw "P2025")
        | Some _ =>
            let d2 := update_user (k_userId k) (set_password newHash now) d1 in
            (revoke_where (fun s => s_userId s =s k_userId k) now d2, Ret (TokenOk (k_userId k)))
        end
    end.

(** [{ OR: [expired, consumed] }] *)
Definition stale_token (now : Z) (k : token_row) : bool := (k_expiresAt k <? now) || is_some (k_consumedAt k).

(** The deletion loop over one table, [fuel] being the batches left. *)
(* src: packages/db/src/auth-tokens.ts:143-150 cleanupExpiredAuthTokens *)
Fixpoint sweep_tokens (fuel batchSize : nat) (now : Z) (l : list token_row) : list token_row * Z :=
  match fuel with
  | O => (l, 0)
  | S fuel' =>
      let ids := map k_id (take batchSize (List.filter (stale_token now) l)) in
      if (length ids =? 0)%nat then (l, 0)
      else
        let gone k := includes ids (k_id k) in
        let l' := List.filter (fun k => negb (gone k)) l in
        let n := Z.of_nat (length (List.filter gone l)) in
        if (length ids <? batchSize)%nat then (l', n)
        else let '(l'', n') := sweep_tokens fuel' batchSize now l' in (l'', n + n')
  end.

(* src: packages/db/src/auth-tokens.ts:136-159 cleanupExpiredAuthTokens *)
Definition cleanupExpiredAuthTokens (batchSize maxBatches : option Z) (now : Z) (d : auth_db) : auth_db * (Z * Z) :=
  let b := Z.to_nat (Z.min (Z.max (batchSize ?? 500) 1) 5000) in
  let m := Z.to_nat (Z.min (Z.max (maxBatches ?? 20) 1) 1000) in
  let '(v, nv) := sweep_tokens m b now (verifications d) in
  let '(r, nr) := sweep_tokens m b now (resets d) in
  (set_resets r (set_verifications v d), (nv, nr)).
End Auth.

(** * Runs *)

(** The tables with the rotations that have read but not yet written. *)
Record world := { db : auth_db; inflight : list rotation }.

(** One atomic step of some request. [ODirectory] is any change another part of the
    program makes to users, tenants and memberships. *)
Inductive op :=
| OCreate (i : CreateSessionInput) (t : SessionTimeouts) (fr : fresh_session) (now : Z)
| ORead (token : option string) (now : Z) (t : SessionTimeouts)
| OLogout (token : option string) (now : Z)
| ORevokeById (id : string) (now : Z)
| OBegin (token : string) (tenant : option string) (now : Z) (t : SessionTimeouts)
| OComplete (n : nat) (t : SessionTimeouts) (fr : fresh_session) (now now' : Z)
| ORevokeOwned (u id : string) (now : Z)
| ORevokeOthers (u keep : string) (now : Z)
| ORevokeAll (u : string) (now : Z)
| OChangePassword (u h : string) (keep : option string) (now : Z)
| OIssueVerification (u raw id : string) (now : Z)
| OVerify (raw : string) (now : Z)
| OIssueReset (u raw id : string) (now : Z)
| OReset (raw newHash : string) (now now' : Z)
| OCleanup (batchSize maxBatches : option Z) (now : Z)
| ODirectory (us : list user_row) (ts : list tenant_row) (ms : list membership_row).

Section Runs.
Context (sha256 : string -> string).

Definition exec (o : op) (w : world) : world :=
  let on d := {| db := d; inflight := inflight w |} in
  match o with
  | OCreate i t fr now => on (fst (createUserSession sha256 i t fr now (db w)))
  | ORead tok now t => on (fst (readUserSession sha256 tok now t (db w)))
  | OLogout tok now => on (revokeUserSession sha256 tok now (db w))
  | ORevokeById id now => on (revokeUserSessionById id now (db w))
  | OBegin tok tenant now t =>
      match beginRotation sha256 tok tenant now t (db w) with
      | (d, Ret r) => {| db := d; inflight := inflight w ++ [r] |}
      | (d, Throw _) => on d
      end
  | OComplete n t fr now now' =>
      match nth_error (inflight w) n with
      | Some r => on (fst (completeRotation sha256 r t fr now now' (db w)))
      | None => w
      end
  | ORevokeOwned u id now => on (fst (revokeOwnedSession u id now (db w)))
  | ORevokeOthers u keep now => on (fst (revokeOtherSessions u keep now (db w)))
  | ORevokeAll u now => on (fst (revokeAllSessions u now (db w)))
  | OChangePassword u h keep now => on (fst (changeUserPassword u h keep now (db w)))
  | OIssueVerification u raw id now => on (fst (createEmailVerificationToken sha256 u raw id now (db w)))
  | OVerify raw now => on (fst (consumeEmailVerificationToken sha256 raw now (db w)))
  | OIssueReset u raw id now => on (fst (createPasswordResetToken sha256 u raw id now (db w)))
  | OReset raw h now now' => on (fst (resetPasswordWithToken sha256 raw h now now' (db w)))
  | OCleanup b m now => on (fst (cleanupExpiredAuthTokens b m now (db w)))
  | ODirectory us ts ms =>
      on {| users := us; tenants := ts; memberships := ms; sessions := sessions (db w);
            verifications := verifications (db w); resets := resets (db w) |}
  end.
Definition run (os : list op) (w : world) : world := fold_left (fun w o => exec o w) os w.

(** A start: no rotation under way or recorded, unique keys. *)
Definition start (w : world) : Prop :=
  inflight w = [] /\ NoDup (map s_id (sessions (db w))) /\ NoDup (map s_tokenHash (sessions (db w))) /\
  (forall s, In s (sessions (db w)) -> s_rotatedFromId s = None).

(** ** What a step does to the sessions *)

(** The columns no statement changes, and the mark no statement clears. *)
Record kept (s s' : session_row) : Prop := {
  kept_id : s_id s' = s_id s; kept_hash : s_tokenHash s' = s_tokenHash s; kept_user : s_userId s' = s_userId s;
  kept_abs : s_absoluteExpiresAt s' = s_absoluteExpiresAt s; kept_exp : s_expiresAt s' = s_expiresAt s;
  kept_remember : s_rememberMe s' = s_rememberMe s; kept_created : s_createdAt s' = s_createdAt s;
  kept_from : s_rotatedFromId s' = s_rotatedFromId s;
  kept_revoked : s_revokedAt s <> None -> s_revokedAt s' <> None }.

Lemma kept_refl s : kept s s.
Proof. by split. Qed.
Lemma kept_trans s1 s2 s3 : kept s1 s2 -> kept s2 s3 -> kept s1 s3.
Proof. intros [] []. split; try congruence. auto. Qed.
Lemma kept_lastSeen now s : kept s (set_lastSeen now s).
Proof. by split. Qed.
Lemma kept_revoke now s : kept s (set_revoked now s).
Proof. by split. Qed.

(** What a rotated session inherits. *)
Definition inherits (q s : session_row) : Prop :=
  s_userId s = s_userId q /\ s_rememberMe s = s_rememberMe q /\
  forall c, s_absoluteExpiresAt q = Some c -> s_absoluteExpiresAt s = Some c /\ s_expiresAt s = c.
Definition linked (l : list session_row) (s : session_row) : Prop :=
  forall p, s_rotatedFromId s = Some p -> exists q, In q l /\ s_id q = p /\ inherits q s.

(** Every old row is kept, and at most one new row is added, under new keys. *)
Definition sess_step (l l' : list session_row) : Prop :=
  exists f added, (forall s, kept s (f s)) /\ l' = map f l ++ added /\ (length added <= 1)%nat /\
    forall s, In s added -> ~ In (s_id s) (map s_id l) /\ ~ In (s_tokenHash s) (map s_tokenHash l) /\ linked l s.

Lemma step_map (f : session_row -> session_row) l : (forall s, kept s (f s)) -> sess_step l (map f l).
Proof. intros Hf. exists f, []. rewrite app_nil_r. simpl. split; [done|]. split; [done|]. split; [lia|]. by intros s []. Qed.
Lemma step_refl l : sess_step l l.
Proof. pose proof (step_map (fun s => s) l kept_refl) as H. by rewrite map_id in H. Qed.
Lemma step_update p f d : (forall s, kept s (f s)) -> sess_step (sessions d) (sessions (update_session p f d)).
Proof. intros Hf. apply step_map. intros s. destruct (p s); [done|apply kept_refl]. Qed.
Lemma step_revoke p now d : sess_step (sessions d) (sessions (revoke_where p now d)).
Proof. apply step_update. apply kept_revoke. Qed.

(** Keeping rows after adding one. *)
Lemma step_then_map (g : session_row -> session_row) l l' : (forall s, kept s (g s)) -> sess_step l l' -> sess_step l (map g l').
Proof.
  intros Hg (f & added & Hf & -> & Hlen & Hadd). exists (fun s => g (f s)), (map g added).
  split; [intros s; eapply kept_trans; [apply Hf|apply Hg]|]. split; [by rewrite map_app, map_map|].
  split; [by rewrite length_map|]. intros s (s0 & <- & Hin)%in_map_iff. destruct (Hadd s0 Hin) as (Hi & Hh & Hl).
  destruct (Hg s0) as [Kid Khash Kuser Kabs Kexp Krem Kcr Kfrom Krev]. rewrite Kid, Khash. split; [done|]. split; [done|].
  intros p Hp. rewrite Kfrom in Hp. destruct (Hl p Hp) as (q & Hq & Hqid & Hu & Hr & Hc). exists q. split; [done|]. split; [done|].
  unfold inherits. rewrite Kuser, Krem, Kabs, Kexp. done.
Qed.

(** The row a creation adds. *)
Definition created_row (i : CreateSessionInput) (t : SessionTimeouts) (fr : fresh_session) (now : Z) (te : string) : session_row :=
  let remember := c_rememberMe i ?? false in
  let abs := c_absoluteExpiresAt i ?? (now + (if remember then rememberMs t else absoluteMs t)) in
  {| s_id := f_id fr; s_tokenHash := hashSessionToken sha256 (f_token fr); s_userId := c_userId i; s_activeTenantId := te;
     s_createdAt := f_createdAt fr; s_expiresAt := match c_ttlMs i with Some ms => now + ms | None => abs end;
     s_absoluteExpiresAt := Some abs; s_rememberMe := remember; s_userAgentSummary := c_userAgentSummary i;
     s_lastSeenAt := Some now; s_revokedAt := None; s_rotatedFromId := None |}.

Lemma create_cases i t fr now d d' res :
  createUserSession sha256 i t fr now d = (d', res) ->
  (d' = d /\ exists e, res = Throw e) \/
  exists te, resolveActiveTenant d (c_userId i) (c_activeTenantId i) = Some te /\ nonempty te = true /\
    ~ In (f_id fr) (map s_id (sessions d)) /\ ~ In (hashSessionToken sha256 (f_token fr)) (map s_tokenHash (sessions d)) /\
    d' = set_sessions (sessions d ++ [created_row i t fr now te]) d /\
    (forall c, res = Ret c -> cr_sessionId c = f_id fr /\ cr_token c = f_token fr /\
      hydrate d' (f_id fr) (c_userId i) te (s_expiresAt (created_row i t fr now te)) (s_absoluteExpiresAt (created_row i t fr now te))
        (s_rememberMe (created_row i t fr now te)) (Some (f_createdAt fr)) = Ret (Accepted (cr_session c))).
Proof.
  unfold createUserSession. destruct (find_user d (c_userId i)); [|intros [= <- <-]; left; eauto].
  destruct (resolveActiveTenant d (c_userId i) (c_activeTenantId i)) as [te|] eqn:Ht; [|intros [= <- <-]; left; eauto].
  destruct (nonempty te) eqn:Hne; cbn [negb]; [|intros [= <- <-]; left; eauto]. cbv zeta.
  destruct (existsb _ _) eqn:Hex; [intros [= <- <-]; left; eauto|]. intros H. right. exists te. split; [done|]. split; [done|].
  assert (Hnew : forall s, In s (sessions d) -> s_tokenHash s <> hashSessionToken sha256 (f_token fr) /\ s_id s <> f_id fr).
  { intros s Hs. pose proof (existsb_false _ _ Hex s Hs) as Hb. cbv beta in Hb. rewrite orb_false_iff in Hb.
    destruct Hb as [H1 H2]. by split; apply String.eqb_neq. }
  split; [intros (s & Hs & Hin)%in_map_iff; destruct (Hnew s Hin); congruence|].
  split; [intros (s & Hs & Hin)%in_map_iff; destruct (Hnew s Hin); congruence|].
  unfold created_row. cbv zeta. cbn [s_expiresAt s_absoluteExpiresAt s_rememberMe].
  destruct (hydrate _ _ _ _ _ _ _ _) as [[s|]|] eqn:Hh; injection H as <- <-; (split; [done|]); intros c [= <-]; done.
Qed.

Lemma read_step tok now t d : sess_step (sessions d) (sessions (fst (readUserSession sha256 tok now t d))).
Proof.
  unfold readUserSession. destruct (negb (truthy tok)); [apply step_refl|].
  destruct (find_by_token _ _ _) as [row|]; [|apply step_refl].
  destruct (is_some _); [apply step_refl|]. destruct (_ <=? now); [apply step_refl|].
  destruct (match s_absoluteExpiresAt row with Some _ => _ | None => _ end); [apply step_refl|].
  destruct (match s_lastSeenAt row with Some _ => _ | None => _ end); [apply step_refl|].
  destruct (hydrate _ _ _ _ _ _ _ _) as [[s|r]|e]; [|apply step_refl|apply step_refl].
  cbn [fst]. destruct (match s_lastSeenAt row with Some _ => _ | None => _ end); [|apply step_refl].
  apply step_update, kept_lastSeen.
Qed.

(** An accepted read names a row of the table, kept by the read itself. *)
Lemma read_accepted tok now t d d' s :
  readUserSession sha256 tok now t d = (d', Ret (Accepted s)) ->
  exists row, find_by_token sha256 d (tok ?? "") = Some row /\ truthy tok = true /\ s_revokedAt row = None /\
    now < s_expiresAt row /\ (forall a, s_absoluteExpiresAt row = Some a -> now < a) /\
    sessionId s = s_id row /\ userId s = s_userId row /\ absoluteExpiresAt s = s_absoluteExpiresAt row /\
    (forall us p, find_user d (s_userId row) = Some us -> u_passwordChangedAt us = Some p -> p <= s_createdAt row).
Proof.
  unfold readUserSession. destruct (truthy tok) eqn:Ht; cbn [negb]; [|done].
  destruct (find_by_token _ _ _) as [row|]; [|done].
  destruct (s_revokedAt row) eqn:Hr; cbn [is_some]; [done|]. destruct (Z.leb_spec (s_expiresAt row) now); [done|].
  destruct (match s_absoluteExpiresAt row with Some _ => _ | None => _ end) eqn:Ha; [done|].
  destruct (match s_lastSeenAt row with Some _ => _ | None => _ end); [done|].
  destruct (hydrate _ _ _ _ _ _ _ _) as [[s0|r]|e] eqn:Hh; [|done|done]. intros [= _ <-]. exists row.
  unfold hydrate in Hh. destruct (find_membership _ _ _); [|done]. destruct (find_user _ _) as [us|] eqn:Hu; [|done].
  destruct (find_tenant _ _); [|done]. destruct (negb _); [done|].
  destruct (match u_passwordChangedAt us with Some _ => _ | None => _ end) eqn:Hp; [done|]. injection Hh as <-.
  pose proof Hu as [_ Hid%String.eqb_eq]%List.find_some.
  repeat (split; [done|]). split; [intros a Hab; rewrite Hab in Ha; lia|]. repeat (split; [done|]).
  intros us' p [= <-] Hus. rewrite Hus in Hp. lia.
Qed.

Lemma step_keys {K} (key : session_row -> K) l l' :
  (forall s s', kept s s' -> key s' = key s) ->
  (forall s, ~ In (s_id s) (map s_id l) /\ ~ In (s_tokenHash s) (map s_tokenHash l) -> ~ In (key s) (map key l)) ->
  sess_step l l' -> NoDup (map key l) -> NoDup (map key l').
Proof.
  intros Hkey Hnew (f & added & Hk & -> & Hlen & Hadd) Hnd. rewrite map_app, map_map.
  rewrite (map_ext _ key) by (intros s; apply Hkey, Hk). apply NoDup_app. split; [done|]. split.
  - intros k Hin (s & Hs & Ha)%list_elem_of_In%in_map_iff. subst k. destruct (Hadd s Ha) as (H1 & H2 & _).
    apply list_elem_of_In in Hin. by apply (Hnew s).
  - destruct added as [|s [|s' added]]; simpl in *; [constructor|repeat constructor; by apply not_elem_of_nil|lia].
Qed.
Lemma step_NoDup l l' : sess_step l l' -> NoDup (map s_id l) -> NoDup (map s_id l').
Proof. apply step_keys; [by intros ? ? []|tauto]. Qed.
Lemma step_NoDup_hash l l' : sess_step l l' -> NoDup (map s_tokenHash l) -> NoDup (map s_tokenHash l').
Proof. apply step_keys; [by intros ? ? []|tauto]. Qed.

Definition promised (l : list session_row) (r : rotation) : Prop :=
  exists p, ro_prior r = Some p /\ s_id p = sessionId (ro_current r) /\ s_userId p = userId (ro_current r) /\
  exists q, In q l /\ kept p q.

Lemma begin_cases tok tenant now t d d' res :
  NoDup (map s_id (sessions d)) -> beginRotation sha256 tok tenant now t d = (d', res) ->
  sess_step (sessions d) (sessions d') /\ forall r, res = Ret r -> promised (sessions d') r.
Proof.
  intros Hnd. unfold beginRotation. pose proof (read_step (Some tok) now t d) as Hst.
  destruct (readUserSession sha256 (Some tok) now t d) as [d1 r1] eqn:Hread. cbn [fst] in Hst.
  destruct r1 as [[s|rr]|e]; [|intros [= <- <-]; done..].
  destruct (negb (assertMembership _ _ _)); intros [= <- <-]; (split; [done|]); [done|].
  intros r [= <-]. unfold promised. cbn [ro_prior ro_current].
  apply read_accepted in Hread as (row & Hf & _ & _ & _ & _ & Hid & Hu & _ & _). apply List.find_some in Hf as [Hin _].
  pose proof Hst as (f & added & Hk & Hl & _ & _). pose proof (Hk row) as Hrow.
  assert (Hin' : In (f row) (sessions d1)) by (rewrite Hl; apply in_or_app; left; by apply in_map).
  assert (Hfind : find_session d1 (sessionId s) = Some (f row)).
  { unfold find_session. rewrite Hid, <- (kept_id _ _ Hrow). apply find_unique_key; [|done]. by apply (step_NoDup _ _ Hst). }
  exists (f row). split; [done|]. split; [rewrite Hid; apply Hrow|]. split; [rewrite Hu; apply Hrow|].
  exists (f row). by split; [|apply kept_refl].
Qed.

Lemma create_step i t fr now d : sess_step (sessions d) (sessions (fst (createUserSession sha256 i t fr now d))).
Proof.
  destruct (createUserSession sha256 i t fr now d) as [d' res] eqn:H.
  apply create_cases in H as [[-> _]|(te & _ & _ & Hid & Hhash & -> & _)]; [apply step_refl|].
  exists (fun s => s), [created_row i t fr now te]. split; [apply kept_refl|]. split; [by rewrite map_id|]. split; [done|].
  intros s [<-|[]]. done.
Qed.

Lemma complete_step r t fr now now' d :
  promised (sessions d) r -> sess_step (sessions d) (sessions (fst (completeRotation sha256 r t fr now now' d))).
Proof.
  intros (p & Hp & Hpid & Hpu & q & Hq & Hk). unfold completeRotation.
  pose proof (create_step (rotation_input r) t fr now d) as Hst.
  destruct (createUserSession sha256 (rotation_input r) t fr now d) as [d1 [c|e]] eqn:Hc; [|done].
  apply create_cases in Hc as [[_ [e He]]|(te & _ & _ & Hid & Hhash & -> & Hret)]; [done|].
  destruct (Hret c eq_refl) as (Hcid & _ & _). clear Hst Hret. cbn [fst].
  unfold revokeUserSessionById, revoke_where, update_session. cbn [sessions set_sessions].
  apply step_then_map; [intros s; destruct (_ && _); [apply kept_revoke|apply kept_refl]|].
  set (row := created_row (rotation_input r) t fr now te). rewrite map_app. cbn [map]. rewrite Hcid.
  change (s_id row) with (f_id fr). rewrite String.eqb_refl.
  exists (fun s => s), [set_rotatedFrom (sessionId (ro_current r)) row]. split; [apply kept_refl|]. split; [|split; [done|]].
  - f_equal. apply map_ext_in. intros s Hs. destruct (String.eqb_spec (s_id s) (f_id fr)) as [He|]; [|done].
    destruct Hid. rewrite <- He. by apply in_map.
  - intros s [<-|[]]. split; [done|]. split; [done|]. intros p' [= <-]. exists q. split; [done|].
    destruct Hk as [Kid Khash Kuser Kabs Kexp Krem _ _ _]. split; [congruence|].
    unfold inherits, row, created_row, rotation_input. cbn. rewrite Hp. cbn. rewrite Krem, Kabs, Kuser.
    split; [congruence|]. split; [done|]. intros c' ->. done.
Qed.

(** ** Invariant *)

Record Inv (w : world) : Prop := {
  inv_ids : NoDup (map s_id (sessions (db w)));
  inv_hashes : NoDup (map s_tokenHash (sessions (db w)));
  inv_linked : forall s, In s (sessions (db w)) -> linked (sessions (db w)) s;
  inv_promised : forall r, In r (inflight w) -> promised (sessions (db w)) r }.

Lemma start_inv w : start w -> Inv w.
Proof. intros (Hi & H1 & H2 & H3). split; [done|done| |by rewrite Hi]. intros s Hs p Hp. by rewrite (H3 s Hs) in Hp. Qed.

Lemma step_In l l' s : sess_step l l' -> In s l -> exists s', In s' l' /\ kept s s'.
Proof. intros (f & added & Hk & -> & _) Hin. exists (f s). split; [|done]. apply in_or_app. left. by apply in_map. Qed.

Lemma inherits_kept q q' s s' : kept q q' -> kept s s' -> inherits q s -> inherits q' s'.
Proof.
  intros [Q1 Q2 Q3 Q4 Q5 Q6 Q7 Q8 Q9] [S1 S2 S3 S4 S5 S6 S7 S8 S9]. unfold inherits. rewrite Q3, Q4, Q6, S3, S4, S5, S6. done.
Qed.

Lemma linked_step l l' : sess_step l l' -> (forall s, In s l -> linked l s) -> forall s, In s l' -> linked l' s.
Proof.
  intros Hst Hl s Hs. pose proof Hst as (f & added & Hk & -> & _ & Hadd).
  assert (Hold : forall s0 s', kept s0 s' -> linked l s0 -> linked (map f l ++ added) s').
  { intros s0 s' Hks Hl0 p Hp. rewrite (kept_from _ _ Hks) in Hp. destruct (Hl0 p Hp) as (q & Hq & Hqid & Hinh).
    destruct (step_In _ _ q Hst Hq) as (q' & Hq' & Hkq). exists q'. split; [done|]. split; [by rewrite (kept_id _ _ Hkq)|].
    by apply (inherits_kept q q' s0 s'). }
  apply in_app_or in Hs as [(s0 & <- & Hs0)%in_map_iff|Hs].
  - apply (Hold s0); auto.
  - apply (Hold s); [apply kept_refl|]. by apply Hadd.
Qed.

Lemma promised_step l l' r : sess_step l l' -> promised l r -> promised l' r.
Proof.
  intros Hst (p & Hp & Hid & Hu & q & Hq & Hk). exists p. split; [done|]. split; [done|]. split; [done|].
  destruct (step_In _ _ q Hst Hq) as (q' & Hq' & Hkq). exists q'. split; [done|]. by eapply kept_trans.
Qed.

Lemma inv_step w w' : Inv w -> sess_step (sessions (db w)) (sessions (db w')) ->
  (forall r, In r (inflight w') -> In r (inflight w) \/ promised (sessions (db w')) r) -> Inv w'.
Proof.
  intros [H1 H2 H3 H4] Hst Hr. split.
  - by apply (step_NoDup _ _ Hst).
  - by apply (step_NoDup_hash _ _ Hst).
  - by apply (linked_step _ _ Hst).
  - intros r Hin. destruct (Hr r Hin) as [Hold|]; [|done]. apply (promised_step _ _ _ Hst). by apply H4.
Qed.

Lemma change_password_step u h keep now d : sess_step (sessions d) (sessions (fst (changeUserPassword u h keep now d))).
Proof. unfold changeUserPassword. destruct (find_user d u); [|apply step_refl]. apply (step_revoke _ _ (update_user u _ d)). Qed.

Lemma reset_step raw h now now' d : sess_step (sessions d) (sessions (fst (resetPasswordWithToken sha256 raw h now now' d))).
Proof.
  unfold resetPasswordWithToken. destruct (negb _); [apply step_refl|]. destruct (find_token _ _); [|apply step_refl].
  destruct (find_user _ _); [|apply step_refl]. apply (step_revoke _ _ (update_user _ _ (set_resets _ d))).
Qed.

Lemma exec_step o w : Inv w -> sess_step (sessions (db w)) (sessions (db (exec o w))).
Proof.
  intros Hw. destruct o; cbn [exec db]; try apply step_refl.
  - apply create_step.
  - apply read_step.
  - unfold revokeUserSession. destruct (negb (truthy token)); [apply step_refl|apply step_revoke].
  - apply step_revoke.
  - destruct (beginRotation _ _ _ _ _ _) as [d res] eqn:H. apply begin_cases in H as [H _]; [|apply Hw]. by destruct res.
  - destruct (nth_error _ _) as [r|] eqn:Hn; [|apply step_refl]. apply complete_step.
    apply nth_error_In in Hn. by apply (inv_promised w Hw).
  - apply step_revoke.
  - apply step_revoke.
  - apply step_revoke.
  - apply change_password_step.
  - unfold createEmailVerificationToken. destruct (issue_token _ _ _ _ _ _ _). apply step_refl.
  - unfold consumeEmailVerificationToken. destruct (negb _); [apply step_refl|]. destruct (find_token _ _); apply step_refl.
  - unfold createPasswordResetToken. destruct (issue_token _ _ _ _ _ _ _). apply step_refl.
  - apply reset_step.
  - unfold cleanupExpiredAuthTokens. destruct (sweep_tokens _ _ _ (verifications _)), (sweep_tokens _ _ _ (resets _)). apply step_refl.
Qed.

Lemma exec_inv o w : Inv w -> Inv (exec o w).
Proof.
  intros Hw. apply (inv_step w); [done|by apply exec_step|]. intros r Hr.
  destruct o; cbn [exec inflight] in Hr; try (by left).
  - destruct (beginRotation _ _ _ _ _ _) as [d res] eqn:H. cbn [exec]. rewrite H.
    apply begin_cases in H as [_ H]; [|apply Hw]. destruct res as [r0|]; [|by left]. cbn [inflight] in Hr.
    apply in_app_or in Hr as [Hr|[<-|[]]]; [by left|right]. by apply H.
  - left. by destruct (nth_error _ _).
Qed.

Lemma run_sessions_inv os w : Inv w -> Inv (run os w).
Proof. revert w. induction os as [|o os IH]; intros w Hw; [done|]. apply IH. by apply exec_inv. Qed.

Lemma run_kept os w s : Inv w -> In s (sessions (db w)) -> exists s', In s' (sessions (db (run os w))) /\ kept s s'.
Proof.
  revert w s. induction os as [|o os IH]; intros w s Hw Hs; [exists s; split; [done|apply kept_refl]|].
  destruct (step_In _ _ s (exec_step o w Hw) Hs) as (s1 & Hs1 & Hk1).
  destruct (IH (exec o w) s1 (exec_inv o w Hw) Hs1) as (s2 & Hs2 & Hk2). exists s2. split; [done|]. by eapply kept_trans.
Qed.

(** * Properties of sessions *)

(** [s] was rotated, in any number of steps, from [root]. *)
Inductive descends (l : list session_row) (root : session_row) : session_row -> Prop :=
| descends_root : descends l root root
| descends_rotated q s : descends l root q -> In q l -> In s l -> s_rotatedFromId s = Some (s_id q) -> descends l root s.

Lemma descends_ceiling w root s c :
  Inv w -> descends (sessions (db w)) root s -> s_absoluteExpiresAt root = Some c ->
  s_absoluteExpiresAt s = Some c /\ s_userId s = s_userId root.
Proof.
  intros Hw Hd Hc. induction Hd as [|q s Hd [IH1 IH2] Hq Hs Hfrom]; [done|].
  destruct (inv_linked w Hw s Hs _ Hfrom) as (q' & Hq' & Hid & Hu & _ & Habs).
  assert (q' = q) as -> by (by apply (NoDup_key_inj s_id _ _ _ (inv_ids w Hw))).
  destruct (Habs c IH1) as [? _]. split; [done|congruence].
Qed.

(** Rotation never extends a login: in every state reachable by any interleaving
    of the session and token operations, rotations split in the middle included, a
    session rotated in any number of steps from another is accepted only before the
    absolute ceiling of the first one, which it reports as its own, and only for
    the same user. *)
Theorem rotation_keeps_ceiling (os : list op) (w : world) (root s : session_row) (tok : string) (now c : Z)
    (t : SessionTimeouts) (r : ResolvedSession) :
  start w ->
  let d := db (run os w) in
  descends (sessions d) root s -> s_absoluteExpiresAt root = Some c ->
  find_by_token sha256 d tok = Some s -> snd (readUserSession sha256 (Some tok) now t d) = Ret (Accepted r) ->
  now < c /\ absoluteExpiresAt r = Some c /\ userId r = s_userId root.
Proof.
  intros Hstart d Hd Hc Hf Hr. pose proof (run_sessions_inv os w (start_inv w Hstart)) as Hw.
  destruct (descends_ceiling _ root s c Hw Hd Hc) as [Hs Hu].
  destruct (readUserSession sha256 (Some tok) now t d) as [d' res] eqn:Hread. cbn [snd] in Hr. subst res.
  apply read_accepted in Hread as (row & Hrow & _ & _ & _ & Habs & _ & Huid & Hra & _). cbn in Hrow. rewrite Hf in Hrow.
  injection Hrow as <-. rewrite Hra, Huid. split; [by apply Habs|]. split; [done|congruence].
Qed.

Lemma find_by_hash w s tok : Inv w -> In s (sessions (db w)) -> hashSessionToken sha256 tok = s_tokenHash s ->
  find_by_token sha256 (db w) tok = Some s.
Proof. intros Hw Hs Hh. unfold find_by_token. rewrite Hh. apply find_unique_key; [apply Hw|done]. Qed.

Lemma revoked_never_accepted os w s tok n t r :
  Inv w -> In s (sessions (db w)) -> s_revokedAt s <> None -> hashSessionToken sha256 tok = s_tokenHash s ->
  snd (readUserSession sha256 (Some tok) n t (db (run os w))) <> Ret (Accepted r).
Proof.
  intros Hw Hs Hrev Hh Hacc. destruct (run_kept os w s Hw Hs) as (s' & Hs' & Hk).
  destruct (readUserSession sha256 (Some tok) n t (db (run os w))) as [d' res] eqn:Hread. cbn [snd] in Hacc. subst res.
  apply read_accepted in Hread as (row & Hrow & _ & Hno & _). cbn in Hrow.
  rewrite (find_by_hash (run os w) s' tok) in Hrow; [|by apply run_sessions_inv|done|by rewrite (kept_hash _ _ Hk)].
  injection Hrow as <-. by apply (kept_revoked _ _ Hk).
Qed.

Lemma In_revoke_where p now d s : In s (sessions d) -> p s = true ->
  exists s', In s' (sessions (revoke_where p now d)) /\ kept s s' /\ s_revokedAt s' <> None.
Proof.
  intros Hs Hp. set (g := fun x => if p x && is_none (s_revokedAt x) then set_revoked now x else x).
  exists (g s). split; [by apply (in_map g)|].
  unfold g. rewrite Hp. cbn [andb]. destruct (s_revokedAt s) as [z|] eqn:Hr.
  - change (is_none (Some z)) with false. split; [apply kept_refl|]. by rewrite Hr.
  - by split.
Qed.

Lemma revoke_where_ends os p now w w' s tok n t r :
  Inv w -> Inv w' -> sessions (db w') = sessions (revoke_where p now (db w)) -> In s (sessions (db w)) -> p s = true ->
  hashSessionToken sha256 tok = s_tokenHash s ->
  snd (readUserSession sha256 (Some tok) n t (db (run os w'))) <> Ret (Accepted r).
Proof.
  intros Hw Hw' Hs Hin Hp Hh. destruct (In_revoke_where p now (db w) s Hin Hp) as (s' & Hin' & Hk & Hrev).
  apply (revoked_never_accepted os w' s'); [done|by rewrite Hs|done|by rewrite (kept_hash _ _ Hk)].
Qed.

Lemma reset_Ok raw h now now' d d' u : resetPasswordWithToken sha256 raw h now now' d = (d', Ret (TokenOk u)) ->
  exists k us, find_token (hashAuthToken sha256 raw) (consume_where (redeemable (hashAuthToken sha256 raw) now) now (resets d)) = Some k /\
    k_userId k = u /\ find_user d u = Some us /\ redeem_count (hashAuthToken sha256 raw) now (resets d) = 1 /\
    d' = revoke_where (fun s => s_userId s =s u) now
           (update_user u (set_password h now) (set_resets (consume_where (redeemable (hashAuthToken sha256 raw) now) now (resets d)) d)).
Proof.
  unfold resetPasswordWithToken. destruct (Z.eqb_spec (redeem_count (hashAuthToken sha256 raw) now (resets d)) 1) as [H1|]; cbn [negb]; [|done].
  destruct (find_token _ _) as [k|] eqn:Hk; [|done]. destruct (find_user _ _) as [us|] eqn:Hu; [|done].
  intros [= <- <-]. exists k, us. done.
Qed.

(** C39 — Revocation is final and a password reset ends every session: once a session's
    row is revoked no later interleaving of operations, by whomever, makes its token
    acceptable again; and after a successful reset, a password change that keeps no
    session, or a log-out everywhere, no token of a session the user had at that
    moment is ever accepted again. *)
Theorem session_revocation_final (before after_ : list op) (w : world) (s : session_row) (tok : string) :
  start w ->
  let w1 := run before w in
  In s (sessions (db w1)) -> hashSessionToken sha256 tok = s_tokenHash s ->
  let never o := forall n t r, snd (readUserSession sha256 (Some tok) n t (db (run after_ (exec o w1)))) <> Ret (Accepted r) in
  (s_revokedAt s <> None -> forall o, never o) /\
  (forall raw h now now' d', resetPasswordWithToken sha256 raw h now now' (db w1) = (d', Ret (TokenOk (s_userId s))) ->
     never (OReset raw h now now')) /\
  (forall h now d', changeUserPassword (s_userId s) h None now (db w1) = (d', Ret tt) -> never (OChangePassword (s_userId s) h None now)) /\
  (forall now, never (ORevokeAll (s_userId s) now)).
Proof.
  intros Hstart w1 Hs Hh never. pose proof (run_sessions_inv before w (start_inv w Hstart)) as Hw. fold w1 in Hw.
  split; [|split; [|split]].
  - intros Hrev o n t r. by apply (revoked_never_accepted (o :: after_) w1 s).
  - intros raw h now now' d' Hr n t r. pose proof (reset_Ok _ _ _ _ _ _ _ Hr) as (k & us & _ & _ & _ & _ & Hd).
    apply (revoke_where_ends after_ (fun x => s_userId x =s s_userId s) now w1 _ s);
      [done|by apply exec_inv| |done|apply String.eqb_refl|done]. cbn [exec db]. by rewrite Hr, Hd.
  - intros h now d' Hc n t r. apply (revoke_where_ends after_ (fun x => s_userId x =s s_userId s) now w1 _ s);
      [done|by apply exec_inv| |done|apply String.eqb_refl|done]. cbn [exec db]. unfold changeUserPassword in *.
    destruct (find_user _ _); [|done]. cbn [fst]. unfold revoke_where, update_session. cbn. apply map_ext. intros x.
    by rewrite andb_true_r.
  - intros now n t r. apply (revoke_where_ends after_ (fun x => s_userId x =s s_userId s) now w1 _ s);
      [done|by apply exec_inv|done|done|apply String.eqb_refl|done].
Qed.

(** The conditions of a read, each with its reason, in the order of the checks. *)
Definition hydrate_objections (d : auth_db) (row : session_row) : list (bool * SessionRejectReason) :=
  [(is_none (find_membership d (s_userId row) (s_activeTenantId row)), membership_missing);
   (negb (tenant_active d (s_activeTenantId row)), tenant_deleting);
   (match obind (find_user d (s_userId row)) u_passwordChangedAt with Some p => s_createdAt row <? p | None => false end, password_changed)].
Definition objections (d : auth_db) (row : session_row) (now : Z) (t : SessionTimeouts) : list (bool * SessionRejectReason) :=
  [(is_some (s_revokedAt row), session_revoked); (s_expiresAt row <=? now, session_expired);
   (match s_absoluteExpiresAt row with Some a => a <=? now | None => false end, session_expired_absolute);
   (match s_lastSeenAt row with Some l => idleMs t <? now - l | None => false end, session_expired_idle)] ++ hydrate_objections d row.
Definition first_objection (l : list (bool * SessionRejectReason)) : option SessionRejectReason :=
  option_map snd (List.find fst l).

(** The foreign keys of memberships and of sessions' tenants. *)
Definition consistent (d : auth_db) : Prop :=
  forall m, In m (memberships d) -> find_user d (m_userId m) <> None /\ find_tenant d (m_tenantId m) <> None.

Lemma hydrate_exact d sid u t exp abs rem row :
  consistent d -> s_userId row = u -> s_activeTenantId row = t ->
  match first_objection (hydrate_objections d row) with
  | Some r => hydrate d sid u t exp abs rem (Some (s_createdAt row)) = Ret (Rejected r)
  | None => exists s, hydrate d sid u t exp abs rem (Some (s_createdAt row)) = Ret (Accepted s) /\
      sessionId s = sid /\ userId s = u /\ tenantId s = t /\ absoluteExpiresAt s = abs /\ expiresAt s = exp /\ rememberMe s = rem /\
      exists m, find_membership d u t = Some m /\ role s = m_role m
  end.
Proof.
  intros Hc <- <-. unfold first_objection, hydrate_objections, hydrate, tenant_active.
  destruct (find_membership d _ _) as [m|] eqn:Hm; [|done].
  assert (Hm' : In m (memberships d) /\ m_userId m = s_userId row /\ m_tenantId m = s_activeTenantId row).
  { apply List.find_some in Hm as [Hin Hm]. guards_in Hm. tauto. }
  destruct Hm' as (Hin & Hmu & Hmt). destruct (Hc m Hin) as [Hu Ht]. rewrite Hmu in Hu. rewrite Hmt in Ht.
  destruct (find_user d (s_userId row)) as [us|] eqn:Hfu; [|done]. destruct (find_tenant d (s_activeTenantId row)) as [te|] eqn:Hft; [|done].
  change (is_none (Some m)) with false. cbn [List.find fst obind].
  destruct (negb (t_deletionState te =s "active")); [done|].
  apply List.find_some in Hfu as [_ Hfu%String.eqb_eq]. apply List.find_some in Hft as [_ Hft%String.eqb_eq].
  destruct (u_passwordChangedAt us) as [p|]; [destruct (s_createdAt row <? p); [done|]|].
  all: eexists; split; [reflexivity|]; repeat (split; [done|]); by exists m.
Qed.

(** Reading a session is exact: an unknown token is unauthenticated; a known one
    is refused for the first of its objections, in the order revoked, expired, past
    the absolute ceiling, idle too long, membership gone, tenant being deleted,
    password changed since; it is accepted exactly when there is none, with the
    user, tenant and role of the live membership; and the only write is the activity
    mark of that row, made when it is older than the touch interval. *)
Theorem read_session_exact (d : auth_db) (tok : string) (now : Z) (t : SessionTimeouts) :
  consistent d -> tok <> "" ->
  let '(d', res) := readUserSession sha256 (Some tok) now t d in
  match find_by_token sha256 d tok with
  | None => res = Ret (Rejected unauthenticated) /\ d' = d
  | Some row =>
      match first_objection (objections d row now t) with
      | Some r => res = Ret (Rejected r) /\ d' = d
      | None => (exists s m, res = Ret (Accepted s) /\ sessionId s = s_id row /\ userId s = s_userId row /\
            tenantId s = s_activeTenantId row /\ absoluteExpiresAt s = s_absoluteExpiresAt row /\
            find_membership d (s_userId row) (s_activeTenantId row) = Some m /\ role s = m_role m) /\
          d' = (if match s_lastSeenAt row with Some l => touchMs t <? now - l | None => true end
                then update_session (fun x => s_id x =s s_id row) (set_lastSeen now) d else d)
      end
  end.
Proof.
  intros Hc Htok. unfold readUserSession. cbn [truthy]. unfold nonempty. rewrite (proj2 (String.eqb_neq _ _) Htok). cbn [negb nullish].
  destruct (find_by_token sha256 d tok) as [row|]; [|done]. unfold first_objection, objections. cbn [app List.find fst].
  destruct (is_some (s_revokedAt row)); [done|]. destruct (s_expiresAt row <=? now); [done|].
  destruct (match s_absoluteExpiresAt row with Some _ => _ | None => _ end); [done|].
  destruct (match s_lastSeenAt row with Some l => idleMs t <? _ | None => _ end); [done|].
  pose proof (hydrate_exact d (s_id row) _ _ (s_expiresAt row) (s_absoluteExpiresAt row) (s_rememberMe row) row Hc eq_refl eq_refl) as Hh.
  unfold first_objection in Hh. destruct (List.find fst (hydrate_objections d row)) as [[b r]|]; cbn [option_map snd] in *.
  - by rewrite Hh.
  - destruct Hh as (s & Hs & ? & ? & ? & ? & ? & ? & m & ? & ?). rewrite Hs. split; [|done]. exists s, m. done.
Qed.

(** * Properties of tokens *)

Definition open_tokens (h : string) (l : list token_row) : nat :=
  length (List.filter (fun k => (k_tokenHash k =s h) && is_none (k_consumedAt k)) l).

Definition reset_won (h : string) (o : op) (w : world) : bool :=
  match o with
  | OReset raw nh now now' =>
      (hashAuthToken sha256 raw =s h) &&
      match snd (resetPasswordWithToken sha256 raw nh now now' (db w)) with Ret (TokenOk _) => true | _ => false end
  | _ => false
  end.
Definition reset_issued (h : string) (o : op) (w : world) : bool :=
  match o with
  | OIssueReset u raw id now =>
      (hashAuthToken sha256 raw =s h) && match snd (createPasswordResetToken sha256 u raw id now (db w)) with Ret _ => true | Throw _ => false end
  | _ => false
  end.
(** How often an event happens along a run. *)
Fixpoint times (ev : op -> world -> bool) (os : list op) (w : world) : nat :=
  match os with [] => 0 | o :: os => (if ev o w then 1 else 0) + times ev os (exec o w) end.

Lemma open_app h l l' : open_tokens h (l ++ l') = (open_tokens h l + open_tokens h l')%nat.
Proof. unfold open_tokens. by rewrite List.filter_app, length_app. Qed.
Lemma open_cons h k l : open_tokens h (k :: l) =
  ((if (k_tokenHash k =s h) && is_none (k_consumedAt k) then 1 else 0) + open_tokens h l)%nat.
Proof. unfold open_tokens. cbn [List.filter]. by destruct (_ && _). Qed.

Lemma open_tokens_consume h p now l : (open_tokens h (consume_where p now l) +
  length (List.filter (fun k => (k_tokenHash k =s h) && (p k && is_none (k_consumedAt k))) l) = open_tokens h l)%nat.
Proof.
  induction l as [|k l IH]; [done|]. cbn [consume_where map List.filter]. fold (consume_where p now l).
  rewrite !open_cons. destruct (p k); cbn [andb].
  - unfold is_none in *. destruct (k_consumedAt k) eqn:Hk; cbn [is_some negb]; rewrite ?andb_false_r, ?andb_true_r.
    + rewrite Hk. cbn [is_some negb]. rewrite andb_false_r. lia.
    + cbn [consume_row k_tokenHash k_consumedAt is_some negb andb]. rewrite ?andb_false_r, ?andb_true_r in *.
      destruct (k_tokenHash k =s h); cbn [length]; lia.
  - rewrite andb_false_r. lia.
Qed.
Lemma open_consume_le h p now l : (open_tokens h (consume_where p now l) <= open_tokens h l)%nat.
Proof. rewrite <- (open_tokens_consume h p now l). apply Nat.le_add_r. Qed.
Lemma open_tokens_filter h p l : (open_tokens h (List.filter p l) <= open_tokens h l)%nat.
Proof. induction l as [|k l IH]; [done|]. rewrite open_cons. cbn [List.filter]. destruct (p k); rewrite ?open_cons; lia. Qed.
Lemma open_sweep h m b now l : (open_tokens h (fst (sweep_tokens m b now l)) <= open_tokens h l)%nat.
Proof.
  revert l. induction m as [|m IH]; intros l; [done|]. cbn [sweep_tokens]. destruct (_ =? 0)%nat; [done|].
  destruct (_ <? b)%nat; [apply open_tokens_filter|]. destruct (sweep_tokens m b now _) as [l' n] eqn:Hs. cbn [fst].
  specialize (IH (List.filter (fun k => negb (includes (map k_id (take b (List.filter (stale_token now) l))) (k_id k))) l)).
  rewrite Hs in IH. cbn [fst] in IH. etransitivity; [exact IH|apply open_tokens_filter].
Qed.

Lemma redeem_open raw now l :
  redeem_count (hashAuthToken sha256 raw) now l = 1 ->
  (1 + open_tokens (hashAuthToken sha256 raw) (consume_where (redeemable (hashAuthToken sha256 raw) now) now l) <=
   open_tokens (hashAuthToken sha256 raw) l)%nat.
Proof.
  intros H. unfold redeem_count in H. rewrite <- (open_tokens_consume _ (redeemable (hashAuthToken sha256 raw) now) now l).
  enough (length (List.filter (fun k => (k_tokenHash k =s hashAuthToken sha256 raw) &&
    (redeemable (hashAuthToken sha256 raw) now k && is_none (k_consumedAt k))) l) = 1)%nat by lia.
  rewrite (filter_ext _ (fun k => redeemable (hashAuthToken sha256 raw) now k && is_none (k_consumedAt k))); [lia|].
  intros k. unfold redeemable. by destruct (k_tokenHash k =s _).
Qed.

Lemma exec_open h o w :
  ((if reset_won h o w then 1 else 0) + open_tokens h (resets (db (exec o w))) <=
   (if reset_issued h o w then 1 else 0) + open_tokens h (resets (db w)))%nat.
Proof.
  assert (Hsame : forall d', resets d' = resets (db w) -> (open_tokens h (resets d') <= open_tokens h (resets (db w)))%nat)
    by (by intros d' ->).
  assert (Hcreate : forall i t fr now, resets (fst (createUserSession sha256 i t fr now (db w))) = resets (db w)).
  { intros i t fr now. destruct (createUserSession sha256 i t fr now (db w)) as [d' res] eqn:H.
    by apply create_cases in H as [[-> _]|(te & _ & _ & _ & _ & -> & _)]. }
  assert (Hread : forall tok now t, resets (fst (readUserSession sha256 tok now t (db w))) = resets (db w)).
  { intros tok now t. unfold readUserSession. destruct (negb _); [done|]. destruct (find_by_token _ _ _) as [row|]; [|done].
    destruct (is_some _); [done|]. destruct (_ <=? now); [done|]. destruct (match s_absoluteExpiresAt row with Some _ => _ | None => _ end); [done|].
    destruct (match s_lastSeenAt row with Some _ => _ | None => _ end); [done|]. destruct (hydrate _ _ _ _ _ _ _ _) as [[s|r]|e]; [|done|done].
    cbn [fst]. by destruct (match s_lastSeenAt row with Some _ => _ | None => _ end). }
  destruct o; cbn [exec db reset_won reset_issued Nat.add]; try (apply Hsame; done).
  - apply Hsame. unfold revokeUserSession. by destruct (negb (truthy token)).
  - apply Hsame. unfold beginRotation. pose proof (Hread (Some token) now t) as Hr.
    destruct (readUserSession sha256 (Some token) now t (db w)) as [d1 [[s|r]|e]]; [|done..]. by destruct (negb _).
  - apply Hsame. destruct (nth_error _ _) as [r|]; [|done]. unfold completeRotation. pose proof (Hcreate (rotation_input r) t fr now) as Hc.
    by destruct (createUserSession sha256 _ t fr now (db w)) as [d1 [c|e]].
  - apply Hsame. unfold changeUserPassword. by destruct (find_user _ _).
  - apply Hsame. unfold createEmailVerificationToken. by destruct (issue_token _ _ _ _ _ _ _).
  - apply Hsame. unfold consumeEmailVerificationToken. destruct (negb _); [done|]. by destruct (find_token _ _).
  - unfold createPasswordResetToken, issue_token. destruct (existsb _ _).
    + cbn [snd fst resets set_resets]. rewrite andb_false_r. apply open_consume_le.
    + cbn [snd fst resets set_resets]. rewrite andb_true_r, open_app, open_cons. cbn [k_tokenHash k_consumedAt].
      pose proof (open_consume_le h (fun k => k_userId k =s u) now (resets (db w))) as Hc. change (is_none None) with true. rewrite andb_true_r.
      change (open_tokens h []) with 0%nat. destruct (hashAuthToken sha256 raw =s h); lia.
  - destruct (resetPasswordWithToken sha256 raw newHash now now' (db w)) as [d' res] eqn:Hr. cbn [snd fst].
    destruct res as [[u|c]|e].
    + rewrite andb_true_r. apply reset_Ok in Hr as (k & us & _ & _ & _ & Hcount & ->). cbn [resets revoke_where update_session update_user set_users set_sessions set_resets].
      destruct (String.eqb_spec (hashAuthToken sha256 raw) h) as [<-|Hne]; [by apply redeem_open|].
      apply open_consume_le.
    + rewrite andb_false_r. apply Hsame. unfold resetPasswordWithToken in Hr. destruct (negb _); [by injection Hr as <- _|].
      destruct (find_token _ _); [|by injection Hr as <- _]. by destruct (find_user _ _).
    + rewrite andb_false_r. apply Hsame. unfold resetPasswordWithToken in Hr. destruct (negb _); [done|].
      destruct (find_token _ _); [|done]. destruct (find_user _ _); [done|]. by injection Hr as <- _.
  - unfold cleanupExpiredAuthTokens. destruct (sweep_tokens _ _ _ (verifications _)) as [v nv].
    destruct (sweep_tokens _ _ _ (resets _)) as [r nr] eqn:Hs. cbn [fst resets set_resets].
    pose proof (open_sweep h (Z.to_nat (Z.min (Z.max (maxBatches ?? 20) 1) 1000)) (Z.to_nat (Z.min (Z.max (batchSize ?? 500) 1) 5000)) now
      (resets (db w))) as Ho. by rewrite Hs in Ho.
Qed.

(** A reset token works once: along any interleaving of operations, from any
    tables, the resets that succeed with tokens of one hash are no more than the
    open tokens with that hash at the start and those issued on the way. *)
Theorem reset_at_most_once (h : string) (os : list op) (w : world) :
  (times (reset_won h) os w <= open_tokens h (resets (db w)) + times (reset_issued h) os w)%nat.
Proof.
  revert w. induction os as [|o os IH]; intros w; [simpl; lia|]. cbn [times].
  pose proof (exec_open h o w). specialize (IH (exec o w)). lia.
Qed.

Lemma find_user_update d u v f : (forall r, u_id (f r) = u_id r) ->
  find_user (update_user u f d) v = option_map (fun r => if u_id r =s u then f r else r) (find_user d v).
Proof.
  intros Hf. unfold find_user, update_user. cbn [users set_users]. induction (users d) as [|r l IH]; [done|]. cbn [map List.find].
  assert (Hid : u_id (if u_id r =s u then f r else r) = u_id r) by (by destruct (_ =s _)).
  rewrite Hid. by destruct (u_id r =s v).
Qed.

Lemma find_consume h p now l : find_token h (consume_where p now l) =
  option_map (fun k => if p k && is_none (k_consumedAt k) then consume_row now k else k) (find_token h l).
Proof.
  unfold find_token, consume_where. induction l as [|k l IH]; [done|]. cbn [map List.find].
  assert (Hh : k_tokenHash (if p k && is_none (k_consumedAt k) then consume_row now k else k) = k_tokenHash k) by (by destruct (_ && _)).
  rewrite Hh. by destruct (k_tokenHash k =s h).
Qed.

Lemma redeem_count_unique h now l k : NoDup (map k_tokenHash l) -> In k l -> k_tokenHash k = h ->
  redeem_count h now l = if (now <? k_expiresAt k) && is_none (k_consumedAt k) then 1 else 0.
Proof.
  intros Hnd Hin Hh. unfold redeem_count. induction l as [|x l IH]; [done|]. cbn [map] in Hnd. apply NoDup_cons in Hnd as [Hx Hnd].
  cbn [List.filter]. unfold redeemable at 1. destruct Hin as [->|Hin].
  - rewrite Hh, String.eqb_refl. cbn [andb].
    assert (Hnil : List.filter (fun k => redeemable h now k && is_none (k_consumedAt k)) l = []).
    { apply filter_nil_iff. intros y Hy. unfold redeemable. destruct (String.eqb_spec (k_tokenHash y) h) as [He|]; [|done].
      destruct Hx. rewrite Hh, <- He. apply list_elem_of_In. by apply in_map. }
    destruct (_ && _); cbn [length]; by rewrite Hnil.
  - destruct (String.eqb_spec (k_tokenHash x) h) as [He|]; cbn [andb]; [|by apply IH].
    destruct Hx. rewrite He, <- Hh. apply list_elem_of_In. by apply in_map.
Qed.

Lemma filter_update_session p f g d : (forall s, p s = true -> g s = false) -> (forall s, g (f s) = g s) ->
  List.filter g (sessions (update_session p f d)) = List.filter g (sessions d).
Proof.
  intros Hp Hf. unfold update_session. cbn [sessions set_sessions]. induction (sessions d) as [|s l IH]; [done|].
  cbn [map List.filter]. destruct (p s) eqn:Hs; [rewrite Hf, (Hp s Hs); exact IH|]. by rewrite IH.
Qed.

(** The reset is exact and atomic: it succeeds exactly when one unconsumed,
    unexpired token has the hash and its user exists; then that token is consumed,
    the user has the new password hash and change mark, every session of the user
    is revoked, and no other user, session or token changes; otherwise nothing
    changes, and the refusal says invalid for an unknown token, consumed for a used
    one, expired for one whose time has passed. *)
Theorem reset_exact (raw nh : string) (now : Z) (d : auth_db) (k : token_row) :
  NoDup (map k_tokenHash (resets d)) -> In k (resets d) -> k_tokenHash k = hashAuthToken sha256 raw -> find_user d (k_userId k) <> None ->
  let '(d', res) := resetPasswordWithToken sha256 raw nh now now d in
  (k_consumedAt k = None /\ now < k_expiresAt k ->
     res = Ret (TokenOk (k_userId k)) /\
     find_token (hashAuthToken sha256 raw) (resets d') = Some (consume_row now k) /\
     (forall h, h <> hashAuthToken sha256 raw -> find_token h (resets d') = find_token h (resets d)) /\
     (forall v, find_user d' v = option_map (fun r => if u_id r =s k_userId k then set_password nh now r else r) (find_user d v)) /\
     (forall s, In s (sessions d') -> s_userId s = k_userId k -> s_revokedAt s <> None) /\
     List.filter (fun s => negb (s_userId s =s k_userId k)) (sessions d') = List.filter (fun s => negb (s_userId s =s k_userId k)) (sessions d) /\
     verifications d' = verifications d /\ memberships d' = memberships d) /\
  (k_consumedAt k <> None -> res = Ret (TokenRefused consumed) /\ d' = d) /\
  (k_consumedAt k = None /\ k_expiresAt k <= now -> res = Ret (TokenRefused expired) /\ d' = d).
Proof.
  intros Hnd Hin Hh Hu. unfold resetPasswordWithToken. rewrite (redeem_count_unique _ now _ k Hnd Hin Hh).
  assert (Hfind : find_token (hashAuthToken sha256 raw) (resets d) = Some k) by (rewrite <- Hh; by apply find_unique_key).
  assert (Hrefuse : forall r, classify (hashAuthToken sha256 raw) now (resets d) = r ->
    (if is_some (k_consumedAt k) then consumed else if k_expiresAt k <=? now then expired else invalid) = r)
    by (unfold classify; by rewrite Hfind).
  specialize (Hrefuse _ eq_refl).
  destruct ((now <? k_expiresAt k) && is_none (k_consumedAt k)) eqn:Hc; cbn [negb Z.eqb Pos.eqb].
  - guards_in Hc. destruct Hc as [Hnow Hc]. apply Z.ltb_lt in Hnow. assert (Hno : k_consumedAt k = None) by (by destruct (k_consumedAt k)).
    assert (Hred : redeemable (hashAuthToken sha256 raw) now k = true)
      by (unfold redeemable; rewrite Hh, String.eqb_refl; by replace (now <? k_expiresAt k) with true by lia).
    assert (Hafter : find_token (hashAuthToken sha256 raw) (consume_where (redeemable (hashAuthToken sha256 raw) now) now (resets d)) =
      Some (consume_row now k)) by (rewrite find_consume, Hfind; cbn [option_map]; by rewrite Hred, Hno).
    cbn [resets set_resets]. rewrite Hafter. cbn [k_userId consume_row].
    change (find_user (set_resets _ d) (k_userId k)) with (find_user d (k_userId k)).
    destruct (find_user d (k_userId k)) as [us|]; [|done].
    split; [|split; [congruence|intros [_ ?]; lia]]. intros _. split; [done|].
    split; [exact Hafter|].
    split.
    { intros h Hne. change (find_token h (consume_where (redeemable (hashAuthToken sha256 raw) now) now (resets d)) = find_token h (resets d)).
      rewrite find_consume. destruct (find_token h (resets d)) as [x|] eqn:Hx; [|done]. cbn [option_map]. unfold redeemable.
      apply List.find_some in Hx as [_ Hx%String.eqb_eq]. rewrite Hx, (proj2 (String.eqb_neq _ _) Hne). done. }
    split; [intros v; apply (find_user_update (set_resets (consume_where (redeemable (hashAuthToken sha256 raw) now) now (resets d)) d)); done|].
    split.
    { intros s Hs Hus. unfold revoke_where, update_session in Hs. cbn [sessions set_sessions] in Hs.
      apply in_map_iff in Hs as (s0 & <- & _). destruct (String.eqb_spec (s_userId s0) (k_userId k)) as [He|Hne]; cbn [andb] in *; [|done].
      destruct (is_none (s_revokedAt s0)) eqn:Hr; [done|]. by destruct (s_revokedAt s0). }
    split; [|done]. etransitivity; [apply filter_update_session|reflexivity]; [|done].
    intros s [Hs _]%andb_true_iff. by rewrite Hs.
  - assert (Hno : ~ (k_consumedAt k = None /\ now < k_expiresAt k)).
    { intros [H1 H2]. rewrite H1 in Hc. by replace (now <? k_expiresAt k) with true in Hc by lia. }
    split; [tauto|]. split.
    + intros Hcon. split; [|done]. rewrite <- Hrefuse. by destruct (k_consumedAt k).
    + intros [Hcon Hexp]. split; [|done]. rewrite <- Hrefuse, Hcon. by replace (k_expiresAt k <=? now) with true by lia.
Qed.

Lemma reset_outcome raw nh now now' d k :
  NoDup (map k_tokenHash (resets d)) -> In k (resets d) -> k_tokenHash k = hashAuthToken sha256 raw -> find_user d (k_userId k) <> None ->
  now <= now' ->
  snd (resetPasswordWithToken sha256 raw nh now now' d) =
    if is_some (k_consumedAt k) then Ret (TokenRefused consumed)
    else if now <? k_expiresAt k then Ret (TokenOk (k_userId k)) else Ret (TokenRefused expired).
Proof.
  intros Hnd Hin Hh Hu Hle. unfold resetPasswordWithToken, classify. rewrite (redeem_count_unique _ now _ k Hnd Hin Hh).
  assert (Hfind : find_token (hashAuthToken sha256 raw) (resets d) = Some k) by (rewrite <- Hh; by apply find_unique_key).
  cbn [resets set_resets]. rewrite find_consume, Hfind. cbn [option_map].
  assert (Huser : k_userId (if redeemable (hashAuthToken sha256 raw) now k && is_none (k_consumedAt k) then consume_row now k else k) = k_userId k)
    by (by destruct (_ && _)).
  rewrite Huser. change (find_user (set_resets _ d) (k_userId k)) with (find_user d (k_userId k)).
  destruct (find_user d (k_userId k)); [|done].
  destruct (k_consumedAt k); [by destruct (now <? k_expiresAt k)|]. change (is_none None) with true. rewrite andb_true_r.
  destruct (Z.ltb_spec now (k_expiresAt k)); cbn [negb Z.eqb Pos.eqb snd is_some]; [done|].
  by replace (k_expiresAt k <=? now') with true by lia.
Qed.

Lemma issue_token_spec u raw id ttl now l l' : issue_token sha256 u raw id ttl now l = (l', true) ->
  l' = consume_where (fun k => k_userId k =s u) now l ++
       [{| k_id := id; k_tokenHash := hashAuthToken sha256 raw; k_userId := u; k_expiresAt := now + ttl; k_consumedAt := None |}] /\
  (NoDup (map k_tokenHash l) -> NoDup (map k_tokenHash l')).
Proof.
  unfold issue_token. destruct (existsb _ _) eqn:Hex; [done|]. intros [= <-]. split; [done|]. intros Hnd.
  assert (Hkeys : map k_tokenHash (consume_where (fun k => k_userId k =s u) now l) = map k_tokenHash l).
  { unfold consume_where. rewrite map_map. apply map_ext. intros k. by destruct (_ && _). }
  rewrite map_app, Hkeys. apply NoDup_app. split; [done|]. split; [|repeat constructor; by apply not_elem_of_nil].
  intros h Hin Hh%list_elem_of_singleton. subst h. rewrite <- Hkeys in Hin. apply list_elem_of_In, in_map_iff in Hin as (k & Hk & Hin).
  pose proof (existsb_false _ _ Hex k Hin) as Hb. cbv beta in Hb. apply orb_false_iff in Hb as [Hb _]. cbn in Hk. by rewrite Hk, String.eqb_refl in Hb.
Qed.

(** An issued reset token redeems, and it alone: for an existing user, the token
    returned is redeemed as that user's at any time before the stated expiry, one
    hour after issue, and refused as expired from then on; and every token the user
    was issued before is refused as consumed. *)
Theorem reset_token_roundtrip (u raw id raw' : string) (n0 exp : Z) (d d1 : auth_db) :
  NoDup (map k_tokenHash (resets d)) -> find_user d u <> None ->
  createPasswordResetToken sha256 u raw id n0 d = (d1, Ret (raw', exp)) ->
  raw' = raw /\ exp = n0 + 3600000 /\
  (forall nh now now', now <= now' -> snd (resetPasswordWithToken sha256 raw' nh now now' d1) =
     if now <? exp then Ret (TokenOk u) else Ret (TokenRefused expired)) /\
  (forall k old nh now now', now <= now' -> In k (resets d) -> k_userId k = u -> k_tokenHash k = hashAuthToken sha256 old ->
     snd (resetPasswordWithToken sha256 old nh now now' d1) = Ret (TokenRefused consumed)).
Proof.
  intros Hnd Hu. unfold createPasswordResetToken. destruct (issue_token sha256 u raw id RESET_TTL_MS n0 (resets d)) as [l ok] eqn:Hi.
  destruct ok; [|done]. intros [= <- <- <-]. apply issue_token_spec in Hi as [-> Hnd']. specialize (Hnd' Hnd).
  split; [done|]. split; [done|]. split.
  - intros nh now now' Hle. erewrite reset_outcome; [..|done]; [|done|apply in_or_app; right; left; reflexivity|done|done]. done.
  - intros k old nh now now' Hle Hin Hku Hkh.
    assert (Hk : let k' := if (k_userId k =s u) && is_none (k_consumedAt k) then consume_row n0 k else k in
      k_userId k' = k_userId k /\ k_tokenHash k' = k_tokenHash k /\ is_some (k_consumedAt k') = true).
    { cbv zeta. rewrite Hku, String.eqb_refl. cbn [andb]. unfold is_none.
      destruct (is_some (k_consumedAt k)) eqn:Hc; cbn [negb]; [by rewrite Hc|done]. }
    destruct Hk as (H1 & H2 & H3).
    rewrite (reset_outcome old nh now now' _ (if (k_userId k =s u) && is_none (k_consumedAt k) then consume_row n0 k else k)).
    + by rewrite H3.
    + done.
    + apply in_or_app. left. by apply (in_map (fun k => if (k_userId k =s u) && is_none (k_consumedAt k) then consume_row n0 k else k)).
    + by rewrite H2.
    + rewrite H1, Hku. exact Hu.
    + done.
Qed.

(** ** Cleanup *)

(** One batch takes the first stale rows, and no other. *)
Lemma batch_spec b now l : NoDup (map k_id l) ->
  let gone k := includes (map k_id (take b (List.filter (stale_token now) l))) (k_id k) in
  let l' := List.filter (fun k => negb (gone k)) l in
  List.filter (stale_token now) l' = drop b (List.filter (stale_token now) l) /\
  List.filter (fun k => negb (stale_token now k)) l' = List.filter (fun k => negb (stale_token now k)) l /\
  NoDup (map k_id l').
Proof.
  cbv zeta. intros Hnd. set (S := List.filter (stale_token now) l).
  assert (HndS : NoDup (map k_id S)) by (by apply NoDup_map_filter).
  assert (Htake : forall x, In x (take b S) -> In x l /\ stale_token now x = true).
  { intros x Hx. apply filter_In. change (In x S). rewrite <- (take_drop b S). apply in_or_app. by left. }
  split; [|split].
  - rewrite filter_comm. change (List.filter (stale_token now) l) with S.
    transitivity (List.filter (fun k => negb (includes (map k_id (take b S)) (k_id k))) (take b S ++ drop b S)); [by rewrite take_drop|].
    rewrite List.filter_app.
    rewrite (proj2 (filter_nil_iff _ (take b S))), filter_all; [done| |].
    + intros x Hx. apply negb_true_iff. destruct (includes _ _) eqn:Hi; [|done]. apply includes_In, in_map_iff in Hi as (y & Hy & Hin).
      rewrite <- (take_drop b S), map_app in HndS. apply NoDup_app in HndS as (_ & Hdis & _).
      exfalso. apply (Hdis (k_id y)); [by apply list_elem_of_In, in_map|]. rewrite Hy. by apply list_elem_of_In, in_map.
    + intros x Hx. apply negb_false_iff, includes_In. by apply in_map.
  - rewrite filter_comm. apply filter_all. intros x [Hx Hf]%filter_In. apply negb_true_iff. destruct (includes _ _) eqn:Hi; [|done].
    apply includes_In, in_map_iff in Hi as (y & Hy & Hin). destruct (Htake y Hin) as [Hyl Hys].
    rewrite (NoDup_key_inj k_id l y x Hnd Hyl Hx Hy) in Hys. by rewrite Hys in Hf.
  - by apply NoDup_map_filter.
Qed.

Lemma sweep_spec m b now l : NoDup (map k_id l) -> (0 < b)%nat ->
  let '(l', n) := sweep_tokens m b now l in
  List.filter (stale_token now) l' = drop (m * b) (List.filter (stale_token now) l) /\
  List.filter (fun k => negb (stale_token now k)) l' = List.filter (fun k => negb (stale_token now k)) l /\
  n = Z.of_nat (length l) - Z.of_nat (length l').
Proof.
  intros Hnd Hb. revert l Hnd. induction m as [|m IH]; intros l Hnd; [cbn; split; [done|]; split; [done|lia]|].
  cbn [sweep_tokens]. rewrite length_map, length_take. set (S := List.filter (stale_token now) l).
  destruct (Nat.eqb_spec (Nat.min b (length S)) 0) as [H0|H0].
  { assert (HS : S = []) by (apply length_zero_iff_nil; lia). split; [|split; [done|lia]]. fold S. by rewrite HS, drop_nil. }
  pose proof (batch_spec b now l Hnd) as (H1 & H2 & H3). cbv zeta in H1, H2, H3. fold S in H1, H2, H3.
  pose proof (filter_split_length (fun k => includes (map k_id (take b S)) (k_id k)) l) as Hlen. cbv beta in Hlen.
  destruct (Nat.ltb_spec (Nat.min b (length S)) b) as [Hlt|Hge].
  - split; [rewrite H1, !drop_ge by lia; done|]. split; [done|]. lia.
  - specialize (IH _ H3). destruct (sweep_tokens m b now _) as [l'' n']. destruct IH as (I1 & I2 & I3).
    split; [rewrite I1, H1, drop_drop; f_equal; lia|]. split; [by rewrite I2|]. lia.
Qed.

(** Cleanup is bounded, touches only dead tokens, and catches up: in each table,
    over unique ids, it deletes exactly as many expired or consumed tokens as exist,
    up to the number of batches times the batch size, reports that number, and keeps
    every live token; so once the bound covers the dead ones, none is left. *)
Theorem token_cleanup_exact (batchSize maxBatches : option Z) (now : Z) (d : auth_db) :
  NoDup (map k_id (verifications d)) -> NoDup (map k_id (resets d)) ->
  let cap := Z.min (Z.max (maxBatches ?? 20) 1) 1000 * Z.min (Z.max (batchSize ?? 500) 1) 5000 in
  let dead l := Z.of_nat (length (List.filter (stale_token now) l)) in
  let live l := List.filter (fun k => negb (stale_token now k)) l in
  let '(d', (nv, nr)) := cleanupExpiredAuthTokens batchSize maxBatches now d in
  nv = Z.min (dead (verifications d)) cap /\ live (verifications d') = live (verifications d) /\
  nr = Z.min (dead (resets d)) cap /\ live (resets d') = live (resets d) /\
  (dead (verifications d) <= cap -> verifications d' = live (verifications d)) /\
  (dead (resets d) <= cap -> resets d' = live (resets d)) /\ sessions d' = sessions d /\ users d' = users d.
Proof.
  intros Hv Hr cap dead live. unfold cleanupExpiredAuthTokens.
  set (b := Z.to_nat (Z.min (Z.max (batchSize ?? 500) 1) 5000)). set (m := Z.to_nat (Z.min (Z.max (maxBatches ?? 20) 1) 1000)).
  assert (Hb : (0 < b)%nat) by lia. assert (Hcap : Z.of_nat (m * b) = cap) by lia.
  assert (Hone : forall l, NoDup (map k_id l) -> let '(l', n) := sweep_tokens m b now l in
    n = Z.min (dead l) cap /\ live l' = live l /\ (dead l <= cap -> l' = live l)).
  { intros l Hnd. pose proof (sweep_spec m b now l Hnd Hb) as Hs. destruct (sweep_tokens m b now l) as [l' n].
    destruct Hs as (H1 & H2 & ->). unfold dead, live.
    pose proof (filter_split_length (stale_token now) l). pose proof (filter_split_length (stale_token now) l') as Hl'.
    rewrite H1, H2, length_drop in Hl'. split; [lia|]. split; [done|]. intros Hle. rewrite <- H2. symmetry. apply filter_all.
    intros x Hx. apply negb_true_iff. destruct (stale_token now x) eqn:Hst; [|done].
    assert (Hin : In x (List.filter (stale_token now) l')) by (by apply filter_In). rewrite H1, drop_ge in Hin by lia. done. }
  pose proof (Hone _ Hv) as H1. pose proof (Hone _ Hr) as H2.
  destruct (sweep_tokens m b now (verifications d)) as [v nv], (sweep_tokens m b now (resets d)) as [r nr].
  cbn [verifications resets set_resets set_verifications sessions users]. tauto.
Qed.

(** The kept session of a password change is not kept: its row is left unrevoked, but
    the change mark is later than its creation, so its token is never accepted. *)
Theorem kept_session_rejected (u h keep : string) (now : Z) (d d' : auth_db) (s : session_row) (tok : string) :
  NoDup (map s_tokenHash (sessions d)) -> In s (sessions d) -> s_id s = keep -> s_userId s = u -> keep <> "" ->
  s_createdAt s < now -> hashSessionToken sha256 tok = s_tokenHash s ->
  changeUserPassword u h (Some keep) now d = (d', Ret tt) ->
  In s (sessions d') /\ forall n t r, snd (readUserSession sha256 (Some tok) n t d') <> Ret (Accepted r).
Proof.
  intros Hnd Hs Hid Hu Hne Hcr Hh. unfold changeUserPassword. destruct (find_user d u) as [us|] eqn:Hus; [|done]. intros [= Hd'].
  set (p := fun x => (s_userId x =s u) && negb (truthy (Some keep) && (s_id x =s (Some keep ?? "")))).
  set (d1 := update_user u (set_password h now) d).
  assert (Hd : d' = revoke_where p now d1) by (by rewrite <- Hd'). rewrite Hd. clear d' Hd' Hd.
  assert (Hin : In s (sessions (revoke_where p now d1))).
  { apply in_map_iff. exists s. split; [|done]. cbv beta. unfold p. cbn [truthy nullish]. unfold nonempty.
    rewrite Hid, Hu, !String.eqb_refl, (proj2 (String.eqb_neq _ _) Hne). done. }
  split; [exact Hin|]. intros n t r Hacc.
  destruct (readUserSession sha256 (Some tok) n t (revoke_where p now d1)) as [d2 res] eqn:Hread. cbn [snd] in Hacc. subst res.
  apply read_accepted in Hread as (row & Hrow & _ & _ & _ & _ & _ & _ & _ & Hpw). cbn [nullish] in Hrow.
  assert (Hf : find_by_token sha256 (revoke_where p now d1) tok = Some s).
  { unfold find_by_token. rewrite Hh. apply find_unique_key; [|done].
    apply (step_NoDup_hash (sessions d)); [apply (step_revoke p now d1)|done]. }
  rewrite Hf in Hrow. injection Hrow as <-. rewrite Hu in Hpw.
  assert (Hfu : find_user (revoke_where p now d1) u = Some (set_password h now us)).
  { change (find_user d1 u = Some (set_password h now us)). unfold d1. rewrite find_user_update by done. rewrite Hus. cbn [option_map].
    apply List.find_some in Hus as [_ Hus]. by rewrite Hus. }
  specialize (Hpw _ now Hfu eq_refl). lia.
Qed.
End Runs.

(** * Concrete runs *)

(** Any function serves for the hash. *)
Definition plain (s : string) : string := s.
Definition limits : SessionTimeouts := {| idleMs := 1000; absoluteMs := 5000; rememberMs := 50000; touchMs := 10 |}.
Definition db0 : auth_db :=
  {| users := [{| u_id := "u"; u_name := None; u_email := "u@x.io"; u_emailVerifiedAt := None; u_passwordHash := Some "old"; u_passwordChangedAt := None |}];
     tenants := [{| t_id := "t"; t_name := "T"; t_workspaceKind := "family"; t_deletionState := "active" |}];
     memberships := [{| m_id := "m"; m_userId := "u"; m_tenantId := "t"; m_role := "owner"; m_createdAt := 1 |}];
     sessions := []; verifications := []; resets := [] |}.
Definition w0 : world := {| db := db0; inflight := [] |}.
Definition login : CreateSessionInput :=
  {| c_userId := "u"; c_activeTenantId := None; c_ttlMs := None; c_rememberMe := None; c_absoluteExpiresAt := None; c_userAgentSummary := None |}.
Definition draw (n : string) (at_ : Z) : fresh_session := {| f_id := "s" +:+ n; f_token := "tok" +:+ n; f_createdAt := at_ |}.
Definition logged_in : list op := [OCreate login limits (draw "1" 100) 100].
Definition rotated : list op := logged_in ++ [OBegin "tok1" None 200 limits; OComplete 0 limits (draw "2" 210) 210 211].
Definition with_reset : list op := logged_in ++ [OIssueReset "u" "r1" "k1" 150].

Lemma start_w0 : start w0.
Proof. split; [done|]. split; [constructor|]. split; [constructor|]. by intros s []. Qed.

Definition accepted (o : outcome ReadSessionResult string) : bool := match o with Ret (Accepted _) => true | _ => false end.
Lemma accepted_inv o : accepted o = true -> exists r, o = Ret (Accepted r).
Proof. destruct o as [[r|]|]; [eauto|done|done]. Qed.

(** The session rotated from the first one is accepted until the first one's ceiling. *)
Example rotated_session_accepted : accepted (snd (readUserSession plain (Some "tok2") 300 limits (db (run plain rotated w0)))) = true.
Proof. vm_compute. reflexivity. Qed.

Lemma rotation_keeps_ceiling_witness :
  exists r, snd (readUserSession plain (Some "tok2") 300 limits (db (run plain rotated w0))) = Ret (Accepted r) /\ absoluteExpiresAt r = Some 5100.
Proof.
  destruct (accepted_inv _ rotated_session_accepted) as [r Hr]. exists r. split; [exact Hr|].
  assert (H : exists root s, s_absoluteExpiresAt root = Some 5100 /\ find_by_token plain (db (run plain rotated w0)) "tok2" = Some s /\
    descends (sessions (db (run plain rotated w0))) root s).
  { eexists _, _. split; [|split; [vm_compute; reflexivity|eapply descends_rotated;
      [apply descends_root|vm_compute; left; reflexivity|vm_compute; right; left; reflexivity|vm_compute; reflexivity]]]. vm_compute. reflexivity. }
  destruct H as (root & s & Hc & Hf & Hd).
  exact (proj1 (proj2 (rotation_keeps_ceiling plain rotated w0 root s "tok2" 300 5100 limits r start_w0 Hd Hc Hf Hr))).
Defined.

Lemma session_revocation_final_witness :
  exists s, In s (sessions (db (run plain with_reset w0))) /\
  forall n t r, snd (readUserSession plain (Some "tok1") n t (db (run plain [OCreate login limits (draw "3" 400) 400]
    (exec plain (OReset "r1" "new" 160 160) (run plain with_reset w0))))) <> Ret (Accepted r).
Proof.
  assert (H : exists s, In s (sessions (db (run plain with_reset w0))) /\ hashSessionToken plain "tok1" = s_tokenHash s /\
    exists d', resetPasswordWithToken plain "r1" "new" 160 160 (db (run plain with_reset w0)) = (d', Ret (TokenOk (s_userId s)))).
  { eexists. split; [vm_compute; left; reflexivity|]. split; [reflexivity|]. eexists. vm_compute. reflexivity. }
  destruct H as (s & Hs & Hh & d' & Hr). exists s. split; [exact Hs|].
  exact (proj1 (proj2 (session_revocation_final plain with_reset [OCreate login limits (draw "3" 400) 400] w0 s "tok1" start_w0 Hs Hh))
    "r1" "new" 160 160 d' Hr).
Defined.

Lemma db0_consistent : consistent (db (run plain logged_in w0)).
Proof. intros m [<-|[]]. split; vm_compute; discriminate. Qed.
Lemma read_session_exact_witness :
  first_objection (objections (db (run plain logged_in w0)) (created_row plain login limits (draw "1" 100) 100 "t") 1200 limits) = Some session_expired_idle /\
  snd (readUserSession plain (Some "tok1") 1200 limits (db (run plain logged_in w0))) = Ret (Rejected session_expired_idle).
Proof.
  split; [vm_compute; reflexivity|].
  pose proof (read_session_exact plain (db (run plain logged_in w0)) "tok1" 1200 limits db0_consistent ltac:(discriminate)) as H.
  assert (Hf : find_by_token plain (db (run plain logged_in w0)) "tok1" = Some (created_row plain login limits (draw "1" 100) 100 "t")) by (vm_compute; reflexivity).
  destruct (readUserSession plain (Some "tok1") 1200 limits (db (run plain logged_in w0))) as [d' res]. rewrite Hf in H.
  exact (proj1 H).
Defined.

Lemma reset_exact_witness :
  snd (resetPasswordWithToken plain "r1" "new" 160 160 (db (run plain with_reset w0))) = Ret (TokenOk "u").
Proof.
  assert (H : exists k, resets (db (run plain with_reset w0)) = [k] /\ k_tokenHash k = hashAuthToken plain "r1" /\ k_userId k = "u" /\
    k_consumedAt k = None /\ 160 < k_expiresAt k) by (eexists; repeat split; vm_compute; reflexivity).
  destruct H as (k & Hk & Hh & Hu & Hc & He).
  pose proof (reset_exact plain "r1" "new" 160 (db (run plain with_reset w0)) k) as Hr. rewrite Hk, Hu in Hr.
  specialize (Hr ltac:(apply NoDup_singleton) ltac:(left; reflexivity) Hh ltac:(vm_compute; discriminate)).
  destruct (resetPasswordWithToken plain "r1" "new" 160 160 (db (run plain with_reset w0))) as [d' res].
  exact (proj1 (proj1 Hr (conj Hc He))).
Defined.

Lemma reset_token_roundtrip_witness :
  snd (resetPasswordWithToken plain "r1" "new" 3600149 3600149 (fst (createPasswordResetToken plain "u" "r1" "k1" 150 db0))) = Ret (TokenOk "u").
Proof.
  exact (proj1 (proj2 (proj2 (reset_token_roundtrip plain "u" "r1" "k1" "r1" 150 3600150 db0 _ ltac:(constructor) ltac:(vm_compute; discriminate) eq_refl)))
    "new" 3600149 3600149 (Z.le_refl _)).
Defined.

Definition dead_token (n : string) : token_row :=
  {| k_id := n; k_tokenHash := n; k_userId := "u"; k_expiresAt := 5; k_consumedAt := None |}.
Definition cluttered : auth_db := set_resets [dead_token "a"; dead_token "b"; dead_token "c"] db0.
Lemma token_cleanup_exact_witness : snd (snd (cleanupExpiredAuthTokens (Some 1) (Some 2) 10 cluttered)) = 2.
Proof.
  pose proof (token_cleanup_exact (Some 1) (Some 2) 10 cluttered ltac:(constructor)
    ltac:(repeat constructor; rewrite ?not_elem_of_cons; repeat split; try discriminate; apply not_elem_of_nil)) as H.
  cbv zeta in H. destruct (cleanupExpiredAuthTokens (Some 1) (Some 2) 10 cluttered) as [d' [nv nr]].
  exact (proj1 (proj2 (proj2 H))).
Defined.

(** A rotation that has read its session before a password reset commits still
    issues its new session after it, created after the change mark: the reset
    revoked every session, and this one is accepted nonetheless. *)
Example rotation_survives_reset :
  let w := run plain (with_reset ++ [OBegin "tok1" None 155 limits; OReset "r1" "new" 160 160; OComplete 0 limits (draw "2" 170) 170 171]) w0 in
  accepted (snd (readUserSession plain (Some "tok1") 200 limits (db w))) = false /\
  accepted (snd (readUserSession plain (Some "tok2") 200 limits (db w))) = true.
Proof. vm_compute. split; reflexivity. Qed.

Lemma kept_session_rejected_witness :
  exists d', changeUserPassword "u" "new" (Some "s1") 300 (db (run plain logged_in w0)) = (d', Ret tt) /\
    forall n t r, snd (readUserSession plain (Some "tok1") n t d') <> Ret (Accepted r).
Proof.
  eexists. split; [reflexivity|].
  exact (proj2 (kept_session_rejected plain "u" "new" "s1" 300 (db (run plain logged_in w0)) _ (created_row plain login limits (draw "1" 100) 100 "t") "tok1"
    ltac:(apply NoDup_singleton) ltac:(left; reflexivity) eq_refl eq_refl ltac:(discriminate) ltac:(reflexivity) eq_refl eq_refl)).
Defined.

End Sessions.
