(* ===== verification/SyncLease.v ===== *)
(** Account sync leases ([packages/db/src/sync-lease.ts]), the fenced account
    write ([packages/sync/src/index.ts]) and the heartbeat controller
    ([packages/sync/src/lease-heartbeat.ts]).

    Module [Lease] is the table, the database sequence that issues fencing
    generations, and their interleavings; module [Heartbeat] the controller, each
    [await] splitting a tick into its two halves. *)
From S2P Require Import Prelude.
Open Scope string_scope.
Open Scope list_scope.
Open Scope Z_scope.
Open Scope tam_scope.

Module Lease.

(* src: packages/db/src/sync-lease.ts:20-20 SYNC_LEASE_TTL_MS *)
Definition SYNC_LEASE_TTL_MS : Z := 5 * 60 * 1000.

(* src: packages/db/src/sync-lease.ts:33-41 LeaseHandle *)
Record LeaseHandle := {
  id : string; connectedAccountId : string; holderId : string; generation : Z; expiresAt : Z
}.

(** A row of [sync_leases]; [connectedAccountId] is unique. *)
(* src: packages/db/src/sync-lease.ts:87-90 sync_leases *)
Record lease_row := {
  r_id : string; r_tenantId : string; r_account : string; r_holderId : string;
  r_acquiredAt : Z; r_expiresAt : Z; r_heartbeatAt : Z; r_generation : Z;
  r_createdAt : Z; r_updatedAt : Z
}.

(** The account columns the lease code reads or writes: [a_data] is what the
    fenced write last stored. *)
Record account_row := { a_id : string; a_tenantId : string; a_status : string; a_data : string }.

(** The database: the two tables and the last value the sequence
    [sync_lease_generation_seq] gave out. *)
Record db := { leases : list lease_row; accounts : list account_row; seq : Z }.

(* src: packages/db/src/sync-lease.ts:26-31 getActiveSyncLeaseAccountIds *)
Definition getActiveSyncLeaseAccountIds (tenant : string) (now : Z) (d : db) : list string :=
  map r_account (List.filter (fun r => (r_tenantId r =s tenant) && (now <? r_expiresAt r)) (leases d)).

Definition lease_of (account : string) (d : db) : option lease_row :=
  List.find (fun r => r_account r =s account) (leases d).

(* src: packages/db/src/sync-lease.ts:91-98 acquireSyncLease *)
Definition take_over (holder : string) (ttlMs now gen : Z) (r : lease_row) : lease_row :=
  {| r_id := r_id r; r_tenantId := r_tenantId r; r_account := r_account r; r_holderId := holder;
     r_acquiredAt := now; r_expiresAt := now + ttlMs; r_heartbeatAt := now; r_generation := gen;
     r_createdAt := r_createdAt r; r_updatedAt := now |}.

(* src: packages/db/src/sync-lease.ts:81-90 acquireSyncLease *)
Definition fresh_row (uuid tenant account holder : string) (ttlMs now gen : Z) : lease_row :=
  {| r_id := uuid; r_tenantId := tenant; r_account := account; r_holderId := holder;
     r_acquiredAt := now; r_expiresAt := now + ttlMs; r_heartbeatAt := now; r_generation := gen;
     r_createdAt := now; r_updatedAt := now |}.

Definition handle_of (r : lease_row) : LeaseHandle :=
  {| id := r_id r; connectedAccountId := r_account r; holderId := r_holderId r;
     generation := r_generation r; expiresAt := r_expiresAt r |}.

(** The [VALUES] list draws from the sequence before the conflict is found, so a
    refused insert still burns a value and a takeover draws a second one. A
    conflict with a row that row-level security hides is an error. *)
(* src: packages/db/src/sync-lease.ts:70-104 acquireSyncLease *)
Definition acquireSyncLease (tenant account holder : string) (ttlMs now : Z) (uuid : string) (d : db)
  : db * outcome (option LeaseHandle) string :=
  if existsb (fun a => (a_id a =s account) && (a_tenantId a =s tenant)) (accounts d) then
    match lease_of account d with
    | None =>
        let r := fresh_row uuid tenant account holder ttlMs now (seq d + 1) in
        ({| leases := leases d ++ [r]; accounts := accounts d; seq := seq d + 1 |}, Ret (Some (handle_of r)))
    | Some r =>
        if negb (r_tenantId r =s tenant) then
          ({| leases := leases d; accounts := accounts d; seq := seq d + 1 |}, Throw "row_level_security")
        else if r_expiresAt r <? now then
          let r' := take_over holder ttlMs now (seq d + 2) r in
          ({| leases := map (fun x => if r_account x =s account then r' else x) (leases d);
              accounts := accounts d; seq := seq d + 2 |}, Ret (Some (handle_of r')))
        else ({| leases := leases d; accounts := accounts d; seq := seq d + 1 |}, Ret None)
    end
  else (d, Ret None).

(** The predicate heartbeat and release share: the holder at its generation. *)
(* src: packages/db/src/sync-lease.ts:120-120 heartbeatSyncLease *)
Definition owns (tenant : string) (l : LeaseHandle) (r : lease_row) : bool :=
  (r_tenantId r =s tenant) && (r_id r =s id l) && (r_holderId r =s holderId l) && (r_generation r =? generation l).

(* src: packages/db/src/sync-lease.ts:111-122 heartbeatSyncLease *)
Definition heartbeatSyncLease (tenant : string) (l : LeaseHandle) (ttlMs now : Z) (d : db) : db * bool :=
  let beat r := {| r_id := r_id r; r_tenantId := r_tenantId r; r_account := r_account r;
                   r_holderId := r_holderId r; r_acquiredAt := r_acquiredAt r; r_expiresAt := now + ttlMs;
                   r_heartbeatAt := now; r_generation := r_generation r; r_createdAt := r_createdAt r;
                   r_updatedAt := now |} in
  ({| leases := map (fun r => if owns tenant l r then beat r else r) (leases d);
      accounts := accounts d; seq := seq d |},
   (length (List.filter (owns tenant l) (leases d)) =? 1)%nat).

(* src: packages/db/src/sync-lease.ts:130-135 releaseSyncLease *)
Definition releaseSyncLease (tenant : string) (l : LeaseHandle) (d : db) : db * bool :=
  ({| leases := List.filter (fun r => negb (owns tenant l r)) (leases d);
      accounts := accounts d; seq := seq d |},
   (length (List.filter (owns tenant l) (leases d)) =? 1)%nat).

Definition disconnected : string := "disconnected".

(** The columns a write sets: maybe the status, and the rest as one value. *)
Record account_data := { d_status : option string; d_rest : string }.

(* src: packages/sync/src/index.ts:165-193 writeAccountIfLeaseHeld *)
Definition writeAccountIfLeaseHeld (tenant account : string) (l : LeaseHandle) (data : account_data) (d : db) : db * Z :=
  let held := List.filter (fun r => owns tenant l r && (r_account r =s account)) (leases d) in
  if (length held =? 0)%nat then (d, 0)
  else
    let target a := (a_id a =s account) && (a_tenantId a =s tenant) && negb (a_status a =s disconnected) in
    ({| leases := leases d;
        accounts := map (fun a => if target a then
          {| a_id := a_id a; a_tenantId := a_tenantId a; a_status := d_status data ?? a_status a; a_data := d_rest data |} else a) (accounts d);
        seq := seq d |},
     Z.of_nat (length (List.filter target (accounts d)))).

(** * Interleavings

    [issued] records, as a ghost, every handle an acquire returned. *)

Record world := { dbs : db; issued : list LeaseHandle }.

Inductive op :=
| Acquire (tenant account holder : string) (ttlMs now : Z) (uuid : string)
| Beat (tenant : string) (l : LeaseHandle) (ttlMs now : Z)
| Release (tenant : string) (l : LeaseHandle)
| Write (tenant account : string) (l : LeaseHandle) (data : account_data).

Definition step (w : world) (o : op) : world :=
  match o with
  | Acquire t a h ttl now uuid =>
      match acquireSyncLease t a h ttl now uuid (dbs w) with
      | (d, Ret (Some l)) => {| dbs := d; issued := l :: issued w |}
      | (d, _) => {| dbs := d; issued := issued w |}
      end
  | Beat t l ttl now => {| dbs := fst (heartbeatSyncLease t l ttl now (dbs w)); issued := issued w |}
  | Release t l => {| dbs := fst (releaseSyncLease t l (dbs w)); issued := issued w |}
  | Write t a l data => {| dbs := fst (writeAccountIfLeaseHeld t a l data (dbs w)); issued := issued w |}
  end.

Definition steps (w : world) (ops : list op) : world := fold_left step ops w.

Definition initial (accts : list account_row) : world :=
  {| dbs := {| leases := []; accounts := accts; seq := 0 |}; issued := [] |}.

(** One lease per account; generations come from the sequence, and a generation
    that was issued for an account is only ever found on a row of that account. *)
Record Inv (w : world) : Prop := {
  inv_accounts : NoDup (map r_account (leases (dbs w)));
  inv_gens : NoDup (map r_generation (leases (dbs w)));
  inv_seq : forall r, In r (leases (dbs w)) -> r_generation r <= seq (dbs w);
  inv_issued_seq : forall l, In l (issued w) -> generation l <= seq (dbs w);
  inv_issued : forall l r, In l (issued w) -> In r (leases (dbs w)) ->
    r_generation r = generation l -> r_account r = connectedAccountId l
}.

(** A generation that no row carries and the sequence has passed. *)
Definition dead (g : Z) (d : db) : Prop :=
  g <= seq d /\ forall r, In r (leases d) -> r_generation r <> g.

Lemma lease_of_In a d r : lease_of a d = Some r -> In r (leases d) /\ r_account r = a.
Proof. intros H. apply List.find_some in H as [? H]. by apply String.eqb_eq in H. Qed.

Lemma lease_of_None a d : lease_of a d = None -> forall r, In r (leases d) -> r_account r <> a.
Proof. intros H r Hr He. apply (List.find_none _ _ H) in Hr. by apply String.eqb_neq in Hr. Qed.

Definition set_expiry_row (tenant : string) (l : LeaseHandle) (ttl now : Z) (r : lease_row) : lease_row :=
  if owns tenant l r
  then {| r_id := r_id r; r_tenantId := r_tenantId r; r_account := r_account r;
          r_holderId := r_holderId r; r_acquiredAt := r_acquiredAt r; r_expiresAt := now + ttl;
          r_heartbeatAt := now; r_generation := r_generation r; r_createdAt := r_createdAt r; r_updatedAt := now |}
  else r.

Lemma beat_leases t l ttl now d :
  leases (fst (heartbeatSyncLease t l ttl now d)) = map (set_expiry_row t l ttl now) (leases d).
Proof. done. Qed.

Lemma set_expiry_keeps t l ttl now r :
  r_account (set_expiry_row t l ttl now r) = r_account r /\
  r_generation (set_expiry_row t l ttl now r) = r_generation r.
Proof. unfold set_expiry_row. by destruct (owns t l r). Qed.

Lemma write_leases t a l data d :
  leases (fst (writeAccountIfLeaseHeld t a l data d)) = leases d /\
  seq (fst (writeAccountIfLeaseHeld t a l data d)) = seq d.
Proof. unfold writeAccountIfLeaseHeld. by destruct (_ =? _)%nat. Qed.

(** The row list after a successful acquire: the account's row, if any, is gone
    and the new one carries a generation the sequence had not given before. *)
Lemma acquire_cases t a h ttl now uuid d d' res :
  acquireSyncLease t a h ttl now uuid d = (d', res) ->
  (leases d' = leases d /\ accounts d' = accounts d /\ seq d <= seq d' /\ (res = Ret None \/ exists e, res = Throw e)) \/
  (exists r', res = Ret (Some (handle_of r')) /\ accounts d' = accounts d /\
    seq d < r_generation r' <= seq d' /\ r_account r' = a /\ r_tenantId r' = t /\ r_holderId r' = h /\ r_expiresAt r' = now + ttl /\
    ((lease_of a d = None /\ leases d' = leases d ++ [r']) \/
     (exists r, lease_of a d = Some r /\ r_expiresAt r < now /\
        leases d' = map (fun x => if r_account x =s a then r' else x) (leases d)))).
Proof.
  unfold acquireSyncLease. destruct (existsb _ _); [|intros [= <- <-]; left; repeat split; auto; lia].
  destruct (lease_of a d) as [r|] eqn:Hl.
  - destruct (String.eqb_spec (r_tenantId r) t) as [Ht|]; cbn [negb];
      [|intros [= <- <-]; left; cbn; repeat split; eauto; lia].
    destruct (Z.ltb_spec (r_expiresAt r) now); intros [= <- <-]; [right|left; cbn; repeat split; auto; lia].
    apply lease_of_In in Hl as [_ Ha].
    exists (take_over h ttl now (seq d + 2) r). cbn [r_generation r_account r_tenantId r_holderId r_expiresAt take_over seq leases accounts].
    repeat split; auto; try lia. right. eauto.
  - intros [= <- <-]. right. exists (fresh_row uuid t a h ttl now (seq d + 1)).
    cbn [r_generation r_account r_tenantId r_holderId r_expiresAt fresh_row seq leases accounts]. repeat split; auto; lia.
Qed.

Lemma map_replace_accounts a r' l : r_account r' = a ->
  map r_account (map (fun x => if r_account x =s a then r' else x) l) = map r_account l.
Proof.
  intros Ha. rewrite map_map. apply map_ext. intros x.
  by destruct (String.eqb_spec (r_account x) a); congruence.
Qed.

Lemma In_replace a r' l x :
  In x (map (fun y => if r_account y =s a then r' else y) l) -> x = r' \/ (In x l /\ r_account x <> a).
Proof.
  intros Hx. apply in_map_iff in Hx as [y [<- Hy]].
  destruct (String.eqb_spec (r_account y) a); auto.
Qed.

Lemma NoDup_replace_gens a r' l : NoDup (map r_account l) -> NoDup (map r_generation l) ->
  (forall r, In r l -> r_generation r <> r_generation r') ->
  NoDup (map r_generation (map (fun x => if r_account x =s a then r' else x) l)).
Proof.
  induction l as [|x l IH]; simpl; [done|].
  intros [Ha Hacc]%NoDup_cons [Hg Hgen]%NoDup_cons Hfresh.
  destruct (String.eqb_spec (r_account x) a) as [He|Hne].
  - assert (Hid : map (fun y => if r_account y =s a then r' else y) l = l).
    { rewrite <- (map_id l) at 2. apply map_ext_in. intros y Hy.
      destruct (String.eqb_spec (r_account y) a); [|done]. destruct Ha.
      apply list_elem_of_In, in_map_iff. exists y. split; [congruence|done]. }
    rewrite Hid. constructor; [|done]. intros (y & Hy & Hin)%list_elem_of_In%in_map_iff.
    apply (Hfresh y); [by right|done].
  - constructor; [|by apply IH; auto]. intros (y & Hy & Hin)%list_elem_of_In%in_map_iff.
    apply In_replace in Hin as [-> |[Hin _]].
    + apply (Hfresh x); [by left|done].
    + apply Hg, list_elem_of_In, in_map_iff. eauto.
Qed.

Lemma In_app_one {A} (l : list A) x y : In y (l ++ [x]) -> In y l \/ y = x.
Proof. intros [H|[<-|[]]]%in_app_or; auto. Qed.

(** Every row after an acquire is an old one of another account or the new one. *)
Lemma acquire_rows a (P : lease_row -> Prop) r' d d' : r_account r' = a ->
  (lease_of a d = None /\ leases d' = leases d ++ [r']) \/
  (exists r, lease_of a d = Some r /\ P r /\
     leases d' = map (fun x => if r_account x =s a then r' else x) (leases d)) ->
  In r' (leases d') /\ (forall x, In x (leases d') -> x = r' \/ (In x (leases d) /\ r_account x <> a)).
Proof.
  intros Hra [[Hl ->]|(r & Hl & _ & ->)].
  - split; [apply in_or_app; right; by left|]. intros x [Hx|Hx]%In_app_one; [|auto].
    right. split; [done|]. by apply (lease_of_None a d).
  - split; [|apply In_replace]. apply lease_of_In in Hl as [Hin Ha].
    apply in_map_iff. exists r. by rewrite Ha, String.eqb_refl.
Qed.

Lemma initial_inv accts : Inv (initial accts).
Proof. split; simpl; try done; constructor. Qed.

Lemma acquire_inv w t a h ttl now uuid : Inv w -> Inv (step w (Acquire t a h ttl now uuid)).
Proof.
  intros Hw. cbn [step]. destruct (acquireSyncLease _ _ _ _ _ _ _) as [d' res] eqn:Hacq.
  apply acquire_cases in Hacq as [(Hl & _ & Hs & Hres)|(r' & -> & _ & Hs & Ha & _ & _ & _ & Hrows)].
  - assert (Hw' : Inv {| dbs := d'; issued := issued w |}).
    { split; simpl; rewrite ?Hl; try apply Hw.
      - intros r Hr. pose proof (inv_seq w Hw r Hr). lia.
      - intros l Hr. pose proof (inv_issued_seq w Hw l Hr). lia. }
    destruct Hres as [->|[e ->]]; exact Hw'.
  - destruct (acquire_rows a _ r' (dbs w) d' Ha Hrows) as [Hin Hold].
    split; simpl.
    + destruct Hrows as [[Hl ->]|(r & _ & _ & ->)].
      * rewrite map_app. apply NoDup_app. split; [apply Hw|]. split; [|apply NoDup_singleton].
        intros x (r & <- & Hr)%list_elem_of_In%in_map_iff Hx%list_elem_of_singleton.
        apply (lease_of_None a _ Hl r Hr). congruence.
      * rewrite map_replace_accounts by done. apply Hw.
    + destruct Hrows as [[Hl ->]|(r & _ & _ & ->)].
      * rewrite map_app. apply NoDup_app. split; [apply Hw|]. split; [|apply NoDup_singleton].
        intros x (r & <- & Hr)%list_elem_of_In%in_map_iff Hx%list_elem_of_singleton.
        pose proof (inv_seq w Hw r Hr). simpl in Hx. lia.
      * apply NoDup_replace_gens; [apply Hw|apply Hw|]. intros r0 Hr0.
        pose proof (inv_seq w Hw r0 Hr0). lia.
    + intros r [-> |[Hr _]]%Hold; [lia|]. pose proof (inv_seq w Hw r Hr). lia.
    + intros l [<-|Hl]; [simpl; lia|]. pose proof (inv_issued_seq w Hw l Hl). lia.
    + intros l r [<-|Hl] Hr Hg; apply Hold in Hr as [-> |[Hr Hne]]; simpl in *; auto.
      * pose proof (inv_seq w Hw r Hr). lia.
      * pose proof (inv_issued_seq w Hw l Hl). lia.
      * by apply (inv_issued w Hw).
Qed.

Lemma step_inv w o : Inv w -> Inv (step w o).
Proof.
  intros Hw. destruct o as [t a h ttl now uuid|t l ttl now|t l|t a l data]; [by apply acquire_inv| | |].
  - assert (Ha : map r_account (map (set_expiry_row t l ttl now) (leases (dbs w))) = map r_account (leases (dbs w))).
    { rewrite map_map. apply map_ext. intros r. apply set_expiry_keeps. }
    assert (Hg : map r_generation (map (set_expiry_row t l ttl now) (leases (dbs w))) = map r_generation (leases (dbs w))).
    { rewrite map_map. apply map_ext. intros r. apply set_expiry_keeps. }
    split; cbn [step dbs issued seq]; rewrite ?beat_leases, ?Ha, ?Hg; try apply Hw.
    + intros r (r0 & <- & Hr)%in_map_iff. destruct (set_expiry_keeps t l ttl now r0) as [_ ->].
      by apply (inv_seq w Hw).
    + intros l' r Hl (r0 & <- & Hr)%in_map_iff.
      destruct (set_expiry_keeps t l ttl now r0) as [-> ->]. by apply (inv_issued w Hw).
  - split; simpl; try apply Hw; try (apply NoDup_map_filter; apply Hw).
    + intros r [Hr _]%filter_In. by apply (inv_seq w Hw).
    + intros l' r Hl [Hr _]%filter_In. by apply (inv_issued w Hw).
  - destruct (write_leases t a l data (dbs w)) as [Hl Hs].
    split; cbn [step dbs issued]; rewrite ?Hl, ?Hs; apply Hw.
Qed.

Lemma steps_inv ops : forall w, Inv w -> Inv (steps w ops).
Proof. unfold steps. induction ops as [|o ops IH]; intros w Hw; simpl; auto using step_inv. Qed.

Lemma step_dead g w o : Inv w -> dead g (dbs w) -> dead g (dbs (step w o)).
Proof.
  intros Hw [Hs Hd]. destruct o as [t a h ttl now uuid|t l ttl now|t l|t a l data]; cbn [step].
  - destruct (acquireSyncLease _ _ _ _ _ _ _) as [d' res] eqn:Hacq.
    apply acquire_cases in Hacq as [(Hl & _ & Hs' & Hres)|(r' & -> & _ & Hs' & Ha & _ & _ & _ & Hrows)].
    + assert (dead g d') by (split; [lia|by rewrite Hl]). by destruct Hres as [->|[e ->]].
    + split; [simpl; lia|]. apply (acquire_rows _ _ _ _ _ Ha) in Hrows as [_ Hold].
      intros r [-> |[Hr _]]%Hold; [lia|auto].
  - split; [done|]. intros r (r0 & <- & Hr)%in_map_iff. destruct (owns t l r0); simpl; auto.
  - split; [done|]. intros r [Hr _]%filter_In. auto.
  - destruct (write_leases t a l data (dbs w)) as [Hl Hsq]. split; cbn [dbs]; by rewrite ?Hl, ?Hsq.
Qed.

Lemma steps_dead g ops : forall w, Inv w -> dead g (dbs w) -> dead g (dbs (steps w ops)).
Proof. unfold steps. induction ops as [|o ops IH]; intros w Hw Hd; simpl; auto using step_inv, step_dead. Qed.

(** Nothing a handle of a dead generation does has any effect. *)
Lemma dead_no_owner l t d : dead (generation l) d -> List.filter (owns t l) (leases d) = [].
Proof.
  intros [_ Hd]. destruct (List.filter _ _) as [|r rs] eqn:Hf; [done|].
  assert (Hin : In r (List.filter (owns t l) (leases d))) by (rewrite Hf; by left).
  apply filter_In in Hin as [Hin Ho]. unfold owns in Ho. rewrite !andb_true_iff in Ho.
  destruct Ho as [_ Hg]. apply Z.eqb_eq in Hg. by destruct (Hd r Hin).
Qed.

Lemma filter_nil_all {A} (p : A -> bool) l : List.filter p l = [] -> forall x, In x l -> p x = false.
Proof.
  intros Hf x Hx. destruct (p x) eqn:Hp; [|done]. assert (In x (List.filter p l)) by (apply filter_In; auto).
  by rewrite Hf in *.
Qed.

Lemma dead_fenced l d : dead (generation l) d ->
  (forall t ttl now, heartbeatSyncLease t l ttl now d = (d, false)) /\
  (forall t, releaseSyncLease t l d = (d, false)) /\
  (forall t a data, writeAccountIfLeaseHeld t a l data d = (d, 0)).
Proof.
  intros Hd. split; [|split].
  - intros t ttl now. unfold heartbeatSyncLease. rewrite (dead_no_owner l t d Hd). simpl. f_equal.
    destruct d as [ls ac sq]. simpl. f_equal. rewrite <- (map_id ls) at 2. apply map_ext_in. intros r Hr.
    by rewrite (filter_nil_all _ _ (dead_no_owner l t _ Hd) r Hr).
  - intros t. unfold releaseSyncLease. rewrite (dead_no_owner l t d Hd). simpl. f_equal.
    destruct d as [ls ac sq]. simpl. f_equal. apply forallb_filter_id, forallb_forall. intros r Hr.
    by rewrite (filter_nil_all _ _ (dead_no_owner l t _ Hd) r Hr).
  - intros t a data. unfold writeAccountIfLeaseHeld.
    assert (Hnil : List.filter (fun r => owns t l r && (r_account r =s a)) (leases d) = []).
    { destruct (List.filter _ _) as [|r rs] eqn:Hf; [done|].
      assert (Hin : In r (List.filter (fun r => owns t l r && (r_account r =s a)) (leases d))) by (rewrite Hf; by left).
      apply filter_In in Hin as [Hin Ho]. apply andb_true_iff in Ho as [Ho _].
      by rewrite (filter_nil_all _ _ (dead_no_owner l t _ Hd) r Hin) in Ho. }
    by rewrite Hnil.
Qed.

(** An acquire kills the generation of every handle issued before for the account. *)
Lemma acquire_kills w t a h ttl now uuid d' l' l :
  Inv w -> acquireSyncLease t a h ttl now uuid (dbs w) = (d', Ret (Some l')) ->
  In l (issued w) -> connectedAccountId l = a ->
  generation l < generation l' /\ dead (generation l) d'.
Proof.
  intros Hw Hacq Hl Ha. pose proof (inv_issued_seq w Hw l Hl).
  apply acquire_cases in Hacq as [(_ & _ & _ & [[=]|[e [=]]])|(r' & [= ->] & _ & Hs & Har & _ & _ & _ & Hrows)].
  simpl. split; [lia|]. split; [lia|].
  apply (acquire_rows _ _ _ _ _ Har) in Hrows as [_ Hold]. intros r [-> |[Hr Hne]]%Hold; [lia|].
  intros Hg. apply Hne. rewrite <- Ha. by apply (inv_issued w Hw).
Qed.

(** * The properties *)

(** Fencing: once a lease of an account is acquired again, the generation is
    strictly higher than that of every handle issued before for it, and from then
    on, whatever happens next, an old handle renews nothing, releases nothing and
    writes to no account. *)
Theorem stale_holder_is_fenced (accts : list account_row) (before after : list op)
    (t a h : string) (ttl now : Z) (uuid : string) (d' : db) (l l' : LeaseHandle) :
  acquireSyncLease t a h ttl now uuid (dbs (steps (initial accts) before)) = (d', Ret (Some l')) ->
  In l (issued (steps (initial accts) before)) -> connectedAccountId l = a ->
  let d := dbs (steps (initial accts) (before ++ Acquire t a h ttl now uuid :: after)) in
  generation l < generation l' /\
  (forall t' ttl' now', heartbeatSyncLease t' l ttl' now' d = (d, false)) /\
  (forall t', releaseSyncLease t' l d = (d, false)) /\
  (forall t' a' data, writeAccountIfLeaseHeld t' a' l data d = (d, 0)).
Proof.
  intros Hacq Hl Ha d.
  pose proof (steps_inv before _ (initial_inv accts)) as Hw.
  destruct (acquire_kills _ _ _ _ _ _ _ _ _ _ Hw Hacq Hl Ha) as [Hlt Hd].
  split; [done|]. apply dead_fenced. unfold d, steps. rewrite fold_left_app. simpl.
  change (fold_left step before (initial accts)) with (steps (initial accts) before).
  apply steps_dead; [by apply acquire_inv|]. cbn [step]. by rewrite Hacq.
Qed.

Definition demo_accounts : list account_row :=
  [{| a_id := "acc"; a_tenantId := "t1"; a_status := "active"; a_data := "" |}].

Lemma stale_holder_is_fenced_witness :
  let d := dbs (steps (initial demo_accounts)
    ([Acquire "t1" "acc" "w1" 10 0 "id1"] ++ [Acquire "t1" "acc" "w2" 10 11 "id2"])) in
  heartbeatSyncLease "t1" {| id := "id1"; connectedAccountId := "acc"; holderId := "w1"; generation := 1; expiresAt := 10 |} 10 12 d
    = (d, false).
Proof.
  refine (proj1 (proj2 (stale_holder_is_fenced demo_accounts [Acquire "t1" "acc" "w1" 10 0 "id1"] []
    "t1" "acc" "w2" 10 11 "id2" _
    {| id := "id1"; connectedAccountId := "acc"; holderId := "w1"; generation := 1; expiresAt := 10 |}
    {| id := "id1"; connectedAccountId := "acc"; holderId := "w2"; generation := 3; expiresAt := 21 |} _ _ _)) "t1" 10 12).
  - vm_compute. reflexivity.
  - left. reflexivity.
  - reflexivity.
Defined.

(** One effective holder: in every reachable state an account has at most
    one lease row, and two handles issued for the same account that both still
    match a row carry the same generation. *)
Theorem one_effective_holder (accts : list account_row) (ops : list op) (l1 l2 : LeaseHandle) (t1 t2 : string) :
  let w := steps (initial accts) ops in
  In l1 (issued w) -> In l2 (issued w) -> connectedAccountId l1 = connectedAccountId l2 ->
  snd (releaseSyncLease t1 l1 (dbs w)) = true -> snd (releaseSyncLease t2 l2 (dbs w)) = true ->
  NoDup (map r_account (leases (dbs w))) /\ generation l1 = generation l2 /\ holderId l1 = holderId l2.
Proof.
  intros w H1 H2 Hacc Hr1 Hr2.
  pose proof (steps_inv ops _ (initial_inv accts)) as Hw. fold w in Hw.
  split; [apply Hw|].
  assert (Hex : forall t l, In l (issued w) -> snd (releaseSyncLease t l (dbs w)) = true ->
    exists r, In r (leases (dbs w)) /\ r_generation r = generation l /\ r_holderId r = holderId l /\ r_account r = connectedAccountId l).
  { intros t l Hl Hr. simpl in Hr. destruct (List.filter (owns t l) (leases (dbs w))) as [|r rs] eqn:Hf; [done|].
    assert (Hin : In r (List.filter (owns t l) (leases (dbs w)))) by (rewrite Hf; by left).
    apply filter_In in Hin as [Hin Ho]. unfold owns in Ho. guards_in Ho.
    destruct Ho as [[_ Hh] Hg]. exists r. do 3 (split; [done|]).
    by apply (inv_issued w Hw). }
  destruct (Hex t1 l1 H1 Hr1) as (r1 & Hin1 & Hg1 & Hh1 & Ha1).
  destruct (Hex t2 l2 H2 Hr2) as (r2 & Hin2 & Hg2 & Hh2 & Ha2).
  assert (r1 = r2) as ->.
  { apply (NoDup_map_inj_in r_account (leases (dbs w))); [apply Hw|done|done|congruence]. }
  split; congruence.
Qed.

Lemma one_effective_holder_witness :
  NoDup (map r_account (leases (dbs (steps (initial demo_accounts) [Acquire "t1" "acc" "w1" 10 0 "id1"])))).
Proof.
  refine (proj1 (one_effective_holder demo_accounts [Acquire "t1" "acc" "w1" 10 0 "id1"]
    {| id := "id1"; connectedAccountId := "acc"; holderId := "w1"; generation := 1; expiresAt := 10 |}
    {| id := "id1"; connectedAccountId := "acc"; holderId := "w1"; generation := 1; expiresAt := 10 |} "t1" "t1" _ _ eq_refl eq_refl eq_refl)).
  - left. reflexivity.
  - left. reflexivity.
Defined.

(** A live lease keeps others out, an expired one does not: an acquire on the
    tenant's own account returns a handle exactly when the account has no lease or
    one whose expiry has passed, the handle then being the account's row with the
    full lifetime ahead of it; otherwise no lease changes. *)
Theorem acquire_iff_free (accts : list account_row) (ops : list op) (t a h : string) (ttl now : Z) (uuid : string) (acct : account_row) :
  let d := dbs (steps (initial accts) ops) in
  In acct (accounts d) -> a_id acct = a -> a_tenantId acct = t ->
  (forall r, lease_of a d = Some r -> r_tenantId r = t) ->
  let '(d', res) := acquireSyncLease t a h ttl now uuid d in
  match lease_of a d with
  | Some r => now <= r_expiresAt r -> res = Ret None /\ leases d' = leases d
  | None => True
  end /\
  (match lease_of a d with Some r => r_expiresAt r < now | None => True end ->
   exists r', res = Ret (Some (handle_of r')) /\ lease_of a d' = Some r' /\
     r_holderId r' = h /\ r_expiresAt r' = now + ttl).
Proof.
  intros d Hin Hid Ht Hown.
  pose proof (steps_inv ops _ (initial_inv accts)) as Hw.
  assert (He : existsb (fun x => (a_id x =s a) && (a_tenantId x =s t)) (accounts d) = true).
  { apply existsb_exists. exists acct. by rewrite Hid, Ht, !String.eqb_refl. }
  destruct (acquireSyncLease t a h ttl now uuid d) as [d' res] eqn:Hacq.
  pose proof Hacq as Hacq'. unfold acquireSyncLease in Hacq'. rewrite He in Hacq'. split.
  - destruct (lease_of a d) as [r|] eqn:Hl; [|done]. intros Hlive.
    rewrite (Hown r eq_refl), String.eqb_refl in Hacq'. cbn [negb] in Hacq'.
    replace (r_expiresAt r <? now) with false in Hacq' by lia. by injection Hacq' as <- <-.
  - intros Hfree. pose proof (acquire_inv _ t a h ttl now uuid Hw) as Hw'. cbn [step] in Hw'. fold d in Hw'.
    rewrite Hacq in Hw'.
    assert (Hs : exists l, res = Ret (Some l)).
    { destruct (lease_of a d) as [r|] eqn:Hl; [|injection Hacq' as <- <-; eauto].
      rewrite (Hown r eq_refl), String.eqb_refl in Hacq'. cbn [negb] in Hacq'.
      replace (r_expiresAt r <? now) with true in Hacq' by lia. injection Hacq' as <- <-. eauto. }
    destruct Hs as [l ->]. simpl in Hw'.
    apply acquire_cases in Hacq as [(_ & _ & _ & [[=]|[e [=]]])|(r' & [= ->] & _ & _ & Ha & _ & Hh & Hx & Hrows)].
    exists r'. repeat split; auto. apply (acquire_rows _ _ _ _ _ Ha) in Hrows as [Hin' Hold].
    unfold lease_of. destruct (List.find _ (leases d')) as [x|] eqn:Hf.
    + apply List.find_some in Hf as [Hx' Hxa%String.eqb_eq]. f_equal.
      apply Hold in Hx' as [->|[_ Hne]]; [done|]. by destruct Hne.
    + apply (List.find_none _ _ Hf) in Hin'. by rewrite Ha, String.eqb_refl in Hin'.
Qed.

Lemma acquire_iff_free_witness :
  exists r', snd (acquireSyncLease "t1" "acc" "w2" 10 11 "id2"
      (dbs (steps (initial demo_accounts) [Acquire "t1" "acc" "w1" 10 0 "id1"]))) = Ret (Some (handle_of r')) /\
    r_holderId r' = "w2".
Proof.
  pose proof (acquire_iff_free demo_accounts [Acquire "t1" "acc" "w1" 10 0 "id1"] "t1" "acc" "w2" 10 11 "id2"
    {| a_id := "acc"; a_tenantId := "t1"; a_status := "active"; a_data := "" |}
    (or_introl eq_refl) eq_refl eq_refl ltac:(intros r [= <-]; reflexivity)) as H.
  cbv beta iota zeta in H. destruct H as [_ H].
  destruct (H ltac:(reflexivity)) as (r' & Hr & _ & Hh & _). exists r'. split; [exact Hr|exact Hh].
Defined.

End Lease.

(** * The heartbeat controller *)

Module Heartbeat.

(* src: packages/sync/src/lease-heartbeat.ts:30-45 LeaseHeartbeatOptions *)
Record LeaseHeartbeatOptions := {
  lease_expiresAt : Z; ttlMs : Z; intervalMs : Z; opt_maxTransientFailures : option Z
}.

(** The observable events, in order: what [onEvent] receives, the abort, and the
    timer's installation and cancellation. *)
Inductive event :=
| lease_lost | lease_heartbeat_failed (consecutive : Z) | lease_heartbeat
| abort | timer_set (ms : Z) | timer_cancelled.

(** The closure's variables; [aborted] is the abort signal's state. *)
(* src: packages/sync/src/lease-heartbeat.ts:60-67 createLeaseHeartbeat *)
Record controller := {
  lost : bool; stopped : bool; inFlight : bool; consecutiveFailures : Z;
  currentExpiry : Z; timer : bool; aborted : bool; log : list event
}.

Section Controller.
Context (opts : LeaseHeartbeatOptions).

(* src: packages/sync/src/lease-heartbeat.ts:58-58 maxTransientFailures *)
Definition maxTransientFailures : Z := Z.max 1 (opt_maxTransientFailures opts ?? 3).

(* src: packages/sync/src/lease-heartbeat.ts:53-67 createLeaseHeartbeat *)
Definition createLeaseHeartbeat : controller :=
  {| lost := false; stopped := false; inFlight := false; consecutiveFailures := 0;
     currentExpiry := lease_expiresAt opts; timer := false; aborted := false; log := [] |}.

(* src: packages/sync/src/lease-heartbeat.ts:69-69 clearTimer *)
Definition clearTimer (c : controller) : controller :=
  if timer c then
    {| lost := lost c; stopped := stopped c; inFlight := inFlight c;
       consecutiveFailures := consecutiveFailures c; currentExpiry := currentExpiry c;
       timer := false; aborted := aborted c; log := log c ++ [timer_cancelled] |}
  else c.

(* src: packages/sync/src/lease-heartbeat.ts:71-78 declareLost *)
Definition declareLost (c : controller) : controller :=
  if lost c then c
  else
    let c1 := clearTimer c in
    {| lost := true; stopped := stopped c1; inFlight := inFlight c1;
       consecutiveFailures := consecutiveFailures c1; currentExpiry := currentExpiry c1;
       timer := timer c1; aborted := true; log := log c1 ++ [lease_lost; abort] |}.

Definition set_inFlight (b : bool) (c : controller) : controller :=
  {| lost := lost c; stopped := stopped c; inFlight := b; consecutiveFailures := consecutiveFailures c;
     currentExpiry := currentExpiry c; timer := timer c; aborted := aborted c; log := log c |}.

(** The first half of a tick: whether a heartbeat is sent. *)
(* src: packages/sync/src/lease-heartbeat.ts:80-87 tick *)
Definition tick_begin (c : controller) : controller * bool :=
  if lost c || stopped c || inFlight c then (c, false) else (set_inFlight true c, true).

(** What the awaited heartbeat came back with. *)
Inductive reply := Renewed | NotRenewed | Thrown.

(** The second half, at the clock it reads after the await. *)
(* src: packages/sync/src/lease-heartbeat.ts:86-107 tick *)
Definition tick_end (r : reply) (now : Z) (c : controller) : controller :=
  set_inFlight false
    match r with
    | Thrown =>
        let n := consecutiveFailures c + 1 in
        let c1 := {| lost := lost c; stopped := stopped c; inFlight := inFlight c; consecutiveFailures := n;
                     currentExpiry := currentExpiry c; timer := timer c; aborted := aborted c;
                     log := log c ++ [lease_heartbeat_failed n] |} in
        if (maxTransientFailures <=? n) || (currentExpiry c <=? now) then declareLost c1 else c1
    | NotRenewed => declareLost c
    | Renewed =>
        {| lost := lost c; stopped := stopped c; inFlight := inFlight c; consecutiveFailures := 0;
           currentExpiry := now + ttlMs opts; timer := timer c; aborted := aborted c;
           log := log c ++ [lease_heartbeat] |}
    end.

(* src: packages/sync/src/lease-heartbeat.ts:114-117 start *)
Definition start (c : controller) : controller :=
  if timer c || lost c || stopped c then c
  else {| lost := lost c; stopped := stopped c; inFlight := inFlight c;
          consecutiveFailures := consecutiveFailures c; currentExpiry := currentExpiry c;
          timer := true; aborted := aborted c; log := log c ++ [timer_set (intervalMs opts)] |}.

(* src: packages/sync/src/lease-heartbeat.ts:118-121 stop *)
Definition stop (c : controller) : controller :=
  clearTimer {| lost := lost c; stopped := true; inFlight := inFlight c;
                consecutiveFailures := consecutiveFailures c; currentExpiry := currentExpiry c;
                timer := timer c; aborted := aborted c; log := log c |}.

(** The interleavings: a tick may begin at any moment, an awaited heartbeat comes
    back only to the tick that sent it, start and stop may fall in between. *)
Inductive step : controller -> controller -> Prop :=
| step_begin c : step c (fst (tick_begin c))
| step_end c r now : inFlight c = true -> step c (tick_end r now c)
| step_start c : step c (start c)
| step_stop c : step c (stop c).

Inductive reachable : controller -> Prop :=
| reach_init : reachable createLeaseHeartbeat
| reach_step c c' : reachable c -> step c c' -> reachable c'.

Definition count_lost (c : controller) : nat :=
  length (List.filter (fun e => match e with lease_lost => true | _ => false end) (log c)).
Definition count_abort (c : controller) : nat :=
  length (List.filter (fun e => match e with abort => true | _ => false end) (log c)).

Record Inv (c : controller) : Prop := {
  inv_abort : aborted c = lost c;
  inv_once : count_lost c = if lost c then 1%nat else 0%nat;
  inv_abort_once : count_abort c = if lost c then 1%nat else 0%nat;
  inv_timer : timer c = true -> lost c = false /\ stopped c = false;
  inv_failures : 0 <= consecutiveFailures c;
  inv_bound : lost c = false -> consecutiveFailures c < maxTransientFailures
}.

Lemma log_count_app c l l' : log c = l ++ l' ->
  count_lost c = (length (List.filter (fun e => match e with lease_lost => true | _ => false end) l) +
    length (List.filter (fun e => match e with lease_lost => true | _ => false end) l'))%nat /\
  count_abort c = (length (List.filter (fun e => match e with abort => true | _ => false end) l) +
    length (List.filter (fun e => match e with abort => true | _ => false end) l'))%nat.
Proof. intros H. unfold count_lost, count_abort. by rewrite H, !List.filter_app, !length_app. Qed.

Lemma clearTimer_inv c : Inv c -> Inv (clearTimer c).
Proof.
  intros Hc. unfold clearTimer. destruct (timer c) eqn:Ht; [|done].
  match goal with |- Inv ?x => destruct (log_count_app x (log c) [timer_cancelled] eq_refl) as [H1 H2] end.
  split; rewrite ?H1, ?H2; simpl; try apply Hc; try done; rewrite Nat.add_0_r; apply Hc.
Qed.

(** What declaring the loss needs: the invariant, less the failure bound. *)
Lemma declareLost_inv c :
  aborted c = lost c -> count_lost c = (if lost c then 1 else 0)%nat ->
  count_abort c = (if lost c then 1 else 0)%nat -> (timer c = true -> lost c = false /\ stopped c = false) ->
  0 <= consecutiveFailures c -> Inv (declareLost c).
Proof.
  intros Ha Hl Hb Ht Hf. unfold declareLost. destruct (lost c) eqn:Hlost.
  { split; rewrite ?Hlost; auto; try done; intros Htt; by destruct (Ht Htt). }
  set (c1 := clearTimer c).
  assert (Hc1 : timer c1 = false /\ count_lost c1 = 0%nat /\ count_abort c1 = 0%nat /\
    consecutiveFailures c1 = consecutiveFailures c).
  { unfold c1, clearTimer. destruct (timer c) eqn:Hti; [|auto].
    match goal with |- timer ?x = _ /\ _ => destruct (log_count_app x (log c) [timer_cancelled] eq_refl) as [-> ->] end.
    simpl. rewrite !Nat.add_0_r. auto. }
  destruct Hc1 as (H1 & H2 & H3 & H4).
  match goal with |- Inv ?x => destruct (log_count_app x (log c1) [lease_lost; abort] eq_refl) as [E1 E2] end.
  fold (count_lost c1) in E1. fold (count_abort c1) in E2.
  split; rewrite ?E1, ?E2; simpl; rewrite ?H1, ?H2, ?H3, ?H4; done.
Qed.

Lemma set_inFlight_inv b c : Inv c -> Inv (set_inFlight b c).
Proof. intros Hc. split; try apply Hc. Qed.

Lemma log_neutral_inv c c' e :
  Inv c -> log c' = log c ++ [e] -> e <> lease_lost -> e <> abort ->
  aborted c' = aborted c -> lost c' = lost c ->
  (timer c' = true -> lost c' = false /\ stopped c' = false) ->
  0 <= consecutiveFailures c' ->
  (lost c' = false -> consecutiveFailures c' < maxTransientFailures) -> Inv c'.
Proof.
  intros Hc Hlog He1 He2 Ha Hl Ht Hf Hb.
  destruct (log_count_app c' (log c) [e] Hlog) as [E1 E2].
  assert (N1 : count_lost c' = count_lost c) by (rewrite E1; destruct e; simpl; try done; apply Nat.add_0_r).
  assert (N2 : count_abort c' = count_abort c) by (rewrite E2; destruct e; simpl; try done; apply Nat.add_0_r).
  split; rewrite ?N1, ?N2, ?Ha, ?Hl; try apply Hc; auto; rewrite <- Hl; auto.
Qed.

Lemma beat_step_inv c c' : Inv c -> step c c' -> Inv c'.
Proof.
  intros Hc Hs. pose proof Hc as [Ha Ho Hao Ht Hf Hb].
  destruct Hs as [c|c r now Hin|c|c].
  - unfold tick_begin. destruct (_ || _); [done|by apply set_inFlight_inv].
  - unfold tick_end. apply set_inFlight_inv. destruct r.
    + eapply log_neutral_inv with (c := c) (e := lease_heartbeat); simpl; auto; [lia|].
      unfold maxTransientFailures. lia.
    + by apply declareLost_inv.
    + set (c1 := {| lost := lost c |}).
      assert (N1 : count_lost c1 = count_lost c /\ count_abort c1 = count_abort c).
      { destruct (log_count_app c1 (log c) [lease_heartbeat_failed (consecutiveFailures c + 1)] eq_refl) as [-> ->].
        simpl. rewrite !Nat.add_0_r. done. }
      destruct N1 as [N1 N2]. destruct (_ || _) eqn:Hor.
      * apply declareLost_inv; rewrite ?N1, ?N2; simpl; auto. lia.
      * apply orb_false_iff in Hor as [Hor _].
        split; rewrite ?N1, ?N2; simpl; auto; [lia|]. intros _. lia.
  - unfold start. destruct (timer c || lost c || stopped c) eqn:Hg; [done|].
    rewrite !orb_false_iff in Hg. destruct Hg as [[_ Hl] Hst].
    by eapply log_neutral_inv with (c := c) (e := timer_set (intervalMs opts)).
  - unfold stop. unfold clearTimer. simpl. destruct (timer c) eqn:Hti; simpl.
    + by eapply log_neutral_inv with (c := c) (e := timer_cancelled).
    + split; simpl; auto. intros Hx. congruence.
Qed.

Lemma reachable_inv c : reachable c -> Inv c.
Proof.
  induction 1 as [|c c' _ IH Hs]; [|by eapply beat_step_inv].
  split; simpl; try done. intros _. unfold maxTransientFailures. lia.
Qed.

(** Once lost, a controller stays lost and sends nothing. *)
Lemma lost_stays c c' : step c c' -> lost c = true -> lost c' = true.
Proof.
  intros Hs Hl. destruct Hs as [c|c r now Hin|c|c].
  - unfold tick_begin. by rewrite Hl.
  - unfold tick_end, declareLost. destruct r; simpl; try rewrite Hl; auto.
    destruct (_ || _); simpl; by rewrite ?Hl.
  - unfold start. rewrite Hl, orb_true_r. done.
  - unfold stop, clearTimer. simpl. by destruct (timer c).
Qed.
End Controller.

(** The controller never overlaps or outlives its lease: in every reachable
    state the abort signal is raised exactly when the lease was lost, the loss is
    announced and aborted on exactly once, no timer runs after a loss or a stop,
    and no heartbeat is sent while one is in flight, after a loss or after a stop. *)
Theorem heartbeat_controller_safe (opts : LeaseHeartbeatOptions) (c : controller) :
  reachable opts c ->
  aborted c = lost c /\
  count_lost c = (if lost c then 1 else 0)%nat /\ count_abort c = (if lost c then 1 else 0)%nat /\
  (timer c = true -> lost c = false /\ stopped c = false) /\
  (snd (tick_begin c) = true <-> lost c = false /\ stopped c = false /\ inFlight c = false).
Proof.
  intros Hc. pose proof (reachable_inv opts c Hc) as [H1 H2 H3 H4 H5 H6].
  do 4 (split; [done|]). unfold tick_begin.
  destruct (lost c), (stopped c), (inFlight c); simpl; tauto || intuition congruence.
Qed.

Lemma heartbeat_controller_safe_witness :
  let o := {| lease_expiresAt := 10; ttlMs := 10; intervalMs := 3; opt_maxTransientFailures := None |} in
  aborted (tick_end o NotRenewed 4 (fst (tick_begin (start o (createLeaseHeartbeat o))))) =
  lost (tick_end o NotRenewed 4 (fst (tick_begin (start o (createLeaseHeartbeat o))))).
Proof.
  intros o. refine (proj1 (heartbeat_controller_safe o _ _)).
  eapply reach_step; [eapply reach_step; [eapply reach_step; [apply reach_init|apply step_start]|apply step_begin]|].
  apply step_end. reflexivity.
Defined.

(** Failing closed: a heartbeat that was not renewed, that threw once the
    last known expiry had passed, or that was the last tolerated failure in a row,
    leaves the controller lost and aborted, and it stays so; and before a loss
    the consecutive failures are always fewer than the tolerated number. *)
Theorem heartbeat_fails_closed (opts : LeaseHeartbeatOptions) (c : controller) (r : reply) (now : Z) :
  reachable opts c -> inFlight c = true ->
  r = NotRenewed \/ (r = Thrown /\ (currentExpiry c <= now \/ maxTransientFailures opts <= consecutiveFailures c + 1)) ->
  let c' := tick_end opts r now c in
  lost c' = true /\ aborted c' = true /\ (forall c'', step opts c' c'' -> lost c'' = true) /\
  (lost c = false -> consecutiveFailures c < maxTransientFailures opts).
Proof.
  intros Hc Hin Hr c'.
  assert (Hlost : lost c' = true).
  { unfold c', tick_end. destruct Hr as [->|[-> Hr]]; simpl.
    - unfold declareLost. destruct (lost c) eqn:Hl; simpl; auto.
    - replace (_ || _) with true; [|symmetry; apply orb_true_iff; rewrite !Z.leb_le; lia].
      unfold declareLost; simpl. by destruct (lost c). }
  assert (Hc' : reachable opts c') by (eapply reach_step; [exact Hc|by apply step_end]).
  pose proof (reachable_inv opts c' Hc') as Hi. pose proof (reachable_inv opts c Hc) as Hi0.
  split; [done|]. split; [by rewrite (inv_abort opts c' Hi)|]. split.
  - intros c'' Hs. by eapply lost_stays.
  - apply (inv_bound opts c Hi0).
Qed.

Lemma heartbeat_fails_closed_witness :
  let o := {| lease_expiresAt := 10; ttlMs := 10; intervalMs := 3; opt_maxTransientFailures := None |} in
  lost (tick_end o Thrown 10 (fst (tick_begin (createLeaseHeartbeat o)))) = true.
Proof.
  intros o. refine (proj1 (heartbeat_fails_closed o (fst (tick_begin (createLeaseHeartbeat o))) Thrown 10 _ eq_refl _)).
  - eapply reach_step; [apply reach_init|apply step_begin].
  - right. split; [reflexivity|]. left. cbn. lia.
Defined.

(** The last known expiry overshoots: the row's expiry is counted from the
    clock read before the heartbeat is sent, the controller's from the clock read
    after it came back, so after a renewal that took a positive time there is a
    moment at which the row has expired while a failing heartbeat is still
    tolerated. *)
Theorem heartbeat_expiry_overshoots (opts : LeaseHeartbeatOptions) (c : controller) (tenant : string)
    (l : Lease.LeaseHandle) (sent back : Z) (d : Lease.db) (row : Lease.lease_row) :
  lost c = false -> stopped c = false -> 1 < maxTransientFailures opts -> sent < back ->
  In row (Lease.leases d) -> Lease.owns tenant l row = true ->
  let d' := fst (Lease.heartbeatSyncLease tenant l (ttlMs opts) sent d) in
  let c' := tick_end opts Renewed back c in
  exists row' late, In row' (Lease.leases d') /\ Lease.r_generation row' = Lease.generation l /\
    Lease.r_expiresAt row' <= late /\
    lost (tick_end opts Thrown late (fst (tick_begin (set_inFlight false c')))) = false.
Proof.
  intros Hl Hst Hm Hlt Hin Ho d' c'.
  exists (Lease.set_expiry_row tenant l (ttlMs opts) sent row), (sent + ttlMs opts).
  split; [|split; [|split]].
  - unfold d'. rewrite Lease.beat_leases. by apply in_map.
  - destruct (Lease.set_expiry_keeps tenant l (ttlMs opts) sent row) as [_ ->].
    unfold Lease.owns in Ho. rewrite !andb_true_iff in Ho. lia.
  - unfold Lease.set_expiry_row. rewrite Ho. simpl. lia.
  - unfold c', tick_end, tick_begin. simpl. rewrite Hl, Hst. simpl.
    replace (maxTransientFailures opts <=? _) with false by lia.
    replace (back + ttlMs opts <=? sent + ttlMs opts) with false by lia. reflexivity.
Qed.

Lemma heartbeat_expiry_overshoots_witness :
  let o := {| lease_expiresAt := 10; ttlMs := 10; intervalMs := 3; opt_maxTransientFailures := None |} in
  exists row' late, In row' (Lease.leases (fst (Lease.heartbeatSyncLease "t1"
      {| Lease.id := "id1"; Lease.connectedAccountId := "acc"; Lease.holderId := "w1"; Lease.generation := 1; Lease.expiresAt := 10 |} 10 2
      (Lease.dbs (Lease.steps (Lease.initial Lease.demo_accounts) [Lease.Acquire "t1" "acc" "w1" 10 0 "id1"]))))) /\
    Lease.r_generation row' = 1 /\ Lease.r_expiresAt row' <= late /\
    lost (tick_end o Thrown late (fst (tick_begin (set_inFlight false (tick_end o Renewed 5 (createLeaseHeartbeat o)))))) = false.
Proof.
  intros o. refine (heartbeat_expiry_overshoots o (createLeaseHeartbeat o) "t1"
    {| Lease.id := "id1"; Lease.connectedAccountId := "acc"; Lease.holderId := "w1"; Lease.generation := 1; Lease.expiresAt := 10 |}
    2 5 (Lease.dbs (Lease.steps (Lease.initial Lease.demo_accounts) [Lease.Acquire "t1" "acc" "w1" 10 0 "id1"]))
    (Lease.fresh_row "id1" "t1" "acc" "w1" 10 0 1) eq_refl eq_refl _ _ _ eq_refl); [reflexivity|reflexivity|].
  left. reflexivity.
Defined.

End Heartbeat.
