(* ===== verification/Outbox.v ===== *)
(** The family-notification outbox
    ([packages/db/src/internal/family-notification-outbox.ts] and
    [family-notification-outbox-processor.ts]): enqueue, claim, processing and
    settlement of durable delivery events, as operations on the event table. *)
From S2P Require Import Prelude.
From Stdlib Require Import DecimalString DecimalN.
Open Scope string_scope.
Open Scope list_scope.
Open Scope Z_scope.
Open Scope tam_scope.

Module Outbox.

(* src: packages/db/src/internal/family-notification-outbox.ts:22-22 OUTBOX_MAX_ATTEMPTS *)
Definition OUTBOX_MAX_ATTEMPTS : Z := 5.
(* src: packages/db/src/internal/family-notification-outbox.ts:23-23 OUTBOX_BASE_RETRY_DELAY_MS *)
Definition OUTBOX_BASE_RETRY_DELAY_MS : Z := 60000.
(* src: packages/db/src/internal/family-notification-outbox.ts:24-24 OUTBOX_MAX_RETRY_DELAY_MS *)
Definition OUTBOX_MAX_RETRY_DELAY_MS : Z := 3600000.
(* src: packages/db/src/internal/family-notification-outbox.ts:25-25 OUTBOX_LEASE_DURATION_MS *)
Definition OUTBOX_LEASE_DURATION_MS : Z := 300000.
(* src: packages/db/src/internal/family-notification-outbox.ts:26-26 OUTBOX_DEFAULT_BATCH_SIZE *)
Definition OUTBOX_DEFAULT_BATCH_SIZE : Z := 50.
(* src: packages/db/src/internal/family-notification-outbox.ts:27-27 OUTBOX_MAX_BATCH_SIZE *)
Definition OUTBOX_MAX_BATCH_SIZE : Z := 500.
(* src: packages/db/src/internal/family-notification-outbox.ts:33-33 OUTBOX_READINESS_MAX_ATTEMPTS *)
Definition OUTBOX_READINESS_MAX_ATTEMPTS : Z := 8.
(* src: packages/db/src/internal/family-notification-outbox.ts:34-34 OUTBOX_READINESS_BASE_DELAY_MS *)
Definition OUTBOX_READINESS_BASE_DELAY_MS : Z := 60000.
(* src: packages/db/src/internal/family-notification-outbox.ts:35-35 OUTBOX_READINESS_MAX_DELAY_MS *)
Definition OUTBOX_READINESS_MAX_DELAY_MS : Z := 900000.

(* src: packages/db/src/internal/family-notification-outbox.ts:38-42 outboxRetryDelayMs *)
Definition outboxRetryDelayMs (attemptCount : Z) : Z :=
  let n := Z.max 1 attemptCount in
  let raw := OUTBOX_BASE_RETRY_DELAY_MS * 2 ^ (n - 1) in
  Z.min OUTBOX_MAX_RETRY_DELAY_MS raw.

(* src: packages/db/src/internal/family-notification-outbox.ts:45-49 outboxReadinessDelayMs *)
Definition outboxReadinessDelayMs (attemptCount : Z) : Z :=
  let n := Z.max 1 attemptCount in
  let raw := OUTBOX_READINESS_BASE_DELAY_MS * 2 ^ (n - 1) in
  Z.min OUTBOX_READINESS_MAX_DELAY_MS raw.

(* src: packages/db/src/internal/family-notification-outbox.ts:53-60 OUTBOX_SAFE_REASON *)
Inductive OutboxSafeReason := delivered | already_delivered | no_recipients | source_gone | not_applicable.

(* src: packages/db/src/internal/family-notification-outbox.ts:63-72 OUTBOX_ERROR_CODE *)
Inductive OutboxErrorCode :=
| processing_error | malformed_event | unsupported_type | invalid_event_version
| contradictory_linkage | max_attempts_exceeded | authorization_pending_code.

(* src: packages/db/src/internal/family-notification-outbox.ts:76-85 OUTBOX_SOURCE_TYPE *)
Inductive OutboxSourceType :=
| safety_signal_delivery | family_guardian_invitation | guardian_authority_record
| recipient_authorization_decision | safety_signal | child_safety_incident
| child_safety_protection_plan | consent_record.
#[export] Instance OutboxSourceType_dec : EqDecision OutboxSourceType.
Proof. solve_decision. Defined.
#[export] Program Instance OutboxSourceType_enum : JsEnum OutboxSourceType := {|
  js_name s := match s with
    | safety_signal_delivery => "safety_signal_delivery"
    | family_guardian_invitation => "family_guardian_invitation"
    | guardian_authority_record => "guardian_authority_record"
    | recipient_authorization_decision => "recipient_authorization_decision"
    | safety_signal => "safety_signal" | child_safety_incident => "child_safety_incident"
    | child_safety_protection_plan => "child_safety_protection_plan"
    | consent_record => "consent_record" end;
  js_values := [safety_signal_delivery; family_guardian_invitation; guardian_authority_record;
    recipient_authorization_decision; safety_signal; child_safety_incident;
    child_safety_protection_plan; consent_record] |}.
Solve All Obligations with solve_js_enum.

(* src: packages/db/src/internal/family-notification-outbox.ts:93-112 OUTBOX_TYPE_SOURCE *)
Inductive EnqueueableOutboxType :=
| family_delivery_available | family_delivery_acknowledged | family_delivery_declined
| family_guardian_invitation_accepted | family_authority_changed
| family_recipient_authorization_changed | family_signal_available | family_urgent_signal
| family_incident_created | family_incident_escalated | family_protection_plan_updated
| family_guardian_invitation_expiring | family_consent_expiring.
#[export] Instance EnqueueableOutboxType_dec : EqDecision EnqueueableOutboxType.
Proof. solve_decision. Defined.
#[export] Program Instance EnqueueableOutboxType_enum : JsEnum EnqueueableOutboxType := {|
  js_name t := match t with
    | family_delivery_available => "family_delivery_available"
    | family_delivery_acknowledged => "family_delivery_acknowledged"
    | family_delivery_declined => "family_delivery_declined"
    | family_guardian_invitation_accepted => "family_guardian_invitation_accepted"
    | family_authority_changed => "family_authority_changed"
    | family_recipient_authorization_changed => "family_recipient_authorization_changed"
    | family_signal_available => "family_signal_available"
    | family_urgent_signal => "family_urgent_signal"
    | family_incident_created => "family_incident_created"
    | family_incident_escalated => "family_incident_escalated"
    | family_protection_plan_updated => "family_protection_plan_updated"
    | family_guardian_invitation_expiring => "family_guardian_invitation_expiring"
    | family_consent_expiring => "family_consent_expiring" end;
  js_values := [family_delivery_available; family_delivery_acknowledged; family_delivery_declined;
    family_guardian_invitation_accepted; family_authority_changed; family_recipient_authorization_changed;
    family_signal_available; family_urgent_signal; family_incident_created; family_incident_escalated;
    family_protection_plan_updated; family_guardian_invitation_expiring; family_consent_expiring] |}.
Solve All Obligations with solve_js_enum.

(** One entry of the map: the source type and the field that carries the id. *)
(* src: packages/db/src/internal/family-notification-outbox.ts:93-110 OUTBOX_TYPE_SOURCE *)
Definition OUTBOX_TYPE_SOURCE (t : EnqueueableOutboxType) : OutboxSourceType * string :=
  match t with
  | family_delivery_available | family_delivery_acknowledged | family_delivery_declined =>
      (safety_signal_delivery, "deliveryId")
  | family_guardian_invitation_accepted => (family_guardian_invitation, "invitationId")
  | family_authority_changed => (guardian_authority_record, "guardianAuthorityRecordId")
  | family_recipient_authorization_changed => (recipient_authorization_decision, "authorizationDecisionId")
  | family_signal_available | family_urgent_signal => (safety_signal, "safetySignalId")
  | family_incident_created | family_incident_escalated => (child_safety_incident, "incidentId")
  | family_protection_plan_updated => (child_safety_protection_plan, "protectionPlanId")
  | family_guardian_invitation_expiring => (family_guardian_invitation, "invitationId")
  | family_consent_expiring => (consent_record, "consentRecordId")
  end.

(** Indexing the map by a raw string: an entry, an inherited property of the
    object (truthy, but without [sourceType] and [idKey]), or nothing. *)
Inductive mapping := Entry (t : EnqueueableOutboxType) | Inherited | Absent.

Definition lookup_mapping (s : string) : mapping :=
  match parse (A := EnqueueableOutboxType) s with
  | Some t => Entry t
  | None => if includes object_prototype_keys s then Inherited else Absent
  end.

(* src: packages/db/src/internal/family-notification-outbox.ts:115-117 CRITICAL_OUTBOX_TYPES *)
Definition CRITICAL_OUTBOX_TYPES : list EnqueueableOutboxType :=
  [family_signal_available; family_urgent_signal; family_incident_created; family_incident_escalated].

(* src: packages/db/src/internal/family-notification-outbox.ts:120-120 URGENT_SIGNAL_SEVERITIES *)
Definition URGENT_SIGNAL_SEVERITIES : list string := ["high"; "critical"].

(* src: packages/db/src/internal/family-notification-outbox.ts:130-132 isMaterialUrgentSignalTransition *)
Definition isMaterialUrgentSignalTransition (before after : string) : bool :=
  negb (includes URGENT_SIGNAL_SEVERITIES before) && includes URGENT_SIGNAL_SEVERITIES after.

(* src: packages/db/src/internal/family-notification-outbox.ts:141-141 FAMILY_DISCLOSABLE_PLAN_STATES *)
Definition FAMILY_DISCLOSABLE_PLAN_STATES : list string := ["active"; "reopened"].

(* src: packages/db/src/internal/family-notification-outbox.ts:150-152 isMaterialFamilyProtectionPlanUpdate *)
Definition isMaterialFamilyProtectionPlanUpdate (before after : string) : bool :=
  negb (before =s after) && includes FAMILY_DISCLOSABLE_PLAN_STATES after.

(* src: packages/db/src/internal/family-notification-outbox.ts:156-156 INVITATION_WARNING_WINDOW_MS *)
Definition INVITATION_WARNING_WINDOW_MS : Z := 24 * 60 * 60 * 1000.
(* src: packages/db/src/internal/family-notification-outbox.ts:158-158 CONSENT_WARNING_WINDOW_MS *)
Definition CONSENT_WARNING_WINDOW_MS : Z := 14 * 24 * 60 * 60 * 1000.

(* src: packages/db/src/internal/family-notification-outbox.ts:160-160 INVITATION_EXPIRING_PREFIX *)
Definition INVITATION_EXPIRING_PREFIX : string := "invitation-expiring:v1:".
(* src: packages/db/src/internal/family-notification-outbox.ts:161-161 CONSENT_EXPIRING_PREFIX *)
Definition CONSENT_EXPIRING_PREFIX : string := "consent-expiring:v1:".

(** [String(n)] of an integer, and [Number] of a run of digits. *)
Definition string_of_int (n : Z) : string :=
  if n <? 0 then "-" +:+ NilZero.string_of_uint (N.to_uint (Z.to_N (- n)))
  else NilZero.string_of_uint (N.to_uint (Z.to_N n)).

Definition number_of_digits (s : string) : Z :=
  match NilZero.uint_of_string s with Some u => Z.of_N (N.of_uint u) | None => 0 end.

Definition MAX_SAFE_INTEGER : Z := 2 ^ 53 - 1.

(* src: packages/db/src/internal/family-notification-outbox.ts:165-165 invitationExpiringEventVersion *)
Definition invitationExpiringEventVersion (expiresAtMs : Z) : string :=
  INVITATION_EXPIRING_PREFIX +:+ string_of_int expiresAtMs.
(* src: packages/db/src/internal/family-notification-outbox.ts:166-166 consentExpiringEventVersion *)
Definition consentExpiringEventVersion (expiresAtMs : Z) : string :=
  CONSENT_EXPIRING_PREFIX +:+ string_of_int expiresAtMs.

(* src: packages/db/src/internal/family-notification-outbox.ts:169-175 parseExpiringEventVersion *)
Definition parseExpiringEventVersion (prefix eventVersion : string) : option Z :=
  if negb (startsWith prefix eventVersion) then None
  else
    let rest := str_drop (String.length prefix) eventVersion in
    if negb (between 1 15 (str_len rest) && str_forallb is_digit rest) then None
    else
      let n := number_of_digits rest in
      if n <=? MAX_SAFE_INTEGER then Some n else None.

(* src: packages/db/src/internal/family-notification-outbox.ts:176-176 parseInvitationExpiringEventVersion *)
Definition parseInvitationExpiringEventVersion : string -> option Z := parseExpiringEventVersion INVITATION_EXPIRING_PREFIX.
(* src: packages/db/src/internal/family-notification-outbox.ts:177-177 parseConsentExpiringEventVersion *)
Definition parseConsentExpiringEventVersion : string -> option Z := parseExpiringEventVersion CONSENT_EXPIRING_PREFIX.

(** The enqueue input with its type and source as the runtime sees them. *)
(* src: packages/db/src/internal/family-notification-outbox.ts:180-189 EnqueueableFamilyOutboxInput *)
Record EnqueueableFamilyOutboxInput := {
  tenantId : string; notificationType : string; source : jsmap string;
  eventVersion : string; occurredAt : Z
}.

(* src: packages/db/src/internal/family-notification-outbox.ts:191-195 EnqueueOutboxResult *)
Record EnqueueOutboxResult := { enqueued : bool; duplicate : bool; outboxEventId : option string }.

Definition version_char (c : ascii) : bool := is_alnum c || includes ["."; "_"; ":"; "-"] (String c EmptyString).

(* src: packages/db/src/internal/family-notification-outbox.ts:197-197 EVENT_VERSION_RE *)
Definition event_version_ok (s : string) : bool := between 1 64 (str_len s) && str_forallb version_char s.

(** [p.replace(/\|/g, "\\|")] *)
Fixpoint escape_bars (s : string) : string :=
  match s with
  | EmptyString => EmptyString
  | String c r => if Ascii.eqb c "|" then String "\" (String "|" (escape_bars r)) else String c (escape_bars r)
  end.

(* src: packages/db/src/internal/family-notification-outbox.ts:212-220 familyNotificationOutboxDedupeKey *)
Definition dedupe_canonical (tenant ty sourceType sourceId version : string) : string :=
  String.concat "|" (map escape_bars [tenant; ty; sourceType; sourceId; version]).

(* src: packages/db/src/internal/family-notification-outbox-processor.ts:249-249 OutboxStatus *)
Inductive Status := pending | processing | completed | dead_letter.
#[export] Instance Status_dec : EqDecision Status.
Proof. solve_decision. Defined.

(** A row of [family_notification_outbox_events]. *)
(* src: packages/db/src/internal/family-notification-outbox.ts:261-275 enqueueFamilyNotificationOutboxEventTx *)
Record event_row := {
  e_id : string; e_tenantId : string; e_notificationType : string; e_sourceType : string;
  e_sourceId : string; e_eventVersion : string; e_dedupeKey : string; e_occurredAt : Z;
  e_status : Status; e_attemptCount : Z; e_nextAttemptAt : Z; e_lockExpiresAt : option Z;
  e_lastErrorCode : option OutboxErrorCode; e_safeReasonCode : option OutboxSafeReason;
  e_completedAt : option Z; e_createdAt : Z
}.
Definition table := list event_row.

(** The row an enqueue creates, with the defaults of the table. *)
(* src: packages/db/src/internal/family-notification-outbox.ts:261-273 enqueueFamilyNotificationOutboxEventTx *)
Definition new_row (newId : string) (now : Z) (input : EnqueueableFamilyOutboxInput) (sourceType sid key : string) : event_row :=
  {| e_id := newId; e_tenantId := tenantId input; e_notificationType := notificationType input;
     e_sourceType := sourceType; e_sourceId := sid; e_eventVersion := eventVersion input;
     e_dedupeKey := key; e_occurredAt := occurredAt input; e_status := pending;
     e_attemptCount := 0; e_nextAttemptAt := occurredAt input; e_lockExpiresAt := None;
     e_lastErrorCode := None; e_safeReasonCode := None; e_completedAt := None; e_createdAt := now |}.

Section Hash.
(** [sha256], in hex. *)
Context (sha256 : string -> string).

(* src: packages/db/src/internal/family-notification-outbox.ts:205-222 familyNotificationOutboxDedupeKey *)
Definition familyNotificationOutboxDedupeKey (tenant ty sourceType sourceId version : string) : string :=
  sha256 (dedupe_canonical tenant ty sourceType sourceId version).

Definition same_key (tenant key : string) (r : event_row) : bool :=
  (e_tenantId r =s tenant) && (e_dedupeKey r =s key).

(** [newId] and [now] are what the database fills in. *)
(* src: packages/db/src/internal/family-notification-outbox.ts:239-284 enqueueFamilyNotificationOutboxEventTx *)
Definition enqueueFamilyNotificationOutboxEventTx (newId : string) (now : Z)
    (input : EnqueueableFamilyOutboxInput) (t : table) : table * outcome EnqueueOutboxResult string :=
  match lookup_mapping (notificationType input) with
  | Absent => (t, Throw "outbox_unsupported_type")
  | m =>
      if negb (event_version_ok (eventVersion input)) then (t, Throw "outbox_invalid_event_version")
      else
        match m with
        | Entry ty =>
            let sourceType := js_name (fst (OUTBOX_TYPE_SOURCE ty)) in
            let sourceId := map_get (source input) (snd (OUTBOX_TYPE_SOURCE ty)) in
            if negb (truthy sourceId) then (t, Throw "outbox_invalid_source")
            else
              let sid := sourceId ?? "" in
              let key := familyNotificationOutboxDedupeKey (tenantId input) (notificationType input)
                           sourceType sid (eventVersion input) in
              let row := new_row newId now input sourceType sid key in
              let fresh := negb (existsb (same_key (tenantId input) key) t) in
              let t' := if fresh then t ++ [row] else t in
              (t', Ret {| enqueued := fresh; duplicate := negb fresh;
                          outboxEventId := option_map e_id (List.find (same_key (tenantId input) key) t') |})
        | _ => (* an inherited property: its [idKey] is undefined *)
            if truthy (map_get (source input) "undefined") then (t, Throw "missing_source_type")
            else (t, Throw "outbox_invalid_source")
        end
  end.

(* src: packages/db/src/internal/family-notification-outbox.ts:293-298 enqueueFamilyNotificationOutboxEventOwnerTx *)
Definition enqueueFamilyNotificationOutboxEventOwnerTx := enqueueFamilyNotificationOutboxEventTx.

(* src: packages/db/src/internal/family-notification-outbox.ts:302-303 isAuthorityEffective *)
Definition isAuthorityEffective (status : option string) : bool := status_is status "verified".

(* src: packages/db/src/internal/family-notification-outbox.ts:305-305 AuthoritySnapshot *)
Record AuthoritySnapshot := { authorityStatus : string; authorityLevel : option string }.

Definition opt_eqb (a b : option string) : bool :=
  match a, b with Some x, Some y => x =s y | None, None => true | _, _ => false end.

(* src: packages/db/src/internal/family-notification-outbox.ts:314-320 isMaterialAuthorityChange *)
Definition isMaterialAuthorityChange (before : option AuthoritySnapshot) (after : AuthoritySnapshot) : bool :=
  let effBefore := match before with Some b => isAuthorityEffective (Some (authorityStatus b)) | None => false end in
  let effAfter := isAuthorityEffective (Some (authorityStatus after)) in
  if negb (Bool.eqb effBefore effAfter) then true
  else match before with
       | Some b => if effAfter && negb (opt_eqb (authorityLevel b) (authorityLevel after)) then true else false
       | None => false
       end.

(* src: packages/db/src/internal/family-notification-outbox.ts:328-341 enqueueAuthorityChangedIfMaterialTx *)
Definition enqueueAuthorityChangedIfMaterialTx (newId : string) (now : Z) (tenant recordId : string)
    (before : option AuthoritySnapshot) (after : AuthoritySnapshot) (updatedAt : Z) (occurred : option Z)
    (t : table) : table * outcome (bool * bool * bool) string :=
  if negb (isMaterialAuthorityChange before after) then (t, Ret (false, false, false))
  else
    match enqueueFamilyNotificationOutboxEventTx newId now
            {| tenantId := tenant; notificationType := "family_authority_changed";
               source := [("guardianAuthorityRecordId", recordId)]; eventVersion := string_of_int updatedAt;
               occurredAt := occurred ?? updatedAt |} t with
    | (t', Ret r) => (t', Ret (true, enqueued r, duplicate r))
    | (t', Throw e) => (t', Throw e)
    end.
End Hash.

(** * The processor *)

(* src: packages/db/src/internal/family-notification-outbox-processor.ts:32-35 boundBatch *)
Definition boundBatch (n : option Z) : Z :=
  let v := n ?? OUTBOX_DEFAULT_BATCH_SIZE in Z.max 1 (Z.min OUTBOX_MAX_BATCH_SIZE v).

(** A claimed row is the row after the claim; the code reads these columns of it. *)
(* src: packages/db/src/internal/family-notification-outbox-processor.ts:37-46 ClaimedRow *)
Definition ClaimedRow := event_row.

(* src: packages/db/src/internal/family-notification-outbox-processor.ts:54-63 ProcessOutboxResult *)
Record ProcessOutboxResult := {
  p_claimed : Z; p_completed : Z; p_retried : Z; p_dead_letter : Z; p_notifications_created : Z;
  p_duplicates : Z; p_no_recipients : Z; p_authorization_pending : Z
}.

(** The typed source handed to the authorization kernel: which id it carries. *)
Record AuthorizationSource := { s_type : EnqueueableOutboxType; s_idKey : string; s_id : string; s_eventVersion : string; s_occurredAt : Z }.

(* src: packages/db/src/internal/family-notification-outbox-processor.ts:80-111 buildAuthorizationSource *)
Definition buildAuthorizationSource (ev : ClaimedRow) : option AuthorizationSource :=
  match lookup_mapping (e_notificationType ev) with
  | Entry t =>
      if negb (e_sourceType ev =s js_name (fst (OUTBOX_TYPE_SOURCE t))) || negb (nonempty (e_sourceId ev)) then None
      else
        let idKey := match t with
          | family_delivery_available | family_delivery_acknowledged | family_delivery_declined => "deliveryId"
          | family_guardian_invitation_accepted => "invitationId"
          | family_authority_changed => "guardianAuthorityRecordId"
          | family_recipient_authorization_changed => "authorizationDecisionId"
          | family_signal_available | family_urgent_signal => "safetySignalId"
          | family_incident_created | family_incident_escalated => "incidentId"
          | family_protection_plan_updated => "protectionPlanId"
          | family_guardian_invitation_expiring => "invitationId"
          | family_consent_expiring => "consentRecordId" end in
        Some {| s_type := t; s_idKey := idKey; s_id := e_sourceId ev;
                s_eventVersion := e_eventVersion ev; s_occurredAt := e_occurredAt ev |}
  | _ => None
  end.

(** The result of the authorization kernel's entry point. *)
Inductive CreationResult :=
| CreationOk (eligibleRecipientCount createdCount duplicateCount : Z)
| CreationFailed (reason : string).

(* src: packages/db/src/internal/family-notification-outbox-processor.ts:113-117 Outcome *)
Inductive Outcome :=
| Completed (safeReasonCode : OutboxSafeReason) (created duplicates : Z) (noRecipients : bool)
| Retry (errorCode : OutboxErrorCode)
| AuthorizationPending
| DeadLetter (errorCode : OutboxErrorCode).

Definition is_critical (s : string) : bool := includes (map js_name CRITICAL_OUTBOX_TYPES) s.

(* src: packages/db/src/internal/family-notification-outbox-processor.ts:216-245 processOne *)
Definition classify (ev : ClaimedRow) (res : outcome CreationResult string) : Outcome :=
  match res with
  | Throw _ => Retry processing_error
  | Ret (CreationOk eligible created dups) =>
      if eligible =? 0 then
        if is_critical (e_notificationType ev) && (e_attemptCount ev <? OUTBOX_READINESS_MAX_ATTEMPTS)
        then AuthorizationPending
        else Completed no_recipients 0 dups true
      else Completed (if 0 <? created then delivered else already_delivered) created dups false
  | Ret (CreationFailed reason) =>
      if reason =s "resolver_error" then Retry processing_error
      else if reason =s "unsupported_type" then DeadLetter unsupported_type
      else if reason =s "authorization_ambiguous" then DeadLetter contradictory_linkage
      else if reason =s "source_not_found" then Completed source_gone 0 0 true
      else Completed not_applicable 0 0 true
  end.

Section Processor.
(** The authorization kernel and everything it touches. *)
Context {World : Type}
  (createFn : World -> string -> AuthorizationSource -> Z -> World * outcome CreationResult string).

(* src: packages/db/src/internal/family-notification-outbox-processor.ts:197-246 processOne *)
Definition processOne (ev : ClaimedRow) (now : Z) (w : World) : World * Outcome :=
  match lookup_mapping (e_notificationType ev) with
  | Absent => (w, DeadLetter unsupported_type)
  | _ =>
      if negb (event_version_ok (e_eventVersion ev)) then (w, DeadLetter invalid_event_version)
      else
        match buildAuthorizationSource ev with
        | None => (w, DeadLetter malformed_event)
        | Some src =>
            let '(w', res) := createFn w (e_tenantId ev) src now in (w', classify ev res)
        end
  end.
End Processor.

(** The claim's predicate, order and effect. *)
(* src: packages/db/src/internal/family-notification-outbox-processor.ts:140-141 processFamilyNotificationOutboxBatch *)
Definition claimable (now : Z) (r : event_row) : bool :=
  match e_status r with
  | pending => e_nextAttemptAt r <=? now
  | processing => match e_lockExpiresAt r with Some l => l <? now | None => false end
  | _ => false
  end.

(* src: packages/db/src/internal/family-notification-outbox-processor.ts:142-142 processFamilyNotificationOutboxBatch *)
Definition claim_order (a b : event_row) : Z :=
  if e_nextAttemptAt a =? e_nextAttemptAt b then
    if e_createdAt a =? e_createdAt b then (if str_ltb (e_id b) (e_id a) then 1 else 0)
    else e_createdAt a - e_createdAt b
  else e_nextAttemptAt a - e_nextAttemptAt b.

Definition lock_row (now : Z) (r : event_row) : event_row :=
  {| e_id := e_id r; e_tenantId := e_tenantId r; e_notificationType := e_notificationType r;
     e_sourceType := e_sourceType r; e_sourceId := e_sourceId r; e_eventVersion := e_eventVersion r;
     e_dedupeKey := e_dedupeKey r; e_occurredAt := e_occurredAt r; e_status := processing;
     e_attemptCount := e_attemptCount r + 1; e_nextAttemptAt := e_nextAttemptAt r;
     e_lockExpiresAt := Some (now + OUTBOX_LEASE_DURATION_MS); e_lastErrorCode := e_lastErrorCode r;
     e_safeReasonCode := e_safeReasonCode r; e_completedAt := e_completedAt r; e_createdAt := e_createdAt r |}.

(** [skip] are the rows another transaction holds locked (SKIP LOCKED). *)
(* src: packages/db/src/internal/family-notification-outbox-processor.ts:130-148 processFamilyNotificationOutboxBatch *)
Definition claim (batch : Z) (now : Z) (skip : list string) (t : table) : table * list ClaimedRow :=
  let due := List.filter (fun r => claimable now r && negb (includes skip (e_id r))) t in
  let picked := take (Z.to_nat batch) (js_sort claim_order due) in
  let ids := map e_id picked in
  (map (fun r => if includes ids (e_id r) then lock_row now r else r) t, map (lock_row now) picked).

Definition set_row (r : event_row) (st : Status) (next : Z) (lock : option Z) (err : option OutboxErrorCode)
    (safe : option OutboxSafeReason) (done : option Z) : event_row :=
  {| e_id := e_id r; e_tenantId := e_tenantId r; e_notificationType := e_notificationType r;
     e_sourceType := e_sourceType r; e_sourceId := e_sourceId r; e_eventVersion := e_eventVersion r;
     e_dedupeKey := e_dedupeKey r; e_occurredAt := e_occurredAt r; e_status := st;
     e_attemptCount := e_attemptCount r; e_nextAttemptAt := next; e_lockExpiresAt := lock;
     e_lastErrorCode := err; e_safeReasonCode := safe; e_completedAt := done; e_createdAt := e_createdAt r |}.

(** What the outcome of [ev] writes to its row. *)
(* src: packages/db/src/internal/family-notification-outbox-processor.ts:154-191 processFamilyNotificationOutboxBatch *)
Definition settle_row (ev : ClaimedRow) (o : Outcome) (now : Z) (r : event_row) : event_row :=
  let attempts := e_attemptCount ev in
  match o with
  | Completed safe _ _ _ => set_row r completed (e_nextAttemptAt r) None None (Some safe) (Some now)
  | AuthorizationPending =>
      set_row r pending (now + outboxReadinessDelayMs attempts) None (Some authorization_pending_code)
        (e_safeReasonCode r) (e_completedAt r)
  | Retry code =>
      if attempts <? OUTBOX_MAX_ATTEMPTS
      then set_row r pending (now + outboxRetryDelayMs attempts) None (Some code) (e_safeReasonCode r) (e_completedAt r)
      else set_row r dead_letter (e_nextAttemptAt r) None (Some max_attempts_exceeded) (e_safeReasonCode r) (e_completedAt r)
  | DeadLetter code =>
      set_row r dead_letter (e_nextAttemptAt r) None (Some code) (e_safeReasonCode r) (e_completedAt r)
  end.

(** The update names the row by id and tenant only. *)
(* src: packages/db/src/internal/family-notification-outbox-processor.ts:159-190 processFamilyNotificationOutboxBatch *)
Definition settle (ev : ClaimedRow) (o : Outcome) (now : Z) (t : table) : table :=
  map (fun r => if (e_id r =s e_id ev) && (e_tenantId r =s e_tenantId ev) then settle_row ev o now r else r) t.

(* src: packages/db/src/internal/family-notification-outbox-processor.ts:154-185 processFamilyNotificationOutboxBatch *)
Definition tally (ev : ClaimedRow) (o : Outcome) (a : ProcessOutboxResult) : ProcessOutboxResult :=
  let bump c r d n u z p :=
    {| p_claimed := p_claimed a; p_completed := p_completed a + c; p_retried := p_retried a + r;
       p_dead_letter := p_dead_letter a + d; p_notifications_created := p_notifications_created a + n;
       p_duplicates := p_duplicates a + u; p_no_recipients := p_no_recipients a + z;
       p_authorization_pending := p_authorization_pending a + p |} in
  match o with
  | Completed _ created dups nr => bump 1 0 0 created dups (if nr then 1 else 0) 0
  | AuthorizationPending => bump 0 0 0 0 0 0 1
  | Retry _ => if e_attemptCount ev <? OUTBOX_MAX_ATTEMPTS then bump 0 1 0 0 0 0 0 else bump 0 0 1 0 0 0 0
  | DeadLetter _ => bump 0 0 1 0 0 0 0
  end.

Section Batch.
Context {World : Type}
  (createFn : World -> string -> AuthorizationSource -> Z -> World * outcome CreationResult string).

Fixpoint process_all (evs : list ClaimedRow) (now : Z) (w : World) (t : table) (a : ProcessOutboxResult)
  : World * table * ProcessOutboxResult :=
  match evs with
  | [] => (w, t, a)
  | ev :: rest =>
      let '(w', o) := processOne createFn ev now w in
      process_all rest now w' (settle ev o now t) (tally ev o a)
  end.

(* src: packages/db/src/internal/family-notification-outbox-processor.ts:123-195 processFamilyNotificationOutboxBatch *)
Definition processFamilyNotificationOutboxBatch (batchSize : option Z) (now : Z) (skip : list string)
    (w : World) (t : table) : World * table * ProcessOutboxResult :=
  let '(t1, claimed) := claim (boundBatch batchSize) now skip t in
  process_all claimed now w t1
    {| p_claimed := Z.of_nat (length claimed); p_completed := 0; p_retried := 0; p_dead_letter := 0;
       p_notifications_created := 0; p_duplicates := 0; p_no_recipients := 0; p_authorization_pending := 0 |}.
End Batch.

(** * Health *)

(* src: packages/db/src/internal/family-notification-outbox-processor.ts:249-249 OutboxAgeBucket *)
Inductive OutboxAgeBucket := none | lt_1m | lt_1h | lt_1d | gte_1d.

(* src: packages/db/src/internal/family-notification-outbox-processor.ts:250-257 OutboxHealth *)
Record OutboxHealth := {
  h_pending : Z; h_processing : Z; h_lease_expired : Z; h_retry_due : Z; h_dead_letter : Z;
  oldestPendingAgeBucket : OutboxAgeBucket
}.

(* src: packages/db/src/internal/family-notification-outbox-processor.ts:259-266 ageBucket *)
Definition ageBucket (oldest : option Z) (now : Z) : OutboxAgeBucket :=
  match oldest with
  | None => none
  | Some o =>
      let ms := now - o in
      if ms <? 60000 then lt_1m else if ms <? 3600000 then lt_1h
      else if ms <? 86400000 then lt_1d else gte_1d
  end.

Definition count (p : event_row -> bool) (t : table) : Z := Z.of_nat (length (List.filter p t)).
Definition has_status (s : Status) (r : event_row) : bool := bool_decide (e_status r = s).

(** [lockExpiresAt >= now] and [< now] are both false on a null. *)
Definition lock_ge (now : Z) (r : event_row) : bool := match e_lockExpiresAt r with Some l => now <=? l | None => false end.
Definition lock_lt (now : Z) (r : event_row) : bool := match e_lockExpiresAt r with Some l => l <? now | None => false end.

(* src: packages/db/src/internal/family-notification-outbox-processor.ts:268-278 getFamilyNotificationOutboxHealth *)
Definition getFamilyNotificationOutboxHealth (now : Z) (t : table) : OutboxHealth :=
  let oldest := head (js_sort (fun a b => e_createdAt a - e_createdAt b) (List.filter (has_status pending) t)) in
  {| h_pending := count (has_status pending) t;
     h_processing := count (fun r => has_status processing r && lock_ge now r) t;
     h_lease_expired := count (fun r => has_status processing r && lock_lt now r) t;
     h_retry_due := count (fun r => has_status pending r && (e_nextAttemptAt r <=? now)) t;
     h_dead_letter := count (has_status dead_letter) t;
     oldestPendingAgeBucket := ageBucket (option_map e_createdAt oldest) now |}.


(** * Delays *)

Lemma pow_mono a b : a <= b -> 2 ^ (Z.max 1 a - 1) <= 2 ^ (Z.max 1 b - 1).
Proof. intros H. apply Z.pow_le_mono_r; lia. Qed.

(** Backoff is bounded and grows: both delays lie between their base and
    their ceiling whatever the attempt count, never decrease with it, start at
    the base, and double until the ceiling is reached. *)
Theorem outbox_delays_bounded (n : Z) :
  OUTBOX_BASE_RETRY_DELAY_MS <= outboxRetryDelayMs n <= OUTBOX_MAX_RETRY_DELAY_MS /\
  OUTBOX_READINESS_BASE_DELAY_MS <= outboxReadinessDelayMs n <= OUTBOX_READINESS_MAX_DELAY_MS /\
  outboxRetryDelayMs n <= outboxRetryDelayMs (n + 1) /\
  outboxReadinessDelayMs n <= outboxReadinessDelayMs (n + 1) /\
  (1 <= n -> outboxRetryDelayMs (n + 1) = Z.min OUTBOX_MAX_RETRY_DELAY_MS (2 * outboxRetryDelayMs n) /\
             outboxReadinessDelayMs (n + 1) = Z.min OUTBOX_READINESS_MAX_DELAY_MS (2 * outboxReadinessDelayMs n)).
Proof.
  unfold outboxRetryDelayMs, outboxReadinessDelayMs, OUTBOX_BASE_RETRY_DELAY_MS, OUTBOX_MAX_RETRY_DELAY_MS,
    OUTBOX_READINESS_BASE_DELAY_MS, OUTBOX_READINESS_MAX_DELAY_MS.
  pose proof (pow_mono n (n + 1) ltac:(lia)) as Hm.
  assert (H1 : 1 <= 2 ^ (Z.max 1 n - 1)).
  { change 1 with (2 ^ 0) at 1. apply Z.pow_le_mono_r; lia. }
  do 4 (split; [lia|]). intros Hn.
  assert (Hd : 2 ^ (Z.max 1 (n + 1) - 1) = 2 * 2 ^ (Z.max 1 n - 1)).
  { rewrite <- Z.pow_succ_r by lia. f_equal. lia. }
  rewrite Hd. lia.
Qed.

Lemma outbox_delays_bounded_witness :
  outboxRetryDelayMs 2 = Z.min 3600000 (2 * outboxRetryDelayMs 1).
Proof. destruct (outbox_delays_bounded 1) as (_ & _ & _ & _ & H). exact (proj1 (H ltac:(lia))). Defined.

(** * Event versions *)

Lemma str_app_cons' c (a b : string) : String c a +:+ b = String c (a +:+ b).
Proof. done. Qed.

Lemma startsWith_app p s : startsWith p (p +:+ s) = true.
Proof. induction p as [|c p IH]; [done|]. rewrite str_app_cons'. simpl. by rewrite Ascii.eqb_refl. Qed.

Lemma str_drop_app p s : str_drop (String.length p) (p +:+ s) = s.
Proof. induction p as [|c p IH]; [done|]. rewrite str_app_cons'. simpl. done. Qed.

Lemma digits_of_uint u : str_forallb is_digit (NilEmpty.string_of_uint u) = true.
Proof. induction u; simpl; auto. Qed.

Lemma length_of_uint u : String.length (NilEmpty.string_of_uint u) = Decimal.nb_digits u.
Proof. induction u; simpl; auto. Qed.

Lemma to_uint_nonnil n : N.to_uint n <> Decimal.Nil.
Proof.
  destruct n as [|p]; [done|]. intros H. pose proof (DecimalN.Unsigned.of_to (N.pos p)) as Ho.
  rewrite H in Ho. done.
Qed.

Lemma nil_zero u : u <> Decimal.Nil -> NilZero.string_of_uint u = NilEmpty.string_of_uint u.
Proof. by destruct u. Qed.

Lemma string_of_int_digits n : 0 <= n ->
  str_forallb is_digit (string_of_int n) = true /\ number_of_digits (string_of_int n) = n /\
  String.length (string_of_int n) = Decimal.nb_digits (N.to_uint (Z.to_N n)).
Proof.
  intros Hn. unfold string_of_int. replace (n <? 0) with false by lia.
  pose proof (to_uint_nonnil (Z.to_N n)) as Hnn. split; [|split].
  - rewrite nil_zero by done. apply digits_of_uint.
  - unfold number_of_digits. rewrite NilZero.usu by done. rewrite DecimalN.Unsigned.of_to. lia.
  - rewrite nil_zero by done. apply length_of_uint.
Qed.

(** A decimal representation as short as its value allows. *)
Lemma of_uint_acc_lower u acc :
  (N.pos acc * 10 ^ N.of_nat (Decimal.nb_digits u) <= N.pos (Pos.of_uint_acc u acc))%N.
Proof.
  revert acc. induction u as [|u IH|u IH|u IH|u IH|u IH|u IH|u IH|u IH|u IH|u IH]; intros acc;
    cbn [Pos.of_uint_acc Decimal.nb_digits]; [change (10 ^ N.of_nat 0)%N with 1%N; lia|..];
    rewrite Nat2N.inj_succ, N.pow_succ_r';
    match goal with |- context [Pos.of_uint_acc u ?a] => pose proof (IH a) end; nia.
Qed.

Lemma nb_digits_bound n k : (0 < n < 10 ^ N.of_nat k)%N -> (Decimal.nb_digits (N.to_uint n) <= k)%nat.
Proof.
  intros [Hpos Hlt]. pose proof (DecimalN.Unsigned.of_to n) as Hof.
  pose proof (DecimalN.Unsigned.to_of (N.to_uint n)) as Hnorm. rewrite Hof in Hnorm.
  assert (Hgo : forall c u, (N.pos (Pos.of_uint_acc u c) < 10 ^ N.of_nat k)%N -> (S (Decimal.nb_digits u) <= k)%nat).
  { intros c u Hu. pose proof (of_uint_acc_lower u c).
    assert (Hp : (10 ^ N.of_nat (Decimal.nb_digits u) < 10 ^ N.of_nat k)%N) by nia.
    apply N.pow_lt_mono_r_iff in Hp; lia. }
  destruct (N.to_uint n) as [|u|u|u|u|u|u|u|u|u|u] eqn:Hd; [by rewrite <- Hof in Hpos| |
    rewrite <- Hof in Hlt; by apply (Hgo _ u Hlt) ..].
  exfalso. assert (u = Decimal.Nil \/ u <> Decimal.Nil) as [->|Hu]
    by (destruct u; auto; right; discriminate); [by rewrite <- Hof in Hpos|].
  pose proof (DecimalFacts.nb_digits_unorm u Hu) as Hle.
  assert (Hun : Decimal.unorm (Decimal.D0 u) = Decimal.unorm u) by (by destruct u).
  rewrite Hun in Hnorm. apply (f_equal Decimal.nb_digits) in Hnorm. simpl in Hnorm. lia.
Qed.

Lemma length_string_of_int n : 0 <= n < 10 ^ 15 -> 1 <= str_len (string_of_int n) <= 15.
Proof.
  intros Hn. destruct (string_of_int_digits n) as (_ & _ & Hl); [lia|]. unfold str_len. rewrite Hl.
  destruct (decide (n = 0)) as [->|Hnz]; [vm_compute; split; discriminate|].
  pose proof (nb_digits_bound (Z.to_N n) 15) as Hb.
  change (10 ^ N.of_nat 15)%N with (1000000000000000)%N in Hb.
  change (10 ^ 15) with 1000000000000000 in Hn.
  specialize (Hb ltac:(lia)).
  destruct (Decimal.nb_digits (N.to_uint (Z.to_N n))) eqn:Hd; [|lia].
  apply DecimalFacts.nb_digits_0 in Hd. by apply to_uint_nonnil in Hd.
Qed.

Lemma parse_expiring_version p ms : 0 <= ms < 10 ^ 15 -> parseExpiringEventVersion p (p +:+ string_of_int ms) = Some ms.
Proof.
  intros Hms. destruct (string_of_int_digits ms) as (Hd & Hn & _); [lia|].
  pose proof (length_string_of_int ms Hms) as Hl.
  unfold parseExpiringEventVersion. rewrite startsWith_app, str_drop_app. cbn [negb].
  rewrite Hd. unfold between.
  replace ((1 <=? str_len (string_of_int ms)) && (str_len (string_of_int ms) <=? 15)) with true by lia.
  cbn [negb andb]. rewrite Hn.
  assert (ms <= MAX_SAFE_INTEGER) by (change MAX_SAFE_INTEGER with 9007199254740991; change (10^15) with 1000000000000000 in Hms; lia).
  by replace (ms <=? MAX_SAFE_INTEGER) with true by lia.
Qed.

(** The expiry marker reads back: for every instant a date can hold from the
    epoch to the year 33658, parsing the version made from it gives the instant;
    a version parses as an invitation's or as a consent's, never as both; and
    whatever text is parsed, the result is a safe integer. *)
Theorem expiring_version_roundtrip (ms : Z) :
  0 <= ms < 10 ^ 15 ->
  parseInvitationExpiringEventVersion (invitationExpiringEventVersion ms) = Some ms /\
  parseConsentExpiringEventVersion (consentExpiringEventVersion ms) = Some ms /\
  parseConsentExpiringEventVersion (invitationExpiringEventVersion ms) = None /\
  parseInvitationExpiringEventVersion (consentExpiringEventVersion ms) = None /\
  (forall prefix s n, parseExpiringEventVersion prefix s = Some n -> n <= MAX_SAFE_INTEGER).
Proof.
  intros Hms. split; [by apply parse_expiring_version|]. split; [by apply parse_expiring_version|]. split; [done|]. split; [done|].
  intros prefix s n. unfold parseExpiringEventVersion. destruct (negb _); [done|]. destruct (negb _); [done|].
  destruct (Z.leb_spec (number_of_digits (str_drop (String.length prefix) s)) MAX_SAFE_INTEGER); [|done].
  by intros [= <-].
Qed.

Lemma expiring_version_roundtrip_witness :
  parseInvitationExpiringEventVersion "invitation-expiring:v1:1700000000000" = Some 1700000000000.
Proof. refine (proj1 (expiring_version_roundtrip 1700000000000 _)). lia. Defined.

(** * The dedupe key *)

Definition bar_free (s : string) : bool := str_forallb (fun c => negb (Ascii.eqb c "|")) s.

Lemma escape_bar_free s : bar_free s = true -> escape_bars s = s.
Proof.
  unfold bar_free. induction s as [|c s IH]; simpl; [done|].
  destruct (Ascii.eqb c "|"); simpl; [done|]. intros H. by rewrite IH.
Qed.

Lemma split_first_bar a a' r r' : bar_free a = true -> bar_free a' = true ->
  a +:+ String "|" r = a' +:+ String "|" r' -> a = a' /\ r = r'.
Proof. apply (split_first "|"). Qed.

Lemma bar_free_app a b : bar_free (a +:+ b) = bar_free a && bar_free b.
Proof.
  unfold bar_free. induction a as [|c a IH]; [done|]. rewrite str_app_cons'. simpl. rewrite IH.
  by rewrite andb_assoc.
Qed.

Lemma split_last_bar a a' r r' : bar_free r = true -> bar_free r' = true ->
  a +:+ String "|" r = a' +:+ String "|" r' -> a = a' /\ r = r'.
Proof.
  intros Hr Hr'. revert a'. induction a as [|c a IH]; intros [|c' a']; rewrite ?str_app_cons'.
  - by intros [= ->].
  - intros [= <- H]. exfalso. rewrite H, bar_free_app in Hr. by rewrite andb_false_r in Hr.
  - intros [= -> H]. exfalso. rewrite <- H, bar_free_app in Hr'. by rewrite andb_false_r in Hr'.
  - intros [= -> H]. by destruct (IH a' H) as [-> ->].
Qed.

Lemma escape_no_bar_head s r : escape_bars s <> String "|" r.
Proof.
  destruct s as [|c s]; simpl; [done|]. destruct (Ascii.eqb_spec c "|") as [->|]; [done|]. congruence.
Qed.

Lemma escape_bars_inj s s' : escape_bars s = escape_bars s' -> s = s'.
Proof.
  revert s'. induction s as [|c s IH]; intros [|c' s']; simpl; [done| | |].
  1, 2: destruct (Ascii.eqb _ "|"); done.
  destruct (Ascii.eqb_spec c "|") as [->|Hc], (Ascii.eqb_spec c' "|") as [->|Hc'].
  - intros [= H]. by rewrite (IH s').
  - intros [= <- H]. symmetry in H. by apply escape_no_bar_head in H.
  - intros [= -> H]. by apply escape_no_bar_head in H.
  - intros [= -> H]. by rewrite (IH s').
Qed.

Lemma version_bar_free s : event_version_ok s = true -> bar_free s = true.
Proof.
  unfold event_version_ok. intros [_ H]%andb_true_iff. unfold bar_free.
  induction s as [|c s IH]; simpl in *; [done|]. apply andb_true_iff in H as [Hc Hs].
  rewrite IH by done. destruct (Ascii.eqb_spec c "|") as [->|]; [done|done].
Qed.

Lemma type_bar_free (t : EnqueueableOutboxType) :
  bar_free (js_name t) = true /\ bar_free (js_name (fst (OUTBOX_TYPE_SOURCE t))) = true.
Proof. by destruct t. Qed.

(** The dedupe identity is unambiguous: over tenant ids without a bar, the
    text hashed for the key determines the tenant, the notification type, the
    source id, whatever characters it holds, and the event version; the join of
    the five parts never makes two different transitions coincide. *)
Theorem dedupe_canonical_injective (tn tn' sid sid' ev ev' : string) (t t' : EnqueueableOutboxType) :
  bar_free tn = true -> bar_free tn' = true -> event_version_ok ev = true -> event_version_ok ev' = true ->
  dedupe_canonical tn (js_name t) (js_name (fst (OUTBOX_TYPE_SOURCE t))) sid ev =
  dedupe_canonical tn' (js_name t') (js_name (fst (OUTBOX_TYPE_SOURCE t'))) sid' ev' ->
  tn = tn' /\ t = t' /\ sid = sid' /\ ev = ev'.
Proof.
  intros Htn Htn' Hev%version_bar_free Hev'%version_bar_free.
  destruct (type_bar_free t) as [H1 H2], (type_bar_free t') as [H1' H2'].
  unfold dedupe_canonical. cbn [map].
  rewrite !(escape_bar_free tn), !(escape_bar_free tn'), !(escape_bar_free (js_name _)),
    !(escape_bar_free ev), !(escape_bar_free ev') by done.
  cbn [String.concat]. intros H.
  apply split_first_bar in H as [-> H]; [|done|done].
  apply split_first_bar in H as [Ht H]; [|done|done].
  apply split_first_bar in H as [_ H]; [|done|done].
  apply split_last_bar in H as [Hs ->]; [|done|done].
  apply escape_bars_inj in Hs as ->. apply js_name_inj in Ht as ->. done.
Qed.

Lemma dedupe_canonical_injective_witness : "d|1" = "d|1" /\ "v1" = "v1".
Proof.
  destruct (dedupe_canonical_injective "t1" "t1" "d|1" "d|1" "v1" "v1" family_delivery_available
    family_delivery_available eq_refl eq_refl eq_refl eq_refl eq_refl) as (_ & _ & H1 & H2).
  split; [exact H1|exact H2].
Defined.

(** * Enqueue *)

Lemma enqueue_Ret sha nid now input t t' r :
  enqueueFamilyNotificationOutboxEventTx sha nid now input t = (t', Ret r) ->
  exists ty sid row, notificationType input = js_name ty /\ event_version_ok (eventVersion input) = true /\
    map_get (source input) (snd (OUTBOX_TYPE_SOURCE ty)) = Some sid /\ nonempty sid = true /\
    e_notificationType row = notificationType input /\ e_sourceType row = js_name (fst (OUTBOX_TYPE_SOURCE ty)) /\
    e_sourceId row = sid /\ e_eventVersion row = eventVersion input /\ e_occurredAt row = occurredAt input /\
    e_status row = pending /\ e_attemptCount row = 0 /\ e_id row = nid /\ e_tenantId row = tenantId input /\
    let key := familyNotificationOutboxDedupeKey sha (tenantId input) (notificationType input)
                 (js_name (fst (OUTBOX_TYPE_SOURCE ty))) sid (eventVersion input) in
    e_dedupeKey row = key /\
    t' = (if enqueued r then t ++ [row] else t) /\
    enqueued r = negb (existsb (same_key (tenantId input) key) t) /\ duplicate r = negb (enqueued r) /\
    outboxEventId r = option_map e_id (List.find (same_key (tenantId input) key) t').
Proof.
  unfold enqueueFamilyNotificationOutboxEventTx, lookup_mapping.
  destruct (parse (notificationType input)) as [ty|] eqn:Hp.
  2:{ destruct (includes _ _); [|done]. destruct (negb _); [done|]. by destruct (truthy _). }
  apply parse_Some in Hp. destruct (event_version_ok _) eqn:Hev; [|done]. cbn [negb].
  destruct (map_get (source input) _) as [sid|] eqn:Hs; [|done].
  destruct (nonempty sid) eqn:Hne; cbn [truthy negb]; rewrite ?Hne; cbn [negb]; [|done].
  intros [= <- <-]. exists ty, sid.
  exists (new_row nid now input (js_name (fst (OUTBOX_TYPE_SOURCE ty))) sid
    (familyNotificationOutboxDedupeKey sha (tenantId input) (notificationType input)
       (js_name (fst (OUTBOX_TYPE_SOURCE ty))) sid (eventVersion input))).
  do 3 (split; [done|]). split; [exact Hne|].
  do 9 (split; [reflexivity|]). do 3 (split; [reflexivity|]). split; reflexivity.
Qed.

Lemma find_existsb {A} (p : A -> bool) l : existsb p l = true -> exists x, List.find p l = Some x.
Proof.
  induction l as [|x l IH]; simpl; [done|]. destruct (p x); simpl; eauto.
Qed.

(** Enqueue is idempotent: once an event is in, enqueueing the same
    transition again, whenever and however often, adds no row, reports a
    duplicate and names the same event; and an accepted enqueue adds at most one
    row, immediately due, with no attempt spent. *)
Theorem enqueue_idempotent (sha : string -> string) (nid nid' : string) (now now' : Z)
    (input : EnqueueableFamilyOutboxInput) (t t1 : table) (r : EnqueueOutboxResult) :
  enqueueFamilyNotificationOutboxEventTx sha nid now input t = (t1, Ret r) ->
  enqueueFamilyNotificationOutboxEventTx sha nid' now' input t1 =
    (t1, Ret {| enqueued := false; duplicate := true; outboxEventId := outboxEventId r |}) /\
  (t1 = t \/ exists row, t1 = t ++ [row] /\ outboxEventId r = Some (e_id row) /\ e_status row = pending /\
     e_attemptCount row = 0 /\ e_nextAttemptAt row = occurredAt input).
Proof.
  intros H. pose proof H as H'. unfold enqueueFamilyNotificationOutboxEventTx in *.
  destruct (lookup_mapping (notificationType input)) as [ty| |]; [| |done].
  2:{ destruct (negb _); [done|]. by destruct (truthy _). }
  destruct (negb (event_version_ok _)); [done|]. destruct (negb (truthy _)); [done|].
  set (p := same_key _ _) in *.
  set (row := new_row _ _ _ _ _ _) in H.
  assert (Hself : p row = true) by (unfold p, same_key; simpl; by rewrite !String.eqb_refl).
  clear H'. injection H as Ht <-. destruct (existsb p t) eqn:He; cbn [negb] in *.
  - subst t1. rewrite He. cbn [negb outboxEventId]. split; [done|by left].
  - assert (Hex : existsb p t1 = true) by (rewrite <- Ht, existsb_app; simpl; by rewrite Hself, orb_true_r).
    rewrite Hex. cbn [negb outboxEventId]. rewrite Ht. split; [done|]. right. exists row. split; [done|].
    split; [|done]. rewrite <- Ht. clear - He Hself. induction t as [|x t IH]; simpl in *; [by rewrite Hself|].
    destruct (p x); [done|]. apply IH. done.
Qed.

Definition demo_input : EnqueueableFamilyOutboxInput :=
  {| tenantId := "t1"; notificationType := "family_signal_available"; source := [("safetySignalId", "s1")];
     eventVersion := "v1"; occurredAt := 0 |}.

Definition demo_row (st : Status) (attempts next : Z) (lock : option Z) : event_row :=
  {| e_id := "e1"; e_tenantId := "t1"; e_notificationType := "family_signal_available";
     e_sourceType := "safety_signal"; e_sourceId := "s1"; e_eventVersion := "v1";
     e_dedupeKey := "t1|family_signal_available|safety_signal|s1|v1"; e_occurredAt := 0; e_status := st;
     e_attemptCount := attempts; e_nextAttemptAt := next; e_lockExpiresAt := lock; e_lastErrorCode := None;
     e_safeReasonCode := None; e_completedAt := None; e_createdAt := 0 |}.

Lemma enqueue_idempotent_witness :
  enqueueFamilyNotificationOutboxEventTx (fun s => s) "e2" 9 demo_input [demo_row pending 0 0 None] =
  ([demo_row pending 0 0 None], Ret {| enqueued := false; duplicate := true; outboxEventId := Some "e1" |}).
Proof.
  exact (proj1 (enqueue_idempotent (fun s => s) "e1" "e2" 0 9 demo_input [] [demo_row pending 0 0 None]
    {| enqueued := true; duplicate := false; outboxEventId := Some "e1" |} eq_refl)).
Defined.

(** Enqueue and processing agree on the routing: every row an accepted
    enqueue adds is understood by the processor, which hands the kernel the same
    type, the source id the caller supplied under the field the map names, and the
    same version; such a row is never dead-lettered as malformed. *)
Theorem enqueued_event_is_processable (sha : string -> string) (nid : string) (now : Z)
    (input : EnqueueableFamilyOutboxInput) (t : table) (row : event_row) (r : EnqueueOutboxResult) :
  enqueueFamilyNotificationOutboxEventTx sha nid now input t = (t ++ [row], Ret r) ->
  exists ty src, notificationType input = js_name ty /\
    buildAuthorizationSource row = Some src /\ s_type src = ty /\ s_idKey src = snd (OUTBOX_TYPE_SOURCE ty) /\
    map_get (source input) (s_idKey src) = Some (s_id src) /\ s_eventVersion src = eventVersion input /\
    (forall World (create : World -> string -> AuthorizationSource -> Z -> World * outcome CreationResult string) w now',
      processOne create row now' w =
        let '(w', res) := create w (tenantId input) src now' in (w', classify row res)).
Proof.
  intros H. apply enqueue_Ret in H as (ty & sid & row' & Hty & Hev & Hsid & Hne & R1 & R2 & R3 & R4 & R5 & _ & _ & _ & R6 & _ & Ht & _).
  assert (row = row') as <-.
  { destruct (enqueued r); [by apply app_inj_tail in Ht as [_ ->]|].
    apply (f_equal (@length _)) in Ht. rewrite length_app in Ht. simpl in Ht. lia. }
  assert (Hl : lookup_mapping (e_notificationType row) = Entry ty).
  { unfold lookup_mapping. by rewrite R1, Hty, parse_name. }
  assert (Hb : exists src, buildAuthorizationSource row = Some src /\ s_type src = ty /\
    s_idKey src = snd (OUTBOX_TYPE_SOURCE ty) /\ s_id src = sid /\ s_eventVersion src = eventVersion input).
  { unfold buildAuthorizationSource. rewrite Hl, R2, String.eqb_refl, R3, Hne. cbn [negb orb].
    eexists. split; [reflexivity|]. simpl. rewrite R4. split; [done|]. split; [|done]. by destruct ty. }
  destruct Hb as (src & Hb & Hst & Hk & Hid & Hv). exists ty, src. do 4 (split; [done|]).
  split; [by rewrite Hk, Hid|]. split; [done|]. intros World create w now'.
  unfold processOne. rewrite Hl, R4, Hev, Hb, R6. done.
Qed.

Lemma enqueued_event_is_processable_witness :
  exists ty src, "family_signal_available" = js_name ty /\
    buildAuthorizationSource (demo_row pending 0 0 None) = Some src /\ s_type src = ty.
Proof.
  destruct (enqueued_event_is_processable (fun s => s) "e1" 0 demo_input [] (demo_row pending 0 0 None)
    {| enqueued := true; duplicate := false; outboxEventId := Some "e1" |} eq_refl)
    as (ty & src & H1 & H2 & H3 & _).
  exists ty, src. split; [exact H1|]. split; [exact H2|exact H3].
Defined.

(** The authority a record confers: its level while verified. *)
Definition effective_authority (s : AuthoritySnapshot) : option (option string) :=
  if isAuthorityEffective (Some (authorityStatus s)) then Some (authorityLevel s) else None.

(** Material authority changes: an event is owed exactly when the effective
    authority differs: the granted level of a verified record, and nothing for
    any other record or for no record at all. *)
Theorem authority_change_material_iff (before : option AuthoritySnapshot) (after : AuthoritySnapshot) :
  isMaterialAuthorityChange before after = true <->
  obind before effective_authority <> effective_authority after.
Proof.
  assert (Hopt : forall a b, opt_eqb a b = true <-> a = b).
  { intros [a|] [b|]; simpl; rewrite ?String.eqb_eq; split; congruence. }
  unfold isMaterialAuthorityChange, effective_authority.
  destruct before as [b|]; cbn [obind];
    repeat match goal with |- context [isAuthorityEffective ?x] => destruct (isAuthorityEffective x) end;
    cbn [Bool.eqb negb andb]; try (split; congruence).
  pose proof (Hopt (authorityLevel b) (authorityLevel after)) as Ho.
  destruct (opt_eqb _ _); simpl; split; try congruence.
  - intros Hn. destruct Hn. f_equal. by apply Ho.
  - intros _ [= He]. apply Ho in He. done.
Qed.

End Outbox.
