(* ===== verification/OutboxRuns.v ===== *)
(** Runs of the family-notification outbox: what claims, settlements and whole
    batches of [Outbox] guarantee over time. *)
From S2P Require Import Prelude Outbox.
Open Scope string_scope.
Open Scope list_scope.
Open Scope Z_scope.
Open Scope tam_scope.

Module OutboxRuns.
Import Outbox.

Definition wf (t : table) : Prop := NoDup (map e_id t).

Lemma wf_unique t r r' : wf t -> In r t -> In r' t -> e_id r = e_id r' -> r = r'.
Proof. intros H. by apply (NoDup_map_inj_in e_id). Qed.

Definition due (now : Z) (skip : list string) (r : event_row) : bool :=
  claimable now r && negb (includes skip (e_id r)).

Definition picked (batch now : Z) (skip : list string) (t : table) : list event_row :=
  take (Z.to_nat batch) (js_sort claim_order (List.filter (due now skip) t)).

Lemma claim_eq batch now skip t : claim batch now skip t =
  (map (fun r => if includes (map e_id (picked batch now skip t)) (e_id r) then lock_row now r else r) t,
   map (lock_row now) (picked batch now skip t)).
Proof. done. Qed.

Lemma picked_due batch now skip t r : In r (picked batch now skip t) -> In r t /\ due now skip r = true.
Proof.
  intros Hr. apply (filter_In (due now skip)).
  apply (Permutation_in _ (js_sort_perm claim_order _)).
  rewrite <- (take_drop (Z.to_nat batch)). apply in_or_app. by left.
Qed.

Lemma NoDup_take {A} n (l : list A) : NoDup l -> NoDup (take n l).
Proof. intros H. rewrite <- (take_drop n l) in H. by apply NoDup_app in H as (H & _). Qed.

Lemma picked_NoDup batch now skip t : wf t -> NoDup (map e_id (picked batch now skip t)).
Proof.
  intros Hwf. unfold picked. rewrite <- firstn_map. apply NoDup_take.
  assert (Hp : Permutation (map e_id (js_sort claim_order (List.filter (due now skip) t)))
    (map e_id (List.filter (due now skip) t))) by apply Permutation_map, js_sort_perm.
  rewrite Hp. by apply NoDup_map_filter.
Qed.

(** The picked rows are the rows of the table with a picked id. *)
Lemma picked_length batch now skip t : wf t ->
  length (picked batch now skip t) = length (List.filter (fun r => includes (map e_id (picked batch now skip t)) (e_id r)) t).
Proof.
  intros Hwf. rewrite <- (length_map e_id (picked _ _ _ _)) at 1. rewrite <- (length_map e_id (List.filter _ _)).
  apply Permutation_length, NoDup_Permutation; [by apply picked_NoDup|by apply NoDup_map_filter|].
  intros x. rewrite !list_elem_of_In. split.
  - intros Hx. pose proof Hx as Hx'. apply in_map_iff in Hx as [r [<- Hr]].
    destruct (picked_due _ _ _ _ _ Hr) as [Hin _]. apply in_map, filter_In. split; [done|]. by apply includes_In.
  - intros (r & <- & Hr)%in_map_iff. apply filter_In in Hr as [_ Hr]. by apply includes_In in Hr.
Qed.

Lemma lock_row_id now r : e_id (lock_row now r) = e_id r. Proof. done. Qed.

Lemma claim_ids batch now skip t : map e_id (fst (claim batch now skip t)) = map e_id t.
Proof.
  rewrite claim_eq. cbn [fst]. rewrite map_map. apply map_ext. intros r. by destruct (includes _ _).
Qed.

Lemma settle_row_id ev o now r : e_id (settle_row ev o now r) = e_id r.
Proof. destruct o; simpl; try done. by destruct (_ <? _). Qed.

Lemma settle_ids ev o now t : map e_id (settle ev o now t) = map e_id t.
Proof.
  unfold settle. rewrite map_map. apply map_ext. intros r. destruct (_ && _); [apply settle_row_id|done].
Qed.

(** A row of the table after a claim: an untouched one, or a picked one locked. *)
Lemma In_claim batch now skip t r : wf t -> In r (fst (claim batch now skip t)) ->
  (In r t /\ ~ In (e_id r) (map e_id (picked batch now skip t))) \/
  In r (snd (claim batch now skip t)).
Proof.
  intros Hwf Hr. rewrite claim_eq in *. cbn [fst snd] in *. apply in_map_iff in Hr as [r0 [<- Hr0]].
  destruct (includes _ (e_id r0)) eqn:Hi.
  - right. apply includes_In, in_map_iff in Hi as [r1 [Hid Hr1]]. apply in_map.
    destruct (picked_due _ _ _ _ _ Hr1) as [Hr1' _]. by rewrite <- (wf_unique t r1 r0).
  - left. split; [done|]. intros Hin. apply includes_In in Hin. congruence.
Qed.

Lemma claimed_In batch now skip t ev : wf t -> In ev (snd (claim batch now skip t)) ->
  In ev (fst (claim batch now skip t)) /\
  exists r, ev = lock_row now r /\ In r t /\ due now skip r = true.
Proof.
  intros Hwf Hev. rewrite claim_eq in *. cbn [fst snd] in *. apply in_map_iff in Hev as [r [<- Hr]].
  destruct (picked_due _ _ _ _ _ Hr) as [Hin Hdue]. split; [|eauto].
  apply in_map_iff. exists r. split; [|done].
  assert (Hi : includes (map e_id (picked batch now skip t)) (e_id r) = true) by (apply includes_In; by apply in_map).
  by rewrite Hi.
Qed.

Definition lease_ok (r : event_row) : Prop := e_status r = processing -> e_lockExpiresAt r <> None.

(** Workers take disjoint rows: a claim takes no more rows than its batch,
    only rows that are due or whose lease ran out, never one that is completed or
    dead-lettered; and until the lease of a first claim has expired, no later
    claim takes any of the rows it took. *)
Theorem claims_disjoint (b1 b2 now1 now2 : Z) (skip1 skip2 : list string) (t : table) :
  wf t -> now2 <= now1 + OUTBOX_LEASE_DURATION_MS ->
  let '(t1, c1) := claim b1 now1 skip1 t in
  let '(t2, c2) := claim b2 now2 skip2 t1 in
  Z.of_nat (length c1) <= Z.max 0 b1 /\
  (forall ev, In ev c1 -> e_status ev = processing /\
     exists r, In r t /\ ev = lock_row now1 r /\
       ((e_status r = pending /\ e_nextAttemptAt r <= now1) \/
        (e_status r = processing /\ exists l, e_lockExpiresAt r = Some l /\ l < now1))) /\
  (forall ev, In ev c2 -> ~ In (e_id ev) (map e_id c1)).
Proof.
  intros Hwf Hnow. destruct (claim b1 now1 skip1 t) as [t1 c1] eqn:H1.
  destruct (claim b2 now2 skip2 t1) as [t2 c2] eqn:H2. split; [|split].
  - rewrite claim_eq in H1. injection H1 as <- <-. rewrite length_map. unfold picked. rewrite length_take. lia.
  - intros ev Hev. assert (Hev' : In ev (snd (claim b1 now1 skip1 t))) by (by rewrite H1).
    destruct (claimed_In _ _ _ _ _ Hwf Hev') as [_ (r & -> & Hr & Hd)]. split; [done|].
    exists r. split; [done|]. split; [done|]. unfold due, claimable in Hd. apply andb_true_iff in Hd as [Hd _].
    destruct (e_status r); [left; split; [done|lia]| |done|done].
    right. split; [done|]. destruct (e_lockExpiresAt r) as [l|]; [|done]. exists l. split; [done|lia].
  - intros ev Hev Hin. assert (Hwf1 : wf t1).
    { unfold wf. pose proof (claim_ids b1 now1 skip1 t) as Hids. rewrite H1 in Hids. simpl in Hids. by rewrite Hids. }
    assert (Hev' : In ev (snd (claim b2 now2 skip2 t1))) by (by rewrite H2).
    destruct (claimed_In _ _ _ _ _ Hwf1 Hev') as [_ (r & -> & Hr & Hd)].
    apply in_map_iff in Hin as [ev1 [Hid Hev1]].
    assert (Hev1' : In ev1 (snd (claim b1 now1 skip1 t))) by (by rewrite H1).
    destruct (claimed_In _ _ _ _ _ Hwf Hev1') as [Hin1 (r1 & -> & _ & _)]. rewrite H1 in Hin1. simpl in Hin1.
    rewrite lock_row_id in Hid. rewrite <- (wf_unique t1 _ r Hwf1 Hin1 Hr Hid) in Hd.
    unfold due, claimable in Hd. simpl in Hd. apply andb_true_iff in Hd as [Hd _]. lia.
Qed.

Lemma claims_disjoint_witness :
  length (snd (claim 5 0 [] [demo_row pending 0 0 None])) = 1%nat /\
  forall ev, In ev (snd (claim 5 10 [] (fst (claim 5 0 [] [demo_row pending 0 0 None])))) ->
  ~ In (e_id ev) (map e_id [demo_row processing 1 0 (Some 300000)]).
Proof.
  split; [reflexivity|]. exact (proj2 (proj2 (claims_disjoint 5 5 0 10 [] [] [demo_row pending 0 0 None]
    ltac:(repeat constructor; by apply not_elem_of_nil) ltac:(discriminate)))).
Defined.

(** * Batches *)

Section Runs.
Context {World : Type}
  (create : World -> string -> AuthorizationSource -> Z -> World * outcome CreationResult string).

Lemma processOne_pending ev now w : snd (processOne create ev now w) = AuthorizationPending ->
  e_attemptCount ev < OUTBOX_READINESS_MAX_ATTEMPTS.
Proof.
  unfold processOne.
  assert (Hc : forall res, classify ev res = AuthorizationPending -> e_attemptCount ev < OUTBOX_READINESS_MAX_ATTEMPTS).
  { intros [[el cr du|reason]|e]; simpl; try done.
    - destruct (el =? 0); [|done]. destruct (is_critical _); simpl; [|done].
      destruct (Z.ltb_spec (e_attemptCount ev) OUTBOX_READINESS_MAX_ATTEMPTS); done.
    - repeat (destruct (_ =s _); [done|]). done. }
  destruct (lookup_mapping _); try done.
  - destruct (negb _); [done|]. destruct (buildAuthorizationSource ev) as [src|]; [|done].
    destruct (create _ _ _ _) as [w' res]. simpl. apply Hc.
  - destruct (negb _); [done|]. destruct (buildAuthorizationSource ev) as [src|]; [|done].
    destruct (create _ _ _ _) as [w' res]. simpl. apply Hc.
Qed.

(** What a settled row looks like. *)
Lemma settle_row_status ev now w r : e_attemptCount r = e_attemptCount ev ->
  let r' := settle_row ev (snd (processOne create ev now w)) now r in
  e_attemptCount r' = e_attemptCount ev /\ e_status r' <> processing /\
  (e_status r' = pending -> e_attemptCount ev < OUTBOX_READINESS_MAX_ATTEMPTS /\ now < e_nextAttemptAt r').
Proof.
  intros Ha. pose proof (processOne_pending ev now w) as Hp.
  destruct (snd (processOne create ev now w)); simpl; try (by repeat split).
  - destruct (Z.ltb_spec (e_attemptCount ev) OUTBOX_MAX_ATTEMPTS); simpl; try (by repeat split).
    split; [done|]. split; [done|]. intros _. split; [unfold OUTBOX_MAX_ATTEMPTS, OUTBOX_READINESS_MAX_ATTEMPTS in *; lia|].
    pose proof (pow_mono 1 (e_attemptCount ev)) as Hm.
    assert (1 <= 2 ^ (Z.max 1 (e_attemptCount ev) - 1)).
    { change 1 with (2 ^ 0) at 1. apply Z.pow_le_mono_r; lia. }
    unfold outboxRetryDelayMs, OUTBOX_BASE_RETRY_DELAY_MS, OUTBOX_MAX_RETRY_DELAY_MS. lia.
  - split; [done|]. split; [done|]. intros _. split; [auto|].
    assert (1 <= 2 ^ (Z.max 1 (e_attemptCount ev) - 1)).
    { change 1 with (2 ^ 0) at 1. apply Z.pow_le_mono_r; lia. }
    unfold outboxReadinessDelayMs, OUTBOX_READINESS_BASE_DELAY_MS, OUTBOX_READINESS_MAX_DELAY_MS. lia.
Qed.

(** The table while a batch is being worked through: the claimed rows still to be
    settled are exactly the processing ones. *)
Record Working (evs : list ClaimedRow) (t : table) : Prop := {
  wk_wf : wf t;
  wk_evs : NoDup (map e_id evs);
  wk_in : forall ev, In ev evs -> In ev t /\ e_status ev = processing;
  wk_only : forall r, In r t -> e_status r = processing -> In r evs;
  wk_attempts : forall r, In r t -> 0 <= e_attemptCount r <= OUTBOX_READINESS_MAX_ATTEMPTS;
  wk_pending : forall r, In r t -> e_status r = pending -> e_attemptCount r < OUTBOX_READINESS_MAX_ATTEMPTS
}.

Lemma settle_working ev evs now w t : Working (ev :: evs) t ->
  Working evs (settle ev (snd (processOne create ev now w)) now t).
Proof.
  intros [Hwf Hnd Hin Honly Hatt Hpend]. apply NoDup_cons in Hnd as [Hev Hnd].
  destruct (Hin ev (or_introl eq_refl)) as [Hevt _].
  assert (Hrows : forall r, In r (settle ev (snd (processOne create ev now w)) now t) ->
    (r = settle_row ev (snd (processOne create ev now w)) now ev) \/ (In r t /\ e_id r <> e_id ev)).
  { intros r Hr. apply in_map_iff in Hr as [r0 [<- Hr0]].
    destruct (String.eqb_spec (e_id r0) (e_id ev)) as [He|He]; [|by right].
    rewrite (wf_unique t r0 ev Hwf Hr0 Hevt He). rewrite String.eqb_refl. by left. }
  pose proof (settle_row_status ev now w ev eq_refl) as (Hs1 & Hs2 & Hs3).
  split; [|done| | | |].
  - unfold wf. by rewrite settle_ids.
  - intros ev' Hev'. destruct (Hin ev' (or_intror Hev')) as [Ht Hst]. split; [|done].
    apply in_map_iff. exists ev'. split; [|done].
    destruct (String.eqb_spec (e_id ev') (e_id ev)) as [He|]; [|done].
    exfalso. apply Hev. rewrite <- He. apply list_elem_of_In. by apply in_map.
  - intros r Hr Hst. destruct (Hrows r Hr) as [->|[Hrt Hne]]; [done|].
    destruct (Honly r Hrt Hst) as [->|]; [done|done].
  - intros r Hr. destruct (Hrows r Hr) as [->|[Hrt _]]; [|auto]. rewrite Hs1. auto.
  - intros r Hr Hp. destruct (Hrows r Hr) as [->|[Hrt _]]; [|auto]. rewrite Hs1. by apply Hs3.
Qed.

Lemma process_all_working evs now : forall w t a, Working evs t ->
  Working [] (snd (fst (process_all create evs now w t a))).
Proof.
  induction evs as [|ev evs IH]; intros w t a Hw; cbn [process_all]; [done|].
  pose proof (settle_working ev evs now w t Hw) as Hs.
  destruct (processOne create ev now w) as [w' o]. by apply IH.
Qed.

Lemma claim_working batch now skip t : Working [] t ->
  Working (snd (claim batch now skip t)) (fst (claim batch now skip t)).
Proof.
  intros [Hwf _ _ Honly Hatt Hpend].
  assert (Hlocked : forall ev, In ev (snd (claim batch now skip t)) ->
    e_status ev = processing /\ 0 <= e_attemptCount ev <= OUTBOX_READINESS_MAX_ATTEMPTS).
  { intros ev Hev. destruct (claimed_In _ _ _ _ _ Hwf Hev) as [_ (r & -> & Hr & Hd)]. split; [done|]. simpl.
    unfold due, claimable in Hd. apply andb_true_iff in Hd as [Hd _]. pose proof (Hatt r Hr) as Ha.
    destruct (e_status r) eqn:Hst; [|by destruct (Honly r Hr Hst)|done|done].
    pose proof (Hpend r Hr Hst). lia. }
  split.
  - unfold wf. by rewrite claim_ids.
  - rewrite claim_eq. cbn [snd]. rewrite map_map. cbn [lock_row]. by apply (picked_NoDup batch now skip t).
  - intros ev Hev. destruct (claimed_In _ _ _ _ _ Hwf Hev) as [Hin _]. split; [done|]. by apply Hlocked.
  - intros r Hr Hst. destruct (In_claim _ _ _ _ _ Hwf Hr) as [[Hrt _]|]; [|done]. by destruct (Honly r Hrt Hst).
  - intros r Hr. destruct (In_claim _ _ _ _ _ Hwf Hr) as [[Hrt _]|Hc]; [auto|by apply Hlocked].
  - intros r Hr Hst. destruct (In_claim _ _ _ _ _ Hwf Hr) as [[Hrt _]|Hc]; [auto|].
    destruct (Hlocked r Hc) as [Hp _]. congruence.
Qed.

Lemma batch_working bs now skip w t : Working [] t ->
  Working [] (snd (fst (processFamilyNotificationOutboxBatch create bs now skip w t))).
Proof.
  intros Hw. unfold processFamilyNotificationOutboxBatch.
  pose proof (claim_working (boundBatch bs) now skip t Hw) as Hc.
  destruct (claim (boundBatch bs) now skip t) as [t1 evs]. by apply process_all_working.
Qed.

(** * Attempts spent *)

Definition attempts (t : table) : Z := fold_right (fun r n => e_attemptCount r + n) 0 t.

Lemma attempts_claim batch now skip t : wf t ->
  attempts (fst (claim batch now skip t)) = attempts t + Z.of_nat (length (snd (claim batch now skip t))).
Proof.
  intros Hwf. rewrite claim_eq. cbn [fst snd]. rewrite length_map, (picked_length _ _ _ _ Hwf). generalize (map e_id (picked batch now skip t)). clear. intros ids. induction t as [|r t IH]; [done|]. cbn [map attempts fold_right List.filter].
  destruct (includes ids (e_id r)); cbn [length e_attemptCount lock_row]; unfold attempts in *; lia.
Qed.

Lemma settle_attempts ev o now t : attempts (settle ev o now t) = attempts t.
Proof.
  unfold settle. induction t as [|r t IH]; [done|]. cbn [map attempts fold_right]. unfold attempts in IH. rewrite IH.
  f_equal. destruct (_ && _); [|done]. destruct o; simpl; try done. by destruct (_ <? _).
Qed.

Lemma process_all_attempts evs now : forall w t a,
  attempts (snd (fst (process_all create evs now w t a))) = attempts t /\
  length (snd (fst (process_all create evs now w t a))) = length t /\
  p_claimed (snd (process_all create evs now w t a)) = p_claimed a.
Proof.
  induction evs as [|ev evs IH]; intros w t a; cbn [process_all]; [done|].
  destruct (processOne create ev now w) as [w' o].
  destruct (IH w' (settle ev o now t) (tally ev o a)) as (-> & -> & ->).
  split; [apply settle_attempts|]. split; [unfold settle; apply length_map|].
  destruct o; simpl; try done. by destruct (_ <? _).
Qed.

Lemma process_all_ids evs now : forall w t a, map e_id (snd (fst (process_all create evs now w t a))) = map e_id t.
Proof.
  induction evs as [|ev evs IH]; intros w t a; cbn [process_all]; [done|]. destruct (processOne create ev now w) as [w' o].
  rewrite IH. apply settle_ids.
Qed.

Lemma batch_attempts bs now skip w t : wf t ->
  attempts (snd (fst (processFamilyNotificationOutboxBatch create bs now skip w t))) =
    attempts t + p_claimed (snd (processFamilyNotificationOutboxBatch create bs now skip w t)) /\
  length (snd (fst (processFamilyNotificationOutboxBatch create bs now skip w t))) = length t.
Proof.
  intros Hwf. unfold processFamilyNotificationOutboxBatch.
  pose proof (attempts_claim (boundBatch bs) now skip t Hwf) as Ha.
  assert (Hl : length (fst (claim (boundBatch bs) now skip t)) = length t) by (rewrite claim_eq; apply length_map).
  destruct (claim (boundBatch bs) now skip t) as [t1 evs]. cbn [fst snd] in *.
  match goal with |- context [process_all _ _ _ _ _ ?a] =>
    destruct (process_all_attempts evs now w t1 a) as (-> & -> & ->) end.
  simpl. by split.
Qed.

(** The life of the table under one worker: batches, each with its own options, at its own time and passing over its own rows, and between them
    the enqueues of any writer, refused by the primary key where the id exists. *)
Inductive turn := Deliver (size : option Z) (now : Z) (skip : list string) | Arrive (sha256 : string -> string) (newId : string) (now : Z) (input : EnqueueableFamilyOutboxInput).
Definition arrive (sha256 : string -> string) (newId : string) (now : Z) (input : EnqueueableFamilyOutboxInput) (t : table) : table :=
  if includes (map e_id t) newId then t else fst (enqueueFamilyNotificationOutboxEventTx sha256 newId now input t).
Fixpoint run (ts : list turn) (w : World) (t : table) : World * table * Z :=
  match ts with
  | [] => (w, t, 0)
  | Deliver size now skip :: rest =>
      let '(w1, t1, res) := processFamilyNotificationOutboxBatch create size now skip w t in
      let '(w2, t2, n) := run rest w1 t1 in (w2, t2, p_claimed res + n)
  | Arrive sha256 newId now input :: rest => run rest w (arrive sha256 newId now input t)
  end.

Lemma arrive_cases sha256 newId now input t : arrive sha256 newId now input t = t \/
  exists r, arrive sha256 newId now input t = t ++ [r] /\ ~ In (e_id r) (map e_id t) /\ e_status r = pending /\ e_attemptCount r = 0.
Proof.
  unfold arrive. destruct (includes (map e_id t) newId) eqn:Hi; [by left|].
  unfold enqueueFamilyNotificationOutboxEventTx. repeat (match goal with |- context [match ?x with _ => _ end] => destruct x end; try by left).
  all: right; eexists; (split; [reflexivity|]); (split; [|done]); cbn [e_id new_row]; intros Hin; apply includes_In in Hin; congruence.
Qed.
Lemma arrive_working sha256 newId now input t : Working [] t -> Working [] (arrive sha256 newId now input t) /\ attempts (arrive sha256 newId now input t) = attempts t.
Proof.
  intros Hw. destruct (arrive_cases sha256 newId now input t) as [-> | (r & -> & Hid & Hst & Hat)]; [done|]. destruct Hw as [Hwf _ _ Honly Hatt Hpend]. split.
  - assert (Hlast : forall x, In x (t ++ [r]) -> In x t \/ x = r) by (intros x [Hx|[<-|[]]]%in_app_iff; [by left|by right]).
    split; [|constructor|done| | |].
    + unfold wf. rewrite map_app. apply NoDup_app. split; [done|]. split; [|apply NoDup_singleton]. intros i Hi ->%list_elem_of_singleton. by apply Hid, list_elem_of_In.
    + intros x [Hx| ->]%Hlast Hp; [by destruct (Honly x Hx Hp)|congruence].
    + intros x [Hx| ->]%Hlast; [auto|]. rewrite Hat. by compute.
    + intros x [Hx| ->]%Hlast Hp; [auto|]. rewrite Hat. by compute.
  - unfold attempts. rewrite foldr_app. cbn [foldr fold_right]. rewrite Hat. done.
Qed.
Lemma run_spec ts : forall w t, Working [] t -> Working [] (snd (fst (run ts w t))) /\ attempts (snd (fst (run ts w t))) = attempts t + snd (run ts w t).
Proof.
  induction ts as [|[size now skip|sha256 newId now input] ts IH]; intros w t Hw; cbn [run]; [split; [done|simpl; lia]| |].
  - pose proof (batch_working size now skip w t Hw) as Hb. pose proof (batch_attempts size now skip w t (wk_wf _ _ Hw)) as [Ha _].
    destruct (processFamilyNotificationOutboxBatch create size now skip w t) as [[w1 t1] res]. cbn [fst snd] in *.
    destruct (IH w1 t1 Hb) as (H1 & H2). destruct (run ts w1 t1) as [[w2 t2] n]. cbn [fst snd] in *. split; [done|lia].
  - destruct (arrive_working sha256 newId now input t Hw) as [Hw' Ha]. destruct (IH w _ Hw') as (H1 & H2). split; [done|]. by rewrite H2, Ha.
Qed.

Lemma attempts_bound t : (forall r, In r t -> 0 <= e_attemptCount r <= OUTBOX_READINESS_MAX_ATTEMPTS) ->
  attempts t <= OUTBOX_READINESS_MAX_ATTEMPTS * Z.of_nat (length t).
Proof.
  induction t as [|r t IH]; intros H; [simpl; lia|]. cbn [attempts fold_right length]. unfold attempts in IH.
  pose proof (H r (or_introl eq_refl)). specialize (IH ltac:(intros; apply H; by right)). lia.
Qed.
End Runs.

(** No event is being worked on; the counters are where one worker at a time leaves them. The empty table is such. *)
Definition quiescent (t : table) : Prop := wf t /\ forall r, In r t ->
  0 <= e_attemptCount r <= OUTBOX_READINESS_MAX_ATTEMPTS /\ e_status r <> processing /\ (e_status r = pending -> e_attemptCount r < OUTBOX_READINESS_MAX_ATTEMPTS).
Lemma quiescent_working t : quiescent t <-> Working [] t.
Proof.
  split.
  - intros [Hwf H]. split; [done|constructor|done| | |]; intros r Hr; destruct (H r Hr) as (H1 & H2 & H3); done.
  - intros [Hwf _ _ Honly Hatt Hpend]. split; [done|]. intros r Hr. split; [by apply Hatt|]. split; [intros Hst; by destruct (Honly r Hr Hst)|auto].
Qed.

(** C36 — Delivery terminates under one worker at a time, that is, as long as batches follow each other without overlap and none is cut short: from the empty table or any
    with nothing in work, whatever the authorization kernel answers or throws, whatever is enqueued between the batches and however many there are,
    an event is attempted at most eight times, a pending one fewer; no batch leaves an event in processing; and every claim is an attempt of one event, so
    that all batches together claim at most eight times the rows there are, and all but finitely many claim nothing once no events arrive. *)
Theorem outbox_run_terminates (World : Type)
    (create : World -> string -> AuthorizationSource -> Z -> World * outcome CreationResult string)
    (ts : list turn) (w : World) (t : table) :
  quiescent t ->
  let '(_, t', claimed) := run create ts w t in
  quiescent t' /\ claimed = attempts t' - attempts t /\ claimed <= 8 * Z.of_nat (length t') - attempts t.
Proof.
  intros Hq%quiescent_working. pose proof (run_spec create ts w t Hq) as (Hw & Ha).
  destruct (run create ts w t) as [[w' t'] n]. cbn [fst snd] in *. split; [by apply quiescent_working|]. split; [lia|].
  pose proof (attempts_bound t' (wk_attempts _ _ Hw)) as Hb. unfold OUTBOX_READINESS_MAX_ATTEMPTS in Hb. lia.
Qed.

Definition always_throws (w : unit) (_ : string) (_ : AuthorizationSource) (_ : Z) : unit * outcome CreationResult string :=
  (w, Throw "down").
Definition never_authorized (w : unit) (_ : string) (_ : AuthorizationSource) (_ : Z) : unit * outcome CreationResult string :=
  (w, Ret (CreationOk 0 0 0)).

Lemma outbox_run_terminates_witness :
  let ts := [Arrive (fun s => s) "e1" 0 demo_input; Deliver None 0 []; Deliver None (10 ^ 9) []; Deliver None (10 ^ 10) []] in
  let '(_, t', claimed) := run always_throws ts tt [] in
  map e_attemptCount t' = [3] /\ claimed = attempts t' - attempts [] /\ claimed <= 8 * Z.of_nat (length t') - attempts [].
Proof.
  intros ts. assert (Hq : quiescent []) by (split; [apply NoDup_nil_2|intros r []]).
  pose proof (outbox_run_terminates unit always_throws ts tt [] Hq) as H.
  assert (E : map e_attemptCount (snd (fst (run always_throws ts tt []))) = [3]) by (vm_compute; reflexivity).
  destruct (run always_throws ts tt []) as [[w t'] n]. split; [exact E|exact (proj2 H)].
Defined.

(** Readiness holds spend the retry budget: the two share one attempt
    counter, so a critical event on its fifth to seventh attempt is still held
    pending while nobody is authorized, but its first transient error, however
    many holds and no error preceded it, dead-letters it as retries exhausted. *)
Theorem readiness_spends_retry_budget (ev : ClaimedRow) (now : Z) (e : string) :
  is_critical (e_notificationType ev) = true ->
  OUTBOX_MAX_ATTEMPTS <= e_attemptCount ev < OUTBOX_READINESS_MAX_ATTEMPTS ->
  e_status (settle_row ev (classify ev (Ret (CreationOk 0 0 0))) now ev) = pending /\
  e_status (settle_row ev (classify ev (Throw e)) now ev) = dead_letter /\
  e_lastErrorCode (settle_row ev (classify ev (Throw e)) now ev) = Some max_attempts_exceeded.
Proof.
  intros Hc Ha. cbn [classify]. rewrite Z.eqb_refl, Hc. cbn [andb].
  replace (e_attemptCount ev <? OUTBOX_READINESS_MAX_ATTEMPTS) with true by lia. split; [done|].
  cbn [settle_row]. by replace (e_attemptCount ev <? OUTBOX_MAX_ATTEMPTS) with false by lia.
Qed.

(** Four holds, then one error. *)
Lemma readiness_spends_retry_budget_witness :
  let held := snd (fst (run never_authorized [Deliver None 0 []; Deliver None (10 ^ 7) []; Deliver None (10 ^ 8) []; Deliver None (10 ^ 9) []] tt
                          [demo_row pending 0 0 None])) in
  map e_attemptCount held = [4] /\
  e_status (settle_row (lock_row (10 ^ 10) (demo_row pending 4 0 None))
    (classify (lock_row (10 ^ 10) (demo_row pending 4 0 None)) (Throw "timeout")) 0
    (lock_row (10 ^ 10) (demo_row pending 4 0 None))) = dead_letter.
Proof.
  split; [vm_compute; reflexivity|].
  refine (proj1 (proj2 (readiness_spends_retry_budget (lock_row (10 ^ 10) (demo_row pending 4 0 None)) 0 "timeout" _ _))).
  - reflexivity.
  - cbn. unfold OUTBOX_MAX_ATTEMPTS, OUTBOX_READINESS_MAX_ATTEMPTS. lia.
Defined.

(** Settlement is not fenced by the lease: the update names its row by id and
    tenant only, so a worker that held the row before its lease ran out still
    overwrites what the worker that reclaimed it decided; a delivered event goes
    back to pending when the slow worker reports a transient error. *)
Theorem stale_worker_reopens_event (r : event_row) (now now1 now2 : Z) (e : string) (dups created : Z) :
  e_attemptCount r + 1 < OUTBOX_MAX_ATTEMPTS ->
  let slow := lock_row now r in
  let fast := lock_row now1 slow in
  let t := settle fast (Completed delivered created dups false) now2 [fast] in
  map e_status t = [completed] /\
  map e_status (settle slow (classify slow (Throw e)) now2 t) = [pending].
Proof.
  intros Ha slow fast t. unfold t, fast, slow, settle. cbn -[String.eqb Z.ltb Z.add outboxRetryDelayMs].
  rewrite !String.eqb_refl. cbn -[String.eqb Z.ltb Z.add outboxRetryDelayMs].
  by replace (e_attemptCount r + 1 <? OUTBOX_MAX_ATTEMPTS) with true by lia.
Qed.

Lemma stale_worker_reopens_event_witness :
  map e_status (settle (lock_row 0 (demo_row pending 0 0 None)) (Retry processing_error) 400000
    (settle (lock_row 300001 (lock_row 0 (demo_row pending 0 0 None))) (Completed delivered 1 0 false) 400000
       [lock_row 300001 (lock_row 0 (demo_row pending 0 0 None))])) = [pending].
Proof.
  refine (proj2 (stale_worker_reopens_event (demo_row pending 0 0 None) 0 300001 400000 "late" 0 1 _)).
  cbn. unfold OUTBOX_MAX_ATTEMPTS. lia.
Defined.

(** The health report accounts for every event: with a lease on every row in
    processing, the pending, processing, lease-expired and dead-lettered counts
    add up to the rows that are not completed, and the due ones are among the
    pending ones. *)
Theorem outbox_health_partition (now : Z) (t : table) :
  Forall lease_ok t ->
  let h := getFamilyNotificationOutboxHealth now t in
  h_pending h + h_processing h + h_lease_expired h + h_dead_letter h + count (has_status completed) t
    = Z.of_nat (length t) /\
  0 <= h_retry_due h <= h_pending h /\
  (oldestPendingAgeBucket h = none <-> h_pending h = 0).
Proof.
  intros Ht. unfold getFamilyNotificationOutboxHealth. cbn [h_pending h_processing h_lease_expired h_dead_letter h_retry_due oldestPendingAgeBucket].
  split; [|split].
  - unfold count. induction Ht as [|r t Hr Ht IH]; [done|]. cbn [List.filter length]. revert IH Hr.
    unfold lease_ok, has_status, lock_ge, lock_lt.
    destruct (e_status r); intros IH Hr;
      repeat match goal with |- context [bool_decide (?a = ?b)] =>
        first [rewrite (bool_decide_eq_true_2 (a = b)) by done | rewrite (bool_decide_eq_false_2 (a = b)) by done] end;
      cbn [length andb]; try lia.
    destruct (e_lockExpiresAt r) as [l|]; [|by destruct Hr].
    destruct (Z.leb_spec now l), (Z.ltb_spec l now); cbn [length]; lia.
  - unfold count. clear Ht. split; [lia|]. induction t as [|r t IH]; [done|]. cbn [List.filter].
    destruct (has_status pending r); simpl; [destruct (_ <=? _); simpl|]; lia.
  - unfold count. pose proof (js_sort_perm (fun a b => e_createdAt a - e_createdAt b) (List.filter (has_status pending) t)) as Hp.
    apply Permutation_length in Hp.
    destruct (js_sort _ (List.filter (has_status pending) t)) as [|r l]; simpl in *.
    + rewrite <- Hp. done.
    + rewrite <- Hp. split; [|lia]. unfold ageBucket.
      destruct (_ <? _); [done|]. destruct (_ <? _); [done|]. by destruct (_ <? _).
Qed.

Lemma outbox_health_partition_witness :
  h_pending (getFamilyNotificationOutboxHealth 5 [demo_row pending 0 0 None]) + 0 + 0 + 0 + 0 = 1.
Proof.
  exact (proj1 (outbox_health_partition 5 [demo_row pending 0 0 None]
    ltac:(repeat constructor; by intros ?))).
Defined.

End OutboxRuns.
