(* ===== verification/Access.v ===== *)
(** Roles, permissions and team seats ([packages/core/src/tenant.ts],
    [permissions.ts], [moderation.ts], [team.ts]): who may do what, the approval
    policy on top of it, and which members a smaller plan puts over its limit. *)
From S2P Require Import Prelude.
Open Scope string_scope.
Open Scope list_scope.
Open Scope Z_scope.
Open Scope tam_scope.

Module Access.

(** * Roles and actions *)

(* src: packages/core/src/tenant.ts:26-37 Role *)
Inductive Role :=
| Owner | Admin | Analyst | Reviewer | Viewer.
#[export] Instance Role_dec : EqDecision Role.
Proof. solve_decision. Defined.
#[export] Program Instance Role_enum : JsEnum Role := {|
  js_name x := match x with
    | Owner => "owner" | Admin => "admin" | Analyst => "analyst" | Reviewer => "reviewer"
    | Viewer => "viewer" end;
  js_values :=
    [Owner; Admin; Analyst; Reviewer; Viewer] |}.
Solve All Obligations with solve_js_enum.

(* src: packages/core/src/moderation.ts:12-27 ModerationAction *)
Inductive ModerationAction :=
| A_None | A_Reply | A_Hide | A_Delete | A_Ignore | A_MarkResolved | A_Escalate.
#[export] Instance ModerationAction_dec : EqDecision ModerationAction.
Proof. solve_decision. Defined.
#[export] Program Instance ModerationAction_enum : JsEnum ModerationAction := {|
  js_name x := match x with
    | A_None => "none" | A_Reply => "reply" | A_Hide => "hide" | A_Delete => "delete"
    | A_Ignore => "ignore" | A_MarkResolved => "mark_resolved" | A_Escalate => "escalate" end;
  js_values :=
    [A_None; A_Reply; A_Hide; A_Delete; A_Ignore; A_MarkResolved; A_Escalate] |}.
Solve All Obligations with solve_js_enum.

(* src: packages/core/src/moderation.ts:34-38 PLATFORM_ACTIONS *)
Definition PLATFORM_ACTIONS : list ModerationAction := [A_Reply; A_Hide; A_Delete].

(* src: packages/core/src/moderation.ts:40-42 isPlatformAction *)
Definition isPlatformAction (action : ModerationAction) : bool := bool_decide (action ∈ PLATFORM_ACTIONS).

(* src: packages/core/src/reputation.ts:102-108 RiskLevel *)
Inductive RiskLevel :=
| RiskNone | RiskLow | RiskMedium | RiskHigh | RiskCritical.
#[export] Instance RiskLevel_dec : EqDecision RiskLevel.
Proof. solve_decision. Defined.
#[export] Program Instance RiskLevel_enum : JsEnum RiskLevel := {|
  js_name x := match x with
    | RiskNone => "none" | RiskLow => "low" | RiskMedium => "medium" | RiskHigh => "high"
    | RiskCritical => "critical" end;
  js_values :=
    [RiskNone; RiskLow; RiskMedium; RiskHigh; RiskCritical] |}.
Solve All Obligations with solve_js_enum.

(** * Permissions *)

(* src: packages/core/src/permissions.ts:10-147 Permission *)
Inductive Permission :=
| BrandView | BrandManage | ConnectorManage | InboxView | InboxAct | ProposalView | ProposalPropose
| ProposalApprove | ProposalExecute | RuleView | RuleManage | AuditView | ReportView | SecurityView
| SecurityManage | IncidentView | IncidentManage | CyberbullyingViewOwn | CyberbullyingReport
| CyberbullyingReview | CyberbullyingManage | CyberbullyingEscalate | CyberbullyingViewSensitiveEvidence
| CyberbullyingExportEvidence | CyberbullyingManageRetention | CyberbullyingManageGuardianAccess
| CyberbullyingAudit | CyberbullyingComplianceRedact | CyberbullyingComplianceApprove
| CyberbullyingComplianceExportAuthorize | ChildSafetyReviewView | ChildSafetyReviewManage
| ChildSafetyEvidenceManage | ChildSafetyProtectionPlanView | ChildSafetyProtectionPlanManage
| ChildSafetyAnalyticsView | ChildSafetyAnalyticsExport | ChildSafetyPolicyView | ChildSafetyPolicyManage
| ChildSafetyPolicySubmit | ChildSafetyPolicyApprove | ChildSafetyPolicyActivate
| ChildSafetyPolicySimulate | ChildSafetyPolicyDecisionView | ChildSafetyIntegrationView
| ChildSafetyIntegrationManage | ChildSafetyIntegrationKeysManage | ChildSafetyIntegrationReceiptsView
| ChildSafetyIntegrationSandboxUse | ChildSafetyIntegrationPilotView | ChildSafetyIntegrationPilotManage
| ChildSafetyIntegrationPilotReview | ChildSafetyIntegrationPilotActivate
| ChildSafetyIntegrationPilotSuspend | ChildSafetyIntegrationPilotAuditView | MemberManage | TenantDelete
| BillingManage | BusinessContactsRead | BusinessContactsManage | BusinessContactsExport
| BusinessPlatformsRead | BusinessPlatformsManage.
#[export] Instance Permission_dec : EqDecision Permission.
Proof. solve_decision. Defined.
#[export] Program Instance Permission_enum : JsEnum Permission := {|
  js_name x := match x with
    | BrandView => "brand:view" | BrandManage => "brand:manage" | ConnectorManage => "connector:manage"
    | InboxView => "inbox:view" | InboxAct => "inbox:act" | ProposalView => "proposal:view"
    | ProposalPropose => "proposal:propose" | ProposalApprove => "proposal:approve"
    | ProposalExecute => "proposal:execute" | RuleView => "rule:view" | RuleManage => "rule:manage"
    | AuditView => "audit:view" | ReportView => "report:view" | SecurityView => "security:view"
    | SecurityManage => "security:manage" | IncidentView => "incident:view"
    | IncidentManage => "incident:manage" | CyberbullyingViewOwn => "cyberbullying:view_own"
    | CyberbullyingReport => "cyberbullying:report" | CyberbullyingReview => "cyberbullying:review"
    | CyberbullyingManage => "cyberbullying:manage" | CyberbullyingEscalate => "cyberbullying:escalate"
    | CyberbullyingViewSensitiveEvidence => "cyberbullying:view_sensitive_evidence"
    | CyberbullyingExportEvidence => "cyberbullying:export_evidence"
    | CyberbullyingManageRetention => "cyberbullying:manage_retention"
    | CyberbullyingManageGuardianAccess => "cyberbullying:manage_guardian_access"
    | CyberbullyingAudit => "cyberbullying:audit"
    | CyberbullyingComplianceRedact => "cyberbullying:compliance_redact"
    | CyberbullyingComplianceApprove => "cyberbullying:compliance_approve"
    | CyberbullyingComplianceExportAuthorize => "cyberbullying:compliance_export_authorize"
    | ChildSafetyReviewView => "child_safety:review_view"
    | ChildSafetyReviewManage => "child_safety:review_manage"
    | ChildSafetyEvidenceManage => "child_safety:evidence_manage"
    | ChildSafetyProtectionPlanView => "child_safety:protection_plan_view"
    | ChildSafetyProtectionPlanManage => "child_safety:protection_plan_manage"
    | ChildSafetyAnalyticsView => "child_safety:analytics_view"
    | ChildSafetyAnalyticsExport => "child_safety:analytics_export"
    | ChildSafetyPolicyView => "child_safety:policy_view"
    | ChildSafetyPolicyManage => "child_safety:policy_manage"
    | ChildSafetyPolicySubmit => "child_safety:policy_submit"
    | ChildSafetyPolicyApprove => "child_safety:policy_approve"
    | ChildSafetyPolicyActivate => "child_safety:policy_activate"
    | ChildSafetyPolicySimulate => "child_safety:policy_simulate"
    | ChildSafetyPolicyDecisionView => "child_safety:policy_decision_view"
    | ChildSafetyIntegrationView => "child_safety:integration_view"
    | ChildSafetyIntegrationManage => "child_safety:integration_manage"
    | ChildSafetyIntegrationKeysManage => "child_safety:integration_keys_manage"
    | ChildSafetyIntegrationReceiptsView => "child_safety:integration_receipts_view"
    | ChildSafetyIntegrationSandboxUse => "child_safety:integration_sandbox_use"
    | ChildSafetyIntegrationPilotView => "child_safety:integration_pilot_view"
    | ChildSafetyIntegrationPilotManage => "child_safety:integration_pilot_manage"
    | ChildSafetyIntegrationPilotReview => "child_safety:integration_pilot_review"
    | ChildSafetyIntegrationPilotActivate => "child_safety:integration_pilot_activate"
    | ChildSafetyIntegrationPilotSuspend => "child_safety:integration_pilot_suspend"
    | ChildSafetyIntegrationPilotAuditView => "child_safety:integration_pilot_audit_view"
    | MemberManage => "member:manage" | TenantDelete => "tenant:delete" | BillingManage => "billing:manage"
    | BusinessContactsRead => "business.contacts.read"
    | BusinessContactsManage => "business.contacts.manage"
    | BusinessContactsExport => "business.contacts.export"
    | BusinessPlatformsRead => "business.platforms.read"
    | BusinessPlatformsManage => "business.platforms.manage" end;
  js_values :=
    [BrandView; BrandManage; ConnectorManage; InboxView; InboxAct; ProposalView; ProposalPropose;
     ProposalApprove; ProposalExecute; RuleView; RuleManage; AuditView; ReportView; SecurityView;
     SecurityManage; IncidentView; IncidentManage; CyberbullyingViewOwn; CyberbullyingReport;
     CyberbullyingReview; CyberbullyingManage; CyberbullyingEscalate; CyberbullyingViewSensitiveEvidence;
     CyberbullyingExportEvidence; CyberbullyingManageRetention; CyberbullyingManageGuardianAccess;
     CyberbullyingAudit; CyberbullyingComplianceRedact; CyberbullyingComplianceApprove;
     CyberbullyingComplianceExportAuthorize; ChildSafetyReviewView; ChildSafetyReviewManage;
     ChildSafetyEvidenceManage; ChildSafetyProtectionPlanView; ChildSafetyProtectionPlanManage;
     ChildSafetyAnalyticsView; ChildSafetyAnalyticsExport; ChildSafetyPolicyView; ChildSafetyPolicyManage;
     ChildSafetyPolicySubmit; ChildSafetyPolicyApprove; ChildSafetyPolicyActivate;
     ChildSafetyPolicySimulate; ChildSafetyPolicyDecisionView; ChildSafetyIntegrationView;
     ChildSafetyIntegrationManage; ChildSafetyIntegrationKeysManage; ChildSafetyIntegrationReceiptsView;
     ChildSafetyIntegrationSandboxUse; ChildSafetyIntegrationPilotView; ChildSafetyIntegrationPilotManage;
     ChildSafetyIntegrationPilotReview; ChildSafetyIntegrationPilotActivate;
     ChildSafetyIntegrationPilotSuspend; ChildSafetyIntegrationPilotAuditView; MemberManage; TenantDelete;
     BillingManage; BusinessContactsRead; BusinessContactsManage; BusinessContactsExport;
     BusinessPlatformsRead; BusinessPlatformsManage] |}.
Solve All Obligations with solve_js_enum.

(* src: packages/core/src/permissions.ts:149-149 OWNER_ALL *)
Definition OWNER_ALL : list Permission := js_values.

(* src: packages/core/src/permissions.ts:151-299 ROLE_PERMISSIONS *)
Definition ROLE_PERMISSIONS (role : Role) : list Permission :=
  match role with
  | Owner => OWNER_ALL
  | Admin =>
      [BrandView; BrandManage; ConnectorManage; InboxView; InboxAct; ProposalView; ProposalPropose;
       ProposalApprove; ProposalExecute; RuleView; RuleManage; AuditView; ReportView; SecurityView;
       SecurityManage; IncidentView; IncidentManage; BusinessContactsRead; BusinessContactsManage;
       BusinessContactsExport; BusinessPlatformsRead; BusinessPlatformsManage; CyberbullyingViewOwn;
       CyberbullyingReport; CyberbullyingReview; CyberbullyingManage; CyberbullyingEscalate;
       CyberbullyingManageRetention; CyberbullyingManageGuardianAccess; CyberbullyingAudit;
       CyberbullyingComplianceRedact; CyberbullyingComplianceApprove;
       CyberbullyingComplianceExportAuthorize; ChildSafetyReviewView; ChildSafetyReviewManage;
       ChildSafetyEvidenceManage; ChildSafetyProtectionPlanView; ChildSafetyProtectionPlanManage;
       ChildSafetyAnalyticsView; ChildSafetyAnalyticsExport; ChildSafetyPolicyView;
       ChildSafetyPolicyManage; ChildSafetyPolicySubmit; ChildSafetyPolicyApprove;
       ChildSafetyPolicyActivate; ChildSafetyPolicySimulate; ChildSafetyPolicyDecisionView;
       ChildSafetyIntegrationView; ChildSafetyIntegrationManage; ChildSafetyIntegrationKeysManage;
       ChildSafetyIntegrationReceiptsView; ChildSafetyIntegrationSandboxUse;
       ChildSafetyIntegrationPilotView; ChildSafetyIntegrationPilotManage;
       ChildSafetyIntegrationPilotReview; ChildSafetyIntegrationPilotActivate;
       ChildSafetyIntegrationPilotSuspend; ChildSafetyIntegrationPilotAuditView; MemberManage]
  | Analyst =>
      [BrandView; InboxView; InboxAct; ProposalView; ProposalPropose; RuleView; RuleManage; AuditView;
       ReportView; SecurityView; IncidentView; BusinessContactsRead; BusinessPlatformsRead;
       ChildSafetyIntegrationPilotView]
  | Reviewer =>
      [BrandView; InboxView; InboxAct; ProposalView; ProposalPropose; ProposalApprove; RuleView; AuditView;
       ReportView; SecurityView; IncidentView; CyberbullyingViewOwn; CyberbullyingReport;
       CyberbullyingReview; CyberbullyingComplianceRedact; ChildSafetyReviewView; ChildSafetyReviewManage;
       ChildSafetyEvidenceManage; ChildSafetyProtectionPlanView; ChildSafetyProtectionPlanManage;
       ChildSafetyAnalyticsView; ChildSafetyPolicyView; ChildSafetyPolicySimulate;
       ChildSafetyPolicyDecisionView; ChildSafetyIntegrationView; ChildSafetyIntegrationReceiptsView;
       ChildSafetyIntegrationSandboxUse; ChildSafetyIntegrationPilotView;
       ChildSafetyIntegrationPilotReview; ChildSafetyIntegrationPilotAuditView;
       ChildSafetyIntegrationPilotSuspend]
  | Viewer =>
      [BrandView; InboxView; ProposalView; RuleView; AuditView; ReportView]
  end.

(* src: packages/core/src/permissions.ts:302-304 can *)
Definition can (role : Role) (permission : Permission) : bool :=
  bool_decide (permission ∈ ROLE_PERMISSIONS role).

(* src: packages/core/src/permissions.ts:307-309 permissionsFor *)
Definition permissionsFor (role : Role) : list Permission := ROLE_PERMISSIONS role.

(** [ROLE_PERMISSIONS[role].includes] on a string that is no role: a TypeError. *)
Definition can_raw (role : string) (permission : Permission) : outcome bool string :=
  match parse (A := Role) role with
  | Some r => Ret (can r permission)
  | None => Throw "TypeError"
  end.

(* src: packages/core/src/permissions.ts:312-316 assertCan *)
Definition assertCan (role : Role) (permission : Permission) : outcome unit string :=
  if can role permission then Ret tt
  else Throw ("Forbidden: role " +:+ dquote +:+ js_name role +:+ dquote +:+ " lacks " +:+ dquote +:+
              js_name permission +:+ dquote).

(* src: packages/core/src/permissions.ts:328-343 canApproveDecision *)
Definition canApproveDecision (role : Role) (action : ModerationAction) (riskLevel : RiskLevel) : bool :=
  if negb (can role ProposalApprove) then false
  else if (role =e Owner) || (role =e Admin) then true
  else if role =e Reviewer then
    if action =e A_Delete then false
    else if (riskLevel =e RiskHigh) || (riskLevel =e RiskCritical) then false
    else true
  else false.

(* src: packages/core/src/permissions.ts:346-359 approvalDenialReason *)
Definition approvalDenialReason (role : Role) (action : ModerationAction) (riskLevel : RiskLevel) : option string :=
  if canApproveDecision role action riskLevel then None
  else if negb (can role ProposalApprove) then Some ("Role " +:+ dquote +:+ js_name role +:+ dquote +:+ " cannot approve proposals.")
  else if action =e A_Delete then Some "Deletes must be approved by an Admin or Owner."
  else Some "High/critical-risk proposals must be approved by an Admin or Owner.".

(** The roles are a hierarchy: a viewer's permissions are an analyst's and a
    reviewer's too, those are an administrator's, and the owner holds every one. *)
Theorem role_hierarchy (p : Permission) :
  (can Viewer p = true -> can Analyst p = true /\ can Reviewer p = true) /\
  (can Analyst p = true \/ can Reviewer p = true -> can Admin p = true) /\
  can Owner p = true.
Proof. destruct p; vm_compute; intuition congruence. Qed.

Lemma role_hierarchy_witness : can Analyst InboxView = true /\ can Admin InboxView = true.
Proof.
  pose proof (role_hierarchy InboxView) as (H1 & H2 & _). destruct (H1 eq_refl) as [Ha _].
  split; [exact Ha|exact (H2 (or_introl Ha))].
Defined.

(** The owner-exclusive permissions are exactly the four meant to be:
    viewing unredacted evidence, exporting evidence, deleting the workspace and
    managing billing; every other permission is some other role's as well. *)
Theorem owner_exclusive_iff (p : Permission) :
  (forall r, can r p = true -> r = Owner) <->
  p ∈ [CyberbullyingViewSensitiveEvidence; CyberbullyingExportEvidence; TenantDelete; BillingManage].
Proof.
  split.
  - intros H. assert (Ha : can Admin p = false) by (destruct (can Admin p) eqn:He; [by specialize (H _ He)|done]).
    clear H. apply list_elem_of_In. revert Ha. destruct p; vm_compute; intros ?; try discriminate; tauto.
  - intros Hp r. apply list_elem_of_In in Hp.
    destruct Hp as [<-|[<-|[<-|[<-|[]]]]]; destruct r; vm_compute; done.
Qed.

Lemma owner_exclusive_iff_witness : forall r, can r TenantDelete = true -> r = Owner.
Proof. apply (owner_exclusive_iff TenantDelete). apply list_elem_of_In. vm_compute. auto. Defined.

(** The approval policy: a viewer or an analyst approves nothing, a reviewer
    everything but deletions and high or critical risk, an administrator and the
    owner everything; and a reason for the refusal is given exactly when the
    decision may not be approved. *)
Theorem approval_policy (role : Role) (action : ModerationAction) (risk : RiskLevel) :
  (canApproveDecision role action risk = true <->
     role = Owner \/ role = Admin \/
     (role = Reviewer /\ action <> A_Delete /\ risk <> RiskHigh /\ risk <> RiskCritical)) /\
  (approvalDenialReason role action risk = None <-> canApproveDecision role action risk = true).
Proof. destruct role, action, risk; vm_compute; split; intuition congruence. Qed.

(** * Team seats *)

Definition TeamRole := Role.

(* src: packages/core/src/team.ts:7-8 TEAM_ROLES *)
Definition TEAM_ROLES : list TeamRole := [Owner; Admin; Analyst; Reviewer; Viewer].
(* src: packages/core/src/team.ts:10-10 ASSIGNABLE_ROLES *)
Definition ASSIGNABLE_ROLES : list TeamRole := [Admin; Analyst; Reviewer; Viewer].

(* src: packages/core/src/team.ts:12-14 isTeamRole *)
Definition isTeamRole (r : string) : bool := includes (map js_name TEAM_ROLES) r.
(* src: packages/core/src/team.ts:15-17 isAssignableRole *)
Definition isAssignableRole (r : string) : bool := includes (map js_name ASSIGNABLE_ROLES) r.

(* src: packages/core/src/team.ts:20-22 normalizeEmail *)
Definition normalizeEmail (email : string) : string := toLowerCase (trim email).

(* src: packages/core/src/team.ts:28-30 seatUsage *)
Definition seatUsage (activeMembers pendingInvites : Z) : Z := Z.max 0 activeMembers + Z.max 0 pendingInvites.
(* src: packages/core/src/team.ts:31-33 seatsAvailable *)
Definition seatsAvailable (usage : Z) (maxSeats : option Z) : bool :=
  match maxSeats with None => true | Some m => usage <? m end.
(* src: packages/core/src/team.ts:34-36 seatsRemaining *)
Definition seatsRemaining (usage : Z) (maxSeats : option Z) : option Z :=
  match maxSeats with None => None | Some m => Some (Z.max 0 (m - usage)) end.
(* src: packages/core/src/team.ts:37-39 isOverSeatLimit *)
Definition isOverSeatLimit (usage : Z) (maxSeats : option Z) : bool :=
  match maxSeats with None => false | Some m => m <? usage end.
(* src: packages/core/src/team.ts:42-44 isLastOwner *)
Definition isLastOwner (role : TeamRole) (ownerCount : Z) : bool := (role =e Owner) && (ownerCount <=? 1).

(* src: packages/core/src/team.ts:52-52 MemberRef *)
Record MemberRef := { m_id : string; m_role : TeamRole; m_createdAt : Z }.

(* src: packages/core/src/team.ts:58-58 selectOverLimitMemberships *)
Definition member_order (a b : MemberRef) : Z :=
  let byDate := m_createdAt a - m_createdAt b in
  if byDate =? 0 then (if str_ltb (m_id a) (m_id b) then -1 else if str_ltb (m_id b) (m_id a) then 1 else 0)
  else byDate.

(* src: packages/core/src/team.ts:53-61 selectOverLimitMemberships *)
Definition selectOverLimitMemberships (members : list MemberRef) (maxSeats : option Z) : list string :=
  match maxSeats with
  | None => []
  | Some seats =>
      let owners := List.filter (fun m => m_role m =e Owner) members in
      let nonOwners := js_sort member_order (List.filter (fun m => negb (m_role m =e Owner)) members) in
      let remaining := Z.max 0 (seats - Z.of_nat (length owners)) in
      map m_id (drop (Z.to_nat remaining) nonOwners)
  end.

(* src: packages/core/src/team.ts:64-64 INVITE_TTL_DAYS *)
Definition INVITE_TTL_DAYS : Z := 7.
(* src: packages/core/src/team.ts:67-69 isInviteExpired *)
Definition isInviteExpired (expiresAt now : Z) : bool := expiresAt <=? now.
(* src: packages/core/src/team.ts:70-72 inviteExpiryFrom *)
Definition inviteExpiryFrom (now ttlDays : Z) : Z := now + ttlDays * 24 * 60 * 60 * 1000.

(** Seat arithmetic is consistent: a seat is available exactly when some
    remain, never together with being over the limit, and taking an available
    seat never goes over the limit. *)
Theorem seats_consistent (active pending : Z) (maxSeats : option Z) :
  let u := seatUsage active pending in
  0 <= u /\
  (seatsAvailable u maxSeats = true <-> match seatsRemaining u maxSeats with None => True | Some n => 0 < n end) /\
  (seatsAvailable u maxSeats = true -> isOverSeatLimit u maxSeats = false /\ isOverSeatLimit (u + 1) maxSeats = false) /\
  (isOverSeatLimit u maxSeats = true -> seatsAvailable u maxSeats = false /\ seatsRemaining u maxSeats = Some 0).
Proof.
  intros u. split; [unfold u, seatUsage; lia|].
  destruct maxSeats as [m|]; simpl; [|intuition congruence].
  destruct (Z.ltb_spec u m), (Z.ltb_spec m u), (Z.ltb_spec m (u + 1)); intuition (try congruence; try lia).
  f_equal. lia.
Qed.

Lemma seats_consistent_witness : isOverSeatLimit (seatUsage 2 0 + 1) (Some 3) = false.
Proof. destruct (seats_consistent 2 0 (Some 3)) as (_ & _ & H & _). exact (proj2 (H eq_refl)). Defined.

Lemma member_order_cases a b :
  (member_order a b <= 0 <-> m_createdAt a < m_createdAt b \/
     (m_createdAt a = m_createdAt b /\ (str_ltb (m_id a) (m_id b) = true \/ m_id a = m_id b))).
Proof.
  unfold member_order. destruct (Z.eqb_spec (m_createdAt a - m_createdAt b) 0) as [He|He].
  - destruct (str_ltb (m_id a) (m_id b)) eqn:H1; [split; [intros _; right; split; [lia|auto]|lia]|].
    destruct (str_ltb (m_id b) (m_id a)) eqn:H2.
    + split; [lia|]. intros [?|[_ [?|Heq]]]; [lia|done|]. rewrite Heq, str_ltb_irrefl in H2. done.
    + split; [|lia]. intros _. right. split; [lia|]. right.
      destruct (str_ltb_total (m_id a) (m_id b)) as [?|[?|?]]; congruence.
  - split; [left; lia|]. intros [?|[? _]]; lia.
Qed.

Lemma member_order_total a b : member_order a b <= 0 \/ member_order b a <= 0.
Proof.
  rewrite !member_order_cases. destruct (Z.lt_total (m_createdAt a) (m_createdAt b)) as [H|[H|H]]; [auto| |auto].
  destruct (str_ltb_total (m_id a) (m_id b)) as [Hs|[Hs|Hs]]; [left|right|left]; right; split; auto.
Qed.

Lemma member_order_trans a b c : member_order a b <= 0 -> member_order b c <= 0 -> member_order a c <= 0.
Proof.
  rewrite !member_order_cases. intros [H1|[H1 S1]] [H2|[H2 S2]]; try (left; lia).
  right. split; [lia|]. destruct S1 as [S1|S1], S2 as [S2|S2].
  - left. by eapply str_ltb_trans.
  - left. by rewrite <- S2.
  - left. by rewrite S1.
  - right. congruence.
Qed.

(** A downgrade is fair and bounded: no owner is ever put over the limit;
    the members left within it, owners included, are no more than the seats, or
    the owners alone where those already exceed them; and nobody who is put over
    the limit joined before someone who is kept. *)
Theorem downgrade_keeps_oldest (members : list MemberRef) (seats : Z) :
  NoDup (map m_id members) ->
  let over := selectOverLimitMemberships members (Some seats) in
  let kept := List.filter (fun m => negb (includes over (m_id m))) members in
  let owners := List.filter (fun m => m_role m =e Owner) members in
  Z.of_nat (length kept) <= Z.max seats (Z.of_nat (length owners)) /\
  (forall m, In m members -> In (m_id m) over -> m_role m <> Owner) /\
  (forall m k, In m members -> In (m_id m) over -> In k members -> m_role k <> Owner ->
     ~ In (m_id k) over -> m_createdAt k <= m_createdAt m).
Proof.
  intros Hnd over kept owners.
  set (non := List.filter (fun m => negb (m_role m =e Owner)) members).
  set (sorted := js_sort member_order non).
  set (n := Z.to_nat (Z.max 0 (seats - Z.of_nat (length owners)))).
  assert (Hover : over = map m_id (drop n sorted)) by reflexivity.
  assert (Hperm : Permutation sorted non) by apply js_sort_perm.
  assert (Hin : forall m, In m members -> In (m_id m) over -> In m (drop n sorted)).
  { intros m Hm Ho. rewrite Hover in Ho. apply in_map_iff in Ho as [m' [Hid Hm']].
    assert (In m' members).
    { assert (Hs : In m' sorted) by (rewrite <- (take_drop n sorted); apply in_or_app; by right).
      apply (Permutation_in _ Hperm) in Hs. by apply filter_In in Hs as [Hs _]. }
    by rewrite <- (NoDup_map_inj_in m_id members m' m). }
  assert (Hnonowner : forall m, In m (drop n sorted) -> m_role m <> Owner).
  { intros m Hm Ho. assert (Hs : In m sorted) by (rewrite <- (take_drop n sorted); apply in_or_app; by right).
    apply (Permutation_in _ Hperm) in Hs. apply filter_In in Hs as [_ Hs]. rewrite Ho in Hs. done. }
  assert (Hcover : forall m, In m members -> m_role m <> Owner -> In m (take n sorted) \/ In m (drop n sorted)).
  { intros m Hm Hr. apply in_app_or. rewrite take_drop. apply (Permutation_in _ (Permutation_sym Hperm)).
    apply filter_In. split; [done|]. destruct (m_role m =e Owner) eqn:He; [|done].
    by guards_in He. }
  split; [|split].
  - assert (Hle : (length kept <= length owners + length (take n sorted))%nat).
    { rewrite <- length_app, <- (length_map m_id kept), <- (length_map m_id (owners ++ _)).
      apply NoDup_incl_length; [apply NoDup_ListNoDup; by apply NoDup_map_filter|].
      intros x (m & <- & Hm)%in_map_iff. apply filter_In in Hm as [Hm Hk]. apply in_map, in_or_app.
      destruct (decide (m_role m = Owner)) as [Ho|Ho].
      - left. apply filter_In. split; [done|]. by rewrite Ho.
      - right. destruct (Hcover m Hm Ho) as [|Hd]; [done|]. exfalso.
        apply negb_true_iff in Hk. assert (includes over (m_id m) = true); [|congruence].
        apply includes_In. rewrite Hover. by apply in_map. }
    rewrite length_take in Hle. unfold n in Hle. lia.
  - intros m Hm Ho. apply Hnonowner. auto.
  - intros m k Hm Ho Hk Hr Hno.
    assert (Hkt : In k (take n sorted)).
    { destruct (Hcover k Hk Hr) as [|Hd]; [done|]. destruct Hno. rewrite Hover. by apply in_map. }
    assert (Hc : member_order k m <= 0).
    { eapply (js_sort_take_drop member_order member_order_total member_order_trans n non);
        apply list_elem_of_In; [done|by apply Hin]. }
    apply member_order_cases in Hc. lia.
Qed.

Lemma downgrade_keeps_oldest_witness :
  Z.of_nat (length (List.filter (fun m => negb (includes (selectOverLimitMemberships
      [{| m_id := "o"; m_role := Owner; m_createdAt := 9 |}; {| m_id := "n"; m_role := Viewer; m_createdAt := 5 |}] (Some 1)) (m_id m)))
    [{| m_id := "o"; m_role := Owner; m_createdAt := 9 |}; {| m_id := "n"; m_role := Viewer; m_createdAt := 5 |}])) <= 1.
Proof.
  refine (proj1 (downgrade_keeps_oldest
    [{| m_id := "o"; m_role := Owner; m_createdAt := 9 |}; {| m_id := "n"; m_role := Viewer; m_createdAt := 5 |}] 1
    (bool_decide_unpack _ _))).
  vm_compute. exact I.
Defined.

End Access.
