(* ===== verification/Team.v ===== *)
(** Team memberships and invites ([packages/db/src/team-repo.ts]): seats, single-use
    invite links, and the owner who cannot be removed.

    The operations that take the per-tenant advisory lock or guard their update are
    atomic. Removing a member and changing a role count the owners in one statement
    and write in another, without a lock; their models take the tables they read
    apart from the tables they write. *)
From S2P Require Import Prelude Access.
Open Scope string_scope.
Open Scope list_scope.
Open Scope Z_scope.
Open Scope tam_scope.

Module Team.
Import Access.

(** * State *)

Inductive InviteStatus := inv_pending | inv_accepted | inv_revoked | inv_expired.
#[export] Instance InviteStatus_dec : EqDecision InviteStatus.
Proof. solve_decision. Defined.
#[export] Program Instance InviteStatus_enum : JsEnum InviteStatus := {|
  js_name s := match s with
    | inv_pending => "pending" | inv_accepted => "accepted" | inv_revoked => "revoked" | inv_expired => "expired" end;
  js_values := [inv_pending; inv_accepted; inv_revoked; inv_expired] |}.
Solve All Obligations with solve_js_enum.

Record member_row := { mb_id : string; mb_tenant : string; mb_user : string; mb_role : TeamRole; mb_createdAt : Z }.
Record invite_row := {
  iv_id : string; iv_tenant : string; iv_email : string; iv_role : TeamRole; iv_hash : string; iv_status : InviteStatus;
  iv_expiresAt : Z; iv_acceptedAt : option Z; iv_revokedAt : option Z; iv_lastSentAt : Z }.
Record audit_row := { au_tenant : string; au_event : string; au_actor : option string; au_target : string }.

(** [emails] is the users table: each user id with its stored e-mail. *)
Record team_db := {
  members : list member_row; invites : list invite_row; emails : list (string * string); audits : list audit_row }.
Definition set_members (l : list member_row) (d : team_db) : team_db :=
  {| members := l; invites := invites d; emails := emails d; audits := audits d |}.
Definition set_invites (l : list invite_row) (d : team_db) : team_db :=
  {| members := members d; invites := l; emails := emails d; audits := audits d |}.
Definition log (tenant event : string) (actor : option string) (target : string) (d : team_db) : team_db :=
  {| members := members d; invites := invites d; emails := emails d;
     audits := audits d ++ [{| au_tenant := tenant; au_event := event; au_actor := actor; au_target := target |}] |}.

(** * Operations *)

(* src: packages/db/src/team-repo.ts:31-33 countActiveMembers *)
Definition countActiveMembers (tenant : string) (d : team_db) : Z := count (fun m => mb_tenant m =s tenant) (members d).
Definition live_invite (tenant : string) (now : Z) (i : invite_row) : bool :=
  (iv_tenant i =s tenant) && (iv_status i =e inv_pending) && (now <? iv_expiresAt i).
(* src: packages/db/src/team-repo.ts:34-36 countPendingInvites *)
Definition countPendingInvites (tenant : string) (now : Z) (d : team_db) : Z := count (live_invite tenant now) (invites d).
(* src: packages/db/src/team-repo.ts:37-39 countOwners *)
Definition countOwners (tenant : string) (d : team_db) : Z :=
  count (fun m => (mb_tenant m =s tenant) && (mb_role m =e Owner)) (members d).

(** The seats in use: what every check compares with the limit. *)
Definition seats_used (tenant : string) (now : Z) (d : team_db) : Z :=
  seatUsage (countActiveMembers tenant d) (countPendingInvites tenant now d).

(* src: packages/db/src/team-repo.ts:41-44 SeatSummary *)
Record SeatSummary := {
  activeMembers : Z; pendingInvites : Z; usage : Z; ss_maxSeats : option Z; ss_remaining : option Z; overLimit : bool;
  overLimitMemberIds : list string }.
(* src: packages/db/src/team-repo.ts:48-65 getSeatSummary *)
Definition getSeatSummary (tenant : string) (maxSeats : option Z) (now : Z) (d : team_db) : SeatSummary :=
  let refs := map (fun m => {| m_id := mb_id m; m_role := mb_role m; m_createdAt := mb_createdAt m |})
    (List.filter (fun m => mb_tenant m =s tenant) (members d)) in
  let active := countActiveMembers tenant d in
  let pending := countPendingInvites tenant now d in
  {| activeMembers := active; pendingInvites := pending; usage := seatUsage active pending; ss_maxSeats := maxSeats;
     ss_remaining := seatsRemaining (seatUsage active pending) maxSeats; overLimit := isOverSeatLimit active maxSeats;
     overLimitMemberIds := selectOverLimitMemberships refs maxSeats |}.

(* src: packages/db/src/team-repo.ts:67-69 CreateInviteResult *)
Inductive CreateInviteResult := InviteCreated (inviteId token : string) | invalid_role | already_member | already_invited | seat_limit_reached.

Definition user_email (d : team_db) (u : string) : option string := option_map snd (List.find (fun e => fst e =s u) (emails d)).

Section Team.
(** [sha256] in hex; a fresh invite draws its id and its raw token. *)
Context (sha256 : string -> string).

(* src: packages/db/src/team-repo.ts:73-73 createInvite *)
Record CreateInviteInput := { ci_email : string; ci_role : string; ci_invitedBy : option string }.

(* src: packages/db/src/team-repo.ts:72-106 createInvite *)
Definition createInvite (tenant : string) (input : CreateInviteInput) (maxSeats : option Z) (newId token : string) (now : Z)
    (d : team_db) : team_db * CreateInviteResult :=
  match parse (A := TeamRole) (ci_role input) with
  | None => (d, invalid_role)
  | Some role =>
      if negb (isAssignableRole (ci_role input)) then (d, invalid_role)
      else
        let email := normalizeEmail (ci_email input) in
        let is_them m := (mb_tenant m =s tenant) && match user_email d (mb_user m) with Some e => e =s email | None => false end in
        if existsb is_them (members d) then (d, already_member)
        else if negb (seatsAvailable (seats_used tenant now d) maxSeats) then (d, seat_limit_reached)
        else if existsb (fun i => ((iv_tenant i =s tenant) && (iv_email i =s email) && (iv_status i =e inv_pending)) ||
                                  (iv_hash i =s sha256 token) || (iv_id i =s newId)) (invites d)
        then (d, already_invited)
        else
          let row := {| iv_id := newId; iv_tenant := tenant; iv_email := email; iv_role := role; iv_hash := sha256 token;
            iv_status := inv_pending; iv_expiresAt := inviteExpiryFrom now INVITE_TTL_DAYS; iv_acceptedAt := None;
            iv_revokedAt := None; iv_lastSentAt := now |} in
          (log tenant "team.invite_created" (ci_invitedBy input) newId (set_invites (invites d ++ [row]) d), InviteCreated newId token)
  end.

(* src: packages/db/src/team-repo.ts:108-110 AcceptInviteResult *)
Inductive AcceptInviteResult := Joined (tenant : string) (role : TeamRole) | not_found | expired | revoked | already_used | wrong_email.

Definition update_invites (p : invite_row -> bool) (f : invite_row -> invite_row) (d : team_db) : team_db :=
  set_invites (map (fun i => if p i then f i else i) (invites d)) d.
Definition with_status (s : InviteStatus) (acc rev : option Z) (i : invite_row) : invite_row :=
  {| iv_id := iv_id i; iv_tenant := iv_tenant i; iv_email := iv_email i; iv_role := iv_role i; iv_hash := iv_hash i; iv_status := s;
     iv_expiresAt := iv_expiresAt i; iv_acceptedAt := or_else acc (iv_acceptedAt i); iv_revokedAt := or_else rev (iv_revokedAt i);
     iv_lastSentAt := iv_lastSentAt i |}.
Definition is_pending (id : string) (i : invite_row) : bool := (iv_id i =s id) && (iv_status i =e inv_pending).
Definition is_member (tenant user : string) (d : team_db) : bool :=
  existsb (fun m => (mb_user m =s user) && (mb_tenant m =s tenant)) (members d).
Definition find_invite (h : string) (d : team_db) : option invite_row := List.find (fun i => iv_hash i =s h) (invites d).

(** The answer to someone who did not win the claim. *)
Definition used_answer (user : string) (i : invite_row) (d : team_db) : AcceptInviteResult :=
  if is_member (iv_tenant i) user d then Joined (iv_tenant i) (iv_role i) else already_used.

(* src: packages/db/src/team-repo.ts:117-143 acceptInvite *)
Definition acceptInvite (token user userEmail newId : string) (now : Z) (d : team_db) : team_db * AcceptInviteResult :=
  match find_invite (sha256 token) d with
  | None => (d, not_found)
  | Some i =>
      if iv_status i =e inv_accepted then (d, used_answer user i d)
      else if iv_status i =e inv_revoked then (d, revoked)
      else if (iv_status i =e inv_expired) || isInviteExpired (iv_expiresAt i) now
      then (update_invites (is_pending (iv_id i)) (with_status inv_expired None None) d, expired)
      else if negb (iv_email i =s normalizeEmail userEmail) then (d, wrong_email)
      else
        if count (is_pending (iv_id i)) (invites d) =? 0 then (d, used_answer user i d)
        else
          let d1 := update_invites (is_pending (iv_id i)) (with_status inv_accepted (Some now) None) d in
          let d2 := if is_member (iv_tenant i) user d1 then d1
            else set_members (members d1 ++ [{| mb_id := newId; mb_tenant := iv_tenant i; mb_user := user; mb_role := iv_role i;
                                                mb_createdAt := now |}]) d1 in
          (log (iv_tenant i) "team.invite_accepted" (Some user) (iv_id i) d2, Joined (iv_tenant i) (iv_role i))
  end.

(* src: packages/db/src/team-repo.ts:146-152 revokeInvite *)
Definition revokeInvite (tenant id actor : string) (now : Z) (d : team_db) : team_db * Z :=
  let p i := (iv_id i =s id) && (iv_tenant i =s tenant) && (iv_status i =e inv_pending) in
  let n := count p (invites d) in
  let d1 := update_invites p (with_status inv_revoked None (Some now)) d in
  (if 0 <? n then log tenant "team.invite_revoked" (Some actor) id d1 else d1, n).

(* src: packages/db/src/team-repo.ts:154-154 ResendInviteResult *)
Inductive ResendInviteResult := Resent (token : string) | resend_not_found | rate_limited.

(* src: packages/core/src/team.ts:65-65 INVITE_RESEND_COOLDOWN_MS *)
Definition INVITE_RESEND_COOLDOWN_MS : Z := 60 * 1000.

Definition resent (h : string) (now : Z) (i : invite_row) : invite_row :=
  {| iv_id := iv_id i; iv_tenant := iv_tenant i; iv_email := iv_email i; iv_role := iv_role i; iv_hash := h; iv_status := iv_status i;
     iv_expiresAt := inviteExpiryFrom now INVITE_TTL_DAYS; iv_acceptedAt := iv_acceptedAt i; iv_revokedAt := iv_revokedAt i;
     iv_lastSentAt := now |}.
(* src: packages/db/src/team-repo.ts:156-165 resendInvite *)
Definition resendInvite (tenant id token : string) (now : Z) (d : team_db) : team_db * outcome ResendInviteResult string :=
  let p i := (iv_id i =s id) && (iv_tenant i =s tenant) && (iv_status i =e inv_pending) in
  match List.find p (invites d) with
  | None => (d, Ret resend_not_found)
  | Some i =>
      if now - iv_lastSentAt i <? INVITE_RESEND_COOLDOWN_MS then (d, Ret rate_limited)
      else if existsb (fun i => iv_hash i =s sha256 token) (invites d) then (d, Throw "P2002")
      else (update_invites p (resent (sha256 token) now) d, Ret (Resent token))
  end.

(* src: packages/db/src/team-repo.ts:167-167 RemoveMemberResult *)
Inductive RemoveMemberResult := Removed | member_not_found | last_owner.
Definition find_member (tenant id : string) (d : team_db) : option member_row :=
  List.find (fun m => (mb_id m =s id) && (mb_tenant m =s tenant)) (members d).

(** [seen] is what the transaction read. *)
(* src: packages/db/src/team-repo.ts:169-178 removeMember *)
Definition removeMember_seeing (seen : team_db) (tenant id actor : string) (d : team_db) : team_db * RemoveMemberResult :=
  match find_member tenant id seen with
  | None => (d, member_not_found)
  | Some m =>
      if isLastOwner (mb_role m) (countOwners tenant seen) then (d, last_owner)
      else (log tenant "team.member_removed" (Some actor) id
              (set_members (List.filter (fun m => negb ((mb_id m =s id) && (mb_tenant m =s tenant))) (members d)) d), Removed)
  end.
Definition removeMember (tenant id actor : string) (d : team_db) : team_db * RemoveMemberResult :=
  removeMember_seeing d tenant id actor d.

(* src: packages/db/src/team-repo.ts:180-180 ChangeRoleResult *)
Inductive ChangeRoleResult := RoleChanged | role_not_found | role_invalid | role_last_owner.
Definition with_role (r : TeamRole) (m : member_row) : member_row :=
  {| mb_id := mb_id m; mb_tenant := mb_tenant m; mb_user := mb_user m; mb_role := r; mb_createdAt := mb_createdAt m |}.

(* src: packages/db/src/team-repo.ts:182-192 changeMemberRole *)
Definition changeMemberRole_seeing (seen : team_db) (tenant id newRole actor : string) (d : team_db) : team_db * ChangeRoleResult :=
  if negb (newRole =s "owner") && negb (isAssignableRole newRole) then (d, role_invalid)
  else
    match parse (A := TeamRole) newRole, find_member tenant id seen with
    | None, _ => (d, role_invalid)
    | _, None => (d, role_not_found)
    | Some r, Some m =>
        if (mb_role m =e Owner) && negb (newRole =s "owner") && isLastOwner Owner (countOwners tenant seen) then (d, role_last_owner)
        else (log tenant "team.role_changed" (Some actor) id
                (set_members (map (fun m => if (mb_id m =s id) && (mb_tenant m =s tenant) then with_role r m else m) (members d)) d), RoleChanged)
    end.
Definition changeMemberRole (tenant id newRole actor : string) (d : team_db) : team_db * ChangeRoleResult :=
  changeMemberRole_seeing d tenant id newRole actor d.

(* src: packages/db/src/team-repo.ts:203-205 expireStaleInvites *)
Definition expireStaleInvites (now : Z) (d : team_db) : team_db * Z :=
  let p i := (iv_status i =e inv_pending) && (iv_expiresAt i <? now) in
  (update_invites p (with_status inv_expired None None) d, count p (invites d)).
End Team.

(** * Seats *)

Lemma seats_used_eq t now d : seats_used t now d = countActiveMembers t d + countPendingInvites t now d.
Proof. unfold seats_used, seatUsage, countActiveMembers, countPendingInvites. pose proof (count_nonneg (fun m => mb_tenant m =s t) (members d)).
  pose proof (count_nonneg (live_invite t now) (invites d)). lia.
Qed.
Lemma seats_later t now now' d : now <= now' -> seats_used t now' d <= seats_used t now d.
Proof.
  intros Hle. rewrite !seats_used_eq. apply Z.add_le_mono_l. apply count_le. intros i _. unfold live_invite. rewrite !andb_true_iff, !Z.ltb_lt.
  intros [? ?]. split; [done|lia].
Qed.

(** Rewriting invites into ones that hold no seat, or hold one they held already. *)
Lemma seats_update t now p f d :
  (forall i, In i (invites d) -> p i = true -> live_invite t now (f i) = true -> live_invite t now i = true) ->
  seats_used t now (update_invites p f d) <= seats_used t now d.
Proof.
  intros H. rewrite !seats_used_eq. apply Z.add_le_mono_l. unfold countPendingInvites, update_invites. cbn [invites set_invites].
  apply count_map_le. intros i Hi. destruct (p i) eqn:Hp; [by apply H|done].
Qed.
Lemma closed_not_live t now s acc rev i : s <> inv_pending -> live_invite t now (with_status s acc rev i) = false.
Proof. intros Hs. unfold live_invite. cbn. destruct s; cbn; rewrite ?andb_false_r; done. Qed.

Lemma is_pending_iff id i : is_pending id i = true <-> iv_id i = id /\ iv_status i = inv_pending.
Proof. unfold is_pending. by rewrite andb_true_iff, String.eqb_eq, enum_eqb_eq. Qed.
Lemma pending_at tenant id i : ((iv_id i =s id) && (iv_tenant i =s tenant) && (iv_status i =e inv_pending)) = true <->
  iv_id i = id /\ iv_tenant i = tenant /\ iv_status i = inv_pending.
Proof. rewrite !andb_true_iff, !String.eqb_eq, enum_eqb_eq. tauto. Qed.

(** * Runs *)

Inductive op :=
| TCreate (tenant : string) (input : CreateInviteInput) (newId token : string) (now : Z)
| TAccept (token user email newId : string) (now : Z)
| TRevoke (tenant id actor : string) (now : Z)
| TResend (tenant id token : string) (now : Z)
| TRemove (tenant id actor : string)
| TChangeRole (tenant id newRole actor : string)
| TExpire (now : Z).

Section Runs.
(** The hash, and the seat limit of each tenant's plan. *)
Context (sha256 : string -> string) (cap : string -> option Z).

Definition exec (o : op) (d : team_db) : team_db :=
  match o with
  | TCreate tenant input id token now => fst (createInvite sha256 tenant input (cap tenant) id token now d)
  | TAccept token user email id now => fst (acceptInvite sha256 token user email id now d)
  | TRevoke tenant id actor now => fst (revokeInvite tenant id actor now d)
  | TResend tenant id token now => fst (resendInvite sha256 tenant id token now d)
  | TRemove tenant id actor => fst (removeMember tenant id actor d)
  | TChangeRole tenant id r actor => fst (changeMemberRole tenant id r actor d)
  | TExpire now => fst (expireStaleInvites now d)
  end.
Definition run (os : list op) (d : team_db) : team_db := fold_left (fun d o => exec o d) os d.

(** The clock after a step. *)
Definition clock (o : op) (now : Z) : Z :=
  match o with
  | TCreate _ _ _ _ n | TAccept _ _ _ _ n | TRevoke _ _ _ n | TResend _ _ _ n | TExpire n => n
  | TRemove _ _ _ | TChangeRole _ _ _ _ => now
  end.

(** A resend that does not bring a lapsed invite back. *)
Definition no_revival (o : op) (d : team_db) : Prop :=
  match o with
  | TResend tenant id _ now => forall i, In i (invites d) -> iv_id i = id -> iv_tenant i = tenant -> iv_status i = inv_pending -> now < iv_expiresAt i
  | _ => True
  end.
Fixpoint orderly (os : list op) (now : Z) (d : team_db) : Prop :=
  match os with
  | [] => True
  | o :: os => now <= clock o now /\ no_revival o d /\ orderly os (clock o now) (exec o d)
  end.
Definition final_clock (os : list op) (now : Z) : Z := fold_left (fun n o => clock o n) os now.

Definition within_cap (d : team_db) (now : Z) : Prop := forall t c, cap t = Some c -> seats_used t now d <= c.

(** What an acceptance does. *)
Lemma accept_cases token user email id now d d' res : acceptInvite sha256 token user email id now d = (d', res) ->
  (d' = d /\ forall i t r, find_invite (sha256 token) d = Some i -> iv_status i = inv_pending -> res <> Joined t r) \/
  (exists i, find_invite (sha256 token) d = Some i /\ res = expired /\
             d' = update_invites (is_pending (iv_id i)) (with_status inv_expired None None) d) \/
  exists i, find_invite (sha256 token) d = Some i /\ iv_status i = inv_pending /\ now < iv_expiresAt i /\
    iv_email i = normalizeEmail email /\ res = Joined (iv_tenant i) (iv_role i) /\
    invites d' = map (fun x => if is_pending (iv_id i) x then with_status inv_accepted (Some now) None x else x) (invites d) /\
    members d' = (if is_member (iv_tenant i) user d then members d
                  else members d ++ [{| mb_id := id; mb_tenant := iv_tenant i; mb_user := user; mb_role := iv_role i; mb_createdAt := now |}]).
Proof.
  unfold acceptInvite. destruct (find_invite _ _) as [i|] eqn:Hf; [|intros [= <- <-]; left; by split].
  destruct (iv_status i =e inv_accepted) eqn:Ha.
  { intros [= <- <-]. left. split; [done|]. intros j t r [= <-] Hp. by rewrite Hp in Ha. }
  destruct (iv_status i =e inv_revoked) eqn:Hr; [intros [= <- <-]; left; by split|].
  destruct (_ || _) eqn:He; [intros [= <- <-]; right; left; by exists i|].
  apply orb_false_iff in He as [He1 He2]. unfold isInviteExpired in He2.
  destruct (String.eqb_spec (iv_email i) (normalizeEmail email)) as [Hem|]; cbn [negb]; [|intros [= <- <-]; left; by split].
  assert (Hp : iv_status i = inv_pending) by by destruct (iv_status i).
  assert (Hcount : 1 <= count (is_pending (iv_id i)) (invites d)).
  { apply (count_pos _ _ i); [by apply List.find_some in Hf as [? _]|by apply is_pending_iff]. }
  destruct (Z.eqb_spec (count (is_pending (iv_id i)) (invites d)) 0); [lia|]. intros [= <- <-]. right. right. exists i.
  split; [done|]. split; [done|]. split; [lia|]. split; [done|]. split; [done|].
  change (is_member (iv_tenant i) user (update_invites _ _ d)) with (is_member (iv_tenant i) user d).
  by destruct (is_member (iv_tenant i) user d).
Qed.

Lemma members_app_seats t d m : (mb_tenant m = t) ->
  countActiveMembers t (set_members (members d ++ [m]) d) = countActiveMembers t d + 1.
Proof. intros <-. unfold countActiveMembers. cbn [members set_members]. rewrite count_app, count_one. by rewrite String.eqb_refl. Qed.

Lemma seats_create tenant input id token now d t c :
  cap t = Some c -> seats_used t now d <= c -> seats_used t now (fst (createInvite sha256 tenant input (cap tenant) id token now d)) <= c.
Proof.
  intros Hc Hle. unfold createInvite. destruct (parse _) as [role|]; [|done]. destruct (negb _); [done|].
  destruct (existsb _ (members d)); [done|]. destruct (seatsAvailable _ _) eqn:Hav; cbn [negb]; [|done].
  destruct (existsb _ (invites d)); [done|]. cbn [fst]. rewrite seats_used_eq in *. unfold countActiveMembers, countPendingInvites in *.
  cbn [members invites set_invites log]. rewrite count_app, count_one. unfold live_invite at 2. cbn [iv_tenant iv_status iv_expiresAt].
  destruct (String.eqb_spec tenant t) as [->|]; cbn [andb]; [|lia].
  rewrite Hc in Hav. unfold seatsAvailable in Hav.
  destruct (_ && _); lia.
Qed.

Lemma seats_accept token user email id now d t :
  seats_used t now (fst (acceptInvite sha256 token user email id now d)) <= seats_used t now d.
Proof.
  destruct (acceptInvite sha256 token user email id now d) as [d' res] eqn:H. cbn [fst].
  apply accept_cases in H as [[-> _]|[(i & _ & _ & ->)|(i & Hf & Hp & Hlive & _ & _ & Hinv & Hmem)]]; [done| |].
  - apply seats_update. intros x _ _. by rewrite closed_not_live.
  - rewrite !seats_used_eq. unfold countActiveMembers, countPendingInvites. rewrite Hinv, Hmem. clear Hinv Hmem.
    assert (Hstay : forall t x, In x (invites d) ->
      live_invite t now (if is_pending (iv_id i) x then with_status inv_accepted (Some now) None x else x) = true -> live_invite t now x = true).
    { intros t' x _. destruct (is_pending (iv_id i) x); [by rewrite closed_not_live|done]. }
    destruct (is_member (iv_tenant i) user d).
    + apply Z.add_le_mono_l. by apply count_map_le, Hstay.
    + rewrite count_app, count_one. cbn [mb_tenant]. destruct (String.eqb_spec (iv_tenant i) t) as [<-|].
      * enough (count (live_invite (iv_tenant i) now) (map (fun x => if is_pending (iv_id i) x then with_status inv_accepted (Some now) None x else x) (invites d)) + 1
          <= count (live_invite (iv_tenant i) now) (invites d)) by lia.
        apply List.find_some in Hf as [Hin _]. apply (count_map_lt _ _ _ i); [by apply Hstay|done| |].
        -- unfold live_invite. rewrite String.eqb_refl, Hp. cbn [andb]. by apply Z.ltb_lt.
        -- rewrite (proj2 (is_pending_iff (iv_id i) i)) by done. by apply closed_not_live.
      * rewrite Z.add_0_r. apply Z.add_le_mono_l. by apply count_map_le, Hstay.
Qed.

Lemma seats_members t (now : Z) f d : (forall m, mb_tenant (f m) = mb_tenant m) -> forall p,
  seats_used t now (set_members (map f (List.filter p (members d))) d) <= seats_used t now d.
Proof.
  intros Hf p. rewrite !seats_used_eq. apply Z.add_le_mono_r. unfold countActiveMembers. cbn [members set_members].
  etransitivity; [apply count_map_le|apply count_filter_le]. intros m _. by rewrite Hf.
Qed.

Lemma exec_seats o now d : now <= clock o now -> no_revival o d -> within_cap d now -> within_cap (exec o d) (clock o now).
Proof.
  intros Hle Hno Hcap t c Hc.
  assert (Hnow : seats_used t (clock o now) d <= c) by (etransitivity; [apply (seats_later t now); lia|by apply Hcap]).
  destruct o; cbn [exec clock] in *.
  - by apply seats_create.
  - etransitivity; [apply seats_accept|done].
  - unfold revokeInvite. cbn [fst]. set (p := fun i => (iv_id i =s id) && (iv_tenant i =s tenant) && (iv_status i =e inv_pending)).
    etransitivity; [|exact Hnow]. transitivity (seats_used t now0 (update_invites p (with_status inv_revoked None (Some now0)) d)).
    + by destruct (0 <? _).
    + apply seats_update. intros x _ _. by rewrite closed_not_live.
  - unfold resendInvite. destruct (List.find _ _); [|done]. destruct (_ <? _); [done|]. destruct (existsb _ _); [done|]. cbn [fst].
    etransitivity; [|exact Hnow]. apply seats_update. intros x Hx Hp%pending_at. destruct Hp as (H1 & H2 & H3).
    specialize (Hno x Hx H1 H2 H3). unfold live_invite. cbn [resent iv_tenant iv_status iv_expiresAt]. rewrite !andb_true_iff, !Z.ltb_lt. tauto.
  - unfold removeMember, removeMember_seeing. destruct (find_member _ _ _); [|done]. destruct (isLastOwner _ _); [done|]. cbn [fst].
    etransitivity; [|exact Hnow]. pose proof (seats_members t now (fun m => m) d (fun m => eq_refl)
      (fun m => negb ((mb_id m =s id) && (mb_tenant m =s tenant)))) as H. by rewrite map_id in H.
  - unfold changeMemberRole, changeMemberRole_seeing. destruct (_ && _); [done|]. destruct (parse _) as [r|]; [|done].
    destruct (find_member _ _ _); [|done]. destruct (_ && _); [done|]. cbn [fst]. etransitivity; [|exact Hnow].
    pose proof (seats_members t now (fun m => if (mb_id m =s id) && (mb_tenant m =s tenant) then with_role r m else m) d) as H.
    specialize (H ltac:(intros x; cbv beta; by destruct ((mb_id x =s id) && _)) (fun _ => true)). rewrite filter_all in H by done. exact H.
  - unfold expireStaleInvites. cbn [fst]. etransitivity; [|exact Hnow]. apply seats_update. intros x _ _. by rewrite closed_not_live.
Qed.

(** The seat limit holds: along any sequence of invites, acceptances, revocations,
    removals, role changes and expiries with a clock that does not go back, starting
    within the limits, members and pending invites together never exceed a tenant's
    seat limit, provided no resend brings a lapsed invite back. *)
Theorem seats_never_exceeded (os : list op) (now : Z) (d : team_db) :
  within_cap d now -> orderly os now d ->
  forall tenant limit, cap tenant = Some limit -> seats_used tenant (final_clock os now) (run os d) <= limit.
Proof.
  revert now d. induction os as [|o os IH]; intros now d Hcap; [by intros _|]. intros (Hle & Hno & Hos). cbn [run fold_left final_clock].
  apply (IH (clock o now) (exec o d)); [|done]. by apply exec_seats.
Qed.

(** ** Owners *)

(** New membership ids are fresh. *)
Fixpoint fresh_members (os : list op) (d : team_db) : Prop :=
  match os with
  | [] => True
  | o :: os => match o with TAccept _ _ _ id _ => ~ In id (map mb_id (members d)) | _ => True end /\ fresh_members os (exec o d)
  end.

Lemma remove_keeps_owner l tenant id m :
  NoDup (map mb_id l) -> In m l -> mb_id m = id -> mb_tenant m = tenant ->
  let owner t x := (mb_tenant x =s t) && (mb_role x =e Owner) in
  let kept x := negb ((mb_id x =s id) && (mb_tenant x =s tenant)) in
  forall t, count (owner t) l <= count (owner t) (List.filter kept l) + (if (t =s tenant) && (mb_role m =e Owner) then 1 else 0).
Proof.
  cbv zeta. intros Hnd Hin <- <- t. induction l as [|x l IH]; [by destruct Hin|]. cbn [map] in Hnd. apply NoDup_cons in Hnd as [Hx Hnd].
  cbn [List.filter]. destruct Hin as [->|Hin].
  - rewrite !String.eqb_refl. cbn [andb negb]. rewrite count_cons, (filter_all _ l).
    + rewrite (String.eqb_sym t). destruct (_ && _); lia.
    + intros y Hy. apply negb_true_iff. destruct (String.eqb_spec (mb_id y) (mb_id m)) as [He|]; [|done].
      destruct Hx. rewrite <- He. apply list_elem_of_In. by apply in_map.
  - destruct (String.eqb_spec (mb_id x) (mb_id m)) as [He|]; cbn [andb negb].
    { destruct Hx. rewrite He. apply list_elem_of_In. by apply in_map. }
    rewrite !count_cons. specialize (IH Hnd Hin). lia.
Qed.

Lemma change_keeps_owner l tenant id r m :
  NoDup (map mb_id l) -> In m l -> mb_id m = id -> mb_tenant m = tenant ->
  let owner t x := (mb_tenant x =s t) && (mb_role x =e Owner) in
  let f x := if (mb_id x =s id) && (mb_tenant x =s tenant) then with_role r x else x in
  forall t, count (owner t) l <= count (owner t) (map f l) + (if (t =s tenant) && (mb_role m =e Owner) && negb (r =e Owner) then 1 else 0).
Proof.
  cbv zeta. intros Hnd Hin <- <- t. induction l as [|x l IH]; [by destruct Hin|]. cbn [map] in Hnd. apply NoDup_cons in Hnd as [Hx Hnd].
  cbn [map]. rewrite !count_cons. destruct Hin as [->|Hin].
  - rewrite !String.eqb_refl. cbn [andb].
    rewrite (map_ext_in _ (fun x => x)), map_id.
    + rewrite (String.eqb_sym t). cbn [with_role mb_tenant mb_role].
      destruct (mb_tenant m =s t), (mb_role m =e Owner), (r =e Owner); cbn [andb negb]; lia.
    + intros y Hy. destruct (String.eqb_spec (mb_id y) (mb_id m)) as [He|]; [|done].
      destruct Hx. rewrite <- He. apply list_elem_of_In. by apply in_map.
  - destruct (String.eqb_spec (mb_id x) (mb_id m)) as [He|]; cbn [andb].
    { destruct Hx. rewrite He. apply list_elem_of_In. by apply in_map. }
    specialize (IH Hnd Hin). destruct ((mb_tenant x =s t) && _); lia.
Qed.

Lemma find_member_Some tenant id d m : find_member tenant id d = Some m -> In m (members d) /\ mb_id m = id /\ mb_tenant m = tenant.
Proof. intros [Hin Hp]%List.find_some. guards_in Hp. tauto. Qed.

Lemma exec_owner o d t : NoDup (map mb_id (members d)) -> 1 <= countOwners t d -> 1 <= countOwners t (exec o d).
Proof.
  intros Hnd Ho. destruct o; cbn [exec].
  - unfold createInvite. destruct (parse _); [|done]. destruct (negb _); [done|]. destruct (existsb _ _); [done|].
    destruct (negb _); [done|]. by destruct (existsb _ _).
  - destruct (acceptInvite sha256 token user email newId now d) as [d' res] eqn:H. cbn [fst].
    apply accept_cases in H as [[-> _]|[(i & _ & _ & ->)|(i & _ & _ & _ & _ & _ & _ & Hmem)]]; [done|done|].
    unfold countOwners in *. rewrite Hmem. destruct (is_member _ _ _); [done|]. rewrite count_app.
    pose proof (count_nonneg (fun m => (mb_tenant m =s t) && (mb_role m =e Owner))
      [{| mb_id := newId; mb_tenant := iv_tenant i; mb_user := user; mb_role := iv_role i; mb_createdAt := now |}]). lia.
  - unfold revokeInvite. cbn [fst]. by destruct (0 <? _).
  - unfold resendInvite. destruct (List.find _ _); [|done]. destruct (_ <? _); [done|]. by destruct (existsb _ _).
  - unfold removeMember, removeMember_seeing. destruct (find_member tenant id d) as [m|] eqn:Hf; [|done].
    destruct (isLastOwner (mb_role m) _) eqn:Hl; [done|]. cbn [fst]. apply find_member_Some in Hf as (Hin & Hid & Ht).
    pose proof (remove_keeps_owner (members d) tenant id m Hnd Hin Hid Ht t) as Hk. unfold countOwners in *. cbn [members set_members log].
    unfold isLastOwner in Hl. destruct (String.eqb_spec t tenant) as [->|]; cbn [andb] in Hk; [|lia].
    destruct (mb_role m =e Owner); cbn [andb] in Hl, Hk; lia.
  - unfold changeMemberRole, changeMemberRole_seeing. destruct (_ && _); [done|]. destruct (parse newRole) as [r|] eqn:Hr; [|done].
    destruct (find_member tenant id d) as [m|] eqn:Hf; [|done]. destruct (_ && _ && _) eqn:Hl; [done|]. cbn [fst].
    apply find_member_Some in Hf as (Hin & Hid & Ht).
    pose proof (change_keeps_owner (members d) tenant id r m Hnd Hin Hid Ht t) as Hk. unfold countOwners in *. cbn [members set_members log].
    assert (Hro : (newRole =s "owner") = (r =e Owner)) by (apply parse_Some in Hr; by rewrite <- Hr).
    rewrite Hro in Hl. unfold isLastOwner in Hl. rewrite enum_eqb_refl in Hl. destruct (String.eqb_spec t tenant) as [->|]; cbn [andb] in Hk; [|lia].
    destruct (mb_role m =e Owner), (r =e Owner); cbn [andb negb] in Hl, Hk; lia.
  - done.
Qed.

Lemma exec_member_ids o d : NoDup (map mb_id (members d)) ->
  match o with TAccept _ _ _ id _ => ~ In id (map mb_id (members d)) | _ => True end -> NoDup (map mb_id (members (exec o d))).
Proof.
  intros Hnd Hfresh. destruct o; cbn [exec].
  - unfold createInvite. destruct (parse _); [|done]. destruct (negb _); [done|]. destruct (existsb _ _); [done|].
    destruct (negb _); [done|]. by destruct (existsb _ _).
  - destruct (acceptInvite sha256 token user email newId now d) as [d' res] eqn:H. cbn [fst].
    apply accept_cases in H as [[-> _]|[(i & _ & _ & ->)|(i & _ & _ & _ & _ & _ & _ & Hmem)]]; [done|done|].
    rewrite Hmem. destruct (is_member _ _ _); [done|]. rewrite map_app. apply NoDup_app. split; [done|].
    split; [|apply NoDup_singleton]. intros x Hx Hy%list_elem_of_singleton. subst x. apply Hfresh. by apply list_elem_of_In.
  - unfold revokeInvite. cbn [fst]. by destruct (0 <? _).
  - unfold resendInvite. destruct (List.find _ _); [|done]. destruct (_ <? _); [done|]. by destruct (existsb _ _).
  - unfold removeMember, removeMember_seeing. destruct (find_member tenant id d); [|done]. destruct (isLastOwner _ _); [done|]. by apply NoDup_map_filter.
  - unfold changeMemberRole, changeMemberRole_seeing. destruct (_ && _); [done|]. destruct (parse newRole) as [r|]; [|done].
    destruct (find_member tenant id d); [|done]. destruct (_ && _); [done|]. cbn [fst members set_members log]. rewrite map_map.
    rewrite (map_ext _ mb_id); [done|]. intros x. by destruct (_ && _).
  - done.
Qed.

(** A workspace never loses its last owner: from tables with unique member ids,
    along any sequence of operations, each running alone, a tenant that has an owner
    keeps one, whoever is removed, demoted, invited or promoted. *)
Theorem owner_always_remains (os : list op) (d : team_db) (tenant : string) :
  NoDup (map mb_id (members d)) -> fresh_members os d -> 1 <= countOwners tenant d -> 1 <= countOwners tenant (run os d).
Proof.
  revert d. induction os as [|o os IH]; intros d Hnd; [done|]. intros [Hf Hfs] Ho. cbn [run fold_left].
  apply (IH (exec o d)); [by apply exec_member_ids|done|by apply exec_owner].
Qed.

(** ** Single use *)

(** A rewriting of the invites that leaves settled ones alone and takes no hash that
    is in use. *)
Definition careful (f : invite_row -> invite_row) (l : list invite_row) : Prop :=
  (forall i, iv_status i <> inv_pending -> f i = i) /\
  forall i, In i l -> In (iv_hash (f i)) (map iv_hash l) -> iv_hash (f i) = iv_hash i.
Definition invites_step (l l' : list invite_row) : Prop :=
  (exists f, l' = map f l /\ careful f l) \/ exists i, l' = l ++ [i] /\ ~ In (iv_hash i) (map iv_hash l).

Lemma invites_stay l : invites_step l l.
Proof. left. exists (fun i => i). rewrite map_id. by split. Qed.
Lemma invites_update (p : invite_row -> bool) f l : (forall i, p i = true -> iv_status i = inv_pending) ->
  (forall i, In i l -> In (iv_hash (f i)) (map iv_hash l) -> iv_hash (f i) = iv_hash i) ->
  invites_step l (map (fun i => if p i then f i else i) l).
Proof.
  intros Hp Hf. left. eexists. split; [reflexivity|]. split; intros i Hi; cbv beta; destruct (p i) eqn:Hpi; [|done|by apply Hf|done].
  destruct Hi. by apply Hp.
Qed.

Lemma logged_invites (b : bool) tenant event actor target d : invites (if b then log tenant event actor target d else d) = invites d.
Proof. by destruct b. Qed.
(** Every statement changes pending invites only, and issues unused hashes only. *)
Lemma exec_invites o d : invites_step (invites d) (invites (exec o d)).
Proof.
  pose proof (invites_stay (invites d)) as Hid. destruct o; cbn [exec].
  - unfold createInvite. destruct (parse _); [|done]. destruct (negb _); [done|]. destruct (existsb _ (members d)); [done|].
    destruct (negb _); [done|]. destruct (existsb _ (invites d)) eqn:Hex; [done|]. right. eexists. split; [reflexivity|].
    cbn [iv_hash]. intros (j & Hj & Hin)%in_map_iff. pose proof (existsb_false _ _ Hex j Hin) as Hb. cbv beta in Hb.
    apply orb_false_iff in Hb as [[_ Hb]%orb_false_iff _]. by rewrite Hj, String.eqb_refl in Hb.
  - destruct (acceptInvite sha256 token user email newId now d) as [d' res] eqn:H. cbn [fst].
    apply accept_cases in H as [[-> _]|[(i & _ & _ & ->)|(i & _ & _ & _ & _ & _ & Hinv & _)]]; [done| |rewrite Hinv];
      (apply invites_update; [by intros x [_ ?]%is_pending_iff|done]).
  - unfold revokeInvite. cbn [fst]. rewrite logged_invites.
    apply invites_update; [intros x Hx%pending_at; tauto|done].
  - unfold resendInvite. destruct (List.find _ _); [|done]. destruct (_ <? _); [done|]. destruct (existsb _ (invites d)) eqn:Hex; [done|].
    apply invites_update; [intros x Hx%pending_at; tauto|]. cbn [resent iv_hash]. intros x _ (j & Hj & Hin)%in_map_iff.
    pose proof (existsb_false _ _ Hex j Hin) as Hb. cbv beta in Hb. by rewrite Hj, String.eqb_refl in Hb.
  - unfold removeMember, removeMember_seeing. destruct (find_member _ _ _); [|done]. by destruct (isLastOwner _ _).
  - unfold changeMemberRole, changeMemberRole_seeing. destruct (_ && _); [done|]. destruct (parse _); [|done].
    destruct (find_member _ _ _); [|done]. by destruct (_ && _).
  - unfold expireStaleInvites. cbn [fst]. apply invites_update; [|done]. intros i Hi. rewrite andb_true_iff, enum_eqb_eq in Hi. tauto.
Qed.

Lemma find_settled h i l l' : invites_step l l' -> iv_status i <> inv_pending ->
  List.find (fun i => iv_hash i =s h) l = Some i -> List.find (fun i => iv_hash i =s h) l' = Some i.
Proof.
  intros [(f & -> & Hs & Hf)|(j & -> & _)] Hi Hfind; [|by apply find_app_l].
  assert (Hh : In h (map iv_hash l)) by (apply List.find_some in Hfind as [Hin ->%String.eqb_eq%eq_sym]; by apply in_map).
  assert (Hsub : forall x, In x l -> iv_hash (f x) = h -> iv_hash x = h) by (intros x Hx He; rewrite <- He; symmetry; apply Hf; [done|by rewrite He]).
  clear Hf Hh. induction l as [|x l IH]; [done|]. cbn [List.find map] in *. destruct (String.eqb_spec (iv_hash x) h) as [He|Hne].
  - injection Hfind as ->. rewrite (Hs i Hi), He. by rewrite String.eqb_refl.
  - destruct (String.eqb_spec (iv_hash (f x)) h) as [He|_]; [destruct Hne; by apply (Hsub x (or_introl eq_refl))|].
    apply IH; [done|]. intros y Hy. apply Hsub. by right.
Qed.

Lemma run_settled h i os d : iv_status i <> inv_pending -> find_invite h d = Some i -> find_invite h (run os d) = Some i.
Proof.
  intros Hi. revert d. induction os as [|o os IH]; intros d Hf; [done|]. cbn [run fold_left]. apply IH.
  exact (find_settled h i _ _ (exec_invites o d) Hi Hf).
Qed.

(** The row an acceptance leaves. *)
Lemma accepted_row token now d d' i :
  find_invite (sha256 token) d = Some i -> iv_status i = inv_pending ->
  invites d' = map (fun x => if is_pending (iv_id i) x then with_status inv_accepted (Some now) None x else x) (invites d) ->
  find_invite (sha256 token) d' = Some (with_status inv_accepted (Some now) None i).
Proof.
  intros Hf Hp Hinv. unfold find_invite in *. rewrite Hinv. clear Hinv. 
  set (f := fun x => if is_pending (iv_id i) x then with_status inv_accepted (Some now) None x else x).
  assert (Hh : forall x, iv_hash (f x) = iv_hash x) by (intros x; unfold f; by destruct (is_pending _ _)).
  assert (Hi : f i = with_status inv_accepted (Some now) None i) by (unfold f; by rewrite (proj2 (is_pending_iff (iv_id i) i))).
  rewrite <- Hi. clearbody f. clear Hi. induction (invites d) as [|x l IH]; [done|]. cbn [List.find map] in *. rewrite Hh.
  destruct (iv_hash x =s _); [by injection Hf as ->|by apply IH].
Qed.

(** An invite link is used once: after an acceptance that joined [user] through a
    pending invite, and along any later run (resends, revocations, expiries and
    removals included), presenting the same token changes nothing; it answers [Joined]
    exactly to those who are members at that point, [already_used] to all others. *)
Theorem accept_single_use (token user email id : string) (now : Z) (d : team_db) (i : invite_row) (tenant : string) (role : TeamRole)
    (os : list op) (user' email' id' : string) (now' : Z) :
  find_invite (sha256 token) d = Some i -> iv_status i = inv_pending ->
  snd (acceptInvite sha256 token user email id now d) = Joined tenant role ->
  let d' := run os (fst (acceptInvite sha256 token user email id now d)) in
  acceptInvite sha256 token user' email' id' now' d' = (d', if is_member tenant user' d' then Joined tenant role else already_used).
Proof.
  intros Hf Hp Hj d'. subst d'. destruct (acceptInvite sha256 token user email id now d) as [d1 res] eqn:H. cbn [fst snd] in *. subst res.
  apply accept_cases in H as [[-> Hno]|[(j & _ & ? & _)|(j & Hfj & _ & _ & _ & Hres & Hinv & _)]]; [| done|].
  - by destruct (Hno i tenant role Hf Hp).
  - rewrite Hf in Hfj. injection Hfj as <-. injection Hres as -> ->.
    pose proof (accepted_row token now d d1 i Hf Hp Hinv) as Hrow.
    apply (run_settled _ _ os) in Hrow; [|done]. unfold acceptInvite. rewrite Hrow. done.
Qed.
End Runs.

(** ** Resending *)

Section Resend.
Context (sha256 : string -> string).

Lemma find_map_none {A} (P : A -> bool) (f : A -> A) l : (forall x, In x l -> P (f x) = false) -> List.find P (map f l) = None.
Proof. induction l as [|x l IH]; intros H; [done|]. cbn. rewrite (H x (or_introl eq_refl)). apply IH. intros y Hy. apply H. by right. Qed.
Lemma find_map_only {A} (P : A -> bool) (f : A -> A) l x :
  In x l -> P (f x) = true -> (forall y, In y l -> P (f y) = true -> y = x) -> List.find P (map f l) = Some (f x).
Proof.
  induction l as [|y l IH]; [by intros []|]. intros Hin Hx Hy. cbn. destruct (P (f y)) eqn:Hp.
  - by rewrite (Hy y (or_introl eq_refl) Hp).
  - destruct Hin as [->|Hin]; [congruence|]. apply IH; [done..|]. intros z Hz. apply Hy. by right.
Qed.

(** Resending rotates the link: when a resend succeeds, the old link is unknown
    to everybody, a further resend within a minute is refused, and the new link joins
    the invited address during seven days, and is expired after them. *)
Theorem resend_rotates (tenant id token old t : string) (now : Z) (d d' : team_db) (i : invite_row) :
  NoDup (map iv_id (invites d)) -> NoDup (map iv_hash (invites d)) -> In i (invites d) -> iv_id i = id -> iv_hash i = sha256 old ->
  resendInvite sha256 tenant id token now d = (d', Ret (Resent t)) ->
  (forall user email nid n, acceptInvite sha256 old user email nid n d' = (d', not_found)) /\
  (forall t2 n, n < now + 60000 -> resendInvite sha256 tenant id t2 n d' = (d', Ret rate_limited)) /\
  (forall user email nid n, normalizeEmail email = iv_email i ->
     snd (acceptInvite sha256 token user email nid n d') = if n <? now + 604800000 then Joined tenant (iv_role i) else expired).
Proof.
  intros Hids Hhs Hin Hid Hold. unfold resendInvite. set (p := fun i => (iv_id i =s id) && (iv_tenant i =s tenant) && (iv_status i =e inv_pending)).
  destruct (List.find p _) as [j|] eqn:Hf; [|done]. pose proof Hf as Hf'. apply List.find_some in Hf' as [Hj Hpj].
  pose proof Hpj as Hpj'. apply pending_at in Hpj' as (Hjid & Hjt & Hjp).
  assert (j = i) as -> by (apply (NoDup_key_inj iv_id (invites d)); [done..|by rewrite Hid]).
  destruct (_ <? _); [done|]. destruct (existsb _ (invites d)) eqn:Hex; [done|]. intros [= <- ->].
  assert (Hnew : forall x, In x (invites d) -> iv_hash x <> sha256 t).
  { intros x Hx He. pose proof (existsb_false _ _ Hex x Hx) as Hb. cbv beta in Hb. by rewrite He, String.eqb_refl in Hb. }
  set (f := fun i => if p i then resent (sha256 t) now i else i). change (update_invites _ _ d) with (set_invites (map f (invites d)) d).
  assert (Hfi : f i = resent (sha256 t) now i) by (unfold f; by rewrite Hpj).
  assert (Honly : forall x, In x (invites d) -> p x = true -> x = i).
  { intros x Hx (Hxi & _ & _)%pending_at. by apply (NoDup_key_inj iv_id (invites d)); [done..|rewrite Hxi, Hid]. }
  split_and!.
  - intros user email nid n. unfold acceptInvite, find_invite. cbn [invites set_invites]. rewrite find_map_none; [done|].
    intros x Hx. unfold f. apply String.eqb_neq. rewrite <- Hold. destruct (p x) eqn:Hpx; cbn [resent iv_hash].
    + intros He. by apply (Hnew i Hin).
    + intros He. rewrite (NoDup_key_inj iv_hash (invites d) x i Hhs Hx Hin He) in Hpx. congruence.
  - intros t2 n Hn. unfold resendInvite. fold p. cbn [invites set_invites]. rewrite (find_map_only p f _ i); [|done|by rewrite Hfi|].
    + rewrite Hfi. cbn [resent iv_lastSentAt]. unfold INVITE_RESEND_COOLDOWN_MS. destruct (Z.ltb_spec (n - now) (60 * 1000)); [done|lia].
    + intros x Hx. unfold f. destruct (p x) eqn:Hpx; [by intros _; apply Honly|congruence].
  - intros user email nid n Hem. unfold acceptInvite, find_invite. cbn [invites set_invites].
    rewrite (find_map_only _ f _ i); [|done|by rewrite Hfi; apply String.eqb_refl|].
    + rewrite Hfi. cbn [resent iv_status iv_expiresAt iv_email iv_id iv_tenant iv_role]. rewrite Hjp. rewrite <- Hem, String.eqb_refl.
      change (inv_pending =e inv_accepted) with false. change (inv_pending =e inv_revoked) with false. change (inv_pending =e inv_expired) with false.
      cbn [orb negb]. unfold isInviteExpired, inviteExpiryFrom, INVITE_TTL_DAYS. rewrite <- Hjt.
      destruct (Z.leb_spec (now + 7 * 24 * 60 * 60 * 1000) n), (Z.ltb_spec n (now + 604800000)); [lia|done| |lia].
      assert (Hcount : 1 <= count (is_pending (iv_id i)) (map f (invites d))).
      { apply (count_pos _ _ (f i)); [by apply in_map|]. rewrite Hfi. by apply is_pending_iff. }
      destruct (Z.eqb_spec (count (is_pending (iv_id i)) (map f (invites d))) 0); [lia|done].
    + intros x Hx. unfold f. destruct (p x) eqn:Hpx; [by intros _; apply Honly|]. intros He%String.eqb_eq. by destruct (Hnew x Hx).
Qed.
End Resend.

(** * Where the guarantees stop, and witnesses *)

Definition hash0 (s : string) : string := "sha256:" +:+ s.
Definition cap0 (t : string) : option Z := Some 2.
Definition owner0 (id user : string) : member_row := {| mb_id := id; mb_tenant := "t1"; mb_user := user; mb_role := Owner; mb_createdAt := 0 |}.
Definition team0 : team_db :=
  {| members := [owner0 "m1" "u1"]; invites := []; emails := [("u1", "ann@example.com"); ("u2", "bob@example.com"); ("u3", "cyd@example.com")]; audits := [] |}.
Definition invite0 (email : string) : CreateInviteInput := {| ci_email := email; ci_role := "reviewer"; ci_invitedBy := Some "u1" |}.
Definition week : Z := 7 * 24 * 60 * 60 * 1000.

(** The resend of an invite that has lapsed gives it back a seat without counting: the
    seat was meanwhile given to a second invite, and both join a workspace of two seats. *)
Example resend_exceeds_seats :
  let d := run hash0 cap0 [TCreate "t1" (invite0 "bob@example.com") "i1" "k1" 0; TCreate "t1" (invite0 " CYD@example.com ") "i2" "k2" (week + 1);
                           TResend "t1" "i1" "k3" (week + 2)] team0 in
  seats_used "t1" (week + 2) d = 3 /\
  countActiveMembers "t1" (run hash0 cap0 [TAccept "k3" "u2" "bob@example.com" "m2" (week + 3); TAccept "k2" "u3" "cyd@example.com" "m3" (week + 4)] d) = 3.
Proof. split; reflexivity. Qed.

(** Two owners removing each other at once: both transactions count two owners, both
    delete, and the workspace has none. *)
Example concurrent_removal_leaves_no_owner :
  let d := set_members [owner0 "m1" "u1"; owner0 "m2" "u2"] team0 in
  let '(d1, r1) := removeMember_seeing d "t1" "m1" "u2" d in
  let '(d2, r2) := removeMember_seeing d "t1" "m2" "u1" d1 in
  r1 = Removed /\ r2 = Removed /\ countOwners "t1" d2 = 0.
Proof. repeat split. Qed.

Definition ops0 : list op :=
  [TCreate "t1" (invite0 "bob@example.com") "i1" "k1" 0; TCreate "t1" (invite0 "cyd@example.com") "i2" "k2" 5; TAccept "k1" "u2" " Bob@example.com" "m2" 10;
   TChangeRole "t1" "m1" "viewer" "u1"; TChangeRole "t1" "m2" "owner" "u1"; TRemove "t1" "m1" "u2"; TCreate "t1" (invite0 "cyd@example.com") "i3" "k3" 20].
Lemma seats_never_exceeded_witness :
  seats_used "t1" 20 (run hash0 cap0 ops0 team0) <= 2 /\ seats_used "t1" 20 (run hash0 cap0 ops0 team0) = 2 /\
  countOwners "t1" (run hash0 cap0 ops0 team0) = 1.
Proof.
  split; [|split; reflexivity]. apply (seats_never_exceeded hash0 cap0 ops0 0 team0); [| |reflexivity].
  - intros t c [= <-]. rewrite seats_used_eq. unfold countActiveMembers, countPendingInvites. cbn [members invites team0]. rewrite count_one.
    cbn [mb_tenant owner0]. unfold count. cbn [List.filter length]. destruct (_ =s t); lia.
  - repeat split; cbn; lia.
Defined.
Lemma owner_always_remains_witness : 1 <= countOwners "t1" (run hash0 cap0 ops0 team0).
Proof.
  apply (owner_always_remains hash0 cap0 ops0 team0 "t1").
  - by apply (bool_decide_unpack _).
  - repeat split; vm_compute; intros [H|[]]; discriminate H.
  - discriminate.
Defined.
Definition invited0 : team_db := exec hash0 cap0 (TCreate "t1" (invite0 "bob@example.com") "i1" "k1" 0) team0.
Lemma accept_single_use_witness :
  let d := run hash0 cap0 [TRemove "t1" "m2" "u1"; TExpire week] (fst (acceptInvite hash0 "k1" "u2" "bob@example.com" "m2" 10 invited0)) in
  acceptInvite hash0 "k1" "u2" "bob@example.com" "m3" 20 d = (d, already_used).
Proof.
  exact (accept_single_use hash0 cap0 "k1" "u2" "bob@example.com" "m2" 10 invited0 _ "t1" Reviewer [TRemove "t1" "m2" "u1"; TExpire week]
           "u2" "bob@example.com" "m3" 20 eq_refl eq_refl eq_refl).
Defined.
Lemma resend_rotates_witness :
  let d' := fst (resendInvite hash0 "t1" "i1" "k9" 60000 invited0) in
  acceptInvite hash0 "k1" "u2" "bob@example.com" "m2" 60001 d' = (d', not_found) /\
  snd (acceptInvite hash0 "k9" "u2" "bob@example.com" "m2" (60000 + 604799999) d') = Joined "t1" Reviewer.
Proof.
  cbv zeta. match goal with |- context [acceptInvite _ _ _ _ _ _ ?d'] => set (d := d') end.
  destruct (resend_rotates hash0 "t1" "i1" "k9" "k1" "k9" 60000 invited0 d
    {| iv_id := "i1"; iv_tenant := "t1"; iv_email := "bob@example.com"; iv_role := Reviewer; iv_hash := hash0 "k1"; iv_status := inv_pending;
       iv_expiresAt := 604800000; iv_acceptedAt := None; iv_revokedAt := None; iv_lastSentAt := 0 |}) as (H1 & _ & H3).
  - by apply (bool_decide_unpack _).
  - by apply (bool_decide_unpack _).
  - by left.
  - reflexivity.
  - reflexivity.
  - reflexivity.
  - split; [apply H1|exact (H3 "u2" "bob@example.com" "m2" (60000 + 604799999) eq_refl)].
Defined.
End Team.
