(* ===== verification/Incident.v ===== *)
(** Security detections and cyberbullying incidents
    ([packages/core/src/security.ts], [cyberbullying-incident.ts]): the two
    lifecycles, detection triage, case tasks, report validation, and the
    operations an actor is offered. *)
From S2P Require Import Prelude Access.
Open Scope string_scope.
Open Scope list_scope.
Open Scope Z_scope.
Open Scope tam_scope.

Module Incident.
Import Access.

(** * The suite's vocabulary *)

(* src: packages/core/src/security.ts:20-24 SecurityScoreScope *)
Inductive SecurityScoreScope :=
| Scope_Tenant | Scope_Brand | Scope_Account.
#[export] Instance SecurityScoreScope_dec : EqDecision SecurityScoreScope.
Proof. solve_decision. Defined.
#[export] Program Instance SecurityScoreScope_enum : JsEnum SecurityScoreScope := {|
  js_name x := match x with
    | Scope_Tenant => "tenant" | Scope_Brand => "brand" | Scope_Account => "account" end;
  js_values :=
    [Scope_Tenant; Scope_Brand; Scope_Account] |}.
Solve All Obligations with solve_js_enum.

(* src: packages/core/src/security.ts:30-41 SecurityScoreDimension *)
Inductive SecurityScoreDimension :=
| Dim_Access | Dim_Connector | Dim_Coverage | Dim_Response | Dim_Compliance.
#[export] Instance SecurityScoreDimension_dec : EqDecision SecurityScoreDimension.
Proof. solve_decision. Defined.
#[export] Program Instance SecurityScoreDimension_enum : JsEnum SecurityScoreDimension := {|
  js_name x := match x with
    | Dim_Access => "access" | Dim_Connector => "connector" | Dim_Coverage => "coverage"
    | Dim_Response => "response" | Dim_Compliance => "compliance" end;
  js_values :=
    [Dim_Access; Dim_Connector; Dim_Coverage; Dim_Response; Dim_Compliance] |}.
Solve All Obligations with solve_js_enum.

(* src: packages/core/src/security.ts:49-56 SecurityDetectionSubjectType *)
Inductive SecurityDetectionSubjectType :=
| Subject_User | Subject_ConnectedAccount | Subject_Brand.
#[export] Instance SecurityDetectionSubjectType_dec : EqDecision SecurityDetectionSubjectType.
Proof. solve_decision. Defined.
#[export] Program Instance SecurityDetectionSubjectType_enum : JsEnum SecurityDetectionSubjectType := {|
  js_name x := match x with
    | Subject_User => "user" | Subject_ConnectedAccount => "connected_account" | Subject_Brand => "brand" end;
  js_values :=
    [Subject_User; Subject_ConnectedAccount; Subject_Brand] |}.
Solve All Obligations with solve_js_enum.

(* src: packages/core/src/security.ts:62-84 SecurityDetectionKind *)
Inductive SecurityDetectionKind :=
| K_NewDevice | K_ImpossibleTravel | K_CredentialStuffing | K_MfaDisabled | K_BreachExposure
| K_PrivilegeEscalation | K_SessionAnomaly | K_PasswordChanged | K_TokenExpired | K_MultipleFailedActions
| K_ManualFlag | K_TokenRevoked | K_PermissionDrift | K_AccountNameChange | K_Impersonation | K_HandleSquat
| K_PhishingAbuse.
#[export] Instance SecurityDetectionKind_dec : EqDecision SecurityDetectionKind.
Proof. solve_decision. Defined.
#[export] Program Instance SecurityDetectionKind_enum : JsEnum SecurityDetectionKind := {|
  js_name x := match x with
    | K_NewDevice => "new_device" | K_ImpossibleTravel => "impossible_travel"
    | K_CredentialStuffing => "credential_stuffing" | K_MfaDisabled => "mfa_disabled"
    | K_BreachExposure => "breach_exposure" | K_PrivilegeEscalation => "privilege_escalation"
    | K_SessionAnomaly => "session_anomaly" | K_PasswordChanged => "password_changed"
    | K_TokenExpired => "token_expired" | K_MultipleFailedActions => "multiple_failed_actions"
    | K_ManualFlag => "manual_flag" | K_TokenRevoked => "token_revoked"
    | K_PermissionDrift => "permission_drift" | K_AccountNameChange => "account_name_change"
    | K_Impersonation => "impersonation" | K_HandleSquat => "handle_squat"
    | K_PhishingAbuse => "phishing_abuse" end;
  js_values :=
    [K_NewDevice; K_ImpossibleTravel; K_CredentialStuffing; K_MfaDisabled; K_BreachExposure;
     K_PrivilegeEscalation; K_SessionAnomaly; K_PasswordChanged; K_TokenExpired; K_MultipleFailedActions;
     K_ManualFlag; K_TokenRevoked; K_PermissionDrift; K_AccountNameChange; K_Impersonation; K_HandleSquat;
     K_PhishingAbuse] |}.
Solve All Obligations with solve_js_enum.

(* src: packages/core/src/security.ts:137-143 SecurityDetectionStatus *)
Inductive SecurityDetectionStatus :=
| D_Open | D_Acknowledged | D_Dismissed | D_Confirmed | D_Resolved.
#[export] Instance SecurityDetectionStatus_dec : EqDecision SecurityDetectionStatus.
Proof. solve_decision. Defined.
#[export] Program Instance SecurityDetectionStatus_enum : JsEnum SecurityDetectionStatus := {|
  js_name x := match x with
    | D_Open => "open" | D_Acknowledged => "acknowledged" | D_Dismissed => "dismissed"
    | D_Confirmed => "confirmed" | D_Resolved => "resolved" end;
  js_values :=
    [D_Open; D_Acknowledged; D_Dismissed; D_Confirmed; D_Resolved] |}.
Solve All Obligations with solve_js_enum.

(* src: packages/core/src/security.ts:209-215 BrandProtectionKind *)
Inductive BrandProtectionKind :=
| BPK_Impersonation | BPK_HandleSquat | BPK_Counterfeit | BPK_Phishing | BPK_BrandAttack.
#[export] Instance BrandProtectionKind_dec : EqDecision BrandProtectionKind.
Proof. solve_decision. Defined.
#[export] Program Instance BrandProtectionKind_enum : JsEnum BrandProtectionKind := {|
  js_name x := match x with
    | BPK_Impersonation => "impersonation" | BPK_HandleSquat => "handle_squat"
    | BPK_Counterfeit => "counterfeit" | BPK_Phishing => "phishing" | BPK_BrandAttack => "brand_attack" end;
  js_values :=
    [BPK_Impersonation; BPK_HandleSquat; BPK_Counterfeit; BPK_Phishing; BPK_BrandAttack] |}.
Solve All Obligations with solve_js_enum.

(* src: packages/core/src/security.ts:218-225 BrandProtectionSource *)
Inductive BrandProtectionSource :=
| BPS_Detected | BPS_UserReported | BPS_Api.
#[export] Instance BrandProtectionSource_dec : EqDecision BrandProtectionSource.
Proof. solve_decision. Defined.
#[export] Program Instance BrandProtectionSource_enum : JsEnum BrandProtectionSource := {|
  js_name x := match x with
    | BPS_Detected => "detected" | BPS_UserReported => "user_reported" | BPS_Api => "api" end;
  js_values :=
    [BPS_Detected; BPS_UserReported; BPS_Api] |}.
Solve All Obligations with solve_js_enum.

(* src: packages/core/src/security.ts:227-233 BrandProtectionStatus *)
Inductive BrandProtectionStatus :=
| BP_Open | BP_Investigating | BP_ReportedToPlatform | BP_Resolved | BP_Dismissed.
#[export] Instance BrandProtectionStatus_dec : EqDecision BrandProtectionStatus.
Proof. solve_decision. Defined.
#[export] Program Instance BrandProtectionStatus_enum : JsEnum BrandProtectionStatus := {|
  js_name x := match x with
    | BP_Open => "open" | BP_Investigating => "investigating"
    | BP_ReportedToPlatform => "reported_to_platform" | BP_Resolved => "resolved"
    | BP_Dismissed => "dismissed" end;
  js_values :=
    [BP_Open; BP_Investigating; BP_ReportedToPlatform; BP_Resolved; BP_Dismissed] |}.
Solve All Obligations with solve_js_enum.

(* src: packages/core/src/security.ts:245-254 IncidentCategory *)
Inductive IncidentCategory :=
| Cat_Reputation | Cat_AccountTakeover | Cat_BrandAbuse | Cat_CoordinatedAttack | Cat_ConnectorCompromise
| Cat_DataExposure | Cat_Cyberbullying.
#[export] Instance IncidentCategory_dec : EqDecision IncidentCategory.
Proof. solve_decision. Defined.
#[export] Program Instance IncidentCategory_enum : JsEnum IncidentCategory := {|
  js_name x := match x with
    | Cat_Reputation => "reputation" | Cat_AccountTakeover => "account_takeover"
    | Cat_BrandAbuse => "brand_abuse" | Cat_CoordinatedAttack => "coordinated_attack"
    | Cat_ConnectorCompromise => "connector_compromise" | Cat_DataExposure => "data_exposure"
    | Cat_Cyberbullying => "cyberbullying" end;
  js_values :=
    [Cat_Reputation; Cat_AccountTakeover; Cat_BrandAbuse; Cat_CoordinatedAttack; Cat_ConnectorCompromise;
     Cat_DataExposure; Cat_Cyberbullying] |}.
Solve All Obligations with solve_js_enum.

(* src: packages/core/src/security.ts:262-271 IncidentLifecycleStatus *)
Inductive IncidentLifecycleStatus :=
| I_Open | I_UnderReview | I_Acknowledged | I_Confirmed | I_ActionRequired | I_Resolved | I_Dismissed
| I_Archived.
#[export] Instance IncidentLifecycleStatus_dec : EqDecision IncidentLifecycleStatus.
Proof. solve_decision. Defined.
#[export] Program Instance IncidentLifecycleStatus_enum : JsEnum IncidentLifecycleStatus := {|
  js_name x := match x with
    | I_Open => "open" | I_UnderReview => "under_review" | I_Acknowledged => "acknowledged"
    | I_Confirmed => "confirmed" | I_ActionRequired => "action_required" | I_Resolved => "resolved"
    | I_Dismissed => "dismissed" | I_Archived => "archived" end;
  js_values :=
    [I_Open; I_UnderReview; I_Acknowledged; I_Confirmed; I_ActionRequired; I_Resolved; I_Dismissed;
     I_Archived] |}.
Solve All Obligations with solve_js_enum.

(** * Detections *)

(* src: packages/core/src/security.ts:95-104 ATO_DETECTION_KINDS *)
Definition ATO_DETECTION_KINDS : list SecurityDetectionKind :=
  [K_NewDevice; K_SessionAnomaly; K_PasswordChanged; K_PrivilegeEscalation;
   K_TokenRevoked; K_TokenExpired; K_MultipleFailedActions; K_ManualFlag].

(* src: packages/core/src/security.ts:107-109 isAtoDetectionKind *)
Definition isAtoDetectionKind (kind : SecurityDetectionKind) : bool := bool_decide (kind ∈ ATO_DETECTION_KINDS).

(* src: packages/core/src/security.ts:116-125 ATO_DETECTION_TYPE *)
Definition ATO_DETECTION_TYPE : list (string * SecurityDetectionKind) :=
  [("UNKNOWN_DEVICE", K_NewDevice); ("SESSION_ANOMALY", K_SessionAnomaly); ("PASSWORD_CHANGED", K_PasswordChanged);
   ("PRIVILEGE_CHANGED", K_PrivilegeEscalation); ("TOKEN_REVOKED", K_TokenRevoked); ("TOKEN_EXPIRED", K_TokenExpired);
   ("MULTIPLE_FAILED_ACTIONS", K_MultipleFailedActions); ("MANUAL_FLAG", K_ManualFlag)].

(* src: packages/core/src/security.ts:146-149 TERMINAL_DETECTION_STATUSES *)
Definition TERMINAL_DETECTION_STATUSES : list SecurityDetectionStatus := [D_Dismissed; D_Resolved].

(* src: packages/core/src/security.ts:156-174 DETECTION_STATUS_TRANSITIONS *)
Definition DETECTION_STATUS_TRANSITIONS (from : SecurityDetectionStatus) : list SecurityDetectionStatus :=
  match from with
  | D_Open => [D_Acknowledged; D_Confirmed; D_Dismissed; D_Resolved]
  | D_Acknowledged => [D_Confirmed; D_Dismissed; D_Resolved]
  | D_Confirmed => [D_Resolved; D_Dismissed]
  | D_Dismissed | D_Resolved => []
  end.

(* src: packages/core/src/security.ts:177-179 canTransitionDetection *)
Definition canTransitionDetection (from to : SecurityDetectionStatus) : bool :=
  bool_decide (to ∈ DETECTION_STATUS_TRANSITIONS from).

(* src: packages/core/src/security.ts:330-339 SECURITY_AUDIT_EVENTS *)
Inductive SECURITY_AUDIT_EVENTS :=
| scoreSnapshot | detectionOpened | detectionAcknowledged | detectionDismissed
| detectionConfirmed | detectionResolved | brandCaseOpened | brandCaseStatusChanged.
#[export] Program Instance SECURITY_AUDIT_EVENTS_enum : JsEnum SECURITY_AUDIT_EVENTS := {|
  js_name e := match e with
    | scoreSnapshot => "security.score.snapshot" | detectionOpened => "security.detection.opened"
    | detectionAcknowledged => "security.detection.acknowledged" | detectionDismissed => "security.detection.dismissed"
    | detectionConfirmed => "security.detection.confirmed" | detectionResolved => "security.detection.resolved"
    | brandCaseOpened => "brand_protection.case.opened"
    | brandCaseStatusChanged => "brand_protection.case.status_changed" end;
  js_values := [scoreSnapshot; detectionOpened; detectionAcknowledged; detectionDismissed;
    detectionConfirmed; detectionResolved; brandCaseOpened; brandCaseStatusChanged] |}.
Solve All Obligations with solve_js_enum.

(* src: packages/core/src/security.ts:182-190 detectionTransitionAuditEvent *)
Definition detectionTransitionAuditEvent (to : SecurityDetectionStatus) : string :=
  match to with
  | D_Acknowledged => js_name detectionAcknowledged
  | D_Dismissed => js_name detectionDismissed
  | D_Confirmed => js_name detectionConfirmed
  | D_Resolved => js_name detectionResolved
  | D_Open => js_name detectionOpened
  end.

(* src: packages/core/src/security.ts:197-202 S2_DETECTION_STATUS *)
Definition S2_DETECTION_STATUS : list (string * SecurityDetectionStatus) :=
  [("NEW", D_Open); ("ACKNOWLEDGED", D_Acknowledged); ("RESOLVED", D_Resolved); ("FALSE_POSITIVE", D_Dismissed)].

(** * The incident lifecycle *)

(* src: packages/core/src/security.ts:274-277 TERMINAL_INCIDENT_STATUSES *)
Definition TERMINAL_INCIDENT_STATUSES : list IncidentLifecycleStatus := [I_Dismissed; I_Archived].

(* src: packages/core/src/security.ts:286-295 INCIDENT_STATUS_TRANSITIONS *)
Definition INCIDENT_STATUS_TRANSITIONS (from : IncidentLifecycleStatus) : list IncidentLifecycleStatus :=
  match from with
  | I_Open => [I_UnderReview; I_Dismissed]
  | I_UnderReview => [I_Acknowledged; I_Confirmed; I_Dismissed]
  | I_Acknowledged => [I_Confirmed; I_ActionRequired; I_Resolved; I_Dismissed]
  | I_Confirmed => [I_ActionRequired; I_Resolved]
  | I_ActionRequired => [I_Resolved]
  | I_Resolved => [I_Archived]
  | I_Dismissed => []
  | I_Archived => []
  end.

(* src: packages/core/src/security.ts:298-302 INCIDENT_REOPEN_TRANSITIONS *)
Definition INCIDENT_REOPEN_TRANSITIONS (from : IncidentLifecycleStatus) : option IncidentLifecycleStatus :=
  match from with
  | I_Resolved | I_Dismissed | I_Archived => Some I_UnderReview
  | _ => None
  end.

(* src: packages/core/src/security.ts:305-311 INCIDENT_TRANSITION_REQUIRES_REASON *)
Definition INCIDENT_TRANSITION_REQUIRES_REASON : list IncidentLifecycleStatus :=
  [I_Confirmed; I_ActionRequired; I_Resolved; I_Dismissed; I_Archived].

(* src: packages/core/src/security.ts:314-316 canTransitionIncident *)
Definition canTransitionIncident (from to : IncidentLifecycleStatus) : bool :=
  bool_decide (to ∈ INCIDENT_STATUS_TRANSITIONS from).

(* src: packages/core/src/security.ts:324-326 incidentTransitionRequiresReason *)
Definition incidentTransitionRequiresReason (to : IncidentLifecycleStatus) : bool :=
  bool_decide (to ∈ INCIDENT_TRANSITION_REQUIRES_REASON).

(* src: packages/core/src/cyberbullying-incident.ts:454-454 IncidentTransitionError *)
Inductive IncidentTransitionError := illegal_transition | e_terminal | no_change | reason_required.

(* src: packages/core/src/cyberbullying-incident.ts:456-463 IncidentTransitionResult *)
Record IncidentTransitionResult := {
  ok : bool; r_from : IncidentLifecycleStatus; r_to : IncidentLifecycleStatus; reopen : bool;
  error : option IncidentTransitionError
}.

Definition blank (reason : option string) : bool :=
  negb (truthy reason) || (trim (reason ?? "") =s "").

(* src: packages/core/src/cyberbullying-incident.ts:471-496 applyIncidentTransition *)
Definition applyIncidentTransition (from to : IncidentLifecycleStatus) (opt_reopen : option bool)
    (reason : option string) : IncidentTransitionResult :=
  let is_reopen := opt_reopen ?? false in
  let fail e := {| ok := false; r_from := from; r_to := to; reopen := is_reopen; error := Some e |} in
  let good := {| ok := true; r_from := from; r_to := to; reopen := is_reopen; error := None |} in
  if from =e to then fail no_change
  else if is_reopen then
    let target := INCIDENT_REOPEN_TRANSITIONS from in
    if negb (is_some target) || negb (bool_decide (target = Some to)) then
      fail (if bool_decide (from ∈ TERMINAL_INCIDENT_STATUSES) || (from =e I_Resolved)
            then illegal_transition else illegal_transition)
    else if blank reason then fail reason_required
    else good
  else if negb (canTransitionIncident from to) then
    fail (if bool_decide (from ∈ TERMINAL_INCIDENT_STATUSES) then e_terminal else illegal_transition)
  else if incidentTransitionRequiresReason to && blank reason then fail reason_required
  else good.

(* src: packages/core/src/cyberbullying-incident.ts:506-515 permissionForIncidentTransition *)
Definition permissionForIncidentTransition (to : IncidentLifecycleStatus) : Permission :=
  match to with
  | I_UnderReview | I_Acknowledged | I_Dismissed => CyberbullyingReview
  | _ => CyberbullyingManage
  end.

(* src: packages/core/src/cyberbullying-incident.ts:518-520 isReopenableStatus *)
Definition isReopenableStatus (status : IncidentLifecycleStatus) : bool :=
  is_some (INCIDENT_REOPEN_TRANSITIONS status).

(* src: packages/core/src/cyberbullying-incident.ts:588-597 AvailableIncidentActions *)
Record AvailableIncidentActions := {
  transitions : list (IncidentLifecycleStatus * bool);
  canReopen : bool; canAssign : bool; canReassign : bool; canUnassign : bool; canAddNote : bool
}.

(* src: packages/core/src/cyberbullying-incident.ts:529-551 availableIncidentActions *)
Definition availableIncidentActions (r : Role) (status : IncidentLifecycleStatus) (assigned : bool) : AvailableIncidentActions :=
  let review := can r CyberbullyingReview in
  let manage := can r CyberbullyingManage in
  {| transitions := map (fun to => (to, incidentTransitionRequiresReason to))
       (List.filter (fun to => can r (permissionForIncidentTransition to)) (INCIDENT_STATUS_TRANSITIONS status));
     canReopen := manage && isReopenableStatus status;
     canAssign := review && negb assigned;
     canReassign := manage && assigned;
     canUnassign := manage && assigned;
     canAddNote := review |}.

(* src: packages/core/src/cyberbullying-incident.ts:24-27 IncidentReportSource *)
Inductive IncidentReportSource :=
| RS_ManualReport | RS_Detection.
#[export] Instance IncidentReportSource_dec : EqDecision IncidentReportSource.
Proof. solve_decision. Defined.
#[export] Program Instance IncidentReportSource_enum : JsEnum IncidentReportSource := {|
  js_name x := match x with
    | RS_ManualReport => "manual_report" | RS_Detection => "detection" end;
  js_values :=
    [RS_ManualReport; RS_Detection] |}.
Solve All Obligations with solve_js_enum.

(* src: packages/core/src/cyberbullying-incident.ts:35-42 CyberbullyingCategory *)
Inductive CyberbullyingCategory :=
| CC_Harassment | CC_Threats | CC_Impersonation | CC_Doxxing | CC_Exclusion | CC_Other.
#[export] Instance CyberbullyingCategory_dec : EqDecision CyberbullyingCategory.
Proof. solve_decision. Defined.
#[export] Program Instance CyberbullyingCategory_enum : JsEnum CyberbullyingCategory := {|
  js_name x := match x with
    | CC_Harassment => "harassment" | CC_Threats => "threats" | CC_Impersonation => "impersonation"
    | CC_Doxxing => "doxxing" | CC_Exclusion => "exclusion" | CC_Other => "other" end;
  js_values :=
    [CC_Harassment; CC_Threats; CC_Impersonation; CC_Doxxing; CC_Exclusion; CC_Other] |}.
Solve All Obligations with solve_js_enum.

(* src: packages/core/src/cyberbullying-incident.ts:128-134 IncidentParticipantRole *)
Inductive IncidentParticipantRole :=
| PR_ProtectedSubject | PR_Reporter | PR_AllegedActor | PR_Reviewer | PR_TrustedContact.
#[export] Instance IncidentParticipantRole_dec : EqDecision IncidentParticipantRole.
Proof. solve_decision. Defined.
#[export] Program Instance IncidentParticipantRole_enum : JsEnum IncidentParticipantRole := {|
  js_name x := match x with
    | PR_ProtectedSubject => "protected_subject" | PR_Reporter => "reporter"
    | PR_AllegedActor => "alleged_actor" | PR_Reviewer => "reviewer"
    | PR_TrustedContact => "trusted_contact" end;
  js_values :=
    [PR_ProtectedSubject; PR_Reporter; PR_AllegedActor; PR_Reviewer; PR_TrustedContact] |}.
Solve All Obligations with solve_js_enum.

(* src: packages/core/src/cyberbullying-incident.ts:137-186 IncidentTimelineEventType *)
Inductive IncidentTimelineEventType :=
| TE_Created | TE_ReviewStarted | TE_Acknowledged | TE_Confirmed | TE_Dismissed | TE_ActionRequired
| TE_Resolved | TE_Archived | TE_Reopened | TE_DetectionLinked | TE_EvidenceLinked | TE_ParticipantAdded
| TE_ParticipantRemoved | TE_ReviewerAssigned | TE_ReviewerReassigned | TE_ReviewerUnassigned
| TE_NoteAdded | TE_ProtectionPlanUpdated | TE_TaskCreated | TE_TaskUpdated | TE_TaskCompleted
| TE_FollowUpUpdated | TE_MilestoneChanged | TE_SlaDueSoonDetected | TE_SlaOverdueDetected
| TE_EscalationCreated | TE_EscalationResolved | TE_EscalationCancelled | TE_EscalationTargetChanged
| TE_ComplianceReportCreated | TE_ComplianceRedactionDraftCreated | TE_ComplianceRedactionSubmitted
| TE_ComplianceRedactionRejected | TE_ComplianceRedactionApproved | TE_ComplianceRedactedSnapshotCreated
| TE_ComplianceExportAuthorizationRequested | TE_ComplianceExportAuthorizationApproved
| TE_ComplianceExportAuthorizationRejected | TE_ComplianceExportAuthorizationCancelled
| TE_ComplianceExportPackagePrepared.
#[export] Instance IncidentTimelineEventType_dec : EqDecision IncidentTimelineEventType.
Proof. solve_decision. Defined.
#[export] Program Instance IncidentTimelineEventType_enum : JsEnum IncidentTimelineEventType := {|
  js_name x := match x with
    | TE_Created => "created" | TE_ReviewStarted => "review_started" | TE_Acknowledged => "acknowledged"
    | TE_Confirmed => "confirmed" | TE_Dismissed => "dismissed" | TE_ActionRequired => "action_required"
    | TE_Resolved => "resolved" | TE_Archived => "archived" | TE_Reopened => "reopened"
    | TE_DetectionLinked => "detection_linked" | TE_EvidenceLinked => "evidence_linked"
    | TE_ParticipantAdded => "participant_added" | TE_ParticipantRemoved => "participant_removed"
    | TE_ReviewerAssigned => "reviewer_assigned" | TE_ReviewerReassigned => "reviewer_reassigned"
    | TE_ReviewerUnassigned => "reviewer_unassigned" | TE_NoteAdded => "note_added"
    | TE_ProtectionPlanUpdated => "protection_plan_updated" | TE_TaskCreated => "task_created"
    | TE_TaskUpdated => "task_updated" | TE_TaskCompleted => "task_completed"
    | TE_FollowUpUpdated => "follow_up_updated" | TE_MilestoneChanged => "milestone_changed"
    | TE_SlaDueSoonDetected => "sla_due_soon_detected" | TE_SlaOverdueDetected => "sla_overdue_detected"
    | TE_EscalationCreated => "escalation_created" | TE_EscalationResolved => "escalation_resolved"
    | TE_EscalationCancelled => "escalation_cancelled"
    | TE_EscalationTargetChanged => "escalation_target_changed"
    | TE_ComplianceReportCreated => "compliance_report_created"
    | TE_ComplianceRedactionDraftCreated => "compliance_redaction_draft_created"
    | TE_ComplianceRedactionSubmitted => "compliance_redaction_submitted"
    | TE_ComplianceRedactionRejected => "compliance_redaction_rejected"
    | TE_ComplianceRedactionApproved => "compliance_redaction_approved"
    | TE_ComplianceRedactedSnapshotCreated => "compliance_redacted_snapshot_created"
    | TE_ComplianceExportAuthorizationRequested => "compliance_export_authorization_requested"
    | TE_ComplianceExportAuthorizationApproved => "compliance_export_authorization_approved"
    | TE_ComplianceExportAuthorizationRejected => "compliance_export_authorization_rejected"
    | TE_ComplianceExportAuthorizationCancelled => "compliance_export_authorization_cancelled"
    | TE_ComplianceExportPackagePrepared => "compliance_export_package_prepared" end;
  js_values :=
    [TE_Created; TE_ReviewStarted; TE_Acknowledged; TE_Confirmed; TE_Dismissed; TE_ActionRequired;
     TE_Resolved; TE_Archived; TE_Reopened; TE_DetectionLinked; TE_EvidenceLinked; TE_ParticipantAdded;
     TE_ParticipantRemoved; TE_ReviewerAssigned; TE_ReviewerReassigned; TE_ReviewerUnassigned;
     TE_NoteAdded; TE_ProtectionPlanUpdated; TE_TaskCreated; TE_TaskUpdated; TE_TaskCompleted;
     TE_FollowUpUpdated; TE_MilestoneChanged; TE_SlaDueSoonDetected; TE_SlaOverdueDetected;
     TE_EscalationCreated; TE_EscalationResolved; TE_EscalationCancelled; TE_EscalationTargetChanged;
     TE_ComplianceReportCreated; TE_ComplianceRedactionDraftCreated; TE_ComplianceRedactionSubmitted;
     TE_ComplianceRedactionRejected; TE_ComplianceRedactionApproved; TE_ComplianceRedactedSnapshotCreated;
     TE_ComplianceExportAuthorizationRequested; TE_ComplianceExportAuthorizationApproved;
     TE_ComplianceExportAuthorizationRejected; TE_ComplianceExportAuthorizationCancelled;
     TE_ComplianceExportPackagePrepared] |}.
Solve All Obligations with solve_js_enum.

(* src: packages/core/src/cyberbullying-incident.ts:193-197 IncidentAssignmentAction *)
Inductive IncidentAssignmentAction :=
| AA_Assigned | AA_Reassigned | AA_Unassigned.
#[export] Instance IncidentAssignmentAction_dec : EqDecision IncidentAssignmentAction.
Proof. solve_decision. Defined.
#[export] Program Instance IncidentAssignmentAction_enum : JsEnum IncidentAssignmentAction := {|
  js_name x := match x with
    | AA_Assigned => "assigned" | AA_Reassigned => "reassigned" | AA_Unassigned => "unassigned" end;
  js_values :=
    [AA_Assigned; AA_Reassigned; AA_Unassigned] |}.
Solve All Obligations with solve_js_enum.

(* src: packages/core/src/cyberbullying-incident.ts:206-212 CyberbullyingDetectionStatus *)
Inductive CyberbullyingDetectionStatus :=
| DS_New | DS_UnderReview | DS_FalsePositive | DS_LinkedToIncident | DS_Ignored.
#[export] Instance CyberbullyingDetectionStatus_dec : EqDecision CyberbullyingDetectionStatus.
Proof. solve_decision. Defined.
#[export] Program Instance CyberbullyingDetectionStatus_enum : JsEnum CyberbullyingDetectionStatus := {|
  js_name x := match x with
    | DS_New => "new" | DS_UnderReview => "under_review" | DS_FalsePositive => "false_positive"
    | DS_LinkedToIncident => "linked_to_incident" | DS_Ignored => "ignored" end;
  js_values :=
    [DS_New; DS_UnderReview; DS_FalsePositive; DS_LinkedToIncident; DS_Ignored] |}.
Solve All Obligations with solve_js_enum.

(* src: packages/core/src/cyberbullying-incident.ts:215-221 CyberbullyingDetectionEventType *)
Inductive CyberbullyingDetectionEventType :=
| DE_ReviewStarted | DE_Ignored | DE_FalsePositive | DE_Linked | DE_Reopened.
#[export] Instance CyberbullyingDetectionEventType_dec : EqDecision CyberbullyingDetectionEventType.
Proof. solve_decision. Defined.
#[export] Program Instance CyberbullyingDetectionEventType_enum : JsEnum CyberbullyingDetectionEventType := {|
  js_name x := match x with
    | DE_ReviewStarted => "detection_review_started" | DE_Ignored => "detection_ignored"
    | DE_FalsePositive => "detection_false_positive" | DE_Linked => "detection_linked"
    | DE_Reopened => "detection_reopened" end;
  js_values :=
    [DE_ReviewStarted; DE_Ignored; DE_FalsePositive; DE_Linked; DE_Reopened] |}.
Solve All Obligations with solve_js_enum.

(* src: packages/core/src/cyberbullying-incident.ts:224-224 CyberbullyingDetectionOp *)
Inductive CyberbullyingDetectionOp :=
| op_start_review | op_ignore | op_false_positive | op_reopen | op_create_incident.
#[export] Instance CyberbullyingDetectionOp_dec : EqDecision CyberbullyingDetectionOp.
Proof. solve_decision. Defined.
#[export] Program Instance CyberbullyingDetectionOp_enum : JsEnum CyberbullyingDetectionOp := {|
  js_name x := match x with
    | op_start_review => "start_review" | op_ignore => "ignore" | op_false_positive => "false_positive"
    | op_reopen => "reopen" | op_create_incident => "create_incident" end;
  js_values :=
    [op_start_review; op_ignore; op_false_positive; op_reopen; op_create_incident] |}.
Solve All Obligations with solve_js_enum.

(* src: packages/core/src/cyberbullying-incident.ts:280-285 CaseRiskLevel *)
Inductive CaseRiskLevel :=
| CR_Low | CR_Medium | CR_High | CR_Critical.
#[export] Instance CaseRiskLevel_dec : EqDecision CaseRiskLevel.
Proof. solve_decision. Defined.
#[export] Program Instance CaseRiskLevel_enum : JsEnum CaseRiskLevel := {|
  js_name x := match x with
    | CR_Low => "low" | CR_Medium => "medium" | CR_High => "high" | CR_Critical => "critical" end;
  js_values :=
    [CR_Low; CR_Medium; CR_High; CR_Critical] |}.
Solve All Obligations with solve_js_enum.

(* src: packages/core/src/cyberbullying-incident.ts:292-297 CaseProtectionStatus *)
Inductive CaseProtectionStatus :=
| CP_NotStarted | CP_Monitoring | CP_Active | CP_Resolved.
#[export] Instance CaseProtectionStatus_dec : EqDecision CaseProtectionStatus.
Proof. solve_decision. Defined.
#[export] Program Instance CaseProtectionStatus_enum : JsEnum CaseProtectionStatus := {|
  js_name x := match x with
    | CP_NotStarted => "not_started" | CP_Monitoring => "monitoring" | CP_Active => "active"
    | CP_Resolved => "resolved" end;
  js_values :=
    [CP_NotStarted; CP_Monitoring; CP_Active; CP_Resolved] |}.
Solve All Obligations with solve_js_enum.

(* src: packages/core/src/cyberbullying-incident.ts:304-309 CaseTaskStatus *)
Inductive CaseTaskStatus :=
| CT_Todo | CT_InProgress | CT_Done | CT_Cancelled.
#[export] Instance CaseTaskStatus_dec : EqDecision CaseTaskStatus.
Proof. solve_decision. Defined.
#[export] Program Instance CaseTaskStatus_enum : JsEnum CaseTaskStatus := {|
  js_name x := match x with
    | CT_Todo => "todo" | CT_InProgress => "in_progress" | CT_Done => "done" | CT_Cancelled => "cancelled" end;
  js_values :=
    [CT_Todo; CT_InProgress; CT_Done; CT_Cancelled] |}.
Solve All Obligations with solve_js_enum.

(* src: packages/core/src/cyberbullying-incident.ts:328-334 CaseMilestoneKey *)
Inductive CaseMilestoneKey :=
| CM_InitialReview | CM_EvidenceCollected | CM_VictimContacted | CM_ProtectionActive | CM_Resolved.
#[export] Instance CaseMilestoneKey_dec : EqDecision CaseMilestoneKey.
Proof. solve_decision. Defined.
#[export] Program Instance CaseMilestoneKey_enum : JsEnum CaseMilestoneKey := {|
  js_name x := match x with
    | CM_InitialReview => "initial_review" | CM_EvidenceCollected => "evidence_collected"
    | CM_VictimContacted => "victim_contacted" | CM_ProtectionActive => "protection_active"
    | CM_Resolved => "resolved" end;
  js_values :=
    [CM_InitialReview; CM_EvidenceCollected; CM_VictimContacted; CM_ProtectionActive; CM_Resolved] |}.
Solve All Obligations with solve_js_enum.

(* src: packages/core/src/cyberbullying-incident.ts:44-46 isCyberbullyingCategory *)
Definition isCyberbullyingCategory (x : string) : bool := is_some (parse (A := CyberbullyingCategory) x).
(* src: packages/core/src/cyberbullying-incident.ts:47-49 isIncidentReportSource *)
Definition isIncidentReportSource (x : string) : bool := (x =s js_name RS_ManualReport) || (x =s js_name RS_Detection).
(* src: packages/core/src/cyberbullying-incident.ts:286-289 isCaseRiskLevel *)
Definition isCaseRiskLevel (x : string) : bool := is_some (parse (A := CaseRiskLevel) x).
(* src: packages/core/src/cyberbullying-incident.ts:298-301 isCaseProtectionStatus *)
Definition isCaseProtectionStatus (x : string) : bool := is_some (parse (A := CaseProtectionStatus) x).
(* src: packages/core/src/cyberbullying-incident.ts:310-313 isCaseTaskStatus *)
Definition isCaseTaskStatus (x : string) : bool := is_some (parse (A := CaseTaskStatus) x).
(* src: packages/core/src/cyberbullying-incident.ts:335-338 isCaseMilestoneKey *)
Definition isCaseMilestoneKey (x : string) : bool := is_some (parse (A := CaseMilestoneKey) x).

(** * Detection triage *)

(* src: packages/core/src/cyberbullying-incident.ts:229-238 detectionTransitionTarget *)
Definition detectionTransitionTarget (from : CyberbullyingDetectionStatus) (op : CyberbullyingDetectionOp)
  : option CyberbullyingDetectionStatus :=
  match op with
  | op_start_review => if from =e DS_New then Some DS_UnderReview else None
  | op_ignore => if (from =e DS_New) || (from =e DS_UnderReview) then Some DS_Ignored else None
  | op_false_positive => if (from =e DS_New) || (from =e DS_UnderReview) then Some DS_FalsePositive else None
  | op_create_incident => if (from =e DS_New) || (from =e DS_UnderReview) then Some DS_LinkedToIncident else None
  | op_reopen => if (from =e DS_FalsePositive) || (from =e DS_Ignored) then Some DS_UnderReview else None
  end.

(* src: packages/core/src/cyberbullying-incident.ts:241-249 detectionEventForOp *)
Definition detectionEventForOp (op : CyberbullyingDetectionOp) : CyberbullyingDetectionEventType :=
  match op with
  | op_start_review => DE_ReviewStarted
  | op_ignore => DE_Ignored
  | op_false_positive => DE_FalsePositive
  | op_create_incident => DE_Linked
  | op_reopen => DE_Reopened
  end.

(* src: packages/core/src/cyberbullying-incident.ts:251-257 AvailableDetectionActions *)
Record AvailableDetectionActions := {
  startReview : bool; ignore : bool; falsePositive : bool; createIncident : bool; d_reopen : bool
}.

(* src: packages/core/src/cyberbullying-incident.ts:264-275 availableDetectionActions *)
Definition availableDetectionActions (role : Role) (status : CyberbullyingDetectionStatus) (alreadyLinked : bool)
  : AvailableDetectionActions :=
  let review := can role CyberbullyingReview in
  if negb review then
    {| startReview := false; ignore := false; falsePositive := false; createIncident := false; d_reopen := false |}
  else
    let active := (status =e DS_New) || (status =e DS_UnderReview) in
    {| startReview := status =e DS_New; ignore := active; falsePositive := active;
       createIncident := active && negb alreadyLinked;
       d_reopen := (status =e DS_FalsePositive) || (status =e DS_Ignored) |}.

(** * Case tasks *)

(* src: packages/core/src/cyberbullying-incident.ts:317-322 CASE_TASK_TRANSITIONS *)
Definition CASE_TASK_TRANSITIONS (from : CaseTaskStatus) : list CaseTaskStatus :=
  match from with
  | CT_Todo => [CT_InProgress; CT_Done; CT_Cancelled]
  | CT_InProgress => [CT_Todo; CT_Done; CT_Cancelled]
  | CT_Done => [CT_InProgress; CT_Cancelled]
  | CT_Cancelled => [CT_Todo]
  end.

(* src: packages/core/src/cyberbullying-incident.ts:323-325 canTaskTransition *)
Definition canTaskTransition (from to : CaseTaskStatus) : bool :=
  negb (from =e to) && bool_decide (to ∈ CASE_TASK_TRANSITIONS from).

(* src: packages/core/src/cyberbullying-incident.ts:341-348 CASE_LIMITS *)
Definition taskTitleMax : Z := 200.
Definition taskDescriptionMax : Z := 4000.

(* src: packages/core/src/cyberbullying-incident.ts:351-351 CaseFieldErrorCode *)
Inductive CaseFieldErrorCode := C_required | C_too_long | C_invalid.

(** The result of [parseCaseDueDate]: a date, null, or the text invalid. *)
Inductive due_date := Due (ms : Z) | NoDue | InvalidDue.

(* src: packages/core/src/cyberbullying-incident.ts:361-362 validateCaseTaskInput *)
Record task_errors := {
  te_title : option CaseFieldErrorCode; te_description : option CaseFieldErrorCode;
  te_status : option CaseFieldErrorCode; te_dueDate : option CaseFieldErrorCode
}.

Section DueDate.
(** [new Date(text).getTime()], NaN being [None]. *)
Context (dateParse : string -> option Z).

(* src: packages/core/src/cyberbullying-incident.ts:354-358 parseCaseDueDate *)
Definition parseCaseDueDate (value : option string) : due_date :=
  match value with
  | None => NoDue
  | Some v => if trim v =s "" then NoDue
              else match dateParse v with None => InvalidDue | Some d => Due d end
  end.

(* src: packages/core/src/cyberbullying-incident.ts:361-372 validateCaseTaskInput *)
Definition validateCaseTaskInput (in_title in_description in_status in_dueDate : option string)
    (requireTitle : option bool) : task_errors :=
  let title := trim (in_title ?? "") in
  {| te_title :=
       if (requireTitle ?? false) || is_some in_title then
         if negb (nonempty title) then Some C_required
         else if taskTitleMax <? str_len title then Some C_too_long else None
       else None;
     te_description :=
       match in_description with
       | Some d => if taskDescriptionMax <? str_len d then Some C_too_long else None
       | None => None
       end;
     te_status :=
       match in_status with Some s => if negb (isCaseTaskStatus s) then Some C_invalid else None | None => None end;
     te_dueDate := match parseCaseDueDate in_dueDate with InvalidDue => Some C_invalid | _ => None end |}.
End DueDate.

(** * Manual reports *)

(* src: packages/core/src/cyberbullying-incident.ts:54-61 MANUAL_REPORT_LIMITS *)
Definition summaryMin : Z := 10.
Definition summaryMax : Z := 4000.
Definition actorLabelMax : Z := 200.
Definition actorRefMax : Z := 200.
Definition subjectIdMax : Z := 64.
Definition idempotencyKeyMax : Z := 100.

(* src: packages/core/src/cyberbullying-incident.ts:63-65 ManualReportField *)
Inductive ManualReportField :=
| F_protectedSubjectId | F_reportSource | F_category | F_summary
| F_allegedActorLabel | F_allegedActorExternalReference | F_idempotencyKey.
(* src: packages/core/src/cyberbullying-incident.ts:66-66 ManualReportErrorCode *)
Inductive ManualReportErrorCode := M_required | M_too_short | M_too_long | M_invalid.

(** Absent fields read as [undefined]. *)
(* src: packages/core/src/cyberbullying-incident.ts:69-77 ManualReportInput *)
Record ManualReportInput := {
  protectedSubjectId : option string; reportSource : option string; category : option string;
  summary : option string; allegedActorLabel : option string;
  allegedActorExternalReference : option string; idempotencyKey : option string
}.

(* src: packages/core/src/cyberbullying-incident.ts:79-82 ManualReportValidation *)
Record ManualReportValidation := { v_ok : bool; errors : list (ManualReportField * ManualReportErrorCode) }.

(* src: packages/core/src/cyberbullying-incident.ts:84-84 SAFE_ID *)
Definition SAFE_ID (s : string) : bool :=
  nonempty s && str_forallb (fun c => is_alnum c || includes ["_"; "-"] (String c EmptyString)) s.

Definition field_text (o : option string) : string := trim (o ?? "").
Definition report (f : ManualReportField) (e : option ManualReportErrorCode) : list (ManualReportField * ManualReportErrorCode) :=
  match e with Some c => [(f, c)] | None => [] end.
Definition bounded_id (max : Z) (s : string) : option ManualReportErrorCode :=
  if negb (nonempty s) then Some M_required
  else if (max <? str_len s) || negb (SAFE_ID s) then Some M_invalid else None.

(* src: packages/core/src/cyberbullying-incident.ts:92-122 validateManualReportInput *)
Definition validateManualReportInput (input : ManualReportInput) : ManualReportValidation :=
  let subject := field_text (protectedSubjectId input) in
  let text := field_text (summary input) in
  let label := field_text (allegedActorLabel input) in
  let ref := field_text (allegedActorExternalReference input) in
  let key := field_text (idempotencyKey input) in
  let errs :=
    report F_protectedSubjectId (bounded_id subjectIdMax subject) ++
    report F_reportSource (if negb (status_is (reportSource input) (js_name RS_ManualReport)) then Some M_invalid else None) ++
    report F_category (if negb (truthy (category input)) then Some M_required
                       else if negb (isCyberbullyingCategory (category input ?? "")) then Some M_invalid else None) ++
    report F_summary (if negb (nonempty text) then Some M_required
                      else if str_len text <? summaryMin then Some M_too_short
                      else if summaryMax <? str_len text then Some M_too_long else None) ++
    report F_allegedActorLabel (if actorLabelMax <? str_len label then Some M_too_long else None) ++
    report F_allegedActorExternalReference (if actorRefMax <? str_len ref then Some M_too_long else None) ++
    report F_idempotencyKey (bounded_id idempotencyKeyMax key) in
  {| v_ok := (length errs =? 0)%nat; errors := errs |}.

(** * Properties of the lifecycles *)

(** A transition is validated exactly: it succeeds precisely when it is a
    forward edge of the matrix, or with [reopen] the one reopening edge, and a
    reason is present wherever one is mandatory; otherwise the error says which
    of these failed, and the result always names the transition asked for. *)
Theorem incident_transition_exact (from to : IncidentLifecycleStatus) (ro : option bool) (reason : option string) :
  let r := applyIncidentTransition from to ro reason in
  let re := ro ?? false in
  r_from r = from /\ r_to r = to /\ reopen r = re /\ (ok r = true <-> error r = None) /\
  (ok r = true <->
     (re = false /\ In to (INCIDENT_STATUS_TRANSITIONS from) /\
        (In to INCIDENT_TRANSITION_REQUIRES_REASON -> blank reason = false)) \/
     (re = true /\ INCIDENT_REOPEN_TRANSITIONS from = Some to /\ blank reason = false)) /\
  (error r = Some no_change <-> from = to) /\
  (error r = Some e_terminal <-> from <> to /\ re = false /\ In from TERMINAL_INCIDENT_STATUSES).
Proof.
  cbv zeta. unfold applyIncidentTransition, canTransitionIncident, incidentTransitionRequiresReason.
  generalize (blank reason) as b, (ro ?? false) as re. intros b re.
  destruct re, b, from, to; vm_compute; intuition congruence.
Qed.

Lemma incident_transition_exact_witness :
  ok (applyIncidentTransition I_Dismissed I_UnderReview (Some true) (Some "mistake")) = true.
Proof.
  destruct (incident_transition_exact I_Dismissed I_UnderReview (Some true) (Some "mistake"))
    as (_ & _ & _ & _ & H & _).
  apply H. right. repeat split; reflexivity.
Defined.

(** The states an incident goes through, each by an accepted transition. *)
Inductive history : IncidentLifecycleStatus -> list (IncidentLifecycleStatus * option bool * option string) ->
    IncidentLifecycleStatus -> Prop :=
| history_nil s : history s [] s
| history_cons s to ro reason l e :
    ok (applyIncidentTransition s to ro reason) = true -> history to l e ->
    history s ((to, ro, reason) :: l) e.

Definition rank (s : IncidentLifecycleStatus) : Z :=
  match s with
  | I_Open => 0 | I_UnderReview => 1 | I_Acknowledged => 2 | I_Confirmed => 3
  | I_ActionRequired => 4 | I_Resolved => 5 | I_Dismissed => 6 | I_Archived => 6
  end.

Lemma forward_rank from to ro reason :
  ok (applyIncidentTransition from to ro reason) = true -> ro ?? false = false -> rank from < rank to.
Proof.
  unfold applyIncidentTransition. intros H Hro. revert H. rewrite Hro. generalize (blank reason). intros b.
  destruct b, from, to; vm_compute; congruence.
Qed.

(** The lifecycle only moves forward: a history without a reopening visits
    at most six further states and never returns to one; every history into
    confirmed carries a non-blank reason on that step; and a dismissed or archived
    incident is left only by a reopening to under review, with a reason. *)
Theorem incident_history_monotone (s e : IncidentLifecycleStatus)
    (l : list (IncidentLifecycleStatus * option bool * option string)) :
  history s l e ->
  (Forall (fun t => snd (fst t) ?? false = false) l -> Z.of_nat (length l) <= rank e - rank s <= 6) /\
  Forall (fun t => fst (fst t) = I_Confirmed -> blank (snd t) = false) l /\
  (s ∈ TERMINAL_INCIDENT_STATUSES ->
     match l with
     | [] => e = s
     | (to, ro, reason) :: _ => to = I_UnderReview /\ ro = Some true /\ blank reason = false
     end).
Proof.
  intros H. split; [|split].
  - intros Hf. assert (Hl : Z.of_nat (length l) <= rank e - rank s).
    { induction H as [s|s to ro reason l e Hok _ IH]; [simpl; lia|].
      apply Forall_cons in Hf as [Hro Hf]. specialize (IH Hf).
      pose proof (forward_rank s to ro reason Hok Hro). cbn [length]. lia. }
    split; [done|]. destruct s, e; simpl; lia.
  - induction H as [s|s to ro reason l e Hok _ IH]; constructor; [|done].
    simpl. intros ->. revert Hok. unfold applyIncidentTransition.
    generalize (blank reason) as b, (ro ?? false) as re. intros b re. destruct b, re, s; vm_compute; congruence.
  - intros Hs. destruct H as [s|s to ro reason l e Hok _]; [done|].
    revert Hok. unfold applyIncidentTransition. generalize (blank reason) as b. intros b.
    apply list_elem_of_In in Hs. destruct Hs as [<-|[<-|[]]]; destruct ro as [[]|], b, to; vm_compute; intuition congruence.
Qed.

Lemma incident_history_monotone_witness :
  Z.of_nat (length [(I_UnderReview, @None bool, @None string); (I_Confirmed, None, Some "seen")]) <= rank I_Confirmed - rank I_Open.
Proof.
  refine (proj1 (proj1 (incident_history_monotone I_Open I_Confirmed
    [(I_UnderReview, None, None); (I_Confirmed, None, Some "seen")] _) _)).
  - eapply history_cons; [reflexivity|]. eapply history_cons; [reflexivity|]. apply history_nil.
  - repeat constructor.
Defined.

(** What an actor is offered is what will be accepted: a forward move is
    offered exactly when the role holds the permission it needs and the transition
    succeeds with a reason, marked as needing one exactly when it fails without;
    reopening is offered exactly to a manager of an incident whose reopening would
    succeed; and a role that may neither review nor manage is offered nothing. *)
Theorem offered_actions_are_accepted (r : Role) (status to : IncidentLifecycleStatus) (assigned : bool) (reason : string) :
  blank (Some reason) = false ->
  let a := availableIncidentActions r status assigned in
  (In (to, true) (transitions a) <->
     can r (permissionForIncidentTransition to) = true /\
     ok (applyIncidentTransition status to None (Some reason)) = true /\
     ok (applyIncidentTransition status to None None) = false) /\
  (In (to, false) (transitions a) <->
     can r (permissionForIncidentTransition to) = true /\
     ok (applyIncidentTransition status to None None) = true) /\
  (canReopen a = true <->
     can r CyberbullyingManage = true /\
     ok (applyIncidentTransition status I_UnderReview (Some true) (Some reason)) = true) /\
  (can r CyberbullyingReview = false -> can r CyberbullyingManage = false ->
     transitions a = [] /\ canReopen a = false /\ canAssign a = false /\ canReassign a = false /\
     canUnassign a = false /\ canAddNote a = false).
Proof.
  intros Hb. cbv zeta. unfold applyIncidentTransition. rewrite Hb.
  destruct r, status, assigned, to; vm_compute; intuition congruence.
Qed.

Lemma offered_actions_are_accepted_witness :
  can Reviewer (permissionForIncidentTransition I_Dismissed) = true /\
  ok (applyIncidentTransition I_Open I_Dismissed None (Some "spam")) = true /\
  ok (applyIncidentTransition I_Open I_Dismissed None None) = false.
Proof.
  refine (proj1 (proj1 (offered_actions_are_accepted Reviewer I_Open I_Dismissed false "spam" eq_refl)) _).
  vm_compute. auto.
Defined.

(** Triage offers what the transition table allows: for a reviewer each
    operation is offered exactly when the table gives it a target, creating an
    incident only if the detection is not linked already; for anyone else nothing
    is offered; and once linked to an incident a detection takes no operation. *)
Theorem triage_actions_agree (role : Role) (status : CyberbullyingDetectionStatus) (linked : bool) :
  let a := availableDetectionActions role status linked in
  let may op := can role CyberbullyingReview && is_some (detectionTransitionTarget status op) in
  startReview a = may op_start_review /\ ignore a = may op_ignore /\ falsePositive a = may op_false_positive /\
  createIncident a = may op_create_incident && negb linked /\ d_reopen a = may op_reopen /\
  (forall op, detectionTransitionTarget DS_LinkedToIncident op = None) /\
  (forall op, detectionTransitionTarget status op <> Some DS_New) /\
  (forall op, detectionTransitionTarget status op = Some DS_LinkedToIncident -> op = op_create_incident).
Proof.
  cbv zeta. destruct role, status, linked; vm_compute; repeat split; intros []; vm_compute; congruence.
Qed.

(** Security detections only ever leave the open state: no transition leads
    back to open, the dismissed and resolved states have no exit, every other state
    can still be closed, and each accepted transition has an audit event of its own
    that is not the opening one. *)
Theorem detection_lifecycle (from to : SecurityDetectionStatus) :
  (canTransitionDetection from to = true ->
     to <> D_Open /\ from <> to /\ canTransitionDetection to from = false /\
     detectionTransitionAuditEvent to <> js_name detectionOpened) /\
  ((forall x, canTransitionDetection from x = false) <-> from ∈ TERMINAL_DETECTION_STATUSES) /\
  (from ∉ TERMINAL_DETECTION_STATUSES ->
     canTransitionDetection from D_Dismissed = true /\ canTransitionDetection from D_Resolved = true) /\
  (detectionTransitionAuditEvent from = detectionTransitionAuditEvent to -> from = to).
Proof.
  split; [|split; [|split]].
  - destruct from, to; vm_compute; intuition congruence.
  - rewrite list_elem_of_In. split.
    + intros H. pose proof (H D_Resolved) as H1. revert H1. destruct from; vm_compute; intuition congruence.
    + intros H x. destruct from, x; vm_compute in H |- *; intuition congruence.
  - rewrite list_elem_of_In. destruct from; vm_compute; intuition congruence.
  - destruct from, to; vm_compute; intuition congruence.
Qed.

Lemma detection_lifecycle_witness : canTransitionDetection D_Confirmed D_Dismissed = true.
Proof.
  destruct (detection_lifecycle D_Confirmed D_Open) as (_ & _ & H & _). refine (proj1 (H _)).
  rewrite list_elem_of_In. vm_compute. intuition congruence.
Defined.

(** The product vocabulary is tied to one stored value each: the eight ATO
    names map one to one onto the kinds the engine may emit, and the four lifecycle
    names one to one onto the stored statuses other than confirmed. *)
Theorem spec_names_bijective (k : SecurityDetectionKind) (s : SecurityDetectionStatus) :
  (isAtoDetectionKind k = true <-> exists n, In (n, k) ATO_DETECTION_TYPE) /\
  NoDup (map fst ATO_DETECTION_TYPE) /\ NoDup (map snd ATO_DETECTION_TYPE) /\
  (s <> D_Confirmed <-> exists n, In (n, s) S2_DETECTION_STATUS) /\
  NoDup (map fst S2_DETECTION_STATUS) /\ NoDup (map snd S2_DETECTION_STATUS).
Proof.
  split; [|split; [|split; [|split; [|split]]]]; try (apply (bool_decide_unpack _); vm_compute; exact I).
  - split.
    + destruct k; vm_compute; intros H; try discriminate; eexists; intuition reflexivity.
    + intros [n Hn]. vm_compute in Hn. destruct k; vm_compute; intuition congruence.
  - split.
    + destruct s; vm_compute; intros H; try congruence; eexists; intuition reflexivity.
    + intros [n Hn]. vm_compute in Hn. intros ->. intuition congruence.
Qed.

(** * Properties of the validators *)

Lemma bounded_id_None max s : bounded_id max s = None <->
  1 <= str_len s <= max /\ str_forallb (fun c => is_alnum c || includes ["_"; "-"] (String c EmptyString)) s = true.
Proof.
  unfold bounded_id, SAFE_ID, nonempty. destruct s as [|c s]; [simpl; split; [done|unfold str_len; simpl; lia]|].
  cbn [String.eqb negb andb]. assert (1 <= str_len (String c s)) by (unfold str_len; simpl; lia).
  destruct (Z.ltb_spec max (str_len (String c s))); cbn [orb]; [split; [done|lia]|].
  destruct (str_forallb _ _); cbn [negb]; (split; [intros H1; try discriminate H1|intros [H1 H2]; try discriminate H2]); auto.
Qed.

Lemma report_nil f e : report f e = [] <-> e = None.
Proof. destruct e; simpl; split; congruence. Qed.

(** A manual report is accepted exactly when it is well formed: trimmed, its
    subject and idempotency key are non-empty safe identifiers within their bounds,
    its source is the manual one and its category one of the six, its summary has
    10 to 4000 characters and its optional labels at most 200; and acceptance
    means no field is reported. *)
Theorem manual_report_accepted_iff (i : ManualReportInput) :
  let safe := str_forallb (fun c => is_alnum c || includes ["_"; "-"] (String c EmptyString)) in
  (v_ok (validateManualReportInput i) = true <->
     (1 <= str_len (field_text (protectedSubjectId i)) <= 64 /\ safe (field_text (protectedSubjectId i)) = true) /\
     reportSource i = Some "manual_report" /\
     (exists c : CyberbullyingCategory, category i = Some (js_name c)) /\
     10 <= str_len (field_text (summary i)) <= 4000 /\
     str_len (field_text (allegedActorLabel i)) <= 200 /\
     str_len (field_text (allegedActorExternalReference i)) <= 200 /\
     (1 <= str_len (field_text (idempotencyKey i)) <= 100 /\ safe (field_text (idempotencyKey i)) = true)) /\
  (v_ok (validateManualReportInput i) = true <-> errors (validateManualReportInput i) = []).
Proof.
  intros safe. unfold validateManualReportInput. cbv zeta. cbn [v_ok errors].
  assert (Hnil : forall l : list (ManualReportField * ManualReportErrorCode), (length l =? 0)%nat = true <-> l = []).
  { intros [|x l]; simpl; split; congruence. }
  rewrite Hnil. split; [|done].
  assert (Happ : forall (a b : list (ManualReportField * ManualReportErrorCode)), a ++ b = [] <-> a = [] /\ b = []).
  { intros a b. split; [apply app_eq_nil|by intros [-> ->]]. }
  rewrite !Happ, !report_nil, !bounded_id_None. unfold subjectIdMax, idempotencyKeyMax.
  fold safe.
  assert (H1 : (if negb (status_is (reportSource i) (js_name RS_ManualReport)) then Some M_invalid else None) = None
    <-> reportSource i = Some "manual_report").
  { destruct (reportSource i) as [s|]; simpl; [|split; congruence].
    destruct (String.eqb_spec s "manual_report"); simpl; split; congruence. }
  assert (H2 : (if negb (truthy (category i)) then Some M_required
      else if negb (isCyberbullyingCategory (category i ?? "")) then Some M_invalid else None) = None
    <-> exists c : CyberbullyingCategory, category i = Some (js_name c)).
  { unfold isCyberbullyingCategory. destruct (category i) as [s|]; cbn [truthy nullish negb]; [|split; [done|by intros [c Hc]]].
    destruct (parse (A := CyberbullyingCategory) s) as [c|] eqn:Hp; cbn [is_some negb].
    - apply parse_Some in Hp as <-. split; [eauto|]. intros _. by destruct c.
    - split; [by destruct (nonempty s)|]. intros [c Hc]. assert (s = js_name c) as -> by congruence. by rewrite parse_name in Hp. }
  assert (H3 : (if negb (nonempty (field_text (summary i))) then Some M_required
      else if str_len (field_text (summary i)) <? summaryMin then Some M_too_short
      else if summaryMax <? str_len (field_text (summary i)) then Some M_too_long else None) = None
    <-> 10 <= str_len (field_text (summary i)) <= 4000).
  { unfold summaryMin, summaryMax, nonempty. destruct (String.eqb_spec (field_text (summary i)) "") as [->|]; cbn [negb].
    - split; [done|]. unfold str_len. simpl. lia.
    - destruct (Z.ltb_spec (str_len (field_text (summary i))) 10); [split; [done|lia]|].
      destruct (Z.ltb_spec 4000 (str_len (field_text (summary i)))); [split; [done|lia]|]. split; [lia|done]. }
  assert (H4 : forall (n m : Z), (if m <? n then Some M_too_long else None) = None <-> n <= m).
  { intros n m. destruct (Z.ltb_spec m n); split; congruence || lia. }
  rewrite H1, H2, H3, !H4. unfold actorLabelMax, actorRefMax. tauto.
Qed.

(** A case task is accepted exactly when its title is present and within 200
    characters wherever it must be given or is given, its description within 4000,
    its status one of the four, and its due date empty or a date. *)
Theorem case_task_accepted_iff (dateParse : string -> option Z) (t d s due : option string) (req : option bool) :
  let e := validateCaseTaskInput dateParse t d s due req in
  (te_title e = None <-> (req ?? false = false /\ t = None) \/ 1 <= str_len (field_text t) <= 200) /\
  (te_description e = None <-> forall x, d = Some x -> str_len x <= 4000) /\
  (te_status e = None <-> forall x, s = Some x -> exists c : CaseTaskStatus, x = js_name c) /\
  (te_dueDate e = None <-> forall x, due = Some x -> trim x = "" \/ exists ms, dateParse x = Some ms).
Proof.
  cbv zeta. unfold validateCaseTaskInput. cbn [te_title te_description te_status te_dueDate].
  split; [|split; [|split]].
  - fold (field_text t). unfold taskTitleMax, nonempty.
    assert (Hc : (if negb (negb (field_text t =s "")) then Some C_required
       else if 200 <? str_len (field_text t) then Some C_too_long else None) = None <-> 1 <= str_len (field_text t) <= 200).
    { destruct (field_text t) as [|c r]; cbn [String.eqb negb]; [split; [done|unfold str_len; simpl; lia]|].
      assert (1 <= str_len (String c r)) by (unfold str_len; simpl; lia).
      destruct (Z.ltb_spec 200 (str_len (String c r))); split; congruence || lia. }
    destruct (req ?? false); cbn [orb]; [rewrite Hc; split; [tauto|intros [[? _]|?]; [done|done]]|].
    destruct t as [x|]; cbn [is_some]; [rewrite Hc; split; [tauto|intros [[_ ?]|?]; [done|done]]|].
    split; auto.
  - unfold taskDescriptionMax. destruct d as [x|]; [|split; [by intros _ ?|done]].
    destruct (Z.ltb_spec 4000 (str_len x)); split; try congruence; try (intros _ ? [= <-]; lia).
    intros Hx. specialize (Hx x eq_refl). lia.
  - destruct s as [x|]; [|split; [by intros _ ?|done]]. unfold isCaseTaskStatus.
    destruct (parse (A := CaseTaskStatus) x) as [c|] eqn:Hp; cbn [is_some negb].
    + apply parse_Some in Hp as <-. split; [intros _ ? [= <-]; eauto|done].
    + split; [done|]. intros Hx. destruct (Hx x eq_refl) as [c ->]. by rewrite parse_name in Hp.
  - unfold parseCaseDueDate. destruct due as [x|]; [|split; [by intros _ ?|done]].
    destruct (String.eqb_spec (trim x) ""); [split; [intros _ ? [= <-]; auto|done]|].
    destruct (dateParse x) as [ms|] eqn:Hd.
    + split; [|done]. intros _ ? [= <-]. right. eauto.
    + split; [done|]. intros Hx. destruct (Hx x eq_refl) as [?|[ms ?]]; congruence.
Qed.

(** No task is stuck: from every task status every other one is reached in at
    most two accepted moves, and no move is the identity. *)
Theorem task_moves_connected (from to : CaseTaskStatus) :
  canTaskTransition from from = false /\
  (from <> to -> canTaskTransition from to = true \/
     exists mid, canTaskTransition from mid = true /\ canTaskTransition mid to = true).
Proof.
  split; [by destruct from|]. intros Hne.
  destruct from, to; try congruence; try (left; reflexivity);
    right; first [exists CT_Todo; split; reflexivity | exists CT_InProgress; split; reflexivity
                 | exists CT_Cancelled; split; reflexivity].
Qed.

Lemma task_moves_connected_witness :
  canTaskTransition CT_Done CT_Todo = true \/
  exists mid, canTaskTransition CT_Done mid = true /\ canTaskTransition mid CT_Todo = true.
Proof. apply (proj2 (task_moves_connected CT_Done CT_Todo)). discriminate. Defined.

End Incident.
