(* ===== verification/Workspace.v ===== *)
(** Workspaces and the family domain's authorization
    ([packages/core/src/workspace.ts], [child-safety-family.ts]): workspace kinds
    and their capabilities, family roles and actions, the authorization gate,
    invitations, and the content-free input allowlists. *)
From S2P Require Import Prelude Access.
Open Scope string_scope.
Open Scope list_scope.
Open Scope Z_scope.
Open Scope tam_scope.

Module Workspace.
Import Access.

(** * Kinds and capabilities *)

(* src: packages/core/src/workspace.ts:17-26 WorkspaceKind *)
Inductive WorkspaceKind :=
| Business | Family | ChildSafetyOrganization | Internal.
#[export] Instance WorkspaceKind_dec : EqDecision WorkspaceKind.
Proof. solve_decision. Defined.
#[export] Program Instance WorkspaceKind_enum : JsEnum WorkspaceKind := {|
  js_name x := match x with
    | Business => "business" | Family => "family" | ChildSafetyOrganization => "child_safety_organization"
    | Internal => "internal" end;
  js_values :=
    [Business; Family; ChildSafetyOrganization; Internal] |}.
Solve All Obligations with solve_js_enum.

(* src: packages/core/src/workspace.ts:44-82 WorkspaceCapability *)
Inductive WorkspaceCapability :=
| BusinessDashboard | SocialAccounts | FacebookAccounts | InstagramAccounts | CommentModeration
| BusinessIncidents | CyberbullyingCaseManagement | EvidenceManagement | ComplianceReports
| RedactionWorkflow | ExportAuthorization | TeamManagement | BusinessBilling | FamilyDashboard
| ProtectedProfiles | GuardianRelationships | SafetyPlatformConnections | SafetySignals
| ChildSafetyIncidents | GuardianAlerts | ConsentManagement | SafeRecipientPolicies | FamilyAudit
| ExpertValidation | ScenarioReview | TaxonomyReview | ProtocolReview | PilotManagement | ReferralReview
| PlatformAdministration | InternalSecurity | TenantSupport | TaxonomyReleaseManagement.
#[export] Instance WorkspaceCapability_dec : EqDecision WorkspaceCapability.
Proof. solve_decision. Defined.
#[export] Program Instance WorkspaceCapability_enum : JsEnum WorkspaceCapability := {|
  js_name x := match x with
    | BusinessDashboard => "business_dashboard" | SocialAccounts => "social_accounts"
    | FacebookAccounts => "facebook_accounts" | InstagramAccounts => "instagram_accounts"
    | CommentModeration => "comment_moderation" | BusinessIncidents => "business_incidents"
    | CyberbullyingCaseManagement => "cyberbullying_case_management"
    | EvidenceManagement => "evidence_management" | ComplianceReports => "compliance_reports"
    | RedactionWorkflow => "redaction_workflow" | ExportAuthorization => "export_authorization"
    | TeamManagement => "team_management" | BusinessBilling => "business_billing"
    | FamilyDashboard => "family_dashboard" | ProtectedProfiles => "protected_profiles"
    | GuardianRelationships => "guardian_relationships"
    | SafetyPlatformConnections => "safety_platform_connections" | SafetySignals => "safety_signals"
    | ChildSafetyIncidents => "child_safety_incidents" | GuardianAlerts => "guardian_alerts"
    | ConsentManagement => "consent_management" | SafeRecipientPolicies => "safe_recipient_policies"
    | FamilyAudit => "family_audit" | ExpertValidation => "expert_validation"
    | ScenarioReview => "scenario_review" | TaxonomyReview => "taxonomy_review"
    | ProtocolReview => "protocol_review" | PilotManagement => "pilot_management"
    | ReferralReview => "referral_review" | PlatformAdministration => "platform_administration"
    | InternalSecurity => "internal_security" | TenantSupport => "tenant_support"
    | TaxonomyReleaseManagement => "taxonomy_release_management" end;
  js_values :=
    [BusinessDashboard; SocialAccounts; FacebookAccounts; InstagramAccounts; CommentModeration;
     BusinessIncidents; CyberbullyingCaseManagement; EvidenceManagement; ComplianceReports;
     RedactionWorkflow; ExportAuthorization; TeamManagement; BusinessBilling; FamilyDashboard;
     ProtectedProfiles; GuardianRelationships; SafetyPlatformConnections; SafetySignals;
     ChildSafetyIncidents; GuardianAlerts; ConsentManagement; SafeRecipientPolicies; FamilyAudit;
     ExpertValidation; ScenarioReview; TaxonomyReview; ProtocolReview; PilotManagement; ReferralReview;
     PlatformAdministration; InternalSecurity; TenantSupport; TaxonomyReleaseManagement] |}.
Solve All Obligations with solve_js_enum.

(* src: packages/core/src/workspace.ts:85-122 WORKSPACE_CAPABILITIES *)
Definition WORKSPACE_CAPABILITIES (c : WorkspaceCapability) : list WorkspaceKind :=
  match c with
  | BusinessDashboard | SocialAccounts | FacebookAccounts | InstagramAccounts | CommentModeration
  | BusinessIncidents | CyberbullyingCaseManagement | EvidenceManagement | ComplianceReports
  | RedactionWorkflow | ExportAuthorization | TeamManagement | BusinessBilling => [Business]
  | FamilyDashboard | ProtectedProfiles | GuardianRelationships | SafetyPlatformConnections
  | SafetySignals | ChildSafetyIncidents | GuardianAlerts | ConsentManagement | SafeRecipientPolicies
  | FamilyAudit => [Family]
  | ExpertValidation | ScenarioReview | TaxonomyReview | ProtocolReview | PilotManagement
  | ReferralReview => [ChildSafetyOrganization]
  | PlatformAdministration | InternalSecurity | TenantSupport | TaxonomyReleaseManagement => [Internal]
  end.

(* src: packages/core/src/workspace.ts:136-142 FamilyRole *)
Inductive FamilyRole :=
| PrimaryGuardian | Guardian | TrustedAdult | SafetyProfessional | FamilyViewer.
#[export] Instance FamilyRole_dec : EqDecision FamilyRole.
Proof. solve_decision. Defined.
#[export] Program Instance FamilyRole_enum : JsEnum FamilyRole := {|
  js_name x := match x with
    | PrimaryGuardian => "primary_guardian" | Guardian => "guardian" | TrustedAdult => "trusted_adult"
    | SafetyProfessional => "safety_professional" | FamilyViewer => "family_viewer" end;
  js_values :=
    [PrimaryGuardian; Guardian; TrustedAdult; SafetyProfessional; FamilyViewer] |}.
Solve All Obligations with solve_js_enum.

(* src: packages/core/src/workspace.ts:146-152 OrganizationRole *)
Inductive OrganizationRole :=
| OrganizationOwner | SafetyLead | ExpertReviewer | PilotCoordinator | OrganizationViewer.
#[export] Instance OrganizationRole_dec : EqDecision OrganizationRole.
Proof. solve_decision. Defined.
#[export] Program Instance OrganizationRole_enum : JsEnum OrganizationRole := {|
  js_name x := match x with
    | OrganizationOwner => "organization_owner" | SafetyLead => "safety_lead"
    | ExpertReviewer => "expert_reviewer" | PilotCoordinator => "pilot_coordinator"
    | OrganizationViewer => "organization_viewer" end;
  js_values :=
    [OrganizationOwner; SafetyLead; ExpertReviewer; PilotCoordinator; OrganizationViewer] |}.
Solve All Obligations with solve_js_enum.

(** * Family actions *)

(* src: packages/core/src/child-safety-family.ts:29-76 FamilyAction *)
Inductive FamilyAction :=
| FamilyView | ProtectedProfileView | ProtectedProfileManage | GuardianRelationshipView
| GuardianRelationshipManage | GuardianAuthorityView | GuardianAuthorityManage | ConsentView
| ConsentManage | SafeRecipientView | SafeRecipientAssess | SafetySignalView | SafetySignalCreate
| SafetySignalReview | SafetySignalArchive | SafetyRecipientAuthorizationView
| SafetyRecipientAuthorizationEvaluate | SafetyRecipientAuthorizationCreate
| SafetyRecipientAuthorizationRevoke | SafetyDeliveryView | SafetyDeliveryCreate
| SafetyDeliveryMakeAvailable | SafetyDeliveryAcknowledge | SafetyDeliveryDecline | SafetyDeliveryRevoke
| SafetyDeliveryArchive | FamilyInvitationView | FamilyInvitationCreate | FamilyInvitationRevoke
| FamilyAuthorityGrant | FamilyAuthorityChange | FamilyAuthoritySuspend | FamilyAuthorityResume
| FamilyAuthorityRevoke.
#[export] Instance FamilyAction_dec : EqDecision FamilyAction.
Proof. solve_decision. Defined.
#[export] Program Instance FamilyAction_enum : JsEnum FamilyAction := {|
  js_name x := match x with
    | FamilyView => "family:view" | ProtectedProfileView => "protected_profile:view"
    | ProtectedProfileManage => "protected_profile:manage"
    | GuardianRelationshipView => "guardian_relationship:view"
    | GuardianRelationshipManage => "guardian_relationship:manage"
    | GuardianAuthorityView => "guardian_authority:view"
    | GuardianAuthorityManage => "guardian_authority:manage" | ConsentView => "consent:view"
    | ConsentManage => "consent:manage" | SafeRecipientView => "safe_recipient:view"
    | SafeRecipientAssess => "safe_recipient:assess" | SafetySignalView => "safety_signal:view"
    | SafetySignalCreate => "safety_signal:create" | SafetySignalReview => "safety_signal:review"
    | SafetySignalArchive => "safety_signal:archive"
    | SafetyRecipientAuthorizationView => "safety_recipient_authorization:view"
    | SafetyRecipientAuthorizationEvaluate => "safety_recipient_authorization:evaluate"
    | SafetyRecipientAuthorizationCreate => "safety_recipient_authorization:create"
    | SafetyRecipientAuthorizationRevoke => "safety_recipient_authorization:revoke"
    | SafetyDeliveryView => "safety_delivery:view" | SafetyDeliveryCreate => "safety_delivery:create"
    | SafetyDeliveryMakeAvailable => "safety_delivery:make_available"
    | SafetyDeliveryAcknowledge => "safety_delivery:acknowledge"
    | SafetyDeliveryDecline => "safety_delivery:decline" | SafetyDeliveryRevoke => "safety_delivery:revoke"
    | SafetyDeliveryArchive => "safety_delivery:archive" | FamilyInvitationView => "family_invitation:view"
    | FamilyInvitationCreate => "family_invitation:create"
    | FamilyInvitationRevoke => "family_invitation:revoke"
    | FamilyAuthorityGrant => "family_authority:grant" | FamilyAuthorityChange => "family_authority:change"
    | FamilyAuthoritySuspend => "family_authority:suspend"
    | FamilyAuthorityResume => "family_authority:resume"
    | FamilyAuthorityRevoke => "family_authority:revoke" end;
  js_values :=
    [FamilyView; ProtectedProfileView; ProtectedProfileManage; GuardianRelationshipView;
     GuardianRelationshipManage; GuardianAuthorityView; GuardianAuthorityManage; ConsentView;
     ConsentManage; SafeRecipientView; SafeRecipientAssess; SafetySignalView; SafetySignalCreate;
     SafetySignalReview; SafetySignalArchive; SafetyRecipientAuthorizationView;
     SafetyRecipientAuthorizationEvaluate; SafetyRecipientAuthorizationCreate;
     SafetyRecipientAuthorizationRevoke; SafetyDeliveryView; SafetyDeliveryCreate;
     SafetyDeliveryMakeAvailable; SafetyDeliveryAcknowledge; SafetyDeliveryDecline; SafetyDeliveryRevoke;
     SafetyDeliveryArchive; FamilyInvitationView; FamilyInvitationCreate; FamilyInvitationRevoke;
     FamilyAuthorityGrant; FamilyAuthorityChange; FamilyAuthoritySuspend; FamilyAuthorityResume;
     FamilyAuthorityRevoke] |}.
Solve All Obligations with solve_js_enum.

(* src: packages/core/src/child-safety-family.ts:147-189 FAMILY_ACTION_CAPABILITY *)
Definition FAMILY_ACTION_CAPABILITY (a : FamilyAction) : WorkspaceCapability :=
  match a with
  | FamilyView => FamilyDashboard
  | ProtectedProfileView | ProtectedProfileManage => ProtectedProfiles
  | GuardianRelationshipView | GuardianRelationshipManage | GuardianAuthorityView
  | GuardianAuthorityManage | FamilyInvitationView | FamilyInvitationCreate | FamilyInvitationRevoke
  | FamilyAuthorityGrant | FamilyAuthorityChange | FamilyAuthoritySuspend | FamilyAuthorityResume
  | FamilyAuthorityRevoke => GuardianRelationships
  | ConsentView | ConsentManage => ConsentManagement
  | SafeRecipientView | SafeRecipientAssess | SafetyRecipientAuthorizationView
  | SafetyRecipientAuthorizationEvaluate | SafetyRecipientAuthorizationCreate
  | SafetyRecipientAuthorizationRevoke | SafetyDeliveryView | SafetyDeliveryCreate
  | SafetyDeliveryMakeAvailable | SafetyDeliveryAcknowledge | SafetyDeliveryDecline
  | SafetyDeliveryRevoke | SafetyDeliveryArchive => SafeRecipientPolicies
  | SafetySignalView | SafetySignalCreate | SafetySignalReview | SafetySignalArchive => SafetySignals
  end.

(* src: packages/core/src/child-safety-family.ts:305-316 CHILD_SAFETY_FORBIDDEN_FIELDS *)
Definition CHILD_SAFETY_FORBIDDEN_FIELDS : list string :=
  ["userId"; "email"; "phone"; "phoneNumber"; "username"; "displayName"; "legalName"; "fullName";
   "firstName"; "lastName"; "metaId"; "platformUserId"; "externalAccountId"; "externalId";
   "facebookId"; "instagramId"; "accountId"; "password"; "passwordHash"; "accessToken"; "refreshToken";
   "token"; "secret"; "message"; "text"; "content"; "body"; "transcript"; "note"; "notes"; "image";
   "video"; "audio"; "attachment"; "filename"; "latitude"; "longitude"; "address"; "gps";
   "coordinates"].

(* src: packages/core/src/child-safety-family.ts:375-375 FamilyInvitationStatus *)
Inductive FamilyInvitationStatus :=
| FI_Pending | FI_Accepted | FI_Declined | FI_Revoked | FI_Expired.
#[export] Instance FamilyInvitationStatus_dec : EqDecision FamilyInvitationStatus.
Proof. solve_decision. Defined.
#[export] Program Instance FamilyInvitationStatus_enum : JsEnum FamilyInvitationStatus := {|
  js_name x := match x with
    | FI_Pending => "pending" | FI_Accepted => "accepted" | FI_Declined => "declined"
    | FI_Revoked => "revoked" | FI_Expired => "expired" end;
  js_values :=
    [FI_Pending; FI_Accepted; FI_Declined; FI_Revoked; FI_Expired] |}.
Solve All Obligations with solve_js_enum.


(* src: packages/core/src/workspace.ts:28-30 isWorkspaceKind *)
Definition isWorkspaceKind (x : string) : bool := is_some (parse (A := WorkspaceKind) x).
(* src: packages/core/src/workspace.ts:34-34 PUBLIC_WORKSPACE_KINDS *)
Definition PUBLIC_WORKSPACE_KINDS : list WorkspaceKind := [Business; Family].
(* src: packages/core/src/workspace.ts:36-36 INVITE_ONLY_WORKSPACE_KINDS *)
Definition INVITE_ONLY_WORKSPACE_KINDS : list WorkspaceKind := [ChildSafetyOrganization].
(* src: packages/core/src/workspace.ts:37-37 SYSTEM_WORKSPACE_KINDS *)
Definition SYSTEM_WORKSPACE_KINDS : list WorkspaceKind := [Internal].
(* src: packages/core/src/workspace.ts:38-40 isPubliclyCreatableWorkspaceKind *)
Definition isPubliclyCreatableWorkspaceKind (kind : WorkspaceKind) : bool := bool_decide (kind ∈ PUBLIC_WORKSPACE_KINDS).

(* src: packages/core/src/workspace.ts:125-127 capabilityAllowedInWorkspace *)
Definition capabilityAllowedInWorkspace (c : WorkspaceCapability) (kind : WorkspaceKind) : bool :=
  bool_decide (kind ∈ WORKSPACE_CAPABILITIES c).

(* src: packages/core/src/workspace.ts:129-131 capabilitiesForWorkspaceKind *)
Definition capabilitiesForWorkspaceKind (kind : WorkspaceKind) : list WorkspaceCapability :=
  List.filter (fun c => capabilityAllowedInWorkspace c kind) js_values.

(* src: packages/core/src/workspace.ts:156-163 roleFamilyForWorkspaceKind *)
Definition roleFamilyForWorkspaceKind (kind : WorkspaceKind) : string :=
  match kind with
  | Family => "family" | ChildSafetyOrganization => "organization" | Internal => "internal" | _ => "business"
  end.

(* src: packages/core/src/workspace.ts:167-167 WorkspaceNavItem *)
Record WorkspaceNavItem := { href : string; labelKey : string; capability : option WorkspaceCapability }.

(* src: packages/core/src/workspace.ts:170-179 BUSINESS_NAV *)
Definition BUSINESS_NAV : list WorkspaceNavItem :=
  [{| href := "/dashboard"; labelKey := "nav.overview"; capability := Some BusinessDashboard |};
   {| href := "/dashboard/accounts"; labelKey := "nav.accounts"; capability := Some SocialAccounts |};
   {| href := "/dashboard/comments"; labelKey := "nav.comments"; capability := Some CommentModeration |};
   {| href := "/dashboard/incidents"; labelKey := "nav.incidents"; capability := Some BusinessIncidents |};
   {| href := "/dashboard/security/cyberbullying"; labelKey := "nav.cyberbullying"; capability := Some CyberbullyingCaseManagement |};
   {| href := "/dashboard/team"; labelKey := "nav.team"; capability := Some TeamManagement |};
   {| href := "/dashboard/billing"; labelKey := "nav.billing"; capability := Some BusinessBilling |};
   {| href := "/dashboard/settings"; labelKey := "nav.settings"; capability := None |}].

(* src: packages/core/src/workspace.ts:182-190 FAMILY_NAV *)
Definition FAMILY_NAV : list WorkspaceNavItem :=
  [{| href := "/dashboard/family"; labelKey := "familyNav.overview"; capability := Some FamilyDashboard |};
   {| href := "/dashboard/family/profiles"; labelKey := "familyNav.profiles"; capability := Some ProtectedProfiles |};
   {| href := "/dashboard/family/safety"; labelKey := "familyNav.safety"; capability := Some ChildSafetyIncidents |};
   {| href := "/dashboard/family/alerts"; labelKey := "familyNav.alerts"; capability := Some GuardianAlerts |};
   {| href := "/dashboard/family/guardians"; labelKey := "familyNav.guardians"; capability := Some GuardianRelationships |};
   {| href := "/dashboard/family/consent"; labelKey := "familyNav.consent"; capability := Some ConsentManagement |};
   {| href := "/dashboard/settings"; labelKey := "nav.settings"; capability := None |}].

(* src: packages/core/src/workspace.ts:193-195 navForWorkspaceKind *)
Definition navForWorkspaceKind (kind : WorkspaceKind) : list WorkspaceNavItem :=
  if kind =e Family then FAMILY_NAV else BUSINESS_NAV.

(* src: packages/core/src/child-safety-family.ts:78-81 FAMILY_AUTHORITY_MANAGE_ACTIONS *)
Definition FAMILY_AUTHORITY_MANAGE_ACTIONS : list FamilyAction :=
  [FamilyAuthorityGrant; FamilyAuthorityChange; FamilyAuthoritySuspend; FamilyAuthorityResume; FamilyAuthorityRevoke].

(* src: packages/core/src/child-safety-family.ts:90-98 familyRoleForMembershipRole *)
Definition familyRoleForMembershipRole (role : string) : FamilyRole :=
  match parse (A := Role) role with
  | Some Owner => PrimaryGuardian
  | Some Admin => Guardian
  | Some Analyst => SafetyProfessional
  | Some Reviewer => TrustedAdult
  | _ => FamilyViewer
  end.

(* src: packages/core/src/child-safety-family.ts:100-106 VIEW_ONLY *)
Definition VIEW_ONLY : list FamilyAction :=
  [FamilyView; ProtectedProfileView; GuardianRelationshipView; GuardianAuthorityView; ConsentView;
   SafeRecipientView; SafetySignalView].
(* src: packages/core/src/child-safety-family.ts:107-107 FULL_MANAGE *)
Definition FULL_MANAGE : list FamilyAction := js_values.
(* src: packages/core/src/child-safety-family.ts:110-112 DELIVERY_RECIPIENT_ACTIONS *)
Definition DELIVERY_RECIPIENT_ACTIONS : list FamilyAction :=
  [SafetyDeliveryView; SafetyDeliveryAcknowledge; SafetyDeliveryDecline].
(* src: packages/core/src/child-safety-family.ts:117-119 GUARDIAN_ACTIONS *)
Definition GUARDIAN_ACTIONS : list FamilyAction :=
  List.filter (fun a => negb (a =e SafetyRecipientAuthorizationRevoke) && negb (a =e SafetyDeliveryRevoke) &&
    negb (a =e SafetyDeliveryArchive) && negb (bool_decide (a ∈ FAMILY_AUTHORITY_MANAGE_ACTIONS))) js_values.
(* src: packages/core/src/child-safety-family.ts:123-127 SAFETY_PROFESSIONAL *)
Definition SAFETY_PROFESSIONAL : list FamilyAction :=
  VIEW_ONLY ++ [SafetySignalReview; SafetyRecipientAuthorizationView; SafetyRecipientAuthorizationEvaluate] ++
  DELIVERY_RECIPIENT_ACTIONS.
(* src: packages/core/src/child-safety-family.ts:130-130 TRUSTED_ADULT *)
Definition TRUSTED_ADULT : list FamilyAction := VIEW_ONLY ++ DELIVERY_RECIPIENT_ACTIONS.

(* src: packages/core/src/child-safety-family.ts:133-139 FAMILY_ROLE_ACTIONS *)
Definition FAMILY_ROLE_ACTIONS (r : FamilyRole) : list FamilyAction :=
  match r with
  | PrimaryGuardian => FULL_MANAGE
  | Guardian => GUARDIAN_ACTIONS
  | TrustedAdult => TRUSTED_ADULT
  | SafetyProfessional => SAFETY_PROFESSIONAL
  | FamilyViewer => VIEW_ONLY
  end.

(* src: packages/core/src/child-safety-family.ts:142-144 familyRoleCan *)
Definition familyRoleCan (r : FamilyRole) (a : FamilyAction) : bool := bool_decide (a ∈ FAMILY_ROLE_ACTIONS r).

(* src: packages/core/src/child-safety-family.ts:192-197 FamilyActorContext *)
Record FamilyActorContext := { tenantId : string; userId : string; role : string; workspaceKind : string }.

(* src: packages/core/src/child-safety-family.ts:199-201 FamilyAuthzDecision *)
Inductive FamilyAuthzDecision := Authorized | Refused (reason : string).

(* src: packages/core/src/child-safety-family.ts:208-214 authorizeFamilyAction *)
Definition authorizeFamilyAction (actor : FamilyActorContext) (action : FamilyAction) : FamilyAuthzDecision :=
  if negb (workspaceKind actor =s js_name Family) then Refused "not_family_workspace"
  else
    let cap := FAMILY_ACTION_CAPABILITY action in
    if negb (capabilityAllowedInWorkspace cap Family) then Refused "capability_not_in_workspace"
    else if negb (familyRoleCan (familyRoleForMembershipRole (role actor)) action) then Refused "role_forbidden"
    else Authorized.

(** * Inputs *)

(* src: packages/core/src/child-safety-family.ts:318-318 PROTECTED_PROFILE_CREATE_FIELDS *)
Definition PROTECTED_PROFILE_CREATE_FIELDS : list string := ["guardianLabel"; "ageBand"; "protectionStatus"; "language"].
(* src: packages/core/src/child-safety-family.ts:322-322 PROTECTED_PROFILE_UPDATE_FIELDS *)
Definition PROTECTED_PROFILE_UPDATE_FIELDS : list string := ["guardianLabel"; "ageBand"; "protectionStatus"; "language"].
(* src: packages/core/src/child-safety-family.ts:323-325 GUARDIAN_RELATIONSHIP_CREATE_FIELDS *)
Definition GUARDIAN_RELATIONSHIP_CREATE_FIELDS : list string :=
  ["guardianMembershipId"; "protectedProfileId"; "relationshipType"; "authorityLevel"; "guardianRole"; "consentType"].
(* src: packages/core/src/child-safety-family.ts:331-331 PROFILE_LANGUAGES *)
Definition PROFILE_LANGUAGES : list string := ["en"; "sk"; "de"].
(* src: packages/core/src/child-safety-family.ts:332-332 isProfileLanguage *)
Definition isProfileLanguage (x : string) : bool := includes PROFILE_LANGUAGES x.

(** A raw input is an object, of which only the own keys matter here, or not one. *)
Inductive raw_input := RawObject (keys : list string) | RawOther.

(* src: packages/core/src/child-safety-family.ts:334-334 ChildSafetyInputErrorCode *)
Inductive ChildSafetyInputErrorCode := forbidden_field | unknown_field | invalid_value | not_object.
(* src: packages/core/src/child-safety-family.ts:335-335 ChildSafetyInputValidation *)
Record ChildSafetyInputValidation := { v_ok : bool; v_errors : list (ChildSafetyInputErrorCode * string) }.

(* src: packages/core/src/child-safety-family.ts:338-348 validateChildSafetyInput *)
Definition validateChildSafetyInput (raw : raw_input) (allowedFields : list string) : ChildSafetyInputValidation :=
  match raw with
  | RawOther => {| v_ok := false; v_errors := [(not_object, "$")] |}
  | RawObject keys =>
      let errs := omap (fun key =>
        if includes CHILD_SAFETY_FORBIDDEN_FIELDS key then Some (forbidden_field, key)
        else if negb (includes allowedFields key) then Some (unknown_field, key) else None) keys in
      {| v_ok := (length errs =? 0)%nat; v_errors := errs |}
  end.

(* src: packages/core/src/child-safety-family.ts:383-385 INVITABLE_FAMILY_ROLES *)
Definition INVITABLE_FAMILY_ROLES : list FamilyRole := [Guardian; TrustedAdult; SafetyProfessional; FamilyViewer].
(* src: packages/core/src/child-safety-family.ts:386-386 isInvitableFamilyRole *)
Definition isInvitableFamilyRole (x : string) : bool := includes (map js_name INVITABLE_FAMILY_ROLES) x.

(* src: packages/core/src/child-safety-family.ts:393-401 membershipRoleForInvitedFamilyRole *)
Definition membershipRoleForInvitedFamilyRole (familyRole : string) : option Role :=
  match parse (A := FamilyRole) familyRole with
  | Some Guardian => Some Admin
  | Some TrustedAdult => Some Reviewer
  | Some SafetyProfessional => Some Analyst
  | Some FamilyViewer => Some Viewer
  | _ => None
  end.

(* src: packages/core/src/child-safety-family.ts:404-406 FAMILY_INVITATION_CREATE_FIELDS *)
Definition FAMILY_INVITATION_CREATE_FIELDS : list string :=
  ["protectedProfileId"; "invitedEmail"; "intendedFamilyRole"; "intendedGuardianRole"; "intendedRelationshipType"].

(** * Properties *)

(** Workspace kinds do not share capabilities: every capability is allowed in
    exactly one kind, the list computed for a kind is exactly the capabilities
    allowed there, and no kind is both public and invite-only or system-managed. *)
Theorem capability_in_one_kind (c : WorkspaceCapability) (k : WorkspaceKind) :
  (exists k0, forall k', capabilityAllowedInWorkspace c k' = true <-> k' = k0) /\
  (In c (capabilitiesForWorkspaceKind k) <-> capabilityAllowedInWorkspace c k = true) /\
  (isPubliclyCreatableWorkspaceKind k = true <->
     ~ In k INVITE_ONLY_WORKSPACE_KINDS /\ ~ In k SYSTEM_WORKSPACE_KINDS).
Proof.
  split; [|split].
  - exists (match WORKSPACE_CAPABILITIES c with k0 :: _ => k0 | [] => Internal end).
    intros k'. destruct c, k'; vm_compute; intuition congruence.
  - unfold capabilitiesForWorkspaceKind. rewrite filter_In. split; [tauto|]. intros H. split; [|done].
    apply js_values_complete.
  - destruct k; vm_compute; intuition congruence.
Qed.

(** The gate is exact: a family action is authorized exactly in a family
    workspace for a role, derived from the membership, that holds the action; the
    capability check behind it never refuses, and every refusal names which of the
    two conditions failed, the workspace first. *)
Theorem family_gate_exact (actor : FamilyActorContext) (action : FamilyAction) :
  let can := familyRoleCan (familyRoleForMembershipRole (role actor)) action in
  (authorizeFamilyAction actor action = Authorized <-> workspaceKind actor = "family" /\ can = true) /\
  (authorizeFamilyAction actor action = Refused "not_family_workspace" <-> workspaceKind actor <> "family") /\
  (authorizeFamilyAction actor action = Refused "role_forbidden" <-> workspaceKind actor = "family" /\ can = false) /\
  authorizeFamilyAction actor action <> Refused "capability_not_in_workspace".
Proof.
  cbv zeta. unfold authorizeFamilyAction.
  assert (Hc : capabilityAllowedInWorkspace (FAMILY_ACTION_CAPABILITY action) Family = true) by (by destruct action).
  rewrite Hc. change (js_name Family) with "family".
  destruct (String.eqb_spec (workspaceKind actor) "family") as [He|He]; cbn [negb];
    destruct (familyRoleCan _ action); cbn [negb]; intuition congruence.
Qed.

(** Family roles are a chain: what a viewer may do a trusted adult may, then a
    safety professional, a guardian and the primary guardian; the primary guardian
    may do everything, and exactly eight actions, the five on authority and the
    three on revoking or archiving disclosures, are the primary guardian's alone. *)
Theorem family_roles_chain (a : FamilyAction) :
  (familyRoleCan FamilyViewer a = true -> familyRoleCan TrustedAdult a = true) /\
  (familyRoleCan TrustedAdult a = true -> familyRoleCan SafetyProfessional a = true) /\
  (familyRoleCan SafetyProfessional a = true -> familyRoleCan Guardian a = true) /\
  familyRoleCan PrimaryGuardian a = true /\
  (familyRoleCan Guardian a = false <->
     In a (FAMILY_AUTHORITY_MANAGE_ACTIONS ++
           [SafetyRecipientAuthorizationRevoke; SafetyDeliveryRevoke; SafetyDeliveryArchive])).
Proof. destruct a; vm_compute; intuition congruence. Qed.

Lemma family_roles_chain_witness : familyRoleCan SafetyProfessional SafetyDeliveryDecline = true.
Proof. exact (proj1 (proj2 (family_roles_chain SafetyDeliveryDecline)) eq_refl). Defined.

(** Invitations never escalate: the membership role an invitation grants maps
    back to exactly the invited family role, which is never the primary guardian,
    and is never the owner's; and a role is granted exactly for the invitable ones. *)
Theorem invited_role_roundtrip (familyRole : string) :
  (forall m, membershipRoleForInvitedFamilyRole familyRole = Some m ->
     js_name (familyRoleForMembershipRole (js_name m)) = familyRole /\
     familyRoleForMembershipRole (js_name m) <> PrimaryGuardian /\ m <> Owner) /\
  (isInvitableFamilyRole familyRole = true <-> membershipRoleForInvitedFamilyRole familyRole <> None).
Proof.
  unfold membershipRoleForInvitedFamilyRole. split.
  - intros m. destruct (parse familyRole) as [r|] eqn:Hp; [|done]. apply parse_Some in Hp as <-.
    destruct r; intros [= <-] || intros [=]; vm_compute; repeat split; congruence.
  - unfold isInvitableFamilyRole. rewrite includes_In, in_map_iff. split.
    + intros (r & <- & Hr). rewrite parse_name. destruct r; try congruence. vm_compute in Hr. intuition congruence.
    + destruct (parse familyRole) as [r|] eqn:Hp; [|done]. apply parse_Some in Hp as <-. intros Hr.
      exists r. split; [done|]. destruct r; vm_compute; tauto || congruence.
Qed.

Lemma invited_role_roundtrip_witness : js_name (familyRoleForMembershipRole (js_name Analyst)) = "safety_professional".
Proof. exact (proj1 (proj1 (invited_role_roundtrip "safety_professional") Analyst eq_refl)). Defined.

(** Inputs are content-free: a raw input is accepted exactly when it is an
    object all of whose keys are allowed and none is forbidden; every rejected key
    is reported, in order, a forbidden one as forbidden even if it were allowed;
    and no allowlist of the family domain names a forbidden field. *)
Theorem family_inputs_content_free (keys allowedFields : list string) :
  (v_ok (validateChildSafetyInput (RawObject keys) allowedFields) = true <->
     forall k, In k keys -> In k allowedFields /\ ~ In k CHILD_SAFETY_FORBIDDEN_FIELDS) /\
  map snd (v_errors (validateChildSafetyInput (RawObject keys) allowedFields)) =
    List.filter (fun k => includes CHILD_SAFETY_FORBIDDEN_FIELDS k || negb (includes allowedFields k)) keys /\
  v_ok (validateChildSafetyInput RawOther allowedFields) = false /\
  (forall k, In k (PROTECTED_PROFILE_CREATE_FIELDS ++ PROTECTED_PROFILE_UPDATE_FIELDS ++
       GUARDIAN_RELATIONSHIP_CREATE_FIELDS ++ FAMILY_INVITATION_CREATE_FIELDS) -> ~ In k CHILD_SAFETY_FORBIDDEN_FIELDS).
Proof.
  assert (Herrs : map snd (v_errors (validateChildSafetyInput (RawObject keys) allowedFields)) =
    List.filter (fun k => includes CHILD_SAFETY_FORBIDDEN_FIELDS k || negb (includes allowedFields k)) keys).
  { cbn [validateChildSafetyInput v_errors]. induction keys as [|k keys IH]; [done|].
    match goal with |- map snd (omap ?f (k :: keys)) = _ =>
      change (omap f (k :: keys)) with (match f k with Some y => y :: omap f keys | None => omap f keys end) end.
    cbn [List.filter].
    destruct (includes CHILD_SAFETY_FORBIDDEN_FIELDS k); [cbn [map snd orb]; by rewrite IH|].
    destruct (includes allowedFields k); [exact IH|cbn [map snd orb negb]; by rewrite IH]. }
  split; [|split; [done|split; [done|]]].
  - assert (Hok : v_ok (validateChildSafetyInput (RawObject keys) allowedFields) = true <->
      map snd (v_errors (validateChildSafetyInput (RawObject keys) allowedFields)) = []).
    { cbn [validateChildSafetyInput v_errors v_ok]. destruct (omap _ keys); split; done. }
    rewrite Hok, Herrs. split.
    + intros Hf k Hk. destruct (includes CHILD_SAFETY_FORBIDDEN_FIELDS k || negb (includes allowedFields k)) eqn:Hb.
      * exfalso. assert (Hin : In k (List.filter (fun k => includes CHILD_SAFETY_FORBIDDEN_FIELDS k || negb (includes allowedFields k)) keys))
          by (by apply filter_In). by rewrite Hf in Hin.
      * apply orb_false_iff in Hb as [Hb1 Hb2]. apply negb_false_iff in Hb2. split; [by apply includes_In|].
        intros Hin%includes_In. congruence.
    + intros Hall. destruct (List.filter _ keys) as [|k l] eqn:Hl; [done|]. exfalso.
      assert (Hin : In k (List.filter (fun k => includes CHILD_SAFETY_FORBIDDEN_FIELDS k || negb (includes allowedFields k)) keys))
        by (rewrite Hl; by left).
      apply filter_In in Hin as [Hin Hb]. destruct (Hall k Hin) as [Ha Hn].
      apply includes_In in Ha. rewrite Ha, orb_false_r in Hb. by apply includes_In in Hb.
  - intros k Hk Hin%includes_In. revert k Hk Hin.
    assert (Hall : forallb (fun k => negb (includes CHILD_SAFETY_FORBIDDEN_FIELDS k))
      (PROTECTED_PROFILE_CREATE_FIELDS ++ PROTECTED_PROFILE_UPDATE_FIELDS ++
       GUARDIAN_RELATIONSHIP_CREATE_FIELDS ++ FAMILY_INVITATION_CREATE_FIELDS) = true) by (vm_compute; reflexivity).
    rewrite forallb_forall in Hall. intros k Hk Hin. specialize (Hall k Hk). by rewrite Hin in Hall.
Qed.

End Workspace.
