(* ===== verification/Disclosure.v ===== *)
(** Child-safety disclosure policy ([packages/core/src/child-safety-signal.ts],
    [child-safety-consent.ts], [child-safety-recipient-authorization.ts],
    [child-safety-delivery.ts], [child-safety-safety-signal.ts]): the signal
    envelope's validator, the effective-state evaluators, the recipient chain,
    disclosure scopes and their serialization, the delivery life cycle, bounds. *)
From S2P Require Import Prelude JsValue.
From Stdlib Require Import QArith Qround.
Open Scope string_scope.
Open Scope list_scope.
Open Scope Z_scope.
Open Scope tam_scope.
Import JsValue.

Module Disclosure.

(** * The signal contract *)

(* src: packages/core/src/child-safety-signal.ts:27-45 SafetySignalCode *)
Inductive SafetySignalCode :=
| SigAgeProbe | SigParentalMonitoringProbe | SigSecrecyRequest | SigIntimateImageRequest
| SigOffPlatformMove | SigMeetingProposal | SigThreat | SigSelfHarmEncouragement | SigCoerciveControl
| SigComplianceThreat | SigFinancialScam | SigCredentialRequest | SigPaymentDemand | SigTrustExploitation.
#[export] Instance SafetySignalCode_dec : EqDecision SafetySignalCode.
Proof. solve_decision. Defined.
#[export] Program Instance SafetySignalCode_enum : JsEnum SafetySignalCode := {|
  js_name x := match x with
    | SigAgeProbe => "AGE_PROBE" | SigParentalMonitoringProbe => "PARENTAL_MONITORING_PROBE"
    | SigSecrecyRequest => "SECRECY_REQUEST" | SigIntimateImageRequest => "INTIMATE_IMAGE_REQUEST"
    | SigOffPlatformMove => "OFF_PLATFORM_MOVE" | SigMeetingProposal => "MEETING_PROPOSAL"
    | SigThreat => "THREAT" | SigSelfHarmEncouragement => "SELF_HARM_ENCOURAGEMENT"
    | SigCoerciveControl => "COERCIVE_CONTROL" | SigComplianceThreat => "COMPLIANCE_THREAT"
    | SigFinancialScam => "FINANCIAL_SCAM" | SigCredentialRequest => "CREDENTIAL_REQUEST"
    | SigPaymentDemand => "PAYMENT_DEMAND" | SigTrustExploitation => "TRUST_EXPLOITATION" end;
  js_values :=
    [SigAgeProbe; SigParentalMonitoringProbe; SigSecrecyRequest; SigIntimateImageRequest;
     SigOffPlatformMove; SigMeetingProposal; SigThreat; SigSelfHarmEncouragement; SigCoerciveControl;
     SigComplianceThreat; SigFinancialScam; SigCredentialRequest; SigPaymentDemand; SigTrustExploitation] |}.
Solve All Obligations with solve_js_enum.

(* src: packages/core/src/child-safety-signal.ts:49-60 RiskType *)
Inductive RiskType :=
| RiskGrooming | RiskSexualSolicitation | RiskSextortion | RiskMeetingAttempt | RiskCyberbullying
| RiskThreat | RiskIdentityManipulation | RiskCoercion | RiskScamExploitation.
#[export] Instance RiskType_dec : EqDecision RiskType.
Proof. solve_decision. Defined.
#[export] Program Instance RiskType_enum : JsEnum RiskType := {|
  js_name x := match x with
    | RiskGrooming => "GROOMING" | RiskSexualSolicitation => "SEXUAL_SOLICITATION"
    | RiskSextortion => "SEXTORTION" | RiskMeetingAttempt => "MEETING_ATTEMPT"
    | RiskCyberbullying => "CYBERBULLYING" | RiskThreat => "THREAT"
    | RiskIdentityManipulation => "IDENTITY_MANIPULATION" | RiskCoercion => "COERCION"
    | RiskScamExploitation => "SCAM_EXPLOITATION" end;
  js_values :=
    [RiskGrooming; RiskSexualSolicitation; RiskSextortion; RiskMeetingAttempt; RiskCyberbullying;
     RiskThreat; RiskIdentityManipulation; RiskCoercion; RiskScamExploitation] |}.
Solve All Obligations with solve_js_enum.

(* src: packages/core/src/child-safety-signal.ts:63-63 SafetySeverity *)
Inductive SafetySeverity :=
| SevLow | SevMedium | SevHigh | SevCritical.
#[export] Instance SafetySeverity_dec : EqDecision SafetySeverity.
Proof. solve_decision. Defined.
#[export] Program Instance SafetySeverity_enum : JsEnum SafetySeverity := {|
  js_name x := match x with
    | SevLow => "low" | SevMedium => "medium" | SevHigh => "high" | SevCritical => "critical" end;
  js_values :=
    [SevLow; SevMedium; SevHigh; SevCritical] |}.
Solve All Obligations with solve_js_enum.

(* src: packages/core/src/child-safety-signal.ts:64-64 SafetyUrgency *)
Inductive SafetyUrgency :=
| UrgRoutine | UrgElevated | UrgImmediate.
#[export] Instance SafetyUrgency_dec : EqDecision SafetyUrgency.
Proof. solve_decision. Defined.
#[export] Program Instance SafetyUrgency_enum : JsEnum SafetyUrgency := {|
  js_name x := match x with
    | UrgRoutine => "routine" | UrgElevated => "elevated" | UrgImmediate => "immediate" end;
  js_values :=
    [UrgRoutine; UrgElevated; UrgImmediate] |}.
Solve All Obligations with solve_js_enum.

(* src: packages/core/src/child-safety-signal.ts:89-93 SAFETY_SIGNAL_ALLOWED_FIELDS *)
Definition SAFETY_SIGNAL_ALLOWED_FIELDS : list string :=
  ["contractVersion"; "eventId"; "sourcePlatform"; "sourceEnvironment"; "protectedProfileReference";
   "conversationReferenceHash"; "actorReferenceHash"; "riskType"; "severity"; "urgency"; "confidence";
   "signalCodes"; "detectedAt"; "taxonomyVersion"; "detectorVersion"; "nonce"; "signature"].
(* src: packages/core/src/child-safety-signal.ts:96-99 SAFETY_SIGNAL_FORBIDDEN_FIELDS *)
Definition SAFETY_SIGNAL_FORBIDDEN_FIELDS : list string :=
  ["message"; "text"; "body"; "content"; "transcript"; "image"; "video"; "audio"; "attachment"; "filename";
   "email"; "phone"; "username"; "displayName"; "platformUserId"; "accessToken"; "refreshToken"; "latitude"; "longitude"].

(* src: packages/core/src/child-safety-signal.ts:101-101 SafetySignalValidationErrorCode *)
Inductive SafetySignalValidationErrorCode :=
| forbidden_field | unknown_field | missing_required | invalid_value | not_object.
(* src: packages/core/src/child-safety-signal.ts:102-105 SafetySignalValidation *)
Record SafetySignalValidation := { ok : bool; errors : list (SafetySignalValidationErrorCode * string) }.

Definition bad_risk (v : raw_value) : bool := negb (includes_value (map js_name (js_values (A := RiskType))) v).
Definition bad_confidence (v : raw_value) : bool :=
  match v with VNumber n => outside_unit n | _ => true end.
Definition bad_codes (v : raw_value) : bool :=
  match v with
  | VArray l => existsb (fun c => negb (includes_value (map js_name (js_values (A := SafetySignalCode))) c)) l
  | _ => true
  end.

(* src: packages/core/src/child-safety-signal.ts:113-132 validateSafetySignalEnvelope *)
Definition validateSafetySignalEnvelope (raw : raw_value) : SafetySignalValidation :=
  match raw with
  | VObject obj =>
      let keys := omap (fun key =>
        if includes SAFETY_SIGNAL_FORBIDDEN_FIELDS key then Some (forbidden_field, key)
        else if negb (includes SAFETY_SIGNAL_ALLOWED_FIELDS key) then Some (unknown_field, key) else None) (map_keys obj) in
      let missing := omap (fun req =>
        if is_nullish (field obj req) then Some (missing_required, req) else None) SAFETY_SIGNAL_ALLOWED_FIELDS in
      let invalid f bad := if negb (is_undefined (field obj f)) && bad (field obj f) then [(invalid_value, f)] else [] in
      let errors := keys ++ missing ++
        invalid "riskType" bad_risk ++ invalid "confidence" bad_confidence ++ invalid "signalCodes" bad_codes in
      {| ok := (length errors =? 0)%nat; errors := errors |}
  | _ => {| ok := false; errors := [(not_object, "$")] |}
  end.

(* src: packages/core/src/child-safety-signal.ts:139-139 ConsentStatus *)
Inductive ConsentStatus :=
| ConsentNotRequested | ConsentPending | ConsentActive | ConsentWithdrawn | ConsentExpired
| ConsentDisputed | ConsentSuspended.
#[export] Instance ConsentStatus_dec : EqDecision ConsentStatus.
Proof. solve_decision. Defined.
#[export] Program Instance ConsentStatus_enum : JsEnum ConsentStatus := {|
  js_name x := match x with
    | ConsentNotRequested => "not_requested" | ConsentPending => "pending" | ConsentActive => "active"
    | ConsentWithdrawn => "withdrawn" | ConsentExpired => "expired" | ConsentDisputed => "disputed"
    | ConsentSuspended => "suspended" end;
  js_values :=
    [ConsentNotRequested; ConsentPending; ConsentActive; ConsentWithdrawn; ConsentExpired; ConsentDisputed;
     ConsentSuspended] |}.
Solve All Obligations with solve_js_enum.

(* src: packages/core/src/child-safety-signal.ts:160-160 SafetyRecipientEligibility *)
Inductive SafetyRecipientEligibility :=
| EligEligible | EligRequiresExpertReview | EligSuppressed | EligNotVerified | EligConflicted.
#[export] Instance SafetyRecipientEligibility_dec : EqDecision SafetyRecipientEligibility.
Proof. solve_decision. Defined.
#[export] Program Instance SafetyRecipientEligibility_enum : JsEnum SafetyRecipientEligibility := {|
  js_name x := match x with
    | EligEligible => "eligible" | EligRequiresExpertReview => "requires_expert_review"
    | EligSuppressed => "suppressed" | EligNotVerified => "not_verified" | EligConflicted => "conflicted" end;
  js_values :=
    [EligEligible; EligRequiresExpertReview; EligSuppressed; EligNotVerified; EligConflicted] |}.
Solve All Obligations with solve_js_enum.

(** * Authority, consent, assessment *)

(* src: packages/core/src/child-safety-consent.ts:23-30 GuardianAuthorityType *)
Inductive GuardianAuthorityType :=
| ATypeLegalGuardian | ATypeParentalResponsibility | ATypeCourtAppointed | ATypeDelegatedCare
| ATypeTemporaryCare | ATypeOtherVerified.
#[export] Instance GuardianAuthorityType_dec : EqDecision GuardianAuthorityType.
Proof. solve_decision. Defined.
#[export] Program Instance GuardianAuthorityType_enum : JsEnum GuardianAuthorityType := {|
  js_name x := match x with
    | ATypeLegalGuardian => "legal_guardian" | ATypeParentalResponsibility => "parental_responsibility"
    | ATypeCourtAppointed => "court_appointed" | ATypeDelegatedCare => "delegated_care"
    | ATypeTemporaryCare => "temporary_care" | ATypeOtherVerified => "other_verified" end;
  js_values :=
    [ATypeLegalGuardian; ATypeParentalResponsibility; ATypeCourtAppointed; ATypeDelegatedCare;
     ATypeTemporaryCare; ATypeOtherVerified] |}.
Solve All Obligations with solve_js_enum.

(* src: packages/core/src/child-safety-consent.ts:34-43 GuardianAuthorityStatus *)
Inductive GuardianAuthorityStatus :=
| AuthorityPending | AuthorityVerified | AuthoritySuspended | AuthorityRevoked | AuthorityExpired
| AuthorityRejected.
#[export] Instance GuardianAuthorityStatus_dec : EqDecision GuardianAuthorityStatus.
Proof. solve_decision. Defined.
#[export] Program Instance GuardianAuthorityStatus_enum : JsEnum GuardianAuthorityStatus := {|
  js_name x := match x with
    | AuthorityPending => "pending" | AuthorityVerified => "verified" | AuthoritySuspended => "suspended"
    | AuthorityRevoked => "revoked" | AuthorityExpired => "expired" | AuthorityRejected => "rejected" end;
  js_values :=
    [AuthorityPending; AuthorityVerified; AuthoritySuspended; AuthorityRevoked; AuthorityExpired;
     AuthorityRejected] |}.
Solve All Obligations with solve_js_enum.

(* src: packages/core/src/child-safety-consent.ts:47-52 VerificationMethod *)
Inductive VerificationMethod :=
| VerifManualReview | VerifDocumentCheck | VerifOrganizationConfirmation | VerifOther.
#[export] Instance VerificationMethod_dec : EqDecision VerificationMethod.
Proof. solve_decision. Defined.
#[export] Program Instance VerificationMethod_enum : JsEnum VerificationMethod := {|
  js_name x := match x with
    | VerifManualReview => "manual_review" | VerifDocumentCheck => "document_check"
    | VerifOrganizationConfirmation => "organization_confirmation" | VerifOther => "other" end;
  js_values :=
    [VerifManualReview; VerifDocumentCheck; VerifOrganizationConfirmation; VerifOther] |}.
Solve All Obligations with solve_js_enum.

(* src: packages/core/src/child-safety-consent.ts:56-66 SafeRecipientAssessmentStatus *)
Inductive SafeRecipientAssessmentStatus :=
| AssessmentNotStarted | AssessmentPending | AssessmentApproved | AssessmentSuspended | AssessmentRejected
| AssessmentRevoked | AssessmentExpired.
#[export] Instance SafeRecipientAssessmentStatus_dec : EqDecision SafeRecipientAssessmentStatus.
Proof. solve_decision. Defined.
#[export] Program Instance SafeRecipientAssessmentStatus_enum : JsEnum SafeRecipientAssessmentStatus := {|
  js_name x := match x with
    | AssessmentNotStarted => "not_started" | AssessmentPending => "pending"
    | AssessmentApproved => "approved" | AssessmentSuspended => "suspended"
    | AssessmentRejected => "rejected" | AssessmentRevoked => "revoked" | AssessmentExpired => "expired" end;
  js_values :=
    [AssessmentNotStarted; AssessmentPending; AssessmentApproved; AssessmentSuspended; AssessmentRejected;
     AssessmentRevoked; AssessmentExpired] |}.
Solve All Obligations with solve_js_enum.

(* src: packages/core/src/child-safety-consent.ts:119-119 isGuardianAuthorityStatus *)
Definition isGuardianAuthorityStatus (x : string) : bool := includes (map js_name (js_values (A := GuardianAuthorityStatus))) x.
(* src: packages/core/src/child-safety-consent.ts:121-121 isSafeRecipientAssessmentStatus *)
Definition isSafeRecipientAssessmentStatus (x : string) : bool :=
  includes (map js_name (js_values (A := SafeRecipientAssessmentStatus))) x.

(* src: packages/core/src/child-safety-consent.ts:154-156 relationshipTypeRequiresAuthority *)
Definition relationshipTypeRequiresAuthority (_relationshipType : string) : bool := true.

(** [d !== null && d.getTime() > now.getTime()] and [d !== null && d.getTime() <= now.getTime()] *)
Definition starts_later (d : option Z) (now : Z) : bool := match d with Some t => t >? now | None => false end.
Definition has_ended (d : option Z) (now : Z) : bool := match d with Some t => t <=? now | None => false end.

(* src: packages/core/src/child-safety-consent.ts:160-162 AuthorityRecordState *)
Record AuthorityRecordState := {
  authorityStatus : string; a_validFrom : option Z; a_validUntil : option Z;
  a_revokedAt : option Z; a_archivedAt : option Z }.
(* src: packages/core/src/child-safety-consent.ts:164-171 isGuardianAuthorityActive *)
Definition isGuardianAuthorityActive (r : AuthorityRecordState) (now : Z) : bool :=
  if negb (isGuardianAuthorityStatus (authorityStatus r)) then false
  else if negb (authorityStatus r =s js_name AuthorityVerified) then false
  else if is_some (a_revokedAt r) || is_some (a_archivedAt r) then false
  else if starts_later (a_validFrom r) now then false
  else if has_ended (a_validUntil r) now then false
  else true.

(* src: packages/core/src/child-safety-consent.ts:173-173 ALL_CONSENT_STATUSES *)
Definition ALL_CONSENT_STATUSES : list string := map js_name (js_values (A := ConsentStatus)).
(* src: packages/core/src/child-safety-consent.ts:174-177 ConsentRecordState *)
Record ConsentRecordState := {
  consentStatus : string; grantedAt : option Z; grantedByMembershipId : option string;
  c_validFrom : option Z; c_validUntil : option Z; c_revokedAt : option Z; c_archivedAt : option Z }.
(* src: packages/core/src/child-safety-consent.ts:179-187 isConsentEffective *)
Definition isConsentEffective (r : ConsentRecordState) (now : Z) : bool :=
  if negb (includes ALL_CONSENT_STATUSES (consentStatus r)) then false
  else if negb (consentStatus r =s js_name ConsentActive) then false
  else if is_none (grantedAt r) || is_none (grantedByMembershipId r) then false
  else if is_some (c_revokedAt r) || is_some (c_archivedAt r) then false
  else if starts_later (c_validFrom r) now then false
  else if has_ended (c_validUntil r) now then false
  else true.

(* src: packages/core/src/child-safety-consent.ts:189-192 AssessmentRecordState *)
Record AssessmentRecordState := {
  assessmentStatus : string; eligibilityStatus : string; assessedAt : option Z; assessedByMembershipId : option string;
  s_validUntil : option Z; s_revokedAt : option Z; s_archivedAt : option Z }.
(* src: packages/core/src/child-safety-consent.ts:194-202 isSafeRecipientAssessmentApproved *)
Definition isSafeRecipientAssessmentApproved (r : AssessmentRecordState) (now : Z) : bool :=
  if negb (isSafeRecipientAssessmentStatus (assessmentStatus r)) then false
  else if negb (assessmentStatus r =s js_name AssessmentApproved) then false
  else if negb (eligibilityStatus r =s js_name EligEligible) then false
  else if is_none (assessedAt r) || is_none (assessedByMembershipId r) then false
  else if is_some (s_revokedAt r) || is_some (s_archivedAt r) then false
  else if has_ended (s_validUntil r) now then false
  else true.

(** * The recipient chain *)

(* src: packages/core/src/child-safety-consent.ts:214-216 SafetyRecipientDenyReason *)
Inductive SafetyRecipientDenyReason :=
| deny_not_family_workspace | deny_relationship_inactive | deny_membership_invalid | deny_authority_missing
| deny_consent_missing | deny_assessment_not_approved.
#[export] Instance SafetyRecipientDenyReason_dec : EqDecision SafetyRecipientDenyReason.
Proof. solve_decision. Defined.
#[export] Program Instance SafetyRecipientDenyReason_enum : JsEnum SafetyRecipientDenyReason := {|
  js_name x := match x with
    | deny_not_family_workspace => "not_family_workspace"
    | deny_relationship_inactive => "relationship_inactive"
    | deny_membership_invalid => "membership_invalid" | deny_authority_missing => "authority_missing"
    | deny_consent_missing => "consent_missing" | deny_assessment_not_approved => "assessment_not_approved" end;
  js_values :=
    [deny_not_family_workspace; deny_relationship_inactive; deny_membership_invalid;
     deny_authority_missing; deny_consent_missing; deny_assessment_not_approved] |}.
Solve All Obligations with solve_js_enum.

(* src: packages/core/src/child-safety-consent.ts:205-213 SafetyRecipientChain *)
Record SafetyRecipientChain := {
  workspaceKind : string; relationshipActive : bool; relationshipType : string;
  membershipActiveSameTenant : bool; authorityActive : bool; consentEffective : bool; assessmentApproved : bool }.

(* src: packages/core/src/child-safety-consent.ts:222-231 evaluateCanReceiveSafetyInformation *)
Definition evaluateCanReceiveSafetyInformation (c : SafetyRecipientChain) : bool * list SafetyRecipientDenyReason :=
  let push (b : bool) r := if b then [r] else [] in
  let reasons :=
    push (negb (workspaceKind c =s "family")) deny_not_family_workspace ++
    push (negb (relationshipActive c)) deny_relationship_inactive ++
    push (negb (membershipActiveSameTenant c)) deny_membership_invalid ++
    push (relationshipTypeRequiresAuthority (relationshipType c) && negb (authorityActive c)) deny_authority_missing ++
    push (negb (consentEffective c)) deny_consent_missing ++
    push (negb (assessmentApproved c)) deny_assessment_not_approved in
  ((length reasons =? 0)%nat, reasons).

(** * Disclosure scopes and decisions *)

(* src: packages/core/src/child-safety-recipient-authorization.ts:26-32 SafetyDisclosureScope *)
Inductive SafetyDisclosureScope :=
| SignalExistence | RiskCategory | Severity | TimingBucket | RecommendedActionClass.
#[export] Instance SafetyDisclosureScope_dec : EqDecision SafetyDisclosureScope.
Proof. solve_decision. Defined.
#[export] Program Instance SafetyDisclosureScope_enum : JsEnum SafetyDisclosureScope := {|
  js_name x := match x with
    | SignalExistence => "signal_existence" | RiskCategory => "risk_category" | Severity => "severity"
    | TimingBucket => "timing_bucket" | RecommendedActionClass => "recommended_action_class" end;
  js_values :=
    [SignalExistence; RiskCategory; Severity; TimingBucket; RecommendedActionClass] |}.
Solve All Obligations with solve_js_enum.

(* src: packages/core/src/child-safety-recipient-authorization.ts:38-45 RecipientAuthorizationDecisionStatus *)
Inductive RecipientAuthorizationDecisionStatus :=
| DecisionPending | DecisionAuthorized | DecisionDenied | DecisionRevoked | DecisionExpired
| DecisionSuperseded.
#[export] Instance RecipientAuthorizationDecisionStatus_dec : EqDecision RecipientAuthorizationDecisionStatus.
Proof. solve_decision. Defined.
#[export] Program Instance RecipientAuthorizationDecisionStatus_enum : JsEnum RecipientAuthorizationDecisionStatus := {|
  js_name x := match x with
    | DecisionPending => "pending" | DecisionAuthorized => "authorized" | DecisionDenied => "denied"
    | DecisionRevoked => "revoked" | DecisionExpired => "expired" | DecisionSuperseded => "superseded" end;
  js_values :=
    [DecisionPending; DecisionAuthorized; DecisionDenied; DecisionRevoked; DecisionExpired;
     DecisionSuperseded] |}.
Solve All Obligations with solve_js_enum.

(* src: packages/core/src/child-safety-recipient-authorization.ts:49-63 RecipientAuthorizationReasonCode *)
Inductive RecipientAuthorizationReasonCode :=
| CodeCompleteAuthorizationChain | CodeNoActiveGuardianRelationship | CodeNoValidAuthority
| CodeNoValidConsent | CodeNoApprovedSafeRecipient | CodeInactiveMembership | CodeTenantMismatch
| CodeProfileMismatch | CodeSignalArchived | CodeConsentScopeInsufficient | CodeRecipientRoleNotAllowed
| CodeAuthorizationRevoked | CodeSupersededByNewDecision.
#[export] Instance RecipientAuthorizationReasonCode_dec : EqDecision RecipientAuthorizationReasonCode.
Proof. solve_decision. Defined.
#[export] Program Instance RecipientAuthorizationReasonCode_enum : JsEnum RecipientAuthorizationReasonCode := {|
  js_name x := match x with
    | CodeCompleteAuthorizationChain => "complete_authorization_chain"
    | CodeNoActiveGuardianRelationship => "no_active_guardian_relationship"
    | CodeNoValidAuthority => "no_valid_authority" | CodeNoValidConsent => "no_valid_consent"
    | CodeNoApprovedSafeRecipient => "no_approved_safe_recipient"
    | CodeInactiveMembership => "inactive_membership" | CodeTenantMismatch => "tenant_mismatch"
    | CodeProfileMismatch => "profile_mismatch" | CodeSignalArchived => "signal_archived"
    | CodeConsentScopeInsufficient => "consent_scope_insufficient"
    | CodeRecipientRoleNotAllowed => "recipient_role_not_allowed"
    | CodeAuthorizationRevoked => "authorization_revoked"
    | CodeSupersededByNewDecision => "superseded_by_new_decision" end;
  js_values :=
    [CodeCompleteAuthorizationChain; CodeNoActiveGuardianRelationship; CodeNoValidAuthority;
     CodeNoValidConsent; CodeNoApprovedSafeRecipient; CodeInactiveMembership; CodeTenantMismatch;
     CodeProfileMismatch; CodeSignalArchived; CodeConsentScopeInsufficient; CodeRecipientRoleNotAllowed;
     CodeAuthorizationRevoked; CodeSupersededByNewDecision] |}.
Solve All Obligations with solve_js_enum.

(* src: packages/core/src/child-safety-recipient-authorization.ts:34-34 isSafetyDisclosureScope *)
Definition isSafetyDisclosureScope (x : string) : bool := includes (map js_name (js_values (A := SafetyDisclosureScope))) x.
(* src: packages/core/src/child-safety-recipient-authorization.ts:47-47 isRecipientAuthorizationDecisionStatus *)
Definition isRecipientAuthorizationDecisionStatus (x : string) : bool :=
  includes (map js_name (js_values (A := RecipientAuthorizationDecisionStatus))) x.

(* src: packages/core/src/child-safety-recipient-authorization.ts:68-78 reasonCodeForDenyReason *)
Definition reasonCodeForDenyReason (r : SafetyRecipientDenyReason) : RecipientAuthorizationReasonCode :=
  match r with
  | deny_relationship_inactive => CodeNoActiveGuardianRelationship
  | deny_membership_invalid => CodeInactiveMembership
  | deny_authority_missing => CodeNoValidAuthority
  | deny_consent_missing => CodeNoValidConsent
  | deny_assessment_not_approved => CodeNoApprovedSafeRecipient
  | deny_not_family_workspace => CodeTenantMismatch
  end.

(* src: packages/core/src/child-safety-recipient-authorization.ts:82-87 DISCLOSURE_POLICY_BY_SEVERITY *)
Definition DISCLOSURE_POLICY_BY_SEVERITY (s : SafetySeverity) : list SafetyDisclosureScope :=
  match s with
  | SevLow => [SignalExistence; RiskCategory]
  | SevMedium => [SignalExistence; RiskCategory; Severity]
  | SevHigh => [SignalExistence; RiskCategory; Severity; TimingBucket]
  | SevCritical => [SignalExistence; RiskCategory; Severity; TimingBucket; RecommendedActionClass]
  end.

(** [a < b ? -1 : a > b ? 1 : 0] on the scopes' literals. *)
Definition scope_cmp (a b : SafetyDisclosureScope) : Z :=
  if str_ltb (js_name a) (js_name b) then -1 else if str_ltb (js_name b) (js_name a) then 1 else 0.
(* src: packages/core/src/child-safety-recipient-authorization.ts:106-108 sortScopes *)
Definition sortScopes (scopes : list SafetyDisclosureScope) : list SafetyDisclosureScope := js_sort scope_cmp scopes.

(** Indexing the policy with a raw severity also finds the properties the object
    inherits, none of which is iterable: the spread then throws. *)
Inductive PolicyError := TypeError.

(* src: packages/core/src/child-safety-recipient-authorization.ts:90-98 maxDisclosureScopesForSignal *)
Definition maxDisclosureScopesForSignal (severity signalType : string) : outcome (list SafetyDisclosureScope) PolicyError :=
  let base :=
    match parse (A := SafetySeverity) severity with
    | Some s => Ret (DISCLOSURE_POLICY_BY_SEVERITY s)
    | None => if includes object_prototype_keys severity then Throw TypeError else Ret [SignalExistence]
    end in
  match base with
  | Throw e => Throw e
  | Ret scopes =>
      let scopes := if signalType =s js_name RiskIdentityManipulation
        then List.filter (fun s => bool_decide (s = SignalExistence) || bool_decide (s = RiskCategory)) scopes
        else scopes in
      Ret (sortScopes (js_set scopes))
  end.

(* src: packages/core/src/child-safety-recipient-authorization.ts:105-105 SAFETY_DISCLOSURE_SCOPE_MAX_LEN *)
Definition SAFETY_DISCLOSURE_SCOPE_MAX_LEN : Z := 200.

(* src: packages/core/src/child-safety-recipient-authorization.ts:110-112 serializeDisclosureScopes *)
Definition serializeDisclosureScopes (scopes : list SafetyDisclosureScope) : string :=
  String.concat "," (map js_name (sortScopes (js_set scopes))).

(** [raw.split(",")] *)
Fixpoint split_comma (s : string) : list string :=
  match s with
  | EmptyString => [EmptyString]
  | String c r =>
      if Ascii.eqb c ","%char then EmptyString :: split_comma r
      else match split_comma r with [] => [String c EmptyString] | p :: ps => String c p :: ps end
  end.

(** The loop over the parts: the first unknown token ends it. *)
Fixpoint parse_parts (parts : list string) : option (list SafetyDisclosureScope) :=
  match parts with
  | [] => Some []
  | p :: ps => match parse p with Some s => option_map (cons s) (parse_parts ps) | None => None end
  end.

(* src: packages/core/src/child-safety-recipient-authorization.ts:114-124 parseDisclosureScopes *)
Definition parseDisclosureScopes (raw : option string) : bool * list SafetyDisclosureScope :=
  match raw with
  | None | Some EmptyString => (true, [])
  | Some s =>
      if str_len s >? SAFETY_DISCLOSURE_SCOPE_MAX_LEN then (false, [])
      else match parse_parts (split_comma s) with
           | None => (false, [])
           | Some scopes => (true, sortScopes (js_set scopes))
           end
  end.

(* src: packages/core/src/child-safety-recipient-authorization.ts:126-129 scopesWithin *)
Definition scopesWithin (requested allowed : list SafetyDisclosureScope) : bool :=
  forallb (fun s => bool_decide (s ∈ js_set allowed)) requested.

(* src: packages/core/src/child-safety-recipient-authorization.ts:134-136 RECIPIENT_ELIGIBLE_FAMILY_ROLES *)
Definition RECIPIENT_ELIGIBLE_FAMILY_ROLES : list string :=
  ["primary_guardian"; "guardian"; "safety_professional"; "trusted_adult"].
(* src: packages/core/src/child-safety-recipient-authorization.ts:137-139 isRecipientEligibleFamilyRole *)
Definition isRecipientEligibleFamilyRole (familyRole : string) : bool := includes RECIPIENT_ELIGIBLE_FAMILY_ROLES familyRole.

(* src: packages/core/src/child-safety-recipient-authorization.ts:143-145 RecipientAuthorizationDecisionState *)
Record RecipientAuthorizationDecisionState := {
  decisionStatus : string; d_validUntil : option Z; d_revokedAt : option Z;
  d_supersededAt : option Z; d_archivedAt : option Z }.
(* src: packages/core/src/child-safety-recipient-authorization.ts:151-157 isRecipientAuthorizationDecisionRowEffective *)
Definition isRecipientAuthorizationDecisionRowEffective (d : RecipientAuthorizationDecisionState) (now : Z) : bool :=
  if negb (isRecipientAuthorizationDecisionStatus (decisionStatus d)) then false
  else if negb (decisionStatus d =s js_name DecisionAuthorized) then false
  else if is_some (d_revokedAt d) || is_some (d_supersededAt d) || is_some (d_archivedAt d) then false
  else if has_ended (d_validUntil d) now then false
  else true.

(** * Deliveries *)

(* src: packages/core/src/child-safety-delivery.ts:28-38 SafetyDeliveryStatus *)
Inductive SafetyDeliveryStatus :=
| DeliveryPrepared | DeliveryAvailable | DeliveryAcknowledged | DeliveryDeclined | DeliveryFailed
| DeliveryRevoked | DeliveryExpired | DeliverySuperseded | DeliveryArchived.
#[export] Instance SafetyDeliveryStatus_dec : EqDecision SafetyDeliveryStatus.
Proof. solve_decision. Defined.
#[export] Program Instance SafetyDeliveryStatus_enum : JsEnum SafetyDeliveryStatus := {|
  js_name x := match x with
    | DeliveryPrepared => "prepared" | DeliveryAvailable => "available"
    | DeliveryAcknowledged => "acknowledged" | DeliveryDeclined => "declined" | DeliveryFailed => "failed"
    | DeliveryRevoked => "revoked" | DeliveryExpired => "expired" | DeliverySuperseded => "superseded"
    | DeliveryArchived => "archived" end;
  js_values :=
    [DeliveryPrepared; DeliveryAvailable; DeliveryAcknowledged; DeliveryDeclined; DeliveryFailed;
     DeliveryRevoked; DeliveryExpired; DeliverySuperseded; DeliveryArchived] |}.
Solve All Obligations with solve_js_enum.

(* src: packages/core/src/child-safety-delivery.ts:20-22 SafetyDeliveryChannel *)
Inductive SafetyDeliveryChannel :=
| InternalInbox.
#[export] Instance SafetyDeliveryChannel_dec : EqDecision SafetyDeliveryChannel.
Proof. solve_decision. Defined.
#[export] Program Instance SafetyDeliveryChannel_enum : JsEnum SafetyDeliveryChannel := {|
  js_name x := match x with
    | InternalInbox => "internal_inbox" end;
  js_values :=
    [InternalInbox] |}.
Solve All Obligations with solve_js_enum.

(* src: packages/core/src/child-safety-delivery.ts:40-40 isSafetyDeliveryStatus *)
Definition isSafetyDeliveryStatus (x : string) : bool := includes (map js_name (js_values (A := SafetyDeliveryStatus))) x.
(* src: packages/core/src/child-safety-delivery.ts:24-24 isSafetyDeliveryChannel *)
Definition isSafetyDeliveryChannel (x : string) : bool := includes (map js_name (js_values (A := SafetyDeliveryChannel))) x.

(* src: packages/core/src/child-safety-delivery.ts:43-53 SAFETY_DELIVERY_TRANSITIONS *)
Definition SAFETY_DELIVERY_TRANSITIONS (s : SafetyDeliveryStatus) : list SafetyDeliveryStatus :=
  match s with
  | DeliveryPrepared =>
      [DeliveryAvailable; DeliveryFailed; DeliveryRevoked; DeliveryExpired; DeliverySuperseded; DeliveryArchived]
  | DeliveryAvailable =>
      [DeliveryAcknowledged; DeliveryDeclined; DeliveryRevoked; DeliveryExpired; DeliverySuperseded; DeliveryArchived]
  | DeliveryAcknowledged => [DeliveryArchived]
  | DeliveryDeclined => [DeliveryArchived]
  | DeliveryFailed => [DeliveryArchived; DeliverySuperseded]
  | DeliveryRevoked => [DeliveryArchived]
  | DeliveryExpired => [DeliveryArchived]
  | DeliverySuperseded => [DeliveryArchived]
  | DeliveryArchived => []
  end.

(* src: packages/core/src/child-safety-delivery.ts:55-58 isValidSafetyDeliveryTransition *)
Definition isValidSafetyDeliveryTransition (from to : string) : bool :=
  match parse (A := SafetyDeliveryStatus) from with
  | None => false
  | Some f => if isSafetyDeliveryStatus to then includes (map js_name (SAFETY_DELIVERY_TRANSITIONS f)) to else false
  end.

(* src: packages/core/src/child-safety-delivery.ts:101-102 SAFETY_DELIVERY_IDEMPOTENCY_KEY_MAX *)
Definition SAFETY_DELIVERY_IDEMPOTENCY_KEY_MAX : Z := 64.
(** A character of the class [[A-Za-z0-9_-]]. *)
Definition is_token_char (c : ascii) : bool := is_alnum c || Ascii.eqb c "_"%char || Ascii.eqb c "-"%char.
(* src: packages/core/src/child-safety-delivery.ts:103-105 isValidDeliveryIdempotencyKey *)
Definition isValidDeliveryIdempotencyKey (x : option string) : bool :=
  match x with
  | None => false
  | Some s => (str_len s >=? 1) && (str_len s <=? SAFETY_DELIVERY_IDEMPOTENCY_KEY_MAX) && str_forallb is_token_char s
  end.

(* src: packages/core/src/child-safety-delivery.ts:109-111 SafetyDeliveryRowState *)
Record SafetyDeliveryRowState := {
  deliveryStatus : string; v_expiredAt : option Z; v_revokedAt : option Z; v_supersededAt : option Z;
  v_archivedAt : option Z; v_declinedAt : option Z; v_failedAt : option Z }.
(** The statuses a delivery can be effective in. *)
Definition active_delivery_statuses : list string :=
  map js_name [DeliveryPrepared; DeliveryAvailable; DeliveryAcknowledged].
(* src: packages/core/src/child-safety-delivery.ts:117-124 isSafetyDeliveryRowEffective *)
Definition isSafetyDeliveryRowEffective (d : SafetyDeliveryRowState) (now : Z) : bool :=
  if negb (isSafetyDeliveryStatus (deliveryStatus d)) then false
  else if negb (includes active_delivery_statuses (deliveryStatus d)) then false
  else if is_some (v_revokedAt d) || is_some (v_supersededAt d) || is_some (v_archivedAt d) ||
          is_some (v_declinedAt d) || is_some (v_failedAt d) then false
  else if has_ended (v_expiredAt d) now then false
  else true.

(** * References and page sizes *)

(* src: packages/core/src/child-safety-safety-signal.ts:83-86 SAFETY_SIGNAL_SOURCE_REFERENCE_MAX *)
Definition SAFETY_SIGNAL_SOURCE_REFERENCE_MAX : Z := 64.
(* src: packages/core/src/child-safety-safety-signal.ts:92-95 isValidSourceReference *)
Definition isValidSourceReference (x : option string) : bool :=
  match x with
  | None => true
  | Some s => (str_len s >=? 1) && (str_len s <=? SAFETY_SIGNAL_SOURCE_REFERENCE_MAX) && str_forallb is_token_char s
  end.

(** [Math.floor], [Math.min] and the guard the three list bounds share. *)
Definition clamp_limit (default max : Z) (n : option js_number) : Z :=
  match n with
  | Some (NFin q) => if Qle_bool q 0 then default else Z.min (Qfloor q) max
  | _ => default
  end.
(* src: packages/core/src/child-safety-recipient-authorization.ts:170-175 clampRecipientAuthorizationLimit *)
Definition clampRecipientAuthorizationLimit : option js_number -> Z := clamp_limit 50 200.
(* src: packages/core/src/child-safety-delivery.ts:135-140 clampSafetyDeliveryLimit *)
Definition clampSafetyDeliveryLimit : option js_number -> Z := clamp_limit 50 200.
(* src: packages/core/src/child-safety-safety-signal.ts:121-127 clampSafetySignalLimit *)
Definition clampSafetySignalLimit : option js_number -> Z := clamp_limit 50 200.

(** * Properties *)

(** A value the contract requires and accepts in [confidence]: in the unit
    interval, or NaN. *)
Definition unit_confidence (v : raw_value) : Prop :=
  v = VNumber NNaN \/ exists q, v = VNumber (NFin q) /\ (0 <= q)%Q /\ (q <= 1)%Q.

Lemma bad_confidence_false v : bad_confidence v = false <-> unit_confidence v.
Proof.
  unfold unit_confidence. split.
  - destruct v as [| | |[| | |q]| | |]; try done; simpl; [by left|].
    intros [H0 H1]%orb_false_iff. right. exists q. split; [done|].
    apply negb_false_iff, Qle_bool_iff in H0, H1. done.
  - intros [->|(q & -> & H0 & H1)]; [done|]. simpl. apply Qle_bool_iff in H0, H1. by rewrite H0, H1.
Qed.

Lemma includes_value_iff {A} `{JsEnum A} v :
  includes_value (map js_name (js_values (A := A))) v = true <-> exists a : A, v = VString (js_name a).
Proof.
  split.
  - destruct v as [| | | |s| |]; try done. simpl. rewrite includes_In, in_map_iff. intros (a & <- & _). by exists a.
  - intros [a ->]. simpl. apply includes_In, in_map, js_values_complete.
Qed.

Lemma bad_codes_false v :
  bad_codes v = false <-> exists codes : list SafetySignalCode, v = VArray (map (fun c => VString (js_name c)) codes).
Proof.
  split.
  - destruct v as [| | | | |l|]; try done. cbn [bad_codes]. induction l as [|x l IH]; [by exists []|].
    cbn [existsb]. intros [Hx Hl]%orb_false_iff. apply negb_false_iff, includes_value_iff in Hx as [c ->].
    destruct (IH Hl) as [codes [= ->]]. by exists (c :: codes).
  - intros [codes ->]. cbn [bad_codes]. induction codes as [|c codes IH]; [done|]. cbn [map existsb].
    rewrite IH, orb_false_r, negb_false_iff. apply includes_value_iff. by exists c.
Qed.

(** The check of one optional field reports nothing. *)
Lemma invalid_field_nil v bad (f : string) :
  (if negb (is_undefined v) && bad v then [(invalid_value, f)] else []) = [] <-> v = VUndefined \/ bad v = false.
Proof. destruct v; cbn [is_undefined negb andb]; try (destruct (bad _)); intuition congruence. Qed.

(** The contract the validator enforces on an object. *)
Definition envelope_wf (obj : list (string * raw_value)) : Prop :=
  (forall k, In k (map_keys obj) -> In k SAFETY_SIGNAL_ALLOWED_FIELDS) /\
  (forall k, In k SAFETY_SIGNAL_ALLOWED_FIELDS -> is_nullish (field obj k) = false) /\
  (exists r : RiskType, field obj "riskType" = VString (js_name r)) /\
  unit_confidence (field obj "confidence") /\
  (exists codes : list SafetySignalCode, field obj "signalCodes" = VArray (map (fun c => VString (js_name c)) codes)).

Lemma forbidden_not_allowed k : In k SAFETY_SIGNAL_FORBIDDEN_FIELDS -> includes SAFETY_SIGNAL_ALLOWED_FIELDS k = false.
Proof. revert k. apply List.Forall_forall. repeat constructor. Qed.

(** The key check of one key passes exactly on an allowed key. *)
Lemma key_check_iff (k : string) :
  (if includes SAFETY_SIGNAL_FORBIDDEN_FIELDS k then Some (forbidden_field, k)
   else if negb (includes SAFETY_SIGNAL_ALLOWED_FIELDS k) then Some (unknown_field, k) else None) = None <->
  In k SAFETY_SIGNAL_ALLOWED_FIELDS.
Proof.
  rewrite <- includes_In. destruct (includes SAFETY_SIGNAL_FORBIDDEN_FIELDS k) eqn:Hf.
  - apply includes_In, forbidden_not_allowed in Hf. rewrite Hf. done.
  - by destruct (includes SAFETY_SIGNAL_ALLOWED_FIELDS k).
Qed.

Lemma missing_check_iff obj (k : string) :
  (if is_nullish (field obj k) then Some (missing_required, k) else None) = None <-> is_nullish (field obj k) = false.
Proof. by destruct (is_nullish (field obj k)). Qed.

Lemma envelope_ok_iff obj : ok (validateSafetySignalEnvelope (VObject obj)) = true <-> envelope_wf obj.
Proof.
  cbn [validateSafetySignalEnvelope ok]. rewrite Nat.eqb_eq, length_zero_iff_nil, !app_nil, !omap_nil_iff, !invalid_field_nil.
  unfold bad_risk. rewrite negb_false_iff, includes_value_iff, bad_confidence_false, bad_codes_false.
  setoid_rewrite key_check_iff. setoid_rewrite missing_check_iff.
  assert (Hdef : (forall k, In k SAFETY_SIGNAL_ALLOWED_FIELDS -> is_nullish (field obj k) = false) ->
    field obj "riskType" <> VUndefined /\ field obj "confidence" <> VUndefined /\ field obj "signalCodes" <> VUndefined).
  { intros Hall. repeat split; intros Hu;
      match type of Hu with field _ ?k = _ => specialize (Hall k); rewrite Hu in Hall end;
      discriminate Hall; apply includes_In; reflexivity. }
  unfold envelope_wf. split; intuition.
Qed.

(** The envelope validator accepts exactly the objects that carry every field
    of the contract with a value, no other field, a known risk type, a confidence
    in the unit interval (or NaN) and a list of known signal codes; nothing with a
    forbidden field is accepted. *)
Theorem envelope_accepted_iff (obj : list (string * raw_value)) :
  (ok (validateSafetySignalEnvelope (VObject obj)) = true <-> envelope_wf obj) /\
  (forall k, In k SAFETY_SIGNAL_FORBIDDEN_FIELDS -> In k (map_keys obj) ->
     ok (validateSafetySignalEnvelope (VObject obj)) = false).
Proof.
  split; [apply envelope_ok_iff|]. intros k Hf Hk. apply not_true_iff_false. rewrite envelope_ok_iff. intros [Hkeys _].
  apply Hkeys, includes_In in Hk. by rewrite forbidden_not_allowed in Hk.
Qed.

Lemma field_set obj k v k' : field (map_set obj k v) k' = if k =s k' then v else field obj k'.
Proof. unfold field. rewrite map_get_set. by destruct (k =s k'). Qed.

Lemma envelope_wf_set obj k v :
  In k SAFETY_SIGNAL_ALLOWED_FIELDS -> k <> "riskType" -> k <> "confidence" -> k <> "signalCodes" ->
  is_nullish v = false -> envelope_wf obj -> envelope_wf (map_set obj k v).
Proof.
  intros Hk Hr Hc Hs Hv (Hkeys & Hreq & Hrest). unfold envelope_wf. rewrite !field_set.
  rewrite (proj2 (String.eqb_neq _ _) Hr), (proj2 (String.eqb_neq _ _) Hc), (proj2 (String.eqb_neq _ _) Hs).
  split; [|split; [|done]].
  - intros k'. rewrite map_keys_set. destruct (map_get obj k); [apply Hkeys|].
    rewrite in_app_iff. intros [?|[<-|[]]]; auto.
  - intros k' Hk'. rewrite field_set. destruct (k =s k'); auto.
Qed.

(** The severity and the urgency of a signal are never validated: replacing
    either by any value, be it no literal of its enumeration, keeps an accepted
    envelope accepted, although an invalid enumeration value is documented to be
    rejected. *)
Theorem envelope_severity_unchecked (obj : list (string * raw_value)) (v : raw_value) :
  ok (validateSafetySignalEnvelope (VObject obj)) = true -> is_nullish v = false ->
  ok (validateSafetySignalEnvelope (VObject (map_set obj "severity" v))) = true /\
  ok (validateSafetySignalEnvelope (VObject (map_set obj "urgency" v))) = true.
Proof.
  rewrite !envelope_ok_iff. intros Hobj Hv.
  split; apply envelope_wf_set; try done; apply includes_In; reflexivity.
Qed.

Definition sample_envelope : list (string * raw_value) :=
  map (fun k => (k, if k =s "riskType" then VString "GROOMING" else if k =s "confidence" then VNumber (NFin (1 # 2))
    else if k =s "signalCodes" then VArray [VString "AGE_PROBE"] else VString "x")) SAFETY_SIGNAL_ALLOWED_FIELDS.

Lemma envelope_severity_unchecked_witness :
  ok (validateSafetySignalEnvelope (VObject (map_set sample_envelope "severity" (VString "catastrophic")))) = true /\
  parse (A := SafetySeverity) "catastrophic" = None.
Proof.
  split; [|reflexivity].
  refine (proj1 (envelope_severity_unchecked sample_envelope (VString "catastrophic") _ eq_refl)). vm_compute. reflexivity.
Defined.

Lemma envelope_accepted_iff_witness : ok (validateSafetySignalEnvelope (VObject [("message", VString "hi")])) = false.
Proof. apply (proj2 (envelope_accepted_iff [("message", VString "hi")]) "message"); simpl; auto. Defined.


(** ** Effective states *)

(** A half-open validity window, either end of which may be absent. *)
Definition within (from until : option Z) (now : Z) : Prop :=
  (forall t, from = Some t -> t <= now) /\ (forall t, until = Some t -> now < t).

Lemma within_iff from until now : within from until now <-> starts_later from now = false /\ has_ended until now = false.
Proof.
  unfold within, starts_later, has_ended. split.
  - intros [Hf Hu]. split.
    + destruct from as [t|]; [|done]. specialize (Hf t eq_refl). lia.
    + destruct until as [t|]; [|done]. specialize (Hu t eq_refl). lia.
  - intros [Hf Hu]. split; intros t ->; lia.
Qed.

Lemma within_until until now : within None until now <-> has_ended until now = false.
Proof. rewrite within_iff. simpl. tauto. Qed.

(** A status test behind its membership test is the status test. *)
Lemma status_guard {A} `{JsEnum A} (a : A) (s : string) :
  includes (map js_name (js_values (A := A))) s && (s =s js_name a) = (s =s js_name a).
Proof.
  destruct (String.eqb_spec s (js_name a)) as [->|]; [|by rewrite andb_false_r].
  rewrite andb_true_r. apply includes_In, in_map, js_values_complete.
Qed.

Lemma if_false_andb (b c : bool) : (if negb b then false else c) = b && c.
Proof. by destruct b. Qed.
Lemma if_true_andb (b c : bool) : (if b then false else c) = negb b && c.
Proof. by destruct b. Qed.
Lemma is_some_false {A} (o : option A) : is_some o = false <-> o = None.
Proof. by destruct o. Qed.
Lemma is_none_false {A} (o : option A) : is_none o = false <-> o <> None.
Proof. by destruct o. Qed.

(** Turn the guards of an evaluator into the conjunction of its conditions. *)
Ltac guards_to_conditions :=
  rewrite ?if_false_andb, ?if_true_andb, ?andb_assoc, ?status_guard, ?andb_true_r;
  rewrite ?andb_true_iff, ?negb_true_iff, ?orb_false_iff, ?is_some_false, ?is_none_false, ?String.eqb_eq.

(** Effectiveness is exact and fails closed: an authority, a consent, an
    assessment, a decision and a delivery row are effective exactly in their one
    granted status (for a delivery, one of the three active ones), with every
    end mark absent, provably granted where required, and inside the half-open
    validity window, whatever raw status is stored. *)
Theorem effective_states_exact (now : Z) :
  (forall r, isGuardianAuthorityActive r now = true <->
     authorityStatus r = "verified" /\ a_revokedAt r = None /\ a_archivedAt r = None /\
     within (a_validFrom r) (a_validUntil r) now) /\
  (forall r, isConsentEffective r now = true <->
     consentStatus r = "active" /\ grantedAt r <> None /\ grantedByMembershipId r <> None /\
     c_revokedAt r = None /\ c_archivedAt r = None /\ within (c_validFrom r) (c_validUntil r) now) /\
  (forall r, isSafeRecipientAssessmentApproved r now = true <->
     assessmentStatus r = "approved" /\ eligibilityStatus r = "eligible" /\ assessedAt r <> None /\
     assessedByMembershipId r <> None /\ s_revokedAt r = None /\ s_archivedAt r = None /\
     within None (s_validUntil r) now) /\
  (forall d, isRecipientAuthorizationDecisionRowEffective d now = true <->
     decisionStatus d = "authorized" /\ d_revokedAt d = None /\ d_supersededAt d = None /\ d_archivedAt d = None /\
     within None (d_validUntil d) now) /\
  (forall d, isSafetyDeliveryRowEffective d now = true <->
     In (deliveryStatus d) active_delivery_statuses /\ v_revokedAt d = None /\ v_supersededAt d = None /\
     v_archivedAt d = None /\ v_declinedAt d = None /\ v_failedAt d = None /\ within None (v_expiredAt d) now).
Proof.
  split; [|split; [|split; [|split]]]; intros r.
  - rewrite within_iff. unfold isGuardianAuthorityActive, isGuardianAuthorityStatus. guards_to_conditions.
    change (js_name AuthorityVerified) with "verified". tauto.
  - rewrite within_iff. unfold isConsentEffective, ALL_CONSENT_STATUSES. guards_to_conditions.
    change (js_name ConsentActive) with "active". tauto.
  - rewrite within_until. unfold isSafeRecipientAssessmentApproved, isSafeRecipientAssessmentStatus. guards_to_conditions.
    change (js_name AssessmentApproved) with "approved". change (js_name EligEligible) with "eligible". tauto.
  - rewrite within_until. unfold isRecipientAuthorizationDecisionRowEffective, isRecipientAuthorizationDecisionStatus.
    guards_to_conditions. change (js_name DecisionAuthorized) with "authorized". tauto.
  - rewrite within_until. unfold isSafetyDeliveryRowEffective. guards_to_conditions. rewrite includes_In.
    assert (Hin : In (deliveryStatus r) active_delivery_statuses -> isSafetyDeliveryStatus (deliveryStatus r) = true).
    { intros [<-|[<-|[<-|[]]]]; reflexivity. }
    tauto.
Qed.

(** ** The chain *)

(** The links of the chain in the order they are examined, each with its state. *)
Definition chain_links (c : SafetyRecipientChain) : list (SafetyRecipientDenyReason * bool) :=
  [(deny_not_family_workspace, workspaceKind c =s "family"); (deny_relationship_inactive, relationshipActive c);
   (deny_membership_invalid, membershipActiveSameTenant c); (deny_authority_missing, authorityActive c);
   (deny_consent_missing, consentEffective c); (deny_assessment_not_approved, assessmentApproved c)].

Lemma map_eq_nil_iff {A B} (f : A -> B) l : map f l = [] <-> l = [].
Proof. by destruct l. Qed.

Lemma chain_reasons c :
  snd (evaluateCanReceiveSafetyInformation c) = map fst (List.filter (fun l => negb (snd l)) (chain_links c)).
Proof.
  unfold evaluateCanReceiveSafetyInformation, chain_links, relationshipTypeRequiresAuthority.
  destruct (workspaceKind c =s "family"), (relationshipActive c), (membershipActiveSameTenant c), (authorityActive c),
    (consentEffective c), (assessmentApproved c); reflexivity.
Qed.

(** Only a complete chain authorizes: the decision is positive exactly when all
    six links hold; otherwise the reasons are the failing links, in the order of the
    chain, and the code derived from the first of them names that link and no other. *)
Theorem recipient_chain_complete (c : SafetyRecipientChain) :
  (fst (evaluateCanReceiveSafetyInformation c) = true <-> forall l, In l (chain_links c) -> snd l = true) /\
  snd (evaluateCanReceiveSafetyInformation c) = map fst (List.filter (fun l => negb (snd l)) (chain_links c)) /\
  (forall r r', reasonCodeForDenyReason r = reasonCodeForDenyReason r' -> r = r').
Proof.
  split; [|split; [apply chain_reasons|intros [] []; done]].
  change (fst (evaluateCanReceiveSafetyInformation c)) with (length (snd (evaluateCanReceiveSafetyInformation c)) =? 0)%nat.
  rewrite Nat.eqb_eq, length_zero_iff_nil, chain_reasons, map_eq_nil_iff, filter_nil_iff.
  by setoid_rewrite negb_false_iff.
Qed.


(** ** Scopes *)

Lemma scope_cmp_total a b : scope_cmp a b <= 0 \/ scope_cmp b a <= 0.
Proof. destruct a, b; vm_compute; intuition congruence. Qed.
Lemma scope_cmp_trans a b c : scope_cmp a b <= 0 -> scope_cmp b c <= 0 -> scope_cmp a c <= 0.
Proof. destruct a, b, c; vm_compute; intuition congruence. Qed.
Lemma scope_cmp_antisym a b : scope_cmp a b <= 0 -> scope_cmp b a <= 0 -> a = b.
Proof. destruct a, b; vm_compute; intuition congruence. Qed.

(** All scopes in the order of their literals, and a set of scopes in that order. *)
Definition scopes_in_order : list SafetyDisclosureScope :=
  [RecommendedActionClass; RiskCategory; Severity; SignalExistence; TimingBucket].
Definition canonical (scopes : list SafetyDisclosureScope) : list SafetyDisclosureScope :=
  List.filter (fun s => bool_decide (s ∈ scopes)) scopes_in_order.

Lemma elem_of_canonical scopes s : s ∈ canonical scopes <-> s ∈ scopes.
Proof.
  unfold canonical. rewrite list_elem_of_In, filter_In, bool_decide_eq_true. split; [tauto|].
  intros Hs. split; [|done]. destruct s; simpl; tauto.
Qed.

Lemma NoDup_filter_bool {A} (q : A -> bool) (l : list A) : NoDup l -> NoDup (List.filter q l).
Proof. intros Hl. rewrite <- (map_id (List.filter q l)). apply NoDup_map_filter. by rewrite map_id. Qed.

Lemma StronglySorted_filter {A} (R : A -> A -> Prop) (q : A -> bool) (l : list A) :
  StronglySorted R l -> StronglySorted R (List.filter q l).
Proof.
  induction 1 as [|x l _ IH Hx]; simpl; [constructor|]. destruct (q x); [|done].
  constructor; [done|]. rewrite Forall_forall in Hx |- *. intros y Hy. apply Hx.
  apply list_elem_of_In in Hy. apply filter_In in Hy as [Hy _]. by apply list_elem_of_In.
Qed.

(** Sorting the deduplicated scopes yields the canonical order. *)
Lemma sort_dedup_canonical scopes : sortScopes (js_set scopes) = canonical scopes.
Proof.
  apply (StronglySorted_unique_strong (fun a b => scope_cmp a b <= 0)).
  - intros a b _ _. apply scope_cmp_antisym.
  - apply js_sort_sorted; [apply scope_cmp_total | apply scope_cmp_trans].
  - apply StronglySorted_filter. repeat constructor; vm_compute; congruence.
  - apply NoDup_Permutation.
    + unfold sortScopes. rewrite js_sort_perm. auto with tam.
    + apply NoDup_filter_bool. apply (bool_decide_unpack _). vm_compute. exact I.
    + intros s. unfold sortScopes. rewrite js_sort_perm, elem_of_js_set. by rewrite elem_of_canonical.
Qed.

Lemma canonical_ext l l' : (forall s, s ∈ l <-> s ∈ l') -> canonical l = canonical l'.
Proof.
  intros Hl. unfold canonical. apply filter_ext. intros s. apply bool_decide_ext, Hl.
Qed.

Lemma canonical_idem scopes : canonical (canonical scopes) = canonical scopes.
Proof. apply canonical_ext. intros s. apply elem_of_canonical. Qed.

(** The canonical lists are the 32 subsets in order. *)
Lemma canonical_parses scopes :
  parseDisclosureScopes (Some (String.concat "," (map js_name (canonical scopes)))) = (true, canonical scopes) /\
  str_len (String.concat "," (map js_name (canonical scopes))) <= 78.
Proof.
  unfold canonical, scopes_in_order. cbn [List.filter].
  destruct (bool_decide (RecommendedActionClass ∈ scopes)), (bool_decide (RiskCategory ∈ scopes)),
    (bool_decide (Severity ∈ scopes)), (bool_decide (SignalExistence ∈ scopes)), (bool_decide (TimingBucket ∈ scopes));
    split; vm_compute; congruence.
Qed.

(** Stored scopes round trip: what is serialized parses back to the same set of
    scopes, in one canonical order without duplicates; two lists serialize alike
    exactly when they contain the same scopes; and no serialization exceeds 78
    characters, so the length guard of the parser never rejects one. *)
Theorem disclosure_scopes_roundtrip (scopes scopes' : list SafetyDisclosureScope) :
  parseDisclosureScopes (Some (serializeDisclosureScopes scopes)) = (true, canonical scopes) /\
  (forall s, s ∈ canonical scopes <-> s ∈ scopes) /\
  (serializeDisclosureScopes scopes = serializeDisclosureScopes scopes' <-> forall s, s ∈ scopes <-> s ∈ scopes') /\
  str_len (serializeDisclosureScopes scopes) <= 78.
Proof.
  assert (Hser : forall l, serializeDisclosureScopes l = String.concat "," (map js_name (canonical l))).
  { intros l. unfold serializeDisclosureScopes. by rewrite sort_dedup_canonical. }
  rewrite !Hser. split; [apply canonical_parses|]. split; [apply elem_of_canonical|]. split; [|apply canonical_parses].
  split.
  - intros Heq s. rewrite <- (elem_of_canonical scopes), <- (elem_of_canonical scopes').
    pose proof (proj1 (canonical_parses scopes)) as H1. pose proof (proj1 (canonical_parses scopes')) as H2.
    rewrite Heq, H2 in H1. by injection H1 as ->.
  - intros Hl. by rewrite (canonical_ext _ _ Hl).
Qed.

Lemma map_js_name_inj {A} `{JsEnum A} (l l' : list A) : map js_name l = map js_name l' -> l = l'.
Proof.
  revert l'. induction l as [|a l IH]; intros [|b l']; try done. intros Hm.
  assert (Ha : js_name a = js_name b) by exact (f_equal (hd "") Hm).
  assert (Hl : map js_name l = map js_name l') by exact (f_equal (@tl string) Hm).
  f_equal; [by apply js_name_inj|by apply IH].
Qed.

Lemma parse_parts_name scopes : parse_parts (map js_name scopes) = Some scopes.
Proof. induction scopes as [|s scopes IH]; [done|]. cbn [map parse_parts]. by rewrite parse_name, IH. Qed.

Lemma parse_parts_names parts scopes : parse_parts parts = Some scopes <-> parts = map js_name scopes.
Proof.
  split; [|intros ->; apply parse_parts_name].
  revert scopes. induction parts as [|q parts IH]; intros scopes; cbn [parse_parts]; [by intros [= <-]|].
  destruct (parse q) as [s|] eqn:Hq; [|done]. apply parse_Some in Hq as <-.
  destruct (parse_parts parts) as [l|]; [|done]. intros [= <-]. by rewrite (IH l eq_refl).
Qed.

(** Parsing is strict: a stored string is accepted exactly when it is absent,
    empty, or at most 200 characters long with every comma-separated token the
    literal of a scope; the scopes returned are then those tokens in canonical
    order, and a rejected string yields no scope at all. *)
Theorem parse_scopes_strict (raw : string) :
  let r := parseDisclosureScopes (Some raw) in
  (fst r = true <-> raw = "" \/ (str_len raw <= 200 /\ exists l : list SafetyDisclosureScope, split_comma raw = map js_name l)) /\
  (forall l : list SafetyDisclosureScope, raw <> "" -> str_len raw <= 200 -> split_comma raw = map js_name l -> r = (true, canonical l)) /\
  (fst r = false -> snd r = []).
Proof.
  cbv zeta. destruct raw as [|c raw]; [simpl; naive_solver|]. remember (String c raw) as s eqn:Hs.
  assert (Hp : parseDisclosureScopes (Some s) =
    if str_len s >? 200 then (false, []) else
      match parse_parts (split_comma s) with None => (false, []) | Some l => (true, sortScopes (js_set l)) end).
  { rewrite Hs. reflexivity. }
  rewrite Hp. destruct (Z.gtb_spec (str_len s) 200) as [Hlong|Hshort].
  - split; [|split; [lia|done]]. split; [done|]. intros [?|[? _]]; [congruence|lia].
  - destruct (parse_parts (split_comma s)) as [l|] eqn:Hl.
    + apply parse_parts_names in Hl. split; [|split; [|done]].
      * split; [|done]. intros _. right. split; [lia|by exists l].
      * intros l' _ _ Hl'. rewrite Hl in Hl'. apply map_js_name_inj in Hl' as ->.
        by rewrite sort_dedup_canonical.
    + split; [|split; [|done]].
      * split; [done|]. intros [?|[_ [l' Hl']]]; [congruence|]. apply parse_parts_names in Hl'. congruence.
      * intros l' _ _ Hl'. apply parse_parts_names in Hl'. congruence.
Qed.

Lemma parse_scopes_strict_witness :
  parseDisclosureScopes (Some "severity,risk_category,severity") = (true, [RiskCategory; Severity]).
Proof.
  refine (proj1 (proj2 (parse_scopes_strict "severity,risk_category,severity")) [Severity; RiskCategory; Severity] _ _ _);
    vm_compute; congruence.
Defined.


(** ** The policy *)

(** The disclosure policy is bounded and monotone: known severities disclose
    more as they grow, always the signal's existence, in canonical order; identity
    manipulation never discloses more than existence and category; an unknown
    severity discloses the existence alone, unless it is the name of a property
    every object inherits, on which the lookup finds a value that cannot be spread
    and the call throws instead of failing closed. *)
Theorem disclosure_policy_bounded (severity signalType : string) :
  (forall s : SafetySeverity, severity = js_name s ->
     exists l, maxDisclosureScopesForSignal severity signalType = Ret l /\ SignalExistence ∈ l /\ l = canonical l /\
       (signalType = "IDENTITY_MANIPULATION" -> forall x, x ∈ l -> x = SignalExistence \/ x = RiskCategory) /\
       (signalType <> "IDENTITY_MANIPULATION" -> forall x, x ∈ l <-> x ∈ DISCLOSURE_POLICY_BY_SEVERITY s)) /\
  (parse (A := SafetySeverity) severity = None -> ~ In severity object_prototype_keys ->
     maxDisclosureScopesForSignal severity signalType = Ret [SignalExistence]) /\
  (maxDisclosureScopesForSignal severity signalType = Throw TypeError <-> In severity object_prototype_keys) /\
  (forall x, x ∈ DISCLOSURE_POLICY_BY_SEVERITY SevLow -> x ∈ DISCLOSURE_POLICY_BY_SEVERITY SevMedium) /\
  (forall x, x ∈ DISCLOSURE_POLICY_BY_SEVERITY SevMedium -> x ∈ DISCLOSURE_POLICY_BY_SEVERITY SevHigh) /\
  (forall x, x ∈ DISCLOSURE_POLICY_BY_SEVERITY SevHigh -> x ∈ DISCLOSURE_POLICY_BY_SEVERITY SevCritical).
Proof.
  unfold maxDisclosureScopesForSignal. change (js_name RiskIdentityManipulation) with "IDENTITY_MANIPULATION".
  rewrite <- includes_In.
  split; [|split; [|split; [|set_solver]]].
  - intros s ->. rewrite parse_name. rewrite sort_dedup_canonical. eexists. split; [done|].
    rewrite canonical_idem. setoid_rewrite elem_of_canonical.
    destruct (String.eqb_spec signalType "IDENTITY_MANIPULATION") as [He|Hne].
    + split; [by destruct s; set_solver|]. split; [done|]. split; [intros _ x|by intros].
      rewrite list_elem_of_In, filter_In, orb_true_iff, !bool_decide_eq_true. tauto.
    + split; [by destruct s; set_solver|]. by split; [|split].
  - intros -> Hk%not_true_iff_false. rewrite Hk. by destruct (signalType =s _).
  - destruct (parse severity) as [s|] eqn:Hp.
    + split; [done|]. apply parse_Some in Hp as <-. by destruct s.
    + by destruct (includes object_prototype_keys severity).
Qed.

Lemma disclosure_policy_bounded_witness :
  maxDisclosureScopesForSignal "unheard" "GROOMING" = Ret [SignalExistence] /\
  maxDisclosureScopesForSignal "constructor" "GROOMING" = Throw TypeError.
Proof.
  split.
  - refine (proj1 (proj2 (disclosure_policy_bounded "unheard" "GROOMING")) _ _); [reflexivity|].
    rewrite <- includes_In. discriminate.
  - apply (proj1 (proj2 (proj2 (disclosure_policy_bounded "constructor" "GROOMING")))). simpl. tauto.
Defined.

(** ** Delivery runs *)

(** The statuses visited from [from], each by an allowed transition. *)
Fixpoint delivery_run (from : string) (l : list string) : bool :=
  match l with
  | [] => true
  | s :: r => isValidSafetyDeliveryTransition from s && delivery_run s r
  end.

(** How far a status is from the end of every run. *)
Definition delivery_rank (s : string) : nat :=
  match parse (A := SafetyDeliveryStatus) s with
  | Some DeliveryPrepared => 3
  | Some DeliveryAvailable | Some DeliveryFailed => 2
  | Some DeliveryArchived => 0
  | _ => 1
  end.

Lemma transition_lowers_rank from to :
  isValidSafetyDeliveryTransition from to = true -> (delivery_rank to < delivery_rank from)%nat.
Proof.
  unfold isValidSafetyDeliveryTransition, isSafetyDeliveryStatus, delivery_rank.
  destruct (parse from) as [f|]; [|done].
  destruct (includes _ to) eqn:Hto; [|done]. apply includes_In, in_map_iff in Hto as (t & <- & _).
  rewrite parse_name. destruct f, t; vm_compute; intros; first [lia|discriminate].
Qed.

Lemma run_ranks from l :
  delivery_run from l = true ->
  (length l <= delivery_rank from)%nat /\ forall s, In s l -> (delivery_rank s < delivery_rank from)%nat.
Proof.
  revert from. induction l as [|s l IH]; intros from; cbn [delivery_run length In]; [split; [lia|tauto]|].
  intros [Hs Hl]%andb_true_iff. apply transition_lowers_rank in Hs. apply IH in Hl as [Hlen Hl].
  split; [lia|]. intros x [<-|Hx]; [done|]. specialize (Hl x Hx). lia.
Qed.

(** Once outside the active statuses, a delivery never re-enters them. *)
Lemma inactive_stays_inactive from l :
  ~ In from active_delivery_statuses -> delivery_run from l = true -> forall s, In s l -> ~ In s active_delivery_statuses.
Proof.
  revert from. induction l as [|t l IH]; intros from Hf; [done|]. cbn [delivery_run In].
  intros [Ht Hl]%andb_true_iff. assert (Hn : ~ In t active_delivery_statuses).
  { unfold isValidSafetyDeliveryTransition in Ht. destruct (parse from) as [f|] eqn:Hp; [|done].
    apply parse_Some in Hp as <-. destruct (isSafetyDeliveryStatus t); [|done].
    apply includes_In, in_map_iff in Ht as (t' & <- & Ht). rewrite <- !includes_In in *.
    destruct f; vm_compute in Hf, Ht; (destruct t'; vm_compute; intuition congruence). }
  intros s [<-|Hs]; [done|]. by apply (IH t Hn Hl).
Qed.

(** Deliveries only move forward: a run of allowed transitions never visits a
    status twice and has at most three steps; once a delivery has left the active
    statuses it never becomes active, hence effective, again; and a raw status
    that is no literal of the enumeration admits no transition in either direction. *)
Theorem delivery_runs_bounded (from : string) (l : list string) :
  delivery_run from l = true ->
  NoDup (from :: l) /\ (length l <= 3)%nat /\
  (~ In from active_delivery_statuses -> forall s now d, In s l -> deliveryStatus d = s -> isSafetyDeliveryRowEffective d now = false) /\
  (l <> [] -> forall s, In s (from :: l) -> isSafetyDeliveryStatus s = true).
Proof.
  intros Hrun. split; [|split; [|split]].
  - revert from Hrun. induction l as [|s l IH]; intros from Hrun; [apply NoDup_singleton|].
    pose proof (run_ranks _ _ Hrun) as [_ Hr]. apply andb_true_iff in Hrun as [_ Hrun].
    constructor; [|by apply IH]. intros Hin%list_elem_of_In%Hr. lia.
  - apply run_ranks in Hrun as [Hlen _]. unfold delivery_rank in Hlen.
    destruct (parse from) as [[]|]; lia.
  - intros Hf s now d Hs <-. pose proof (inactive_stays_inactive _ _ Hf Hrun _ Hs) as Hn.
    unfold isSafetyDeliveryRowEffective. rewrite <- includes_In in Hn. apply not_true_iff_false in Hn. rewrite Hn.
    by destruct (isSafetyDeliveryStatus _).
  - revert from Hrun. induction l as [|s l IH]; intros from Hrun Hne; [done|]. clear Hne.
    apply andb_true_iff in Hrun as [Hs Hrun]. unfold isValidSafetyDeliveryTransition in Hs.
    destruct (parse from) as [f|] eqn:Hp; [|done]. apply parse_Some in Hp as <-.
    destruct (isSafetyDeliveryStatus s) eqn:Hst; [|done].
    intros x [<-|[<-|Hx]]; [by destruct f|done|].
    destruct l as [|y l]; [done|]. apply (IH s Hrun); [done|]. by right.
Qed.

Lemma delivery_runs_bounded_witness : (length ["available"; "acknowledged"; "archived"] <= 3)%nat.
Proof. exact (proj1 (proj2 (delivery_runs_bounded "prepared" ["available"; "acknowledged"; "archived"] eq_refl))). Defined.

(** ** Page sizes *)

(** Page sizes: whatever is requested, the page size is between 0 and 200; it
    is the floor of a finite positive request up to 200, the default 50 otherwise;
    but it is 0, below the documented minimum of 1, exactly for requests strictly
    between 0 and 1. *)
Theorem page_size_fraction_is_zero (n : option js_number) :
  0 <= clampSafetySignalLimit n <= 200 /\
  (clampSafetySignalLimit n = 0 <-> exists q, n = Some (NFin q) /\ (0 < q)%Q /\ (q < 1)%Q) /\
  (forall z, 1 <= z -> clampSafetySignalLimit (Some (NFin (inject_Z z))) = Z.min z 200) /\
  clampSafetyDeliveryLimit n = clampSafetySignalLimit n /\ clampRecipientAuthorizationLimit n = clampSafetySignalLimit n.
Proof.
  unfold clampSafetySignalLimit, clampSafetyDeliveryLimit, clampRecipientAuthorizationLimit.
  assert (Hpos : forall q, Qle_bool q 0 = false <-> (0 < q)%Q).
  { intros q. rewrite <- not_true_iff_false, Qle_bool_iff. split; [apply Qnot_le_lt|apply Qlt_not_le]. }
  assert (Hfl : forall q, (0 < q)%Q -> 0 <= Qfloor q).
  { intros q Hq. change 0 with (Qfloor 0). apply Qfloor_resp_le. by apply Qlt_le_weak. }
  split; [|split; [|split; [|done]]].
  - destruct n as [[| | |q]|]; cbn [clamp_limit]; try lia. destruct (Qle_bool q 0) eqn:Hq; [lia|].
    apply Hpos, Hfl in Hq. lia.
  - split.
    + destruct n as [[| | |q]|]; cbn [clamp_limit]; try lia. destruct (Qle_bool q 0) eqn:Hq; [lia|].
      intros Hz. exists q. apply Hpos in Hq. split; [done|]. split; [done|].
      assert (Hf : Qfloor q = 0) by (specialize (Hfl q Hq); lia).
      pose proof (Qlt_floor q) as Hlt. by rewrite Hf in Hlt.
    + intros (q & -> & H0 & H1). cbn [clamp_limit]. rewrite (proj2 (Hpos q) H0).
      assert (Qfloor q < 1); [|specialize (Hfl q H0); lia].
      apply Z.nle_gt. intros Hge. pose proof (Qfloor_le q) as Hle.
      apply (Qlt_not_le _ _ H1). eapply Qle_trans; [|exact Hle]. by rewrite (Zle_Qle 1) in Hge.
  - intros z Hz. cbn [clamp_limit]. rewrite (proj2 (Hpos (inject_Z z))), Qfloor_Z; [done|].
    change 0%Q with (inject_Z 0). rewrite <- Zlt_Qlt. lia.
Qed.

Lemma page_size_fraction_is_zero_witness : clampSafetySignalLimit (Some (NFin (1 # 2))) = 0.
Proof.
  apply (proj1 (proj2 (page_size_fraction_is_zero (Some (NFin (1 # 2)))))).
  exists (1 # 2). split; [reflexivity|]. split; reflexivity.
Defined.

End Disclosure.
