(* ===== verification/Notifications.v ===== *)
(** Family notifications: the catalogue of types ([packages/core/src/family-notifications.ts]),
    the rows and the services of the recipient over them
    ([packages/db/src/family-notification-repo.ts]).

    Who may be notified is decided in [NotifyKernel]; here recipients are given. *)
From S2P Require Import Prelude Keyset Outbox Workspace.
Open Scope string_scope.
Open Scope list_scope.
Open Scope Z_scope.
Open Scope tam_scope.

Module Notifications.
Import Outbox Workspace.

(** * The catalogue *)

(** The union of the thirteen literals, the one the outbox has. *)
(* src: packages/core/src/family-notifications.ts:14-20 FamilyNotificationType *)
Definition FamilyNotificationType := EnqueueableOutboxType.
(* src: packages/core/src/family-notifications.ts:32-32 FamilyNotificationSeverity *)
Inductive FamilyNotificationSeverity := info | attention | urgent.
#[export] Instance FamilyNotificationSeverity_dec : EqDecision FamilyNotificationSeverity.
Proof. solve_decision. Defined.
#[export] Program Instance FamilyNotificationSeverity_enum : JsEnum FamilyNotificationSeverity := {|
  js_name s := match s with info => "info" | attention => "attention" | urgent => "urgent" end;
  js_values := [info; attention; urgent] |}.
Solve All Obligations with solve_js_enum.
(* src: packages/core/src/family-notifications.ts:35-37 FamilyNotificationEntityType *)
Inductive FamilyNotificationEntityType :=
| ent_signal | ent_incident | ent_delivery | ent_invitation | ent_authority | ent_consent | ent_recipient_authorization | ent_protection_plan.
#[export] Instance FamilyNotificationEntityType_dec : EqDecision FamilyNotificationEntityType.
Proof. solve_decision. Defined.
#[export] Program Instance FamilyNotificationEntityType_enum : JsEnum FamilyNotificationEntityType := {|
  js_name e := match e with
    | ent_signal => "signal" | ent_incident => "incident" | ent_delivery => "delivery" | ent_invitation => "invitation"
    | ent_authority => "authority" | ent_consent => "consent" | ent_recipient_authorization => "recipient_authorization"
    | ent_protection_plan => "protection_plan" end;
  js_values := [ent_signal; ent_incident; ent_delivery; ent_invitation; ent_authority; ent_consent; ent_recipient_authorization;
    ent_protection_plan] |}.
Solve All Obligations with solve_js_enum.
(* src: packages/core/src/family-notifications.ts:44-50 FamilyRecipientRule *)
Inductive FamilyRecipientRule :=
| cs_authorized_recipient | delivery_recipient | family_manager | inviter_plus_admins | affected_guardian_plus_managers | protection_plan_viewer.

(* src: packages/core/src/family-notifications.ts:52-63 FamilyNotificationSpec *)
Record FamilyNotificationSpec := {
  sp_type : FamilyNotificationType; sp_severity : FamilyNotificationSeverity; titleKey : string; messageKey : string;
  sp_entityType : FamilyNotificationEntityType; ctaRoute : string; recipientRule : FamilyRecipientRule; dismissible : bool }.
(* src: packages/core/src/family-notifications.ts:65-65 K *)
Definition K (t : FamilyNotificationType) (part : string) : string := "family_notif." +:+ js_name t +:+ "." +:+ part.
(* src: packages/core/src/family-notifications.ts:67-81 FAMILY_NOTIFICATION_CATALOGUE *)
Definition FAMILY_NOTIFICATION_CATALOGUE (t : FamilyNotificationType) : FamilyNotificationSpec :=
  let row sev ent route rule dis :=
    {| sp_type := t; sp_severity := sev; sp_entityType := ent; ctaRoute := route; recipientRule := rule; dismissible := dis;
       titleKey := K t "title"; messageKey := K t "body" |} in
  match t with
  | family_signal_available => row attention ent_signal "/family/signals" cs_authorized_recipient true
  | family_urgent_signal => row urgent ent_signal "/family/signals" cs_authorized_recipient false
  | family_incident_created => row urgent ent_incident "/family/signals" cs_authorized_recipient false
  | family_incident_escalated => row urgent ent_incident "/family/signals" cs_authorized_recipient false
  | family_delivery_available => row attention ent_delivery "/family/deliveries" delivery_recipient false
  | family_delivery_acknowledged => row info ent_delivery "/family/deliveries" family_manager true
  | family_delivery_declined => row attention ent_delivery "/family/deliveries" family_manager true
  | family_guardian_invitation_accepted => row info ent_invitation "/family/invitations" inviter_plus_admins true
  | family_guardian_invitation_expiring => row attention ent_invitation "/family/invitations" inviter_plus_admins true
  | family_authority_changed => row attention ent_authority "/family/authorizations" affected_guardian_plus_managers true
  | family_consent_expiring => row attention ent_consent "/family/authorizations" family_manager true
  | family_recipient_authorization_changed => row attention ent_recipient_authorization "/family/authorizations" affected_guardian_plus_managers true
  | family_protection_plan_updated => row attention ent_protection_plan "/family/signals" protection_plan_viewer true
  end.
(* src: packages/core/src/family-notifications.ts:22-29 FAMILY_NOTIFICATION_TYPES *)
Definition FAMILY_NOTIFICATION_TYPES : list FamilyNotificationType :=
  [family_signal_available; family_urgent_signal; family_incident_created; family_incident_escalated; family_delivery_available;
   family_delivery_acknowledged; family_delivery_declined; family_guardian_invitation_accepted; family_guardian_invitation_expiring;
   family_authority_changed; family_consent_expiring; family_recipient_authorization_changed; family_protection_plan_updated].

(** [v in FAMILY_NOTIFICATION_CATALOGUE]: inherited properties pass too. *)
(* src: packages/core/src/family-notifications.ts:84-86 isFamilyNotificationType *)
Definition isFamilyNotificationType (v : string) : bool :=
  match lookup_mapping v with Absent => false | _ => true end.
(** [Inherited]: the value found is not an entry of the catalogue and has none of its fields. *)
(* src: packages/core/src/family-notifications.ts:89-92 familyNotificationSpec *)
Definition familyNotificationSpec (type : string) : outcome (option FamilyNotificationSpec) string :=
  match lookup_mapping type with
  | Entry t => Ret (Some (FAMILY_NOTIFICATION_CATALOGUE t))
  | Inherited => Ret None
  | Absent => Throw ("unknown_family_notification_type:" +:+ String.substring 0 40 type)
  end.
(* src: packages/core/src/family-notifications.ts:94-96 familyNotificationSeverity *)
Definition familyNotificationSeverity (t : FamilyNotificationType) : FamilyNotificationSeverity := sp_severity (FAMILY_NOTIFICATION_CATALOGUE t).
(* src: packages/core/src/family-notifications.ts:99-101 familyToDbSeverity *)
Definition familyToDbSeverity (sev : FamilyNotificationSeverity) : string :=
  if sev =e urgent then "critical" else if sev =e attention then "warning" else "info".
(* src: packages/core/src/family-notifications.ts:104-106 familyNotificationCta *)
Definition familyNotificationCta (t : FamilyNotificationType) : string := ctaRoute (FAMILY_NOTIFICATION_CATALOGUE t).
(* src: packages/core/src/family-notifications.ts:108-110 familyNotificationDismissible *)
Definition familyNotificationDismissible (t : FamilyNotificationType) : bool := dismissible (FAMILY_NOTIFICATION_CATALOGUE t).
(* src: packages/core/src/family-notifications.ts:112-114 familyRecipientRule *)
Definition familyRecipientRule (t : FamilyNotificationType) : FamilyRecipientRule := recipientRule (FAMILY_NOTIFICATION_CATALOGUE t).

(* src: packages/core/src/family-notifications.ts:122-130 familyNotificationDedupeKey *)
Definition familyNotificationDedupeKey (type user entityType entityId : string) (version : option string) : string :=
  String.concat ":" [type; user; entityType; entityId; version ?? ""].

(** ** Expiry windows *)

(* src: packages/core/src/family-notifications.ts:134-134 FAMILY_EXPIRY_WINDOWS_DAYS *)
Definition FAMILY_EXPIRY_WINDOWS_DAYS : list Z := [7; 1].
(** [Math.min(...windows)] of a list that is not empty. *)
Definition min_list (l : list Z) : option Z := match l with [] => None | x :: r => Some (fold_left Z.min r x) end.
(* src: packages/core/src/family-notifications.ts:141-145 familyExpiryWindow *)
Definition familyExpiryWindow (daysRemaining : Z) (windows : list Z) : option Z :=
  if daysRemaining <=? 0 then None else min_list (List.filter (fun w => daysRemaining <=? w) windows).
(** [Math.ceil(ms / 86400000)]: the division rounds up. *)
(* src: packages/core/src/family-notifications.ts:148-152 familyDaysUntil *)
Definition familyDaysUntil (expiresAt : option Z) (now : Z) : option Z :=
  match expiresAt with
  | None => None
  | Some e => let ms := e - now in Some (if ms <=? 0 then 0 else (ms + 86399999) / 86400000)
  end.

(** ** Metadata *)

Definition id_char (c : ascii) : bool := is_alnum c || Ascii.eqb c "_" || Ascii.eqb c "-".
(* src: packages/core/src/family-notifications.ts:171-171 ID_RE *)
Definition ID_RE (s : string) : bool := between 1 64 (str_len s) && str_forallb id_char s.
(* src: packages/core/src/family-notifications.ts:172-172 REASON_RE *)
Definition REASON_RE (s : string) : bool :=
  between 1 40 (str_len s) && str_forallb (fun c => is_lower c || is_digit c || Ascii.eqb c "_") s.

(** [Date.prototype.toISOString]: the proleptic Gregorian date of a count of days. *)
Definition civil (days : Z) : Z * Z * Z :=
  let z := days + 719468 in
  let era := z / 146097 in
  let doe := z - era * 146097 in
  let yoe := (doe - doe / 1460 + doe / 36524 - doe / 146096) / 365 in
  let doy := doe - (365 * yoe + yoe / 4 - yoe / 100) in
  let mp := (5 * doy + 2) / 153 in
  let m := if mp <? 10 then mp + 3 else mp - 9 in
  (yoe + era * 400 + (if m <=? 2 then 1 else 0), m, doy - (153 * mp + 2) / 5 + 1).
Fixpoint pad_zeros (n : nat) (s : string) : string :=
  match n with O => s | S n' => if Nat.leb n (String.length s) then s else String "0" (pad_zeros n' s) end.
Definition padded (width : nat) (n : Z) : string := pad_zeros (width - String.length (string_of_int n)) "" +:+ string_of_int n.
Definition toISOString (ms : Z) : string :=
  let '(y, m, d) := civil (ms / 86400000) in
  let t := ms mod 86400000 in
  let year := if (0 <=? y) && (y <=? 9999) then padded 4 y else (if y <? 0 then "-" else "+") +:+ padded 6 (Z.abs y) in
  year +:+ "-" +:+ padded 2 m +:+ "-" +:+ padded 2 d +:+ "T" +:+ padded 2 (t / 3600000) +:+ ":" +:+ padded 2 (t / 60000 mod 60) +:+ ":" +:+
    padded 2 (t / 1000 mod 60) +:+ "." +:+ padded 3 (t mod 1000) +:+ "Z".

(** The metadata object: its entries in order, all strings. *)
(* src: packages/core/src/family-notifications.ts:160-169 FamilyNotificationMetadata *)
Definition FamilyNotificationMetadata := jsmap string.
(* src: packages/core/src/family-notifications.ts:179-201 buildFamilyNotificationMetadata *)
Definition buildFamilyNotificationMetadata (type entityId : string) (profileId : option string) (createdAt : option Z) (safeReasonCode : option string)
    : outcome FamilyNotificationMetadata string :=
  match familyNotificationSpec type with
  | Throw e => Throw e
  | Ret spec =>
      if negb (ID_RE entityId) then Throw "family_notif_metadata:invalid_entity_id"
      else if match profileId with Some p => negb (ID_RE p) | None => false end then Throw "family_notif_metadata:invalid_profile_id"
      else if match safeReasonCode with Some r => negb (REASON_RE r) | None => false end then Throw "family_notif_metadata:invalid_reason_code"
      else
        let field k (f : FamilyNotificationSpec -> string) := match spec with Some s => [(k, f s)] | None => [] end in
        Ret (field "notificationType" (fun s => js_name (sp_type s)) ++ field "severity" (fun s => js_name (sp_severity s)) ++
             field "entityType" (fun s => js_name (sp_entityType s)) ++ [("entityId", entityId)] ++ field "safeRoute" ctaRoute ++
             (match profileId with Some p => [("profileId", p)] | None => [] end) ++
             (match createdAt with Some d => [("createdAt", toISOString d)] | None => [] end) ++
             (match safeReasonCode with Some r => [("safeReasonCode", r)] | None => [] end))
  end.
(* src: packages/core/src/family-notifications.ts:204-206 FAMILY_NOTIFICATION_METADATA_KEYS *)
Definition FAMILY_NOTIFICATION_METADATA_KEYS : list string :=
  ["notificationType"; "severity"; "entityType"; "entityId"; "profileId"; "createdAt"; "safeReasonCode"; "safeRoute"].
(* src: packages/core/src/family-notifications.ts:210-213 formatUnreadBadge *)
Definition formatUnreadBadge (count : Z) : string :=
  if count <=? 0 then "" else if 99 <? count then "99+" else string_of_int count.

(** * Rows *)

Inductive scalar := Text (s : string) | NotText.
(** The JSON column: an object, or anything else. *)
Inductive metadata_json := Object (entries : jsmap scalar) | NotObject.
Record notification := {
  n_id : string; n_tenant : string; n_user : option string; n_type : string; n_severity : string; n_titleKey : string; n_messageKey : string;
  n_metadata : metadata_json; n_dedupeKey : string; n_createdAt : Z; n_readAt : option Z; n_dismissedAt : option Z }.
Definition notifications := list notification.

(* src: packages/db/src/family-notification-repo.ts:38-43 assertFamilyNotificationMetadata *)
Definition assertFamilyNotificationMetadata (meta : FamilyNotificationMetadata) : outcome () string :=
  match List.find (fun e => negb (includes FAMILY_NOTIFICATION_METADATA_KEYS (fst e))) meta with
  | Some (k, _) => Throw ("family_notif_metadata:key_not_allowed:" +:+ String.substring 0 40 k)
  | None => Ret tt
  end.

(* src: packages/db/src/family-notification-repo.ts:46-60 CreateFamilyNotificationInput *)
Record CreateFamilyNotificationInput := {
  ci_tenant : string; ci_type : string; ci_entity : string; ci_profile : option string; ci_version : string; ci_reason : option string;
  ci_occurredAt : option Z; ci_recipients : list string }.

(** [Array.prototype.sort] without a comparator, on strings. *)
Definition sort_strings : list string -> list string := js_sort (fun a b => if str_ltb b a then 1 else 0).
(** [createMany({ data, skipDuplicates: true })] under the unique (tenantId, dedupeKey). *)
Definition same_notification (a b : notification) : bool := (n_tenant a =s n_tenant b) && (n_dedupeKey a =s n_dedupeKey b).
Definition create_many (rows : list notification) (t : notifications) : notifications :=
  fold_left (fun t r => if existsb (same_notification r) t then t else t ++ [r]) rows t.

Section Create.
(** The ids and the time the database fills in. *)
Context (ids : string -> string) (now : Z).

(* src: packages/db/src/family-notification-repo.ts:78-102 createFamilyNotificationTx *)
Definition notification_row (ty : FamilyNotificationType) (i : CreateFamilyNotificationInput) (meta : FamilyNotificationMetadata) (user : string) : notification :=
  let spec := FAMILY_NOTIFICATION_CATALOGUE ty in
  let key := familyNotificationDedupeKey (ci_type i) user (js_name (sp_entityType spec)) (ci_entity i) (Some (ci_version i)) in
  {| n_id := ids key; n_tenant := ci_tenant i; n_user := Some user; n_type := ci_type i; n_severity := familyToDbSeverity (sp_severity spec);
     n_titleKey := titleKey spec; n_messageKey := messageKey spec; n_metadata := Object (map (fun e => (fst e, Text (snd e))) meta);
     n_dedupeKey := key; n_createdAt := now; n_readAt := None; n_dismissedAt := None |}.
(** Both counts of the result: created and recipients. A type that names an inherited
    property passes the guard; the column takes only the literals, so the insert throws. *)
(* src: packages/db/src/family-notification-repo.ts:76-106 createFamilyNotificationTx *)
Definition createFamilyNotificationTx (i : CreateFamilyNotificationInput) (t : notifications) : outcome (Z * Z * notifications) string :=
  if negb (isFamilyNotificationType (ci_type i)) then Throw ("family_notif:unknown_type:" +:+ String.substring 0 40 (ci_type i))
  else
    let uniq := js_set (ci_recipients i) in
    let recipients := sort_strings (List.filter nonempty uniq) in
    if negb (Z.of_nat (length recipients) =? Z.of_nat (length uniq)) then Throw "family_notif:null_or_blank_recipient"
    else if Z.of_nat (length recipients) =? 0 then Ret (0, 0, t)
    else
      match buildFamilyNotificationMetadata (ci_type i) (ci_entity i) (ci_profile i) (ci_occurredAt i) (ci_reason i) with
      | Throw e => Throw e
      | Ret meta =>
          match assertFamilyNotificationMetadata meta with
          | Throw e => Throw e
          | Ret _ =>
              match lookup_mapping (ci_type i) with
              | Entry ty =>
                  let t' := create_many (map (notification_row ty i meta) recipients) t in
                  Ret (Z.of_nat (length t') - Z.of_nat (length t), Z.of_nat (length recipients), t')
              | _ => Throw "Invalid value for argument type. Expected NotificationType."
              end
          end
      end.
End Create.

(** * The recipient's own notifications *)

Definition is_family (ty : string) : bool := includes (map js_name FAMILY_NOTIFICATION_TYPES) ty.
(* src: packages/db/src/family-notification-repo.ts:24-24 DISMISSIBLE_FAMILY_TYPES_PN *)
Definition DISMISSIBLE_FAMILY_TYPES_PN : list string := map js_name (List.filter familyNotificationDismissible FAMILY_NOTIFICATION_TYPES).
Definition own (actor : FamilyActorContext) (n : notification) : bool :=
  (n_tenant n =s tenantId actor) && status_is (n_user n) (userId actor) && is_family (n_type n).

(* src: packages/db/src/family-notification-repo.ts:115-128 FamilyNotificationView *)
Record FamilyNotificationView := {
  vw_id : string; vw_type : string; vw_severity : string; vw_titleKey : string; vw_messageKey : string; vw_createdAt : Z; vw_read : bool;
  vw_entityType : option string; vw_safeRoute : option string; vw_profileId : option string; vw_unavailable : bool }.
Definition text_of (k : string) (m : jsmap scalar) : option string := match map_get m k with Some (Text s) => Some s | _ => None end.
(** [/^\/family(\/[a-z]+)?$/] *)
Definition safe_route_ok (s : string) : bool :=
  (s =s "/family") || (startsWith "/family/" s && nonempty (str_drop 8 s) && str_forallb is_lower (str_drop 8 s)).
(* src: packages/db/src/family-notification-repo.ts:132-143 toView *)
Definition toView (n : notification) : FamilyNotificationView :=
  let view ent route prof un := {| vw_id := n_id n; vw_type := n_type n; vw_severity := n_severity n; vw_titleKey := n_titleKey n;
    vw_messageKey := n_messageKey n; vw_createdAt := n_createdAt n; vw_read := is_some (n_readAt n); vw_entityType := ent;
    vw_safeRoute := route; vw_profileId := prof; vw_unavailable := un |} in
  match n_metadata n with
  | NotObject => view None None None true
  | Object m =>
      let entityType := text_of "entityType" m in
      let safeRoute := match text_of "safeRoute" m with Some r => if safe_route_ok r then Some r else None | None => None end in
      view entityType safeRoute (text_of "profileId" m) (negb (isFamilyNotificationType (n_type n)) || is_none safeRoute || is_none entityType)
  end.

(** Newest first, ids breaking ties. *)
Abbreviation newer := (Keyset.newer n_createdAt n_id).
Abbreviation list_order := (Keyset.list_order n_createdAt n_id).
(* src: packages/db/src/family-notification-repo.ts:145-145 ListFamilyNotificationsOpts *)
Record ListFamilyNotificationsOpts := { lo_limit : option Z; lo_before : option Z; lo_beforeId : option string; lo_unreadOnly : bool }.
Definition keyset (o : ListFamilyNotificationsOpts) (n : notification) : bool :=
  match lo_before o with
  | None => true
  | Some b => match lo_beforeId o with
              | Some i => if nonempty i then (n_createdAt n <? b) || ((n_createdAt n =? b) && str_ltb (n_id n) i) else n_createdAt n <? b
              | None => n_createdAt n <? b end
  end.
Definition listed (actor : FamilyActorContext) (unreadOnly : bool) (n : notification) : bool :=
  own actor n && is_none (n_dismissedAt n) && (negb unreadOnly || is_none (n_readAt n)).
Definition page (actor : FamilyActorContext) (o : ListFamilyNotificationsOpts) (t : notifications) : notifications :=
  take (Z.to_nat (Z.min (Z.max (lo_limit o ?? 30) 1) 100))
    (js_sort list_order (List.filter (fun n => listed actor (lo_unreadOnly o) n && keyset o n) t)).
(* src: packages/db/src/family-notification-repo.ts:154-173 listFamilyNotifications *)
Definition listFamilyNotifications (actor : FamilyActorContext) (o : ListFamilyNotificationsOpts) (t : notifications) : list FamilyNotificationView :=
  map toView (page actor o t).

(* src: packages/db/src/family-notification-repo.ts:181-188 loadFamilyNotificationTypeForOpen *)
Definition loadFamilyNotificationTypeForOpen (actor : FamilyActorContext) (id : string) (t : notifications) : option string :=
  match List.find (fun n => (n_id n =s id) && own actor n && is_none (n_dismissedAt n)) t with
  | Some n => if isFamilyNotificationType (n_type n) then Some (n_type n) else None
  | None => None
  end.
(* src: packages/db/src/family-notification-repo.ts:191-195 familyUnreadNotificationCount *)
Definition familyUnreadNotificationCount (actor : FamilyActorContext) (t : notifications) : Z :=
  Prelude.count (fun n => own actor n && is_none (n_readAt n) && is_none (n_dismissedAt n)) t.

Definition with_marks (read dismissed : option Z) (n : notification) : notification := {|
  n_id := n_id n; n_tenant := n_tenant n; n_user := n_user n; n_type := n_type n; n_severity := n_severity n; n_titleKey := n_titleKey n;
  n_messageKey := n_messageKey n; n_metadata := n_metadata n; n_dedupeKey := n_dedupeKey n; n_createdAt := n_createdAt n;
  n_readAt := read; n_dismissedAt := dismissed |}.
Definition unread_own (actor : FamilyActorContext) (n : notification) : bool := own actor n && is_none (n_dismissedAt n) && is_none (n_readAt n).
Definition mark_where (p : notification -> bool) (now : Z) (t : notifications) : Z * notifications :=
  (Prelude.count p t, update_where p (fun n => with_marks (Some now) (n_dismissedAt n) n) t).
(* src: packages/db/src/family-notification-repo.ts:199-202 markFamilyNotificationRead *)
Definition markFamilyNotificationRead (actor : FamilyActorContext) (id : string) (now : Z) (t : notifications) : Z * notifications :=
  mark_where (fun n => (n_id n =s id) && unread_own actor n) now t.
(* src: packages/db/src/family-notification-repo.ts:205-208 markAllFamilyNotificationsRead *)
Definition markAllFamilyNotificationsRead (actor : FamilyActorContext) (now : Z) (t : notifications) : Z * notifications :=
  mark_where (unread_own actor) now t.
Definition dismissible_own (actor : FamilyActorContext) (id : string) (n : notification) : bool :=
  (n_id n =s id) && (n_tenant n =s tenantId actor) && status_is (n_user n) (userId actor) && includes DISMISSIBLE_FAMILY_TYPES_PN (n_type n).
(** [None]: not dismissible or not found; otherwise the rows changed. *)
(* src: packages/db/src/family-notification-repo.ts:217-224 dismissFamilyNotification *)
Definition dismissFamilyNotification (actor : FamilyActorContext) (id : string) (now : Z) (t : notifications) : option Z * notifications :=
  if 0 <? Prelude.count (fun n => dismissible_own actor id n && is_some (n_dismissedAt n)) t then (Some 0, t)
  else
    let p n := dismissible_own actor id n && is_none (n_dismissedAt n) in
    let changed := Prelude.count p t in
    let t' := update_where p (fun n => with_marks (n_readAt n) (Some now) n) t in
    (if 0 <? changed then Some changed else None, t').
(* src: packages/db/src/family-notification-repo.ts:227-229 isFamilyNotificationDbType *)
Definition isFamilyNotificationDbType (v : string) : bool := is_family v.

(** * Keys *)

Lemma type_colon_free (t : FamilyNotificationType) : char_free ":" (js_name t) = true.
Proof. by destruct t. Qed.
Lemma entity_colon_free (e : FamilyNotificationEntityType) : char_free ":" (js_name e) = true.
Proof. by destruct e. Qed.
Lemma str_forallb_impl (p q : ascii -> bool) s : (forall c, p c = true -> q c = true) -> str_forallb p s = true -> str_forallb q s = true.
Proof. intros H. induction s as [|c s IH]; [done|]. cbn. intros [Hc Hs]%andb_true_iff. by rewrite (H c Hc), IH. Qed.
Lemma id_colon_free s : ID_RE s = true -> char_free ":" s = true.
Proof.
  intros [_ H]%andb_true_iff. revert H. apply str_forallb_impl. intros c Hc. destruct (Ascii.eqb_spec c ":") as [->|]; [by vm_compute in Hc|done].
Qed.
Definition key_of (ty : FamilyNotificationType) (user entity version : string) : string :=
  familyNotificationDedupeKey (js_name ty) user (js_name (sp_entityType (FAMILY_NOTIFICATION_CATALOGUE ty))) entity (Some version).
(** Distinct notifications never share a dedupe key: for recipients whose ids hold no colon and id-shaped entities, the key determines the
    type, the recipient, the entity and the event version, colons in the version included. *)
Theorem notification_key_injective (ty ty' : FamilyNotificationType) (u u' e e' v v' : string) :
  char_free ":" u = true -> char_free ":" u' = true -> ID_RE e = true -> ID_RE e' = true -> key_of ty u e v = key_of ty' u' e' v' ->
  ty = ty' /\ u = u' /\ e = e' /\ v = v'.
Proof.
  intros Hu Hu' He%id_colon_free He'%id_colon_free H. unfold key_of, familyNotificationDedupeKey in H. cbn [String.concat] in H.
  apply split_first in H as [Hty H]; [|apply type_colon_free..]. apply split_first in H as [-> H]; [|done..].
  apply split_first in H as [_ H]; [|apply entity_colon_free..]. apply split_first in H as [-> H]; [|done..].
  split; [by apply js_name_inj|done].
Qed.

(** * Creation *)

Definition keys_unique (t : notifications) : Prop := NoDup (map (fun n => (n_tenant n, n_dedupeKey n)) t).

Lemma same_notification_iff a b : same_notification a b = true <-> (n_tenant a, n_dedupeKey a) = (n_tenant b, n_dedupeKey b).
Proof. unfold same_notification. guards_goal. split; [by intros [-> ->]|by intros [= -> ->]]. Qed.
Lemma has_key_iff r t : existsb (same_notification r) t = true <-> In (n_tenant r, n_dedupeKey r) (map (fun n => (n_tenant n, n_dedupeKey n)) t).
Proof.
  rewrite existsb_exists, in_map_iff. split; [intros (x & Hx & He%same_notification_iff)|intros (x & He & Hx)]; exists x; split; try done.
  by apply same_notification_iff.
Qed.
(** An insert appends the rows whose key is new, one per key. *)
Lemma create_many_spec rows t : exists added, create_many rows t = t ++ added /\ (forall r, In r added -> In r rows) /\
  (forall r, In r rows -> existsb (same_notification r) (t ++ added) = true) /\ (keys_unique t -> keys_unique (t ++ added)).
Proof.
  unfold create_many. revert t. induction rows as [|r rows IH]; intros t; [exists []; rewrite app_nil_r; split_and!; try done; by intros ? []|].
  cbn [fold_left]. destruct (existsb (same_notification r) t) eqn:Hr.
  - destruct (IH t) as (added & -> & Hin & Hall & Huniq). exists added. split_and!; [done| | |done].
    + intros x Hx. right. auto.
    + intros x [<-|Hx]; [|auto]. by rewrite existsb_app, Hr.
  - destruct (IH (t ++ [r])) as (added & Heq & Hin & Hall & Huniq). exists (r :: added).
    rewrite <- app_assoc in Heq, Hall, Huniq. split_and!; [done| | |].
    + intros x [<-|Hx]; [by left|right; auto].
    + intros x [<-|Hx]; [|auto]. rewrite existsb_app. cbn [existsb]. rewrite (proj2 (same_notification_iff r r) eq_refl). by rewrite orb_true_r.
    + intros Hnd. apply Huniq. unfold keys_unique in *. rewrite map_app. apply NoDup_app. split; [done|]. split; [|apply NoDup_singleton].
      intros k Hk ->%list_elem_of_singleton. apply list_elem_of_In, has_key_iff in Hk. congruence.
Qed.
Lemma create_many_none rows t : (forall r, In r rows -> existsb (same_notification r) t = true) -> create_many rows t = t.
Proof.
  induction rows as [|r rows IH]; intros H; [done|]. cbn [create_many fold_left]. rewrite (H r) by (by left). apply IH. intros x Hx. apply H. by right.
Qed.

Lemma In_recipients l u : In u (sort_strings (List.filter nonempty (js_set l))) <-> In u l /\ nonempty u = true.
Proof.
  unfold sort_strings. rewrite <- list_elem_of_In, js_sort_perm, list_elem_of_In, filter_In, <- list_elem_of_In, elem_of_js_set. by rewrite list_elem_of_In.
Qed.
Lemma length_recipients l : length (sort_strings (List.filter nonempty (js_set l))) = length (js_set l) -> forall u, In u l -> nonempty u = true.
Proof.
  unfold sort_strings. intros Hl u Hu. rewrite (Permutation_length (js_sort_perm _ _)) in Hl.
  destruct (nonempty u) eqn:He; [done|]. exfalso. pose proof (filter_split_length nonempty (js_set l)) as Hs.
  assert (In u (List.filter (fun x => negb (nonempty x)) (js_set l))) as Hin
    by (apply filter_In; rewrite He, <- list_elem_of_In, elem_of_js_set, list_elem_of_In; done).
  destruct (List.filter (fun x => negb (nonempty x)) (js_set l)); [done|]. cbn [length] in Hs. lia.
Qed.

(** A creation that succeeds: nobody to notify, or one insert of a row per recipient. *)
Lemma create_Ret ids now i t c r t' : createFamilyNotificationTx ids now i t = Ret (c, r, t') ->
  (forall u, In u (ci_recipients i) -> nonempty u = true) /\ r = Z.of_nat (length (js_set (ci_recipients i))) /\
  (ci_recipients i = [] /\ c = 0 /\ t' = t \/
   exists ty meta, ci_type i = js_name ty /\
     buildFamilyNotificationMetadata (ci_type i) (ci_entity i) (ci_profile i) (ci_occurredAt i) (ci_reason i) = Ret meta /\
     assertFamilyNotificationMetadata meta = Ret tt /\
     t' = create_many (map (notification_row ids now ty i meta) (sort_strings (List.filter nonempty (js_set (ci_recipients i))))) t /\
     c = Z.of_nat (length t') - Z.of_nat (length t)).
Proof.
  unfold createFamilyNotificationTx. destruct (negb (isFamilyNotificationType _)); [done|]. cbv zeta.
  destruct (Z.eqb_spec (Z.of_nat (length (sort_strings (List.filter nonempty (js_set (ci_recipients i))))))
    (Z.of_nat (length (js_set (ci_recipients i))))) as [Hl%Nat2Z.inj|]; cbn [negb]; [|done].
  destruct (Z.eqb_spec (Z.of_nat (length (sort_strings (List.filter nonempty (js_set (ci_recipients i)))))) 0) as [Hz|Hz].
  - intros [= <- <- <-]. split; [by apply length_recipients|]. rewrite <- Hl, Hz. split; [done|]. left. split; [|done].
    destruct (ci_recipients i) as [|u l] eqn:Hi; [done|]. exfalso. rewrite Hl in Hz. assert (u ∈ js_set (u :: l)) as Hu by (rewrite elem_of_js_set; set_solver).
    destruct (js_set (u :: l)); [by apply not_elem_of_nil in Hu|]. cbn in Hz. lia.
  - destruct (buildFamilyNotificationMetadata _ _ _ _ _) as [meta|e] eqn:Hm; [|done]. destruct (assertFamilyNotificationMetadata meta) as [[]|e] eqn:Ha; [|done].
    destruct (lookup_mapping (ci_type i)) as [ty| |] eqn:Hty; [|done..]. intros [= <- <- <-]. split; [by apply length_recipients|].
    split; [by rewrite Hl|]. right. exists ty, meta. unfold lookup_mapping in Hty. destruct (parse (ci_type i)) as [ty'|] eqn:Hp; [|by destruct (includes _ _)].
    injection Hty as <-. apply parse_Some in Hp. done.
Qed.

(** A success adds rows of the recipients, and a repetition, later and with other ids, adds none. *)
Lemma create_adds ids ids' now now' i t c r t' : createFamilyNotificationTx ids now i t = Ret (c, r, t') ->
  createFamilyNotificationTx ids' now' i t' = Ret (0, r, t') /\ exists added, t' = t ++ added /\ c = Z.of_nat (length added) /\
  (keys_unique t -> keys_unique t') /\ forall n, In n added -> exists u ty meta, In u (ci_recipients i) /\ nonempty u = true /\
    ci_type i = js_name ty /\ n = notification_row ids now ty i meta u.
Proof.
  intros H. pose proof H as H0. apply create_Ret in H as (Hne & Hr & [(Hnil & -> & ->)|(ty & meta & Hty & Hm & Ha & Ht' & Hc)]).
  { split; [|exists []; rewrite app_nil_r; split_and!; try done; by intros ? []]. revert H0. unfold createFamilyNotificationTx.
    rewrite Hnil. by destruct (negb (isFamilyNotificationType _)). }
  destruct (create_many_spec (map (notification_row ids now ty i meta) (sort_strings (List.filter nonempty (js_set (ci_recipients i))))) t)
    as (added & Heq & Hin & Hall & Huniq). rewrite Heq in Ht'. subst t'. split.
  - revert H0. unfold createFamilyNotificationTx. destruct (negb (isFamilyNotificationType _)); [done|]. cbv zeta.
    destruct (negb (Z.of_nat (length _) =? _)); [done|]. destruct (Z.of_nat (length _) =? 0); [by intros [= _ <- _]|].
    rewrite Hm, Ha, Hty. unfold lookup_mapping. rewrite parse_name. intros [= _ <- _].
    rewrite create_many_none; [by rewrite Z.sub_diag|]. intros x (u & <- & Hu)%in_map_iff.
    apply (in_map (notification_row ids now ty i meta)), Hall in Hu. rewrite <- Hu. done.
  - exists added. split; [done|]. split; [rewrite length_app in Hc; lia|]. split; [done|]. intros n (u & <- & Hu)%Hin%in_map_iff.
    apply In_recipients in Hu as [Hu Hn]. by exists u, ty, meta.
Qed.

(** Recording notifications is exact and idempotent: a success appends rows for the resolved recipients only, one per recipient and event,
    never blank and never a second with a key the tenant has; every recipient then has the row of this event; and repeating the call, later
    and with other ids, changes nothing and reports no creation. *)
Theorem notification_created_once (ids ids' : string -> string) (now now' : Z) (i : CreateFamilyNotificationInput) (t t' : notifications) (c r : Z) :
  createFamilyNotificationTx ids now i t = Ret (c, r, t') ->
  (exists added, t' = t ++ added /\ c = Z.of_nat (length added) /\
     forall n, In n added -> exists u, In u (ci_recipients i) /\ nonempty u = true /\ n_user n = Some u /\ n_tenant n = ci_tenant i /\
       n_type n = ci_type i /\ n_createdAt n = now /\ n_readAt n = None /\ n_dismissedAt n = None) /\
  (forall u, In u (ci_recipients i) -> exists n ty, ci_type i = js_name ty /\ In n t' /\ n_tenant n = ci_tenant i /\
     n_dedupeKey n = key_of ty u (ci_entity i) (ci_version i)) /\
  (keys_unique t -> keys_unique t') /\ createFamilyNotificationTx ids' now' i t' = Ret (0, r, t').
Proof.
  intros H. destruct (create_adds ids ids' now now' i t c r t' H) as (Hagain & added & Heq & Hc & Hu & Hin). split_and!; [|  |done|done].
  - exists added. split; [done|]. split; [done|]. intros n (u & ty & meta & Hu' & Hn & Hty & ->)%Hin. by exists u.
  - intros u Hu'. apply create_Ret in H as (Hne & _ & [(Hnil & _)|(ty & meta & Hty & _ & _ & Ht' & _)]); [by rewrite Hnil in Hu'|].
    destruct (create_many_spec (map (notification_row ids now ty i meta) (sort_strings (List.filter nonempty (js_set (ci_recipients i))))) t)
      as (added' & Heq' & _ & Hall & _). rewrite Heq', <- Ht' in *.
    assert (Hin' : In u (sort_strings (List.filter nonempty (js_set (ci_recipients i))))) by (apply In_recipients; auto).
    apply (in_map (notification_row ids now ty i meta)), Hall, existsb_exists in Hin' as (n & Hn & Hs%same_notification_iff). exists n, ty.
    injection Hs as Hs1 Hs2. rewrite <- Hs1, <- Hs2. cbn [notification_row n_tenant n_dedupeKey]. unfold key_of. by rewrite Hty.
Qed.

(** * Reading back *)

(** The view of a notification just recorded. *)
Definition fresh_view (n : notification) (ty : FamilyNotificationType) (profile : option string) : FamilyNotificationView :=
  let spec := FAMILY_NOTIFICATION_CATALOGUE ty in
  {| vw_id := n_id n; vw_type := js_name ty; vw_severity := familyToDbSeverity (sp_severity spec); vw_titleKey := titleKey spec;
     vw_messageKey := messageKey spec; vw_createdAt := n_createdAt n; vw_read := false; vw_entityType := Some (js_name (sp_entityType spec));
     vw_safeRoute := Some (familyNotificationCta ty); vw_profileId := profile; vw_unavailable := false |}.
(** The values a metadata object may hold: of the catalogue, id-shaped, an instant, or a reason code. *)
Definition bounded_entry (ty : FamilyNotificationType) (occurredAt : option Z) (e : string * scalar) : Prop :=
  let spec := FAMILY_NOTIFICATION_CATALOGUE ty in
  exists v, snd e = Text v /\
    (e = ("notificationType", Text (js_name ty)) \/ e = ("severity", Text (js_name (sp_severity spec))) \/
     e = ("entityType", Text (js_name (sp_entityType spec))) \/ e = ("safeRoute", Text (ctaRoute spec)) \/
     (fst e = "entityId" \/ fst e = "profileId") /\ ID_RE v = true \/ fst e = "safeReasonCode" /\ REASON_RE v = true \/
     fst e = "createdAt" /\ exists d, occurredAt = Some d /\ v = toISOString d).

Lemma lookup_entry (ty : FamilyNotificationType) : lookup_mapping (js_name ty) = Entry ty.
Proof. unfold lookup_mapping. by rewrite parse_name. Qed.
Lemma safe_route_catalogue ty : safe_route_ok (ctaRoute (FAMILY_NOTIFICATION_CATALOGUE ty)) = true.
Proof. by destruct ty. Qed.
Lemma row_reads_back ids now ty i meta u : ci_type i = js_name ty ->
  buildFamilyNotificationMetadata (ci_type i) (ci_entity i) (ci_profile i) (ci_occurredAt i) (ci_reason i) = Ret meta ->
  let n := notification_row ids now ty i meta u in
  toView n = fresh_view n ty (ci_profile i) /\ exists es, n_metadata n = Object es /\ Forall (bounded_entry ty (ci_occurredAt i)) es.
Proof.
  intros Hty Hm. unfold buildFamilyNotificationMetadata, familyNotificationSpec in Hm. rewrite Hty, lookup_entry in Hm.
  destruct (negb (ID_RE _)) eqn:He; [done|]. destruct (match ci_profile i with Some _ => _ | None => _ end) eqn:Hp; [done|].
  destruct (match ci_reason i with Some _ => _ | None => _ end) eqn:Hr; [done|]. injection Hm as <-. apply negb_false_iff in He.
  split.
  - unfold toView, fresh_view, notification_row, familyNotificationCta, isFamilyNotificationType. cbn [n_metadata n_type n_id n_severity n_titleKey n_messageKey
      n_createdAt n_readAt]. rewrite Hty, lookup_entry. destruct (ci_profile i), (ci_occurredAt i), (ci_reason i); cbn [map app fst snd];
      unfold text_of; cbn [map_get String.eqb Ascii.eqb Bool.eqb]; by rewrite safe_route_catalogue.
  - eexists. split; [done|]. assert (Hself : sp_type (FAMILY_NOTIFICATION_CATALOGUE ty) = ty) by (by destruct ty).
    cbn [app map fst snd]. rewrite Hself, !map_app, !Forall_cons, !Forall_app. unfold bounded_entry. cbn [fst snd].
    assert (Hopt : forall (P : string * scalar -> Prop) (o : option string) k, (forall v, o = Some v -> P (k, Text v)) ->
      Forall P (map (fun e => (fst e, Text (snd e))) (match o with Some v => [(k, v)] | None => [] end)))
      by (intros P [v|] k H; [repeat constructor; by apply H|constructor]).
    split_and!; [eauto 16..| | |].
    + apply Hopt. intros v Hv. rewrite Hv in Hp. apply negb_false_iff in Hp. eauto 12.
    + destruct (ci_occurredAt i) as [d|]; [|constructor]. repeat constructor. eauto 16.
    + apply Hopt. intros v Hv. rewrite Hv in Hr. apply negb_false_iff in Hr. eauto 12.
Qed.

(** What is recorded reads back, and nothing else is in it: every new row is shown to its recipient as available, with the catalogue's
    texts, severity and route, the profile given and nothing marked; its metadata holds only the fixed texts of the type, id-shaped
    identifiers, a reason code and the time of the event. *)
Theorem notification_reads_back (ids : string -> string) (now : Z) (i : CreateFamilyNotificationInput) (t t' : notifications) (c r : Z) (n : notification) :
  createFamilyNotificationTx ids now i t = Ret (c, r, t') -> In n t' -> ~ In n t ->
  exists ty es, ci_type i = js_name ty /\ toView n = fresh_view n ty (ci_profile i) /\ n_metadata n = Object es /\
    Forall (bounded_entry ty (ci_occurredAt i)) es.
Proof.
  intros (_ & _ & [(_ & _ & ->)|(ty & meta & Hty & Hm & _ & -> & _)])%create_Ret Hin Hnew; [done|].
  destruct (create_many_spec (map (notification_row ids now ty i meta) (sort_strings (List.filter nonempty (js_set (ci_recipients i))))) t)
    as (added & Heq & Hrows & _ & _). rewrite Heq in Hin. apply in_app_iff in Hin as [|(u & <- & _)%Hrows%in_map_iff]; [done|].
  destruct (row_reads_back ids now ty i meta u Hty Hm) as (Hv & es & He & Hb). by exists ty, es.
Qed.

(** * Marks *)

Inductive op :=
| NCreate (ids : string -> string) (now : Z) (i : CreateFamilyNotificationInput)
| NRead (actor : FamilyActorContext) (id : string) (now : Z)
| NReadAll (actor : FamilyActorContext) (now : Z)
| NDismiss (actor : FamilyActorContext) (id : string) (now : Z).
Definition exec (o : op) (t : notifications) : notifications :=
  match o with
  | NCreate ids now i => match createFamilyNotificationTx ids now i t with Ret (_, t') => t' | Throw _ => t end
  | NRead actor id now => snd (markFamilyNotificationRead actor id now t)
  | NReadAll actor now => snd (markAllFamilyNotificationsRead actor now t)
  | NDismiss actor id now => snd (dismissFamilyNotification actor id now t)
  end.
Definition run (os : list op) (t : notifications) : notifications := fold_left (fun t o => exec o t) os t.
Definition acts (os : list op) (actor : FamilyActorContext) : Prop := exists o, In o os /\
  match o with NCreate _ _ _ => False | NRead a _ _ | NReadAll a _ | NDismiss a _ _ => a = actor end.

Definition can_dismiss (n : notification) : bool := includes DISMISSIBLE_FAMILY_TYPES_PN (n_type n).
(** A row marked, or left alone: marks are set once, only by its recipient, and only
    dismissible ones are dismissed. *)
Definition only_marked (who : FamilyActorContext -> Prop) (n n' : notification) : Prop :=
  n' = with_marks (n_readAt n') (n_dismissedAt n') n /\
  (forall at_, n_readAt n = Some at_ -> n_readAt n' = Some at_) /\ (forall at_, n_dismissedAt n = Some at_ -> n_dismissedAt n' = Some at_) /\
  (can_dismiss n = false -> n_dismissedAt n' = n_dismissedAt n) /\
  (n' = n \/ exists actor, who actor /\ own actor n = true).
Definition starts_unmarked (n : notification) : Prop := can_dismiss n = false -> n_dismissedAt n = None.

Lemma only_marked_refl who n : only_marked who n n.
Proof. unfold only_marked. split; [by destruct n|]. auto. Qed.
Lemma only_marked_trans who a b c : only_marked who a b -> only_marked who b c -> only_marked who a c.
Proof.
  intros (Hb & Hr & Hd & Hn & Ho) (Hc & Hr' & Hd' & Hn' & Ho'). assert (Hcan : can_dismiss b = can_dismiss a) by (rewrite Hb; done).
  assert (Hown : forall actor, own actor b = own actor a) by (intros; rewrite Hb; done). rewrite Hcan in Hn'. split_and!; auto.
  - rewrite Hc at 1. rewrite Hb. done.
  - intros H. rewrite Hn', Hn; done.
  - destruct Ho' as [->|(x & Hx & Hox)]; [done|]. right. exists x. by rewrite <- Hown.
Qed.
Lemma only_marked_unmarked who a b : starts_unmarked a -> only_marked who a b -> starts_unmarked b.
Proof. unfold starts_unmarked. intros Ha (Hb & _ & _ & Hn & _) H. assert (can_dismiss a = false) by (rewrite Hb in H; done). rewrite Hn; auto. Qed.
Lemma dismissible_is_family ty : includes DISMISSIBLE_FAMILY_TYPES_PN ty = true -> is_family ty = true.
Proof.
  unfold is_family. rewrite !includes_In. unfold DISMISSIBLE_FAMILY_TYPES_PN. intros (t & <- & Ht)%in_map_iff. apply filter_In in Ht as [Ht _].
  by apply in_map.
Qed.
Abbreviation marks who := (evolves (only_marked who) starts_unmarked).
Lemma mark_marks (who : FamilyActorContext -> Prop) (p : notification -> bool) f t :
  (forall n, p n = true -> only_marked who n (f n)) -> marks who t (update_where p f t).
Proof. intros H. apply evolves_map. intros n _. destruct (p n) eqn:Hp; [auto|apply only_marked_refl]. Qed.
Lemma read_marks (who : FamilyActorContext -> Prop) actor now p t : who actor -> (forall n, p n = true -> unread_own actor n = true) ->
  marks who t (snd (mark_where p now t)).
Proof.
  intros Hw H. apply mark_marks. intros n Hn%H. unfold unread_own in Hn. guards_in Hn. destruct Hn as [[Ho Hd] Hr]. unfold only_marked, with_marks.
  destruct n as [? ? ? ? ? ? ? ? ? ? [] []]; cbn in *; try done. split_and!; try done. right. by exists actor.
Qed.
Lemma exec_marks (who : FamilyActorContext -> Prop) o t : (forall actor, acts [o] actor -> who actor) -> marks who t (exec o t).
Proof.
  intros Hw. assert (Hrefl : marks who t t) by apply evolves_refl, only_marked_refl.
  assert (Hwho : forall actor, match o with NCreate _ _ _ => False | NRead a _ _ | NReadAll a _ | NDismiss a _ _ => a = actor end -> who actor)
    by (intros actor Ha; apply Hw; exists o; split; [by left|done]).
  destruct o as [ids now i|actor id now|actor now|actor id now]; cbn [exec].
  - destruct (createFamilyNotificationTx ids now i t) as [[[c r] t']|e] eqn:H; [|done].
    apply create_Ret in H as (_ & _ & [(_ & _ & ->)|(ty & meta & _ & _ & _ & -> & _)]); [done|].
    destruct (create_many_spec (map (notification_row ids now ty i meta) (sort_strings (List.filter nonempty (js_set (ci_recipients i))))) t)
      as (added & -> & Hin & _ & _). apply evolves_grow; [apply only_marked_refl|]. apply Forall_forall. intros n Hn.
    apply list_elem_of_In, Hin, in_map_iff in Hn as (u & <- & _). done.
  - apply (read_marks who actor); [by apply Hwho|]. intros n Hn. guards_in Hn. tauto.
  - apply (read_marks who actor); [by apply Hwho|]. done.
  - unfold dismissFamilyNotification. destruct (0 <? _); [done|]. cbn [snd]. apply mark_marks. intros n Hn. unfold dismissible_own in Hn.
    apply andb_true_iff in Hn as [[[[_ Ht%String.eqb_eq]%andb_true_iff Hu]%andb_true_iff Hd]%andb_true_iff Hn]. unfold only_marked. cbn [with_marks n_readAt n_dismissedAt]. split_and!; try done.
    + intros at_ Ha. by rewrite Ha in Hn.
    + unfold can_dismiss. congruence.
    + right. exists actor. split; [by apply Hwho|]. unfold own. rewrite Ht, String.eqb_refl, Hu. cbn. by apply dismissible_is_family.
Qed.

(** A notification is never deleted, rewritten or taken over: whatever is run, every row stays with its contents, a mark once set keeps
    its time, and a row changes only through calls of its own recipient, in its tenant; an urgent one is never dismissed. *)
Theorem notifications_only_marked (os : list op) (t : notifications) : evolves (only_marked (acts os)) starts_unmarked t (run os t).
Proof.
  cut (forall who : FamilyActorContext -> Prop, (forall actor, acts os actor -> who actor) -> marks who t (run os t)); [auto|]. intros who.
  revert t. induction os as [|o os IH]; intros t Hw; [apply evolves_refl, only_marked_refl|]. cbn [run fold_left].
  apply (evolves_trans _ _ (only_marked_trans who) (only_marked_unmarked who) _ (exec o t)).
  - apply exec_marks. intros actor (o' & [<-|[]] & Ho). apply Hw. exists o. split; [by left|done].
  - apply (IH (exec o t)). intros actor (o' & Hin & Ho). apply Hw. exists o'. split; [by right|done].
Qed.

(** * Pages *)

(** Paging through the notification centre neither skips nor repeats: the first page is the newest rows of the recipient, and the page
    after any row [x], asked for with its time and id, is exactly the rows that follow it, rows of the same instant included. *)
Theorem notification_pages_exact (actor : FamilyActorContext) (limit : option Z) (unreadOnly : bool) (t : notifications)
    (pre rest : list notification) (x : notification) :
  let size := Z.to_nat (Z.min (Z.max (limit ?? 30) 1) 100) in
  let all := js_sort list_order (List.filter (listed actor unreadOnly) t) in
  NoDup (map n_id t) -> all = pre ++ x :: rest -> nonempty (n_id x) = true ->
  page actor {| lo_limit := limit; lo_before := None; lo_beforeId := None; lo_unreadOnly := unreadOnly |} t = take size all /\
  page actor {| lo_limit := limit; lo_before := Some (n_createdAt x); lo_beforeId := Some (n_id x); lo_unreadOnly := unreadOnly |} t = take size rest.
Proof.
  intros size all Hnd Hall Hx. unfold page. cbn [lo_limit lo_before lo_beforeId lo_unreadOnly keyset]. fold size. split; f_equal.
  - unfold all. f_equal. apply List.filter_ext. intros n. by rewrite andb_true_r.
  - rewrite Hx, <- (Keyset.rows_after n_createdAt n_id _ _ _ _ _ Hnd Hall). f_equal. apply List.filter_ext. intros n.
    f_equal. unfold Keyset.newer. by rewrite (Z.eqb_sym (n_createdAt n)).
Qed.

(** * The type guard *)

(** The guard is documented to be fail-closed; the name of an inherited property passes it,
    and with somebody to notify the insert is only stopped by the column's type. *)
Theorem inherited_type_passes_guard (k : string) :
  In k object_prototype_keys -> isFamilyNotificationType k = true /\ isFamilyNotificationDbType k = false /\ familyNotificationSpec k = Ret None.
Proof. intros H. repeat destruct H as [<-|H]; done. Qed.

(** * A concrete centre *)

Definition guardian0 : FamilyActorContext := {| tenantId := "t1"; userId := "u1"; role := "admin"; workspaceKind := "family" |}.
Definition event0 (ty : FamilyNotificationType) (v : string) : CreateFamilyNotificationInput :=
  {| ci_tenant := "t1"; ci_type := js_name ty; ci_entity := "s-1"; ci_profile := Some "p1"; ci_version := v; ci_reason := None;
     ci_occurredAt := Some 1735689600000; ci_recipients := ["u2"; "u1"; "u2"] |}.
Definition centre0 : notifications := run [NCreate (fun k => "id:" +:+ k) 10 (event0 family_signal_available "v1");
  NCreate (fun k => "id:" +:+ k) 10 (event0 family_urgent_signal "v1"); NCreate (fun k => "id:" +:+ k) 20 (event0 family_signal_available "v2")] [].

Example iso_date : toISOString 1735689600123 = "2025-01-01T00:00:00.123Z" /\ toISOString (-1) = "1969-12-31T23:59:59.999Z" /\
  toISOString 951782400000 = "2000-02-29T00:00:00.000Z".
Proof. by vm_compute. Qed.
Example urgent_stays : Z.of_nat (length centre0) = 6 /\ familyUnreadNotificationCount guardian0 centre0 = 3 /\
  option_map n_dismissedAt (head (run [NDismiss guardian0 "id:family_signal_available:u1:signal:s-1:v1" 30] centre0)) = Some (Some 30) /\
  fst (dismissFamilyNotification guardian0 "id:family_urgent_signal:u1:signal:s-1:v1" 30 centre0) = None.
Proof. by vm_compute. Qed.

Lemma notification_key_injective_witness : family_signal_available = family_signal_available /\ "u1" = "u1" /\ "s-1" = "s-1" /\ "a:b" = "a:b".
Proof. apply (notification_key_injective family_signal_available family_signal_available "u1" "u1" "s-1" "s-1" "a:b" "a:b"); by vm_compute. Defined.
Lemma notification_created_once_witness : exists t r,
  createFamilyNotificationTx (fun k => k) 10 (event0 family_signal_available "v3") centre0 = Ret (2, r, t) /\
  createFamilyNotificationTx (fun k => "x" +:+ k) 50 (event0 family_signal_available "v3") t = Ret (0, r, t).
Proof.
  destruct (createFamilyNotificationTx (fun k => k) 10 (event0 family_signal_available "v3") centre0) as [[[c r] t]|e] eqn:H; [|by vm_compute in H].
  exists t, r. destruct (notification_created_once (fun k => k) (fun k => "x" +:+ k) 10 50 _ _ _ _ _ H) as (_ & _ & _ & Hrep).
  split; [|exact Hrep]. assert (c = 2) as -> by (vm_compute in H; by injection H). done.
Defined.
Lemma notification_reads_back_witness : forall n, In n (skipn 6 (run [NCreate (fun k => k) 30 (event0 family_urgent_signal "v9")] centre0)) ->
  ~ In n centre0 -> vw_unavailable (toView n) = false.
Proof.
  intros n Hn Hnew. destruct (createFamilyNotificationTx (fun k => k) 30 (event0 family_urgent_signal "v9") centre0) as [[[c r] t]|e] eqn:H; [|by vm_compute in H].
  destruct (notification_reads_back (fun k => k) 30 _ _ _ _ _ n H) as (ty & es & _ & Hv & _); [|done|by rewrite Hv].
  unfold run in Hn. cbn [fold_left exec] in Hn. rewrite H in Hn. rewrite <- (firstn_skipn 6 t). apply in_app_iff. by right.
Defined.
Lemma notification_pages_exact_witness : exists x, head (js_sort list_order (List.filter (listed guardian0 false) centre0)) = Some x /\
  Z.of_nat (length (page guardian0 {| lo_limit := Some 5; lo_before := Some (n_createdAt x); lo_beforeId := Some (n_id x); lo_unreadOnly := false |} centre0)) = 2.
Proof.
  destruct (js_sort list_order (List.filter (listed guardian0 false) centre0)) as [|x rest] eqn:H; [by vm_compute in H|]. exists x. split; [done|].
  rewrite (proj2 (notification_pages_exact guardian0 (Some 5) false centre0 [] rest x ltac:(by apply (bool_decide_unpack _)) H
    ltac:(vm_compute in H; injection H as <- _; reflexivity))). vm_compute in H. injection H as _ <-. by vm_compute.
Defined.
Lemma inherited_type_passes_guard_witness : isFamilyNotificationType "constructor" = true.
Proof. apply (inherited_type_passes_guard "constructor"). by left. Defined.
End Notifications.
