(* ===== verification/Tx.v ===== *)
(** Transactions as a state-and-error monad: a computation returns a value with the
    tables as written, or an error with which everything it wrote is rolled back. The
    services of the family repositories are written in it, each over its own tables
    ([FamilyStore], [Household]). *)
From S2P Require Import Prelude.
Open Scope string_scope.
Open Scope list_scope.
Open Scope Z_scope.
Open Scope tam_scope.

Module Tx.

Definition tx (S E A : Type) : Type := S -> outcome (A * S) E.

Section Tx.
Context {S E : Type}.
Local Abbreviation M := (tx S E).

#[export] Instance tx_ret : MRet M := fun A a db => Ret (a, db).
#[export] Instance tx_bind : MBind M := fun A B k m db =>
  match m db with Ret (a, db') => k a db' | Throw e => Throw e end.
Definition throw {A} (e : E) : M A := fun _ => Throw e.
Definition get : M S := fun db => Ret (db, db).
Definition put (db : S) : M () := fun _ => Ret (tt, db).
(** [if (b) throw e;] *)
Definition throw_if (b : bool) (e : E) : M () := if b then throw e else mret tt.
(** [if (!o) throw e;] *)
Definition found {A} (o : option A) (e : E) : M A := match o with Some a => mret a | None => throw e end.

(** The state after a call: unchanged when it throws. *)
Definition after {A} (m : M A) (db : S) : S := match m db with Ret (_, db') => db' | Throw _ => db end.
Definition result {A} (m : M A) (db : S) : outcome A E := match m db with Ret (a, _) => Ret a | Throw e => Throw e end.

Lemma bind_Ret {A B} (m : M A) (k : A -> M B) db b db' :
  (m ≫= k) db = Ret (b, db') <-> exists a db1, m db = Ret (a, db1) /\ k a db1 = Ret (b, db').
Proof.
  unfold mbind, tx_bind. destruct (m db) as [[a db1]|e]; split; [eauto| |done|]; by intros (a' & db1' & [= <- <-] & Hk).
Qed.
Lemma mret_Ret {A} (a b : A) db db' : (mret a : M A) db = Ret (b, db') <-> b = a /\ db' = db.
Proof. unfold mret, tx_ret. split; [by intros [= <- <-]|by intros [-> ->]]. Qed.
Lemma throw_Ret {A} e db (a : A) db' : throw e db = Ret (a, db') <-> False.
Proof. done. Qed.
Lemma get_Ret db a db' : get db = Ret (a, db') <-> a = db /\ db' = db.
Proof. unfold get. split; [by intros [= <- <-]|by intros [-> ->]]. Qed.
Lemma put_Ret d db u db' : put d db = Ret (u, db') <-> u = tt /\ db' = d.
Proof. unfold put. split; [by intros [= <- <-]|by intros [-> ->]]. Qed.
Lemma throw_if_Ret b e db u db' : throw_if b e db = Ret (u, db') <-> b = false /\ u = tt /\ db' = db.
Proof. destruct b; simpl; [split; [done|by intros [? _]]|]. rewrite mret_Ret. tauto. Qed.
Lemma found_Ret {A} (o : option A) e db a db' : found o e db = Ret (a, db') <-> o = Some a /\ db' = db.
Proof.
  destruct o as [x|]; simpl; [rewrite mret_Ret|]; split; try done.
  - by intros [-> ->].
  - by intros [[= ->] ->].
  - by intros [? _].
Qed.
End Tx.

(** Invert a successful run step by step. *)
Ltac run_inv :=
  repeat match goal with
  | H : (_ ≫= _) _ = Ret (_, _) |- _ => apply bind_Ret in H as (? & ? & ? & ?)
  | H : mret _ _ = Ret (_, _) |- _ => apply mret_Ret in H as [? ?]
  | H : get _ = Ret (_, _) |- _ => apply get_Ret in H as [? ?]
  | H : put _ _ = Ret (_, _) |- _ => apply put_Ret in H as [? ?]
  | H : throw _ _ = Ret (_, _) |- _ => by apply throw_Ret in H
  | H : throw_if _ _ _ = Ret (_, _) |- _ => apply throw_if_Ret in H as (? & ? & ?)
  | H : found _ _ _ = Ret (_, _) |- _ => apply found_Ret in H as [? ?]
  | H : (if ?b then _ else _) _ = Ret (_, _) |- _ => destruct b eqn:?
  | H : (match ?o with _ => _ end) _ = Ret (_, _) |- _ => destruct o eqn:?
  end; subst.
End Tx.
