(* ===== verification/SafetyPolicy.v ===== *)
(** The child-safety policy engine ([packages/core/src/child-safety-policy.ts]): the vocabulary,
    the validator of untyped definitions, the typed view a validated definition is read as, the
    evaluation of its rules against facts, the merge of their effects, and the canonical text of
    the facts. *)
From S2P Require Import Prelude JsValue Access JsonText.
From Stdlib Require Import QArith Lqa.
Open Scope string_scope.
Open Scope list_scope.
Open Scope Z_scope.
Open Scope tam_scope.
Import JsValue JsonText.

Module SafetyPolicy.

(** * Vocabulary *)

(* src: packages/core/src/child-safety-policy.ts:20-20 CHILD_SAFETY_POLICY_ENGINE_VERSION *)
Definition CHILD_SAFETY_POLICY_ENGINE_VERSION : string := "cs-policy-engine-v1".
(* src: packages/core/src/child-safety-policy.ts:21-21 CHILD_SAFETY_POLICY_SCHEMA_VERSION *)
Definition CHILD_SAFETY_POLICY_SCHEMA_VERSION : Z := 1.

(** The bounds of a definition. *)
Module POLICY_LIMITS.
(* src: packages/core/src/child-safety-policy.ts:25-25 maxRules *)
Definition maxRules : Z := 100.
(* src: packages/core/src/child-safety-policy.ts:26-26 maxConditionNodesPerRule *)
Definition maxConditionNodesPerRule : Z := 20.
(* src: packages/core/src/child-safety-policy.ts:27-27 maxNestingDepth *)
Definition maxNestingDepth : nat := 5.
(* src: packages/core/src/child-safety-policy.ts:28-28 maxEffectsPerRule *)
Definition maxEffectsPerRule : Z := 20.
(* src: packages/core/src/child-safety-policy.ts:29-29 maxDefinitionBytes *)
Definition maxDefinitionBytes : Z := 64 * 1024.
(* src: packages/core/src/child-safety-policy.ts:30-30 maxRuleIdLen *)
Definition maxRuleIdLen : Z := 64.
(* src: packages/core/src/child-safety-policy.ts:31-31 maxExplanationCodeLen *)
Definition maxExplanationCodeLen : Z := 64.
(* src: packages/core/src/child-safety-policy.ts:32-32 maxInValues *)
Definition maxInValues : Z := 50.
End POLICY_LIMITS.

(* src: packages/core/src/child-safety-policy.ts:38-38 canViewChildSafetyPolicy *)
Definition canViewChildSafetyPolicy (r : Access.Role) : bool := Access.can r Access.ChildSafetyPolicyView.
(* src: packages/core/src/child-safety-policy.ts:39-39 canManageChildSafetyPolicy *)
Definition canManageChildSafetyPolicy (r : Access.Role) : bool := Access.can r Access.ChildSafetyPolicyManage.
(* src: packages/core/src/child-safety-policy.ts:40-40 canSubmitChildSafetyPolicy *)
Definition canSubmitChildSafetyPolicy (r : Access.Role) : bool := Access.can r Access.ChildSafetyPolicySubmit.
(* src: packages/core/src/child-safety-policy.ts:41-41 canApproveChildSafetyPolicy *)
Definition canApproveChildSafetyPolicy (r : Access.Role) : bool := Access.can r Access.ChildSafetyPolicyApprove.
(* src: packages/core/src/child-safety-policy.ts:42-42 canActivateChildSafetyPolicy *)
Definition canActivateChildSafetyPolicy (r : Access.Role) : bool := Access.can r Access.ChildSafetyPolicyActivate.
(* src: packages/core/src/child-safety-policy.ts:43-43 canSimulateChildSafetyPolicy *)
Definition canSimulateChildSafetyPolicy (r : Access.Role) : bool := Access.can r Access.ChildSafetyPolicySimulate.
(* src: packages/core/src/child-safety-policy.ts:44-44 canViewChildSafetyPolicyDecisions *)
Definition canViewChildSafetyPolicyDecisions (r : Access.Role) : bool := Access.can r Access.ChildSafetyPolicyDecisionView.

(* src: packages/core/src/child-safety-policy.ts:49-56 ChildSafetyPolicyPurpose *)
Inductive ChildSafetyPolicyPurpose :=
| SignalTriage | IncidentClassification | Escalation | ProtectionPlan | InterventionAuthorization | GuardianContactEligibility.
#[export] Instance ChildSafetyPolicyPurpose_dec : EqDecision ChildSafetyPolicyPurpose.
Proof. solve_decision. Defined.
#[export] Program Instance ChildSafetyPolicyPurpose_enum : JsEnum ChildSafetyPolicyPurpose := {|
  js_name x := match x with
    | SignalTriage => "SIGNAL_TRIAGE" | IncidentClassification => "INCIDENT_CLASSIFICATION" | Escalation => "ESCALATION"
    | ProtectionPlan => "PROTECTION_PLAN" | InterventionAuthorization => "INTERVENTION_AUTHORIZATION"
    | GuardianContactEligibility => "GUARDIAN_CONTACT_ELIGIBILITY" end;
  js_values := [SignalTriage; IncidentClassification; Escalation; ProtectionPlan; InterventionAuthorization; GuardianContactEligibility] |}.
Solve All Obligations with solve_js_enum.
(** An untyped value is a string of the enumeration. *)
Definition parse_value {A} `{JsEnum A} (v : raw_value) : option A := match v with VString s => parse s | _ => None end.
(* src: packages/core/src/child-safety-policy.ts:58-58 isPolicyPurpose *)
Definition isPolicyPurpose (v : raw_value) : option ChildSafetyPolicyPurpose := parse_value v.

(* src: packages/core/src/child-safety-policy.ts:60-66 ChildSafetyPolicyStatus *)
Inductive ChildSafetyPolicyStatus := Draft | PendingApproval | Active | Retired | Rejected.
#[export] Instance ChildSafetyPolicyStatus_dec : EqDecision ChildSafetyPolicyStatus.
Proof. solve_decision. Defined.
#[export] Program Instance ChildSafetyPolicyStatus_enum : JsEnum ChildSafetyPolicyStatus := {|
  js_name x := match x with
    | Draft => "DRAFT" | PendingApproval => "PENDING_APPROVAL" | Active => "ACTIVE" | Retired => "RETIRED" | Rejected => "REJECTED" end;
  js_values := [Draft; PendingApproval; Active; Retired; Rejected] |}.
Solve All Obligations with solve_js_enum.
(* src: packages/core/src/child-safety-policy.ts:69-71 IMMUTABLE_POLICY_STATUSES *)
Definition IMMUTABLE_POLICY_STATUSES : list ChildSafetyPolicyStatus := [PendingApproval; Active; Retired; Rejected].
(* src: packages/core/src/child-safety-policy.ts:72-72 isImmutablePolicyStatus *)
Definition isImmutablePolicyStatus (s : string) : bool := includes (map js_name IMMUTABLE_POLICY_STATUSES) s.

(* src: packages/core/src/child-safety-policy.ts:74-79 PolicyOperator *)
Inductive PolicyOperator :=
| OpEquals | OpNotEquals | OpIn | OpNotIn | OpGreaterThan | OpGreaterThanOrEqual | OpLessThan | OpLessThanOrEqual | OpExists | OpNotExists.
#[export] Instance PolicyOperator_dec : EqDecision PolicyOperator.
Proof. solve_decision. Defined.
#[export] Program Instance PolicyOperator_enum : JsEnum PolicyOperator := {|
  js_name x := match x with
    | OpEquals => "EQUALS" | OpNotEquals => "NOT_EQUALS" | OpIn => "IN" | OpNotIn => "NOT_IN" | OpGreaterThan => "GREATER_THAN"
    | OpGreaterThanOrEqual => "GREATER_THAN_OR_EQUAL" | OpLessThan => "LESS_THAN" | OpLessThanOrEqual => "LESS_THAN_OR_EQUAL"
    | OpExists => "EXISTS" | OpNotExists => "NOT_EXISTS" end;
  js_values := [OpEquals; OpNotEquals; OpIn; OpNotIn; OpGreaterThan; OpGreaterThanOrEqual; OpLessThan; OpLessThanOrEqual; OpExists; OpNotExists] |}.
Solve All Obligations with solve_js_enum.
(* src: packages/core/src/child-safety-policy.ts:81-81 PolicyConditionGroupKind *)
Inductive PolicyConditionGroupKind := GroupAll | GroupAny.
#[export] Instance PolicyConditionGroupKind_dec : EqDecision PolicyConditionGroupKind.
Proof. solve_decision. Defined.
#[export] Program Instance PolicyConditionGroupKind_enum : JsEnum PolicyConditionGroupKind := {|
  js_name x := match x with GroupAll => "ALL" | GroupAny => "ANY" end; js_values := [GroupAll; GroupAny] |}.
Solve All Obligations with solve_js_enum.

(* src: packages/core/src/child-safety-policy.ts:83-100 PolicyEffectType *)
Inductive PolicyEffectType :=
| CreateIncident | UpdateIncident | SetRecommendedSeverity | SetRecommendedUrgency | RequireReview | RequireSupervisorReview
| CreateEscalationRecommendation | SetEscalationLevel | ProposeProtectionPlan | ProposeProtectionAction
| AllowAutomaticIntervention | RequireManualInterventionApproval | AllowGuardianContactConsideration | ProhibitGuardianContact
| ManualOnly | NoAction.
#[export] Instance PolicyEffectType_dec : EqDecision PolicyEffectType.
Proof. solve_decision. Defined.
#[export] Program Instance PolicyEffectType_enum : JsEnum PolicyEffectType := {|
  js_name x := match x with
    | CreateIncident => "CREATE_INCIDENT" | UpdateIncident => "UPDATE_INCIDENT" | SetRecommendedSeverity => "SET_RECOMMENDED_SEVERITY"
    | SetRecommendedUrgency => "SET_RECOMMENDED_URGENCY" | RequireReview => "REQUIRE_REVIEW"
    | RequireSupervisorReview => "REQUIRE_SUPERVISOR_REVIEW" | CreateEscalationRecommendation => "CREATE_ESCALATION_RECOMMENDATION"
    | SetEscalationLevel => "SET_ESCALATION_LEVEL" | ProposeProtectionPlan => "PROPOSE_PROTECTION_PLAN"
    | ProposeProtectionAction => "PROPOSE_PROTECTION_ACTION" | AllowAutomaticIntervention => "ALLOW_AUTOMATIC_INTERVENTION"
    | RequireManualInterventionApproval => "REQUIRE_MANUAL_INTERVENTION_APPROVAL"
    | AllowGuardianContactConsideration => "ALLOW_GUARDIAN_CONTACT_CONSIDERATION" | ProhibitGuardianContact => "PROHIBIT_GUARDIAN_CONTACT"
    | ManualOnly => "MANUAL_ONLY" | NoAction => "NO_ACTION" end;
  js_values :=
    [CreateIncident; UpdateIncident; SetRecommendedSeverity; SetRecommendedUrgency; RequireReview; RequireSupervisorReview;
     CreateEscalationRecommendation; SetEscalationLevel; ProposeProtectionPlan; ProposeProtectionAction; AllowAutomaticIntervention;
     RequireManualInterventionApproval; AllowGuardianContactConsideration; ProhibitGuardianContact; ManualOnly; NoAction] |}.
Solve All Obligations with solve_js_enum.

(* src: packages/core/src/child-safety-policy.ts:104-104 SEVERITIES *)
Definition SEVERITIES : list string := ["low"; "medium"; "high"; "critical"].
(* src: packages/core/src/child-safety-policy.ts:105-105 URGENCIES *)
Definition URGENCIES : list string := ["routine"; "elevated"; "immediate"].
(* src: packages/core/src/child-safety-policy.ts:106-106 CONFIDENCE_BANDS *)
Definition CONFIDENCE_BANDS : list string := ["low"; "medium"; "high"].
(* src: packages/core/src/child-safety-policy.ts:107-107 RISK_FAMILIES *)
Definition RISK_FAMILIES : list string := ["sexual"; "grooming"; "violence"; "coercion"; "scam"; "bullying"; "identity"].
(* src: packages/core/src/child-safety-policy.ts:108-108 INCIDENT_STATUSES *)
Definition INCIDENT_STATUSES : list string :=
  ["open"; "under_review"; "action_required"; "monitoring"; "waiting"; "resolved"; "dismissed"; "reopened"; "closed"].
(* src: packages/core/src/child-safety-policy.ts:109-109 GUARDIAN_AUTHORITY_STATES *)
Definition GUARDIAN_AUTHORITY_STATES : list string := ["none"; "pending"; "authorized"; "revoked"; "expired"].
(* src: packages/core/src/child-safety-policy.ts:110-110 AGE_BANDS *)
Definition AGE_BANDS : list string := ["under_10"; "age_10_12"; "age_13_15"; "age_16_17"].
(* src: packages/core/src/child-safety-policy.ts:111-111 SIGNAL_TYPES *)
Definition SIGNAL_TYPES : list string :=
  ["GROOMING"; "SEXUAL_SOLICITATION"; "SEXTORTION"; "MEETING_ATTEMPT"; "CYBERBULLYING"; "THREAT"; "IDENTITY_MANIPULATION"; "COERCION"].
(* src: packages/core/src/child-safety-policy.ts:112-112 ESCALATION_LEVELS *)
Definition ESCALATION_LEVELS : list string := ["none"; "monitor"; "internal"; "urgent_internal"].
(* src: packages/core/src/child-safety-policy.ts:114-114 PROTECTION_ACTION_TYPES *)
Definition PROTECTION_ACTION_TYPES : list string :=
  ["review_account_safety"; "preserve_evidence"; "verify_guardian_contact"; "notify_authorized_guardian"; "restrict_interaction";
   "recommend_blocking"; "recommend_reporting"; "escalate_internal_safety"; "legal_review"; "welfare_check"; "follow_up_review";
   "custom_internal_action"].
(* src: packages/core/src/child-safety-policy.ts:115-115 INTERVENTION_TYPES *)
Definition INTERVENTION_TYPES : list string :=
  ["local_safety_guidance"; "queue_for_review"; "notify_authorized_guardian"; "create_or_update_incident"; "urgent_escalation"].

(** The position of a string in its list, [-1] for one that is not on it ([RANK[x] ?? -1]). *)
Fixpoint rank_in (l : list string) (x : string) : Z :=
  match l with [] => -1 | y :: r => if y =s x then 0 else let k := rank_in r x in if k <? 0 then k else k + 1 end.
(* src: packages/core/src/child-safety-policy.ts:117-117 SEVERITY_RANK *)
Definition SEVERITY_RANK : string -> Z := rank_in SEVERITIES.
(* src: packages/core/src/child-safety-policy.ts:118-118 URGENCY_RANK *)
Definition URGENCY_RANK : string -> Z := rank_in URGENCIES.
(* src: packages/core/src/child-safety-policy.ts:119-119 ESCALATION_RANK *)
Definition ESCALATION_RANK : string -> Z := rank_in ESCALATION_LEVELS.

(** * The fact fields *)

(* src: packages/core/src/child-safety-policy.ts:124-124 FieldKind *)
Inductive FieldKind := KString | KNumber | KBoolean.
(** What [fields[k]] may answer: a descriptor, or something inherited by every object, of no kind. *)
(* src: packages/core/src/child-safety-policy.ts:125-125 FieldDescriptor *)
Record FieldDescriptor := { fd_kind : option FieldKind; fd_enumValues : option (list string) }.
Definition string_of (l : list string) : FieldDescriptor := {| fd_kind := Some KString; fd_enumValues := Some l |}.
Definition any_string : FieldDescriptor := {| fd_kind := Some KString; fd_enumValues := None |}.
Definition a_number : FieldDescriptor := {| fd_kind := Some KNumber; fd_enumValues := None |}.
Definition a_boolean : FieldDescriptor := {| fd_kind := Some KBoolean; fd_enumValues := None |}.
Definition inherited : FieldDescriptor := {| fd_kind := None; fd_enumValues := None |}.

(* src: packages/core/src/child-safety-policy.ts:127-137 SIGNAL_FIELDS *)
Definition SIGNAL_FIELDS : jsmap FieldDescriptor :=
  [("signalType", string_of SIGNAL_TYPES); ("riskFamily", string_of RISK_FAMILIES); ("confidenceBand", string_of CONFIDENCE_BANDS);
   ("sourceType", any_string); ("repeatedSignalCount", a_number); ("distinctSourceCount", a_number); ("signalAgeSeconds", a_number);
   ("immediateDangerFlag", a_boolean); ("ageBand", string_of AGE_BANDS)].
(* src: packages/core/src/child-safety-policy.ts:138-152 INCIDENT_FIELDS *)
Definition INCIDENT_FIELDS : jsmap FieldDescriptor :=
  [("severity", string_of SEVERITIES); ("urgency", string_of URGENCIES); ("incidentStatus", string_of INCIDENT_STATUSES);
   ("riskFamily", string_of RISK_FAMILIES); ("signalCount", a_number); ("previousEscalationCount", a_number);
   ("hasActiveEscalation", a_boolean); ("hasActiveProtectionPlan", a_boolean); ("reviewerAssigned", a_boolean);
   ("guardianAuthorityState", string_of GUARDIAN_AUTHORITY_STATES); ("evidenceCount", a_number); ("ageBand", string_of AGE_BANDS);
   ("immediateDangerFlag", a_boolean)].
(* src: packages/core/src/child-safety-policy.ts:156-158 policyFieldsFor *)
Definition policyFieldsFor (purpose : ChildSafetyPolicyPurpose) : jsmap FieldDescriptor :=
  match purpose with SignalTriage => SIGNAL_FIELDS | _ => INCIDENT_FIELDS end.
(** [fields[k]]: own, else inherited from every object. *)
Definition descriptor (fields : jsmap FieldDescriptor) (k : string) : option FieldDescriptor :=
  or_else (map_get fields k) (if includes object_prototype_keys k then Some inherited else None).

(** * Policy definitions *)

(** A leaf's value is compared as it came. *)
(* src: packages/core/src/child-safety-policy.ts:164-164 PolicyConditionLeaf *)
Record PolicyConditionLeaf := { lf_field : string; lf_operator : PolicyOperator; lf_value : raw_value }.
(* src: packages/core/src/child-safety-policy.ts:166-166 PolicyConditionNode *)
Inductive PolicyConditionNode := CondLeaf (leaf : PolicyConditionLeaf) | CondGroup (group : PolicyConditionGroupKind) (nodes : list PolicyConditionNode).
(** The keys an effect's payload may carry. *)
Record EffectPayload := { pl_severity : option string; pl_urgency : option string; pl_level : option string;
  pl_actionType : option string; pl_reasonCode : option string; pl_requiresApproval : option bool;
  pl_interventionType : option string; pl_maxSeverity : option string; pl_maxUrgency : option string; pl_prerequisites : option (list string) }.
(* src: packages/core/src/child-safety-policy.ts:167-167 PolicyEffect *)
Record PolicyEffect := { ef_type : PolicyEffectType; ef_payload : EffectPayload }.
(* src: packages/core/src/child-safety-policy.ts:168-171 PolicyRule *)
Record PolicyRule := { ru_id : string; ru_priority : Q; ru_enabled : bool; ru_condition : PolicyConditionNode;
  ru_effects : list PolicyEffect; ru_explanationCode : string }.
(* src: packages/core/src/child-safety-policy.ts:172-177 ChildSafetyPolicyDefinition *)
Record ChildSafetyPolicyDefinition := { df_schemaVersion : Q; df_purpose : ChildSafetyPolicyPurpose;
  df_defaultEffect : PolicyEffectType; df_rules : list PolicyRule }.

(** * Validation *)

(** [x.k] where [x] may be anything; no key that is read here is inherited or an index. *)
Definition prop (v : raw_value) (k : string) : raw_value := match v with VObject fields => field fields k | _ => VUndefined end.
(** [x && typeof x === 'object'] *)
Definition is_object (v : raw_value) : bool := match v with VObject _ | VArray _ => true | _ => false end.

(** The key a value is as a property name. The text of a number is the name of no field of this
    module; an object whose own toString is not a function (JSON has none) has no text. *)
Inductive property_name := Named (k : string) | Numeric | Unconvertible.
Fixpoint to_key (v : raw_value) : property_name :=
  match v with
  | VUndefined => Named "undefined"
  | VNull => Named "null"
  | VBool b => Named (if b then "true" else "false")
  | VNumber _ => Numeric
  | VString s => Named s
  | VArray l =>
      (fix join (first : bool) (acc : string) (numeric : bool) (l : list raw_value) : property_name :=
        match l with
        | [] => if numeric then Numeric else Named acc
        | x :: r =>
            let sep := if first then "" else "," in
            if is_nullish x then join false (acc +:+ sep) numeric r
            else match to_key x with
                 | Named t => join false (acc +:+ sep +:+ t) numeric r
                 | Numeric => join false (acc +:+ sep) true r
                 | Unconvertible => Unconvertible
                 end
        end) true "" false l
  | VObject fields => match map_get fields "toString" with Some _ => Unconvertible | None => Named "[object Object]" end
  end.

Inductive EffectError := bad_type | payload_unknown_key (k : string) | payload_index (n : nat) | payload_not_allowed | payload_bad (k : string).
Inductive RuleError :=
| rule_invalid | bad_id | bad_priority | bad_enabled | bad_explanation | no_effects | too_many_effects
| effect_error (j : nat) (e : EffectError)
| too_deep | too_many_conditions | bad_condition | bad_group | empty_group
| unknown_field | unknown_operator | unexpected_value | numeric_op_non_numeric_field | bad_in_value | bad_in_member | bad_value.
Inductive PolicyError :=
| definition_too_large | definition_unserializable | not_an_object | bad_schema_version | bad_purpose | bad_default_effect
| rules_not_array | too_many_rules | duplicate_rule_id (id : string) | rule_error (i : nat) (e : RuleError).
(* src: packages/core/src/child-safety-policy.ts:186-186 ChildSafetyPolicyValidationResult *)
Record ChildSafetyPolicyValidationResult := { valid : bool; errors : list PolicyError; ruleCount : Z }.
Inductive js_error := TypeError.

(** [if (b) err(e)]; of all errors the first hundred are kept. *)
Definition max_errors : nat := 100.
Definition when {E} (b : bool) (e : E) : list E := if b then [e] else [].

(** [Object.keys] of a payload: of an array and of a string the indices. *)
Definition payload_keys (p : raw_value) : list EffectError :=
  match p with
  | VObject fields => map payload_unknown_key (map_keys fields)
  | VArray l => map payload_index (seq 0 (length l))
  | VString s => map payload_index (seq 0 (String.length s))
  | _ => []
  end.
(* src: packages/core/src/child-safety-policy.ts:224-226 onlyKeys *)
Definition onlyKeys (p : raw_value) (keys : list string) : list EffectError :=
  List.filter (fun e => match e with payload_unknown_key k => negb (includes keys k) | _ => true end) (payload_keys p).
(* src: packages/core/src/child-safety-policy.ts:227-229 noPayload *)
Definition noPayload (p : raw_value) : list EffectError := when (negb (length (payload_keys p) =? 0)%nat) payload_not_allowed.
(* src: packages/core/src/child-safety-policy.ts:230-232 enumKey *)
Definition enumKey (p : raw_value) (key : string) (allowed : list string) : list EffectError :=
  when (negb (includes_value allowed (prop p key))) (payload_bad key).
Definition short_string (max : Z) (v : raw_value) : bool := match v with VString s => nonempty s && (str_len s <=? max) | _ => false end.
Definition good_prerequisites (v : raw_value) : bool :=
  match v with
  | VArray l => (Z.of_nat (length l) <=? 10) && forallb (fun x => match x with VString s => str_len s <=? 64 | _ => false end) l
  | _ => false
  end.
(* src: packages/core/src/child-safety-policy.ts:194-223 EFFECT_PAYLOAD_SPECS *)
Definition EFFECT_PAYLOAD_SPECS (t : PolicyEffectType) (p : raw_value) : list EffectError :=
  match t with
  | SetRecommendedSeverity => onlyKeys p ["severity"] ++ enumKey p "severity" SEVERITIES
  | SetRecommendedUrgency => onlyKeys p ["urgency"] ++ enumKey p "urgency" URGENCIES
  | SetEscalationLevel => onlyKeys p ["level"] ++ enumKey p "level" ESCALATION_LEVELS
  | ProposeProtectionAction =>
      onlyKeys p ["actionType"; "reasonCode"; "requiresApproval"] ++ enumKey p "actionType" PROTECTION_ACTION_TYPES ++
      when (negb (short_string 64 (prop p "reasonCode"))) (payload_bad "reasonCode") ++
      when (match prop p "requiresApproval" with VBool _ => false | _ => true end) (payload_bad "requiresApproval")
  | AllowAutomaticIntervention =>
      onlyKeys p ["interventionType"; "maxSeverity"; "maxUrgency"; "prerequisites"] ++ enumKey p "interventionType" INTERVENTION_TYPES ++
      enumKey p "maxSeverity" SEVERITIES ++ enumKey p "maxUrgency" URGENCIES ++
      when (negb (good_prerequisites (prop p "prerequisites"))) (payload_bad "prerequisites")
  | _ => noPayload p
  end.
Definition payload_of (e : raw_value) : raw_value := let p := prop e "payload" in if is_nullish p then VObject [] else p.
(* src: packages/core/src/child-safety-policy.ts:262-263 validateChildSafetyPolicyDefinition *)
Definition effect_errors (e : raw_value) : list EffectError :=
  match parse_value (A := PolicyEffectType) (prop e "type") with
  | Some t => EFFECT_PAYLOAD_SPECS t (payload_of e)
  | None => [bad_type]
  end.

(* src: packages/core/src/child-safety-policy.ts:190-190 NUMERIC_OPERATORS *)
Definition numeric_operator (o : PolicyOperator) : bool :=
  match o with OpGreaterThan | OpGreaterThanOrEqual | OpLessThan | OpLessThanOrEqual => true | _ => false end.
(* src: packages/core/src/child-safety-policy.ts:189-189 ARRAY_OPERATORS *)
Definition array_operator (o : PolicyOperator) : bool := match o with OpIn | OpNotIn => true | _ => false end.
(* src: packages/core/src/child-safety-policy.ts:191-191 NO_VALUE_OPERATORS *)
Definition no_value_operator (o : PolicyOperator) : bool := match o with OpExists | OpNotExists => true | _ => false end.

(* src: packages/core/src/child-safety-policy.ts:296-301 leafValueOk *)
Definition leafValueOk (fd : FieldDescriptor) (v : raw_value) : bool :=
  match fd_kind fd with
  | Some KNumber => match v with VNumber (NFin _) => true | _ => false end
  | Some KBoolean => match v with VBool _ => true | _ => false end
  | _ => match v with
         | VString s => match fd_enumValues fd with Some l => includes l s | None => str_len s <=? 128 end
         | _ => false
         end
  end.
(* src: packages/core/src/child-safety-policy.ts:281-289 walk *)
Definition leaf_errors (fd : FieldDescriptor) (operator value : raw_value) : list RuleError :=
  match parse_value (A := PolicyOperator) operator with
  | None => [unknown_operator]
  | Some o =>
      if no_value_operator o then when (negb (is_undefined value)) unexpected_value
      else when (numeric_operator o && match fd_kind fd with Some KNumber => false | _ => true end) numeric_op_non_numeric_field ++
           if array_operator o then
             match value with
             | VArray ((_ :: _) as l) =>
                 if Z.of_nat (length l) >? POLICY_LIMITS.maxInValues then [bad_in_value]
                 else flat_map (fun v => when (negb (leafValueOk fd v)) bad_in_member) l
             | _ => [bad_in_value]
             end
           else when (negb (leafValueOk fd value)) bad_value
  end.

(** The walk of a condition counts its nodes over the whole tree; [left] levels are still allowed. *)
Record walk_state := { ws_count : Z; ws_errors : list RuleError }.
Definition walk_err (e : list RuleError) (st : walk_state) : walk_state := {| ws_count := ws_count st; ws_errors := ws_errors st ++ e |}.
Fixpoint walk_all {A} (f : A -> walk_state -> outcome walk_state js_error) (l : list A) (st : walk_state) : outcome walk_state js_error :=
  match l with [] => Ret st | x :: r => match f x st with Ret st' => walk_all f r st' | Throw e => Throw e end end.
(* src: packages/core/src/child-safety-policy.ts:268-291 walk *)
Fixpoint walk (fields : jsmap FieldDescriptor) (left : nat) (node : raw_value) (st : walk_state) : outcome walk_state js_error :=
  match left with
  | O => Ret (walk_err [too_deep] st)
  | S left' =>
      let st := {| ws_count := ws_count st + 1; ws_errors := ws_errors st |} in
      if ws_count st >? POLICY_LIMITS.maxConditionNodesPerRule then Ret (walk_err [too_many_conditions] st)
      else if negb (is_object node) then Ret (walk_err [bad_condition] st)
      else match prop node "group" with
           | VString g =>
               let st := walk_err (when (is_none (parse (A := PolicyConditionGroupKind) g)) bad_group) st in
               match prop node "nodes" with
               | VArray ((_ :: _) as l) => walk_all (walk fields left') l st
               | _ => Ret (walk_err [empty_group] st)
               end
           | _ =>
               match to_key (prop node "field") with
               | Unconvertible => Throw TypeError
               | Numeric => Ret (walk_err [unknown_field] st)
               | Named k => match descriptor fields k with
                            | None => Ret (walk_err [unknown_field] st)
                            | Some fd => Ret (walk_err (leaf_errors fd (prop node "operator") (prop node "value")) st)
                            end
               end
           end
  end.

(* src: packages/core/src/child-safety-policy.ts:258-265 validateChildSafetyPolicyDefinition *)
Definition effects_errors (v : raw_value) : list RuleError :=
  match v with
  | VArray ((_ :: _) as l) =>
      when (Z.of_nat (length l) >? POLICY_LIMITS.maxEffectsPerRule) too_many_effects ++
      concat (imap (fun j e => map (effect_error j) (effect_errors e)) l)
  | _ => [no_effects]
  end.
(** One rule after the ids of the rules before it. *)
(* src: packages/core/src/child-safety-policy.ts:251-292 validateChildSafetyPolicyDefinition *)
Definition rule_errors (fields : jsmap FieldDescriptor) (i : nat) (rule : raw_value) (seenIds : list string) : outcome (list PolicyError * list string) js_error :=
  if negb (is_object rule) then Ret ([rule_error i rule_invalid], seenIds)
  else
    let '(idErrors, seenIds) := match prop rule "id" with
      | VString id => if nonempty id && (str_len id <=? POLICY_LIMITS.maxRuleIdLen)
                      then (when (includes seenIds id) (duplicate_rule_id id), set_add seenIds id) else ([rule_error i bad_id], seenIds)
      | _ => ([rule_error i bad_id], seenIds) end in
    let fixed := when (match prop rule "priority" with VNumber (NFin _) => false | _ => true end) bad_priority ++
      when (match prop rule "enabled" with VBool _ => false | _ => true end) bad_enabled ++
      when (negb (short_string POLICY_LIMITS.maxExplanationCodeLen (prop rule "explanationCode"))) bad_explanation ++
      effects_errors (prop rule "effects") in
    match walk fields POLICY_LIMITS.maxNestingDepth (prop rule "condition") {| ws_count := 0; ws_errors := [] |} with
    | Throw e => Throw e
    | Ret st => Ret (idErrors ++ map (rule_error i) (fixed ++ ws_errors st), seenIds)
    end.
(* src: packages/core/src/child-safety-policy.ts:250-293 validateChildSafetyPolicyDefinition *)
Fixpoint rules_errors (fields : jsmap FieldDescriptor) (i : nat) (rules : list raw_value) (seenIds : list string) : outcome (list PolicyError) js_error :=
  match rules with
  | [] => Ret []
  | rule :: rest =>
      match rule_errors fields i rule seenIds with
      | Throw e => Throw e
      | Ret (es, seenIds') => match rules_errors fields (S i) rest seenIds' with Ret es' => Ret (es ++ es') | Throw e => Throw e end
      end
  end.

Section Text.
Context (number_string : Q -> string).

(* src: packages/core/src/child-safety-policy.ts:234-295 validateChildSafetyPolicyDefinition *)
Definition validateChildSafetyPolicyDefinition (def : raw_value) : outcome ChildSafetyPolicyValidationResult js_error :=
  let size := match stringify number_string def with
    | Some text => when (str_len text >? POLICY_LIMITS.maxDefinitionBytes) definition_too_large
    | None => [definition_unserializable] end in
  if negb (is_object def) then Ret {| valid := false; errors := [not_an_object]; ruleCount := 0 |}
  else
    let head := size ++
      when (match prop def "schemaVersion" with VNumber (NFin q) => negb (Qeq_bool q (inject_Z CHILD_SAFETY_POLICY_SCHEMA_VERSION)) | _ => true end) bad_schema_version ++
      when (is_none (isPolicyPurpose (prop def "purpose"))) bad_purpose ++
      when (is_none (parse_value (A := PolicyEffectType) (prop def "defaultEffect"))) bad_default_effect in
    match prop def "rules" with
    | VArray rules =>
        let fields := match isPolicyPurpose (prop def "purpose") with Some p => policyFieldsFor p | None => [] end in
        match rules_errors fields 0 rules [] with
        | Throw e => Throw e
        | Ret es =>
            let errors := take max_errors (head ++ when (Z.of_nat (length rules) >? POLICY_LIMITS.maxRules) too_many_rules ++ es) in
            Ret {| valid := (length errors =? 0)%nat; errors := errors; ruleCount := Z.of_nat (length rules) |}
        end
    | _ => Ret {| valid := false; errors := head ++ [rules_not_array]; ruleCount := 0 |}
    end.
End Text.

(** * The typed view of a definition

    [def as ChildSafetyPolicyDefinition]: the reads of the evaluation, with the types they have
    there; [None] where a read would find something else. *)

Definition as_string (v : raw_value) : option string := match v with VString s => Some s | _ => None end.
Definition as_bool (v : raw_value) : option bool := match v with VBool b => Some b | _ => None end.
Definition as_finite (v : raw_value) : option Q := match v with VNumber (NFin q) => Some q | _ => None end.
Definition as_array (v : raw_value) : option (list raw_value) := match v with VArray l => Some l | _ => None end.
Fixpoint all_some {A} (l : list (option A)) : option (list A) :=
  match l with [] => Some [] | None :: _ => None | Some a :: r => option_map (cons a) (all_some r) end.
Definition read_all {A} (f : raw_value -> option A) (v : raw_value) : option (list A) :=
  match v with VArray l => all_some (map f l) | _ => None end.

Fixpoint read_node (left : nat) (node : raw_value) : option PolicyConditionNode :=
  match left with
  | O => None
  | S left' =>
      match prop node "group" with
      | VString g =>
          match parse g, read_all (read_node left') (prop node "nodes") with
          | Some k, Some l => Some (CondGroup k l)
          | _, _ => None
          end
      | _ =>
          match to_key (prop node "field"), parse_value (prop node "operator") with
          | Named k, Some o => Some (CondLeaf {| lf_field := k; lf_operator := o; lf_value := prop node "value" |})
          | _, _ => None
          end
      end
  end.
Definition read_payload (p : raw_value) : EffectPayload :=
  {| pl_severity := as_string (prop p "severity"); pl_urgency := as_string (prop p "urgency"); pl_level := as_string (prop p "level");
     pl_actionType := as_string (prop p "actionType"); pl_reasonCode := as_string (prop p "reasonCode");
     pl_requiresApproval := as_bool (prop p "requiresApproval"); pl_interventionType := as_string (prop p "interventionType");
     pl_maxSeverity := as_string (prop p "maxSeverity"); pl_maxUrgency := as_string (prop p "maxUrgency");
     pl_prerequisites := read_all as_string (prop p "prerequisites") |}.
Definition read_effect (e : raw_value) : option PolicyEffect :=
  option_map (fun t => {| ef_type := t; ef_payload := read_payload (payload_of e) |}) (parse_value (prop e "type")).
Definition read_rule (r : raw_value) : option PolicyRule :=
  match as_string (prop r "id"), as_finite (prop r "priority"), as_bool (prop r "enabled"),
        read_node POLICY_LIMITS.maxNestingDepth (prop r "condition"), read_all read_effect (prop r "effects"), as_string (prop r "explanationCode") with
  | Some id, Some priority, Some enabled, Some condition, Some effects, Some code =>
      Some {| ru_id := id; ru_priority := priority; ru_enabled := enabled; ru_condition := condition; ru_effects := effects; ru_explanationCode := code |}
  | _, _, _, _, _, _ => None
  end.
Definition read_definition (def : raw_value) : option ChildSafetyPolicyDefinition :=
  match as_finite (prop def "schemaVersion"), isPolicyPurpose (prop def "purpose"), parse_value (prop def "defaultEffect"),
        read_all read_rule (prop def "rules") with
  | Some v, Some p, Some e, Some rules => Some {| df_schemaVersion := v; df_purpose := p; df_defaultEffect := e; df_rules := rules |}
  | _, _, _, _ => None
  end.

(** * Evaluation *)

(** [v === w] between a fact and a value of a policy: arrays and objects are never the same one. *)
Definition strict_equal (v w : raw_value) : bool :=
  match v, w with
  | VUndefined, VUndefined | VNull, VNull => true
  | VBool a, VBool b => Bool.eqb a b
  | VNumber (NFin p), VNumber (NFin q) => Qeq_bool p q
  | VNumber NPosInf, VNumber NPosInf | VNumber NNegInf, VNumber NNegInf => true
  | VString s, VString t => s =s t
  | _, _ => false
  end.
(** [l.includes(v)], for which NaN is NaN. *)
Definition same_value_zero (v w : raw_value) : bool := match v, w with VNumber NNaN, VNumber NNaN => true | _, _ => strict_equal v w end.
Definition includes_raw (l : list raw_value) (v : raw_value) : bool := existsb (same_value_zero v) l.
(** [a < b] and [a <= b] on numbers. *)
Definition num_lt (a b : js_number) : bool :=
  match a, b with
  | NNaN, _ | _, NNaN => false
  | NFin p, NFin q => negb (Qle_bool q p)
  | NNegInf, NNegInf => false | NNegInf, _ => true
  | _, NPosInf => match a with NPosInf => false | _ => true end
  | _, _ => false
  end.
Definition num_le (a b : js_number) : bool :=
  match a, b with
  | NNaN, _ | _, NNaN => false
  | NFin p, NFin q => Qle_bool p q
  | NNegInf, _ => true | _, NPosInf => true
  | _, _ => false
  end.
Definition compare (f : js_number -> js_number -> bool) (v w : raw_value) : bool :=
  match v, w with VNumber a, VNumber b => f a b | _, _ => false end.
(** [facts[k]]: own, else what every object inherits (some object that equals no policy value). *)
Definition fact (facts : jsmap raw_value) (k : string) : raw_value :=
  match map_get facts k with Some v => v | None => if includes object_prototype_keys k then VObject [] else VUndefined end.

(* src: packages/core/src/child-safety-policy.ts:379-394 evalLeaf *)
Definition evalLeaf (leaf : PolicyConditionLeaf) (facts : jsmap raw_value) : bool :=
  let v := fact facts (lf_field leaf) in
  let w := lf_value leaf in
  match lf_operator leaf with
  | OpExists => negb (is_nullish v)
  | OpNotExists => is_nullish v
  | OpEquals => strict_equal v w
  | OpNotEquals => negb (strict_equal v w)
  | OpIn => match w with VArray l => includes_raw l v | _ => false end
  | OpNotIn => match w with VArray l => negb (includes_raw l v) | _ => false end
  | OpGreaterThan => compare num_lt w v
  | OpGreaterThanOrEqual => compare num_le w v
  | OpLessThan => compare num_lt v w
  | OpLessThanOrEqual => compare num_le v w
  end.
(* src: packages/core/src/child-safety-policy.ts:395-402 evalNode *)
Fixpoint evalNode (node : PolicyConditionNode) (facts : jsmap raw_value) : bool :=
  match node with
  | CondLeaf leaf => evalLeaf leaf facts
  | CondGroup _ [] => false
  | CondGroup GroupAll nodes => forallb (fun n => evalNode n facts) nodes
  | CondGroup GroupAny nodes => existsb (fun n => evalNode n facts) nodes
  end.

Record ProposedAction := { pa_actionType : string; pa_reasonCode : string; pa_requiresApproval : bool }.
Record InterventionBounds := { ib_interventionType : string; ib_maxSeverity : string; ib_maxUrgency : string; ib_prerequisites : list string }.
(* src: packages/core/src/child-safety-policy.ts:328-346 ChildSafetyPolicyEngineDecision *)
Record ChildSafetyPolicyEngineDecision := { d_purpose : ChildSafetyPolicyPurpose; createIncident : bool; updateIncident : bool; recommendedSeverity : option string; recommendedUrgency : option string; requireReview : bool; requireSupervisorReview : bool; recommendEscalation : bool; escalationLevel : option string; proposeProtectionPlan : bool; proposedActions : list ProposedAction; allowAutomaticIntervention : bool; automaticInterventionBounds : list InterventionBounds; requireManualInterventionApproval : bool; allowGuardianContactConsideration : bool; prohibitGuardianContact : bool; manualOnly : bool }.
(* src: packages/core/src/child-safety-policy.ts:360-365 emptyDecision *)
Definition emptyDecision (purpose : ChildSafetyPolicyPurpose) : ChildSafetyPolicyEngineDecision :=
  {| d_purpose := purpose; createIncident := false; updateIncident := false; recommendedSeverity := None; recommendedUrgency := None;
     requireReview := false; requireSupervisorReview := false; recommendEscalation := false; escalationLevel := None;
     proposeProtectionPlan := false; proposedActions := []; allowAutomaticIntervention := false; automaticInterventionBounds := [];
     requireManualInterventionApproval := false; allowGuardianContactConsideration := false; prohibitGuardianContact := false; manualOnly := false |}.
(** Assignments to one field. *)
Definition set_createIncident (v : bool) (d : ChildSafetyPolicyEngineDecision) : ChildSafetyPolicyEngineDecision :=
  {| d_purpose := d_purpose d; createIncident := v; updateIncident := updateIncident d; recommendedSeverity := recommendedSeverity d; recommendedUrgency := recommendedUrgency d; requireReview := requireReview d; requireSupervisorReview := requireSupervisorReview d; recommendEscalation := recommendEscalation d; escalationLevel := escalationLevel d; proposeProtectionPlan := proposeProtectionPlan d; proposedActions := proposedActions d; allowAutomaticIntervention := allowAutomaticIntervention d; automaticInterventionBounds := automaticInterventionBounds d; requireManualInterventionApproval := requireManualInterventionApproval d; allowGuardianContactConsideration := allowGuardianContactConsideration d; prohibitGuardianContact := prohibitGuardianContact d; manualOnly := manualOnly d |}.
Definition set_updateIncident (v : bool) (d : ChildSafetyPolicyEngineDecision) : ChildSafetyPolicyEngineDecision :=
  {| d_purpose := d_purpose d; createIncident := createIncident d; updateIncident := v; recommendedSeverity := recommendedSeverity d; recommendedUrgency := recommendedUrgency d; requireReview := requireReview d; requireSupervisorReview := requireSupervisorReview d; recommendEscalation := recommendEscalation d; escalationLevel := escalationLevel d; proposeProtectionPlan := proposeProtectionPlan d; proposedActions := proposedActions d; allowAutomaticIntervention := allowAutomaticIntervention d; automaticInterventionBounds := automaticInterventionBounds d; requireManualInterventionApproval := requireManualInterventionApproval d; allowGuardianContactConsideration := allowGuardianContactConsideration d; prohibitGuardianContact := prohibitGuardianContact d; manualOnly := manualOnly d |}.
Definition set_recommendedSeverity (v : option string) (d : ChildSafetyPolicyEngineDecision) : ChildSafetyPolicyEngineDecision :=
  {| d_purpose := d_purpose d; createIncident := createIncident d; updateIncident := updateIncident d; recommendedSeverity := v; recommendedUrgency := recommendedUrgency d; requireReview := requireReview d; requireSupervisorReview := requireSupervisorReview d; recommendEscalation := recommendEscalation d; escalationLevel := escalationLevel d; proposeProtectionPlan := proposeProtectionPlan d; proposedActions := proposedActions d; allowAutomaticIntervention := allowAutomaticIntervention d; automaticInterventionBounds := automaticInterventionBounds d; requireManualInterventionApproval := requireManualInterventionApproval d; allowGuardianContactConsideration := allowGuardianContactConsideration d; prohibitGuardianContact := prohibitGuardianContact d; manualOnly := manualOnly d |}.
Definition set_recommendedUrgency (v : option string) (d : ChildSafetyPolicyEngineDecision) : ChildSafetyPolicyEngineDecision :=
  {| d_purpose := d_purpose d; createIncident := createIncident d; updateIncident := updateIncident d; recommendedSeverity := recommendedSeverity d; recommendedUrgency := v; requireReview := requireReview d; requireSupervisorReview := requireSupervisorReview d; recommendEscalation := recommendEscalation d; escalationLevel := escalationLevel d; proposeProtectionPlan := proposeProtectionPlan d; proposedActions := proposedActions d; allowAutomaticIntervention := allowAutomaticIntervention d; automaticInterventionBounds := automaticInterventionBounds d; requireManualInterventionApproval := requireManualInterventionApproval d; allowGuardianContactConsideration := allowGuardianContactConsideration d; prohibitGuardianContact := prohibitGuardianContact d; manualOnly := manualOnly d |}.
Definition set_requireReview (v : bool) (d : ChildSafetyPolicyEngineDecision) : ChildSafetyPolicyEngineDecision :=
  {| d_purpose := d_purpose d; createIncident := createIncident d; updateIncident := updateIncident d; recommendedSeverity := recommendedSeverity d; recommendedUrgency := recommendedUrgency d; requireReview := v; requireSupervisorReview := requireSupervisorReview d; recommendEscalation := recommendEscalation d; escalationLevel := escalationLevel d; proposeProtectionPlan := proposeProtectionPlan d; proposedActions := proposedActions d; allowAutomaticIntervention := allowAutomaticIntervention d; automaticInterventionBounds := automaticInterventionBounds d; requireManualInterventionApproval := requireManualInterventionApproval d; allowGuardianContactConsideration := allowGuardianContactConsideration d; prohibitGuardianContact := prohibitGuardianContact d; manualOnly := manualOnly d |}.
Definition set_requireSupervisorReview (v : bool) (d : ChildSafetyPolicyEngineDecision) : ChildSafetyPolicyEngineDecision :=
  {| d_purpose := d_purpose d; createIncident := createIncident d; updateIncident := updateIncident d; recommendedSeverity := recommendedSeverity d; recommendedUrgency := recommendedUrgency d; requireReview := requireReview d; requireSupervisorReview := v; recommendEscalation := recommendEscalation d; escalationLevel := escalationLevel d; proposeProtectionPlan := proposeProtectionPlan d; proposedActions := proposedActions d; allowAutomaticIntervention := allowAutomaticIntervention d; automaticInterventionBounds := automaticInterventionBounds d; requireManualInterventionApproval := requireManualInterventionApproval d; allowGuardianContactConsideration := allowGuardianContactConsideration d; prohibitGuardianContact := prohibitGuardianContact d; manualOnly := manualOnly d |}.
Definition set_recommendEscalation (v : bool) (d : ChildSafetyPolicyEngineDecision) : ChildSafetyPolicyEngineDecision :=
  {| d_purpose := d_purpose d; createIncident := createIncident d; updateIncident := updateIncident d; recommendedSeverity := recommendedSeverity d; recommendedUrgency := recommendedUrgency d; requireReview := requireReview d; requireSupervisorReview := requireSupervisorReview d; recommendEscalation := v; escalationLevel := escalationLevel d; proposeProtectionPlan := proposeProtectionPlan d; proposedActions := proposedActions d; allowAutomaticIntervention := allowAutomaticIntervention d; automaticInterventionBounds := automaticInterventionBounds d; requireManualInterventionApproval := requireManualInterventionApproval d; allowGuardianContactConsideration := allowGuardianContactConsideration d; prohibitGuardianContact := prohibitGuardianContact d; manualOnly := manualOnly d |}.
Definition set_escalationLevel (v : option string) (d : ChildSafetyPolicyEngineDecision) : ChildSafetyPolicyEngineDecision :=
  {| d_purpose := d_purpose d; createIncident := createIncident d; updateIncident := updateIncident d; recommendedSeverity := recommendedSeverity d; recommendedUrgency := recommendedUrgency d; requireReview := requireReview d; requireSupervisorReview := requireSupervisorReview d; recommendEscalation := recommendEscalation d; escalationLevel := v; proposeProtectionPlan := proposeProtectionPlan d; proposedActions := proposedActions d; allowAutomaticIntervention := allowAutomaticIntervention d; automaticInterventionBounds := automaticInterventionBounds d; requireManualInterventionApproval := requireManualInterventionApproval d; allowGuardianContactConsideration := allowGuardianContactConsideration d; prohibitGuardianContact := prohibitGuardianContact d; manualOnly := manualOnly d |}.
Definition set_proposeProtectionPlan (v : bool) (d : ChildSafetyPolicyEngineDecision) : ChildSafetyPolicyEngineDecision :=
  {| d_purpose := d_purpose d; createIncident := createIncident d; updateIncident := updateIncident d; recommendedSeverity := recommendedSeverity d; recommendedUrgency := recommendedUrgency d; requireReview := requireReview d; requireSupervisorReview := requireSupervisorReview d; recommendEscalation := recommendEscalation d; escalationLevel := escalationLevel d; proposeProtectionPlan := v; proposedActions := proposedActions d; allowAutomaticIntervention := allowAutomaticIntervention d; automaticInterventionBounds := automaticInterventionBounds d; requireManualInterventionApproval := requireManualInterventionApproval d; allowGuardianContactConsideration := allowGuardianContactConsideration d; prohibitGuardianContact := prohibitGuardianContact d; manualOnly := manualOnly d |}.
Definition set_proposedActions (v : list ProposedAction) (d : ChildSafetyPolicyEngineDecision) : ChildSafetyPolicyEngineDecision :=
  {| d_purpose := d_purpose d; createIncident := createIncident d; updateIncident := updateIncident d; recommendedSeverity := recommendedSeverity d; recommendedUrgency := recommendedUrgency d; requireReview := requireReview d; requireSupervisorReview := requireSupervisorReview d; recommendEscalation := recommendEscalation d; escalationLevel := escalationLevel d; proposeProtectionPlan := proposeProtectionPlan d; proposedActions := v; allowAutomaticIntervention := allowAutomaticIntervention d; automaticInterventionBounds := automaticInterventionBounds d; requireManualInterventionApproval := requireManualInterventionApproval d; allowGuardianContactConsideration := allowGuardianContactConsideration d; prohibitGuardianContact := prohibitGuardianContact d; manualOnly := manualOnly d |}.
Definition set_allowAutomaticIntervention (v : bool) (d : ChildSafetyPolicyEngineDecision) : ChildSafetyPolicyEngineDecision :=
  {| d_purpose := d_purpose d; createIncident := createIncident d; updateIncident := updateIncident d; recommendedSeverity := recommendedSeverity d; recommendedUrgency := recommendedUrgency d; requireReview := requireReview d; requireSupervisorReview := requireSupervisorReview d; recommendEscalation := recommendEscalation d; escalationLevel := escalationLevel d; proposeProtectionPlan := proposeProtectionPlan d; proposedActions := proposedActions d; allowAutomaticIntervention := v; automaticInterventionBounds := automaticInterventionBounds d; requireManualInterventionApproval := requireManualInterventionApproval d; allowGuardianContactConsideration := allowGuardianContactConsideration d; prohibitGuardianContact := prohibitGuardianContact d; manualOnly := manualOnly d |}.
Definition set_automaticInterventionBounds (v : list InterventionBounds) (d : ChildSafetyPolicyEngineDecision) : ChildSafetyPolicyEngineDecision :=
  {| d_purpose := d_purpose d; createIncident := createIncident d; updateIncident := updateIncident d; recommendedSeverity := recommendedSeverity d; recommendedUrgency := recommendedUrgency d; requireReview := requireReview d; requireSupervisorReview := requireSupervisorReview d; recommendEscalation := recommendEscalation d; escalationLevel := escalationLevel d; proposeProtectionPlan := proposeProtectionPlan d; proposedActions := proposedActions d; allowAutomaticIntervention := allowAutomaticIntervention d; automaticInterventionBounds := v; requireManualInterventionApproval := requireManualInterventionApproval d; allowGuardianContactConsideration := allowGuardianContactConsideration d; prohibitGuardianContact := prohibitGuardianContact d; manualOnly := manualOnly d |}.
Definition set_requireManualInterventionApproval (v : bool) (d : ChildSafetyPolicyEngineDecision) : ChildSafetyPolicyEngineDecision :=
  {| d_purpose := d_purpose d; createIncident := createIncident d; updateIncident := updateIncident d; recommendedSeverity := recommendedSeverity d; recommendedUrgency := recommendedUrgency d; requireReview := requireReview d; requireSupervisorReview := requireSupervisorReview d; recommendEscalation := recommendEscalation d; escalationLevel := escalationLevel d; proposeProtectionPlan := proposeProtectionPlan d; proposedActions := proposedActions d; allowAutomaticIntervention := allowAutomaticIntervention d; automaticInterventionBounds := automaticInterventionBounds d; requireManualInterventionApproval := v; allowGuardianContactConsideration := allowGuardianContactConsideration d; prohibitGuardianContact := prohibitGuardianContact d; manualOnly := manualOnly d |}.
Definition set_allowGuardianContactConsideration (v : bool) (d : ChildSafetyPolicyEngineDecision) : ChildSafetyPolicyEngineDecision :=
  {| d_purpose := d_purpose d; createIncident := createIncident d; updateIncident := updateIncident d; recommendedSeverity := recommendedSeverity d; recommendedUrgency := recommendedUrgency d; requireReview := requireReview d; requireSupervisorReview := requireSupervisorReview d; recommendEscalation := recommendEscalation d; escalationLevel := escalationLevel d; proposeProtectionPlan := proposeProtectionPlan d; proposedActions := proposedActions d; allowAutomaticIntervention := allowAutomaticIntervention d; automaticInterventionBounds := automaticInterventionBounds d; requireManualInterventionApproval := requireManualInterventionApproval d; allowGuardianContactConsideration := v; prohibitGuardianContact := prohibitGuardianContact d; manualOnly := manualOnly d |}.
Definition set_prohibitGuardianContact (v : bool) (d : ChildSafetyPolicyEngineDecision) : ChildSafetyPolicyEngineDecision :=
  {| d_purpose := d_purpose d; createIncident := createIncident d; updateIncident := updateIncident d; recommendedSeverity := recommendedSeverity d; recommendedUrgency := recommendedUrgency d; requireReview := requireReview d; requireSupervisorReview := requireSupervisorReview d; recommendEscalation := recommendEscalation d; escalationLevel := escalationLevel d; proposeProtectionPlan := proposeProtectionPlan d; proposedActions := proposedActions d; allowAutomaticIntervention := allowAutomaticIntervention d; automaticInterventionBounds := automaticInterventionBounds d; requireManualInterventionApproval := requireManualInterventionApproval d; allowGuardianContactConsideration := allowGuardianContactConsideration d; prohibitGuardianContact := v; manualOnly := manualOnly d |}.
Definition set_manualOnly (v : bool) (d : ChildSafetyPolicyEngineDecision) : ChildSafetyPolicyEngineDecision :=
  {| d_purpose := d_purpose d; createIncident := createIncident d; updateIncident := updateIncident d; recommendedSeverity := recommendedSeverity d; recommendedUrgency := recommendedUrgency d; requireReview := requireReview d; requireSupervisorReview := requireSupervisorReview d; recommendEscalation := recommendEscalation d; escalationLevel := escalationLevel d; proposeProtectionPlan := proposeProtectionPlan d; proposedActions := proposedActions d; allowAutomaticIntervention := allowAutomaticIntervention d; automaticInterventionBounds := automaticInterventionBounds d; requireManualInterventionApproval := requireManualInterventionApproval d; allowGuardianContactConsideration := allowGuardianContactConsideration d; prohibitGuardianContact := prohibitGuardianContact d; manualOnly := v |}.

(** The decision while effects are collected, with the two maps by type. *)
Record merge_state := { ms_decision : ChildSafetyPolicyEngineDecision; ms_actions : jsmap ProposedAction; ms_bounds : jsmap InterventionBounds }.
Definition on_decision (f : ChildSafetyPolicyEngineDecision -> ChildSafetyPolicyEngineDecision) (m : merge_state) : merge_state :=
  {| ms_decision := f (ms_decision m); ms_actions := ms_actions m; ms_bounds := ms_bounds m |}.
(** The recommendation [x] replaces a lower one. *)
Definition raise (rank : string -> Z) (x current : option string) : option string :=
  match x with
  | Some s => match current with
              | None => Some s
              | Some c => if rank s >? rank c then Some s else current
              end
  | None => current
  end.
Definition sorted_strings (l : list string) : list string := js_sort code_unit_cmp l.
(* src: packages/core/src/child-safety-policy.ts:473-477 mergeEffects *)
Definition propose (p : EffectPayload) (m : merge_state) : merge_state :=
  let at_ := pl_actionType p ?? "" in
  if negb (nonempty at_) then m else
  let existing := map_get (ms_actions m) at_ in
  let requiresApproval := (pl_requiresApproval p ?? false) || match existing with Some a => pa_requiresApproval a | None => false end in
  {| ms_decision := ms_decision m; ms_bounds := ms_bounds m;
     ms_actions := map_set (ms_actions m) at_ {| pa_actionType := at_; pa_requiresApproval := requiresApproval;
       pa_reasonCode := or_else (pl_reasonCode p) (option_map pa_reasonCode existing) ?? "" |} |}.
(* src: packages/core/src/child-safety-policy.ts:480-483 mergeEffects *)
Definition allow_automatic (p : EffectPayload) (m : merge_state) : merge_state :=
  let it := pl_interventionType p ?? "" in
  if negb (nonempty it) then m else
  {| ms_decision := set_allowAutomaticIntervention true (ms_decision m); ms_actions := ms_actions m;
     ms_bounds := map_set (ms_bounds m) it {| ib_interventionType := it; ib_maxSeverity := pl_maxSeverity p ?? "low";
       ib_maxUrgency := pl_maxUrgency p ?? "routine"; ib_prerequisites := sorted_strings (pl_prerequisites p ?? []) |} |}.
(* src: packages/core/src/child-safety-policy.ts:458-490 mergeEffects *)
Definition merge_effect (m : merge_state) (e : PolicyEffect) : merge_state :=
  let p := ef_payload e in
  match ef_type e with
  | CreateIncident => on_decision (set_createIncident true) m
  | UpdateIncident => on_decision (set_updateIncident true) m
  | SetRecommendedSeverity => on_decision (fun d => set_recommendedSeverity (raise SEVERITY_RANK (pl_severity p) (recommendedSeverity d)) d) m
  | SetRecommendedUrgency => on_decision (fun d => set_recommendedUrgency (raise URGENCY_RANK (pl_urgency p) (recommendedUrgency d)) d) m
  | RequireReview => on_decision (set_requireReview true) m
  | RequireSupervisorReview => on_decision (fun d => set_requireReview true (set_requireSupervisorReview true d)) m
  | CreateEscalationRecommendation => on_decision (set_recommendEscalation true) m
  | SetEscalationLevel => on_decision (fun d => set_escalationLevel (raise ESCALATION_RANK (pl_level p) (escalationLevel d)) d) m
  | ProposeProtectionPlan => on_decision (set_proposeProtectionPlan true) m
  | ProposeProtectionAction => propose p m
  | AllowAutomaticIntervention => allow_automatic p m
  | RequireManualInterventionApproval => on_decision (set_requireManualInterventionApproval true) m
  | AllowGuardianContactConsideration => on_decision (set_allowGuardianContactConsideration true) m
  | ProhibitGuardianContact => on_decision (set_prohibitGuardianContact true) m
  | ManualOnly => on_decision (set_manualOnly true) m
  | NoAction => m
  end.
(** The overrides after the collection. The types compared here are words of lower-case letters and
    underscores, whose collation is the order of their code units. *)
(* src: packages/core/src/child-safety-policy.ts:493-497 mergeEffects *)
Definition finish (m : merge_state) : ChildSafetyPolicyEngineDecision :=
  let d := ms_decision m in
  let d := if manualOnly d || requireManualInterventionApproval d
           then set_automaticInterventionBounds [] (set_allowAutomaticIntervention false d)
           else set_automaticInterventionBounds (js_sort (fun a b => code_unit_cmp (ib_interventionType a) (ib_interventionType b)) (map snd (ms_bounds m))) d in
  let d := if prohibitGuardianContact d then set_allowGuardianContactConsideration false d else d in
  set_proposedActions (js_sort (fun a b => code_unit_cmp (pa_actionType a) (pa_actionType b)) (map snd (ms_actions m))) d.
(* src: packages/core/src/child-safety-policy.ts:452-498 mergeEffects *)
Definition mergeEffects (purpose : ChildSafetyPolicyPurpose) (effects : list PolicyEffect) : ChildSafetyPolicyEngineDecision :=
  finish (fold_left merge_effect effects {| ms_decision := emptyDecision purpose; ms_actions := []; ms_bounds := [] |}).

(* src: packages/core/src/child-safety-policy.ts:321-326 ChildSafetyPolicyEvaluationInput *)
Record ChildSafetyPolicyEvaluationInput := { in_purpose : ChildSafetyPolicyPurpose; in_facts : jsmap raw_value; in_evaluatedAt : string; in_includeUnmatched : bool }.
(* src: packages/core/src/child-safety-policy.ts:347-358 ChildSafetyPolicyEvaluationResult *)
Record ChildSafetyPolicyEvaluationResult := { r_ok : bool; r_errorCode : option string; r_purpose : ChildSafetyPolicyPurpose;
  r_matchedRuleIds : list string; r_unmatchedRuleIds : option (list string); r_explanationCodes : list string;
  r_decision : ChildSafetyPolicyEngineDecision; r_engineVersion : string; r_evaluatedAt : string; r_canonicalInput : string }.
(* src: packages/core/src/child-safety-policy.ts:368-377 failClosedDecision *)
Definition failClosedDecision (purpose : ChildSafetyPolicyPurpose) (errorCode evaluatedAt canonicalInput : string) : ChildSafetyPolicyEvaluationResult :=
  {| r_ok := false; r_errorCode := Some errorCode; r_purpose := purpose; r_matchedRuleIds := []; r_unmatchedRuleIds := None;
     r_explanationCodes := ["policy_fail_closed"];
     r_decision := set_prohibitGuardianContact true (set_manualOnly true (set_requireReview true (emptyDecision purpose)));
     r_engineVersion := CHILD_SAFETY_POLICY_ENGINE_VERSION; r_evaluatedAt := evaluatedAt; r_canonicalInput := canonicalInput |}.

(* src: packages/core/src/child-safety-policy.ts:419-419 evaluateChildSafetyPolicy *)
Definition rule_cmp (a b : PolicyRule) : Z :=
  match (ru_priority a ?= ru_priority b)%Q with Lt => -1 | Gt => 1 | Eq => code_unit_cmp (ru_id a) (ru_id b) end.
(** The enabled rules in their order, and those of them that match. *)
(* src: packages/core/src/child-safety-policy.ts:417-419 evaluateChildSafetyPolicy *)
Definition ordered (rules : list PolicyRule) : list PolicyRule := js_sort rule_cmp (List.filter ru_enabled rules).
(* src: packages/core/src/child-safety-policy.ts:426-435 evaluateChildSafetyPolicy *)
Definition matched (facts : jsmap raw_value) (rules : list PolicyRule) : list PolicyRule :=
  List.filter (fun r => evalNode (ru_condition r) facts) (ordered rules).
Definition unmatched (facts : jsmap raw_value) (rules : list PolicyRule) : list PolicyRule :=
  List.filter (fun r => negb (evalNode (ru_condition r) facts)) (ordered rules).
Definition no_payload : EffectPayload := read_payload (VObject []).

Section Evaluate.
Context (number_string : Q -> string).
(** Only the fields of the purpose that are words, numbers or flags, in the order of their names. *)
(* src: packages/core/src/child-safety-policy.ts:308-314 canonicalPolicyInput *)
Definition canonical_facts (purpose : ChildSafetyPolicyPurpose) (facts : jsmap raw_value) : list (string * raw_value) :=
  omap (fun key => match fact facts key with
                   | VString _ as v | VNumber _ as v | VBool _ as v => Some (key, v)
                   | _ => None end)
    (sorted_strings (map_keys (policyFieldsFor purpose))).
(* src: packages/core/src/child-safety-policy.ts:307-316 canonicalPolicyInput *)
Definition canonicalPolicyInput (purpose : ChildSafetyPolicyPurpose) (facts : jsmap raw_value) : string :=
  stringify number_string (VObject
    [("p", VString (js_name purpose)); ("e", VString CHILD_SAFETY_POLICY_ENGINE_VERSION);
     ("s", VNumber (NFin (inject_Z CHILD_SAFETY_POLICY_SCHEMA_VERSION))); ("f", VObject (canonical_facts purpose facts))]) ?? "".
(* src: packages/core/src/child-safety-policy.ts:412-449 evaluateChildSafetyPolicy *)
Definition evaluateChildSafetyPolicy (input : ChildSafetyPolicyEvaluationInput) (def : ChildSafetyPolicyDefinition) : ChildSafetyPolicyEvaluationResult :=
  let facts := in_facts input in
  let canonicalInput := canonicalPolicyInput (in_purpose input) facts in
  if negb (df_purpose def =e in_purpose input) then failClosedDecision (in_purpose input) "policy_purpose_mismatch" (in_evaluatedAt input) canonicalInput
  else
    let hits := matched facts (df_rules def) in
    let none := (length hits =? 0)%nat in
    {| r_ok := true; r_errorCode := None; r_purpose := in_purpose input;
       r_matchedRuleIds := map ru_id hits;
       r_unmatchedRuleIds := if in_includeUnmatched input then Some (map ru_id (unmatched facts (df_rules def))) else None;
       r_explanationCodes := if none then ["policy_default_effect"] else js_set (map ru_explanationCode hits);
       r_decision := mergeEffects (in_purpose input)
         (if none then [{| ef_type := df_defaultEffect def; ef_payload := no_payload |}] else flat_map ru_effects hits);
       r_engineVersion := CHILD_SAFETY_POLICY_ENGINE_VERSION; r_evaluatedAt := in_evaluatedAt input; r_canonicalInput := canonicalInput |}.
End Evaluate.

(** * What validation establishes *)

Definition payload_wf (t : PolicyEffectType) (p : EffectPayload) : Prop :=
  match t with
  | SetRecommendedSeverity => exists s, pl_severity p = Some s /\ s ∈ SEVERITIES
  | SetRecommendedUrgency => exists s, pl_urgency p = Some s /\ s ∈ URGENCIES
  | SetEscalationLevel => exists s, pl_level p = Some s /\ s ∈ ESCALATION_LEVELS
  | ProposeProtectionAction => exists a r b, pl_actionType p = Some a /\ a ∈ PROTECTION_ACTION_TYPES /\
      pl_reasonCode p = Some r /\ r <> "" /\ str_len r <= 64 /\ pl_requiresApproval p = Some b
  | AllowAutomaticIntervention => exists i s u l, pl_interventionType p = Some i /\ i ∈ INTERVENTION_TYPES /\
      pl_maxSeverity p = Some s /\ s ∈ SEVERITIES /\ pl_maxUrgency p = Some u /\ u ∈ URGENCIES /\
      pl_prerequisites p = Some l /\ (length l <= 10)%nat /\ Forall (fun x => str_len x <= 64) l
  | _ => True
  end.
Definition effect_wf (e : PolicyEffect) : Prop := payload_wf (ef_type e) (ef_payload e).
(** The keys a payload may have; a flag effect has none. *)
Definition payload_allowed (t : PolicyEffectType) : list string :=
  match t with
  | SetRecommendedSeverity => ["severity"]
  | SetRecommendedUrgency => ["urgency"]
  | SetEscalationLevel => ["level"]
  | ProposeProtectionAction => ["actionType"; "reasonCode"; "requiresApproval"]
  | AllowAutomaticIntervention => ["interventionType"; "maxSeverity"; "maxUrgency"; "prerequisites"]
  | _ => []
  end.
(** A payload as it came: an object whose keys are all allowed; of a flag effect, anything without own
    keys (an absent payload, an empty object or array, a number, a flag or the empty text). *)
Definition payload_exact (t : PolicyEffectType) (p : raw_value) : Prop :=
  match p with
  | VObject fields => Forall (fun k => k ∈ payload_allowed t) (map_keys fields)
  | VArray l => payload_allowed t = [] /\ l = []
  | VString s => payload_allowed t = [] /\ s = ""
  | _ => payload_allowed t = []
  end.
Definition effect_exact (e : raw_value) : Prop :=
  exists t, parse_value (A := PolicyEffectType) (prop e "type") = Some t /\ payload_exact t (payload_of e).
Definition members (v : raw_value) : list raw_value := match v with VArray l => l | _ => [] end.
Definition rule_effects_exact (rule : raw_value) : Prop := Forall effect_exact (members (prop rule "effects")).
(** A value of the kind the operator asks for. *)
Definition value_wf (fd : FieldDescriptor) (o : PolicyOperator) (v : raw_value) : Prop :=
  if no_value_operator o then v = VUndefined
  else if array_operator o then exists l, v = VArray l /\ l <> [] /\ Z.of_nat (length l) <= POLICY_LIMITS.maxInValues /\ Forall (fun x => leafValueOk fd x = true) l
  else leafValueOk fd v = true /\ (numeric_operator o = true -> fd_kind fd = Some KNumber).
(** A leaf names a field of the purpose and compares it with values of its kind, or it names what every
    object inherits and compares it as a text. *)
Definition leaf_wf (fields : jsmap FieldDescriptor) (l : PolicyConditionLeaf) : Prop :=
  exists fd, (map_get fields (lf_field l) = Some fd \/
      map_get fields (lf_field l) = None /\ lf_field l ∈ object_prototype_keys /\ fd = inherited) /\
    value_wf fd (lf_operator l) (lf_value l).
Inductive node_wf (fields : jsmap FieldDescriptor) : nat -> PolicyConditionNode -> Prop :=
| wf_leaf n l : leaf_wf fields l -> node_wf fields (S n) (CondLeaf l)
| wf_group n k nodes : nodes <> [] -> Forall (node_wf fields n) nodes -> node_wf fields (S n) (CondGroup k nodes).
Fixpoint node_count (n : PolicyConditionNode) : Z :=
  match n with CondLeaf _ => 1 | CondGroup _ nodes => 1 + fold_right (fun c acc => node_count c + acc) 0 nodes end.
Record rule_wf (fields : jsmap FieldDescriptor) (r : PolicyRule) : Prop := {
  rw_id : ru_id r <> "" /\ str_len (ru_id r) <= POLICY_LIMITS.maxRuleIdLen;
  rw_code : ru_explanationCode r <> "" /\ str_len (ru_explanationCode r) <= POLICY_LIMITS.maxExplanationCodeLen;
  rw_condition : node_wf fields POLICY_LIMITS.maxNestingDepth (ru_condition r);
  rw_nodes : node_count (ru_condition r) <= POLICY_LIMITS.maxConditionNodesPerRule;
  rw_effects : ru_effects r <> [] /\ Z.of_nat (length (ru_effects r)) <= POLICY_LIMITS.maxEffectsPerRule /\ Forall effect_wf (ru_effects r) }.
Record definition_wf (d : ChildSafetyPolicyDefinition) : Prop := {
  dw_version : (df_schemaVersion d == inject_Z CHILD_SAFETY_POLICY_SCHEMA_VERSION)%Q;
  dw_rules : Z.of_nat (length (df_rules d)) <= POLICY_LIMITS.maxRules;
  dw_ids : NoDup (map ru_id (df_rules d));
  dw_each : Forall (rule_wf (policyFieldsFor (df_purpose d))) (df_rules d) }.

Lemma when_nil {E} (b : bool) (e : E) : when b e = [] -> b = false.
Proof. by destruct b. Qed.
Lemma short_string_true n v : short_string n v = true -> exists s, v = VString s /\ s <> "" /\ str_len s <= n.
Proof.
  destruct v; try done. cbn. intros [Hn Hl]%andb_true_iff. exists s. split; [done|]. split; [|lia].
  intros ->. done.
Qed.
Lemma includes_value_true l v : includes_value l v = true -> exists s, v = VString s /\ s ∈ l.
Proof. destruct v; try done. cbn. rewrite includes_elem. eauto. Qed.
Lemma enumKey_nil p k l : enumKey p k l = [] -> exists s, prop p k = VString s /\ s ∈ l.
Proof. unfold enumKey. intros H%when_nil%negb_false_iff. by apply includes_value_true. Qed.
Lemma all_some_map {A B} (f : A -> option B) (P : A -> Prop) (R : B -> Prop) l :
  (forall x, In x l -> P x -> exists y, f x = Some y /\ R y) -> (forall x, In x l -> P x) ->
  exists ys, all_some (map f l) = Some ys /\ Forall R ys /\ length ys = length l.
Proof.
  induction l as [|x l IH]; intros Hf HP; cbn [map all_some]; [exists []; repeat split; constructor|].
  destruct (Hf x) as (y & -> & Hy); [by left|apply HP; by left|].
  destruct IH as (ys & -> & Hys & Hlen); [intros z Hz; apply Hf; by right|intros z Hz; apply HP; by right|].
  exists (y :: ys). cbn. repeat split; [by constructor|by rewrite Hlen].
Qed.

Lemma EFFECT_PAYLOAD_SPECS_sound t p : EFFECT_PAYLOAD_SPECS t p = [] -> payload_wf t (read_payload p).
Proof.
  destruct t; cbn [EFFECT_PAYLOAD_SPECS payload_wf read_payload pl_severity pl_urgency pl_level pl_actionType pl_reasonCode pl_requiresApproval
    pl_interventionType pl_maxSeverity pl_maxUrgency pl_prerequisites]; try done.
  - intros [_ (s & -> & Hs)%enumKey_nil]%app_nil. by exists s.
  - intros [_ (s & -> & Hs)%enumKey_nil]%app_nil. by exists s.
  - intros [_ (s & -> & Hs)%enumKey_nil]%app_nil. by exists s.
  - intros [_ [(a & -> & Ha)%enumKey_nil [Hr Hb]%app_nil]%app_nil]%app_nil.
    apply when_nil, negb_false_iff, short_string_true in Hr as (r & -> & Hr & Hl). apply when_nil in Hb.
    destruct (prop p "requiresApproval") as [| |b| | | |]; try done. by exists a, r, b.
  - intros [_ [(i & -> & Hi)%enumKey_nil [(m & -> & Hm)%enumKey_nil [(u & -> & Hu)%enumKey_nil Hp]%app_nil]%app_nil]%app_nil]%app_nil.
    apply when_nil, negb_false_iff in Hp. destruct (prop p "prerequisites") as [| | | | |l|]; try done.
    cbn in Hp. apply andb_true_iff in Hp as [Hlen Hall]. rewrite forallb_forall in Hall.
    destruct (all_some_map as_string (fun x => match x with VString s => str_len s <=? 64 | _ => false end = true) (fun x => str_len x <= 64) l) as (ys & Hy & HR & HL).
    { intros x _ Hx. destruct x; try done. eexists. split; [done|]. lia. }
    { done. }
    exists i, m, u, ys. cbn [read_all]. repeat split; try done. lia.
Qed.
Lemma effect_errors_sound e : effect_errors e = [] -> exists ef, read_effect e = Some ef /\ effect_wf ef.
Proof.
  unfold effect_errors, read_effect. destruct (parse_value (prop e "type")) as [t|]; [|done].
  intros H. eexists. split; [done|]. by apply EFFECT_PAYLOAD_SPECS_sound.
Qed.
Lemma onlyKeys_nil p keys k : onlyKeys p keys = [] -> forall s, prop p k = VString s ->
  exists fields, p = VObject fields /\ Forall (fun k => k ∈ keys) (map_keys fields).
Proof.
  unfold onlyKeys. destruct p as [| | | | | |fields]; try done. intros H _ _. exists fields. split; [done|].
  cbn [payload_keys] in H. induction (map_keys fields) as [|x l IH]; [constructor|]. cbn in H.
  destruct (includes keys x) eqn:Hx; [|done]. constructor; [by apply includes_elem|by apply IH].
Qed.
Lemma noPayload_nil p : noPayload p = [] -> match p with VObject fields => map_keys fields = [] | VArray l => l = [] | VString s => s = "" | _ => True end.
Proof.
  unfold noPayload. intros H%when_nil%negb_false_iff%Nat.eqb_eq. destruct p as [| | | |s|l|fields]; try done.
  - by destruct s.
  - by destruct l.
  - cbn [payload_keys] in H. rewrite length_map in H. by apply length_zero_iff_nil.
Qed.
Lemma EFFECT_PAYLOAD_SPECS_exact t p : EFFECT_PAYLOAD_SPECS t p = [] -> payload_exact t p.
Proof.
  assert (Hflag : payload_allowed t = [] -> noPayload p = [] -> payload_exact t p).
  { intros Ht Hp%noPayload_nil. unfold payload_exact. destruct p; try done. by rewrite Hp. }
  assert (Hkeyed : forall k l more, onlyKeys p (payload_allowed t) ++ enumKey p k l ++ more = [] -> payload_exact t p).
  { intros k l more [Ho [(s & Hs & _)%enumKey_nil _]%app_nil]%app_nil. by destruct (onlyKeys_nil p _ k Ho s Hs) as (fields & -> & Hall). }
  destruct t; cbn [EFFECT_PAYLOAD_SPECS]; try (by apply Hflag); try (exact (Hkeyed _ _ _)).
  all: intros H; eapply (Hkeyed _ _ []); rewrite app_nil_r; exact H.
Qed.
Lemma effect_errors_exact e : effect_errors e = [] -> effect_exact e.
Proof.
  unfold effect_errors, effect_exact. destruct (parse_value (prop e "type")) as [t|]; [|done].
  intros H%EFFECT_PAYLOAD_SPECS_exact. by exists t.
Qed.

Lemma leaf_errors_sound fd o v : leaf_errors fd o v = [] -> exists op, parse_value o = Some op /\ value_wf fd op v.
Proof.
  unfold leaf_errors, value_wf. destruct (parse_value o) as [op|]; [|done]. intros H. exists op. split; [done|].
  destruct (no_value_operator op).
  { apply when_nil, negb_false_iff in H. by destruct v. }
  apply app_nil in H as [Hn H]. apply when_nil in Hn. destruct (array_operator op) eqn:Ha.
  - destruct v as [| | | | |[|x l]|]; try done. match type of H with (if ?b then _ else _) = _ => destruct b eqn:Hg end; [done|].
    exists (x :: l). split; [done|]. split; [done|]. split; [rewrite Z.gtb_ltb in Hg; by apply Z.ltb_ge in Hg|]. apply Forall_forall. intros y Hy.
    destruct (leafValueOk fd y) eqn:Hok; [done|]. exfalso.
    apply list_elem_of_In in Hy. assert (In bad_in_member (flat_map (fun v => when (negb (leafValueOk fd v)) bad_in_member) (x :: l))) as Hin.
    { apply in_flat_map. exists y. split; [done|]. rewrite Hok. by left. }
    rewrite H in Hin. done.
  - apply when_nil, negb_false_iff in H. split; [done|]. intros Hnum. rewrite Hnum in Hn. by destruct (fd_kind fd) as [[]|].
Qed.

Lemma walk_err_nil e st : ws_errors (walk_err e st) = [] -> e = [] /\ ws_errors st = [].
Proof. cbn. by intros [? ?]%app_nil. Qed.
Lemma walk_keeps_errors fields left node st st' : walk fields left node st = Ret st' -> ws_errors st' = [] -> ws_errors st = [].
Proof.
  revert node st st'. induction left as [|left IH]; intros node st st'; cbn [walk]; intros H He.
  { injection H as <-. by apply walk_err_nil in He as [? ?]. }
  assert (Hall : forall l s s', walk_all (walk fields left) l s = Ret s' -> ws_errors s' = [] -> ws_errors s = []).
  { induction l as [|x l IHl]; cbn [walk_all]; intros s s'; [by intros [= ->]|].
    destruct (walk fields left x s) as [s1|] eqn:Hx; [|done]. intros Hl Hs. eapply IH; [done|]. by eapply IHl. }
  repeat match type of H with
  | (if ?b then _ else _) = _ => destruct b
  | match ?x with _ => _ end = _ => destruct x
  | Ret _ = Ret _ => injection H as <-; apply walk_err_nil in He as [? ?]; done
  | Throw _ = _ => done
  end; apply Hall in H; try done; by apply walk_err_nil in H as [? ?].
Qed.
Lemma walk_all_sound fields left l st st' :
  (forall node st st', walk fields left node st = Ret st' -> ws_errors st' = [] ->
    exists n, read_node left node = Some n /\ node_wf fields left n /\ ws_count st' = ws_count st + node_count n /\ ws_count st' <= 20) ->
  walk_all (walk fields left) l st = Ret st' -> ws_errors st' = [] -> l <> [] ->
  exists ns, all_some (map (read_node left) l) = Some ns /\ ns <> [] /\ Forall (node_wf fields left) ns /\
    ws_count st' = ws_count st + fold_right (fun c acc => node_count c + acc) 0 ns /\ ws_count st' <= 20.
Proof.
  intros Hwalk. revert st. induction l as [|x l IH]; intros st; cbn [walk_all]; [done|].
  destruct (walk fields left x st) as [s1|] eqn:Hx; [|done]. intros Hl He _.
  assert (He1 : ws_errors s1 = []).
  { clear IH Hx. revert s1 Hl. induction l as [|y l IH]; cbn [walk_all]; intros s1; [by intros [= ->]|].
    destruct (walk fields left y s1) as [s2|] eqn:Hy; [|done]. intros Hl. eapply walk_keeps_errors; [done|]. by eapply IH. }
  destruct (Hwalk _ _ _ Hx He1) as (n & Hn & Hwf & Hc & Hb). cbn [map all_some]. rewrite Hn.
  destruct l as [|y l].
  - cbn in Hl. injection Hl as ->. exists [n]. cbn. repeat split; [done|by repeat constructor|lia|done].
  - destruct (IH s1) as (ns & -> & Hns & Hall & Hcount & Hbound); [done..|]. exists (n :: ns).
    repeat split; [done|by constructor|cbn [fold_right]; lia|done].
Qed.
Lemma descriptor_cases fields k fd : descriptor fields k = Some fd ->
  map_get fields k = Some fd \/ map_get fields k = None /\ k ∈ object_prototype_keys /\ fd = inherited.
Proof.
  unfold descriptor. destruct (includes object_prototype_keys k) eqn:Hk; (destruct (map_get fields k); [by left|]); intros H; [|discriminate H].
  injection H as <-. right. repeat split. by apply includes_elem.
Qed.
Lemma walk_sound fields left node st st' : walk fields left node st = Ret st' -> ws_errors st' = [] ->
  exists n, read_node left node = Some n /\ node_wf fields left n /\ ws_count st' = ws_count st + node_count n /\ ws_count st' <= 20.
Proof.
  revert node st st'. induction left as [|left IH]; intros node st st'; cbn [walk read_node]; intros H He.
  { injection H as <-. by apply walk_err_nil in He as [? ?]. }
  destruct (_ >? _) eqn:Hmax; [injection H as <-; by apply walk_err_nil in He as [? ?]|]. unfold POLICY_LIMITS.maxConditionNodesPerRule in Hmax. cbn [ws_count] in Hmax.
  destruct (negb (is_object node)) eqn:Ho; [injection H as <-; by apply walk_err_nil in He as [? ?]|].
  destruct (prop node "group") as [| | | |g| |].
  5: {
    destruct (prop node "nodes") as [| | | | |[|x l]|]; try (injection H as <-; by apply walk_err_nil in He as [? ?]).
    assert (Hg : ws_errors (walk_err (when (is_none (parse (A := PolicyConditionGroupKind) g)) bad_group) {| ws_count := ws_count st + 1; ws_errors := ws_errors st |}) = []).
    { revert H. generalize (x :: l) as nodes, (walk_err (when (is_none (parse (A := PolicyConditionGroupKind) g)) bad_group) {| ws_count := ws_count st + 1; ws_errors := ws_errors st |}) as s.
      induction nodes as [|y nodes IHl]; cbn [walk_all]; intros s; [by intros [= ->]|].
      destruct (walk fields left y s) as [s2|] eqn:Hy; [|done]. intros Hl. eapply walk_keeps_errors; [done|]. by eapply IHl. }
    apply walk_err_nil in Hg as [Hg _]. apply when_nil in Hg. destruct (parse g) as [k|]; [|done].
    destruct (walk_all_sound fields left (x :: l) _ st' IH H He) as (ns & Hns & Hne & Hall & Hc & Hb); [done|].
    cbn [read_all]. rewrite Hns. exists (CondGroup k ns). repeat split; [by constructor| |done].
    rewrite Hc. cbn [node_count walk_err ws_count]. lia. }
  all: destruct (to_key (prop node "field")) as [k| |]; try done; try (injection H as <-; by apply walk_err_nil in He as [? ?]);
    destruct (descriptor fields k) as [fd|] eqn:Hfd; injection H as <-; apply walk_err_nil in He as [He _]; try done;
    apply leaf_errors_sound in He as (op & -> & Hv); eexists; (split; [done|]); (split; [constructor; exists fd; split; [by apply (descriptor_cases fields k)|exact Hv]|]);
    cbn [walk_err ws_count node_count]; lia.
Qed.

Lemma imap_effects_nil l : concat (imap (fun j e => map (effect_error j) (effect_errors e)) l) = [] -> forall e, In e l -> effect_errors e = [].
Proof.
  intros H e (j & Hj)%list_elem_of_In%list_elem_of_lookup_1.
  destruct (effect_errors e) as [|x xs] eqn:He; [done|]. exfalso.
  assert (In (effect_error j x) (concat (imap (fun j e => map (effect_error j) (effect_errors e)) l))) as Hin; [|by rewrite H in Hin].
  apply in_concat. exists (map (effect_error j) (x :: xs)). split; [|by left].
  apply list_elem_of_In, elem_of_lookup_imap. exists j, e. by rewrite He.
Qed.
Lemma effects_errors_sound v : effects_errors v = [] ->
  (exists es, read_all read_effect v = Some es /\ es <> [] /\ Z.of_nat (length es) <= POLICY_LIMITS.maxEffectsPerRule /\ Forall effect_wf es) /\
  Forall effect_exact (members v).
Proof.
  unfold effects_errors. destruct v as [| | | | |[|x l]|]; try done. intros [Hn%when_nil Hl]%app_nil.
  split; [|apply Forall_forall; intros e He%list_elem_of_In; by apply effect_errors_exact, (imap_effects_nil (x :: l))].
  destruct (all_some_map read_effect (fun e => effect_errors e = []) effect_wf (x :: l)) as (es & Hes & Hwf & Hlen).
  { intros e _ He. by apply effect_errors_sound. }
  { by apply imap_effects_nil. }
  exists es. cbn [read_all]. rewrite Hlen. repeat split; [done|by destruct es| |done].
  rewrite Z.gtb_ltb in Hn. by apply Z.ltb_ge in Hn.
Qed.
(** Ids seen so far grow by the id of a rule without errors. *)
Lemma rule_errors_sound fields i rule seen seen' : rule_errors fields i rule seen = Ret ([], seen') ->
  rule_effects_exact rule /\ exists r, read_rule rule = Some r /\ rule_wf fields r /\ (ru_id r ∉ seen) /\ seen' = seen ++ [ru_id r].
Proof.
  unfold rule_errors. destruct (negb (is_object rule)); [done|].
  destruct (walk fields POLICY_LIMITS.maxNestingDepth (prop rule "condition") {| ws_count := 0; ws_errors := [] |}) as [st|] eqn:Hw; [|by repeat case_match].
  destruct (prop rule "id") as [| | | |id| |] eqn:Hid; try by intros [= ? _].
  destruct (_ && _) eqn:Hgood; [|by intros [= ? _]].
  intros [= [Hdup%when_nil Hrest]%app_nil <-].
  apply map_eq_nil, app_nil in Hrest as [Hfixed Hst]. apply app_nil in Hfixed as [Hp%when_nil Hfixed].
  apply app_nil in Hfixed as [He%when_nil Hfixed]. apply app_nil in Hfixed as [Hx%when_nil%negb_false_iff Heff].
  apply short_string_true in Hx as (code & Hcode & Hne & Hlen). apply effects_errors_sound in Heff as [(es & Hes & Hen & Hel & Hew) Hexact].
  split; [exact Hexact|].
  destruct (walk_sound _ _ _ _ _ Hw Hst) as (n & Hn & Hnw & Hc & Hb).
  destruct (prop rule "priority") as [| | |[| | |q]| | |] eqn:Hprio; try done. destruct (prop rule "enabled") as [| |b| | | |] eqn:Hen'; try done.
  unfold read_rule. rewrite Hid, Hprio, Hen', Hn, Hes, Hcode. cbn [as_string as_finite as_bool].
  eexists. split; [done|]. apply andb_true_iff in Hgood as [Hg1 Hg2]. cbn [ru_id].
  split; [|split; [by apply includes_not_In|]].
  - split; cbn [ru_id ru_explanationCode ru_condition ru_effects]; try done.
    + split; [by intros -> |by apply Z.leb_le].
    + unfold POLICY_LIMITS.maxConditionNodesPerRule. cbn [ws_count] in Hc. lia.
  - unfold set_add. by rewrite bool_decide_eq_false_2 by by apply includes_not_In.
Qed.
Lemma rules_errors_sound fields i rules seen : rules_errors fields i rules seen = Ret [] -> NoDup seen ->
  Forall rule_effects_exact rules /\
  exists rs, all_some (map read_rule rules) = Some rs /\ Forall (rule_wf fields) rs /\ NoDup (seen ++ map ru_id rs) /\ length rs = length rules.
Proof.
  revert i seen. induction rules as [|rule rules IH]; intros i seen; cbn [rules_errors map all_some].
  { intros _ Hs. split; [constructor|]. exists []. cbn. rewrite app_nil_r. by repeat split. }
  destruct (rule_errors fields i rule seen) as [[es seen']|] eqn:Hr; [|done].
  destruct (rules_errors fields (S i) rules seen') as [es'|] eqn:Hrs; [|done]. intros [= [-> ->]%app_nil] Hs.
  apply rule_errors_sound in Hr as (Hexact & r & -> & Hwf & Hnew & ->).
  destruct (IH _ _ Hrs) as (Hexacts & rs & -> & Hall & Hnd & Hlen).
  { apply NoDup_app. split; [done|]. split; [set_solver|apply NoDup_singleton]. }
  split; [by constructor|].
  exists (r :: rs). cbn. repeat split; [by constructor| |by rewrite Hlen]. by rewrite <- app_assoc in Hnd.
Qed.
Lemma take_nil_inv {A} n (l : list A) : take (S n) l = [] -> l = [].
Proof. by destruct l. Qed.

Lemma validated_typed number_string (def : raw_value) (res : ChildSafetyPolicyValidationResult) :
  validateChildSafetyPolicyDefinition number_string def = Ret res -> valid res = true ->
  Forall rule_effects_exact (members (prop def "rules")) /\
  exists d, read_definition def = Some d /\ definition_wf d /\ ruleCount res = Z.of_nat (length (df_rules d)).
Proof.
  unfold validateChildSafetyPolicyDefinition. destruct (negb (is_object def)); [by intros [= <-]|].
  destruct (prop def "rules") as [| | | | |rules|] eqn:Hrules; try by intros [= <-].
  destruct (rules_errors _ 0 rules []) as [es|] eqn:Hr; [|done]. intros [= <-]. cbn [valid ruleCount].
  intros Hv%Nat.eqb_eq%length_zero_iff_nil%take_nil_inv. apply app_nil in Hv as [Hhead Hv]. apply app_nil in Hv as [Hmax%when_nil ->].
  apply app_nil in Hhead as [_ Hhead]. apply app_nil in Hhead as [Hver%when_nil Hhead]. apply app_nil in Hhead as [Hpur%when_nil Hdef%when_nil].
  unfold read_definition. destruct (prop def "schemaVersion") as [| | |[| | |q]| | |]; try done. apply negb_false_iff, Qeq_bool_iff in Hver.
  destruct (isPolicyPurpose (prop def "purpose")) as [p|]; [|done]. destruct (parse_value (prop def "defaultEffect")) as [e|]; [|done].
  destruct (rules_errors_sound _ _ _ _ Hr) as (Hexact & rs & Hrs & Hall & Hnd & Hlen); [constructor|].
  split; [exact Hexact|]. cbn [read_all]. rewrite Hrules. cbn [read_all]. rewrite Hrs. eexists. split; [done|]. cbn [df_rules]. rewrite Hlen. split; [|done].
  split; cbn [df_schemaVersion df_rules df_purpose]; try done. rewrite Hlen. rewrite Z.gtb_ltb in Hmax. by apply Z.ltb_ge in Hmax.
Qed.

(** C9 — a definition the validator accepts is one the engine can rely on: every read the evaluation
    makes of it finds a value of its declared type, the schema version is this engine's, there are at most a
    hundred rules with distinct bounded ids, and every condition is a tree of at most five levels and twenty
    nodes, without empty groups, whose leaves compare a field of the purpose with values of its kind (or compare
    with a text a name that every object inherits, which the field table answers for as well). Every rule has
    between one and twenty effects, each with every required member of its type present and in range and, in
    the text as it was submitted, no member beyond those of its type; a flag effect's payload has no members. *)
Theorem validated_is_typed number_string (def : raw_value) (res : ChildSafetyPolicyValidationResult) :
  validateChildSafetyPolicyDefinition number_string def = Ret res -> valid res = true ->
  Forall rule_effects_exact (members (prop def "rules")) /\
  exists d, read_definition def = Some d /\ definition_wf d /\ ruleCount res = Z.of_nat (length (df_rules d)).
Proof. apply validated_typed. Qed.

(** * The order of rules *)

Lemma rule_cmp_le a b : rule_cmp a b <= 0 <->
  (ru_priority a < ru_priority b)%Q \/ ((ru_priority a == ru_priority b)%Q /\ code_unit_cmp (ru_id a) (ru_id b) <= 0).
Proof.
  unfold rule_cmp. destruct (Qcompare_spec (ru_priority a) (ru_priority b)) as [H|H|H].
  - split; [by right|]. intros [Hlt|[_ Hc]]; [lra|done].
  - split; [by left|lia].
  - split; [lia|]. intros [Hlt|[Heq _]]; lra.
Qed.
Lemma rule_cmp_total a b : rule_cmp a b <= 0 \/ rule_cmp b a <= 0.
Proof.
  rewrite !rule_cmp_le. destruct (Q_dec (ru_priority a) (ru_priority b)) as [[H|H]|H]; [by left; left|by right; left|].
  destruct (code_unit_total (ru_id a) (ru_id b)); [left|right]; right; split; [lra|done|lra|done].
Qed.
Lemma rule_cmp_trans a b c : rule_cmp a b <= 0 -> rule_cmp b c <= 0 -> rule_cmp a c <= 0.
Proof.
  rewrite !rule_cmp_le. intros [H|[H Hc]] [H'|[H' Hc']]; [left; lra|left; lra|left; lra|right; split; [lra|]].
  by eapply code_unit_trans.
Qed.
Lemma ordered_perm rules rules' : NoDup (map ru_id rules) -> Permutation rules rules' -> ordered rules = ordered rules'.
Proof.
  intros Hnd Hp. unfold ordered.
  assert (Hf : Permutation (List.filter ru_enabled rules) (List.filter ru_enabled rules')) by by apply filter_perm.
  apply (sorted_unique rule_cmp); [|by rewrite !js_sort_perm|by apply js_sort_sorted; [apply rule_cmp_total|apply rule_cmp_trans]..].
  intros x y Hx Hy Hxy Hyx.
  assert (Hin : forall z, In z (js_sort rule_cmp (List.filter ru_enabled rules)) -> In z rules).
  { intros z Hz. eapply Permutation_in in Hz; [|apply js_sort_perm]. by apply filter_In in Hz as [? _]. }
  apply (NoDup_key_inj ru_id rules); [done|by apply Hin..|].
  apply rule_cmp_le in Hxy as [Hlt|[Heq Hc]], Hyx as [Hlt'|[Heq' Hc']]; try lra.
  apply str_le_antisym; by apply code_unit_cmp_le.
Qed.

(** the order in which the rules of a definition are written does not matter: two definitions of one
    purpose and default whose rules are the same in another order, with distinct ids (which validation
    demands), give the same matched rules in the same sequence, the same explanations, the same decision,
    the same everything. *)
Theorem rule_order_irrelevant number_string (input : ChildSafetyPolicyEvaluationInput) (d d' : ChildSafetyPolicyDefinition) :
  df_purpose d = df_purpose d' -> df_defaultEffect d = df_defaultEffect d' -> NoDup (map ru_id (df_rules d)) ->
  Permutation (df_rules d) (df_rules d') ->
  evaluateChildSafetyPolicy number_string input d = evaluateChildSafetyPolicy number_string input d'.
Proof.
  intros Hp He Hnd Hperm. unfold evaluateChildSafetyPolicy, matched, unmatched.
  by rewrite Hp, He, (ordered_perm _ _ Hnd Hperm).
Qed.

(** * What a merge is *)

(** The merge without an order: what is among the effects, and the highest of what they recommend. *)
Definition has (t : PolicyEffectType) (es : list PolicyEffect) : bool := existsb (fun e => ef_type e =e t) es.
Definition payloads (t : PolicyEffectType) (es : list PolicyEffect) : list EffectPayload := map ef_payload (List.filter (fun e => ef_type e =e t) es).
Definition highest (rank : string -> Z) (l : list string) : option string := List.find (fun s => forallb (fun t => rank t <=? rank s) l) l.
Definition nonempty_of (o : option string) : option string := match o with Some s => if nonempty s then Some s else None | None => None end.
Definition of_type (f : EffectPayload -> option string) (a : string) (ps : list EffectPayload) : list EffectPayload :=
  List.filter (fun p => status_is (f p) a) ps.
Definition merged_action (ps : list EffectPayload) (a : string) : ProposedAction :=
  {| pa_actionType := a; pa_reasonCode := last (omap pl_reasonCode (of_type pl_actionType a ps)) ?? "";
     pa_requiresApproval := existsb (fun p => pl_requiresApproval p ?? false) (of_type pl_actionType a ps) |}.
Definition stated_bounds (it : string) (p : EffectPayload) : InterventionBounds :=
  {| ib_interventionType := it; ib_maxSeverity := pl_maxSeverity p ?? "low"; ib_maxUrgency := pl_maxUrgency p ?? "routine";
     ib_prerequisites := sorted_strings (pl_prerequisites p ?? []) |}.
Definition merged_bounds (ps : list EffectPayload) (it : string) : InterventionBounds := stated_bounds it (last (of_type pl_interventionType it ps) ?? no_payload).
Definition merge_spec (purpose : ChildSafetyPolicyPurpose) (es : list PolicyEffect) : ChildSafetyPolicyEngineDecision :=
  let manual := has ManualOnly es || has RequireManualInterventionApproval es in
  let actions := payloads ProposeProtectionAction es in
  let interventions := payloads AllowAutomaticIntervention es in
  let types := js_set (omap (fun p => nonempty_of (pl_interventionType p)) interventions) in
  {| d_purpose := purpose;
     createIncident := has CreateIncident es; updateIncident := has UpdateIncident es;
     recommendedSeverity := highest SEVERITY_RANK (omap pl_severity (payloads SetRecommendedSeverity es));
     recommendedUrgency := highest URGENCY_RANK (omap pl_urgency (payloads SetRecommendedUrgency es));
     requireReview := has RequireReview es || has RequireSupervisorReview es; requireSupervisorReview := has RequireSupervisorReview es;
     recommendEscalation := has CreateEscalationRecommendation es;
     escalationLevel := highest ESCALATION_RANK (omap pl_level (payloads SetEscalationLevel es));
     proposeProtectionPlan := has ProposeProtectionPlan es;
     proposedActions := js_sort (fun a b => code_unit_cmp (pa_actionType a) (pa_actionType b))
       (map (merged_action actions) (js_set (omap (fun p => nonempty_of (pl_actionType p)) actions)));
     allowAutomaticIntervention := negb manual && negb (length types =? 0)%nat;
     automaticInterventionBounds := if manual then [] else
       js_sort (fun a b => code_unit_cmp (ib_interventionType a) (ib_interventionType b)) (map (merged_bounds interventions) types);
     requireManualInterventionApproval := has RequireManualInterventionApproval es;
     allowGuardianContactConsideration := has AllowGuardianContactConsideration es && negb (has ProhibitGuardianContact es);
     prohibitGuardianContact := has ProhibitGuardianContact es; manualOnly := has ManualOnly es |}.

Definition is_a (t : PolicyEffectType) (e : PolicyEffect) : bool := ef_type e =e t.
Lemma has_snoc t es e : has t (es ++ [e]) = has t es || is_a t e.
Proof. unfold has. rewrite existsb_app. cbn. by rewrite orb_false_r. Qed.
Lemma payloads_snoc t es e : payloads t (es ++ [e]) = payloads t es ++ (if is_a t e then [ef_payload e] else []).
Proof. unfold payloads. rewrite List.filter_app, map_app. cbn [List.filter]. unfold is_a. by destruct (ef_type e =e t). Qed.

Lemma find_andb {A} (p q : A -> bool) l c : List.find p l = Some c -> q c = true -> List.find (fun x => p x && q x) l = Some c.
Proof.
  induction l as [|x l IH]; [done|]. cbn [List.find]. destruct (p x); [intros [= ->] ->; done|]. exact IH.
Qed.
Lemma find_none_in {A} (p : A -> bool) l : (forall x, In x l -> p x = false) -> List.find p l = None.
Proof. induction l as [|x l IH]; intros H; [done|]. cbn. rewrite (H x) by by left. apply IH. intros y Hy. apply H. by right. Qed.
Lemma find_app_none {A} (p : A -> bool) l l' : List.find p l = None -> List.find p (l ++ l') = List.find p l'.
Proof. induction l as [|x l IH]; [done|]. cbn. by destruct (p x). Qed.
Lemma find_same {A} (p q : A -> bool) l : (forall x, p x = q x) -> List.find p l = List.find q l.
Proof. intros H. induction l as [|x l IH]; [done|]. cbn. by rewrite H, IH. Qed.
Lemma some_greatest (rank : string -> Z) l : l <> [] -> exists c, In c l /\ forall t, In t l -> rank t <= rank c.
Proof.
  induction l as [|x l IH]; [done|]. intros _. destruct l as [|y l].
  { exists x. split; [by left|]. intros t [->|[]]. lia. }
  destruct IH as (c & Hc & Hmax); [done|]. destruct (Z.le_gt_cases (rank x) (rank c)) as [H|H].
  - exists c. split; [by right|]. intros t [->|Ht]; [done|by apply Hmax].
  - exists x. split; [by left|]. intros t [->|Ht]; [lia|]. specialize (Hmax t Ht). lia.
Qed.
Lemma highest_Some rank l c : highest rank l = Some c -> In c l /\ forall t, In t l -> rank t <= rank c.
Proof.
  unfold highest. intros [Hin Hall]%find_some. split; [done|]. intros t Ht. rewrite forallb_forall in Hall. by apply Z.leb_le, Hall.
Qed.
Lemma highest_None rank l : highest rank l = None -> l = [].
Proof.
  destruct l as [|x l]; [done|]. unfold highest. intros H. destruct (some_greatest rank (x :: l)) as (c & Hc & Hmax); [done|].
  pose proof (find_none _ _ H c Hc) as Hf. cbn beta in Hf. exfalso. apply not_true_iff_false in Hf. apply Hf.
  apply forallb_forall. intros t Ht. by apply Z.leb_le, Hmax.
Qed.
Lemma highest_snoc rank l x : highest rank (l ++ [x]) = raise rank (Some x) (highest rank l).
Proof.
  destruct (highest rank l) as [c|] eqn:Hc; cbn [raise].
  2: { apply highest_None in Hc as ->. cbn. by rewrite Z.leb_refl. }
  pose proof (highest_Some _ _ _ Hc) as [Hin Hmax]. unfold highest in *.
  assert (Hp : forall s, forallb (fun t => rank t <=? rank s) (l ++ [x]) = forallb (fun t => rank t <=? rank s) l && (rank x <=? rank s)).
  { intros s. rewrite forallb_app. cbn. by rewrite andb_true_r. }
  destruct (rank x >? rank c) eqn:Hx.
  - rewrite Z.gtb_ltb in Hx. apply Z.ltb_lt in Hx. rewrite find_app_none.
    + cbn [List.find]. rewrite Hp, Z.leb_refl, andb_true_r. replace (forallb _ l) with true; [done|].
      symmetry. apply forallb_forall. intros t Ht. apply Z.leb_le. specialize (Hmax t Ht). lia.
    + apply find_none_in. intros t Ht. rewrite Hp. apply andb_false_iff. right. apply Z.leb_gt. specialize (Hmax t Ht). lia.
  - rewrite Z.gtb_ltb in Hx. apply Z.ltb_ge in Hx. apply find_app_l.
    rewrite <- (find_andb _ (fun s => rank x <=? rank s) l c Hc) by by apply Z.leb_le. by apply find_same.
Qed.

(** ** What is kept by type *)

Section Grouped.
Context {V : Type} (f : EffectPayload -> option string) (build : string -> list EffectPayload -> V).
Definition types_of (ps : list EffectPayload) : list string := js_set (omap (fun p => nonempty_of (f p)) ps).
Definition table (ps : list EffectPayload) : jsmap V := map (fun a => (a, build a (of_type f a ps))) (types_of ps).

Lemma types_of_snoc ps p : types_of (ps ++ [p]) = match nonempty_of (f p) with Some k => set_add (types_of ps) k | None => types_of ps end.
Proof.
  unfold types_of, js_set. rewrite omap_app. cbn. destruct (nonempty_of (f p)); cbn; [by rewrite fold_left_app|by rewrite app_nil_r].
Qed.
Lemma of_type_snoc a ps p : of_type f a (ps ++ [p]) = of_type f a ps ++ (if status_is (f p) a then [p] else []).
Proof. unfold of_type. rewrite List.filter_app. cbn. by destruct (status_is (f p) a). Qed.
Lemma in_types k ps : k <> "" -> k ∈ types_of ps <-> of_type f k ps <> [].
Proof.
  intros Hk. unfold types_of. rewrite elem_of_js_set, list_elem_of_omap. split.
  - intros (p & Hp & Hf) Hnil. apply list_elem_of_In in Hp.
    assert (In p (of_type f k ps)) as Hin; [|by rewrite Hnil in Hin]. apply filter_In. split; [done|].
    destruct (f p) as [s|]; [|done]. cbn in *. destruct (nonempty s); [|done]. injection Hf as ->. apply String.eqb_refl.
  - destruct (of_type f k ps) as [|p r] eqn:Hl; [done|]. intros _. exists p.
    assert (Hin : In p (of_type f k ps)) by (rewrite Hl; by left). apply filter_In in Hin as [Hp Hf]. split; [by apply list_elem_of_In|].
    destruct (f p) as [s|]; [|done]. cbn in *. apply String.eqb_eq in Hf as ->. by destruct k.
Qed.
Lemma types_nonempty k ps : k ∈ types_of ps -> k <> "".
Proof.
  unfold types_of. rewrite elem_of_js_set, list_elem_of_omap. intros (p & _ & Hf) ->. destruct (f p) as [s|]; [|done]. cbn in Hf.
  destruct (nonempty s) eqn:Hs; [|done]. by injection Hf as ->.
Qed.
Lemma table_get ps k : k <> "" -> map_get (table ps) k = if bool_decide (of_type f k ps <> []) then Some (build k (of_type f k ps)) else None.
Proof.
  intros Hk. unfold table.
  assert (H : forall L, map_get (map (fun a => (a, build a (of_type f a ps))) L) k = if bool_decide (k ∈ L) then Some (build k (of_type f k ps)) else None).
  { induction L as [|a L IH]; cbn [map map_get]; [done|]. destruct (String.eqb_spec a k) as [->|Hne].
    - by rewrite bool_decide_eq_true_2 by by left.
    - rewrite IH. apply (f_equal (fun b : bool => if b then _ else _)). apply bool_decide_ext. set_solver. }
  rewrite H. apply (f_equal (fun b : bool => if b then _ else _)). apply bool_decide_ext. by apply in_types.
Qed.
Lemma map_set_table (g : string -> V) L k v : NoDup L -> map_set (map (fun a => (a, g a)) L) k v = map (fun a => (a, if a =s k then v else g a)) (set_add L k).
Proof.
  unfold set_add. induction 1 as [|a L Ha Hnd IH]; cbn [map map_set].
  { rewrite bool_decide_eq_false_2 by by apply not_elem_of_nil. cbn. by rewrite String.eqb_refl. }
  destruct (String.eqb_spec a k) as [->|Hne].
  - rewrite bool_decide_eq_true_2 by by left. cbn [map]. rewrite String.eqb_refl. f_equal. apply map_ext_in. intros b Hb.
    destruct (String.eqb_spec b k) as [->|]; [|done]. by destruct Ha; apply list_elem_of_In.
  - rewrite IH. destruct (bool_decide_reflect (k ∈ L)) as [Hk|Hk].
    + rewrite bool_decide_eq_true_2 by by right. cbn [map]. by rewrite (proj2 (String.eqb_neq _ _) Hne).
    + rewrite bool_decide_eq_false_2; [|by rewrite elem_of_cons; intros [->|?]]. cbn [app map]. by rewrite (proj2 (String.eqb_neq _ _) Hne).
Qed.
Lemma table_snoc ps p k : nonempty_of (f p) = Some k -> map_set (table ps) k (build k (of_type f k ps ++ [p])) = table (ps ++ [p]).
Proof.
  intros Hk. assert (Hf : f p = Some k /\ k <> "").
  { destruct (f p) as [s|]; [|done]. cbn in Hk. destruct (nonempty s) eqn:Hs; [|done]. injection Hk as ->. split; [done|]. by intros ->. }
  destruct Hf as [Hf Hne]. unfold table at 1. rewrite map_set_table by apply NoDup_js_set. unfold table. rewrite types_of_snoc, Hk.
  apply map_ext. intros a. rewrite of_type_snoc, Hf. cbn [status_is]. destruct (String.eqb_spec a k) as [->|Hak].
  - by rewrite String.eqb_refl.
  - rewrite (proj2 (String.eqb_neq k a)) by congruence. by rewrite app_nil_r.
Qed.
Lemma table_snoc_none ps p : nonempty_of (f p) = None -> table ps = table (ps ++ [p]).
Proof.
  intros Hk. unfold table. rewrite types_of_snoc, Hk. apply map_ext_in. intros a Ha. apply list_elem_of_In, types_nonempty in Ha.
  rewrite of_type_snoc. destruct (f p) as [s|]; cbn [status_is]; [|by rewrite app_nil_r].
  cbn in Hk. destruct (nonempty s) eqn:Hs; [done|]. destruct (String.eqb_spec s a) as [->|]; [|by rewrite app_nil_r]. by destruct a.
Qed.
End Grouped.

(** ** The collection, effect by effect *)

Definition interventions_of (es : list PolicyEffect) : list EffectPayload := payloads AllowAutomaticIntervention es.
Definition actions_of (es : list PolicyEffect) : list EffectPayload := payloads ProposeProtectionAction es.
Definition bounds_build (it : string) (ps : list EffectPayload) : InterventionBounds := stated_bounds it (last ps ?? no_payload).
Definition action_build (a : string) (ps : list EffectPayload) : ProposedAction :=
  {| pa_actionType := a; pa_reasonCode := last (omap pl_reasonCode ps) ?? ""; pa_requiresApproval := existsb (fun p => pl_requiresApproval p ?? false) ps |}.
(** The decision before the overrides. *)
Definition collected (purpose : ChildSafetyPolicyPurpose) (es : list PolicyEffect) : ChildSafetyPolicyEngineDecision :=
  {| d_purpose := purpose;
     createIncident := has CreateIncident es; updateIncident := has UpdateIncident es;
     recommendedSeverity := highest SEVERITY_RANK (omap pl_severity (payloads SetRecommendedSeverity es));
     recommendedUrgency := highest URGENCY_RANK (omap pl_urgency (payloads SetRecommendedUrgency es));
     requireReview := has RequireReview es || has RequireSupervisorReview es; requireSupervisorReview := has RequireSupervisorReview es;
     recommendEscalation := has CreateEscalationRecommendation es;
     escalationLevel := highest ESCALATION_RANK (omap pl_level (payloads SetEscalationLevel es));
     proposeProtectionPlan := has ProposeProtectionPlan es; proposedActions := [];
     allowAutomaticIntervention := negb (length (types_of pl_interventionType (interventions_of es)) =? 0)%nat;
     automaticInterventionBounds := [];
     requireManualInterventionApproval := has RequireManualInterventionApproval es;
     allowGuardianContactConsideration := has AllowGuardianContactConsideration es;
     prohibitGuardianContact := has ProhibitGuardianContact es; manualOnly := has ManualOnly es |}.
(** One effect on the decision, field by field. *)
Definition stepped (d : ChildSafetyPolicyEngineDecision) (e : PolicyEffect) : ChildSafetyPolicyEngineDecision :=
  let p := ef_payload e in
  {| d_purpose := d_purpose d;
     createIncident := createIncident d || is_a CreateIncident e; updateIncident := updateIncident d || is_a UpdateIncident e;
     recommendedSeverity := if is_a SetRecommendedSeverity e then raise SEVERITY_RANK (pl_severity p) (recommendedSeverity d) else recommendedSeverity d;
     recommendedUrgency := if is_a SetRecommendedUrgency e then raise URGENCY_RANK (pl_urgency p) (recommendedUrgency d) else recommendedUrgency d;
     requireReview := requireReview d || is_a RequireReview e || is_a RequireSupervisorReview e;
     requireSupervisorReview := requireSupervisorReview d || is_a RequireSupervisorReview e;
     recommendEscalation := recommendEscalation d || is_a CreateEscalationRecommendation e;
     escalationLevel := if is_a SetEscalationLevel e then raise ESCALATION_RANK (pl_level p) (escalationLevel d) else escalationLevel d;
     proposeProtectionPlan := proposeProtectionPlan d || is_a ProposeProtectionPlan e; proposedActions := proposedActions d;
     allowAutomaticIntervention := allowAutomaticIntervention d || (is_a AllowAutomaticIntervention e && is_some (nonempty_of (pl_interventionType p)));
     automaticInterventionBounds := automaticInterventionBounds d;
     requireManualInterventionApproval := requireManualInterventionApproval d || is_a RequireManualInterventionApproval e;
     allowGuardianContactConsideration := allowGuardianContactConsideration d || is_a AllowGuardianContactConsideration e;
     prohibitGuardianContact := prohibitGuardianContact d || is_a ProhibitGuardianContact e; manualOnly := manualOnly d || is_a ManualOnly e |}.

Lemma type_or_empty o : match nonempty_of o with Some k => o ?? "" = k /\ nonempty k = true | None => nonempty (o ?? "") = false end.
Proof. destruct o as [s|]; [|done]. cbn. by destruct (nonempty s) eqn:Hs. Qed.
Lemma merge_effect_decision m e : ms_decision (merge_effect m e) = stepped (ms_decision m) e.
Proof.
  destruct m as [[] acts bnds], e as [t p].
  destruct t; unfold merge_effect, propose, allow_automatic, stepped, is_a, on_decision; cbn -[raise nonempty nullish nonempty_of];
    rewrite ?orb_true_r, ?orb_false_r; try reflexivity.
  - by destruct (negb _).
  - pose proof (type_or_empty (pl_interventionType p)) as H. destruct (nonempty_of _); [destruct H as [-> ->]|rewrite H]; cbn -[stated_bounds nullish]; rewrite ?orb_true_r, ?orb_false_r; reflexivity.
Qed.

Lemma if_same {A} (b : bool) (x : A) : (if b then x else x) = x.
Proof. by destruct b. Qed.
Lemma highest_step rank (f : EffectPayload -> option string) t es e :
  highest rank (omap f (payloads t (es ++ [e]))) = if is_a t e then raise rank (f (ef_payload e)) (highest rank (omap f (payloads t es))) else highest rank (omap f (payloads t es)).
Proof.
  rewrite payloads_snoc, omap_app. destruct (is_a t e); cbn; [|by rewrite app_nil_r].
  destruct (f (ef_payload e)) as [s|]; cbn; [by rewrite highest_snoc|by rewrite app_nil_r].
Qed.
Lemma set_add_length (l : list string) k : negb (length (set_add l k) =? 0)%nat = true.
Proof. unfold set_add. destruct (bool_decide_reflect (k ∈ l)) as [H|H]; [destruct l; [by apply not_elem_of_nil in H|done]|]. by rewrite length_app, Nat.add_comm. Qed.
Lemma collected_snoc purpose es e : collected purpose (es ++ [e]) = stepped (collected purpose es) e.
Proof.
  unfold collected, stepped. cbn [d_purpose createIncident updateIncident recommendedSeverity recommendedUrgency requireReview requireSupervisorReview
    recommendEscalation escalationLevel proposeProtectionPlan proposedActions allowAutomaticIntervention automaticInterventionBounds
    requireManualInterventionApproval allowGuardianContactConsideration prohibitGuardianContact manualOnly].
  rewrite !has_snoc, !highest_step. f_equal.
  - by destruct (has RequireReview es), (has RequireSupervisorReview es), (is_a RequireReview e), (is_a RequireSupervisorReview e).
  - unfold interventions_of. rewrite payloads_snoc. destruct (is_a AllowAutomaticIntervention e); [|by rewrite app_nil_r, orb_false_r].
    rewrite types_of_snoc. destruct (nonempty_of _) as [k|]; [|by rewrite orb_false_r]. by rewrite set_add_length, orb_true_r.
Qed.

Lemma action_build_snoc k ps p : nonempty_of (pl_actionType p) = Some k ->
  action_build k (of_type pl_actionType k ps ++ [p]) =
  let existing := if bool_decide (of_type pl_actionType k ps <> []) then Some (action_build k (of_type pl_actionType k ps)) else None in
  {| pa_actionType := k; pa_requiresApproval := (pl_requiresApproval p ?? false) || match existing with Some a => pa_requiresApproval a | None => false end;
     pa_reasonCode := or_else (pl_reasonCode p) (option_map pa_reasonCode existing) ?? "" |}.
Proof.
  intros _. unfold action_build. rewrite existsb_app, omap_app. cbn [existsb pa_requiresApproval pa_reasonCode]. rewrite orb_false_r.
  destruct (bool_decide_reflect (of_type pl_actionType k ps <> [])) as [Hne|He].
  - cbn [option_map pa_reasonCode pa_requiresApproval]. f_equal; [|apply orb_comm]. destruct (pl_reasonCode p) as [r|] eqn:Hr; cbn; rewrite Hr; cbn; [by rewrite last_snoc|by rewrite app_nil_r].
  - assert (of_type pl_actionType k ps = []) as -> by (destruct (of_type pl_actionType k ps); [done|by destruct He]).
    cbn. rewrite orb_false_r. by destruct (pl_reasonCode p).
Qed.
Lemma merge_effect_actions m e es : ms_actions m = table pl_actionType action_build (actions_of es) ->
  ms_actions (merge_effect m e) = table pl_actionType action_build (actions_of (es ++ [e])).
Proof.
  unfold actions_of. rewrite payloads_snoc. intros Hm.
  destruct (ef_type e) eqn:Ht; unfold merge_effect, is_a; rewrite Ht; cbn -[table]; rewrite ?app_nil_r; try done.
  - unfold propose. pose proof (type_or_empty (pl_actionType (ef_payload e))) as H. destruct (nonempty_of _) as [k|] eqn:Hk.
    + destruct H as [-> Hne]. rewrite Hne. cbn [negb ms_actions]. rewrite Hm, (table_get pl_actionType action_build _ k) by by intros ->.
      rewrite <- (table_snoc pl_actionType action_build _ _ k Hk). f_equal. by rewrite (action_build_snoc k _ _ Hk).
    + rewrite H. cbn [negb]. rewrite Hm. by apply table_snoc_none.
  - unfold allow_automatic. by destruct (negb _).
Qed.
Lemma merge_effect_bounds m e es : ms_bounds m = table pl_interventionType bounds_build (interventions_of es) ->
  ms_bounds (merge_effect m e) = table pl_interventionType bounds_build (interventions_of (es ++ [e])).
Proof.
  unfold interventions_of. rewrite payloads_snoc. intros Hm.
  destruct (ef_type e) eqn:Ht; unfold merge_effect, is_a; rewrite Ht; cbn -[table]; rewrite ?app_nil_r; try done.
  - unfold propose. by destruct (negb _).
  - unfold allow_automatic. pose proof (type_or_empty (pl_interventionType (ef_payload e))) as H. destruct (nonempty_of _) as [k|] eqn:Hk.
    + destruct H as [-> Hne]. rewrite Hne. cbn [negb ms_bounds]. rewrite Hm, <- (table_snoc pl_interventionType bounds_build _ _ k Hk).
      f_equal. unfold bounds_build. by rewrite last_snoc.
    + rewrite H. cbn [negb]. rewrite Hm. by apply table_snoc_none.
Qed.
Lemma merge_collected purpose es : fold_left merge_effect es {| ms_decision := emptyDecision purpose; ms_actions := []; ms_bounds := [] |} =
  {| ms_decision := collected purpose es; ms_actions := table pl_actionType action_build (actions_of es);
     ms_bounds := table pl_interventionType bounds_build (interventions_of es) |}.
Proof.
  induction es as [|e es IH] using rev_ind; [done|]. rewrite fold_left_app, IH. cbn [fold_left].
  set (m := {| ms_decision := _ |}). pose proof (merge_effect_decision m e) as Hd. pose proof (merge_effect_actions m e es eq_refl) as Ha.
  pose proof (merge_effect_bounds m e es eq_refl) as Hb. destruct (merge_effect m e) as [d a b]. cbn in Hd, Ha, Hb. subst d a b. by rewrite collected_snoc.
Qed.

(** What the overrides make of a collected decision, field by field. *)
Lemma finish_fields m :
  let d := ms_decision m in let manual := manualOnly d || requireManualInterventionApproval d in
  finish m = {| d_purpose := d_purpose d; createIncident := createIncident d; updateIncident := updateIncident d;
    recommendedSeverity := recommendedSeverity d; recommendedUrgency := recommendedUrgency d;
    requireReview := requireReview d; requireSupervisorReview := requireSupervisorReview d;
    recommendEscalation := recommendEscalation d; escalationLevel := escalationLevel d; proposeProtectionPlan := proposeProtectionPlan d;
    proposedActions := js_sort (fun a b => code_unit_cmp (pa_actionType a) (pa_actionType b)) (map snd (ms_actions m));
    allowAutomaticIntervention := negb manual && allowAutomaticIntervention d;
    automaticInterventionBounds := if manual then [] else
      js_sort (fun a b => code_unit_cmp (ib_interventionType a) (ib_interventionType b)) (map snd (ms_bounds m));
    requireManualInterventionApproval := requireManualInterventionApproval d;
    allowGuardianContactConsideration := allowGuardianContactConsideration d && negb (prohibitGuardianContact d);
    prohibitGuardianContact := prohibitGuardianContact d; manualOnly := manualOnly d |}.
Proof.
  destruct m as [d acts bnds]. unfold finish. cbn [ms_decision ms_actions ms_bounds].
  generalize (js_sort (fun a b => code_unit_cmp (pa_actionType a) (pa_actionType b)) (map snd acts)) as sa.
  generalize (js_sort (fun a b => code_unit_cmp (ib_interventionType a) (ib_interventionType b)) (map snd bnds)) as sb.
  intros sb sa. destruct d as [p ci ui rs ru rr rsr re el pp pa ai ab [] ga [] []]; by destruct ga.
Qed.

(** C19 — merging effects is what the precedence rules say, whatever the effects: a flag is set iff an effect sets it, supervisor review implies review, the recommended severity, urgency
    and escalation level are the highest recommended, a proposed action requires approval as soon as one
    proposal of it does, automatic intervention is allowed iff some effect allows it and none demands manual
    work, guardian contact may be considered iff some effect allows it and none prohibits it. Only the reason of an
    action and the bounds of an intervention depend on the sequence: the last one stated stands. *)
Theorem merge_exact (purpose : ChildSafetyPolicyPurpose) (es : list PolicyEffect) : mergeEffects purpose es = merge_spec purpose es.
Proof.
  unfold mergeEffects. rewrite merge_collected, finish_fields. unfold merge_spec.
  assert (Hsnd : forall {V} f (build : string -> list EffectPayload -> V) ps, map snd (table f build ps) = map (fun a => build a (of_type f a ps)) (types_of f ps)).
  { intros V f build ps. unfold table. by rewrite map_map. }
  cbn [ms_decision ms_actions ms_bounds]. rewrite !Hsnd. reflexivity.
Qed.

(** * The canonical input *)

Definition canonical_keys (purpose : ChildSafetyPolicyPurpose) : list string := sorted_strings (map_keys (policyFieldsFor purpose)).
Definition canonical_member (facts : jsmap raw_value) (key : string) : option (string * raw_value) :=
  match fact facts key with VString _ as v | VNumber _ as v | VBool _ as v => Some (key, v) | _ => None end.
(** The facts of a purpose are words, finite numbers and flags, or are missing. *)
Definition flat_facts (purpose : ChildSafetyPolicyPurpose) (facts : jsmap raw_value) : Prop :=
  Forall (fun k => is_nullish (fact facts k) = true \/ scalar (fact facts k)) (canonical_keys purpose).
(** The conditions of a definition are about fields of its purpose, nothing inherited. *)
Fixpoint names_fields (fields : jsmap FieldDescriptor) (n : PolicyConditionNode) : Prop :=
  match n with
  | CondLeaf l => map_get fields (lf_field l) <> None
  | CondGroup _ nodes => fold_right (fun c P => names_fields fields c /\ P) True nodes
  end.

Lemma NoDup_canonical_keys purpose : NoDup (canonical_keys purpose).
Proof. destruct purpose; vm_compute; by repeat (constructor; [set_solver|]); constructor. Qed.
Lemma canonical_keys_own purpose k : map_get (policyFieldsFor purpose) k <> None -> In k (canonical_keys purpose).
Proof.
  intros H. unfold canonical_keys, sorted_strings. eapply Permutation_in; [apply Permutation_sym, js_sort_perm|].
  by apply list_elem_of_In, elem_of_map_keys.
Qed.
Lemma canonical_facts_eq purpose facts : canonical_facts purpose facts = omap (canonical_member facts) (canonical_keys purpose).
Proof. done. Qed.
Lemma canonical_members_scalar purpose facts : flat_facts purpose facts -> Forall (fun p => scalar (snd p)) (canonical_facts purpose facts).
Proof.
  unfold flat_facts. rewrite canonical_facts_eq. generalize (canonical_keys purpose) as l.
  induction l as [|k l IH]; intros Hf; cbn; [constructor|]. apply Forall_cons in Hf as [Hk Hf]. unfold canonical_member at 1.
  destruct (fact facts k) eqn:Hv; try (by apply IH); constructor; try (by apply IH); by destruct Hk as [Hk|Hk].
Qed.
Lemma canonical_facts_text number_string purpose facts : flat_facts purpose facts ->
  canonicalPolicyInput number_string purpose facts =
  "{" +:+ (member "p" (quote (js_name purpose)) +:+ "," +:+ member "e" (quote CHILD_SAFETY_POLICY_ENGINE_VERSION) +:+ "," +:+
    member "s" (number_string (inject_Z CHILD_SAFETY_POLICY_SCHEMA_VERSION)) +:+ "," +:+
    member "f" ("{" +:+ String.concat "," (map (write_member number_string) (canonical_facts purpose facts)) +:+ "}")) +:+ "}".
Proof.
  intros Hf%canonical_members_scalar. unfold canonicalPolicyInput. cbn [stringify flat_map app nullish scalar_json number_json].
  unfold braces. cbn [String.concat]. do 8 f_equal. f_equal.
  replace (flat_map _ (canonical_facts purpose facts)) with (map (write_member number_string) (canonical_facts purpose facts)); [done|].
  induction Hf as [|[k v] l Hv Hl IH]; [done|]. cbn [map flat_map]. rewrite IH. by destruct v as [| |b|[| | |q]|s|a|o].
Qed.
Lemma str_app_inv_l (a b c : string) : a +:+ b = a +:+ c -> b = c.
Proof. induction a as [|x a IH]; [done|]. intros [= H]. by apply IH. Qed.

(** What is equal at each key of a list without repetitions, once the omitted keys are left out. *)
Lemma omap_same (f g : string -> option (string * raw_value)) l :
  (forall k p, f k = Some p -> fst p = k) -> (forall k p, g k = Some p -> fst p = k) -> NoDup l ->
  Forall2 same_member (omap f l) (omap g l) ->
  forall k, In k l -> match f k, g k with Some p, Some q => same_member p q | None, None => True | _, _ => False end.
Proof.
  intros Hf Hg. induction 1 as [|a l Ha Hnd IH]; [done|]. cbn. intros Hall k [<-|Hk].
  - assert (Hkeys : forall h : string -> option (string * raw_value), (forall k p, h k = Some p -> fst p = k) -> forall p, In p (omap h l) -> fst p <> a).
    { intros h Hh p Hp <-. apply list_elem_of_In, list_elem_of_omap in Hp as (b & Hb & Hhb). rewrite (Hh _ _ Hhb) in Ha. done. }
    destruct (f a) as [p|] eqn:Hfa, (g a) as [q|] eqn:Hga; cbn in Hall; try done.
    + by apply Forall2_cons in Hall as [? _].
    + destruct (omap g l) as [|q r] eqn:Ho; [by apply Forall2_nil_inv_r in Hall|]. apply Forall2_cons in Hall as [[Hfst _] _].
      apply (Hkeys g Hg q); [rewrite Ho; by left|]. by rewrite <- Hfst, (Hf _ _ Hfa).
    + destruct (omap f l) as [|p r] eqn:Ho; [by apply Forall2_nil_inv_l in Hall|]. apply Forall2_cons in Hall as [[Hfst _] _].
      apply (Hkeys f Hf p); [rewrite Ho; by left|]. by rewrite Hfst, (Hg _ _ Hga).
  - apply IH; [|done]. destruct (f a) as [p|] eqn:Hfa, (g a) as [q|] eqn:Hga; cbn in Hall; try done.
    + by apply Forall2_cons in Hall as [_ ?].
    + exfalso. destruct (omap g l) as [|q r] eqn:Ho; [by apply Forall2_nil_inv_r in Hall|]. apply Forall2_cons in Hall as [[Hfst _] _].
      assert (Hin : In q (omap g l)) by (rewrite Ho; by left). apply list_elem_of_In, list_elem_of_omap in Hin as (b & Hb & Hgb).
      rewrite (Hf _ _ Hfa), (Hg _ _ Hgb) in Hfst. by subst.
    + exfalso. destruct (omap f l) as [|p r] eqn:Ho; [by apply Forall2_nil_inv_l in Hall|]. apply Forall2_cons in Hall as [[Hfst _] _].
      assert (Hin : In p (omap f l)) by (rewrite Ho; by left). apply list_elem_of_In, list_elem_of_omap in Hin as (b & Hb & Hfb).
      rewrite (Hf _ _ Hfb), (Hg _ _ Hga) in Hfst. by subst.
Qed.
(** Two facts a validated condition cannot tell apart. *)
Definition same_fact (v w : raw_value) : Prop := (is_nullish v = true /\ is_nullish w = true) \/ (scalar v /\ scalar w /\ same_value v w).
Lemma written_same f g k :
  is_nullish (fact f k) = true \/ scalar (fact f k) -> is_nullish (fact g k) = true \/ scalar (fact g k) ->
  match canonical_member f k, canonical_member g k with Some p, Some q => same_member p q | None, None => True | _, _ => False end ->
  same_fact (fact f k) (fact g k).
Proof.
  unfold canonical_member, same_fact, same_member. generalize (fact f k) as v, (fact g k) as w. intros v w Hv Hw Hs.
  destruct v, w; cbn in *; try done; try (by left); try (by destruct Hv); try (by destruct Hw); right; destruct Hv, Hw; by destruct Hs.
Qed.
(** [flat_facts], decided. *)
Definition is_flat (v : raw_value) : bool := is_nullish v || match v with VString _ | VBool _ => true | VNumber (NFin _) => true | _ => false end.
Lemma flat_facts_decided purpose facts : forallb (fun k => is_flat (fact facts k)) (canonical_keys purpose) = true -> flat_facts purpose facts.
Proof.
  intros H. apply Forall_forall. intros k Hk. rewrite forallb_forall in H. specialize (H k (proj1 (list_elem_of_In _ _) Hk)).
  destruct (fact facts k) as [| |b|[| | |q]|s|a|o]; cbn in *; first [by left | by right | done].
Qed.
Lemma canonical_same `{!NumberText number_string} purpose f g : flat_facts purpose f -> flat_facts purpose g ->
  canonicalPolicyInput number_string purpose f = canonicalPolicyInput number_string purpose g ->
  forall k, In k (canonical_keys purpose) -> same_fact (fact f k) (fact g k).
Proof.
  intros Hf Hg H k Hk. rewrite !canonical_facts_text in H by done.
  assert (Hm : Forall2 same_member (canonical_facts purpose f) (canonical_facts purpose g)).
  { unfold member in H. rewrite !text_app_assoc in H. repeat apply str_app_inv_l in H.
    apply (members_inj number_string _ _ "}" "}"); [by apply canonical_members_scalar..|]. exact H. }
  rewrite !canonical_facts_eq in Hm.
  assert (Hfst : forall facts k p, canonical_member facts k = Some p -> fst p = k).
  { intros facts k' p. unfold canonical_member. destruct (fact facts k'); by intros [= <-]. }
  pose proof (omap_same _ _ _ (Hfst f) (Hfst g) (NoDup_canonical_keys purpose) Hm k Hk) as Hs.
  unfold flat_facts in Hf, Hg. rewrite Forall_forall in Hf, Hg. apply list_elem_of_In in Hk. specialize (Hf k Hk). specialize (Hg k Hk).
  by apply written_same.
Qed.

(** ** Evaluation sees no more than the canonical input *)

Lemma strict_equal_same v w x : same_value v w -> scalar v -> scalar w -> strict_equal v x = strict_equal w x.
Proof.
  destruct v as [| |b|[| | |p]|s|a|o], w as [| |b'|[| | |q]|s'|a'|o']; cbn [same_value scalar]; try done; try congruence.
  intros H _ _. destruct x as [| |c|[| | |r]|t|a''|o'']; try done. cbn. apply eq_true_iff_eq. rewrite !Qeq_bool_iff. by rewrite H.
Qed.
Lemma compare_same v w x : same_value v w -> scalar v -> scalar w ->
  compare num_lt v x = compare num_lt w x /\ compare num_le v x = compare num_le w x /\
  compare num_lt x v = compare num_lt x w /\ compare num_le x v = compare num_le x w.
Proof.
  destruct v as [| |b|[| | |p]|s|a|o], w as [| |b'|[| | |q]|s'|a'|o']; cbn [same_value scalar]; try done; try (intros [= ->]; done).
  intros H _ _. destruct x as [| |c|[| | |r]|t|a''|o'']; try done. cbn.
  repeat split; try apply (f_equal negb); apply eq_true_iff_eq; rewrite !Qle_bool_iff; by rewrite H.
Qed.
Lemma value_never_nullish fd o v : value_wf fd o v -> no_value_operator o = false ->
  match v with VArray l => Forall (fun x => is_nullish x = false) l | _ => is_nullish v = false end.
Proof.
  unfold value_wf. intros H Ho. rewrite Ho in H. assert (Hok : forall x, leafValueOk fd x = true -> is_nullish x = false).
  { intros x. unfold leafValueOk. destruct (fd_kind fd) as [[]|]; by destruct x. }
  destruct (array_operator o); [|destruct H as [H _]; specialize (Hok v H); by destruct v; try (unfold leafValueOk in H; destruct (fd_kind fd) as [[]|])].
  destruct H as (l & -> & _ & _ & Hl). apply (Forall_impl _ _ _ Hl). exact Hok.
Qed.
Lemma includes_raw_same v w l : (forall x, In x l -> same_value_zero v x = same_value_zero w x) -> includes_raw l v = includes_raw l w.
Proof.
  unfold includes_raw. induction l as [|x l IH]; intros H; [done|]. cbn. rewrite (H x) by by left. rewrite IH; [done|]. intros y Hy. apply H. by right.
Qed.
Lemma nullish_equals_nothing v x : is_nullish v = true -> is_nullish x = false -> strict_equal v x = false.
Proof. by destruct v, x. Qed.
Lemma evalLeaf_same fields l f g : leaf_wf fields l -> same_fact (fact f (lf_field l)) (fact g (lf_field l)) -> evalLeaf l f = evalLeaf l g.
Proof.
  intros (fd & _ & Hv) Hs. unfold evalLeaf. generalize dependent (fact f (lf_field l)). generalize (fact g (lf_field l)). intros w v Hs.
  destruct Hs as [[Hvn Hwn]|(Hsv & Hsw & Hs)].
  - assert (Heq : forall x, is_nullish x = false -> strict_equal v x = strict_equal w x) by (intros x Hx; by rewrite !nullish_equals_nothing).
    destruct (lf_operator l) eqn:Ho; try (by rewrite Hvn, Hwn); pose proof (value_never_nullish _ _ _ Hv eq_refl) as Hn.
    1,2: assert (He : strict_equal v (lf_value l) = strict_equal w (lf_value l)) by (destruct (lf_value l); try (by apply Heq); destruct v, w; done); by rewrite He.
    1,2: destruct (lf_value l) as [| | | | |xs|]; try done; rewrite (includes_raw_same v w); [done|]; intros x Hx;
      rewrite Forall_forall in Hn; specialize (Hn x (proj2 (list_elem_of_In _ _) Hx)); by destruct v, w, x.
    all: by destruct v, w, (lf_value l).
  - destruct (compare_same v w (lf_value l) Hs Hsv Hsw) as (H1 & H2 & H3 & H4).
    assert (Hnn : is_nullish v = is_nullish w) by (destruct v, w; done).
    destruct (lf_operator l); rewrite ?Hnn, ?H1, ?H2, ?H3, ?H4, ?(strict_equal_same v w (lf_value l) Hs Hsv Hsw); try done.
    all: destruct (lf_value l) as [| | | | |xs|]; try done; rewrite (includes_raw_same v w); [done|]; intros x _;
      unfold same_value_zero; rewrite (strict_equal_same v w x Hs Hsv Hsw); by destruct v as [| |b|[| | |p]| | |], w as [| |b'|[| | |q]| | |].
Qed.
Lemma PolicyConditionNode_ind' (P : PolicyConditionNode -> Prop) :
  (forall l, P (CondLeaf l)) -> (forall k nodes, Forall P nodes -> P (CondGroup k nodes)) -> forall n, P n.
Proof.
  intros Hl Hg. fix IH 1. intros [l|k nodes]; [apply Hl|]. apply Hg. induction nodes as [|n nodes IHn]; constructor; [apply IH|apply IHn].
Qed.
Lemma evalNode_same fields n k f g : node_wf fields k n -> names_fields fields n ->
  (forall key, map_get fields key <> None -> same_fact (fact f key) (fact g key)) -> evalNode n f = evalNode n g.
Proof.
  intros Hwf Hnames Hsame. revert k Hwf Hnames. induction n as [l|kind nodes IH] using PolicyConditionNode_ind'; intros k Hwf Hnames.
  - inversion Hwf; subst. cbn in *. eapply evalLeaf_same; [done|]. by apply Hsame.
  - inversion Hwf as [|m k' nodes' Hne Hall]; subst. cbn [names_fields] in Hnames.
    assert (Heq : Forall (fun c => evalNode c f = evalNode c g) nodes).
    { clear Hne Hwf. induction IH as [|c nodes Hc _ IHn]; [constructor|]. apply Forall_cons in Hall as [Hcw Hall]. cbn in Hnames. destruct Hnames as [Hcn Hnames].
      constructor; [by eapply Hc|by apply IHn]. }
    destruct nodes as [|c nodes]; [done|]. cbn [evalNode].
    destruct kind; revert Heq; generalize (c :: nodes); induction 1 as [|x xs Hx _ IHx]; [done| |done|]; cbn; by rewrite Hx, IHx.
Qed.

(** C20 — a decision can be replayed from its canonical input: for a validated definition whose conditions
    name fields of its purpose, two sets of facts with the same canonical text (so the same fingerprint, as
    far as the hash distinguishes texts) give the same result in every part: matched rules, explanations and
    decision. Nothing outside the recorded fields can sway it. The facts of the purpose's fields must be what the
    engine records, a text, a finite number or a flag, or be missing: an array or an object is left out of the
    text and an infinite number is written as null, so they are outside the claim. *)
Theorem replay_from_canonical_input `{!NumberText number_string} purpose facts facts' evaluatedAt include (d : ChildSafetyPolicyDefinition) :
  definition_wf d -> df_purpose d = purpose -> Forall (fun r => names_fields (policyFieldsFor purpose) (ru_condition r)) (df_rules d) ->
  flat_facts purpose facts -> flat_facts purpose facts' ->
  canonicalPolicyInput number_string purpose facts = canonicalPolicyInput number_string purpose facts' ->
  evaluateChildSafetyPolicy number_string {| in_purpose := purpose; in_facts := facts; in_evaluatedAt := evaluatedAt; in_includeUnmatched := include |} d =
  evaluateChildSafetyPolicy number_string {| in_purpose := purpose; in_facts := facts'; in_evaluatedAt := evaluatedAt; in_includeUnmatched := include |} d.
Proof.
  intros Hwf Hp Hnames Hf Hg Hcan. pose proof (canonical_same purpose facts facts' Hf Hg Hcan) as Hsame.
  unfold evaluateChildSafetyPolicy. cbn [in_purpose in_facts in_evaluatedAt in_includeUnmatched]. rewrite Hcan.
  assert (Hrule : forall r, In r (ordered (df_rules d)) -> evalNode (ru_condition r) facts = evalNode (ru_condition r) facts').
  { intros r Hr. eapply Permutation_in in Hr; [|apply js_sort_perm]. apply filter_In in Hr as [Hr _]. apply list_elem_of_In in Hr.
    pose proof (proj1 (Forall_forall _ _) (dw_each _ Hwf) r Hr) as Hrw. rewrite Hp in Hrw. pose proof (proj1 (Forall_forall _ _) Hnames r Hr) as Hn.
    eapply evalNode_same; [apply (rw_condition _ _ Hrw)|done|]. intros key Hk. by apply Hsame, canonical_keys_own. }
  assert (Hm : matched facts (df_rules d) = matched facts' (df_rules d)) by by apply filter_ext_in.
  assert (Hu : unmatched facts (df_rules d) = unmatched facts' (df_rules d)) by (apply filter_ext_in; intros r Hr; by rewrite Hrule).
  by rewrite Hm, Hu.
Qed.

(** * Concrete policies *)

(** A number text for evaluation: sign, numerator and denominator in unary. *)
Fixpoint ones (n : nat) : string := match n with O => "" | S n' => String "1" (ones n') end.
Definition unary (q : Q) : string :=
  let r := Qred q in
  (if Qnum r <? 0 then "-" else "+") +:+ ones (Z.to_nat (Z.abs (Qnum r))) +:+ String "." (ones (Pos.to_nat (Qden r))).
Lemma ones_chars n : str_forallb is_number_char (ones n) = true /\ str_forallb (fun c => negb (Ascii.eqb c ".")) (ones n) = true.
Proof. induction n as [|n [IH IH']]; [done|]. cbn. by rewrite IH, IH'. Qed.
Lemma ones_inj m n : ones m = ones n -> m = n.
Proof. revert n. induction m as [|m IH]; intros [|n]; cbn; try done. intros [= H]. by rewrite (IH n H). Qed.
Lemma str_forallb_app p a b : str_forallb p (a +:+ b) = str_forallb p a && str_forallb p b.
Proof. induction a as [|x a IH]; [done|]. change (p x && str_forallb p (a +:+ b) = p x && str_forallb p a && str_forallb p b). by rewrite IH, andb_assoc. Qed.
Lemma unary_NumberText : NumberText unary.
Proof.
  split.
  - intros q. unfold unary. cbv zeta. rewrite !str_forallb_app. cbn [str_forallb]. rewrite !(proj1 (ones_chars _)). by destruct (_ <? 0).
  - intros q. unfold unary. by destruct (_ <? 0).
  - intros p q H. unfold unary in H.
    assert (Hs : (Qnum (Qred p) <? 0) = (Qnum (Qred q) <? 0)).
    { destruct (Qnum (Qred p) <? 0), (Qnum (Qred q) <? 0); cbn in H; done. }
    rewrite Hs in H. apply str_app_inv_l in H.
    destruct (split_first "."%char (ones (Z.to_nat (Z.abs (Qnum (Qred p))))) (ones (Z.to_nat (Z.abs (Qnum (Qred q))))) _ _ (proj2 (ones_chars _)) (proj2 (ones_chars _)) H) as [Hn%ones_inj Hd%ones_inj].
    rewrite <- (Qred_correct p), <- (Qred_correct q). destruct (Qred p) as [n d], (Qred q) as [n' d']. cbn in *.
    apply Pos2Nat.inj in Hd as ->. unfold Qeq. cbn. f_equal.
    destruct (Z.ltb_spec n 0), (Z.ltb_spec n' 0); try done; lia.
Qed.
#[export] Instance unary_text : NumberText unary := unary_NumberText.

Definition num (z : Z) : raw_value := VNumber (NFin (inject_Z z)).
Definition leaf_json (f o : string) (v : raw_value) : raw_value := VObject [("field", VString f); ("operator", VString o); ("value", v)].
Definition exists_json (f : raw_value) : raw_value := VObject [("field", f); ("operator", VString "EXISTS")].
Definition effect_json (t : string) (p : list (string * raw_value)) : raw_value := VObject [("type", VString t); ("payload", VObject p)].
Definition rule_json (id : string) (prio : Z) (c : raw_value) (es : list raw_value) : raw_value :=
  VObject [("id", VString id); ("priority", num prio); ("enabled", VBool true); ("condition", c); ("effects", VArray es); ("explanationCode", VString (id +:+ "_code"))].
Definition policy_json (rules : list raw_value) : raw_value :=
  VObject [("schemaVersion", num 1); ("purpose", VString "INTERVENTION_AUTHORIZATION"); ("defaultEffect", VString "MANUAL_ONLY"); ("rules", VArray rules)].
Definition urgent_rule : raw_value := rule_json "urgent" 2
  (VObject [("group", VString "ALL"); ("nodes", VArray [leaf_json "severity" "IN" (VArray [VString "high"; VString "critical"]); leaf_json "signalCount" "GREATER_THAN" (num 2)])])
  [effect_json "SET_RECOMMENDED_SEVERITY" [("severity", VString "critical")];
   effect_json "ALLOW_AUTOMATIC_INTERVENTION" [("interventionType", VString "queue_for_review"); ("maxSeverity", VString "high"); ("maxUrgency", VString "elevated"); ("prerequisites", VArray [VString "consent"])]].
Definition contact_rule : raw_value := rule_json "contact" 1 (leaf_json "guardianAuthorityState" "EQUALS" (VString "revoked")) [effect_json "PROHIBIT_GUARDIAN_CONTACT" []].
Definition sample_policy : raw_value := policy_json [urgent_rule; contact_rule].
Definition accepted (def : raw_value) : bool := match validateChildSafetyPolicyDefinition unary def with Ret r => valid r | Throw _ => false end.
Definition typed (def : raw_value) : ChildSafetyPolicyDefinition :=
  match read_definition def with Some d => d | None => {| df_schemaVersion := 0; df_purpose := Escalation; df_defaultEffect := ManualOnly; df_rules := [] |} end.
Lemma accepted_typed def : accepted def = true -> read_definition def = Some (typed def) /\ definition_wf (typed def).
Proof.
  unfold accepted. destruct (validateChildSafetyPolicyDefinition unary def) as [r|] eqn:Hv; [|done]. intros Hok.
  destruct (validated_typed unary def r Hv Hok) as (_ & d & Hd & Hwf & _). unfold typed. by rewrite Hd.
Qed.

Lemma validated_is_typed_witness :
  exists res, validateChildSafetyPolicyDefinition unary sample_policy = Ret res /\ valid res = true /\
    Forall rule_effects_exact [urgent_rule; contact_rule] /\
    exists d, read_definition sample_policy = Some d /\ definition_wf d /\ map ru_id (df_rules d) = ["urgent"; "contact"].
Proof.
  eexists. split; [vm_compute; reflexivity|]. split; [reflexivity|].
  destruct (validated_is_typed unary sample_policy {| valid := true; errors := []; ruleCount := 2 |} eq_refl eq_refl) as (Hexact & d & Hd & Hwf & _).
  split; [exact Hexact|]. exists d. split; [exact Hd|]. split; [exact Hwf|]. revert Hd. vm_compute. intros H. injection H as <-. reflexivity.
Defined.

Definition sample_facts : jsmap raw_value := [("severity", VString "critical"); ("signalCount", num 3); ("guardianAuthorityState", VString "revoked")].
Definition input_of (facts : jsmap raw_value) : ChildSafetyPolicyEvaluationInput :=
  {| in_purpose := InterventionAuthorization; in_facts := facts; in_evaluatedAt := "2026-01-01T00:00:00.000Z"; in_includeUnmatched := false |}.
Lemma rule_order_irrelevant_witness :
  let d := typed sample_policy in let d' := typed (policy_json [contact_rule; urgent_rule]) in
  df_rules d <> df_rules d' /\ r_matchedRuleIds (evaluateChildSafetyPolicy unary (input_of sample_facts) d) = ["contact"; "urgent"] /\
  evaluateChildSafetyPolicy unary (input_of sample_facts) d = evaluateChildSafetyPolicy unary (input_of sample_facts) d'.
Proof.
  split; [vm_compute; discriminate|]. split; [vm_compute; reflexivity|].
  apply (rule_order_irrelevant unary (input_of sample_facts) (typed sample_policy) (typed (policy_json [contact_rule; urgent_rule])) eq_refl eq_refl).
  - apply (dw_ids _ (proj2 (accepted_typed sample_policy eq_refl))).
  - vm_compute. apply perm_swap.
Defined.

(** Beyond the recorded fields: another child's note, in another order. *)
Definition other_facts : jsmap raw_value := [("note", VString "x"); ("guardianAuthorityState", VString "revoked"); ("signalCount", VNumber (NFin (6 # 2))); ("severity", VString "critical")].
Lemma replay_from_canonical_input_witness :
  sample_facts <> other_facts /\
  evaluateChildSafetyPolicy unary (input_of sample_facts) (typed sample_policy) = evaluateChildSafetyPolicy unary (input_of other_facts) (typed sample_policy).
Proof.
  split; [discriminate|].
  apply (replay_from_canonical_input (number_string := unary) InterventionAuthorization sample_facts other_facts "2026-01-01T00:00:00.000Z" false (typed sample_policy)).
  - apply (accepted_typed sample_policy eq_refl).
  - reflexivity.
  - vm_compute. repeat constructor; discriminate.
  - apply flat_facts_decided. vm_compute. reflexivity.
  - apply flat_facts_decided. vm_compute. reflexivity.
  - vm_compute. reflexivity.
Defined.

(** * Departures from the documentation *)

Definition constructor_policy : raw_value := policy_json [rule_json "r" 1 (exists_json (VString "constructor"))
  [effect_json "ALLOW_AUTOMATIC_INTERVENTION" [("interventionType", VString "urgent_escalation"); ("maxSeverity", VString "critical"); ("maxUrgency", VString "immediate"); ("prerequisites", VArray [])]]].
(** the field allow-list has a hole: a name that every object inherits, such as constructor, passes
    validation as a field, its existence holds of every set of facts, and a fact of that name decides the
    outcome without being part of the canonical input. *)
Theorem inherited_name_is_a_field :
  accepted constructor_policy = true /\
  allowAutomaticIntervention (r_decision (evaluateChildSafetyPolicy unary (input_of []) (typed constructor_policy))) = true /\
  allowAutomaticIntervention (r_decision (evaluateChildSafetyPolicy unary (input_of [("constructor", VNull)]) (typed constructor_policy))) = false /\
  canonicalPolicyInput unary InterventionAuthorization [] = canonicalPolicyInput unary InterventionAuthorization [("constructor", VNull)].
Proof. vm_compute. by repeat split. Qed.

(** validation can throw: a field that is an object with a member toString has no text. *)
Theorem validation_can_throw :
  validateChildSafetyPolicyDefinition unary (policy_json [rule_json "r" 1 (exists_json (VObject [("toString", VNull)])) [effect_json "NO_ACTION" []]]) = Throw TypeError.
Proof. by vm_compute. Qed.

(** unknown keys are not rejected outside payloads, and a flag effect takes any payload that has no keys. *)
Theorem unknown_keys_are_accepted :
  accepted (VObject [("schemaVersion", num 1); ("purpose", VString "ESCALATION"); ("defaultEffect", VString "NO_ACTION"); ("extra", VString "x");
    ("rules", VArray [VObject [("id", VString "r"); ("priority", num 1); ("enabled", VBool true); ("condition", exists_json (VString "severity")); ("unknown", num 7);
      ("effects", VArray [VObject [("type", VString "MANUAL_ONLY"); ("payload", VBool true)]]); ("explanationCode", VString "c")]])]) = true.
Proof. by vm_compute. Qed.

End SafetyPolicy.
