(* ===== verification/SafetyPolicyStore.v ===== *)
(** The stored child-safety policies ([packages/db/src/child-safety-policy.ts]): the life of a
    version from draft to retirement under two-person control, the evaluation of a tenant's active
    policy with its decision log, and the simulation of a version.

    A service reads, checks, and then writes with a guard on the status it read. Other services may
    commit between its reads and its writes: what it read is an argument ([seen], an earlier state),
    what it writes applies to the tables as they are. *)
From S2P Require Import Prelude JsValue Keyset Access JsonText SafetyPolicy Tx.
From Stdlib Require Import QArith Qround.
Open Scope string_scope.
Open Scope list_scope.
Open Scope Z_scope.
Open Scope tam_scope.
Import JsValue JsonText SafetyPolicy.

Module SafetyPolicyStore.
Export Tx.

(** * Tables *)

(* src: packages/db/src/child-safety-policy.ts:24-24 PolicyActor *)
Record PolicyActor := { ac_tenantId : string; ac_userId : string; ac_membershipId : string; ac_role : Access.Role }.
Record policy_row := { po_id : string; po_tenantId : string; po_policyKey : string; po_purpose : ChildSafetyPolicyPurpose; po_displayName : string;
  po_description : option string; po_createdBy : string }.
Record version_row := { ve_id : string; ve_tenantId : string; ve_policyId : string; ve_versionNumber : Z; ve_status : ChildSafetyPolicyStatus;
  ve_schemaVersion : Z; ve_engineVersion : string; ve_definition : raw_value; ve_definitionHash : string; ve_createdBy : string;
  ve_submittedBy : option string; ve_submittedAt : option Z; ve_activatedBy : option string; ve_activatedAt : option Z;
  ve_rejectedBy : option string; ve_rejectedAt : option Z; ve_rejectionReason : option string; ve_supersedes : option string }.
Record approval_row := { ap_id : string; ap_tenantId : string; ap_versionId : string; ap_decision : string; ap_reason : option string; ap_decidedBy : string }.
Record decision_row := { de_id : string; de_tenantId : string; de_policyId : string; de_versionId : string; de_purpose : ChildSafetyPolicyPurpose; de_contextType : string;
  de_contextId : option string; de_fingerprint : string; de_code : string; de_decision : ChildSafetyPolicyEngineDecision; de_explanation : list string;
  de_engineVersion : string; de_correlationId : option string; de_evaluatedAt : Z }.
(** [None]: the system acted. *)
Record audit_row := { au_tenantId : string; au_event : string; au_actor : option string; au_target : string }.
Record PolicyDb := { policies : list policy_row; versions : list version_row; approvals : list approval_row; decisions : list decision_row; audits : list audit_row }.
Definition set_versions (l : list version_row) (d : PolicyDb) : PolicyDb :=
  {| policies := policies d; versions := l; approvals := approvals d; decisions := decisions d; audits := audits d |}.
Definition add_policy (r : policy_row) (d : PolicyDb) : PolicyDb :=
  {| policies := policies d ++ [r]; versions := versions d; approvals := approvals d; decisions := decisions d; audits := audits d |}.
Definition add_approval (r : approval_row) (d : PolicyDb) : PolicyDb :=
  {| policies := policies d; versions := versions d; approvals := approvals d ++ [r]; decisions := decisions d; audits := audits d |}.
Definition add_decision (r : decision_row) (d : PolicyDb) : PolicyDb :=
  {| policies := policies d; versions := versions d; approvals := approvals d; decisions := decisions d ++ [r]; audits := audits d |}.
Definition add_audit (r : audit_row) (d : PolicyDb) : PolicyDb :=
  {| policies := policies d; versions := versions d; approvals := approvals d; decisions := decisions d; audits := audits d ++ [r] |}.

Inductive policy_error := Forbidden (reason : string) | NotFound | StateError (code : string) | P2002 | EngineTypeError.
Abbreviation svc := (tx PolicyDb policy_error).

(** What surrounds a call: the clock, fresh ids, and whether the best-effort writes (audit,
    decision log) and the read of the active version fail. *)
Record env := { en_now : Z; en_id : string; en_id2 : string; en_auditLost : bool; en_decisionLost : bool; en_readFails : bool }.

(** [s.slice(0, n)] *)
Definition cut (n : Z) (s : string) : string := String.substring 0 (Z.to_nat n) s.

Section Store.
Context (number_string : Q -> string) (sha256 : string -> string) (toISOString : Z -> string).

Definition modify (f : PolicyDb -> PolicyDb) : svc () := d ← get; put (f d).
(* src: packages/db/src/child-safety-policy.ts:43-43 definitionHashOf *)
Definition definitionHashOf (def : raw_value) : string := sha256 (stableStringify number_string def).
(* src: packages/db/src/child-safety-policy.ts:46-49 audit *)
Definition audit (e : env) (tenantId : string) (actorUserId : option string) (event target : string) : svc () :=
  let actor := match actorUserId with Some u => if nonempty u && negb (u =s "system") then Some u else None | None => None end in
  if en_auditLost e then mret tt
  else modify (add_audit {| au_tenantId := tenantId; au_event := event; au_actor := actor; au_target := target |}).

(* src: packages/db/src/child-safety-policy.ts:52-52 assertView *)
Definition assertView (a : PolicyActor) : svc () := throw_if (negb (canViewChildSafetyPolicy (ac_role a))) (Forbidden "view").
(* src: packages/db/src/child-safety-policy.ts:53-53 assertManage *)
Definition assertManage (a : PolicyActor) : svc () := throw_if (negb (canManageChildSafetyPolicy (ac_role a))) (Forbidden "manage").
(* src: packages/db/src/child-safety-policy.ts:54-54 assertSubmit *)
Definition assertSubmit (a : PolicyActor) : svc () := throw_if (negb (canSubmitChildSafetyPolicy (ac_role a))) (Forbidden "submit").
(* src: packages/db/src/child-safety-policy.ts:55-55 assertApprove *)
Definition assertApprove (a : PolicyActor) : svc () := throw_if (negb (canApproveChildSafetyPolicy (ac_role a))) (Forbidden "approve").
(* src: packages/db/src/child-safety-policy.ts:56-56 assertActivate *)
Definition assertActivate (a : PolicyActor) : svc () := throw_if (negb (canActivateChildSafetyPolicy (ac_role a))) (Forbidden "activate").
(* src: packages/db/src/child-safety-policy.ts:57-57 assertSimulate *)
Definition assertSimulate (a : PolicyActor) : svc () := throw_if (negb (canSimulateChildSafetyPolicy (ac_role a))) (Forbidden "simulate").
(* src: packages/db/src/child-safety-policy.ts:58-58 assertDecisionView *)
Definition assertDecisionView (a : PolicyActor) : svc () := throw_if (negb (canViewChildSafetyPolicyDecisions (ac_role a))) (Forbidden "decision_view").

Definition find_policy (d : PolicyDb) (tenantId policyId : string) : option policy_row :=
  List.find (fun p => (po_id p =s policyId) && (po_tenantId p =s tenantId)) (policies d).
Definition find_version (d : PolicyDb) (tenantId versionId : string) : option version_row :=
  List.find (fun v => (ve_id v =s versionId) && (ve_tenantId v =s tenantId)) (versions d).
(* src: packages/db/src/child-safety-policy.ts:60-64 requirePolicy *)
Definition requirePolicy (seen : PolicyDb) (tenantId policyId : string) : svc policy_row := found (find_policy seen tenantId policyId) NotFound.
(* src: packages/db/src/child-safety-policy.ts:65-69 requireVersion *)
Definition requireVersion (seen : PolicyDb) (tenantId versionId : string) : svc version_row := found (find_version seen tenantId versionId) NotFound.
(** A validation that throws makes the service throw. *)
Definition validate (def : raw_value) : svc ChildSafetyPolicyValidationResult :=
  match validateChildSafetyPolicyDefinition number_string def with Ret r => mret r | Throw TypeError => throw EngineTypeError end.
(** [if (!val.valid) throw; if (definition.purpose !== purpose) throw] *)
Definition require_definition (def : raw_value) (purpose : ChildSafetyPolicyPurpose) : svc () :=
  v ← validate def; _ ← throw_if (negb (valid v)) (StateError "invalid_definition");
  throw_if (negb (strict_equal (prop def "purpose") (VString (js_name purpose)))) (StateError "purpose_mismatch").

Definition is_key_head (c : ascii) : bool := is_digit c || is_lower c.
Definition is_key_char (c : ascii) : bool := is_key_head c || Ascii.eqb c "_"%char || Ascii.eqb c "-"%char.
Definition good_policy_key (s : string) : bool :=
  match s with String c r => is_key_head c && str_forallb is_key_char r && between 1 63 (str_len r) | EmptyString => false end.

Definition fresh_version (e_id : string) (actor : PolicyActor) (policyId : string) (number : Z) (def : raw_value) : version_row :=
  {| ve_id := e_id; ve_tenantId := ac_tenantId actor; ve_policyId := policyId; ve_versionNumber := number; ve_status := Draft;
     ve_schemaVersion := CHILD_SAFETY_POLICY_SCHEMA_VERSION; ve_engineVersion := CHILD_SAFETY_POLICY_ENGINE_VERSION;
     ve_definition := def; ve_definitionHash := definitionHashOf def; ve_createdBy := ac_membershipId actor;
     ve_submittedBy := None; ve_submittedAt := None; ve_activatedBy := None; ve_activatedAt := None; ve_rejectedBy := None; ve_rejectedAt := None;
     ve_rejectionReason := None; ve_supersedes := None |}.
(** The unique indexes on versions: the id, and the number within a policy. *)
Definition version_clash (d : PolicyDb) (r : version_row) : bool :=
  existsb (fun v => (ve_id v =s ve_id r) || ((ve_policyId v =s ve_policyId r) && (ve_versionNumber v =? ve_versionNumber r))) (versions d).
Definition create_version (r : version_row) : svc () :=
  d ← get; _ ← throw_if (version_clash d r) P2002; put (set_versions (versions d ++ [r]) d).
Definition create_policy_row (r : policy_row) : svc () :=
  d ← get;
  _ ← throw_if (existsb (fun p => (po_id p =s po_id r) || ((po_tenantId p =s po_tenantId r) && (po_policyKey p =s po_policyKey r))) (policies d)) P2002;
  put (add_policy r d).
(** The partial unique index: at most one active version per policy. *)
Definition other_active (d : PolicyDb) (policyId versionId : string) : bool :=
  existsb (fun v => (ve_policyId v =s policyId) && (ve_status v =e Active) && negb (ve_id v =s versionId)) (versions d).
(** [updateMany] on one version in one status: the number of rows changed. *)
Definition guarded (tenantId versionId : string) (status : ChildSafetyPolicyStatus) (v : version_row) : bool :=
  (ve_id v =s versionId) && (ve_tenantId v =s tenantId) && (ve_status v =e status).
Definition updateMany (tenantId versionId : string) (status : ChildSafetyPolicyStatus) (f : version_row -> version_row) : svc Z :=
  d ← get;
  let n := count (guarded tenantId versionId status) (versions d) in
  _ ← put (set_versions (update_where (guarded tenantId versionId status) f (versions d)) d);
  mret n.

Definition with_definition (def : raw_value) (v : version_row) : version_row :=
  {| ve_id := ve_id v; ve_tenantId := ve_tenantId v; ve_policyId := ve_policyId v; ve_versionNumber := ve_versionNumber v; ve_status := ve_status v;
     ve_schemaVersion := ve_schemaVersion v; ve_engineVersion := ve_engineVersion v; ve_definition := def; ve_definitionHash := definitionHashOf def; ve_createdBy := ve_createdBy v;
     ve_submittedBy := ve_submittedBy v; ve_submittedAt := ve_submittedAt v; ve_activatedBy := ve_activatedBy v; ve_activatedAt := ve_activatedAt v;
     ve_rejectedBy := ve_rejectedBy v; ve_rejectedAt := ve_rejectedAt v; ve_rejectionReason := ve_rejectionReason v; ve_supersedes := ve_supersedes v |}.
Definition submitted (by_ : string) (now : Z) (v : version_row) : version_row :=
  {| ve_id := ve_id v; ve_tenantId := ve_tenantId v; ve_policyId := ve_policyId v; ve_versionNumber := ve_versionNumber v; ve_status := PendingApproval;
     ve_schemaVersion := ve_schemaVersion v; ve_engineVersion := ve_engineVersion v; ve_definition := ve_definition v; ve_definitionHash := ve_definitionHash v; ve_createdBy := ve_createdBy v;
     ve_submittedBy := Some by_; ve_submittedAt := Some now; ve_activatedBy := ve_activatedBy v; ve_activatedAt := ve_activatedAt v;
     ve_rejectedBy := ve_rejectedBy v; ve_rejectedAt := ve_rejectedAt v; ve_rejectionReason := ve_rejectionReason v; ve_supersedes := ve_supersedes v |}.
Definition rejected (by_ : string) (now : Z) (reason : string) (v : version_row) : version_row :=
  {| ve_id := ve_id v; ve_tenantId := ve_tenantId v; ve_policyId := ve_policyId v; ve_versionNumber := ve_versionNumber v; ve_status := Rejected;
     ve_schemaVersion := ve_schemaVersion v; ve_engineVersion := ve_engineVersion v; ve_definition := ve_definition v; ve_definitionHash := ve_definitionHash v; ve_createdBy := ve_createdBy v;
     ve_submittedBy := ve_submittedBy v; ve_submittedAt := ve_submittedAt v; ve_activatedBy := ve_activatedBy v; ve_activatedAt := ve_activatedAt v;
     ve_rejectedBy := Some by_; ve_rejectedAt := Some now; ve_rejectionReason := Some reason; ve_supersedes := ve_supersedes v |}.
Definition retired (v : version_row) : version_row :=
  {| ve_id := ve_id v; ve_tenantId := ve_tenantId v; ve_policyId := ve_policyId v; ve_versionNumber := ve_versionNumber v; ve_status := Retired;
     ve_schemaVersion := ve_schemaVersion v; ve_engineVersion := ve_engineVersion v; ve_definition := ve_definition v; ve_definitionHash := ve_definitionHash v; ve_createdBy := ve_createdBy v;
     ve_submittedBy := ve_submittedBy v; ve_submittedAt := ve_submittedAt v; ve_activatedBy := ve_activatedBy v; ve_activatedAt := ve_activatedAt v;
     ve_rejectedBy := ve_rejectedBy v; ve_rejectedAt := ve_rejectedAt v; ve_rejectionReason := ve_rejectionReason v; ve_supersedes := ve_supersedes v |}.
Definition activated (by_ : string) (now : Z) (supersedes : option string) (v : version_row) : version_row :=
  {| ve_id := ve_id v; ve_tenantId := ve_tenantId v; ve_policyId := ve_policyId v; ve_versionNumber := ve_versionNumber v; ve_status := Active;
     ve_schemaVersion := ve_schemaVersion v; ve_engineVersion := ve_engineVersion v; ve_definition := ve_definition v; ve_definitionHash := ve_definitionHash v; ve_createdBy := ve_createdBy v;
     ve_submittedBy := ve_submittedBy v; ve_submittedAt := ve_submittedAt v; ve_activatedBy := Some by_; ve_activatedAt := Some now;
     ve_rejectedBy := ve_rejectedBy v; ve_rejectedAt := ve_rejectedAt v; ve_rejectionReason := ve_rejectionReason v; ve_supersedes := supersedes |}.

(** * The life of a version *)

Record PolicyInput := { pi_policyKey : string; pi_purpose : string; pi_displayName : string; pi_description : option string; pi_definition : raw_value }.
(* src: packages/db/src/child-safety-policy.ts:77-101 createChildSafetyPolicy *)
Definition createChildSafetyPolicy (e : env) (seen : PolicyDb) (actor : PolicyActor) (input : PolicyInput) : svc (string * string) :=
  _ ← assertManage actor;
  purpose ← found (parse (A := ChildSafetyPolicyPurpose) (pi_purpose input)) (StateError "bad_purpose");
  _ ← throw_if (negb (good_policy_key (pi_policyKey input))) (StateError "bad_policy_key");
  _ ← throw_if (negb (nonempty (trim (pi_displayName input))) || (str_len (pi_displayName input) >? 120)) (StateError "bad_display_name");
  _ ← require_definition (pi_definition input) purpose;
  _ ← throw_if (existsb (fun p => (po_tenantId p =s ac_tenantId actor) && (po_policyKey p =s pi_policyKey input)) (policies seen)) (StateError "duplicate_policy_key");
  _ ← create_policy_row {| po_id := en_id e; po_tenantId := ac_tenantId actor; po_policyKey := pi_policyKey input; po_purpose := purpose;
       po_displayName := trim (pi_displayName input); po_description := option_map (cut 2000) (pi_description input); po_createdBy := ac_membershipId actor |};
  _ ← create_version (fresh_version (en_id2 e) actor (en_id e) 1 (pi_definition input));
  _ ← audit e (ac_tenantId actor) (Some (ac_userId actor)) "child_safety.policy.created" (en_id e);
  _ ← audit e (ac_tenantId actor) (Some (ac_userId actor)) "child_safety.policy.version_created" (en_id2 e);
  mret (en_id e, en_id2 e).

(** [findFirst(orderBy: versionNumber desc)]; zero when the policy has no version. *)
Definition latest_number (d : PolicyDb) (tenantId policyId : string) : Z :=
  foldr Z.max 0 (map ve_versionNumber (List.filter (fun v => (ve_tenantId v =s tenantId) && (ve_policyId v =s policyId)) (versions d))).
(* src: packages/db/src/child-safety-policy.ts:104-119 createChildSafetyPolicyVersion *)
Definition createChildSafetyPolicyVersion (e : env) (seen : PolicyDb) (actor : PolicyActor) (policyId : string) (def : raw_value) : svc (string * Z) :=
  _ ← assertManage actor;
  policy ← requirePolicy seen (ac_tenantId actor) policyId;
  _ ← require_definition def (po_purpose policy);
  let number := latest_number seen (ac_tenantId actor) policyId + 1 in
  _ ← create_version (fresh_version (en_id e) actor policyId number def);
  _ ← audit e (ac_tenantId actor) (Some (ac_userId actor)) "child_safety.policy.version_created" (en_id e);
  mret (en_id e, number).

(* src: packages/db/src/child-safety-policy.ts:122-134 updateChildSafetyPolicyDraft *)
Definition updateChildSafetyPolicyDraft (e : env) (seen : PolicyDb) (actor : PolicyActor) (versionId : string) (def : raw_value) : svc string :=
  _ ← assertManage actor;
  v ← requireVersion seen (ac_tenantId actor) versionId;
  _ ← throw_if (negb (ve_status v =e Draft)) (StateError "not_draft");
  val ← validate def;
  _ ← throw_if (negb (valid val)) (StateError "invalid_definition");
  policy ← requirePolicy seen (ac_tenantId actor) (ve_policyId v);
  _ ← throw_if (negb (strict_equal (prop def "purpose") (VString (js_name (po_purpose policy))))) (StateError "purpose_mismatch");
  n ← updateMany (ac_tenantId actor) versionId Draft (with_definition def);
  _ ← throw_if (negb (n =? 1)) (StateError "not_draft");
  mret versionId.

(* src: packages/db/src/child-safety-policy.ts:137-147 submitChildSafetyPolicyVersion *)
Definition submitChildSafetyPolicyVersion (e : env) (seen : PolicyDb) (actor : PolicyActor) (versionId : string) : svc ChildSafetyPolicyStatus :=
  _ ← assertSubmit actor;
  v ← requireVersion seen (ac_tenantId actor) versionId;
  _ ← throw_if (negb (ve_status v =e Draft)) (StateError "not_draft");
  val ← validate (ve_definition v);
  _ ← throw_if (negb (valid val)) (StateError "invalid_definition");
  n ← updateMany (ac_tenantId actor) versionId Draft (submitted (ac_membershipId actor) (en_now e));
  _ ← throw_if (negb (n =? 1)) (StateError "not_draft");
  _ ← audit e (ac_tenantId actor) (Some (ac_userId actor)) "child_safety.policy.submitted" versionId;
  mret PendingApproval.

Definition create_approval (r : approval_row) : svc () :=
  d ← get; _ ← throw_if (existsb (fun a => ap_id a =s ap_id r) (approvals d)) P2002; put (add_approval r d).
(* src: packages/db/src/child-safety-policy.ts:150-158 approveChildSafetyPolicyVersion *)
Definition approveChildSafetyPolicyVersion (e : env) (seen : PolicyDb) (actor : PolicyActor) (versionId : string) (reasonCode : option string) : svc string :=
  _ ← assertApprove actor;
  v ← requireVersion seen (ac_tenantId actor) versionId;
  _ ← throw_if (negb (ve_status v =e PendingApproval)) (StateError "not_pending");
  _ ← throw_if ((ac_membershipId actor =s ve_createdBy v) || status_is (ve_submittedBy v) (ac_membershipId actor)) (StateError "two_person_required");
  _ ← create_approval {| ap_id := en_id e; ap_tenantId := ac_tenantId actor; ap_versionId := versionId; ap_decision := "approved";
        ap_reason := option_map (cut 64) reasonCode; ap_decidedBy := ac_membershipId actor |};
  _ ← audit e (ac_tenantId actor) (Some (ac_userId actor)) "child_safety.policy.approved" versionId;
  mret (en_id e).

(* src: packages/db/src/child-safety-policy.ts:161-173 rejectChildSafetyPolicyVersion *)
Definition rejectChildSafetyPolicyVersion (e : env) (seen : PolicyDb) (actor : PolicyActor) (versionId reasonCode : string) : svc ChildSafetyPolicyStatus :=
  let reason := cut 64 (if nonempty reasonCode then reasonCode else "rejected") in
  _ ← assertApprove actor;
  v ← requireVersion seen (ac_tenantId actor) versionId;
  _ ← throw_if (negb (ve_status v =e PendingApproval)) (StateError "not_pending");
  _ ← throw_if (ac_membershipId actor =s ve_createdBy v) (StateError "two_person_required");
  _ ← create_approval {| ap_id := en_id e; ap_tenantId := ac_tenantId actor; ap_versionId := versionId; ap_decision := "rejected";
        ap_reason := Some reason; ap_decidedBy := ac_membershipId actor |};
  n ← updateMany (ac_tenantId actor) versionId PendingApproval (rejected (ac_membershipId actor) (en_now e) reason);
  _ ← throw_if (negb (n =? 1)) (StateError "not_pending");
  _ ← audit e (ac_tenantId actor) (Some (ac_userId actor)) "child_safety.policy.rejected" versionId;
  mret Rejected.

Definition current_active (d : PolicyDb) (tenantId policyId : string) : option version_row :=
  List.find (fun v => (ve_tenantId v =s tenantId) && (ve_policyId v =s policyId) && (ve_status v =e Active)) (versions d).
Definition independent_approval (d : PolicyDb) (tenantId : string) (v : version_row) : bool :=
  existsb (fun a => (ap_tenantId a =s tenantId) && (ap_versionId a =s ve_id v) && (ap_decision a =s "approved") && negb (ap_decidedBy a =s ve_createdBy v)) (approvals d).
(** The transaction of an activation, whose first statement read [inner]. *)
(* src: packages/db/src/child-safety-policy.ts:188-200 activateChildSafetyPolicyVersion *)
Definition promote (e : env) (inner : PolicyDb) (actor : PolicyActor) (v : version_row) : svc (option string) :=
  let current := current_active inner (ac_tenantId actor) (ve_policyId v) in
  retiredId ← match current with
    | Some c => n ← updateMany (ac_tenantId actor) (ve_id c) Active retired; _ ← throw_if (negb (n =? 1)) (StateError "activation_conflict"); mret (Some (ve_id c))
    | None => mret None
    end;
  d ← get;
  _ ← throw_if (existsb (guarded (ac_tenantId actor) (ve_id v) PendingApproval) (versions d) && other_active d (ve_policyId v) (ve_id v)) P2002;
  n ← updateMany (ac_tenantId actor) (ve_id v) PendingApproval (activated (ac_membershipId actor) (en_now e) retiredId);
  _ ← throw_if (negb (n =? 1)) (StateError "activation_conflict");
  mret retiredId.
(* src: packages/db/src/child-safety-policy.ts:181-204 activateChildSafetyPolicyVersion *)
Definition activateChildSafetyPolicyVersion (e : env) (seen inner : PolicyDb) (actor : PolicyActor) (versionId : string) : svc (ChildSafetyPolicyStatus * option string) :=
  _ ← assertActivate actor;
  v ← requireVersion seen (ac_tenantId actor) versionId;
  _ ← throw_if (negb (ve_status v =e PendingApproval)) (StateError "not_pending");
  _ ← throw_if (negb (independent_approval seen (ac_tenantId actor) v)) (StateError "approval_required");
  retiredId ← promote e inner actor v;
  _ ← audit e (ac_tenantId actor) (Some (ac_userId actor)) "child_safety.policy.activated" versionId;
  _ ← match retiredId with
      | Some r => if nonempty r then audit e (ac_tenantId actor) (Some (ac_userId actor)) "child_safety.policy.retired" r else mret tt
      | None => mret tt
      end;
  mret (Active, retiredId).

(** * Reading *)

Record version_view := { vv_id : string; vv_versionNumber : Z; vv_status : ChildSafetyPolicyStatus; vv_immutable : bool; vv_definition : raw_value; vv_definitionHash : string;
  vv_submittedAt : option Z; vv_activatedAt : option Z; vv_rejectedAt : option Z; vv_rejectionReason : option string; vv_supersedes : option string }.
Definition by_number_desc (a b : version_row) : Z := ve_versionNumber b - ve_versionNumber a.
Definition versions_of (d : PolicyDb) (tenantId policyId : string) : list version_row :=
  js_sort by_number_desc (List.filter (fun v => (ve_policyId v =s policyId) && (ve_tenantId v =s tenantId)) (versions d)).
(* src: packages/db/src/child-safety-policy.ts:220-236 getChildSafetyPolicy *)
Definition getChildSafetyPolicy (actor : PolicyActor) (policyId : string) : svc (policy_row * list version_view) :=
  _ ← assertView actor;
  d ← get;
  p ← requirePolicy d (ac_tenantId actor) policyId;
  mret (p, map (fun v => {| vv_id := ve_id v; vv_versionNumber := ve_versionNumber v; vv_status := ve_status v;
    vv_immutable := isImmutablePolicyStatus (js_name (ve_status v)); vv_definition := ve_definition v; vv_definitionHash := ve_definitionHash v;
    vv_submittedAt := ve_submittedAt v; vv_activatedAt := ve_activatedAt v; vv_rejectedAt := ve_rejectedAt v; vv_rejectionReason := ve_rejectionReason v;
    vv_supersedes := ve_supersedes v |}) (versions_of d (ac_tenantId actor) policyId)).
Record policy_view := { pv_id : string; pv_policyKey : string; pv_purpose : ChildSafetyPolicyPurpose; pv_activeVersion : option version_row; pv_versionCount : Z }.
Definition policy_order (a b : policy_row) : Z :=
  let c := code_unit_cmp (js_name (po_purpose a)) (js_name (po_purpose b)) in if c =? 0 then code_unit_cmp (po_policyKey a) (po_policyKey b) else c.
(* src: packages/db/src/child-safety-policy.ts:207-218 listChildSafetyPolicies *)
Definition listChildSafetyPolicies (actor : PolicyActor) (purpose : option string) : svc (list policy_view) :=
  _ ← assertView actor;
  d ← get;
  let wanted p := match obind purpose (parse (A := ChildSafetyPolicyPurpose)) with Some q => po_purpose p =e q | None => true end in
  mret (map (fun p => let vs := versions_of d (ac_tenantId actor) (po_id p) in
      {| pv_id := po_id p; pv_policyKey := po_policyKey p; pv_purpose := po_purpose p;
         pv_activeVersion := List.find (fun v => ve_status v =e Active) vs; pv_versionCount := Z.of_nat (length vs) |})
    (js_sort policy_order (List.filter (fun p => (po_tenantId p =s ac_tenantId actor) && wanted p) (policies d)))).

(** * Evaluation for a tenant *)

Definition policy_purpose (d : PolicyDb) (v : version_row) : option ChildSafetyPolicyPurpose :=
  option_map po_purpose (find_policy d (ve_tenantId v) (ve_policyId v)).
Definition active_for (d : PolicyDb) (tenantId : string) (purpose : ChildSafetyPolicyPurpose) : list version_row :=
  List.filter (fun v => (ve_tenantId v =s tenantId) && (ve_status v =e Active) && bool_decide (policy_purpose d v = Some purpose)) (versions d).
Inductive resolved := NoActive | Ambiguous | TheActive (v : version_row).
(* src: packages/db/src/child-safety-policy.ts:241-249 resolveActiveVersion *)
Definition resolveActiveVersion (d : PolicyDb) (tenantId : string) (purpose : ChildSafetyPolicyPurpose) : resolved :=
  match active_for d tenantId purpose with [] => NoActive | [v] => TheActive v | _ => Ambiguous end.

(* src: packages/db/src/child-safety-policy.ts:301-309 summarizeDecision *)
Definition summarizeDecision (r : ChildSafetyPolicyEvaluationResult) : string :=
  let d := r_decision r in
  if negb (r_ok r) then "fail_closed"
  else if manualOnly d then "manual_only"
  else if requireSupervisorReview d then "supervisor_review"
  else if allowAutomaticIntervention d then "auto_intervention_allowed"
  else if requireReview d then "review_required"
  else "no_action".

(* src: packages/db/src/child-safety-policy.ts:252-252 EvaluateOptions *)
Record EvaluateOptions := { eo_contextType : string; eo_contextId : option string; eo_correlationId : option string; eo_persist : option bool }.
Record TenantResult := { tr_result : ChildSafetyPolicyEvaluationResult; tr_policyId : option string; tr_versionId : option string; tr_fingerprint : string }.
(** The gate before an evaluation: engine version, integrity of the stored definition, validity. *)
(* src: packages/db/src/child-safety-policy.ts:275-284 evaluateChildSafetyPolicyForTenant *)
Definition gated_evaluation (purpose : ChildSafetyPolicyPurpose) (facts : jsmap raw_value) (evaluatedAt : string) (v : version_row)
  (val : ChildSafetyPolicyValidationResult) : ChildSafetyPolicyEvaluationResult :=
  let closed code := failClosedDecision purpose code evaluatedAt (canonicalPolicyInput number_string purpose facts) in
  if negb (ve_engineVersion v =s CHILD_SAFETY_POLICY_ENGINE_VERSION) then closed "unsupported_engine_version"
  else if negb (definitionHashOf (ve_definition v) =s ve_definitionHash v) then closed "definition_hash_mismatch"
  else if negb (valid val) || negb (strict_equal (prop (ve_definition v) "schemaVersion") (VNumber (NFin (inject_Z CHILD_SAFETY_POLICY_SCHEMA_VERSION))))
       then closed "invalid_active_policy"
  else match read_definition (ve_definition v) with
       | Some def => evaluateChildSafetyPolicy number_string
           {| in_purpose := purpose; in_facts := facts; in_evaluatedAt := evaluatedAt; in_includeUnmatched := false |} def
       | None => closed "evaluation_error"
       end.
(** The decision record and its audit row, both best effort. *)
(* src: packages/db/src/child-safety-policy.ts:287-296 evaluateChildSafetyPolicyForTenant *)
Definition keep_decision (e : env) (persist : bool) (row : decision_row) : svc () :=
  if negb persist then mret tt
  else _ ← (if en_decisionLost e then mret tt else modify (add_decision row));
       audit e (de_tenantId row) (Some "system") "child_safety.policy.decision_evaluated" (de_versionId row).
(* src: packages/db/src/child-safety-policy.ts:253-298 evaluateChildSafetyPolicyForTenant *)
Definition evaluateChildSafetyPolicyForTenant (e : env) (tenantId : string) (purpose : ChildSafetyPolicyPurpose) (facts : jsmap raw_value) (opts : EvaluateOptions) : svc TenantResult :=
  let evaluatedAt := toISOString (en_now e) in
  d ← get;
  let fail code :=
    let fc := failClosedDecision purpose code evaluatedAt (canonicalPolicyInput number_string purpose facts) in
    _ ← audit e tenantId (Some "system") "child_safety.policy.evaluation_failed" (eo_contextId opts ?? js_name purpose);
    mret {| tr_result := fc; tr_policyId := None; tr_versionId := None; tr_fingerprint := sha256 (r_canonicalInput fc) |} in
  match (if en_readFails e then NoActive else resolveActiveVersion d tenantId purpose) with
  | NoActive => fail "no_active_policy"
  | Ambiguous => fail "ambiguous_active_policy"
  | TheActive v =>
      val ← validate (ve_definition v);
      let result := gated_evaluation purpose facts evaluatedAt v val in
      let inputFingerprint := sha256 (r_canonicalInput result) in
      _ ← keep_decision e (eo_persist opts ?? true)
          {| de_id := en_id e; de_tenantId := tenantId; de_policyId := ve_policyId v; de_versionId := ve_id v; de_purpose := purpose;
             de_contextType := cut 32 (eo_contextType opts); de_contextId := option_map (cut 64) (eo_contextId opts); de_fingerprint := inputFingerprint;
             de_code := summarizeDecision result; de_decision := r_decision result; de_explanation := r_explanationCodes result;
             de_engineVersion := r_engineVersion result; de_correlationId := option_map (cut 64) (eo_correlationId opts); de_evaluatedAt := en_now e |};
      mret {| tr_result := result; tr_policyId := Some (ve_policyId v); tr_versionId := Some (ve_id v); tr_fingerprint := inputFingerprint |}
  end.
(* src: packages/db/src/child-safety-policy.ts:352-354 adapter *)
Definition adapter (purpose : ChildSafetyPolicyPurpose) (contextType : string) (e : env) (tenantId : string) (facts : jsmap raw_value)
  (contextId correlationId : option string) (persist : option bool) : svc TenantResult :=
  evaluateChildSafetyPolicyForTenant e tenantId purpose facts
    {| eo_contextType := contextType; eo_contextId := contextId; eo_correlationId := correlationId; eo_persist := persist |}.
(* src: packages/db/src/child-safety-policy.ts:356-356 evaluateSignalTriagePolicy *)
Definition evaluateSignalTriagePolicy := adapter SignalTriage "signal".
(* src: packages/db/src/child-safety-policy.ts:357-357 evaluateIncidentClassificationPolicy *)
Definition evaluateIncidentClassificationPolicy := adapter IncidentClassification "incident".
(* src: packages/db/src/child-safety-policy.ts:358-358 evaluateEscalationPolicy *)
Definition evaluateEscalationPolicy := adapter Escalation "incident".
(* src: packages/db/src/child-safety-policy.ts:359-359 evaluateProtectionPlanPolicy *)
Definition evaluateProtectionPlanPolicy := adapter ProtectionPlan "incident".
(* src: packages/db/src/child-safety-policy.ts:360-360 evaluateInterventionAuthorizationPolicy *)
Definition evaluateInterventionAuthorizationPolicy := adapter InterventionAuthorization "incident".
(* src: packages/db/src/child-safety-policy.ts:361-361 evaluateGuardianContactEligibilityPolicy *)
Definition evaluateGuardianContactEligibilityPolicy := adapter GuardianContactEligibility "incident".

(** * Simulation and history *)

(* src: packages/db/src/child-safety-policy.ts:30-30 MAX_SIMULATION_CASES *)
Definition MAX_SIMULATION_CASES : Z := 100.
(* src: packages/db/src/child-safety-policy.ts:313-330 simulateChildSafetyPolicyVersion *)
Definition simulateChildSafetyPolicyVersion (e : env) (actor : PolicyActor) (versionId : string) (cases : list (jsmap raw_value)) :
  svc (ChildSafetyPolicyPurpose * ChildSafetyPolicyValidationResult * list ChildSafetyPolicyEvaluationResult) :=
  _ ← assertSimulate actor;
  _ ← throw_if (length cases =? 0)%nat (StateError "no_cases");
  _ ← throw_if (Z.of_nat (length cases) >? MAX_SIMULATION_CASES) (StateError "too_many_cases");
  d ← get;
  v ← requireVersion d (ac_tenantId actor) versionId;
  policy ← requirePolicy d (ac_tenantId actor) (ve_policyId v);
  validation ← validate (ve_definition v);
  let evaluatedAt := toISOString (en_now e) in
  let run facts := match (if valid validation then read_definition (ve_definition v) else None) with
    | Some def => evaluateChildSafetyPolicy number_string {| in_purpose := po_purpose policy; in_facts := facts; in_evaluatedAt := evaluatedAt; in_includeUnmatched := true |} def
    | None => failClosedDecision (po_purpose policy) "invalid_definition" evaluatedAt (canonicalPolicyInput number_string (po_purpose policy) facts)
    end in
  _ ← audit e (ac_tenantId actor) (Some (ac_userId actor)) "child_safety.policy.simulated" versionId;
  mret (po_purpose policy, validation, map run cases).

(* src: packages/db/src/child-safety-policy.ts:31-31 DECISION_PAGE_DEFAULT *)
Definition DECISION_PAGE_DEFAULT : Z := 25.
(* src: packages/db/src/child-safety-policy.ts:32-32 DECISION_PAGE_MAX *)
Definition DECISION_PAGE_MAX : Z := 100.
(** [Math.floor(n || d)] of a finite number. *)
Definition floor_or (n : option Q) (d : Z) : Z := match n with Some q => if Qeq_bool q 0 then d else Qfloor q | None => d end.
Record decision_page := { dp_total : Z; dp_page : Z; dp_pageSize : Z; dp_hasMore : bool; dp_items : list decision_row }.
(* src: packages/db/src/child-safety-policy.ts:333-349 listChildSafetyPolicyDecisions *)
Definition listChildSafetyPolicyDecisions (actor : PolicyActor) (purpose contextType : option string) (page pageSize : option Q) : svc decision_page :=
  _ ← assertDecisionView actor;
  d ← get;
  let wanted r := (de_tenantId r =s ac_tenantId actor) &&
    match obind purpose (parse (A := ChildSafetyPolicyPurpose)) with Some q => de_purpose r =e q | None => true end &&
    match contextType with Some c => if nonempty c then de_contextType r =s cut 32 c else true | None => true end in
  let size := Z.min (Z.max 1 (floor_or pageSize DECISION_PAGE_DEFAULT)) DECISION_PAGE_MAX in
  let page := Z.max 1 (floor_or page 1) in
  let rows := js_sort (Keyset.list_order de_evaluatedAt de_id) (List.filter wanted (decisions d)) in
  let total := Z.of_nat (length rows) in
  mret {| dp_total := total; dp_page := page; dp_pageSize := size; dp_hasMore := page * size <? total;
          dp_items := take (Z.to_nat size) (drop (Z.to_nat ((page - 1) * size)) rows) |}.

(** * Runs

    Any service may run at any time, on what it read at any earlier time. *)

Inductive command :=
| C_create (actor : PolicyActor) (input : PolicyInput)
| C_version (actor : PolicyActor) (policyId : string) (def : raw_value)
| C_update (actor : PolicyActor) (versionId : string) (def : raw_value)
| C_submit (actor : PolicyActor) (versionId : string)
| C_approve (actor : PolicyActor) (versionId : string) (reason : option string)
| C_reject (actor : PolicyActor) (versionId reason : string)
| C_activate (actor : PolicyActor) (versionId : string)
| C_evaluate (tenantId : string) (purpose : ChildSafetyPolicyPurpose) (facts : jsmap raw_value) (opts : EvaluateOptions)
| C_simulate (actor : PolicyActor) (versionId : string) (cases : list (jsmap raw_value)).
(** The tables after a command: as they were when it throws. *)
Definition exec (e : env) (c : command) (seen inner db : PolicyDb) : PolicyDb :=
  match c with
  | C_create a i => after (createChildSafetyPolicy e seen a i) db
  | C_version a p d => after (createChildSafetyPolicyVersion e seen a p d) db
  | C_update a v d => after (updateChildSafetyPolicyDraft e seen a v d) db
  | C_submit a v => after (submitChildSafetyPolicyVersion e seen a v) db
  | C_approve a v r => after (approveChildSafetyPolicyVersion e seen a v r) db
  | C_reject a v r => after (rejectChildSafetyPolicyVersion e seen a v r) db
  | C_activate a v => after (activateChildSafetyPolicyVersion e seen inner a v) db
  | C_evaluate t p f o => after (evaluateChildSafetyPolicyForTenant e t p f o) db
  | C_simulate a v cs => after (simulateChildSafetyPolicyVersion e a v cs) db
  end.
Definition no_policies : PolicyDb := {| policies := []; versions := []; approvals := []; decisions := []; audits := [] |}.
(** The states a run went through, the present one first. *)
Inductive history : list PolicyDb -> Prop :=
| history_start : history [no_policies]
| history_step e c seen inner db past : history (db :: past) -> In seen (db :: past) -> In inner (db :: past) ->
    history (exec e c seen inner db :: db :: past).

End Store.
(** * What the services keep *)

Section Kept.
Context (number_string : Q -> string) (sha256 : string -> string) (toISOString : Z -> string).
Local Abbreviation hash_of := (definitionHashOf number_string sha256).
Local Abbreviation run_command := (exec number_string sha256 toISOString).
Local Abbreviation run := (history number_string sha256 toISOString).

(** The statuses a version may come to have. *)
Definition leads_to (s s' : ChildSafetyPolicyStatus) : bool :=
  match s, s' with
  | Draft, _ => true
  | PendingApproval, (PendingApproval | Active | Retired | Rejected) => true
  | Active, (Active | Retired) => true
  | Retired, Retired | Rejected, Rejected => true
  | _, _ => false
  end.
(** [w] is a later state of the version [v]: who made it and what it belongs to never change; what it
    says and who submitted it do not change once it is no draft. *)
Record advances (v w : version_row) : Prop := {
  ad_id : ve_id w = ve_id v; ad_tenant : ve_tenantId w = ve_tenantId v; ad_policy : ve_policyId w = ve_policyId v;
  ad_number : ve_versionNumber w = ve_versionNumber v; ad_creator : ve_createdBy w = ve_createdBy v;
  ad_status : leads_to (ve_status v) (ve_status w) = true;
  ad_frozen : ve_status v <> Draft -> ve_definition w = ve_definition v /\ ve_definitionHash w = ve_definitionHash v /\ ve_submittedBy w = ve_submittedBy v }.
Record later (d d' : PolicyDb) : Prop := {
  la_policies : exists l, policies d' = policies d ++ l;
  la_versions : evolves advances (fun _ => True) (versions d) (versions d');
  la_approvals : exists l, approvals d' = approvals d ++ l }.

Definition row_ok (ps : list policy_row) (v : version_row) : Prop :=
  ve_engineVersion v = CHILD_SAFETY_POLICY_ENGINE_VERSION /\ ve_definitionHash v = hash_of (ve_definition v) /\
  (exists res, validateChildSafetyPolicyDefinition number_string (ve_definition v) = Ret res /\ valid res = true) /\
  (exists p, In p ps /\ po_id p = ve_policyId v /\ po_tenantId p = ve_tenantId v /\ prop (ve_definition v) "purpose" = VString (js_name (po_purpose p))) /\
  (ve_status v <> Draft -> ve_submittedBy v <> None).
Definition approves (a : approval_row) (v : version_row) : Prop :=
  ap_versionId a = ve_id v /\ ap_tenantId a = ve_tenantId v /\ ap_decision a = "approved".
Definition promoted (s : ChildSafetyPolicyStatus) : Prop := s = Active \/ s = Retired.
Record sound (d : PolicyDb) : Prop := {
  so_policies : NoDup (map po_id (policies d));
  so_ids : NoDup (map ve_id (versions d));
  so_rows : forall v, In v (versions d) -> row_ok (policies d) v;
  so_active : forall v w, In v (versions d) -> In w (versions d) -> ve_status v = Active -> ve_status w = Active -> ve_policyId v = ve_policyId w -> v = w;
  so_approvals : forall a, In a (approvals d) -> ap_decision a = "approved" ->
    exists v, In v (versions d) /\ approves a v /\ ve_status v <> Draft /\ ap_decidedBy a <> ve_createdBy v /\ ve_submittedBy v <> Some (ap_decidedBy a);
  so_promoted : forall v, In v (versions d) -> promoted (ve_status v) -> exists a, In a (approvals d) /\ approves a v }.
(** A write that touches neither policies nor versions nor approvals. *)
Definition quiet (d d' : PolicyDb) : Prop := policies d' = policies d /\ versions d' = versions d /\ approvals d' = approvals d.
Definition good_step (d d' : PolicyDb) : Prop := sound d' /\ later d d'.

Lemma leads_to_refl s : leads_to s s = true.
Proof. by destruct s. Qed.
Lemma leads_to_trans s s' s'' : leads_to s s' = true -> leads_to s' s'' = true -> leads_to s s'' = true.
Proof. by destruct s, s', s''. Qed.
Lemma leads_to_Draft s s' : leads_to s s' = true -> s <> Draft -> s' <> Draft.
Proof. by destruct s, s'. Qed.
Lemma version_advances_refl v : advances v v.
Proof. split; try done. apply leads_to_refl. Qed.
Lemma version_advances_trans v w x : advances v w -> advances w x -> advances v x.
Proof.
  intros [a1 a2 a3 a4 a5 a6 a7] [b1 b2 b3 b4 b5 b6 b7]. split; try congruence; [by eapply leads_to_trans|].
  intros Hd. destruct (a7 Hd) as (? & ? & ?), (b7 (leads_to_Draft _ _ a6 Hd)) as (? & ? & ?). repeat split; congruence.
Qed.
Lemma later_refl d : later d d.
Proof. split; [by exists []; rewrite app_nil_r|apply evolves_refl; apply version_advances_refl|by exists []; rewrite app_nil_r]. Qed.
Lemma later_trans d d' d'' : later d d' -> later d' d'' -> later d d''.
Proof.
  intros [(l1 & H1) Hv (l2 & H2)] [(l3 & H3) Hv' (l4 & H4)]. split.
  - exists (l1 ++ l3). by rewrite H3, H1, app_assoc.
  - eapply evolves_trans; [exact version_advances_trans|done|exact Hv|exact Hv'].
  - exists (l2 ++ l4). by rewrite H4, H2, app_assoc.
Qed.
Lemma quiet_steps d d' d'' : quiet d d' -> quiet d' d'' -> quiet d d''.
Proof. intros (? & ? & ?) (? & ? & ?). repeat split; congruence. Qed.
Lemma quiet_good d d' : quiet d d' -> sound d -> good_step d d'.
Proof.
  intros (Hp & Hv & Ha) [s1 s2 s3 s4 s5 s6]. split; [split; rewrite ?Hp, ?Hv, ?Ha; done|]. destruct (later_refl d) as [l1 l2 l3].
  split; rewrite ?Hp, ?Hv, ?Ha; done.
Qed.
Lemma good_trans d d' d'' : good_step d d' -> (sound d' -> good_step d' d'') -> good_step d d''.
Proof. intros [Hs Hl] H. destruct (H Hs) as [Hs' Hl']. split; [done|by eapply later_trans]. Qed.

Lemma later_version d d' v : later d d' -> In v (versions d) -> exists w, In w (versions d') /\ advances v w.
Proof.
  intros [_ (kept & new & -> & HF & _) _] Hv. apply list_elem_of_In, list_elem_of_lookup_1 in Hv as (i & Hi).
  destruct (Forall2_lookup_l _ _ _ _ _ HF Hi) as (w & Hw & Had). exists w. split; [|done]. apply in_app_iff. left.
  apply list_elem_of_In. by eapply list_elem_of_lookup_2.
Qed.
Lemma later_policy d d' p : later d d' -> In p (policies d) -> In p (policies d').
Proof. intros [(l & ->) _ _] Hp. apply in_app_iff. by left. Qed.
Lemma later_approval d d' a : later d d' -> In a (approvals d) -> In a (approvals d').
Proof. intros [_ _ (l & ->)] Ha. apply in_app_iff. by left. Qed.
Lemma find_version_Some d t i v : find_version d t i = Some v -> In v (versions d) /\ ve_id v = i /\ ve_tenantId v = t.
Proof. unfold find_version. intros [Hin H]%find_some. apply andb_true_iff in H as [H1 H2]. apply String.eqb_eq in H1, H2. done. Qed.
Lemma find_policy_Some d t i p : find_policy d t i = Some p -> In p (policies d) /\ po_id p = i /\ po_tenantId p = t.
Proof. unfold find_policy. intros [Hin H]%find_some. apply andb_true_iff in H as [H1 H2]. apply String.eqb_eq in H1, H2. done. Qed.
Lemma guarded_true t i s v : guarded t i s v = true <-> ve_id v = i /\ ve_tenantId v = t /\ ve_status v = s.
Proof. unfold guarded. rewrite !andb_true_iff, !String.eqb_eq, enum_eqb_eq. tauto. Qed.
Lemma row_ok_more ps l v : row_ok ps v -> row_ok (ps ++ l) v.
Proof. intros (? & ? & ? & (p & Hp & ?) & ?). repeat split; try done. exists p. split; [apply in_app_iff; by left|done]. Qed.

(** ** The writes *)

Lemma audit_quiet e t a ev tg d u d' : audit e t a ev tg d = Ret (u, d') -> quiet d d'.
Proof. unfold audit, modify. destruct (en_auditLost e); intros H; run_inv; done. Qed.
Lemma create_policy_good r d u d' : sound d -> create_policy_row r d = Ret (u, d') -> good_step d d' /\ In r (policies d').
Proof.
  intros [s1 s2 s3 s4 s5 s6] H.
  assert (existsb (fun p => (po_id p =s po_id r) || ((po_tenantId p =s po_tenantId r) && (po_policyKey p =s po_policyKey r))) (policies d) = false /\ d' = add_policy r d)
    as [Hx ->] by (unfold create_policy_row in H; by run_inv). split.
  - split.
    + split; cbn; try done.
      * rewrite map_app. apply NoDup_app. split; [done|]. split; [|apply NoDup_singleton]. intros i Hi ->%list_elem_of_singleton.
        apply list_elem_of_In, in_map_iff in Hi as (p & Hp & Hin). pose proof (existsb_false _ _ Hx p Hin) as Hf. cbn in Hf.
        by rewrite Hp, String.eqb_refl in Hf.
      * intros v Hv. by apply row_ok_more, s3.
    + split; cbn; [by eexists| |by exists []; rewrite app_nil_r]. apply evolves_refl; apply version_advances_refl.
  - cbn. apply in_app_iff. right. by left.
Qed.
Lemma create_version_good r d u d' : sound d -> row_ok (policies d) r -> ve_status r = Draft -> create_version r d = Ret (u, d') -> good_step d d'.
Proof.
  intros [s1 s2 s3 s4 s5 s6] Hr Hd H.
  assert (version_clash d r = false /\ d' = set_versions (versions d ++ [r]) d) as [Hx ->] by (unfold create_version in H; by run_inv).
  assert (Hid : forall v, In v (versions d) -> ve_id v <> ve_id r).
  { intros v Hv Heq. pose proof (existsb_false _ _ Hx v Hv) as Hf. cbn in Hf. by rewrite Heq, String.eqb_refl in Hf. }
  split.
  - split; cbn; try done.
    + rewrite map_app. apply NoDup_app. split; [done|]. split; [|apply NoDup_singleton]. intros i Hi ->%list_elem_of_singleton.
      apply list_elem_of_In, in_map_iff in Hi as (v & Hv & Hin). by apply (Hid v Hin).
    + intros v [Hv|[<-|[]]]%in_app_iff; [by apply s3|done].
    + intros v w [Hv|[<-|[]]]%in_app_iff [Hw|[<-|[]]]%in_app_iff; try congruence. by apply s4.
    + intros a Ha Hap. destruct (s5 a Ha Hap) as (v & Hv & Hrest). exists v. split; [apply in_app_iff; by left|done].
    + intros v [Hv|[<-|[]]]%in_app_iff Hp; [by apply s6|]. rewrite Hd in Hp. by destruct Hp.
  - split; cbn; [by exists []; rewrite app_nil_r| |by exists []; rewrite app_nil_r]. apply evolves_grow; [apply version_advances_refl|]. by apply Forall_true.
Qed.
(** A change of the one row that is still in the status it was read in. *)
Lemma update_good t i s f d n d' : sound d -> updateMany t i s f d = Ret (n, d') ->
  (forall v, In v (versions d) -> guarded t i s v = true -> advances v (f v) /\ row_ok (policies d) (f v) /\
    (promoted (ve_status (f v)) -> exists a, In a (approvals d) /\ approves a v) /\
    (ve_status (f v) = Active -> forall w, In w (versions d) -> w <> v -> ve_policyId w = ve_policyId v -> ve_status w <> Active)) ->
  good_step d d' /\ (n = 1 -> exists v, In v (versions d) /\ guarded t i s v = true /\ versions d' = update_where (guarded t i s) f (versions d)) /\
  policies d' = policies d /\ approvals d' = approvals d.
Proof.
  intros [s1 s2 s3 s4 s5 s6] H Hf.
  assert (n = count (guarded t i s) (versions d) /\ d' = set_versions (update_where (guarded t i s) f (versions d)) d) as [-> ->] by (unfold updateMany in H; by run_inv).
  cbn [policies approvals versions set_versions].
  split; [|split; [|done]].
  2: { intros Hn. unfold count in Hn. destruct (List.filter (guarded t i s) (versions d)) as [|v l] eqn:Hl; [done|].
       assert (Hin : In v (List.filter (guarded t i s) (versions d))) by (rewrite Hl; by left). apply filter_In in Hin as [? ?]. by exists v. }
  assert (Hone : forall v w, In v (versions d) -> In w (versions d) -> guarded t i s v = true -> guarded t i s w = true -> v = w).
  { intros v w Hv Hw [Hv' _]%guarded_true [Hw' _]%guarded_true. apply (NoDup_key_inj ve_id (versions d)); [done..|congruence]. }
  assert (Had : forall v, In v (versions d) -> advances v (if guarded t i s v then f v else v)).
  { intros v Hv. destruct (guarded t i s v) eqn:Hg; [by apply Hf|apply version_advances_refl]. }
  assert (Hget : forall w, In w (update_where (guarded t i s) f (versions d)) -> exists v, In v (versions d) /\ w = if guarded t i s v then f v else v).
  { intros w Hw. unfold update_where in Hw. apply in_map_iff in Hw as (v & <- & Hv). by exists v. }
  split; [split; cbn|]; try done.
  - replace (map ve_id (update_where _ _ _)) with (map ve_id (versions d)); [done|]. unfold update_where. rewrite map_map. apply map_ext_in.
    intros v Hv. symmetry. apply ad_id, Had, Hv.
  - intros w (v & Hv & ->)%Hget. destruct (guarded t i s v) eqn:Hg; [by apply Hf|by apply s3].
  - intros w w' (v & Hv & ->)%Hget (v' & Hv' & ->)%Hget Hw Hw' Hpol.
    assert (Hpv : ve_policyId v = ve_policyId v') by (pose proof (ad_policy _ _ (Had v Hv)); pose proof (ad_policy _ _ (Had v' Hv')); congruence).
    destruct (guarded t i s v) eqn:Hg, (guarded t i s v') eqn:Hg'.
    + by rewrite (Hone v v').
    + destruct (Hf v Hv Hg) as (_ & _ & _ & Hex). destruct (Hex Hw v' Hv'); [congruence|done|done].
    + destruct (Hf v' Hv' Hg') as (_ & _ & _ & Hex). destruct (Hex Hw' v Hv); [congruence|done|done].
    + by apply s4.
  - intros a Ha Hap. destruct (s5 a Ha Hap) as (v & Hv & Hav & Hnd & Hne & Hsub). exists (if guarded t i s v then f v else v).
    pose proof (Had v Hv) as Hadv. destruct (ad_frozen _ _ Hadv Hnd) as (_ & _ & Hsb). destruct Hav as (Ha1 & Ha2 & Ha3).
    split; [apply in_map_iff; by exists v|]. split; [split; [by rewrite (ad_id _ _ Hadv)|split; [by rewrite (ad_tenant _ _ Hadv)|done]]|].
    split; [by eapply leads_to_Draft; [apply (ad_status _ _ Hadv)|]|]. rewrite (ad_creator _ _ Hadv), Hsb. done.
  - intros w (v & Hv & ->)%Hget Hw. pose proof (Had v Hv) as Hadv.
    assert (exists a, In a (approvals d) /\ approves a v) as (a & Ha & Hav).
    { destruct (guarded t i s v) eqn:Hg; [by apply Hf|by apply s6]. }
    exists a. split; [done|]. destruct Hav as (? & ? & ?). unfold approves. by rewrite (ad_id _ _ Hadv), (ad_tenant _ _ Hadv).
  - split; cbn; [by exists []; rewrite app_nil_r| |by exists []; rewrite app_nil_r]. apply evolves_map. exact Had.
Qed.
Lemma create_approval_good r d u d' : sound d -> create_approval r d = Ret (u, d') ->
  (ap_decision r = "approved" -> exists v, In v (versions d) /\ approves r v /\ ve_status v <> Draft /\ ap_decidedBy r <> ve_createdBy v /\ ve_submittedBy v <> Some (ap_decidedBy r)) ->
  good_step d d' /\ versions d' = versions d /\ policies d' = policies d.
Proof.
  intros [s1 s2 s3 s4 s5 s6] H Hr. assert (d' = add_approval r d) as -> by (unfold create_approval in H; by run_inv). split; [|done]. split.
  - split; cbn; try done.
    + intros a [Ha|[<-|[]]]%in_app_iff Hap; [by apply s5|by apply Hr].
    + intros v Hv Hp. destruct (s6 v Hv Hp) as (a & Ha & Hav). exists a. split; [apply in_app_iff; by left|done].
  - split; cbn; [by exists []; rewrite app_nil_r|apply evolves_refl; apply version_advances_refl|by eexists].
Qed.
(** ** The services *)

Lemma strict_equal_string v s : strict_equal v (VString s) = true -> v = VString s.
Proof. destruct v as [| |b|[| | |q]|t|l|o]; try done. cbn. by intros ->%String.eqb_eq. Qed.
Lemma validate_run def d r d' : validate number_string def d = Ret (r, d') -> d' = d /\ validateChildSafetyPolicyDefinition number_string def = Ret r.
Proof. unfold validate. destruct (validateChildSafetyPolicyDefinition number_string def) as [x|[]]; intros H; by run_inv. Qed.
Definition good_definition (def : raw_value) (purpose : ChildSafetyPolicyPurpose) : Prop :=
  (exists res, validateChildSafetyPolicyDefinition number_string def = Ret res /\ valid res = true) /\ prop def "purpose" = VString (js_name purpose).
Lemma require_definition_run def purpose d u d' : require_definition number_string def purpose d = Ret (u, d') -> d' = d /\ good_definition def purpose.
Proof.
  unfold require_definition. intros H. apply bind_Ret in H as (r & d1 & (-> & Hv)%validate_run & H). run_inv. split; [done|].
  split; [|by apply strict_equal_string, negb_false_iff]. exists r. split; [done|by apply negb_false_iff].
Qed.
Lemma fresh_row_ok ps i actor p number def : In p ps -> po_tenantId p = ac_tenantId actor -> good_definition def (po_purpose p) ->
  row_ok ps (fresh_version number_string sha256 i actor (po_id p) number def).
Proof. intros Hp Ht [Hv Hpur]. repeat split; try done. exists p. done. Qed.

Ltac quietly := match goal with
  | H : audit _ _ _ _ _ _ = Ret (_, _) |- _ => apply audit_quiet in H
  | H : validate _ _ _ = Ret (_, _) |- _ => apply validate_run in H as [-> H]
  | H : require_definition _ _ _ _ = Ret (_, _) |- _ => apply require_definition_run in H as [-> H]
  end.
(** Invert a successful service. *)
Ltac service H := unfold assertView, assertManage, assertSubmit, assertApprove, assertActivate, assertSimulate, requirePolicy, requireVersion in H; run_inv; repeat quietly.

Lemma create_good e seen actor input d x d' : sound d -> createChildSafetyPolicy number_string sha256 e seen actor input d = Ret (x, d') -> good_step d d'.
Proof.
  intros Hs H. unfold createChildSafetyPolicy in H. service H.
  match goal with H : create_policy_row ?r _ = _, G : good_definition _ _ |- _ => destruct (create_policy_good _ _ _ _ Hs H) as [Hg Hin]; rename G into Hdef end.
  apply (good_trans _ _ _ Hg). intros Hs1.
  match goal with H : create_version _ _ = _ |- _ => eapply good_trans; [apply (fun P Q => create_version_good _ _ _ _ Hs1 P Q H); [|reflexivity]|] end.
  - match goal with H : In ?r _ |- _ => apply (fresh_row_ok _ _ _ r _ _ H); done end.
  - intros Hs2. apply quiet_good; [by eapply quiet_steps|done].
Qed.
Lemma version_good e seen actor policyId def d x d' : sound d -> later seen d ->
  createChildSafetyPolicyVersion number_string sha256 e seen actor policyId def d = Ret (x, d') -> good_step d d'.
Proof.
  intros Hs Hl H. unfold createChildSafetyPolicyVersion in H. service H.
  match goal with H : find_policy _ _ _ = Some ?p, G : good_definition _ _ |- _ => apply find_policy_Some in H as (Hin & <- & Ht) end.
  match goal with H : create_version _ _ = _ |- _ => eapply good_trans; [apply (fun P Q => create_version_good _ _ _ _ Hs P Q H); [|reflexivity]|] end.
  - apply fresh_row_ok; [by eapply later_policy|done..].
  - intros Hs2. by apply quiet_good.
Qed.
(** The row a guarded write changes is a later state of the row that was read. *)
Lemma guarded_later seen d t i s v w : sound d -> later seen d -> find_version seen t i = Some v -> In w (versions d) -> guarded t i s w = true -> advances v w /\ ve_status w = s.
Proof.
  intros Hs Hl (Hv & Hid & Ht)%find_version_Some Hw (Hwi & Hwt & Hws)%guarded_true. split; [|done].
  destruct (later_version _ _ _ Hl Hv) as (w' & Hw' & Had). replace w with w'; [done|].
  apply (NoDup_key_inj ve_id (versions d)); [apply Hs|done..|]. rewrite (ad_id _ _ Had). congruence.
Qed.
Lemma update_draft_good e seen actor versionId def d x d' : sound d -> sound seen -> later seen d ->
  updateChildSafetyPolicyDraft number_string sha256 e seen actor versionId def d = Ret (x, d') -> good_step d d'.
Proof.
  intros Hs _ Hl H. unfold updateChildSafetyPolicyDraft in H. service H.
  match goal with H : updateMany _ _ _ _ _ = _ |- _ => apply (fun P => proj1 (update_good _ _ _ _ _ _ _ Hs H P)) end. intros w Hw Hg.
  match goal with H : find_version _ _ _ = Some ?v |- _ => destruct (guarded_later _ _ _ _ _ _ _ Hs Hl H Hw Hg) as [Had Hst]; rename v into v0 end.
  match goal with H : find_policy _ _ _ = Some ?p |- _ => apply find_policy_Some in H as (Hp & Hpid & Hpt) end.
  split; [split; try done; cbn; by rewrite Hst|]. split; [|split; [intros [Hx|Hx]; cbn in Hx; congruence|cbn; congruence]].
  repeat split; try done; cbn.
  - apply (so_rows _ Hs w Hw).
  - match goal with H : validateChildSafetyPolicyDefinition _ _ = Ret ?r |- _ => exists r end. split; [done|by apply negb_false_iff].
  - match type of Hp with In ?p _ => exists p end. split; [by eapply later_policy|]. rewrite (ad_policy _ _ Had), (ad_tenant _ _ Had).
    split; [done|]. split; [|by apply strict_equal_string, negb_false_iff].
    match goal with H : find_version _ _ _ = Some _ |- _ => apply find_version_Some in H as (_ & _ & Ht) end. congruence.
Qed.
Lemma row_ok_kept ps v w : row_ok ps v -> ve_engineVersion w = ve_engineVersion v -> ve_definitionHash w = ve_definitionHash v -> ve_definition w = ve_definition v ->
  ve_policyId w = ve_policyId v -> ve_tenantId w = ve_tenantId v -> ve_submittedBy w <> None -> row_ok ps w.
Proof. intros (r1 & r2 & r3 & r4 & r5) E1 E2 E3 E4 E5 E6. unfold row_ok. rewrite E1, E2, E3, E4, E5. done. Qed.
Lemma submit_good e seen actor versionId d x d' : sound d -> later seen d ->
  submitChildSafetyPolicyVersion number_string e seen actor versionId d = Ret (x, d') -> good_step d d'.
Proof.
  intros Hs Hl H. unfold submitChildSafetyPolicyVersion in H. service H.
  match goal with H : updateMany _ _ _ _ _ = _ |- _ => eapply good_trans; [apply (fun P => proj1 (update_good _ _ _ _ _ _ _ Hs H P))|] end; [|intros Hs2; by apply quiet_good].
  intros w Hw Hg. apply guarded_true in Hg as (_ & _ & Hst).
  split; [split; try done; cbn; by rewrite Hst|]. split; [|split; [intros [Hx|Hx]; cbn in Hx; congruence|cbn; congruence]].
  apply (row_ok_kept _ w); [by apply Hs|done..].
Qed.
Lemma approve_good e seen actor versionId reason d x d' : sound d -> sound seen -> later seen d ->
  approveChildSafetyPolicyVersion e seen actor versionId reason d = Ret (x, d') -> good_step d d'.
Proof.
  intros Hs Hss Hl H. unfold approveChildSafetyPolicyVersion in H. service H.
  match goal with H : create_approval _ _ = _ |- _ => eapply good_trans; [apply (fun P => proj1 (create_approval_good _ _ _ _ Hs H P))|] end; [|intros Hs2; by apply quiet_good].
  intros _. match goal with H : find_version _ _ _ = Some ?v |- _ => apply find_version_Some in H as (Hv & Hid & Ht) end.
  destruct (later_version _ _ _ Hl Hv) as (w & Hw & Had). exists w.
  match goal with H : negb (_ =e PendingApproval) = false |- _ => apply negb_false_iff, enum_eqb_eq in H; rename H into Hst end.
  match goal with H : _ || _ = false |- _ => apply orb_false_iff in H as [Hc Hsub] end.
  assert (Hnd : ve_status x2 <> Draft) by congruence. destruct (ad_frozen _ _ Had Hnd) as (_ & _ & Hsb).
  split; [done|]. split; [unfold approves; cbn; by rewrite (ad_id _ _ Had), (ad_tenant _ _ Had)|].
  split; [by eapply leads_to_Draft; [apply (ad_status _ _ Had)|]|]. cbn. rewrite (ad_creator _ _ Had), Hsb. split; [by apply String.eqb_neq|].
  intros Heq. rewrite Heq in Hsub. cbn in Hsub. by rewrite String.eqb_refl in Hsub.
Qed.
Lemma reject_good e seen actor versionId reason d x d' : sound d -> later seen d ->
  rejectChildSafetyPolicyVersion e seen actor versionId reason d = Ret (x, d') -> good_step d d'.
Proof.
  intros Hs Hl H. unfold rejectChildSafetyPolicyVersion in H. service H.
  match goal with H : create_approval _ _ = _ |- _ => destruct (create_approval_good _ _ _ _ Hs H) as (Hg & Hv & Hp) end; [done|].
  apply (good_trans _ _ _ Hg). intros Hs1.
  match goal with H : updateMany _ _ _ _ _ = _ |- _ => eapply good_trans; [apply (fun P => proj1 (update_good _ _ _ _ _ _ _ Hs1 H P))|] end; [|intros Hs2; by apply quiet_good].
  intros w Hw Hgw. apply guarded_true in Hgw as (_ & _ & Hst).
  split; [split; try done; cbn; by rewrite Hst|]. split; [|split; [intros [Hx|Hx]; cbn in Hx; congruence|cbn; congruence]].
  pose proof (so_rows _ Hs1 w Hw) as Hrow. apply (row_ok_kept _ w); try done. destruct Hrow as (_ & _ & _ & _ & Hsub). apply Hsub. congruence.
Qed.

Lemma retire_good t i d n d' : sound d -> updateMany t i Active retired d = Ret (n, d') -> good_step d d'.
Proof.
  intros Hs H. apply (fun P => proj1 (update_good _ _ _ _ _ _ _ Hs H P)). intros w Hw (_ & _ & Hst)%guarded_true.
  pose proof (so_rows _ Hs w Hw) as Hrow. split; [split; try done; cbn; by rewrite Hst|]. split; [|split; [intros _; apply (so_promoted _ Hs w Hw); by left|cbn; congruence]].
  apply (row_ok_kept _ w); try done. destruct Hrow as (_ & _ & _ & _ & Hsub). apply Hsub. congruence.
Qed.
Lemma activate_row_good e seen actor v versionId retiredId d n d' : sound d -> later seen d -> find_version seen (ac_tenantId actor) versionId = Some v ->
  independent_approval seen (ac_tenantId actor) v = true ->
  existsb (guarded (ac_tenantId actor) (ve_id v) PendingApproval) (versions d) && other_active d (ve_policyId v) (ve_id v) = false ->
  updateMany (ac_tenantId actor) (ve_id v) PendingApproval (activated (ac_membershipId actor) (en_now e) retiredId) d = Ret (n, d') -> good_step d d'.
Proof.
  intros Hs Hl Hf Ha Hclash H. pose proof (find_version_Some _ _ _ _ Hf) as (Hv & Hid & Ht).
  apply (fun P => proj1 (update_good _ _ _ _ _ _ _ Hs H P)). intros w Hw Hg. rewrite <- Hid in Hf.
  destruct (guarded_later _ _ _ _ _ _ _ Hs Hl Hf Hw Hg) as [Had Hst]. pose proof (so_rows _ Hs w Hw) as Hrow.
  split; [split; try done; cbn; by rewrite Hst|]. split; [|split].
  - apply (row_ok_kept _ w); try done. destruct Hrow as (_ & _ & _ & _ & Hsub). apply Hsub. congruence.
  - intros _. apply existsb_exists in Ha as (a & Hin & Ha). rewrite !andb_true_iff, !String.eqb_eq in Ha. destruct Ha as [[[Hat Hav] Had'] _].
    exists a. split; [by eapply later_approval|]. unfold approves. rewrite (ad_id _ _ Had), (ad_tenant _ _ Had). by rewrite Hat, Hav, Ht.
  - intros _ x Hx Hne Hpol Hact. apply andb_false_iff in Hclash as [Hc|Hc].
    + by rewrite (existsb_false _ _ Hc w Hw) in Hg.
    + pose proof (existsb_false _ _ Hc x Hx) as Hcx. cbn in Hcx. rewrite Hpol, (ad_policy _ _ Had), String.eqb_refl, Hact in Hcx. cbn in Hcx.
      apply negb_false_iff, String.eqb_eq in Hcx. apply Hne. apply (NoDup_key_inj ve_id (versions d)); [apply Hs|done..|]. by rewrite Hcx, (ad_id _ _ Had).
Qed.
Lemma promote_good e seen inner actor v versionId d x d' : sound d -> later seen d -> find_version seen (ac_tenantId actor) versionId = Some v ->
  independent_approval seen (ac_tenantId actor) v = true -> promote e inner actor v d = Ret (x, d') -> good_step d d'.
Proof.
  intros Hs Hl Hf Ha H. unfold promote in H. apply bind_Ret in H as (r & d1 & H1 & H).
  assert (Hg : good_step d d1).
  { destruct (current_active inner (ac_tenantId actor) (ve_policyId v)); run_inv; [by eapply retire_good|]. split; [done|apply later_refl]. }
  apply (good_trans _ _ _ Hg). intros Hs1. clear H1. run_inv.
  match goal with H : updateMany _ _ _ _ _ = _ |- _ => eapply activate_row_good; [exact Hs1| |exact Hf|exact Ha|done|exact H] end.
  eapply later_trans; [exact Hl|apply Hg].
Qed.
Lemma activate_good e seen inner actor versionId d x d' : sound d -> later seen d ->
  activateChildSafetyPolicyVersion e seen inner actor versionId d = Ret (x, d') -> good_step d d'.
Proof.
  intros Hs Hl H. unfold activateChildSafetyPolicyVersion in H. unfold assertActivate, requireVersion in H. run_inv; repeat quietly.
  all: match goal with H : promote _ _ _ _ _ = _, G : negb (independent_approval _ _ _) = false |- _ => apply negb_false_iff in G;
    eapply good_trans; [eapply promote_good; [exact Hs|exact Hl|done|exact G|exact H]|intros Hs2; apply quiet_good; [|done]] end.
  all: try done; by eapply quiet_steps.
Qed.
Lemma evaluate_good e t purpose facts opts d x d' : sound d ->
  evaluateChildSafetyPolicyForTenant number_string sha256 toISOString e t purpose facts opts d = Ret (x, d') -> good_step d d'.
Proof.
  intros Hs H. apply quiet_good; [|done]. unfold evaluateChildSafetyPolicyForTenant, keep_decision, modify in H. run_inv; repeat quietly; done.
Qed.
Lemma simulate_good e actor v cases d x d' : sound d -> simulateChildSafetyPolicyVersion number_string toISOString e actor v cases d = Ret (x, d') -> good_step d d'.
Proof. intros Hs H. apply quiet_good; [|done]. unfold simulateChildSafetyPolicyVersion in H. service H. done. Qed.

Lemma exec_good e c seen inner d : sound d -> sound seen -> later seen d -> good_step d (run_command e c seen inner d).
Proof.
  intros Hs Hss Hl. assert (Hsame : good_step d d) by (split; [done|apply later_refl]).
  destruct c; cbn [exec]; unfold after; match goal with |- good_step d (match ?m d with _ => _ end) => destruct (m d) as [[? ?]|] eqn:H end; try exact Hsame.
  - by eapply create_good.
  - by eapply version_good.
  - by eapply update_draft_good.
  - by eapply submit_good.
  - by eapply approve_good.
  - by eapply reject_good.
  - by eapply activate_good.
  - by eapply evaluate_good.
  - by eapply simulate_good.
Qed.
Lemma history_good db past : run (db :: past) -> forall d, In d (db :: past) -> sound d /\ later d db.
Proof.
  remember (db :: past) as h eqn:Hh. intros H. revert db past Hh. induction H as [|e c seen inner d0 past0 H IH Hseen Hinner]; intros db past [= <- <-].
  - intros d [<-|[]]. split; [|apply later_refl]. split; cbn; try done; constructor.
  - destruct (IH _ _ eq_refl d0) as [Hs0 _]; [by left|]. destruct (IH _ _ eq_refl seen Hseen) as [Hss Hls].
    destruct (exec_good e c seen inner d0 Hs0 Hss Hls) as [Hs Hl].
    intros d [<-|Hd]; [split; [done|apply later_refl]|]. destruct (IH _ _ eq_refl d Hd) as [Hsd Hld]. split; [done|by eapply later_trans].
Qed.

(** C8 — two-person control, however calls interleave and however stale what they read: in every state any
    run reaches, a version that is active, or was, has an approval on record by a member who neither created
    nor submitted it. *)
Theorem activation_needs_two_people db past (v : version_row) : run (db :: past) -> In v (versions db) -> ve_status v = Active \/ ve_status v = Retired ->
  exists a s, In a (approvals db) /\ ap_versionId a = ve_id v /\ ap_tenantId a = ve_tenantId v /\ ap_decision a = "approved" /\
    ve_submittedBy v = Some s /\ ap_decidedBy a <> ve_createdBy v /\ ap_decidedBy a <> s.
Proof.
  intros H Hv Hst. destruct (history_good _ _ H db) as [Hs _]; [by left|]. destruct (so_promoted _ Hs v Hv Hst) as (a & Ha & Hav).
  destruct Hav as (Hid & Ht & Hdec). destruct (so_approvals _ Hs a Ha Hdec) as (w & Hw & (Hid' & _ & _) & Hnd & Hc & Hsub).
  assert (v = w) as <- by (apply (NoDup_key_inj ve_id (versions db)); [apply Hs|done|done|congruence]).
  destruct (ve_submittedBy v) as [s|] eqn:Hsb; [|by destruct (so_rows _ Hs v Hv) as (_ & _ & _ & _ & Hx); destruct Hx].
  exists a, s. repeat split; try done. congruence.
Qed.

(** C12 — from submission on a version is frozen: whatever runs afterwards, it is still there with the same
    definition, hash, creator, submitter, number and policy, it is never a draft again, and its status only
    moves forward (pending to active or rejected, active to retired). At no time are two versions of one
    policy active. *)
Theorem submitted_version_frozen db past old (v : version_row) : run (db :: past) -> In old (db :: past) -> In v (versions old) -> ve_status v <> Draft ->
  (exists w, In w (versions db) /\ ve_id w = ve_id v /\ ve_definition w = ve_definition v /\ ve_definitionHash w = ve_definitionHash v /\
    ve_createdBy w = ve_createdBy v /\ ve_submittedBy w = ve_submittedBy v /\ ve_versionNumber w = ve_versionNumber v /\ ve_policyId w = ve_policyId v /\
    leads_to (ve_status v) (ve_status w) = true /\ ve_status w <> Draft) /\
  (forall x y, In x (versions db) -> In y (versions db) -> ve_status x = Active -> ve_status y = Active -> ve_policyId x = ve_policyId y -> x = y).
Proof.
  intros H Hold Hv Hnd. destruct (history_good _ _ H old Hold) as [_ Hl]. destruct (history_good _ _ H db) as [Hs _]; [by left|].
  split; [|apply Hs]. destruct (later_version _ _ _ Hl Hv) as (w & Hw & [h1 h2 h3 h4 h5 h6 h7]). destruct (h7 Hnd) as (? & ? & ?).
  exists w. repeat split; try done. by eapply leads_to_Draft.
Qed.

(** What a fail-closed answer is. *)
Definition closed (r : ChildSafetyPolicyEvaluationResult) : Prop :=
  r_ok r = false /\ manualOnly (r_decision r) = true /\ requireReview (r_decision r) = true /\ prohibitGuardianContact (r_decision r) = true /\
  allowAutomaticIntervention (r_decision r) = false /\ automaticInterventionBounds (r_decision r) = [] /\
  allowGuardianContactConsideration (r_decision r) = false /\ proposedActions (r_decision r) = [].
Lemma failClosed_closed p c t i : closed (failClosedDecision p c t i).
Proof. done. Qed.
Lemma read_definition_purpose def d : read_definition def = Some d -> prop def "purpose" = VString (js_name (df_purpose d)) /\ as_finite (prop def "schemaVersion") = Some (df_schemaVersion d).
Proof.
  unfold read_definition. destruct (as_finite (prop def "schemaVersion")) as [q|] eqn:Hq; [|done]. destruct (isPolicyPurpose (prop def "purpose")) as [p|] eqn:Hp; [|done].
  destruct (parse_value (prop def "defaultEffect")); [|done]. destruct (read_all read_rule (prop def "rules")); [|done]. intros [= <-].
  cbn. split; [|done]. unfold isPolicyPurpose, parse_value in Hp. destruct (prop def "purpose"); try done. by apply parse_Some in Hp as <-.
Qed.
Lemma active_for_in d t p v : In v (active_for d t p) -> In v (versions d) /\ ve_tenantId v = t /\ ve_status v = Active /\ policy_purpose d v = Some p.
Proof.
  unfold active_for. intros [Hin H]%filter_In. rewrite !andb_true_iff, String.eqb_eq, enum_eqb_eq, bool_decide_eq_true in H. tauto.
Qed.
(** The gate lets an active version of a sound state through. *)
Lemma gated_evaluation_open d t purpose facts at_ v : sound d -> In v (active_for d t purpose) ->
  exists val def, validateChildSafetyPolicyDefinition number_string (ve_definition v) = Ret val /\ read_definition (ve_definition v) = Some def /\ definition_wf def /\
    df_purpose def = purpose /\ gated_evaluation number_string sha256 purpose facts at_ v val =
      evaluateChildSafetyPolicy number_string {| in_purpose := purpose; in_facts := facts; in_evaluatedAt := at_; in_includeUnmatched := false |} def.
Proof.
  intros Hs (Hv & Ht & Hst & Hpol)%active_for_in. destruct (so_rows _ Hs v Hv) as (He & Hh & (val & Hval & Hok) & (p & Hp & Hpi & Hpt & Hpp) & _).
  destruct (validated_typed number_string (ve_definition v) val Hval Hok) as (_ & def & Hdef & Hwf & _). exists val, def.
  destruct (read_definition_purpose _ _ Hdef) as [Hdp Hsv].
  assert (df_purpose def = purpose) as Hpur.
  { unfold policy_purpose in Hpol. destruct (find_policy d (ve_tenantId v) (ve_policyId v)) as [p'|] eqn:Hf; [|done]. injection Hpol as <-.
    apply find_policy_Some in Hf as (Hp' & Hpi' & _). assert (p = p') as <- by (apply (NoDup_key_inj po_id (policies d)); [apply Hs|done|done|congruence]).
    rewrite Hpp in Hdp. injection Hdp as Hn. symmetry. by apply js_name_inj. }
  do 4 (split; [done|]). unfold gated_evaluation. rewrite He, Hh, !String.eqb_refl, Hok. cbn [negb orb].
  destruct (prop (ve_definition v) "schemaVersion") as [| | |[| | |q]| | |]; try done. injection Hsv as ->.
  cbn [strict_equal]. rewrite (proj2 (Qeq_bool_iff _ _) (dw_version _ Hwf)). cbn [negb]. by rewrite Hdef.
Qed.

Lemma svc_bind {A B} (m : svc A) (k : A -> svc B) d a d' : m d = Ret (a, d') -> (m ≫= k) d = k a d'.
Proof. intros H. unfold mbind, tx_bind. by rewrite H. Qed.
Lemma audit_runs e t a ev tg d : exists d', audit e t a ev tg d = Ret (tt, d') /\ quiet d d' /\ decisions d' = decisions d.
Proof. unfold audit, modify. destruct (en_auditLost e); eexists; by repeat split. Qed.
Lemma keep_decision_runs e p row d : exists d', keep_decision e p row d = Ret (tt, d') /\ quiet d d' /\
  decisions d' = decisions d ++ (if p && negb (en_decisionLost e) then [row] else []).
Proof.
  unfold keep_decision. destruct p; cbn [negb andb]; [|exists d; by rewrite app_nil_r]. destruct (en_decisionLost e); cbn [negb].
  - rewrite (svc_bind (mret tt) _ d tt d) by done. destruct (audit_runs e (de_tenantId row) (Some "system") "child_safety.policy.decision_evaluated" (de_versionId row) d) as (d' & -> & Hq & Hd).
    exists d'. by rewrite Hd, app_nil_r.
  - rewrite (svc_bind (modify (add_decision row)) _ d tt (add_decision row d)) by done.
    destruct (audit_runs e (de_tenantId row) (Some "system") "child_safety.policy.decision_evaluated" (de_versionId row) (add_decision row d)) as (d' & -> & Hq & Hd).
    by exists d'.
Qed.
Lemma evaluation_open i def : in_purpose i = df_purpose def ->
  r_ok (evaluateChildSafetyPolicy number_string i def) = true /\ r_engineVersion (evaluateChildSafetyPolicy number_string i def) = CHILD_SAFETY_POLICY_ENGINE_VERSION /\
  r_canonicalInput (evaluateChildSafetyPolicy number_string i def) = canonicalPolicyInput number_string (in_purpose i) (in_facts i).
Proof. intros Hi. unfold evaluateChildSafetyPolicy. by rewrite Hi, enum_eqb_refl. Qed.

(** C11 — the evaluation for a tenant, in every state any run reaches: it never throws, changes nothing but
    the logs, and answers with the deterministic engine on the validated definition of the one active
    version for the purpose; with no such version, with several, or when they cannot be read, the answer is
    the closed one (manual work and review, nothing automatic, no guardian contact) and no decision is
    recorded. The integrity checks on a stored version never fail on what the services stored. *)
Theorem tenant_evaluation_exact db past e tenantId purpose facts opts : run (db :: past) ->
  exists r db', evaluateChildSafetyPolicyForTenant number_string sha256 toISOString e tenantId purpose facts opts db = Ret (r, db') /\ quiet db db' /\
    match (if en_readFails e then [] else active_for db tenantId purpose) with
    | [v] => exists def, read_definition (ve_definition v) = Some def /\ definition_wf def /\ df_purpose def = purpose /\
        tr_result r = evaluateChildSafetyPolicy number_string
          {| in_purpose := purpose; in_facts := facts; in_evaluatedAt := toISOString (en_now e); in_includeUnmatched := false |} def /\
        r_ok (tr_result r) = true /\ tr_versionId r = Some (ve_id v) /\ tr_fingerprint r = sha256 (canonicalPolicyInput number_string purpose facts) /\
        decisions db' = decisions db ++ (if (eo_persist opts ?? true) && negb (en_decisionLost e) then
          [{| de_id := en_id e; de_tenantId := tenantId; de_policyId := ve_policyId v; de_versionId := ve_id v; de_purpose := purpose;
              de_contextType := cut 32 (eo_contextType opts); de_contextId := option_map (cut 64) (eo_contextId opts); de_fingerprint := tr_fingerprint r;
              de_code := summarizeDecision (tr_result r); de_decision := r_decision (tr_result r); de_explanation := r_explanationCodes (tr_result r);
              de_engineVersion := CHILD_SAFETY_POLICY_ENGINE_VERSION; de_correlationId := option_map (cut 64) (eo_correlationId opts); de_evaluatedAt := en_now e |}] else [])
    | _ => closed (tr_result r) /\ decisions db' = decisions db
    end.
Proof.
  intros H. destruct (history_good _ _ H db) as [Hs _]; [by left|]. unfold evaluateChildSafetyPolicyForTenant.
  rewrite (svc_bind get _ db db db) by done. unfold resolveActiveVersion.
  set (hits := if en_readFails e then [] else active_for db tenantId purpose).
  replace (if en_readFails e then NoActive else match active_for db tenantId purpose with [] => NoActive | [v] => TheActive v | _ => Ambiguous end)
    with (match hits with [] => NoActive | [v] => TheActive v | _ => Ambiguous end) by (unfold hits; by destruct (en_readFails e)).
  assert (Hin : forall v, In v hits -> In v (active_for db tenantId purpose)) by (intros v; unfold hits; by destruct (en_readFails e)).
  destruct hits as [|v [|v' l]].
  - destruct (audit_runs e tenantId (Some "system") "child_safety.policy.evaluation_failed" (eo_contextId opts ?? js_name purpose) db) as (d' & Hd' & Hq & Hdec).
    rewrite (svc_bind _ _ _ _ _ Hd'). by eexists _, d'.
  - destruct (gated_evaluation_open db tenantId purpose facts (toISOString (en_now e)) v Hs) as (val & def & Hval & Hdef & Hwf & Hpur & Hopen); [apply Hin; by left|].
    rewrite (svc_bind (validate number_string (ve_definition v)) _ db val db) by (unfold validate; by rewrite Hval). cbv zeta. rewrite Hopen.
    destruct (evaluation_open {| in_purpose := purpose; in_facts := facts; in_evaluatedAt := toISOString (en_now e); in_includeUnmatched := false |} def (eq_sym Hpur)) as (Hok & Hev & Hcan).
    match goal with |- context [keep_decision e ?p ?row] => destruct (keep_decision_runs e p row db) as (d' & Hd' & Hq & Hdec) end.
    rewrite (svc_bind _ _ _ _ _ Hd'). eexists _, d'. split; [done|]. split; [exact Hq|]. exists def. cbn [tr_result tr_versionId tr_fingerprint] in *.
    rewrite Hdec, Hev, Hcan. done.
  - destruct (audit_runs e tenantId (Some "system") "child_safety.policy.evaluation_failed" (eo_contextId opts ?? js_name purpose) db) as (d' & Hd' & Hq & Hdec).
    rewrite (svc_bind _ _ _ _ _ Hd'). by eexists _, d'.
Qed.

End Kept.

(** * Concrete runs *)

Definition plain_env (id_ : string) : env := {| en_now := 1; en_id := id_; en_id2 := id_ +:+ "v"; en_auditLost := false; en_decisionLost := false; en_readFails := false |}.
Definition member_ (m : string) : PolicyActor := {| ac_tenantId := "t"; ac_userId := m +:+ "_user"; ac_membershipId := m; ac_role := Access.Owner |}.
Definition no_hash (s : string) : string := s.
Definition no_iso (_ : Z) : string := "2026-01-01T00:00:00.000Z".
(** Commands one after the other, each reading what the last one left. *)
Fixpoint play (cs : list (env * command)) (h : list PolicyDb) : list PolicyDb :=
  match cs, h with
  | [], _ | _, [] => h
  | (e, c) :: r, db :: _ => play r (exec unary no_hash no_iso e c db db db :: h)
  end.
Lemma play_history cs h : history unary no_hash no_iso h -> history unary no_hash no_iso (play cs h).
Proof.
  revert h. induction cs as [|[e c] cs IH]; intros [|db past] H; try done. cbn [play]. apply IH. constructor; [done|by left|by left].
Qed.
Definition input_for (def : raw_value) : PolicyInput :=
  {| pi_policyKey := "contact-rules"; pi_purpose := "INTERVENTION_AUTHORIZATION"; pi_displayName := "Contact"; pi_description := None; pi_definition := def |}.
Definition usual_life : list (env * command) :=
  [(plain_env "p", C_create (member_ "ann") (input_for sample_policy)); (plain_env "s", C_submit (member_ "ann") "pv");
   (plain_env "a", C_approve (member_ "bob") "pv" None); (plain_env "x", C_activate (member_ "ann") "pv")].
Definition usual_states : list PolicyDb := play usual_life [no_policies].
Definition last_state (h : list PolicyDb) : PolicyDb := match h with db :: _ => db | [] => no_policies end.
Definition past_states (h : list PolicyDb) : list PolicyDb := match h with _ :: l => l | [] => [] end.
Lemma usual_run : history unary no_hash no_iso (last_state usual_states :: past_states usual_states).
Proof. exact (play_history usual_life [no_policies] (history_start _ _ _)). Qed.
Definition the_version (db : PolicyDb) : version_row := nullish (head (versions db)) (fresh_version unary no_hash "" (member_ "") "" 0 VNull).

Lemma activation_needs_two_people_witness :
  let v := the_version (last_state usual_states) in
  ve_status v = Active /\ exists a s, In a (approvals (last_state usual_states)) /\ ap_versionId a = "pv" /\ ve_submittedBy v = Some s /\ ap_decidedBy a <> s.
Proof.
  split; [vm_compute; reflexivity|].
  destruct (activation_needs_two_people unary no_hash no_iso (last_state usual_states) (past_states usual_states) (the_version (last_state usual_states)) usual_run) as (a & s & Ha & Hid & _ & _ & Hs & _ & Hne).
  - vm_compute. left. reflexivity.
  - left. vm_compute. reflexivity.
  - exists a, s. split; [exact Ha|]. split; [rewrite Hid; vm_compute; reflexivity|]. split; [exact Hs|exact Hne].
Defined.

(** The state right after the submission, two states before the last. *)
Definition after_submission : PolicyDb := nullish (nth_error usual_states 2) no_policies.
Lemma submitted_version_frozen_witness :
  let v := the_version after_submission in
  ve_status v = PendingApproval /\ exists w, In w (versions (last_state usual_states)) /\ ve_id w = "pv" /\ ve_definition w = ve_definition v /\ ve_status w <> Draft.
Proof.
  split; [vm_compute; reflexivity|].
  destruct (submitted_version_frozen unary no_hash no_iso (last_state usual_states) (past_states usual_states) after_submission (the_version after_submission) usual_run) as ((w & Hw & Hid & Hdef & _ & _ & _ & _ & _ & _ & Hnd) & _).
  - vm_compute. right. right. left. reflexivity.
  - vm_compute. left. reflexivity.
  - vm_compute. discriminate.
  - exists w. split; [exact Hw|]. split; [rewrite Hid; vm_compute; reflexivity|]. split; [exact Hdef|exact Hnd].
Defined.

Definition some_options : EvaluateOptions := {| eo_contextType := "incident"; eo_contextId := Some "i1"; eo_correlationId := None; eo_persist := None |}.
Lemma tenant_evaluation_exact_witness :
  map ve_id (active_for (last_state usual_states) "t" InterventionAuthorization) = ["pv"] /\
  exists r db', evaluateChildSafetyPolicyForTenant unary no_hash no_iso (plain_env "d") "t" InterventionAuthorization sample_facts some_options (last_state usual_states) = Ret (r, db') /\
    r_matchedRuleIds (tr_result r) = ["contact"; "urgent"] /\ length (decisions db') = 1%nat.
Proof.
  split; [vm_compute; reflexivity|].
  destruct (tenant_evaluation_exact unary no_hash no_iso (last_state usual_states) (past_states usual_states) (plain_env "d") "t" InterventionAuthorization sample_facts some_options usual_run) as (r & db' & Hrun & _ & _).
  exists r, db'. split; [exact Hrun|]. revert Hrun. vm_compute. intros H. injection H as <- <-. split; reflexivity.
Defined.

(** * Departures from the documentation *)

(** What another member may do to a draft. *)
Definition rewritten_policy : raw_value := policy_json [contact_rule].
Definition own_text : list PolicyDb := play
  [(plain_env "p", C_create (member_ "ann") (input_for sample_policy)); (plain_env "u", C_update (member_ "bob") "pv" rewritten_policy);
   (plain_env "s", C_submit (member_ "ann") "pv"); (plain_env "a", C_approve (member_ "bob") "pv" None); (plain_env "x", C_activate (member_ "ann") "pv")] [no_policies].
(** independence is checked against who created and who submitted a version, not against who wrote what
    it says: a member who replaces the whole text of a draft is nowhere on record and may then approve it. *)
Theorem editor_approves_own_text :
  let v := the_version (last_state own_text) in
  ve_status v = Active /\ ve_definition v = rewritten_policy /\ map ap_decidedBy (approvals (last_state own_text)) = ["bob"] /\
  ve_createdBy v = "ann" /\ ve_submittedBy v = Some "ann" /\ ve_activatedBy v = Some "ann".
Proof. vm_compute. by repeat split. Qed.

Definition self_rejection : list PolicyDb := play
  [(plain_env "p", C_create (member_ "ann") (input_for sample_policy)); (plain_env "s", C_submit (member_ "bob") "pv");
   (plain_env "r", C_reject (member_ "bob") "pv" "")] [no_policies].
(** a rejection is independent of the creator only: the member who submitted a version may reject it. *)
Theorem submitter_may_reject :
  let v := the_version (last_state self_rejection) in ve_status v = Rejected /\ ve_submittedBy v = Some "bob" /\ ve_rejectedBy v = Some "bob".
Proof. vm_compute. by repeat split. Qed.
End SafetyPolicyStore.
