(* ===== verification/FamilyStore.v ===== *)
(** The family-safety tables and the transactions over them
    ([packages/db/src/tenant-db.ts], the shared part of
    [packages/db/src/child-safety-consent.ts],
    [child-safety-recipient-authorization.ts] and [child-safety-delivery.ts]):
    rows, the lookup and update every repository uses, and the state-and-error
    monad in which a throw discards the writes of its transaction. *)
From S2P Require Import Prelude Tx Access Workspace Disclosure Outbox.
Open Scope string_scope.
Open Scope list_scope.
Open Scope Z_scope.
Open Scope tam_scope.

Module FamilyStore.
Export Tx.

(** * Rows *)

(* src: packages/core/src/child-safety-signal.ts:141-141 ConsentType *)
Inductive ConsentType :=
| CTGuardian | CTChildAssent | CTPlatform | CTPilotParticipation | CTEvidenceSharing | CTExpertReview.
#[export] Instance ConsentType_dec : EqDecision ConsentType.
Proof. solve_decision. Defined.
#[export] Program Instance ConsentType_enum : JsEnum ConsentType := {|
  js_name x := match x with
    | CTGuardian => "guardian" | CTChildAssent => "child_assent" | CTPlatform => "platform"
    | CTPilotParticipation => "pilot_participation" | CTEvidenceSharing => "evidence_sharing"
    | CTExpertReview => "expert_review" end;
  js_values :=
    [CTGuardian; CTChildAssent; CTPlatform; CTPilotParticipation; CTEvidenceSharing; CTExpertReview] |}.
Solve All Obligations with solve_js_enum.

(* src: packages/core/src/child-safety-signal.ts:145-145 GuardianAuthorityLevel *)
Inductive GuardianAuthorityLevel :=
| LevelFull | LevelLimited | LevelReadOnly.
#[export] Instance GuardianAuthorityLevel_dec : EqDecision GuardianAuthorityLevel.
Proof. solve_decision. Defined.
#[export] Program Instance GuardianAuthorityLevel_enum : JsEnum GuardianAuthorityLevel := {|
  js_name x := match x with
    | LevelFull => "full" | LevelLimited => "limited" | LevelReadOnly => "read_only" end;
  js_values :=
    [LevelFull; LevelLimited; LevelReadOnly] |}.
Solve All Obligations with solve_js_enum.

(* src: packages/core/src/child-safety-signal.ts:147-147 GuardianRelationshipStatus *)
Inductive GuardianRelationshipStatus :=
| RelPending | RelVerified | RelSuspended | RelRevoked.
#[export] Instance GuardianRelationshipStatus_dec : EqDecision GuardianRelationshipStatus.
Proof. solve_decision. Defined.
#[export] Program Instance GuardianRelationshipStatus_enum : JsEnum GuardianRelationshipStatus := {|
  js_name x := match x with
    | RelPending => "pending" | RelVerified => "verified" | RelSuspended => "suspended"
    | RelRevoked => "revoked" end;
  js_values :=
    [RelPending; RelVerified; RelSuspended; RelRevoked] |}.
Solve All Obligations with solve_js_enum.


(* src: packages/core/src/child-safety-consent.ts:73-78 AssessmentPurpose *)
Inductive AssessmentPurpose :=
| PurposeSafetyInformation | PurposeSafetySignal | PurposeIncidentSummary | PurposeEmergencyContact.
#[export] Instance AssessmentPurpose_dec : EqDecision AssessmentPurpose.
Proof. solve_decision. Defined.
#[export] Program Instance AssessmentPurpose_enum : JsEnum AssessmentPurpose := {|
  js_name x := match x with
    | PurposeSafetyInformation => "safety_information" | PurposeSafetySignal => "safety_signal"
    | PurposeIncidentSummary => "incident_summary" | PurposeEmergencyContact => "emergency_contact" end;
  js_values :=
    [PurposeSafetyInformation; PurposeSafetySignal; PurposeIncidentSummary; PurposeEmergencyContact] |}.
Solve All Obligations with solve_js_enum.

(* src: packages/core/src/child-safety-consent.ts:104-113 SafeRecipientReasonCode *)
Inductive SafeRecipientReasonCode :=
| RCIdentityUnverified | RCInsufficientAuthority | RCConsentMissing | RCConflictOfInterest
| RCPolicyRestriction | RCGuardianRequest | RCExpertReferral | RCOther.
#[export] Instance SafeRecipientReasonCode_dec : EqDecision SafeRecipientReasonCode.
Proof. solve_decision. Defined.
#[export] Program Instance SafeRecipientReasonCode_enum : JsEnum SafeRecipientReasonCode := {|
  js_name x := match x with
    | RCIdentityUnverified => "identity_unverified" | RCInsufficientAuthority => "insufficient_authority"
    | RCConsentMissing => "consent_missing" | RCConflictOfInterest => "conflict_of_interest"
    | RCPolicyRestriction => "policy_restriction" | RCGuardianRequest => "guardian_request"
    | RCExpertReferral => "expert_referral" | RCOther => "other" end;
  js_values :=
    [RCIdentityUnverified; RCInsufficientAuthority; RCConsentMissing; RCConflictOfInterest;
     RCPolicyRestriction; RCGuardianRequest; RCExpertReferral; RCOther] |}.
Solve All Obligations with solve_js_enum.


(** A guardian relationship, a protected profile, a membership: the columns the
    repositories read. *)
Record relationship := {
  r_id : string; r_tenant : string; r_status : string; r_type : string; r_profile : string;
  r_guardian : string; r_revokedAt : option Z; r_archivedAt : option Z }.
Record profile := { pr_id : string; pr_tenant : string; pr_status : string; pr_archivedAt : option Z }.
Record membership := { m_id : string; m_tenant : string; m_userId : string; m_role : string }.

(* src: packages/db/src/child-safety-consent.ts:54-58 GuardianAuthorityRecordVM *)
Record authority := {
  au_id : string; au_tenant : string; au_rel : string; au_type : string; au_level : string;
  au_state : Disclosure.AuthorityRecordState; au_verifiedAt : option Z; au_method : option string;
  au_createdAt : Z; au_updatedAt : Z }.
(* src: packages/db/src/child-safety-consent.ts:59-63 ConsentRecordVM *)
Record consent := {
  co_id : string; co_tenant : string; co_profile : string; co_rel : option string; co_type : string;
  co_state : Disclosure.ConsentRecordState; co_createdAt : Z }.
(* src: packages/db/src/child-safety-consent.ts:64-68 SafeRecipientAssessmentVM *)
Record assessment := {
  as_id : string; as_tenant : string; as_rel : string; as_purpose : string;
  as_state : Disclosure.AssessmentRecordState; as_reason : option string; as_createdAt : Z }.

(** A safety signal, with the columns disclosure reads. *)
Record signal := {
  sg_id : string; sg_tenant : string; sg_profile : string; sg_type : string; sg_severity : string;
  sg_bucket : option string; sg_archivedAt : option Z }.

(* src: packages/db/src/child-safety-recipient-authorization.ts:48-54 RecipientAuthorizationDecisionVM *)
Record decision := {
  de_id : string; de_tenant : string; de_signal : string; de_profile : string; de_recipient : string;
  de_rel : option string; de_authority : option string; de_consent : option string; de_assessment : option string;
  de_scope : string; de_reason : string; de_evaluatedAt : Z;
  de_state : Disclosure.RecipientAuthorizationDecisionState; de_createdAt : Z }.

(* src: packages/db/src/child-safety-delivery.ts:54-61 SafetySignalDeliveryVM *)
Record delivery := {
  dl_id : string; dl_tenant : string; dl_signal : string; dl_profile : string; dl_decision : string;
  dl_recipient : string; dl_channel : string; dl_scope : string; dl_type : string; dl_severity : string;
  dl_bucket : option string; dl_action : option string; dl_key : string;
  dl_state : Disclosure.SafetyDeliveryRowState; dl_availableAt : option Z; dl_acknowledgedAt : option Z;
  dl_acknowledgedBy : option string; dl_declinedBy : option string; dl_createdAt : Z }.

(* src: packages/db/src/child-safety-consent.ts:37-40 audit *)
Record audit_row := {
  ad_tenant : string; ad_event : string; ad_actor : string; ad_targetType : string; ad_targetId : string }.

Record family_db := {
  relationships : list relationship; profiles : list profile; memberships : list membership;
  authorities : list authority; consents : list consent; assessments : list assessment;
  signals : list signal; decisions : list decision; deliveries : list delivery;
  audit_log : list audit_row; outbox : Outbox.table }.

(** ** Row identity

    Every table is keyed by (id, tenant); a repository only finds and changes the
    rows of the tenant its transaction is opened for. *)
Class Row (R : Type) := { row_id : R -> string; row_tenant : R -> string }.
#[export] Instance relationship_row : Row relationship := {| row_id := r_id; row_tenant := r_tenant |}.
#[export] Instance profile_row : Row profile := {| row_id := pr_id; row_tenant := pr_tenant |}.
#[export] Instance membership_row : Row membership := {| row_id := m_id; row_tenant := m_tenant |}.
#[export] Instance authority_row : Row authority := {| row_id := au_id; row_tenant := au_tenant |}.
#[export] Instance consent_row : Row consent := {| row_id := co_id; row_tenant := co_tenant |}.
#[export] Instance assessment_row : Row assessment := {| row_id := as_id; row_tenant := as_tenant |}.
#[export] Instance signal_row : Row signal := {| row_id := sg_id; row_tenant := sg_tenant |}.
#[export] Instance decision_row : Row decision := {| row_id := de_id; row_tenant := de_tenant |}.
#[export] Instance delivery_row : Row delivery := {| row_id := dl_id; row_tenant := dl_tenant |}.

Section Rows.
Context {R : Type} `{Row R}.

Definition is_row (tenant id : string) (r : R) : bool := (row_id r =s id) && (row_tenant r =s tenant).
(** [findFirst({ where: { id, tenantId } })] *)
Definition find_row (rows : list R) (tenant id : string) : option R := List.find (is_row tenant id) rows.
(** [update({ where: { id }, data })], under the tenant's row-level security *)
Definition update_row (tenant id : string) (f : R -> R) (rows : list R) : list R :=
  map (fun r => if is_row tenant id r then f r else r) rows.
(** The rows of the other tenants. *)
Definition foreign_rows (tenant : string) (rows : list R) : list R :=
  List.filter (fun r => negb (row_tenant r =s tenant)) rows.

(** An update keeps the identity of the rows it changes. *)
Class KeepsKey (f : R -> R) := keeps_key r : row_id (f r) = row_id r /\ row_tenant (f r) = row_tenant r.

Lemma is_row_iff tenant id r : is_row tenant id r = true <-> row_id r = id /\ row_tenant r = tenant.
Proof. unfold is_row. by rewrite andb_true_iff, !String.eqb_eq. Qed.

Lemma find_row_Some rows tenant id r :
  find_row rows tenant id = Some r -> In r rows /\ row_id r = id /\ row_tenant r = tenant.
Proof. intros [Hin Hr]%List.find_some. by apply is_row_iff in Hr. Qed.

Lemma In_update_row tenant id f rows r :
  In r (update_row tenant id f rows) <->
  exists r0, In r0 rows /\ r = if is_row tenant id r0 then f r0 else r0.
Proof. unfold update_row. rewrite in_map_iff. split; intros (r0 & ? & ?); eauto. Qed.

Lemma foreign_update tenant id f rows `{!KeepsKey f} : foreign_rows tenant (update_row tenant id f rows) = foreign_rows tenant rows.
Proof.
  unfold foreign_rows, update_row. induction rows as [|r rows IH]; simpl; [done|].
  destruct (is_row tenant id r) eqn:Hr; simpl; [|by rewrite IH].
  apply is_row_iff in Hr as [_ Hr]. rewrite (proj2 (keeps_key r)), Hr, String.eqb_refl. done.
Qed.

Lemma foreign_app tenant rows r : row_tenant r = tenant -> foreign_rows tenant (rows ++ [r]) = foreign_rows tenant rows.
Proof.
  intros Hr. unfold foreign_rows. rewrite List.filter_app. simpl. by rewrite Hr, String.eqb_refl, app_nil_r.
Qed.

(** What an update leaves to be found. *)
Lemma find_update tenant id f rows rec `{!KeepsKey f} :
  find_row rows tenant id = Some rec -> find_row (update_row tenant id f rows) tenant id = Some (f rec).
Proof.
  unfold find_row, update_row. induction rows as [|r rows IH]; simpl; [done|].
  destruct (is_row tenant id r) eqn:Hr.
  - intros [= ->]. assert (Hf : is_row tenant id (f rec) = true); [|by rewrite Hf].
    apply is_row_iff. apply is_row_iff in Hr as [<- <-]. apply keeps_key.
  - rewrite Hr. exact IH.
Qed.

Lemma ids_update tenant id f rows `{!KeepsKey f} : map row_id (update_row tenant id f rows) = map row_id rows.
Proof.
  unfold update_row. rewrite map_map. apply map_ext. intros r. destruct (is_row tenant id r); [|done]. apply keeps_key.
Qed.
End Rows.

(** * Transactions *)

(** The errors the services throw; [OtherError] is an [Error] of a callee. *)
(* src: packages/db/src/child-safety-family.ts:22-38 FamilyForbiddenError *)
Inductive FamilyError :=
| FamilyForbiddenError (reason : string) | FamilyNotFoundError (kind : string) | FamilyValidationError (field : string)
| DeliveryNotEligibleError (reasonCode : string) | OtherError (message : string).

(** The services compute in transactions over these tables. *)
Abbreviation M := (tx family_db FamilyError).

(* src: packages/db/src/tenant-db.ts:28-56 withTenantDb *)
Definition withTenant {A} (tenantId : string) (fn : M A) : M A :=
  if negb (nonempty tenantId) then throw (OtherError "withTenantDb: a validated tenantId is required") else fn.

(** Writes to one table. *)
Definition set_authorities (l : list authority) (db : family_db) : family_db :=
  {| relationships := relationships db; profiles := profiles db; memberships := memberships db; authorities := l;
     consents := consents db; assessments := assessments db; signals := signals db; decisions := decisions db;
     deliveries := deliveries db; audit_log := audit_log db; outbox := outbox db |}.
Definition set_consents (l : list consent) (db : family_db) : family_db :=
  {| relationships := relationships db; profiles := profiles db; memberships := memberships db; authorities := authorities db;
     consents := l; assessments := assessments db; signals := signals db; decisions := decisions db;
     deliveries := deliveries db; audit_log := audit_log db; outbox := outbox db |}.
Definition set_assessments (l : list assessment) (db : family_db) : family_db :=
  {| relationships := relationships db; profiles := profiles db; memberships := memberships db; authorities := authorities db;
     consents := consents db; assessments := l; signals := signals db; decisions := decisions db;
     deliveries := deliveries db; audit_log := audit_log db; outbox := outbox db |}.
Definition set_decisions (l : list decision) (db : family_db) : family_db :=
  {| relationships := relationships db; profiles := profiles db; memberships := memberships db; authorities := authorities db;
     consents := consents db; assessments := assessments db; signals := signals db; decisions := l;
     deliveries := deliveries db; audit_log := audit_log db; outbox := outbox db |}.
Definition set_deliveries (l : list delivery) (db : family_db) : family_db :=
  {| relationships := relationships db; profiles := profiles db; memberships := memberships db; authorities := authorities db;
     consents := consents db; assessments := assessments db; signals := signals db; decisions := decisions db;
     deliveries := l; audit_log := audit_log db; outbox := outbox db |}.
Definition set_audit (l : list audit_row) (db : family_db) : family_db :=
  {| relationships := relationships db; profiles := profiles db; memberships := memberships db; authorities := authorities db;
     consents := consents db; assessments := assessments db; signals := signals db; decisions := decisions db;
     deliveries := deliveries db; audit_log := l; outbox := outbox db |}.
Definition set_outbox (l : Outbox.table) (db : family_db) : family_db :=
  {| relationships := relationships db; profiles := profiles db; memberships := memberships db; authorities := authorities db;
     consents := consents db; assessments := assessments db; signals := signals db; decisions := decisions db;
     deliveries := deliveries db; audit_log := audit_log db; outbox := l |}.

(** ** Shared guards *)

(* src: packages/db/src/child-safety-consent.ts:33-36 assertFamily *)
Definition assertFamily (actor : Workspace.FamilyActorContext) (action : Workspace.FamilyAction) : M () :=
  match Workspace.authorizeFamilyAction actor action with
  | Workspace.Authorized => mret tt
  | Workspace.Refused reason => throw (FamilyForbiddenError reason)
  end.

(** [const v = validateChildSafetyInput(input, fields); if (!v.ok) throw ...] *)
Definition assertFields (keys allowed : list string) : M () :=
  let v := Workspace.validateChildSafetyInput (Workspace.RawObject keys) allowed in
  throw_if (negb (Workspace.v_ok v))
    (FamilyValidationError (match Workspace.v_errors v with (_, f) :: _ => f | [] => "$" end)).

Definition write_audit (actor : Workspace.FamilyActorContext) (event targetType targetId : string) : M () :=
  db ← get;
  put (set_audit (audit_log db ++ [{| ad_tenant := Workspace.tenantId actor; ad_event := event;
    ad_actor := Workspace.userId actor; ad_targetType := targetType; ad_targetId := targetId |}]) db).

(** The actor's membership in the tenant. *)
Definition membership_of (db : family_db) (tenant user : string) : option membership :=
  List.find (fun m => (m_userId m =s user) && (m_tenant m =s tenant)) (memberships db).

(* src: packages/db/src/child-safety-consent.ts:42-46 actorMembershipId *)
Definition actorMembershipId (actor : Workspace.FamilyActorContext) : M string :=
  db ← get;
  m ← found (membership_of db (Workspace.tenantId actor) (Workspace.userId actor)) (FamilyForbiddenError "role_forbidden");
  mret (m_id m).

(* src: packages/db/src/child-safety-family.ts:73-77 isActiveGuardianRelationship *)
Definition isActiveGuardianRelationship (r : relationship) : bool :=
  negb (r_status r =s js_name RelRevoked) && negb (r_status r =s js_name RelSuspended) &&
  is_none (r_revokedAt r) && is_none (r_archivedAt r).

(* src: packages/db/src/child-safety-consent.ts:48-50 relationshipIsVerifiedActive *)
Definition relationshipIsVerifiedActive (r : relationship) : bool :=
  (r_status r =s js_name RelVerified) && is_none (r_revokedAt r) && is_none (r_archivedAt r).

(** What the database and the clock supply to one call: the ids of the rows it
    creates, and the time of each. *)
Record stamp := { newId : string; eventId : string; clock : Z }.

(** Newest first: [orderBy: { createdAt: "desc" }]. *)
Definition newest_first {R} (createdAt : R -> Z) (rows : list R) : list R :=
  js_sort (fun a b => createdAt b - createdAt a) rows.

(** ** Running the guards *)

Lemma assertFamily_Ret actor action db u db' :
  assertFamily actor action db = Ret (u, db') <-> Workspace.authorizeFamilyAction actor action = Workspace.Authorized /\ u = tt /\ db' = db.
Proof.
  unfold assertFamily. destruct (Workspace.authorizeFamilyAction actor action); [rewrite mret_Ret|rewrite throw_Ret]; [tauto|].
  split; [done|by intros [? _]].
Qed.
Lemma assertFields_Ret keys allowed db u db' : assertFields keys allowed db = Ret (u, db') -> db' = db.
Proof. unfold assertFields. by intros (_ & _ & ->)%throw_if_Ret. Qed.
Lemma withTenant_Ret {A} t (m : M A) db r : withTenant t m db = Ret r -> m db = Ret r.
Proof. unfold withTenant. by destruct (negb (nonempty t)). Qed.
Lemma actorMembershipId_Ret actor db a db' :
  actorMembershipId actor db = Ret (a, db') ->
  db' = db /\ exists m, membership_of db (Workspace.tenantId actor) (Workspace.userId actor) = Some m /\ a = m_id m.
Proof. unfold actorMembershipId. intros H. run_inv. eauto. Qed.

(** Run a transaction to its end: the tables it leaves, as writes over the tables
    it started from. *)
Ltac run_store :=
  repeat (run_inv;
    match goal with
    | H : assertFamily _ _ _ = Ret (_, _) |- _ => apply assertFamily_Ret in H as (? & ? & ?)
    | H : assertFields _ _ _ = Ret (_, _) |- _ => apply assertFields_Ret in H
    | H : withTenant _ _ _ = Ret _ |- _ => apply withTenant_Ret in H
    | H : actorMembershipId _ _ = Ret (_, _) |- _ => apply actorMembershipId_Ret in H as (? & ? & ? & ?)
    | H : write_audit _ _ _ _ _ = Ret (_, _) |- _ => unfold write_audit in H
    end); run_inv.

End FamilyStore.
