(* ===== verification/Household.v ===== *)
(** The household: protected profiles, guardian relationships and guardian invitations
    ([packages/db/src/child-safety-family.ts], [family-invitation.ts]) under the
    capacity guard of the family plan ([family-billing-guard.ts]).

    Every service is one transaction. The capacity guard takes a lock per tenant and
    resource, the partial unique indexes settle the races it does not cover; both make
    the services atomic here. *)
From S2P Require Import Prelude Billing Entitlements FamilyBilling Tx Access Workspace Outbox FamilyStore.
Open Scope string_scope.
Open Scope list_scope.
Open Scope Z_scope.
Open Scope tam_scope.

Module Household.
Import Workspace FamilyStore.
Export Tx.

(** * State *)

(* src: packages/core/src/child-safety-signal.ts:136-137 AgeBand *)
Inductive AgeBand := Under10 | Age10to12 | Age13to15 | Age16to17.
#[export] Instance AgeBand_dec : EqDecision AgeBand.
Proof. solve_decision. Defined.
#[export] Program Instance AgeBand_enum : JsEnum AgeBand := {|
  js_name b := match b with Under10 => "under_10" | Age10to12 => "age_10_12" | Age13to15 => "age_13_15" | Age16to17 => "age_16_17" end;
  js_values := [Under10; Age10to12; Age13to15; Age16to17] |}.
Solve All Obligations with solve_js_enum.
(* src: packages/core/src/child-safety-signal.ts:162-162 ProtectionStatus *)
Inductive ProtectionStatus := PS_Inactive | PS_Monitoring | PS_Active | PS_Paused.
#[export] Instance ProtectionStatus_dec : EqDecision ProtectionStatus.
Proof. solve_decision. Defined.
#[export] Program Instance ProtectionStatus_enum : JsEnum ProtectionStatus := {|
  js_name b := match b with PS_Inactive => "inactive" | PS_Monitoring => "monitoring" | PS_Active => "active" | PS_Paused => "paused" end;
  js_values := [PS_Inactive; PS_Monitoring; PS_Active; PS_Paused] |}.
Solve All Obligations with solve_js_enum.
(* src: packages/core/src/child-safety-signal.ts:144-144 GuardianRelationshipType *)
Inductive GuardianRelationshipType := RT_Parent | RT_LegalGuardian | RT_TrustedAdult | RT_SafetyProfessional.
#[export] Instance GuardianRelationshipType_dec : EqDecision GuardianRelationshipType.
Proof. solve_decision. Defined.
#[export] Program Instance GuardianRelationshipType_enum : JsEnum GuardianRelationshipType := {|
  js_name b := match b with RT_Parent => "parent" | RT_LegalGuardian => "legal_guardian" | RT_TrustedAdult => "trusted_adult"
                          | RT_SafetyProfessional => "safety_professional" end;
  js_values := [RT_Parent; RT_LegalGuardian; RT_TrustedAdult; RT_SafetyProfessional] |}.
Solve All Obligations with solve_js_enum.
(* src: packages/core/src/child-safety-signal.ts:156-157 GuardianRole *)
Inductive GuardianRole := GR_Primary | GR_Secondary | GR_Emergency | GR_ViewOnly.
#[export] Instance GuardianRole_dec : EqDecision GuardianRole.
Proof. solve_decision. Defined.
#[export] Program Instance GuardianRole_enum : JsEnum GuardianRole := {|
  js_name b := match b with GR_Primary => "primary" | GR_Secondary => "secondary" | GR_Emergency => "emergency" | GR_ViewOnly => "view_only" end;
  js_values := [GR_Primary; GR_Secondary; GR_Emergency; GR_ViewOnly] |}.
Solve All Obligations with solve_js_enum.

(** The relationship columns [status], [authorityLevel] and the profile columns hold raw
    text; the services write the literals of the enumerations. *)
(* src: packages/db/src/child-safety-family.ts:58-63 GuardianRelationshipVM *)
Record guardian := {
  g_id : string; g_tenant : string; g_member : string; g_profile : string; g_type : string; g_level : string; g_role : string;
  g_status : GuardianRelationshipStatus; g_consentStatus : string; g_consentType : option string; g_eligibility : string;
  g_createdAt : Z; g_revokedAt : option Z; g_archivedAt : option Z }.
(* src: packages/db/src/child-safety-family.ts:53-57 ProtectedProfileVM *)
Record prof := {
  p_id : string; p_tenant : string; p_label : option string; p_ageBand : string; p_protection : string; p_language : option string;
  p_archivedAt : option Z }.
Record member := { hm_id : string; hm_tenant : string; hm_user : string; hm_role : Access.Role }.
(* src: packages/db/src/family-invitation.ts:60-64 FamilyInvitationVM *)
Record invitation := {
  fi_id : string; fi_tenant : string; fi_profile : string; fi_invitedBy : string; fi_email : string; fi_familyRole : string; fi_guardianRole : string;
  fi_type : string; fi_status : Workspace.FamilyInvitationStatus; fi_hash : string; fi_expiresAt : Z; fi_acceptedBy : option string;
  fi_acceptedAt : option Z; fi_declinedAt : option Z; fi_revokedAt : option Z }.
(** The columns of a tenant the capacity guard reads. *)
Record plan_row := { pl_tenant : string; pl_plan : string; pl_access : string; pl_deletionState : string }.
Record event := { ev_tenant : string; ev_name : string; ev_actor : string; ev_targetType : string; ev_target : string }.

Record household := {
  guardians : list guardian; profs : list prof; members : list member; invitations : list invitation;
  emails : list (string * string); plans : list plan_row; events : list event; box : Outbox.table }.
Definition set_guardians (l : list guardian) (d : household) : household :=
  {| guardians := l; profs := profs d; members := members d; invitations := invitations d; emails := emails d; plans := plans d;
     events := events d; box := box d |}.
Definition set_profs (l : list prof) (d : household) : household :=
  {| guardians := guardians d; profs := l; members := members d; invitations := invitations d; emails := emails d; plans := plans d;
     events := events d; box := box d |}.
Definition set_members (l : list member) (d : household) : household :=
  {| guardians := guardians d; profs := profs d; members := l; invitations := invitations d; emails := emails d; plans := plans d;
     events := events d; box := box d |}.
Definition set_invitations (l : list invitation) (d : household) : household :=
  {| guardians := guardians d; profs := profs d; members := members d; invitations := l; emails := emails d; plans := plans d;
     events := events d; box := box d |}.
Definition set_events (l : list event) (d : household) : household :=
  {| guardians := guardians d; profs := profs d; members := members d; invitations := invitations d; emails := emails d; plans := plans d;
     events := l; box := box d |}.
Definition set_box (l : Outbox.table) (d : household) : household :=
  {| guardians := guardians d; profs := profs d; members := members d; invitations := invitations d; emails := emails d; plans := plans d;
     events := events d; box := l |}.

#[export] Instance guardian_row : Row guardian := {| row_id := g_id; row_tenant := g_tenant |}.
#[export] Instance prof_row : Row prof := {| row_id := p_id; row_tenant := p_tenant |}.
#[export] Instance member_row : Row member := {| row_id := hm_id; row_tenant := hm_tenant |}.
#[export] Instance invitation_row : Row invitation := {| row_id := fi_id; row_tenant := fi_tenant |}.

(** The errors the services throw. *)
(* src: packages/core/src/family-entitlement-error.ts:40-53 FamilyEntitlementError *)
Inductive HouseholdError :=
| Family (e : FamilyError)
| FamilyEntitlementError (code : string) (resource : FamilyBilling.FamilyLimitedResource) (usage : option (Z * Z))
| UniqueViolation (index : string)
| InvitationActivationError (reason : string).
Abbreviation HM := (tx household HouseholdError).

Definition modify (f : household -> household) : HM () := d ← get; put (f d).
(* src: packages/db/src/child-safety-family.ts:40-43 assertFamily *)
Definition assertFamily (actor : Workspace.FamilyActorContext) (action : Workspace.FamilyAction) : HM () :=
  match Workspace.authorizeFamilyAction actor action with
  | Workspace.Authorized => mret tt
  | Workspace.Refused reason => throw (Family (FamilyForbiddenError reason))
  end.
Definition invalid {A} (field : string) : HM A := throw (Family (FamilyValidationError field)).
Definition missing {A} (o : option A) (kind : string) : HM A := found o (Family (FamilyNotFoundError kind)).
Definition check (b : bool) (field : string) : HM () := throw_if (negb b) (Family (FamilyValidationError field)).
Definition assertFields (keys allowed : list string) : HM () :=
  let v := Workspace.validateChildSafetyInput (Workspace.RawObject keys) allowed in
  check (Workspace.v_ok v) (match Workspace.v_errors v with (_, f) :: _ => f | [] => "$" end).
(* src: packages/db/src/child-safety-family.ts:45-49 audit *)
Definition audit (tenant name actor targetType target : string) : HM () :=
  modify (fun d => set_events (events d ++ [{| ev_tenant := tenant; ev_name := name; ev_actor := actor; ev_targetType := targetType;
                                               ev_target := target |}]) d).
Definition withTenant {A} (tenantId : string) (fn : HM A) : HM A :=
  if negb (nonempty tenantId) then throw (Family (OtherError "withTenant: a validated tenantId is required")) else fn.

(** * Capacity *)

(* src: packages/db/src/child-safety-family.ts:73-77 isActiveGuardianRelationship *)
Definition active (g : guardian) : bool :=
  negb (g_status g =e RelRevoked) && negb (g_status g =e RelSuspended) && is_none (g_revokedAt g) && is_none (g_archivedAt g).

(* src: packages/db/src/family-billing-guard.ts:68-86 countFamilyResource *)
Definition counted (tenant : string) (r : FamilyBilling.FamilyLimitedResource) (now : Z) (d : household) : Z :=
  match r with
  | FamilyBilling.res_protected_profile => count (fun p => (p_tenant p =s tenant) && is_none (p_archivedAt p)) (profs d)
  | FamilyBilling.res_guardian =>
      count (fun g => (g_tenant g =s tenant) && is_none (g_revokedAt g) && is_none (g_archivedAt g) && negb (g_status g =e RelRevoked)) (guardians d)
  | FamilyBilling.res_family_member => count (fun m => hm_tenant m =s tenant) (members d)
  | FamilyBilling.res_invitation => count (fun i => (fi_tenant i =s tenant) && (fi_status i =e Workspace.FI_Pending) && (now <? fi_expiresAt i)) (invitations d)
  end.

(* src: packages/db/src/family-billing-guard.ts:57-65 resolveFamilyEntitlementsForTenant *)
Definition resolveFamilyEntitlementsForTenant (tenant : string) (d : household) : FamilyBilling.FamilyEntitlements :=
  match List.find (fun p => pl_tenant p =s tenant) (plans d) with
  | None => FamilyBilling.resolveFamilyEntitlements None None false
  | Some p => FamilyBilling.resolveFamilyEntitlements (Some (pl_plan p)) (Some (pl_access p)) (negb (pl_deletionState p =s "active"))
  end.

(** A capacity that reads as undefined is never reached: [current >= undefined] is false. *)
(* src: packages/db/src/family-billing-guard.ts:104-130 enforceFamilyCapacity *)
Definition enforceFamilyCapacity (enabled : bool) (tenant : string) (r : FamilyBilling.FamilyLimitedResource) (now : Z) : HM () :=
  if negb enabled then mret tt
  else
    d ← get;
    let ent := resolveFamilyEntitlementsForTenant tenant d in
    throw_if (negb (FamilyBilling.canManageFamily ent)) (FamilyEntitlementError "family_access_restricted" r None);;
    match FamilyBilling.familyResourceLimit ent r with
    | Unlimited | Undefined => mret tt
    | Cap max => let current := counted tenant r now d in
                 throw_if (max <=? current) (FamilyEntitlementError "family_plan_limit_reached" r (Some (current, max)))
    end.

(** * Profiles *)

(* src: packages/core/src/child-safety-family.ts:352-352 isAgeBand *)
Definition isAgeBand (x : option string) : bool := is_some (parse_opt (A := AgeBand) x).
(* src: packages/core/src/child-safety-family.ts:353-353 isProtectionStatus *)
Definition isProtectionStatus (x : option string) : bool := is_some (parse_opt (A := ProtectionStatus) x).
(* src: packages/core/src/child-safety-family.ts:354-354 isGuardianRelationshipType *)
Definition isGuardianRelationshipType (x : string) : bool := is_some (parse (A := GuardianRelationshipType) x).
(* src: packages/core/src/child-safety-family.ts:355-355 isGuardianAuthorityLevel *)
Definition isGuardianAuthorityLevel (x : string) : bool := is_some (parse (A := GuardianAuthorityLevel) x).
(* src: packages/core/src/child-safety-family.ts:357-357 isGuardianRole *)
Definition isGuardianRole (x : string) : bool := is_some (parse (A := GuardianRole) x).
(* src: packages/core/src/child-safety-family.ts:359-359 isConsentType *)
Definition isConsentType (x : string) : bool := is_some (parse (A := ConsentType) x).

(** An input object: its keys in order, and the four fields, absent or null alike. *)
Record profile_input := {
  pi_keys : list string; pi_label : option string; pi_ageBand : option string; pi_protection : option string; pi_language : option string }.

Section Services.
(** [sha256] in hex; [enabled] is the family billing flag. *)
Context (sha256 : string -> string) (enabled : bool).

(* src: packages/db/src/child-safety-family.ts:128-146 createProtectedProfile *)
Definition createProtectedProfile (st : stamp) (actor : Workspace.FamilyActorContext) (input : profile_input) : HM prof :=
  assertFamily actor Workspace.ProtectedProfileManage;;
  assertFields (pi_keys input) Workspace.PROTECTED_PROFILE_CREATE_FIELDS;;
  check (isAgeBand (pi_ageBand input)) "ageBand";;
  let protectionStatus := pi_protection input ?? js_name PS_Inactive in
  check (isProtectionStatus (Some protectionStatus)) "protectionStatus";;
  check (match pi_language input with Some l => Workspace.isProfileLanguage l | None => true end) "language";;
  let t := Workspace.tenantId actor in
  withTenant t (
    enforceFamilyCapacity enabled t FamilyBilling.res_protected_profile (clock st);;
    let row := {| p_id := newId st; p_tenant := t; p_label := pi_label input; p_ageBand := pi_ageBand input ?? ""; p_protection := protectionStatus;
                  p_language := pi_language input; p_archivedAt := None |} in
    modify (fun d => set_profs (profs d ++ [row]) d);;
    audit t "child_safety.protected_profile.created" (Workspace.userId actor) "protected_profile" (newId st);;
    mret row).

Definition update_prof (t id : string) (f : prof -> prof) : HM () := modify (fun d => set_profs (update_row t id f (profs d)) d).
Definition opt_eqb (a b : option string) : bool :=
  match a, b with Some x, Some y => x =s y | None, None => true | _, _ => false end.

(** The guardian label as stored: trimmed, at most 80 characters, [null] when empty. *)
(* src: packages/db/src/child-safety-family.ts:164-164 updateProtectedProfile *)
Definition normalizedLabel (l : option string) : option string :=
  let s := String.substring 0 80 (trim (l ?? "")) in if nonempty s then Some s else None.
Definition patched (i : profile_input) (p : prof) : prof :=
  let has k := includes (pi_keys i) k in
  {| p_id := p_id p; p_tenant := p_tenant p; p_label := if has "guardianLabel" then normalizedLabel (pi_label i) else p_label p;
     p_ageBand := if has "ageBand" then pi_ageBand i ?? "" else p_ageBand p;
     p_protection := if has "protectionStatus" then pi_protection i ?? "" else p_protection p;
     p_language := if has "language" then pi_language i else p_language p; p_archivedAt := p_archivedAt p |}.
(* src: packages/db/src/child-safety-family.ts:155-184 updateProtectedProfile *)
Definition updateProtectedProfile (actor : Workspace.FamilyActorContext) (id : string) (i : profile_input) : HM prof :=
  assertFamily actor Workspace.ProtectedProfileManage;;
  assertFields (pi_keys i) Workspace.PROTECTED_PROFILE_UPDATE_FIELDS;;
  let has k := includes (pi_keys i) k in
  check (negb (has "ageBand") || isAgeBand (pi_ageBand i)) "ageBand";;
  check (negb (has "protectionStatus") || isProtectionStatus (pi_protection i)) "protectionStatus";;
  check (negb (has "language") || match pi_language i with Some l => Workspace.isProfileLanguage l | None => true end) "language";;
  check (has "guardianLabel" || has "ageBand" || has "protectionStatus" || has "language") "$";;
  let t := Workspace.tenantId actor in
  withTenant t (
    d ← get;
    existing ← missing (find_row (profs d) t id) "protected_profile";
    throw_if (is_some (p_archivedAt existing)) (Family (FamilyValidationError "archived"));;
    let row := patched i existing in
    if opt_eqb (p_label row) (p_label existing) && (p_ageBand row =s p_ageBand existing) && (p_protection row =s p_protection existing) &&
       opt_eqb (p_language row) (p_language existing)
    then mret existing
    else
      update_prof t id (patched i);;
      audit t "child_safety.protected_profile.updated" (Workspace.userId actor) "protected_profile" id;;
      mret row).

Definition with_archived (a : option Z) (p : prof) : prof :=
  {| p_id := p_id p; p_tenant := p_tenant p; p_label := p_label p; p_ageBand := p_ageBand p; p_protection := p_protection p;
     p_language := p_language p; p_archivedAt := a |}.
(* src: packages/db/src/child-safety-family.ts:187-197 restoreProtectedProfile *)
Definition restoreProtectedProfile (actor : Workspace.FamilyActorContext) (id : string) : HM prof :=
  assertFamily actor Workspace.ProtectedProfileManage;;
  let t := Workspace.tenantId actor in
  withTenant t (
    d ← get;
    existing ← missing (find_row (profs d) t id) "protected_profile";
    check (is_some (p_archivedAt existing)) "not_archived";;
    update_prof t id (with_archived None);;
    audit t "child_safety.protected_profile.restored" (Workspace.userId actor) "protected_profile" id;;
    mret (with_archived None existing)).
(* src: packages/db/src/child-safety-family.ts:216-226 archiveProtectedProfile *)
Definition archiveProtectedProfile (st : stamp) (actor : Workspace.FamilyActorContext) (id : string) : HM prof :=
  assertFamily actor Workspace.ProtectedProfileManage;;
  let t := Workspace.tenantId actor in
  withTenant t (
    d ← get;
    existing ← missing (find_row (profs d) t id) "protected_profile";
    if is_some (p_archivedAt existing) then mret existing
    else
      update_prof t id (with_archived (Some (clock st)));;
      audit t "child_safety.protected_profile.archived" (Workspace.userId actor) "protected_profile" id;;
      mret (with_archived (Some (clock st)) existing)).

(** * Guardian relationships *)

(** The unique index over relationships that are neither revoked nor archived. *)
Definition same_link (t m p ty : string) (g : guardian) : bool :=
  (g_tenant g =s t) && (g_member g =s m) && (g_profile g =s p) && (g_type g =s ty) && is_none (g_revokedAt g) && is_none (g_archivedAt g).
(* src: packages/db/src/child-safety-family.ts:113-124 activePrimaryExists *)
Definition activePrimaryExists (t profile : string) (excludeId : option string) (d : household) : bool :=
  existsb (fun g => (g_tenant g =s t) && (g_profile g =s profile) && (g_role g =s js_name GR_Primary) && active g &&
                    match excludeId with Some x => negb (g_id g =s x) | None => true end) (guardians d).

Definition new_guardian (st : stamp) (t m p ty level role : string) (consentType : option string) : guardian := {|
  g_id := newId st; g_tenant := t; g_member := m; g_profile := p; g_type := ty; g_level := level; g_role := role; g_status := RelPending;
  g_consentStatus := "not_requested"; g_consentType := consentType; g_eligibility := "not_verified"; g_createdAt := clock st;
  g_revokedAt := None; g_archivedAt := None |}.
Definition insert_guardian (g : guardian) : HM () :=
  d ← get;
  throw_if (existsb (same_link (g_tenant g) (g_member g) (g_profile g) (g_type g)) (guardians d)) (UniqueViolation "gr_one_active_per_guardian_profile_type");;
  throw_if (existsb (fun x => g_id x =s g_id g) (guardians d)) (UniqueViolation "id");;
  put (set_guardians (guardians d ++ [g]) d).

(* src: packages/db/src/child-safety-family.ts:230-230 createGuardianRelationship *)
Record relationship_input := {
  ri_keys : list string; ri_member : string; ri_profile : string; ri_type : string; ri_level : string; ri_role : string;
  ri_consentType : option string }.
(** The partial unique index behind the primary check cannot fire here: see
    [one_active_primary]. *)
(* src: packages/db/src/child-safety-family.ts:230-273 createGuardianRelationship *)
Definition createGuardianRelationship (st : stamp) (actor : Workspace.FamilyActorContext) (i : relationship_input) : HM guardian :=
  assertFamily actor Workspace.GuardianRelationshipManage;;
  assertFields (ri_keys i) Workspace.GUARDIAN_RELATIONSHIP_CREATE_FIELDS;;
  check (isGuardianRelationshipType (ri_type i)) "relationshipType";;
  check (isGuardianAuthorityLevel (ri_level i)) "authorityLevel";;
  check (isGuardianRole (ri_role i)) "guardianRole";;
  check (match ri_consentType i with Some c => isConsentType c | None => true end) "consentType";;
  let t := Workspace.tenantId actor in
  withTenant t (
    d ← get;
    _ ← missing (find_row (members d) t (ri_member i)) "guardian_relationship";
    profile ← missing (find_row (profs d) t (ri_profile i)) "protected_profile";
    throw_if (is_some (p_archivedAt profile)) (Family (FamilyNotFoundError "protected_profile"));;
    throw_if ((ri_role i =s js_name GR_Primary) && activePrimaryExists t (ri_profile i) None d) (Family (FamilyValidationError "primary_guardian_conflict"));;
    enforceFamilyCapacity enabled t FamilyBilling.res_guardian (clock st);;
    let row := new_guardian st t (ri_member i) (ri_profile i) (ri_type i) (ri_level i) (ri_role i) (ri_consentType i) in
    insert_guardian row;;
    audit t "child_safety.guardian_relationship.created" (Workspace.userId actor) "guardian_relationship" (newId st);;
    mret row).

Definition set_role (r : string) (g : guardian) : guardian := {|
  g_id := g_id g; g_tenant := g_tenant g; g_member := g_member g; g_profile := g_profile g; g_type := g_type g; g_level := g_level g; g_role := r;
  g_status := g_status g; g_consentStatus := g_consentStatus g; g_consentType := g_consentType g; g_eligibility := g_eligibility g;
  g_createdAt := g_createdAt g; g_revokedAt := g_revokedAt g; g_archivedAt := g_archivedAt g |}.
Definition set_state (s : GuardianRelationshipStatus) (revoked archived : option Z) (g : guardian) : guardian := {|
  g_id := g_id g; g_tenant := g_tenant g; g_member := g_member g; g_profile := g_profile g; g_type := g_type g; g_level := g_level g;
  g_role := g_role g; g_status := s; g_consentStatus := g_consentStatus g; g_consentType := g_consentType g; g_eligibility := g_eligibility g;
  g_createdAt := g_createdAt g; g_revokedAt := revoked; g_archivedAt := archived |}.
Definition update_guardian (t id : string) (f : guardian -> guardian) : HM () := modify (fun d => set_guardians (update_row t id f (guardians d)) d).
Definition find_guardian (t id : string) : HM guardian := d ← get; missing (find_row (guardians d) t id) "guardian_relationship".
Definition not_terminal (g : guardian) : HM () :=
  throw_if (is_some (g_revokedAt g) || is_some (g_archivedAt g)) (Family (FamilyValidationError "invalid_state")).
Definition change_guardian (actor : Workspace.FamilyActorContext) (id name : string) (f : guardian -> guardian) (g : guardian) : HM guardian :=
  update_guardian (Workspace.tenantId actor) id f;;
  audit (Workspace.tenantId actor) name (Workspace.userId actor) "guardian_relationship" id;;
  mret (f g).

(* src: packages/db/src/child-safety-family.ts:281-300 updateGuardianRole *)
Definition updateGuardianRole (actor : Workspace.FamilyActorContext) (id role : string) : HM guardian :=
  assertFamily actor Workspace.GuardianRelationshipManage;;
  check (isGuardianRole role) "guardianRole";;
  withTenant (Workspace.tenantId actor) (
    existing ← find_guardian (Workspace.tenantId actor) id;
    not_terminal existing;;
    if g_role existing =s role then mret existing
    else
      d ← get;
      throw_if ((role =s js_name GR_Primary) && activePrimaryExists (Workspace.tenantId actor) (g_profile existing) (Some id) d)
        (Family (FamilyValidationError "primary_guardian_conflict"));;
      change_guardian actor id "child_safety.guardian_relationship.role_changed" (set_role role) existing).

(* src: packages/db/src/child-safety-family.ts:307-318 deactivateGuardianRelationship *)
Definition deactivateGuardianRelationship (actor : Workspace.FamilyActorContext) (id : string) : HM guardian :=
  assertFamily actor Workspace.GuardianRelationshipManage;;
  withTenant (Workspace.tenantId actor) (
    existing ← find_guardian (Workspace.tenantId actor) id;
    not_terminal existing;;
    if g_status existing =e RelSuspended then mret existing
    else change_guardian actor id "child_safety.guardian_relationship.deactivated"
           (fun g => set_state RelSuspended (g_revokedAt g) (g_archivedAt g) g) existing).

(* src: packages/db/src/child-safety-family.ts:326-344 reactivateGuardianRelationship *)
Definition reactivateGuardianRelationship (actor : Workspace.FamilyActorContext) (id : string) : HM guardian :=
  assertFamily actor Workspace.GuardianRelationshipManage;;
  withTenant (Workspace.tenantId actor) (
    existing ← find_guardian (Workspace.tenantId actor) id;
    not_terminal existing;;
    if negb (g_status existing =e RelSuspended) then mret existing
    else
      d ← get;
      throw_if ((g_role existing =s js_name GR_Primary) && activePrimaryExists (Workspace.tenantId actor) (g_profile existing) (Some id) d)
        (Family (FamilyValidationError "primary_guardian_conflict"));;
      change_guardian actor id "child_safety.guardian_relationship.reactivated"
        (fun g => set_state RelPending (g_revokedAt g) (g_archivedAt g) g) existing).

(* src: packages/db/src/child-safety-family.ts:358-368 revokeGuardianRelationship *)
Definition revokeGuardianRelationship (st : stamp) (actor : Workspace.FamilyActorContext) (id : string) : HM guardian :=
  assertFamily actor Workspace.GuardianRelationshipManage;;
  withTenant (Workspace.tenantId actor) (
    existing ← find_guardian (Workspace.tenantId actor) id;
    if is_some (g_revokedAt existing) then mret existing
    else change_guardian actor id "child_safety.guardian_relationship.revoked"
           (fun g => set_state RelRevoked (Some (clock st)) (g_archivedAt g) g) existing).

(* src: packages/db/src/child-safety-family.ts:371-381 archiveGuardianRelationship *)
Definition archiveGuardianRelationship (st : stamp) (actor : Workspace.FamilyActorContext) (id : string) : HM guardian :=
  assertFamily actor Workspace.GuardianRelationshipManage;;
  withTenant (Workspace.tenantId actor) (
    existing ← find_guardian (Workspace.tenantId actor) id;
    if is_some (g_archivedAt existing) then mret existing
    else change_guardian actor id "child_safety.guardian_relationship.archived"
           (fun g => set_state (g_status g) (g_revokedAt g) (Some (clock st)) g) existing).

(** * Invitations *)

(** [/^[^\s@]+@[^\s@]+\.[^\s@]+$/]: one at sign, no white space, and in the domain a dot
    with something on either side. *)
Definition str_has (p : ascii -> bool) (s : string) : bool := negb (str_forallb (fun c => negb (p c)) s).
Fixpoint split_at_sign (s : string) : option (string * string) :=
  match s with
  | EmptyString => None
  | String c r => if Ascii.eqb c "@" then Some (EmptyString, r)
                  else match split_at_sign r with Some (a, b) => Some (String c a, b) | None => None end
  end.
(** A dot after at least one character and before at least one. *)
Definition inner_dot (s : string) : bool :=
  match s with
  | EmptyString => false
  | String _ r => str_has (Ascii.eqb ".") (String.substring 0 (pred (String.length r)) r)
  end.
(* src: packages/db/src/family-invitation.ts:42-42 EMAIL_RE *)
Definition EMAIL_RE (s : string) : bool :=
  match split_at_sign s with
  | Some (a, b) => nonempty a && str_forallb (fun c => negb (is_ws c)) a &&
                   str_forallb (fun c => negb (is_ws c || Ascii.eqb c "@")) b && inner_dot b
  | None => false
  end.

Definition with_fi (s : FamilyInvitationStatus) (by_ : option string) (acc dec rev : option Z) (i : invitation) : invitation := {|
  fi_id := fi_id i; fi_tenant := fi_tenant i; fi_profile := fi_profile i; fi_invitedBy := fi_invitedBy i; fi_email := fi_email i; fi_familyRole := fi_familyRole i;
  fi_guardianRole := fi_guardianRole i; fi_type := fi_type i; fi_status := s; fi_hash := fi_hash i; fi_expiresAt := fi_expiresAt i;
  fi_acceptedBy := or_else by_ (fi_acceptedBy i); fi_acceptedAt := or_else acc (fi_acceptedAt i); fi_declinedAt := or_else dec (fi_declinedAt i);
  fi_revokedAt := or_else rev (fi_revokedAt i) |}.
Definition pending (i : invitation) : bool := fi_status i =e FI_Pending.
(** [updateMany] of pending invitations. *)
Definition update_pending (p : invitation -> bool) (f : invitation -> invitation) : HM () :=
  modify (fun d => set_invitations (update_where (fun i => p i && pending i) f (invitations d)) d).
(* src: packages/db/src/family-invitation.ts:72-74 expireStale *)
Definition expireStale (t : string) (now : Z) : HM () :=
  update_pending (fun i => (fi_tenant i =s t) && (fi_expiresAt i <=? now)) (with_fi FI_Expired None None None None).
(* src: packages/db/src/family-invitation.ts:75-77 audit *)
Definition audit_invitation (t name actor id : string) : HM () := audit t name actor "family_guardian_invitation" id.

(** One pending invitation per profile and address; a token hash and an id once. *)
Definition insert_invitation (row : invitation) : HM () :=
  d ← get;
  throw_if (existsb (fun x => ((fi_tenant x =s fi_tenant row) && (fi_profile x =s fi_profile row) && (fi_email x =s fi_email row) && pending x) ||
                              (fi_hash x =s fi_hash row) || (fi_id x =s fi_id row)) (invitations d))
    (Family (FamilyValidationError "duplicate_pending_invitation"));;
  put (set_invitations (invitations d ++ [row]) d).

Definition email_of (d : household) (u : string) : option string := option_map snd (List.find (fun e => fst e =s u) (emails d)).

(* src: packages/db/src/family-invitation.ts:81-84 CreateFamilyInvitationInput *)
Record CreateFamilyInvitationInput := {
  cf_profile : string; cf_email : string; cf_familyRole : string; cf_guardianRole : string; cf_type : string }.
(* src: packages/db/src/family-invitation.ts:87-141 createFamilyGuardianInvitation *)
Definition createFamilyGuardianInvitation (st : stamp) (actor : Workspace.FamilyActorContext) (i : CreateFamilyInvitationInput) (token : string)
    : HM (invitation * string) :=
  assertFamily actor Workspace.FamilyInvitationCreate;;
  check (Workspace.isInvitableFamilyRole (cf_familyRole i)) "intendedFamilyRole";;
  check (isGuardianRole (cf_guardianRole i)) "intendedGuardianRole";;
  check (isGuardianRelationshipType (cf_type i)) "intendedRelationshipType";;
  let emailN := Access.normalizeEmail (cf_email i) in
  check (EMAIL_RE emailN) "invitedEmail";;
  let t := Workspace.tenantId actor in
  withTenant t (
    expireStale t (clock st);;
    d ← get;
    me ← found (List.find (fun m => (hm_tenant m =s t) && (hm_user m =s Workspace.userId actor)) (members d)) (Family (FamilyForbiddenError "role_forbidden"));
    throw_if (match email_of d (hm_user me) with Some e => nonempty e && (Access.normalizeEmail e =s emailN) | None => false end)
      (Family (FamilyValidationError "self_invite"));;
    profile ← missing (find_row (profs d) t (cf_profile i)) "protected_profile";
    throw_if (is_some (p_archivedAt profile)) (Family (FamilyValidationError "archived"));;
    throw_if (match List.find (fun m => (hm_tenant m =s t) && status_is (email_of d (hm_user m)) emailN) (members d) with
              | Some m => existsb (fun g => (g_tenant g =s t) && (g_member g =s hm_id m) && (g_profile g =s cf_profile i) && active g) (guardians d)
              | None => false end) (Family (FamilyValidationError "already_guardian"));;
    throw_if ((cf_guardianRole i =s js_name GR_Primary) && activePrimaryExists t (cf_profile i) None d) (Family (FamilyValidationError "primary_conflict"));;
    enforceFamilyCapacity enabled t FamilyBilling.res_invitation (clock st);;
    let row := {| fi_id := newId st; fi_tenant := t; fi_profile := cf_profile i; fi_invitedBy := hm_id me; fi_email := emailN; fi_familyRole := cf_familyRole i;
      fi_guardianRole := cf_guardianRole i; fi_type := cf_type i; fi_status := FI_Pending; fi_hash := sha256 token;
      fi_expiresAt := Access.inviteExpiryFrom (clock st) Access.INVITE_TTL_DAYS; fi_acceptedBy := None; fi_acceptedAt := None;
      fi_declinedAt := None; fi_revokedAt := None |} in
    insert_invitation row;;
    audit_invitation t "child_safety.family_invitation.created" (Workspace.userId actor) (newId st);;
    mret (row, token)).

(* src: packages/db/src/family-invitation.ts:181-195 revokeFamilyGuardianInvitation *)
Definition revokeFamilyGuardianInvitation (st : stamp) (actor : Workspace.FamilyActorContext) (id : string) : HM invitation :=
  assertFamily actor Workspace.FamilyInvitationRevoke;;
  let t := Workspace.tenantId actor in
  withTenant t (
    expireStale t (clock st);;
    d ← get;
    inv ← missing (find_row (invitations d) t id) "family_guardian_invitation";
    match fi_status inv with
    | FI_Accepted => invalid "already_accepted"
    | FI_Declined => invalid "already_declined"
    | FI_Expired => invalid "expired"
    | FI_Revoked => mret inv
    | FI_Pending =>
        let f := with_fi FI_Revoked None None None (Some (clock st)) in
        update_pending (fun i => fi_id i =s id) f;;
        audit_invitation t "child_safety.family_invitation.revoked" (Workspace.userId actor) id;;
        mret (f inv)
    end).

Definition find_invitation (token : string) (d : household) : option invitation := List.find (fun i => fi_hash i =s sha256 token) (invitations d).

(** [None] stands for a preview that is shown. *)
(* src: packages/db/src/family-invitation.ts:205-224 getFamilyInvitationPreview *)
Definition getFamilyInvitationPreview (token sessionEmail : string) (now : Z) (d : household) : option string :=
  match find_invitation token d with
  | None => Some "invalid_token"
  | Some inv =>
      if negb (fi_email inv =s Access.normalizeEmail sessionEmail) then Some "identity_mismatch"
      else match fi_status inv with
      | FI_Accepted => Some "already_accepted"
      | FI_Declined => Some "already_declined"
      | FI_Revoked => Some "revoked"
      | FI_Expired => Some "expired"
      | FI_Pending =>
          if Access.isInviteExpired (fi_expiresAt inv) now then Some "expired"
          else match find_row (profs d) (fi_tenant inv) (fi_profile inv) with
               | Some p => if is_some (p_archivedAt p) then Some "expired" else None
               | None => Some "expired" end
      end
  end.

(* src: packages/db/src/family-invitation.ts:229-232 FamilyAcceptResult *)
Inductive FamilyAcceptResult :=
| Accepted (tenant : string) (membershipCreated relationshipCreated relationshipReactivated : bool)
| NotAccepted (reason : string).

(** The relationship the acceptance finds: the newest of the member on the profile. *)
Definition newest_link (t m p : string) (d : household) : option guardian :=
  head (newest_first g_createdAt (List.filter (fun g => (g_tenant g =s t) && (g_member g =s m) && (g_profile g =s p)) (guardians d))).

(* src: packages/db/src/family-invitation.ts:279-307 acceptFamilyGuardianInvitation *)
Definition activate_link (st : stamp) (inv : invitation) (userId m : string) : HM (bool * bool) :=
  let t := fi_tenant inv in
  d ← get;
  let differs g := negb (g_role g =s fi_guardianRole inv) || negb (g_type g =s fi_type inv) in
  let primary := fi_guardianRole inv =s js_name GR_Primary in
  let create := throw_if (primary && activePrimaryExists t (fi_profile inv) None d) (InvitationActivationError "primary_conflict");;
                insert_guardian (new_guardian st t m (fi_profile inv) (fi_type inv) (js_name LevelReadOnly) (fi_guardianRole inv) None);;
                audit_invitation t "child_safety.guardian_relationship.created_from_invitation" userId (fi_id inv);;
                mret (true, false) in
  match newest_link t m (fi_profile inv) d with
  | None => create
  | Some g =>
      if active g then throw_if (differs g) (InvitationActivationError "already_guardian");; mret (false, false)
      else if (g_status g =e RelSuspended) && is_none (g_revokedAt g) && is_none (g_archivedAt g)
      then
        throw_if (differs g) (InvitationActivationError "invalid_state");;
        throw_if (primary && activePrimaryExists t (fi_profile inv) (Some (g_id g)) d) (InvitationActivationError "primary_conflict");;
        update_guardian t (g_id g) (fun g => set_state RelPending (g_revokedAt g) (g_archivedAt g) g);;
        audit_invitation t "child_safety.guardian_relationship.reactivated_from_invitation" userId (fi_id inv);;
        mret (false, true)
      else create
  end.

(* src: packages/db/src/family-invitation.ts:264-277 acceptFamilyGuardianInvitation *)
Definition join_family (st : stamp) (inv : invitation) (userId : string) (role : Access.Role) : HM (string * bool) :=
  let t := fi_tenant inv in
  d ← get;
  match List.find (fun m => (hm_user m =s userId) && (hm_tenant m =s t)) (members d) with
  | Some m => audit_invitation t "child_safety.family_membership.reused_from_invitation" userId (fi_id inv);; mret (hm_id m, false)
  | None =>
      enforceFamilyCapacity enabled t FamilyBilling.res_family_member (clock st);;
      modify (fun d => set_members (members d ++ [{| hm_id := newId st; hm_tenant := t; hm_user := userId; hm_role := role |}]) d);;
      audit_invitation t "child_safety.family_membership.created_from_invitation" userId (fi_id inv);;
      mret (newId st, true)
  end.

(* src: packages/db/src/family-invitation.ts:309-318 acceptFamilyGuardianInvitation *)
Definition enqueue_accepted (st : stamp) (inv : invitation) : HM () :=
  d ← get;
  match Outbox.enqueueFamilyNotificationOutboxEventTx sha256 (eventId st) (clock st)
          {| Outbox.tenantId := fi_tenant inv; Outbox.notificationType := "family_guardian_invitation_accepted";
             Outbox.source := [("invitationId", fi_id inv)]; Outbox.eventVersion := Outbox.string_of_int (clock st);
             Outbox.occurredAt := clock st |} (box d) with
  | (_, Throw e) => throw (Family (OtherError e))
  | (box', Ret _) => put (set_box box' d)
  end.

(* src: packages/db/src/family-invitation.ts:234-320 acceptFamilyGuardianInvitation *)
Definition acceptTx (st : stamp) (token userId userEmail : string) : HM FamilyAcceptResult :=
  d ← get;
  match find_invitation token d with
  | None => mret (NotAccepted "invalid_token")
  | Some inv =>
      let same_user (i : invitation) := if status_is (fi_acceptedBy i) userId then Accepted (fi_tenant inv) false false false
                                        else NotAccepted "already_accepted" in
      match fi_status inv with
      | FI_Accepted => mret (same_user inv)
      | FI_Declined => mret (NotAccepted "already_declined")
      | FI_Revoked => mret (NotAccepted "revoked")
      | _ =>
          if (fi_status inv =e FI_Expired) || Access.isInviteExpired (fi_expiresAt inv) (clock st)
          then update_pending (fun i => fi_id i =s fi_id inv) (with_fi FI_Expired None None None None);; mret (NotAccepted "expired")
          else if negb (fi_email inv =s Access.normalizeEmail userEmail) then mret (NotAccepted "identity_mismatch")
          else match Workspace.membershipRoleForInvitedFamilyRole (fi_familyRole inv) with
          | None => mret (NotAccepted "invalid_state")
          | Some role =>
              if match find_row (profs d) (fi_tenant inv) (fi_profile inv) with Some p => is_some (p_archivedAt p) | None => true end
              then mret (NotAccepted "invalid_state")
              else
                update_pending (fun i => fi_id i =s fi_id inv) (with_fi FI_Accepted (Some userId) (Some (clock st)) None None);;
                '(m, membershipCreated) ← join_family st inv userId role;
                '(created, reactivated) ← activate_link st inv userId m;
                audit_invitation (fi_tenant inv) "child_safety.family_invitation.accepted" userId (fi_id inv);;
                enqueue_accepted st inv;;
                mret (Accepted (fi_tenant inv) membershipCreated created reactivated)
          end
      end
  end.
(** The transaction, with its activation errors and index violations as answers. *)
(* src: packages/db/src/family-invitation.ts:234-327 acceptFamilyGuardianInvitation *)
Definition acceptFamilyGuardianInvitation (st : stamp) (token userId userEmail : string) : HM FamilyAcceptResult := fun d =>
  match acceptTx st token userId userEmail d with
  | Throw (InvitationActivationError reason) => Ret (NotAccepted reason, d)
  | Throw (UniqueViolation _) => Ret (NotAccepted "primary_conflict", d)
  | r => r
  end.

(** [None] is [{ ok: true }]. *)
(* src: packages/db/src/family-invitation.ts:332-351 declineFamilyGuardianInvitation *)
Definition declineFamilyGuardianInvitation (st : stamp) (token userId userEmail : string) : HM (option string) :=
  d ← get;
  match find_invitation token d with
  | None => mret (Some "invalid_token")
  | Some inv =>
      if negb (fi_email inv =s Access.normalizeEmail userEmail) then mret (Some "identity_mismatch")
      else match fi_status inv with
      | FI_Accepted => mret (Some "already_accepted")
      | FI_Revoked => mret (Some "revoked")
      | FI_Declined => mret None
      | _ =>
          if (fi_status inv =e FI_Expired) || Access.isInviteExpired (fi_expiresAt inv) (clock st)
          then update_pending (fun i => fi_id i =s fi_id inv) (with_fi FI_Expired None None None None);; mret (Some "expired")
          else
            update_pending (fun i => fi_id i =s fi_id inv) (with_fi FI_Declined None None (Some (clock st)) None);;
            audit_invitation (fi_tenant inv) "child_safety.family_invitation.declined" userId (fi_id inv);;
            mret None
      end
  end.
End Services.

(** * Runs *)

Inductive op :=
| HCreateProfile (st : stamp) (actor : FamilyActorContext) (i : profile_input)
| HUpdateProfile (actor : FamilyActorContext) (id : string) (i : profile_input)
| HRestoreProfile (actor : FamilyActorContext) (id : string)
| HArchiveProfile (st : stamp) (actor : FamilyActorContext) (id : string)
| HCreateGuardian (st : stamp) (actor : FamilyActorContext) (i : relationship_input)
| HRole (actor : FamilyActorContext) (id role : string)
| HDeactivate (actor : FamilyActorContext) (id : string)
| HReactivate (actor : FamilyActorContext) (id : string)
| HRevoke (st : stamp) (actor : FamilyActorContext) (id : string)
| HArchive (st : stamp) (actor : FamilyActorContext) (id : string)
| HInvite (st : stamp) (actor : FamilyActorContext) (i : CreateFamilyInvitationInput) (token : string)
| HRevokeInvite (st : stamp) (actor : FamilyActorContext) (id : string)
| HAccept (st : stamp) (token user email : string)
| HDecline (st : stamp) (token user email : string).

Section Runs.
Context (sha256 : string -> string) (enabled : bool).

Definition ignore {A} (m : HM A) : HM () := _ ← m; mret tt.
Definition command (o : op) : HM () :=
  match o with
  | HCreateProfile st actor i => ignore (createProtectedProfile enabled st actor i)
  | HUpdateProfile actor id i => ignore (updateProtectedProfile actor id i)
  | HRestoreProfile actor id => ignore (restoreProtectedProfile actor id)
  | HArchiveProfile st actor id => ignore (archiveProtectedProfile st actor id)
  | HCreateGuardian st actor i => ignore (createGuardianRelationship enabled st actor i)
  | HRole actor id role => ignore (updateGuardianRole actor id role)
  | HDeactivate actor id => ignore (deactivateGuardianRelationship actor id)
  | HReactivate actor id => ignore (reactivateGuardianRelationship actor id)
  | HRevoke st actor id => ignore (revokeGuardianRelationship st actor id)
  | HArchive st actor id => ignore (archiveGuardianRelationship st actor id)
  | HInvite st actor i token => ignore (createFamilyGuardianInvitation sha256 enabled st actor i token)
  | HRevokeInvite st actor id => ignore (revokeFamilyGuardianInvitation st actor id)
  | HAccept st token user email => ignore (acceptFamilyGuardianInvitation sha256 enabled st token user email)
  | HDecline st token user email => ignore (declineFamilyGuardianInvitation sha256 st token user email)
  end.
Definition exec (o : op) (d : household) : household := after (command o) d.
Definition run (os : list op) (d : household) : household := fold_left (fun d o => exec o d) os d.

(** ** Relations every transaction keeps

    [keeps P m]: whenever [m] succeeds, its state before and after are related by [P]. *)
Definition keeps (P : household -> household -> Prop) {A} (m : HM A) : Prop := forall d a d', m d = Ret (a, d') -> P d d'.

Section Keeps.
Context (P : household -> household -> Prop).
Hypothesis P_refl : forall d, P d d.
Hypothesis P_trans : forall a b c, P a b -> P b c -> P a c.

Lemma keeps_ret {A} (a : A) : keeps P (mret a).
Proof. intros d b d' [_ ->]%mret_Ret. apply P_refl. Qed.
Lemma keeps_bind {A B} (m : HM A) (k : A -> HM B) : keeps P m -> (forall a, keeps P (k a)) -> keeps P (m ≫= k).
Proof. intros Hm Hk d b d' (a & d1 & H1 & H2)%bind_Ret. exact (P_trans _ _ _ (Hm _ _ _ H1) (Hk a _ _ _ H2)). Qed.
Lemma keeps_throw {A} e : keeps P (throw e : HM A).
Proof. by intros d a d'. Qed.
Lemma keeps_get : keeps P get.
Proof. intros d a d' [_ ->]%get_Ret. apply P_refl. Qed.
Lemma keeps_throw_if b e : keeps P (throw_if b e).
Proof. intros d a d' (_ & _ & ->)%throw_if_Ret. apply P_refl. Qed.
Lemma keeps_found {A} (o : option A) e : keeps P (found o e).
Proof. intros d a d' [_ ->]%found_Ret. apply P_refl. Qed.
Lemma keeps_modify f : (forall d, P d (f d)) -> keeps P (modify f).
Proof. intros Hf d a d' H. unfold modify in H. run_inv. apply Hf. Qed.
Lemma keeps_assertFamily actor action : keeps P (assertFamily actor action).
Proof. unfold assertFamily. destruct (authorizeFamilyAction _ _); [apply keeps_ret|apply keeps_throw]. Qed.
Lemma keeps_withTenant {A} t (m : HM A) : keeps P m -> keeps P (withTenant t m).
Proof. intros Hm. unfold withTenant. destruct (negb _); [apply keeps_throw|done]. Qed.
Lemma keeps_capacity t r now : keeps P (enforceFamilyCapacity enabled t r now).
Proof.
  unfold enforceFamilyCapacity. destruct (negb enabled); [apply keeps_ret|]. apply keeps_bind; [apply keeps_get|]. intros d.
  apply keeps_bind; [apply keeps_throw_if|]. intros _. destruct (FamilyBilling.familyResourceLimit _ _); first [apply keeps_ret|apply keeps_throw_if].
Qed.
Lemma keeps_ignore {A} (m : HM A) : keeps P m -> keeps P (ignore m).
Proof. intros Hm. unfold ignore. apply keeps_bind; [done|]. intros _. apply keeps_ret. Qed.
End Keeps.

(** Walk through a transaction, down to its writes. *)
Ltac keep :=
  repeat match goal with
  | |- keeps _ (let _ := _ in _) => cbv zeta
  | |- keeps _ (mret _) => apply keeps_ret; [done]
  | |- keeps _ get => apply keeps_get; [done]
  | |- keeps _ (throw _) => apply keeps_throw
  | |- keeps _ (throw_if _ _) => apply keeps_throw_if; [done]
  | |- keeps _ (check _ _) => apply keeps_throw_if; [done]
  | |- keeps _ (invalid _) => apply keeps_throw
  | |- keeps _ (not_terminal _) => apply keeps_throw_if; [done]
  | |- keeps _ (assertFields _ _) => apply keeps_throw_if; [done]
  | |- keeps _ (found _ _) => apply keeps_found; [done]
  | |- keeps _ (missing _ _) => apply keeps_found; [done]
  | |- keeps _ (assertFamily _ _) => apply keeps_assertFamily; [done]
  | |- keeps _ (enforceFamilyCapacity _ _ _ _) => apply keeps_capacity; [done|done]
  | |- keeps _ (ignore _) => apply keeps_ignore; [done|done|]
  | |- keeps _ (withTenant _ _) => apply keeps_withTenant
  | |- keeps _ (find_guardian _ _) => unfold find_guardian
  | |- keeps _ (change_guardian _ _ _ _ _) => unfold change_guardian
  | |- keeps _ (_ ≫= _) => apply keeps_bind; [done| |intros ?]
  | |- keeps _ (if ?b then _ else _) => destruct b
  | |- keeps _ (match ?x with _ => _ end) => destruct x
  end.

(** What the writes of the services must satisfy for [P] to hold of every command, given
    what the service has checked before it writes: [clock_ok] restricts the clocks of the
    commands. *)
Definition primary_free (t profile : string) (excludeId : option string) (role : string) (d : household) : Prop :=
  role = js_name GR_Primary -> activePrimaryExists t profile excludeId d = false.
Definition room (t : string) (r : FamilyBilling.FamilyLimitedResource) (now : Z) (d : household) : Prop :=
  enforceFamilyCapacity enabled t r now d = Ret (tt, d).
Definition row_of (d : household) (t id : string) (g : guardian) : Prop := In g (guardians d) /\ g_tenant g = t /\ g_id g = id.

Record writes (clock_ok : Z -> Prop) (P : household -> household -> Prop) : Prop := {
  w_refl : forall d, P d d;
  w_trans : forall a b c, P a b -> P b c -> P a c;
  w_new_guardian : forall d st t m p ty level role ct, primary_free t p None role d -> ~ In (newId st) (map g_id (guardians d)) ->
    P d (set_guardians (guardians d ++ [new_guardian st t m p ty level role ct]) d);
  w_role : forall d t id r g, row_of d t id g -> primary_free t (g_profile g) (Some id) r d ->
    P d (set_guardians (update_row t id (set_role r) (guardians d)) d);
  w_state : forall d t id g (s : guardian -> GuardianRelationshipStatus) (rv ar : guardian -> option Z), row_of d t id g ->
    (forall g, s g <> RelVerified \/ s g = g_status g) ->
    (active (set_state (s g) (rv g) (ar g) g) = true -> primary_free t (g_profile g) (Some id) (g_role g) d) ->
    P d (set_guardians (update_row t id (fun g => set_state (s g) (rv g) (ar g) g) (guardians d)) d);
  w_member : forall d m now, hm_role m <> Access.Owner -> clock_ok now -> room (hm_tenant m) FamilyBilling.res_family_member now d ->
    P d (set_members (members d ++ [m]) d);
  w_profs : forall d l, P d (set_profs l d);
  w_events : forall d l, P d (set_events l d);
  w_box : forall d l, P d (set_box l d);
  w_settle : forall d p s by_ acc dec rev, s <> FI_Pending ->
    P d (set_invitations (update_where (fun i => p i && pending i) (with_fi s by_ acc dec rev) (invitations d)) d);
  w_invite : forall d row now, ~ In (fi_hash row) (map fi_hash (invitations d)) -> clock_ok now ->
    room (fi_tenant row) FamilyBilling.res_invitation now d -> P d (set_invitations (invitations d ++ [row]) d) }.

Lemma invited_role_not_owner r role : membershipRoleForInvitedFamilyRole r = Some role -> role <> Access.Owner.
Proof. unfold membershipRoleForInvitedFamilyRole. destruct (parse r) as [[]|]; by intros [= <-]. Qed.
Lemma capacity_Ret t r now d u d' : enforceFamilyCapacity enabled t r now d = Ret (u, d') -> d' = d /\ room t r now d.
Proof.
  intros H. assert (d' = d) as ->.
  { symmetry. revert H. apply (keeps_capacity (=)); [done|intros ? ? ?; congruence]. }
  split; [done|]. by destruct u.
Qed.
Lemma find_guardian_Ret t id d g d' : find_guardian t id d = Ret (g, d') -> d' = d /\ row_of d t id g.
Proof.
  intros H. unfold find_guardian, missing in H. run_inv. split; [done|].
  match goal with H : find_row _ _ _ = _ |- _ => apply find_row_Some in H as (? & ? & ?) end. done.
Qed.
Lemma guard_false (a b : string) (x : bool) : ((a =s b) && x) = false -> a = b -> x = false.
Proof. intros H ->. by rewrite String.eqb_refl in H. Qed.

Definition clock_of (o : op) : option Z :=
  match o with HInvite st _ _ _ | HAccept st _ _ _ => Some (clock st) | _ => None end.
Definition clock_within (clock_ok : Z -> Prop) (o : op) : Prop := match clock_of o with Some now => clock_ok now | None => True end.

Section Writes.
Context (clock_ok : Z -> Prop) (P : household -> household -> Prop) (W : writes clock_ok P).

Lemma keeps_audit t n a ty id : keeps P (audit t n a ty id).
Proof. apply keeps_modify. intros d. apply W. Qed.
Lemma keeps_audit_invitation t n a id : keeps P (audit_invitation t n a id).
Proof. apply keeps_audit. Qed.
Lemma keeps_update_prof t id f : keeps P (update_prof t id f).
Proof. apply keeps_modify. intros d. apply W. Qed.
Lemma keeps_settle p s by_ acc dec rev : s <> FI_Pending -> keeps P (update_pending p (with_fi s by_ acc dec rev)).
Proof. intros Hs. apply keeps_modify. intros d. by apply W. Qed.
Lemma keeps_expire t now : keeps P (expireStale t now).
Proof. by apply keeps_settle. Qed.
Lemma insert_guardian_keeps st t m p ty level role ct d u d' : primary_free t p None role d ->
  insert_guardian (new_guardian st t m p ty level role ct) d = Ret (u, d') -> P d d'.
Proof.
  intros Hfree H. unfold insert_guardian in H. run_inv. apply W; [done|]. intros (x & Hx & Hin)%in_map_iff.
  match goal with H : existsb (fun x => _ =s _) _ = false |- _ => pose proof (existsb_false _ _ H x Hin) as Hb end.
  cbn [new_guardian g_id] in Hb. by rewrite Hx, String.eqb_refl in Hb.
Qed.
Lemma change_keeps actor id n f g d d' r : P d (set_guardians (update_row (tenantId actor) id f (guardians d)) d) ->
  change_guardian actor id n f g d = Ret (r, d') -> P d d'.
Proof.
  intros Hw H. unfold change_guardian in H. apply bind_Ret in H as (u & d1 & H1 & H2). unfold update_guardian, modify in H1. run_inv.
  apply (w_trans _ _ W _ _ _ Hw). match goal with H : audit _ _ _ _ _ _ = _ |- _ => by apply keeps_audit in H end.
Qed.
Lemma insert_invitation_keeps row now d u d' : clock_ok now -> room (fi_tenant row) FamilyBilling.res_invitation now d ->
  insert_invitation row d = Ret (u, d') -> P d d'.
Proof.
  intros Hc Hroom H. unfold insert_invitation in H. run_inv. apply (w_invite _ _ W _ _ now); [|done..]. intros (x & Hx & Hin)%in_map_iff.
  match goal with H : existsb _ _ = false |- _ => pose proof (existsb_false _ _ H x Hin) as Hb end. cbv beta in Hb.
  apply orb_false_iff in Hb as [[_ Hb]%orb_false_iff _]. by rewrite Hx, String.eqb_refl in Hb.
Qed.
Lemma keeps_enqueue st inv : keeps P (enqueue_accepted sha256 st inv).
Proof.
  intros d a d' H. unfold enqueue_accepted in H. run_inv.
  destruct (Outbox.enqueueFamilyNotificationOutboxEventTx _ _ _ _ _) as [box' [r|e]]; [|done]. run_inv. apply W.
Qed.

(** Compose the effects of a run already inverted. *)
Ltac chain := repeat match goal with
  | H : audit _ _ _ _ _ ?a = Ret (_, ?b) |- P ?a ?b => exact (keeps_audit _ _ _ _ _ _ _ _ H)
  | H : audit_invitation _ _ _ _ ?a = Ret (_, ?b) |- P ?a ?b => exact (keeps_audit _ _ _ _ _ _ _ _ H)
  | H : audit _ _ _ _ _ ?a = Ret (_, ?b) |- P _ ?b => apply (w_trans _ _ W _ a _); [|exact (keeps_audit _ _ _ _ _ _ _ _ H)]
  | H : audit_invitation _ _ _ _ ?a = Ret (_, ?b) |- P _ ?b => apply (w_trans _ _ W _ a _); [|exact (keeps_audit _ _ _ _ _ _ _ _ H)]
  | |- P ?a ?a => apply W
  end.
(** Open a transaction of the repository: its gate, its checks, its lookups. *)
Ltac enter H :=
  unfold assertFields, check, not_terminal, missing, invalid in H; run_inv;
  repeat match goal with
  | H : assertFamily _ _ _ = Ret (_, _) |- _ => unfold assertFamily in H; run_inv
  | H : withTenant _ _ _ = Ret (_, _) |- _ => unfold withTenant in H; run_inv
  | H : enforceFamilyCapacity _ _ _ _ _ = Ret (_, _) |- _ => apply capacity_Ret in H as [-> ?]
  | H : find_guardian _ _ _ = Ret (_, _) |- _ => apply find_guardian_Ret in H as [-> ?]
  end; subst.

Lemma createGuardian_keeps st actor i : keeps P (createGuardianRelationship enabled st actor i).
Proof.
  intros d a d' H. unfold createGuardianRelationship in H. enter H. chain. eapply insert_guardian_keeps; [|eassumption].
  intros Hr. eapply guard_false; [eassumption|done].
Qed.
Lemma updateRole_keeps actor id role : keeps P (updateGuardianRole actor id role).
Proof.
  intros d a d' H. unfold updateGuardianRole in H. enter H; [chain|]. eapply change_keeps; [|eassumption].
  eapply w_role; [done|eassumption|]. intros Hr. eapply guard_false; [eassumption|done].
Qed.
Lemma deactivate_keeps actor id : keeps P (deactivateGuardianRelationship actor id).
Proof.
  intros d a d' H. unfold deactivateGuardianRelationship in H. enter H; [chain|]. eapply change_keeps; [|eassumption].
  eapply (w_state _ _ W _ _ _ _ (fun _ => RelSuspended) g_revokedAt g_archivedAt); [eassumption|by left|done].
Qed.
Lemma reactivate_keeps actor id : keeps P (reactivateGuardianRelationship actor id).
Proof.
  intros d a d' H. unfold reactivateGuardianRelationship in H. enter H; [chain|]. eapply change_keeps; [|eassumption].
  eapply (w_state _ _ W _ _ _ _ (fun _ => RelPending) g_revokedAt g_archivedAt); [eassumption|by left|].
  intros _ Hr. eapply guard_false; [eassumption|done].
Qed.
Lemma revoke_keeps st actor id : keeps P (revokeGuardianRelationship st actor id).
Proof.
  intros d a d' H. unfold revokeGuardianRelationship in H. enter H; [chain|]. eapply change_keeps; [|eassumption].
  eapply (w_state _ _ W _ _ _ _ (fun _ => RelRevoked) (fun _ => Some (clock st)) g_archivedAt); [eassumption|by left|done].
Qed.
Lemma archive_keeps st actor id : keeps P (archiveGuardianRelationship st actor id).
Proof.
  intros d a d' H. unfold archiveGuardianRelationship in H. enter H; [chain|]. eapply change_keeps; [|eassumption].
  eapply (w_state _ _ W _ _ _ _ g_status g_revokedAt (fun _ => Some (clock st))); [eassumption|by right|].
  unfold active. cbn. by rewrite andb_false_r.
Qed.
Lemma invite_keeps st actor i token : clock_ok (clock st) -> keeps P (createFamilyGuardianInvitation sha256 enabled st actor i token).
Proof.
  intros Hc d a d' H. unfold createFamilyGuardianInvitation in H. enter H. chain. unfold expireStale in *.
  match goal with H : update_pending _ _ _ = Ret (_, _) |- _ => apply keeps_settle in H; [|done] end.
  eapply (w_trans _ _ W); [eassumption|]. eapply insert_invitation_keeps; [exact Hc| |eassumption]. done.
Qed.
Lemma join_keeps st inv user role d a d' : clock_ok (clock st) -> role <> Access.Owner -> join_family enabled st inv user role d = Ret (a, d') -> P d d'.
Proof.
  intros Hc Hr H. unfold join_family, modify in H. enter H; chain. by apply (w_member _ _ W _ _ (clock st)).
Qed.
Lemma newest_link_row t m p d g : newest_link t m p d = Some g -> row_of d t (g_id g) g /\ g_member g = m /\ g_profile g = p.
Proof.
  unfold newest_link. intros Hg. destruct (newest_first _ _) as [|x l] eqn:Hl; [done|]. injection Hg as <-.
  assert (In x (newest_first g_createdAt (List.filter (fun g => (g_tenant g =s t) && (g_member g =s m) && (g_profile g =s p)) (guardians d)))) as Hx
    by (rewrite Hl; by left).
  unfold newest_first in Hx. rewrite <- list_elem_of_In, js_sort_perm, list_elem_of_In in Hx.
  apply filter_In in Hx as (Hin & Hb). guards_in Hb. unfold row_of. naive_solver.
Qed.
Lemma activate_keeps st inv user m d a d' : activate_link st inv user m d = Ret (a, d') -> P d d'.
Proof.
  intros H. unfold activate_link in H. cbv zeta in H. apply bind_Ret in H as (d0 & d1 & [-> ->]%get_Ret & H).
  assert (Hcreate : forall b, (throw_if ((fi_guardianRole inv =s js_name GR_Primary) && activePrimaryExists (fi_tenant inv) (fi_profile inv) None d)
      (InvitationActivationError "primary_conflict");;
    insert_guardian (new_guardian st (fi_tenant inv) m (fi_profile inv) (fi_type inv) (js_name LevelReadOnly) (fi_guardianRole inv) None);;
    audit_invitation (fi_tenant inv) "child_safety.guardian_relationship.created_from_invitation" user (fi_id inv);; mret (true, false)) d = Ret (b, d') ->
    P d d').
  { clear H. intros b Hb. enter Hb. chain. eapply insert_guardian_keeps; [|eassumption]. intros Hr. eapply guard_false; [eassumption|done]. }
  destruct (newest_link _ _ _ d) as [g|] eqn:Hg; [|by eapply Hcreate]. apply newest_link_row in Hg as (Hrow & _ & Hp).
  destruct (active g); [run_inv; chain|]. destruct (_ && _ && _); [|by eapply Hcreate]. unfold update_guardian, modify in H. run_inv. chain.
  eapply (w_state _ _ W _ _ _ _ (fun _ => RelPending) g_revokedAt g_archivedAt); [eassumption|by left|].
  intros _ Hr. match goal with H : _ || _ = false |- _ => apply orb_false_iff in H as [Hrole _] end.
  rewrite Hp. eapply guard_false; [eassumption|]. apply negb_false_iff, String.eqb_eq in Hrole. congruence.
Qed.
Lemma acceptTx_keeps st token user email : clock_ok (clock st) -> keeps P (acceptTx sha256 enabled st token user email).
Proof.
  intros Hc d a d' H. unfold acceptTx in H. apply bind_Ret in H as (d0 & d1 & [-> ->]%get_Ret & H).
  assert (Hret : forall x d1, (mret x : HM FamilyAcceptResult) d1 = Ret (a, d') -> P d1 d') by (intros x d1 [_ ->]%mret_Ret; apply W).
  destruct (find_invitation sha256 token d) as [inv|]; [|by apply Hret in H]. cbv zeta in H.
  destruct (fi_status inv); try by apply Hret in H.
  all: destruct (_ || _); [run_inv; by eapply keeps_settle; [|eassumption]|]; destruct (negb _); [by apply Hret in H|];
    destruct (membershipRoleForInvitedFamilyRole (fi_familyRole inv)) as [role|] eqn:Hrole; [|by apply Hret in H];
    destruct (match find_row _ _ _ with Some _ => _ | None => _ end); [by apply Hret in H|]; apply invited_role_not_owner in Hrole; run_inv;
    repeat match goal with
    | H : update_pending _ _ _ = Ret (_, _) |- _ => apply keeps_settle in H; [|done]
    | H : join_family _ _ _ _ _ _ = Ret (_, _) |- _ => apply join_keeps in H; [|done..]
    | H : activate_link _ _ _ _ _ = Ret (_, _) |- _ => apply activate_keeps in H
    | H : audit_invitation _ _ _ _ _ = Ret (_, _) |- _ => apply keeps_audit in H
    | H : enqueue_accepted _ _ _ _ = Ret (_, _) |- _ => apply keeps_enqueue in H
    end; repeat (eapply (w_trans _ _ W); [eassumption|]); apply W.
Qed.

(** Every command keeps a relation its writes satisfy. *)
Lemma command_keeps o : clock_within clock_ok o -> keeps P (command o).
Proof.
  intros Hc. pose proof (w_refl _ _ W) as Hrefl. pose proof (w_trans _ _ W) as Htrans.
  assert (Hprofs : forall f, keeps P (modify (fun d => set_profs (f d) d))) by (intros f; apply keeps_modify; intros d; apply W).
  destruct o; unfold command; (apply keeps_ignore; [done|done|]).
  - unfold createProtectedProfile. keep; first [apply keeps_audit|apply Hprofs].
  - unfold updateProtectedProfile. keep; first [apply keeps_audit|apply Hprofs].
  - unfold restoreProtectedProfile. keep; first [apply keeps_audit|apply Hprofs].
  - unfold archiveProtectedProfile. keep; first [apply keeps_audit|apply Hprofs].
  - apply createGuardian_keeps.
  - apply updateRole_keeps.
  - apply deactivate_keeps.
  - apply reactivate_keeps.
  - apply revoke_keeps.
  - apply archive_keeps.
  - by apply invite_keeps.
  - unfold revokeFamilyGuardianInvitation. keep; first [apply keeps_audit|apply keeps_expire|by apply keeps_settle].
  - intros d a d' H. unfold acceptFamilyGuardianInvitation in H. destruct (acceptTx _ _ _ _ _ _ d) as [[r d1]|e] eqn:Ha.
    + injection H as -> ->. by apply acceptTx_keeps in Ha.
    + destruct e; try done; injection H as <- <-; apply Hrefl.
  - unfold declineFamilyGuardianInvitation. keep; first [apply keeps_audit|by apply keeps_settle].
Qed.

Lemma run_keeps os d : Forall (clock_within clock_ok) os -> P d (run os d).
Proof.
  intros Hos. revert d. induction Hos as [|o os Ho Hos IH]; intros d; [apply W|]. cbn [run fold_left].
  apply (w_trans _ _ W _ (exec o d)); [|apply (IH (exec o d))].
  unfold exec, after. destruct (command o d) as [[u d']|e] eqn:H; [by apply (command_keeps o Ho d u d')|apply W].
Qed.
End Writes.

Lemma run_keeps_always P os d : writes (fun _ => True) P -> P d (run os d).
Proof. intros W. apply (run_keeps _ P W). apply Forall_forall. intros o _. unfold clock_within. by destruct (clock_of o). Qed.

(** ** No escalation *)

(** What a relationship keeps through every service; a status that is verified was so before. *)
Definition not_promoted (g g' : guardian) : Prop :=
  g_id g' = g_id g /\ g_tenant g' = g_tenant g /\ g_member g' = g_member g /\ g_profile g' = g_profile g /\ g_type g' = g_type g /\
  g_level g' = g_level g /\ g_consentStatus g' = g_consentStatus g /\ g_eligibility g' = g_eligibility g /\
  (g_status g' = RelVerified -> g_status g = RelVerified).
Definition starts_low (g : guardian) : Prop :=
  g_status g <> RelVerified /\ g_consentStatus g = "not_requested" /\ g_eligibility g = "not_verified".
Definition no_escalation (d d' : household) : Prop :=
  (exists new, members d' = members d ++ new /\ Forall (fun m => hm_role m <> Access.Owner) new) /\
  evolves not_promoted starts_low (guardians d) (guardians d').

Lemma not_promoted_refl g : not_promoted g g.
Proof. unfold not_promoted. tauto. Qed.
Lemma not_promoted_trans a b c : not_promoted a b -> not_promoted b c -> not_promoted a c.
Proof. unfold not_promoted. intros (?&?&?&?&?&?&?&?&?) (?&?&?&?&?&?&?&?&?). repeat split; try congruence. auto. Qed.
Lemma starts_low_promoted g g' : starts_low g -> not_promoted g g' -> starts_low g'.
Proof. unfold starts_low, not_promoted. intros (? & ? & ?) (_&_&_&_&_&_&?&?&?). repeat split; [auto|congruence..]. Qed.
Lemma no_escalation_guardians d l : evolves not_promoted starts_low (guardians d) l -> no_escalation d (set_guardians l d).
Proof. intros H. split; [exists []; by rewrite app_nil_r|done]. Qed.
Lemma no_escalation_same d d' : members d' = members d -> guardians d' = guardians d -> no_escalation d d'.
Proof. intros Hm Hg. split; [exists []; by rewrite app_nil_r|]. rewrite Hg. apply evolves_refl, not_promoted_refl. Qed.
Lemma no_escalation_update d t id f : (forall g, not_promoted g (f g)) -> no_escalation d (set_guardians (update_row t id f (guardians d)) d).
Proof.
  intros Hf. apply no_escalation_guardians, evolves_map. intros g _. destruct (is_row t id g); [done|apply not_promoted_refl].
Qed.
Lemma no_escalation_writes : writes (fun _ => True) no_escalation.
Proof.
  split; try (intros; by apply no_escalation_same).
  - intros a b c [(m1 & Hm1 & F1) G1] [(m2 & Hm2 & F2) G2]. split.
    + exists (m1 ++ m2). rewrite Hm2, Hm1, <- app_assoc. split; [done|]. by apply Forall_app.
    + by apply (evolves_trans _ _ not_promoted_trans starts_low_promoted _ (guardians b)).
  - intros. apply no_escalation_guardians, evolves_grow; [apply not_promoted_refl|]. repeat constructor. done.
  - intros. apply no_escalation_update. intros x. unfold not_promoted. cbn. tauto.
  - intros d t id g s rv ar _ Hs _. apply no_escalation_update. intros x. unfold not_promoted. cbn. repeat split. intros Hv.
    destruct (Hs x); congruence.
  - intros d m now Hr _ _. split; [exists [m]; split; [done|by repeat constructor]|].
    apply evolves_refl, not_promoted_refl.
Qed.
(** C23 — No service of the household escalates: whatever is run, memberships are only added and never as owner; a relationship keeps its
    member, profile, type, authority level, consent status and recipient eligibility, and none becomes verified; a new one starts unverified,
    without consent and not eligible. *)
Theorem household_never_escalates (os : list op) (d : household) : no_escalation d (run os d).
Proof. apply run_keeps_always, no_escalation_writes. Qed.

(** ** One active primary per profile *)

Definition primary_at (t p : string) (g : guardian) : bool :=
  (g_tenant g =s t) && (g_profile g =s p) && (g_role g =s js_name GR_Primary) && active g.
Definition primaries (t p : string) (d : household) : Z := count (primary_at t p) (guardians d).
Definition one_primary (d : household) : Prop := NoDup (map g_id (guardians d)) /\ forall t p, primaries t p d <= 1.

#[local] Instance set_role_key r : KeepsKey (set_role r).
Proof. done. Qed.
#[local] Instance set_state_key (s : guardian -> GuardianRelationshipStatus) (rv ar : guardian -> option Z) :
  KeepsKey (fun g => set_state (s g) (rv g) (ar g) g).
Proof. done. Qed.

(** The excluded row aside, a free profile has no primary. *)
Lemma primary_free_none t p ex role d : primary_free t p ex role d -> role = js_name GR_Primary ->
  forall g, In g (guardians d) -> primary_at t p g = true -> Some (g_id g) = ex.
Proof.
  intros Hfree Hr g Hin Hg. specialize (Hfree Hr). unfold activePrimaryExists in Hfree. pose proof (existsb_false _ _ Hfree g Hin) as Hx.
  cbv beta in Hx. unfold primary_at in Hg. rewrite Hg in Hx. cbn [andb] in Hx. destruct ex as [x|]; [|done]. guards_in Hx. congruence.
Qed.
(** At most one row is the row of an id. *)
Lemma count_row_le t id d : NoDup (map g_id (guardians d)) -> count (is_row t id) (guardians d) <= 1.
Proof.
  induction (guardians d) as [|g l IH]; [done|]. cbn [map]. intros [Hg Hnd]%NoDup_cons. rewrite count_cons. specialize (IH Hnd).
  destruct (is_row t id g) eqn:Hrow; [|lia]. assert (count (is_row t id) l <= 0); [|lia]. apply Z.nlt_ge. intros Hpos.
  apply Hg. apply is_row_iff in Hrow as [Hid _]. cbn in Hid. clear - Hpos Hid. induction l as [|x l IH]; [done|].
  rewrite count_cons in Hpos. cbn [map]. destruct (is_row t id x) eqn:Hx; [|apply list_elem_of_In; right; apply list_elem_of_In, IH; lia].
  apply is_row_iff in Hx as [Hx _]. cbn in Hx. apply list_elem_of_In. left. congruence.
Qed.
Lemma count_map {A B} (p : B -> bool) (f : A -> B) l : count p (map f l) = count (fun x => p (f x)) l.
Proof. induction l as [|x l IH]; [done|]. cbn [map]. by rewrite !count_cons, IH. Qed.
Lemma count_false {A} (l : list A) : count (fun _ => false) l = 0.
Proof. induction l as [|x l IH]; [done|]. by rewrite count_cons, IH. Qed.
Lemma one_primary_update d t id g (f : guardian -> guardian) `{!KeepsKey f} :
  one_primary d -> row_of d t id g -> g_profile (f g) = g_profile g ->
  (active (f g) = true -> primary_free t (g_profile g) (Some id) (g_role (f g)) d) ->
  one_primary (set_guardians (update_row t id f (guardians d)) d).
Proof.
  intros [Hnd Hone] (Hin & Ht & Hid) Hp Hfree. split.
  { change (NoDup (map row_id (update_row t id f (guardians d)))). by rewrite ids_update. }
  intros t' p'. unfold primaries. cbn [guardians set_guardians].
  assert (Hself : forall x, In x (guardians d) -> is_row t id x = true -> x = g).
  { intros x Hx [Hxid _]%is_row_iff. cbn in Hxid. apply (NoDup_key_inj g_id _ _ _ Hnd Hx Hin). congruence. }
  destruct (primary_at t' p' (f g)) eqn:Hfg.
  - rewrite <- (count_row_le t id d Hnd). unfold update_row. rewrite count_map. apply count_le. intros x Hx Hpx.
    destruct (is_row t id x) eqn:Hrow; [done|]. unfold primary_at in Hfg. guards_in Hfg. destruct Hfg as (((Hft & Hfp) & Hfr) & Hfa).
    assert (Htt : t' = t) by (pose proof (proj2 (keeps_key g)) as Hk; cbn in Hk; congruence). rewrite Htt, <- Hfp, Hp in Hpx.
    pose proof (primary_free_none _ _ _ _ _ (Hfree Hfa) Hfr x Hx Hpx) as [= Hxid]. exfalso.
    rewrite (proj2 (is_row_iff t id x)) in Hrow; [done|]. split; [done|]. unfold primary_at in Hpx. guards_in Hpx. cbn. tauto.
  - rewrite <- (Hone t' p'). unfold update_row. apply count_map_le. intros x Hx. destruct (is_row t id x) eqn:Hrow; [|done].
    rewrite (Hself x Hx Hrow). congruence.
Qed.
Lemma one_primary_writes : writes (fun _ => True) (fun d d' => one_primary d -> one_primary d').
Proof.
  split; try done.
  - auto.
  - intros d st t m p ty level role ct Hfree Hid [Hnd Hone]. split.
    + cbn [guardians set_guardians]. rewrite map_app. apply NoDup_app. split; [done|]. split; [|apply NoDup_singleton].
      intros x Hx ->%list_elem_of_singleton. by rewrite list_elem_of_In in Hx.
    + intros t' p'. unfold primaries. cbn [guardians set_guardians]. rewrite count_app, count_one.
      destruct (primary_at t' p' (new_guardian _ _ _ _ _ _ _ _)) eqn:Hnew; [|specialize (Hone t' p'); unfold primaries in Hone; lia].
      unfold primary_at in Hnew. guards_in Hnew. cbn [new_guardian g_tenant g_profile g_role] in Hnew. destruct Hnew as (((<- & <-) & Hr) & _).
      assert (count (primary_at t p) (guardians d) <= count (fun _ => false) (guardians d)) as Hz.
      { apply count_le. intros g Hg Hpg. by pose proof (primary_free_none _ _ _ _ _ Hfree Hr g Hg Hpg). }
      rewrite count_false in Hz. lia.
  - intros d t id r g Hrow Hfree Hone. apply (one_primary_update d t id g); [apply _|done..|]. intros _. exact Hfree.
  - intros d t id g s rv ar Hrow _ Hfree Hone. by apply (one_primary_update d t id g); [apply _|done..|].
Qed.
(** C22 — A profile never has two active primary guardians: if the rows start with at most one per profile and with distinct ids, so they end,
    whatever sequence of services is run, creation, role changes, reactivation and accepted invitations alike. *)
Theorem one_active_primary (os : list op) (d : household) : one_primary d -> one_primary (run os d).
Proof. apply (run_keeps_always _ os d one_primary_writes). Qed.

(** ** Invitations are answered once *)

(** Settled invitations stay as they are, and token hashes stay apart. *)
Definition settled_stays (d d' : household) : Prop :=
  (NoDup (map fi_hash (invitations d)) -> NoDup (map fi_hash (invitations d'))) /\
  forall i, In i (invitations d) -> pending i = false -> In i (invitations d').

Lemma settled_same d d' : invitations d' = invitations d -> settled_stays d d'.
Proof. intros H. unfold settled_stays. by rewrite H. Qed.
Lemma settled_writes : writes (fun _ => True) settled_stays.
Proof.
  split; try (intros; by apply settled_same).
  - intros a b c [H1 H2] [H3 H4]. split; auto.
  - intros d p s by_ acc dec rev _. split; cbn [invitations set_invitations].
    + by rewrite update_where_keys.
    + intros i Hi Hp. unfold update_where. apply in_map_iff. exists i. by rewrite Hp, andb_false_r.
  - intros d row now Hh _ _. split; cbn [invitations set_invitations].
    + intros Hnd. rewrite map_app. apply NoDup_app. split; [done|]. split; [|apply NoDup_singleton].
      intros x Hx ->%list_elem_of_singleton. by rewrite list_elem_of_In in Hx.
    + intros i Hi _. apply in_app_iff. by left.
Qed.

Definition accepted_by (token user t : string) (d : household) : Prop := exists i,
  In i (invitations d) /\ fi_hash i = sha256 token /\ fi_status i = FI_Accepted /\ fi_acceptedBy i = Some user /\ fi_tenant i = t.

Lemma find_invitation_Some token d inv : find_invitation sha256 token d = Some inv -> In inv (invitations d) /\ fi_hash inv = sha256 token.
Proof. unfold find_invitation. intros [Hin Hh]%List.find_some. by apply String.eqb_eq in Hh. Qed.
Lemma accepted_found token user t d : NoDup (map fi_hash (invitations d)) -> accepted_by token user t d ->
  exists i, find_invitation sha256 token d = Some i /\ fi_status i = FI_Accepted /\ fi_acceptedBy i = Some user /\ fi_tenant i = t.
Proof.
  intros Hnd (i & Hin & Hh & Hs & Hu & Ht). exists i. split; [|done]. unfold find_invitation. rewrite <- Hh. by apply find_unique_key.
Qed.
Lemma run_accepted token user t os d : accepted_by token user t d -> accepted_by token user t (run os d).
Proof.
  intros (i & Hin & Hh & Hs & H). exists i. split; [|done]. pose proof (run_keeps_always _ os d settled_writes) as [_ Hstay].
  apply Hstay; [done|]. unfold pending. by rewrite Hs.
Qed.

(** The path on which an invitation is accepted: the pending row is claimed, the person
    joins, the relationship is made active. *)
Lemma accept_path st token user email d t mc rc rr d' :
  acceptFamilyGuardianInvitation sha256 enabled st token user email d = Ret (Accepted t mc rc rr, d') ->
  exists inv, find_invitation sha256 token d = Some inv /\ t = fi_tenant inv /\
    (fi_status inv = FI_Accepted /\ fi_acceptedBy inv = Some user /\ d' = d \/
     fi_status inv = FI_Pending /\ Access.isInviteExpired (fi_expiresAt inv) (clock st) = false /\ fi_email inv = Access.normalizeEmail email /\
     exists role m d1 d2 d3 d4, membershipRoleForInvitedFamilyRole (fi_familyRole inv) = Some role /\
       update_pending (fun i => fi_id i =s fi_id inv) (with_fi FI_Accepted (Some user) (Some (clock st)) None None) d = Ret (tt, d1) /\
       join_family enabled st inv user role d1 = Ret ((m, mc), d2) /\ activate_link st inv user m d2 = Ret ((rc, rr), d3) /\
       audit_invitation (fi_tenant inv) "child_safety.family_invitation.accepted" user (fi_id inv) d3 = Ret (tt, d4) /\
       enqueue_accepted sha256 st inv d4 = Ret (tt, d')).
Proof.
  unfold acceptFamilyGuardianInvitation. intros H. destruct (acceptTx _ _ _ _ _ _ d) as [[r d0]|e] eqn:Ha; [|by destruct e].
  injection H as -> ->. unfold acceptTx in Ha. apply bind_Ret in Ha as (d0 & d1 & [-> ->]%get_Ret & Ha).
  destruct (find_invitation sha256 token d) as [inv|] eqn:Hinv; [|by apply mret_Ret in Ha as [? _]]. exists inv. split; [done|].
  cbv zeta in Ha. destruct (fi_status inv) eqn:Hs; try (by apply mret_Ret in Ha as [? _]).
  - destruct (_ || _) eqn:Hexp; [by run_inv|]. destruct (negb _) eqn:Hmail; [by run_inv|].
    destruct (membershipRoleForInvitedFamilyRole (fi_familyRole inv)) as [role|] eqn:Hrole; [|by run_inv].
    destruct (match find_row _ _ _ with Some _ => _ | None => _ end); [by run_inv|]. apply orb_false_iff in Hexp as [_ Hexp].
    apply negb_false_iff, String.eqb_eq in Hmail. apply bind_Ret in Ha as ([] & d1 & Hup & Ha). apply bind_Ret in Ha as ([m mc'] & d2 & Hj & Ha).
    apply bind_Ret in Ha as ([rc' rr'] & d3 & Hl & Ha). apply bind_Ret in Ha as ([] & d4 & Hau & Ha). apply bind_Ret in Ha as ([] & d5 & Hen & Ha).
    apply mret_Ret in Ha as [[= -> -> -> ->] ->]. split; [done|]. right. repeat split; [done..|]. exists role, m, d1, d2, d3, d4. done.
  - apply mret_Ret in Ha as [Ha ->]. destruct (status_is (fi_acceptedBy inv) user) eqn:Hu; [|done]. injection Ha as -> _ _ _. split; [done|].
    left. split; [done|]. split; [|done]. unfold status_is in Hu. destruct (fi_acceptedBy inv); [|done]. apply String.eqb_eq in Hu. congruence.
Qed.
Lemma acceptance_recorded st token user email d t mc rc rr d' :
  acceptFamilyGuardianInvitation sha256 enabled st token user email d = Ret (Accepted t mc rc rr, d') -> accepted_by token user t d'.
Proof.
  intros (inv & Hinv & -> & Hcase)%accept_path. apply find_invitation_Some in Hinv as [Hin Hh].
  destruct Hcase as [(Hs & Hu & ->)|(Hs & _ & _ & role & m & d1 & d2 & d3 & d4 & Hrole & Hup & Hj & Hl & Ha & He)]; [by exists inv|].
  set (i := with_fi FI_Accepted (Some user) (Some (clock st)) None None inv). assert (Hi : In i (invitations d1)).
  { unfold update_pending, modify in Hup. run_inv. cbn [invitations set_invitations]. unfold update_where. apply in_map_iff. exists inv.
    unfold pending. by rewrite String.eqb_refl, Hs. }
  exists i. split; [|done]. apply invited_role_not_owner in Hrole.
  pose proof (join_keeps _ _ settled_writes _ _ _ _ _ _ _ I Hrole Hj) as [_ H1].
  pose proof (activate_keeps _ _ settled_writes _ _ _ _ _ _ _ Hl) as [_ H2].
  pose proof (keeps_audit _ _ settled_writes _ _ _ _ _ _ _ _ Ha) as [_ H3].
  pose proof (keeps_enqueue _ _ settled_writes _ _ _ _ _ He) as [_ H4]. auto.
Qed.

(** C24 — An invitation is accepted once and for all: after it was accepted, whatever is run, presenting its token again changes nothing; the
    person who accepted is told so again, with nothing created; anyone else is refused, and it can no longer be declined. *)
Theorem invitation_answered_once (st st' st'' : stamp) (token user email user' email' : string) (os : list op) (d d1 : household) (t : string)
    (mc rc rr : bool) :
  NoDup (map fi_hash (invitations d)) ->
  acceptFamilyGuardianInvitation sha256 enabled st token user email d = Ret (Accepted t mc rc rr, d1) ->
  let d2 := run os d1 in
  acceptFamilyGuardianInvitation sha256 enabled st' token user' email' d2 =
    Ret (if user' =s user then Accepted t false false false else NotAccepted "already_accepted", d2) /\
  exists reason, declineFamilyGuardianInvitation sha256 st'' token user' email' d2 = Ret (Some reason, d2) /\
    In reason ["identity_mismatch"; "already_accepted"].
Proof.
  intros Hnd Hacc d2. assert (Hrow : accepted_by token user t d2) by (eapply run_accepted, acceptance_recorded, Hacc).
  assert (Hnd2 : NoDup (map fi_hash (invitations d2))).
  { apply (proj1 (run_keeps_always _ (HAccept st token user email :: os) d settled_writes)) in Hnd. cbn [run fold_left] in Hnd.
    unfold exec, after, command, ignore in Hnd. unfold mbind, tx_bind in Hnd. by rewrite Hacc in Hnd. }
  apply (accepted_found _ _ _ _ Hnd2) in Hrow as (i & Hi & Hs & Hu & Ht). split.
  - unfold acceptFamilyGuardianInvitation, acceptTx, mbind, tx_bind, get. rewrite Hi, Hs, Hu, Ht. unfold status_is, mret, tx_ret.
    rewrite (String.eqb_sym user). by destruct (user' =s user).
  - unfold declineFamilyGuardianInvitation, mbind, tx_bind, get. rewrite Hi, Hs. destruct (negb _); eexists; (split; [done|]); cbn; tauto.
Qed.

(** ** What an acceptance leaves behind *)

Lemma join_result st inv user role d m mc d' : join_family enabled st inv user role d = Ret ((m, mc), d') ->
  guardians d' = guardians d /\ exists row, In row (members d') /\ hm_id row = m /\ hm_user row = user /\ hm_tenant row = fi_tenant inv /\
    (mc = true -> hm_role row = role).
Proof.
  intros H. unfold join_family, audit_invitation, audit, modify in H. run_inv.
  - match goal with H : List.find _ _ = Some ?x |- _ => apply List.find_some in H as [Hin Hb]; guards_in Hb; split; [done|]; exists x end. naive_solver.
  - match goal with H : enforceFamilyCapacity _ _ _ _ _ = _ |- _ => apply capacity_Ret in H as [-> _] end. split; [done|]. eexists.
    split; [apply in_app_iff; right; by left|]. naive_solver.
Qed.
Lemma not_differs a b c d : (negb (a =s b) || negb (c =s d)) = false -> a = b /\ c = d.
Proof. by intros [->%negb_false_iff%String.eqb_eq ->%negb_false_iff%String.eqb_eq]%orb_false_iff. Qed.
Lemma activate_result st inv user m d rc rr d' : activate_link st inv user m d = Ret ((rc, rr), d') ->
  members d' = members d /\ exists g, In g (guardians d') /\ active g = true /\ g_tenant g = fi_tenant inv /\ g_member g = m /\
    g_profile g = fi_profile inv /\ g_role g = fi_guardianRole inv /\ g_type g = fi_type inv /\
    (rc = true -> g_status g = RelPending /\ g_level g = js_name LevelReadOnly).
Proof.
  intros H. unfold activate_link, insert_guardian, update_guardian, audit_invitation, audit, modify in H.
  apply bind_Ret in H as (d0 & d1 & [-> ->]%get_Ret & H).
  destruct (newest_link _ _ _ d) as [g|] eqn:Hg; [|run_inv; split; [done|]; eexists; split; [apply in_app_iff; right; by left|done]].
  apply newest_link_row in Hg as ((Hin & Ht & _) & Hm & Hp).
  destruct (active g) eqn:Hact; [|destruct (_ && _ && _) eqn:Hsusp].
  - run_inv. match goal with H : _ || _ = false |- _ => apply not_differs in H end. split; [done|]. exists g. naive_solver.
  - run_inv. match goal with H : _ || _ = false |- _ => apply not_differs in H end. guards_in Hsusp. split; [done|]. exists (set_state RelPending (g_revokedAt g) (g_archivedAt g) g). split.
    { apply In_update_row. exists g. split; [done|]. rewrite (proj2 (is_row_iff _ _ g)); [done|]. done. }
    unfold active. cbn. destruct (g_revokedAt g), (g_archivedAt g); naive_solver.
  - run_inv. split; [done|]. eexists. split; [apply in_app_iff; right; by left|done].
Qed.

(** What acceptance grants, exactly: the invitation was pending, in time and addressed to the address of the session; afterwards the
    person is a member of that family, with the role mapped from the invitation if the membership is new, and holds an active relationship on
    that profile with the invited role and type; a relationship created for it is pending and read-only. *)
Theorem acceptance_grants_exactly (st : stamp) (token user email : string) (d d' : household) (inv : invitation) (t : string) (mc rc rr : bool) :
  acceptFamilyGuardianInvitation sha256 enabled st token user email d = Ret (Accepted t mc rc rr, d') ->
  find_invitation sha256 token d = Some inv -> fi_status inv <> FI_Accepted ->
  fi_status inv = FI_Pending /\ Access.isInviteExpired (fi_expiresAt inv) (clock st) = false /\ fi_email inv = Access.normalizeEmail email /\
  exists m g, In m (members d') /\ hm_user m = user /\ hm_tenant m = fi_tenant inv /\
    (mc = true -> membershipRoleForInvitedFamilyRole (fi_familyRole inv) = Some (hm_role m)) /\
    In g (guardians d') /\ active g = true /\ g_tenant g = fi_tenant inv /\ g_member g = hm_id m /\ g_profile g = fi_profile inv /\
    g_role g = fi_guardianRole inv /\ g_type g = fi_type inv /\ (rc = true -> g_status g = RelPending /\ g_level g = js_name LevelReadOnly).
Proof.
  intros (inv' & Hinv' & -> & Hcase)%accept_path Hinv Hna. rewrite Hinv in Hinv'. injection Hinv' as <-.
  destruct Hcase as [(Hs & _)|(Hs & Hexp & Hmail & role & m & d1 & d2 & d3 & d4 & Hrole & _ & Hj & Hl & Ha & He)]; [done|].
  repeat split; [done..|]. apply join_result in Hj as (_ & row & Hin & <- & Hu & Ht & Hnew). apply activate_result in Hl as (Hmem & g & Hg & Hrest).
  unfold audit_invitation, audit, modify, enqueue_accepted in *. run_inv. destruct (Outbox.enqueueFamilyNotificationOutboxEventTx _ _ _ _ _) as [box' [r|e]];
    [|done]. run_inv. cbn [members guardians set_box set_events]. exists row, g. rewrite Hmem. destruct Hrest as (?&?&?&?&?&?&?).
  repeat split; try done; try tauto. intros Hmc. by rewrite Hrole, Hnew.
Qed.

(** ** Capacity *)

(** At the time [now] and for every tenant on a capped plan, [d'] has at most the cap or
    what [d] had already. *)
Definition no_growth (now : Z) (d d' : household) : Prop :=
  plans d' = plans d /\
  forall t cap r, In r [FamilyBilling.res_family_member; FamilyBilling.res_invitation] ->
    FamilyBilling.familyResourceLimit (resolveFamilyEntitlementsForTenant t d) r = Cap cap ->
    counted t r now d' <= Z.max cap (counted t r now d).

Lemma room_counted t r now d cap : enabled = true -> room t r now d ->
  FamilyBilling.familyResourceLimit (resolveFamilyEntitlementsForTenant t d) r = Cap cap -> counted t r now d < cap.
Proof.
  unfold room, enforceFamilyCapacity. intros -> H Hcap. cbn [negb] in H. cbv zeta in H.
  apply bind_Ret in H as (d0 & d1 & [-> ->]%get_Ret & H). apply bind_Ret in H as (u & d1 & (_ & _ & ->)%throw_if_Ret & H).
  rewrite Hcap in H. apply throw_if_Ret in H as (H & _). by apply Z.leb_gt in H.
Qed.
Lemma counted_same t r now d d' : guardians d' = guardians d -> profs d' = profs d -> members d' = members d -> invitations d' = invitations d ->
  counted t r now d' = counted t r now d.
Proof. intros Hg Hp Hm Hi. unfold counted. by rewrite Hg, Hp, Hm, Hi. Qed.
Lemma counted_later t now now' d : now <= now' ->
  counted t FamilyBilling.res_invitation now' d <= counted t FamilyBilling.res_invitation now d.
Proof. intros Hle. apply count_le. intros i _ Hi. guards_in Hi. guards_goal. destruct Hi as [? Hi]. split; [done|]. apply Z.ltb_lt in Hi. apply Z.ltb_lt. lia. Qed.
Lemma no_growth_le now d d' : plans d' = plans d ->
  (forall t r, In r [FamilyBilling.res_family_member; FamilyBilling.res_invitation] -> counted t r now d' <= counted t r now d) -> no_growth now d d'.
Proof. intros Hp H. split; [done|]. intros t cap r Hr _. specialize (H t r Hr). lia. Qed.
Lemma no_growth_writes now : enabled = true -> writes (fun c => c <= now) (no_growth now).
Proof.
  intros Hen. split; try (intros; apply no_growth_le; [done|]; intros; by apply Z.eq_le_incl, counted_same).
  - intros a b c [Hp1 H1] [Hp2 H2]. split; [congruence|]. intros t cap r Hr Hcap. specialize (H1 t cap r Hr Hcap).
    assert (Hcap2 : FamilyBilling.familyResourceLimit (resolveFamilyEntitlementsForTenant t b) r = Cap cap)
      by (unfold resolveFamilyEntitlementsForTenant; by rewrite Hp1). specialize (H2 t cap r Hr Hcap2). lia.
  - intros. apply no_growth_le; [done|]. intros ? ? [<-|[<-|[]]]; by apply Z.eq_le_incl.
  - intros. apply no_growth_le; [done|]. intros ? ? [<-|[<-|[]]]; by apply Z.eq_le_incl.
  - intros. apply no_growth_le; [done|]. intros ? ? [<-|[<-|[]]]; by apply Z.eq_le_incl.
  - intros d m c _ Hc Hroom. split; [done|]. intros t cap r [<-|[<-|[]]] Hcap; [|cbn [counted invitations set_members]; lia].
    cbn [counted members set_members]. rewrite count_app, count_one. destruct (hm_tenant m =s t) eqn:Ht; [|lia]. apply String.eqb_eq in Ht as <-.
    pose proof (room_counted _ _ _ _ _ Hen Hroom Hcap) as Hlt. cbn [counted] in Hlt. lia.
  - intros. apply no_growth_le; [done|]. intros ? ? [<-|[<-|[]]]; by apply Z.eq_le_incl.
  - intros d p s by_ acc dec rev Hs. apply no_growth_le; [done|]. intros t r [<-|[<-|[]]]; [done|].
    cbn [counted invitations set_invitations]. apply count_map_le. intros i _. destruct (p i && pending i); [|done]. cbn [with_fi fi_status].
    intros Hi. guards_in Hi. tauto.
  - intros d row c _ Hc Hroom. split; [done|]. intros t cap r [<-|[<-|[]]] Hcap; [cbn [counted members set_invitations]; lia|].
    pose proof (counted_later t c now d Hc) as Hle. cbn [counted invitations set_invitations] in *. rewrite count_app, count_one.
    destruct ((fi_tenant row =s t) && _ && _) eqn:Hrow; [|lia]. guards_in Hrow. destruct Hrow as [[<- _] _].
    pose proof (room_counted _ _ _ _ _ Hen Hroom Hcap) as Hlt. cbn [counted] in Hlt. lia.
Qed.
(** Family capacity: with billing on, no sequence of services takes the memberships of a tenant, or its invitations pending at the time
    of the last call, above the cap of its plan; a tenant already above it (after a downgrade) never gets further above. *)
Theorem family_caps_hold (os : list op) (now : Z) (d : household) (t : string) (r : FamilyBilling.FamilyLimitedResource) (cap : Z) :
  enabled = true -> Forall (clock_within (fun c => c <= now)) os -> In r [FamilyBilling.res_family_member; FamilyBilling.res_invitation] ->
  FamilyBilling.familyResourceLimit (resolveFamilyEntitlementsForTenant t d) r = Cap cap ->
  counted t r now (run os d) <= Z.max cap (counted t r now d).
Proof. intros Hen Hos Hr Hcap. by apply (run_keeps _ _ (no_growth_writes now Hen) os d Hos). Qed.
End Runs.

(** * Concrete households *)

Definition hash0 (s : string) : string := "h" +:+ s.
Definition owner0 : FamilyActorContext := {| tenantId := "t1"; userId := "u0"; role := "owner"; workspaceKind := "family" |}.
(** A family on the free plan: one protected profile, two guardians, three members, two pending invitations. *)
Definition home0 : household := {|
  guardians := []; profs := [{| p_id := "p1"; p_tenant := "t1"; p_label := None; p_ageBand := "under_10"; p_protection := "inactive";
                                p_language := None; p_archivedAt := None |}];
  members := [{| hm_id := "m0"; hm_tenant := "t1"; hm_user := "u0"; hm_role := Access.Owner |};
              {| hm_id := "m1"; hm_tenant := "t1"; hm_user := "u1"; hm_role := Access.Analyst |}];
  invitations := []; emails := [("u0", "a@x.org"); ("u1", "b@x.org")];
  plans := [{| pl_tenant := "t1"; pl_plan := "family_free"; pl_access := "full_access"; pl_deletionState := "active" |}];
  events := []; box := [] |}.
Definition at_ (id : string) (now : Z) : stamp := {| newId := id; eventId := "e" +:+ id; clock := now |}.
Definition guardian_input (m : string) (r : GuardianRole) : relationship_input := {|
  ri_keys := ["guardianMembershipId"; "protectedProfileId"; "relationshipType"; "authorityLevel"; "guardianRole"]; ri_member := m; ri_profile := "p1";
  ri_type := "parent"; ri_level := "full"; ri_role := js_name r; ri_consentType := None |}.
Definition invite_input (email : string) : CreateFamilyInvitationInput := {|
  cf_profile := "p1"; cf_email := email; cf_familyRole := "trusted_adult"; cf_guardianRole := "secondary"; cf_type := "trusted_adult" |}.
Definition profile0 : profile_input := {| pi_keys := ["ageBand"]; pi_label := None; pi_ageBand := Some "age_10_12"; pi_protection := None; pi_language := None |}.
Definition profiled : list op := [HArchiveProfile (at_ "x" 5) owner0 "p1"; HCreateProfile (at_ "p2" 6) owner0 profile0].
Definition with_two : list op := [HCreateGuardian (at_ "g1" 1) owner0 (guardian_input "m0" GR_Primary);
  HCreateGuardian (at_ "g2" 2) owner0 (guardian_input "m1" GR_Secondary)].
Definition full0 : household := run hash0 true (with_two ++ [HInvite (at_ "i1" 3) owner0 (invite_input "C@x.org ") "tok"]) home0.
Definition accept0 : HM FamilyAcceptResult := acceptFamilyGuardianInvitation hash0 true (at_ "n1" 4) "tok" "u2" "c@x.org".

(** An accepted invitation brings a third guardian into a family whose plan has two, and
    to whom a third is refused when created directly. *)
Example acceptance_ignores_guardian_cap :
  counted "t1" FamilyBilling.res_guardian 4 full0 = 2 /\
  result (createGuardianRelationship true (at_ "g3" 4) owner0 (guardian_input "m1" GR_Emergency)) full0 =
    Throw (FamilyEntitlementError "family_plan_limit_reached" FamilyBilling.res_guardian (Some (2, 2))) /\
  result accept0 full0 = Ret (Accepted "t1" true true false) /\ counted "t1" FamilyBilling.res_guardian 4 (after accept0 full0) = 3.
Proof. by vm_compute. Qed.

(** Restoring an archived profile is not counted: archive, create, restore ends with two
    profiles on a plan of one. *)
Example restore_ignores_profile_cap :
  let d := run hash0 true profiled home0 in
  counted "t1" FamilyBilling.res_protected_profile 7 d = 1 /\
  result (createProtectedProfile true (at_ "p3" 7) owner0 profile0) d =
    Throw (FamilyEntitlementError "family_plan_limit_reached" FamilyBilling.res_protected_profile (Some (1, 1))) /\
  counted "t1" FamilyBilling.res_protected_profile 7 (run hash0 true [HRestoreProfile owner0 "p1"] d) = 2.
Proof. by vm_compute. Qed.

Lemma one_active_primary_witness :
  one_primary (run hash0 true (with_two ++ [HRole owner0 "g2" "primary"; HDeactivate owner0 "g1"; HRole owner0 "g2" "primary"; HReactivate owner0 "g1"]) home0).
Proof. apply one_active_primary. split; [apply NoDup_nil_2|]. intros t p. by vm_compute. Defined.
Lemma invitation_answered_once_witness :
  let d2 := run hash0 true [HRevokeInvite (at_ "z" 6) owner0 "i1"] (after accept0 full0) in
  acceptFamilyGuardianInvitation hash0 true (at_ "n2" 9) "tok" "u3" "c@x.org" d2 = Ret (NotAccepted "already_accepted", d2).
Proof.
  apply (invitation_answered_once hash0 true (at_ "n1" 4) (at_ "n2" 9) (at_ "n2" 9) "tok" "u2" "c@x.org" "u3" "c@x.org"
    [HRevokeInvite (at_ "z" 6) owner0 "i1"] full0 (after accept0 full0) "t1" true true false);
    [apply (bool_decide_unpack _); by vm_compute|by vm_compute].
Defined.
Definition invitation0 : invitation := {|
  fi_id := "i1"; fi_tenant := "t1"; fi_profile := "p1"; fi_invitedBy := "m0"; fi_email := "c@x.org"; fi_familyRole := "trusted_adult"; fi_guardianRole := "secondary";
  fi_type := "trusted_adult"; fi_status := FI_Pending; fi_hash := "htok"; fi_expiresAt := Access.inviteExpiryFrom 3 Access.INVITE_TTL_DAYS;
  fi_acceptedBy := None; fi_acceptedAt := None; fi_declinedAt := None; fi_revokedAt := None |}.
Lemma acceptance_grants_exactly_witness : exists m g, In m (members (after accept0 full0)) /\ hm_user m = "u2" /\
  In g (guardians (after accept0 full0)) /\ g_member g = hm_id m /\ g_status g = RelPending.
Proof.
  destruct (acceptance_grants_exactly hash0 true (at_ "n1" 4) "tok" "u2" "c@x.org" full0 (after accept0 full0) invitation0 "t1" true true false)
    as (_ & _ & _ & m & g & Hm & Hu & _ & _ & Hg & _ & _ & Hgm & _ & _ & _ & Hnew); [by vm_compute|by vm_compute|discriminate|].
  destruct (Hnew eq_refl) as [Hp _]. exists m, g. exact (conj Hm (conj Hu (conj Hg (conj Hgm Hp)))).
Defined.
Lemma family_caps_hold_witness : counted "t1" FamilyBilling.res_family_member 9
  (run hash0 true [HAccept (at_ "n1" 4) "tok" "u2" "c@x.org"; HInvite (at_ "i2" 5) owner0 (invite_input "d@x.org") "tok2";
                   HAccept (at_ "n3" 6) "tok2" "u3" "d@x.org"] full0) <= 3.
Proof.
  apply (family_caps_hold hash0 true _ 9 full0 "t1" FamilyBilling.res_family_member 3); [done| |by left|by vm_compute].
  repeat constructor; cbn; lia.
Defined.
End Household.
