(* ===== verification/Guardianship.v ===== *)
(** Guardian authority, consent and safe-recipient assessment
    ([packages/db/src/child-safety-consent.ts]): the three record life cycles as
    transactions over the family tables, and the evaluators that decide whether a
    guardian may receive safety information. *)
From S2P Require Import Prelude Access Workspace Disclosure Outbox FamilyStore.
Open Scope string_scope.
Open Scope list_scope.
Open Scope Z_scope.
Open Scope tam_scope.

#[local] Set Default Proof Using "Type".

Module Guardianship.
Import Disclosure Workspace FamilyStore.

Section Services.
(** [sha256], in hex, as the outbox uses it. *)
Context (sha256 : string -> string).

(** * Guardian authority *)

Definition with_authority (s : Disclosure.AuthorityRecordState) (level : string) (verifiedAt : option Z)
    (method : option string) (now : Z) (r : authority) : authority :=
  {| au_id := au_id r; au_tenant := au_tenant r; au_rel := au_rel r; au_type := au_type r; au_level := level;
     au_state := s; au_verifiedAt := verifiedAt; au_method := method; au_createdAt := au_createdAt r; au_updatedAt := now |}.

(** Replace the status, and optionally the expiry or the revocation mark. *)
Definition authority_state (status : string) (until revoked : option Z) (s : Disclosure.AuthorityRecordState) : Disclosure.AuthorityRecordState :=
  {| Disclosure.authorityStatus := status; Disclosure.a_validFrom := Disclosure.a_validFrom s;
     Disclosure.a_validUntil := or_else until (Disclosure.a_validUntil s);
     Disclosure.a_revokedAt := or_else revoked (Disclosure.a_revokedAt s);
     Disclosure.a_archivedAt := Disclosure.a_archivedAt s |}.

Definition set_authority_status (status : Disclosure.GuardianAuthorityStatus) (revoked : option Z) (now : Z) (r : authority) : authority :=
  with_authority (authority_state (js_name status) None revoked (au_state r)) (au_level r) (au_verifiedAt r) (au_method r) now r.

Definition au_status (r : authority) : string := Disclosure.authorityStatus (au_state r).
Definition au_revokedAt (r : authority) : option Z := Disclosure.a_revokedAt (au_state r).
Definition au_archivedAt (r : authority) : option Z := Disclosure.a_archivedAt (au_state r).
Definition snapshot (r : authority) : Outbox.AuthoritySnapshot :=
  {| Outbox.authorityStatus := au_status r; Outbox.authorityLevel := Some (au_level r) |}.

(** Enqueue the change, in the same transaction. *)
Definition enqueue_authority_changed (st : stamp) (tenant : string) (before : option authority) (row : authority)
    (occurredAt : option Z) : M () :=
  db ← get;
  match Outbox.enqueueAuthorityChangedIfMaterialTx sha256 (eventId st) (clock st) tenant (au_id row)
          (option_map snapshot before) (snapshot row) (au_updatedAt row) occurredAt (outbox db) with
  | (t, Ret _) => put (set_outbox t db)
  | (_, Throw e) => throw (OtherError e)
  end.

Definition authority_target : string := "guardian_authority_record".

Definition create_authority (row : authority) : M () :=
  db ← get; put (set_authorities (authorities db ++ [row]) db).
Definition update_authority (actor : FamilyActorContext) (id : string) (f : authority -> authority) : M () :=
  db ← get; put (set_authorities (update_row (tenantId actor) id f (authorities db)) db).
Definition load_authority (actor : FamilyActorContext) (id : string) : M authority :=
  db ← get; found (find_row (authorities db) (tenantId actor) id) (FamilyNotFoundError authority_target).

Definition isGuardianAuthorityType (x : string) : bool := includes (map js_name (js_values (A := Disclosure.GuardianAuthorityType))) x.
Definition isVerificationMethod (x : string) : bool := includes (map js_name (js_values (A := Disclosure.VerificationMethod))) x.
Definition isGuardianAuthorityLevel (x : string) : bool := includes (map js_name (js_values (A := GuardianAuthorityLevel))) x.

Definition GUARDIAN_AUTHORITY_CREATE_FIELDS : list string := ["guardianRelationshipId"; "authorityType"; "validFrom"; "validUntil"].
Definition GUARDIAN_AUTHORITY_VERIFY_FIELDS : list string := ["verificationMethod"; "validUntil"].
Definition GUARDIAN_AUTHORITY_GRANT_FIELDS : list string :=
  ["guardianRelationshipId"; "authorityType"; "authorityLevel"; "validUntil"; "attestation"].
Definition GUARDIAN_AUTHORITY_CHANGE_LEVEL_FIELDS : list string := ["authorityLevel"].

(** An input carries its own keys beside the fields the service reads. *)
Record authority_input := {
  ai_keys : list string; ai_rel : string; ai_type : string; ai_level : string;
  ai_validFrom : option Z; ai_validUntil : option Z; ai_attestation : option bool }.

(* src: packages/db/src/child-safety-consent.ts:75-90 createGuardianAuthorityRecord *)
Definition createGuardianAuthorityRecord (st : stamp) (actor : FamilyActorContext) (input : authority_input) : M authority :=
  assertFamily actor GuardianAuthorityManage;;
  assertFields (ai_keys input) GUARDIAN_AUTHORITY_CREATE_FIELDS;;
  throw_if (negb (isGuardianAuthorityType (ai_type input))) (FamilyValidationError "authorityType");;
  withTenant (tenantId actor) (
    db ← get;
    _ ← found (find_row (relationships db) (tenantId actor) (ai_rel input)) (FamilyNotFoundError "guardian_relationship");
    let row := {|
      au_id := newId st; au_tenant := tenantId actor; au_rel := ai_rel input; au_type := ai_type input;
      au_level := js_name LevelReadOnly;
      au_state := {| Disclosure.authorityStatus := js_name Disclosure.AuthorityPending;
        Disclosure.a_validFrom := Some (ai_validFrom input ?? clock st); Disclosure.a_validUntil := ai_validUntil input;
        Disclosure.a_revokedAt := None; Disclosure.a_archivedAt := None |};
      au_verifiedAt := None; au_method := None; au_createdAt := clock st; au_updatedAt := clock st |} in
    create_authority row;;
    write_audit actor "child_safety.guardian_authority.created" authority_target (au_id row);;
    mret row).

Record verify_input := { vi_keys : list string; vi_method : option string; vi_validUntil : option Z }.

(* src: packages/db/src/child-safety-consent.ts:92-106 verifyGuardianAuthorityRecord *)
Definition verifyGuardianAuthorityRecord (st : stamp) (actor : FamilyActorContext) (id : string) (input : verify_input) : M () :=
  assertFamily actor GuardianAuthorityManage;;
  assertFields (vi_keys input) GUARDIAN_AUTHORITY_VERIFY_FIELDS;;
  throw_if (match vi_method input with Some m => negb (isVerificationMethod m) | None => false end) (FamilyValidationError "verificationMethod");;
  withTenant (tenantId actor) (
    existing ← load_authority actor id;
    throw_if (is_some (au_revokedAt existing)) (FamilyValidationError "revoked");;
    let f r := with_authority (authority_state (js_name Disclosure.AuthorityVerified) (vi_validUntil input) None (au_state r))
                 (au_level r) (Some (clock st)) (vi_method input) (clock st) r in
    update_authority actor id f;;
    write_audit actor "child_safety.guardian_authority.verified" authority_target id;;
    enqueue_authority_changed st (tenantId actor) (Some existing) (f existing) None).

(* src: packages/db/src/child-safety-consent.ts:108-117 rejectGuardianAuthorityRecord *)
Definition rejectGuardianAuthorityRecord (st : stamp) (actor : FamilyActorContext) (id : string) : M () :=
  assertFamily actor GuardianAuthorityManage;;
  withTenant (tenantId actor) (
    _ ← load_authority actor id;
    update_authority actor id (set_authority_status Disclosure.AuthorityRejected None (clock st));;
    write_audit actor "child_safety.guardian_authority.rejected" authority_target id).

(* src: packages/db/src/child-safety-consent.ts:119-130 revokeGuardianAuthorityRecord *)
Definition revokeGuardianAuthorityRecord (st : stamp) (actor : FamilyActorContext) (id : string) : M () :=
  assertFamily actor GuardianAuthorityManage;;
  withTenant (tenantId actor) (
    existing ← load_authority actor id;
    if is_some (au_revokedAt existing) then mret tt
    else
      let f := set_authority_status Disclosure.AuthorityRevoked (Some (clock st)) (clock st) in
      update_authority actor id f;;
      write_audit actor "child_safety.guardian_authority.revoked" authority_target id;;
      enqueue_authority_changed st (tenantId actor) (Some existing) (f existing) None).

(** The verified, unrevoked, unarchived records of a relationship, newest first. *)
Definition verified_authorities (db : family_db) (tenant rel : string) : list authority :=
  newest_first au_createdAt (List.filter (fun r =>
    (au_tenant r =s tenant) && (au_rel r =s rel) && (au_status r =s js_name Disclosure.AuthorityVerified) &&
    is_none (au_revokedAt r) && is_none (au_archivedAt r)) (authorities db)).

(* src: packages/db/src/child-safety-consent.ts:138-144 getEffectiveGuardianAuthority *)
Definition getEffectiveGuardianAuthority (actor : FamilyActorContext) (rel : string) (now : Z) : M (option authority) :=
  assertFamily actor GuardianAuthorityView;;
  withTenant (tenantId actor) (
    db ← get;
    mret (List.find (fun r => Disclosure.isGuardianAuthorityActive (au_state r) now) (verified_authorities db (tenantId actor) rel))).

Definition profile_archived (db : family_db) (tenant id : string) : bool :=
  match find_row (profiles db) tenant id with Some p => is_some (pr_archivedAt p) | None => true end.

(* src: packages/db/src/child-safety-consent.ts:155-164 loadAuthorityContext *)
Definition loadAuthorityContext (actor : FamilyActorContext) (rel : string) : M (relationship * string * bool) :=
  db ← get;
  r ← found (find_row (relationships db) (tenantId actor) rel) (FamilyNotFoundError "guardian_relationship");
  gm ← found (find_row (memberships db) (tenantId actor) (r_guardian r)) (FamilyValidationError "inactive_membership");
  mret (r, m_userId gm, profile_archived db (tenantId actor) (r_profile r)).

(* src: packages/db/src/child-safety-consent.ts:166-168 assertNotSelfManaged *)
Definition assertNotSelfManaged (actor : FamilyActorContext) (guardianUserId : string) : M () :=
  throw_if (guardianUserId =s userId actor) (FamilyValidationError "self_management_forbidden").

Definition authority_open (r : authority) : bool :=
  ((au_status r =s js_name Disclosure.AuthorityVerified) || (au_status r =s js_name Disclosure.AuthoritySuspended)) &&
  is_none (au_revokedAt r) && is_none (au_archivedAt r).
(** The verified or suspended, unrevoked, unarchived records of a relationship. *)
Definition open_authorities (db : family_db) (tenant rel : string) : list authority :=
  List.filter (fun r => (au_tenant r =s tenant) && (au_rel r =s rel) && authority_open r) (authorities db).

(* src: packages/db/src/child-safety-consent.ts:175-201 grantGuardianAuthority *)
Definition grantGuardianAuthority (st : stamp) (actor : FamilyActorContext) (input : authority_input) (now : Z) : M authority :=
  assertFamily actor FamilyAuthorityGrant;;
  assertFields (ai_keys input) GUARDIAN_AUTHORITY_GRANT_FIELDS;;
  throw_if (negb (isGuardianAuthorityType (ai_type input))) (FamilyValidationError "authorityType");;
  throw_if (negb (isGuardianAuthorityLevel (ai_level input))) (FamilyValidationError "invalid_authority_level");;
  throw_if (match ai_attestation input with Some true => false | _ => true end) (FamilyValidationError "attestation_required");;
  throw_if (Disclosure.has_ended (ai_validUntil input) now) (FamilyValidationError "invalid_state");;
  withTenant (tenantId actor) (
    ctx ← loadAuthorityContext actor (ai_rel input);
    let '(rel, guardianUserId, profileArchived) := ctx in
    throw_if (negb (isActiveGuardianRelationship rel)) (FamilyValidationError "inactive_relationship");;
    throw_if profileArchived (FamilyValidationError "archived_profile");;
    assertNotSelfManaged actor guardianUserId;;
    db ← get;
    throw_if (negb (length (open_authorities db (tenantId actor) (r_id rel)) =? 0)%nat) (FamilyValidationError "authority_already_active");;
    let row := {|
      au_id := newId st; au_tenant := tenantId actor; au_rel := r_id rel; au_type := ai_type input; au_level := ai_level input;
      au_state := {| Disclosure.authorityStatus := js_name Disclosure.AuthorityVerified;
        Disclosure.a_validFrom := Some (clock st); Disclosure.a_validUntil := ai_validUntil input;
        Disclosure.a_revokedAt := None; Disclosure.a_archivedAt := None |};
      au_verifiedAt := Some now; au_method := Some "manual_review"; au_createdAt := clock st; au_updatedAt := clock st |} in
    create_authority row;;
    write_audit actor "child_safety.guardian_authority.granted" authority_target (au_id row);;
    enqueue_authority_changed st (tenantId actor) None row (Some now);;
    mret row).

Definition is_open_status (s : string) : bool :=
  (s =s js_name Disclosure.AuthorityVerified) || (s =s js_name Disclosure.AuthoritySuspended).

(* src: packages/db/src/child-safety-consent.ts:204-222 changeGuardianAuthorityLevel *)
Definition changeGuardianAuthorityLevel (st : stamp) (actor : FamilyActorContext) (id level : string) : M () :=
  assertFamily actor FamilyAuthorityChange;;
  assertFields ["authorityLevel"] GUARDIAN_AUTHORITY_CHANGE_LEVEL_FIELDS;;
  throw_if (negb (isGuardianAuthorityLevel level)) (FamilyValidationError "invalid_authority_level");;
  withTenant (tenantId actor) (
    rec ← load_authority actor id;
    throw_if (negb (is_open_status (au_status rec))) (FamilyValidationError "invalid_state");;
    ctx ← loadAuthorityContext actor (au_rel rec);
    let '(_, guardianUserId, _) := ctx in
    assertNotSelfManaged actor guardianUserId;;
    if au_level rec =s level then mret tt
    else
      let f r := with_authority (au_state r) level (au_verifiedAt r) (au_method r) (clock st) r in
      update_authority actor id f;;
      write_audit actor "child_safety.guardian_authority.level_changed" authority_target id;;
      enqueue_authority_changed st (tenantId actor) (Some rec) (f rec) None).

(* src: packages/db/src/child-safety-consent.ts:225-239 suspendGuardianAuthority *)
Definition suspendGuardianAuthority (st : stamp) (actor : FamilyActorContext) (id : string) : M () :=
  assertFamily actor FamilyAuthoritySuspend;;
  withTenant (tenantId actor) (
    rec ← load_authority actor id;
    if au_status rec =s js_name Disclosure.AuthoritySuspended then mret tt
    else
      throw_if (negb (au_status rec =s js_name Disclosure.AuthorityVerified)) (FamilyValidationError "invalid_state");;
      ctx ← loadAuthorityContext actor (au_rel rec);
      let '(_, guardianUserId, _) := ctx in
      assertNotSelfManaged actor guardianUserId;;
      let f := set_authority_status Disclosure.AuthoritySuspended None (clock st) in
      update_authority actor id f;;
      write_audit actor "child_safety.guardian_authority.suspended" authority_target id;;
      enqueue_authority_changed st (tenantId actor) (Some rec) (f rec) None).

(* src: packages/db/src/child-safety-consent.ts:242-258 resumeGuardianAuthority *)
Definition resumeGuardianAuthority (st : stamp) (actor : FamilyActorContext) (id : string) (now : Z) : M () :=
  assertFamily actor FamilyAuthorityResume;;
  withTenant (tenantId actor) (
    rec ← load_authority actor id;
    throw_if (negb (au_status rec =s js_name Disclosure.AuthoritySuspended)) (FamilyValidationError "invalid_state");;
    throw_if (Disclosure.has_ended (Disclosure.a_validUntil (au_state rec)) now) (FamilyValidationError "authority_expired");;
    ctx ← loadAuthorityContext actor (au_rel rec);
    let '(rel, guardianUserId, profileArchived) := ctx in
    throw_if (negb (isActiveGuardianRelationship rel)) (FamilyValidationError "inactive_relationship");;
    throw_if profileArchived (FamilyValidationError "archived_profile");;
    assertNotSelfManaged actor guardianUserId;;
    let f := set_authority_status Disclosure.AuthorityVerified None (clock st) in
    update_authority actor id f;;
    write_audit actor "child_safety.guardian_authority.resumed" authority_target id;;
    enqueue_authority_changed st (tenantId actor) (Some rec) (f rec) (Some now)).

(* src: packages/db/src/child-safety-consent.ts:261-277 revokeGuardianAuthority *)
Definition revokeGuardianAuthority (st : stamp) (actor : FamilyActorContext) (id : string) : M () :=
  assertFamily actor FamilyAuthorityRevoke;;
  withTenant (tenantId actor) (
    rec ← load_authority actor id;
    if (au_status rec =s js_name Disclosure.AuthorityRevoked) || is_some (au_revokedAt rec) then mret tt
    else
      throw_if (negb (is_open_status (au_status rec))) (FamilyValidationError "invalid_state");;
      ctx ← loadAuthorityContext actor (au_rel rec);
      let '(_, guardianUserId, _) := ctx in
      assertNotSelfManaged actor guardianUserId;;
      let f := set_authority_status Disclosure.AuthorityRevoked (Some (clock st)) (clock st) in
      update_authority actor id f;;
      write_audit actor "child_safety.guardian_authority.revoked" authority_target id;;
      enqueue_authority_changed st (tenantId actor) (Some rec) (f rec) None).

(* src: packages/db/src/child-safety-consent.ts:284-284 EffectiveAuthorityReason *)
Inductive EffectiveReason :=
| effective | inactive_relationship | archived_profile | inactive_membership | not_active.

(** The links shared by the three evaluations of one relationship. *)
Definition relationship_links (db : family_db) (tenant rel : string) : EffectiveReason + relationship :=
  match find_row (relationships db) tenant rel with
  | None => inl inactive_relationship
  | Some r =>
      if negb (isActiveGuardianRelationship r) then inl inactive_relationship
      else if profile_archived db tenant (r_profile r) then inl archived_profile
      else if is_none (find_row (memberships db) tenant (r_guardian r)) then inl inactive_membership
      else inr r
  end.

(* src: packages/db/src/child-safety-consent.ts:285-302 evaluateEffectiveGuardianAuthority *)
Definition evaluateEffectiveGuardianAuthority (actor : FamilyActorContext) (rel : string) (now : Z) : M (bool * option string * EffectiveReason) :=
  assertFamily actor GuardianAuthorityView;;
  withTenant (tenantId actor) (
    db ← get;
    match relationship_links db (tenantId actor) rel with
    | inl reason => mret (false, None, reason)
    | inr _ =>
        match List.find (fun r => Disclosure.isGuardianAuthorityActive (au_state r) now) (verified_authorities db (tenantId actor) rel) with
        | None => mret (false, None, not_active)
        | Some active => mret (true, Some (au_level active), effective)
        end
    end).

(** * Consent *)

Definition co_status (r : consent) : string := Disclosure.consentStatus (co_state r).
Definition co_revokedAt (r : consent) : option Z := Disclosure.c_revokedAt (co_state r).
Definition co_archivedAt (r : consent) : option Z := Disclosure.c_archivedAt (co_state r).

Definition with_consent (s : Disclosure.ConsentRecordState) (r : consent) : consent :=
  {| co_id := co_id r; co_tenant := co_tenant r; co_profile := co_profile r; co_rel := co_rel r; co_type := co_type r;
     co_state := s; co_createdAt := co_createdAt r |}.
(** Replace the status and, where given, the revocation mark. *)
Definition set_consent_status (status : Disclosure.ConsentStatus) (revoked : option Z) (r : consent) : consent :=
  let s := co_state r in
  with_consent {| Disclosure.consentStatus := js_name status; Disclosure.grantedAt := Disclosure.grantedAt s;
    Disclosure.grantedByMembershipId := Disclosure.grantedByMembershipId s; Disclosure.c_validFrom := Disclosure.c_validFrom s;
    Disclosure.c_validUntil := Disclosure.c_validUntil s; Disclosure.c_revokedAt := or_else revoked (Disclosure.c_revokedAt s);
    Disclosure.c_archivedAt := Disclosure.c_archivedAt s |} r.
(** Grant to the membership, with the validity given. *)
Definition set_consent_granted (at_ : Z) (by_ : string) (from until : option Z) (r : consent) : consent :=
  let s := co_state r in
  with_consent {| Disclosure.consentStatus := js_name Disclosure.ConsentActive; Disclosure.grantedAt := Some at_;
    Disclosure.grantedByMembershipId := Some by_; Disclosure.c_validFrom := or_else from (Disclosure.c_validFrom s);
    Disclosure.c_validUntil := or_else until (Disclosure.c_validUntil s); Disclosure.c_revokedAt := Disclosure.c_revokedAt s;
    Disclosure.c_archivedAt := Disclosure.c_archivedAt s |} r.
Definition set_consent_expiry (until : option Z) (r : consent) : consent :=
  let s := co_state r in
  with_consent {| Disclosure.consentStatus := Disclosure.consentStatus s; Disclosure.grantedAt := Disclosure.grantedAt s;
    Disclosure.grantedByMembershipId := Disclosure.grantedByMembershipId s; Disclosure.c_validFrom := Disclosure.c_validFrom s;
    Disclosure.c_validUntil := until; Disclosure.c_revokedAt := Disclosure.c_revokedAt s;
    Disclosure.c_archivedAt := Disclosure.c_archivedAt s |} r.

Definition create_consent (row : consent) : M () := db ← get; put (set_consents (consents db ++ [row]) db).
Definition update_consent (actor : FamilyActorContext) (id : string) (f : consent -> consent) : M () :=
  db ← get; put (set_consents (update_row (tenantId actor) id f (consents db)) db).
(* src: packages/db/src/child-safety-consent.ts:436-440 loadManageableConsent *)
Definition loadManageableConsent (actor : FamilyActorContext) (id : string) : M consent :=
  db ← get; found (find_row (consents db) (tenantId actor) id) (FamilyNotFoundError "consent_record").

Definition isConsentType (x : string) : bool := includes (map js_name (js_values (A := ConsentType))) x.
Definition CONSENT_CREATE_FIELDS : list string := ["protectedProfileId"; "guardianRelationshipId"; "consentType"; "validFrom"; "validUntil"].
Definition CONSENT_GRANT_FIELDS : list string := ["validFrom"; "validUntil"].
Definition GUARDIAN_CONSENT_GRANT_FIELDS : list string := ["protectedProfileId"; "guardianRelationshipId"; "consentType"; "validUntil"].

Record consent_input := {
  ci_keys : list string; ci_profile : string; ci_rel : option string; ci_type : string;
  ci_validFrom : option Z; ci_validUntil : option Z }.

Definition new_consent (st : stamp) (tenant : string) (input : consent_input) (rel : option string) (s : Disclosure.ConsentRecordState) : consent :=
  {| co_id := newId st; co_tenant := tenant; co_profile := ci_profile input; co_rel := rel; co_type := ci_type input;
     co_state := s; co_createdAt := clock st |}.

(* src: packages/db/src/child-safety-consent.ts:323-343 createConsentRecord *)
Definition createConsentRecord (st : stamp) (actor : FamilyActorContext) (input : consent_input) : M consent :=
  assertFamily actor ConsentManage;;
  assertFields (ci_keys input) CONSENT_CREATE_FIELDS;;
  throw_if (negb (isConsentType (ci_type input))) (FamilyValidationError "consentType");;
  withTenant (tenantId actor) (
    db ← get;
    throw_if (profile_archived db (tenantId actor) (ci_profile input)) (FamilyNotFoundError "protected_profile");;
    (match ci_rel input with
     | Some rel =>
         throw_if (nonempty rel && is_none (find_row (relationships db) (tenantId actor) rel)) (FamilyNotFoundError "guardian_relationship")
     | None => mret tt
     end);;
    let row := new_consent st (tenantId actor) input (ci_rel input) {|
      Disclosure.consentStatus := js_name Disclosure.ConsentNotRequested; Disclosure.grantedAt := None;
      Disclosure.grantedByMembershipId := None; Disclosure.c_validFrom := ci_validFrom input;
      Disclosure.c_validUntil := ci_validUntil input; Disclosure.c_revokedAt := None; Disclosure.c_archivedAt := None |} in
    create_consent row;;
    write_audit actor "child_safety.consent.created" "consent_record" (co_id row);;
    mret row).

(* src: packages/db/src/child-safety-consent.ts:345-358 grantConsent *)
Definition grantConsent (st : stamp) (actor : FamilyActorContext) (id : string) (keys : list string) (validFrom validUntil : option Z) : M () :=
  assertFamily actor ConsentManage;;
  assertFields keys CONSENT_GRANT_FIELDS;;
  withTenant (tenantId actor) (
    existing ← loadManageableConsent actor id;
    throw_if (is_some (co_revokedAt existing) || is_some (co_archivedAt existing)) (FamilyValidationError "inactive");;
    membershipId ← actorMembershipId actor;
    update_consent actor id (set_consent_granted (clock st) membershipId validFrom validUntil);;
    write_audit actor "child_safety.consent.granted" "consent_record" id).

(* src: packages/db/src/child-safety-consent.ts:360-370 revokeConsent *)
Definition revokeConsent (st : stamp) (actor : FamilyActorContext) (id : string) : M () :=
  assertFamily actor ConsentManage;;
  withTenant (tenantId actor) (
    existing ← loadManageableConsent actor id;
    if is_some (co_revokedAt existing) then mret tt
    else
      update_consent actor id (set_consent_status Disclosure.ConsentWithdrawn (Some (clock st)));;
      write_audit actor "child_safety.consent.revoked" "consent_record" id).

(** The active, unrevoked, unarchived consents that satisfy [q], newest first. *)
Definition active_consents (db : family_db) (tenant profile type : string) (q : consent -> bool) : list consent :=
  newest_first co_createdAt (List.filter (fun r =>
    (co_tenant r =s tenant) && (co_profile r =s profile) && (co_type r =s type) && q r &&
    (co_status r =s js_name Disclosure.ConsentActive) && is_none (co_revokedAt r) && is_none (co_archivedAt r)) (consents db)).

Definition any_consent (r : consent) : bool := true.
Definition consent_of (rel : string) (r : consent) : bool := status_is (co_rel r) rel.

(* src: packages/db/src/child-safety-consent.ts:378-384 getEffectiveConsent *)
Definition getEffectiveConsent (actor : FamilyActorContext) (profile type : string) (now : Z) : M (option consent) :=
  assertFamily actor ConsentView;;
  withTenant (tenantId actor) (
    db ← get;
    mret (List.find (fun r => Disclosure.isConsentEffective (co_state r) now) (active_consents db (tenantId actor) profile type any_consent))).

(* src: packages/db/src/child-safety-consent.ts:396-404 loadConsentContext *)
Definition loadConsentContext (actor : FamilyActorContext) (rel : string) : M (relationship * bool * bool) :=
  db ← get;
  r ← found (find_row (relationships db) (tenantId actor) rel) (FamilyNotFoundError "guardian_relationship");
  mret (r, profile_archived db (tenantId actor) (r_profile r), is_some (find_row (memberships db) (tenantId actor) (r_guardian r))).

(** The three re-checks of a relationship before a consent or an assessment is
    granted or resumed. *)
Definition assertLinks (rel : relationship) (profileArchived membershipActive : bool) : M () :=
  throw_if (negb (isActiveGuardianRelationship rel)) (FamilyValidationError "inactive_relationship");;
  throw_if profileArchived (FamilyValidationError "archived_profile");;
  throw_if (negb membershipActive) (FamilyValidationError "inactive_membership").

Definition consent_open (r : consent) : bool :=
  ((co_status r =s js_name Disclosure.ConsentActive) || (co_status r =s js_name Disclosure.ConsentSuspended)) &&
  is_none (co_revokedAt r) && is_none (co_archivedAt r).
Definition open_consents (db : family_db) (tenant profile rel type : string) : list consent :=
  List.filter (fun r => (co_tenant r =s tenant) && (co_profile r =s profile) && consent_of rel r && (co_type r =s type) && consent_open r) (consents db).

(* src: packages/db/src/child-safety-consent.ts:411-433 grantGuardianConsent *)
Definition grantGuardianConsent (st : stamp) (actor : FamilyActorContext) (input : consent_input) (rel : string) (now : Z) : M consent :=
  assertFamily actor ConsentManage;;
  assertFields (ci_keys input) GUARDIAN_CONSENT_GRANT_FIELDS;;
  throw_if (negb (isConsentType (ci_type input))) (FamilyValidationError "consentType");;
  throw_if (Disclosure.has_ended (ci_validUntil input) now) (FamilyValidationError "invalid_state");;
  withTenant (tenantId actor) (
    ctx ← loadConsentContext actor rel;
    let '(r, profileArchived, membershipActive) := ctx in
    throw_if (negb (r_profile r =s ci_profile input)) (FamilyNotFoundError "guardian_relationship");;
    assertLinks r profileArchived membershipActive;;
    db ← get;
    throw_if (negb (length (open_consents db (tenantId actor) (ci_profile input) rel (ci_type input)) =? 0)%nat) (FamilyValidationError "consent_already_active");;
    membershipId ← actorMembershipId actor;
    let row := new_consent st (tenantId actor) input (Some rel) {|
      Disclosure.consentStatus := js_name Disclosure.ConsentActive; Disclosure.grantedAt := Some now;
      Disclosure.grantedByMembershipId := Some membershipId; Disclosure.c_validFrom := None;
      Disclosure.c_validUntil := ci_validUntil input; Disclosure.c_revokedAt := None; Disclosure.c_archivedAt := None |} in
    create_consent row;;
    write_audit actor "child_safety.consent.granted" "consent_record" (co_id row);;
    mret row).

Definition consent_open_status (s : string) : bool :=
  (s =s js_name Disclosure.ConsentActive) || (s =s js_name Disclosure.ConsentSuspended).

(* src: packages/db/src/child-safety-consent.ts:443-453 suspendGuardianConsent *)
Definition suspendGuardianConsent (actor : FamilyActorContext) (id : string) : M () :=
  assertFamily actor ConsentManage;;
  withTenant (tenantId actor) (
    rec ← loadManageableConsent actor id;
    if co_status rec =s js_name Disclosure.ConsentSuspended then mret tt
    else
      throw_if (negb (co_status rec =s js_name Disclosure.ConsentActive)) (FamilyValidationError "invalid_state");;
      update_consent actor id (set_consent_status Disclosure.ConsentSuspended None);;
      write_audit actor "child_safety.consent.suspended" "consent_record" id).

(* src: packages/db/src/child-safety-consent.ts:456-471 resumeGuardianConsent *)
Definition resumeGuardianConsent (actor : FamilyActorContext) (id : string) (now : Z) : M () :=
  assertFamily actor ConsentManage;;
  withTenant (tenantId actor) (
    rec ← loadManageableConsent actor id;
    throw_if (negb (co_status rec =s js_name Disclosure.ConsentSuspended)) (FamilyValidationError "invalid_state");;
    throw_if (Disclosure.has_ended (Disclosure.c_validUntil (co_state rec)) now) (FamilyValidationError "consent_expired");;
    throw_if (negb (truthy (co_rel rec))) (FamilyValidationError "invalid_state");;
    ctx ← loadConsentContext actor (co_rel rec ?? "");
    let '(r, profileArchived, membershipActive) := ctx in
    assertLinks r profileArchived membershipActive;;
    update_consent actor id (set_consent_status Disclosure.ConsentActive None);;
    write_audit actor "child_safety.consent.resumed" "consent_record" id).

(* src: packages/db/src/child-safety-consent.ts:474-484 revokeGuardianConsent *)
Definition revokeGuardianConsent (st : stamp) (actor : FamilyActorContext) (id : string) : M () :=
  assertFamily actor ConsentManage;;
  withTenant (tenantId actor) (
    rec ← loadManageableConsent actor id;
    if (co_status rec =s js_name Disclosure.ConsentWithdrawn) || is_some (co_revokedAt rec) then mret tt
    else
      throw_if (negb (consent_open_status (co_status rec))) (FamilyValidationError "invalid_state");;
      update_consent actor id (set_consent_status Disclosure.ConsentWithdrawn (Some (clock st)));;
      write_audit actor "child_safety.consent.revoked" "consent_record" id).

(* src: packages/db/src/child-safety-consent.ts:487-497 changeGuardianConsentExpiry *)
Definition changeGuardianConsentExpiry (actor : FamilyActorContext) (id : string) (validUntil : option Z) (now : Z) : M () :=
  assertFamily actor ConsentManage;;
  throw_if (Disclosure.has_ended validUntil now) (FamilyValidationError "invalid_state");;
  withTenant (tenantId actor) (
    rec ← loadManageableConsent actor id;
    throw_if (negb (consent_open_status (co_status rec))) (FamilyValidationError "invalid_state");;
    update_consent actor id (set_consent_expiry validUntil);;
    write_audit actor "child_safety.consent.granted" "consent_record" id).

(* src: packages/db/src/child-safety-consent.ts:504-522 evaluateEffectiveGuardianConsent *)
Definition evaluateEffectiveGuardianConsent (actor : FamilyActorContext) (rel type : string) (now : Z) : M (bool * EffectiveReason) :=
  assertFamily actor ConsentView;;
  withTenant (tenantId actor) (
    db ← get;
    match relationship_links db (tenantId actor) rel with
    | inl reason => mret (false, reason)
    | inr r =>
        match List.find (fun c => Disclosure.isConsentEffective (co_state c) now)
                (active_consents db (tenantId actor) (r_profile r) type (consent_of rel)) with
        | None => mret (false, not_active)
        | Some _ => mret (true, effective)
        end
    end).

(** * Safe-recipient assessment *)

Definition as_status (r : assessment) : string := Disclosure.assessmentStatus (as_state r).
Definition as_revokedAt (r : assessment) : option Z := Disclosure.s_revokedAt (as_state r).
Definition as_archivedAt (r : assessment) : option Z := Disclosure.s_archivedAt (as_state r).

Definition with_assessment (s : Disclosure.AssessmentRecordState) (reason : option string) (r : assessment) : assessment :=
  {| as_id := as_id r; as_tenant := as_tenant r; as_rel := as_rel r; as_purpose := as_purpose r; as_state := s;
     as_reason := reason; as_createdAt := as_createdAt r |}.
(** Replace status and eligibility and, where given, the revocation mark. *)
Definition assessment_state (status : Disclosure.SafeRecipientAssessmentStatus) (elig : Disclosure.SafetyRecipientEligibility)
    (revoked : option Z) (s : Disclosure.AssessmentRecordState) : Disclosure.AssessmentRecordState :=
  {| Disclosure.assessmentStatus := js_name status; Disclosure.eligibilityStatus := js_name elig;
     Disclosure.assessedAt := Disclosure.assessedAt s; Disclosure.assessedByMembershipId := Disclosure.assessedByMembershipId s;
     Disclosure.s_validUntil := Disclosure.s_validUntil s; Disclosure.s_revokedAt := or_else revoked (Disclosure.s_revokedAt s);
     Disclosure.s_archivedAt := Disclosure.s_archivedAt s |}.
Definition set_assessment_status (status : Disclosure.SafeRecipientAssessmentStatus) (elig : Disclosure.SafetyRecipientEligibility)
    (revoked : option Z) (r : assessment) : assessment :=
  with_assessment (assessment_state status elig revoked (as_state r)) (as_reason r) r.
Definition set_assessment_rejected (reason : option string) (r : assessment) : assessment :=
  with_assessment (assessment_state Disclosure.AssessmentRejected Disclosure.EligNotVerified None (as_state r)) reason r.
Definition set_assessment_approved (at_ : Z) (by_ : string) (until : option Z) (reason : option string) (r : assessment) : assessment :=
  let s := as_state r in
  with_assessment {| Disclosure.assessmentStatus := js_name Disclosure.AssessmentApproved;
    Disclosure.eligibilityStatus := js_name Disclosure.EligEligible; Disclosure.assessedAt := Some at_;
    Disclosure.assessedByMembershipId := Some by_; Disclosure.s_validUntil := or_else until (Disclosure.s_validUntil s);
    Disclosure.s_revokedAt := Disclosure.s_revokedAt s; Disclosure.s_archivedAt := Disclosure.s_archivedAt s |} reason r.
Definition set_assessment_expiry (until : option Z) (r : assessment) : assessment :=
  let s := as_state r in
  with_assessment {| Disclosure.assessmentStatus := Disclosure.assessmentStatus s;
    Disclosure.eligibilityStatus := Disclosure.eligibilityStatus s; Disclosure.assessedAt := Disclosure.assessedAt s;
    Disclosure.assessedByMembershipId := Disclosure.assessedByMembershipId s; Disclosure.s_validUntil := until;
    Disclosure.s_revokedAt := Disclosure.s_revokedAt s; Disclosure.s_archivedAt := Disclosure.s_archivedAt s |} (as_reason r) r.

Definition create_assessment (row : assessment) : M () := db ← get; put (set_assessments (assessments db ++ [row]) db).
Definition update_assessment (actor : FamilyActorContext) (id : string) (f : assessment -> assessment) : M () :=
  db ← get; put (set_assessments (update_row (tenantId actor) id f (assessments db)) db).
Definition assessment_target : string := "safe_recipient_assessment".
(* src: packages/db/src/child-safety-consent.ts:645-649 loadAssessment *)
Definition loadAssessment (actor : FamilyActorContext) (id : string) : M assessment :=
  db ← get; found (find_row (assessments db) (tenantId actor) id) (FamilyNotFoundError assessment_target).

Definition new_assessment (st : stamp) (tenant rel purpose : string) (status : Disclosure.SafeRecipientAssessmentStatus) : assessment :=
  {| as_id := newId st; as_tenant := tenant; as_rel := rel; as_purpose := purpose;
     as_state := {| Disclosure.assessmentStatus := js_name status; Disclosure.eligibilityStatus := js_name Disclosure.EligNotVerified;
       Disclosure.assessedAt := None; Disclosure.assessedByMembershipId := None; Disclosure.s_validUntil := None;
       Disclosure.s_revokedAt := None; Disclosure.s_archivedAt := None |};
     as_reason := None; as_createdAt := clock st |}.

Definition SAFE_RECIPIENT_ASSESSMENT_CREATE_FIELDS : list string := ["guardianRelationshipId"].
Definition SAFE_RECIPIENT_ASSESSMENT_DECIDE_FIELDS : list string := ["reasonCode"; "validUntil"].
Definition SAFE_RECIPIENT_REQUEST_FIELDS : list string := ["guardianRelationshipId"; "purpose"].
Definition isAssessmentPurpose (x : string) : bool := includes (map js_name (js_values (A := AssessmentPurpose))) x.
Definition bad_reason_code (reason : option string) : bool :=
  match reason with Some x => negb (includes (map js_name (js_values (A := SafeRecipientReasonCode))) x) | None => false end.

(* src: packages/db/src/child-safety-consent.ts:548-560 createSafeRecipientAssessment *)
Definition createSafeRecipientAssessment (st : stamp) (actor : FamilyActorContext) (keys : list string) (rel : string) : M assessment :=
  assertFamily actor SafeRecipientAssess;;
  assertFields keys SAFE_RECIPIENT_ASSESSMENT_CREATE_FIELDS;;
  withTenant (tenantId actor) (
    db ← get;
    _ ← found (find_row (relationships db) (tenantId actor) rel) (FamilyNotFoundError "guardian_relationship");
    let row := new_assessment st (tenantId actor) rel (js_name PurposeSafetyInformation) Disclosure.AssessmentNotStarted in
    create_assessment row;;
    write_audit actor "child_safety.safe_recipient_assessment.created" assessment_target (as_id row);;
    mret row).

Record decide_input := { di_keys : list string; di_reason : option string; di_validUntil : option Z }.

(* src: packages/db/src/child-safety-consent.ts:562-576 approveSafeRecipientAssessment *)
Definition approveSafeRecipientAssessment (st : stamp) (actor : FamilyActorContext) (id : string) (input : decide_input) : M () :=
  assertFamily actor SafeRecipientAssess;;
  assertFields (di_keys input) SAFE_RECIPIENT_ASSESSMENT_DECIDE_FIELDS;;
  throw_if (bad_reason_code (di_reason input)) (FamilyValidationError "reasonCode");;
  withTenant (tenantId actor) (
    existing ← loadAssessment actor id;
    throw_if (is_some (as_revokedAt existing) || is_some (as_archivedAt existing)) (FamilyValidationError "inactive");;
    membershipId ← actorMembershipId actor;
    update_assessment actor id (set_assessment_approved (clock st) membershipId (di_validUntil input) (di_reason input));;
    write_audit actor "child_safety.safe_recipient_assessment.approved" assessment_target id).

(* src: packages/db/src/child-safety-consent.ts:578-590 rejectSafeRecipientAssessment *)
Definition rejectSafeRecipientAssessment (actor : FamilyActorContext) (id : string) (input : decide_input) : M () :=
  assertFamily actor SafeRecipientAssess;;
  assertFields (di_keys input) SAFE_RECIPIENT_ASSESSMENT_DECIDE_FIELDS;;
  throw_if (bad_reason_code (di_reason input)) (FamilyValidationError "reasonCode");;
  withTenant (tenantId actor) (
    _ ← loadAssessment actor id;
    update_assessment actor id (set_assessment_rejected (di_reason input));;
    write_audit actor "child_safety.safe_recipient_assessment.rejected" assessment_target id).

(* src: packages/db/src/child-safety-consent.ts:592-602 revokeSafeRecipientAssessment *)
Definition revokeSafeRecipientAssessment (st : stamp) (actor : FamilyActorContext) (id : string) : M () :=
  assertFamily actor SafeRecipientAssess;;
  withTenant (tenantId actor) (
    existing ← loadAssessment actor id;
    if is_some (as_revokedAt existing) then mret tt
    else
      update_assessment actor id (set_assessment_status Disclosure.AssessmentRevoked Disclosure.EligNotVerified (Some (clock st)));;
      write_audit actor "child_safety.safe_recipient_assessment.revoked" assessment_target id).

(** The approved, unrevoked, unarchived assessments of a relationship, newest first. *)
Definition approved_assessments (db : family_db) (tenant rel : string) : list assessment :=
  newest_first as_createdAt (List.filter (fun r =>
    (as_tenant r =s tenant) && (as_rel r =s rel) && (as_status r =s js_name Disclosure.AssessmentApproved) &&
    is_none (as_revokedAt r) && is_none (as_archivedAt r)) (assessments db)).

(* src: packages/db/src/child-safety-consent.ts:610-616 getEffectiveSafeRecipientEligibility *)
Definition getEffectiveSafeRecipientEligibility (actor : FamilyActorContext) (rel : string) (now : Z) : M (option assessment) :=
  assertFamily actor SafeRecipientView;;
  withTenant (tenantId actor) (
    db ← get;
    mret (List.find (fun r => Disclosure.isSafeRecipientAssessmentApproved (as_state r) now) (approved_assessments db (tenantId actor) rel))).

Definition assessment_active_status (s : string) : bool :=
  includes (map js_name [Disclosure.AssessmentPending; Disclosure.AssessmentApproved; Disclosure.AssessmentSuspended]) s.
Definition open_assessments (db : family_db) (tenant rel purpose : string) : list assessment :=
  List.filter (fun r => (as_tenant r =s tenant) && (as_rel r =s rel) && (as_purpose r =s purpose) &&
    assessment_active_status (as_status r) && is_none (as_revokedAt r) && is_none (as_archivedAt r)) (assessments db).

(* src: packages/db/src/child-safety-consent.ts:627-642 requestSafeRecipientAssessment *)
Definition requestSafeRecipientAssessment (st : stamp) (actor : FamilyActorContext) (keys : list string) (rel purpose : string) : M assessment :=
  assertFamily actor SafeRecipientAssess;;
  assertFields keys SAFE_RECIPIENT_REQUEST_FIELDS;;
  throw_if (negb (isAssessmentPurpose purpose)) (FamilyValidationError "purpose");;
  withTenant (tenantId actor) (
    ctx ← loadConsentContext actor rel;
    let '(r, profileArchived, _) := ctx in
    throw_if (negb (isActiveGuardianRelationship r)) (FamilyValidationError "inactive_relationship");;
    throw_if profileArchived (FamilyValidationError "archived_profile");;
    db ← get;
    throw_if (negb (length (open_assessments db (tenantId actor) rel purpose) =? 0)%nat) (FamilyValidationError "assessment_already_active");;
    let row := new_assessment st (tenantId actor) rel purpose Disclosure.AssessmentPending in
    create_assessment row;;
    write_audit actor "child_safety.safe_recipient_assessment.requested" assessment_target (as_id row);;
    mret row).

Definition undecided_status (s : string) : bool :=
  (s =s js_name Disclosure.AssessmentPending) || (s =s js_name Disclosure.AssessmentNotStarted).

(* src: packages/db/src/child-safety-consent.ts:652-670 approveSafeRecipient *)
Definition approveSafeRecipient (st : stamp) (actor : FamilyActorContext) (id : string) (input : decide_input) (now : Z) : M () :=
  assertFamily actor SafeRecipientAssess;;
  assertFields (di_keys input) SAFE_RECIPIENT_ASSESSMENT_DECIDE_FIELDS;;
  throw_if (bad_reason_code (di_reason input)) (FamilyValidationError "reasonCode");;
  throw_if (Disclosure.has_ended (di_validUntil input) now) (FamilyValidationError "invalid_state");;
  withTenant (tenantId actor) (
    rec ← loadAssessment actor id;
    throw_if (negb (undecided_status (as_status rec))) (FamilyValidationError "invalid_state");;
    ctx ← loadConsentContext actor (as_rel rec);
    let '(r, profileArchived, membershipActive) := ctx in
    assertLinks r profileArchived membershipActive;;
    membershipId ← actorMembershipId actor;
    update_assessment actor id (set_assessment_approved now membershipId (di_validUntil input) (di_reason input));;
    write_audit actor "child_safety.safe_recipient_assessment.approved" assessment_target id).

(* src: packages/db/src/child-safety-consent.ts:673-683 rejectSafeRecipient *)
Definition rejectSafeRecipient (actor : FamilyActorContext) (id : string) (reason : option string) : M () :=
  assertFamily actor SafeRecipientAssess;;
  throw_if (bad_reason_code reason) (FamilyValidationError "reasonCode");;
  withTenant (tenantId actor) (
    rec ← loadAssessment actor id;
    throw_if (negb (undecided_status (as_status rec))) (FamilyValidationError "invalid_state");;
    update_assessment actor id (set_assessment_rejected reason);;
    write_audit actor "child_safety.safe_recipient_assessment.rejected" assessment_target id).

(* src: packages/db/src/child-safety-consent.ts:686-696 suspendSafeRecipient *)
Definition suspendSafeRecipient (actor : FamilyActorContext) (id : string) : M () :=
  assertFamily actor SafeRecipientAssess;;
  withTenant (tenantId actor) (
    rec ← loadAssessment actor id;
    if as_status rec =s js_name Disclosure.AssessmentSuspended then mret tt
    else
      throw_if (negb (as_status rec =s js_name Disclosure.AssessmentApproved)) (FamilyValidationError "invalid_state");;
      update_assessment actor id (set_assessment_status Disclosure.AssessmentSuspended Disclosure.EligNotVerified None);;
      write_audit actor "child_safety.safe_recipient_assessment.suspended" assessment_target id).

(* src: packages/db/src/child-safety-consent.ts:699-713 resumeSafeRecipient *)
Definition resumeSafeRecipient (actor : FamilyActorContext) (id : string) (now : Z) : M () :=
  assertFamily actor SafeRecipientAssess;;
  withTenant (tenantId actor) (
    rec ← loadAssessment actor id;
    throw_if (negb (as_status rec =s js_name Disclosure.AssessmentSuspended)) (FamilyValidationError "invalid_state");;
    throw_if (Disclosure.has_ended (Disclosure.s_validUntil (as_state rec)) now) (FamilyValidationError "assessment_expired");;
    ctx ← loadConsentContext actor (as_rel rec);
    let '(r, profileArchived, membershipActive) := ctx in
    assertLinks r profileArchived membershipActive;;
    update_assessment actor id (set_assessment_status Disclosure.AssessmentApproved Disclosure.EligEligible None);;
    write_audit actor "child_safety.safe_recipient_assessment.resumed" assessment_target id).

Definition decided_open_status (s : string) : bool :=
  (s =s js_name Disclosure.AssessmentApproved) || (s =s js_name Disclosure.AssessmentSuspended).

(* src: packages/db/src/child-safety-consent.ts:716-726 changeSafeRecipientExpiry *)
Definition changeSafeRecipientExpiry (actor : FamilyActorContext) (id : string) (validUntil : option Z) (now : Z) : M () :=
  assertFamily actor SafeRecipientAssess;;
  throw_if (Disclosure.has_ended validUntil now) (FamilyValidationError "invalid_state");;
  withTenant (tenantId actor) (
    rec ← loadAssessment actor id;
    throw_if (negb (decided_open_status (as_status rec))) (FamilyValidationError "invalid_state");;
    update_assessment actor id (set_assessment_expiry validUntil);;
    write_audit actor "child_safety.safe_recipient_assessment.expiry_changed" assessment_target id).

(* src: packages/db/src/child-safety-consent.ts:729-739 expireSafeRecipient *)
Definition expireSafeRecipient (actor : FamilyActorContext) (id : string) : M () :=
  assertFamily actor SafeRecipientAssess;;
  withTenant (tenantId actor) (
    rec ← loadAssessment actor id;
    if as_status rec =s js_name Disclosure.AssessmentExpired then mret tt
    else
      throw_if (negb (decided_open_status (as_status rec))) (FamilyValidationError "invalid_state");;
      update_assessment actor id (set_assessment_status Disclosure.AssessmentExpired Disclosure.EligNotVerified None);;
      write_audit actor "child_safety.safe_recipient_assessment.expired" assessment_target id).

(** * The safe-recipient evaluators *)

(** The resolver's state: one of its own, or the raw status of the live assessment. *)
(* src: packages/db/src/child-safety-consent.ts:747-748 SafeRecipientDecision *)
Record SafeRecipientDecision := { safe : bool; sr_state : string; sr_reason : string }.
Definition unsafe (state reason : string) : SafeRecipientDecision := {| safe := false; sr_state := state; sr_reason := reason |}.

Definition link_reason (r : EffectiveReason) : string :=
  match r with
  | inactive_relationship => "inactive_relationship" | archived_profile => "archived_profile"
  | inactive_membership => "inactive_membership" | _ => ""
  end.

(* src: packages/db/src/child-safety-consent.ts:749-774 evaluateSafeRecipientAssessment *)
Definition evaluateSafeRecipientAssessment (actor : FamilyActorContext) (rel purpose : string) (now : Z) : M SafeRecipientDecision :=
  assertFamily actor SafeRecipientView;;
  withTenant (tenantId actor) (
    db ← get;
    match relationship_links db (tenantId actor) rel with
    | inl reason => mret (unsafe "blocked" (link_reason reason))
    | inr r =>
        if negb (existsb (fun c => Disclosure.isConsentEffective (co_state c) now)
                   (active_consents db (tenantId actor) (r_profile r) (js_name CTGuardian) (consent_of rel)))
        then mret (unsafe "blocked" "no_effective_consent")
        else
          let rows := newest_first as_createdAt (List.filter (fun a =>
            (as_tenant a =s tenantId actor) && (as_rel a =s rel) && (as_purpose a =s purpose)) (assessments db)) in
          match rows with
          | [] => mret (unsafe "not_found" "assessment_not_found")
          | _ =>
              if existsb (fun a => (as_status a =s js_name Disclosure.AssessmentApproved) &&
                   Disclosure.isSafeRecipientAssessmentApproved (as_state a) now) rows
              then mret {| safe := true; sr_state := "approved"; sr_reason := "safe" |}
              else
                let live := List.find (fun a => is_none (as_revokedAt a) && is_none (as_archivedAt a)) rows in
                let status := option_map as_status live in
                if status_is status (js_name Disclosure.AssessmentSuspended) then mret (unsafe "suspended" "assessment_suspended")
                else if status_is status (js_name Disclosure.AssessmentApproved) then mret (unsafe "expired" "assessment_expired")
                else if status_is status (js_name Disclosure.AssessmentExpired) then mret (unsafe "expired" "assessment_expired")
                else mret (unsafe (status ?? "not_found") "assessment_not_approved")
          end
    end).

(* src: packages/db/src/child-safety-consent.ts:796-804 canGuardianManageProtectedProfile *)
Definition canGuardianManageProtectedProfile (actor : FamilyActorContext) (profile : string) : M bool :=
  match authorizeFamilyAction actor ProtectedProfileManage with
  | Refused _ => mret false
  | Authorized =>
      withTenant (tenantId actor) (
        db ← get;
        match membership_of db (tenantId actor) (userId actor) with
        | None => mret false
        | Some m =>
            match List.find (fun r => (r_tenant r =s tenantId actor) && (r_profile r =s profile) && (r_guardian r =s m_id m)) (relationships db) with
            | None => mret false
            | Some r => mret (relationshipIsVerifiedActive r)
            end
        end)
  end.

(* src: packages/db/src/child-safety-consent.ts:815-837 canReceiveSafetyInformation *)
Definition canReceiveSafetyInformation (actor : FamilyActorContext) (rel consentType : string) (now : Z) :
    M (bool * list Disclosure.SafetyRecipientDenyReason) :=
  if negb (workspaceKind actor =s "family") then mret (false, [Disclosure.deny_not_family_workspace])
  else match authorizeFamilyAction actor SafeRecipientView with
  | Refused _ => mret (false, [Disclosure.deny_not_family_workspace])
  | Authorized =>
      withTenant (tenantId actor) (
        db ← get;
        match find_row (relationships db) (tenantId actor) rel with
        | None => mret (false, [Disclosure.deny_relationship_inactive])
        | Some r =>
            mret (Disclosure.evaluateCanReceiveSafetyInformation {|
              Disclosure.workspaceKind := workspaceKind actor;
              Disclosure.relationshipActive := isActiveGuardianRelationship r;
              Disclosure.relationshipType := r_type r;
              Disclosure.membershipActiveSameTenant := is_some (find_row (memberships db) (tenantId actor) (r_guardian r));
              Disclosure.authorityActive := existsb (fun a => Disclosure.isGuardianAuthorityActive (au_state a) now) (verified_authorities db (tenantId actor) rel);
              Disclosure.consentEffective := existsb (fun c => Disclosure.isConsentEffective (co_state c) now) (active_consents db (tenantId actor) (r_profile r) consentType any_consent);
              Disclosure.assessmentApproved := existsb (fun a => Disclosure.isSafeRecipientAssessmentApproved (as_state a) now) (approved_assessments db (tenantId actor) rel) |})
        end)
  end.

(** * Commands

    The services that write, as one command type: what a sequence of requests by
    actors of any tenant can do to the tables. *)
Inductive command :=
| CreateAuthority (input : authority_input) | VerifyAuthority (id : string) (input : verify_input)
| RejectAuthority (id : string) | RevokeAuthorityRecord (id : string)
| GrantAuthority (input : authority_input) (now : Z) | ChangeAuthorityLevel (id level : string)
| SuspendAuthority (id : string) | ResumeAuthority (id : string) (now : Z) | RevokeAuthority (id : string)
| CreateConsent (input : consent_input) | GrantConsent (id : string) (keys : list string) (validFrom validUntil : option Z)
| RevokeConsent (id : string) | GrantGuardianConsent (input : consent_input) (rel : string) (now : Z)
| SuspendConsent (id : string) | ResumeConsent (id : string) (now : Z) | RevokeGuardianConsent (id : string)
| ChangeConsentExpiry (id : string) (validUntil : option Z) (now : Z)
| CreateAssessment (keys : list string) (rel : string) | ApproveAssessment (id : string) (input : decide_input)
| RejectAssessment (id : string) (input : decide_input) | RevokeAssessment (id : string)
| RequestAssessment (keys : list string) (rel purpose : string) | ApproveRecipient (id : string) (input : decide_input) (now : Z)
| RejectRecipient (id : string) (reason : option string) | SuspendRecipient (id : string)
| ResumeRecipient (id : string) (now : Z) | ChangeRecipientExpiry (id : string) (validUntil : option Z) (now : Z)
| ExpireRecipient (id : string).

Definition exec (st : stamp) (actor : FamilyActorContext) (c : command) : M () :=
  match c with
  | CreateAuthority i => createGuardianAuthorityRecord st actor i;; mret tt
  | VerifyAuthority id i => verifyGuardianAuthorityRecord st actor id i
  | RejectAuthority id => rejectGuardianAuthorityRecord st actor id
  | RevokeAuthorityRecord id => revokeGuardianAuthorityRecord st actor id
  | GrantAuthority i now => grantGuardianAuthority st actor i now;; mret tt
  | ChangeAuthorityLevel id l => changeGuardianAuthorityLevel st actor id l
  | SuspendAuthority id => suspendGuardianAuthority st actor id
  | ResumeAuthority id now => resumeGuardianAuthority st actor id now
  | RevokeAuthority id => revokeGuardianAuthority st actor id
  | CreateConsent i => createConsentRecord st actor i;; mret tt
  | GrantConsent id keys from until => grantConsent st actor id keys from until
  | RevokeConsent id => revokeConsent st actor id
  | GrantGuardianConsent i rel now => grantGuardianConsent st actor i rel now;; mret tt
  | SuspendConsent id => suspendGuardianConsent actor id
  | ResumeConsent id now => resumeGuardianConsent actor id now
  | RevokeGuardianConsent id => revokeGuardianConsent st actor id
  | ChangeConsentExpiry id until now => changeGuardianConsentExpiry actor id until now
  | CreateAssessment keys rel => createSafeRecipientAssessment st actor keys rel;; mret tt
  | ApproveAssessment id i => approveSafeRecipientAssessment st actor id i
  | RejectAssessment id i => rejectSafeRecipientAssessment actor id i
  | RevokeAssessment id => revokeSafeRecipientAssessment st actor id
  | RequestAssessment keys rel purpose => requestSafeRecipientAssessment st actor keys rel purpose;; mret tt
  | ApproveRecipient id i now => approveSafeRecipient st actor id i now
  | RejectRecipient id reason => rejectSafeRecipient actor id reason
  | SuspendRecipient id => suspendSafeRecipient actor id
  | ResumeRecipient id now => resumeSafeRecipient actor id now
  | ChangeRecipientExpiry id until now => changeSafeRecipientExpiry actor id until now
  | ExpireRecipient id => expireSafeRecipient actor id
  end.

(** The family action a command is authorized under. *)
Definition command_action (c : command) : FamilyAction :=
  match c with
  | CreateAuthority _ | VerifyAuthority _ _ | RejectAuthority _ | RevokeAuthorityRecord _ => GuardianAuthorityManage
  | GrantAuthority _ _ => FamilyAuthorityGrant
  | ChangeAuthorityLevel _ _ => FamilyAuthorityChange
  | SuspendAuthority _ => FamilyAuthoritySuspend
  | ResumeAuthority _ _ => FamilyAuthorityResume
  | RevokeAuthority _ => FamilyAuthorityRevoke
  | CreateConsent _ | GrantConsent _ _ _ _ | RevokeConsent _ | GrantGuardianConsent _ _ _ | SuspendConsent _
  | ResumeConsent _ _ | RevokeGuardianConsent _ | ChangeConsentExpiry _ _ _ => ConsentManage
  | _ => SafeRecipientAssess
  end.

Definition request : Type := stamp * FamilyActorContext * command.
Definition run_request (db : family_db) (q : request) : family_db := let '(st, actor, c) := q in after (exec st actor c) db.
Definition run_requests (qs : list request) (db : family_db) : family_db := fold_left run_request qs db.

(** * The abstract life cycles *)

(** One table after one command: unchanged, one fresh row of the actor's tenant,
    or one step of one row of the actor's tenant. *)
Definition table_change {R} `{Row R} (tenant newId : string) (fresh : R -> Prop) (step : R -> R -> Prop) (old new : list R) : Prop :=
  new = old \/
  (exists row, row_tenant row = tenant /\ row_id row = newId /\ fresh row /\ new = old ++ [row]) \/
  (exists id f rec, KeepsKey f /\ find_row old tenant id = Some rec /\ step rec (f rec) /\ new = update_row tenant id f old).

Record authority_step (r r' : authority) : Prop := {
  as_write_once : forall t, au_revokedAt r = Some t -> au_revokedAt r' = Some t;
  as_archive : au_archivedAt r' = au_archivedAt r;
  as_link : au_rel r' = au_rel r /\ au_type r' = au_type r;
  as_verified : au_status r' = js_name Disclosure.AuthorityVerified -> au_status r <> js_name Disclosure.AuthorityVerified ->
    au_revokedAt r = None \/ au_status r = js_name Disclosure.AuthoritySuspended }.
Definition fresh_authority (r : authority) : Prop :=
  au_revokedAt r = None /\ (au_status r = js_name Disclosure.AuthorityPending \/ au_status r = js_name Disclosure.AuthorityVerified).

(** The consent life cycle on record states. *)
Inductive consent_step : Disclosure.ConsentRecordState -> Disclosure.ConsentRecordState -> Prop :=
| cs_grant s at_ by_ from until :
    Disclosure.c_revokedAt s = None -> Disclosure.c_archivedAt s = None ->
    consent_step s {| Disclosure.consentStatus := "active"; Disclosure.grantedAt := Some at_;
      Disclosure.grantedByMembershipId := Some by_; Disclosure.c_validFrom := or_else from (Disclosure.c_validFrom s);
      Disclosure.c_validUntil := or_else until (Disclosure.c_validUntil s);
      Disclosure.c_revokedAt := Disclosure.c_revokedAt s; Disclosure.c_archivedAt := Disclosure.c_archivedAt s |}
| cs_status s from to :
    Disclosure.consentStatus s = from -> (from, to) ∈ [("active", "suspended"); ("suspended", "active")] ->
    consent_step s {| Disclosure.consentStatus := to; Disclosure.grantedAt := Disclosure.grantedAt s;
      Disclosure.grantedByMembershipId := Disclosure.grantedByMembershipId s; Disclosure.c_validFrom := Disclosure.c_validFrom s;
      Disclosure.c_validUntil := Disclosure.c_validUntil s; Disclosure.c_revokedAt := Disclosure.c_revokedAt s;
      Disclosure.c_archivedAt := Disclosure.c_archivedAt s |}
| cs_withdraw s at_ :
    Disclosure.c_revokedAt s = None ->
    consent_step s {| Disclosure.consentStatus := "withdrawn"; Disclosure.grantedAt := Disclosure.grantedAt s;
      Disclosure.grantedByMembershipId := Disclosure.grantedByMembershipId s; Disclosure.c_validFrom := Disclosure.c_validFrom s;
      Disclosure.c_validUntil := Disclosure.c_validUntil s; Disclosure.c_revokedAt := Some at_;
      Disclosure.c_archivedAt := Disclosure.c_archivedAt s |}
| cs_expiry s until :
    Disclosure.consentStatus s = "active" \/ Disclosure.consentStatus s = "suspended" ->
    consent_step s {| Disclosure.consentStatus := Disclosure.consentStatus s; Disclosure.grantedAt := Disclosure.grantedAt s;
      Disclosure.grantedByMembershipId := Disclosure.grantedByMembershipId s; Disclosure.c_validFrom := Disclosure.c_validFrom s;
      Disclosure.c_validUntil := until; Disclosure.c_revokedAt := Disclosure.c_revokedAt s;
      Disclosure.c_archivedAt := Disclosure.c_archivedAt s |}.

(** A consent that is or can again become active records who granted it and when. *)
Definition consent_wf (s : Disclosure.ConsentRecordState) : Prop :=
  Disclosure.consentStatus s = "active" \/ Disclosure.consentStatus s = "suspended" ->
  Disclosure.grantedAt s <> None /\ Disclosure.grantedByMembershipId s <> None.

(** Eligibility exactly when approved, and an assessor wherever approval is in reach. *)
Definition assessment_wf (s : Disclosure.AssessmentRecordState) : Prop :=
  (Disclosure.eligibilityStatus s = "eligible" <-> Disclosure.assessmentStatus s = "approved") /\
  (Disclosure.assessmentStatus s = "approved" \/ Disclosure.assessmentStatus s = "suspended" ->
   Disclosure.assessedAt s <> None /\ Disclosure.assessedByMembershipId s <> None).

Record assessment_step (s s' : Disclosure.AssessmentRecordState) : Prop := {
  st_write_once : forall t, Disclosure.s_revokedAt s = Some t -> Disclosure.s_revokedAt s' = Some t;
  st_archive : Disclosure.s_archivedAt s' = Disclosure.s_archivedAt s;
  st_wf : assessment_wf s -> assessment_wf s' }.

(** ** Running the helpers *)

Lemma enqueue_outbox_Ret st tenant before row occ db u db' :
  enqueue_authority_changed st tenant before row occ db = Ret (u, db') -> exists t, db' = set_outbox t db.
Proof.
  unfold enqueue_authority_changed. intros (d & ? & [-> ->]%get_Ret & H)%bind_Ret.
  destruct (Outbox.enqueueAuthorityChangedIfMaterialTx _ _ _ _ _ _ _ _ _ _) as [t [?|?]]; [|done].
  apply put_Ret in H as [_ ->]. eauto.
Qed.
Lemma loadAuthorityContext_Ret actor rel db r db' :
  loadAuthorityContext actor rel db = Ret (r, db') ->
  db' = db /\ find_row (relationships db) (tenantId actor) rel = Some r.1.1 /\
  exists m, find_row (memberships db) (tenantId actor) (r_guardian r.1.1) = Some m /\ r.1.2 = m_userId m.
Proof. unfold loadAuthorityContext. intros H. run_inv. simpl. eauto. Qed.
Lemma loadConsentContext_Ret actor rel db r db' : loadConsentContext actor rel db = Ret (r, db') -> db' = db.
Proof. unfold loadConsentContext. intros H. by run_inv. Qed.
Lemma assertLinks_Ret r p m db u db' : assertLinks r p m db = Ret (u, db') -> db' = db.
Proof. unfold assertLinks. intros H. by run_inv. Qed.

(** Run a service to its end: the tables it leaves, as writes over [db]. *)
Ltac run_service :=
  repeat (run_store;
    match goal with
    | H : loadAuthorityContext _ _ _ = Ret (_, _) |- _ => apply loadAuthorityContext_Ret in H as (? & ? & ? & ? & ?)
    | H : loadConsentContext _ _ _ = Ret (_, _) |- _ => apply loadConsentContext_Ret in H
    | H : assertLinks _ _ _ _ = Ret (_, _) |- _ => apply assertLinks_Ret in H
    | H : enqueue_authority_changed _ _ _ _ _ _ = Ret (_, _) |- _ => apply enqueue_outbox_Ret in H as [? ?]
    | H : load_authority _ _ _ = Ret (_, _) |- _ => unfold load_authority in H
    | H : loadManageableConsent _ _ _ = Ret (_, _) |- _ => unfold loadManageableConsent in H
    | H : loadAssessment _ _ _ = Ret (_, _) |- _ => unfold loadAssessment in H
    | H : create_authority _ _ = Ret (_, _) |- _ => unfold create_authority in H
    | H : update_authority _ _ _ _ = Ret (_, _) |- _ => unfold update_authority in H
    | H : create_consent _ _ = Ret (_, _) |- _ => unfold create_consent in H
    | H : update_consent _ _ _ _ = Ret (_, _) |- _ => unfold update_consent in H
    | H : create_assessment _ _ = Ret (_, _) |- _ => unfold create_assessment in H
    | H : update_assessment _ _ _ _ = Ret (_, _) |- _ => unfold update_assessment in H
    | H : assertNotSelfManaged _ _ _ = Ret (_, _) |- _ => unfold assertNotSelfManaged in H
    end); run_store.

(** Every successful command was authorized under its action. *)
Lemma exec_authorized st actor c db db' :
  exec st actor c db = Ret (tt, db') -> authorizeFamilyAction actor (command_action c) = Authorized.
Proof.
  assert (Hc : forall A (k : () -> M A) r, (assertFamily actor (command_action c) ≫= k) db = Ret r ->
    authorizeFamilyAction actor (command_action c) = Authorized).
  { intros A k [a d] (u & d' & (? & _ & _)%assertFamily_Ret & _)%bind_Ret. done. }
  destruct c; simpl; try (apply Hc); intros (a & d & H & _)%bind_Ret; by apply Hc in H.
Qed.

#[local] Instance keeps_with_authority s l v m n : KeepsKey (with_authority s l v m n).
Proof. done. Qed.
#[local] Instance keeps_authority_status a b c : KeepsKey (set_authority_status a b c).
Proof. done. Qed.
#[local] Instance keeps_consent_status a b : KeepsKey (set_consent_status a b).
Proof. done. Qed.
#[local] Instance keeps_consent_granted a b c d : KeepsKey (set_consent_granted a b c d).
Proof. done. Qed.
#[local] Instance keeps_consent_expiry a : KeepsKey (set_consent_expiry a).
Proof. done. Qed.
#[local] Instance keeps_assessment_status a b c : KeepsKey (set_assessment_status a b c).
Proof. done. Qed.
#[local] Instance keeps_assessment_rejected a : KeepsKey (set_assessment_rejected a).
Proof. done. Qed.
#[local] Instance keeps_assessment_approved a b c d : KeepsKey (set_assessment_approved a b c d).
Proof. done. Qed.
#[local] Instance keeps_assessment_expiry a : KeepsKey (set_assessment_expiry a).
Proof. done. Qed.

Definition authorities_change (st : stamp) (actor : FamilyActorContext) (db db' : family_db) : Prop :=
  table_change (tenantId actor) (newId st) fresh_authority authority_step (authorities db) (authorities db').
Definition consents_change (st : stamp) (actor : FamilyActorContext) (db db' : family_db) : Prop :=
  table_change (tenantId actor) (newId st) (fun r => consent_wf (co_state r) /\ co_revokedAt r = None)
    (fun r r' => consent_step (co_state r) (co_state r')) (consents db) (consents db').
Definition assessments_change (st : stamp) (actor : FamilyActorContext) (db db' : family_db) : Prop :=
  table_change (tenantId actor) (newId st) (fun r => assessment_wf (as_state r) /\ as_revokedAt r = None)
    (fun r r' => assessment_step (as_state r) (as_state r')) (assessments db) (assessments db').
(** What a command leaves alone, and that it only appends its own audit entries. *)
Definition rest_unchanged (actor : FamilyActorContext) (db db' : family_db) : Prop :=
  relationships db' = relationships db /\ profiles db' = profiles db /\ memberships db' = memberships db /\
  signals db' = signals db /\ decisions db' = decisions db /\ deliveries db' = deliveries db /\
  exists l, audit_log db' = audit_log db ++ l /\ Forall (fun e => ad_tenant e = tenantId actor) l.

Lemma no_audit actor db : exists l, audit_log db = audit_log db ++ l /\ Forall (fun e => ad_tenant e = tenantId actor) l.
Proof. exists []. rewrite app_nil_r. by split; [|constructor]. Qed.
Lemma one_audit actor db e : ad_tenant e = tenantId actor ->
  exists l, audit_log db ++ [e] = audit_log db ++ l /\ Forall (fun e => ad_tenant e = tenantId actor) l.
Proof. intros He. exists [e]. split; [done|]. by repeat constructor. Qed.

Ltac solve_rest := unfold rest_unchanged; simpl; repeat (split; [done|]); first [apply no_audit | by apply one_audit].

(** An authority update is a step; the state equations are in the context. *)
Ltac by_update := right; right; do 3 eexists; split; [|split; [eassumption|split; [|reflexivity]]]; [first [apply _ | by intros ?]|].
Ltac by_create := right; left; eexists; split; [|split; [|split; [|reflexivity]]]; [done|done|].

Lemma eqb_true_eq s t : (s =s t) = true -> s = t.
Proof. apply String.eqb_eq. Qed.
Ltac bool_facts :=
  repeat match goal with
  | H : negb _ = false |- _ => apply negb_false_iff in H
  | H : negb _ = true |- _ => apply negb_true_iff in H
  | H : (_ =s _) = true |- _ => apply eqb_true_eq in H
  | H : (_ || _) = false |- _ => apply orb_false_iff in H as [? ?]
  | H : is_some _ = false |- _ => apply Disclosure.is_some_false in H
  end.

Lemma status_step (rec : authority) status at_ now :
  (status = Disclosure.AuthorityVerified -> au_revokedAt rec = None \/ au_status rec = js_name Disclosure.AuthoritySuspended) ->
  (at_ = None \/ au_revokedAt rec = None) -> authority_step rec (set_authority_status status at_ now rec).
Proof.
  intros Hv Ha. split.
  - intros t. unfold au_revokedAt. simpl. destruct Ha as [->|Hn]; [done|]. unfold au_revokedAt in Hn. by rewrite Hn.
  - done.
  - done.
  - intros Hs _. apply Hv. by apply js_name_inj in Hs.
Qed.

Lemma assessment_wf_notin s : Disclosure.assessmentStatus s <> "approved" -> Disclosure.assessmentStatus s <> "suspended" ->
  Disclosure.eligibilityStatus s <> "eligible" -> assessment_wf s.
Proof. unfold assessment_wf. tauto. Qed.

Lemma approved_step at_ by_ until reason (r : assessment) :
  assessment_step (as_state r) (as_state (set_assessment_approved at_ by_ until reason r)).
Proof. by split; [| |intros _; split]. Qed.

(** Leaving the approvable statuses. *)
Lemma closed_step status at_ (r : assessment) :
  js_name status <> "approved" /\ js_name status <> "suspended" ->
  at_ = None \/ as_revokedAt r = None ->
  assessment_step (as_state r) (as_state (set_assessment_status status Disclosure.EligNotVerified at_ r)).
Proof.
  intros [Ha Hs] Hr. split.
  - intros t. simpl. destruct Hr as [->|Hn]; [done|]. unfold as_revokedAt in Hn. by rewrite Hn.
  - done.
  - intros _. by apply assessment_wf_notin.
Qed.

(** Between approved and suspended, the assessor stays recorded. *)
Lemma toggled_step status elig (r : assessment) :
  (status = Disclosure.AssessmentSuspended /\ elig = Disclosure.EligNotVerified) \/
  (status = Disclosure.AssessmentApproved /\ elig = Disclosure.EligEligible) ->
  as_status r = "approved" \/ as_status r = "suspended" ->
  assessment_step (as_state r) (as_state (set_assessment_status status elig None r)).
Proof.
  unfold as_status. intros Hs Hr. split; [done|done|]. intros [_ Hassessed].
  destruct Hs as [[-> ->]|[-> ->]]; (split; [done|intros _; by apply Hassessed]).
Qed.

Ltac frame := split; [try (by left)|split; [try (by left)|split; [try (by left)|try solve_rest]]].

Definition changes (st : stamp) (actor : FamilyActorContext) (db db' : family_db) : Prop :=
  authorities_change st actor db db' /\ consents_change st actor db db' /\ assessments_change st actor db db' /\
  rest_unchanged actor db db'.

Lemma exec_changes st actor c db db' : exec st actor c db = Ret (tt, db') -> changes st actor db db'.
Proof.
  destruct c; simpl; intros H.
  - unfold createGuardianAuthorityRecord in H; run_service; frame. by_create. split; [done|by left].
  - unfold verifyGuardianAuthorityRecord in H; run_service; frame. bool_facts. by_update. by split; [intros; congruence| | |left].
  - unfold rejectGuardianAuthorityRecord in H; run_service; frame. by_update. by apply status_step; [|left].
  - unfold revokeGuardianAuthorityRecord in H; run_service; frame. bool_facts. by_update. by apply status_step; [|right].
  - unfold grantGuardianAuthority in H; run_service; frame. by_create. split; [done|by right].
  - unfold changeGuardianAuthorityLevel in H; run_service; frame. by_update. by split.
  - unfold suspendGuardianAuthority in H; run_service; frame. by_update. by apply status_step; [|left].
  - unfold resumeGuardianAuthority in H; run_service; frame. bool_facts. by_update. apply status_step; [by right|by left].
  - unfold revokeGuardianAuthority in H; run_service; frame. bool_facts. by_update. by apply status_step; [|right].
  - unfold createConsentRecord in H; run_service; frame.
    all: by_create; split; [by intros [?|?]|done].
  - unfold grantConsent in H; run_service; frame. bool_facts. by_update.
    by apply cs_grant.
  - unfold revokeConsent in H; run_service; frame. bool_facts. by_update. by apply cs_withdraw.
  - unfold grantGuardianConsent in H; run_service; frame. by_create. by split.
  - unfold suspendGuardianConsent in H; run_service; frame. bool_facts. by_update. eapply cs_status; [done|]. simpl. set_solver.
  - unfold resumeGuardianConsent in H; run_service; frame. bool_facts. by_update. eapply cs_status; [done|]. simpl. set_solver.
  - unfold revokeGuardianConsent in H; run_service; frame. bool_facts. by_update. by apply cs_withdraw.
  - unfold changeGuardianConsentExpiry in H; run_service; frame. bool_facts. by_update. apply cs_expiry.
    match goal with H : consent_open_status _ = true |- _ => apply orb_true_iff in H as [H|H]; apply eqb_true_eq in H; auto end.
  - unfold createSafeRecipientAssessment in H; run_service; frame. by_create. split; [|done]. by apply assessment_wf_notin.
  - unfold approveSafeRecipientAssessment in H; run_service; frame. by_update. apply approved_step.
  - unfold rejectSafeRecipientAssessment in H; run_service; frame. by_update. split; [done|done|intros _]. by apply assessment_wf_notin.
  - unfold revokeSafeRecipientAssessment in H; run_service; frame. bool_facts. by_update. by apply closed_step; [|right].
  - unfold requestSafeRecipientAssessment in H; run_service; frame. by_create. split; [|done]. by apply assessment_wf_notin.
  - unfold approveSafeRecipient in H; run_service; frame. by_update. apply approved_step.
  - unfold rejectSafeRecipient in H; run_service; frame. by_update. split; [done|done|intros _]. by apply assessment_wf_notin.
  - unfold suspendSafeRecipient in H; run_service; frame. bool_facts. by_update. apply toggled_step; by left.
  - unfold resumeSafeRecipient in H; run_service; frame. bool_facts. by_update. apply toggled_step; by right.
  - unfold changeSafeRecipientExpiry in H; run_service; frame. by_update. split; [done|done|]. by intros [? ?].
  - unfold expireSafeRecipient in H; run_service; frame. by_update. by apply closed_step; [|left].
Qed.

(** ** Consequences for one table *)

Section Tables.
Context {R : Type} `{Row R} (tenant newId : string) (fresh : R -> Prop) (step : R -> R -> Prop).

(** With unique ids, the row an update changes is the row that was found. *)
Lemma found_unique (rows : list R) id r rec :
  NoDup (map row_id rows) -> find_row rows tenant id = Some rec -> In r rows -> is_row tenant id r = true -> r = rec.
Proof.
  intros Hnd (Hrec & Hid & _)%find_row_Some Hr [Hr' _]%is_row_iff.
  eapply (NoDup_map_inj_in row_id); eauto. congruence.
Qed.

Lemma table_change_inv (P : R -> Prop) old new :
  (forall r, fresh r -> P r) -> (forall r r', step r r' -> P r -> P r') ->
  NoDup (map row_id old) -> table_change tenant newId fresh step old new ->
  (forall r, In r old -> P r) -> forall r, In r new -> P r.
Proof.
  intros Hfresh Hstep Hnd [->|[(row & _ & _ & Hrow & ->)|(id & f & rec & Hk & Hfind & Hs & ->)]] Hold r Hr; [auto| |].
  - apply in_app_iff in Hr as [Hr|[<-|[]]]; auto.
  - apply In_update_row in Hr as (r0 & Hr0 & ->). destruct (is_row tenant id r0) eqn:Hm; [|auto].
    rewrite (found_unique _ _ _ _ Hnd Hfind Hr0 Hm). eapply Hstep; [exact Hs|]. apply Hold. by apply find_row_Some in Hfind as [? _].
Qed.

Lemma table_change_ids old new :
  ~ In newId (map row_id old) -> NoDup (map row_id old) -> table_change tenant newId fresh step old new -> NoDup (map row_id new).
Proof.
  intros Hn Hnd [->|[(row & _ & Hid & _ & ->)|(id & f & rec & Hk & _ & _ & ->)]]; [done| |by rewrite ids_update].
  rewrite map_app. simpl. rewrite Hid. apply NoDup_app. split; [done|]. split; [|apply NoDup_singleton].
  by intros x Hx ->%list_elem_of_singleton; apply Hn, list_elem_of_In.
Qed.

(** A row persists: it is still there, as it was or one step further. *)
Lemma table_change_persists old new r :
  NoDup (map row_id old) -> table_change tenant newId fresh step old new -> In r old ->
  exists r', In r' new /\ row_id r' = row_id r /\ row_tenant r' = row_tenant r /\ (r' = r \/ step r r').
Proof.
  intros Hnd [->|[(row & _ & _ & _ & ->)|(id & f & rec & Hk & Hfind & Hs & ->)]] Hr; [by exists r; auto| |].
  - exists r. rewrite in_app_iff. auto.
  - destruct (is_row tenant id r) eqn:Hm.
    + assert (r = rec) as <- by (by eapply found_unique). exists (f r).
      split; [apply In_update_row; exists r; by rewrite Hm|]. split; [apply keeps_key|]. split; [apply keeps_key|by right].
    + exists r. split; [apply In_update_row; exists r; by rewrite Hm|auto].
Qed.

Lemma table_change_foreign old new :
  table_change tenant newId fresh step old new -> foreign_rows tenant new = foreign_rows tenant old.
Proof.
  intros [->|[(row & Ht & _ & _ & ->)|(id & f & rec & Hk & _ & _ & ->)]]; [done|by apply foreign_app|by apply foreign_update].
Qed.
End Tables.

(** * Properties *)

(** The records are well formed and their ids distinct. *)
Record store_wf (db : family_db) : Prop := {
  wf_authority_ids : NoDup (map au_id (authorities db));
  wf_consent_ids : NoDup (map co_id (consents db));
  wf_assessment_ids : NoDup (map as_id (assessments db));
  wf_consents : forall c, In c (consents db) -> consent_wf (co_state c);
  wf_assessments : forall a, In a (assessments db) -> assessment_wf (as_state a) }.

(** The database never hands out an id twice. *)
Definition fresh_id (db : family_db) (id : string) : Prop :=
  ~ In id (map au_id (authorities db)) /\ ~ In id (map co_id (consents db)) /\ ~ In id (map as_id (assessments db)).
Fixpoint fresh_run (db : family_db) (qs : list request) : Prop :=
  match qs with
  | [] => True
  | q :: r => fresh_id db (newId (fst (fst q))) /\ fresh_run (run_request db q) r
  end.

Lemma changes_after st actor c db : changes st actor db (after (exec st actor c) db).
Proof.
  unfold after. destruct (exec st actor c db) as [[[] db']|e] eqn:He; [by eapply exec_changes|].
  split; [by left|]. split; [by left|]. split; [by left|]. repeat (split; [done|]). apply no_audit.
Qed.

Lemma consent_step_wf s s' : consent_step s s' -> consent_wf s -> consent_wf s'.
Proof.
  unfold consent_wf. intros Hstep. destruct Hstep as [s a b fr un Hr Ha|s from to Hs Hin|s a Hr|s un Hs]; simpl; try (done || tauto).
  - intros Hw _. apply Hw. rewrite !elem_of_cons in Hin. destruct Hin as [[= -> ->]|[[= -> ->]|[]%not_elem_of_nil]]; auto.
  - by intros _ [?|?].
Qed.

Lemma store_wf_request db q : fresh_id db (newId (fst (fst q))) -> store_wf db -> store_wf (run_request db q).
Proof.
  destruct q as [[st actor] c]. simpl. intros (Ha & Hc & Hs) [W1 W2 W3 W4 W5].
  destruct (changes_after st actor c db) as (Ca & Cc & Cs & _). split.
  - exact (table_change_ids (R := authority) _ _ _ _ _ _ Ha W1 Ca).
  - exact (table_change_ids (R := consent) _ _ _ _ _ _ Hc W2 Cc).
  - exact (table_change_ids (R := assessment) _ _ _ _ _ _ Hs W3 Cs).
  - refine (table_change_inv (R := consent) _ _ _ _ (fun r => consent_wf (co_state r)) _ _ _ _ W2 Cc W4); [by intros r [? _]|].
    intros r r'. apply consent_step_wf.
  - refine (table_change_inv (R := assessment) _ _ _ _ (fun r => assessment_wf (as_state r)) _ _ _ _ W3 Cs W5); [by intros r [? _]|].
    intros r r' [_ _ Hw]. apply Hw.
Qed.

Lemma store_wf_run qs db : fresh_run db qs -> store_wf db -> store_wf (run_requests qs db).
Proof.
  revert db. induction qs as [|q qs IH]; intros db; [done|]. intros [Hf Hr] Hw. apply IH; [done|]. by apply store_wf_request.
Qed.

Definition empty_db : family_db :=
  {| relationships := []; profiles := []; memberships := []; authorities := []; consents := []; assessments := [];
     signals := []; decisions := []; deliveries := []; audit_log := []; outbox := [] |}.

(** Grants stay provable: whatever sequence of requests is made, by actors of
    any tenants, every consent that is active or suspended, so may become effective
    again, records when and by whom it was granted; an assessment is eligible
    exactly while approved; and every approved or suspended one records its assessor. *)
Theorem family_grants_provable (qs : list request) (db : family_db) :
  store_wf db -> fresh_run db qs ->
  let final := run_requests qs db in
  (forall c, In c (consents final) -> co_status c = "active" \/ co_status c = "suspended" ->
     Disclosure.grantedAt (co_state c) <> None /\ Disclosure.grantedByMembershipId (co_state c) <> None) /\
  (forall a, In a (assessments final) ->
     (Disclosure.eligibilityStatus (as_state a) = "eligible" <-> as_status a = "approved") /\
     (as_status a = "approved" \/ as_status a = "suspended" ->
      Disclosure.assessedAt (as_state a) <> None /\ Disclosure.assessedByMembershipId (as_state a) <> None)) /\
  NoDup (map au_id (authorities final)) /\ NoDup (map co_id (consents final)) /\ NoDup (map as_id (assessments final)).
Proof. cbv zeta. intros Hw Hf. by destruct (store_wf_run _ _ Hf Hw). Qed.

(** ** Revocation *)

(** The rows of one table that carry a revocation mark. *)
Lemma revoked_persists {R} `{Row R} tenant newId fresh (step : R -> R -> Prop) (revokedAt : R -> option Z) old new r t :
  (forall x y, step x y -> forall t, revokedAt x = Some t -> revokedAt y = Some t) ->
  NoDup (map row_id old) -> table_change tenant newId fresh step old new -> In r old -> revokedAt r = Some t ->
  exists r', In r' new /\ row_id r' = row_id r /\ revokedAt r' = Some t.
Proof.
  intros Hw Hnd Hc Hr Ht. destruct (table_change_persists _ _ _ _ _ _ _ Hnd Hc Hr) as (r' & Hin & Hid & _ & [->|Hs]); eauto.
Qed.

Lemma consent_step_write_once s s' : consent_step s s' -> forall t, Disclosure.c_revokedAt s = Some t -> Disclosure.c_revokedAt s' = Some t.
Proof. intros Hstep t. destruct Hstep; simpl; congruence. Qed.

(** What is revoked in [db] stays revoked in [db'], with the same mark. *)
Definition revocations_kept (db db' : family_db) : Prop :=
  (forall a t, In a (authorities db) -> au_revokedAt a = Some t ->
     exists a', In a' (authorities db') /\ au_id a' = au_id a /\ au_revokedAt a' = Some t) /\
  (forall c t, In c (consents db) -> co_revokedAt c = Some t ->
     exists c', In c' (consents db') /\ co_id c' = co_id c /\ co_revokedAt c' = Some t) /\
  (forall s t, In s (assessments db) -> as_revokedAt s = Some t ->
     exists s', In s' (assessments db') /\ as_id s' = as_id s /\ as_revokedAt s' = Some t).

Lemma revocations_kept_trans a b c : revocations_kept a b -> revocations_kept b c -> revocations_kept a c.
Proof.
  intros (A1 & C1 & S1) (A2 & C2 & S2). split; [|split]; intros r t Hr Ht.
  - destruct (A1 r t Hr Ht) as (r1 & H1 & <- & Ht1). eauto.
  - destruct (C1 r t Hr Ht) as (r1 & H1 & <- & Ht1). eauto.
  - destruct (S1 r t Hr Ht) as (r1 & H1 & <- & Ht1). eauto.
Qed.

Lemma revocations_kept_request db q : store_wf db -> revocations_kept db (run_request db q).
Proof.
  destruct q as [[st actor] c]. intros [W1 W2 W3 _ _]. simpl. destruct (changes_after st actor c db) as (Ca & Cc & Cs & _).
  split; [|split]; intros r t Hr Ht.
  - exact (revoked_persists (R := authority) _ _ _ _ au_revokedAt _ _ _ _ (fun x y H => as_write_once x y H) W1 Ca Hr Ht).
  - exact (revoked_persists (R := consent) _ _ _ _ co_revokedAt _ _ _ _ (fun x y H => consent_step_write_once _ _ H) W2 Cc Hr Ht).
  - exact (revoked_persists (R := assessment) _ _ _ _ as_revokedAt _ _ _ _ (fun x y H => st_write_once _ _ H) W3 Cs Hr Ht).
Qed.

Lemma revocations_kept_run qs db : store_wf db -> fresh_run db qs -> revocations_kept db (run_requests qs db).
Proof.
  revert db. induction qs as [|q qs IH]; intros db Hw.
  - intros _. split; [|split]; eauto.
  - intros [Hf Hr]. eapply revocations_kept_trans; [by apply revocations_kept_request|].
    apply IH; [|done]. by apply store_wf_request.
Qed.

Lemma revoked_authority_inactive a now t : au_revokedAt a = Some t -> Disclosure.isGuardianAuthorityActive (au_state a) now = false.
Proof.
  unfold au_revokedAt, Disclosure.isGuardianAuthorityActive. intros ->. simpl. by repeat case_match.
Qed.
Lemma revoked_consent_ineffective c now t : co_revokedAt c = Some t -> Disclosure.isConsentEffective (co_state c) now = false.
Proof.
  unfold co_revokedAt, Disclosure.isConsentEffective. intros ->. simpl. by repeat case_match.
Qed.
Lemma revoked_assessment_unapproved s now t : as_revokedAt s = Some t -> Disclosure.isSafeRecipientAssessmentApproved (as_state s) now = false.
Proof.
  unfold as_revokedAt, Disclosure.isSafeRecipientAssessmentApproved. intros ->. simpl. by repeat case_match.
Qed.

(** C37 — Revocation is final: once a guardian authority, a consent or an assessment
    is revoked, no later sequence of requests, by actors of any role or tenant,
    makes that record effective again, at any time: its revocation mark is
    written once, and verifying, resuming, granting or approving cannot clear it. *)
Theorem family_revocation_final (qs : list request) (db : family_db) :
  store_wf db -> fresh_run db qs ->
  let final := run_requests qs db in
  (forall a, In a (authorities db) -> au_revokedAt a <> None ->
     forall a' now, In a' (authorities final) -> au_id a' = au_id a -> Disclosure.isGuardianAuthorityActive (au_state a') now = false) /\
  (forall c, In c (consents db) -> co_revokedAt c <> None ->
     forall c' now, In c' (consents final) -> co_id c' = co_id c -> Disclosure.isConsentEffective (co_state c') now = false) /\
  (forall s, In s (assessments db) -> as_revokedAt s <> None ->
     forall s' now, In s' (assessments final) -> as_id s' = as_id s -> Disclosure.isSafeRecipientAssessmentApproved (as_state s') now = false).
Proof.
  cbv zeta. intros Hw Hf. destruct (revocations_kept_run qs db Hw Hf) as (Ka & Kc & Ks).
  destruct (store_wf_run qs db Hf Hw) as [W1 W2 W3 _ _].
  split; [|split].
  - intros a Ha Hr a' now Ha' Hid. destruct (au_revokedAt a) as [t|] eqn:Ht; [|done].
    destruct (Ka a t Ha Ht) as (a'' & Hin & Hid' & Ht').
    assert (a' = a'') as -> by (eapply (NoDup_map_inj_in au_id); eauto; congruence). by eapply revoked_authority_inactive.
  - intros c Hc Hr c' now Hc' Hid. destruct (co_revokedAt c) as [t|] eqn:Ht; [|done].
    destruct (Kc c t Hc Ht) as (c'' & Hin & Hid' & Ht').
    assert (c' = c'') as -> by (eapply (NoDup_map_inj_in co_id); eauto; congruence). by eapply revoked_consent_ineffective.
  - intros s Hs Hr s' now Hs' Hid. destruct (as_revokedAt s) as [t|] eqn:Ht; [|done].
    destruct (Ks s t Hs Ht) as (s'' & Hin & Hid' & Ht').
    assert (s' = s'') as -> by (eapply (NoDup_map_inj_in as_id); eauto; congruence). by eapply revoked_assessment_unapproved.
Qed.

(** ** Confinement *)

(** Commands are confined: a command that throws changes nothing; one that
    succeeds was authorized for the actor's family role under its own action, and
    touches no row of another tenant in any table, no relationship, profile,
    membership, signal, decision or delivery at all, and only appends audit
    entries of the actor's tenant. *)
Theorem family_commands_confined (st : stamp) (actor : FamilyActorContext) (c : command) (db : family_db) :
  let db' := after (exec st actor c) db in
  ((exists e, result (exec st actor c) db = Throw e) -> db' = db) /\
  (result (exec st actor c) db = Ret tt ->
     workspaceKind actor = "family" /\ familyRoleCan (familyRoleForMembershipRole (role actor)) (command_action c) = true) /\
  foreign_rows (tenantId actor) (authorities db') = foreign_rows (tenantId actor) (authorities db) /\
  foreign_rows (tenantId actor) (consents db') = foreign_rows (tenantId actor) (consents db) /\
  foreign_rows (tenantId actor) (assessments db') = foreign_rows (tenantId actor) (assessments db) /\
  rest_unchanged actor db db'.
Proof.
  cbv zeta. destruct (changes_after st actor c db) as (Ca & Cc & Cs & Cr).
  split; [|split; [|split; [|split; [|split]]]].
  - unfold result, after. intros [e He]. by destruct (exec st actor c db) as [[u d]|e'].
  - unfold result. destruct (exec st actor c db) as [[[] d]|e'] eqn:He; [|done]. intros _.
    apply exec_authorized in He. unfold authorizeFamilyAction in He.
    destruct (String.eqb_spec (workspaceKind actor) (js_name Family)) as [Hf|]; [|done]. cbn [negb] in He.
    destruct (capabilityAllowedInWorkspace _ _); [|done]. cbn [negb] in He.
    by destruct (familyRoleCan _ (command_action c)).
  - exact (table_change_foreign (R := authority) _ _ _ _ _ _ Ca).
  - exact (table_change_foreign (R := consent) _ _ _ _ _ _ Cc).
  - exact (table_change_foreign (R := assessment) _ _ _ _ _ _ Cs).
  - done.
Qed.

(** ** At most one open record *)

Lemma length_filter_update {R} `{Row R} (p : R -> bool) tenant id (f : R -> R) (rows : list R) :
  (forall r, In r rows -> is_row tenant id r = true -> p (f r) = true -> p r = true) ->
  (length (List.filter p (update_row tenant id f rows)) <= length (List.filter p rows))%nat.
Proof.
  unfold update_row. induction rows as [|r rows IH]; intros Hp; simpl; [lia|].
  assert (IH' := IH (fun x Hx => Hp x (or_intror Hx))).
  specialize (Hp r (or_introl eq_refl)).
  destruct (is_row tenant id r); [|destruct (p r); simpl; lia].
  specialize (Hp eq_refl). destruct (p (f r)) eqn:Hf; [rewrite (Hp eq_refl)|destruct (p r)]; simpl; lia.
Qed.

Lemma length_filter_snoc {R} (p : R -> bool) rows (r : R) :
  length (List.filter p (rows ++ [r])) = (length (List.filter p rows) + (if p r then 1 else 0))%nat.
Proof. rewrite List.filter_app, length_app. simpl. by destruct (p r). Qed.

Definition opens_nothing (r r' : authority) : Prop :=
  au_rel r' = au_rel r /\ (authority_open r' = true -> authority_open r = true).
Definition opens_first (db : family_db) (r : authority) : Prop :=
  authority_open r = true -> open_authorities db (au_tenant r) (au_rel r) = [].

Lemma loaded_rel actor rel db r db' :
  loadAuthorityContext actor rel db = Ret (r, db') -> r_id r.1.1 = rel.
Proof. intros (_ & (_ & Hid & _)%find_row_Some & _)%loadAuthorityContext_Ret. done. Qed.

Lemma status_closes status at_ now r :
  is_open_status (js_name status) = true -> at_ = None -> is_open_status (au_status r) = true ->
  opens_nothing r (set_authority_status status at_ now r).
Proof.
  intros Hs -> Hr. split; [done|]. unfold authority_open. change ((au_status r =s js_name Disclosure.AuthorityVerified) || (au_status r =s js_name Disclosure.AuthoritySuspended)) with (is_open_status (au_status r)).
  rewrite Hr, !andb_true_iff. unfold au_revokedAt, au_archivedAt. simpl. tauto.
Qed.

Create HintDb consent_services.
#[local] Hint Unfold createConsentRecord grantConsent revokeConsent grantGuardianConsent suspendGuardianConsent
  resumeGuardianConsent revokeGuardianConsent changeGuardianConsentExpiry createSafeRecipientAssessment
  approveSafeRecipientAssessment rejectSafeRecipientAssessment revokeSafeRecipientAssessment requestSafeRecipientAssessment
  approveSafeRecipient rejectSafeRecipient suspendSafeRecipient resumeSafeRecipient changeSafeRecipientExpiry
  expireSafeRecipient : consent_services.

Lemma exec_opens st actor c db db' :
  (forall id i, c <> VerifyAuthority id i) -> exec st actor c db = Ret (tt, db') ->
  table_change (tenantId actor) (newId st) (opens_first db) opens_nothing (authorities db) (authorities db').
Proof.
  intros Hc H. destruct c; simpl in H.
  10-28: autounfold with consent_services in H; run_service; by left.
  - unfold createGuardianAuthorityRecord in H; run_service. by_create. done.
  - by destruct (Hc id input).
  - unfold rejectGuardianAuthorityRecord in H; run_service. by_update. done.
  - unfold revokeGuardianAuthorityRecord in H; run_service; try (by left). by_update. done.
  - unfold grantGuardianAuthority in H; run_service. by_create. intros _. simpl. bool_facts.
    match goal with H : (length _ =? 0)%nat = true |- _ => apply Nat.eqb_eq, length_zero_iff_nil in H; exact H end.
  - unfold changeGuardianAuthorityLevel in H; run_service; try (by left). by_update. done.
  - unfold suspendGuardianAuthority in H; run_service; try (by left). bool_facts. by_update. apply status_closes; try done.
    unfold is_open_status. by match goal with H : au_status _ = _ |- _ => rewrite H end.
  - unfold resumeGuardianAuthority in H; run_service. bool_facts. by_update. apply status_closes; try done.
    unfold is_open_status. by match goal with H : au_status _ = _ |- _ => rewrite H end.
  - unfold revokeGuardianAuthority in H; run_service; try (by left). by_update. done.
Qed.

(** At most one verified or suspended, unrevoked record per relationship. *)
Definition single_authority (db : family_db) : Prop :=
  forall tenant rel, (length (open_authorities db tenant rel) <= 1)%nat.

(** At most one open authority: no command but a bare verification gives a
    relationship a second verified or suspended authority record, where there was
    at most one before: granting refuses while one is open, and the others never
    open a closed record. *)
Theorem family_authority_single (st : stamp) (actor : FamilyActorContext) (c : command) (db : family_db) :
  store_wf db -> single_authority db -> (forall id i, c <> VerifyAuthority id i) ->
  single_authority (after (exec st actor c) db).
Proof.
  intros Hw Hs Hc tenant rel. unfold after. destruct (exec st actor c db) as [[[] db']|] eqn:He; [|apply Hs].
  unfold open_authorities.
  destruct (exec_opens _ _ _ _ _ Hc He) as [->|[(row & Ht & _ & Hrow & ->)|(id & f & rec & Hk & Hfind & [Hrel Hopen] & ->)]]; [apply Hs| |].
  - rewrite length_filter_snoc. cbv beta. specialize (Hs tenant rel). fold (open_authorities db tenant rel).
    destruct ((au_tenant row =s tenant) && (au_rel row =s rel) && authority_open row) eqn:Hb; [|lia].
    apply andb_true_iff in Hb as [[<-%eqb_true_eq <-%eqb_true_eq]%andb_true_iff Ho].
    by rewrite (Hrow Ho).
  - etransitivity; [apply length_filter_update|apply Hs].
    intros r Hr Hm.
    assert (r = rec) as -> by (eapply (found_unique (R := authority)); [exact (wf_authority_ids _ Hw)|eassumption..]).
    rewrite Hrel.
    assert (Ht : au_tenant (f rec) = au_tenant rec) by apply (Hk rec). rewrite Ht, !andb_true_iff. tauto.
Qed.


End Services.

(** ** The evaluators *)

Lemma In_newest_first {R} (at_ : R -> Z) rows (r : R) : In r (newest_first at_ rows) <-> In r rows.
Proof. unfold newest_first. rewrite <- !list_elem_of_In. by rewrite js_sort_perm. Qed.

Lemma existsb_newest {R} (at_ : R -> Z) (p q : R -> bool) rows :
  existsb q (newest_first at_ (List.filter p rows)) = true <-> exists r, In r rows /\ p r = true /\ q r = true.
Proof.
  rewrite existsb_exists. setoid_rewrite In_newest_first. setoid_rewrite filter_In. naive_solver.
Qed.

Lemma active_authority_status a now : Disclosure.isGuardianAuthorityActive (au_state a) now = true ->
  (au_status a =s js_name Disclosure.AuthorityVerified) = true /\ is_none (au_revokedAt a) = true /\ is_none (au_archivedAt a) = true.
Proof.
  unfold Disclosure.isGuardianAuthorityActive, au_status, au_revokedAt, au_archivedAt, is_none.
  destruct (_ =s _); [|by case_match]. by destruct (a_revokedAt _), (a_archivedAt _); repeat case_match.
Qed.
Lemma effective_consent_status c now : Disclosure.isConsentEffective (co_state c) now = true ->
  (co_status c =s js_name Disclosure.ConsentActive) = true /\ is_none (co_revokedAt c) = true /\ is_none (co_archivedAt c) = true.
Proof.
  unfold Disclosure.isConsentEffective, co_status, co_revokedAt, co_archivedAt, is_none.
  destruct (_ =s _); [|by case_match]. by destruct (c_revokedAt _), (c_archivedAt _); repeat case_match.
Qed.
Lemma approved_assessment_status a now : Disclosure.isSafeRecipientAssessmentApproved (as_state a) now = true ->
  (as_status a =s js_name Disclosure.AssessmentApproved) = true /\ is_none (as_revokedAt a) = true /\ is_none (as_archivedAt a) = true.
Proof.
  unfold Disclosure.isSafeRecipientAssessmentApproved, as_status, as_revokedAt, as_archivedAt, is_none.
  destruct (_ =s js_name Disclosure.AssessmentApproved); [|by case_match]. by destruct (s_revokedAt _), (s_archivedAt _); repeat case_match.
Qed.

(** What each evaluator looks for among the records. *)
Definition has_active_authority (db : family_db) (tenant rel : string) (now : Z) : Prop :=
  exists a, In a (authorities db) /\ au_tenant a = tenant /\ au_rel a = rel /\ Disclosure.isGuardianAuthorityActive (au_state a) now = true.
Definition has_effective_consent (db : family_db) (tenant profile type : string) (q : consent -> bool) (now : Z) : Prop :=
  exists c, In c (consents db) /\ co_tenant c = tenant /\ co_profile c = profile /\ co_type c = type /\ q c = true /\
    Disclosure.isConsentEffective (co_state c) now = true.
Definition has_approved_assessment (db : family_db) (tenant rel : string) (q : assessment -> bool) (now : Z) : Prop :=
  exists a, In a (assessments db) /\ as_tenant a = tenant /\ as_rel a = rel /\ q a = true /\
    Disclosure.isSafeRecipientAssessmentApproved (as_state a) now = true.

Lemma active_authority_iff db tenant rel now :
  existsb (fun a => Disclosure.isGuardianAuthorityActive (au_state a) now) (verified_authorities db tenant rel) = true <->
  has_active_authority db tenant rel now.
Proof.
  unfold verified_authorities, has_active_authority. rewrite existsb_newest. setoid_rewrite andb_true_iff.
  setoid_rewrite andb_true_iff. setoid_rewrite andb_true_iff. setoid_rewrite andb_true_iff. setoid_rewrite String.eqb_eq.
  split; intros (a & Ha & H); exists a; [tauto|]. pose proof (active_authority_status a now). rewrite String.eqb_eq in *. tauto.
Qed.
Lemma effective_consent_iff db tenant profile type q now :
  existsb (fun c => Disclosure.isConsentEffective (co_state c) now) (active_consents db tenant profile type q) = true <->
  has_effective_consent db tenant profile type q now.
Proof.
  unfold active_consents, has_effective_consent. rewrite existsb_newest.
  split; intros (c & Hc & H); exists c; guards_in H; guards_goal; [tauto|].
  pose proof (effective_consent_status c now). rewrite String.eqb_eq in *. tauto.
Qed.
Lemma approved_assessment_iff db tenant rel now :
  existsb (fun a => Disclosure.isSafeRecipientAssessmentApproved (as_state a) now) (approved_assessments db tenant rel) = true <->
  has_approved_assessment db tenant rel (fun _ => true) now.
Proof.
  unfold approved_assessments, has_approved_assessment. rewrite existsb_newest.
  split; intros (a & Ha & H); exists a; guards_in H; guards_goal; [tauto|].
  pose proof (approved_assessment_status a now). rewrite String.eqb_eq in *. tauto.
Qed.

Lemma find_none_existsb {A} (p : A -> bool) l : List.find p l = None <-> existsb p l = false.
Proof. induction l as [|x l IH]; simpl; [done|]. by destruct (p x). Qed.

Lemma chain_ok_iff ch : fst (Disclosure.evaluateCanReceiveSafetyInformation ch) = true <->
  Disclosure.workspaceKind ch = "family" /\ Disclosure.relationshipActive ch = true /\ Disclosure.membershipActiveSameTenant ch = true /\
  Disclosure.authorityActive ch = true /\ Disclosure.consentEffective ch = true /\ Disclosure.assessmentApproved ch = true.
Proof.
  unfold Disclosure.evaluateCanReceiveSafetyInformation, Disclosure.relationshipTypeRequiresAuthority.
  rewrite <- String.eqb_eq. destruct (_ =s _), (Disclosure.relationshipActive ch), (Disclosure.membershipActiveSameTenant ch),
    (Disclosure.authorityActive ch), (Disclosure.consentEffective ch), (Disclosure.assessmentApproved ch); simpl; intuition congruence.
Qed.

Lemma authorized_iff actor action : workspaceKind actor = "family" -> familyRoleCan (familyRoleForMembershipRole (role actor)) action = true ->
  authorizeFamilyAction actor action = Authorized.
Proof.
  intros Hw Hr. unfold authorizeFamilyAction. rewrite Hw, Hr. by destruct action.
Qed.

Lemma every_role_views (r : FamilyRole) : familyRoleCan r SafeRecipientView = true /\ familyRoleCan r ConsentView = true.
Proof. by destruct r. Qed.

(** Receiving safety information: in a family workspace the decision is positive
    exactly when the relationship exists in the tenant and is active, its guardian
    is still a member, and an active authority of that relationship, an effective
    consent of the wanted type for the protected profile and an approved assessment
    of that relationship are all on record. *)
Theorem safety_information_exact (actor : FamilyActorContext) (rel type : string) (now : Z) (db : family_db) :
  workspaceKind actor = "family" -> tenantId actor <> "" ->
  exists d, result (canReceiveSafetyInformation actor rel type now) db = Ret d /\
  (fst d = true <->
    exists r, find_row (relationships db) (tenantId actor) rel = Some r /\ isActiveGuardianRelationship r = true /\
      find_row (memberships db) (tenantId actor) (r_guardian r) <> None /\
      has_active_authority db (tenantId actor) rel now /\
      has_effective_consent db (tenantId actor) (r_profile r) type any_consent now /\
      has_approved_assessment db (tenantId actor) rel (fun _ => true) now).
Proof.
  intros Hw Ht. unfold canReceiveSafetyInformation. rewrite Hw.
  rewrite (authorized_iff _ _ Hw (proj1 (every_role_views _))). change (negb ("family" =s "family")) with false.
  unfold withTenant, nonempty. rewrite (proj2 (String.eqb_neq _ _) Ht). cbn [negb].
  unfold result, mbind, tx_bind, get.
  destruct (find_row (relationships db) (tenantId actor) rel) as [r|] eqn:Hr.
  - eexists. split; [reflexivity|]. rewrite chain_ok_iff. cbn [workspaceKind Disclosure.workspaceKind Disclosure.relationshipActive
      Disclosure.membershipActiveSameTenant Disclosure.authorityActive Disclosure.consentEffective Disclosure.assessmentApproved].
    rewrite active_authority_iff, effective_consent_iff, approved_assessment_iff.
    assert (Hm : is_some (find_row (memberships db) (tenantId actor) (r_guardian r)) = true <->
      find_row (memberships db) (tenantId actor) (r_guardian r) <> None) by (by destruct (find_row (memberships db) _ _)).
    rewrite Hm. split.
    + intros (_ & ?). by exists r.
    + intros (r' & [= <-] & ?). tauto.
  - eexists. split; [reflexivity|]. split; [done|]. by intros (r & ? & _).
Qed.

Lemma relationship_links_inr db tenant rel r :
  relationship_links db tenant rel = inr r <->
  find_row (relationships db) tenant rel = Some r /\ isActiveGuardianRelationship r = true /\
  profile_archived db tenant (r_profile r) = false /\ find_row (memberships db) tenant (r_guardian r) <> None.
Proof.
  unfold relationship_links. destruct (find_row (relationships db) tenant rel) as [r'|]; [|split; [done|by intros [? _]]].
  destruct (isActiveGuardianRelationship r') eqn:Ha; cbn [negb]; [|split; [done|intros ([= <-] & ? & _); congruence]].
  destruct (profile_archived db tenant (r_profile r')) eqn:Hp; [split; [done|intros ([= <-] & _ & ? & _); congruence]|].
  destruct (find_row (memberships db) tenant (r_guardian r')) as [m|] eqn:Hm; cbn [is_none negb is_some].
  - split; [intros [= <-]; repeat split; congruence|]. by intros ([= <-] & _).
  - split; [done|]. intros ([= <-] & _ & _ & ?). congruence.
Qed.

(** The safe-recipient resolver is exact: it answers safe exactly when the
    relationship is active, its profile neither missing nor archived, its guardian
    a member, a guardian consent bound to this very relationship is effective, and
    an assessment for this very purpose is approved and current. *)
Theorem safe_recipient_exact (actor : FamilyActorContext) (rel purpose : string) (now : Z) (db : family_db) :
  workspaceKind actor = "family" -> tenantId actor <> "" ->
  exists d, result (evaluateSafeRecipientAssessment actor rel purpose now) db = Ret d /\
  (safe d = true <->
    exists r, find_row (relationships db) (tenantId actor) rel = Some r /\ isActiveGuardianRelationship r = true /\
      profile_archived db (tenantId actor) (r_profile r) = false /\
      find_row (memberships db) (tenantId actor) (r_guardian r) <> None /\
      has_effective_consent db (tenantId actor) (r_profile r) "guardian" (consent_of rel) now /\
      has_approved_assessment db (tenantId actor) rel (fun a => as_purpose a =s purpose) now).
Proof.
  intros Hw Ht. unfold evaluateSafeRecipientAssessment, assertFamily.
  rewrite (authorized_iff _ _ Hw (proj1 (every_role_views _))).
  unfold withTenant, nonempty. rewrite (proj2 (String.eqb_neq _ _) Ht). cbn [negb].
  unfold result, mbind, tx_bind, mret, tx_ret, get. change (js_name CTGuardian) with "guardian".
  destruct (relationship_links db (tenantId actor) rel) as [reason|r] eqn:Hl.
  { eexists. split; [reflexivity|]. split; [done|]. intros (r & H1 & H2 & H3 & H4 & _).
    assert (Hr : relationship_links db (tenantId actor) rel = inr r) by (by apply relationship_links_inr). congruence. }
  apply relationship_links_inr in Hl as (Hr & Ha & Hp & Hm). rewrite Hr.
  assert (Hspec : forall b, (b = true <-> has_effective_consent db (tenantId actor) (r_profile r) "guardian" (consent_of rel) now /\
      has_approved_assessment db (tenantId actor) rel (fun a => as_purpose a =s purpose) now) ->
    (b = true <-> exists r0, Some r = Some r0 /\ isActiveGuardianRelationship r0 = true /\
      profile_archived db (tenantId actor) (r_profile r0) = false /\ find_row (memberships db) (tenantId actor) (r_guardian r0) <> None /\
      has_effective_consent db (tenantId actor) (r_profile r0) "guardian" (consent_of rel) now /\
      has_approved_assessment db (tenantId actor) rel (fun a => as_purpose a =s purpose) now)).
  { intros b Hb. rewrite Hb. split; [intros [? ?]; by exists r|]. intros (r0 & [= <-] & ?). tauto. }
  destruct (existsb _ (active_consents _ _ _ _ _)) eqn:Hc; cbn [negb].
  2:{ eexists. split; [reflexivity|]. apply Hspec. split; [done|]. intros [He%effective_consent_iff _]. congruence. }
  apply effective_consent_iff in Hc.
  set (rows := newest_first as_createdAt _).
  assert (Hrows : existsb (fun a => (as_status a =s js_name AssessmentApproved) && isSafeRecipientAssessmentApproved (as_state a) now) rows = true <->
    has_approved_assessment db (tenantId actor) rel (fun a => as_purpose a =s purpose) now).
  { subst rows. rewrite existsb_newest. unfold has_approved_assessment.
    split; intros (a & Hin & H); exists a; guards_in H; guards_goal; [tauto|].
    pose proof (approved_assessment_status a now). rewrite String.eqb_eq in *. tauto. }
  destruct rows as [|a rows].
  { eexists. split; [reflexivity|]. apply Hspec. split; [done|]. by intros [_ ?%Hrows]. }
  destruct (existsb _ (a :: rows)) eqn:He.
  - eexists. split; [reflexivity|]. apply Hspec. split; [|done]. intros _. split; [done|by apply Hrows].
  - assert (Hno : ~ has_approved_assessment db (tenantId actor) rel (fun a => as_purpose a =s purpose) now)
      by (intros Hn%Hrows; congruence).
    cbv zeta. set (status := option_map as_status _).
    destruct (status_is status (js_name AssessmentSuspended)), (status_is status (js_name AssessmentApproved)),
      (status_is status (js_name AssessmentExpired));
      (eexists; split; [reflexivity|]; apply Hspec; split; [done|tauto]).
Qed.

(** ** What the evaluators disagree about *)

(** Consent is not bound to its guardian: where a relationship has every link
    but consent, and the only effective consent for the child is bound to another
    guardian's relationship, the relationship's own consent evaluation is negative,
    yet the decision to let this guardian receive safety information is positive;
    the consent is documented to be bound to the relationship and never global. *)
Theorem consent_leaks_across_guardians (actor : FamilyActorContext) (rel type : string) (now : Z) (db : family_db) (r : relationship) :
  workspaceKind actor = "family" -> tenantId actor <> "" ->
  find_row (relationships db) (tenantId actor) rel = Some r -> isActiveGuardianRelationship r = true ->
  profile_archived db (tenantId actor) (r_profile r) = false ->
  find_row (memberships db) (tenantId actor) (r_guardian r) <> None ->
  has_active_authority db (tenantId actor) rel now -> has_approved_assessment db (tenantId actor) rel (fun _ => true) now ->
  ~ has_effective_consent db (tenantId actor) (r_profile r) type (consent_of rel) now ->
  (exists other, other <> rel /\ has_effective_consent db (tenantId actor) (r_profile r) type (consent_of other) now) ->
  result (evaluateEffectiveGuardianConsent actor rel type now) db = Ret (false, not_active) /\
  result (canReceiveSafetyInformation actor rel type now) db = Ret (true, []).
Proof.
  intros Hw Ht Hr Ha Hp Hm Hau Has Hno (other & _ & c & Hc1 & Hc2 & Hc3 & Hc4 & _ & Hc5).
  assert (Hl : relationship_links db (tenantId actor) rel = inr r) by (by apply relationship_links_inr).
  assert (Hany : has_effective_consent db (tenantId actor) (r_profile r) type any_consent now) by (exists c; tauto).
  split.
  - unfold evaluateEffectiveGuardianConsent, assertFamily. rewrite (authorized_iff _ _ Hw (proj2 (every_role_views _))).
    unfold withTenant, nonempty. rewrite (proj2 (String.eqb_neq _ _) Ht). cbn [negb].
    unfold result, mbind, tx_bind, mret, tx_ret, get. rewrite Hl.
    destruct (List.find _ (active_consents _ _ _ _ _)) as [c'|] eqn:Hf; [|done].
    exfalso. apply Hno, effective_consent_iff, existsb_exists. apply List.find_some in Hf. by exists c'.
  - unfold canReceiveSafetyInformation. rewrite Hw, (authorized_iff _ _ Hw (proj1 (every_role_views _))).
    change (negb ("family" =s "family")) with false.
    unfold withTenant, nonempty. rewrite (proj2 (String.eqb_neq _ _) Ht). cbn [negb].
    unfold result, mbind, tx_bind, mret, tx_ret, get. rewrite Hr, Ha.
    rewrite (proj2 (active_authority_iff _ _ _ _) Hau), (proj2 (effective_consent_iff _ _ _ _ _ _) Hany),
      (proj2 (approved_assessment_iff _ _ _ _) Has).
    by destruct (find_row (memberships db) (tenantId actor) (r_guardian r)).
Qed.

(** A closed assessment can be reopened: a rejected or expired, unrevoked
    assessment, documented as terminal, is refused by the life cycle's approval,
    but the older approval service makes it approved and effective again. *)
Theorem closed_assessment_reapproved (st : stamp) (actor : FamilyActorContext) (id : string) (until : option Z) (db : family_db)
    (rec : assessment) (m : membership) :
  authorizeFamilyAction actor SafeRecipientAssess = Authorized -> tenantId actor <> "" -> store_wf db ->
  find_row (assessments db) (tenantId actor) id = Some rec -> as_status rec = "rejected" \/ as_status rec = "expired" ->
  as_revokedAt rec = None -> as_archivedAt rec = None ->
  membership_of db (tenantId actor) (userId actor) = Some m ->
  Disclosure.has_ended until (clock st) = false -> Disclosure.has_ended (Disclosure.s_validUntil (as_state rec)) (clock st) = false ->
  let input := {| di_keys := ["validUntil"]; di_reason := None; di_validUntil := until |} in
  result (approveSafeRecipient st actor id input (clock st)) db = Throw (FamilyValidationError "invalid_state") /\
  result (approveSafeRecipientAssessment st actor id input) db = Ret tt /\
  exists rec', find_row (assessments (after (approveSafeRecipientAssessment st actor id input) db)) (tenantId actor) id = Some rec' /\
    Disclosure.isSafeRecipientAssessmentApproved (as_state rec') (clock st) = true.
Proof.
  cbv zeta. intros Hauth Ht Hwf Hrec Hst Hrev Harc Hm Hun Hold.
  pose proof (find_row_Some _ _ _ _ Hrec) as (Hin & Hid & Hten).
  unfold approveSafeRecipient, approveSafeRecipientAssessment, assertFamily, assertFields, loadAssessment, actorMembershipId.
  rewrite Hauth. cbn [di_keys di_reason di_validUntil]. rewrite Hun.
  unfold withTenant, nonempty. rewrite (proj2 (String.eqb_neq _ _) Ht). cbn [negb].
  assert (Hnot : undecided_status (as_status rec) = false) by (by destruct Hst as [-> | ->]).
  unfold result, after, mbind, tx_bind, mret, tx_ret, get, throw_if, found, bad_reason_code, update_assessment, write_audit, put.
  cbn -[undecided_status find_row update_row membership_of as_revokedAt as_archivedAt]. rewrite Hrec.
  cbn -[undecided_status find_row update_row membership_of as_revokedAt as_archivedAt]. rewrite Hnot, Hrev, Harc.
  cbn -[find_row update_row membership_of]. rewrite Hm. cbn -[find_row update_row].
  unfold as_revokedAt, as_archivedAt in Hrev, Harc.
  split; [done|]. split; [done|].
  set (f := set_assessment_approved (clock st) (m_id m) until None). exists (f rec). split.
  - apply find_update; [by intros ?|done].
  - unfold Disclosure.isSafeRecipientAssessmentApproved, f, set_assessment_approved, with_assessment.
    cbn -[Disclosure.has_ended]. rewrite Hrev, Harc. cbn -[Disclosure.has_ended].
    destruct until as [u|]; cbn -[Disclosure.has_ended]; [by rewrite Hun|by rewrite Hold].
Qed.

(** * Concrete runs *)

(** A family with two guardians of one child: [u1] (an admin, hence a guardian of
    the family) behind relationship [r1], and [u2] behind [r2]; [u0] is the owner. *)
Definition rel_row (id guardian : string) : relationship :=
  {| r_id := id; r_tenant := "t"; r_status := "pending"; r_type := "parent"; r_profile := "p";
     r_guardian := guardian; r_revokedAt := None; r_archivedAt := None |}.
Definition member_row (id user role_ : string) : membership := {| m_id := id; m_tenant := "t"; m_userId := user; m_role := role_ |}.
Definition family0 : family_db :=
  {| relationships := [rel_row "r1" "m1"; rel_row "r2" "m2"];
     profiles := [{| pr_id := "p"; pr_tenant := "t"; pr_status := "active"; pr_archivedAt := None |}];
     memberships := [member_row "m0" "u0" "owner"; member_row "m1" "u1" "admin"; member_row "m2" "u2" "admin"];
     authorities := []; consents := []; assessments := []; signals := []; decisions := []; deliveries := [];
     audit_log := []; outbox := [] |}.
Definition actor_of (user role_ : string) : FamilyActorContext :=
  {| tenantId := "t"; userId := user; role := role_; workspaceKind := "family" |}.
Definition at_time (id : string) (t : Z) : stamp := {| newId := id; eventId := "e" +:+ id; clock := t |}.
Definition create_input (rel : string) : authority_input :=
  {| ai_keys := ["guardianRelationshipId"; "authorityType"]; ai_rel := rel; ai_type := "legal_guardian"; ai_level := "";
     ai_validFrom := None; ai_validUntil := None; ai_attestation := None |}.
Definition grant_input (rel : string) : authority_input :=
  {| ai_keys := ["guardianRelationshipId"; "authorityType"; "authorityLevel"; "attestation"]; ai_rel := rel;
     ai_type := "legal_guardian"; ai_level := "full"; ai_validFrom := None; ai_validUntil := None; ai_attestation := Some true |}.
Definition verify_now : verify_input := {| vi_keys := []; vi_method := None; vi_validUntil := None |}.

(** A guardian makes their own authority effective: the life cycle refuses the
    grant, to a guardian by role and to the owner as self-management, but creating
    a record for one's own relationship and verifying it succeeds. *)
Theorem self_verified_authority (sha256 : string -> string) :
  let guardian := actor_of "u1" "admin" in
  let final := run_requests sha256
    [(at_time "a1" 10, guardian, CreateAuthority (create_input "r1")); (at_time "x" 20, guardian, VerifyAuthority "a1" verify_now)] family0 in
  result (grantGuardianAuthority sha256 (at_time "a2" 5) guardian (grant_input "r1") 5) family0 = Throw (FamilyForbiddenError "role_forbidden") /\
  result (grantGuardianAuthority sha256 (at_time "a2" 5) (actor_of "u1" "owner") (grant_input "r1") 5) family0 =
    Throw (FamilyValidationError "self_management_forbidden") /\
  result (evaluateEffectiveGuardianAuthority guardian "r1" 30) final = Ret (true, Some "read_only", effective).
Proof. cbv zeta. split; [|split]; vm_compute; reflexivity. Qed.

(** Verification can open a second authority for a relationship. *)
Theorem verification_second_authority (sha256 : string -> string) :
  let owner := actor_of "u0" "owner" in
  let final := run_requests sha256
    [(at_time "a1" 10, owner, GrantAuthority (grant_input "r1") 10); (at_time "a2" 20, owner, CreateAuthority (create_input "r1"));
     (at_time "x" 30, owner, VerifyAuthority "a2" verify_now)] family0 in
  length (open_authorities final "t" "r1") = 2%nat.
Proof. vm_compute. reflexivity. Qed.

(** The second guardian holds authority and an approved assessment; consent was
    granted to the first guardian alone. *)
Definition consent_input_of (rel : string) : consent_input :=
  {| ci_keys := ["protectedProfileId"; "guardianRelationshipId"; "consentType"]; ci_profile := "p"; ci_rel := Some rel;
     ci_type := "guardian"; ci_validFrom := None; ci_validUntil := None |}.
Definition no_decision : decide_input := {| di_keys := []; di_reason := None; di_validUntil := None |}.
Definition leak_run : list request :=
  let owner := actor_of "u0" "owner" in
  [(at_time "a1" 10, owner, GrantAuthority (grant_input "r2") 10);
   (at_time "c1" 20, owner, GrantGuardianConsent (consent_input_of "r1") "r1" 20);
   (at_time "s1" 30, owner, RequestAssessment ["guardianRelationshipId"; "purpose"] "r2" "emergency_contact");
   (at_time "x" 40, owner, ApproveRecipient "s1" no_decision 40)].
Definition leaked (sha256 : string -> string) : family_db := run_requests sha256 leak_run family0.

Lemma family0_wf : store_wf family0.
Proof. split; try (by constructor); by intros ? []. Qed.

Lemma family_grants_provable_witness :
  let final := run_requests (fun s => s) leak_run family0 in
  NoDup (map co_id (consents final)) /\
  forall c, In c (consents final) -> co_status c = "active" \/ co_status c = "suspended" -> Disclosure.grantedAt (co_state c) <> None.
Proof.
  cbv zeta.
  assert (Hf : fresh_run (fun s => s) family0 leak_run).
  { repeat split; vm_compute; intuition congruence. }
  split.
  - exact (proj1 (proj2 (proj2 (proj2 (family_grants_provable (fun s => s) leak_run family0 family0_wf Hf))))).
  - intros c Hc Hs. exact (proj1 (proj1 (family_grants_provable (fun s => s) leak_run family0 family0_wf Hf) c Hc Hs)).
Defined.

Definition revoked_run : list request := [(at_time "x" 50, actor_of "u0" "owner", RevokeAuthority "a1")].
Definition later_run : list request :=
  [(at_time "y" 60, actor_of "u1" "admin", VerifyAuthority "a1" verify_now); (at_time "z" 70, actor_of "u0" "owner", ResumeAuthority "a1" 70)].

Lemma family_revocation_final_witness :
  let db := run_requests (fun s => s) (leak_run ++ revoked_run) family0 in
  map au_id (authorities (run_requests (fun s => s) later_run db)) = ["a1"] /\
  forall a, In a (authorities (run_requests (fun s => s) later_run db)) -> au_id a = "a1" ->
    Disclosure.isGuardianAuthorityActive (au_state a) 80 = false.
Proof.
  cbv zeta. split; [vm_compute; reflexivity|]. intros a Ha Hid.
  assert (Hw : store_wf (run_requests (fun s => s) (leak_run ++ revoked_run) family0)).
  { apply store_wf_run; [|exact family0_wf]. repeat split; vm_compute; intuition congruence. }
  assert (Hf : fresh_run (fun s => s) (run_requests (fun s => s) (leak_run ++ revoked_run) family0) later_run).
  { repeat split; vm_compute; intuition congruence. }
  assert (H0 : exists a0, In a0 (authorities (run_requests (fun s => s) (leak_run ++ revoked_run) family0)) /\
    au_id a0 = "a1" /\ au_revokedAt a0 <> None).
  { eexists. split; [vm_compute; left; reflexivity|]. split; [reflexivity|vm_compute; discriminate]. }
  destruct H0 as (a0 & Hin & Hid0 & Hrev).
  refine (proj1 (family_revocation_final (fun s => s) later_run _ Hw Hf) a0 Hin Hrev a 80 Ha _). congruence.
Defined.

Lemma family_authority_single_witness :
  single_authority (after (exec (fun s => s) (at_time "a9" 90) (actor_of "u0" "owner") (GrantAuthority (grant_input "r1") 90)) family0).
Proof.
  apply family_authority_single; [exact family0_wf|intros t r; simpl; lia|discriminate].
Defined.

Lemma safety_information_exact_witness :
  exists d, result (canReceiveSafetyInformation (actor_of "u0" "owner") "r2" "guardian" 50) (leaked (fun s => s)) = Ret d /\ fst d = true.
Proof.
  destruct (safety_information_exact (actor_of "u0" "owner") "r2" "guardian" 50 (leaked (fun s => s)) eq_refl ltac:(discriminate)) as (d & Hd & _).
  exists d. split; [exact Hd|]. vm_compute in Hd. injection Hd as <-. reflexivity.
Defined.

Lemma safe_recipient_exact_witness :
  exists d, result (evaluateSafeRecipientAssessment (actor_of "u0" "owner") "r2" "emergency_contact" 50) (leaked (fun s => s)) = Ret d /\ safe d = false.
Proof.
  destruct (safe_recipient_exact (actor_of "u0" "owner") "r2" "emergency_contact" 50 (leaked (fun s => s)) eq_refl ltac:(discriminate)) as (d & Hd & _).
  exists d. split; [exact Hd|]. vm_compute in Hd. injection Hd as <-. reflexivity.
Defined.

Lemma consent_leaks_across_guardians_witness :
  result (canReceiveSafetyInformation (actor_of "u0" "owner") "r2" "guardian" 50) (leaked (fun s => s)) = Ret (true, []).
Proof.
  refine (proj2 (consent_leaks_across_guardians (actor_of "u0" "owner") "r2" "guardian" 50 (leaked (fun s => s)) (rel_row "r2" "m2")
    eq_refl _ _ eq_refl _ _ _ _ _ _)); [discriminate|vm_compute; reflexivity|vm_compute; reflexivity|vm_compute; discriminate| | | |].
  - apply active_authority_iff. vm_compute. reflexivity.
  - apply approved_assessment_iff. vm_compute. reflexivity.
  - rewrite <- effective_consent_iff. vm_compute. discriminate.
  - exists "r1". split; [discriminate|]. apply effective_consent_iff. vm_compute. reflexivity.
Defined.

Definition closed_run : list request := leak_run ++ [(at_time "x" 50, actor_of "u0" "owner", ExpireRecipient "s1")].
Lemma closed_assessment_reapproved_witness :
  result (approveSafeRecipientAssessment (at_time "y" 60) (actor_of "u0" "owner") "s1"
    {| di_keys := ["validUntil"]; di_reason := None; di_validUntil := Some 100 |}) (run_requests (fun s => s) closed_run family0) = Ret tt.
Proof.
  assert (Hw : store_wf (run_requests (fun s => s) closed_run family0)).
  { apply store_wf_run; [|exact family0_wf]. repeat split; vm_compute; intuition congruence. }
  assert (Hrec : exists rec, find_row (assessments (run_requests (fun s => s) closed_run family0)) "t" "s1" = Some rec /\
    as_status rec = "expired" /\ as_revokedAt rec = None /\ as_archivedAt rec = None /\
    Disclosure.has_ended (Disclosure.s_validUntil (as_state rec)) 60 = false).
  { eexists. split; [vm_compute; reflexivity|]. repeat split. }
  destruct Hrec as (rec & H1 & H2 & H3 & H4 & H5).
  exact (proj1 (proj2 (closed_assessment_reapproved (at_time "y" 60) (actor_of "u0" "owner") "s1" (Some 100) _ rec
    (member_row "m0" "u0" "owner") eq_refl ltac:(discriminate) Hw H1 (or_intror H2) H3 H4 eq_refl eq_refl H5))).
Defined.

End Guardianship.
