(* ===== verification/Recipients.v ===== *)
(** Disclosure decisions and internal deliveries
    ([packages/db/src/child-safety-recipient-authorization.ts],
    [packages/db/src/child-safety-delivery.ts]): who may learn what about a safety
    signal, the recorded decisions with their live re-evaluation, and the delivery
    state machine behind them. *)
From S2P Require Import Prelude Access Workspace Disclosure Outbox FamilyStore Guardianship.
Open Scope string_scope.
Open Scope list_scope.
Open Scope Z_scope.
Open Scope tam_scope.

Module Recipients.
Import Disclosure Workspace FamilyStore Guardianship.

(** * The authorization decision *)

Definition RECIPIENT_AUTHORIZATION_EVALUATE_FIELDS : list string :=
  ["safetySignalId"; "recipientMembershipId"; "guardianRelationshipId"; "consentType"; "requestedScopes"].
Definition RECIPIENT_AUTHORIZATION_CREATE_FIELDS : list string :=
  ["safetySignalId"; "recipientMembershipId"; "guardianRelationshipId"; "consentType"; "requestedScopes"; "validUntil"].

(** An input carries its own keys beside the fields read. *)
(* src: packages/db/src/child-safety-recipient-authorization.ts:74-77 RecipientAuthorizationInput *)
Record RecipientAuthorizationInput := {
  ri_keys : list string; ri_signal : string; ri_recipient : string; ri_rel : string;
  ri_scopes : option (list string); ri_validUntil : option Z }.

(** The ids a decision records. *)
Record record_ids := {
  ids_signal : string; ids_profile : string; ids_recipient : string; ids_rel : option string;
  ids_authority : option string; ids_consent : option string; ids_assessment : option string }.

(* src: packages/db/src/child-safety-recipient-authorization.ts:59-72 RecipientAuthorizationEvaluation *)
Record RecipientAuthorizationEvaluation := {
  ev_authorized : bool; ev_status : RecipientAuthorizationDecisionStatus; ev_reason : RecipientAuthorizationReasonCode;
  ev_scopes : list SafetyDisclosureScope; ev_ids : record_ids; ev_at : Z; ev_validUntil : option Z }.

(* src: packages/db/src/child-safety-recipient-authorization.ts:79-81 deny *)
Definition deny (reason : RecipientAuthorizationReasonCode) (ids : record_ids) (now : Z) : RecipientAuthorizationEvaluation :=
  {| ev_authorized := false; ev_status := DecisionDenied; ev_reason := reason; ev_scopes := []; ev_ids := ids;
     ev_at := now; ev_validUntil := None |}.

(* src: packages/db/src/child-safety-recipient-authorization.ts:82-86 minDate *)
Definition minDate (dates : list (option Z)) : option Z :=
  match omap id dates with
  | [] => None
  | d :: r => Some (fold_left (fun a b => if a <=? b then a else b) r d)
  end.

(** [requestedScopes !== undefined && !requestedScopes.every(isSafetyDisclosureScope)] *)
Definition bad_scopes (scopes : option (list string)) : bool :=
  match scopes with Some l => negb (forallb isSafetyDisclosureScope l) | None => false end.
(** The requested scopes, once validated. *)
Definition as_scopes (scopes : option (list string)) : list SafetyDisclosureScope := omap parse (scopes ?? []).

Definition recipient_chain (actor : FamilyActorContext) (r : relationship) (au : option authority) (co : option consent)
    (sa : option assessment) : SafetyRecipientChain :=
  {| Disclosure.workspaceKind := workspaceKind actor; relationshipActive := isActiveGuardianRelationship r;
     relationshipType := r_type r; membershipActiveSameTenant := true; authorityActive := is_some au;
     consentEffective := is_some co; assessmentApproved := is_some sa |}.

(** The last part of the evaluation, once the chain is complete. *)
(* src: packages/db/src/child-safety-recipient-authorization.ts:134-145 evaluateRecipientAuthorization *)
Definition authorize_scopes (sg : signal) (input : RecipientAuthorizationInput) (ids : record_ids) (au : option authority)
    (co : option consent) (sa : option assessment) (now : Z) : M RecipientAuthorizationEvaluation :=
  match maxDisclosureScopesForSignal (sg_severity sg) (sg_type sg) with
  | Throw _ => throw (OtherError "TypeError")
  | Ret maxScopes =>
      let requested := as_scopes (ri_scopes input) in
      let narrowed := negb (length requested =? 0)%nat in
      if narrowed && negb (scopesWithin requested maxScopes) then mret (deny CodeConsentScopeInsufficient ids now)
      else
        mret {| ev_authorized := true; ev_status := DecisionAuthorized; ev_reason := CodeCompleteAuthorizationChain;
                ev_scopes := if narrowed then requested else maxScopes; ev_ids := ids; ev_at := now;
                ev_validUntil := minDate [obind au (fun a => a_validUntil (au_state a)); obind co (fun c => c_validUntil (co_state c));
                                          obind sa (fun s => s_validUntil (as_state s)); ri_validUntil input] |}
  end.

(* src: packages/db/src/child-safety-recipient-authorization.ts:92-146 evaluateRecipientAuthorization *)
Definition evaluateRecipientAuthorization (actor : FamilyActorContext) (input : RecipientAuthorizationInput) (now : Z) :
    M RecipientAuthorizationEvaluation :=
  assertFamily actor SafetyRecipientAuthorizationEvaluate;;
  assertFields (ri_keys input) RECIPIENT_AUTHORIZATION_EVALUATE_FIELDS;;
  throw_if (bad_scopes (ri_scopes input)) (FamilyValidationError "requestedScopes");;
  let ids0 profile rel au co sa := {| ids_signal := ri_signal input; ids_profile := profile; ids_recipient := ri_recipient input;
    ids_rel := rel; ids_authority := au; ids_consent := co; ids_assessment := sa |} in
  db ← withTenant (tenantId actor) get;
  match find_row (signals db) (tenantId actor) (ri_signal input) with
  | None => mret (deny CodeTenantMismatch (ids0 "" None None None None) now)
  | Some sg =>
      let mem := find_row (memberships db) (tenantId actor) (ri_recipient input) in
      let rel := find_row (relationships db) (tenantId actor) (ri_rel input) in
      let ids := ids0 (sg_profile sg) (option_map r_id rel) None None None in
      if is_some (sg_archivedAt sg) then mret (deny CodeSignalArchived ids now)
      else match mem with
      | None => mret (deny CodeInactiveMembership ids now)
      | Some m =>
          if negb (isRecipientEligibleFamilyRole (js_name (familyRoleForMembershipRole (m_role m))))
          then mret (deny CodeRecipientRoleNotAllowed ids now)
          else match rel with
          | None => mret (deny CodeNoActiveGuardianRelationship ids now)
          | Some r =>
              if negb (r_profile r =s sg_profile sg) then mret (deny CodeProfileMismatch ids now)
              else if negb (r_guardian r =s ri_recipient input) then mret (deny CodeNoActiveGuardianRelationship ids now)
              else
                au ← getEffectiveGuardianAuthority actor (ri_rel input) now;
                co ← getEffectiveConsent actor (sg_profile sg) (js_name CTGuardian) now;
                sa ← getEffectiveSafeRecipientEligibility actor (ri_rel input) now;
                let snapshotIds := ids0 (sg_profile sg) (Some (r_id r)) (option_map au_id au) (option_map co_id co) (option_map as_id sa) in
                let '(ok, reasons) := evaluateCanReceiveSafetyInformation (recipient_chain actor r au co sa) in
                if negb ok then
                  mret (deny (reasonCodeForDenyReason (List.hd deny_assessment_not_approved reasons)) snapshotIds now)
                else authorize_scopes sg input snapshotIds au co sa now
          end
      end
  end.

Definition decision_target : string := "recipient_authorization_decision".
Definition load_decision (actor : FamilyActorContext) (id : string) (kind : FamilyError) : M decision :=
  db ← get; found (find_row (decisions db) (tenantId actor) id) kind.

Section Decisions.
(** [sha256], in hex, as the outbox uses it. *)
Context (sha256 : string -> string).

(** Enqueue one notification event, in the same transaction. *)
Definition enqueue (st : stamp) (actor : FamilyActorContext) (type idKey sourceId version : string) (at_ : Z) : M () :=
  db ← get;
  match Outbox.enqueueFamilyNotificationOutboxEventTx sha256 (eventId st) (clock st)
          {| Outbox.tenantId := tenantId actor; Outbox.notificationType := type; Outbox.source := [(idKey, sourceId)];
             Outbox.eventVersion := version; Outbox.occurredAt := at_ |} (outbox db) with
  | (t, Ret _) => put (set_outbox t db)
  | (_, Throw e) => throw (OtherError e)
  end.

(* src: packages/db/src/child-safety-recipient-authorization.ts:150-186 createRecipientAuthorizationDecision *)
Definition createRecipientAuthorizationDecision (st : stamp) (actor : FamilyActorContext) (input : RecipientAuthorizationInput) (now : Z) : M decision :=
  assertFamily actor SafetyRecipientAuthorizationCreate;;
  assertFields (ri_keys input) RECIPIENT_AUTHORIZATION_CREATE_FIELDS;;
  actorMid ← withTenant (tenantId actor) (actorMembershipId actor);
  throw_if ((actorMid =s ri_recipient input) && negb (familyRoleForMembershipRole (role actor) =e PrimaryGuardian))
    (FamilyForbiddenError "role_forbidden");;
  ev ← evaluateRecipientAuthorization actor input now;
  withTenant (tenantId actor) (
    let ids := ev_ids ev in
    let row := {|
      de_id := newId st; de_tenant := tenantId actor; de_signal := ids_signal ids; de_profile := ids_profile ids;
      de_recipient := ids_recipient ids; de_rel := ids_rel ids; de_authority := ids_authority ids; de_consent := ids_consent ids;
      de_assessment := ids_assessment ids; de_scope := serializeDisclosureScopes (ev_scopes ev); de_reason := js_name (ev_reason ev);
      de_evaluatedAt := ev_at ev;
      de_state := {| decisionStatus := js_name (ev_status ev); d_validUntil := ev_validUntil ev; d_revokedAt := None;
                     d_supersededAt := None; d_archivedAt := None |};
      de_createdAt := clock st |} in
    db ← get;
    put (set_decisions (decisions db ++ [row]) db);;
    write_audit actor "child_safety.recipient_authorization.evaluated" decision_target (de_id row);;
    write_audit actor "child_safety.recipient_authorization.created" decision_target (de_id row);;
    write_audit actor (if ev_authorized ev then "child_safety.recipient_authorization.authorized"
                       else "child_safety.recipient_authorization.denied") decision_target (de_id row);;
    enqueue st actor "family_recipient_authorization_changed" "authorizationDecisionId" (de_id row) (de_id row) (de_evaluatedAt row);;
    mret row).

(** Newest first, equal creation times by falling id. *)
Definition newest_first_id {R} (createdAt : R -> Z) (ident : R -> string) (rows : list R) : list R :=
  js_sort (fun a b => if createdAt b - createdAt a =? 0
    then (if str_ltb (ident b) (ident a) then -1 else if str_ltb (ident a) (ident b) then 1 else 0)
    else createdAt b - createdAt a) rows.

(** The authorized decisions for (signal, recipient) with no end mark, newest first. *)
Definition standing_decisions (db : family_db) (tenant signalId recipient : string) : list decision :=
  newest_first_id de_createdAt de_id (List.filter (fun d =>
    (de_tenant d =s tenant) && (de_signal d =s signalId) && (de_recipient d =s recipient) &&
    (decisionStatus (de_state d) =s js_name DecisionAuthorized) && is_none (d_revokedAt (de_state d)) &&
    is_none (d_supersededAt (de_state d)) && is_none (d_archivedAt (de_state d))) (decisions db)).

Definition reevaluation_input (signalId recipient rel : string) : RecipientAuthorizationInput :=
  {| ri_keys := ["safetySignalId"; "recipientMembershipId"; "guardianRelationshipId"]; ri_signal := signalId;
     ri_recipient := recipient; ri_rel := rel; ri_scopes := None; ri_validUntil := None |}.

(* src: packages/db/src/child-safety-recipient-authorization.ts:224-235 getEffectiveRecipientAuthorization *)
Definition getEffectiveRecipientAuthorization (actor : FamilyActorContext) (signalId recipient : string) (now : Z) : M (option decision) :=
  assertFamily actor SafetyRecipientAuthorizationView;;
  db ← withTenant (tenantId actor) get;
  match List.find (fun d => isRecipientAuthorizationDecisionRowEffective (de_state d) now)
          (standing_decisions db (tenantId actor) signalId recipient) with
  | None => mret None
  | Some d =>
      if negb (truthy (de_rel d)) then mret None
      else
        live ← evaluateRecipientAuthorization actor (reevaluation_input signalId recipient (de_rel d ?? "")) now;
        mret (if ev_authorized live then Some d else None)
  end.

(** Mark a decision revoked or superseded. *)
Definition with_decision (s : RecipientAuthorizationDecisionState) (reason : RecipientAuthorizationReasonCode) (d : decision) : decision :=
  {| de_id := de_id d; de_tenant := de_tenant d; de_signal := de_signal d; de_profile := de_profile d; de_recipient := de_recipient d;
     de_rel := de_rel d; de_authority := de_authority d; de_consent := de_consent d; de_assessment := de_assessment d;
     de_scope := de_scope d; de_reason := js_name reason; de_evaluatedAt := de_evaluatedAt d; de_state := s; de_createdAt := de_createdAt d |}.
Definition set_decision_revoked (at_ : Z) (d : decision) : decision :=
  let s := de_state d in
  with_decision {| decisionStatus := js_name DecisionRevoked; d_validUntil := d_validUntil s; d_revokedAt := Some at_;
    d_supersededAt := d_supersededAt s; d_archivedAt := d_archivedAt s |} CodeAuthorizationRevoked d.
Definition set_decision_superseded (at_ : Z) (d : decision) : decision :=
  let s := de_state d in
  with_decision {| decisionStatus := js_name DecisionSuperseded; d_validUntil := d_validUntil s; d_revokedAt := d_revokedAt s;
    d_supersededAt := Some at_; d_archivedAt := d_archivedAt s |} CodeSupersededByNewDecision d.

Definition update_decision (actor : FamilyActorContext) (id : string) (f : decision -> decision) : M () :=
  db ← get; put (set_decisions (update_row (tenantId actor) id f (decisions db)) db).

(* src: packages/db/src/child-safety-recipient-authorization.ts:239-252 revokeRecipientAuthorizationDecision *)
Definition revokeRecipientAuthorizationDecision (st : stamp) (actor : FamilyActorContext) (id : string) : M () :=
  assertFamily actor SafetyRecipientAuthorizationRevoke;;
  withTenant (tenantId actor) (
    existing ← load_decision actor id (FamilyNotFoundError assessment_target);
    if is_some (d_revokedAt (de_state existing)) then mret tt
    else
      update_decision actor id (set_decision_revoked (clock st));;
      write_audit actor "child_safety.recipient_authorization.revoked" decision_target id;;
      enqueue st actor "family_recipient_authorization_changed" "authorizationDecisionId" id
        ("rev:" +:+ Outbox.string_of_int (clock st)) (clock st)).

(* src: packages/db/src/child-safety-recipient-authorization.ts:255-266 supersedeRecipientAuthorizationDecision *)
Definition supersedeRecipientAuthorizationDecision (st : stamp) (actor : FamilyActorContext) (id : string) : M () :=
  assertFamily actor SafetyRecipientAuthorizationCreate;;
  withTenant (tenantId actor) (
    existing ← load_decision actor id (FamilyNotFoundError assessment_target);
    if is_some (d_supersededAt (de_state existing)) then mret tt
    else
      update_decision actor id (set_decision_superseded (clock st));;
      write_audit actor "child_safety.recipient_authorization.superseded" decision_target id;;
      enqueue st actor "family_recipient_authorization_changed" "authorizationDecisionId" id
        ("sup:" +:+ Outbox.string_of_int (clock st)) (clock st)).

(** * Deliveries *)

Definition SAFETY_DELIVERY_EVALUATE_FIELDS : list string := ["recipientAuthorizationDecisionId"; "requestedScopes"].
Definition SAFETY_DELIVERY_CREATE_FIELDS : list string :=
  ["recipientAuthorizationDecisionId"; "idempotencyKey"; "requestedScopes"; "recommendedActionClass"; "deliveryChannel"].

(* src: packages/db/src/child-safety-delivery.ts:76-76 DeliveryInput *)
Record DeliveryInput := {
  dv_keys : list string; dv_decision : string; dv_scopes : option (list string); dv_key : option string;
  dv_action : option string; dv_channel : option string }.

(* src: packages/db/src/child-safety-delivery.ts:66-75 DeliveryEligibility *)
Record DeliveryEligibility := {
  el_eligible : bool; el_reason : string; el_decision : option string; el_recipient : string;
  el_scopes : list SafetyDisclosureScope; el_requested : list SafetyDisclosureScope; el_evaluatedAt : Z; el_validUntil : option Z }.

Definition valid_reason : string := "valid_effective_authorization".
Definition eligibility (requested : list SafetyDisclosureScope) (now : Z) (reason recipient : string) (scopes : list SafetyDisclosureScope)
    (decisionId : option string) (until : option Z) : DeliveryEligibility :=
  {| el_eligible := reason =s valid_reason; el_reason := reason; el_decision := decisionId; el_recipient := recipient;
     el_scopes := scopes; el_requested := requested; el_evaluatedAt := now; el_validUntil := until |}.

(* src: packages/db/src/child-safety-delivery.ts:79-104 evaluateSafetySignalDeliveryEligibility *)
Definition evaluateSafetySignalDeliveryEligibility (actor : FamilyActorContext) (keys : list string) (decisionId : string)
    (scopes : option (list string)) (now : Z) : M DeliveryEligibility :=
  assertFamily actor SafetyDeliveryCreate;;
  assertFields keys SAFETY_DELIVERY_EVALUATE_FIELDS;;
  throw_if (bad_scopes scopes) (FamilyValidationError "requestedScopes");;
  let requested := as_scopes scopes in
  let base := eligibility requested now in
  db ← withTenant (tenantId actor) get;
  match find_row (decisions db) (tenantId actor) decisionId with
  | None => mret (base "authorization_not_found" "" [] None None)
  | Some d =>
      let no reason := mret (base reason (de_recipient d) [] None None) in
      if is_some (d_revokedAt (de_state d)) then no "authorization_revoked"
      else if is_some (d_supersededAt (de_state d)) then no "authorization_superseded"
      else if is_some (d_archivedAt (de_state d)) then no "authorization_archived"
      else if negb (decisionStatus (de_state d) =s "authorized") then no "authorization_not_effective"
      else
        eff ← getEffectiveRecipientAuthorization actor (de_signal d) (de_recipient d) now;
        match eff with
        | None => no "authorization_not_effective"
        | Some e =>
            if negb (de_id e =s de_id d) then no "authorization_superseded"
            else
              let allowed := snd (parseDisclosureScopes (Some (de_scope e))) in
              let narrowed := negb (length requested =? 0)%nat in
              if narrowed && negb (scopesWithin requested allowed)
              then mret (base "scope_not_authorized" (de_recipient d) [] (Some (de_id d)) None)
              else mret (base valid_reason (de_recipient d) (if narrowed then requested else allowed) (Some (de_id d))
                           (d_validUntil (de_state e)))
        end
  end.

Definition delivery_target : string := "safety_signal_delivery".
Definition SAFETY_RECOMMENDED_ACTION_CLASSES : list string :=
  ["review_with_guardian"; "contact_safety_professional"; "preserve_calm_and_verify"; "discuss_with_protected_person";
   "follow_platform_safety_guidance"; "no_immediate_action"].

Definition same_delivery (tenant decisionId recipient key : string) (d : delivery) : bool :=
  (dl_tenant d =s tenant) && (dl_decision d =s decisionId) && (dl_recipient d =s recipient) && (dl_key d =s key).

(* src: packages/db/src/child-safety-delivery.ts:108-152 createSafetySignalDelivery *)
Definition createSafetySignalDelivery (st : stamp) (actor : FamilyActorContext) (input : DeliveryInput) (now : Z) : M delivery :=
  assertFamily actor SafetyDeliveryCreate;;
  assertFields (dv_keys input) SAFETY_DELIVERY_CREATE_FIELDS;;
  throw_if (negb (isValidDeliveryIdempotencyKey (dv_key input))) (FamilyValidationError "idempotencyKey");;
  let channel := dv_channel input ?? js_name InternalInbox in
  throw_if (negb (isSafetyDeliveryChannel channel) || negb (channel =s js_name InternalInbox)) (FamilyValidationError "deliveryChannel");;
  throw_if (match dv_action input with Some a => negb (includes SAFETY_RECOMMENDED_ACTION_CLASSES a) | None => false end)
    (FamilyValidationError "recommendedActionClass");;
  let key := dv_key input ?? "" in
  db0 ← withTenant (tenantId actor) get;
  d ← found (find_row (decisions db0) (tenantId actor) (dv_decision input)) (DeliveryNotEligibleError "authorization_not_found");
  actorMid ← withTenant (tenantId actor) (actorMembershipId actor);
  throw_if ((actorMid =s de_recipient d) && negb (familyRoleForMembershipRole (role actor) =e PrimaryGuardian))
    (FamilyForbiddenError "role_forbidden");;
  el ← evaluateSafetySignalDeliveryEligibility actor ["recipientAuthorizationDecisionId"; "requestedScopes"] (dv_decision input) (dv_scopes input) now;
  throw_if (negb (el_eligible el)) (DeliveryNotEligibleError (el_reason el));;
  throw_if (is_some (dv_action input) && negb (bool_decide (RecommendedActionClass ∈ el_scopes el))) (DeliveryNotEligibleError "scope_not_authorized");;
  withTenant (tenantId actor) (
    db ← get;
    match List.find (same_delivery (tenantId actor) (de_id d) (de_recipient d) key) (deliveries db) with
    | Some existing => mret existing
    | None =>
        sg ← found (find_row (signals db) (tenantId actor) (de_signal d)) (DeliveryNotEligibleError "signal_archived");
        let row := {|
          dl_id := newId st; dl_tenant := tenantId actor; dl_signal := de_signal d; dl_profile := de_profile d; dl_decision := de_id d;
          dl_recipient := de_recipient d; dl_channel := channel; dl_scope := serializeDisclosureScopes (el_scopes el);
          dl_type := sg_type sg; dl_severity := sg_severity sg; dl_bucket := sg_bucket sg; dl_action := dv_action input; dl_key := key;
          dl_state := {| deliveryStatus := js_name DeliveryPrepared; v_expiredAt := None; v_revokedAt := None; v_supersededAt := None;
                         v_archivedAt := None; v_declinedAt := None; v_failedAt := None |};
          dl_availableAt := None; dl_acknowledgedAt := None; dl_acknowledgedBy := None; dl_declinedBy := None; dl_createdAt := clock st |} in
        put (set_deliveries (deliveries db ++ [row]) db);;
        write_audit actor "child_safety.delivery.evaluated" delivery_target (dl_id row);;
        write_audit actor "child_safety.delivery.created" delivery_target (dl_id row);;
        mret row
    end).

(* src: packages/db/src/child-safety-delivery.ts:156-161 getSafetySignalDelivery *)
Definition getSafetySignalDelivery (actor : FamilyActorContext) (id : string) : M delivery :=
  assertFamily actor SafetyDeliveryView;;
  withTenant (tenantId actor) (db ← get; found (find_row (deliveries db) (tenantId actor) id) (FamilyNotFoundError "safety_signal")).

(** The transitions the services perform, with the columns each writes. *)
Inductive delivery_act := MakeAvailable | Acknowledge | Decline | Revoke | Supersede | Archive.

Definition act_status (a : delivery_act) : SafetyDeliveryStatus :=
  match a with
  | MakeAvailable => DeliveryAvailable | Acknowledge => DeliveryAcknowledged | Decline => DeliveryDeclined
  | Revoke => DeliveryRevoked | Supersede => DeliverySuperseded | Archive => DeliveryArchived
  end.
Definition act_action (a : delivery_act) : FamilyAction :=
  match a with
  | MakeAvailable => SafetyDeliveryMakeAvailable | Acknowledge => SafetyDeliveryAcknowledge | Decline => SafetyDeliveryDecline
  | Revoke => SafetyDeliveryRevoke | Supersede => SafetyDeliveryCreate | Archive => SafetyDeliveryArchive
  end.
Definition act_event (a : delivery_act) : string :=
  match a with
  | MakeAvailable => "child_safety.delivery.available" | Acknowledge => "child_safety.delivery.acknowledged"
  | Decline => "child_safety.delivery.declined" | Revoke => "child_safety.delivery.revoked"
  | Supersede => "child_safety.delivery.superseded" | Archive => "child_safety.delivery.archived"
  end.
(** Only the recipient acknowledges or declines. *)
Definition recipient_only (a : delivery_act) : bool := match a with Acknowledge | Decline => true | _ => false end.
(** The notification a transition enqueues, if any. *)
Definition act_notification (a : delivery_act) : option string :=
  match a with
  | MakeAvailable => Some "family_delivery_available" | Acknowledge => Some "family_delivery_acknowledged"
  | Decline => Some "family_delivery_declined" | _ => None
  end.

Definition mark (b : bool) (now : Z) (o : option Z) : option Z := if b then Some now else o.
(* src: packages/db/src/child-safety-delivery.ts:215-270 makeSafetySignalDeliveryAvailable *)
Definition mutate (a : delivery_act) (now : Z) (mid : string) (d : delivery) : delivery :=
  let s := dl_state d in
  let moved x := bool_decide (act_status a = x) in
  {| dl_id := dl_id d; dl_tenant := dl_tenant d; dl_signal := dl_signal d; dl_profile := dl_profile d; dl_decision := dl_decision d;
     dl_recipient := dl_recipient d; dl_channel := dl_channel d; dl_scope := dl_scope d; dl_type := dl_type d; dl_severity := dl_severity d;
     dl_bucket := dl_bucket d; dl_action := dl_action d; dl_key := dl_key d;
     dl_state := {| deliveryStatus := js_name (act_status a); v_expiredAt := v_expiredAt s;
       v_revokedAt := mark (moved DeliveryRevoked) now (v_revokedAt s); v_supersededAt := mark (moved DeliverySuperseded) now (v_supersededAt s);
       v_archivedAt := mark (moved DeliveryArchived) now (v_archivedAt s); v_declinedAt := mark (moved DeliveryDeclined) now (v_declinedAt s);
       v_failedAt := v_failedAt s |};
     dl_availableAt := mark (moved DeliveryAvailable) now (dl_availableAt d);
     dl_acknowledgedAt := mark (moved DeliveryAcknowledged) now (dl_acknowledgedAt d);
     dl_acknowledgedBy := if moved DeliveryAcknowledged then Some mid else dl_acknowledgedBy d;
     dl_declinedBy := if moved DeliveryDeclined then Some mid else dl_declinedBy d; dl_createdAt := dl_createdAt d |}.

(* src: packages/db/src/child-safety-delivery.ts:187-204 transition *)
Definition transition (st : stamp) (actor : FamilyActorContext) (id : string) (a : delivery_act) (now : Z) : M delivery :=
  assertFamily actor (act_action a);;
  actorMid ← withTenant (tenantId actor) (actorMembershipId actor);
  withTenant (tenantId actor) (
    db ← get;
    existing ← found (find_row (deliveries db) (tenantId actor) id) (FamilyNotFoundError "safety_signal");
    throw_if (recipient_only a && negb (dl_recipient existing =s actorMid)) (FamilyForbiddenError "role_forbidden");;
    throw_if (negb (isValidSafetyDeliveryTransition (deliveryStatus (dl_state existing)) (js_name (act_status a))))
      (FamilyValidationError "invalid_status_transition");;
    put (set_deliveries (update_row (tenantId actor) id (mutate a now actorMid) (deliveries db)) db);;
    write_audit actor (act_event a) delivery_target id;;
    (match act_notification a with
     | Some type => enqueue st actor type "deliveryId" id (Outbox.string_of_int now) now
     | None => mret tt
     end);;
    mret (mutate a now actorMid existing)).

(** The deliveries for (signal, recipient) with no end mark, newest first. *)
Definition standing_deliveries (db : family_db) (tenant signalId recipient : string) : list delivery :=
  newest_first_id dl_createdAt dl_id (List.filter (fun d =>
    (dl_tenant d =s tenant) && (dl_signal d =s signalId) && (dl_recipient d =s recipient) &&
    is_none (v_revokedAt (dl_state d)) && is_none (v_supersededAt (dl_state d)) && is_none (v_archivedAt (dl_state d)) &&
    is_none (v_declinedAt (dl_state d)) && is_none (v_failedAt (dl_state d))) (deliveries db)).

(* src: packages/db/src/child-safety-delivery.ts:277-287 getEffectiveSafetySignalDelivery *)
Definition getEffectiveSafetySignalDelivery (actor : FamilyActorContext) (signalId recipient : string) (now : Z) : M (option delivery) :=
  assertFamily actor SafetyDeliveryView;;
  db ← withTenant (tenantId actor) get;
  match List.find (fun d => isSafetyDeliveryRowEffective (dl_state d) now) (standing_deliveries db (tenantId actor) signalId recipient) with
  | None => mret None
  | Some d =>
      auth ← getEffectiveRecipientAuthorization actor signalId recipient now;
      mret (match auth with Some _ => Some d | None => None end)
  end.

End Decisions.

(** * Properties *)

(** Every link between a signal and a recipient, as it stands in the tables. *)
Definition live_chain (db : family_db) (tenant signalId recipient rel : string) (now : Z) : Prop :=
  exists sg m r,
    find_row (signals db) tenant signalId = Some sg /\ sg_archivedAt sg = None /\
    find_row (memberships db) tenant recipient = Some m /\
    familyRoleForMembershipRole (m_role m) <> FamilyViewer /\
    find_row (relationships db) tenant rel = Some r /\ r_profile r = sg_profile sg /\ r_guardian r = recipient /\
    isActiveGuardianRelationship r = true /\ has_active_authority db tenant rel now /\
    has_effective_consent db tenant (sg_profile sg) "guardian" any_consent now /\
    has_approved_assessment db tenant rel (fun _ => true) now.

Lemma In_newest_first_id {R} (at_ : R -> Z) ident rows (r : R) : In r (newest_first_id at_ ident rows) <-> In r rows.
Proof. unfold newest_first_id. rewrite <- !list_elem_of_In. by rewrite js_sort_perm. Qed.

Lemma eligible_role_iff (f : FamilyRole) : isRecipientEligibleFamilyRole (js_name f) = true <-> f <> FamilyViewer.
Proof. destruct f; vm_compute; intuition congruence. Qed.

Lemma find_is_some_existsb {A} (p : A -> bool) l : is_some (List.find p l) = existsb p l.
Proof. induction l as [|x l IH]; simpl; [done|]. by destruct (p x). Qed.

Lemma getAuthority_Ret actor rel now db o db' :
  getEffectiveGuardianAuthority actor rel now db = Ret (o, db') ->
  db' = db /\ (is_some o = true <-> has_active_authority db (tenantId actor) rel now).
Proof.
  unfold getEffectiveGuardianAuthority. intros H. run_store. split; [done|].
  by rewrite <- active_authority_iff, <- find_is_some_existsb.
Qed.
Lemma getConsent_Ret actor profile type now db o db' :
  getEffectiveConsent actor profile type now db = Ret (o, db') ->
  db' = db /\ (is_some o = true <-> has_effective_consent db (tenantId actor) profile type any_consent now).
Proof.
  unfold getEffectiveConsent. intros H. run_store. split; [done|].
  by rewrite <- effective_consent_iff, <- find_is_some_existsb.
Qed.
Lemma getAssessment_Ret actor rel now db o db' :
  getEffectiveSafeRecipientEligibility actor rel now db = Ret (o, db') ->
  db' = db /\ (is_some o = true <-> has_approved_assessment db (tenantId actor) rel (fun _ => true) now).
Proof.
  unfold getEffectiveSafeRecipientEligibility. intros H. run_store. split; [done|].
  by rewrite <- approved_assessment_iff, <- find_is_some_existsb.
Qed.

Lemma minDate_le dates t : In (Some t) dates -> exists u, minDate dates = Some u /\ u <= t.
Proof.
  unfold minDate. intros Hin.
  assert (Ht : In t (omap id dates)).
  { induction dates as [|[x|] dates IH]; [by destruct Hin| |]; destruct Hin as [Hx|Hx]; simpl; try done.
    - injection Hx as ->. by left.
    - right. by apply IH.
    - by apply IH. }
  destruct (omap id dates) as [|d r]; [by destruct Ht|]. eexists. split; [done|].
  assert (Hfold : forall l a, fold_left (fun a b => if a <=? b then a else b) l a <= a /\
    forall x, In x l -> fold_left (fun a b => if a <=? b then a else b) l a <= x).
  { induction l as [|b l IH]; intros a; simpl; [split; [lia|tauto]|].
    destruct (IH (if a <=? b then a else b)) as [H1 H2].
    split; [destruct (Z.leb_spec a b); lia|]. intros x [->|Hx]; [destruct (Z.leb_spec a x); lia|by apply H2]. }
  destruct Ht as [->|Ht]; [exact (proj1 (Hfold r t))|exact (proj2 (Hfold r d) t Ht)].
Qed.

(** What an evaluation that returns says, and that it writes nothing. *)
Definition evaluation_spec (actor : FamilyActorContext) (input : RecipientAuthorizationInput) (now : Z) (db : family_db)
    (ev : RecipientAuthorizationEvaluation) : Prop :=
  (ev_authorized ev = true -> live_chain db (tenantId actor) (ri_signal input) (ri_recipient input) (ri_rel input) now) /\
  (live_chain db (tenantId actor) (ri_signal input) (ri_recipient input) (ri_rel input) now -> ri_scopes input = None -> ev_authorized ev = true) /\
  (ev_authorized ev = false -> ev_scopes ev = [] /\ ev_status ev = DecisionDenied) /\
  (ev_authorized ev = true -> exists sg max, find_row (signals db) (tenantId actor) (ri_signal input) = Some sg /\
     maxDisclosureScopesForSignal (sg_severity sg) (sg_type sg) = Ret max /\ forall s, s ∈ ev_scopes ev -> s ∈ max) /\
  (ev_authorized ev = true -> forall t, ri_validUntil input = Some t -> exists u, ev_validUntil ev = Some u /\ u <= t).

Lemma authorize_scopes_Ret sg input ids au co sa now db ev db' :
  authorize_scopes sg input ids au co sa now db = Ret (ev, db') ->
  db' = db /\ (ri_scopes input = None -> ev_authorized ev = true) /\
  (ev_authorized ev = false -> ev_scopes ev = [] /\ ev_status ev = DecisionDenied) /\
  (ev_authorized ev = true -> (exists max, maxDisclosureScopesForSignal (sg_severity sg) (sg_type sg) = Ret max /\
     forall s, s ∈ ev_scopes ev -> s ∈ max) /\
     forall t, ri_validUntil input = Some t -> exists u, ev_validUntil ev = Some u /\ u <= t).
Proof.
  unfold authorize_scopes. destruct (maxDisclosureScopesForSignal _ _) as [max|e] eqn:Hmax; [|done].
  destruct (negb (length (as_scopes (ri_scopes input)) =? 0)%nat) eqn:Hn; cbn [andb].
  - destruct (scopesWithin _ max) eqn:Hw; cbn [negb]; intros [-> ->]%mret_Ret.
    + split; [done|]. split; [done|]. split; [done|]. intros _. split.
      * exists max. split; [done|]. intros s Hs. unfold scopesWithin in Hw. rewrite forallb_forall in Hw.
        apply list_elem_of_In in Hs. specialize (Hw s Hs). apply bool_decide_eq_true in Hw. by rewrite elem_of_js_set in Hw.
      * intros t Ht. apply minDate_le. rewrite Ht. simpl. auto.
    + split; [done|]. split; [|split; [done|done]]. intros Hnone. by rewrite Hnone in Hn.
  - intros [-> ->]%mret_Ret. split; [done|]. split; [done|]. split; [done|]. intros _. split.
    + by exists max.
    + intros t Ht. apply minDate_le. rewrite Ht. simpl. auto.
Qed.

Lemma authorized_family actor action : authorizeFamilyAction actor action = Authorized -> workspaceKind actor = "family".
Proof. unfold authorizeFamilyAction. by destruct (String.eqb_spec (workspaceKind actor) (js_name Family)). Qed.

(** A refusal reports nothing, so it only has to be justified. *)
Lemma deny_spec actor input now db reason ids :
  ~ live_chain db (tenantId actor) (ri_signal input) (ri_recipient input) (ri_rel input) now ->
  evaluation_spec actor input now db (deny reason ids now).
Proof. intros Hno. split; [done|]. split; [done|]. by split. Qed.

(** Close a refusing branch: one link of the chain contradicts what was found. *)
Ltac refuse H :=
  apply mret_Ret in H as [-> ->]; split; [done|]; apply deny_spec;
  intros (? & ? & ? & ? & ? & ? & ? & ? & ? & ? & ? & ?); simplify_eq; try tauto; congruence.

Lemma evaluate_Ret actor input now db ev db' :
  evaluateRecipientAuthorization actor input now db = Ret (ev, db') -> db' = db /\ evaluation_spec actor input now db ev.
Proof.
  unfold evaluateRecipientAuthorization. intros H.
  apply bind_Ret in H as (u & d & (Hfam%authorized_family & _ & ->)%assertFamily_Ret & H).
  apply bind_Ret in H as (u' & d & ->%assertFields_Ret & H).
  apply bind_Ret in H as (u'' & d & (_ & _ & ->)%throw_if_Ret & H).
  apply bind_Ret in H as (db0 & d & Hg & H). apply withTenant_Ret, get_Ret in Hg as [-> ->].
  destruct (find_row (signals db) _ _) as [sg|] eqn:Hsg; [|refuse H].
  destruct (sg_archivedAt sg) as [z|] eqn:Har; cbn [is_some] in H; [refuse H|].
  destruct (find_row (memberships db) _ _) as [m|] eqn:Hm; [|refuse H].
  destruct (decide (familyRoleForMembershipRole (m_role m) = FamilyViewer)) as [Hv|Hv].
  { rewrite Hv in H. change (isRecipientEligibleFamilyRole (js_name FamilyViewer)) with false in H. refuse H. }
  rewrite (proj2 (eligible_role_iff _) Hv) in H. cbn [negb] in H.
  destruct (find_row (relationships db) _ _) as [r|] eqn:Hr; [|refuse H].
  destruct (String.eqb_spec (r_profile r) (sg_profile sg)) as [Hp|Hp]; cbn [negb] in H; [|refuse H].
  destruct (String.eqb_spec (r_guardian r) (ri_recipient input)) as [Hg|Hg]; cbn [negb] in H; [|refuse H].
  apply bind_Ret in H as (au & d & [-> Hau]%getAuthority_Ret & H).
  apply bind_Ret in H as (co & d & [-> Hco]%getConsent_Ret & H).
  apply bind_Ret in H as (sa & d & [-> Hsa]%getAssessment_Ret & H).
  destruct (evaluateCanReceiveSafetyInformation _) as [okb reasons] eqn:Hch.
  assert (Hok : okb = true <-> workspaceKind actor = "family" /\ isActiveGuardianRelationship r = true /\ true = true /\
    is_some au = true /\ is_some co = true /\ is_some sa = true).
  { rewrite <- (chain_ok_iff (recipient_chain actor r au co sa)). by rewrite Hch. }
  change (js_name CTGuardian) with "guardian" in Hco. rewrite Hau, Hco, Hsa in Hok.
  destruct okb; cbn [negb] in H.
  - apply authorize_scopes_Ret in H as (-> & Hall & Hden & Hauth). split; [done|].
    split; [|split; [by intros _|split; [done|split; [|by intros Ha; apply Hauth in Ha as [_ ?]]]]].
    + intros _. exists sg, m, r. destruct Hok as [Hok _]. specialize (Hok eq_refl). tauto.
    + intros Ha. apply Hauth in Ha as [(max & ? & ?) _]. by exists sg, max.
  - apply mret_Ret in H as [-> ->]. split; [done|]. apply deny_spec.
    intros (? & ? & ? & ? & ? & ? & ? & ? & ? & ? & ? & ? & ? & ?). simplify_eq.
    assert (false = true); [|done]. apply Hok. tauto.
Qed.

Lemma result_Ret {A} (m : M A) db a : result m db = Ret a <-> m db = Ret (a, after m db).
Proof. unfold result, after. destruct (m db) as [[x d]|e]; split; congruence. Qed.

(** The disclosure decision is exact: an evaluation that returns has written
    nothing; it authorizes only along a complete live chain — an unarchived signal,
    a member of an eligible family role, an active relationship between this very
    member and the signal's profile, an active authority, an effective consent, an
    approved assessment — and always along one when no scopes are requested; what
    it allows never exceeds the disclosure policy for the signal, a denial allows
    nothing, and its expiry is never later than the one asked for. *)
Theorem authorization_exact (actor : FamilyActorContext) (input : RecipientAuthorizationInput) (now : Z) (db : family_db)
    (ev : RecipientAuthorizationEvaluation) :
  result (evaluateRecipientAuthorization actor input now) db = Ret ev ->
  after (evaluateRecipientAuthorization actor input now) db = db /\ evaluation_spec actor input now db ev.
Proof. intros H%result_Ret. by apply evaluate_Ret in H. Qed.

(** The newest decision for (signal, recipient) whose row is still effective. *)
Definition newest_effective (db : family_db) (tenant signalId recipient : string) (now : Z) : option decision :=
  List.find (fun d => isRecipientAuthorizationDecisionRowEffective (de_state d) now) (standing_decisions db tenant signalId recipient).

Lemma getEffective_exact actor signalId recipient now db o db' :
  getEffectiveRecipientAuthorization actor signalId recipient now db = Ret (o, db') ->
  db' = db /\ forall d, o = Some d <->
    newest_effective db (tenantId actor) signalId recipient now = Some d /\
    exists rel, de_rel d = Some rel /\ nonempty rel = true /\ live_chain db (tenantId actor) signalId recipient rel now.
Proof.
  unfold getEffectiveRecipientAuthorization. fold (newest_effective db (tenantId actor) signalId recipient now). intros H.
  apply bind_Ret in H as (u & d0 & (_ & _ & ->)%assertFamily_Ret & H).
  apply bind_Ret in H as (db0 & d0 & Hg & H). apply withTenant_Ret, get_Ret in Hg as [-> ->].
  fold (newest_effective db (tenantId actor) signalId recipient now) in H.
  destruct (newest_effective db (tenantId actor) signalId recipient now) as [d|] eqn:Hf;
    [|apply mret_Ret in H as [-> ->]; split; [done|]; intros d'; split; [done|by intros [? _]]].
  destruct (de_rel d) as [rel|] eqn:Hrel;
    [|apply mret_Ret in H as [-> ->]; split; [done|]; intros d'; split; [done|by intros ([= <-] & rel & Hr & _); rewrite Hrel in Hr]].
  destruct (negb (truthy (Some rel))) eqn:Htr.
  { apply mret_Ret in H as [-> ->]. split; [done|]. intros d'. split; [done|]. intros ([= <-] & rel' & Hr & Hne & _).
    rewrite Hrel in Hr. injection Hr as <-. change (truthy (Some rel)) with (nonempty rel) in Htr. by rewrite Hne in Htr. }
  apply bind_Ret in H as (live & d1 & [-> Hspec]%evaluate_Ret & H). apply mret_Ret in H as [-> ->]. split; [done|].
  destruct Hspec as (Hlive & Hconv & _). cbn in Hlive, Hconv. intros d'. split.
  - intros Hd'. destruct (ev_authorized live) eqn:Ha; [|done]. injection Hd' as <-. split; [done|]. exists rel.
    split; [done|]. split; [|by apply Hlive]. change (truthy (Some rel)) with (nonempty rel) in Htr. by destruct (nonempty rel).
  - intros ([= <-] & rel' & Hr & _ & Hc). rewrite Hrel in Hr. injection Hr as <-. by rewrite (Hconv Hc eq_refl).
Qed.

(** What is found among the standing decisions. *)
Lemma newest_effective_Some db tenant signalId recipient now d :
  newest_effective db tenant signalId recipient now = Some d ->
  In d (decisions db) /\ de_tenant d = tenant /\ de_signal d = signalId /\ de_recipient d = recipient /\
  isRecipientAuthorizationDecisionRowEffective (de_state d) now = true.
Proof.
  intros [Hin Heff]%List.find_some. unfold standing_decisions in Hin. apply In_newest_first_id, filter_In in Hin as [Hin Hp].
  guards_in Hp. tauto.
Qed.

Lemma getEffective_Ret actor signalId recipient now db o db' :
  getEffectiveRecipientAuthorization actor signalId recipient now db = Ret (o, db') ->
  db' = db /\ forall d, o = Some d ->
    In d (decisions db) /\ de_tenant d = tenantId actor /\ de_signal d = signalId /\ de_recipient d = recipient /\
    isRecipientAuthorizationDecisionRowEffective (de_state d) now = true /\
    exists rel, de_rel d = Some rel /\ live_chain db (tenantId actor) signalId recipient rel now.
Proof.
  intros [-> H]%getEffective_exact. split; [done|]. intros d (Hn & rel & Hrel & _ & Hc)%H.
  apply newest_effective_Some in Hn as (? & ? & ? & ? & ?). repeat (split; [done|]). by exists rel.
Qed.

(** C2 — What resolves as effective, exactly: reading changes nothing, and a decision is returned iff it is the
    newest stored authorization for this signal and recipient that is neither revoked, superseded, archived nor
    expired, it names a relationship, and at this moment the tables hold a whole chain for that relationship: the
    signal unarchived, the recipient a member who may receive, the relationship theirs, active and about the
    signal's profile, some active authority and some approved assessment of the relationship, and some effective
    guardian consent for the profile. So nothing is effective once the relationship, the membership or the last
    record of one of these three kinds has gone, whatever its row says. The chain is made of the records in force
    now, which need not be those the decision names ([decision_outlives_its_consent]). *)
Theorem effective_decision_live (actor : FamilyActorContext) (signalId recipient : string) (now : Z) (db : family_db) (o : option decision) :
  result (getEffectiveRecipientAuthorization actor signalId recipient now) db = Ret o ->
  after (getEffectiveRecipientAuthorization actor signalId recipient now) db = db /\
  forall d, o = Some d <->
    newest_effective db (tenantId actor) signalId recipient now = Some d /\
    exists rel, de_rel d = Some rel /\ nonempty rel = true /\ live_chain db (tenantId actor) signalId recipient rel now.
Proof. intros H%result_Ret. by apply getEffective_exact in H. Qed.

(** The keys a checked input may have. *)
Lemma assertFields_keys keys allowed db u db' : assertFields keys allowed db = Ret (u, db') -> forall k, In k keys -> In k allowed.
Proof.
  unfold assertFields. intros (Hv%negb_false_iff & _ & _)%throw_if_Ret k Hk. unfold validateChildSafetyInput in Hv.
  cbn [v_ok] in Hv. apply Nat.eqb_eq, length_zero_iff_nil in Hv. pose proof (proj1 (omap_nil_iff _ _) Hv k Hk) as Hk'.
  cbv beta in Hk'. destruct (includes CHILD_SAFETY_FORBIDDEN_FIELDS k); [done|].
  destruct (includes allowed k) eqn:Ha; [by apply includes_In|done].
Qed.

(** An expiring authorization cannot be recorded: although the create service
    lists the expiry among its accepted fields and bounds the decision by it, an
    input that carries the field is handed unchanged to the evaluation, whose own
    list lacks it; so the call never succeeds, for any actor, tables and clock. *)
Theorem expiring_decision_never_created (sha256 : string -> string) (st : stamp) (actor : FamilyActorContext) (input : RecipientAuthorizationInput) (now : Z) (db : family_db) :
  In "validUntil" (ri_keys input) ->
  In "validUntil" RECIPIENT_AUTHORIZATION_CREATE_FIELDS /\
  exists e, result (createRecipientAuthorizationDecision sha256 st actor input now) db = Throw e.
Proof.
  intros Hk. split; [simpl; tauto|].
  destruct (result (createRecipientAuthorizationDecision sha256 st actor input now) db) as [d|e] eqn:Hres; [exfalso|by eexists].
  apply result_Ret in Hres. unfold createRecipientAuthorizationDecision in Hres. run_store.
  match goal with H : evaluateRecipientAuthorization _ _ _ _ = Ret _ |- _ => unfold evaluateRecipientAuthorization in H;
    apply bind_Ret in H as (? & ? & _ & H); apply bind_Ret in H as (? & ? & Hf & _) end.
  pose proof (assertFields_keys _ _ _ _ _ Hf _ Hk) as Hin. apply includes_In in Hin. by vm_compute in Hin.
Qed.

(** ** Deliveries *)

Lemma enqueue_notice_Ret sha256 st actor type idKey sid version at_ db u db' :
  enqueue sha256 st actor type idKey sid version at_ db = Ret (u, db') -> exists t, db' = set_outbox t db.
Proof.
  unfold enqueue. intros (d & ? & [-> ->]%get_Ret & H)%bind_Ret.
  destruct (Outbox.enqueueFamilyNotificationOutboxEventTx _ _ _ _ _) as [t [?|?]]; [|done].
  apply put_Ret in H as [_ ->]. eauto.
Qed.

(** A delivery the resolver returns is effective in its row and rests on a
    decision that is effective now, live chain included. *)
Theorem effective_delivery_live (actor : FamilyActorContext) (signalId recipient : string) (now : Z) (db : family_db) (dl : delivery) :
  result (getEffectiveSafetySignalDelivery actor signalId recipient now) db = Ret (Some dl) ->
  In dl (deliveries db) /\ dl_signal dl = signalId /\ dl_recipient dl = recipient /\
  isSafetyDeliveryRowEffective (dl_state dl) now = true /\
  exists d rel, In d (decisions db) /\ de_signal d = signalId /\ de_recipient d = recipient /\
    isRecipientAuthorizationDecisionRowEffective (de_state d) now = true /\ de_rel d = Some rel /\
    live_chain db (tenantId actor) signalId recipient rel now.
Proof.
  intros H%result_Ret. unfold getEffectiveSafetySignalDelivery in H.
  apply bind_Ret in H as (u & d0 & (_ & _ & ->)%assertFamily_Ret & H).
  apply bind_Ret in H as (db0 & d0 & Hg & H). apply withTenant_Ret, get_Ret in Hg as [-> ->].
  destruct (List.find _ _) as [x|] eqn:Hf; [|by apply mret_Ret in H as [? _]].
  apply bind_Ret in H as (o & d1 & [-> Ho]%getEffective_Ret & H). apply mret_Ret in H as [H _].
  destruct o as [d|]; [|done]. injection H as <-.
  destruct (Ho d eq_refl) as (Hin & _ & Hs & Hr & He & rel & Hrel & Hl).
  apply List.find_some in Hf as [Hx Heff]. unfold standing_deliveries in Hx. apply In_newest_first_id, filter_In in Hx as [Hx Hp].
  guards_in Hp.
  split; [done|]. split; [tauto|]. split; [tauto|]. split; [done|]. by exists d, rel.
Qed.

#[local] Instance keeps_mutate a now mid : KeepsKey (mutate a now mid).
Proof. done. Qed.

(** A delivery moves only by an allowed transition: a transition that succeeds
    was authorized for the actor's role, found the delivery in the actor's tenant,
    was allowed by the transition map from its stored status, was made by the
    recipient if it acknowledges or declines, and changed that delivery alone;
    one that throws, for instance because its notification cannot be enqueued,
    leaves the tables, outbox and audit log included, as they were. *)
Theorem delivery_transition_exact (sha256 : string -> string) (st : stamp) (actor : FamilyActorContext) (id : string) (a : delivery_act) (now : Z) (db : family_db) :
  let m := transition sha256 st actor id a now in
  ((exists e, result m db = Throw e) -> after m db = db) /\
  (forall d, result m db = Ret d ->
    exists old mem, authorizeFamilyAction actor (act_action a) = Authorized /\
      membership_of db (tenantId actor) (userId actor) = Some mem /\
      find_row (deliveries db) (tenantId actor) id = Some old /\ d = mutate a now (m_id mem) old /\
      (recipient_only a = true -> dl_recipient old = m_id mem) /\
      isValidSafetyDeliveryTransition (deliveryStatus (dl_state old)) (js_name (act_status a)) = true /\
      deliveries (after m db) = update_row (tenantId actor) id (mutate a now (m_id mem)) (deliveries db) /\
      foreign_rows (tenantId actor) (deliveries (after m db)) = foreign_rows (tenantId actor) (deliveries db) /\
      decisions (after m db) = decisions db /\ (act_notification a = None -> outbox (after m db) = outbox db)).
Proof.
  cbv zeta. split.
  - unfold result, after. intros [e He]. by destruct (transition sha256 st actor id a now db) as [[? ?]|].
  - intros d Hres%result_Ret. set (db' := after (transition sha256 st actor id a now) db) in *. clearbody db'.
    unfold transition in Hres. run_store.
    all: try match goal with H : enqueue _ _ _ _ _ _ _ _ _ = Ret _ |- _ => apply enqueue_notice_Ret in H as [? ->] end.
    all: do 2 eexists; split; [eassumption|]; split; [eassumption|]; split; [eassumption|]; split; [reflexivity|].
    all: match goal with H : recipient_only _ && _ = false |- _ => rename H into Hown end.
    all: match goal with H : negb (isValidSafetyDeliveryTransition _ _) = false |- _ => apply negb_false_iff in H; rename H into Hval end.
    all: split; [intros Hr; rewrite Hr in Hown; by apply negb_false_iff, String.eqb_eq in Hown|].
    all: split; [exact Hval|]; split; [reflexivity|]; split; [apply (foreign_update (R := delivery)); apply _|].
    all: split; [reflexivity|]; congruence || done.
Qed.

(** An eligible delivery rests on a decision effective now, and discloses no more. *)
Definition rests_on_decision (db : family_db) (actor : FamilyActorContext) (decisionId : string) (scopes : list SafetyDisclosureScope) (now : Z) : Prop :=
  exists e rel, In e (decisions db) /\ de_id e = decisionId /\ de_tenant e = tenantId actor /\
    isRecipientAuthorizationDecisionRowEffective (de_state e) now = true /\ de_rel e = Some rel /\
    live_chain db (tenantId actor) (de_signal e) (de_recipient e) rel now /\
    forall s, s ∈ scopes -> s ∈ snd (parseDisclosureScopes (Some (de_scope e))).

Lemma rests_intro db actor decisionId scopes now (d e : decision) rel :
  In e (decisions db) -> row_id d = decisionId -> de_id e = de_id d -> de_tenant e = tenantId actor ->
  isRecipientAuthorizationDecisionRowEffective (de_state e) now = true -> de_rel e = Some rel ->
  live_chain db (tenantId actor) (de_signal e) (de_recipient e) rel now ->
  (forall s, s ∈ scopes -> s ∈ snd (parseDisclosureScopes (Some (de_scope e)))) ->
  rests_on_decision db actor decisionId scopes now.
Proof. intros ? Hid He ? ? ? ? ?. exists e, rel. split; [done|]. split; [by rewrite He|]. by repeat (split; [done|]). Qed.

(** A refusal is not eligible. *)
Ltac ineligible H :=
  apply mret_Ret in H as [-> ->]; split; [done|]; let He := fresh in intros He; vm_compute in He; discriminate He.

Lemma eligibility_Ret actor keys decisionId scopes now db el db' :
  evaluateSafetySignalDeliveryEligibility actor keys decisionId scopes now db = Ret (el, db') ->
  db' = db /\ (el_eligible el = true -> rests_on_decision db actor decisionId (el_scopes el) now).
Proof.
  unfold evaluateSafetySignalDeliveryEligibility. intros H.
  apply bind_Ret in H as (u & d0 & (_ & _ & ->)%assertFamily_Ret & H).
  apply bind_Ret in H as (u' & d0 & ->%assertFields_Ret & H).
  apply bind_Ret in H as (u'' & d0 & (_ & _ & ->)%throw_if_Ret & H).
  apply bind_Ret in H as (db0 & d0 & Hg & H). apply withTenant_Ret, get_Ret in Hg as [-> ->].
  destruct (find_row (decisions db) _ _) as [d|] eqn:Hd; [|ineligible H].
  apply find_row_Some in Hd as (_ & Hid & _).
  destruct (is_some (d_revokedAt _)); [ineligible H|].
  destruct (is_some (d_supersededAt _)); [ineligible H|].
  destruct (is_some (d_archivedAt _)); [ineligible H|].
  destruct (negb (decisionStatus _ =s _)); [ineligible H|].
  apply bind_Ret in H as (o & d1 & [-> Ho]%getEffective_Ret & H).
  destruct o as [e|]; [|ineligible H].
  destruct (String.eqb_spec (de_id e) (de_id d)) as [He|]; cbn [negb] in H; [|ineligible H].
  destruct (Ho e eq_refl) as (Hin & Hten & Hs & Hr & Heff & rel & Hrel & Hl).
  destruct (negb (length (as_scopes scopes) =? 0)%nat) eqn:Hn; cbn [andb] in H.
  - destruct (scopesWithin _ _) eqn:Hw; cbn [negb] in H; [|ineligible H]. apply mret_Ret in H as [-> ->]. split; [done|]. intros _.
    eapply rests_intro; try eassumption; [by rewrite Hs, Hr|]. intros s Hsc.
    unfold scopesWithin in Hw. rewrite forallb_forall in Hw. apply list_elem_of_In in Hsc. specialize (Hw s Hsc).
    apply bool_decide_eq_true in Hw. by rewrite elem_of_js_set in Hw.
  - apply mret_Ret in H as [-> ->]. split; [done|]. intros _. eapply rests_intro; try eassumption; [by rewrite Hs, Hr|done].
Qed.

Definition delivery_key_of (actor : FamilyActorContext) (de : decision) (input : DeliveryInput) : delivery -> bool :=
  same_delivery (tenantId actor) (de_id de) (de_recipient de) (dv_key input ?? "").

Lemma find_app_last {A} (p : A -> bool) l x : List.find p l = None -> p x = true -> List.find p (l ++ [x]) = Some x.
Proof. induction l as [|y l IH]; simpl; [by intros _ ->|]. destruct (p y); [done|]. by apply IH. Qed.

(** What a successful creation returns and leaves. *)
Lemma create_delivery_Ret st actor input now db d db' :
  createSafetySignalDelivery st actor input now db = Ret (d, db') ->
  exists de el, find_row (decisions db) (tenantId actor) (dv_decision input) = Some de /\ decisions db' = decisions db /\
    rests_on_decision db actor (dv_decision input) (el_scopes el) now /\
    (dv_action input <> None -> RecommendedActionClass ∈ el_scopes el) /\
    List.find (delivery_key_of actor de input) (deliveries db') = Some d /\
    ((List.find (delivery_key_of actor de input) (deliveries db) = Some d /\ deliveries db' = deliveries db) \/
     (List.find (delivery_key_of actor de input) (deliveries db) = None /\ deliveries db' = deliveries db ++ [d] /\
      dl_scope d = serializeDisclosureScopes (el_scopes el) /\ deliveryStatus (dl_state d) = "prepared" /\
      dl_action d = dv_action input /\ dl_recipient d = de_recipient de)).
Proof.
  unfold createSafetySignalDelivery. intros H. cbv zeta in H. run_store.
  all: match goal with H : evaluateSafetySignalDeliveryEligibility _ _ _ _ _ _ = Ret _ |- _ => apply eligibility_Ret in H as [-> Hel] end.
  all: lazymatch goal with Hel : _ = true -> rests_on_decision _ _ _ (el_scopes ?el) _,
      Hact : is_some (dv_action ?inp) && _ = false, Hde : find_row (decisions _) _ _ = Some ?de |- _ =>
      exists de, el; split; [exact Hde|]; split; [reflexivity|]; split; [by apply Hel, negb_false_iff|];
      split; [intros Ha; destruct (dv_action inp) as [act|]; [|done]; cbn [is_some andb] in Hact;
              by apply negb_false_iff, bool_decide_eq_true in Hact|] end.
  - split; [done|by left].
  - cbn [deliveries set_deliveries decisions]. split.
    + apply find_app_last; [done|]. unfold delivery_key_of, same_delivery. simpl. by rewrite !String.eqb_refl.
    + right. by split.
Qed.

(** A delivery discloses no more than was decided, and a guidance class only
    with the right to it: a successful creation leaves the decisions alone and
    rests on a decision that is effective now with its whole live chain; the
    delivery it adds is prepared, is addressed to the decision's recipient, and
    records scopes that lie within the scopes that decision stored; a guidance
    class is accepted only if those scopes carry it. *)
Theorem delivery_within_decision (st : stamp) (actor : FamilyActorContext) (input : DeliveryInput) (now : Z) (db : family_db) (d : delivery) :
  let m := createSafetySignalDelivery st actor input now in
  result m db = Ret d ->
  decisions (after m db) = decisions db /\
  exists scopes, rests_on_decision db actor (dv_decision input) scopes now /\
    (dv_action input <> None -> RecommendedActionClass ∈ scopes) /\
    (deliveries (after m db) = deliveries db /\ In d (deliveries db) \/
     deliveries (after m db) = deliveries db ++ [d] /\ dl_scope d = serializeDisclosureScopes scopes /\
     deliveryStatus (dl_state d) = "prepared" /\ dl_action d = dv_action input /\
     exists de, find_row (decisions db) (tenantId actor) (dv_decision input) = Some de /\ dl_recipient d = de_recipient de).
Proof.
  cbv zeta. intros H%result_Ret. apply create_delivery_Ret in H as (de & el & Hde & Hdec & Hrest & Hact & _ & Hcase).
  split; [done|]. exists (el_scopes el). split; [done|]. split; [done|].
  destruct Hcase as [[Hf Hsame]|(_ & Happ & ? & ? & ? & ?)].
  - left. split; [done|]. by apply List.find_some in Hf as [? _].
  - right. repeat (split; [done|]). by exists de.
Qed.

(** Creating a delivery is idempotent: after a creation has succeeded, a retry
    with the same decision and idempotency key, by any member of the tenant, with
    any scopes, guidance, clock and fresh id, returns that very delivery if it
    succeeds, and adds none. *)
Theorem delivery_created_once (st st' : stamp) (actor actor' : FamilyActorContext) (input input' : DeliveryInput) (now now' : Z)
    (db : family_db) (d d' : delivery) :
  let m := createSafetySignalDelivery st actor input now in
  let m' := createSafetySignalDelivery st' actor' input' now' in
  tenantId actor' = tenantId actor -> dv_decision input' = dv_decision input -> dv_key input' = dv_key input ->
  result m db = Ret d -> result m' (after m db) = Ret d' ->
  d' = d /\ deliveries (after m' (after m db)) = deliveries (after m db).
Proof.
  cbv zeta. intros Ht Hd Hk H%result_Ret H'%result_Ret.
  apply create_delivery_Ret in H as (de & el & Hde & Hdec & _ & _ & Hf & _).
  apply create_delivery_Ret in H' as (de' & el' & Hde' & _ & _ & _ & _ & Hcase).
  rewrite Ht, Hd, Hdec, Hde in Hde'. injection Hde' as <-.
  unfold delivery_key_of in *. rewrite Ht, Hk in Hcase.
  destruct Hcase as [[Hf' Hsame]|[Hf' _]]; [|congruence]. split; [congruence|done].
Qed.

(** A trusted adult may hold, acknowledge and decline a delivery, but cannot
    resolve it: where an effective delivery row exists for the recipient, the
    resolver does not answer, it throws a role error, because the live re-check it
    performs demands a right that this role, documented to view its own delivery,
    does not have. *)
Theorem trusted_adult_cannot_resolve (actor : FamilyActorContext) (signalId recipient : string) (now : Z) (db : family_db) :
  workspaceKind actor = "family" -> role actor = "reviewer" -> tenantId actor <> "" ->
  List.find (fun d => isSafetyDeliveryRowEffective (dl_state d) now) (standing_deliveries db (tenantId actor) signalId recipient) <> None ->
  familyRoleForMembershipRole (role actor) = TrustedAdult /\
  authorizeFamilyAction actor SafetyDeliveryView = Authorized /\
  result (getEffectiveSafetySignalDelivery actor signalId recipient now) db = Throw (FamilyForbiddenError "role_forbidden").
Proof.
  intros Hw Hr Ht Hd.
  assert (Hv : authorizeFamilyAction actor SafetyDeliveryView = Authorized) by (apply authorized_iff; [done|by rewrite Hr]).
  assert (Ha : authorizeFamilyAction actor SafetyRecipientAuthorizationView = Refused "role_forbidden").
  { unfold authorizeFamilyAction. by rewrite Hw, Hr. }
  split; [by rewrite Hr|]. split; [done|].
  unfold getEffectiveSafetySignalDelivery, getEffectiveRecipientAuthorization, assertFamily. rewrite Hv, Ha.
  unfold withTenant, nonempty. rewrite (proj2 (String.eqb_neq _ _) Ht). cbn [negb].
  unfold result, mbind, tx_bind, mret, tx_ret, get, throw. by destruct (List.find _ _).
Qed.

(** The own-delivery rule stops at acting: reading a delivery by its id asks for
    the viewing right only, so every non-viewer role of the family reads any
    recipient's delivery, although only acknowledging and declining check that the
    delivery is the actor's own. *)
Theorem delivery_view_not_own (actor : FamilyActorContext) (id : string) (db : family_db) (d : delivery) :
  workspaceKind actor = "family" -> tenantId actor <> "" -> familyRoleForMembershipRole (role actor) <> FamilyViewer ->
  find_row (deliveries db) (tenantId actor) id = Some d ->
  result (getSafetySignalDelivery actor id) db = Ret d.
Proof.
  intros Hw Ht Hr Hd.
  assert (Hv : authorizeFamilyAction actor SafetyDeliveryView = Authorized).
  { apply authorized_iff; [done|]. by destruct (familyRoleForMembershipRole (role actor)). }
  unfold getSafetySignalDelivery, assertFamily, withTenant, nonempty. rewrite Hv, (proj2 (String.eqb_neq _ _) Ht). cbn [negb].
  unfold result, mbind, tx_bind, mret, tx_ret, get, found. by rewrite Hd.
Qed.

(** ** Concrete runs *)

(** The owner verifies the authority, consent and assessment of a trusted adult,
    member m3, over profile p, and a signal about p is stored. *)
Definition family3 : family_db :=
  {| relationships := [rel_row "r3" "m3"]; profiles := profiles family0;
     memberships := memberships family0 ++ [member_row "m3" "u3" "reviewer"]; authorities := []; consents := []; assessments := [];
     signals := [{| sg_id := "g1"; sg_tenant := "t"; sg_profile := "p"; sg_type := "grooming"; sg_severity := "high";
                    sg_bucket := None; sg_archivedAt := None |}];
     decisions := []; deliveries := []; audit_log := []; outbox := [] |}.
Definition owner0 : FamilyActorContext := actor_of "u0" "owner".
Definition adult3 : FamilyActorContext := actor_of "u3" "reviewer".
Definition chain_run : list request :=
  [(at_time "a1" 10, owner0, GrantAuthority (grant_input "r3") 10);
   (at_time "c1" 20, owner0, GrantGuardianConsent (consent_input_of "r3") "r3" 20);
   (at_time "s1" 30, owner0, RequestAssessment ["guardianRelationshipId"; "purpose"] "r3" "emergency_contact");
   (at_time "x" 40, owner0, ApproveRecipient "s1" no_decision 40)].
Definition decide_input (keys : list string) : RecipientAuthorizationInput :=
  {| ri_keys := ["safetySignalId"; "recipientMembershipId"; "guardianRelationshipId"] ++ keys; ri_signal := "g1"; ri_recipient := "m3";
     ri_rel := "r3"; ri_scopes := None; ri_validUntil := if includes keys "validUntil" then Some 500 else None |}.
Definition deliver_input : DeliveryInput :=
  {| dv_keys := SAFETY_DELIVERY_CREATE_FIELDS; dv_decision := "d1"; dv_scopes := None; dv_key := Some "k1"; dv_action := None; dv_channel := None |}.
Definition prepare (id : string) (t : Z) : M delivery := createSafetySignalDelivery (at_time id t) owner0 deliver_input t.

(** The tables after the chain, the decision, the delivery and its release. *)
Definition chained : family_db := run_requests (fun s => s) chain_run family3.
Definition decided : family_db :=
  after (createRecipientAuthorizationDecision (fun s => s) (at_time "d1" 60) owner0 (decide_input []) 60) chained.
Definition prepared : family_db := after (prepare "v1" 70) decided.
Definition available : family_db := after (transition (fun s => s) (at_time "x" 80) owner0 "v1" MakeAvailable 80) prepared.

Definition returns {A} (o : outcome A FamilyError) : bool := match o with Ret _ => true | Throw _ => false end.
Lemma returns_Ret {A} (o : outcome A FamilyError) : returns o = true -> exists a, o = Ret a.
Proof. destruct o; [eauto|done]. Qed.
Definition found_some {A} (o : outcome (option A) FamilyError) : bool := match o with Ret (Some _) => true | _ => false end.
Lemma found_some_Ret {A} (o : outcome (option A) FamilyError) : found_some o = true -> exists a, o = Ret (Some a).
Proof. destruct o as [[a|]|]; [eauto|done|done]. Qed.

(** The run reaches an available delivery, which the owner resolves. *)
Example run_available :
  (map (fun d => (de_id d, decisionStatus (de_state d), de_scope d)) (decisions available),
   map (fun d => (dl_id d, deliveryStatus (dl_state d), dl_recipient d)) (deliveries available), length (outbox available)) =
  ([("d1", "authorized", "risk_category,severity,signal_existence,timing_bucket")], [("v1", "available", "m3")], 3%nat).
Proof. vm_compute. reflexivity. Qed.

Lemma authorization_exact_witness :
  exists ev, result (evaluateRecipientAuthorization owner0 (decide_input []) 50) chained = Ret ev /\ ev_authorized ev = true /\
    evaluation_spec owner0 (decide_input []) 50 chained ev.
Proof.
  assert (H : exists ev, result (evaluateRecipientAuthorization owner0 (decide_input []) 50) chained = Ret ev /\ ev_authorized ev = true)
    by (eexists; split; vm_compute; reflexivity).
  destruct H as (ev & H & Ha). exists ev. split; [exact H|]. split; [exact Ha|].
  exact (proj2 (authorization_exact _ _ _ _ _ H)).
Defined.

Lemma effective_decision_live_witness : exists d rel, newest_effective decided "t" "g1" "m3" 65 = Some d /\ de_rel d = Some rel /\ live_chain decided "t" "g1" "m3" rel 65.
Proof.
  destruct (found_some_Ret (result (getEffectiveRecipientAuthorization owner0 "g1" "m3" 65) decided)) as [d Hd]; [vm_compute; reflexivity|].
  destruct (proj1 (proj2 (effective_decision_live owner0 "g1" "m3" 65 decided (Some d) Hd) d) eq_refl) as (Hn & rel & Hrel & _ & Hc).
  exists d, rel. split; [exact Hn|]. split; [exact Hrel|exact Hc].
Defined.

(** The consent a decision rests on, replaced by another of the same profile. *)
Definition second_consent : consent_input :=
  {| ci_keys := ["protectedProfileId"; "consentType"]; ci_profile := "p"; ci_rel := None; ci_type := "guardian"; ci_validFrom := None; ci_validUntil := None |}.
Definition consent_replaced : family_db :=
  run_requests (fun s => s) [(at_time "c2" 61, owner0, CreateConsent second_consent); (at_time "x" 62, owner0, GrantConsent "c2" [] None None);
                             (at_time "y" 63, owner0, RevokeGuardianConsent "c1")] decided.
(** a decision outlives the consent it rests on: the decision names the consent of its evaluation, that
    consent is revoked, and the decision still resolves as effective because another guardian consent for the
    profile was granted meanwhile. *)
Theorem decision_outlives_its_consent :
  map (fun c => (co_id c, consentStatus (co_state c))) (consents consent_replaced) = [("c1", "withdrawn"); ("c2", "active")] /\
  match result (getEffectiveRecipientAuthorization owner0 "g1" "m3" 65) consent_replaced with
  | Ret (Some d) => (de_id d, de_consent d) = ("d1", Some "c1") | _ => False end.
Proof. split; vm_compute; reflexivity. Qed.

Lemma expiring_decision_never_created_witness :
  exists e, result (createRecipientAuthorizationDecision (fun s => s) (at_time "d2" 60) owner0 (decide_input ["validUntil"]) 60) chained = Throw e.
Proof.
  destruct (expiring_decision_never_created (fun s => s) (at_time "d2" 60) owner0 (decide_input ["validUntil"]) 60 chained) as [_ H];
    [simpl; auto|exact H].
Defined.

Lemma effective_delivery_live_witness : exists d rel, In d (decisions available) /\ de_rel d = Some rel.
Proof.
  destruct (found_some_Ret (result (getEffectiveSafetySignalDelivery owner0 "g1" "m3" 85) available)) as [dl Hd]; [vm_compute; reflexivity|].
  destruct (effective_delivery_live _ _ _ _ _ _ Hd) as (_ & _ & _ & _ & d & rel & H1 & _ & _ & _ & H2 & _).
  exists d, rel. split; [exact H1|exact H2].
Defined.

Lemma delivery_transition_exact_witness :
  exists d, result (transition (fun s => s) (at_time "y" 90) adult3 "v1" Acknowledge 90) available = Ret d /\
    dl_acknowledgedBy d = Some "m3".
Proof.
  destruct (returns_Ret (result (transition (fun s => s) (at_time "y" 90) adult3 "v1" Acknowledge 90) available)) as [d Hd]; [vm_compute; reflexivity|].
  destruct (proj2 (delivery_transition_exact (fun s => s) (at_time "y" 90) adult3 "v1" Acknowledge 90 available) d Hd)
    as (old & mem & _ & Hm & _ & -> & _).
  eexists. split; [exact Hd|]. vm_compute in Hm. injection Hm as <-. reflexivity.
Defined.

Lemma delivery_within_decision_witness :
  exists d scopes, result (prepare "v1" 70) decided = Ret d /\ rests_on_decision decided owner0 "d1" scopes 70.
Proof.
  destruct (returns_Ret (result (prepare "v1" 70) decided)) as [d Hd]; [vm_compute; reflexivity|].
  destruct (delivery_within_decision _ _ _ _ _ _ Hd) as (_ & scopes & Hs & _). exists d, scopes. split; [exact Hd|exact Hs].
Defined.

Lemma delivery_created_once_witness :
  exists d, result (prepare "v1" 70) decided = Ret d /\ result (prepare "v2" 75) prepared = Ret d /\
    deliveries (after (prepare "v2" 75) prepared) = deliveries prepared.
Proof.
  destruct (returns_Ret (result (prepare "v1" 70) decided)) as [d Hd]; [vm_compute; reflexivity|].
  destruct (returns_Ret (result (prepare "v2" 75) prepared)) as [d' Hd']; [vm_compute; reflexivity|].
  destruct (delivery_created_once (at_time "v1" 70) (at_time "v2" 75) owner0 owner0 deliver_input deliver_input 70 75 decided d d'
    eq_refl eq_refl eq_refl Hd Hd') as [Heq Hsame].
  exists d. split; [exact Hd|]. split; [rewrite <- Heq; exact Hd'|exact Hsame].
Defined.

Lemma trusted_adult_cannot_resolve_witness :
  found_some (result (getEffectiveSafetySignalDelivery owner0 "g1" "m3" 85) available) = true /\
  result (getEffectiveSafetySignalDelivery adult3 "g1" "m3" 85) available = Throw (FamilyForbiddenError "role_forbidden").
Proof.
  split; [vm_compute; reflexivity|].
  refine (proj2 (proj2 (trusted_adult_cannot_resolve adult3 "g1" "m3" 85 available eq_refl eq_refl _ _))); [discriminate|].
  vm_compute. discriminate.
Defined.

Definition other_guardian : FamilyActorContext := actor_of "u2" "admin".
Lemma delivery_view_not_own_witness :
  exists d, dl_recipient d = "m3" /\ result (getSafetySignalDelivery other_guardian "v1") available = Ret d.
Proof.
  assert (H : exists d, find_row (deliveries available) (tenantId other_guardian) "v1" = Some d /\ dl_recipient d = "m3")
    by (eexists; split; vm_compute; reflexivity).
  destruct H as (d & Hd & Hr). exists d. split; [exact Hr|].
  assert (Ht : tenantId other_guardian <> "") by discriminate.
  assert (Hf : familyRoleForMembershipRole (role other_guardian) <> FamilyViewer) by (vm_compute; discriminate).
  exact (delivery_view_not_own other_guardian "v1" available d eq_refl Ht Hf Hd).
Defined.

End Recipients.
