(* ===== verification/NotifyKernel.v ===== *)
(** Who is notified: the authorization kernel of the family notifications
    ([packages/db/src/internal/family-notification-authorization.ts]), with the
    visibility of incidents ([family-incident-visibility.ts]) and the authorized entry
    point the outbox processor calls.

    The kernel reads the family tables ([FamilyStore]) through the canonical evaluators
    of [Recipients], the invitations of [Household], and the owner-only tables of
    incidents and plans; it writes [Notifications] only. *)
From S2P Require Import Prelude Tx Access Workspace Disclosure Outbox Notifications FamilyStore Household Guardianship Recipients.
Open Scope string_scope.
Open Scope list_scope.
Open Scope Z_scope.
Open Scope tam_scope.

Module NotifyKernel.
Import Outbox Disclosure Workspace FamilyStore Recipients.

#[local] Existing Instance Household.invitation_row.

(** * State *)

(** The columns of incidents, their links to signals and their plans the kernel reads. *)
Record incident := { in_id : string; in_tenant : string; in_profile : string; in_status : string; in_escalation : string }.
Record incident_link := { il_tenant : string; il_incident : string; il_signal : string }.
Record plan := { pp_id : string; pp_tenant : string; pp_incident : string; pp_status : string }.
#[export] Instance incident_row : Row incident := {| row_id := in_id; row_tenant := in_tenant |}.
#[export] Instance plan_row : Row plan := {| row_id := pp_id; row_tenant := pp_tenant |}.
Record world := {
  fam : family_db; workspaces : list (string * string); invitations : list Household.invitation; incidents : list incident;
  links : list incident_link; plans : list plan; rows : Notifications.notifications }.
Definition set_rows (l : Notifications.notifications) (w : world) : world :=
  {| fam := fam w; workspaces := workspaces w; invitations := invitations w; incidents := incidents w; links := links w; plans := plans w; rows := l |}.

(* src: packages/db/src/internal/family-notification-authorization.ts:50-52 FamilyNotificationRecipientResolution *)
Inductive FamilyNotificationRecipientResolution := Resolved (recipientUserIds : list string) | Unresolved (reason : string).
Abbreviation resolution := FamilyNotificationRecipientResolution.
(** The typed source, as [Outbox.buildAuthorizationSource] builds it. *)
Abbreviation source := Outbox.AuthorizationSource.

(* src: packages/db/src/internal/family-notification-authorization.ts:72-72 URGENT_SEVERITIES *)
Definition URGENT_SEVERITIES : list string := ["high"; "critical"].
(* src: packages/db/src/internal/family-notification-authorization.ts:73-73 ACTIVE_PROFILE_STATUSES *)
Definition ACTIVE_PROFILE_STATUSES : list string := ["monitoring"; "active"; "paused"].
(* src: packages/db/src/internal/family-notification-authorization.ts:63-71 MANAGER_ACTION *)
Definition MANAGER_ACTION (t : Outbox.EnqueueableOutboxType) : option FamilyAction :=
  match t with
  | Outbox.family_delivery_acknowledged | Outbox.family_delivery_declined => Some SafetyDeliveryView
  | Outbox.family_guardian_invitation_accepted | Outbox.family_guardian_invitation_expiring => Some FamilyInvitationView
  | Outbox.family_authority_changed => Some GuardianAuthorityManage
  | Outbox.family_consent_expiring => Some ConsentManage
  | Outbox.family_recipient_authorization_changed => Some SafetyRecipientAuthorizationView
  | _ => None
  end.
(* src: packages/db/src/internal/family-notification-authorization.ts:77-79 resolverActor *)
Definition resolverActor (tenant : string) : FamilyActorContext :=
  {| tenantId := tenant; userId := "system:family-notification-resolver"; role := "owner"; workspaceKind := "family" |}.
(* src: packages/db/src/internal/family-notification-authorization.ts:81-83 validEventVersion *)
Definition validEventVersion (v : string) : bool := Outbox.event_version_ok v.

(** * Users *)

Definition sorted_users (l : list string) : list string := Notifications.sort_strings (js_set l).
(* src: packages/db/src/internal/family-notification-authorization.ts:322-329 membershipUserIds *)
Definition membershipUserIds (tenant : string) (ids : list string) (db : family_db) : list string :=
  match ids with
  | [] => []
  | _ => sorted_users (List.filter nonempty (map m_userId (List.filter (fun m => includes (js_set ids) (m_id m) && (m_tenant m =s tenant)) (memberships db))))
  end.
(* src: packages/db/src/internal/family-notification-authorization.ts:217-221 resolveAuthorizedFamilyManagersTx *)
Definition resolveAuthorizedFamilyManagersTx (tenant : string) (action : FamilyAction) (db : family_db) : list string :=
  sorted_users (map m_userId (List.filter (fun m => familyRoleCan (familyRoleForMembershipRole (m_role m)) action)
    (List.filter (fun m => m_tenant m =s tenant) (memberships db)))).
(* src: packages/db/src/internal/family-notification-authorization.ts:223-223 ok *)
Definition ok (users : list string) : resolution := Resolved (sorted_users users).

(** [None]: no such profile. *)
(* src: packages/db/src/internal/family-notification-authorization.ts:207-211 isProfileActive *)
Definition isProfileActive (tenant profileId : string) (db : family_db) : option bool :=
  option_map (fun p => is_none (pr_archivedAt p) && includes ACTIVE_PROFILE_STATUSES (pr_status p)) (find_row (profiles db) tenant profileId).

(** The relationships candidates are taken from. *)
Definition candidates (tenant profileId : string) (db : family_db) : list relationship :=
  List.filter (fun r => (r_tenant r =s tenant) && (r_profile r =s profileId) && (r_status r =s "verified") && is_none (r_revokedAt r) && is_none (r_archivedAt r))
    (relationships db).

(** Collect what passes a check that reads and may throw, in order. *)
Fixpoint collect {A B} (f : A -> M (option B)) (l : list A) : M (list B) :=
  match l with
  | [] => mret []
  | x :: r => o ← f x; rest ← collect f r; mret (match o with Some b => b :: rest | None => rest end)
  end.

(** * Signals and deliveries *)

(* src: packages/db/src/internal/family-notification-authorization.ts:143-180 resolveSignalRecipients *)
Definition resolveSignalRecipients (tenant : string) (src : source) (now : Z) : M resolution :=
  db ← withTenant tenant get;
  match find_row (signals db) tenant (Outbox.s_id src) with
  | None => mret (Unresolved "source_not_found")
  | Some sg =>
      if is_some (sg_archivedAt sg) then mret (Unresolved "source_state_invalid")
      else if bool_decide (Outbox.s_type src = Outbox.family_urgent_signal) && negb (includes URGENT_SEVERITIES (sg_severity sg))
      then mret (Unresolved "source_state_invalid")
      else match isProfileActive tenant (sg_profile sg) db with
      | None => mret (Unresolved "profile_mismatch")
      | Some false => mret (Resolved [])
      | Some true =>
          eligible ← collect (fun r => e ← getEffectiveRecipientAuthorization (resolverActor tenant) (sg_id sg) (r_guardian r) now;
                                       mret (if is_some e then Some (r_guardian r) else None)) (candidates tenant (sg_profile sg) db);
          mret (Resolved (membershipUserIds tenant eligible db))
      end
  end.

(* src: packages/db/src/internal/family-notification-authorization.ts:182-203 resolveDeliveryRecipient *)
Definition resolveDeliveryRecipient (tenant : string) (src : source) (now : Z) : M resolution :=
  db ← withTenant tenant get;
  match find_row (deliveries db) tenant (Outbox.s_id src) with
  | None => mret (Unresolved "source_not_found")
  | Some d =>
      if negb (deliveryStatus (dl_state d) =s "available") then mret (Resolved [])
      else if negb (nonempty (dl_recipient d)) || negb (nonempty (dl_decision d)) then mret (Unresolved "source_state_invalid")
      else
        el ← evaluateSafetySignalDeliveryEligibility (resolverActor tenant) ["recipientAuthorizationDecisionId"] (dl_decision d) None now;
        if negb (el_eligible el) then mret (Resolved [])
        else if negb (el_recipient el =s dl_recipient d) then mret (Unresolved "authorization_ambiguous")
        else mret (Resolved (membershipUserIds tenant [dl_recipient d] db))
  end.

(* src: packages/db/src/internal/family-notification-authorization.ts:226-235 resolveDeliveryOutcomeRecipients *)
Definition resolveDeliveryOutcomeRecipients (tenant : string) (src : source) : M resolution :=
  db ← withTenant tenant get;
  match find_row (deliveries db) tenant (Outbox.s_id src) with
  | None => mret (Unresolved "source_not_found")
  | Some d =>
      match isProfileActive tenant (dl_profile d) db with
      | None => mret (Unresolved "profile_mismatch")
      | Some active =>
          let required := if bool_decide (Outbox.s_type src = Outbox.family_delivery_acknowledged) then "acknowledged" else "declined" in
          if negb active || negb (deliveryStatus (dl_state d) =s required) then mret (ok [])
          else mret (ok (resolveAuthorizedFamilyManagersTx tenant SafetyDeliveryView db))
      end
  end.

(** * Invitations, authority, consent *)

(* src: packages/db/src/internal/family-notification-authorization.ts:238-257 resolveInvitationRecipients *)
Definition resolveInvitationRecipients (invitations : list Household.invitation) (tenant : string) (src : source) (now : Z) : M resolution :=
  db ← withTenant tenant get;
  match find_row invitations tenant (Outbox.s_id src) with
  | None => mret (Unresolved "source_not_found")
  | Some inv =>
      let users := ok (membershipUserIds tenant [Household.fi_invitedBy inv] db ++ resolveAuthorizedFamilyManagersTx tenant FamilyInvitationView db) in
      if bool_decide (Outbox.s_type src = Outbox.family_guardian_invitation_accepted)
      then if negb (Household.fi_status inv =e FI_Accepted) || is_none (Household.fi_acceptedAt inv) then mret (ok []) else mret users
      else if negb (Household.fi_status inv =e FI_Pending) then mret (Unresolved "source_state_invalid")
      else match Outbox.parseInvitationExpiringEventVersion (Outbox.s_eventVersion src) with
      | None => mret (Unresolved "source_state_invalid")
      | Some encoded =>
          if negb (encoded =? Household.fi_expiresAt inv) || (Household.fi_expiresAt inv <=? now) then mret (Unresolved "source_state_invalid")
          else mret users
      end
  end.

(* src: packages/db/src/internal/family-notification-authorization.ts:260-269 resolveAuthorityChangeRecipients *)
Definition resolveAuthorityChangeRecipients (tenant : string) (src : source) : M resolution :=
  db ← withTenant tenant get;
  match find_row (authorities db) tenant (Outbox.s_id src) with
  | None => mret (Unresolved "source_not_found")
  | Some au =>
      match find_row (relationships db) tenant (au_rel au) with
      | None => mret (Unresolved "authorization_ambiguous")
      | Some r => mret (ok (membershipUserIds tenant [r_guardian r] db ++ resolveAuthorizedFamilyManagersTx tenant GuardianAuthorityManage db))
      end
  end.

(* src: packages/db/src/internal/family-notification-authorization.ts:272-278 resolveRecipientAuthorizationChangeRecipients *)
Definition resolveRecipientAuthorizationChangeRecipients (tenant : string) (src : source) : M resolution :=
  db ← withTenant tenant get;
  match find_row (decisions db) tenant (Outbox.s_id src) with
  | None => mret (Unresolved "source_not_found")
  | Some d => mret (ok (membershipUserIds tenant [de_recipient d] db ++ resolveAuthorizedFamilyManagersTx tenant SafetyRecipientAuthorizationView db))
  end.

(* src: packages/db/src/internal/family-notification-authorization.ts:281-295 resolveConsentExpiringRecipients *)
Definition resolveConsentExpiringRecipients (tenant : string) (src : source) (now : Z) : M resolution :=
  db ← withTenant tenant get;
  match find_row (consents db) tenant (Outbox.s_id src) with
  | None => mret (Unresolved "source_not_found")
  | Some c =>
      match isProfileActive tenant (co_profile c) db with
      | None => mret (Unresolved "profile_mismatch")
      | Some active =>
          match c_validUntil (co_state c) with
          | Some until =>
              if negb active || negb ((consentStatus (co_state c) =s "active") && is_none (c_revokedAt (co_state c))) then mret (Unresolved "source_state_invalid")
              else match Outbox.parseConsentExpiringEventVersion (Outbox.s_eventVersion src) with
              | None => mret (Unresolved "source_state_invalid")
              | Some encoded =>
                  if negb (encoded =? until) || (until <=? now) then mret (Unresolved "source_state_invalid")
                  else mret (ok (resolveAuthorizedFamilyManagersTx tenant ConsentManage db))
              end
          | None => mret (Unresolved "source_state_invalid")
          end
      end
  end.

(** * Incidents and plans *)

(* src: packages/core/src/child-safety-orchestration.ts:205-207 CHILD_SAFETY_TERMINAL_INCIDENT_STATUSES *)
Definition CHILD_SAFETY_TERMINAL_INCIDENT_STATUSES : list string := ["resolved"; "dismissed"; "closed"].
(* src: packages/db/src/internal/family-incident-visibility.ts:32-32 IncidentContext *)
Record IncidentContext := { cx_profile : string; cx_signals : list string; cx_escalated : bool }.
(** [inr]: the context; [inl]: why there is none. *)
(* src: packages/db/src/internal/family-incident-visibility.ts:36-51 loadFamilyIncidentContext *)
Definition loadFamilyIncidentContext (incidents : list incident) (links : list incident_link) (tenant incidentId : string) (db : family_db) :
    string + IncidentContext :=
  match find_row incidents tenant incidentId with
  | None => inl "incident_not_found"
  | Some inc =>
      if includes CHILD_SAFETY_TERMINAL_INCIDENT_STATUSES (in_status inc) then inl "incident_not_family_disclosable"
      else if negb (isProfileActive tenant (in_profile inc) db ?? false) then inl "profile_unavailable"
      else
        let signalIds := map il_signal (List.filter (fun l => (il_incident l =s incidentId) && (il_tenant l =s tenant)) links) in
        if Nat.eqb (length signalIds) 0 then inl "no_authorized_linked_signal"
        else
          let sgs := List.filter (fun s => includes signalIds (sg_id s) && (sg_tenant s =s tenant)) (signals db) in
          if negb (Nat.eqb (length sgs) (length signalIds)) then inl "authorization_ambiguous"
          else if existsb (fun s => negb (sg_profile s =s in_profile inc)) sgs then inl "authorization_ambiguous"
          else
            let activeIds := map sg_id (List.filter (fun s => is_none (sg_archivedAt s)) sgs) in
            if Nat.eqb (length activeIds) 0 then inl "no_authorized_linked_signal"
            else inr {| cx_profile := in_profile inc; cx_signals := activeIds; cx_escalated := in_escalation inc =s "escalated" |}
  end.
(* src: packages/db/src/internal/family-incident-visibility.ts:53-55 sysActor *)
Definition sysActor (tenant : string) : FamilyActorContext :=
  {| tenantId := tenant; userId := "system:family-incident-visibility"; role := "owner"; workspaceKind := "family" |}.
(* src: packages/db/src/internal/family-incident-visibility.ts:58-63 authorizedLinkedSignals *)
Definition authorizedLinkedSignals (tenant : string) (signalIds : list string) (membershipId : string) (now : Z) : M (list string) :=
  collect (fun sid => e ← getEffectiveRecipientAuthorization (sysActor tenant) sid membershipId now; mret (if is_some e then Some sid else None)) signalIds.

(* src: packages/db/src/internal/family-incident-visibility.ts:28-30 FamilyIncidentVisibilityDecision *)
Inductive FamilyIncidentVisibilityDecision :=
| Allowed (protectedProfileId : string) (authorizedLinkedSignalIds : list string)
| NotAllowed (reason : string).
Definition caught {A} (m : M A) (fallback : A) : M A := fun db => match m db with Throw _ => Ret (fallback, db) | r => r end.
(* src: packages/db/src/internal/family-incident-visibility.ts:70-83 evaluateFamilyIncidentVisibilityTx *)
Definition evaluateFamilyIncidentVisibilityTx (w : world) (actor : FamilyActorContext) (incidentId : string) (now : Z) : M FamilyIncidentVisibilityDecision :=
  if negb (Workspace.workspaceKind actor =s "family") then mret (NotAllowed "workspace_mismatch")
  else caught (
    db ← get;
    match loadFamilyIncidentContext (incidents w) (links w) (tenantId actor) incidentId db with
    | inl reason => mret (NotAllowed reason)
    | inr cx =>
        match membership_of db (tenantId actor) (userId actor) with
        | None => mret (NotAllowed "no_authorized_linked_signal")
        | Some m =>
            authorized ← authorizedLinkedSignals (tenantId actor) (cx_signals cx) (m_id m) now;
            mret (if Nat.eqb (length authorized) 0 then NotAllowed "no_authorized_linked_signal" else Allowed (cx_profile cx) authorized)
        end
    end) (NotAllowed "evaluator_error").

(* src: packages/db/src/internal/family-incident-visibility.ts:91-91 SOFT_REASONS *)
Definition SOFT_REASONS : list string := ["incident_not_family_disclosable"; "profile_unavailable"; "no_authorized_linked_signal"].
(** [inr]: the users; [inl]: the reason. *)
(* src: packages/db/src/internal/family-incident-visibility.ts:99-115 resolveIncidentRecipientUserIds *)
Definition resolveIncidentRecipientUserIds (w : world) (tenant incidentId : string) (now : Z) (requireEscalated : bool) : M (string + list string) :=
  caught (
    db ← get;
    match loadFamilyIncidentContext (incidents w) (links w) tenant incidentId db with
    | inl reason => mret (if includes SOFT_REASONS reason then inr [] else inl reason)
    | inr cx =>
        if requireEscalated && negb (cx_escalated cx) then mret (inr [])
        else
          eligible ← collect (fun r => l ← authorizedLinkedSignals tenant (cx_signals cx) (r_guardian r) now;
                                       mret (if Nat.ltb 0 (length l) then Some (r_guardian r) else None)) (candidates tenant (cx_profile cx) db);
          mret (inr (match eligible with
                     | [] => []
                     | _ => sorted_users (map m_userId (List.filter (fun m => includes (js_set eligible) (m_id m) && (m_tenant m =s tenant)) (memberships db)))
                     end))
    end) (inl "evaluator_error").
(* src: packages/db/src/internal/family-notification-authorization.ts:298-306 mapIncidentReason *)
Definition mapIncidentReason (reason : string) : string :=
  if reason =s "incident_not_found" then "source_not_found"
  else if includes ["workspace_mismatch"; "tenant_mismatch"; "authorization_ambiguous"] reason then reason
  else "resolver_error".
Definition incident_resolution (r : string + list string) : resolution :=
  match r with inr users => ok users | inl reason => Unresolved (mapIncidentReason reason) end.
(* src: packages/db/src/internal/family-notification-authorization.ts:308-311 resolveIncidentRecipients *)
Definition resolveIncidentRecipients (w : world) (tenant : string) (src : source) (now : Z) : M resolution :=
  r ← resolveIncidentRecipientUserIds w tenant (Outbox.s_id src) now (bool_decide (Outbox.s_type src = Outbox.family_incident_escalated));
  mret (incident_resolution r).
(** The incident of the plan, and whether its state may be disclosed. *)
(* src: packages/db/src/internal/family-incident-visibility.ts:118-122 loadFamilyDisclosablePlan *)
Definition loadFamilyDisclosablePlan (w : world) (tenant planId : string) : option (string * bool) :=
  option_map (fun p => (pp_incident p, includes Outbox.FAMILY_DISCLOSABLE_PLAN_STATES (pp_status p))) (find_row (plans w) tenant planId).
(* src: packages/db/src/internal/family-notification-authorization.ts:313-319 resolveProtectionPlanRecipients *)
Definition resolveProtectionPlanRecipients (w : world) (tenant : string) (src : source) (now : Z) : M resolution :=
  match loadFamilyDisclosablePlan w tenant (Outbox.s_id src) with
  | None => mret (Unresolved "source_not_found")
  | Some (_, false) => mret (ok [])
  | Some (incidentId, true) => r ← resolveIncidentRecipientUserIds w tenant incidentId now false; mret (incident_resolution r)
  end.

(** * The resolver *)

Definition workspace_of (w : world) (tenant : string) : option string := option_map snd (List.find (fun x => fst x =s tenant) (workspaces w)).
(* src: packages/db/src/internal/family-notification-authorization.ts:104-134 resolveFamilyNotificationRecipientsTx *)
Definition dispatch (w : world) (tenant : string) (src : source) (now : Z) : M resolution :=
  match s_type src with
  | family_signal_available | family_urgent_signal => resolveSignalRecipients tenant src now
  | family_delivery_available => resolveDeliveryRecipient tenant src now
  | family_delivery_acknowledged | family_delivery_declined => resolveDeliveryOutcomeRecipients tenant src
  | family_guardian_invitation_accepted | family_guardian_invitation_expiring => resolveInvitationRecipients (invitations w) tenant src now
  | family_authority_changed => resolveAuthorityChangeRecipients tenant src
  | family_recipient_authorization_changed => resolveRecipientAuthorizationChangeRecipients tenant src
  | family_consent_expiring => resolveConsentExpiringRecipients tenant src now
  | family_incident_created | family_incident_escalated => resolveIncidentRecipients w tenant src now
  | family_protection_plan_updated => resolveProtectionPlanRecipients w tenant src now
  end.
(* src: packages/db/src/internal/family-notification-authorization.ts:91-141 resolveFamilyNotificationRecipientsTx *)
Definition resolveFamilyNotificationRecipientsTx (w : world) (tenant : string) (src : source) (now : Z) : resolution :=
  if negb (validEventVersion (s_eventVersion src)) then Unresolved "source_state_invalid"
  else if negb (nonempty tenant) then Unresolved "resolver_error"
  else match workspace_of w tenant with
  | None => Unresolved "tenant_mismatch"
  | Some kind =>
      if negb (kind =s "family") then Unresolved "workspace_mismatch"
      else match result (dispatch w tenant src now) (fam w) with Ret r => r | Throw _ => Unresolved "resolver_error" end
  end.

(** The profile of the source, for the metadata. *)
(* src: packages/db/src/internal/family-notification-authorization.ts:380-398 sourceProfileId *)
Definition sourceProfileId (w : world) (tenant : string) (src : source) : option string :=
  let db := fam w in
  let incident_profile id := option_map in_profile (find_row (incidents w) tenant id) in
  let id := s_id src in
  if s_idKey src =s "safetySignalId" then option_map sg_profile (find_row (signals db) tenant id)
  else if s_idKey src =s "deliveryId" then option_map dl_profile (find_row (deliveries db) tenant id)
  else if s_idKey src =s "consentRecordId" then option_map co_profile (find_row (consents db) tenant id)
  else if s_idKey src =s "authorizationDecisionId" then option_map de_profile (find_row (decisions db) tenant id)
  else if s_idKey src =s "guardianAuthorityRecordId"
  then obind (find_row (authorities db) tenant id) (fun a => option_map r_profile (find_row (relationships db) tenant (au_rel a)))
  else if s_idKey src =s "incidentId" then incident_profile id
  else if s_idKey src =s "protectionPlanId" then obind (find_row (plans w) tenant id) (fun p => incident_profile (pp_incident p))
  else None.

(** * Authorized creation *)

Section Creation.
(** The ids of the rows to be created. *)
Context (ids : string -> string).

Definition creation_input (w : world) (tenant : string) (src : source) (reason : option string) (users : list string) :
    Notifications.CreateFamilyNotificationInput := {|
  Notifications.ci_tenant := tenant; Notifications.ci_type := js_name (s_type src); Notifications.ci_entity := s_id src;
  Notifications.ci_profile := sourceProfileId w tenant src; Notifications.ci_version := s_eventVersion src; Notifications.ci_reason := reason;
  Notifications.ci_occurredAt := Some (s_occurredAt src); Notifications.ci_recipients := users |}.
(* src: packages/db/src/internal/family-notification-authorization.ts:342-371 createAuthorizedFamilyNotificationTx *)
Definition createAuthorizedFamilyNotificationTx (w : world) (tenant : string) (src : source) (reason : option string) (now : Z) :
    world * outcome CreationResult string :=
  match resolveFamilyNotificationRecipientsTx w tenant src now with
  | Unresolved r => (w, Ret (CreationFailed r))
  | Resolved users =>
      match Notifications.createFamilyNotificationTx ids now (creation_input w tenant src reason users) (rows w) with
      | Throw e => (w, Throw e)
      | Ret (created, recipients, t) => (set_rows t w, Ret (CreationOk (Z.of_nat (length users)) created (recipients - created)))
      end
  end.
(* src: packages/db/src/internal/family-notification-authorization.ts:375-377 createAuthorizedFamilyNotification *)
Definition createAuthorizedFamilyNotification (w : world) (tenant : string) (src : source) (now : Z) : world * outcome CreationResult string :=
  if negb (nonempty tenant) then (w, Throw "withTenant: a validated tenantId is required")
  else createAuthorizedFamilyNotificationTx w tenant src None now.
End Creation.

(** * Reading *)

Lemma collect_Ret {A B} (f : A -> M (option B)) l db bs db' : (forall x db o db', f x db = Ret (o, db') -> db' = db) ->
  collect f l db = Ret (bs, db') -> db' = db /\ forall b, In b bs <-> exists x, In x l /\ f x db = Ret (Some b, db).
Proof.
  intros Hf. revert bs db'. induction l as [|x l IH]; intros bs db' H; cbn [collect] in H.
  - apply mret_Ret in H as [-> ->]. split; [done|]. split; [by intros []|by intros (? & [] & _)].
  - apply bind_Ret in H as (o & d1 & Hx & H). pose proof (Hf _ _ _ _ Hx) as ->. apply bind_Ret in H as (rest & d1 & Hr & H).
    apply IH in Hr as [-> Hr]. apply mret_Ret in H as [-> ->]. split; [done|]. intros b. destruct o as [b'|].
    + cbn [In]. rewrite Hr. split; [intros [<-|(y & Hy & Hfy)]; [exists x|exists y]; (split; [|done]); [by left|by right]|].
      intros (y & [<-|Hy] & Hfy); [left; congruence|right; by exists y].
    + rewrite Hr. split; [intros (y & Hy & Hfy); exists y; split; [by right|done]|]. intros (y & [<-|Hy] & Hfy); [congruence|by exists y].
Qed.

Lemma In_sorted_users l u : In u (sorted_users l) <-> In u l.
Proof. unfold sorted_users, Notifications.sort_strings. by rewrite <- list_elem_of_In, js_sort_perm, elem_of_js_set, list_elem_of_In. Qed.
Lemma includes_js_set l s : includes (js_set l) s = true <-> In s l.
Proof. by rewrite includes_In, <- list_elem_of_In, elem_of_js_set, list_elem_of_In. Qed.
(** The users behind memberships. *)
Definition user_of (db : family_db) (tenant u : string) (ids : string -> Prop) : Prop :=
  exists m, In m (memberships db) /\ m_tenant m = tenant /\ m_userId m = u /\ ids (m_id m).
Lemma In_membershipUserIds tenant ids db u :
  In u (membershipUserIds tenant ids db) <-> nonempty u = true /\ user_of db tenant u (fun i => In i ids).
Proof.
  unfold membershipUserIds. destruct ids as [|i l]; [split; [by intros []|by intros (_ & m & _ & _ & _ & [])]|].
  rewrite In_sorted_users, filter_In, in_map_iff. split.
  - intros [(m & <- & Hm) Hne]. apply filter_In in Hm as [Hin Hm]. apply andb_true_iff in Hm as [Hm Ht%String.eqb_eq]. rewrite includes_js_set in Hm.
    split; [done|]. by exists m.
  - intros [Hne (m & Hin & Ht & <- & Hid)]. split; [|done]. exists m. split; [done|]. apply filter_In. split; [done|].
    apply andb_true_iff. split; [by apply includes_js_set|by apply String.eqb_eq].
Qed.
Definition manager (db : family_db) (tenant : string) (action : FamilyAction) (u : string) : Prop :=
  exists m, In m (memberships db) /\ m_tenant m = tenant /\ m_userId m = u /\ familyRoleCan (familyRoleForMembershipRole (m_role m)) action = true.
Lemma In_managers tenant action db u : In u (resolveAuthorizedFamilyManagersTx tenant action db) <-> manager db tenant action u.
Proof.
  unfold resolveAuthorizedFamilyManagersTx, manager. rewrite In_sorted_users, in_map_iff. setoid_rewrite filter_In. setoid_rewrite filter_In.
  setoid_rewrite String.eqb_eq. naive_solver.
Qed.
Lemma getEffective_reads actor sid mid now db o db' : getEffectiveRecipientAuthorization actor sid mid now db = Ret (o, db') -> db' = db.
Proof. intros H. by apply getEffective_Ret in H as [-> _]. Qed.
Lemma get_in_tenant tenant db d db' : withTenant tenant get db = Ret (d, db') -> d = db /\ db' = db.
Proof. by intros [-> ->]%withTenant_Ret%get_Ret. Qed.

(** A person currently authorized for a signal. *)
Definition authorized_for (db : family_db) (actor : FamilyActorContext) (sid membershipId : string) (now : Z) : Prop :=
  exists d, getEffectiveRecipientAuthorization actor sid membershipId now db = Ret (Some d, db).
Definition candidate (db : family_db) (tenant profileId : string) (r : relationship) : Prop :=
  In r (relationships db) /\ r_tenant r = tenant /\ r_profile r = profileId /\ r_status r = "verified" /\ r_revokedAt r = None /\ r_archivedAt r = None.
Lemma In_candidates tenant profileId db r : In r (candidates tenant profileId db) <-> candidate db tenant profileId r.
Proof.
  unfold candidates, candidate. rewrite filter_In, !andb_true_iff, !String.eqb_eq. unfold is_none. destruct (r_revokedAt r), (r_archivedAt r); naive_solver.
Qed.

(** * Exactness *)

Lemma signal_Ret tenant src now db res db' : resolveSignalRecipients tenant src now db = Ret (res, db') ->
  match res with
  | Unresolved _ => True
  | Resolved users => exists sg, find_row (signals db) tenant (s_id src) = Some sg /\ sg_archivedAt sg = None /\
      (s_type src = family_urgent_signal -> In (sg_severity sg) URGENT_SEVERITIES) /\
      forall u, In u users <-> isProfileActive tenant (sg_profile sg) db = Some true /\ nonempty u = true /\
        user_of db tenant u (fun i => exists r, candidate db tenant (sg_profile sg) r /\ r_guardian r = i /\
          authorized_for db (resolverActor tenant) (sg_id sg) i now)
  end.
Proof.
  unfold resolveSignalRecipients. intros (d & d1 & [-> ->]%get_in_tenant & H)%bind_Ret.
  destruct (find_row (signals db) tenant (s_id src)) as [sg|] eqn:Hsg; [|by apply mret_Ret in H as [-> _]].
  destruct (is_some (sg_archivedAt sg)) eqn:Harch; [by apply mret_Ret in H as [-> _]|].
  destruct (bool_decide _ && negb _) eqn:Hurg; [by apply mret_Ret in H as [-> _]|].
  assert (Hsev : s_type src = family_urgent_signal -> In (sg_severity sg) URGENT_SEVERITIES).
  { intros Ht. rewrite bool_decide_true in Hurg by done. by apply negb_false_iff, includes_In in Hurg. }
  assert (Hna : sg_archivedAt sg = None) by (by destruct (sg_archivedAt sg)).
  destruct (isProfileActive tenant (sg_profile sg) db) as [[|]|] eqn:Hp; [| |by apply mret_Ret in H as [-> _]].
  - apply bind_Ret in H as (ids & d1 & Hc & [-> ->]%mret_Ret). exists sg. split_and!; [done..|]. intros u.
    apply collect_Ret in Hc as [-> Hc]; [|intros r d2 o d3 (e & d4 & ->%getEffective_reads & [_ ->]%mret_Ret)%bind_Ret; done].
    rewrite In_membershipUserIds. split.
    + intros [Hne (m & Hm & Ht & Hu & Hid)]. split_and!; [done..|]. exists m. split_and!; [done..|]. apply Hc in Hid as (r & Hr & Hf).
      exists r. rewrite In_candidates in Hr. apply bind_Ret in Hf as (e & d2 & He & [Hs ->]%mret_Ret). destruct e as [e|]; [|done]. injection Hs as Hs.
      split_and!; [done..|]. exists e. by rewrite Hs.
    + intros (_ & Hne & m & Hm & Ht & Hu & r & Hr & Hg & e & He). split; [done|]. exists m. split_and!; [done..|]. apply Hc. exists r.
      split; [by apply In_candidates|]. apply bind_Ret. exists (Some e), db. rewrite Hg. split; [exact He|]. by apply mret_Ret.
  - apply mret_Ret in H as [-> _]. exists sg. split_and!; [done..|]. intros u. split; [by intros []|]. intros [Hc _]. congruence.
Qed.
Lemma resolve_Ret w tenant src now users : resolveFamilyNotificationRecipientsTx w tenant src now = Resolved users ->
  nonempty tenant = true /\ workspace_of w tenant = Some "family" /\ exists db', dispatch w tenant src now (fam w) = Ret (Resolved users, db').
Proof.
  unfold resolveFamilyNotificationRecipientsTx. destruct (negb (validEventVersion _)); [done|]. destruct (nonempty tenant); [|done]. cbn [negb].
  destruct (workspace_of w tenant) as [kind|]; [|done]. destruct (kind =s "family") eqn:Hk; [|done]. cbn [negb]. apply String.eqb_eq in Hk as ->.
  unfold result. destruct (dispatch w tenant src now (fam w)) as [[r db']|e]; [|done]. intros ->. eauto.
Qed.

(** Who hears of a safety signal, exactly: users of the workspace behind a membership that is the guardian of a verified, live relationship to
    the child of the signal, and that the full disclosure chain authorizes for this very signal now; the child's profile is active, the signal
    not archived, and an urgent notice is only sent for a signal stored as high or critical. *)
Theorem signal_recipients_exact (w : world) (tenant : string) (src : source) (now : Z) (users : list string) :
  In (s_type src) [family_signal_available; family_urgent_signal] -> resolveFamilyNotificationRecipientsTx w tenant src now = Resolved users ->
  exists sg, find_row (signals (fam w)) tenant (s_id src) = Some sg /\ sg_archivedAt sg = None /\
    (s_type src = family_urgent_signal -> In (sg_severity sg) URGENT_SEVERITIES) /\
    forall u, In u users <-> isProfileActive tenant (sg_profile sg) (fam w) = Some true /\ nonempty u = true /\
      user_of (fam w) tenant u (fun i => exists r, candidate (fam w) tenant (sg_profile sg) r /\ r_guardian r = i /\
        authorized_for (fam w) (resolverActor tenant) (sg_id sg) i now).
Proof.
  intros Hty (_ & _ & db' & H)%resolve_Ret. assert (Hd : dispatch w tenant src now = resolveSignalRecipients tenant src now)
    by (unfold dispatch; destruct Hty as [<-|[<-|[]]]; done). rewrite Hd in H. by apply signal_Ret in H.
Qed.

(** * The catalogue's rules *)

Lemma linked_Ret tenant sids mid now db l db' : authorizedLinkedSignals tenant sids mid now db = Ret (l, db') ->
  db' = db /\ forall s, In s l <-> In s sids /\ authorized_for db (sysActor tenant) s mid now.
Proof.
  intros H. apply collect_Ret in H as [-> Hc]; [|intros s d2 o d3 (e & d4 & ->%getEffective_reads & [_ ->]%mret_Ret)%bind_Ret; done].
  split; [done|]. intros s. rewrite Hc. split.
  - intros (x & Hx & (e & d2 & He & [Hs ->]%mret_Ret)%bind_Ret). destruct e as [e|]; [|done]. injection Hs as ->. split; [done|]. by exists e.
  - intros (Hs & e & He). exists s. split; [done|]. apply bind_Ret. exists (Some e), db. split; [exact He|]. by apply mret_Ret.
Qed.
Lemma caught_Ret {A} (m : M A) f db a db' : caught m f db = Ret (a, db') -> m db = Ret (a, db') \/ a = f /\ db' = db.
Proof. unfold caught. destruct (m db) as [[b d]|e]; [by left|]. intros [= <- <-]. by right. Qed.
(** Whom an incident may reach. *)
Definition incident_viewer (w : world) (tenant incidentId : string) (now : Z) (u : string) : Prop := exists cx,
  loadFamilyIncidentContext (incidents w) (links w) tenant incidentId (fam w) = inr cx /\
  user_of (fam w) tenant u (fun i => (exists r, candidate (fam w) tenant (cx_profile cx) r /\ r_guardian r = i) /\
    exists s, In s (cx_signals cx) /\ authorized_for (fam w) (sysActor tenant) s i now).
(** The same, with the reads the resolver makes. *)
Definition incident_notified (w : world) (tenant incidentId : string) (now : Z) (u : string) : Prop := exists cx,
  loadFamilyIncidentContext (incidents w) (links w) tenant incidentId (fam w) = inr cx /\
  user_of (fam w) tenant u (fun i => (exists r, candidate (fam w) tenant (cx_profile cx) r /\ r_guardian r = i) /\
    exists s l, authorizedLinkedSignals tenant (cx_signals cx) i now (fam w) = Ret (s :: l, fam w)).
Lemma notified_viewer w tenant incidentId now u : incident_notified w tenant incidentId now u -> incident_viewer w tenant incidentId now u.
Proof.
  intros (cx & Hcx & m & Hin & Ht & Hu & Hr & s & l & Hl). exists cx. split; [done|]. exists m. split; [done|]. split; [done|]. split; [done|].
  split; [done|]. exists s. apply linked_Ret in Hl as [_ Hl]. apply Hl. by left.
Qed.
Lemma incident_Ret w tenant incidentId now esc users db' :
  resolveIncidentRecipientUserIds w tenant incidentId now esc (fam w) = Ret (inr users, db') ->
  forall u, In u users -> incident_notified w tenant incidentId now u /\
    (esc = true -> exists cx, loadFamilyIncidentContext (incidents w) (links w) tenant incidentId (fam w) = inr cx /\ cx_escalated cx = true).
Proof.
  unfold resolveIncidentRecipientUserIds. intros [H|[? _]]%caught_Ret u Hu; [|done]. apply bind_Ret in H as (d & d1 & [-> ->]%get_Ret & H).
  destruct (loadFamilyIncidentContext _ _ _ _ _) as [reason|cx] eqn:Hcx.
  { apply mret_Ret in H as [H _]. destruct (includes _ _); [|done]. by injection H as ->. }
  destruct (esc && negb (cx_escalated cx)) eqn:Hesc; [apply mret_Ret in H as [[= ->] _]; done|].
  apply bind_Ret in H as (ids & d1 & Hc & [Hus ->]%mret_Ret). injection Hus as ->.
  apply collect_Ret in Hc as [-> Hc]; [|intros r d2 o d3 (l & d4 & [-> _]%linked_Ret & [_ ->]%mret_Ret)%bind_Ret; done].
  split; [|intros ->; exists cx; split; [done|]; by destruct (cx_escalated cx)]. exists cx. split; [done|]. destruct ids as [|i ids']; [done|].
  rewrite In_sorted_users, in_map_iff in Hu. destruct Hu as (m & Hmu & Hm). apply filter_In in Hm as [Hin Hm].
  apply andb_true_iff in Hm as [Hid Ht%String.eqb_eq]. exists m. split; [done|]. split; [done|]. split; [done|]. apply includes_js_set, Hc in Hid as (r & Hr%In_candidates & Hf).
  apply bind_Ret in Hf as (l & d2 & Hl & [Hs _]%mret_Ret). pose proof Hl as [-> _]%linked_Ret. destruct (Nat.ltb_spec 0 (length l)) as [Hlen|]; [|done]. injection Hs as Hs.
  destruct l as [|s l]; [by cbn in Hlen; lia|]. split; [by exists r|]. exists s, l. by rewrite Hs.
Qed.

(** Whom the rule of a type admits. *)
Definition affected_membership (w : world) (tenant : string) (src : source) (i : string) : Prop :=
  let db := fam w in
  match s_type src with
  | family_authority_changed => exists a r, find_row (authorities db) tenant (s_id src) = Some a /\ find_row (relationships db) tenant (au_rel a) = Some r /\ r_guardian r = i
  | family_recipient_authorization_changed => exists d, find_row (decisions db) tenant (s_id src) = Some d /\ de_recipient d = i
  | _ => False
  end.
Definition holds_action (w : world) (tenant : string) (src : source) (u : string) : Prop :=
  exists action, MANAGER_ACTION (s_type src) = Some action /\ manager (fam w) tenant action u.
(** A guardian of the child of the source's own signal, in a verified, live relationship, whom the full
    disclosure chain authorizes for that signal. *)
Definition signal_reader (w : world) (tenant signalId : string) (now : Z) (u : string) : Prop := exists sg,
  find_row (signals (fam w)) tenant signalId = Some sg /\
  user_of (fam w) tenant u (fun i => (exists r, candidate (fam w) tenant (sg_profile sg) r /\ r_guardian r = i) /\
    authorized_for (fam w) (resolverActor tenant) signalId i now).
Definition incident_escalated (w : world) (tenant incidentId : string) : Prop := exists cx,
  loadFamilyIncidentContext (incidents w) (links w) tenant incidentId (fam w) = inr cx /\ cx_escalated cx = true.
Definition rule_allows (rule : Notifications.FamilyRecipientRule) (w : world) (tenant : string) (src : source) (now : Z) (u : string) : Prop :=
  let db := fam w in
  match rule with
  | Notifications.cs_authorized_recipient =>
      match s_type src with
      | family_signal_available | family_urgent_signal => signal_reader w tenant (s_id src) now u
      | family_incident_created => incident_viewer w tenant (s_id src) now u
      | family_incident_escalated => incident_viewer w tenant (s_id src) now u /\ incident_escalated w tenant (s_id src)
      | _ => False
      end
  | Notifications.delivery_recipient => exists d, find_row (deliveries db) tenant (s_id src) = Some d /\ deliveryStatus (dl_state d) = "available" /\
      user_of db tenant u (fun i => i = dl_recipient d) /\ rests_on_decision db (resolverActor tenant) (dl_decision d) [] now
  | Notifications.family_manager => holds_action w tenant src u
  | Notifications.inviter_plus_admins => holds_action w tenant src u \/
      exists inv, find_row (invitations w) tenant (s_id src) = Some inv /\ user_of db tenant u (fun i => i = Household.fi_invitedBy inv)
  | Notifications.affected_guardian_plus_managers => holds_action w tenant src u \/ user_of db tenant u (affected_membership w tenant src)
  | Notifications.protection_plan_viewer => exists p, find_row (plans w) tenant (s_id src) = Some p /\
      In (pp_status p) FAMILY_DISCLOSABLE_PLAN_STATES /\ incident_viewer w tenant (pp_incident p) now u
  end.

Lemma rests_weaken db actor id scopes now : rests_on_decision db actor id scopes now -> rests_on_decision db actor id [] now.
Proof. intros (e & rel & ? & ? & ? & ? & ? & ? & _). exists e, rel. split_and!; [done..|]. by intros s ?%not_elem_of_nil. Qed.
Lemma In_ok users us u : Resolved us = ok users -> In u us <-> In u users.
Proof. intros [= ->]. apply In_sorted_users. Qed.
Lemma user_of_impl db tenant u (p q : string -> Prop) : (forall i, p i -> q i) -> user_of db tenant u p -> user_of db tenant u q.
Proof. intros H (m & ? & ? & ? & ?). exists m. auto. Qed.
Lemma user_of_one tenant i db u : In u (membershipUserIds tenant [i] db) -> user_of db tenant u (fun x => x = i).
Proof. intros [_ H]%In_membershipUserIds. revert H. apply user_of_impl. by intros x [<-|[]]. Qed.
Lemma holds_intro w tenant src action u : MANAGER_ACTION (s_type src) = Some action ->
  In u (resolveAuthorizedFamilyManagersTx tenant action (fam w)) -> holds_action w tenant src u.
Proof. intros Ha Hu%In_managers. by exists action. Qed.

Lemma outcome_rule w tenant src users u db' : MANAGER_ACTION (s_type src) = Some SafetyDeliveryView ->
  resolveDeliveryOutcomeRecipients tenant src (fam w) = Ret (Resolved users, db') -> In u users -> holds_action w tenant src u.
Proof.
  intros Ha (d & d1 & [-> ->]%get_in_tenant & H)%bind_Ret Hu. destruct (find_row _ _ _) as [dl|]; [|by apply mret_Ret in H as [? _]].
  destruct (isProfileActive _ _ _) as [act|]; [|by apply mret_Ret in H as [? _]]. cbv zeta in H. destruct (negb act || _); apply mret_Ret in H as [H _].
  - by apply (In_ok [] users u H) in Hu.
  - apply (In_ok _ _ u H) in Hu. by apply (holds_intro _ _ _ _ _ Ha).
Qed.
Lemma invitation_rule w tenant src now users u db' : MANAGER_ACTION (s_type src) = Some FamilyInvitationView ->
  resolveInvitationRecipients (invitations w) tenant src now (fam w) = Ret (Resolved users, db') -> In u users ->
  rule_allows Notifications.inviter_plus_admins w tenant src now u.
Proof.
  intros Ha (d & d1 & [-> ->]%get_in_tenant & H)%bind_Ret Hu. destruct (find_row (invitations w) tenant (s_id src)) as [inv|] eqn:Hinv;
    [|by apply mret_Ret in H as [? _]].
  assert (Hus : Resolved users = ok (membershipUserIds tenant [Household.fi_invitedBy inv] (fam w) ++ resolveAuthorizedFamilyManagersTx tenant FamilyInvitationView (fam w)) \/
    Resolved users = ok []).
  { cbv zeta in H. destruct (bool_decide _); [destruct (_ || _); apply mret_Ret in H as [H _]; by (left + right)|].
    destruct (negb _); [by apply mret_Ret in H as [? _]|]. destruct (parseInvitationExpiringEventVersion _); [|by apply mret_Ret in H as [? _]].
    destruct (_ || _); apply mret_Ret in H as [H _]; [done|by left]. }
  destruct Hus as [Hus|Hus]; apply (In_ok _ _ u Hus) in Hu; [|done]. apply in_app_iff in Hu as [Hu|Hu].
  - right. exists inv. split; [done|]. by apply user_of_one.
  - left. by apply (holds_intro _ _ _ _ _ Ha).
Qed.
Lemma affected_rule w tenant src action i users u : MANAGER_ACTION (s_type src) = Some action -> affected_membership w tenant src i ->
  Resolved users = ok (membershipUserIds tenant [i] (fam w) ++ resolveAuthorizedFamilyManagersTx tenant action (fam w)) -> In u users ->
  rule_allows Notifications.affected_guardian_plus_managers w tenant src 0 u.
Proof.
  intros Ha Hi Hus Hu. apply (In_ok _ _ u Hus) in Hu. apply in_app_iff in Hu as [Hu|Hu]; [right|left; by apply (holds_intro _ _ _ _ _ Ha)].
  apply user_of_one in Hu. revert Hu. apply user_of_impl. by intros x ->.
Qed.
Lemma authority_rule w tenant src users u db' : s_type src = family_authority_changed ->
  resolveAuthorityChangeRecipients tenant src (fam w) = Ret (Resolved users, db') -> In u users ->
  rule_allows Notifications.affected_guardian_plus_managers w tenant src 0 u.
Proof.
  intros Ht (d & d1 & [-> ->]%get_in_tenant & H)%bind_Ret Hu. destruct (find_row (authorities _) _ _) as [a|] eqn:Ha; [|by apply mret_Ret in H as [? _]].
  destruct (find_row (relationships _) _ _) as [r|] eqn:Hr; [|by apply mret_Ret in H as [? _]]. apply mret_Ret in H as [H _].
  eapply (affected_rule w tenant src GuardianAuthorityManage (r_guardian r)); [by rewrite Ht| |exact H|done]. unfold affected_membership. rewrite Ht. by exists a, r.
Qed.
Lemma decision_rule w tenant src users u db' : s_type src = family_recipient_authorization_changed ->
  resolveRecipientAuthorizationChangeRecipients tenant src (fam w) = Ret (Resolved users, db') -> In u users ->
  rule_allows Notifications.affected_guardian_plus_managers w tenant src 0 u.
Proof.
  intros Ht (d & d1 & [-> ->]%get_in_tenant & H)%bind_Ret Hu. destruct (find_row (decisions _) _ _) as [a|] eqn:Ha; [|by apply mret_Ret in H as [? _]].
  apply mret_Ret in H as [H _]. eapply (affected_rule w tenant src SafetyRecipientAuthorizationView (de_recipient a)); [by rewrite Ht| |exact H|done].
  unfold affected_membership. rewrite Ht. by exists a.
Qed.
Lemma consent_Ret tenant src now db users db' : resolveConsentExpiringRecipients tenant src now db = Ret (Resolved users, db') ->
  exists c until, find_row (consents db) tenant (s_id src) = Some c /\ isProfileActive tenant (co_profile c) db = Some true /\
    consentStatus (co_state c) = "active" /\ c_revokedAt (co_state c) = None /\ c_validUntil (co_state c) = Some until /\
    parseConsentExpiringEventVersion (s_eventVersion src) = Some until /\ now < until /\
    Resolved users = ok (resolveAuthorizedFamilyManagersTx tenant ConsentManage db).
Proof.
  intros (d & d1 & [-> ->]%get_in_tenant & H)%bind_Ret. destruct (find_row (consents db) tenant (s_id src)) as [c|] eqn:Hc; [|by apply mret_Ret in H as [? _]].
  destruct (isProfileActive _ _ _) as [act|] eqn:Hact; [|by apply mret_Ret in H as [? _]].
  destruct (c_validUntil (co_state c)) as [until|] eqn:Hv; [|by apply mret_Ret in H as [? _]].
  destruct (negb act || _) eqn:Hg; [by apply mret_Ret in H as [? _]|]. destruct (parseConsentExpiringEventVersion _) as [enc|] eqn:He; [|by apply mret_Ret in H as [? _]].
  destruct (negb (enc =? until) || _) eqn:Hs; [by apply mret_Ret in H as [? _]|]. apply mret_Ret in H as [H _].
  apply orb_false_iff in Hg as [->%negb_false_iff Hg%negb_false_iff]. apply andb_true_iff in Hg as [Hst%String.eqb_eq Hrv].
  apply orb_false_iff in Hs as [Heq%negb_false_iff%Z.eqb_eq Hn%Z.leb_gt]. subst enc. exists c, until. split_and!; try done. by destruct (c_revokedAt (co_state c)).
Qed.
Lemma delivery_rule w tenant src now users u db' : resolveDeliveryRecipient tenant src now (fam w) = Ret (Resolved users, db') -> In u users ->
  rule_allows Notifications.delivery_recipient w tenant src now u.
Proof.
  intros (d & d1 & [-> ->]%get_in_tenant & H)%bind_Ret Hu. destruct (find_row (deliveries _) _ _) as [dl|] eqn:Hd; [|by apply mret_Ret in H as [? _]].
  destruct (negb (deliveryStatus _ =s _)) eqn:Hst; [apply mret_Ret in H as [[= ->] _]; done|]. destruct (_ || _); [by apply mret_Ret in H as [? _]|].
  apply bind_Ret in H as (el & d1 & [-> Hel]%eligibility_Ret & H). destruct (el_eligible el); [|apply mret_Ret in H as [[= ->] _]; done]. cbn [negb] in H.
  destruct (negb (el_recipient el =s _)); apply mret_Ret in H as [H _]; [done|]. injection H as ->. exists dl. split; [done|].
  split; [by apply negb_false_iff, String.eqb_eq in Hst|]. split; [by apply user_of_one|]. by eapply rests_weaken, Hel.
Qed.
Lemma incident_rule w tenant incidentId now esc users u db' :
  (r ← resolveIncidentRecipientUserIds w tenant incidentId now esc; mret (incident_resolution r)) (fam w) = Ret (Resolved users, db') ->
  In u users -> incident_viewer w tenant incidentId now u /\ (esc = true -> incident_escalated w tenant incidentId).
Proof.
  intros (r & d1 & Hr & [H _]%mret_Ret)%bind_Ret Hu. destruct r as [reason|us]; [done|]. apply (In_ok _ _ u H) in Hu.
  apply (incident_Ret _ _ _ _ _ _ _ Hr) in Hu as [Hu He]. split; [by apply notified_viewer|exact He].
Qed.
Lemma signal_rule tenant src now w users u db' : resolveSignalRecipients tenant src now (fam w) = Ret (Resolved users, db') -> In u users ->
  signal_reader w tenant (s_id src) now u.
Proof.
  intros (sg & Hsg & _ & _ & Hall)%signal_Ret Hu. apply Hall in Hu as (_ & _ & Hu). exists sg. split; [done|].
  pose proof (find_row_Some _ _ _ _ Hsg) as (_ & Hid & _). change (sg_id sg = s_id src) in Hid. revert Hu. apply user_of_impl. intros i (r & Hr & <- & Ha). split; [by exists r|]. by rewrite <- Hid.
Qed.

(** C26 — Notifications follow the rule of the catalogue, for all thirteen types: whoever the resolver returns is a member of the workspace whom
    the recipient rule of the type admits for the very source of the notification. Of a signal, a guardian of its child whom the live
    disclosure chain authorizes for that signal; of an incident, a guardian of its child authorized for a signal linked to that incident,
    which for an escalation is escalated; of a protection plan, the same for the plan's incident; of a delivery, its own recipient under its own
    decision; of the rest, the holders of the exact manager action, the inviter, or the guardian whose authority or decision changed. *)
Theorem recipients_follow_rule (w : world) (tenant : string) (src : source) (now : Z) (users : list string) (u : string) :
  resolveFamilyNotificationRecipientsTx w tenant src now = Resolved users -> In u users ->
  rule_allows (Notifications.familyRecipientRule (s_type src)) w tenant src now u.
Proof.
  intros (_ & _ & db' & H)%resolve_Ret Hu. unfold dispatch in H. unfold Notifications.familyRecipientRule.
  destruct (s_type src) eqn:Ht; cbn [Notifications.FAMILY_NOTIFICATION_CATALOGUE Notifications.recipientRule].
  - by eapply delivery_rule.
  - eapply outcome_rule; [by rewrite Ht|exact H|done].
  - eapply outcome_rule; [by rewrite Ht|exact H|done].
  - eapply invitation_rule; [by rewrite Ht|exact H|done].
  - by eapply (authority_rule w tenant src users u).
  - by eapply (decision_rule w tenant src users u).
  - cbn [rule_allows]. rewrite Ht. by apply (signal_rule _ _ _ _ _ _ _ H).
  - cbn [rule_allows]. rewrite Ht. by apply (signal_rule _ _ _ _ _ _ _ H).
  - cbn [rule_allows]. rewrite Ht. by eapply incident_rule.
  - cbn [rule_allows]. rewrite Ht. unfold resolveIncidentRecipients in H. rewrite Ht in H.
    by destruct (incident_rule _ _ _ _ _ _ _ _ H Hu) as [Hv He]; split; [|apply He].
  - unfold resolveProtectionPlanRecipients, loadFamilyDisclosablePlan in H. destruct (find_row (plans w) tenant (s_id src)) as [p|] eqn:Hp;
      cbn [option_map] in H; [|by apply mret_Ret in H as [? _]]. exists p. split; [done|].
    destruct (includes FAMILY_DISCLOSABLE_PLAN_STATES (pp_status p)) eqn:Hst; [|by apply mret_Ret in H as [H _]; apply (In_ok [] users u H) in Hu].
    split; [by apply includes_In|]. by eapply incident_rule.
  - eapply invitation_rule; [by rewrite Ht|exact H|done].
  - apply consent_Ret in H as (c & until & _ & _ & _ & _ & _ & _ & _ & H). apply (In_ok _ _ u H) in Hu.
    eapply holds_intro; [by rewrite Ht|exact Hu].
Qed.

(** * Stale warnings *)

Lemma invitation_Ret invs tenant src now db users db' : s_type src <> family_guardian_invitation_accepted ->
  resolveInvitationRecipients invs tenant src now db = Ret (Resolved users, db') ->
  exists inv, find_row invs tenant (s_id src) = Some inv /\ Household.fi_status inv = FI_Pending /\
    parseInvitationExpiringEventVersion (s_eventVersion src) = Some (Household.fi_expiresAt inv) /\ now < Household.fi_expiresAt inv.
Proof.
  intros Hty (d & d1 & [-> ->]%get_in_tenant & H)%bind_Ret. destruct (find_row invs tenant (s_id src)) as [inv|]; [|by apply mret_Ret in H as [? _]].
  cbv zeta in H. rewrite bool_decide_false in H by done. destruct (negb (_ =e _)) eqn:Hst; [by apply mret_Ret in H as [? _]|].
  destruct (parseInvitationExpiringEventVersion _) as [enc|] eqn:He; [|by apply mret_Ret in H as [? _]].
  destruct (negb (enc =? _) || _) eqn:Hg; [by apply mret_Ret in H as [? _]|].
  apply orb_false_iff in Hg as [Heq%negb_false_iff%Z.eqb_eq Hn%Z.leb_gt]. subst enc. exists inv. split_and!; [done| |done|done].
  by apply negb_false_iff, enum_eqb_eq in Hst.
Qed.

(** What a warning of an expiry is about, and when it expires. *)
Definition still_expires (w : world) (tenant : string) (src : source) (expiry : Z) : Prop :=
  match s_type src with
  | family_guardian_invitation_expiring => exists inv, find_row (invitations w) tenant (s_id src) = Some inv /\
      Household.fi_status inv = FI_Pending /\ Household.fi_expiresAt inv = expiry
  | family_consent_expiring => exists c, find_row (consents (fam w)) tenant (s_id src) = Some c /\
      consentStatus (co_state c) = "active" /\ c_revokedAt (co_state c) = None /\ c_validUntil (co_state c) = Some expiry /\
      isProfileActive tenant (co_profile c) (fam w) = Some true
  | _ => False
  end.

(** No stale warning: an event that warned of an expiry reaches nobody once the invitation is answered or withdrawn, the consent revoked or
    replaced, the expiry moved or passed: if anybody is resolved, the row still expires at the very instant the event was raised for, and that
    instant is still to come. *)
Theorem stale_warning_never_sent (w : world) (tenant : string) (src : source) (now expiry : Z) (users : list string) :
  In (s_type src, s_eventVersion src) [(family_guardian_invitation_expiring, invitationExpiringEventVersion expiry);
    (family_consent_expiring, consentExpiringEventVersion expiry)] -> 0 <= expiry < 10 ^ 15 ->
  resolveFamilyNotificationRecipientsTx w tenant src now = Resolved users -> still_expires w tenant src expiry /\ now < expiry.
Proof.
  intros Hty He (_ & _ & db' & H)%resolve_Ret. unfold dispatch in H. unfold still_expires.
  destruct Hty as [Hty|[Hty|[]]]; injection Hty as Ht Hv; rewrite <- Ht in H |- *.
  - apply invitation_Ret in H as (inv & Hinv & Hst & Hp & Hn); [|by rewrite <- Ht]. rewrite <- Hv in Hp.
    unfold parseInvitationExpiringEventVersion, invitationExpiringEventVersion in Hp. rewrite parse_expiring_version in Hp by done.
    injection Hp as Hp. split; [by exists inv|lia].
  - apply consent_Ret in H as (c & until & Hc & Hact & Hst & Hrv & Hu & Hp & Hn & _). rewrite <- Hv in Hp.
    unfold parseConsentExpiringEventVersion, consentExpiringEventVersion in Hp. rewrite parse_expiring_version in Hp by done.
    injection Hp as ->. split; [by exists c|lia].
Qed.

(** * Creation *)

(** The row of an event for a user. *)
Definition row_of (tenant : string) (src : source) (u : string) (n : Notifications.notification) : Prop :=
  Notifications.n_user n = Some u /\ Notifications.n_tenant n = tenant /\ Notifications.n_type n = js_name (s_type src) /\
  Notifications.n_dedupeKey n = Notifications.key_of (s_type src) u (s_id src) (s_eventVersion src).

(** What one creation does to the table. *)
Lemma creation_Ret ids w tenant src reason now w' eligible created dups :
  createAuthorizedFamilyNotificationTx ids w tenant src reason now = (w', Ret (CreationOk eligible created dups)) ->
  exists users, resolveFamilyNotificationRecipientsTx w tenant src now = Resolved users /\ eligible = Z.of_nat (length users) /\
    Notifications.createFamilyNotificationTx ids now (creation_input w tenant src reason users) (rows w) = Ret (created, created + dups, rows w') /\
    w' = set_rows (rows w') w.
Proof.
  unfold createAuthorizedFamilyNotificationTx. destruct (resolveFamilyNotificationRecipientsTx w tenant src now) as [users|] eqn:Hr; [|done].
  destruct (Notifications.createFamilyNotificationTx _ _ _ _) as [[[c r] t]|] eqn:Hc; [|done]. intros [= <- <- <- <-]. exists users.
  cbn [rows set_rows]. split_and!; [done|done| |done]. rewrite Hc. f_equal. f_equal. f_equal. lia.
Qed.
Lemma creation_rejected ids w tenant src reason now w' res :
  createAuthorizedFamilyNotificationTx ids w tenant src reason now = (w', res) -> (exists e c d, res = Ret (CreationOk e c d)) \/ w' = w.
Proof.
  unfold createAuthorizedFamilyNotificationTx. destruct (resolveFamilyNotificationRecipientsTx _ _ _ _); [|intros [= <- <-]; by right].
  destruct (Notifications.createFamilyNotificationTx _ _ _ _) as [[[c r] t]|]; intros [= <- <-]; [left; eauto|by right].
Qed.
Lemma creation_rows ids w tenant src reason now w' res : createAuthorizedFamilyNotificationTx ids w tenant src reason now = (w', res) ->
  exists added, w' = set_rows (rows w ++ added) w /\ (Notifications.keys_unique (rows w) -> Notifications.keys_unique (rows w')) /\
    forall n, In n added -> exists users u, resolveFamilyNotificationRecipientsTx w tenant src now = Resolved users /\ In u users /\ row_of tenant src u n.
Proof.
  intros H. destruct (creation_rejected _ _ _ _ _ _ _ _ H) as [(e & c & d & ->) | ->].
  - apply creation_Ret in H as (users & Hr & _ & Hc & Hw). apply (Notifications.create_adds ids ids now now) in Hc as (_ & added & Heq & _ & Hu & Hin).
    exists added. split; [by rewrite <- Heq|]. split; [done|]. intros n (u & ty & meta & Hin' & _ & Hty & ->)%Hin. exists users, u. split_and!; [done..|].
    apply (js_name_inj (s_type src) ty) in Hty as <-. done.
  - exists []. rewrite app_nil_r. split_and!; [by destruct w|done|by intros ? []].
Qed.

(** Authorized creation is all or nothing, and idempotent: if it fails nothing changes; if it succeeds only notification rows of users the
    resolver returned are added, the counts add up, no other table changes, and repeating it with other ids changes nothing and reports every
    recipient as a duplicate. *)
Theorem authorized_creation_exact (ids ids' : string -> string) (w w' : world) (tenant : string) (src : source) (reason : option string) (now : Z)
    (res : outcome CreationResult string) :
  createAuthorizedFamilyNotificationTx ids w tenant src reason now = (w', res) ->
  match res with
  | Ret (CreationOk eligible created dups) =>
      exists users added, resolveFamilyNotificationRecipientsTx w tenant src now = Resolved users /\ eligible = Z.of_nat (length users) /\
        w' = set_rows (rows w ++ added) w /\ created = Z.of_nat (length added) /\
        (forall n, In n added -> exists u, In u users /\ row_of tenant src u n) /\
        createAuthorizedFamilyNotificationTx ids' w' tenant src reason now = (w', Ret (CreationOk eligible 0 (created + dups)))
  | _ => w' = w
  end.
Proof.
  intros H. destruct (creation_rejected _ _ _ _ _ _ _ _ H) as [(e & c & d & ->) | ->].
  - destruct (creation_rows _ _ _ _ _ _ _ _ H) as (added & Hw & _ & Hin). apply creation_Ret in H as (users & Hr & -> & Hc & _).
    apply (Notifications.create_adds ids ids' now now) in Hc as (Hagain & added' & Heq & Hcount & _ & _).
    assert (added' = added) as -> by (rewrite Hw in Heq; by apply app_inv_head in Heq).
    exists users, added. split_and!; [done..| |].
    + intros n (users' & u & Hr' & Hu & Hrow)%Hin. rewrite Hr in Hr'. injection Hr' as <-. by exists u.
    + unfold createAuthorizedFamilyNotificationTx. subst w'. change (resolveFamilyNotificationRecipientsTx (set_rows ?l w)) with (resolveFamilyNotificationRecipientsTx w).
      rewrite Hr. change (creation_input (set_rows ?l w)) with (creation_input w). rewrite Hagain. f_equal. f_equal. f_equal. lia.
  - destruct res as [[e c d|] |]; [|done..]. apply creation_Ret in H as (users & Hr & -> & Hc & _).
    apply (Notifications.create_adds ids ids' now now) in Hc as (Hagain & added & Heq & Hcount & _ & _).
    assert (added = []) as -> by (apply (app_inv_head (rows w)); by rewrite app_nil_r). cbn in Hcount. exists users, [].
    rewrite app_nil_r. split_and!; [done|done|by destruct w|done|by intros ? []|]. unfold createAuthorizedFamilyNotificationTx.
    rewrite Hr, Hagain. f_equal; [by destruct w|]. f_equal. f_equal. lia.
Qed.

(** * Attempts of the outbox *)

(** A delivery attempt: the event claimed, the instant, the database's ids, and the other tables as the attempt finds them; between attempts
    those may change in any way. *)
Record attempt := { at_event : event_row; at_now : Z; at_ids : string -> string; at_world : world }.
Definition exec (a : attempt) (t : Notifications.notifications) : world * Outcome :=
  processOne (createAuthorizedFamilyNotification (at_ids a)) (at_event a) (at_now a) (set_rows t (at_world a)).
Definition run (l : list attempt) (t : Notifications.notifications) : Notifications.notifications := fold_left (fun t a => rows (fst (exec a t))) l t.
(** The row a successful attempt of the list owes to a user. *)
Definition owed (l : list attempt) (n : Notifications.notification) : Prop := exists a src users u, In a l /\
  buildAuthorizationSource (at_event a) = Some src /\
  resolveFamilyNotificationRecipientsTx (at_world a) (e_tenantId (at_event a)) src (at_now a) = Resolved users /\ In u users /\
  row_of (e_tenantId (at_event a)) src u n.

Lemma exec_rows a t : exists added, rows (fst (exec a t)) = t ++ added /\
  (Notifications.keys_unique t -> Notifications.keys_unique (t ++ added)) /\ forall n, In n added -> owed [a] n.
Proof.
  assert (Hnone : exists added, t = t ++ added /\ (Notifications.keys_unique t -> Notifications.keys_unique (t ++ added)) /\
    forall n, In n added -> owed [a] n) by (exists []; rewrite app_nil_r; split_and!; [done|done|by intros ? []]).
  assert (Hgo : exists added, rows (fst (match buildAuthorizationSource (at_event a) with
    | None => (set_rows t (at_world a), DeadLetter malformed_event)
    | Some src => let '(w', res) := createAuthorizedFamilyNotification (at_ids a) (set_rows t (at_world a)) (e_tenantId (at_event a)) src (at_now a) in
        (w', classify (at_event a) res) end)) = t ++ added /\
    (Notifications.keys_unique t -> Notifications.keys_unique (t ++ added)) /\ forall n, In n added -> owed [a] n).
  { destruct (buildAuthorizationSource _) as [src|] eqn:Hsrc; [|exact Hnone]. unfold createAuthorizedFamilyNotification.
    destruct (negb _); [exact Hnone|]. destruct (createAuthorizedFamilyNotificationTx _ _ _ _ _ _) as [w' res] eqn:Hc.
    apply creation_rows in Hc as (added & -> & Hu & Hin). exists added. split_and!; [done|done|]. intros n (users & u & Hr & Hu' & Hrow)%Hin.
    exists a, src, users, u. split_and!; [by left|done..]. }
  unfold exec, processOne. destruct (lookup_mapping _); [destruct (negb _); [exact Hnone|exact Hgo]..|exact Hnone].
Qed.

(** C25 — At most one notification per event and recipient, whatever is retried: over any series of delivery attempts, of any events, with the
    family changing in any way in between, notifications are only appended, each belongs to a user the resolver authorized for that event at the
    instant of one of the attempts, and no (tenant, key) occurs twice; the key names the type, the user, the source and the version. *)
Theorem retries_notify_once (l : list attempt) (t : Notifications.notifications) :
  exists added, run l t = t ++ added /\ (forall n, In n added -> owed l n) /\
    (Notifications.keys_unique t -> Notifications.keys_unique (run l t)).
Proof.
  revert t. induction l as [|a l IH]; intros t; [exists []; rewrite app_nil_r; split_and!; [done|by intros ? []|done]|].
  unfold run. cbn [fold_left]. destruct (exec_rows a t) as (added & -> & Hu & Hin). destruct (IH (t ++ added)) as (more & Heq & Hmore & Huniq).
  unfold run in Heq, Huniq. exists (added ++ more). rewrite Heq in Huniq |- *. rewrite <- app_assoc in Huniq |- *. split_and!; [done| |tauto].
  intros n [Hn|Hn]%in_app_iff; [apply Hin in Hn|apply Hmore in Hn]; destruct Hn as (b & src & users & u & Hb & ?); exists b, src, users, u;
    (split; [|done]); [destruct Hb as [->|[]]; by left|by right].
Qed.

(** * Whom the services can verify *)

(** The kernel's columns of a guardian relationship. *)
Definition relationship_of (g : Household.guardian) : relationship := {|
  r_id := Household.g_id g; r_tenant := Household.g_tenant g; r_status := js_name (Household.g_status g); r_type := Household.g_type g;
  r_profile := Household.g_profile g; r_guardian := Household.g_member g; r_revokedAt := Household.g_revokedAt g;
  r_archivedAt := Household.g_archivedAt g |}.
(** The notices of signals, incidents and plans. *)
Definition safety_notices : list EnqueueableOutboxType :=
  [family_signal_available; family_urgent_signal; family_incident_created; family_incident_escalated; family_protection_plan_updated].
Definition none_verified (tenant : string) (db : family_db) : Prop := forall profileId r, ~ candidate db tenant profileId r.

Lemma viewer_candidate w tenant incidentId now u : incident_viewer w tenant incidentId now u -> exists p r, candidate (fam w) tenant p r.
Proof. intros (cx & _ & m & _ & _ & _ & (r & Hr & _) & _). eauto. Qed.
Lemma none_verified_nobody w tenant src now users : none_verified tenant (fam w) -> In (s_type src) safety_notices ->
  resolveFamilyNotificationRecipientsTx w tenant src now = Resolved users -> users = [].
Proof.
  intros Hn Hty (_ & _ & db' & H)%resolve_Ret. destruct users as [|u users]; [done|]. exfalso.
  assert (exists p r, candidate (fam w) tenant p r) as (p & r & Hr); [|by apply (Hn p r)].
  assert (Hin : In u (u :: users)) by (by left). unfold dispatch in H.
  destruct Hty as [Ht|[Ht|[Ht|[Ht|[Ht|[]]]]]]; rewrite <- Ht in H.
  - apply signal_Ret in H as (sg & _ & _ & _ & Hall). apply Hall in Hin as (_ & _ & m & _ & _ & _ & r & Hr & _). eauto.
  - apply signal_Ret in H as (sg & _ & _ & _ & Hall). apply Hall in Hin as (_ & _ & m & _ & _ & _ & r & Hr & _). eauto.
  - by eapply viewer_candidate, incident_rule.
  - by eapply viewer_candidate, incident_rule.
  - unfold resolveProtectionPlanRecipients in H. destruct (loadFamilyDisclosablePlan _ _ _) as [[i [|]]|]; [| |by apply mret_Ret in H as [? _]].
    + by eapply viewer_candidate, incident_rule.
    + apply mret_Ret in H as [H _]. by apply (In_ok [] _ u H) in Hin.
Qed.
(** The household services leave a family without verified guardians as it is. *)
Lemma household_none_verified sha256 enabled os d w tenant : (forall g, In g (Household.guardians d) -> Household.g_status g <> RelVerified) ->
  relationships (fam w) = map relationship_of (Household.guardians (Household.run sha256 enabled os d)) -> none_verified tenant (fam w).
Proof.
  intros Hd Hrel p r (Hr & _ & _ & Hs & _). rewrite Hrel in Hr. apply in_map_iff in Hr as (g & <- & Hg).
  change (js_name (Household.g_status g) = js_name RelVerified) in Hs. apply js_name_inj in Hs.
  destruct (Household.run_keeps_always sha256 enabled _ os d (Household.no_escalation_writes sha256 enabled)) as [_ (kept & new & Heq & Hk & Hnew)]. rewrite Heq in Hg.
  apply in_app_iff in Hg as [Hg|Hg].
  - apply list_elem_of_In, list_elem_of_lookup in Hg as [i Hi]. destruct (Forall2_lookup_r _ _ _ _ _ Hk Hi) as (g0 & Hi0 & Hp).
    apply (Hd g0); [by apply list_elem_of_In, list_elem_of_lookup; exists i|]. by apply Hp.
  - rewrite Forall_forall in Hnew. apply list_elem_of_In, Hnew in Hg. by destruct Hg.
Qed.

(** Safety notices go unheard in every family the services build: whatever the household services run, no guardian relationship becomes
    verified, but the notices of signals, urgent signals, incidents and plans take their candidates from verified relationships only, so each of
    them resolves to nobody, while the disclosure chain itself authorizes and delivers to guardians whose relationship is pending. *)
Theorem safety_notices_reach_nobody (sha256 : string -> string) (enabled : bool) (os : list Household.op) (d : Household.household) (w : world) (tenant : string) (src : source) (now : Z)
    (users : list string) :
  (forall g, In g (Household.guardians d) -> Household.g_status g <> RelVerified) ->
  relationships (fam w) = map relationship_of (Household.guardians (Household.run sha256 enabled os d)) -> In (s_type src) safety_notices ->
  resolveFamilyNotificationRecipientsTx w tenant src now = Resolved users -> users = [].
Proof. intros Hd Hrel. by apply none_verified_nobody, (household_none_verified sha256 enabled os d). Qed.

(** * Notified and allowed *)

(** Nobody is notified of an incident they may not open: where memberships are unique per user, every user an incident's notice resolves to is
    allowed by the per-user visibility evaluator of that incident, which shows the incident's child and at least one linked signal. *)
Theorem notified_may_open (w : world) (tenant : string) (src : source) (now : Z) (users : list string) (actor : FamilyActorContext) :
  NoDup (map (fun m => (m_tenant m, m_userId m)) (memberships (fam w))) -> workspaceKind actor = "family" -> tenantId actor = tenant ->
  In (s_type src) [family_incident_created; family_incident_escalated] ->
  resolveFamilyNotificationRecipientsTx w tenant src now = Resolved users -> In (userId actor) users ->
  exists cx s l, loadFamilyIncidentContext (incidents w) (links w) tenant (s_id src) (fam w) = inr cx /\ In s (cx_signals cx) /\
    result (evaluateFamilyIncidentVisibilityTx w actor (s_id src) now) (fam w) = Ret (Allowed (cx_profile cx) (s :: l)).
Proof.
  intros Hnd Hk Ht Hty (_ & _ & db' & H)%resolve_Ret Hu. assert (Hd : dispatch w tenant src now = resolveIncidentRecipients w tenant src now)
    by (unfold dispatch; destruct Hty as [<-|[<-|[]]]; done). rewrite Hd in H. unfold resolveIncidentRecipients in H.
  apply bind_Ret in H as (r & d1 & Hr & [H _]%mret_Ret). destruct r as [reason|us]; [done|]. apply (In_ok _ _ _ H) in Hu.
  apply (incident_Ret _ _ _ _ _ _ _ Hr) in Hu as [(cx & Hcx & m & Hm & Hmt & Hmu & _ & s & l & Hl) _]. exists cx, s, l. split; [done|]. split.
  { pose proof Hl as [_ Hall]%linked_Ret. by apply (Hall s); left. }
  unfold result, evaluateFamilyIncidentVisibilityTx, caught. rewrite Hk, String.eqb_refl. cbn [negb]. unfold mbind, tx_bind, get, mret, tx_ret.
  rewrite Ht, Hcx. assert (Hmem : membership_of (fam w) tenant (userId actor) = Some m).
  { apply (find_unique_by (fun m => (m_tenant m, m_userId m))); [done..|rewrite Hmu, Hmt, !String.eqb_refl; done|].
    intros y Hy. apply andb_true_iff in Hy as [Hyu%String.eqb_eq Hyt%String.eqb_eq]. by rewrite Hyu, Hyt, Hmu, Hmt. }
  by rewrite Hmem, Hl.
Qed.

(** * Concrete families *)

(** The household of tenant t, with its trusted adult. *)
Definition guardians0 : list Household.op :=
  [Household.HCreateGuardian (Household.at_ "r3" 1) owner0
     {| Household.ri_keys := ["guardianMembershipId"; "protectedProfileId"; "relationshipType"; "authorityLevel"; "guardianRole"];
        Household.ri_member := "m3"; Household.ri_profile := "p"; Household.ri_type := "parent"; Household.ri_level := "full";
        Household.ri_role := "primary"; Household.ri_consentType := None |}].
Definition house0 : Household.household := {|
  Household.guardians := [];
  Household.profs := [{| Household.p_id := "p"; Household.p_tenant := "t"; Household.p_label := None; Household.p_ageBand := "under_10";
                         Household.p_protection := "active"; Household.p_language := None; Household.p_archivedAt := None |}];
  Household.members := [{| Household.hm_id := "m3"; Household.hm_tenant := "t"; Household.hm_user := "u3"; Household.hm_role := Access.Reviewer |}];
  Household.invitations := []; Household.emails := [];
  Household.plans := [{| Household.pl_tenant := "t"; Household.pl_plan := "family_free"; Household.pl_access := "full_access"; Household.pl_deletionState := "active" |}];
  Household.events := []; Household.box := [] |}.

(** The same family with and without the verification no service performs. *)
Definition verify_all (db : family_db) : family_db := {|
  relationships := map (fun r => {| r_id := r_id r; r_tenant := r_tenant r; r_status := "verified"; r_type := r_type r; r_profile := r_profile r;
                                    r_guardian := r_guardian r; r_revokedAt := r_revokedAt r; r_archivedAt := r_archivedAt r |}) (relationships db);
  profiles := profiles db; memberships := memberships db; authorities := authorities db; consents := consents db; assessments := assessments db;
  signals := signals db; decisions := decisions db; deliveries := deliveries db; audit_log := audit_log db; outbox := outbox db |}.
Definition invitation0 : Household.invitation := {|
  Household.fi_id := "i1"; Household.fi_tenant := "t"; Household.fi_profile := "p"; Household.fi_invitedBy := "m1"; Household.fi_email := "c@x.org";
  Household.fi_familyRole := "trusted_adult"; Household.fi_guardianRole := "secondary"; Household.fi_type := "trusted_adult";
  Household.fi_status := FI_Pending; Household.fi_hash := "h"; Household.fi_expiresAt := 1000; Household.fi_acceptedBy := None;
  Household.fi_acceptedAt := None; Household.fi_declinedAt := None; Household.fi_revokedAt := None |}.
Definition world_of (db : family_db) : world := {|
  fam := db; workspaces := [("t", "family")]; invitations := [invitation0];
  incidents := [{| in_id := "n1"; in_tenant := "t"; in_profile := "p"; in_status := "open"; in_escalation := "escalated" |}];
  links := [{| il_tenant := "t"; il_incident := "n1"; il_signal := "g1" |}];
  plans := [{| pp_id := "q1"; pp_tenant := "t"; pp_incident := "n1"; pp_status := "active" |}]; rows := [] |}.
Definition source_of (ty : EnqueueableOutboxType) (id version : string) : source := {|
  s_type := ty; s_idKey := snd (OUTBOX_TYPE_SOURCE ty); s_id := id; s_eventVersion := version; s_occurredAt := 60 |}.
Definition urgent0 : source := source_of family_urgent_signal "g1" "v1".

Example who_hears :
  let w := world_of (verify_all available) in
  map (fun s => resolveFamilyNotificationRecipientsTx w "t" s 85)
    [urgent0; source_of family_delivery_available "v1" "v1"; source_of family_delivery_acknowledged "v1" "v1";
     source_of family_recipient_authorization_changed "d1" "v1"; source_of family_incident_escalated "n1" "v1";
     source_of family_protection_plan_updated "q1" "v1"; source_of family_guardian_invitation_expiring "i1" "invitation-expiring:v1:1000";
     source_of family_guardian_invitation_expiring "i1" "invitation-expiring:v1:999"; source_of family_signal_available "g9" "v1"] =
  [Resolved ["u3"]; Resolved ["u3"]; Resolved []; Resolved ["u0"; "u1"; "u2"; "u3"]; Resolved ["u3"]; Resolved ["u3"];
   Resolved ["u0"; "u1"; "u2"]; Unresolved "source_state_invalid"; Unresolved "source_not_found"].
Proof. vm_compute. reflexivity. Qed.

Definition world1 : world := world_of (verify_all available).
Lemma signal_recipients_exact_witness : exists sg, find_row (signals (fam world1)) "t" "g1" = Some sg /\ In (sg_severity sg) URGENT_SEVERITIES /\
  authorized_for (fam world1) (resolverActor "t") (sg_id sg) "m3" 85.
Proof.
  assert (H : resolveFamilyNotificationRecipientsTx world1 "t" urgent0 85 = Resolved ["u3"]) by (vm_compute; reflexivity).
  destruct (signal_recipients_exact world1 "t" urgent0 85 ["u3"] (or_intror (or_introl eq_refl)) H) as (sg & Hsg & _ & Hsev & Hall).
  exists sg. split; [exact Hsg|]. split; [exact (Hsev eq_refl)|].
  destruct (proj1 (Hall "u3") (or_introl eq_refl)) as (_ & _ & m & Hm & _ & _ & r & [Hr _] & Hg & Ha).
  assert (Hid : r_guardian r = "m3") by (vm_compute in Hr; destruct Hr as [<-|[]]; reflexivity).
  rewrite <- Hg, Hid in Ha. exact Ha.
Defined.

Lemma recipients_follow_rule_witness : rule_allows Notifications.cs_authorized_recipient world1 "t" urgent0 85 "u3".
Proof.
  assert (H : resolveFamilyNotificationRecipientsTx world1 "t" urgent0 85 = Resolved ["u3"]) by (vm_compute; reflexivity).
  exact (recipients_follow_rule world1 "t" urgent0 85 ["u3"] "u3" H (or_introl eq_refl)).
Defined.

Lemma stale_warning_never_sent_witness : exists inv, find_row (invitations world1) "t" "i1" = Some inv /\
  Household.fi_status inv = FI_Pending /\ Household.fi_expiresAt inv = 1000.
Proof.
  assert (H : resolveFamilyNotificationRecipientsTx world1 "t" (source_of family_guardian_invitation_expiring "i1" (invitationExpiringEventVersion 1000)) 85
    = Resolved ["u0"; "u1"; "u2"]) by (vm_compute; reflexivity).
  assert (Hr : 0 <= 1000 < 10 ^ 15) by lia.
  exact (proj1 (stale_warning_never_sent world1 "t" (source_of family_guardian_invitation_expiring "i1" (invitationExpiringEventVersion 1000)) 85 1000 _
    (or_introl eq_refl) Hr H)).
Defined.

Definition ids0 (k : string) : string := "id:" +:+ k.
Lemma authorized_creation_exact_witness : exists w' c,
  createAuthorizedFamilyNotificationTx ids0 world1 "t" urgent0 None 85 = (w', Ret (CreationOk 1 1 0)) /\
  createAuthorizedFamilyNotificationTx (fun k => k) w' "t" urgent0 None 85 = (w', Ret (CreationOk 1 0 c)).
Proof.
  destruct (createAuthorizedFamilyNotificationTx ids0 world1 "t" urgent0 None 85) as [w' res] eqn:H. exists w', (1 + 0).
  assert (Hres : res = Ret (CreationOk 1 1 0)) by (change res with (snd (w', res)); rewrite <- H; vm_compute; reflexivity). rewrite Hres in H |- *.
  destruct (authorized_creation_exact ids0 (fun k => k) world1 w' "t" urgent0 None 85 _ H) as (users & added & _ & _ & _ & _ & _ & Hagain).
  split; [reflexivity|exact Hagain].
Defined.

(** The guardian is authorized for the signal by the whole chain, and hears nothing. *)
Lemma safety_notices_reach_nobody_witness :
  found_some (result (getEffectiveRecipientAuthorization (resolverActor "t") "g1" "m3" 65) decided) = true /\
  resolveFamilyNotificationRecipientsTx (world_of decided) "t" urgent0 65 = Resolved [].
Proof.
  split; [vm_compute; reflexivity|].
  assert (H : exists users, resolveFamilyNotificationRecipientsTx (world_of decided) "t" urgent0 65 = Resolved users) by (eexists; vm_compute; reflexivity).
  destruct H as [users H]. rewrite H. f_equal.
  refine (safety_notices_reach_nobody Household.hash0 true guardians0 house0 (world_of decided) "t" urgent0 65 users _ _ (or_intror (or_introl eq_refl)) H).
  - intros g [].
  - vm_compute. reflexivity.
Defined.

Lemma notified_may_open_witness : exists c l, result (evaluateFamilyIncidentVisibilityTx world1 (Guardianship.actor_of "u3" "reviewer") "n1" 85) (fam world1) = Ret (Allowed c l).
Proof.
  assert (H : resolveFamilyNotificationRecipientsTx world1 "t" (source_of family_incident_escalated "n1" "v1") 85 = Resolved ["u3"]) by (vm_compute; reflexivity).
  destruct (notified_may_open world1 "t" (source_of family_incident_escalated "n1" "v1") 85 ["u3"] (Guardianship.actor_of "u3" "reviewer")) as (cx & s & l & _ & _ & Hl).
  - apply (bool_decide_unpack _). vm_compute. exact I.
  - reflexivity.
  - reflexivity.
  - right. left. reflexivity.
  - exact H.
  - left. reflexivity.
  - exists (cx_profile cx), (s :: l). exact Hl.
Defined.

End NotifyKernel.
