(* ===== verification/NotifyRuns.v ===== *)
(** The runs of the family notifications: the scans for expiries
    ([packages/db/src/internal/family-notification-expiry.ts]), the scheduler's lease, its
    bounded cycle and its health ([family-notification-scheduler.ts]), over the outbox
    ([Outbox]) and the authorization kernel ([NotifyKernel]). *)
From S2P Require Import Prelude Tx Access Workspace Disclosure Outbox OutboxRuns Notifications FamilyStore Household Guardianship Recipients NotifyKernel.
Open Scope string_scope.
Open Scope list_scope.
Open Scope Z_scope.
Open Scope tam_scope.

Module NotifyRuns.
Import Outbox FamilyStore NotifyKernel.
#[local] Existing Instance Workspace.FamilyInvitationStatus_enum.

(** * Expiries *)

(* src: packages/db/src/internal/family-notification-expiry.ts:26-26 EXPIRY_DEFAULT_BATCH *)
Definition EXPIRY_DEFAULT_BATCH : Z := 100.
(* src: packages/db/src/internal/family-notification-expiry.ts:27-27 EXPIRY_MAX_BATCH *)
Definition EXPIRY_MAX_BATCH : Z := 500.
(* src: packages/db/src/internal/family-notification-expiry.ts:28-31 boundExpiryBatch *)
Definition boundExpiryBatch (n : option Z) : Z := Z.max 1 (Z.min EXPIRY_MAX_BATCH (n ?? EXPIRY_DEFAULT_BATCH)).
(* src: packages/db/src/internal/family-notification-expiry.ts:33-39 ExpiryEvaluationResult *)
Record ExpiryEvaluationResult := { scanned : Z; eligible : Z; enqueued_ : Z; duplicates : Z; skipped : Z }.
(* src: packages/db/src/internal/family-notification-expiry.ts:40-44 ExpiryEvaluatorOptions *)
Record ExpiryEvaluatorOptions := { eo_now : Z; eo_batchSize : option Z; eo_cursor : option (Z * string) }.
Definition zero_result : ExpiryEvaluationResult := {| scanned := 0; eligible := 0; enqueued_ := 0; duplicates := 0; skipped := 0 |}.

(** A row the scan projects. *)
Record expiring := { x_id : string; x_tenant : string; x_at : Z }.
Definition in_window (now window : Z) (x : expiring) : bool := (now <? x_at x) && (x_at x <=? now + window).
Definition after_cursor (cursor : option (Z * string)) (x : expiring) : bool :=
  match cursor with None => true | Some (at_, id) => (at_ <? x_at x) || ((x_at x =? at_) && str_ltb id (x_id x)) end.
Definition expiry_order (a b : expiring) : Z :=
  if x_at a =? x_at b then (if str_ltb (x_id b) (x_id a) then 1 else 0) else x_at a - x_at b.
Definition scan (o : ExpiryEvaluatorOptions) (window : Z) (l : list expiring) : list expiring :=
  take (Z.to_nat (boundExpiryBatch (eo_batchSize o)))
    (js_sort expiry_order (List.filter (fun x => in_window (eo_now o) window x && after_cursor (eo_cursor o) x) l)).

Definition pending_invitation (i : Household.invitation) : bool := Household.fi_status i =e Workspace.FI_Pending.
Definition invitation_expiry (i : Household.invitation) : expiring :=
  {| x_id := Household.fi_id i; x_tenant := Household.fi_tenant i; x_at := Household.fi_expiresAt i |}.
Definition live_consent (c : consent) : bool :=
  (Disclosure.consentStatus (co_state c) =s "active") && is_none (Disclosure.c_revokedAt (co_state c)) && is_none (Disclosure.c_archivedAt (co_state c)).
(** [validUntil: { gt, lte }] holds of no null. *)
Definition consent_expiry (c : consent) : list expiring :=
  match Disclosure.c_validUntil (co_state c) with Some until => [{| x_id := co_id c; x_tenant := co_tenant c; x_at := until |}] | None => [] end.
Definition expiring_invitations (l : list Household.invitation) : list expiring := map invitation_expiry (List.filter pending_invitation l).
Definition expiring_consents (l : list consent) : list expiring := flat_map consent_expiry (List.filter live_consent l).

Section Evaluators.
(** The hash, and what the database fills in: the ids of the rows and their creation time. *)
Context (sha256 : string -> string) (ids : nat -> string) (clock : Z).

Definition warning (ty : EnqueueableOutboxType) (version : Z -> string) (now : Z) (x : expiring) : EnqueueableFamilyOutboxInput := {|
  tenantId := x_tenant x; notificationType := js_name ty; Outbox.source := [(snd (OUTBOX_TYPE_SOURCE ty), x_id x)];
  eventVersion := version (x_at x); occurredAt := now |}.
(* src: packages/db/src/internal/family-notification-expiry.ts:73-86 evaluateExpiringGuardianInvitations *)
Fixpoint warn_all (ty : EnqueueableOutboxType) (version : Z -> string) (now : Z) (k : nat) (l : list expiring) (t : table) (res : ExpiryEvaluationResult) :
    table * outcome ExpiryEvaluationResult string :=
  match l with
  | [] => (t, Ret res)
  | x :: rest =>
      if negb (nonempty (x_tenant x))
      then warn_all ty version now (S k) rest t {| scanned := scanned res + 1; eligible := eligible res; enqueued_ := enqueued_ res;
                                                   duplicates := duplicates res; skipped := skipped res + 1 |}
      else match enqueueFamilyNotificationOutboxEventOwnerTx sha256 (ids k) clock (warning ty version now x) t with
      | (t', Throw e) => (t', Throw e)
      | (t', Ret enq) =>
          warn_all ty version now (S k) rest t' {| scanned := scanned res + 1; eligible := eligible res + 1;
            enqueued_ := enqueued_ res + (if enqueued enq then 1 else 0); duplicates := duplicates res + (if enqueued enq then 0 else 1);
            skipped := skipped res |}
      end
  end.
(* src: packages/db/src/internal/family-notification-expiry.ts:55-87 evaluateExpiringGuardianInvitations *)
Definition evaluateExpiringGuardianInvitations (o : ExpiryEvaluatorOptions) (l : list Household.invitation) (t : table) :
    table * outcome ExpiryEvaluationResult string :=
  warn_all family_guardian_invitation_expiring invitationExpiringEventVersion (eo_now o) 0
    (scan o INVITATION_WARNING_WINDOW_MS (expiring_invitations l)) t zero_result.
(* src: packages/db/src/internal/family-notification-expiry.ts:94-128 evaluateExpiringConsents *)
Definition evaluateExpiringConsents (o : ExpiryEvaluatorOptions) (l : list consent) (t : table) : table * outcome ExpiryEvaluationResult string :=
  warn_all family_consent_expiring consentExpiringEventVersion (eo_now o) 0 (scan o CONSENT_WARNING_WINDOW_MS (expiring_consents l)) t zero_result.
End Evaluators.

(* src: packages/db/src/internal/family-notification-expiry.ts:131-137 countExpiryWarningWindows *)
Definition countExpiryWarningWindows (now : Z) (invs : list Household.invitation) (cons : list consent) : Z * Z :=
  (Z.of_nat (length (List.filter (in_window now INVITATION_WARNING_WINDOW_MS) (expiring_invitations invs))),
   Z.of_nat (length (List.filter (in_window now CONSENT_WARNING_WINDOW_MS) (expiring_consents cons)))).

(** * The lease *)

(* src: packages/db/src/internal/family-notification-scheduler.ts:20-20 FAMILY_NOTIFICATIONS_SCHEDULER_LEASE_KEY *)
Definition FAMILY_NOTIFICATIONS_SCHEDULER_LEASE_KEY : string := "family-notifications-scheduler".
(* src: packages/db/src/internal/family-notification-scheduler.ts:21-21 SCHEDULER_LEASE_MS *)
Definition SCHEDULER_LEASE_MS : Z := 4 * 60 * 1000.
(* src: packages/db/src/internal/family-notification-scheduler.ts:22-22 DEFAULT_EXPIRY_BATCH *)
Definition DEFAULT_EXPIRY_BATCH : Z := 100.
(* src: packages/db/src/internal/family-notification-scheduler.ts:23-23 DEFAULT_OUTBOX_BATCH *)
Definition DEFAULT_OUTBOX_BATCH : Z := 50.
(* src: packages/db/src/internal/family-notification-scheduler.ts:24-24 DEFAULT_MAX_OUTBOX_BATCHES *)
Definition DEFAULT_MAX_OUTBOX_BATCHES : Z := 20.
(* src: packages/db/src/internal/family-notification-scheduler.ts:25-25 HARD_MAX_OUTBOX_BATCHES *)
Definition HARD_MAX_OUTBOX_BATCHES : Z := 100.
(* src: packages/db/src/internal/family-notification-scheduler.ts:26-26 DEFAULT_TIME_BUDGET_MS *)
Definition DEFAULT_TIME_BUDGET_MS : Z := 45000.
(* src: packages/db/src/internal/family-notification-scheduler.ts:27-27 HARD_MAX_TIME_BUDGET_MS *)
Definition HARD_MAX_TIME_BUDGET_MS : Z := 120000.
(* src: packages/db/src/internal/family-notification-scheduler.ts:28-28 clamp *)
Definition clamp (n : option Z) (def max : Z) : Z := Z.max 1 (Z.min max (n ?? def)).

(** The columns of a lease that are read. *)
Record lease := { ls_key : string; ls_holder : string; ls_acquiredAt : Z; ls_expiresAt : Z }.
Definition leases := list lease.
Definition new_lease (key holder : string) (durationMs now : Z) : lease :=
  {| ls_key := key; ls_holder := holder; ls_acquiredAt := now; ls_expiresAt := now + durationMs |}.
(** The insert, or the update on conflict of a lease that has expired: a live lease returns no row. *)
(* src: packages/db/src/internal/family-notification-scheduler.ts:34-46 acquireSchedulerLease *)
Definition acquireSchedulerLease (key holder : string) (durationMs now : Z) (t : leases) : leases * bool :=
  match List.find (fun l => ls_key l =s key) t with
  | None => (t ++ [new_lease key holder durationMs now], true)
  | Some l =>
      if ls_expiresAt l <? now then (map (fun l => if ls_key l =s key then new_lease key holder durationMs now else l) t, true) else (t, false)
  end.
(* src: packages/db/src/internal/family-notification-scheduler.ts:49-52 releaseSchedulerLease *)
Definition releaseSchedulerLease (key holder : string) (t : leases) : leases * bool :=
  let held l := (ls_key l =s key) && (ls_holder l =s holder) in
  (List.filter (fun l => negb (held l)) t, existsb held t).

(** * The cycle *)

(* src: packages/db/src/internal/family-notification-scheduler.ts:55-62 RunSchedulerOptions *)
Record RunSchedulerOptions := {
  ro_now : Z; ro_workerId : string; ro_expiryBatchSize : option Z; ro_outboxBatchSize : option Z; ro_maxOutboxBatches : option Z; ro_timeBudgetMs : option Z }.
(* src: packages/db/src/internal/family-notification-scheduler.ts:76-76 RunSchedulerResult *)
Inductive StoppedReason := stop_completed | stop_lease_busy | stop_time_budget | stop_batch_limit.
(* src: packages/db/src/internal/family-notification-scheduler.ts:63-77 RunSchedulerResult *)
Record RunSchedulerResult := {
  rr_acquired : bool; rr_invitationsScanned : Z; rr_invitationsEnqueued : Z; rr_consentsScanned : Z; rr_consentsEnqueued : Z;
  rr_outboxClaimed : Z; rr_outboxCompleted : Z; rr_outboxRetried : Z; rr_outboxDeadLetter : Z;
  rr_notificationsCreated : Z; rr_duplicates : Z; rr_noRecipients : Z; rr_stoppedReason : StoppedReason }.
(** The sums of the outbox batches. *)
Record sums := { su_claimed : Z; su_completed : Z; su_retried : Z; su_dead : Z; su_created : Z; su_duplicates : Z; su_noRecipients : Z }.
Definition no_sums : sums :=
  {| su_claimed := 0; su_completed := 0; su_retried := 0; su_dead := 0; su_created := 0; su_duplicates := 0; su_noRecipients := 0 |}.
Definition add_result (r : ProcessOutboxResult) (s : sums) : sums := {|
  su_claimed := su_claimed s + p_claimed r; su_completed := su_completed s + p_completed r; su_retried := su_retried s + p_retried r;
  su_dead := su_dead s + p_dead_letter r; su_created := su_created s + p_notifications_created r;
  su_duplicates := su_duplicates s + p_duplicates r; su_noRecipients := su_noRecipients s + p_no_recipients r |}.
(* src: packages/db/src/internal/family-notification-scheduler.ts:79-83 ZERO *)
Definition result_of (acquired : bool) (inv con : ExpiryEvaluationResult) (s : sums) (why : StoppedReason) : RunSchedulerResult := {|
  rr_acquired := acquired; rr_invitationsScanned := scanned inv; rr_invitationsEnqueued := enqueued_ inv; rr_consentsScanned := scanned con;
  rr_consentsEnqueued := enqueued_ con; rr_outboxClaimed := su_claimed s; rr_outboxCompleted := su_completed s; rr_outboxRetried := su_retried s;
  rr_outboxDeadLetter := su_dead s; rr_notificationsCreated := su_created s; rr_duplicates := su_duplicates s; rr_noRecipients := su_noRecipients s;
  rr_stoppedReason := why |}.

(** The tables of a cycle. *)
Record cluster := { cl_world : world; cl_outbox : table; cl_leases : leases }.

Section Cycle.
(** The hash; the ids of new events and notifications and the database's clock; the
    elapsed time at each test of the budget; the rows other transactions hold locked at each batch. *)
Context (sha256 : string -> string) (ids : nat -> string) (row_ids : string -> string) (clock : Z) (elapsed : nat -> Z) (locked : nat -> list string).

(** [rest_] batches remain of the bound; [k] have run. *)
(* src: packages/db/src/internal/family-notification-scheduler.ts:114-122 runFamilyNotificationScheduler *)
Fixpoint drain (rest_ k : nat) (batch budget now : Z) (w : world) (t : table) (s : sums) : world * table * sums * StoppedReason :=
  match rest_ with
  | O => (w, t, s, stop_batch_limit)
  | S more =>
      if budget <=? elapsed k then (w, t, s, stop_time_budget)
      else
        let '(w', t', r) := processFamilyNotificationOutboxBatch (createAuthorizedFamilyNotification row_ids) (Some batch) now (locked k) w t in
        if p_claimed r =? 0 then (w', t', add_result r s, stop_completed) else drain more (S k) batch budget now w' t' (add_result r s)
  end.

(* src: packages/db/src/internal/family-notification-scheduler.ts:90-127 runFamilyNotificationScheduler *)
Definition runFamilyNotificationScheduler (o : RunSchedulerOptions) (c : cluster) : cluster * outcome RunSchedulerResult string :=
  let now := ro_now o in
  let expiry := {| eo_now := now; eo_batchSize := Some (clamp (ro_expiryBatchSize o) DEFAULT_EXPIRY_BATCH 500); eo_cursor := None |} in
  let outboxBatchSize := clamp (ro_outboxBatchSize o) DEFAULT_OUTBOX_BATCH 500 in
  let maxOutboxBatches := clamp (ro_maxOutboxBatches o) DEFAULT_MAX_OUTBOX_BATCHES HARD_MAX_OUTBOX_BATCHES in
  let timeBudgetMs := clamp (ro_timeBudgetMs o) DEFAULT_TIME_BUDGET_MS HARD_MAX_TIME_BUDGET_MS in
  match acquireSchedulerLease FAMILY_NOTIFICATIONS_SCHEDULER_LEASE_KEY (ro_workerId o) SCHEDULER_LEASE_MS now (cl_leases c) with
  | (ls, false) => ({| cl_world := cl_world c; cl_outbox := cl_outbox c; cl_leases := ls |}, Ret (result_of false zero_result zero_result no_sums stop_lease_busy))
  | (ls, true) =>
      let after w t := {| cl_world := w; cl_outbox := t; cl_leases := fst (releaseSchedulerLease FAMILY_NOTIFICATIONS_SCHEDULER_LEASE_KEY (ro_workerId o) ls) |} in
      let w := cl_world c in
      match evaluateExpiringGuardianInvitations sha256 ids clock expiry (invitations w) (cl_outbox c) with
      | (t1, Throw e) => (after w t1, Throw e)
      | (t1, Ret inv) =>
          match evaluateExpiringConsents sha256 (fun k => ids (k + length (invitations w))%nat) clock expiry (consents (fam w)) t1 with
          | (t2, Throw e) => (after w t2, Throw e)
          | (t2, Ret con) =>
              let '(w', t3, s, why) := drain (Z.to_nat maxOutboxBatches) 0 outboxBatchSize timeBudgetMs now w t2 no_sums in
              (after w' t3, Ret (result_of true inv con s why))
          end
      end
  end.
End Cycle.

(** * Health *)

(* src: packages/db/src/internal/family-notification-scheduler.ts:130-130 SchedulerLeaseState *)
Inductive SchedulerLeaseState := lease_free | lease_active | lease_expired_.
(* src: packages/db/src/internal/family-notification-scheduler.ts:131-141 FamilyNotificationSchedulerHealth *)
Record FamilyNotificationSchedulerHealth := {
  fh_outbox : OutboxHealth; fh_invitationsInWindow : Z; fh_consentsInWindow : Z; fh_schedulerLease : SchedulerLeaseState }.
(* src: packages/db/src/internal/family-notification-scheduler.ts:143-151 getFamilyNotificationSchedulerHealth *)
Definition getFamilyNotificationSchedulerHealth (now : Z) (c : cluster) : FamilyNotificationSchedulerHealth :=
  let '(invs, cns) := countExpiryWarningWindows now (invitations (cl_world c)) (consents (fam (cl_world c))) in
  {| fh_outbox := getFamilyNotificationOutboxHealth now (cl_outbox c); fh_invitationsInWindow := invs; fh_consentsInWindow := cns;
     fh_schedulerLease := match List.find (fun l => ls_key l =s FAMILY_NOTIFICATIONS_SCHEDULER_LEASE_KEY) (cl_leases c) with
                          | None => lease_free
                          | Some l => if now <? ls_expiresAt l then lease_active else lease_expired_
                          end |}.

(** * Warnings enqueued *)

Lemma expiring_version_ok (p : string) ms : In p [INVITATION_EXPIRING_PREFIX; CONSENT_EXPIRING_PREFIX] -> 0 <= ms < 10 ^ 15 ->
  event_version_ok (p +:+ string_of_int ms) = true.
Proof.
  intros Hp Hms. pose proof (length_string_of_int ms Hms) as Hl. destruct (string_of_int_digits ms) as (Hd & _ & _); [lia|].
  assert (Hv : str_forallb version_char (string_of_int ms) = true).
  { revert Hd. apply Notifications.str_forallb_impl. intros c Hc. unfold version_char, is_alnum. by rewrite Hc, ?orb_true_r. }
  unfold event_version_ok. apply andb_true_iff. unfold str_len in *. split; destruct Hp as [<-|[<-|[]]]; try exact Hv.
  - change (String.length (INVITATION_EXPIRING_PREFIX +:+ string_of_int ms)) with (23 + String.length (string_of_int ms))%nat. unfold between. apply andb_true_iff. rewrite !Z.leb_le. lia.
  - change (String.length (CONSENT_EXPIRING_PREFIX +:+ string_of_int ms)) with (20 + String.length (string_of_int ms))%nat. unfold between. apply andb_true_iff. rewrite !Z.leb_le. lia.
Qed.

Section Warnings.
Context (sha256 : string -> string) (ids : nat -> string) (clock : Z) (ty : EnqueueableOutboxType) (version : Z -> string) (now : Z).

Definition warning_key (x : expiring) : string :=
  familyNotificationOutboxDedupeKey sha256 (x_tenant x) (js_name ty) (js_name (fst (OUTBOX_TYPE_SOURCE ty))) (x_id x) (version (x_at x)).
Definition warned (x : expiring) (t : table) : bool := existsb (same_key (x_tenant x) (warning_key x)) t.
Definition warning_row (id : string) (x : expiring) : event_row :=
  new_row id clock (warning ty version now x) (js_name (fst (OUTBOX_TYPE_SOURCE ty))) (x_id x) (warning_key x).
(** A row whose warning is accepted. *)
Definition well_formed (x : expiring) : Prop := nonempty (x_tenant x) = true /\ nonempty (x_id x) = true /\ event_version_ok (version (x_at x)) = true.

Lemma enqueue_warning id x t : well_formed x -> exists r,
  enqueueFamilyNotificationOutboxEventOwnerTx sha256 id clock (warning ty version now x) t =
    ((if warned x t then t else t ++ [warning_row id x]), Ret r) /\ enqueued r = negb (warned x t).
Proof.
  intros (_ & Hid & Hv). unfold enqueueFamilyNotificationOutboxEventOwnerTx, enqueueFamilyNotificationOutboxEventTx.
  cbn [notificationType warning eventVersion tenantId Outbox.source]. rewrite Hv. unfold lookup_mapping. rewrite parse_name. cbn [negb].
  unfold map_get. cbn [List.find fst snd option_map]. rewrite String.eqb_refl. cbn [option_map truthy]. rewrite Hid. cbn [negb default].
  fold (warning_key x). change (existsb (same_key (x_tenant x) _) t) with (warned x t).
  eexists. split; [f_equal; by destruct (warned x t)|]. by destruct (warned x t).
Qed.
Lemma warned_row id x : same_key (x_tenant x) (warning_key x) (warning_row id x) = true.
Proof. unfold same_key. cbn. by rewrite !String.eqb_refl. Qed.
Lemma warned_app x t added : warned x (t ++ added) = warned x t || warned x added.
Proof. apply existsb_app. Qed.

(** A pass over well-formed rows returns; it appends one row for each source not warned yet. *)
Lemma warn_all_spec l : (forall x, In x l -> well_formed x) -> forall k t res, exists added res',
  warn_all sha256 ids clock ty version now k l t res = (t ++ added, Ret res') /\
  scanned res' = scanned res + Z.of_nat (length l) /\ eligible res' = eligible res + Z.of_nat (length l) /\ skipped res' = skipped res /\
  enqueued_ res' = enqueued_ res + Z.of_nat (length added) /\
  enqueued_ res' + duplicates res' = enqueued_ res + duplicates res + Z.of_nat (length l) /\
  (forall e, In e added -> exists x id, In x l /\ e = warning_row id x /\ warned x t = false) /\ (forall x, In x l -> warned x (t ++ added) = true).
Proof.
  induction l as [|x l IH]; intros Hl k t res.
  { exists [], res. rewrite app_nil_r. cbn [length Z.of_nat]. split_and!; [done|lia..|by intros ? []|by intros ? []]. }
  cbn [warn_all]. pose proof (Hl x (or_introl eq_refl)) as Hx. rewrite (proj1 Hx). cbn [negb].
  destruct (enqueue_warning (ids k) x t Hx) as (r & -> & Hr). rewrite Hr.
  destruct (warned x t) eqn:Hw; cbn [negb].
  - edestruct (IH (fun y Hy => Hl y (or_intror Hy)) (S k) t) as (added & res' & -> & H1 & H2 & H3 & H4 & H5 & H6 & H7). exists added, res'.
    cbn [scanned eligible skipped enqueued_ duplicates length] in *. split_and!; [done|lia..| |].
    + intros e (y & id & Hy & He)%H6. exists y, id. split; [by right|done].
    + intros y [<-|Hy]; [by rewrite warned_app, Hw|auto].
  - edestruct (IH (fun y Hy => Hl y (or_intror Hy)) (S k) (t ++ [warning_row (ids k) x])) as (added & res' & -> & H1 & H2 & H3 & H4 & H5 & H6 & H7).
    exists (warning_row (ids k) x :: added), res'. rewrite <- app_assoc in H7 |- *. cbn [scanned eligible skipped enqueued_ duplicates length app] in *.
    split_and!; [done|lia..| |].
    + intros e [<-|He]; [exists x, (ids k); split; [by left|done]|]. apply H6 in He as (y & id & Hy & -> & Hn). exists y, id.
      split; [by right|]. split; [done|]. rewrite warned_app in Hn. by apply orb_false_iff in Hn as [Hn _].
    + intros y [<-|Hy]; [|auto]. rewrite warned_app. unfold warned at 2. cbn [existsb]. by rewrite warned_row, orb_true_r.
Qed.
Lemma warn_all_again l : (forall x, In x l -> well_formed x) -> forall k t res, (forall x, In x l -> warned x t = true) -> exists res',
  warn_all sha256 ids clock ty version now k l t res = (t, Ret res') /\ enqueued_ res' = enqueued_ res.
Proof.
  intros Hl k t res Hw. destruct (warn_all_spec l Hl k t res) as (added & res' & -> & _ & _ & _ & He & _ & Hin & _). exists res'.
  assert (added = []) as -> by (destruct added as [|e added]; [done|]; destruct (Hin e (or_introl eq_refl)) as (x & _ & Hx & _ & Hn); rewrite Hw in Hn by done; done).
  rewrite app_nil_r. split; [done|]. cbn [length] in He. lia.
Qed.
End Warnings.

Lemma In_scan o window l x : In x (scan o window l) -> In x l /\ eo_now o < x_at x <= eo_now o + window.
Proof.
  unfold scan. intros Hx. apply list_elem_of_In, subseteq_take, list_elem_of_In in Hx. rewrite <- list_elem_of_In, js_sort_perm, list_elem_of_In in Hx.
  apply filter_In in Hx as [Hx Hw]. split; [done|]. apply andb_true_iff in Hw as [Hw _]. unfold in_window in Hw. lia.
Qed.

(** * Exact passes *)

Inductive expiry_kind := Invitations | Consents.
Definition sources (k : expiry_kind) (w : world) : list expiring :=
  match k with Invitations => expiring_invitations (invitations w) | Consents => expiring_consents (consents (fam w)) end.
Definition kind_type (k : expiry_kind) : EnqueueableOutboxType :=
  match k with Invitations => family_guardian_invitation_expiring | Consents => family_consent_expiring end.
Definition kind_version (k : expiry_kind) : Z -> string :=
  match k with Invitations => invitationExpiringEventVersion | Consents => consentExpiringEventVersion end.
Definition kind_window (k : expiry_kind) : Z := match k with Invitations => INVITATION_WARNING_WINDOW_MS | Consents => CONSENT_WARNING_WINDOW_MS end.
(** A pass of the evaluator of the kind. *)
Definition expiry_pass (k : expiry_kind) (sha256 : string -> string) (ids : nat -> string) (clock : Z) (o : ExpiryEvaluatorOptions) (w : world) (t : table) :
    table * outcome ExpiryEvaluationResult string :=
  match k with
  | Invitations => evaluateExpiringGuardianInvitations sha256 ids clock o (invitations w) t
  | Consents => evaluateExpiringConsents sha256 ids clock o (consents (fam w)) t
  end.
(** Ids are not empty and expiries are instants up to the year 33658. *)
Definition sane (x : expiring) : Prop := nonempty (x_tenant x) = true /\ nonempty (x_id x) = true /\ 0 <= x_at x < 10 ^ 15.

Lemma expiry_pass_eq k sha256 ids clock o w t :
  expiry_pass k sha256 ids clock o w t =
  warn_all sha256 ids clock (kind_type k) (kind_version k) (eo_now o) 0 (scan o (kind_window k) (sources k w)) t zero_result.
Proof. by destruct k. Qed.
Lemma sane_well_formed k x : sane x -> well_formed (kind_version k) x.
Proof.
  intros (Ht & Hi & Ha). split; [done|]. split; [done|].
  destruct k; [apply (expiring_version_ok INVITATION_EXPIRING_PREFIX)|apply (expiring_version_ok CONSENT_EXPIRING_PREFIX)]; try done;
    [by left|by right; left].
Qed.
Lemma scan_well_formed k o w : (forall x, In x (sources k w) -> sane x) ->
  forall x, In x (scan o (kind_window k) (sources k w)) -> well_formed (kind_version k) x.
Proof. intros Hs x [Hx _]%In_scan. by apply sane_well_formed, Hs. Qed.

(** A pass over the expiring invitations or consents always returns, counts what it did, and warns once: the events it adds are about sources
    inside the window, one for each scanned source that had none for this very expiry, pending and due at once, and its counts add up; every
    scanned source is then warned, and repeating the pass, with other ids and whenever, enqueues nothing. *)
Theorem expiry_pass_exact (k : expiry_kind) (sha256 : string -> string) (ids ids' : nat -> string) (clock clock' : Z) (o : ExpiryEvaluatorOptions)
    (w : world) (t : table) :
  (forall x, In x (sources k w) -> sane x) ->
  let l := scan o (kind_window k) (sources k w) in
  exists added res, expiry_pass k sha256 ids clock o w t = (t ++ added, Ret res) /\
    scanned res = Z.of_nat (length l) /\ eligible res = scanned res /\ skipped res = 0 /\ enqueued_ res = Z.of_nat (length added) /\
    enqueued_ res + duplicates res = scanned res /\
    (forall e, In e added -> exists x, In x (sources k w) /\ eo_now o < x_at x <= eo_now o + kind_window k /\ e_tenantId e = x_tenant x /\
       e_sourceId e = x_id x /\ e_notificationType e = js_name (kind_type k) /\ e_eventVersion e = kind_version k (x_at x) /\ e_status e = pending /\
       e_nextAttemptAt e = eo_now o) /\
    (forall x, In x l -> warned sha256 (kind_type k) (kind_version k) x (t ++ added) = true) /\
    exists res', expiry_pass k sha256 ids' clock' o w (t ++ added) = (t ++ added, Ret res') /\ enqueued_ res' = 0.
Proof.
  intros Hs l. pose proof (scan_well_formed k o w Hs) as Hl. rewrite expiry_pass_eq. fold l in Hl |- *.
  destruct (warn_all_spec sha256 ids clock (kind_type k) (kind_version k) (eo_now o) l Hl 0 t zero_result)
    as (added & res & -> & H1 & H2 & H3 & H4 & H5 & Hin & Hw). exists added, res. cbn in H1, H2, H3, H4, H5. split_and!; [done|lia..| |done|].
  - intros e (x & id & Hx & -> & _)%Hin. exists x. apply In_scan in Hx as [Hx Hwin]. done.
  - destruct (warn_all_again sha256 ids' clock' (kind_type k) (kind_version k) (eo_now o) l Hl 0 (t ++ added) zero_result Hw) as (res' & Ha & He).
    exists res'. by rewrite expiry_pass_eq.
Qed.

(** * The lease *)

Section Lease.
Context (key : string) (durationMs : Z).
Inductive lease_op := Acquire (holder : string) (now : Z) | Release (holder : string).
Definition lease_exec (o : lease_op) (t : leases) : leases * bool :=
  match o with Acquire h now => acquireSchedulerLease key h durationMs now t | Release h => releaseSchedulerLease key h t end.
(** What another worker may try until the lease of [h], taken at [now], runs out. *)
Definition meanwhile (h : string) (now : Z) (o : lease_op) : Prop :=
  match o with Acquire _ n => n <= now + durationMs | Release h' => h' <> h end.
Definition holds (h : string) (now : Z) (t : leases) : Prop := NoDup (map ls_key t) /\ In (new_lease key h durationMs now) t.

Lemma acquire_holds h now t t' : NoDup (map ls_key t) -> acquireSchedulerLease key h durationMs now t = (t', true) -> holds h now t'.
Proof.
  intros Hnd. unfold acquireSchedulerLease. destruct (List.find _ t) as [l|] eqn:Hf.
  - apply List.find_some in Hf as [Hin Hk]. destruct (ls_expiresAt l <? now); [|done]. intros [= <-]. split.
    + rewrite map_map. replace (map _ t) with (map ls_key t); [done|]. apply map_ext. intros x. destruct (String.eqb_spec (ls_key x) key); done.
    + apply in_map_iff. exists l. by rewrite Hk.
  - intros [= <-]. split; [|apply in_app_iff; by right; left]. rewrite map_app. apply NoDup_app. split; [done|]. split; [|apply NoDup_singleton].
    intros x Hx ->%list_elem_of_singleton. apply list_elem_of_In, in_map_iff in Hx as (l & Hl & Hin). cbn in Hl.
    pose proof (List.find_none _ _ Hf l Hin) as Hn. cbn in Hn. rewrite Hl, String.eqb_refl in Hn. done.
Qed.
Lemma holds_find h now t : holds h now t -> List.find (fun l => ls_key l =s key) t = Some (new_lease key h durationMs now).
Proof. intros [Hnd Hin]. exact (find_unique_key ls_key t (new_lease key h durationMs now) Hnd Hin). Qed.
Lemma holds_held h now t l : holds h now t -> In l t -> ls_key l = key -> l = new_lease key h durationMs now.
Proof. intros [Hnd Hin] Hl Hk. by apply (NoDup_map_inj_in ls_key t). Qed.
Lemma meanwhile_none h now o t : holds h now t -> meanwhile h now o -> lease_exec o t = (t, false).
Proof.
  intros Hh Hm. destruct o as [h' n|h']; cbn in *.
  - unfold acquireSchedulerLease. rewrite (holds_find _ _ _ Hh). cbn [ls_expiresAt new_lease]. by replace (now + durationMs <? n) with false by lia.
  - unfold releaseSchedulerLease. assert (Hn : forall l, In l t -> (ls_key l =s key) && (ls_holder l =s h') = false).
    { intros l Hl. destruct (String.eqb_spec (ls_key l) key) as [Hk|]; [|done]. rewrite (holds_held _ _ _ _ Hh Hl Hk). cbn.
      by apply String.eqb_neq. }
    f_equal.
    + clear Hh. induction t as [|l t IH]; [done|]. cbn [List.filter]. rewrite (Hn l) by (by left). cbn [negb]. f_equal. apply IH. intros x Hx. apply Hn. by right.
    + apply not_true_is_false. intros (l & Hl & Hx)%existsb_exists. rewrite Hn in Hx; done.
Qed.
End Lease.

(** The scheduler's lease excludes: once it is taken, whatever other workers, and the holder again, try until it runs out changes nothing and
    succeeds for nobody, releases with another token included; after that it is taken at an instant if and only if it has expired strictly before;
    and the holder's own release frees it at once, at any instant. *)
Theorem lease_excludes (key h h2 : string) (durationMs now n2 : Z) (t t' : leases) (os : list lease_op) :
  NoDup (map ls_key t) -> acquireSchedulerLease key h durationMs now t = (t', true) -> Forall (meanwhile durationMs h now) os ->
  Forall (fun o => lease_exec key durationMs o t' = (t', false)) os /\
  fold_left (fun t o => fst (lease_exec key durationMs o t)) os t' = t' /\
  (snd (acquireSchedulerLease key h2 durationMs n2 t') = true <-> now + durationMs < n2) /\
  snd (acquireSchedulerLease key h2 durationMs n2 (fst (releaseSchedulerLease key h t'))) = true.
Proof.
  intros Hnd Ha Hos. apply (acquire_holds _ _ _ _ _ _ Hnd) in Ha.
  assert (Hall : Forall (fun o => lease_exec key durationMs o t' = (t', false)) os).
  { eapply Forall_impl; [exact Hos|]. intros o. by apply meanwhile_none. }
  split_and!; [done| | |].
  - clear Hos. induction Hall as [|o os Ho Hall IH]; [done|]. cbn [fold_left]. by rewrite Ho.
  - unfold acquireSchedulerLease. rewrite (holds_find _ _ _ _ _ Ha). cbn [ls_expiresAt new_lease]. destruct (Z.ltb_spec (now + durationMs) n2); cbn [snd]; split; done || lia.
  - unfold acquireSchedulerLease, releaseSchedulerLease. cbn [fst]. destruct (List.find _ _) as [l|] eqn:Hf; [|done]. exfalso.
    apply List.find_some in Hf as [Hl Hk%String.eqb_eq]. apply filter_In in Hl as [Hl Hn]. rewrite (holds_held _ _ _ _ _ _ Ha Hl Hk) in Hn.
    cbn in Hn. by rewrite !String.eqb_refl in Hn.
Qed.

(** * The drain *)

Definition claimables (now : Z) (t : table) : Z := Z.of_nat (length (List.filter (claimable now) t)).

Lemma retry_delay_pos n : 0 < outboxRetryDelayMs n /\ 0 < outboxReadinessDelayMs n.
Proof.
  assert (Hp : 0 < 2 ^ (Z.max 1 n - 1)) by (apply Z.pow_pos_nonneg; lia).
  unfold outboxRetryDelayMs, outboxReadinessDelayMs. cbv zeta.
  change OUTBOX_BASE_RETRY_DELAY_MS with 60000. change OUTBOX_READINESS_BASE_DELAY_MS with 60000.
  change OUTBOX_MAX_RETRY_DELAY_MS with 3600000. change OUTBOX_READINESS_MAX_DELAY_MS with 900000. lia.
Qed.
(** What a settlement writes is not due at that instant. *)
Lemma settled_not_claimable ev o now r : claimable now (settle_row ev o now r) = false.
Proof.
  pose proof (retry_delay_pos (e_attemptCount ev)) as [H1 H2]. destruct o as [safe c d n|code| |code]; cbn [settle_row]; try done.
  - destruct (_ <? _); [|done]. unfold claimable, set_row. cbn. lia.
  - unfold claimable, set_row. cbn. lia.
Qed.
Lemma settle_claimables ev o now t : claimables now (settle ev o now t) <= claimables now t.
Proof.
  unfold claimables, settle. induction t as [|r t IH]; [done|]. cbn [map List.filter]. destruct (_ && _).
  - rewrite settled_not_claimable. destruct (claimable now r); cbn [length]; lia.
  - destruct (claimable now r); cbn [length]; lia.
Qed.
Lemma process_all_claimables {W} (create : W -> string -> AuthorizationSource -> Z -> W * outcome CreationResult string) evs now : forall w t a,
  claimables now (snd (fst (process_all create evs now w t a))) <= claimables now t.
Proof.
  induction evs as [|ev evs IH]; intros w t a; cbn [process_all]; [reflexivity|]. destruct (processOne create ev now w) as [w' o].
  specialize (IH w' (settle ev o now t) (tally ev o a)). pose proof (settle_claimables ev o now t). lia.
Qed.
Lemma claim_claimables batch now t : 1 <= batch -> OutboxRuns.wf t ->
  claimables now (fst (claim batch now [] t)) = claimables now t - Z.min batch (claimables now t) /\
  Z.of_nat (length (snd (claim batch now [] t))) = Z.min batch (claimables now t).
Proof.
  intros Hb Hwf. assert (Hdue : List.filter (OutboxRuns.due now []) t = List.filter (claimable now) t)
    by (apply filter_ext; intros r; unfold OutboxRuns.due; cbn; by rewrite andb_true_r).
  assert (Hlen : Z.of_nat (length (snd (claim batch now [] t))) = Z.min batch (claimables now t)).
  { rewrite OutboxRuns.claim_eq. cbn [snd]. rewrite length_map. unfold OutboxRuns.picked. rewrite length_take, Hdue.
    rewrite (Permutation_length (js_sort_perm _ _)). unfold claimables. lia. }
  split; [|done]. rewrite <- Hlen. rewrite OutboxRuns.claim_eq. cbn [fst snd]. rewrite length_map. unfold claimables.
  set (ids := map e_id (OutboxRuns.picked batch now [] t)).
  assert (Hp : length (OutboxRuns.picked batch now [] t) = length (List.filter (fun r => includes ids (e_id r)) t)) by (by apply OutboxRuns.picked_length).
  rewrite Hp. assert (Hin : forall r, In r t -> includes ids (e_id r) = true -> claimable now r = true).
  { intros r Hr Hi. apply includes_In, in_map_iff in Hi as (r' & Hid & Hr'). apply OutboxRuns.picked_due in Hr' as [Hr' Hd].
    rewrite <- (OutboxRuns.wf_unique t r' r Hwf Hr' Hr Hid). by apply andb_true_iff in Hd as [Hd _]. }
  clearbody ids. clear - Hin. induction t as [|r t IH]; [done|]. cbn [map List.filter]. specialize (IH (fun x Hx => Hin x (or_intror Hx))).
  destruct (includes ids (e_id r)) eqn:Hi.
  - rewrite (Hin r (or_introl eq_refl) Hi). replace (claimable now (lock_row now r)) with false; [cbn [length]; lia|].
    unfold claimable, lock_row. cbn. change OUTBOX_LEASE_DURATION_MS with 300000. lia.
  - destruct (claimable now r); cbn [length]; lia.
Qed.

(** What a settlement leaves of a row at the instant of the batch: done, given up, or put off. *)
Definition dealt_with (now : Z) (r : event_row) : Prop :=
  e_status r = completed \/ e_status r = dead_letter \/ (e_status r = pending /\ now < e_nextAttemptAt r).
(** A row of [t0] that was not due: held by a worker whose claim still runs, over, or to be tried later. *)
Definition not_due (now : Z) (t0 : table) (r : event_row) : Prop := In r t0 /\ claimable now r = false.
Definition accounted (now : Z) (t0 t : table) : Prop := forall r, In r t -> dealt_with now r \/ claimable now r = true \/ not_due now t0 r.
Lemma settle_row_dealt ev o now r : dealt_with now (settle_row ev o now r).
Proof.
  pose proof (retry_delay_pos (e_attemptCount ev)) as [H1 H2]. destruct o as [safe c d n|code| |code]; cbn [settle_row]; unfold dealt_with; cbn.
  - by left.
  - destruct (_ <? _); [right; right; cbn; split; [done|lia]|by right; left].
  - right; right. split; [done|lia].
  - by right; left.
Qed.
(** Every event that is worked on is dealt with. *)
Lemma process_all_accounts {W} (create : W -> string -> AuthorizationSource -> Z -> W * outcome CreationResult string) (P : event_row -> Prop) evs now :
  (forall r, dealt_with now r -> P r) -> forall w t a,
  (forall r, In r t -> P r \/ exists ev, In ev evs /\ e_id ev = e_id r /\ e_tenantId ev = e_tenantId r) ->
  forall r, In r (snd (fst (process_all create evs now w t a))) -> P r.
Proof.
  intros HP. induction evs as [|ev evs IH]; intros w t a Ht r; cbn [process_all].
  { cbn [fst snd]. intros [?|(ev & [] & _)]%Ht. done. }
  destruct (processOne create ev now w) as [w' o]. apply IH. intros x (y & <- & Hy)%in_map_iff.
  destruct (_ && _) eqn:Hk; [left; apply HP, settle_row_dealt|]. destruct (Ht y Hy) as [?|(ev' & [<-|Hin] & Hid & Htn)]; [by left| |right; by exists ev'].
  by rewrite Hid, Htn, !String.eqb_refl in Hk.
Qed.
Definition keys (t : table) : list (string * string) := map (fun r => (e_tenantId r, e_dedupeKey r)) t.
Lemma keys_map f t : (forall r, e_tenantId (f r) = e_tenantId r /\ e_dedupeKey (f r) = e_dedupeKey r) -> keys (map f t) = keys t.
Proof. intros H. unfold keys. rewrite map_map. apply map_ext. intros r. by destruct (H r) as [-> ->]. Qed.
Lemma process_all_keys {W} (create : W -> string -> AuthorizationSource -> Z -> W * outcome CreationResult string) evs now : forall w t a,
  keys (snd (fst (process_all create evs now w t a))) = keys t.
Proof.
  induction evs as [|ev evs IH]; intros w t a; cbn [process_all]; [done|]. destruct (processOne create ev now w) as [w' o]. rewrite IH.
  apply keys_map. intros r. destruct (_ && _); [|done]. destruct o; cbn [settle_row]; try done. by destruct (_ <? _).
Qed.
Lemma warned_keys sha256 ty version x t t' : keys t = keys t' -> warned sha256 ty version x t = warned sha256 ty version x t'.
Proof.
  intros H. unfold warned. set (key := warning_key sha256 ty version x).
  assert (E : forall l, existsb (same_key (x_tenant x) key) l = existsb (fun p => (fst p =s x_tenant x) && (snd p =s key)) (keys l)).
  { induction l as [|r l IH]; [done|]. cbn. by rewrite IH. }
  by rewrite !E, H.
Qed.

Section Drain.
Context (row_ids : string -> string) (elapsed : nat -> Z).
Abbreviation run_batch := (processFamilyNotificationOutboxBatch (createAuthorizedFamilyNotification row_ids)).

Lemma batch_claimables batch now w t : 1 <= batch <= OUTBOX_MAX_BATCH_SIZE -> OutboxRuns.wf t ->
  let r := run_batch (Some batch) now [] w t in
  OutboxRuns.wf (snd (fst r)) /\ p_claimed (snd r) = Z.min batch (claimables now t) /\ claimables now (snd (fst r)) <= claimables now t - p_claimed (snd r).
Proof.
  intros Hb Hwf. unfold processFamilyNotificationOutboxBatch. replace (boundBatch (Some batch)) with batch by (unfold boundBatch; cbv zeta; change (Some batch ?? OUTBOX_DEFAULT_BATCH_SIZE) with batch; lia).
  pose proof (claim_claimables batch now t (proj1 Hb) Hwf) as [Hc Hl].
  assert (Hids : OutboxRuns.wf (fst (claim batch now [] t))) by (unfold OutboxRuns.wf; by rewrite OutboxRuns.claim_ids).
  destruct (claim batch now [] t) as [t1 evs]. cbn [fst snd] in *. cbv zeta.
  match goal with |- context [process_all ?c evs now w t1 ?a] =>
    pose proof (process_all_claimables c evs now w t1 a); pose proof (OutboxRuns.process_all_attempts c evs now w t1 a) as (_ & _ & Hcl);
    pose proof (OutboxRuns.process_all_ids c evs now w t1 a) as Hi end.
  cbn [p_claimed] in Hcl. rewrite Hcl. split; [unfold OutboxRuns.wf; by rewrite Hi|]. lia.
Qed.

Lemma batch_keys batch now skip w t : keys (snd (fst (run_batch batch now skip w t))) = keys t.
Proof.
  unfold processFamilyNotificationOutboxBatch, claim. cbv zeta. rewrite process_all_keys. apply keys_map. intros r. by destruct (includes _ _).
Qed.
Lemma batch_accounted batch now skip w t t0 : OutboxRuns.wf t -> accounted now t0 t -> accounted now t0 (snd (fst (run_batch batch now skip w t))).
Proof.
  intros Hwf Hacc r. unfold processFamilyNotificationOutboxBatch. pose proof (OutboxRuns.In_claim (boundBatch batch) now skip t) as Hin.
  destruct (claim (boundBatch batch) now skip t) as [t1 evs]. cbn [fst snd] in *.
  apply (process_all_accounts _ (fun r => dealt_with now r \/ claimable now r = true \/ not_due now t0 r)); [by left|]. intros x Hx.
  destruct (Hin x Hwf Hx) as [[Hxt _]|Hev]; [left; by apply Hacc|right; by exists x].
Qed.
Lemma drain_keys locked batch budget now : forall n k w t s,
  let '(_, t', _, _) := drain row_ids elapsed locked n k batch budget now w t s in keys t' = keys t.
Proof.
  induction n as [|n IH]; intros k w t s; cbn [drain]; [done|]. destruct (_ <=? _); [done|].
  pose proof (batch_keys (Some batch) now (locked k) w t) as Hk. destruct (run_batch (Some batch) now (locked k) w t) as [[w' t'] r]. cbn [fst snd] in Hk.
  destruct (_ =? 0); [done|]. specialize (IH (S k) w' t' (add_result r s)). destruct (drain _ _ _ _ _ _ _ _ _ _ _) as [[[? ?] ?] ?]. by rewrite IH.
Qed.
Lemma drain_empties batch budget now t0 : 1 <= batch <= OUTBOX_MAX_BATCH_SIZE -> (forall k, elapsed k < budget) -> forall n k w t s, OutboxRuns.wf t ->
  claimables now t <= (Z.of_nat n - 1) * batch -> (1 <= n)%nat -> accounted now t0 t ->
  let '(_, t', s', why) := drain row_ids elapsed (fun _ => []) n k batch budget now w t s in
  why = stop_completed /\ claimables now t' = 0 /\ accounted now t0 t'.
Proof.
  intros Hb He. induction n as [|n IH]; intros k w t s Hwf Hc Hn Hacc; [lia|]. cbn [drain]. pose proof (batch_accounted (Some batch) now [] w t t0 Hwf Hacc) as Hacc'. specialize (He k) as Hk.
  replace (budget <=? elapsed k) with false by lia. pose proof (batch_claimables batch now w t Hb Hwf) as (Hw & Hp & Hl).
  destruct (run_batch (Some batch) now [] w t) as [[w' t'] r]. cbn [fst snd] in *.
  destruct (Z.eqb_spec (p_claimed r) 0) as [Hz|Hz].
  - split; [done|]. split; [|done]. unfold claimables in *. lia.
  - assert (1 <= n)%nat by (unfold claimables in *; nia). apply IH; [done| |done|done]. unfold claimables in *. nia.
Qed.
End Drain.

(** * The cycle completes *)

(** Fresh ids keep the table well-formed. *)
Lemma warn_all_wf sha256 ids clock ty version now l : (forall i j, ids i = ids j -> i = j) -> (forall x, In x l -> well_formed version x) ->
  forall k t res, OutboxRuns.wf t -> (forall j, (k <= j)%nat -> ~ In (ids j) (map e_id t)) ->
  let t' := fst (warn_all sha256 ids clock ty version now k l t res) in
  OutboxRuns.wf t' /\ (forall j, (k + length l <= j)%nat -> ~ In (ids j) (map e_id t')) /\
  claimables now t' <= claimables now t + Z.of_nat (length l).
Proof.
  intros Hinj. induction l as [|x l IH]; intros Hl k t res Hwf Hfr; cbn [warn_all length].
  { split; [done|]. split; [intros j Hj; apply Hfr; lia|]. cbn [fst]. lia. }
  pose proof (Hl x (or_introl eq_refl)) as Hx. rewrite (proj1 Hx). cbn [negb].
  destruct (enqueue_warning sha256 clock ty version now (ids k) x t Hx) as (r & -> & _).
  destruct (warned sha256 ty version x t) eqn:Hw.
  - edestruct (IH (fun y Hy => Hl y (or_intror Hy)) (S k) t) as (H1 & H2 & H3); [done|intros j Hj; apply Hfr; lia|].
    split; [exact H1|]. split; [|rewrite Nat2Z.inj_succ in *; lia]. intros j Hj. apply H2. lia.
  - edestruct (IH (fun y Hy => Hl y (or_intror Hy)) (S k) (t ++ [warning_row sha256 clock ty version now (ids k) x])) as (H1 & H2 & H3).
    + unfold OutboxRuns.wf. rewrite map_app. apply NoDup_app. split; [done|]. split; [|apply NoDup_singleton].
      intros i Hi ->%list_elem_of_singleton. apply (Hfr k (le_n k)). by apply list_elem_of_In.
    + intros j Hj. rewrite map_app, in_app_iff. intros [Hin|[Hin|[]]]; [apply (Hfr j ltac:(lia) Hin)|]. cbn in Hin. apply Hinj in Hin. lia.
    + split; [exact H1|]. split; [intros j Hj; apply H2; lia|]. etransitivity; [exact H3|].
      unfold claimables at 1. rewrite List.filter_app, length_app. cbn [List.filter]. fold (claimables now t). unfold claimables.
      destruct (claimable _ _); cbn [length]; lia.
Qed.

Lemma length_scan o window l : Z.of_nat (length (scan o window l)) <= boundExpiryBatch (eo_batchSize o) /\ (length (scan o window l) <= length l)%nat.
Proof.
  unfold scan. rewrite length_take, (Permutation_length (js_sort_perm _ _)).
  pose proof (filter_length_le (fun x => in_window (eo_now o) window x && after_cursor (eo_cursor o) x) l). unfold boundExpiryBatch. lia.
Qed.
Lemma length_expiring_invitations l : (length (expiring_invitations l) <= length l)%nat.
Proof. unfold expiring_invitations. rewrite length_map. apply filter_length_le. Qed.
Lemma clamp_range n def max : 1 <= max -> 1 <= clamp n def max <= max.
Proof. unfold clamp. lia. Qed.

(** The source is one of those the pass of its kind scans. *)
Definition soon (k : expiry_kind) (eo : ExpiryEvaluatorOptions) (w : world) (x : expiring) : Prop := In x (scan eo (kind_window k) (sources k w)).
Definition warned_of (sha256 : string -> string) (k : expiry_kind) (x : expiring) (t : table) : Prop := warned sha256 (kind_type k) (kind_version k) x t = true.
(** Both passes of a cycle return; every source they scan is warned of then, by new events that are pending. *)
Lemma passes_warn sha256 ids clock eo w t : (forall k x, In x (sources k w) -> sane x) -> exists t1 r1 added r2,
  evaluateExpiringGuardianInvitations sha256 ids clock eo (invitations w) t = (t1, Ret r1) /\
  evaluateExpiringConsents sha256 (fun k => ids (k + length (invitations w))%nat) clock eo (consents (fam w)) t1 = (t ++ added, Ret r2) /\
  (forall k x, soon k eo w x -> warned_of sha256 k x (t ++ added)) /\ (forall e, In e added -> e_status e = pending).
Proof.
  intros Hsane. pose proof (scan_well_formed Invitations eo w (Hsane Invitations)) as Hl1. pose proof (scan_well_formed Consents eo w (Hsane Consents)) as Hl2.
  destruct (warn_all_spec sha256 ids clock (kind_type Invitations) (kind_version Invitations) (eo_now eo) _ Hl1 0 t zero_result) as (add1 & r1 & He1 & _ & _ & _ & _ & _ & Hp1 & Hw1).
  destruct (warn_all_spec sha256 (fun k => ids (k + length (invitations w))%nat) clock (kind_type Consents) (kind_version Consents) (eo_now eo) _ Hl2 0 (t ++ add1) zero_result)
    as (add2 & r2 & He2 & _ & _ & _ & _ & _ & Hp2 & Hw2).
  exists (t ++ add1), r1, (add1 ++ add2), r2. rewrite app_assoc. split; [exact He1|]. split; [exact He2|]. split.
  - intros [] x Hx; unfold warned_of; [|by apply Hw2]. rewrite warned_app, (Hw1 x Hx). done.
  - intros e [He|He]%in_app_iff; [apply Hp1 in He|apply Hp2 in He]; by destruct He as (x & id & _ & -> & _).
Qed.
(** With fresh ids the table keeps its key; they add at most two batches of due events. *)
Lemma passes_room sha256 ids clock eo w t : (forall i j, ids i = ids j -> i = j) -> (forall j, ~ In (ids j) (map e_id t)) -> OutboxRuns.wf t ->
  (forall k x, In x (sources k w) -> sane x) ->
  let t1 := fst (evaluateExpiringGuardianInvitations sha256 ids clock eo (invitations w) t) in
  let t2 := fst (evaluateExpiringConsents sha256 (fun k => ids (k + length (invitations w))%nat) clock eo (consents (fam w)) t1) in
  OutboxRuns.wf t2 /\ claimables (eo_now eo) t2 <= claimables (eo_now eo) t + 2 * boundExpiryBatch (eo_batchSize eo).
Proof.
  intros Hinj Hfresh Hwf Hsane t1 t2.
  pose proof (scan_well_formed Invitations eo w (Hsane Invitations)) as Hl1. pose proof (scan_well_formed Consents eo w (Hsane Consents)) as Hl2.
  pose proof (length_scan eo (kind_window Invitations) (sources Invitations w)) as [Hb1 Hn1].
  pose proof (length_scan eo (kind_window Consents) (sources Consents w)) as [Hb2 _]. pose proof (length_expiring_invitations (invitations w)) as Hn0.
  pose proof (warn_all_wf sha256 ids clock (kind_type Invitations) (kind_version Invitations) (eo_now eo) _ Hinj Hl1 0 t zero_result Hwf
    (fun j _ => Hfresh j)) as (Hw1 & Hf1 & Hc1). fold t1 in Hw1, Hf1, Hc1.
  set (ids2 := fun k => ids (k + length (invitations w))%nat).
  assert (Hi2 : forall i j, ids2 i = ids2 j -> i = j) by (intros i j H%Hinj; lia).
  assert (Hf2 : forall j, (0 <= j)%nat -> ~ In (ids2 j) (map e_id t1)) by (intros j _; apply Hf1; cbn [sources] in Hn1 |- *; lia).
  pose proof (warn_all_wf sha256 ids2 clock (kind_type Consents) (kind_version Consents) (eo_now eo) _ Hi2 Hl2 0 t1 zero_result Hw1 Hf2) as (Hw2 & _ & Hc2).
  split; [exact Hw2|]. unfold t2. change (evaluateExpiringGuardianInvitations sha256 ids clock eo (invitations w) t) with
    (warn_all sha256 ids clock (kind_type Invitations) (kind_version Invitations) (eo_now eo) 0 (scan eo (kind_window Invitations) (sources Invitations w)) t zero_result) in t1.
  etransitivity; [exact Hc2|]. fold t1 in Hc1. lia.
Qed.
Lemma drain_locked row_ids elapsed locked batch budget now : (forall k, locked k = []) -> forall n k w t s,
  drain row_ids elapsed locked n k batch budget now w t s = drain row_ids elapsed (fun _ => []) n k batch budget now w t s.
Proof.
  intros H. induction n as [|n IH]; intros k w t s; cbn [drain]; [done|]. rewrite H. destruct (_ <=? _); [done|].
  destruct (processFamilyNotificationOutboxBatch _ _ _ _ _ _) as [[w' t'] r]. destruct (_ =? 0); [done|]. apply IH.
Qed.
(** After its own release a holder's lease is gone. *)
Lemma released_gone key d h now t : holds key d h now t -> forall l, In l (fst (releaseSchedulerLease key h t)) -> ls_key l <> key.
Proof.
  intros Hh l Hin Hk. unfold releaseSchedulerLease in Hin. cbn [fst] in Hin. apply filter_In in Hin as [Hin Hne].
  rewrite (holds_held _ _ _ _ _ _ Hh Hin Hk) in Hne. cbn in Hne. by rewrite !String.eqb_refl in Hne.
Qed.

(** C35 — A cycle of the scheduler that gets the lease releases it, whatever happens in between. If the expiring rows have ids and times of the calendar, it always
    returns, and every invitation and consent its two scans find expiring is warned of, by an event of this cycle or an earlier one. And if moreover no other
    worker holds rows, the time budget is not used up, the new ids are fresh, and the due events with the new warnings fit all but one of its batches, it stops
    because nothing is left: no event is due any more, and every event that was due, or was enqueued by the cycle, is completed, given up, or put off to a later
    time; the only rows left as they were are those that were not due. (Leases and events have unique keys.) *)
Theorem scheduler_catches_up (sha256 : string -> string) (ids : nat -> string) (row_ids : string -> string) (clock : Z) (elapsed : nat -> Z)
    (locked : nat -> list string) (o : RunSchedulerOptions) (c : cluster) :
  let batch := clamp (ro_outboxBatchSize o) DEFAULT_OUTBOX_BATCH 500 in
  let batches := clamp (ro_maxOutboxBatches o) DEFAULT_MAX_OUTBOX_BATCHES HARD_MAX_OUTBOX_BATCHES in
  let expiry := clamp (ro_expiryBatchSize o) DEFAULT_EXPIRY_BATCH 500 in
  let eo := {| eo_now := ro_now o; eo_batchSize := Some expiry; eo_cursor := None |} in
  NoDup (map ls_key (cl_leases c)) ->
  snd (acquireSchedulerLease FAMILY_NOTIFICATIONS_SCHEDULER_LEASE_KEY (ro_workerId o) SCHEDULER_LEASE_MS (ro_now o) (cl_leases c)) = true ->
  let '(c', result) := runFamilyNotificationScheduler sha256 ids row_ids clock elapsed locked o c in
  (forall l, In l (cl_leases c') -> ls_key l <> FAMILY_NOTIFICATIONS_SCHEDULER_LEASE_KEY) /\
  ((forall k x, In x (sources k (cl_world c)) -> sane x) ->
   exists res, result = Ret res /\ rr_acquired res = true /\
   (forall k x, soon k eo (cl_world c) x -> warned_of sha256 k x (cl_outbox c')) /\
   ((forall k, locked k = []) -> (forall k, elapsed k < clamp (ro_timeBudgetMs o) DEFAULT_TIME_BUDGET_MS HARD_MAX_TIME_BUDGET_MS) ->
    (forall i j, ids i = ids j -> i = j) -> (forall j, ~ In (ids j) (map e_id (cl_outbox c))) -> OutboxRuns.wf (cl_outbox c) ->
    claimables (ro_now o) (cl_outbox c) + 2 * expiry <= (batches - 1) * batch ->
    rr_stoppedReason res = stop_completed /\ claimables (ro_now o) (cl_outbox c') = 0 /\
    forall r, In r (cl_outbox c') -> dealt_with (ro_now o) r \/ not_due (ro_now o) (cl_outbox c) r)).
Proof.
  intros batch batches expiry eo Hnd Hacq. unfold runFamilyNotificationScheduler.
  destruct (acquireSchedulerLease _ _ _ _ _) as [ls b] eqn:Ha. cbn [snd] in Hacq. subst b.
  pose proof (released_gone _ _ _ _ _ (acquire_holds _ _ _ _ _ _ Hnd Ha)) as Hgone. fold batch batches expiry. fold eo.
  pose proof (passes_warn sha256 ids clock eo (cl_world c) (cl_outbox c)) as Hwarn.
  pose proof (passes_room sha256 ids clock eo (cl_world c) (cl_outbox c)) as Hroom. cbv zeta in Hroom |- *.
  destruct (evaluateExpiringGuardianInvitations _ _ _ _ _ _) as [t1 [r1|e]]; [|split; [exact Hgone|]; intros H; destruct (Hwarn H) as (? & ? & ? & ? & [=] & _)].
  cbn [fst] in Hroom. destruct (evaluateExpiringConsents _ _ _ _ _ _) as [t2 [r2|e]] eqn:Hcons.
  2: { split; [exact Hgone|]. intros H. destruct (Hwarn H) as (? & ? & ? & ? & [= -> ->] & Heq & _). rewrite Hcons in Heq. discriminate Heq. }
  pose proof (drain_keys row_ids elapsed locked batch (clamp (ro_timeBudgetMs o) DEFAULT_TIME_BUDGET_MS HARD_MAX_TIME_BUDGET_MS) (ro_now o) (Z.to_nat batches) 0 (cl_world c) t2 no_sums) as Hkeys.
  pose proof (fun Hb Hel => drain_empties row_ids elapsed batch (clamp (ro_timeBudgetMs o) DEFAULT_TIME_BUDGET_MS HARD_MAX_TIME_BUDGET_MS) (ro_now o) (cl_outbox c) Hb Hel (Z.to_nat batches) 0%nat (cl_world c) t2 no_sums) as Hdrain.
  assert (Hlocked : (forall k, locked k = []) -> forall n k w t s, drain row_ids elapsed locked n k batch (clamp (ro_timeBudgetMs o) DEFAULT_TIME_BUDGET_MS HARD_MAX_TIME_BUDGET_MS) (ro_now o) w t s =
    drain row_ids elapsed (fun _ => []) n k batch (clamp (ro_timeBudgetMs o) DEFAULT_TIME_BUDGET_MS HARD_MAX_TIME_BUDGET_MS) (ro_now o) w t s) by (intros H; apply drain_locked; exact H).
  destruct (drain row_ids elapsed locked (Z.to_nat batches) _ _ _ _ _ _ _) as [[[w' t'] s'] why] eqn:Hd. split; [exact Hgone|]. intros Hsane.
  destruct (Hwarn Hsane) as (t1' & r1' & added & r2' & [= <- <-] & Heq & Hall & Hpend). rewrite Hcons in Heq. injection Heq as -> <-.
  eexists. split; [reflexivity|]. split; [done|]. split.
  { intros k x Hx. unfold warned_of. cbn [cl_outbox]. rewrite (warned_keys _ _ _ _ _ _ Hkeys). by apply Hall. }
  intros Hl Hel Hinj Hfresh Hwf Hfit. rewrite (Hlocked Hl) in Hd. destruct (Hroom Hinj Hfresh Hwf Hsane) as [Hwf2 Hc2]. cbn [fst eo_now eo_batchSize eo] in Hwf2, Hc2.
  assert (Hbe : boundExpiryBatch (Some expiry) = expiry).
  { assert (1 <= expiry <= 500) by (apply clamp_range; lia). unfold boundExpiryBatch. change (Some expiry ?? EXPIRY_DEFAULT_BATCH) with expiry. change EXPIRY_MAX_BATCH with 500. lia. }
  rewrite Hbe in Hc2. assert (Hb : 1 <= batches) by (apply clamp_range; unfold HARD_MAX_OUTBOX_BATCHES; lia).
  assert (Hbb : 1 <= batch <= OUTBOX_MAX_BATCH_SIZE) by (by apply clamp_range).
  specialize (Hdrain Hbb Hel Hwf2). rewrite Z2Nat.id in Hdrain by lia. specialize (Hdrain ltac:(lia) ltac:(lia)). rewrite Hd in Hdrain.
  destruct Hdrain as (-> & Hz & Hacc).
  { intros r [Hr|Hr]%in_app_iff; [destruct (claimable (ro_now o) r) eqn:Hcl; [by right; left|by right; right]|]. pose proof (Hpend r Hr) as Hp.
    destruct (claimable (ro_now o) r) eqn:Hcl; [by right; left|]. left. right. right. split; [done|]. unfold claimable in Hcl. rewrite Hp in Hcl. lia. }
  split; [done|]. split; [done|]. intros r Hr. destruct (Hacc r Hr) as [?|[Hcl|?]]; [by left| |by right]. exfalso.
  unfold claimables in Hz. cbn [cl_outbox] in Hr, Hz. assert (Hin : In r (List.filter (claimable (ro_now o)) t')) by by apply filter_In. destruct (List.filter _ t'); [done|]. cbn [length] in Hz. lia.
Qed.

(** * Typing of the outbox *)

(** The steps of any number of workers and writers on the table: they interleave freely. *)
Inductive outbox_step : table -> table -> Prop :=
| step_enqueue sha256 id now input t : outbox_step t (fst (enqueueFamilyNotificationOutboxEventTx sha256 id now input t))
| step_claim batch now skip t : outbox_step t (fst (claim batch now skip t))
| step_settle ev o now t : outbox_step t (settle ev o now t).

(** What each status says of the other columns. *)
Definition coherent (r : event_row) : Prop :=
  0 <= e_attemptCount r /\
  match e_status r with
  | processing => e_lockExpiresAt r <> None
  | completed => e_lockExpiresAt r = None /\ e_safeReasonCode r <> None /\ e_completedAt r <> None
  | pending => e_lockExpiresAt r = None
  | dead_letter => e_lockExpiresAt r = None /\ e_lastErrorCode r <> None
  end.
(** A row of a type of the catalogue, about the source its type names. *)
Definition well_typed (r : event_row) : Prop :=
  (exists ty, e_notificationType r = js_name ty /\ e_sourceType r = js_name (fst (OUTBOX_TYPE_SOURCE ty))) /\
  event_version_ok (e_eventVersion r) = true /\ nonempty (e_sourceId r) = true /\ coherent r.

Lemma enqueue_typed sha256 id now input t : Forall well_typed t -> Forall well_typed (fst (enqueueFamilyNotificationOutboxEventTx sha256 id now input t)).
Proof.
  intros Ht. unfold enqueueFamilyNotificationOutboxEventTx. destruct (lookup_mapping (notificationType input)) as [ty| |] eqn:Hl; [| |done].
  2:{ destruct (negb _); [done|]. by destruct (truthy _). }
  destruct (event_version_ok (eventVersion input)) eqn:Hv; [|done]. cbn [negb]. destruct (truthy _) eqn:Hs; [|done]. cbn [negb fst].
  destruct (negb (existsb _ _)); [|done]. apply Forall_app. split; [done|]. constructor; [|constructor].
  unfold lookup_mapping in Hl. destruct (parse (notificationType input)) as [ty'|] eqn:Hp; [|by destruct (includes _ _)]. injection Hl as ->.
  apply parse_Some in Hp. split; [by exists ty|]. split; [done|]. split; [|done]. cbn [e_sourceId new_row].
  by destruct (map_get (Outbox.source input) _).
Qed.
Lemma Forall_map_typed (p : event_row -> bool) f t : (forall r, well_typed r -> well_typed (f r)) ->
  Forall well_typed t -> Forall well_typed (map (fun r => if p r then f r else r) t).
Proof. intros Hf Ht. apply Forall_map. eapply Forall_impl; [exact Ht|]. intros r Hr. cbv beta. destruct (p r); [by apply Hf|done]. Qed.
Lemma claim_typed batch now skip t : Forall well_typed t -> Forall well_typed (fst (claim batch now skip t)).
Proof.
  apply Forall_map_typed. intros r (Hty & Hv & Hs & Ha & _). split; [exact Hty|]. split; [exact Hv|]. split; [exact Hs|].
  split; [cbn; lia|done].
Qed.
Lemma settle_typed ev o now t : Forall well_typed t -> Forall well_typed (settle ev o now t).
Proof.
  apply Forall_map_typed. intros r (Hty & Hv & Hs & Ha & _).
  destruct o as [safe c d n|code| |code]; cbn [settle_row]; try destruct (_ <? _);
    (split; [exact Hty|]; split; [exact Hv|]; split; [exact Hs|]; split; [exact Ha|done]).
Qed.
Lemma steps_typed t t' : rtc outbox_step t t' -> Forall well_typed t -> Forall well_typed t'.
Proof.
  intros H. induction H as [|t t1 t2 H _ IH]; [done|]. intros Ht. apply IH. destruct H; [by apply enqueue_typed|by apply claim_typed|by apply settle_typed].
Qed.

(** A batch, an expiry pass and a whole cycle are sequences of steps. *)
Lemma process_all_steps {W} (create : W -> string -> AuthorizationSource -> Z -> W * outcome CreationResult string) evs now : forall w t a,
  rtc outbox_step t (snd (fst (process_all create evs now w t a))).
Proof.
  induction evs as [|ev evs IH]; intros w t a; cbn [process_all]; [apply rtc_refl|]. destruct (processOne create ev now w) as [w' o].
  eapply rtc_l; [apply (step_settle ev o now)|apply IH].
Qed.
Lemma batch_steps {W} (create : W -> string -> AuthorizationSource -> Z -> W * outcome CreationResult string) size now skip w t :
  rtc outbox_step t (snd (fst (processFamilyNotificationOutboxBatch create size now skip w t))).
Proof.
  unfold processFamilyNotificationOutboxBatch. pose proof (step_claim (boundBatch size) now skip t) as Hs.
  destruct (claim (boundBatch size) now skip t) as [t1 evs]. eapply rtc_l; [exact Hs|]. apply process_all_steps.
Qed.
Lemma warn_all_steps sha256 ids clock ty version now l : forall k t res, rtc outbox_step t (fst (warn_all sha256 ids clock ty version now k l t res)).
Proof.
  induction l as [|x l IH]; intros k t res; cbn [warn_all]; [apply rtc_refl|]. destruct (negb _); [apply IH|].
  pose proof (step_enqueue sha256 (ids k) clock (warning ty version now x) t) as Hs. unfold enqueueFamilyNotificationOutboxEventOwnerTx.
  destruct (enqueueFamilyNotificationOutboxEventTx _ _ _ _ _) as [t' [r|e]]; [eapply rtc_l; [exact Hs|apply IH]|by apply rtc_once].
Qed.
Lemma drain_steps row_ids elapsed locked n : forall k batch budget now w t s,
  rtc outbox_step t (snd (fst (fst (drain row_ids elapsed locked n k batch budget now w t s)))).
Proof.
  induction n as [|n IH]; intros k batch budget now w t s; cbn [drain]; [apply rtc_refl|]. destruct (_ <=? _); [apply rtc_refl|].
  pose proof (batch_steps (createAuthorizedFamilyNotification row_ids) (Some batch) now (locked k) w t) as Hb.
  destruct (processFamilyNotificationOutboxBatch _ _ _ _ _ _) as [[w' t'] r]. destruct (_ =? _); [done|]. etransitivity; [exact Hb|apply IH].
Qed.
Lemma cycle_steps sha256 ids row_ids clock elapsed locked o c :
  rtc outbox_step (cl_outbox c) (cl_outbox (fst (runFamilyNotificationScheduler sha256 ids row_ids clock elapsed locked o c))).
Proof.
  unfold runFamilyNotificationScheduler. destruct (acquireSchedulerLease _ _ _ _ _) as [ls [|]]; [|apply rtc_refl].
  unfold evaluateExpiringGuardianInvitations, evaluateExpiringConsents.
  match goal with |- context [warn_all _ _ _ family_guardian_invitation_expiring ?v ?n ?k ?l ?t ?r] =>
    pose proof (warn_all_steps sha256 ids clock family_guardian_invitation_expiring v n l k t r) as H1;
    destruct (warn_all sha256 ids clock family_guardian_invitation_expiring v n k l t r) as [t1 [r1|e]] end; [|done].
  match goal with |- context [warn_all _ ?i _ family_consent_expiring ?v ?n ?k ?l ?t ?r] =>
    pose proof (warn_all_steps sha256 i clock family_consent_expiring v n l k t r) as H2;
    destruct (warn_all sha256 i clock family_consent_expiring v n k l t r) as [t2 [r2|e]] end; [|by etransitivity].
  match goal with |- context [drain _ _ _ ?n ?k ?b ?bu ?now ?w ?t ?s] =>
    pose proof (drain_steps row_ids elapsed locked n k b bu now w t s) as H3; destruct (drain row_ids elapsed locked n k b bu now w t s) as [[[w' t3] s'] why] end.
  cbn [fst snd cl_outbox] in *. etransitivity; [exact H1|]. by etransitivity.
Qed.

(** C29 — The outbox is well typed and stays so, and well-typed events do not go wrong: however enqueues, claims and settlements of any workers
    interleave, and through every scheduler cycle, each row has a type of the catalogue, the source kind of its type, a valid version, and
    columns that agree with its status; and every such row, once processed, reaches the authorization kernel with a source of its type, so it is
    never dead-lettered as malformed, of an unknown type or of a bad version. *)
Theorem outbox_well_typed (t : table) (c : cluster) (sha256 : string -> string) (ids : nat -> string) (row_ids : string -> string) (clock : Z)
    (elapsed : nat -> Z) (locked : nat -> list string) (o : RunSchedulerOptions) (r : event_row) :
  Forall well_typed t -> rtc outbox_step t (cl_outbox c) ->
  let c' := fst (runFamilyNotificationScheduler sha256 ids row_ids clock elapsed locked o c) in
  In r (cl_outbox c') -> well_typed r /\
  exists src, buildAuthorizationSource r = Some src /\ js_name (s_type src) = e_notificationType r /\
    forall World (create : World -> string -> AuthorizationSource -> Z -> World * outcome CreationResult string) w now,
      processOne create r now w = let '(w', res) := create w (e_tenantId r) src now in (w', classify r res).
Proof.
  intros Ht Hs c' Hr. assert (Hwt : well_typed r).
  { assert (Hall : Forall well_typed (cl_outbox c')) by (eapply steps_typed; [etransitivity; [exact Hs|apply cycle_steps]|done]).
    rewrite Forall_forall in Hall. by apply Hall, list_elem_of_In. }
  split; [done|]. destruct Hwt as ((ty & Hty & Hst) & Hv & Hne & _).
  assert (Hl : lookup_mapping (e_notificationType r) = Entry ty) by (unfold lookup_mapping; by rewrite Hty, parse_name).
  assert (Hb : exists src, buildAuthorizationSource r = Some src /\ s_type src = ty).
  { unfold buildAuthorizationSource. rewrite Hl, Hst, String.eqb_refl, Hne. cbn [negb orb]. eauto. }
  destruct Hb as (src & Hb & Hsty). exists src. split; [done|]. split; [by rewrite Hsty|]. intros World create w now. unfold processOne. by rewrite Hl, Hv, Hb.
Qed.

(** * Crowded expiries *)

(** One cycle of the scheduler with what the database and the clock give it. *)
Record cycle := {
  cy_options : RunSchedulerOptions; cy_ids : nat -> string; cy_row_ids : string -> string; cy_clock : Z; cy_elapsed : nat -> Z;
  cy_locked : nat -> list string }.
Definition run_cycle (sha256 : string -> string) (c : cluster) (cy : cycle) : cluster :=
  fst (runFamilyNotificationScheduler sha256 (cy_ids cy) (cy_row_ids cy) (cy_clock cy) (cy_elapsed cy) (cy_locked cy) (cy_options cy) c).
Definition run_cycles (sha256 : string -> string) (l : list cycle) (c : cluster) : cluster := fold_left (run_cycle sha256) l c.

(** No event of the type is about the source. *)
Definition unwarned (ty : EnqueueableOutboxType) (id : string) (t : table) : Prop :=
  forall e, In e t -> e_notificationType e = js_name ty -> e_sourceId e <> id.

Lemma unwarned_map ty id (f : event_row -> event_row) t :
  (forall e, e_notificationType (f e) = e_notificationType e /\ e_sourceId (f e) = e_sourceId e) -> unwarned ty id t -> unwarned ty id (map f t).
Proof. intros Hf Ht e (e0 & <- & He)%in_map_iff. destruct (Hf e0) as [-> ->]. by apply Ht. Qed.
Lemma unwarned_process {W} (create : W -> string -> AuthorizationSource -> Z -> W * outcome CreationResult string) ty id evs now : forall w t a,
  unwarned ty id t -> unwarned ty id (snd (fst (process_all create evs now w t a))).
Proof.
  induction evs as [|ev evs IH]; intros w t a Ht; cbn [process_all]; [done|]. destruct (processOne create ev now w) as [w' o]. apply IH.
  apply unwarned_map; [|done]. intros e. destruct (_ && _); [|done]. destruct o; cbn; try done. by destruct (_ <? _).
Qed.
Lemma unwarned_enqueue sha256 nid clock ty ty' version now x id t : (js_name ty' = js_name ty -> x_id x <> id) -> unwarned ty id t ->
  unwarned ty id (fst (enqueueFamilyNotificationOutboxEventOwnerTx sha256 nid clock (warning ty' version now x) t)).
Proof.
  intros Hx Ht. unfold enqueueFamilyNotificationOutboxEventOwnerTx, enqueueFamilyNotificationOutboxEventTx. cbn [notificationType warning].
  unfold lookup_mapping. rewrite parse_name. destruct (negb _); [done|]. cbn [Outbox.source warning]. unfold map_get. cbn [List.find fst snd].
  rewrite String.eqb_refl. cbn [option_map truthy]. destruct (nonempty (x_id x)); [|done]. cbn [negb fst].
  destruct (negb (existsb _ _)); [|done]. intros e [He|[<-|[]]]%in_app_iff; [by apply Ht|]. cbn. exact Hx.
Qed.
Lemma unwarned_warn sha256 ids clock ty ty' version now id l : (js_name ty' = js_name ty -> forall x, In x l -> x_id x <> id) -> forall k t res,
  unwarned ty id t -> unwarned ty id (fst (warn_all sha256 ids clock ty' version now k l t res)).
Proof.
  induction l as [|x l IH]; intros Hl k t res Ht; cbn [warn_all]; [done|]. destruct (negb _); [by apply IH; [intros H y Hy; apply Hl; [done|by right]|]|].
  pose proof (unwarned_enqueue sha256 (ids k) clock ty ty' version now x id t (fun H => Hl H x (or_introl eq_refl)) Ht) as He.
  destruct (enqueueFamilyNotificationOutboxEventOwnerTx _ _ _ _ _) as [t' [r|e]]; [|done]. apply IH; [intros H y Hy; apply Hl; [done|by right]|done].
Qed.

(** What a delivery attempt leaves of the world. *)
Lemma create_fam row_ids w tenant src now : fam (fst (createAuthorizedFamilyNotification row_ids w tenant src now)) = fam w.
Proof.
  unfold createAuthorizedFamilyNotification. destruct (negb _); [done|]. destruct (createAuthorizedFamilyNotificationTx _ _ _ _ _ _) as [w' res] eqn:H.
  by apply creation_rows in H as (added & -> & _).
Qed.
Lemma process_all_fam row_ids evs now : forall w t a,
  fam (fst (fst (process_all (createAuthorizedFamilyNotification row_ids) evs now w t a))) = fam w.
Proof.
  induction evs as [|ev evs IH]; intros w t a; cbn [process_all]; [done|].
  assert (Hf : fam (fst (processOne (createAuthorizedFamilyNotification row_ids) ev now w)) = fam w).
  { unfold processOne. destruct (lookup_mapping _); [..|done]; (destruct (negb _); [done|]); (destruct (buildAuthorizationSource ev) as [src|]; [|done]);
      pose proof (create_fam row_ids w (e_tenantId ev) src now) as Hc; by destruct (createAuthorizedFamilyNotification _ _ _ _ _). }
  destruct (processOne _ _ _ _) as [w' o]. by rewrite IH.
Qed.
Lemma drain_keeps row_ids elapsed locked ty id n : forall k batch budget now w t s,
  let r := drain row_ids elapsed locked n k batch budget now w t s in
  fam (fst (fst (fst r))) = fam w /\ (unwarned ty id t -> unwarned ty id (snd (fst (fst r)))).
Proof.
  induction n as [|n IH]; intros k batch budget now w t s; cbn [drain]; [done|]. destruct (_ <=? _); [done|].
  unfold processFamilyNotificationOutboxBatch. assert (Hc : unwarned ty id t -> unwarned ty id (fst (claim (boundBatch (Some batch)) now (locked k) t))).
  { intros Ht. rewrite OutboxRuns.claim_eq. cbn [fst]. apply unwarned_map; [|done]. intros e. by destruct (includes _ _). }
  destruct (claim _ _ _ _) as [t1 evs]. cbn [fst] in Hc. match goal with |- context [process_all ?c evs now w t1 ?a] =>
    pose proof (process_all_fam row_ids evs now w t1 a) as Hf; pose proof (unwarned_process c ty id evs now w t1 a) as Hu;
    destruct (process_all c evs now w t1 a) as [[w' t'] r] end.
  cbn [fst snd] in *. destruct (_ =? _); [by auto|]. edestruct (IH (S k) batch budget now w' t') as [H1 H2]. split; [by rewrite <- Hf|auto].
Qed.
Lemma cycle_keeps sha256 cy c id :
  (forall x, In x (scan {| eo_now := ro_now (cy_options cy); eo_batchSize := Some (clamp (ro_expiryBatchSize (cy_options cy)) DEFAULT_EXPIRY_BATCH 500);
     eo_cursor := None |} CONSENT_WARNING_WINDOW_MS (sources Consents (cl_world c))) -> x_id x <> id) ->
  fam (cl_world (run_cycle sha256 c cy)) = fam (cl_world c) /\
  (unwarned family_consent_expiring id (cl_outbox c) -> unwarned family_consent_expiring id (cl_outbox (run_cycle sha256 c cy))).
Proof.
  intros Hx. unfold run_cycle, runFamilyNotificationScheduler. destruct (acquireSchedulerLease _ _ _ _ _) as [ls [|]]; [|done].
  unfold evaluateExpiringGuardianInvitations, evaluateExpiringConsents.
  match goal with |- context [warn_all _ ?i _ family_guardian_invitation_expiring ?v ?n ?k ?l ?t ?r] =>
    pose proof (unwarned_warn sha256 i (cy_clock cy) family_consent_expiring family_guardian_invitation_expiring v n id l ltac:(discriminate) k t r) as H1;
    destruct (warn_all sha256 i (cy_clock cy) family_guardian_invitation_expiring v n k l t r) as [t1 [r1|e]] end; [|done].
  match goal with |- context [warn_all _ ?i _ family_consent_expiring ?v ?n ?k ?l ?t ?r] =>
    pose proof (unwarned_warn sha256 i (cy_clock cy) family_consent_expiring family_consent_expiring v n id l (fun _ => Hx) k t r) as H2;
    destruct (warn_all sha256 i (cy_clock cy) family_consent_expiring v n k l t r) as [t2 [r2|e]] end; [|split; [done|cbn; auto]].
  match goal with |- context [drain ?ri ?el ?lk ?n ?k ?b ?bu ?now ?w ?t ?s] =>
    pose proof (drain_keeps ri el lk family_consent_expiring id n k b bu now w t s) as [H3 H4]; destruct (drain ri el lk n k b bu now w t s) as [[[w' t3] s'] why] end.
  cbn [fst snd cl_outbox cl_world] in *. split; [done|auto].
Qed.

(** Where all sources expire at one instant, a scan sees all of them or none. *)
Lemma scan_crowded o window l expiry x : (forall y, In y l -> x_at y = expiry) -> eo_cursor o = None -> In x (scan o window l) ->
  In x (take (Z.to_nat (boundExpiryBatch (eo_batchSize o))) (js_sort expiry_order l)).
Proof.
  intros Hl Hc. unfold scan. rewrite Hc. destruct ((eo_now o <? expiry) && (expiry <=? eo_now o + window)) eqn:Hw.
  - rewrite (filter_ext_in _ (fun _ => true)); [by rewrite filter_true|]. intros y Hy. unfold in_window. by rewrite (Hl y Hy), Hw.
  - rewrite (filter_ext_in _ (fun _ => false)); [rewrite filter_false; cbn; by destruct (Z.to_nat _)|]. intros y Hy. unfold in_window. by rewrite (Hl y Hy), Hw.
Qed.

(** Crowded expiries are never warned of: the scheduler rescans the soonest hundred sources each time and never uses the cursor the scan offers,
    so where more consents expire at one instant, those after the first hundred by id get no warning, however many cycles run; the
    evaluators are documented to enqueue exactly one event per source entering its window. *)
Theorem late_expiries_never_warned (sha256 : string -> string) (cycles : list cycle) (c : cluster) (expiry : Z) (x : expiring) :
  (forall y, In y (sources Consents (cl_world c)) -> x_at y = expiry) -> NoDup (map x_id (sources Consents (cl_world c))) ->
  In x (drop 100 (js_sort expiry_order (sources Consents (cl_world c)))) ->
  Forall (fun cy => ro_expiryBatchSize (cy_options cy) = None) cycles ->
  unwarned family_consent_expiring (x_id x) (cl_outbox c) -> unwarned family_consent_expiring (x_id x) (cl_outbox (run_cycles sha256 cycles c)).
Proof.
  intros Hat Hnd Hx Hcy. revert c Hat Hnd Hx. induction Hcy as [|cy cycles Ho Hcy IH]; intros c Hat Hnd Hx Hun; [done|].
  unfold run_cycles. cbn [fold_left]. destruct (cycle_keeps sha256 cy c (x_id x)) as [Hf Hk].
  { intros y Hy Heq. apply (scan_crowded _ _ _ expiry) in Hy; [|done|done]. rewrite Ho in Hy.
    change (Z.to_nat (boundExpiryBatch _)) with 100%nat in Hy.
    assert (Hs : NoDup (map x_id (js_sort expiry_order (sources Consents (cl_world c))))) by (by rewrite js_sort_perm).
    rewrite <- (take_drop 100 (js_sort _ _)), map_app in Hs. apply NoDup_app in Hs as (_ & Hs & _).
    apply (Hs (x_id y)); apply list_elem_of_In; [by apply in_map|]. rewrite Heq. by apply in_map. }
  apply (IH (run_cycle sha256 c cy)); cbn [sources] in *; rewrite ?Hf; auto.
Qed.

(** * Concrete cycles *)

Definition soon0 : ExpiryEvaluatorOptions := {| eo_now := 900; eo_batchSize := None; eo_cursor := None |}.
Fixpoint unary (k : nat) : string := match k with O => "" | S k => String "i" (unary k) end.
Lemma unary_inj i j : unary i = unary j -> i = j.
Proof. revert j. induction i as [|i IH]; intros [|j] H; [done|done|done|]. injection H as H. f_equal. by apply IH. Qed.
Lemma world1_sane : forall k x, In x (sources k world1) -> sane x.
Proof.
  assert (Hs : forall k, forallb (fun x => nonempty (x_tenant x) && nonempty (x_id x) && (0 <=? x_at x) && (x_at x <? 10 ^ 15)) (sources k world1) = true)
    by (intros []; vm_compute; reflexivity).
  intros k x Hx. specialize (Hs k). rewrite forallb_forall in Hs. specialize (Hs x Hx). rewrite !andb_true_iff, Z.leb_le, Z.ltb_lt in Hs.
  unfold sane. tauto.
Qed.

Lemma expiry_pass_exact_witness : exists added res, expiry_pass Invitations (fun s => s) unary 900 soon0 world1 [] = ([] ++ added, Ret res) /\
  exists res', expiry_pass Invitations (fun s => s) (fun k => unary (k + 7)) 950 soon0 world1 ([] ++ added) = ([] ++ added, Ret res') /\ enqueued_ res' = 0.
Proof.
  destruct (expiry_pass_exact Invitations (fun s => s) unary (fun k => unary (k + 7)) 900 950 soon0 world1 [] (world1_sane Invitations))
    as (added & res & H & _ & _ & _ & _ & _ & _ & _ & Hagain).
  exists added, res. split; [exact H|exact Hagain].
Defined.

Lemma lease_excludes_witness : snd (acquireSchedulerLease "k" "b" 240 240 [new_lease "k" "a" 240 0]) = true <-> 0 + 240 < 240.
Proof.
  destruct (lease_excludes "k" "a" "b" 240 0 240 [] [new_lease "k" "a" 240 0] [Acquire "b" 200; Release "b"]) as (_ & _ & H & _).
  - apply NoDup_nil_2.
  - reflexivity.
  - constructor; [vm_compute; discriminate|]. constructor; [discriminate|constructor].
  - exact H.
Defined.

Definition options0 : RunSchedulerOptions := {|
  ro_now := 900; ro_workerId := "w1"; ro_expiryBatchSize := None; ro_outboxBatchSize := None; ro_maxOutboxBatches := None; ro_timeBudgetMs := None |}.
Definition cluster0 : cluster := {| cl_world := world1; cl_outbox := []; cl_leases := [new_lease FAMILY_NOTIFICATIONS_SCHEDULER_LEASE_KEY "dead" 5 1] |}.
Definition cycle0 : cycle := {|
  cy_options := options0; cy_ids := unary; cy_row_ids := ids0; cy_clock := 900; cy_elapsed := fun _ => 0; cy_locked := fun _ => [] |}.
(** The invitation is warned of, the warning delivered to three users, and the lease is gone. *)
Example cycle0_runs : let c := run_cycle (fun s => s) cluster0 cycle0 in
  (map (fun e => (e_sourceId e, e_status e)) (cl_outbox c), map Notifications.n_user (rows (cl_world c)), cl_leases c) =
  ([("i1", completed)], [Some "u0"; Some "u1"; Some "u2"], []).
Proof. vm_compute. reflexivity. Qed.

Lemma scheduler_catches_up_witness : let '(c', result) := runFamilyNotificationScheduler (fun s => s) unary ids0 900 (fun _ => 0) (fun _ => []) options0 cluster0 in
  exists res, result = Ret res /\ rr_stoppedReason res = stop_completed /\ (forall r, In r (cl_outbox c') -> dealt_with 900 r \/ not_due 900 [] r) /\
  exists x, soon Invitations {| eo_now := 900; eo_batchSize := Some 100; eo_cursor := None |} world1 x /\ warned_of (fun s => s) Invitations x (cl_outbox c').
Proof.
  pose proof (scheduler_catches_up (fun s => s) unary ids0 900 (fun _ => 0) (fun _ => []) options0 cluster0 (NoDup_singleton _) eq_refl) as H.
  destruct (runFamilyNotificationScheduler _ _ _ _ _ _ _ _) as [c' result]. destruct H as [_ H]. destruct (H world1_sane) as (res & E & _ & Hwarn & Hroom).
  exists res. split; [exact E|]. destruct Hroom as (Hs & _ & Hr).
  - reflexivity.
  - intros k. reflexivity.
  - exact unary_inj.
  - intros j [].
  - apply NoDup_nil_2.
  - vm_compute. discriminate.
  - split; [exact Hs|]. split; [exact Hr|]. exists {| x_id := "i1"; x_tenant := "t"; x_at := 1000 |}.
    assert (Hx : soon Invitations {| eo_now := 900; eo_batchSize := Some 100; eo_cursor := None |} world1 {| x_id := "i1"; x_tenant := "t"; x_at := 1000 |}) by (vm_compute; left; reflexivity).
    split; [exact Hx|exact (Hwarn Invitations _ Hx)].
Defined.

Lemma outbox_well_typed_witness : exists r, In r (cl_outbox (run_cycle (fun s => s) cluster0 cycle0)) /\ well_typed r.
Proof.
  destruct (cl_outbox (run_cycle (fun s => s) cluster0 cycle0)) as [|r l] eqn:H; [vm_compute in H; discriminate|]. exists r. split; [left; reflexivity|].
  refine (proj1 (outbox_well_typed [] cluster0 (fun s => s) unary ids0 900 (fun _ => 0) (fun _ => []) options0 r (Forall_nil_2 _) (rtc_refl _ _) _)).
  change (In r (cl_outbox (run_cycle (fun s => s) cluster0 cycle0))). rewrite H. left. reflexivity.
Defined.

(** A hundred and one consents that expire together. *)
Definition consent_at (until : Z) (n : nat) : consent := {|
  co_id := "c" +:+ string_of_int (1000 + Z.of_nat n); co_tenant := "t"; co_profile := "p"; co_rel := None; co_type := "guardian";
  co_state := {| Disclosure.consentStatus := "active"; Disclosure.grantedAt := Some 1; Disclosure.grantedByMembershipId := None;
                 Disclosure.c_validFrom := None; Disclosure.c_validUntil := Some until; Disclosure.c_revokedAt := None; Disclosure.c_archivedAt := None |};
  co_createdAt := 1 |}.
Definition crowd : list consent := map (consent_at 5000) (seq 0 101).
Definition cluster1 : cluster := {|
  cl_world := world_of {| relationships := []; profiles := profiles (fam world1); memberships := memberships (fam world1); authorities := [];
    consents := crowd; assessments := []; signals := []; decisions := []; deliveries := []; audit_log := []; outbox := [] |};
  cl_outbox := []; cl_leases := [] |}.
Definition late0 : expiring := {| x_id := "c1100"; x_tenant := "t"; x_at := 5000 |}.
Definition later0 : cycle := {|
  cy_options := {| ro_now := 3000; ro_workerId := "w2"; ro_expiryBatchSize := None; ro_outboxBatchSize := None; ro_maxOutboxBatches := None; ro_timeBudgetMs := None |};
  cy_ids := fun k => "j" +:+ unary k; cy_row_ids := ids0; cy_clock := 3000; cy_elapsed := fun _ => 0; cy_locked := fun _ => [] |}.

Lemma late_expiries_never_warned_witness :
  unwarned family_consent_expiring "c1100" (cl_outbox (run_cycles (fun s => s) [cycle0; later0] cluster1)).
Proof.
  refine (late_expiries_never_warned (fun s => s) [cycle0; later0] cluster1 5000 late0 _ _ _ _ _).
  - assert (H : forallb (fun y => x_at y =? 5000) (sources Consents (cl_world cluster1)) = true) by (vm_compute; reflexivity).
    rewrite forallb_forall in H. intros y Hy. apply Z.eqb_eq, H, Hy.
  - apply (bool_decide_unpack _). vm_compute. exact I.
  - assert (H : drop 100 (js_sort expiry_order (sources Consents (cl_world cluster1))) = [late0]) by (vm_compute; reflexivity).
    rewrite H. left. reflexivity.
  - constructor; [reflexivity|]. constructor; [reflexivity|constructor].
  - intros e [].
Defined.

End NotifyRuns.
