(* ===== verification/Evidence.v ===== *)
(** Evidence for a classification ([packages/ai/src/evidence.ts]): where a lexicon term
    legitimately occurs in a normalized text, when contextual wording amounts to fraud, what a
    claimed category is worth, and the one interpretation of a stored verdict that customer
    surfaces may show, stored and read back. *)
From S2P Require Import Prelude JsValue.
From Stdlib Require Import QArith Qcanon.
Open Scope string_scope.
Open Scope list_scope.
Open Scope Z_scope.
Open Scope tam_scope.
Import JsValue.

Module Evidence.

(** * Numbers and characters *)

(** [a < b] on finite numbers. *)
Definition q_ltb (a b : Q) : bool := negb (Qle_bool b a).
(** [Number.isInteger], with the integer it is. *)
Definition integer_of (v : raw_value) : option Z :=
  match v with
  | VNumber (NFin q) => if Pos.eqb (Qden (Qred q)) 1 then Some (Qnum (Qred q)) else None
  | _ => None
  end.
(** [s.slice(a, b)] for [0 <= a]. *)
Definition slice (s : string) (a b : nat) : string := String.substring a (b - a) s.
(** [s[i - 1]] *)
Definition char_before (s : string) (i : nat) : option ascii := match i with O => None | S j => String.get j s end.

(** * Spans *)

(* src: packages/ai/src/evidence.ts:30-40 EvidenceSpan *)
Record EvidenceSpan := { sp_category : string; sp_term : string; sp_start : Z; sp_end : Z; sp_text : string }.
(* src: packages/ai/src/evidence.ts:47-50 EVIDENCE_REQUIRED_CATEGORIES *)
Definition EVIDENCE_REQUIRED_CATEGORIES : list string :=
  ["profanity"; "hate_speech"; "racism"; "harassment"; "personal_attack"; "threat"; "violence"; "terrorism_extremism";
   "sexual_vulgarity"; "scam"; "phishing"].
(* src: packages/ai/src/evidence.ts:56-60 CATEGORY_CONFIDENCE_THRESHOLD *)
Definition CATEGORY_CONFIDENCE_THRESHOLD : list (string * Q) :=
  [("profanity", 8 # 10); ("hate_speech", 85 # 100); ("racism", 85 # 100); ("harassment", 8 # 10); ("personal_attack", 8 # 10);
   ("threat", 85 # 100); ("violence", 85 # 100); ("terrorism_extremism", 9 # 10); ("sexual_vulgarity", 85 # 100);
   ("scam", 8 # 10); ("phishing", 8 # 10)]%Q.
(* src: packages/ai/src/evidence.ts:61-61 DEFAULT_CATEGORY_THRESHOLD *)
Definition DEFAULT_CATEGORY_THRESHOLD : Q := (7 # 10)%Q.
(** The lookup finds the members every object inherits as well; none is a number, so they compare as NaN. *)
(* src: packages/ai/src/evidence.ts:63-65 categoryThreshold *)
Definition categoryThreshold (category : string) : js_number :=
  match map_get CATEGORY_CONFIDENCE_THRESHOLD category with
  | Some q => NFin q
  | None => if includes object_prototype_keys category then NNaN else NFin DEFAULT_CATEGORY_THRESHOLD
  end.
(** [c < n] *)
Definition below (c : Q) (n : js_number) : bool :=
  match n with NFin q => q_ltb c q | NPosInf => true | NNegInf | NNaN => false end.

(* src: packages/ai/src/evidence.ts:69-69 isWordChar *)
Definition isWordChar (c : option ascii) : bool :=
  match c with Some a => is_lower a || is_digit a || Ascii.eqb a "*" | None => false end.
(* src: packages/ai/src/evidence.ts:76-81 TERM_SUFFIXES *)
Definition TERM_SUFFIXES : list string :=
  [""; "s"; "es"; "y"; "ies"; "ed"; "d"; "ing"; "er"; "ers"; "ty";
   "a"; "u"; "e"; "o"; "i"; "om"; "ou"; "ov"; "ami"; "och"; "mi"; "ach";
   "at"; "al"; "ala"; "ali"; "am"; "as"; "em"; "eme"; "ete"; "aj"; "ajte";
   "en"; "et"; "st"; "t"; "te"; "n"; "ne"; "ny"; "na"; "no"; "nu"; "ka"; "ko"; "ku"].
(* src: packages/ai/src/evidence.ts:88-92 STEM_SUFFIXES *)
Definition STEM_SUFFIXES : list string :=
  [""; "a"; "u"; "e"; "o"; "y"; "i"; "om"; "ou"; "ov"; "ami"; "och"; "mi";
   "at"; "al"; "ala"; "ali"; "am"; "as"; "em"; "eme"; "ete"; "aj"; "ajte";
   "ovina"; "ovinu"; "ovine"; "ka"; "ko"; "ku"; "ne"; "ny"; "na"; "no"; "nut"].
(* src: packages/ai/src/evidence.ts:99-99 SAFE_WORDS *)
Definition SAFE_WORDS : list string := ["fickle"; "fickles"; "scampi"; "picnic"; "picnics"].

(* src: packages/ai/src/evidence.ts:102-108 tokenMatchesAt *)
Fixpoint tokenMatchesAt (hay term : string) (i : nat) : bool :=
  match term with
  | EmptyString => true
  | String t r =>
      match String.get i hay with
      | Some c => (Ascii.eqb c t || Ascii.eqb c "*") && tokenMatchesAt hay r (S i)
      | None => false
      end
  end.
(** How far the run of word characters at the head of a string reaches. *)
Fixpoint word_run (s : string) : nat :=
  match s with String c r => if isWordChar (Some c) then S (word_run r) else O | EmptyString => O end.
Definition multi_word (term : string) : bool := negb (char_free " " term).
(* src: packages/ai/src/evidence.ts:136-156 findTermSpans *)
Definition span_at (normalized term category : string) (stem : bool) (i : nat) : option EvidenceSpan :=
  if negb (tokenMatchesAt normalized term i) then None
  else if isWordChar (char_before normalized i) then None
  else if multi_word term then
    let e := (i + String.length term)%nat in
    if isWordChar (String.get e normalized) then None
    else Some {| sp_category := category; sp_term := term; sp_start := Z.of_nat i; sp_end := Z.of_nat e; sp_text := slice normalized i e |}
  else
    let e := (i + word_run (str_drop i normalized))%nat in
    let token := slice normalized i e in
    if negb (includes (if stem then STEM_SUFFIXES else TERM_SUFFIXES) (str_drop (String.length term) token)) then None
    else if includes SAFE_WORDS token then None
    else Some {| sp_category := category; sp_term := term; sp_start := Z.of_nat i; sp_end := Z.of_nat e; sp_text := token |}.
(* src: packages/ai/src/evidence.ts:125-158 findTermSpans *)
Definition findTermSpans (normalized term category : string) (stem : bool) : list EvidenceSpan :=
  if negb (nonempty term) || negb (nonempty normalized) || (String.length normalized <? String.length term)%nat then []
  else omap (span_at normalized term category stem) (seq 0 (S (String.length normalized - String.length term))).

(** A span as the validator receives it: possibly made up by a model, so untyped. *)
Definition span_value (s : EvidenceSpan) : raw_value :=
  VObject [("category", VString (sp_category s)); ("term", VString (sp_term s)); ("start", VNumber (NFin (inject_Z (sp_start s))));
           ("end", VNumber (NFin (inject_Z (sp_end s)))); ("text", VString (sp_text s))].
Definition nonempty_string (v : raw_value) : bool := match v with VString s => nonempty s | _ => false end.
(* src: packages/ai/src/evidence.ts:165-173 validateEvidenceSpan *)
Definition validateEvidenceSpan (normalized : string) (span : raw_value) : bool :=
  match span with
  | VObject o =>
      match integer_of (field o "start"), integer_of (field o "end") with
      | Some st, Some en =>
          if (st <? 0) || (str_len normalized <? en) || (en <=? st) then false
          else if negb (nonempty_string (field o "text")) then false
          else if negb (nonempty_string (field o "category")) then false
          else match field o "text" with VString t => slice normalized (Z.to_nat st) (Z.to_nat en) =s t | _ => false end
      | _, _ => false
      end
  | _ => false
  end.
(* src: packages/ai/src/evidence.ts:176-182 validEvidenceForCategory *)
Definition validEvidenceForCategory (normalized : string) (spans : option (list EvidenceSpan)) (category : string) : list EvidenceSpan :=
  List.filter (fun s => (sp_category s =s category) && validateEvidenceSpan normalized (span_value s)) (spans ?? []).

(** * Fraud by context *)

(* src: packages/ai/src/evidence.ts:209-212 ScamDimension *)
Inductive ScamDimension :=
| Sc_cta | Sc_urgency | Sc_offer | Sc_verification_prompt | Sc_credential_request | Sc_payment_request | Sc_impersonation | Sc_prize_claim | Sc_suspicious_link | Sc_investment_promise.
#[export] Instance ScamDimension_dec : EqDecision ScamDimension.
Proof. solve_decision. Defined.
#[export] Program Instance ScamDimension_enum : JsEnum ScamDimension := {|
  js_name x := match x with
    | Sc_cta => "cta" | Sc_urgency => "urgency" | Sc_offer => "offer" | Sc_verification_prompt => "verification_prompt" | Sc_credential_request => "credential_request" | Sc_payment_request => "payment_request" | Sc_impersonation => "impersonation" | Sc_prize_claim => "prize_claim" | Sc_suspicious_link => "suspicious_link" | Sc_investment_promise => "investment_promise" end;
  js_values := [Sc_cta; Sc_urgency; Sc_offer; Sc_verification_prompt; Sc_credential_request; Sc_payment_request; Sc_impersonation; Sc_prize_claim; Sc_suspicious_link; Sc_investment_promise] |}.
Solve All Obligations with solve_js_enum.
(* src: packages/ai/src/evidence.ts:215-218 HARM_BEARING_DIMENSIONS *)
Definition HARM_BEARING_DIMENSIONS : list ScamDimension :=
  [Sc_credential_request; Sc_payment_request; Sc_impersonation; Sc_prize_claim; Sc_suspicious_link; Sc_investment_promise].
(* src: packages/ai/src/evidence.ts:221-270 SCAM_CONTEXT_LEXICON *)
Definition SCAM_CONTEXT_LEXICON : list (ScamDimension * list string) :=
  [
   (Sc_cta, ["click here"; "click the link"; "open the link"; "follow the link"; "tap here"; "klikni"; "kliknite";
      "klikni sem"; "kliknite sem"; "otvorte odkaz"; "otvor odkaz"; "hier klicken"; "klicken sie hier";
      "link oeffnen"; "kliknij"; "kliknij tutaj"]);
   (Sc_urgency, ["urgent"; "urgently"; "immediately"; "act now"; "right now"; "last chance"; "expires today"; "only today";
      "hurry"; "urgentne"; "ihned"; "okamzite"; "posledna sanca"; "len dnes"; "dringend"; "sofort";
      "letzte chance"; "nur heute"]);
   (Sc_offer, ["special offer"; "our offer"; "discount"; "promo"; "sale"; "deal"; "ponuka"; "ponuku"; "zlava"; "akcia";
      "angebot"; "rabatt"]);
   (Sc_verification_prompt, ["verify"; "verification"; "confirm"; "overit"; "overte"; "bestatigen"; "verifizieren"]);
   (Sc_credential_request, ["password"; "passwords"; "login details"; "login credentials"; "credentials"; "username and password";
      "one time code"; "verification code"; "security code"; "pin code"; "otp"; "heslo"; "hesla";
      "prihlasovacie udaje"; "prihlasovacie meno"; "overovaci kod"; "bezpecnostny kod"; "passwort"; "zugangsdaten";
      "anmeldedaten"; "sicherheitscode"]);
   (Sc_payment_request, ["wire transfer"; "bank details"; "bank account number"; "card number"; "credit card number"; "send money";
      "send payment"; "advance payment"; "processing fee"; "shipping fee"; "iban"; "prevod penazi"; "cislo karty";
      "cislo uctu"; "bankove udaje"; "poslite peniaze"; "zaplatte poplatok"; "ueberweisung"; "kontonummer";
      "kreditkartennummer"; "gebuehr bezahlen"]);
   (Sc_impersonation, ["official support"; "official support team"; "customer service team"; "bank support"; "we are the bank";
      "security department"; "account security team"; "oficialna podpora"; "bankova podpora";
      "zakaznicka podpora banky"; "offizieller support"; "sicherheitsabteilung"]);
   (Sc_prize_claim, ["you won"; "you have won"; "winner"; "free iphone"; "claim prize"; "claim your reward"; "vyhraj"; "vyhrajte";
      "vyhrali ste"; "vyhra"; "sutaz"; "vyhrajes"; "iphone zadarmo"; "gewinne"; "gewinnen sie";
      "kostenloses iphone"; "wygraj"; "darmowy iphone"; "nyerj"; "ingyen iphone"]);
   (Sc_suspicious_link, ["bit ly"; "tinyurl"; "goo gl"; "shortened link"; "short link"; "t me"; "wa me"]);
   (Sc_investment_promise, ["invest now"; "investment opportunity"; "crypto investment"; "trading signals"; "roi guaranteed";
      "investujte"; "investicna prilezitost"; "krypto investicia"; "investieren sie jetzt"])].
Definition harm_bearing (d : ScamDimension) : bool := bool_decide (d ∈ HARM_BEARING_DIMENSIONS).
Inductive ScamReason := accusatory_term | multi_dimension_with_harm | insufficient_context | no_signal.
(* src: packages/ai/src/evidence.ts:272-282 ScamContextAssessment *)
Record ScamContextAssessment := { sc_dimensions : list ScamDimension; sc_harmDimensions : list ScamDimension; sc_spans : list EvidenceSpan;
  sc_confirms : bool; sc_reason : ScamReason }.
(* src: packages/ai/src/evidence.ts:295-302 assessScamContext *)
Definition scam_hits (normalized : string) (findSpans : string -> string -> string -> list EvidenceSpan) : list (ScamDimension * list EvidenceSpan) :=
  List.filter (fun '(_, found) => negb (length found =? 0)%nat)
    (flat_map (fun '(d, terms) => map (fun t => (d, findSpans normalized t "scam")) terms) SCAM_CONTEXT_LEXICON).
(* src: packages/ai/src/evidence.ts:303-315 assessScamContext *)
Definition scam_verdict (dimensions : list ScamDimension) (spans : list EvidenceSpan) (accusatoryHit : bool) : ScamContextAssessment :=
  let harmDimensions := List.filter harm_bearing dimensions in
  let verdict confirms reason :=
    {| sc_dimensions := dimensions; sc_harmDimensions := harmDimensions; sc_spans := spans; sc_confirms := confirms; sc_reason := reason |} in
  if accusatoryHit then verdict true accusatory_term
  else if ((2 <=? length dimensions) && (1 <=? length harmDimensions))%nat then verdict true multi_dimension_with_harm
  else verdict false (if (length dimensions =? 0)%nat then no_signal else insufficient_context).
(* src: packages/ai/src/evidence.ts:288-316 assessScamContext *)
Definition assessScamContext (normalized : string) (accusatoryHit : bool)
    (findSpans : string -> string -> string -> list EvidenceSpan) : ScamContextAssessment :=
  let fired := scam_hits normalized findSpans in
  scam_verdict (js_set (map fst fired)) (flat_map snd fired) accusatoryHit.

(** * What a claim is worth *)

(* src: packages/ai/src/evidence.ts:325-325 CategoryVerdict *)
Inductive CategoryVerdict := V_confirmed | V_review_required | V_rejected.
#[export] Instance CategoryVerdict_dec : EqDecision CategoryVerdict.
Proof. solve_decision. Defined.
#[export] Program Instance CategoryVerdict_enum : JsEnum CategoryVerdict := {|
  js_name x := match x with V_confirmed => "confirmed" | V_review_required => "review_required" | V_rejected => "rejected" end;
  js_values := [V_confirmed; V_review_required; V_rejected] |}.
Solve All Obligations with solve_js_enum.
(* src: packages/ai/src/evidence.ts:327-338 CategoryDecisionInput *)
Record CategoryDecisionInput := { di_category : string; di_validEvidenceCount : Z; di_rulesAgree : bool; di_aiClaimed : bool;
  di_confidence : Q; di_parserOk : bool }.
(* src: packages/ai/src/evidence.ts:340-345 CategoryDecision *)
Record CategoryDecision := { de_category : string; de_verdict : CategoryVerdict; de_reason : string }.
Definition gated (category : string) : bool := includes EVIDENCE_REQUIRED_CATEGORIES category.
(* src: packages/ai/src/evidence.ts:354-374 decideCategory *)
Definition decideCategory (i : CategoryDecisionInput) : CategoryDecision :=
  let decide v r := {| de_category := di_category i; de_verdict := v; de_reason := r |} in
  if negb (gated (di_category i)) then decide V_confirmed "not_evidence_gated"
  else if negb (di_parserOk i) && negb (di_rulesAgree i) then decide V_review_required "provider_output_ambiguous"
  else if di_validEvidenceCount i =? 0 then
    if di_aiClaimed i && negb (di_rulesAgree i) then decide V_review_required "ai_claim_without_evidence"
    else decide V_rejected "no_valid_evidence_span"
  else if below (di_confidence i) (categoryThreshold (di_category i)) then decide V_review_required "below_category_threshold"
  else decide V_confirmed "evidence_validated".

(* src: packages/ai/src/evidence.ts:383-383 RISK_ORDER *)
Definition RISK_ORDER : list string := ["none"; "low"; "medium"; "high"; "critical"].
Fixpoint index_of (l : list string) (s : string) : Z :=
  match l with [] => -1 | x :: r => if x =s s then 0 else let i := index_of r s in if i =? -1 then -1 else i + 1 end.
(* src: packages/ai/src/evidence.ts:384-384 rank *)
Definition rank (l : string) : Z := Z.max 0 (index_of RISK_ORDER l).
Inductive severity_reason := no_escalation_proposed | confirmed_harm | escalation_without_confirmed_evidence.
(* src: packages/ai/src/evidence.ts:735-752 severityForVerdicts *)
Definition severityForVerdicts (baseLevel proposedLevel : string) (decisions : list CategoryDecision) : string * bool * severity_reason :=
  let confirmedAccusation := existsb (fun d => (de_verdict d =e V_confirmed) && gated (de_category d)) decisions in
  if rank proposedLevel <=? rank baseLevel then (baseLevel, false, no_escalation_proposed)
  else if confirmedAccusation then (proposedLevel, false, confirmed_harm)
  else (if rank "medium" <? rank baseLevel then baseLevel else baseLevel, true, escalation_without_confirmed_evidence).

(** * What a customer may be shown *)

(** A stored decision: its columns hold whatever was written. *)
Definition stored_decision : Type := string * string.
(* src: packages/ai/src/evidence.ts:389-389 NON_ACCUSATORY *)
Definition NON_ACCUSATORY : list string := ["neutral"; "positive"].
(* src: packages/ai/src/evidence.ts:398-402 CustomerClassificationDisplay *)
Inductive CustomerClassificationDisplay := Confirmed_category (category : string) | Review_required (legacy : option bool) | No_issue.
Definition confirmed_by (decisions : list stored_decision) (c : string) : bool :=
  existsb (fun '(category, verdict) => (category =s c) && (verdict =s "confirmed")) decisions.
(* src: packages/ai/src/evidence.ts:412-440 customerClassificationDisplay *)
Definition customerClassificationDisplay (persistedCategories : option (list string)) (gateDecisions : option (list stored_decision))
    : CustomerClassificationDisplay :=
  let decisions := gateDecisions ?? [] in
  let categories := List.filter (fun c => negb (includes NON_ACCUSATORY c)) (persistedCategories ?? []) in
  let accusatory := List.filter gated categories in
  if existsb (fun '(_, verdict) => verdict =s "review_required") decisions then Review_required None
  else match accusatory with
  | first :: _ =>
      if (1 <=? length (List.filter (fun c => negb (confirmed_by decisions c)) accusatory))%nat
      then Review_required (Some (length decisions =? 0)%nat) else Confirmed_category first
  | [] => match categories with [] => No_issue | descriptive :: _ => Confirmed_category descriptive end
  end.
(* src: packages/ai/src/evidence.ts:447-453 isLegacyUnverifiedVerdict *)
Definition isLegacyUnverifiedVerdict (persistedCategories : option (list string)) (gateDecisions : option (list stored_decision)) : bool :=
  existsb gated (persistedCategories ?? []) && (length (gateDecisions ?? []) =? 0)%nat.
(* src: packages/ai/src/evidence.ts:729-733 customerVisibleRiskLevel *)
Definition customerVisibleRiskLevel (level : string) (display : CustomerClassificationDisplay) : string :=
  match display with
  | Confirmed_category _ => level
  | _ => if rank "high" <=? rank level then "medium" else level
  end.

(* src: packages/ai/src/evidence.ts:513-528 readEvidenceGateDecisions *)
Definition readEvidenceGateDecisions (aiDiagnostics : raw_value) : list stored_decision :=
  match aiDiagnostics with
  | VObject o =>
      match field o "evidenceGate" with
      | VObject gate =>
          match field gate "decisions" with
          | VArray raw => omap (fun d => match d with
              | VObject fs => match field fs "category", field fs "verdict" with
                  | VString category, VString verdict => if nonempty category && nonempty verdict then Some (category, verdict) else None
                  | _, _ => None end
              | _ => None end) raw
          | _ => []
          end
      | _ => []
      end
  | _ => []
  end.

(* src: packages/ai/src/evidence.ts:458-466 StoredClassificationRow *)
Record StoredClassificationRow := { sr_riskLevel : string; sr_riskCategories : option (list string); sr_aiDiagnostics : raw_value;
  sr_autoProtect : option (string * string) }.
Inductive ProtectState := Ap_confirmed | Ap_stale_unverified | Ap_none.
(* src: packages/ai/src/evidence.ts:469-478 CustomerAutoProtectView *)
Record CustomerAutoProtectView := { av_state : ProtectState; av_decision : option string; av_matchedCategory : option string;
  av_countsTowardWouldAutoHide : bool; av_requiresReanalysis : bool }.
Inductive ProjectionState := Ps_confirmed | Ps_review_required | Ps_no_issue.
#[export] Instance ProjectionState_dec : EqDecision ProjectionState.
Proof. solve_decision. Defined.
#[export] Program Instance ProjectionState_enum : JsEnum ProjectionState := {|
  js_name x := match x with Ps_confirmed => "confirmed" | Ps_review_required => "review_required" | Ps_no_issue => "no_issue" end;
  js_values := [Ps_confirmed; Ps_review_required; Ps_no_issue] |}.
Solve All Obligations with solve_js_enum.
(* src: packages/ai/src/evidence.ts:485-505 CustomerClassificationProjection *)
Record CustomerClassificationProjection := { cp_state : ProjectionState; cp_categories : list string; cp_riskLevel : string;
  cp_legacyUnverified : bool; cp_requiresReview : bool; cp_eligibleForCategoryTotals : bool; cp_eligibleForSeverityTotals : bool;
  cp_autoProtect : CustomerAutoProtectView; cp_storedLevel : string; cp_storedCategories : list string;
  cp_storedDecision : option string; cp_storedMatched : option string }.
(* src: packages/ai/src/evidence.ts:530-530 HIGHISH *)
Definition HIGHISH : list string := ["high"; "critical"].
Definition state_of (d : CustomerClassificationDisplay) : ProjectionState :=
  match d with Confirmed_category _ => Ps_confirmed | Review_required _ => Ps_review_required | No_issue => Ps_no_issue end.
(* src: packages/ai/src/evidence.ts:557-577 projectStoredClassification *)
Definition protect_view (state : ProjectionState) (autoProtect : option (string * string)) : CustomerAutoProtectView :=
  match autoProtect with
  | None => {| av_state := Ap_none; av_decision := None; av_matchedCategory := None; av_countsTowardWouldAutoHide := false; av_requiresReanalysis := false |}
  | Some (decision, matched) =>
      let currentNoIssueDecision := (state =e Ps_no_issue) && (matched =s "normal_criticism") &&
        includes ["no_action"; "monitor"; "blocked_by_safety"] decision in
      if (state =e Ps_confirmed) || currentNoIssueDecision then
        {| av_state := Ap_confirmed; av_decision := Some decision; av_matchedCategory := Some matched;
           av_countsTowardWouldAutoHide := decision =s "would_auto_hide"; av_requiresReanalysis := false |}
      else {| av_state := Ap_stale_unverified; av_decision := None; av_matchedCategory := None;
              av_countsTowardWouldAutoHide := false; av_requiresReanalysis := true |}
  end.
(* src: packages/ai/src/evidence.ts:533-589 projectStoredClassification *)
Definition projectStoredClassification (row : StoredClassificationRow) : CustomerClassificationProjection :=
  let storedCategories := sr_riskCategories row ?? [] in
  let decisions := readEvidenceGateDecisions (sr_aiDiagnostics row) in
  let display := customerClassificationDisplay (Some storedCategories) (Some decisions) in
  let state := state_of display in
  {| cp_state := state;
     cp_categories := match display with
       | Confirmed_category _ => List.filter (fun c => negb (includes NON_ACCUSATORY c) && (negb (gated c) || confirmed_by decisions c)) storedCategories
       | _ => [] end;
     cp_riskLevel := customerVisibleRiskLevel (sr_riskLevel row) display;
     cp_legacyUnverified := isLegacyUnverifiedVerdict (Some storedCategories) (Some decisions);
     cp_requiresReview := state =e Ps_review_required;
     cp_eligibleForCategoryTotals := state =e Ps_confirmed;
     cp_eligibleForSeverityTotals := (state =e Ps_confirmed) && includes HIGHISH (sr_riskLevel row);
     cp_autoProtect := protect_view state (sr_autoProtect row);
     cp_storedLevel := sr_riskLevel row; cp_storedCategories := storedCategories;
     cp_storedDecision := option_map fst (sr_autoProtect row); cp_storedMatched := option_map snd (sr_autoProtect row) |}.

(** * Stored and read back *)

(* src: packages/ai/src/evidence.ts:598-598 CUSTOMER_PROJECTION_VERSION *)
Definition CUSTOMER_PROJECTION_VERSION : Z := 1.
(* src: packages/ai/src/evidence.ts:601-607 PersistedProjectionFields *)
Record PersistedProjectionFields := { pf_state : ProjectionState; pf_riskLevel : string; pf_riskCategories : list string;
  pf_version : Z; pf_requiresReanalysis : bool }.
(* src: packages/ai/src/evidence.ts:610-621 persistedProjectionFields *)
Definition persistedProjectionFields (row : StoredClassificationRow) : PersistedProjectionFields :=
  let v := projectStoredClassification row in
  {| pf_state := cp_state v; pf_riskLevel := cp_riskLevel v; pf_riskCategories := cp_categories v;
     pf_version := CUSTOMER_PROJECTION_VERSION;
     pf_requiresReanalysis := cp_requiresReview v || av_requiresReanalysis (cp_autoProtect v) |}.
(* src: packages/ai/src/evidence.ts:628-635 persistedProjectionFieldsAfterClassification *)
Definition persistedProjectionFieldsAfterClassification (row : StoredClassificationRow) : PersistedProjectionFields :=
  let f := persistedProjectionFields row in
  {| pf_state := pf_state f; pf_riskLevel := pf_riskLevel f; pf_riskCategories := pf_riskCategories f; pf_version := pf_version f;
     pf_requiresReanalysis := false |}.
(** The columns as read: nullable, and holding whatever was written. *)
(* src: packages/ai/src/evidence.ts:645-651 PersistedProjectionRow *)
Record PersistedProjectionRow := { pr_state : option string; pr_riskLevel : option string; pr_riskCategories : option (list string);
  pr_version : option Z; pr_requiresReanalysis : option bool }.
(* src: packages/ai/src/evidence.ts:667-674 readPersistedProjection *)
Record PersistedView := { pv_state : ProjectionState; pv_categories : list string; pv_riskLevel : string; pv_requiresReanalysis : bool; pv_stale : bool }.
(* src: packages/ai/src/evidence.ts:681-681 readPersistedProjection *)
Definition UNVERIFIED : PersistedView :=
  {| pv_state := Ps_review_required; pv_categories := []; pv_riskLevel := "medium"; pv_requiresReanalysis := true; pv_stale := true |}.
(* src: packages/ai/src/evidence.ts:667-700 readPersistedProjection *)
Definition readPersistedProjection (row : PersistedProjectionRow) : PersistedView :=
  let stale := match pr_version row with Some v => v <? CUSTOMER_PROJECTION_VERSION | None => true end in
  match (if stale then None else parse_opt (pr_state row)) with
  | None => UNVERIFIED
  | Some state =>
      let categories := pr_riskCategories row ?? [] in
      if (state =e Ps_confirmed) && (length categories =? 0)%nat then UNVERIFIED
      else
        let level := match pr_riskLevel row with Some l => if nonempty l then l else "none" | None => "none" end in
        {| pv_state := state; pv_categories := if state =e Ps_confirmed then categories else [];
           pv_riskLevel := if state =e Ps_confirmed then level else if rank "high" <=? rank level then "medium" else level;
           pv_requiresReanalysis := match pr_requiresReanalysis row with Some b => b | None => false end; pv_stale := false |}
  end.
(** What the database gives back of what was written. *)
Definition stored_row (f : PersistedProjectionFields) : PersistedProjectionRow :=
  {| pr_state := Some (js_name (pf_state f)); pr_riskLevel := Some (pf_riskLevel f); pr_riskCategories := Some (pf_riskCategories f);
     pr_version := Some (pf_version f); pr_requiresReanalysis := Some (pf_requiresReanalysis f) |}.

(** * Totals *)

(* src: packages/ai/src/evidence.ts:703-709 ProjectedTally *)
Record ProjectedTally := { ta_confirmed : jsmap Z; ta_requiresReview : Z; ta_legacyUnverified : Z; ta_confirmedHighOrCritical : Z; ta_total : Z }.
Definition bump (m : jsmap Z) (c : string) : jsmap Z := map_set m c ((map_get m c ?? 0) + 1).
Definition one_if (b : bool) : Z := if b then 1 else 0.
(* src: packages/ai/src/evidence.ts:718-724 tallyProjected *)
Definition tally_row (t : ProjectedTally) (row : StoredClassificationRow) : ProjectedTally :=
  let p := projectStoredClassification row in
  {| ta_confirmed := if cp_eligibleForCategoryTotals p then fold_left bump (cp_categories p) (ta_confirmed t) else ta_confirmed t;
     ta_requiresReview := ta_requiresReview t + one_if (cp_requiresReview p);
     ta_legacyUnverified := ta_legacyUnverified t + one_if (cp_legacyUnverified p);
     ta_confirmedHighOrCritical := ta_confirmedHighOrCritical t + one_if (cp_eligibleForSeverityTotals p);
     ta_total := ta_total t |}.
(* src: packages/ai/src/evidence.ts:715-726 tallyProjected *)
Definition tallyProjected (rows : list StoredClassificationRow) : ProjectedTally :=
  fold_left tally_row rows {| ta_confirmed := []; ta_requiresReview := 0; ta_legacyUnverified := 0; ta_confirmedHighOrCritical := 0;
    ta_total := Z.of_nat (length rows) |}.

(** * Spans point at the text *)

Lemma integer_of_inject z : integer_of (VNumber (NFin (inject_Z z))) = Some z.
Proof.
  unfold integer_of. rewrite Qred_identity; [done|]. unfold inject_Z. simpl. apply Z.gcd_1_r.
Qed.
Lemma nonempty_length s : nonempty s = true <-> (0 < String.length s)%nat.
Proof. destruct s; unfold nonempty; simpl; split; (done || lia). Qed.
Lemma get_drop i s : String.get i s = match str_drop i s with String c _ => Some c | EmptyString => None end.
Proof. revert s. induction i as [|i IH]; intros [|c s]; simpl; try done. Qed.
Lemma length_drop i s : String.length (str_drop i s) = (String.length s - i)%nat.
Proof. revert s. induction i as [|i IH]; intros [|c s]; simpl; auto. Qed.
Lemma length_substring a n s : (a + n <= String.length s)%nat -> String.length (String.substring a n s) = n.
Proof.
  revert a n. induction s as [|c s IH]; intros [|a] [|n] H; simpl in *; try lia.
  - f_equal. apply IH. simpl. lia.
  - apply IH. lia.
  - apply IH. lia.
Qed.
Lemma length_slice s a b : (a <= b <= String.length s)%nat -> String.length (slice s a b) = (b - a)%nat.
Proof. intros H. apply length_substring. lia. Qed.
Lemma word_run_le s : (word_run s <= String.length s)%nat.
Proof. induction s as [|c s IH]; simpl; [lia|]. destruct (_ || _); lia. Qed.

(** A typed span validates exactly when its offsets delimit its text. *)
Lemma validate_span_value norm s :
  validateEvidenceSpan norm (span_value s) = true <->
  0 <= sp_start s /\ sp_end s <= str_len norm /\ sp_start s < sp_end s /\ nonempty (sp_text s) = true /\ nonempty (sp_category s) = true /\
  slice norm (Z.to_nat (sp_start s)) (Z.to_nat (sp_end s)) = sp_text s.
Proof.
  unfold validateEvidenceSpan, span_value.
  change (field _ "start") with (VNumber (NFin (inject_Z (sp_start s)))).
  change (field _ "end") with (VNumber (NFin (inject_Z (sp_end s)))).
  change (field _ "text") with (VString (sp_text s)). change (field _ "category") with (VString (sp_category s)).
  rewrite !integer_of_inject. unfold nonempty_string.
  destruct (sp_start s <? 0) eqn:H1, (str_len norm <? sp_end s) eqn:H2, (sp_end s <=? sp_start s) eqn:H3; simpl;
    try (split; [done|intros (? & ? & ? & _); lia]).
  destruct (nonempty (sp_text s)); simpl; [|split; [done|by intros (_ & _ & _ & ? & _)]].
  destruct (nonempty (sp_category s)); simpl; [|split; [done|by intros (_ & _ & _ & _ & ? & _)]].
  rewrite String.eqb_eq. split; [intros ->; repeat split; lia|tauto].
Qed.

Lemma token_match_bound hay term i : tokenMatchesAt hay term i = true -> nonempty term = true -> (i + String.length term <= String.length hay)%nat.
Proof.
  revert i. induction term as [|t r IH]; intros i H Hn; [done|]. simpl in *.
  rewrite get_drop in H. pose proof (length_drop i hay) as Hl. destruct (str_drop i hay) as [|c d] eqn:Hd; [done|]. simpl in Hl.
  apply andb_true_iff in H as [_ H]. destruct r as [|t' r']; [simpl; lia|].
  specialize (IH (S i) H eq_refl). simpl in *. lia.
Qed.
(** Terms that begin with a letter, a digit or the wildcard; the lexicons hold no other. *)
Definition word_start (term : string) : bool := isWordChar (String.get 0 term).
Lemma token_match_head hay term i : tokenMatchesAt hay term i = true -> word_start term = true -> (1 <= word_run (str_drop i hay))%nat.
Proof.
  destruct term as [|t r]; [done|]. unfold word_start. simpl. rewrite get_drop. intros H Hw.
  destruct (str_drop i hay) as [|c d]; [done|]. apply andb_true_iff in H as [H _].
  apply orb_true_iff in H as [H0|H0]; apply Ascii.eqb_eq in H0 as ->; simpl.
  - unfold isWordChar in Hw. simpl in Hw. rewrite Hw. lia.
  - lia.
Qed.
Lemma word_start_nonempty term : word_start term = true -> nonempty term = true.
Proof. by destruct term. Qed.

Lemma span_at_inv norm term category stem i s :
  word_start term = true -> span_at norm term category stem i = Some s ->
  exists e, sp_category s = category /\ sp_term s = term /\ sp_start s = Z.of_nat i /\ sp_end s = Z.of_nat e /\
    (i < e <= String.length norm)%nat /\ sp_text s = slice norm i e /\ isWordChar (char_before norm i) = false /\
    tokenMatchesAt norm term i = true.
Proof.
  unfold span_at. intros Hw H. pose proof (word_start_nonempty term Hw) as Hn.
  destruct (tokenMatchesAt norm term i) eqn:Hm; [simpl in H|done].
  destruct (isWordChar (char_before norm i)) eqn:Hb; [done|].
  pose proof (token_match_bound _ _ _ Hm Hn) as Hle. pose proof (proj1 (nonempty_length term) Hn) as Hlt.
  destruct (multi_word term).
  - destruct (isWordChar (String.get _ norm)); [done|]. injection H as <-. eexists. repeat split; simpl; try done; lia.
  - destruct (negb _); [done|]. match type of H with (if ?b then _ else _) = _ => destruct b end; [done|]. injection H as <-.
    pose proof (token_match_head _ _ _ Hm Hw). pose proof (word_run_le (str_drop i norm)) as Hr. rewrite length_drop in Hr.
    eexists. repeat split; simpl; try done; lia.
Qed.
Lemma findTermSpans_inv norm term category stem s :
  word_start term = true -> In s (findTermSpans norm term category stem) ->
  exists i, span_at norm term category stem i = Some s.
Proof.
  unfold findTermSpans. intros Hw Hin. destruct (_ || _); [done|]. apply list_elem_of_In, list_elem_of_omap in Hin as (i & _ & Hi). eauto.
Qed.
(** A span that is found validates against the text it was found in. *)
Lemma found_span_valid norm term category stem s :
  word_start term = true -> nonempty category = true -> In s (findTermSpans norm term category stem) ->
  validateEvidenceSpan norm (span_value s) = true /\ sp_category s = category.
Proof.
  intros Hw Hc Hin. destruct (findTermSpans_inv _ _ _ _ _ Hw Hin) as (i & Hi).
  destruct (span_at_inv _ _ _ _ _ _ Hw Hi) as (e & Hcat & _ & Hst & Hen & Hr & Htx & _).
  split; [|done]. apply validate_span_value. rewrite Hst, Hen, Hcat, Htx. unfold str_len. repeat split; try lia; try done.
  - apply nonempty_length. rewrite length_slice; lia.
  - by rewrite !Nat2Z.id.
Qed.

(** * Only what is confirmed is shown *)

Lemma rank_nonneg l : 0 <= rank l.
Proof. unfold rank. lia. Qed.
Lemma confirmed_by_In ds c : confirmed_by ds c = true <-> In (c, "confirmed") ds.
Proof.
  unfold confirmed_by. rewrite existsb_exists. split.
  - intros ([a b] & Hin & [->%String.eqb_eq ->%String.eqb_eq]%andb_true_iff). done.
  - intros Hin. exists (c, "confirmed"). rewrite !String.eqb_refl. done.
Qed.
Definition held_for_review (ds : list stored_decision) : bool := existsb (fun '(_, verdict) => verdict =s "review_required") ds.
Lemma length_zero_nil {A} (l : list A) : (1 <=? length l)%nat = false -> l = [].
Proof. destruct l; [done|]. intros H. apply Nat.leb_gt in H. simpl in H. lia. Qed.

(** What the display confirms is stored, is no neutral category, and is confirmed by the gate if it accuses. *)
Lemma display_confirmed cats ds c :
  customerClassificationDisplay (Some cats) (Some ds) = Confirmed_category c ->
  held_for_review ds = false /\ In c cats /\ includes NON_ACCUSATORY c = false /\ (gated c = true -> confirmed_by ds c = true).
Proof.
  unfold customerClassificationDisplay. cbv zeta. cbn [nullish]. fold (held_for_review ds).
  destruct (held_for_review ds); [done|].
  set (cs := List.filter (fun c => negb (includes NON_ACCUSATORY c)) cats).
  assert (Hcs : forall d, In d cs -> In d cats /\ includes NON_ACCUSATORY d = false)
    by (intros d [Hin Hn%negb_true_iff]%filter_In; done).
  destruct (List.filter gated cs) as [|first rest] eqn:Ha.
  - destruct cs as [|d r]; [done|]. intros [= <-]. destruct (Hcs d (or_introl eq_refl)) as [Hin Hn].
    pose proof (proj1 (filter_nil_iff _ _) Ha d (or_introl eq_refl)). split; [done|split; [done|split; [done|congruence]]].
  - destruct (1 <=? _)%nat eqn:Hu; [done|]. intros [= <-]. apply length_zero_nil in Hu.
    assert (Hin : In first (List.filter gated cs)) by (rewrite Ha; by left). apply filter_In in Hin as [Hin _].
    pose proof (proj1 (filter_nil_iff _ _) Hu first (or_introl eq_refl)) as Hg. apply negb_false_iff in Hg.
    destruct (Hcs first Hin). done.
Qed.

Section Projected.
Context (row : StoredClassificationRow).
Local Abbreviation view := (projectStoredClassification row).
Local Abbreviation decisions := (readEvidenceGateDecisions (sr_aiDiagnostics row)).

Lemma shown_confirmed c : In c (cp_categories view) ->
  cp_state view = Ps_confirmed /\ In c (sr_riskCategories row ?? []) /\ (gated c = true -> In (c, "confirmed") decisions) /\ held_for_review decisions = false.
Proof.
  unfold projectStoredClassification. cbn [cp_state cp_categories].
  destruct (customerClassificationDisplay _ _) as [d| |] eqn:Hd; cbn [state_of]; try done.
  intros [Hin H]%filter_In. apply andb_true_iff in H as [_ H]. destruct (display_confirmed _ _ _ Hd) as [Hh _].
  split; [done|split; [done|split; [|done]]]. intros Hg. rewrite Hg in H. by apply confirmed_by_In.
Qed.
Lemma confirmed_shows : cp_state view = Ps_confirmed <-> cp_categories view <> [].
Proof.
  split.
  - unfold projectStoredClassification. cbn [cp_state cp_categories].
  destruct (customerClassificationDisplay _ _) as [d| |] eqn:Hd; cbn [state_of]; try done.
    intros _ He. destruct (display_confirmed _ _ _ Hd) as (_ & Hin & Hn & Hg).
    pose proof (proj1 (filter_nil_iff _ _) He d Hin) as Hf. cbn beta in Hf. rewrite Hn in Hf.
    destruct (gated d); [rewrite Hg in Hf|]; done.
  - intros H. destruct (cp_categories view) as [|c r] eqn:Hc; [done|]. apply (shown_confirmed c). rewrite Hc. by left.
Qed.
Lemma high_is_confirmed : rank "high" <= rank (cp_riskLevel view) -> cp_state view = Ps_confirmed.
Proof.
  unfold projectStoredClassification. cbn [cp_riskLevel cp_state].
  destruct (customerClassificationDisplay _ _) as [d| |]; cbn [state_of customerVisibleRiskLevel]; [done| |];
    (destruct (rank "high" <=? rank (sr_riskLevel row)) eqn:Hr; [change (rank "medium") with 2; change (rank "high") with 3|]; lia).
Qed.
Lemma actionable_is_confirmed : av_countsTowardWouldAutoHide (cp_autoProtect view) = true -> cp_state view = Ps_confirmed.
Proof.
  unfold projectStoredClassification. cbn [cp_autoProtect cp_state]. unfold protect_view.
  destruct (sr_autoProtect row) as [[d m]|]; [|done]. destruct (state_of _) eqn:Hs; cbn; try done.
  match goal with |- context [if ?b then _ else _] => destruct b eqn:Hb end; cbn; [|done].
  intros ->%String.eqb_eq. apply andb_true_iff in Hb as [_ Hb]. done.
Qed.
End Projected.

(** C28 — what a customer is shown of a stored classification is confirmed: every shown category
    is stored, and one that accuses is confirmed by name in the evidence gate while nothing is
    held for review; a level of high or critical, and a count among the would-be automatic
    hides, appear only on a confirmed row; and a row is confirmed exactly when it shows a category. *)
Theorem only_confirmed_is_shown (row : StoredClassificationRow) :
  let view := projectStoredClassification row in
  let decisions := readEvidenceGateDecisions (sr_aiDiagnostics row) in
  (forall c, In c (cp_categories view) -> In c (sr_riskCategories row ?? []) /\
     (gated c = true -> In (c, "confirmed") decisions) /\ forall d, ~ In (d, "review_required") decisions) /\
  (rank "high" <= rank (cp_riskLevel view) \/ av_countsTowardWouldAutoHide (cp_autoProtect view) = true -> cp_state view = Ps_confirmed) /\
  (cp_state view = Ps_confirmed <-> cp_categories view <> []).
Proof.
  intros view decisions. split; [|split; [intros [H|H]; [by apply high_is_confirmed|by apply actionable_is_confirmed]|apply confirmed_shows]].
  intros c Hc. destruct (shown_confirmed row c Hc) as (_ & Hin & Hg & Hh). split; [done|split; [done|]].
  intros d Hd. apply Bool.not_true_iff_false in Hh. apply Hh, existsb_exists. exists (d, "review_required"). done.
Qed.

Lemma visible_level_nonempty level d : nonempty level = true -> nonempty (customerVisibleRiskLevel level d) = true.
Proof. intros H. unfold customerVisibleRiskLevel. destruct d; [done|destruct (_ <=? _); done..]. Qed.
Lemma visible_level_capped row : cp_state (projectStoredClassification row) <> Ps_confirmed ->
  (rank "high" <=? rank (cp_riskLevel (projectStoredClassification row))) = false.
Proof. intros H. apply Z.leb_gt. destruct (Z.lt_ge_cases (rank (cp_riskLevel (projectStoredClassification row))) (rank "high")); [done|]. by destruct H; apply high_is_confirmed. Qed.

(** C18 — the persisted columns carry the projection: whatever row is projected, written and read
    back, state, categories and level come back as projected, never stale, and re-analysis is
    asked for exactly when the writer asked for it. *)
Theorem persisted_projection_roundtrip (row : StoredClassificationRow) :
  nonempty (sr_riskLevel row) = true ->
  let view := projectStoredClassification row in
  let reads f again := readPersistedProjection (stored_row f) =
    {| pv_state := cp_state view; pv_categories := cp_categories view; pv_riskLevel := cp_riskLevel view; pv_requiresReanalysis := again; pv_stale := false |} in
  reads (persistedProjectionFields row) (cp_requiresReview view || av_requiresReanalysis (cp_autoProtect view)) /\
  reads (persistedProjectionFieldsAfterClassification row) false.
Proof.
  intros Hn view reads.
  assert (Hlevel : nonempty (cp_riskLevel view) = true) by (by apply visible_level_nonempty).
  assert (Hone : forall again, readPersistedProjection {| pr_state := Some (js_name (cp_state view)); pr_riskLevel := Some (cp_riskLevel view);
      pr_riskCategories := Some (cp_categories view); pr_version := Some CUSTOMER_PROJECTION_VERSION; pr_requiresReanalysis := Some again |} =
    {| pv_state := cp_state view; pv_categories := cp_categories view; pv_riskLevel := cp_riskLevel view; pv_requiresReanalysis := again; pv_stale := false |}).
  { intros again. unfold readPersistedProjection. cbn [pr_state pr_riskLevel pr_riskCategories pr_version pr_requiresReanalysis parse_opt nullish].
    change (CUSTOMER_PROJECTION_VERSION <? CUSTOMER_PROJECTION_VERSION) with false. cbn iota. rewrite parse_name, Hlevel.
    pose proof (confirmed_shows row) as Hshow. fold view in Hshow. destruct (decide (cp_state view = Ps_confirmed)) as [Hc|Hc].
    - rewrite Hc. destruct (cp_categories view) eqn:He; [by destruct (proj1 Hshow Hc)|]. done.
    - pose proof (visible_level_capped row Hc) as Hcap. fold view in Hcap.
      assert (He : cp_categories view = []) by (destruct (cp_categories view) eqn:He; [done|by destruct Hc; apply Hshow]).
      replace (cp_state view =e Ps_confirmed) with false by (symmetry; apply not_true_iff_false; by rewrite enum_eqb_eq).
      cbn [andb]. rewrite Hcap, He. done. }
  split; apply Hone.
Qed.
Lemma persisted_projection_roundtrip_witness :
  readPersistedProjection (stored_row (persistedProjectionFields {| sr_riskLevel := "high"; sr_riskCategories := Some ["scam"; "complaint"];
    sr_aiDiagnostics := VObject [("evidenceGate", VObject [("decisions", VArray [VObject [("category", VString "scam"); ("verdict", VString "confirmed")]])])];
    sr_autoProtect := None |})) =
  {| pv_state := Ps_confirmed; pv_categories := ["scam"; "complaint"]; pv_riskLevel := "high"; pv_requiresReanalysis := false; pv_stale := false |}.
Proof.
  exact (proj1 (persisted_projection_roundtrip {| sr_riskLevel := "high"; sr_riskCategories := Some ["scam"; "complaint"];
    sr_aiDiagnostics := VObject [("evidenceGate", VObject [("decisions", VArray [VObject [("category", VString "scam"); ("verdict", VString "confirmed")]])])];
    sr_autoProtect := None |} eq_refl)).
Defined.

(** * Totals count what is shown *)

Lemma bumped l m c : map_get (fold_left bump l m) c ?? 0 = (map_get m c ?? 0) + count (String.eqb c) l.
Proof.
  revert m. induction l as [|x l IH]; intros m; simpl; [unfold count; simpl; lia|].
  rewrite IH, count_cons. unfold bump. rewrite map_get_set. destruct (String.eqb_spec x c) as [->|Hn].
  - rewrite String.eqb_refl. simpl. lia.
  - destruct (String.eqb_spec c x); [by subst|]. lia.
Qed.
Definition tally_start (n : Z) (m : jsmap Z) (r l h : Z) : ProjectedTally :=
  {| ta_confirmed := m; ta_requiresReview := r; ta_legacyUnverified := l; ta_confirmedHighOrCritical := h; ta_total := n |}.
Lemma tally_fold rows n m r l h :
  let t := fold_left tally_row rows (tally_start n m r l h) in
  let views := map projectStoredClassification rows in
  (forall c, map_get (ta_confirmed t) c ?? 0 = (map_get m c ?? 0) + count (String.eqb c) (flat_map cp_categories views)) /\
  ta_requiresReview t = r + count cp_requiresReview views /\ ta_legacyUnverified t = l + count cp_legacyUnverified views /\
  ta_confirmedHighOrCritical t = h + count cp_eligibleForSeverityTotals views /\ ta_total t = n.
Proof.
  revert m r l h. induction rows as [|row rows IH]; intros m r l h t views.
  { unfold t, views, count. simpl. repeat split; intros; lia. }
  unfold t, views. cbn [fold_left map flat_map]. set (v := projectStoredClassification row).
  set (m' := if cp_eligibleForCategoryTotals v then fold_left bump (cp_categories v) m else m).
  change (tally_row (tally_start n m r l h) row) with
    (tally_start n m' (r + one_if (cp_requiresReview v)) (l + one_if (cp_legacyUnverified v)) (h + one_if (cp_eligibleForSeverityTotals v))).
  destruct (IH m' (r + one_if (cp_requiresReview v)) (l + one_if (cp_legacyUnverified v)) (h + one_if (cp_eligibleForSeverityTotals v)))
    as (Hc & Hr & Hl & Hh & Hn).
  assert (Hm : forall c, map_get m' c ?? 0 = (map_get m c ?? 0) + count (String.eqb c) (cp_categories v)).
  { intros c. unfold m'. destruct (cp_eligibleForCategoryTotals v) eqn:He; [apply bumped|].
    assert (cp_categories v = []) as ->; [|unfold count; simpl; lia].
    destruct (cp_categories v) eqn:Hv; [done|]. assert (cp_state v = Ps_confirmed) as Hs by (apply confirmed_shows; unfold v in *; by rewrite Hv).
    change (cp_eligibleForCategoryTotals v) with (cp_state v =e Ps_confirmed) in He. by rewrite Hs in He. }
  rewrite Hr, Hl, Hh, Hn, !count_cons. unfold one_if. repeat split; [|lia..].
  intros c. rewrite Hc, Hm, count_app. lia.
Qed.

Lemma one_state (s : ProjectionState) :
  (if s =e Ps_confirmed then 1 else 0) + (if s =e Ps_review_required then 1 else 0) + (if s =e Ps_no_issue then 1 else 0) = 1.
Proof. by destruct s. Qed.
(** the totals count what is shown: after tallying any page of rows, the number recorded
    for a category is how often the page shows it, the review, legacy and high-or-critical
    counters are the numbers of rows projected so, and every row is confirmed, in review or
    without issue. *)
Theorem tally_counts_what_is_shown (rows : list StoredClassificationRow) :
  let t := tallyProjected rows in
  let views := map projectStoredClassification rows in
  (forall c, map_get (ta_confirmed t) c ?? 0 = count (String.eqb c) (flat_map cp_categories views)) /\
  ta_requiresReview t = count cp_requiresReview views /\ ta_legacyUnverified t = count cp_legacyUnverified views /\
  ta_confirmedHighOrCritical t = count (fun v => (cp_state v =e Ps_confirmed) && includes HIGHISH (cp_storedLevel v)) views /\
  ta_total t = count (fun v => cp_state v =e Ps_confirmed) views + ta_requiresReview t + count (fun v => cp_state v =e Ps_no_issue) views.
Proof.
  intros t views. destruct (tally_fold rows (Z.of_nat (length rows)) [] 0 0 0) as (Hc & Hr & Hl & Hh & Hn).
  unfold t, views, tallyProjected. fold (tally_start (Z.of_nat (length rows)) [] 0 0 0). rewrite Hr, Hl, Hh, Hn.
  repeat split; [intros c; rewrite Hc; simpl; lia| |].
  - rewrite Z.add_0_l. unfold count. do 2 f_equal. apply List.filter_ext_in. intros v (row & <- & _)%in_map_iff. done.
  - clear. induction rows as [|row rows IH]; [done|]. cbn [map length]. rewrite !count_cons, Nat2Z.inj_succ.
    change (cp_requiresReview (projectStoredClassification row)) with (cp_state (projectStoredClassification row) =e Ps_review_required).
    pose proof (one_state (cp_state (projectStoredClassification row))). lia.
Qed.

(** * Severity follows confirmed harm *)

Lemma severity_floor base proposed ds : rank base <= rank (severityForVerdicts base proposed ds).1.1.
Proof. unfold severityForVerdicts. destruct (Z.leb_spec (rank proposed) (rank base)); [simpl; lia|]. destruct (existsb _ _); simpl; [lia|]. by destruct (_ <? _). Qed.
Lemma severity_raised base proposed ds : rank base < rank (severityForVerdicts base proposed ds).1.1 ->
  severityForVerdicts base proposed ds = (proposed, false, confirmed_harm) /\
  exists d, In d ds /\ de_verdict d = V_confirmed /\ gated (de_category d) = true.
Proof.
  unfold severityForVerdicts. destruct (rank proposed <=? rank base); simpl; [lia|].
  destruct (existsb _ ds) eqn:He; simpl.
  - intros _. split; [done|]. apply existsb_exists in He as (d & Hd & [Hv Hg]%andb_true_iff). exists d. by apply enum_eqb_eq in Hv.
  - destruct (_ <? _); lia.
Qed.
(** An unconfirmed escalation is documented to be held at the rules' level but never above
    medium; it is held wherever the rules put it. *)
Theorem held_above_medium (ds : list CategoryDecision) :
  (forall d, In d ds -> de_verdict d <> V_confirmed) ->
  severityForVerdicts "high" "critical" ds = ("high", true, escalation_without_confirmed_evidence).
Proof.
  intros H. unfold severityForVerdicts. change (rank "critical" <=? rank "high") with false. cbn iota.
  replace (existsb _ ds) with false; [done|]. symmetry. apply not_true_iff_false. intros (d & Hd & [Hv _]%andb_true_iff)%existsb_exists.
  apply enum_eqb_eq in Hv. by apply (H d).
Qed.
Lemma held_above_medium_witness : severityForVerdicts "high" "critical" [] = ("high", true, escalation_without_confirmed_evidence).
Proof. apply (held_above_medium []). intros d []. Defined.

(** A confirmed accusation rests on evidence: spans that were counted, and enough confidence. *)
Lemma decide_confirmed i : gated (di_category i) = true -> de_verdict (decideCategory i) = V_confirmed ->
  di_validEvidenceCount i <> 0 /\ below (di_confidence i) (categoryThreshold (di_category i)) = false.
Proof.
  unfold decideCategory. intros ->. simpl. destruct (negb _ && negb _); [done|]. destruct (Z.eqb_spec (di_validEvidenceCount i) 0).
  - by destruct (_ && _).
  - by destruct (below _ _).
Qed.
Lemma decide_category i : de_category (decideCategory i) = di_category i.
Proof. unfold decideCategory. by repeat match goal with |- context [if ?b then _ else _] => destruct b end. Qed.

End Evidence.
