(* ===== verification/RiskRules.v ===== *)
(** The rule engine ([packages/ai/src/risk-classifier.ts]): normalization of a text, the word-bounded
    lexicons, contextual fraud, brand rules, and the level, confidence and evidence they give. *)
From S2P Require Import Prelude JsValue Outbox Access Evidence.
From Stdlib Require Import QArith Qround Lqa.
Open Scope string_scope.
Open Scope list_scope.
Open Scope Z_scope.
Open Scope tam_scope.
Import Evidence.

Module RiskRules.

(* src: packages/core/src/reputation.ts:111-124 RiskCategory *)
Inductive RiskCategory :=
| C_Spam | C_Scam | C_HateSpeech | C_Harassment | C_Profanity | C_Misinformation | C_BrandAttack | C_Complaint | C_LegalThreat
| C_SelfHarm | C_Positive | C_Neutral.
#[export] Instance RiskCategory_dec : EqDecision RiskCategory.
Proof. solve_decision. Defined.
#[export] Program Instance RiskCategory_enum : JsEnum RiskCategory := {|
  js_name x := match x with
    | C_Spam => "spam" | C_Scam => "scam" | C_HateSpeech => "hate_speech" | C_Harassment => "harassment" | C_Profanity => "profanity"
    | C_Misinformation => "misinformation" | C_BrandAttack => "brand_attack" | C_Complaint => "complaint"
    | C_LegalThreat => "legal_threat" | C_SelfHarm => "self_harm" | C_Positive => "positive" | C_Neutral => "neutral" end;
  js_values := [C_Spam; C_Scam; C_HateSpeech; C_Harassment; C_Profanity; C_Misinformation; C_BrandAttack; C_Complaint; C_LegalThreat;
    C_SelfHarm; C_Positive; C_Neutral] |}.
Solve All Obligations with solve_js_enum.
(* src: packages/core/src/reputation.ts:126-130 Sentiment *)
Inductive Sentiment := S_Negative | S_Neutral | S_Positive.
#[export] Instance Sentiment_dec : EqDecision Sentiment.
Proof. solve_decision. Defined.
#[export] Program Instance Sentiment_enum : JsEnum Sentiment := {|
  js_name x := match x with S_Negative => "negative" | S_Neutral => "neutral" | S_Positive => "positive" end;
  js_values := [S_Negative; S_Neutral; S_Positive] |}.
Solve All Obligations with solve_js_enum.
(* src: packages/core/src/brand-rule.ts:12-21 RuleCategory *)
Inductive RuleCategory := BlockedWords | CompetitorMentions | CrisisKeywords | CustomPhrases.
#[export] Instance RuleCategory_dec : EqDecision RuleCategory.
Proof. solve_decision. Defined.
#[export] Program Instance RuleCategory_enum : JsEnum RuleCategory := {|
  js_name x := match x with
    | BlockedWords => "blocked_words" | CompetitorMentions => "competitor_mentions" | CrisisKeywords => "crisis_keywords"
    | CustomPhrases => "custom_phrases" end;
  js_values := [BlockedWords; CompetitorMentions; CrisisKeywords; CustomPhrases] |}.
Solve All Obligations with solve_js_enum.

(** * Text *)

(** [normalize("NFD")] with the combining marks removed, on a lower-case Latin-1 character: the
    letters that decompose lose their diacritic, every other character stays. *)
Definition base_letter (c : ascii) : ascii :=
  if between 224 229 (code c) then "a" else if code c =? 231 then "c" else if between 232 235 (code c) then "e"
  else if between 236 239 (code c) then "i" else if code c =? 241 then "n" else if between 242 246 (code c) then "o"
  else if between 249 252 (code c) then "u" else if (code c =? 253) || (code c =? 255) then "y" else c.
(* src: packages/ai/src/risk-classifier.ts:140-149 normalize *)
Definition leet (c : ascii) : ascii :=
  if Ascii.eqb c "0" then "o" else if Ascii.eqb c "1" then "i" else if Ascii.eqb c "3" then "e" else if Ascii.eqb c "4" then "a"
  else if Ascii.eqb c "5" then "s" else if Ascii.eqb c "7" then "t" else if Ascii.eqb c "8" then "b" else if Ascii.eqb c "@" then "a"
  else if Ascii.eqb c "$" then "s" else c.
(** [/[^a-z0-9*\s]/g] to a space. *)
Definition keep_or_space (c : ascii) : ascii :=
  if is_lower c || is_digit c || Ascii.eqb c "*" || is_ws c then c else " ".
(** [/\s+/g] to one space; [after] when a white space has just been read. *)
Fixpoint collapse_ws (after : bool) (s : string) : string :=
  match s with
  | EmptyString => EmptyString
  | String c r => if is_ws c then (if after then collapse_ws true r else String " " (collapse_ws true r)) else String c (collapse_ws false r)
  end.
(* src: packages/ai/src/risk-classifier.ts:138-152 normalize *)
Definition normalize (input : string) : string :=
  let lower := str_map base_letter (toLowerCase input) in
  trim (collapse_ws false (str_map keep_or_space (str_map leet lower))).

(** [hay.includes(needle)] *)
Fixpoint str_includes (hay needle : string) : bool :=
  startsWith needle hay || match hay with String _ r => str_includes r needle | EmptyString => false end.
(* src: packages/ai/src/risk-classifier.ts:155-168 containsFuzzy *)
Definition containsFuzzy (hay needle : string) : bool :=
  if str_includes hay needle then true
  else if negb (str_includes hay "*") then false
  else if (String.length hay <? String.length needle)%nat then false
  else existsb (tokenMatchesAt hay needle) (seq 0 (S (String.length hay - String.length needle))).

(** * Lexicons *)

(* src: packages/ai/src/risk-classifier.ts:179-242 LEXICON *)
Definition LEXICON : list (RiskCategory * Q * list string * bool) :=
  [
   (C_Profanity, (9 # 10)%Q, ["kokot"; "pica"; "kurva"; "kurv"; "hovno"; "skurveny"; "chuj"; "curak"; "sracka"; "mrdka"; "jebat";
      "vyjebany"; "zmrd"; "ojeb"; "kokotina"; "fuck"; "fucker"; "motherfucker"; "shit"; "bitch"; "asshole"; "cunt";
      "scheisse"; "arschloch"; "hurensohn"; "wichser"; "fick"], false);
   (C_Profanity, (17 # 20)%Q, ["jeb"; "pic"], true);
   (C_Harassment, (4 # 5)%Q, ["kreten"; "idiot"; "debil"; "hajzel"; "svina"; "sprostak"; "magor"; "nenazraty"; "hovado"; "vul "; "blbec";
      "trkvas"; "moron"; "loser"; "stupid"; "dumb"; "shut up"; "you are idiots"; "scumbag"; "blodmann"; "spinner";
      "vollidiot"; "trottel"; "hulye"; "barom"; "glupek"], false);
   (C_HateSpeech, (9 # 10)%Q, ["hateful"; "disgusting people"; "nenavid"; "go back to your country"; "your race"; "subhuman"; "racial slur";
      "plant a bomb"; "jihad"; "heil hitler"; "terror attack"], false);
   (C_Harassment, (23 # 25)%Q, ["zabijem"; "zabit ta"; "i will kill"; "kill you"; "vyhrazam"; "ublizim"; "umresh"; "toch dich";
      "i will hurt"; "burn your store"; "beat you up"], false);
   (C_Scam, (9 # 10)%Q, ["podvod"; "podvodnik"; "scam"; "scammer"; "scammed"; "fraud"; "fraudulent"; "betrug"; "betrueger";
      "oszustwo"; "oszust"; "atveres"; "csalas"; "csalo"; "verify your account"; "confirm your password";
      "reset your password"; "send your password"; "confirm your login details"; "zadajte heslo"; "poslite heslo";
      "posli heslo"; "bestatigen sie ihr passwort"; "geben sie ihr passwort ein"; "free money"; "crypto giveaway";
      "claim prize"; "claim your prize"; "click here to claim"; "click here to win"; "advance fee"; "pay to claim";
      "zaplatte za vyhru"; "guaranteed returns"; "guaranteed profit"; "double your money"; "garantovany vynos";
      "garantovany zisk"; "garantierte rendite"], false);
   (C_Spam, (7 # 10)%Q, ["buy now"; "promo code"; "subscribe to my"; "check my profile"; "kup teraz"; "zlava len dnes";
      "jetzt kaufen"], false);
   (C_LegalThreat, (17 # 20)%Q, ["lawsuit"; "sue you"; "my lawyer"; "legal action"; "pravnik"; "zalujem"; "anwalt"], false);
   (C_Scam, (3 # 4)%Q, ["zlodej"; "thief"; "dieb"; "okradli"], false);
   (C_Complaint, (1 # 2)%Q, ["klamar"; "klamete"; "liar"; "luegner"; "terrible"; "worst"; "refund"; "scammed me"; "never again";
      "reklamacia"; "otrasne"], false)].
(* src: packages/ai/src/risk-classifier.ts:244-248 POSITIVE_TERMS *)
Definition POSITIVE_TERMS : list string :=
  ["super"; "dakujem"; "vyborne"; "skvele"; "najlepsi"; "odporucam"; "great"; "thanks"; "thank you"; "love it"; "perfect";
   "amazing"; "excellent"; "danke"; "toll"; "super service"].
(* src: packages/ai/src/risk-classifier.ts:250-259 NEGATIVE_CATEGORIES *)
Definition NEGATIVE_CATEGORIES : list RiskCategory :=
  [C_Scam; C_Spam; C_LegalThreat; C_Harassment; C_Profanity; C_HateSpeech; C_Complaint; C_BrandAttack].
Definition negative (c : RiskCategory) : bool := bool_decide (c ∈ NEGATIVE_CATEGORIES).
(* src: packages/ai/src/risk-classifier.ts:262-270 RULE_CATEGORY_EFFECT *)
Definition RULE_CATEGORY_EFFECT (c : RuleCategory) : option RiskCategory * Q :=
  match c with
  | BlockedWords => (Some C_Profanity, (8 # 10)%Q)
  | CompetitorMentions => (None, (3 # 10)%Q)
  | CrisisKeywords => (Some C_BrandAttack, (9 # 10)%Q)
  | CustomPhrases => (Some C_Neutral, (35 # 100)%Q)
  end.

(* src: packages/ai/src/types.ts:10-14 ClassifierRule *)
Record ClassifierRule := { ru_category : RuleCategory; ru_phrases : list string; ru_enabled : bool }.
(* src: packages/ai/src/types.ts:17-20 MatchedRule *)
Record MatchedRule := { mr_category : RuleCategory; mr_phrase : string }.
(** What the engine reads of its input; the platform and the locale are never read. *)
(* src: packages/ai/src/types.ts:23-32 ClassificationInput *)
Record ClassificationInput := { in_text : string; in_rating : option Q; in_rules : option (list ClassifierRule) }.
(* src: packages/ai/src/types.ts:35-35 RecommendedReviewAction *)
Inductive RecommendedReviewAction := Act_escalate | Act_review | Act_monitor | Act_none.
#[export] Instance RecommendedReviewAction_dec : EqDecision RecommendedReviewAction.
Proof. solve_decision. Defined.
#[export] Program Instance RecommendedReviewAction_enum : JsEnum RecommendedReviewAction := {|
  js_name x := match x with Act_escalate => "escalate" | Act_review => "review" | Act_monitor => "monitor" | Act_none => "none" end;
  js_values := [Act_escalate; Act_review; Act_monitor; Act_none] |}.
Solve All Obligations with solve_js_enum.
(* src: packages/ai/src/language-detect.ts:13-18 LanguageDetection *)
Record LanguageDetection := { la_language : string; la_confidence : Q; la_isMixed : bool; la_source : string }.
(* src: packages/ai/src/types.ts:44-75 ClassificationResult *)
Record ClassificationResult := { re_level : Access.RiskLevel; re_confidence : Q; re_categories : list RiskCategory; re_sentiment : Sentiment;
  re_rationale : string; re_language : LanguageDetection; re_analyzedText : string; re_evidence : list EvidenceSpan;
  re_matchedTerms : list string; re_matchedRules : list MatchedRule; re_riskSignals : list string; re_action : RecommendedReviewAction }.

(** * Scoring *)

Definition q_max (a b : Q) : Q := if q_ltb a b then b else a.
Definition q_min (a b : Q) : Q := if q_ltb b a then b else a.
(* src: packages/ai/src/risk-classifier.ts:337-337 round2 *)
Definition round2 (n : Q) : Q := (Qfloor (n * 100 + (1 # 2)) # 100)%Q.
(* src: packages/ai/src/risk-classifier.ts:272-288 matchBrandRules *)
Definition matchBrandRules (normText : string) (rules : option (list ClassifierRule)) : list MatchedRule :=
  flat_map (fun rule => if negb (ru_enabled rule) then [] else
    omap (fun phrase => let needle := normalize phrase in
      if nonempty needle && containsFuzzy normText needle then Some {| mr_category := ru_category rule; mr_phrase := phrase |} else None)
      (ru_phrases rule)) (rules ?? []).
(* src: packages/ai/src/risk-classifier.ts:290-302 deriveSentiment *)
Definition deriveSentiment (categories : list RiskCategory) (rating : option Q) (positiveHit : bool) : Sentiment :=
  let rest := if existsb negative categories then S_Negative
    else if positiveHit || bool_decide (C_Positive ∈ categories) then S_Positive else S_Neutral in
  match rating with
  | Some r => if Qle_bool 4 r then S_Positive else if Qle_bool r 2 then S_Negative else rest
  | None => rest
  end.
(* src: packages/ai/src/risk-classifier.ts:304-310 scoreToLevel *)
Definition scoreToLevel (score : Q) : Access.RiskLevel :=
  if Qle_bool (85 # 100) score then Access.RiskCritical
  else if Qle_bool (65 # 100) score then Access.RiskHigh
  else if Qle_bool (4 # 10) score then Access.RiskMedium
  else if q_ltb 0 score then Access.RiskLow else Access.RiskNone.
(* src: packages/ai/src/risk-classifier.ts:317-320 confidenceFor *)
Definition confidenceFor (score : Q) (deterministic : bool) : Q :=
  if deterministic then q_min (9 # 10) ((75 # 100) + score * (15 # 100)) else q_min (6 # 10) ((3 # 10) + score * (3 # 10)).
(* src: packages/ai/src/risk-classifier.ts:322-328 buildRationale *)
Definition buildRationale (deterministic : bool) (ruleMatches : Z) : string :=
  if deterministic then
    let suffix := if 0 <? ruleMatches then " + " +:+ Outbox.string_of_int ruleMatches +:+ " brand-rule match(es)" else "" in
    "Risk Rules V1: deterministic lexicon match" +:+ suffix +:+ ". Human review recommended; no platform action taken."
  else "Risk Rules V1: no deterministic match; heuristic classification only.".
(* src: packages/ai/src/risk-classifier.ts:330-335 recommendedAction *)
Definition recommendedAction (level : Access.RiskLevel) : RecommendedReviewAction :=
  match level with
  | Access.RiskCritical => Act_escalate | Access.RiskHigh => Act_review | Access.RiskMedium => Act_monitor | _ => Act_none
  end.

(** What the engine accumulates while it reads a text. *)
Record assessment := { as_categories : list RiskCategory; as_terms : list string; as_score : Q; as_deterministic : bool; as_evidence : list EvidenceSpan }.
Definition blank : assessment := {| as_categories := []; as_terms := []; as_score := 0; as_deterministic := false; as_evidence := [] |}.
(* src: packages/ai/src/risk-classifier.ts:44-58 classify *)
Definition apply_lexicon_row (norm : string) (a : assessment) (row : RiskCategory * Q * list string * bool) : assessment :=
  let '(category, weight, terms, stem) := row in
  let hits := List.filter (fun '(_, spans) => negb (length spans =? 0)%nat)
    (map (fun t => (t, findTermSpans norm t (js_name category) stem)) terms) in
  let fired := negb (length hits =? 0)%nat in
  {| as_categories := if fired then set_add (as_categories a) category else as_categories a;
     as_terms := fold_left set_add (map (fun h => trim h.1) hits) (as_terms a);
     as_score := if fired then q_max (as_score a) weight else as_score a;
     as_deterministic := as_deterministic a || fired;
     as_evidence := as_evidence a ++ flat_map snd hits |}.
(* src: packages/ai/src/risk-classifier.ts:60-70 classify *)
Definition apply_scam_context (norm : string) (a : assessment) : assessment :=
  let sc := assessScamContext norm (bool_decide (C_Scam ∈ as_categories a)) (fun n t c => findTermSpans n t c false) in
  match sc_confirms sc, sc_reason sc with
  | true, multi_dimension_with_harm =>
      {| as_categories := set_add (as_categories a) C_Scam; as_terms := fold_left set_add (map sp_term (sc_spans sc)) (as_terms a);
         as_score := q_max (as_score a) (9 # 10); as_deterministic := true; as_evidence := as_evidence a ++ sc_spans sc |}
  | _, _ => a
  end.
(* src: packages/ai/src/risk-classifier.ts:79-83 classify *)
Definition apply_rating (rating : option Q) (a : assessment) : assessment :=
  match rating with
  | Some r => if Qle_bool r 2 then
      {| as_categories := set_add (as_categories a) C_Complaint; as_terms := as_terms a; as_score := q_max (as_score a) (45 # 100);
         as_deterministic := as_deterministic a; as_evidence := as_evidence a |} else a
  | None => a
  end.
(* src: packages/ai/src/risk-classifier.ts:87-92 classify *)
Definition apply_brand_rule (a : assessment) (m : MatchedRule) : assessment :=
  let '(category, weight) := RULE_CATEGORY_EFFECT (mr_category m) in
  {| as_categories := match category with Some c => set_add (as_categories a) c | None => as_categories a end;
     as_terms := as_terms a; as_score := q_max (as_score a) weight; as_deterministic := true; as_evidence := as_evidence a |}.
(** The text alone: lexicons, then context. *)
Definition assess_text (norm : string) : assessment :=
  apply_scam_context norm (fold_left (apply_lexicon_row norm) LEXICON blank).

Section Engine.
(** [language-detect.ts]: its signals lie mostly beyond the characters of the model. *)
Context (detectLanguage : string -> LanguageDetection).

(* src: packages/ai/src/risk-classifier.ts:33-128 classify *)
Definition classify (input : ClassificationInput) : ClassificationResult :=
  let norm := normalize (in_text input) in
  let text := assess_text norm in
  let positiveHit := negb (existsb negative (as_categories text)) && existsb (containsFuzzy norm) POSITIVE_TERMS in
  let matchedRules := matchBrandRules norm (in_rules input) in
  let a := fold_left apply_brand_rule matchedRules (apply_rating (in_rating input) text) in
  let sentiment := deriveSentiment (as_categories a) (in_rating input) positiveHit in
  let categories := match as_categories a with
    | [] => [if decide (sentiment = S_Positive) then C_Positive else C_Neutral] | cs => cs end in
  let level := scoreToLevel (as_score a) in
  {| re_level := level; re_confidence := round2 (confidenceFor (as_score a) (as_deterministic a)); re_categories := categories;
     re_sentiment := sentiment; re_rationale := buildRationale (as_deterministic a) (Z.of_nat (length matchedRules));
     re_language := detectLanguage (in_text input); re_analyzedText := norm; re_evidence := as_evidence a;
     re_matchedTerms := as_terms a; re_matchedRules := matchedRules;
     re_riskSignals := map js_name (List.filter (fun c => negb (bool_decide (c = C_Positive)) && negb (bool_decide (c = C_Neutral))) categories);
     re_action := recommendedAction level |}.
End Engine.

(** * What a category rests on *)

Definition occurs (norm term category : string) (stem : bool) : Prop := findTermSpans norm term category stem <> [].
(** A row of the lexicon fires: one of its terms occurs. *)
Definition fires (norm : string) (row : RiskCategory * Q * list string * bool) : Prop :=
  exists t, In t row.1.2 /\ occurs norm t (js_name row.1.1.1) row.2.
Definition dimension_fires (norm : string) (d : ScamDimension) : Prop :=
  exists terms t, In (d, terms) SCAM_CONTEXT_LEXICON /\ In t terms /\ occurs norm t "scam" false.

Lemma length_pos_b {A} (l : list A) : negb (length l =? 0)%nat = true <-> l <> [].
Proof. by destruct l. Qed.
Lemma row_hits norm (terms : list string) category stem h :
  In h (List.filter (fun '(_, spans) => negb (length spans =? 0)%nat) (map (fun t => (t, findTermSpans norm t category stem)) terms)) <->
  In h.1 terms /\ h.2 = findTermSpans norm h.1 category stem /\ h.2 <> [].
Proof.
  rewrite filter_In, in_map_iff. destruct h as [t spans]. rewrite length_pos_b. simpl. split.
  - intros [(t' & [= <- <-] & Ht) Hn]. done.
  - intros (Ht & -> & Hn). split; [by exists t|done].
Qed.
Lemma row_categories norm a row c :
  c ∈ as_categories (apply_lexicon_row norm a row) <-> c ∈ as_categories a \/ c = row.1.1.1 /\ fires norm row.
Proof.
  destruct row as [[[category weight] terms] stem]. cbn [apply_lexicon_row as_categories fst snd].
  set (hits := List.filter _ _). assert (Hf : negb (length hits =? 0)%nat = true <-> fires norm (category, weight, terms, stem)).
  { rewrite length_pos_b. unfold fires, occurs. cbn [fst snd]. split.
    - intros Hn. destruct hits as [|h r] eqn:Hh; [done|]. assert (Hin : In h hits) by (rewrite Hh; by left).
      apply row_hits in Hin as (Ht & He & Hne). exists h.1. by rewrite <- He.
    - intros (t & Ht & Hne) Hn. assert (Hin : In (t, findTermSpans norm t (js_name category) stem) hits) by (by apply row_hits). by rewrite Hn in Hin. }
  destruct (negb _) eqn:Hb.
  - rewrite elem_of_set_add. assert (fires norm (category, weight, terms, stem)) by (by apply Hf). tauto.
  - assert (~ fires norm (category, weight, terms, stem)) by (rewrite <- Hf; congruence). tauto.
Qed.
Lemma lexicon_categories norm rows a c :
  c ∈ as_categories (fold_left (apply_lexicon_row norm) rows a) <-> c ∈ as_categories a \/ exists row, In row rows /\ c = row.1.1.1 /\ fires norm row.
Proof.
  revert a. induction rows as [|row rows IH]; intros a; cbn [fold_left].
  - split; [auto|by intros [?|(? & [] & _)]].
  - rewrite IH, row_categories. split.
    + intros [[?|[? ?]]|(r & ? & ?)]; [by left|right; exists row; simpl; auto|right; exists r; simpl; auto].
    + intros [?|(r & [<-|Hr] & ? & ?)]; [auto|auto|right; by exists r].
Qed.
Lemma row_evidence norm a row s :
  In s (as_evidence (apply_lexicon_row norm a row)) <->
  In s (as_evidence a) \/ exists t, In t row.1.2 /\ In s (findTermSpans norm t (js_name row.1.1.1) row.2).
Proof.
  destruct row as [[[category weight] terms] stem]. cbn [apply_lexicon_row as_evidence fst snd]. rewrite in_app_iff, in_flat_map.
  split; (intros [?|H]; [by left|right]).
  - destruct H as ([t spans] & Hin & Hs). apply row_hits in Hin as (Ht & He & _). cbn [fst snd] in *. subst spans. by exists t.
  - destruct H as (t & Ht & Hs). exists (t, findTermSpans norm t (js_name category) stem). split; [|done]. apply row_hits.
    split; [done|split; [done|]]. cbn [fst snd]. by intros E; rewrite E in Hs.
Qed.
Lemma lexicon_evidence norm rows a s :
  In s (as_evidence (fold_left (apply_lexicon_row norm) rows a)) <->
  In s (as_evidence a) \/ exists row t, In row rows /\ In t row.1.2 /\ In s (findTermSpans norm t (js_name row.1.1.1) row.2).
Proof.
  revert a. induction rows as [|row rows IH]; intros a; cbn [fold_left].
  - split; [auto|by intros [?|(? & ? & [] & _)]].
  - rewrite IH, row_evidence. split.
    + intros [[?|(t & ? & ?)]|(r & t & ? & ? & ?)]; [by left|right; exists row, t; simpl; auto|right; exists r, t; simpl; auto].
    + intros [?|(r & t & [<-|Hr] & ? & ?)]; [auto|left; right; by exists t|right; by exists r, t].
Qed.

(** The dimensions and spans of a context assessment. *)
Definition find_scam (n t c : string) : list EvidenceSpan := findTermSpans n t c false.
Lemma in_scam_hits norm d spans :
  In (d, spans) (scam_hits norm find_scam) <->
  exists terms t, In (d, terms) SCAM_CONTEXT_LEXICON /\ In t terms /\ spans = findTermSpans norm t "scam" false /\ spans <> [].
Proof.
  unfold scam_hits. rewrite filter_In, length_pos_b, in_flat_map. split.
  - intros [([d2 terms] & Hl & (t & [= <- <-] & Ht)%in_map_iff) Hn]. by exists terms, t.
  - intros (terms & t & Hl & Ht & -> & Hn). split; [|done]. exists (d, terms). split; [done|]. apply in_map_iff. by exists t.
Qed.
Lemma context_dimensions norm d : d ∈ js_set (map fst (scam_hits norm find_scam)) <-> dimension_fires norm d.
Proof.
  rewrite elem_of_js_set, list_elem_of_In, in_map_iff. split.
  - intros ([d' spans] & <- & (terms & t & Hl & Ht & -> & Hn)%in_scam_hits). by exists terms, t.
  - intros (terms & t & Hl & Ht & Ho). exists (d, findTermSpans norm t "scam" false). split; [done|]. apply in_scam_hits. by exists terms, t.
Qed.
Lemma two_distinct {A} `{EqDecision A} (l : list A) : NoDup l -> ((2 <= length l)%nat <-> exists a b, a ∈ l /\ b ∈ l /\ a <> b).
Proof.
  intros Hn. destruct l as [|a [|b r]]; simpl.
  - split; [lia|]. intros (a & _ & Ha & _). by apply not_elem_of_nil in Ha.
  - split; [lia|]. intros (x & y & Hx & Hy & Hne). apply list_elem_of_singleton in Hx, Hy. congruence.
  - split; [|lia]. intros _. exists a, b. apply NoDup_cons in Hn as [Ha _].
    split; [constructor|split; [do 2 constructor|]]. intros ->. apply Ha. constructor.
Qed.
Lemma filter_pos {A} (p : A -> bool) l : ((1 <= length (List.filter p l))%nat <-> exists x, In x l /\ p x = true).
Proof.
  split.
  - destruct (List.filter p l) as [|x r] eqn:Hf; [simpl; lia|]. intros _. exists x. apply filter_In. rewrite Hf. by left.
  - intros (x & Hx). apply filter_In in Hx. destruct (List.filter p l); [done|simpl; lia].
Qed.
(** Context confirms without an accusatory term: two dimensions fire, one of them harmful. *)
Definition context_confirms (norm : string) : Prop :=
  (exists d d', dimension_fires norm d /\ dimension_fires norm d' /\ d <> d') /\ exists h, dimension_fires norm h /\ harm_bearing h = true.
Definition by_context (sc : ScamContextAssessment) : bool :=
  match sc_confirms sc, sc_reason sc with true, multi_dimension_with_harm => true | _, _ => false end.
Lemma verdict_by_context dims spans hit : NoDup dims ->
  (by_context (scam_verdict dims spans hit) = true <->
   hit = false /\ (exists d d', d ∈ dims /\ d' ∈ dims /\ d <> d') /\ exists h, In h dims /\ harm_bearing h = true).
Proof.
  intros Hnd. rewrite <- (two_distinct dims Hnd), <- filter_pos. unfold scam_verdict, by_context. destruct hit; [split; [done|by intros []]|].
  destruct (_ && _) eqn:Hb; cbn [sc_confirms sc_reason].
  - apply andb_true_iff in Hb as [?%Nat.leb_le ?%Nat.leb_le]. done.
  - split; [done|]. intros (_ & Ha%Nat.leb_le & Hc%Nat.leb_le). by rewrite Ha, Hc in Hb.
Qed.
Lemma verdict_spans dims spans hit : sc_spans (scam_verdict dims spans hit) = spans.
Proof. unfold scam_verdict. destruct hit; [done|]. by destruct (_ && _). Qed.

Lemma scam_context_steps norm a :
  let fired := by_context (assessScamContext norm (bool_decide (C_Scam ∈ as_categories a)) find_scam) in
  (fired = true <-> (C_Scam ∉ as_categories a) /\ context_confirms norm) /\
  (forall c, c ∈ as_categories (apply_scam_context norm a) <-> c ∈ as_categories a \/ c = C_Scam /\ fired = true) /\
  (forall s, In s (as_evidence (apply_scam_context norm a)) <-> In s (as_evidence a) \/ fired = true /\ In s (flat_map snd (scam_hits norm find_scam))).
Proof.
  intros fired. split; [|].
  - unfold fired, assessScamContext. rewrite verdict_by_context by apply NoDup_js_set. rewrite bool_decide_eq_false. unfold context_confirms.
    setoid_rewrite <- list_elem_of_In. by setoid_rewrite context_dimensions.
  - unfold apply_scam_context. change (fun n t c => findTermSpans n t c false) with find_scam. unfold fired, by_context.
    set (sc := assessScamContext _ _ _). assert (Hs : sc_spans sc = flat_map snd (scam_hits norm find_scam)) by apply verdict_spans.
    destruct (sc_confirms sc), (sc_reason sc); cbn [as_categories as_evidence]; (split; [intros c; rewrite ?elem_of_set_add|intros s; rewrite ?in_app_iff, ?Hs]); intuition congruence.
Qed.

(** * The engine's promises *)

Lemma brand_rules_categories ms a c :
  c ∈ as_categories (fold_left apply_brand_rule ms a) <->
  c ∈ as_categories a \/ exists m, In m ms /\ (RULE_CATEGORY_EFFECT (mr_category m)).1 = Some c.
Proof.
  revert a. induction ms as [|m ms IH]; intros a; cbn [fold_left].
  - split; [auto|by intros [?|(? & [] & _)]].
  - rewrite IH. unfold apply_brand_rule at 1. destruct (RULE_CATEGORY_EFFECT (mr_category m)) as [[c'|] w] eqn:He; cbn [as_categories].
    + rewrite elem_of_set_add. split.
      * intros [[?| ->]|(m' & ? & ?)]; [by left|right; exists m; rewrite He; simpl; auto|right; exists m'; simpl; auto].
      * intros [?|(m' & [<-|?] & Hm)]; [auto|left; right; rewrite He in Hm; simpl in Hm; congruence|right; by exists m'].
    + split.
      * intros [?|(m' & ? & ?)]; [by left|right; exists m'; simpl; auto].
      * intros [?|(m' & [<-|?] & Hm)]; [auto|by rewrite He in Hm|right; by exists m'].
Qed.
Lemma brand_rules_evidence ms a : as_evidence (fold_left apply_brand_rule ms a) = as_evidence a.
Proof. revert a. induction ms as [|m ms IH]; intros a; [done|]. cbn [fold_left]. rewrite IH. unfold apply_brand_rule. by destruct (RULE_CATEGORY_EFFECT _). Qed.
Lemma rating_categories r a c : c ∈ as_categories (apply_rating r a) -> c ∈ as_categories a \/ c = C_Complaint.
Proof. unfold apply_rating. destruct r as [q|]; [|auto]. destruct (Qle_bool q 2); [|auto]. cbn [as_categories]. by rewrite elem_of_set_add. Qed.
Lemma rating_keeps r a c : c ∈ as_categories a -> c ∈ as_categories (apply_rating r a).
Proof. unfold apply_rating. destruct r as [q|]; [|auto]. destruct (Qle_bool q 2); [|auto]. cbn [as_categories]. rewrite elem_of_set_add. auto. Qed.
Lemma rating_evidence r a : as_evidence (apply_rating r a) = as_evidence a.
Proof. unfold apply_rating. destruct r as [q|]; [|done]. by destruct (Qle_bool q 2). Qed.

(** Every term of every lexicon begins with a letter. *)
Lemma lexicon_word_starts : forallb (fun '(_, _, terms, _) => forallb word_start terms) LEXICON = true.
Proof. vm_compute. reflexivity. Qed.
Lemma context_word_starts : forallb (fun '(_, terms) => forallb word_start terms) SCAM_CONTEXT_LEXICON = true.
Proof. vm_compute. reflexivity. Qed.
Lemma lexicon_term_starts row t : In row LEXICON -> In t row.1.2 -> word_start t = true.
Proof.
  intros Hr Ht. pose proof (proj1 (forallb_forall _ _) lexicon_word_starts row Hr) as H.
  destruct row as [[[c w] terms] st]. by apply (proj1 (forallb_forall _ _) H).
Qed.
Lemma context_term_starts d terms t : In (d, terms) SCAM_CONTEXT_LEXICON -> In t terms -> word_start t = true.
Proof.
  intros Hr Ht. pose proof (proj1 (forallb_forall _ _) context_word_starts _ Hr) as H. by apply (proj1 (forallb_forall _ _) H).
Qed.
Lemma category_named (c : RiskCategory) : nonempty (js_name c) = true.
Proof. by destruct c. Qed.

Lemma assess_categories norm c :
  c ∈ as_categories (assess_text norm) <-> (exists row, In row LEXICON /\ c = row.1.1.1 /\ fires norm row) \/ c = C_Scam /\ context_confirms norm.
Proof.
  unfold assess_text. set (a := fold_left _ _ _).
  assert (Ha : forall c, c ∈ as_categories a <-> exists row, In row LEXICON /\ c = row.1.1.1 /\ fires norm row).
  { intros c'. unfold a. rewrite lexicon_categories. split; [|auto]. intros [H|?]; [by apply not_elem_of_nil in H|done]. }
  destruct (scam_context_steps norm a) as (Hf & Hc & _). rewrite Hc, <- Ha, Hf. split; [tauto|].
  intros [?|[-> Hx]]; [auto|]. destruct (decide (C_Scam ∈ as_categories a)); auto.
Qed.
Lemma assess_evidence norm s : In s (as_evidence (assess_text norm)) ->
  validateEvidenceSpan norm (span_value s) = true /\ exists c, c ∈ as_categories (assess_text norm) /\ js_name c = sp_category s.
Proof.
  unfold assess_text. set (a := fold_left _ _ _). destruct (scam_context_steps norm a) as (Hf & Hc & Hs). rewrite Hs. clear Hs.
  intros [H|[Hfired H]].
  - unfold a in H. apply lexicon_evidence in H as [[]|(row & t & Hrow & Ht & Hin)].
    destruct (found_span_valid _ _ _ _ _ (lexicon_term_starts _ _ Hrow Ht) (category_named _) Hin) as [Hv Hcat]. split; [done|].
    exists row.1.1.1. split; [|done]. apply Hc. left. unfold a. apply lexicon_categories. right. exists row. split; [done|split; [done|]].
    exists t. split; [done|]. unfold occurs. by intros E; rewrite E in Hin.
  - apply in_flat_map in H as ([d spans] & (terms & t & Hl & Ht & -> & _)%in_scam_hits & Hin).
    destruct (found_span_valid _ _ "scam" _ _ (context_term_starts _ _ _ Hl Ht) eq_refl Hin) as [Hv Hcat]. split; [done|].
    exists C_Scam. split; [|done]. apply Hc. by right.
Qed.
(** Conversely, whatever the text alone is accused of has a span that validates. *)
Lemma assess_backed norm c : c ∈ as_categories (assess_text norm) ->
  exists s, In s (as_evidence (assess_text norm)) /\ sp_category s = js_name c.
Proof.
  unfold assess_text. set (a := fold_left _ _ _). destruct (scam_context_steps norm a) as (Hf & Hc & Hs). rewrite Hc.
  intros [H|[-> Hfired]].
  - unfold a in H. apply lexicon_categories in H as [H|(row & Hrow & -> & t & Ht & Ho)]; [by apply not_elem_of_nil in H|].
    destruct (findTermSpans norm t (js_name row.1.1.1) row.2) as [|s r] eqn:Hsp; [done|].
    assert (Hin : In s (findTermSpans norm t (js_name row.1.1.1) row.2)) by (rewrite Hsp; by left). exists s. split.
    + apply Hs. left. unfold a. apply lexicon_evidence. right. by exists row, t.
    + by destruct (found_span_valid _ _ _ _ _ (lexicon_term_starts _ _ Hrow Ht) (category_named _) Hin).
  - destruct (proj1 Hf Hfired) as [_ [_ (h & (terms & t & Hl & Ht & Ho) & _)]].
    destruct (findTermSpans norm t "scam" false) as [|s r] eqn:Hsp; [done|].
    assert (Hin : In s (findTermSpans norm t "scam" false)) by (rewrite Hsp; by left). exists s. split.
    + apply Hs. right. split; [done|]. apply in_flat_map. exists (h, findTermSpans norm t "scam" false). split; [|done].
      apply in_scam_hits. exists terms, t. split; [done|split; [done|split; [done|by rewrite Hsp]]].
    + by destruct (found_span_valid _ _ "scam" _ _ (context_term_starts _ _ _ Hl Ht) eq_refl Hin).
Qed.

Section Promises.
Context (detectLanguage : string -> LanguageDetection) (input : ClassificationInput).
Local Abbreviation result := (classify detectLanguage input).
Local Abbreviation norm := (normalize (in_text input)).

Lemma result_evidence : re_evidence result = as_evidence (assess_text norm).
Proof. unfold classify. cbv zeta. cbn [re_evidence]. by rewrite brand_rules_evidence, rating_evidence. Qed.
Lemma result_categories c :
  (c ∈ as_categories (assess_text norm) -> c ∈ re_categories result) /\
  (c ∈ re_categories result -> c ∈ as_categories (assess_text norm) \/ c = C_Complaint \/ c = C_Positive \/ c = C_Neutral \/
     exists m, In m (re_matchedRules result) /\ (RULE_CATEGORY_EFFECT (mr_category m)).1 = Some c).
Proof.
  unfold classify. cbv zeta. cbn [re_categories re_matchedRules]. set (ms := matchBrandRules _ _). set (t := assess_text _). set (a := fold_left _ _ _).
  assert (Ha : c ∈ as_categories t -> c ∈ as_categories a) by (intros H; unfold a; apply brand_rules_categories; left; by apply rating_keeps).
  assert (Hb : c ∈ as_categories a -> c ∈ as_categories t \/ c = C_Complaint \/ exists m, In m ms /\ (RULE_CATEGORY_EFFECT (mr_category m)).1 = Some c).
  { unfold a. rewrite brand_rules_categories. intros [H|H]; [apply rating_categories in H as [?|?]; auto|auto]. }
  destruct (as_categories a) as [|x r].
  - split; [intros H; by apply not_elem_of_nil in Ha|]. intros H%list_elem_of_singleton. subst c. destruct (decide _); auto.
  - split; [done|]. intros H. destruct (Hb H) as [?|[?|?]]; auto 6.
Qed.
End Promises.

(** accusations rest on the text: every span of evidence the engine emits validates
    against the very text it analyzed and belongs to a category it assigned; and every
    evidence-gated category it assigns has such a span, except profanity asserted by a brand's
    own list of blocked words. *)
Theorem accusations_rest_on_text (detectLanguage : string -> LanguageDetection) (input : ClassificationInput) :
  let r := classify detectLanguage input in
  (forall s, In s (re_evidence r) -> validateEvidenceSpan (re_analyzedText r) (span_value s) = true /\ In (sp_category s) (map js_name (re_categories r))) /\
  (forall c, c ∈ re_categories r -> gated (js_name c) = true ->
     validEvidenceForCategory (re_analyzedText r) (Some (re_evidence r)) (js_name c) <> [] \/
     c = C_Profanity /\ exists m, In m (re_matchedRules r) /\ mr_category m = BlockedWords).
Proof.
  intros r. change (re_analyzedText r) with (normalize (in_text input)). unfold r. rewrite result_evidence. split.
  - intros s Hs. destruct (assess_evidence _ _ Hs) as (Hv & c & Hc & <-). split; [done|]. apply in_map, list_elem_of_In. by apply result_categories.
  - intros c Hc Hg. apply result_categories in Hc as [Hc|[ -> |[ -> |[ -> |(m & Hm & He)]]]]; try done.
    + left. destruct (assess_backed _ _ Hc) as (s & Hs & Hcat). destruct (assess_evidence _ _ Hs) as [Hv _].
      assert (Hin : In s (validEvidenceForCategory (normalize (in_text input)) (Some (as_evidence (assess_text (normalize (in_text input))))) (js_name c))).
      { unfold validEvidenceForCategory. apply filter_In. split; [done|]. by rewrite Hcat, String.eqb_refl, Hv. }
      intros E. by rewrite E in Hin.
    + right. destruct (mr_category m) eqn:Hmc; simpl in He; try done; injection He as <-; try done. split; [done|]. by exists m.
Qed.

(** fraud is found exactly as the context model says: whatever the rating and the brand's
    rules, scam is assigned when and only when an accusatory term occurs, or wording of two
    distinct dimensions occurs of which one is harm-bearing; ambient wording alone never suffices. *)
Theorem scam_exact (detectLanguage : string -> LanguageDetection) (input : ClassificationInput) :
  let norm := normalize (in_text input) in
  C_Scam ∈ re_categories (classify detectLanguage input) <->
  (exists row, In row LEXICON /\ row.1.1.1 = C_Scam /\ fires norm row) \/ context_confirms norm.
Proof.
  intros norm. assert (Ht : C_Scam ∈ as_categories (assess_text norm) <->
    (exists row, In row LEXICON /\ row.1.1.1 = C_Scam /\ fires norm row) \/ context_confirms norm).
  { rewrite assess_categories. split; (intros [(row & ? & ? & ?)|H]; [left; by exists row|right; tauto]). }
  rewrite <- Ht. split; [|apply result_categories].
  intros Hc. apply result_categories in Hc as [?|[?|[?|[?|(m & _ & He)]]]]; try done. by destruct (mr_category m).
Qed.

(** * Bounds *)

Lemma q_ltb_lt a b : q_ltb a b = true <-> (a < b)%Q.
Proof.
  unfold q_ltb. rewrite negb_true_iff, <- not_true_iff_false, Qle_bool_iff. split; [apply Qnot_le_lt|apply Qlt_not_le].
Qed.
Lemma q_ltb_false a b : q_ltb a b = false <-> (b <= a)%Q.
Proof. unfold q_ltb. by rewrite negb_false_iff, Qle_bool_iff. Qed.
Lemma q_max_cases a b : q_max a b = a \/ q_max a b = b.
Proof. unfold q_max. destruct (q_ltb a b); auto. Qed.
Lemma q_min_bounds a b lo : (lo <= a)%Q -> (lo <= b)%Q -> (lo <= q_min a b)%Q /\ (q_min a b <= a)%Q.
Proof. intros Ha Hb. unfold q_min. destruct (q_ltb b a) eqn:H; [apply q_ltb_lt in H|apply q_ltb_false in H]; split; lra. Qed.
(** The weights of the rules. *)
Definition unit_score (q : Q) : Prop := (0 <= q)%Q /\ (q <= 92 # 100)%Q.
Lemma unit_max a b : unit_score a -> unit_score b -> unit_score (q_max a b).
Proof. intros ? ?. by destruct (q_max_cases a b) as [-> | ->]. Qed.
Lemma lexicon_weights row : In row LEXICON -> unit_score row.1.1.2.
Proof.
  intros Hin. assert (H : forallb (fun row : RiskCategory * Q * list string * bool => Qle_bool 0 row.1.1.2 && Qle_bool row.1.1.2 (92 # 100)) LEXICON = true)
    by (vm_compute; reflexivity).
  apply (proj1 (forallb_forall _ _) H) in Hin. apply andb_true_iff in Hin as [?%Qle_bool_iff ?%Qle_bool_iff]. done.
Qed.
Lemma lexicon_score norm rows a : (forall row, In row rows -> unit_score row.1.1.2) -> unit_score (as_score a) ->
  unit_score (as_score (fold_left (apply_lexicon_row norm) rows a)).
Proof.
  revert a. induction rows as [|row rows IH]; intros a Hr Ha; [done|]. cbn [fold_left]. apply IH; [intros r Hin; apply Hr; by right|].
  specialize (Hr row (or_introl eq_refl)). destruct row as [[[c w] terms] st]. cbn [apply_lexicon_row as_score fst snd] in *.
  destruct (negb _); [by apply unit_max|done].
Qed.
Ltac weight := split; unfold Qle; simpl; lia.
Lemma assess_score norm : unit_score (as_score (assess_text norm)).
Proof.
  assert (H : unit_score (as_score (fold_left (apply_lexicon_row norm) LEXICON blank))) by (apply lexicon_score; [apply lexicon_weights|weight]).
  unfold assess_text, apply_scam_context. set (sc := assessScamContext _ _ _).
  destruct (sc_confirms sc), (sc_reason sc); try done. apply unit_max; [done|weight].
Qed.
Lemma brand_rules_score ms a : unit_score (as_score a) -> unit_score (as_score (fold_left apply_brand_rule ms a)).
Proof.
  revert a. induction ms as [|m ms IH]; intros a Ha; [done|]. cbn [fold_left]. apply IH. unfold apply_brand_rule.
  destruct (mr_category m); cbn [RULE_CATEGORY_EFFECT as_score]; (apply unit_max; [done|weight]).
Qed.
Lemma rating_score r a : unit_score (as_score a) -> unit_score (as_score (apply_rating r a)).
Proof. intros Ha. unfold apply_rating. destruct r as [q|]; [|done]. destruct (Qle_bool q 2); [|done]. apply unit_max; [done|weight]. Qed.
Lemma confidence_range score (det : bool) : unit_score score ->
  let lo : Q := (if det then 75 # 100 else 30 # 100)%Q in let hi : Q := (if det then 90 # 100 else 60 # 100)%Q in
  (lo <= confidenceFor score det)%Q /\ (confidenceFor score det <= hi)%Q.
Proof.
  intros [Hl Hh]. unfold confidenceFor. destruct det; cbv zeta.
  - destruct (q_min_bounds (9 # 10) ((75 # 100) + score * (15 # 100)) (75 # 100)); [lra|lra|]. split; lra.
  - destruct (q_min_bounds (6 # 10) ((3 # 10) + score * (3 # 10)) (30 # 100)); [lra|lra|]. split; lra.
Qed.
Lemma round2_range n (a b : Z) : (a # 100 <= n)%Q -> (n <= b # 100)%Q -> (a # 100 <= round2 n)%Q /\ (round2 n <= b # 100)%Q.
Proof.
  intros Ha Hb. unfold round2.
  assert (Hf : forall z, Qfloor (inject_Z z + (1 # 2)) = z).
  { intros z. unfold Qfloor, inject_Z. simpl. symmetry. apply (Z.div_unique _ _ _ 1); lia. }
  assert (Hs : forall z, ((z # 100) * 100 == inject_Z z)%Q) by (intros z; unfold Qeq; simpl; lia).
  assert (Hm : forall x y, (x <= y)%Q -> (x * 100 + (1 # 2) <= y * 100 + (1 # 2))%Q) by (intros x y Hxy; lra).
  assert (H1 : a <= Qfloor (n * 100 + (1 # 2))).
  { rewrite <- (Hf a). apply Qfloor_resp_le. rewrite <- Hs. by apply Hm. }
  assert (H2 : Qfloor (n * 100 + (1 # 2)) <= b).
  { rewrite <- (Hf b). apply Qfloor_resp_le. rewrite <- Hs. by apply Hm. }
  unfold Qle; cbn [Qnum Qden]; split; lia.
Qed.

(** the bounds of the engine's confidence: with a match of a lexicon, of the context or of a
    brand's rule it lies in [0.75, 0.90], without one in [0.30, 0.60]; so a guess never passes
    for a match, and the engine is never certain. *)
Theorem confidence_separates (detectLanguage : string -> LanguageDetection) (input : ClassificationInput) :
  let r := classify detectLanguage input in
  let matched := as_deterministic (assess_text (normalize (in_text input))) || negb (length (re_matchedRules r) =? 0)%nat in
  if matched then (75 # 100 <= re_confidence r)%Q /\ (re_confidence r <= 90 # 100)%Q
  else (30 # 100 <= re_confidence r)%Q /\ (re_confidence r <= 60 # 100)%Q.
Proof.
  intros r matched. unfold matched, r, classify. cbv zeta. cbn [re_confidence re_matchedRules].
  set (ms := matchBrandRules _ _). set (t := assess_text _). set (a := fold_left _ _ _).
  assert (Hs : unit_score (as_score a)) by (apply brand_rules_score, rating_score, assess_score).
  assert (Hd : forall ms a, as_deterministic (fold_left apply_brand_rule ms a) = as_deterministic a || negb (length ms =? 0)%nat).
  { clear. induction ms as [|m ms IH]; intros a; cbn [fold_left]; [by rewrite orb_false_r|]. rewrite IH. unfold apply_brand_rule.
    destruct (RULE_CATEGORY_EFFECT _). simpl. by rewrite orb_true_r. }
  assert (Hr : as_deterministic (apply_rating (in_rating input) t) = as_deterministic t).
  { unfold apply_rating. destruct (in_rating input); [|done]. by destruct (Qle_bool _ _). }
  rewrite <- Hr, <- (Hd ms). fold a. destruct (confidence_range (as_score a) (as_deterministic a) Hs) as [Hlo Hhi].
  destruct (as_deterministic a); by apply round2_range.
Qed.

(** * What masking does *)

(** A text of [n] stars. *)
Fixpoint stars (n : nat) : string := match n with O => "" | S m => String "*" (stars m) end.
Lemma stars_match n term i : (i + String.length term <= n)%nat -> tokenMatchesAt (stars n) term i = true.
Proof.
  revert i. induction term as [|t r IH]; intros i H; [done|]. simpl in *.
  assert (Hg : forall n i, (i < n)%nat -> String.get i (stars n) = Some "*"%char) by (clear; induction n as [|n IH]; intros [|i] H; simpl; try lia; [done|apply IH; lia]).
  rewrite Hg by lia. rewrite orb_true_r. apply IH. lia.
Qed.
Lemma stars_length n : String.length (stars n) = n.
Proof. induction n as [|n IH]; simpl; auto. Qed.
Lemma stars_run n : word_run (stars n) = n.
Proof. induction n as [|n IH]; simpl; [done|]. by rewrite IH. Qed.
Lemma substring_all s : String.substring 0 (String.length s) s = s.
Proof. induction s as [|c s IH]; simpl; [done|]. by rewrite IH. Qed.
Lemma drop_all s : str_drop (String.length s) s = "".
Proof. by induction s. Qed.
Lemma stars_slice n : slice (stars n) 0 n = stars n.
Proof. unfold slice. rewrite Nat.sub_0_r. rewrite <- (stars_length n) at 1. apply substring_all. Qed.
Lemma stars_drop n : str_drop n (stars n) = "".
Proof. rewrite <- (stars_length n) at 1. apply drop_all. Qed.
Lemma stars_safe n : includes SAFE_WORDS (stars n) = false.
Proof. by destruct n. Qed.
(** A row of asterisks as long as a term of the lexicon, such as a star rating, is taken for that
    term masked: it is evidence, and validates as such. *)
Theorem stars_match_any_term (term category : string) (stem : bool) :
  word_start term = true -> multi_word term = false -> nonempty category = true ->
  let text := stars (String.length term) in
  findTermSpans text term category stem =
    [{| sp_category := category; sp_term := term; sp_start := 0; sp_end := Z.of_nat (String.length term); sp_text := text |}] /\
  Forall (fun s => validateEvidenceSpan text (span_value s) = true) (findTermSpans text term category stem).
Proof.
  intros Hw Hm Hc text. pose proof (word_start_nonempty term Hw) as Hn.
  assert (He : findTermSpans text term category stem =
    [{| sp_category := category; sp_term := term; sp_start := 0; sp_end := Z.of_nat (String.length term); sp_text := text |}]).
  { unfold findTermSpans. rewrite Hn. unfold text. rewrite stars_length, Nat.sub_diag, Nat.ltb_irrefl.
    replace (nonempty (stars (String.length term))) with true by (by destruct term). cbn [negb orb seq]. cbn [omap list_omap].
    unfold span_at. rewrite stars_match by lia. cbn [negb char_before isWordChar]. rewrite Hm. cbn [str_drop]. rewrite stars_run, Nat.add_0_l.
    rewrite stars_slice, stars_drop, stars_safe. by destruct stem. }
  split; [done|]. apply Forall_forall. intros s Hs%list_elem_of_In. by apply (found_span_valid _ _ _ _ _ Hw Hc Hs).
Qed.

(** A five-star rating is critical profanity, harassment, hate speech and fraud. *)
Theorem star_rating_is_critical (detectLanguage : string -> LanguageDetection) :
  let r := classify detectLanguage {| in_text := "Best shop, I give it *****"; in_rating := Some 5%Q; in_rules := None |} in
  re_level r = Access.RiskCritical /\ re_categories r = [C_Profanity; C_Harassment; C_HateSpeech; C_Scam; C_Complaint] /\
  In "fraud" (re_matchedTerms r).
Proof. vm_compute. split; [reflexivity|split; [reflexivity|]]. repeat first [left; reflexivity|right]. Qed.

(** * The shape of a normalized text *)

(** White space is one space, and a word character follows it. *)
Fixpoint spaced (last_ok : bool) (s : string) : bool :=
  match s with
  | EmptyString => true
  | String c r =>
      (if is_ws c then Ascii.eqb c " " && match r with String d _ => isWordChar (Some d) | EmptyString => last_ok end else isWordChar (Some c)) &&
      spaced last_ok r
  end.
Definition starts_word (s : string) : bool := match s with String c _ => isWordChar (Some c) | EmptyString => true end.
Lemma by_bits (P : ascii -> bool) : forallb P (map ascii_of_nat (seq 0 256)) = true -> forall c, P c = true.
Proof.
  intros H c. rewrite <- (ascii_nat_embedding c). apply (proj1 (forallb_forall _ _) H). apply in_map, in_seq.
  pose proof (nat_ascii_bounded c). lia.
Qed.
(** The characters a normalized text is made of: every stage keeps them. *)
Definition clean (c : ascii) : bool := isWordChar (Some c) && Ascii.eqb (leet c) c.
Definition stages (c : ascii) : ascii := keep_or_space (leet (base_letter (lower_ascii c))).
Lemma staged c : clean (stages c) || is_ws (stages c) = true.
Proof. revert c. apply by_bits. vm_compute. reflexivity. Qed.
Lemma stages_clean c : clean c || Ascii.eqb c " " = true -> stages c = c.
Proof.
  intros H. assert (Hall : negb (clean c || Ascii.eqb c " ") || Ascii.eqb (stages c) c = true) by (revert c H; intros c _; revert c; apply by_bits; vm_compute; reflexivity).
  rewrite H in Hall. by apply Ascii.eqb_eq.
Qed.
Lemma word_not_ws c : isWordChar (Some c) = true -> is_ws c = false.
Proof.
  intros H. assert (Hall : negb (isWordChar (Some c)) || negb (is_ws c) = true) by (clear H; revert c; apply by_bits; vm_compute; reflexivity).
  rewrite H in Hall. by apply negb_true_iff.
Qed.
Lemma str_map_map f g s : str_map f (str_map g s) = str_map (fun c => f (g c)) s.
Proof. induction s as [|c s IH]; simpl; [done|]. by rewrite IH. Qed.
Lemma normalize_stages t : normalize t = trim (collapse_ws false (str_map stages t)).
Proof. unfold normalize, toLowerCase. by rewrite !str_map_map. Qed.

Definition staged_char (c : ascii) : bool := clean c || is_ws c.
Lemma collapse_spaced s after : str_forallb staged_char s = true ->
  spaced true (collapse_ws after s) = true /\ str_forallb (fun c => clean c || Ascii.eqb c " ") (collapse_ws after s) = true /\
  (after = true -> starts_word (collapse_ws after s) = true).
Proof.
  revert after. induction s as [|c s IH]; intros after H; [done|]. cbn [str_forallb] in H. apply andb_true_iff in H as [Hc H].
  cbn [collapse_ws]. destruct (is_ws c) eqn:Hw.
  - destruct after; [apply IH; done|]. destruct (IH true H) as (H1 & H2 & H3). specialize (H3 eq_refl).
    cbn [spaced str_forallb]. rewrite H1, H2. change (is_ws " ") with true. cbn iota. rewrite Ascii.eqb_refl, orb_true_r. split; [|done].
    destruct (collapse_ws true s) as [|d r]; [done|]. cbn [starts_word] in H3. by rewrite H3.
  - unfold staged_char in Hc. rewrite Hw, orb_false_r in Hc. destruct (IH false H) as (H1 & H2 & _). cbn [spaced str_forallb starts_word].
    rewrite Hw, H1, H2, Hc. apply andb_true_iff in Hc as [Hc _]. rewrite Hc. done.
Qed.
Lemma trimStart_spaced s p : spaced true s = true -> str_forallb p s = true ->
  spaced true (trimStart s) = true /\ str_forallb p (trimStart s) = true /\ starts_word (trimStart s) = true.
Proof.
  induction s as [|c s IH]; intros H Hp; [done|]. cbn [spaced str_forallb] in H, Hp. apply andb_true_iff in H as [Hc H], Hp as [Hpc Hp].
  cbn [trimStart]. destruct (is_ws c) eqn:Hw; [by apply IH|]. cbn [spaced str_forallb starts_word]. by rewrite Hw, Hc, H, Hpc, Hp.
Qed.
Lemma trimEnd_head c s : trimEnd (String c s) = "" \/ exists r, trimEnd (String c s) = String c r.
Proof. cbn [trimEnd]. destruct (trimEnd s) as [|d r]; [destruct (is_ws c); eauto|eauto]. Qed.
Lemma trimEnd_spaced s p : spaced true s = true -> str_forallb p s = true -> spaced false (trimEnd s) = true /\ str_forallb p (trimEnd s) = true.
Proof.
  induction s as [|c s IH]; intros H Hp; [done|]. cbn [spaced str_forallb] in H, Hp. apply andb_true_iff in H as [Hc H], Hp as [Hpc Hp].
  destruct (IH H Hp) as [H1 H2]. cbn [trimEnd]. destruct (trimEnd s) as [|d r] eqn:Ht.
  - destruct (is_ws c) eqn:Hw; [done|]. cbn [spaced str_forallb]. by rewrite Hw, Hc, Hpc.
  - cbn [spaced str_forallb] in *. rewrite H1, H2, Hpc, !andb_true_r. split; [|done]. destruct (is_ws c); [|done].
    destruct s as [|d' s']; [done|]. destruct (trimEnd_head d' s') as [E|[r' E]]; rewrite E in Ht; [done|]. by injection Ht as -> ->.
Qed.
Lemma trimEnd_starts s : starts_word s = true -> starts_word (trimEnd s) = true.
Proof. destruct s as [|c s]; [done|]. destruct (trimEnd_head c s) as [-> |[r ->]]; done. Qed.
(** A normalized text: words of clean characters separated by single spaces. *)
Definition normal (s : string) : Prop :=
  spaced false s = true /\ str_forallb (fun c => clean c || Ascii.eqb c " ") s = true /\ starts_word s = true.
Lemma normalize_normal t : normal (normalize t).
Proof.
  rewrite normalize_stages. unfold trim.
  assert (Hs : str_forallb staged_char (str_map stages t) = true) by (induction t as [|c t IH]; [done|]; cbn [str_map str_forallb]; by rewrite IH, (staged c : staged_char _ = true)).
  destruct (collapse_spaced _ false Hs) as (H1 & H2 & _). destruct (trimStart_spaced _ _ H1 H2) as (H3 & H4 & H5).
  destruct (trimEnd_spaced _ _ H3 H4) as [H6 H7]. split; [done|split; [done|by apply trimEnd_starts]].
Qed.
Lemma normal_trimEnd s : spaced false s = true -> trimEnd s = s.
Proof.
  induction s as [|c s IH]; intros H; [done|]. cbn [spaced] in H. apply andb_true_iff in H as [Hc H]. cbn [trimEnd]. rewrite (IH H).
  destruct s as [|d s]; [|done]. destruct (is_ws c); [|done]. by rewrite andb_false_r in Hc.
Qed.
Lemma normal_collapse s after : spaced false s = true -> (after = true -> starts_word s = true) -> collapse_ws after s = s.
Proof.
  revert after. induction s as [|c s IH]; intros after H Ha; [done|]. cbn [spaced] in H. apply andb_true_iff in H as [Hc H].
  cbn [collapse_ws]. destruct (is_ws c) eqn:Hw.
  - apply andb_true_iff in Hc as [Hc Hs]. apply Ascii.eqb_eq in Hc as ->. destruct after; [by specialize (Ha eq_refl)|].
    f_equal. apply IH; [done|]. intros _. by destruct s.
  - f_equal. by apply IH.
Qed.

(** normalization is a projection: a normalized text is left as it is, so spans computed
    against it stay valid however often it is normalized again. *)
Theorem normalize_idempotent (t : string) : normalize (normalize t) = normalize t.
Proof.
  destruct (normalize_normal t) as (Hs & Hc & Hw). set (u := normalize t) in *. rewrite normalize_stages.
  replace (str_map stages u) with u.
  - rewrite normal_collapse by done. unfold trim. replace (trimStart u) with u; [by apply normal_trimEnd|].
    destruct u as [|c u]; [done|]. cbn [trimStart starts_word] in *. by rewrite (word_not_ws c Hw).
  - clear Hs Hw. induction u as [|c u IH]; [done|]. cbn [str_forallb] in Hc. apply andb_true_iff in Hc as [Hc Hu]. cbn [str_map].
    by rewrite stages_clean, <- IH.
Qed.

Lemma spaced_next s j : spaced false s = true -> String.get j s = Some " "%char -> isWordChar (String.get (S j) s) = true.
Proof.
  revert j. induction s as [|c s IH]; intros j H Hg; [done|]. cbn [spaced] in H. apply andb_true_iff in H as [Hc H].
  destruct j as [|j]; simpl in Hg.
  - injection Hg as ->. simpl in Hc. by destruct s.
  - apply IH; done.
Qed.
(** One insult of the lexicon ends in a space. It is matched as a phrase that must end at a
    boundary, and in a normalized text a space never does: the plain word is never found. *)
Theorem trailing_space_never_found (t category : string) (stem : bool) (s : EvidenceSpan) :
  In s (findTermSpans (normalize t) "vul " category stem) -> sp_text s <> "vul ".
Proof.
  intros Hin Htx. destruct (findTermSpans_inv _ "vul " _ _ _ eq_refl Hin) as (i & Hi).
  unfold span_at in Hi. destruct (negb _); [done|]. destruct (isWordChar (char_before _ _)); [done|].
  change (multi_word "vul ") with true in Hi. cbn iota in Hi. change (String.length "vul ") with 4%nat in Hi.
  destruct (isWordChar (String.get (i + 4) _)) eqn:Hend; [done|]. injection Hi as <-. cbn [sp_text] in Htx.
  destruct (normalize_normal t) as [Hs _]. assert (Hg : String.get (3 + i) (normalize t) = Some " "%char).
  { rewrite <- (substring_correct1 (normalize t) i 4 3) by lia. unfold slice in Htx. replace (i + 4 - i)%nat with 4%nat in Htx by lia. by rewrite Htx. }
  apply (spaced_next _ _ Hs) in Hg. replace (S (3 + i)) with (i + 4)%nat in Hg by lia. congruence.
Qed.
Lemma trailing_space_never_found_witness : exists s, In s (findTermSpans (normalize "ty vul*") "vul " "harassment" false) /\ sp_text s <> "vul ".
Proof.
  exists {| sp_category := "harassment"; sp_term := "vul "; sp_start := 3; sp_end := 7; sp_text := "vul*" |}.
  assert (H : In {| sp_category := "harassment"; sp_term := "vul "; sp_start := 3; sp_end := 7; sp_text := "vul*" |} (findTermSpans (normalize "ty vul*") "vul " "harassment" false))
    by (vm_compute; left; reflexivity).
  split; [exact H|]. exact (trailing_space_never_found "ty vul*" "harassment" false _ H).
Defined.
Lemma stars_match_any_term_witness : In "fraud" (map sp_term (findTermSpans (stars 5) "fraud" "scam" false)).
Proof.
  pose proof (stars_match_any_term "fraud" "scam" false eq_refl eq_refl eq_refl) as H. cbv zeta in H.
  change (String.length "fraud") with 5%nat in H. destruct H as [H _]. rewrite H. left. reflexivity.
Defined.

End RiskRules.
