(* ===== verification/HybridPipeline.v ===== *)
(** The classification of a comment ([packages/ai/src/brand-memory.ts, pipeline.ts]): the rule
    engine, a brand's memory on top of it, the optional answer of a model, the evidence gate over
    both, and the record kept of it; composed with what a customer is then shown. *)
From S2P Require Import Prelude JsValue Outbox Access Evidence RiskRules.
From Stdlib Require Import QArith Qround Lqa.
Open Scope string_scope.
Open Scope list_scope.
Open Scope Z_scope.
Open Scope tam_scope.
Import Access JsValue Evidence RiskRules.

Module HybridPipeline.

(** * Brand memory *)

(* src: packages/ai/src/brand-memory.ts:9-15 BrandMemoryRule *)
Record BrandMemoryRule := { bm_type : string; bm_normalizedPhrase : string; bm_severity : string; bm_isActive : bool }.
Inductive MemoryEffect := Raise | Lower | Signal | Blocked_by_floor.
(* src: packages/ai/src/brand-memory.ts:17-21 BrandMemoryMatch *)
Record BrandMemoryMatch := { ma_type : string; ma_phrase : string; ma_effect : MemoryEffect }.
(* src: packages/ai/src/brand-memory.ts:23-28 BrandMemoryResult *)
Record BrandMemoryResult := { me_level : string; me_categories : list string; me_riskSignals : list string; me_matches : list BrandMemoryMatch }.
(* src: packages/ai/src/brand-memory.ts:33-33 levelFromRank *)
Definition levelFromRank (r : Z) : string := nth (Z.to_nat (Z.max 0 (Z.min 4 r))) RISK_ORDER "none".
(* src: packages/ai/src/brand-memory.ts:34-35 severityLevel *)
Definition severityLevel (s : string) : string := if includes ["low"; "medium"; "high"; "critical"] s then s else "medium".
(* src: packages/ai/src/brand-memory.ts:37-37 PROTECTED_SIGNALS *)
Definition PROTECTED_SIGNALS : list string := ["scam"; "legal_threat"; "harassment"; "hate_speech"].
(* src: packages/ai/src/brand-memory.ts:58-60 applyBrandMemory *)
Definition protectedFloor (level : string) (riskSignals : list string) : bool :=
  existsb (includes PROTECTED_SIGNALS) riskSignals || (includes riskSignals "profanity" && (level =s "critical")).
(* src: packages/ai/src/brand-memory.ts:62-112 applyBrandMemory *)
Definition memory_step (norm : string) (floor : bool) (m : BrandMemoryResult) (r : BrandMemoryRule) : BrandMemoryResult :=
  if negb (bm_isActive r) then m
  else if negb (nonempty (bm_normalizedPhrase r)) || negb (containsFuzzy norm (bm_normalizedPhrase r)) then m
  else
    let to level categories signals effect :=
      {| me_level := level; me_categories := categories; me_riskSignals := signals;
         me_matches := me_matches m ++ [{| ma_type := bm_type r; ma_phrase := bm_normalizedPhrase r; ma_effect := effect |}] |} in
    let raised least := levelFromRank (Z.max (Z.max (rank (me_level m)) least) (rank (severityLevel (bm_severity r)))) in
    if bm_type r =s "block_phrase" then to (raised (rank "high")) (me_categories m) (set_add (me_riskSignals m) "brand_blocked") Raise
    else if bm_type r =s "watch_phrase" then to (raised (rank "medium")) (me_categories m) (set_add (me_riskSignals m) "brand_watch") Raise
    else if bm_type r =s "increase_risk_pattern" then to (raised 0) (me_categories m) (set_add (me_riskSignals m) "brand_increase") Raise
    else if bm_type r =s "crisis_phrase" then
      to (levelFromRank (Z.max (rank (me_level m)) (rank "high"))) (set_add (me_categories m) "brand_attack") (set_add (me_riskSignals m) "crisis") Raise
    else if bm_type r =s "competitor_phrase" then to (me_level m) (set_add (me_categories m) "competitor") (set_add (me_riskSignals m) "competitor") Signal
    else if bm_type r =s "allow_phrase" then
      if floor then to (me_level m) (me_categories m) (me_riskSignals m) Blocked_by_floor
      else to "none" (me_categories m) (set_add (me_riskSignals m) "brand_allow") Lower
    else if bm_type r =s "reduce_risk_pattern" then
      if floor then to (me_level m) (me_categories m) (me_riskSignals m) Blocked_by_floor
      else to (levelFromRank (Z.max 0 (rank (me_level m) - 2))) (me_categories m) (set_add (me_riskSignals m) "brand_reduce") Lower
    else m.
(* src: packages/ai/src/brand-memory.ts:44-115 applyBrandMemory *)
Definition applyBrandMemory (text level : string) (categories riskSignals : list string) (rules : list BrandMemoryRule) : BrandMemoryResult :=
  fold_left (memory_step (normalize text) (protectedFloor level riskSignals)) rules
    {| me_level := level; me_categories := js_set categories; me_riskSignals := js_set riskSignals; me_matches := [] |}.

(** * Providers *)

(* src: packages/ai/src/providers.ts:23-32 TranslationOutput *)
Record TranslationOutput := { tr_translatedText : option string; tr_provider : string; tr_status : string; tr_errorCode : option string; tr_latencyMs : Z }.
(* src: packages/ai/src/providers.ts:94-94 AiRiskCallStatus *)
Inductive AiRiskCallStatus := Ai_classified | Ai_skipped | Ai_unavailable | Ai_failed.
#[export] Instance AiRiskCallStatus_dec : EqDecision AiRiskCallStatus.
Proof. solve_decision. Defined.
#[export] Program Instance AiRiskCallStatus_enum : JsEnum AiRiskCallStatus := {|
  js_name x := match x with Ai_classified => "classified" | Ai_skipped => "skipped" | Ai_unavailable => "unavailable" | Ai_failed => "failed" end;
  js_values := [Ai_classified; Ai_skipped; Ai_unavailable; Ai_failed] |}.
Solve All Obligations with solve_js_enum.
(* src: packages/ai/src/providers.ts:84-92 AiRiskInput *)
Record AiRiskInput := { ai_originalText : string; ai_translatedText : option string; ai_detectedLanguage : string; ai_brandContext : option string;
  ai_existingRuleSignals : list string }.
(* src: packages/ai/src/providers.ts:96-112 AiRiskOutput *)
Record AiRiskOutput := { ao_riskLevel : string; ao_sentiment : string; ao_categories : list string; ao_confidence : Q; ao_shortReason : string;
  ao_recommendedReviewAction : RecommendedReviewAction; ao_provider : string; ao_status : AiRiskCallStatus; ao_errorCode : option string;
  ao_latencyMs : Z; ao_usage : option (Z * Z) }.
(* src: packages/ai/src/pipeline.ts:36-54 HybridConfig *)
Record HybridConfig := { hc_workspaceLocale : string; hc_translationEnabled : bool; hc_translationProvider : string; hc_targetEn : bool;
  hc_aiEnabled : bool; hc_aiProvider : string; hc_minConfidence : Q; hc_callMode : option string; hc_brandContext : option string;
  hc_memoryRules : option (list BrandMemoryRule) }.

(** * The record that is kept *)

(* src: packages/ai/src/pipeline.ts:57-63 ProviderCallRecord *)
Record ProviderCallRecord := { ca_type : string; ca_provider : string; ca_status : string; ca_latencyMs : Z; ca_errorCode : option string }.
(* src: packages/ai/src/pipeline.ts:66-70 RiskSnapshot *)
Record RiskSnapshot := { sn_level : string; sn_confidence : Q; sn_categories : list string }.
(* src: packages/ai/src/pipeline.ts:77-100 AiDiagnostics *)
Record AiDiagnostics := { dg_callMode : string; dg_aiCalled : bool; dg_gateReason : string; dg_rules : RiskSnapshot; dg_aiStatus : AiRiskCallStatus;
  dg_aiErrorCode : option string; dg_aiVerdict : option RiskSnapshot; dg_merged : RiskSnapshot; dg_decisions : list CategoryDecision;
  dg_proposed : string; dg_applied : string; dg_capped : bool; dg_severityReason : severity_reason }.
(* src: packages/ai/src/pipeline.ts:120-174 HybridResult *)
Record HybridResult := { hr_level : string; hr_categories : list string; hr_confidence : Q; hr_requiresReview : bool;
  hr_confirmedCategories : list string; hr_reviewCategories : list string; hr_rejectedCategories : list string;
  hr_evidence : list EvidenceSpan; hr_analyzedText : string; hr_sentiment : string; hr_language : LanguageDetection; hr_approvalRequired : bool;
  hr_matchedTerms : list string; hr_matchedRules : list string; hr_riskSignals : list string; hr_recommended : RecommendedReviewAction;
  hr_shortReason : string; hr_translationStatus : string; hr_translationProvider : string; hr_translatedText : option string;
  hr_translatedToLocale : option string; hr_aiAssisted : bool; hr_aiProvider : string; hr_aiProviderStatus : AiRiskCallStatus;
  hr_aiUsage : option (Z * Z); hr_memoryMatched : list BrandMemoryMatch; hr_providerCalls : list ProviderCallRecord;
  hr_diagnostics : AiDiagnostics }.

(* src: packages/ai/src/pipeline.ts:179-196 shouldCallAi *)
Definition shouldCallAi (r : ClassificationResult) (confidence : Q) (level : string) (minConfidence : Q) : bool :=
  (la_language (re_language r) =s "unknown") || la_isMixed (re_language r) || q_ltb confidence minConfidence ||
  (rank "high" <=? rank level) || existsb (includes ["scam"; "legal_threat"; "harassment"; "hate_speech"]) (re_riskSignals r) ||
  negb (length (re_matchedRules r) =? 0)%nat.

(** What the merge hands to the evidence gate. *)
Record merged := { mg_level : string; mg_proposed : string; mg_confidence : Q; mg_categories : list string; mg_aiCategories : list string;
  mg_parserOk : bool; mg_recommended : RecommendedReviewAction; mg_sentiment : string; mg_reason : string }.
(* src: packages/ai/src/pipeline.ts:295-313 classifyHybrid *)
Definition merge_ai (m : merged) (out : AiRiskOutput) : merged :=
  match ao_status out with
  | Ai_classified =>
      {| mg_level := mg_level m; mg_proposed := ao_riskLevel out; mg_confidence := q_max (mg_confidence m) (ao_confidence out);
         mg_categories := if (length (ao_categories out) =? 0)%nat then mg_categories m else js_set (mg_categories m ++ ao_categories out);
         mg_aiCategories := ao_categories out; mg_parserOk := true;
         mg_recommended := match ao_recommendedReviewAction out with Act_none => mg_recommended m | a => a end;
         mg_sentiment := if nonempty (ao_sentiment out) then ao_sentiment out else mg_sentiment m; mg_reason := ao_shortReason out |}
  | _ => {| mg_level := mg_level m; mg_proposed := mg_proposed m; mg_confidence := mg_confidence m; mg_categories := mg_categories m;
            mg_aiCategories := mg_aiCategories m; mg_parserOk := false; mg_recommended := mg_recommended m; mg_sentiment := mg_sentiment m;
            mg_reason := mg_reason m |}
  end.
(* src: packages/ai/src/pipeline.ts:321-330 classifyHybrid *)
Definition gate_decisions (analyzedText : string) (evidence : list EvidenceSpan) (ruleCategories : list string) (m : merged) : list CategoryDecision :=
  map (fun category => decideCategory
    {| di_category := category; di_validEvidenceCount := Z.of_nat (length (validEvidenceForCategory analyzedText (Some evidence) category));
       di_rulesAgree := includes ruleCategories category; di_aiClaimed := includes (mg_aiCategories m) category;
       di_confidence := mg_confidence m; di_parserOk := mg_parserOk m |}) (mg_categories m).
Definition with_verdict (v : CategoryVerdict) (ds : list CategoryDecision) : list string :=
  map de_category (List.filter (fun d => de_verdict d =e v) ds).

Section Pipeline.
(** The language detector, the translator and the model: the last two answer over the network. *)
Context (detectLanguage : string -> LanguageDetection) (translate : string -> string -> string -> string -> TranslationOutput)
  (aiClassify : string -> AiRiskInput -> AiRiskOutput).

(* src: packages/ai/src/pipeline.ts:219-242 classifyHybrid *)
Definition translation_of (cfg : HybridConfig) (text language : string) : string * string * option string * option string * list ProviderCallRecord :=
  let targetLocale := if hc_targetEn cfg then "en" else hc_workspaceLocale cfg in
  let sameLanguage := negb (language =s "unknown") && (String.substring 0 2 language =s String.substring 0 2 targetLocale) in
  if sameLanguage then ("not_needed", "none", None, None, [])
  else if hc_translationEnabled cfg && negb (hc_translationProvider cfg =s "none") then
    let out := translate (hc_translationProvider cfg) text language targetLocale in
    (tr_status out, tr_provider out, tr_translatedText out, Some targetLocale,
     [{| ca_type := "translation"; ca_provider := tr_provider out; ca_status := tr_status out; ca_latencyMs := tr_latencyMs out; ca_errorCode := tr_errorCode out |}])
  else ("unavailable", "none", None, Some targetLocale, []).

(** The rules' verdict and the brand's memory, before any model is asked. *)
Definition rules_of (input : ClassificationInput) : ClassificationResult := classify detectLanguage input.
Definition memory_of (input : ClassificationInput) (cfg : HybridConfig) : BrandMemoryResult :=
  let rules := rules_of input in
  applyBrandMemory (in_text input) (js_name (re_level rules)) (map js_name (re_categories rules)) (re_riskSignals rules) (hc_memoryRules cfg ?? []).
Definition rules_merged (input : ClassificationInput) (cfg : HybridConfig) : merged :=
  let rules := rules_of input in let memory := memory_of input cfg in
  {| mg_level := me_level memory; mg_proposed := me_level memory; mg_confidence := re_confidence rules; mg_categories := me_categories memory;
     mg_aiCategories := []; mg_parserOk := true; mg_recommended := re_action rules; mg_sentiment := js_name (re_sentiment rules); mg_reason := "" |}.

(* src: packages/ai/src/pipeline.ts:264-273 classifyHybrid *)
Definition model_called (input : ClassificationInput) (cfg : HybridConfig) : bool :=
  let base := rules_merged input cfg in
  hc_aiEnabled cfg && negb (hc_aiProvider cfg =s "none") &&
  (((hc_callMode cfg ?? "value_gated") =s "all") || shouldCallAi (rules_of input) (mg_confidence base) (mg_level base) (hc_minConfidence cfg)).
(* src: packages/ai/src/pipeline.ts:280-290 classifyHybrid *)
Definition model_answer (input : ClassificationInput) (cfg : HybridConfig) : option AiRiskOutput :=
  let language := la_language (re_language (rules_of input)) in
  let '(_, _, translatedText, _, _) := translation_of cfg (in_text input) language in
  if model_called input cfg then Some (aiClassify (hc_aiProvider cfg)
    {| ai_originalText := in_text input; ai_translatedText := translatedText; ai_detectedLanguage := language;
       ai_brandContext := hc_brandContext cfg; ai_existingRuleSignals := me_riskSignals (memory_of input cfg) |}) else None.
Definition merged_of (input : ClassificationInput) (cfg : HybridConfig) : merged :=
  match model_answer input cfg with Some o => merge_ai (rules_merged input cfg) o | None => rules_merged input cfg end.
Definition decisions_of (input : ClassificationInput) (cfg : HybridConfig) : list CategoryDecision :=
  gate_decisions (re_analyzedText (rules_of input)) (re_evidence (rules_of input)) (me_categories (memory_of input cfg)) (merged_of input cfg).

(* src: packages/ai/src/pipeline.ts:198-398 classifyHybrid *)
Definition classifyHybrid (input : ClassificationInput) (cfg : HybridConfig) : HybridResult :=
  let rules := rules_of input in
  let memory := memory_of input cfg in
  let '(translationStatus, translationProvider, translatedText, translatedToLocale, translationCalls) :=
    translation_of cfg (in_text input) (la_language (re_language rules)) in
  let base := rules_merged input cfg in
  let rulesSnapshot := {| sn_level := mg_level base; sn_confidence := round2 (mg_confidence base); sn_categories := mg_categories base |} in
  let callMode := hc_callMode cfg ?? "value_gated" in
  let called := model_called input cfg in
  let gateReason := if negb (hc_aiEnabled cfg) then "ai_disabled" else if hc_aiProvider cfg =s "none" then "no_provider"
    else if callMode =s "all" then "all_mode"
    else if shouldCallAi rules (mg_confidence base) (mg_level base) (hc_minConfidence cfg) then "value_added" else "gate_not_fired" in
  let out := model_answer input cfg in
  let m := merged_of input cfg in
  let classified := match out with Some o => ao_status o =e Ai_classified | None => false end in
  let decisions := decisions_of input cfg in
  let '(level, capped, severityReason) := severityForVerdicts (mg_level m) (mg_proposed m) decisions in
  let confirmed := with_verdict V_confirmed decisions in
  let review := with_verdict V_review_required decisions in
  let categories := match confirmed with [] => [if includes (sn_categories rulesSnapshot) "positive" then "positive" else "neutral"] | cs => cs end in
  let requiresReview := negb (length review =? 0)%nat in
  {| hr_level := level; hr_categories := categories; hr_confidence := round2 (mg_confidence m); hr_requiresReview := requiresReview;
     hr_confirmedCategories := confirmed; hr_reviewCategories := review; hr_rejectedCategories := with_verdict V_rejected decisions;
     hr_evidence := re_evidence rules; hr_analyzedText := re_analyzedText rules; hr_sentiment := mg_sentiment m; hr_language := re_language rules;
     hr_approvalRequired := (rank "high" <=? rank (mg_level base)) || (rank "high" <=? rank level) || requiresReview;
     hr_matchedTerms := re_matchedTerms rules; hr_matchedRules := map mr_phrase (re_matchedRules rules); hr_riskSignals := me_riskSignals memory;
     hr_recommended := match mg_recommended m with Act_none => if requiresReview then Act_review else Act_none | a => a end;
     hr_shortReason := mg_reason m; hr_translationStatus := translationStatus; hr_translationProvider := translationProvider;
     hr_translatedText := translatedText; hr_translatedToLocale := translatedToLocale; hr_aiAssisted := classified;
     hr_aiProvider := match out with Some o => ao_provider o | None => "none" end;
     hr_aiProviderStatus := match out with Some o => ao_status o | None => Ai_skipped end;
     hr_aiUsage := match out with Some o => if classified then ao_usage o else None | None => None end;
     hr_memoryMatched := me_matches memory;
     hr_providerCalls := translationCalls ++ match out with Some o =>
       [{| ca_type := "ai_risk"; ca_provider := ao_provider o; ca_status := js_name (ao_status o); ca_latencyMs := ao_latencyMs o; ca_errorCode := ao_errorCode o |}]
       | None => [] end;
     hr_diagnostics := {| dg_callMode := callMode; dg_aiCalled := called; dg_gateReason := gateReason; dg_rules := rulesSnapshot;
       dg_aiStatus := match out with Some o => ao_status o | None => Ai_skipped end;
       dg_aiErrorCode := match out with Some o => ao_errorCode o | None => None end;
       dg_aiVerdict := match out with Some o => if classified then Some {| sn_level := ao_riskLevel o; sn_confidence := round2 (ao_confidence o);
         sn_categories := ao_categories o |} else None | None => None end;
       dg_merged := {| sn_level := level; sn_confidence := round2 (mg_confidence m); sn_categories := categories |}; dg_decisions := decisions;
       dg_proposed := mg_proposed m; dg_applied := level; dg_capped := capped; dg_severityReason := severityReason |} |}.
End Pipeline.

Definition decision_value (x : CategoryDecision) : raw_value :=
  VObject [("category", VString (de_category x)); ("verdict", VString (js_name (de_verdict x))); ("reason", VString (de_reason x))].
(** The part of the persisted JSON the readers look at. *)
(* src: packages/ai/src/pipeline.ts:384-396 classifyHybrid *)
Definition diagnostics_value (d : AiDiagnostics) : raw_value :=
  VObject [("evidenceGate", VObject [("decisions", VArray (map decision_value (dg_decisions d)))])].

(** * The text's accusations pass the gate *)

Lemma q_max_le a b : (a <= q_max a b)%Q /\ (b <= q_max a b)%Q.
Proof. unfold q_max. destruct (q_ltb a b) eqn:H; [apply q_ltb_lt in H|apply q_ltb_false in H]; split; lra. Qed.
(** At least the score of the weakest accusation. *)
Definition accuses (a : assessment) : Prop := (75 # 100 <= as_score a)%Q /\ as_deterministic a = true.
Lemma row_accuses norm a row : accuses a \/ ((75 # 100 <= row.1.1.2)%Q /\ fires norm row) -> accuses (apply_lexicon_row norm a row).
Proof.
  destruct row as [[[category weight] terms] stem]. unfold accuses. cbn [apply_lexicon_row as_score as_deterministic fst snd].
  set (hits := List.filter _ _). assert (Hf : fires norm (category, weight, terms, stem) -> negb (length hits =? 0)%nat = true).
  { intros (t & Ht & Hne). apply length_pos_b. intros E. cbn [fst snd] in *.
    assert (Hin : In (t, findTermSpans norm t (js_name category) stem) hits) by (by apply row_hits). by rewrite E in Hin. }
  destruct (q_max_le (as_score a) weight). intros [[Hs Hd]|[Hw Hfire]].
  - rewrite Hd. destruct (negb _); split; (done || lra).
  - rewrite (Hf Hfire), orb_true_r. split; [lra|done].
Qed.
Lemma lexicon_accuses norm rows a :
  accuses a \/ (exists row, In row rows /\ (75 # 100 <= row.1.1.2)%Q /\ fires norm row) -> accuses (fold_left (apply_lexicon_row norm) rows a).
Proof.
  revert a. induction rows as [|row rows IH]; intros a H; cbn [fold_left]; [by destruct H as [|(? & [] & _)]|].
  apply IH. destruct H as [H|(r & [<-|Hin] & Hw & Hf)]; [left; apply row_accuses; by left|left; apply row_accuses; by right|right; by exists r].
Qed.
Lemma gated_weights row : In row LEXICON -> gated (js_name row.1.1.1) = true -> (75 # 100 <= row.1.1.2)%Q.
Proof.
  intros Hin Hg. assert (H : forallb (fun row : RiskCategory * Q * list string * bool => negb (gated (js_name row.1.1.1)) || Qle_bool (75 # 100) row.1.1.2) LEXICON = true)
    by (vm_compute; reflexivity).
  apply (proj1 (forallb_forall _ _) H) in Hin. rewrite Hg in Hin. by apply Qle_bool_iff.
Qed.
Lemma context_accuses norm a :
  accuses a \/ by_context (assessScamContext norm (bool_decide (C_Scam ∈ as_categories a)) find_scam) = true -> accuses (apply_scam_context norm a).
Proof.
  unfold apply_scam_context, by_context. change (fun n t c => findTermSpans n t c false) with find_scam.
  generalize (assessScamContext norm (bool_decide (C_Scam ∈ as_categories a)) find_scam). intros sc.
  destruct (q_max_le (as_score a) (9 # 10)) as [Hl Hr]. intros H.
  assert (Hup : accuses {| as_categories := set_add (as_categories a) C_Scam; as_terms := fold_left set_add (map sp_term (sc_spans sc)) (as_terms a);
    as_score := q_max (as_score a) (9 # 10); as_deterministic := true; as_evidence := as_evidence a ++ sc_spans sc |})
    by (split; cbn [as_score as_deterministic]; [lra|reflexivity]).
  destruct (sc_confirms sc), (sc_reason sc), H as [H|H]; first [exact Hup|exact H|discriminate H].
Qed.
Lemma text_accuses norm c : c ∈ as_categories (assess_text norm) -> gated (js_name c) = true -> accuses (assess_text norm).
Proof.
  unfold assess_text. intros Hc Hg. apply context_accuses. destruct (scam_context_steps norm (fold_left (apply_lexicon_row norm) LEXICON blank)) as (_ & Hcats & _).
  apply Hcats in Hc as [Hc|[_ Hf]]; [left|right; exact Hf].
  apply lexicon_accuses. apply lexicon_categories in Hc as [Hn|(row & Hin & -> & Hf)]; [by apply not_elem_of_nil in Hn|].
  right. exists row. split; [exact Hin|]. split; [by apply gated_weights|exact Hf].
Qed.
Lemma brand_rules_accuse ms a : accuses a -> accuses (fold_left apply_brand_rule ms a).
Proof.
  revert a. induction ms as [|m ms IH]; intros a [Hs Hd]; [done|]. cbn [fold_left]. apply IH. unfold apply_brand_rule.
  destruct (RULE_CATEGORY_EFFECT (mr_category m)) as [c w]. destruct (q_max_le (as_score a) w). split; [cbn [as_score]; lra|done].
Qed.
Lemma rating_accuses r a : accuses a -> accuses (apply_rating r a).
Proof.
  intros [Hs Hd]. unfold apply_rating. destruct r as [q|]; [|done]. destruct (Qle_bool q 2); [|done].
  destruct (q_max_le (as_score a) (45 # 100)). split; [cbn [as_score]; lra|done].
Qed.
(** The confidence of a text that accuses clears every category's threshold. *)
Lemma accused_confidence detectLanguage input c :
  c ∈ as_categories (assess_text (normalize (in_text input))) -> gated (js_name c) = true ->
  (85 # 100 <= re_confidence (classify detectLanguage input))%Q.
Proof.
  intros Hc Hg. unfold classify. cbv zeta. cbn [re_confidence]. set (a := fold_left _ _ _).
  assert (Ha : accuses a) by (unfold a; apply brand_rules_accuse, rating_accuses; by apply (text_accuses _ c)).
  clearbody a. destruct Ha as [Hs Hd]. rewrite Hd. unfold confidenceFor.
  destruct (q_min_bounds (9 # 10) ((75 # 100) + as_score a * (15 # 100)) (85 # 100)) as [Hlo Hhi]; [lra|lra|].
  apply (round2_range _ 85 90); lra.
Qed.
Lemma gated_threshold (c : RiskCategory) : gated (js_name c) = true ->
  exists t, categoryThreshold (js_name c) = NFin t /\ (t <= 85 # 100)%Q.
Proof. destruct c; try done; intros _; eexists; (split; [reflexivity|]); unfold Qle; simpl; lia. Qed.

(** * What the gate decides *)

(** The lexicons are never evaluated on an unknown text. *)
#[local] Opaque assess_text findTermSpans.

Lemma elem_of_map {A B} (f : A -> B) (l : list A) y : y ∈ map f l <-> exists x, y = f x /\ x ∈ l.
Proof. rewrite list_elem_of_In, in_map_iff. split; intros (x & H1 & H2); exists x; (split; [by symmetry|by apply list_elem_of_In]). Qed.

Section Gate.
Context (detectLanguage : string -> LanguageDetection) (translate : string -> string -> string -> string -> TranslationOutput)
  (aiClassify : string -> AiRiskInput -> AiRiskOutput) (input : ClassificationInput) (cfg : HybridConfig).
Local Abbreviation hybrid := (classifyHybrid detectLanguage translate aiClassify input cfg).
Local Abbreviation memory := (memory_of detectLanguage input cfg).
Local Abbreviation answer := (merged_of detectLanguage translate aiClassify input cfg).
Local Abbreviation decisions := (decisions_of detectLanguage translate aiClassify input cfg).
(** What the text itself is accused of. *)
Definition text_categories : list string := map js_name (as_categories (assess_text (normalize (in_text input)))).

Lemma hybrid_view : dg_decisions (hr_diagnostics hybrid) = decisions /\
  hr_level hybrid = (severityForVerdicts (mg_level answer) (mg_proposed answer) decisions).1.1 /\
  hr_confirmedCategories hybrid = with_verdict V_confirmed decisions /\ hr_reviewCategories hybrid = with_verdict V_review_required decisions /\
  hr_requiresReview hybrid = negb (length (with_verdict V_review_required decisions) =? 0)%nat.
Proof. unfold classifyHybrid. destruct (translation_of _ _ _ _) as [[[[? ?] ?] ?] ?]. destruct (severityForVerdicts _ _ _) as [[? ?] ?]. repeat split. Qed.
Lemma hybrid_rules : hr_evidence hybrid = as_evidence (assess_text (normalize (in_text input))) /\ hr_analyzedText hybrid = normalize (in_text input).
Proof.
  rewrite <- (result_evidence detectLanguage input). unfold classifyHybrid.
  destruct (translation_of _ _ _ _) as [[[[? ?] ?] ?] ?]. destruct (severityForVerdicts _ _ _) as [[? ?] ?]. split; reflexivity.
Qed.
Lemma hybrid_categories : hr_categories hybrid = match with_verdict V_confirmed decisions with
  [] => [if includes (me_categories memory) "positive" then "positive" else "neutral"] | cs => cs end.
Proof. unfold classifyHybrid. destruct (translation_of _ _ _ _) as [[[[? ?] ?] ?] ?]. destruct (severityForVerdicts _ _ _) as [[? ?] ?]. cbn [hr_categories]. by destruct (with_verdict V_confirmed decisions). Qed.

Lemma memory_categories_step norm floor m r k : k ∈ me_categories (memory_step norm floor m r) ->
  k ∈ me_categories m \/ k = "brand_attack" \/ k = "competitor".
Proof.
  unfold memory_step. repeat match goal with |- context [if ?b then _ else _] => destruct b end; cbn [me_categories]; rewrite ?elem_of_set_add; tauto.
Qed.
Lemma memory_categories_keep norm floor m r k : k ∈ me_categories m -> k ∈ me_categories (memory_step norm floor m r).
Proof.
  unfold memory_step. repeat match goal with |- context [if ?b then _ else _] => destruct b end; cbn [me_categories]; rewrite ?elem_of_set_add; tauto.
Qed.
Lemma memory_categories k :
  (k ∈ map js_name (re_categories (rules_of detectLanguage input)) -> k ∈ me_categories memory) /\
  (k ∈ me_categories memory -> k ∈ map js_name (re_categories (rules_of detectLanguage input)) \/ k = "brand_attack" \/ k = "competitor").
Proof.
  unfold memory_of, applyBrandMemory.
  assert (H : forall rules m, (k ∈ me_categories m -> k ∈ me_categories (fold_left (memory_step (normalize (in_text input))
      (protectedFloor (js_name (re_level (rules_of detectLanguage input))) (re_riskSignals (rules_of detectLanguage input)))) rules m)) /\
    (k ∈ me_categories (fold_left (memory_step (normalize (in_text input))
      (protectedFloor (js_name (re_level (rules_of detectLanguage input))) (re_riskSignals (rules_of detectLanguage input)))) rules m) ->
     k ∈ me_categories m \/ k = "brand_attack" \/ k = "competitor")).
  { induction rules as [|r rules IH]; intros m; cbn [fold_left]; [tauto|].
    destruct (IH (memory_step (normalize (in_text input)) (protectedFloor (js_name (re_level (rules_of detectLanguage input))) (re_riskSignals (rules_of detectLanguage input))) m r)) as [H1 H2].
    split; [intros Hk; apply H1; by apply memory_categories_keep|]. intros Hk. destruct (H2 Hk) as [Hm|Hm]; [by apply memory_categories_step in Hm|auto]. }
  match goal with |- context [fold_left _ ?rs ?m0] => destruct (H rs m0) as [H1 H2] end. cbn [me_categories] in H1, H2. rewrite elem_of_js_set in H1, H2. done.
Qed.
Lemma gated_named k : gated k = true -> k <> "brand_attack" /\ k <> "competitor" /\ k <> "complaint" /\ k <> "positive" /\ k <> "neutral".
Proof. intros Hg. repeat split; intros ->; discriminate Hg. Qed.
Lemma in_text_categories k : k ∈ text_categories <-> exists c, k = js_name c /\ c ∈ as_categories (assess_text (normalize (in_text input))).
Proof. unfold text_categories. apply elem_of_map. Qed.
Lemma text_in_memory k : k ∈ text_categories -> k ∈ me_categories memory.
Proof.
  intros (c & -> & Hc)%in_text_categories. destruct (memory_categories (js_name c)) as [H _]. apply H, elem_of_map. exists c.
  split; [done|]. unfold rules_of. destruct (result_categories detectLanguage input c) as [Hr _]. exact (Hr Hc).
Qed.
Lemma memory_gated k : k ∈ me_categories memory -> gated k = true -> k ∈ text_categories \/ k = "profanity" /\
  exists m, In m (re_matchedRules (rules_of detectLanguage input)) /\ mr_category m = BlockedWords.
Proof.
  intros Hk Hg. destruct (gated_named k Hg) as (H1 & H2 & H3 & H4 & H5). destruct (memory_categories k) as [_ Hmem].
  destruct (Hmem Hk) as [Hk'|[?|?]]; [|done..]. clear Hk Hmem. rename Hk' into Hk.
  apply elem_of_map in Hk as (c & -> & Hc).
  destruct (result_categories detectLanguage input c) as [_ Hr].
  destruct (Hr Hc) as [Ht|[ -> |[ -> |[ -> |(m & Hm & He)]]]]; [left; apply in_text_categories; by exists c|by destruct H3|by destruct H4|by destruct H5|].
  destruct (mr_category m) eqn:Hmc; simpl in He; try discriminate He; injection He as <-; try discriminate Hg. right. split; [done|]. by exists m.
Qed.

Lemma answer_categories k : (k ∈ me_categories memory -> k ∈ mg_categories answer) /\
  (k ∈ mg_categories answer -> k ∈ me_categories memory \/ k ∈ mg_aiCategories answer /\ mg_parserOk answer = true).
Proof.
  unfold merged_of. destruct (model_answer _ _ _ _ _) as [o|]; [|tauto]. unfold merge_ai.
  destruct (ao_status o); cbn [mg_categories mg_aiCategories mg_parserOk rules_merged]; try tauto.
  destruct (_ =? _)%nat; [tauto|]. rewrite elem_of_js_set, elem_of_app. cbn [rules_merged mg_categories]. tauto.
Qed.
Lemma answer_confidence : (re_confidence (rules_of detectLanguage input) <= mg_confidence answer)%Q.
Proof.
  unfold merged_of. destruct (model_answer _ _ _ _ _) as [o|]; [|unfold rules_merged; cbn [mg_confidence]; lra]. unfold merge_ai.
  destruct (ao_status o); unfold rules_merged; cbn [mg_confidence]; try lra. by destruct (q_max_le (re_confidence (rules_of detectLanguage input)) (ao_confidence o)).
Qed.
Lemma counted k : length (validEvidenceForCategory (re_analyzedText (rules_of detectLanguage input)) (Some (re_evidence (rules_of detectLanguage input))) k) <> 0%nat <-> k ∈ text_categories.
Proof.
  change (re_analyzedText (rules_of detectLanguage input)) with (normalize (in_text input)). unfold rules_of. rewrite result_evidence. unfold validEvidenceForCategory. cbn [nullish].
  set (evs := as_evidence _). set (p := fun s => _). split.
  - intros Hn. destruct (List.filter p evs) as [|s r] eqn:Hf; [done|]. assert (Hin : In s (List.filter p evs)) by (rewrite Hf; by left).
    apply filter_In in Hin as [Hin [Hk _]%andb_true_iff]. apply String.eqb_eq in Hk as <-. destruct (assess_evidence _ _ Hin) as (_ & c & Hc & Hcs).
    apply in_text_categories. exists c. split; [exact (eq_sym Hcs)|exact Hc].
  - intros (c & -> & Hc)%in_text_categories Hz. destruct (assess_backed _ _ Hc) as (s & Hs & Hcs). destruct (assess_evidence _ _ Hs) as [Hv _].
    assert (Hin : In s (List.filter p evs)) by (apply filter_In; split; [done|]; unfold p; by rewrite Hcs, String.eqb_refl, Hv).
    destruct (List.filter p evs); [destruct Hin|discriminate Hz].
Qed.

(** The verdict on a category of the merged assessment. *)
Definition verdict_of (k : string) : CategoryVerdict :=
  if negb (gated k) || bool_decide (k ∈ text_categories) then V_confirmed
  else if bool_decide (k ∈ me_categories memory) then V_rejected else V_review_required.
Lemma decision_verdict d : In d decisions -> de_category d ∈ mg_categories answer /\ de_verdict d = verdict_of (de_category d).
Proof.
  unfold decisions_of, gate_decisions. intros (k & <- & Hk)%in_map_iff. rewrite decide_category. cbn [di_category].
  split; [by apply list_elem_of_In|]. apply list_elem_of_In in Hk. unfold decideCategory, verdict_of.
  cbn [di_category di_validEvidenceCount di_rulesAgree di_aiClaimed di_confidence di_parserOk].
  destruct (gated k) eqn:Hg; [|done]. cbn [negb orb]. pose proof (counted k) as Hcount.
  set (n := length (validEvidenceForCategory _ _ _)) in *. case_bool_decide as Htext.
  - assert (Hrules : includes (me_categories memory) k = true) by (by apply includes_elem, text_in_memory). rewrite Hrules, andb_false_r.
    replace (Z.of_nat n =? 0) with false by (symmetry; apply Z.eqb_neq; apply Hcount in Htext; lia).
    apply in_text_categories in Htext as (c & -> & Hc). destruct (gated_threshold c Hg) as (t & -> & Ht). cbn [below].
    pose proof (accused_confidence detectLanguage input c Hc Hg). pose proof answer_confidence. unfold rules_of in *.
    replace (q_ltb _ t) with false by (symmetry; apply q_ltb_false; lra). done.
  - replace (Z.of_nat n) with 0 by (destruct (decide (n = 0%nat)); [lia|destruct Htext; by apply Hcount]). change (0 =? 0) with true. cbn iota.
    case_bool_decide as Hmem.
    + replace (includes (me_categories memory) k) with true by (symmetry; by apply includes_elem). by rewrite !andb_false_r.
    + replace (includes (me_categories memory) k) with false by (symmetry; apply not_true_iff_false; by rewrite includes_elem).
      destruct (proj2 (answer_categories k) Hk) as [?|[Hai Hok]]; [done|]. rewrite Hok. apply includes_elem in Hai. by rewrite Hai.
Qed.
End Gate.

(** C10 — the verdict on every category of the merged assessment, whatever the model answered: a
    descriptive category, and every accusation the text itself bears, is confirmed; an
    accusation of the rules that the text does not bear is rejected; one that only the model
    made is held for review. *)
Theorem evidence_gate_exact (detectLanguage : string -> LanguageDetection) (translate : string -> string -> string -> string -> TranslationOutput)
    (aiClassify : string -> AiRiskInput -> AiRiskOutput) (input : ClassificationInput) (cfg : HybridConfig) (d : CategoryDecision) :
  In d (dg_decisions (hr_diagnostics (classifyHybrid detectLanguage translate aiClassify input cfg))) ->
  let k := de_category d in
  de_verdict d =
    if negb (gated k) || bool_decide (k ∈ text_categories input) then V_confirmed
    else if bool_decide (k ∈ me_categories (memory_of detectLanguage input cfg)) then V_rejected else V_review_required.
Proof. intros Hd k. destruct (hybrid_view detectLanguage translate aiClassify input cfg) as [E _]. rewrite E in Hd. exact (proj2 (decision_verdict _ _ _ _ _ d Hd)). Qed.

(** Reading the record back. *)
Lemma field_here k v r : field ((k, v) :: r) k = v.
Proof. unfold field. simpl. by rewrite String.eqb_refl. Qed.
Lemma field_next k k' v r : k' <> k -> field ((k', v) :: r) k = field r k.
Proof. unfold field. simpl. intros H%String.eqb_neq. by rewrite H. Qed.

(** The row the ingestion stores for a fresh classification. *)
(* src: packages/sync/src/index.ts:857-868 ingestItem *)
Definition stored_classification (h : HybridResult) (autoProtect : string * string) : StoredClassificationRow :=
  {| sr_riskLevel := hr_level h; sr_riskCategories := Some (hr_categories h); sr_aiDiagnostics := diagnostics_value (hr_diagnostics h);
     sr_autoProtect := Some autoProtect |}.

Lemma in_decisions d x verdict : In x (dg_decisions d) -> nonempty (de_category x) = true -> js_name (de_verdict x) = verdict ->
  In (de_category x, verdict) (readEvidenceGateDecisions (diagnostics_value d)).
Proof.
  intros Hx Hn <-. unfold readEvidenceGateDecisions, diagnostics_value.
  rewrite !field_here. apply list_elem_of_In, list_elem_of_omap.
  exists (decision_value x). split; [by apply list_elem_of_In, in_map|]. unfold decision_value. rewrite field_here, field_next, field_here by done. rewrite Hn.
  by destruct (de_verdict x).
Qed.

Section Shown.
Context (detectLanguage : string -> LanguageDetection) (translate : string -> string -> string -> string -> TranslationOutput)
  (aiClassify : string -> AiRiskInput -> AiRiskOutput) (input : ClassificationInput) (cfg : HybridConfig).
Local Abbreviation hybrid := (classifyHybrid detectLanguage translate aiClassify input cfg).

Lemma shown_categories c : In c (hr_categories hybrid) -> gated c = true -> c ∈ text_categories input.
Proof.
  rewrite hybrid_categories. set (ds := decisions_of _ _ _ _ _). intros Hc Hg.
  assert (Hin : In c (with_verdict V_confirmed ds)).
  { destruct (with_verdict V_confirmed ds) as [|x r]; [|exact Hc]. destruct Hc as [<-|[]]. by destruct (includes _ _). }
  unfold with_verdict in Hin. apply in_map_iff in Hin as (d & <- & [Hd Hv]%filter_In). apply enum_eqb_eq in Hv.
  destruct (decision_verdict _ _ _ _ _ d Hd) as [_ He]. rewrite Hv in He. unfold verdict_of in He. rewrite Hg in He. cbn [negb orb] in He.
  case_bool_decide as Ht; [exact Ht|]. case_bool_decide; discriminate He.
Qed.
Lemma text_backed k : k ∈ text_categories input -> exists s, In s (hr_evidence hybrid) /\ sp_category s = k /\
  validateEvidenceSpan (normalize (in_text input)) (span_value s) = true.
Proof.
  intros (c & -> & Hc)%in_text_categories. destruct (assess_backed _ _ Hc) as (s & Hs & Hcat). destruct (assess_evidence _ _ Hs) as [Hv _].
  exists s. split; [|split; [exact Hcat|exact Hv]]. by rewrite (proj1 (hybrid_rules detectLanguage translate aiClassify input cfg)).
Qed.
End Shown.

(** C4 — no accusation without words: whatever the model answers, whatever the brand's memory
    and rules say and whatever protection was decided, an accusing category that a customer is
    shown for a freshly classified comment is borne by the comment: a span of its normalized
    text carries it and validates; and when the gate holds anything for review, nothing is shown. *)
Theorem no_accusation_without_words (detectLanguage : string -> LanguageDetection)
    (translate : string -> string -> string -> string -> TranslationOutput) (aiClassify : string -> AiRiskInput -> AiRiskOutput)
    (input : ClassificationInput) (cfg : HybridConfig) (autoProtect : string * string) :
  let h := classifyHybrid detectLanguage translate aiClassify input cfg in
  let shown := cp_categories (projectStoredClassification (stored_classification h autoProtect)) in
  (forall c, In c shown -> gated c = true -> exists s, In s (hr_evidence h) /\ sp_category s = c /\
     validateEvidenceSpan (normalize (in_text input)) (span_value s) = true) /\
  (forall d, In d (dg_decisions (hr_diagnostics h)) -> nonempty (de_category d) = true -> de_verdict d = V_review_required -> shown = []).
Proof.
  intros h shown. split.
  - intros c Hc Hg. destruct (shown_confirmed _ c Hc) as (_ & Hin & _). apply (text_backed detectLanguage translate aiClassify input cfg).
    exact (shown_categories _ _ _ _ _ c Hin Hg).
  - intros d Hd Hn Hv. destruct shown as [|c r] eqn:Hs; [reflexivity|]. exfalso.
    assert (Hc : In c (cp_categories (projectStoredClassification (stored_classification h autoProtect)))) by (fold shown; rewrite Hs; by left).
    destruct (shown_confirmed _ c Hc) as (_ & _ & _ & Hheld). apply not_true_iff_false in Hheld. apply Hheld. unfold held_for_review. apply existsb_exists.
    exists (de_category d, "review_required"). split; [|reflexivity].
    change (sr_aiDiagnostics (stored_classification h autoProtect)) with (diagnostics_value (hr_diagnostics h)). apply in_decisions; [exact Hd|exact Hn|]. by rewrite Hv.
Qed.

(** C13 — a model alone raises nothing: the level of a classification is never below the level
    of the rules and the brand's memory, it is exactly that level unless a model answered, and
    it is above it only when the text itself bears an accusation, and then it is what the model
    proposed. *)
Theorem model_raises_only_proven_harm (detectLanguage : string -> LanguageDetection)
    (translate : string -> string -> string -> string -> TranslationOutput) (aiClassify : string -> AiRiskInput -> AiRiskOutput)
    (input : ClassificationInput) (cfg : HybridConfig) :
  let h := classifyHybrid detectLanguage translate aiClassify input cfg in
  let base := me_level (memory_of detectLanguage input cfg) in
  rank base <= rank (hr_level h) /\
  (hr_aiAssisted h = false -> hr_level h = base) /\
  (rank base < rank (hr_level h) -> exists answer k, model_answer detectLanguage translate aiClassify input cfg = Some answer /\
     ao_status answer = Ai_classified /\ hr_level h = ao_riskLevel answer /\ k ∈ text_categories input /\ gated k = true).
Proof.
  intros h base. unfold h. destruct (hybrid_view detectLanguage translate aiClassify input cfg) as (_ & Hl & _). rewrite Hl. clear Hl.
  set (ds := decisions_of _ _ _ _ _). set (m := merged_of _ _ _ _ _).
  assert (Hm : mg_level m = base) by (unfold m, merged_of, merge_ai; destruct (model_answer _ _ _ _ _) as [o|]; [by destruct (ao_status o)|reflexivity]).
  rewrite Hm. split; [apply severity_floor|split].
  - intros Ha. assert (Hp : mg_proposed m = base).
    { unfold classifyHybrid in Ha. destruct (translation_of _ _ _ _) as [[[[? ?] ?] ?] ?]. destruct (severityForVerdicts _ _ _) as [[? ?] ?].
      cbn [hr_aiAssisted] in Ha. unfold m, merged_of, merge_ai. destruct (model_answer _ _ _ _ _) as [out|]; [|reflexivity].
      destruct (ao_status out); [discriminate Ha|reflexivity..]. }
    rewrite Hp. unfold severityForVerdicts. by rewrite Z.leb_refl.
  - intros Hr. destruct (severity_raised _ _ _ Hr) as (He & d & Hd & Hv & Hg). rewrite He in *. cbn [fst] in *.
    destruct (decision_verdict _ _ _ _ _ d Hd) as [_ Hver]. rewrite Hv in Hver. unfold verdict_of in Hver. rewrite Hg in Hver. cbn [negb orb] in Hver.
    assert (Ht : de_category d ∈ text_categories input) by (case_bool_decide as Ht; [exact Ht|case_bool_decide; discriminate Hver]).
    unfold m, merged_of, merge_ai in Hr |- *. destruct (model_answer _ _ _ _ _) as [o|]; [|unfold rules_merged in Hr; cbn [mg_proposed] in Hr; fold base in Hr; lia].
    exists o, (de_category d). destruct (ao_status o) eqn:Hs; [auto|unfold rules_merged in Hr; cbn [mg_proposed] in Hr; fold base in Hr; lia..].
Qed.

(** * The floor of a brand's memory *)

Lemma levelFromRank_rank r : 0 <= r -> r <= 4 -> rank (levelFromRank r) = r.
Proof. intros H1 H2. assert (r = 0 \/ r = 1 \/ r = 2 \/ r = 3 \/ r = 4) as [ -> |[ -> |[ -> |[ -> | -> ]]]] by lia; reflexivity. Qed.
Lemma rank_le_4 l : rank l <= 4.
Proof. unfold rank, RISK_ORDER, index_of. repeat (match goal with |- context [if ?b then _ else _] => destruct b end); lia. Qed.
Lemma memory_step_floor norm m r : rank (me_level m) <= rank (me_level (memory_step norm true m r)).
Proof.
  unfold memory_step. pose proof (rank_nonneg (me_level m)). pose proof (rank_le_4 (me_level m)). pose proof (rank_le_4 (severityLevel (bm_severity r))).
  repeat match goal with |- context [if ?b then _ else _] => destruct b end; cbn [me_level]; try lia;
    change (rank "high") with 3; change (rank "medium") with 2; rewrite levelFromRank_rank; lia.
Qed.
(** the safety floor of a brand's memory: when the rules found fraud, a legal threat,
    harassment, hate speech or critical profanity, no list of memory rules, in any order, lowers
    the level below what the rules found. *)
Theorem memory_respects_floor (text level : string) (categories riskSignals : list string) (rules : list BrandMemoryRule) :
  (exists k, In k riskSignals /\ In k PROTECTED_SIGNALS) \/ (In "profanity" riskSignals /\ level = "critical") ->
  rank level <= rank (me_level (applyBrandMemory text level categories riskSignals rules)).
Proof.
  intros H. unfold applyBrandMemory. assert (Hf : protectedFloor level riskSignals = true).
  { unfold protectedFloor. apply orb_true_iff. destruct H as [(k & Hk & Hp)|[Hp ->]].
    - left. apply existsb_exists. exists k. split; [done|]. by apply includes_In.
    - right. rewrite String.eqb_refl, andb_true_r. by apply includes_In. }
  rewrite Hf. generalize (normalize text) as norm. intros norm.
  assert (Hfold : forall rs m, rank (me_level m) <= rank (me_level (fold_left (memory_step norm true) rs m))).
  { induction rs as [|r rs IH]; intros m; cbn [fold_left]; [lia|]. specialize (IH (memory_step norm true m r)). pose proof (memory_step_floor norm m r). lia. }
  exact (Hfold rules {| me_level := level; me_categories := js_set categories; me_riskSignals := js_set riskSignals; me_matches := [] |}).
Qed.
Definition phrase (type text : string) : BrandMemoryRule :=
  {| bm_type := type; bm_normalizedPhrase := text; bm_severity := "high"; bm_isActive := true |}.
Lemma memory_respects_floor_witness :
  rank "critical" <= rank (me_level (applyBrandMemory "total scam, great shop" "critical" ["scam"] ["scam"] [phrase "allow_phrase" "great shop"])).
Proof. apply (memory_respects_floor "total scam, great shop" "critical" ["scam"] ["scam"] [phrase "allow_phrase" "great shop"]). left. exists "scam". split; left; reflexivity. Defined.

(** * Where the record and the code part *)

Definition english (_ : string) : LanguageDetection := {| la_language := "en"; la_confidence := 1; la_isMixed := false; la_source := "rules" |}.
Definition no_translation (provider _ _ _ : string) : TranslationOutput :=
  {| tr_translatedText := None; tr_provider := provider; tr_status := "unavailable"; tr_errorCode := None; tr_latencyMs := 0 |}.
(** A model that is sure of one category. *)
Definition sure_of (category level : string) (_ : string) (_ : AiRiskInput) : AiRiskOutput :=
  {| ao_riskLevel := level; ao_sentiment := "negative"; ao_categories := [category]; ao_confidence := 95 # 100; ao_shortReason := "";
     ao_recommendedReviewAction := Act_review; ao_provider := "openai"; ao_status := Ai_classified; ao_errorCode := None; ao_latencyMs := 900; ao_usage := None |}.
Definition config (ai : bool) (memory : list BrandMemoryRule) : HybridConfig :=
  {| hc_workspaceLocale := "en"; hc_translationEnabled := false; hc_translationProvider := "none"; hc_targetEn := false; hc_aiEnabled := ai;
     hc_aiProvider := "openai"; hc_minConfidence := 7 # 10; hc_callMode := Some "all"; hc_brandContext := None; hc_memoryRules := Some memory |}.
Definition comment (text : string) (rules : list ClassifierRule) : ClassificationInput := {| in_text := text; in_rating := None; in_rules := Some rules |}.

Lemma evidence_gate_exact_witness :
  de_verdict {| de_category := "threat"; de_verdict := V_review_required; de_reason := "ai_claim_without_evidence" |} = V_review_required.
Proof.
  pose proof (evidence_gate_exact english no_translation (sure_of "threat" "critical") (comment "you idiot" []) (config true [])
    {| de_category := "threat"; de_verdict := V_review_required; de_reason := "ai_claim_without_evidence" |}) as H.
  assert (Hin : In {| de_category := "threat"; de_verdict := V_review_required; de_reason := "ai_claim_without_evidence" |}
    (dg_decisions (hr_diagnostics (classifyHybrid english no_translation (sure_of "threat" "critical") (comment "you idiot" []) (config true [])))))
    by (vm_compute; right; left; reflexivity).
  specialize (H Hin). cbv zeta in H. rewrite H. vm_compute. reflexivity.
Defined.

(** A refuted accusation is documented as one without evidence and without the agreement of the
    rules. A word that the brand itself blocks is an accusation of the rules without a span, so
    it is rejected: the comment is stored as neutral at a high level, nothing is held for
    review, and the customer is shown that there is no issue. *)
Theorem blocked_word_is_no_issue :
  let input := comment "Buy at Acme instead" [{| ru_category := BlockedWords; ru_phrases := ["acme"]; ru_enabled := true |}] in
  let h := classifyHybrid english no_translation (sure_of "spam" "none") input (config false []) in
  hr_rejectedCategories h = ["profanity"] /\ hr_categories h = ["neutral"] /\ hr_level h = "high" /\ hr_requiresReview h = false /\
  cp_state (projectStoredClassification (stored_classification h ("monitor", "normal_criticism"))) = Ps_no_issue.
Proof. vm_compute. repeat split. Qed.

(** No memory rule is documented to cancel a critical safety signal; the signal of a crisis is
    not protected: an allowed phrase takes a critical comment to none. The order of the rules
    decides when a crisis phrase and an allowed one both occur. *)
Theorem crisis_is_cancelled :
  let input := comment "Product recall at great shop" [{| ru_category := CrisisKeywords; ru_phrases := ["recall"]; ru_enabled := true |}] in
  let level memory := hr_level (classifyHybrid english no_translation (sure_of "spam" "none") input (config false memory)) in
  level [] = "critical" /\ level [phrase "allow_phrase" "great shop"] = "none" /\
  level [phrase "allow_phrase" "great shop"; phrase "crisis_phrase" "recall"] = "high" /\
  level [phrase "crisis_phrase" "recall"; phrase "allow_phrase" "great shop"] = "none".
Proof. vm_compute. repeat split. Qed.

End HybridPipeline.
