(* ===== verification/ControlCenter.v ===== *)
(** What may be done about a comment ([packages/ai/src/auto-protect.ts, control-center.ts]): the
    harmful category it falls under, the Auto-Protect decision, and the decision of the
    control center within a brand's policies, whose autonomous candidates the execution layer
    ([LiveActions]) may turn into a real hide. *)
From S2P Require Import Prelude JsValue Outbox Access Evidence RiskRules HybridPipeline.
From Stdlib Require Import QArith Lqa.
Open Scope string_scope.
Open Scope list_scope.
Open Scope Z_scope.
Open Scope tam_scope.
Import Evidence RiskRules HybridPipeline.

Module ControlCenter.

(** * Vocabulary *)

(** The harmful categories of Auto-Protect are the first sixteen. *)
(* src: packages/ai/src/control-center.ts:18-23 ControlCategory *)
Inductive ControlCategory :=
| K_spam | K_scam | K_phishing | K_profanity | K_personal_attack | K_hate_speech | K_racism | K_threat | K_violence
| K_terrorism_extremism | K_sexual_vulgarity | K_competitor_promo | K_coordinated_attack | K_brand_impersonation
| K_crisis_keyword | K_normal_criticism | K_customer_question | K_refund_complaint | K_legal_complaint
| K_safety_claim | K_positive_feedback.
#[export] Instance ControlCategory_dec : EqDecision ControlCategory.
Proof. solve_decision. Defined.
#[export] Program Instance ControlCategory_enum : JsEnum ControlCategory := {|
  js_name x := match x with
    | K_spam => "spam" | K_scam => "scam" | K_phishing => "phishing" | K_profanity => "profanity"
    | K_personal_attack => "personal_attack" | K_hate_speech => "hate_speech" | K_racism => "racism"
    | K_threat => "threat" | K_violence => "violence" | K_terrorism_extremism => "terrorism_extremism"
    | K_sexual_vulgarity => "sexual_vulgarity" | K_competitor_promo => "competitor_promo"
    | K_coordinated_attack => "coordinated_attack" | K_brand_impersonation => "brand_impersonation"
    | K_crisis_keyword => "crisis_keyword" | K_normal_criticism => "normal_criticism"
    | K_customer_question => "customer_question" | K_refund_complaint => "refund_complaint"
    | K_legal_complaint => "legal_complaint" | K_safety_claim => "safety_claim"
    | K_positive_feedback => "positive_feedback" end;
  js_values := [K_spam; K_scam; K_phishing; K_profanity; K_personal_attack; K_hate_speech; K_racism; K_threat; K_violence;
    K_terrorism_extremism; K_sexual_vulgarity; K_competitor_promo; K_coordinated_attack; K_brand_impersonation;
    K_crisis_keyword; K_normal_criticism; K_customer_question; K_refund_complaint; K_legal_complaint; K_safety_claim;
    K_positive_feedback] |}.
Solve All Obligations with solve_js_enum.
(* src: packages/ai/src/auto-protect.ts:18-18 AutoProtectMode *)
Inductive AutoProtectMode :=
| P_monitor | P_approval | P_auto_hide_shadow | P_auto_hide_live_reserved.
#[export] Instance AutoProtectMode_dec : EqDecision AutoProtectMode.
Proof. solve_decision. Defined.
#[export] Program Instance AutoProtectMode_enum : JsEnum AutoProtectMode := {|
  js_name x := match x with
    | P_monitor => "monitor" | P_approval => "approval" | P_auto_hide_shadow => "auto_hide_shadow"
    | P_auto_hide_live_reserved => "auto_hide_live_reserved" end;
  js_values := [P_monitor; P_approval; P_auto_hide_shadow; P_auto_hide_live_reserved] |}.
Solve All Obligations with solve_js_enum.
(* src: packages/ai/src/auto-protect.ts:21-22 AutoProtectDecisionValue *)
Inductive AutoProtectDecisionValue :=
| D_no_action | D_monitor | D_requires_approval | D_would_auto_hide | D_blocked_by_safety.
#[export] Instance AutoProtectDecisionValue_dec : EqDecision AutoProtectDecisionValue.
Proof. solve_decision. Defined.
#[export] Program Instance AutoProtectDecisionValue_enum : JsEnum AutoProtectDecisionValue := {|
  js_name x := match x with
    | D_no_action => "no_action" | D_monitor => "monitor" | D_requires_approval => "requires_approval"
    | D_would_auto_hide => "would_auto_hide" | D_blocked_by_safety => "blocked_by_safety" end;
  js_values := [D_no_action; D_monitor; D_requires_approval; D_would_auto_hide; D_blocked_by_safety] |}.
Solve All Obligations with solve_js_enum.
(* src: packages/ai/src/control-center.ts:32-32 ControlMode *)
Inductive ControlMode :=
| M_monitor | M_assist | M_approval | M_autonomous.
#[export] Instance ControlMode_dec : EqDecision ControlMode.
Proof. solve_decision. Defined.
#[export] Program Instance ControlMode_enum : JsEnum ControlMode := {|
  js_name x := match x with
    | M_monitor => "monitor" | M_assist => "assist" | M_approval => "approval" | M_autonomous => "autonomous" end;
  js_values := [M_monitor; M_assist; M_approval; M_autonomous] |}.
Solve All Obligations with solve_js_enum.
(* src: packages/ai/src/control-center.ts:35-37 ControlAction *)
Inductive ControlAction :=
| A_notify | A_create_inbox_item | A_suggest_reply | A_request_approval | A_hide_comment | A_report | A_escalate
| A_assign_to_user | A_create_incident | A_no_action.
#[export] Instance ControlAction_dec : EqDecision ControlAction.
Proof. solve_decision. Defined.
#[export] Program Instance ControlAction_enum : JsEnum ControlAction := {|
  js_name x := match x with
    | A_notify => "notify" | A_create_inbox_item => "create_inbox_item" | A_suggest_reply => "suggest_reply"
    | A_request_approval => "request_approval" | A_hide_comment => "hide_comment" | A_report => "report"
    | A_escalate => "escalate" | A_assign_to_user => "assign_to_user" | A_create_incident => "create_incident"
    | A_no_action => "no_action" end;
  js_values := [A_notify; A_create_inbox_item; A_suggest_reply; A_request_approval; A_hide_comment; A_report; A_escalate;
    A_assign_to_user; A_create_incident; A_no_action] |}.
Solve All Obligations with solve_js_enum.
(* src: packages/ai/src/control-center.ts:39-41 QueueState *)
Inductive QueueState :=
| Q_suggested | Q_approval_required | Q_approved | Q_rejected | Q_blocked_by_safety | Q_dry_run | Q_executed
| Q_failed | Q_rollback_needed | Q_monitor | Q_no_action.
#[export] Instance QueueState_dec : EqDecision QueueState.
Proof. solve_decision. Defined.
#[export] Program Instance QueueState_enum : JsEnum QueueState := {|
  js_name x := match x with
    | Q_suggested => "suggested" | Q_approval_required => "approval_required" | Q_approved => "approved"
    | Q_rejected => "rejected" | Q_blocked_by_safety => "blocked_by_safety" | Q_dry_run => "dry_run"
    | Q_executed => "executed" | Q_failed => "failed" | Q_rollback_needed => "rollback_needed" | Q_monitor => "monitor"
    | Q_no_action => "no_action" end;
  js_values := [Q_suggested; Q_approval_required; Q_approved; Q_rejected; Q_blocked_by_safety; Q_dry_run; Q_executed; Q_failed;
    Q_rollback_needed; Q_monitor; Q_no_action] |}.
Solve All Obligations with solve_js_enum.
(* src: packages/ai/src/control-center.ts:48-48 QueueTab *)
Inductive QueueTab :=
| T_active | T_approval | T_blocked | T_resolved | T_all.
#[export] Instance QueueTab_dec : EqDecision QueueTab.
Proof. solve_decision. Defined.
#[export] Program Instance QueueTab_enum : JsEnum QueueTab := {|
  js_name x := match x with
    | T_active => "active" | T_approval => "approval" | T_blocked => "blocked" | T_resolved => "resolved"
    | T_all => "all" end;
  js_values := [T_active; T_approval; T_blocked; T_resolved; T_all] |}.
Solve All Obligations with solve_js_enum.

(** * Auto-Protect *)

(* src: packages/ai/src/auto-protect.ts:23-28 AutoProtectPolicy *)
Record AutoProtectPolicy := { pp_category : string; pp_mode : string; pp_minConfidence : Q; pp_isActive : bool }.
(* src: packages/ai/src/auto-protect.ts:30-44 AutoProtectInput *)
Record AutoProtectInput := { pi_text : string; pi_riskLevel : string; pi_categories : list string; pi_riskSignals : list string;
  pi_sentiment : string; pi_confidence : Q; pi_requiresReview : option bool }.
(** The reasons are sentences with punctuation outside the characters of the model: one
    constructor for each. *)
Inductive ProtectReason := Unconfirmed | No_policy | Monitor_policy | Approval_policy | Criticism_never_hidden | Not_shadow_eligible
| Below_minimum (confidence minimum : Q) | Would_hide (confidence minimum : Q).
(* src: packages/ai/src/auto-protect.ts:46-53 AutoProtectResult *)
Record AutoProtectResult := { po_decision : AutoProtectDecisionValue; po_matchedCategory : ControlCategory; po_policyMode : string; po_confidence : Q;
  po_reason : ProtectReason; po_safetyBlocked : bool }.
(* src: packages/ai/src/auto-protect.ts:63-83 DEFAULT_AUTO_PROTECT_POLICIES *)
Definition DEFAULT_AUTO_PROTECT_POLICIES : list (ControlCategory * AutoProtectMode) :=
  [(K_profanity, P_auto_hide_shadow); (K_personal_attack, P_auto_hide_shadow); (K_hate_speech, P_auto_hide_shadow);
   (K_racism, P_auto_hide_shadow); (K_scam, P_auto_hide_shadow); (K_phishing, P_auto_hide_shadow);
   (K_spam, P_auto_hide_shadow); (K_terrorism_extremism, P_auto_hide_shadow); (K_threat, P_approval);
   (K_violence, P_approval); (K_sexual_vulgarity, P_approval); (K_competitor_promo, P_approval);
   (K_coordinated_attack, P_approval); (K_brand_impersonation, P_approval); (K_crisis_keyword, P_approval);
   (K_normal_criticism, P_monitor)].
(* src: packages/ai/src/auto-protect.ts:91-94 LIVE_ELIGIBLE_CATEGORIES *)
Definition LIVE_ELIGIBLE_CATEGORIES : list ControlCategory :=
  [K_profanity; K_personal_attack; K_hate_speech; K_racism; K_scam; K_phishing; K_spam; K_terrorism_extremism;
   K_threat].
(* src: packages/ai/src/auto-protect.ts:97-97 FACEBOOK_HIDE_PERMISSION *)
Definition FACEBOOK_HIDE_PERMISSION : string := "pages_manage_engagement".
(* src: packages/ai/src/auto-protect.ts:100-104 SHADOW_ELIGIBLE *)
Definition SHADOW_ELIGIBLE : list ControlCategory :=
  [K_hate_speech; K_racism; K_terrorism_extremism; K_phishing; K_scam; K_threat; K_violence; K_spam; K_profanity;
   K_personal_attack; K_sexual_vulgarity; K_coordinated_attack; K_brand_impersonation; K_crisis_keyword;
   K_competitor_promo].
(* src: packages/ai/src/auto-protect.ts:107-118 TERM_LEXICON *)
Definition TERM_LEXICON : list (ControlCategory * list string) :=
  [
   (K_terrorism_extremism, ["bomb"; "jihad"; "heil hitler"; "terror attack"; "behead"]);
   (K_racism, ["go back to your country"; "your race"; "subhuman"; "racial slur"]);
   (K_violence, ["i will kill you"; "kill you"; "beat you up"; "i will hurt"; "stab you"; "shoot you"; "zabijem ta"; "zbijem ta"]);
   (K_phishing, ["verify your account"; "confirm your password"; "reset your password"; "send your password"; "click here to claim"]);
   (K_sexual_vulgarity, ["send nudes"; "porn"; "explicit sexual"]);
   (K_brand_impersonation, ["official account"; "i am the ceo"; "real owner"; "verified official"; "this page impersonates"]);
   (K_crisis_keyword, ["class action lawsuit"; "data breach"; "health inspection"; "product recall"; "regulatory complaint"])].
(* src: packages/ai/src/auto-protect.ts:121-125 PROMO_MARKERS *)
Definition PROMO_MARKERS : list string :=
  ["dm me"; "message me"; "pm me"; "join us"; "come to us"; "check my page"; "follow me"; "subscribe";
   "we are cheaper"; "piste dm"; "piste mi"; "podte ku"; "kupte u mna"; "napiste mi"; "pisem vam dm"; "schreib mir";
   "schreibt mir"; "napisz do mnie"].
(* src: packages/ai/src/auto-protect.ts:128-137 SIGNAL_MAP *)
Definition SIGNAL_MAP : list (string * ControlCategory) :=
  [("hate_speech", K_hate_speech); ("legal_threat", K_threat); ("scam", K_scam); ("harassment", K_personal_attack);
   ("brand_attack", K_coordinated_attack); ("crisis", K_crisis_keyword); ("spam", K_spam); ("profanity", K_profanity)].
(* src: packages/ai/src/auto-protect.ts:139-144 PRIORITY *)
Definition PRIORITY : list ControlCategory :=
  [K_terrorism_extremism; K_racism; K_hate_speech; K_threat; K_violence; K_phishing; K_scam; K_sexual_vulgarity;
   K_brand_impersonation; K_coordinated_attack; K_personal_attack; K_crisis_keyword; K_spam; K_profanity;
   K_competitor_promo; K_normal_criticism].
(** [PRIORITY.indexOf(c)] *)
Fixpoint index_in (l : list ControlCategory) (c : ControlCategory) : Z :=
  match l with [] => -1 | x :: r => if bool_decide (x = c) then 0 else let i := index_in r c in if i =? -1 then -1 else i + 1 end.
(* src: packages/ai/src/auto-protect.ts:146-148 pickHigher *)
Definition pickHigher (a b : ControlCategory) : ControlCategory := if index_in PRIORITY a <=? index_in PRIORITY b then a else b.
Definition term_found (norm term : string) (c : ControlCategory) : bool := negb (length (findTermSpans norm term (js_name c) false) =? 0)%nat.
Definition promo_found (norm : string) : bool := existsb (fun m => term_found norm m K_competitor_promo) PROMO_MARKERS.
(* src: packages/ai/src/auto-protect.ts:151-169 matchAutoProtectCategory *)
Definition matchAutoProtectCategory (text : string) (signals : list string) : ControlCategory :=
  let norm := normalize text in
  let c0 := K_normal_criticism in
  let c1 := fold_left (fun c '(k, terms) => if existsb (fun t => term_found norm t k) terms then pickHigher c k else c) TERM_LEXICON c0 in
  let c2 := fold_left (fun c '(sig, k) => if includes signals sig then pickHigher c k else c) SIGNAL_MAP c1 in
  if promo_found norm then pickHigher c2 K_competitor_promo
  else if includes signals "competitor" then pickHigher c2 K_normal_criticism else c2.
Definition shadow_eligible (c : ControlCategory) : bool := bool_decide (c ∈ SHADOW_ELIGIBLE).
(* src: packages/ai/src/auto-protect.ts:172-221 evaluateAutoProtect *)
Definition evaluateAutoProtect (i : AutoProtectInput) (policies : list AutoProtectPolicy) : AutoProtectResult :=
  let matched := matchAutoProtectCategory (pi_text i) (js_set (pi_riskSignals i ++ pi_categories i)) in
  let decide_ d mode r safety := {| po_decision := d; po_matchedCategory := matched; po_policyMode := mode; po_confidence := pi_confidence i;
    po_reason := r; po_safetyBlocked := safety |} in
  if pi_requiresReview i ?? false then decide_ D_requires_approval "none" Unconfirmed true
  else match List.find (fun p => (pp_category p =s js_name matched) && pp_isActive p) policies with
  | None => decide_ D_monitor "none" No_policy false
  | Some p =>
      let mode := pp_mode p in
      if mode =s "monitor" then
        decide_ (if (pi_sentiment i =s "positive") && (pi_riskLevel i =s "none") then D_no_action else D_monitor) mode Monitor_policy false
      else if mode =s "approval" then decide_ D_requires_approval mode Approval_policy false
      else if matched =e K_normal_criticism then decide_ D_blocked_by_safety mode Criticism_never_hidden true
      else if negb (shadow_eligible matched) then decide_ D_requires_approval mode Not_shadow_eligible true
      else if q_ltb (pi_confidence i) (pp_minConfidence p) then decide_ D_requires_approval mode (Below_minimum (pi_confidence i) (pp_minConfidence p)) false
      else decide_ D_would_auto_hide mode (Would_hide (pi_confidence i) (pp_minConfidence p)) false
  end.

(** * The control center *)

(* src: packages/ai/src/control-center.ts:51-56 QUEUE_TAB_STATES *)
Definition QUEUE_TAB_STATES (tab : QueueTab) : option (list QueueState) :=
  match tab with
  | T_active => Some [Q_approval_required; Q_failed]
  | T_approval => Some [Q_approval_required]
  | T_blocked => Some [Q_blocked_by_safety; Q_failed]
  | T_resolved => Some [Q_executed; Q_no_action; Q_approved; Q_rejected; Q_rollback_needed]
  | T_all => None
  end.
(* src: packages/ai/src/control-center.ts:59-62 queueTabStates *)
Definition queueTabStates (tab : QueueTab) : option (list QueueState) := QUEUE_TAB_STATES tab.
(* src: packages/ai/src/control-center.ts:65-67 normalizeQueueTab *)
Definition normalizeQueueTab (v : option string) : QueueTab := parse_opt v ?? T_active.
(* src: packages/ai/src/control-center.ts:75-78 NEVER_AUTONOMOUS *)
Definition NEVER_AUTONOMOUS : list ControlCategory :=
  [K_normal_criticism; K_refund_complaint; K_legal_complaint; K_safety_claim; K_customer_question; K_positive_feedback].
(* src: packages/ai/src/control-center.ts:82-86 AUTONOMOUS_ELIGIBLE *)
Definition AUTONOMOUS_ELIGIBLE : list ControlCategory :=
  [K_spam; K_scam; K_phishing; K_profanity; K_personal_attack; K_hate_speech; K_racism; K_threat; K_violence;
   K_terrorism_extremism; K_sexual_vulgarity; K_brand_impersonation].
(* src: packages/ai/src/control-center.ts:89-92 INCIDENT_CATEGORIES *)
Definition INCIDENT_CATEGORIES : list ControlCategory :=
  [K_crisis_keyword; K_coordinated_attack; K_threat; K_legal_complaint; K_safety_claim; K_brand_impersonation;
   K_terrorism_extremism].
(* src: packages/ai/src/control-center.ts:94-94 MIN_AUTONOMOUS_CONFIDENCE *)
Definition MIN_AUTONOMOUS_CONFIDENCE : Q := 8 # 10.
Definition never_autonomous (c : ControlCategory) : bool := bool_decide (c ∈ NEVER_AUTONOMOUS).
Definition autonomous_eligible (c : ControlCategory) : bool := bool_decide (c ∈ AUTONOMOUS_ELIGIBLE).
(* src: packages/ai/src/control-center.ts:98-102 INTENT_LEXICON *)
Definition INTENT_LEXICON : list (ControlCategory * list string) :=
  [
   (K_refund_complaint, ["refund"; "money back"; "chargeback"; "vratenie penazi"; "vratte mi peniaze"; "ruckerstattung"; "reklamacia"]);
   (K_legal_complaint, ["my lawyer"; "lawsuit"; "sue you"; "legal action"; "pravnik"; "zalujem"; "anwalt"; "gdpr complaint"]);
   (K_safety_claim, ["injury"; "got hurt"; "unsafe"; "dangerous"; "got sick"; "food poisoning"; "zranenie"; "ublizilo"; "nebezpecne"])].
(** [/\?\s*$/] *)
Fixpoint last_char (s : string) : option ascii :=
  match s with EmptyString => None | String c EmptyString => Some c | String _ r => last_char r end.
Definition ends_with_question (text : string) : bool := match last_char (trimEnd text) with Some c => Ascii.eqb c "?" | None => false end.
Definition intent_found (norm : string) (c : ControlCategory) : bool :=
  match List.find (fun '(k, _) => bool_decide (k = c)) INTENT_LEXICON with Some (_, terms) => existsb (containsFuzzy norm) terms | None => false end.
(* src: packages/ai/src/control-center.ts:206-213 evaluateControl *)
Record ControlInput := { ci_text : string; ci_riskSignals : list string; ci_categories : list string; ci_sentiment : string; ci_riskLevel : string; ci_confidence : Q }.
(* src: packages/ai/src/control-center.ts:109-128 matchControlCategory *)
Definition matchControlCategory (i : ControlInput) : ControlCategory :=
  let harmful := matchAutoProtectCategory (ci_text i) (js_set (ci_riskSignals i ++ ci_categories i)) in
  if negb (harmful =e K_normal_criticism) then harmful
  else let norm := normalize (ci_text i) in
  match List.find (intent_found norm) [K_legal_complaint; K_safety_claim; K_refund_complaint] with
  | Some c => c
  | None =>
      if (ci_sentiment i =s "positive") && (ci_riskLevel i =s "none") then K_positive_feedback
      else if ends_with_question (ci_text i) && (ci_riskLevel i =s "none") then K_customer_question
      else K_normal_criticism
  end.

Inductive PresetName := Conservative | Balanced | Aggressive.
(* src: packages/ai/src/control-center.ts:135-166 PRESETS *)
Definition PRESETS (p : PresetName) : list (ControlCategory * ControlMode) :=
  match p with
  | Conservative =>
    [(K_spam, M_autonomous); (K_scam, M_autonomous); (K_phishing, M_autonomous); (K_profanity, M_approval);
     (K_personal_attack, M_approval); (K_hate_speech, M_approval); (K_racism, M_approval); (K_threat, M_approval);
     (K_violence, M_approval); (K_terrorism_extremism, M_approval); (K_sexual_vulgarity, M_approval);
     (K_competitor_promo, M_approval); (K_coordinated_attack, M_approval); (K_brand_impersonation, M_approval);
     (K_crisis_keyword, M_approval); (K_refund_complaint, M_assist); (K_legal_complaint, M_approval);
     (K_safety_claim, M_approval); (K_customer_question, M_assist); (K_normal_criticism, M_monitor);
     (K_positive_feedback, M_monitor)]
  | Balanced =>
    [(K_spam, M_autonomous); (K_scam, M_autonomous); (K_phishing, M_autonomous); (K_profanity, M_approval);
     (K_personal_attack, M_approval); (K_hate_speech, M_autonomous); (K_racism, M_autonomous); (K_threat, M_approval);
     (K_violence, M_approval); (K_terrorism_extremism, M_autonomous); (K_sexual_vulgarity, M_approval);
     (K_competitor_promo, M_approval); (K_coordinated_attack, M_approval); (K_brand_impersonation, M_approval);
     (K_crisis_keyword, M_approval); (K_refund_complaint, M_assist); (K_legal_complaint, M_approval);
     (K_safety_claim, M_approval); (K_customer_question, M_assist); (K_normal_criticism, M_monitor);
     (K_positive_feedback, M_monitor)]
  | Aggressive =>
    [(K_spam, M_autonomous); (K_scam, M_autonomous); (K_phishing, M_autonomous); (K_profanity, M_autonomous);
     (K_personal_attack, M_autonomous); (K_hate_speech, M_autonomous); (K_racism, M_autonomous); (K_threat, M_approval);
     (K_violence, M_approval); (K_terrorism_extremism, M_autonomous); (K_sexual_vulgarity, M_autonomous);
     (K_competitor_promo, M_approval); (K_coordinated_attack, M_approval); (K_brand_impersonation, M_approval);
     (K_crisis_keyword, M_approval); (K_refund_complaint, M_assist); (K_legal_complaint, M_approval);
     (K_safety_claim, M_approval); (K_customer_question, M_assist); (K_normal_criticism, M_monitor);
     (K_positive_feedback, M_monitor)]
  end.
Definition preset_mode (p : PresetName) (c : ControlCategory) : option ControlMode :=
  option_map snd (List.find (fun '(k, _) => bool_decide (k = c)) (PRESETS p)).
(* src: packages/ai/src/control-center.ts:25-30 CONTROL_CATEGORIES *)
Definition CONTROL_CATEGORIES : list ControlCategory := js_values.
(* src: packages/ai/src/control-center.ts:169-177 presetPolicies *)
Definition presetPolicies (p : PresetName) : list (ControlCategory * ControlMode) :=
  map (fun c => let mode := preset_mode p c ?? M_monitor in
    (c, if never_autonomous c && (mode =e M_autonomous) then M_approval else mode)) CONTROL_CATEGORIES.

(* src: packages/ai/src/control-center.ts:181-186 ControlPolicyLite *)
Record ControlPolicyLite := { pl_id : string; pl_category : string; pl_mode : string; pl_minConfidence : Q; pl_isActive : bool }.
(** Again a constructor for each sentence. *)
Inductive ControlReason := No_active_policy | By_monitor | By_assist | Human_approves_hide | Routed_to_human | Safety_floor | Not_eligible
| Below_autonomous (confidence : Q) | Autonomous_candidate.
(* src: packages/ai/src/control-center.ts:188-199 ControlDecision *)
Record ControlDecision := { cd_matchedCategory : ControlCategory; cd_mode : string; cd_proposedAction : ControlAction; cd_queueState : QueueState;
  cd_confidence : Q; cd_reason : ControlReason; cd_safetyBlocked : bool; cd_wouldExecute : bool; cd_raisesIncident : bool }.
(* src: packages/ai/src/control-center.ts:206-254 evaluateControl *)
Definition evaluateControl (i : ControlInput) (policies : list ControlPolicyLite) : ControlDecision :=
  let matched := matchControlCategory i in
  let decide_ mode action state reason safety would := {| cd_matchedCategory := matched; cd_mode := mode; cd_proposedAction := action;
    cd_queueState := state; cd_confidence := ci_confidence i; cd_reason := reason; cd_safetyBlocked := safety; cd_wouldExecute := would;
    cd_raisesIncident := bool_decide (matched ∈ INCIDENT_CATEGORIES) |} in
  match List.find (fun p => (pl_category p =s js_name matched) && pl_isActive p) policies with
  | None => decide_ "none" A_create_inbox_item Q_monitor No_active_policy false false
  | Some p =>
      let mode := pl_mode p in
      if mode =s "monitor" then decide_ mode A_create_inbox_item Q_monitor By_monitor false false
      else if mode =s "assist" then decide_ mode A_suggest_reply Q_suggested By_assist false false
      else if mode =s "approval" then
        if autonomous_eligible matched && negb (never_autonomous matched)
        then decide_ mode A_hide_comment Q_approval_required Human_approves_hide false false
        else decide_ mode A_request_approval Q_approval_required Routed_to_human false false
      else if never_autonomous matched then decide_ mode A_request_approval Q_blocked_by_safety Safety_floor true false
      else if negb (autonomous_eligible matched) then decide_ mode A_request_approval Q_approval_required Not_eligible false false
      else if q_ltb (ci_confidence i) (q_max MIN_AUTONOMOUS_CONFIDENCE (pl_minConfidence p))
      then decide_ mode A_request_approval Q_approval_required (Below_autonomous (ci_confidence i)) false false
      else decide_ mode A_hide_comment Q_dry_run Autonomous_candidate false true
  end.
(* src: packages/ai/src/control-center.ts:257-265 autoProtectToQueueState *)
Definition autoProtectToQueueState (decision : string) : QueueState :=
  match parse decision with
  | Some D_monitor => Q_monitor
  | Some D_requires_approval => Q_approval_required
  | Some D_would_auto_hide => Q_dry_run
  | Some D_blocked_by_safety => Q_blocked_by_safety
  | _ => Q_no_action
  end.

#[local] Opaque findTermSpans.

(** * The matched category is the most severe one *)

(** What puts a text under a harmful category. *)
Definition triggered (norm : string) (signals : list string) (c : ControlCategory) : bool :=
  existsb (fun '(k, terms) => bool_decide (k = c) && existsb (fun t => term_found norm t k) terms) TERM_LEXICON ||
  existsb (fun '(sig, k) => bool_decide (k = c) && includes signals sig) SIGNAL_MAP ||
  (bool_decide (c = K_competitor_promo) && promo_found norm).
Definition severity_index (c : ControlCategory) : Z := index_in PRIORITY c.
Lemma severity_inj a b : severity_index a = severity_index b -> In a PRIORITY -> In b PRIORITY -> a = b.
Proof.
  assert (H : forallb (fun a => forallb (fun b => negb (severity_index a =? severity_index b) || bool_decide (a = b)) PRIORITY) PRIORITY = true)
    by (vm_compute; reflexivity).
  intros He Ha Hb. apply (proj1 (forallb_forall _ _) H) in Ha. apply (proj1 (forallb_forall _ _) Ha) in Hb.
  apply Z.eqb_eq in He. rewrite He in Hb. by apply bool_decide_eq_true in Hb.
Qed.
(** [c] is the most severe of the harmful categories that [p] holds of, else [c0]. *)
Definition most_severe (p : ControlCategory -> Prop) (c0 c : ControlCategory) : Prop :=
  (c = c0 \/ p c) /\ severity_index c <= severity_index c0 /\ forall k, p k -> severity_index c <= severity_index k.
Lemma pick_spec (p q : ControlCategory -> Prop) c0 c k :
  most_severe p c0 c -> (forall x, q x <-> p x \/ x = k) -> most_severe q c0 (pickHigher c k).
Proof.
  intros (Hin & Hle & Hmin) Hq. unfold pickHigher. fold (severity_index c) (severity_index k).
  destruct (Z.leb_spec (severity_index c) (severity_index k)) as [Hl|Hl]; (split; [|split]).
  - destruct Hin as [?|?]; [by left|right; apply Hq; by left].
  - exact Hle.
  - intros x [Hx| ->]%Hq; [by apply Hmin|exact Hl].
  - right. apply Hq. by right.
  - lia.
  - intros x [Hx| ->]%Hq; [specialize (Hmin x Hx)|]; lia.
Qed.
Lemma most_severe_ext p q c0 c : (forall x, q x <-> p x) -> most_severe p c0 c -> most_severe q c0 c.
Proof. intros H (Hin & Hle & Hmin). split; [rewrite H; exact Hin|split; [exact Hle|]]. intros k Hk. by apply Hmin, H. Qed.
Lemma fold_severe {A} (key : A -> ControlCategory) (test : A -> bool) (l : list A) p c0 c :
  most_severe p c0 c ->
  most_severe (fun k => p k \/ exists x, In x l /\ key x = k /\ test x = true) c0
    (fold_left (fun c x => if test x then pickHigher c (key x) else c) l c).
Proof.
  revert p c. induction l as [|x l IH]; intros p c H; cbn [fold_left].
  - apply (most_severe_ext p); [|exact H]. intros k. split; [by intros [?|(? & [] & _)]|by left].
  - destruct (test x) eqn:Ht.
    + refine (most_severe_ext _ _ _ _ _ (IH (fun k => p k \/ k = key x) _ (pick_spec _ _ _ _ _ H _))); [|tauto].
      intros k. split.
      * intros [?|(y & [<-|Hy] & Hk & Hty)]; [by left; left|left; right; by symmetry|right; by exists y].
      * intros [[?|?]|(y & Hy & Hk & Hty)]; [by left|right; exists x; simpl; auto|right; exists y; simpl; auto].
    + refine (most_severe_ext _ _ _ _ _ (IH p _ H)). intros k. split.
      * intros [?|(y & [<-|Hy] & Hk & Hty)]; [by left|congruence|right; by exists y].
      * intros [?|(y & Hy & Hk & Hty)]; [by left|right; exists y; simpl; auto].
Qed.
Lemma triggered_iff norm signals c : triggered norm signals c = true <->
  (exists e, In e TERM_LEXICON /\ e.1 = c /\ existsb (fun t => term_found norm t e.1) e.2 = true) \/
  (exists e, In e SIGNAL_MAP /\ e.2 = c /\ includes signals e.1 = true) \/ (c = K_competitor_promo /\ promo_found norm = true).
Proof.
  assert (H1 : existsb (fun '(k, terms) => bool_decide (k = c) && existsb (fun t => term_found norm t k) terms) TERM_LEXICON = true <->
    exists e, In e TERM_LEXICON /\ e.1 = c /\ existsb (fun t => term_found norm t e.1) e.2 = true).
  { rewrite existsb_exists. split; intros ([k ts] & Hin & H); exists (k, ts); (split; [exact Hin|]); cbn [fst snd] in *;
      by rewrite andb_true_iff, bool_decide_eq_true in *. }
  assert (H2 : existsb (fun '(sig, k) => bool_decide (k = c) && includes signals sig) SIGNAL_MAP = true <->
    exists e, In e SIGNAL_MAP /\ e.2 = c /\ includes signals e.1 = true).
  { rewrite existsb_exists. split; intros ([sg k] & Hin & H); exists (sg, k); (split; [exact Hin|]); cbn [fst snd] in *;
      by rewrite andb_true_iff, bool_decide_eq_true in *. }
  unfold triggered. rewrite !orb_true_iff, andb_true_iff, bool_decide_eq_true, H1, H2. tauto.
Qed.
Lemma fold_pair {A B C} (f : C -> A -> B -> C) (g : C -> A * B -> C) (l : list (A * B)) (c : C) :
  (forall c a b, f c a b = g c (a, b)) -> fold_left (fun c '(a, b) => f c a b) l c = fold_left g l c.
Proof. intros H. revert c. induction l as [|[a b] l IH]; intros c; [done|]. cbn [fold_left]. by rewrite H, IH. Qed.
Lemma match_severe text signals :
  most_severe (fun c => triggered (normalize text) signals c = true) K_normal_criticism (matchAutoProtectCategory text signals).
Proof.
  unfold matchAutoProtectCategory. set (norm := normalize text). cbv zeta.
  assert (H0 : most_severe (fun _ => False) K_normal_criticism K_normal_criticism) by (split; [by left|split; [lia|done]]).
  pose proof (fold_severe fst (fun e : ControlCategory * list string => existsb (fun t => term_found norm t e.1) e.2) TERM_LEXICON _ _ _ H0) as H1.
  rewrite <- (fold_pair (fun c k terms => if existsb (fun t => term_found norm t k) terms then pickHigher c k else c)) in H1 by done.
  pose proof (fold_severe snd (fun e : string * ControlCategory => includes signals e.1) SIGNAL_MAP _ _ _ H1) as H2.
  rewrite <- (fold_pair (fun c sig k => if includes signals sig then pickHigher c k else c)) in H2 by done.
  set (c2 := fold_left _ SIGNAL_MAP _) in *. clearbody c2. clear H0 H1.
  assert (H3 : most_severe (fun c => triggered norm signals c = true) K_normal_criticism (if promo_found norm then pickHigher c2 K_competitor_promo else c2)).
  { destruct (promo_found norm) eqn:Hp.
    - refine (pick_spec _ _ _ _ _ H2 _). intros x. rewrite triggered_iff, Hp. tauto.
    - refine (most_severe_ext _ _ _ _ _ H2). intros x. rewrite triggered_iff, Hp. split; [intros [?|[?|[_ ?]]]; [auto|auto|done]|tauto]. }
  destruct (promo_found norm); [exact H3|]. destruct (includes signals "competitor"); [|exact H3].
  unfold pickHigher. fold (severity_index c2) (severity_index K_normal_criticism). destruct H3 as (Hi & Hle & Hm).
  replace (severity_index c2 <=? severity_index K_normal_criticism) with true by lia. by split.
Qed.
Lemma priority_complete norm signals c : triggered norm signals c = true -> In c PRIORITY.
Proof.
  rewrite triggered_iff. intros [(e & Hin & <- & _)|[(e & Hin & <- & _)|[ -> _]]].
  - assert (H : forallb (fun e : ControlCategory * list string => bool_decide (e.1 ∈ PRIORITY)) TERM_LEXICON = true) by (vm_compute; reflexivity).
    apply (proj1 (forallb_forall _ _) H), bool_decide_eq_true in Hin. by apply list_elem_of_In.
  - assert (H : forallb (fun e : string * ControlCategory => bool_decide (e.2 ∈ PRIORITY)) SIGNAL_MAP = true) by (vm_compute; reflexivity).
    apply (proj1 (forallb_forall _ _) H), bool_decide_eq_true in Hin. by apply list_elem_of_In.
  - simpl. tauto.
Qed.
Lemma find_first p l c : List.find p l = Some c -> forall k, In k l -> p k = true -> NoDup l -> index_in l c <= index_in l k.
Proof.
  induction l as [|x l IH]; [done|]. cbn [List.find]. intros Hf k Hk Hpk Hnd. apply NoDup_cons in Hnd as [Hx Hnd]. cbn [index_in].
  assert (Hnn : forall y l, In y l -> 0 <= index_in l y).
  { clear. intros y l. induction l as [|z l IH]; [done|]. intros [ -> |Hy]; cbn [index_in]; [rewrite bool_decide_eq_true_2 by done; lia|].
    case_bool_decide; [lia|]. specialize (IH Hy). destruct (Z.eqb_spec (index_in l y) (-1)); lia. }
  destruct (p x) eqn:Hp.
  - injection Hf as ->. rewrite bool_decide_eq_true_2 by done. case_bool_decide; [lia|]. destruct Hk as [?|Hk]; [done|]. specialize (Hnn k l Hk).
    destruct (Z.eqb_spec (index_in l k) (-1)); lia.
  - destruct Hk as [ -> |Hk]; [congruence|]. pose proof (find_some _ _ Hf) as [Hc _].
    assert (x <> c /\ x <> k) as [Hxc Hxk] by (split; intros ->; apply Hx; by apply list_elem_of_In).
    rewrite !bool_decide_eq_false_2 by done. specialize (IH Hf k Hk Hpk Hnd). pose proof (Hnn c l Hc). pose proof (Hnn k l Hk).
    destruct (Z.eqb_spec (index_in l c) (-1)), (Z.eqb_spec (index_in l k) (-1)); lia.
Qed.

(** the category of a comment is the most severe one that anything in it triggers: the
    folds over the lexicon, the signals and the promotion markers amount to reading the order
    of severity from the top and taking the first category that is triggered, else normal
    criticism; the order and the repetition of terms and signals play no part. *)
Theorem match_is_first_by_severity (text : string) (signals : list string) :
  matchAutoProtectCategory text signals = List.find (triggered (normalize text) signals) PRIORITY ?? K_normal_criticism.
Proof.
  destruct (match_severe text signals) as (Hin & Hle & Hmin). set (c := matchAutoProtectCategory text signals) in *.
  assert (Hc : In c PRIORITY) by (destruct Hin as [ -> |Ht]; [simpl; tauto|by apply priority_complete in Ht]).
  destruct (List.find _ PRIORITY) as [k|] eqn:Hf; cbn [nullish].
  - pose proof (find_some _ _ Hf) as [Hk Ht]. apply severity_inj; [|exact Hc|exact Hk].
    specialize (Hmin k Ht). assert (severity_index k <= severity_index c); [|lia].
    destruct Hin as [ -> |Hct].
    + change (severity_index K_normal_criticism) with 15. clear - Hk. unfold severity_index. destruct k; vm_compute; try discriminate; naive_solver.
    + apply (find_first _ _ _ Hf); [exact Hc|exact Hct|]. apply (bool_decide_unpack _). vm_compute. exact I.
  - destruct Hin as [ -> |Ht]; [done|]. rewrite (find_none _ _ Hf c Hc) in Ht. discriminate Ht.
Qed.

(** * What may be executed *)

Definition active_policy (i : ControlInput) (policies : list ControlPolicyLite) : option ControlPolicyLite :=
  List.find (fun p => (pl_category p =s js_name (matchControlCategory i)) && pl_isActive p) policies.
Lemma eligible_not_never c : autonomous_eligible c = true -> never_autonomous c = false.
Proof. by destruct c. Qed.

(** C27 — the candidates for an autonomous hide: a comment would be hidden exactly when the
    brand's active policy for its category is not one of monitor, assist and approval, the
    category is eligible, and the confidence reaches both the floor of 0.8 and the policy's own;
    customer voice is never a candidate; and a hide is proposed only for an eligible category. *)
Theorem autonomous_candidate_exact (i : ControlInput) (policies : list ControlPolicyLite) :
  let d := evaluateControl i policies in
  let c := matchControlCategory i in
  (cd_wouldExecute d = true <-> exists p, active_policy i policies = Some p /\
     ~ In (pl_mode p) ["monitor"; "assist"; "approval"] /\ c ∈ AUTONOMOUS_ELIGIBLE /\
     (8 # 10 <= ci_confidence i)%Q /\ (pl_minConfidence p <= ci_confidence i)%Q) /\
  (c ∈ NEVER_AUTONOMOUS -> cd_wouldExecute d = false /\ cd_proposedAction d <> A_hide_comment) /\
  (cd_wouldExecute d = true -> cd_queueState d = Q_dry_run) /\
  (cd_proposedAction d = A_hide_comment -> c ∈ AUTONOMOUS_ELIGIBLE /\ (cd_queueState d = Q_approval_required \/ cd_wouldExecute d = true)).
Proof.
  intros d c. unfold d, evaluateControl. cbv zeta. fold (active_policy i policies). fold c.
  assert (Hel : autonomous_eligible c = true <-> c ∈ AUTONOMOUS_ELIGIBLE) by apply bool_decide_eq_true.
  assert (Hnv : never_autonomous c = true <-> c ∈ NEVER_AUTONOMOUS) by apply bool_decide_eq_true. pose proof (eligible_not_never c) as Hx.
  destruct (active_policy i policies) as [p|]; cbn [cd_wouldExecute cd_proposedAction cd_queueState];
    [|split; [split; [done|by intros (? & ? & _)]|done]].
  destruct (String.eqb_spec (pl_mode p) "monitor") as [Hm|Hm]; cbn [cd_wouldExecute cd_proposedAction cd_queueState].
  { split; [split; [done|intros (q & [= <-] & Hn & _); rewrite Hm in Hn; simpl in Hn; tauto]|done]. }
  destruct (String.eqb_spec (pl_mode p) "assist") as [Ha|Ha]; cbn [cd_wouldExecute cd_proposedAction cd_queueState].
  { split; [split; [done|intros (q & [= <-] & Hn & _); rewrite Ha in Hn; simpl in Hn; tauto]|done]. }
  destruct (String.eqb_spec (pl_mode p) "approval") as [Hp|Hp].
  { destruct (autonomous_eligible c), (never_autonomous c); cbn [andb negb cd_wouldExecute cd_proposedAction cd_queueState];
      (split; [split; [done|intros (q & [= <-] & Hn & _); rewrite Hp in Hn; simpl in Hn; tauto]|]); naive_solver. }
  destruct (never_autonomous c); cbn [cd_wouldExecute cd_proposedAction cd_queueState].
  { split; [split; [done|intros (q & _ & _ & He & _); apply Hel, Hx in He; done]|done]. }
  destruct (autonomous_eligible c); cbn [negb cd_wouldExecute cd_proposedAction cd_queueState];
    [|split; [split; [done|intros (q & _ & _ & He & _); by apply Hel in He]|done]].
  assert (Hq : q_ltb (ci_confidence i) (q_max MIN_AUTONOMOUS_CONFIDENCE (pl_minConfidence p)) = false <->
    (8 # 10 <= ci_confidence i)%Q /\ (pl_minConfidence p <= ci_confidence i)%Q).
  { rewrite q_ltb_false. destruct (q_max_le MIN_AUTONOMOUS_CONFIDENCE (pl_minConfidence p)) as [H1 H2]. change (8 # 10)%Q with MIN_AUTONOMOUS_CONFIDENCE.
    split; [intros; split; lra|]. intros [H3 H4]. by destruct (q_max_cases MIN_AUTONOMOUS_CONFIDENCE (pl_minConfidence p)) as [-> | ->]. }
  destruct (q_ltb _ _); cbn [cd_wouldExecute cd_proposedAction cd_queueState].
  - split; [split; [done|intros (q & [= <-] & _ & _ & H1 & H2); discriminate (proj2 Hq (conj H1 H2))]|naive_solver].
  - split; [split; [|done]|naive_solver]. intros _. exists p. split; [done|]. split; [|split; [by apply Hel|by apply Hq]].
    intros [E|[E|[E|[]]]]; by symmetry in E.
Qed.

(** the presets: each gives every category one mode; autonomous only to a category that is
    eligible for it and belongs to no customer voice; and each step from conservative to
    balanced to aggressive only widens what is autonomous. *)
Theorem presets_are_clamped (preset : PresetName) :
  map fst (presetPolicies preset) = CONTROL_CATEGORIES /\
  (forall c, In (c, M_autonomous) (presetPolicies preset) -> c ∈ AUTONOMOUS_ELIGIBLE /\ c ∉ NEVER_AUTONOMOUS) /\
  (forall c, In (c, M_autonomous) (presetPolicies Conservative) -> In (c, M_autonomous) (presetPolicies Balanced)) /\
  (forall c, In (c, M_autonomous) (presetPolicies Balanced) -> In (c, M_autonomous) (presetPolicies Aggressive)).
Proof.
  split; [by destruct preset|].
  assert (Hcheck : forall (P : ControlCategory -> bool) l, forallb (fun '(c, m) => negb (m =e M_autonomous) || P c) l = true ->
    forall c, In (c, M_autonomous) l -> P c = true).
  { intros P l H c Hin. apply (proj1 (forallb_forall _ _) H) in Hin. exact Hin. }
  assert (Hsub : forall l l' : list (ControlCategory * ControlMode), forallb (fun '(c, m) => negb (m =e M_autonomous) || existsb (fun '(k, n) => bool_decide (k = c) && (n =e M_autonomous)) l') l = true ->
    forall c, In (c, M_autonomous) l -> In (c, M_autonomous) l').
  { intros l l' H c Hin. apply (Hcheck _ _ H) in Hin. apply existsb_exists in Hin as ([k n] & Hin & [->%bool_decide_eq_true ->%enum_eqb_eq]%andb_true_iff). exact Hin. }
  split; [|split; apply Hsub; vm_compute; reflexivity].
  intros c Hc. assert (H : autonomous_eligible c && negb (never_autonomous c) = true).
  { revert c Hc. apply Hcheck. destruct preset; vm_compute; reflexivity. }
  apply andb_true_iff in H as [He%bool_decide_eq_true Hn%negb_true_iff%bool_decide_eq_false]. by split.
Qed.

(** Auto-Protect only ever simulates, and never on what is unconfirmed: would-auto-hide is
    decided exactly when nothing awaits review, the category is harmful and its active policy is
    neither monitor nor approval with a minimum the confidence reaches; an item in review always
    goes to a human. *)
Theorem auto_protect_exact (i : AutoProtectInput) (policies : list AutoProtectPolicy) :
  let r := evaluateAutoProtect i policies in
  (pi_requiresReview i = Some true -> po_decision r = D_requires_approval /\ po_safetyBlocked r = true) /\
  (po_decision r = D_would_auto_hide <-> pi_requiresReview i <> Some true /\ po_matchedCategory r ∈ SHADOW_ELIGIBLE /\
     exists p, List.find (fun p => (pp_category p =s js_name (po_matchedCategory r)) && pp_isActive p) policies = Some p /\
       pp_mode p <> "monitor" /\ pp_mode p <> "approval" /\ (pp_minConfidence p <= pi_confidence i)%Q).
Proof.
  intros r. unfold r, evaluateAutoProtect. cbv zeta. set (m := matchAutoProtectCategory _ _). clearbody m.
  assert (Hsh : shadow_eligible m = true <-> m ∈ SHADOW_ELIGIBLE) by apply bool_decide_eq_true.
  assert (Hcr : m = K_normal_criticism -> shadow_eligible m = false) by (by intros ->).
  assert (Hrev : pi_requiresReview i ?? false = true <-> pi_requiresReview i = Some true) by (by destruct (pi_requiresReview i) as [[]|]).
  destruct (pi_requiresReview i ?? false); cbn [po_decision po_safetyBlocked po_matchedCategory].
  { split; [done|split; [done|]]. intros [Hn _]. by destruct Hn; apply Hrev. }
  split; [intros H; by apply Hrev in H|]. assert (Hno : pi_requiresReview i <> Some true) by (rewrite <- Hrev; done). clear Hrev.
  destruct (List.find _ policies) as [p|] eqn:Hf; cbn [po_decision po_matchedCategory]; [|split; [done|intros (_ & _ & p & Hp & _); congruence]].
  assert (Hone : forall (P : AutoProtectPolicy -> Prop), (exists q, List.find (fun p => (pp_category p =s js_name m) && pp_isActive p) policies = Some q /\ P q) <-> P p).
  { intros P. rewrite Hf. split; [by intros (q & [= <-] & Hq)|intros Hq; by exists p]. }
  destruct (String.eqb_spec (pp_mode p) "monitor") as [Hm|Hm]; cbn [po_decision po_matchedCategory].
  { rewrite Hone. destruct (_ && _); split; try done; by intros (_ & _ & ? & _). }
  destruct (String.eqb_spec (pp_mode p) "approval") as [Ha|Ha]; cbn [po_decision po_matchedCategory].
  { rewrite Hone. split; [done|by intros (_ & _ & _ & ? & _)]. }
  destruct (m =e K_normal_criticism) eqn:Hn; cbn [po_decision po_matchedCategory].
  { apply enum_eqb_eq in Hn. split; [done|]. intros (_ & Hs & _). apply Hsh in Hs. by rewrite (Hcr Hn) in Hs. }
  destruct (shadow_eligible m); cbn [negb po_decision po_matchedCategory]; [|split; [done|intros (_ & Hs & _); by apply Hsh in Hs]].
  pose proof (q_ltb_false (pi_confidence i) (pp_minConfidence p)) as Hq.
  destruct (q_ltb _ _); cbn [po_decision po_matchedCategory]; rewrite Hone; (split; [try done|try done]).
  - intros (_ & _ & _ & _ & H). by apply Hq in H.
  - intros _. split; [exact Hno|]. split; [by apply Hsh|]. split; [exact Hm|]. split; [exact Ha|by apply Hq].
Qed.

(** * Where decision and evidence part *)

Definition policy (c : ControlCategory) (mode : string) : ControlPolicyLite :=
  {| pl_id := "p1"; pl_category := js_name c; pl_mode := mode; pl_minConfidence := 8 # 10; pl_isActive := true |}.
(** The control center's input, as the ingestion builds it from a classification. *)
(* src: packages/sync/src/index.ts:945-948 persistNewItem *)
Definition control_input (text : string) (h : HybridResult) : ControlInput :=
  {| ci_text := text; ci_riskSignals := hr_riskSignals h; ci_categories := hr_categories h; ci_sentiment := hr_sentiment h;
     ci_riskLevel := hr_level h; ci_confidence := hr_confidence h |}.
(* src: packages/sync/src/index.ts:807-812 persistNewItem *)
Definition protect_input (text : string) (h : HybridResult) : AutoProtectInput :=
  {| pi_text := text; pi_riskLevel := hr_level h; pi_categories := hr_categories h; pi_riskSignals := hr_riskSignals h;
     pi_sentiment := hr_sentiment h; pi_confidence := hr_confidence h; pi_requiresReview := Some (hr_requiresReview h) |}.

(** No automatic action may be derived from an unconfirmed classification, says the contract of
    the review flag. Auto-Protect keeps it; the control center, which feeds the real hide, is
    not given the flag: with an accusation held for review the comment is still a candidate. *)
Theorem control_ignores_review :
  let h := classifyHybrid english no_translation (sure_of "threat" "critical") (comment "buy now from us" []) (config true []) in
  hr_requiresReview h = true /\
  po_decision (evaluateAutoProtect (protect_input "buy now from us" h) []) = D_requires_approval /\
  cd_wouldExecute (evaluateControl (control_input "buy now from us" h) [policy K_spam "autonomous"]) = true.
Proof. vm_compute. repeat split. Qed.

(** The confidence that lets a hide through may be that of another claim: a model sure that a
    comment is praise makes it a candidate for hiding as terrorism. *)
Theorem praise_hidden_as_terrorism :
  let text := "This shop is the bomb" in
  let h := classifyHybrid english no_translation (sure_of "positive_feedback" "none") (comment text []) (config true []) in
  let d := evaluateControl (control_input text h) (map (fun '(c, m) => policy c (js_name m)) (presetPolicies Balanced)) in
  hr_level h = "none" /\ hr_categories h = ["neutral"; "positive_feedback"] /\ hr_requiresReview h = false /\
  cd_matchedCategory d = K_terrorism_extremism /\ cd_wouldExecute d = true.
Proof. vm_compute. repeat split. Qed.

(** A mode outside the vocabulary is treated as autonomous. *)
Theorem unknown_mode_is_autonomous :
  cd_wouldExecute (evaluateControl {| ci_text := "buy now"; ci_riskSignals := ["spam"]; ci_categories := ["spam"]; ci_sentiment := "negative";
    ci_riskLevel := "high"; ci_confidence := 86 # 100 |} [policy K_spam "disabled"]) = true.
Proof. vm_compute. reflexivity. Qed.

End ControlCenter.
