(* ===== verification/LiveSafety.v ===== *)
(** The safety envelope of real platform actions ([packages/sync/src/production-safety.ts]) and the
    switches an operator has over it ([apps/web/src/app/dashboard/safety-actions.ts]): the tables
    that live actions read and write, the counts over them, the decision of the envelope. *)
From S2P Require Import Prelude JsValue Outbox Access Evidence RiskRules HybridPipeline ControlCenter.
From Stdlib Require Import QArith Lqa.
Open Scope string_scope.
Open Scope list_scope.
Open Scope Z_scope.
Open Scope tam_scope.
Import Evidence RiskRules ControlCenter.

Module LiveSafety.

(** * The tables *)

Inductive Trigger := By_approval | By_autonomy.
#[export] Instance Trigger_dec : EqDecision Trigger.
Proof. solve_decision. Defined.
#[export] Program Instance Trigger_enum : JsEnum Trigger := {|
  js_name x := match x with By_approval => "approval" | By_autonomy => "autonomous" end; js_values := [By_approval; By_autonomy] |}.
Solve All Obligations with solve_js_enum.
Definition HIDE_ACTION : string := "hide_comment".
(** A row of [platform_action_executions]; the columns hold strings. *)
(* src: packages/sync/src/live-actions.ts:182-193 record *)
Record Execution := { x_id : string; x_tenant : string; x_brand : string; x_item : option string; x_queueItem : option string;
  x_policy : option string; x_account : string; x_platform : string; x_actionType : string; x_requestedBy : string; x_trigger : string;
  x_status : string; x_reason : option string; x_category : option string; x_confidence : option Q; x_comment : option string;
  x_post : option string; x_responseCode : option string; x_errorCode : option string; x_errorMessage : option string;
  x_createdAt : Z; x_executedAt : option Z; x_rolledBackAt : option Z }.
(** The connection columns of a connected account. *)
Record AccountConn := { cn_connectionStatus : option string; cn_tokenHealth : option string; cn_health : string; cn_reconnectReason : option string;
  cn_lastError : option string; cn_lastErrorAt : option Z; cn_lastTokenCheckAt : option Z; cn_lastTokenCheckResult : option string;
  cn_lastGoodCheckAt : option Z; cn_tokenExpiresAt : option Z }.
Record LiveAccount := { la_id : string; la_tenant : string; la_brand : string; la_status : string; la_killSwitch : bool; la_conn : AccountConn }.
Record QueueItem := { qi_id : string; qi_tenant : string; qi_brand : string; qi_item : string; qi_category : string; qi_confidence : Q;
  qi_proposedAction : string; qi_state : string; qi_safetyBlocked : bool; qi_approvedBy : option string; qi_rejectedBy : option string }.
Record LiveAudit := { lu_tenant : string; lu_brand : option string; lu_event : string; lu_targetType : string; lu_target : string; lu_reason : option string }.
Record LiveBrand := { lb_id : string; lb_tenant : string; lb_killSwitch : bool }.
Record BrandFeedback := { fb_tenant : string; fb_brand : string; fb_createdAt : Z }.

(* src: packages/sync/src/production-safety.ts:26-40 BrandSafetySettings *)
Record BrandSafetySettings := { ss_liveModeEnabled : bool; ss_autonomousHideEnabled : bool; ss_approvalRequiredAboveDailyLimit : bool;
  ss_dailyAutoHideLimit : Z; ss_hourlyAutoHideLimit : Z; ss_perCategoryDailyLimit : Z; ss_maxConsecutiveWithoutReview : Z;
  ss_minConfidenceForAutoHide : Q; ss_requireDryRunBeforeFirstLive : bool; ss_requireHumanApprovalForNewCategory : bool;
  ss_rollbackRequiredBeforeAutonomy : bool; ss_crisisLockEnabled : bool; ss_approvedAutoHideCategories : list string }.
Record SafetyRow := { sy_tenant : string; sy_brand : string; sy_settings : BrandSafetySettings }.

(** What the provider was asked and answered, in order. *)
(* src: packages/connectors/src/meta/facebook-hide.ts:47-52 HideTransportResult *)
Record HideTransportResult := { ht_ok : bool; ht_responseCode : option string; ht_errorCode : option string; ht_errorMessage : option string }.
(* src: packages/connectors/src/meta/facebook-hide.ts:58-60 CommentState *)
Inductive CommentState := Comment_ok (canHide isHidden : bool) | Comment_error (errorCode : string).
(* src: packages/connectors/src/meta/facebook-hide.ts:63-65 PageTokenState *)
Inductive PageTokenState := Page_ok (pageId : string) (pageName : option string) | Page_error (errorCode : string).
Inductive GraphCall :=
| Asked_hide (comment token : string) (answer : HideTransportResult)
| Asked_unhide (comment token : string) (answer : HideTransportResult)
| Asked_comment (comment token : string) (answer : CommentState)
| Asked_page (page token : string) (answer : PageTokenState).

(** The rows of all tenants, and the calls made so far. *)
Record LiveDb := { w_execs : list Execution; w_accounts : list LiveAccount; w_queue : list QueueItem; w_audits : list LiveAudit;
  w_brands : list LiveBrand; w_settings : list SafetyRow; w_feedback : list BrandFeedback; w_calls : list GraphCall }.
Definition set_execs v (w : LiveDb) : LiveDb := {| w_execs := v; w_accounts := w_accounts w; w_queue := w_queue w; w_audits := w_audits w;
  w_brands := w_brands w; w_settings := w_settings w; w_feedback := w_feedback w; w_calls := w_calls w |}.
Definition set_accounts v (w : LiveDb) : LiveDb := {| w_execs := w_execs w; w_accounts := v; w_queue := w_queue w; w_audits := w_audits w;
  w_brands := w_brands w; w_settings := w_settings w; w_feedback := w_feedback w; w_calls := w_calls w |}.
Definition set_queue v (w : LiveDb) : LiveDb := {| w_execs := w_execs w; w_accounts := w_accounts w; w_queue := v; w_audits := w_audits w;
  w_brands := w_brands w; w_settings := w_settings w; w_feedback := w_feedback w; w_calls := w_calls w |}.
Definition add_audit (a : LiveAudit) (w : LiveDb) : LiveDb := {| w_execs := w_execs w; w_accounts := w_accounts w; w_queue := w_queue w;
  w_audits := w_audits w ++ [a]; w_brands := w_brands w; w_settings := w_settings w; w_feedback := w_feedback w; w_calls := w_calls w |}.
Definition set_brands v (w : LiveDb) : LiveDb := {| w_execs := w_execs w; w_accounts := w_accounts w; w_queue := w_queue w; w_audits := w_audits w;
  w_brands := v; w_settings := w_settings w; w_feedback := w_feedback w; w_calls := w_calls w |}.
Definition set_settings v (w : LiveDb) : LiveDb := {| w_execs := w_execs w; w_accounts := w_accounts w; w_queue := w_queue w; w_audits := w_audits w;
  w_brands := w_brands w; w_settings := v; w_feedback := w_feedback w; w_calls := w_calls w |}.
Definition set_feedback v (w : LiveDb) : LiveDb := {| w_execs := w_execs w; w_accounts := w_accounts w; w_queue := w_queue w; w_audits := w_audits w;
  w_brands := w_brands w; w_settings := w_settings w; w_feedback := v; w_calls := w_calls w |}.
Definition add_call (c : GraphCall) (w : LiveDb) : LiveDb := {| w_execs := w_execs w; w_accounts := w_accounts w; w_queue := w_queue w;
  w_audits := w_audits w; w_brands := w_brands w; w_settings := w_settings w; w_feedback := w_feedback w; w_calls := w_calls w ++ [c] |}.

(** * The envelope *)

(* src: packages/sync/src/production-safety.ts:16-19 LIVE_SAFETY_AUTONOMOUS_ELIGIBLE *)
Definition LIVE_SAFETY_AUTONOMOUS_ELIGIBLE : list string :=
  ["scam"; "phishing"; "spam"; "hate_speech"; "racism"; "terrorism_extremism"; "personal_attack"; "profanity"; "threat"; "brand_impersonation"].
(* src: packages/sync/src/production-safety.ts:22-24 CRISIS_CATEGORIES *)
Definition CRISIS_CATEGORIES : list string := ["crisis_keyword"; "coordinated_attack"; "brand_impersonation"].
(* src: packages/sync/src/production-safety.ts:43-57 DEFAULT_SAFETY_SETTINGS *)
Definition DEFAULT_SAFETY_SETTINGS : BrandSafetySettings := {| ss_liveModeEnabled := false; ss_autonomousHideEnabled := false;
  ss_approvalRequiredAboveDailyLimit := true; ss_dailyAutoHideLimit := 10; ss_hourlyAutoHideLimit := 3; ss_perCategoryDailyLimit := 5;
  ss_maxConsecutiveWithoutReview := 5; ss_minConfidenceForAutoHide := 85 # 100; ss_requireDryRunBeforeFirstLive := true;
  ss_requireHumanApprovalForNewCategory := true; ss_rollbackRequiredBeforeAutonomy := true; ss_crisisLockEnabled := true;
  ss_approvedAutoHideCategories := [] |}.
(* src: packages/sync/src/production-safety.ts:59-64 SafetyCounts *)
Record SafetyCounts := { sk_dayCount : Z; sk_hourCount : Z; sk_categoryDayCount : Z; sk_consecutiveWithoutReview : Z }.
(* src: packages/sync/src/production-safety.ts:66-74 ProductionSafetyContext *)
Record ProductionSafetyContext := { sf_productionSafeMode : bool; sf_globalKillSwitch : bool; sf_brandKillSwitch : bool; sf_accountKillSwitch : bool;
  sf_settings : BrandSafetySettings; sf_counts : SafetyCounts; sf_categoryApprovedBefore : bool; sf_rollbackAvailable : bool }.
Inductive SafetyOutcome := So_allow | So_downgrade | So_blocked.
#[export] Instance SafetyOutcome_dec : EqDecision SafetyOutcome.
Proof. solve_decision. Defined.
(* src: packages/sync/src/production-safety.ts:76-76 SafetyOutcome *)
#[export] Program Instance SafetyOutcome_enum : JsEnum SafetyOutcome := {|
  js_name x := match x with So_allow => "allow" | So_downgrade => "downgrade" | So_blocked => "blocked" end;
  js_values := [So_allow; So_downgrade; So_blocked] |}.
Solve All Obligations with solve_js_enum.
(* src: packages/sync/src/production-safety.ts:78-82 SafetyEvaluation *)
Record SafetyEvaluation := { sv_outcome : SafetyOutcome; sv_reason : string; sv_auditEvent : string }.
(* src: packages/sync/src/production-safety.ts:125-127 block *)
Definition block (reason auditEvent : string) : SafetyEvaluation := {| sv_outcome := So_blocked; sv_reason := reason; sv_auditEvent := auditEvent |}.
(* src: packages/sync/src/production-safety.ts:128-130 downgrade *)
Definition downgrade (reason auditEvent : string) : SafetyEvaluation := {| sv_outcome := So_downgrade; sv_reason := reason; sv_auditEvent := auditEvent |}.
(** [Set.has] of a set of categories, on any string. *)
Definition has_category (l : list ControlCategory) (c : string) : bool := includes (map js_name l) c.
Definition high_or_critical (riskLevel : string) : bool := (riskLevel =s "high") || (riskLevel =s "critical").
(* src: packages/sync/src/production-safety.ts:90-123 evaluateProductionSafety *)
Definition evaluateProductionSafety (trigger : Trigger) (category : string) (confidence : Q) (riskLevel : string) (s : ProductionSafetyContext) : SafetyEvaluation :=
  let st := sf_settings s in
  let allowed := {| sv_outcome := So_allow; sv_reason := "safety_ok"; sv_auditEvent := "autonomous_hide.allowed" |} in
  if sf_globalKillSwitch s then block "global_kill_switch" "kill_switch.blocked"
  else if sf_brandKillSwitch s then block "brand_kill_switch" "kill_switch.blocked"
  else if sf_accountKillSwitch s then block "account_kill_switch" "kill_switch.blocked"
  else if has_category NEVER_AUTONOMOUS category then block "safety_never_live" "safety_floor.blocked"
  else match trigger with
  | By_approval => allowed
  | By_autonomy =>
      if negb (ss_liveModeEnabled st) then downgrade "live_mode_disabled" "autonomous_hide.blocked"
      else if negb (ss_autonomousHideEnabled st) then downgrade "autonomous_disabled" "autonomous_hide.blocked"
      else if negb (includes LIVE_SAFETY_AUTONOMOUS_ELIGIBLE category) then downgrade "category_not_eligible" "autonomous_hide.blocked"
      else if (category =s "threat") && negb (high_or_critical riskLevel) then downgrade "threat_requires_high" "autonomous_hide.blocked"
      else if ss_crisisLockEnabled st && includes CRISIS_CATEGORIES category then downgrade "crisis_lock" "autonomous_hide.blocked"
      else if q_ltb confidence (ss_minConfidenceForAutoHide st) then downgrade "below_min_confidence" "autonomous_hide.blocked"
      else if ss_requireHumanApprovalForNewCategory st && negb (sf_categoryApprovedBefore s) then downgrade "new_category_requires_approval" "autonomous_hide.blocked"
      else if ss_rollbackRequiredBeforeAutonomy st && negb (sf_rollbackAvailable s) then downgrade "rollback_required" "autonomous_hide.blocked"
      else if ss_hourlyAutoHideLimit st <=? sk_hourCount (sf_counts s) then downgrade "hourly_limit" "rate_limit.triggered"
      else if ss_dailyAutoHideLimit st <=? sk_dayCount (sf_counts s) then downgrade "daily_limit" "rate_limit.triggered"
      else if ss_perCategoryDailyLimit st <=? sk_categoryDayCount (sf_counts s) then downgrade "category_daily_limit" "rate_limit.triggered"
      else if ss_maxConsecutiveWithoutReview st <=? sk_consecutiveWithoutReview (sf_counts s) then downgrade "consecutive_review_needed" "rate_limit.triggered"
      else allowed
  end.
(** A row of the table has every column, so what remains of the merge with the defaults is the
    absent row. *)
(* src: packages/sync/src/production-safety.ts:133-136 resolveSafetySettings *)
Definition resolveSafetySettings (row : option BrandSafetySettings) : BrandSafetySettings := row ?? DEFAULT_SAFETY_SETTINGS.
(* src: packages/sync/src/production-safety.ts:139-139 ROLLBACK_AVAILABLE *)
Definition ROLLBACK_AVAILABLE : bool := true.

(** * Counting *)

(** Executed by autonomy for the brand, at or after an instant. *)
Definition counted_hide (tenant brand : string) (x : Execution) : bool :=
  (x_tenant x =s tenant) && (x_brand x =s brand) && (x_status x =s "executed") && (x_trigger x =s "autonomous").
Definition since (t : Z) (x : Execution) : bool := match x_executedAt x with Some e => t <=? e | None => false end.
Definition after (t : Z) (x : Execution) : bool := match x_executedAt x with Some e => t <? e | None => false end.
(** [orderBy: { createdAt: "desc" }], first row *)
Definition latest_of (l : list BrandFeedback) : option BrandFeedback := head (js_sort (fun a b => fb_createdAt b - fb_createdAt a) l).
Definition HOUR : Z := 60 * 60 * 1000.
Definition settings_of (tenant brand : string) (w : LiveDb) : BrandSafetySettings :=
  resolveSafetySettings (option_map sy_settings (List.find (fun r => (sy_tenant r =s tenant) && (sy_brand r =s brand)) (w_settings w))).
(** [midnight] is [setHours(0, 0, 0, 0)] in the time zone of the process. *)
(* src: packages/sync/src/production-safety.ts:145-186 loadProductionSafetyContext *)
Definition loadProductionSafetyContext (safeMode globalKill : bool) (midnight : Z -> Z) (tenant brand account category : string) (now : Z) (w : LiveDb)
    : ProductionSafetyContext :=
  let mine := counted_hide tenant brand in
  let settings := settings_of tenant brand w in
  {| sf_productionSafeMode := safeMode; sf_globalKillSwitch := globalKill;
     sf_brandKillSwitch := match List.find (fun b => (lb_tenant b =s tenant) && (lb_id b =s brand)) (w_brands w) with Some b => lb_killSwitch b | None => false end;
     sf_accountKillSwitch := match List.find (fun a => (la_tenant a =s tenant) && (la_id a =s account)) (w_accounts w) with Some a => la_killSwitch a | None => false end;
     sf_settings := settings;
     sf_counts := {| sk_dayCount := count (fun x => mine x && since (midnight now) x) (w_execs w);
       sk_hourCount := count (fun x => mine x && since (now - HOUR) x) (w_execs w);
       sk_categoryDayCount := count (fun x => mine x && status_is (x_category x) category && since (midnight now) x) (w_execs w);
       sk_consecutiveWithoutReview := count (fun x => mine x && match latest_of (List.filter (fun f => (fb_tenant f =s tenant) && (fb_brand f =s brand)) (w_feedback w)) with
         | Some f => after (fb_createdAt f) x | None => true end) (w_execs w) |};
     sf_categoryApprovedBefore := includes (ss_approvedAutoHideCategories settings) category; sf_rollbackAvailable := ROLLBACK_AVAILABLE |}.

(** * The operator's switches *)

(** What session and form give an action; its [writeAudit] rows carry no reason. *)
Record operator := { op_role : Access.Role; op_tenant : string; op_user : string }.
Inductive reply := Threw (error : string) | Redirected (path kind notice : string).
Definition operator_audit (o : operator) (event : string) (brand : option string) (targetType target : string) : LiveDb -> LiveDb :=
  add_audit {| lu_tenant := op_tenant o; lu_brand := brand; lu_event := event; lu_targetType := targetType; lu_target := target; lu_reason := None |}.
Definition switch_event (on : bool) : string := if on then "kill_switch.enabled" else "kill_switch.disabled".
Definition CONTROL_CENTER : string := "/dashboard/control-center".
Definition own_brand (tenant brand : string) (b : LiveBrand) : bool := (lb_tenant b =s tenant) && (lb_id b =s brand).
Definition own_account (tenant account : string) (a : LiveAccount) : bool := (la_tenant a =s tenant) && (la_id a =s account).
Definition own_settings (tenant brand : string) (r : SafetyRow) : bool := (sy_tenant r =s tenant) && (sy_brand r =s brand).
Definition allowed (o : operator) (p : Access.Permission) (k : LiveDb -> reply * LiveDb) (w : LiveDb) : reply * LiveDb :=
  match Access.assertCan (op_role o) p with Throw e => (Threw e, w) | Ret _ => k w end.
(* src: apps/web/src/app/dashboard/safety-actions.ts:19-32 toggleBrandKillSwitch *)
Definition toggleBrandKillSwitch (o : operator) (brand : string) (on : bool) : LiveDb -> reply * LiveDb :=
  allowed o Access.RuleManage (fun w =>
    match List.find (own_brand (op_tenant o) brand) (w_brands w) with
    | None => (Threw "Brand not found", w)
    | Some _ => (Redirected CONTROL_CENTER "ok" (if on then "Live actions stopped for this brand." else "Live actions resumed for this brand."),
        operator_audit o (switch_event on) (Some brand) "brand" brand
          (set_brands (update_where (own_brand (op_tenant o) brand) (fun b => {| lb_id := lb_id b; lb_tenant := lb_tenant b; lb_killSwitch := on |}) (w_brands w)) w))
    end).
Definition with_modes (on : bool) (s : BrandSafetySettings) : BrandSafetySettings := {| ss_liveModeEnabled := on; ss_autonomousHideEnabled := on;
  ss_approvalRequiredAboveDailyLimit := ss_approvalRequiredAboveDailyLimit s; ss_dailyAutoHideLimit := ss_dailyAutoHideLimit s;
  ss_hourlyAutoHideLimit := ss_hourlyAutoHideLimit s; ss_perCategoryDailyLimit := ss_perCategoryDailyLimit s;
  ss_maxConsecutiveWithoutReview := ss_maxConsecutiveWithoutReview s; ss_minConfidenceForAutoHide := ss_minConfidenceForAutoHide s;
  ss_requireDryRunBeforeFirstLive := ss_requireDryRunBeforeFirstLive s; ss_requireHumanApprovalForNewCategory := ss_requireHumanApprovalForNewCategory s;
  ss_rollbackRequiredBeforeAutonomy := ss_rollbackRequiredBeforeAutonomy s; ss_crisisLockEnabled := ss_crisisLockEnabled s;
  ss_approvedAutoHideCategories := ss_approvedAutoHideCategories s |}.
(** The defaults of the columns are those of [DEFAULT_SAFETY_SETTINGS]. [available] is the feature
    flag together with [canExecuteLive]. *)
(* src: apps/web/src/app/dashboard/safety-actions.ts:40-69 setBrandAutoHide *)
Definition setBrandAutoHide (available : bool) (o : operator) (brand : string) (on acknowledged : bool) : LiveDb -> reply * LiveDb :=
  allowed o Access.RuleManage (fun w =>
    match List.find (own_brand (op_tenant o) brand) (w_brands w) with
    | None => (Threw "Brand not found", w)
    | Some _ =>
        if on && negb available then (Redirected CONTROL_CENTER "error" "Live auto-hide is coming soon and is not active yet. Nothing was changed.", w)
        else if on && negb acknowledged then (Redirected CONTROL_CENTER "error" "Please confirm you understand comments will be hidden automatically.", w)
        else
          let own := own_settings (op_tenant o) brand in
          let rows := if existsb own (w_settings w)
            then update_where own (fun r => {| sy_tenant := sy_tenant r; sy_brand := sy_brand r; sy_settings := with_modes on (sy_settings r) |}) (w_settings w)
            else w_settings w ++ [{| sy_tenant := op_tenant o; sy_brand := brand; sy_settings := with_modes on DEFAULT_SAFETY_SETTINGS |}] in
          (Redirected CONTROL_CENTER "ok" (if on then "Safe auto-hide enabled for this brand." else "Safe auto-hide disabled for this brand."),
           operator_audit o (if on then "live_safety.enabled" else "live_safety.disabled") (Some brand) "brand" brand (set_settings rows w))
    end).
(* src: apps/web/src/app/dashboard/safety-actions.ts:72-85 toggleAccountKillSwitch *)
Definition toggleAccountKillSwitch (o : operator) (account : string) (on : bool) : LiveDb -> reply * LiveDb :=
  allowed o Access.RuleManage (fun w =>
    match List.find (own_account (op_tenant o) account) (w_accounts w) with
    | None => (Threw "Account not found", w)
    | Some a => (Redirected ("/dashboard/accounts/" +:+ account) "ok" (if on then "Live actions stopped for this account." else "Live actions resumed for this account."),
        operator_audit o (switch_event on) (Some (la_brand a)) "connected_account" account
          (set_accounts (update_where (own_account (op_tenant o) account)
             (fun a => {| la_id := la_id a; la_tenant := la_tenant a; la_brand := la_brand a; la_status := la_status a; la_killSwitch := on; la_conn := la_conn a |}) (w_accounts w)) w))
    end).

(** * What the envelope lets through *)

Definition no_kill_switch (s : ProductionSafetyContext) : Prop :=
  sf_globalKillSwitch s = false /\ sf_brandKillSwitch s = false /\ sf_accountKillSwitch s = false.
Definition below_limits (s : ProductionSafetyContext) : Prop :=
  sk_hourCount (sf_counts s) < ss_hourlyAutoHideLimit (sf_settings s) /\ sk_dayCount (sf_counts s) < ss_dailyAutoHideLimit (sf_settings s) /\
  sk_categoryDayCount (sf_counts s) < ss_perCategoryDailyLimit (sf_settings s) /\
  sk_consecutiveWithoutReview (sf_counts s) < ss_maxConsecutiveWithoutReview (sf_settings s).
Definition autonomy_granted (category : string) (confidence : Q) (riskLevel : string) (s : ProductionSafetyContext) : Prop :=
  let st := sf_settings s in
  ss_liveModeEnabled st = true /\ ss_autonomousHideEnabled st = true /\ In category LIVE_SAFETY_AUTONOMOUS_ELIGIBLE /\
  (category = "threat" -> In riskLevel ["high"; "critical"]) /\ (ss_crisisLockEnabled st = true -> ~ In category CRISIS_CATEGORIES) /\
  (ss_minConfidenceForAutoHide st <= confidence)%Q /\
  (ss_requireHumanApprovalForNewCategory st = true -> sf_categoryApprovedBefore s = true) /\
  (ss_rollbackRequiredBeforeAutonomy st = true -> sf_rollbackAvailable s = true) /\ below_limits s.
Lemma high_or_critical_In l : high_or_critical l = true <-> In l ["high"; "critical"].
Proof. unfold high_or_critical. rewrite orb_true_iff, !String.eqb_eq. simpl. naive_solver. Qed.
Lemma high_or_critical_includes l : includes ["high"; "critical"] l = high_or_critical l.
Proof. apply eq_iff_eq_true. by rewrite includes_In, high_or_critical_In. Qed.
Lemma has_category_In l c : has_category l c = true <-> exists k, In k l /\ js_name k = c.
Proof. unfold has_category. rewrite includes_In, in_map_iff. naive_solver. Qed.
Lemma guard_iff (b : bool) (x y : SafetyEvaluation) : sv_outcome x <> So_allow ->
  (sv_outcome (if b then x else y) = So_allow <-> b = false /\ sv_outcome y = So_allow).
Proof. intros Hx. destruct b; [|tauto]. split; [intros H; by destruct Hx|by intros [? _]]. Qed.

Lemma or_imp b c : b = false \/ c = true <-> (b = true -> c = true).
Proof. destruct b; split; naive_solver. Qed.
Lemma or_lock b c : b = false \/ c = false <-> (b = true -> ~ c = true).
Proof. destruct b, c; split; naive_solver. Qed.

Lemma no_kill_dec s : no_kill_switch s \/ ~ no_kill_switch s.
Proof. unfold no_kill_switch. destruct (sf_globalKillSwitch s), (sf_brandKillSwitch s), (sf_accountKillSwitch s); (by left) || (right; by intros (? & ? & ?)). Qed.
Lemma envelope_allows (trigger : Trigger) (category : string) (confidence : Q) (riskLevel : string) (s : ProductionSafetyContext) :
  sv_outcome (evaluateProductionSafety trigger category confidence riskLevel s) = So_allow <->
  no_kill_switch s /\ (forall k, js_name k = category -> k ∉ NEVER_AUTONOMOUS) /\
  (trigger = By_autonomy -> autonomy_granted category confidence riskLevel s).
Proof.
  assert (Hnever : has_category NEVER_AUTONOMOUS category = false <-> forall k, js_name k = category -> k ∉ NEVER_AUTONOMOUS).
  { rewrite <- not_true_iff_false, has_category_In. split; [intros H k E Hk%list_elem_of_In; apply H; by exists k|].
    intros H (k & Hk%list_elem_of_In & E). exact (H k E Hk). }
  unfold evaluateProductionSafety, no_kill_switch. rewrite <- Hnever. clear Hnever. cbv zeta. rewrite !guard_iff by done.
  destruct trigger; cbn [sv_outcome]; [split; [intros (? & ? & ? & ? & _); by repeat split|by intros ((? & ? & ?) & ? & _)]|]. rewrite !guard_iff by done. cbn [sv_outcome].
  assert (Himp : forall P Q : Prop, (P <-> (By_autonomy = By_autonomy -> Q)) <-> (P <-> Q)) by tauto.
  unfold autonomy_granted, below_limits. cbv zeta. rewrite <- !includes_In, high_or_critical_includes.
  rewrite !negb_false_iff, !Z.leb_gt, q_ltb_false, !andb_false_iff, !negb_false_iff, !or_imp, or_lock, String.eqb_eq. tauto.
Qed.

(** the envelope, exactly: a kill switch or a category of customer voice blocks a live action
    whoever triggers it; otherwise an approved one is allowed, and an autonomous one is allowed
    when the brand opted in, the category is eligible, approved before and not locked, the
    confidence suffices and every count is below its limit, and is else left to a human. *)
Theorem envelope_exact (trigger : Trigger) (category : string) (confidence : Q) (riskLevel : string) (s : ProductionSafetyContext) :
  let outcome := sv_outcome (evaluateProductionSafety trigger category confidence riskLevel s) in
  let stopped := ~ no_kill_switch s \/ exists k, js_name k = category /\ k ∈ NEVER_AUTONOMOUS in
  let granted := trigger = By_autonomy -> autonomy_granted category confidence riskLevel s in
  (stopped -> outcome = So_blocked) /\ (~ stopped -> granted -> outcome = So_allow) /\ (~ stopped -> ~ granted -> outcome = So_downgrade).
Proof.
  cbv zeta. pose proof (envelope_allows trigger category confidence riskLevel s) as Ha.
  assert (Hnever : has_category NEVER_AUTONOMOUS category = true <-> exists k, js_name k = category /\ k ∈ NEVER_AUTONOMOUS).
  { rewrite has_category_In. split; intros (k & H1 & H2); exists k; rewrite list_elem_of_In in *; by split. }
  assert (Hb : sv_outcome (evaluateProductionSafety trigger category confidence riskLevel s) = So_blocked <->
    ~ no_kill_switch s \/ has_category NEVER_AUTONOMOUS category = true).
  { clear Ha. unfold evaluateProductionSafety, no_kill_switch. cbv zeta. destruct (sf_globalKillSwitch s); [by split; [left; intros [? _]|]|].
    destruct (sf_brandKillSwitch s); [by split; [left; intros (_ & ? & _)|]|]. destruct (sf_accountKillSwitch s); [by split; [left; intros (_ & _ & ?)|]|].
    destruct (has_category NEVER_AUTONOMOUS category); [split; [by right|done]|].
    split; [|intros [H|[=]]; by destruct H]. destruct trigger; [done|].
    repeat match goal with |- context [if ?b then downgrade _ _ else _] => destruct b; [done|] end. done. }
  rewrite <- Hnever, Hb. split; [done|]. split.
  - intros Hns Hg. apply Ha. split; [|split; [|exact Hg]]; [destruct (no_kill_dec s); [done|by destruct Hns; left]|].
    intros k E Hk. apply Hns. right. apply Hnever. by exists k.
  - intros Hns Hg. destruct (sv_outcome _) eqn:Ho; [|done|by destruct Hns; apply Hb]. destruct Hg. by apply Ha.
Qed.

End LiveSafety.
