(* ===== verification/LiveActions.v ===== *)
(** Hiding a comment for real ([packages/sync/src/live-actions.ts], the hide calls of
    [packages/connectors/src/meta/facebook-hide.ts]) and who does it: the queue actions of the web
    application and the ingestion, whose candidate comes from the control center. *)
From S2P Require Import Prelude JsValue Outbox Access Evidence RiskRules HybridPipeline ControlCenter LiveSafety.
From Stdlib Require Import QArith Lqa.
Open Scope string_scope.
Open Scope list_scope.
Open Scope Z_scope.
Open Scope tam_scope.
Import Evidence RiskRules HybridPipeline ControlCenter LiveSafety.

Module LiveActions.

(** * The provider *)

(** A transport answers on the strength of what it was asked before; two of its methods are
    optional. *)
(* src: packages/connectors/src/meta/facebook-hide.ts:68-77 FacebookHideTransport *)
Record FacebookHideTransport := { tp_hide : list GraphCall -> string -> string -> HideTransportResult;
  tp_unhide : list GraphCall -> string -> string -> HideTransportResult;
  tp_getCommentState : option (list GraphCall -> string -> string -> CommentState);
  tp_getPageTokenState : option (list GraphCall -> string -> string -> PageTokenState) }.
Inductive HideCommentStatus := H_dry_run | H_executed | H_failed.
(* src: packages/connectors/src/meta/facebook-hide.ts:36-44 HideCommentResult *)
Record HideCommentResult := { pc_status : HideCommentStatus; pc_responseCode : option string; pc_errorCode : option string; pc_errorMessage : option string }.

(** Steps over the tables; what was done before an exception stays done. *)
Inductive live_error := P2002.
Definition prog (A : Type) : Type := LiveDb -> LiveDb * outcome A live_error.
#[export] Instance prog_ret : MRet prog := fun A a w => (w, Ret a).
#[export] Instance prog_bind : MBind prog := fun A B k m w =>
  match m w with (w', Ret a) => k a w' | (w', Throw e) => (w', Throw e) end.
Definition throw {A} (e : live_error) : prog A := fun w => (w, Throw e).
Definition read {A} (f : LiveDb -> A) : prog A := fun w => (w, Ret (f w)).
Definition write (f : LiveDb -> LiveDb) : prog unit := fun w => (f w, Ret tt).

Definition ask_hide (tp : FacebookHideTransport) (comment token : string) : prog HideTransportResult := fun w =>
  let a := tp_hide tp (w_calls w) comment token in (add_call (Asked_hide comment token a) w, Ret a).
Definition ask_unhide (tp : FacebookHideTransport) (comment token : string) : prog HideTransportResult := fun w =>
  let a := tp_unhide tp (w_calls w) comment token in (add_call (Asked_unhide comment token a) w, Ret a).
Definition ask_comment (f : list GraphCall -> string -> string -> CommentState) (comment token : string) : prog CommentState := fun w =>
  let a := f (w_calls w) comment token in (add_call (Asked_comment comment token a) w, Ret a).
Definition ask_page (f : list GraphCall -> string -> string -> PageTokenState) (page token : string) : prog PageTokenState := fun w =>
  let a := f (w_calls w) page token in (add_call (Asked_page page token a) w, Ret a).

Definition provider_failure (r : HideTransportResult) : HideCommentResult :=
  {| pc_status := H_failed; pc_responseCode := ht_responseCode r; pc_errorCode := ht_errorCode r; pc_errorMessage := ht_errorMessage r |}.
Definition provider_success (r : HideTransportResult) : HideCommentResult :=
  {| pc_status := H_executed; pc_responseCode := ht_responseCode r; pc_errorCode := None; pc_errorMessage := None |}.
Definition invalid_input (message : string) : HideCommentResult :=
  {| pc_status := H_failed; pc_responseCode := None; pc_errorCode := Some "invalid_input"; pc_errorMessage := Some message |}.
Definition simulated (code : string) : HideCommentResult :=
  {| pc_status := H_dry_run; pc_responseCode := Some code; pc_errorCode := None; pc_errorMessage := None |}.
(* src: packages/connectors/src/meta/facebook-hide.ts:204-220 hideComment *)
Definition hideComment (tp : FacebookHideTransport) (pageId commentId token : string) (dryRun : bool) : prog HideCommentResult :=
  if negb (nonempty commentId) || negb (nonempty pageId) then mret (invalid_input "Missing pageId or commentId.")
  else if dryRun then mret (simulated "dry_run")
  else r ← ask_hide tp commentId token; mret (if ht_ok r then provider_success r else provider_failure r).
(* src: packages/connectors/src/meta/facebook-hide.ts:226-241 unhideComment *)
Definition unhideComment (tp : FacebookHideTransport) (commentId token : string) (dryRun : bool) : prog HideCommentResult :=
  if negb (nonempty commentId) then mret (invalid_input "Missing commentId.")
  else if dryRun then mret (simulated "unhide_dry_run")
  else r ← ask_unhide tp commentId token; mret (if ht_ok r then provider_success r else provider_failure r).

(** * The Graph transport and the mock *)

(** The requests of the Graph transport, by what their URL and body carry; [None]: the fetch
    throws; the JSON is absent when the body is none. *)
Inductive GraphRequest := Post_hidden (comment token : string) (isHidden : bool) | Get_comment (comment token : string) | Get_page (page token : string).
Record GraphJson := { gj_errorCode : option Z; gj_can_hide : bool; gj_is_hidden : bool; gj_id : option string; gj_name : option string }.
Record GraphResponse := { gr_status : Z; gr_json : option GraphJson }.
Definition gr_ok (r : GraphResponse) : bool := between 200 299 (gr_status r).
Definition gr_code (r : GraphResponse) : option Z := match gr_json r with Some j => gj_errorCode j | None => None end.
Definition code_in (l : list Z) (code : option Z) : bool := match code with Some c => existsb (Z.eqb c) l | None => false end.
(* src: packages/connectors/src/meta/facebook-hide.ts:154-166 classifyErr *)
Definition classifyErr (status : Z) (code : option Z) : string :=
  if (status =? 429) || code_in [4; 17; 32; 613] code then "rate_limit"
  else if code_in [190] code then "token_expired"
  else if code_in [467] code then "revoked"
  else if code_in [100] code || (status =? 404) then "not_found"
  else if code_in [10; 200; 803] code then "permission"
  else if status =? 403 then "permission"
  else "generic".
Section Graph.
Context (metaFetch : list GraphCall -> GraphRequest -> option GraphResponse).
(** [metaFetch] is the whole of a call: it repeats a request that got no answer, a 429 or a server
    error twice at most, so that one post here is up to three requests for the same hidden state. *)
(* src: packages/connectors/src/meta/facebook-hide.ts:124-147 post *)
Definition graph_post (log : list GraphCall) (comment token : string) (isHidden : bool) : HideTransportResult :=
  match metaFetch log (Post_hidden comment token isHidden) with
  | None => {| ht_ok := false; ht_responseCode := None; ht_errorCode := Some "network"; ht_errorMessage := Some "Graph hide request failed (network)." |}
  | Some res =>
      let status := Outbox.string_of_int (gr_status res) in
      if gr_ok res then {| ht_ok := true; ht_responseCode := Some status; ht_errorCode := None; ht_errorMessage := None |}
      else
        let rateLimited := (gr_status res =? 429) || code_in [4; 17; 32; 613] (gr_code res) in
        {| ht_ok := false; ht_responseCode := Some status;
           ht_errorCode := Some (if rateLimited then "rate_limit" else if code_in [190] (gr_code res) then "token_expired"
             else if gr_status res =? 403 then "permission" else "generic");
           ht_errorMessage := Some ("Graph hide failed (HTTP " +:+ status +:+ ").") |}
  end.
(* src: packages/connectors/src/meta/facebook-hide.ts:167-181 getCommentState *)
Definition graph_comment (log : list GraphCall) (comment token : string) : CommentState :=
  match metaFetch log (Get_comment comment token) with
  | None => Comment_error "network"
  | Some res =>
      if gr_ok res then match gr_json res with Some j => Comment_ok (gj_can_hide j) (gj_is_hidden j) | None => Comment_error "network" end
      else Comment_error (classifyErr (gr_status res) (gr_code res))
  end.
(* src: packages/connectors/src/meta/facebook-hide.ts:182-196 getPageTokenState *)
Definition graph_page (log : list GraphCall) (page token : string) : PageTokenState :=
  match metaFetch log (Get_page page token) with
  | None => Page_error "network"
  | Some res =>
      if gr_ok res then match gr_json res with Some j => Page_ok (gj_id j ?? page) (gj_name j) | None => Page_error "network" end
      else Page_error (classifyErr (gr_status res) (gr_code res))
  end.
(* src: packages/connectors/src/meta/facebook-hide.ts:122-197 GraphFacebookHideTransport *)
Definition GraphFacebookHideTransport : FacebookHideTransport := {| tp_hide log c t := graph_post log c t true; tp_unhide log c t := graph_post log c t false;
  tp_getCommentState := Some graph_comment; tp_getPageTokenState := Some graph_page |}.
End Graph.
(** Whether the last of the mock's posts hid the comment. *)
Definition hiddenByPost (log : list GraphCall) : bool :=
  fold_left (fun b c => match c with Asked_hide _ _ a => if ht_ok a then true else b | Asked_unhide _ _ a => if ht_ok a then false else b | _ => b end) log false.
(* src: packages/connectors/src/meta/facebook-hide.ts:83-116 MockFacebookHideTransport *)
Definition MockFacebookHideTransport (outcome : HideTransportResult) (comment : CommentState) (page : PageTokenState) : FacebookHideTransport :=
  {| tp_hide _ _ _ := outcome; tp_unhide _ _ _ := outcome;
     tp_getCommentState := Some (fun log _ _ => match comment with Comment_ok can _ => if hiddenByPost log then Comment_ok can true else comment | _ => comment end);
     tp_getPageTokenState := Some (fun _ _ _ => page) |}.

(** * One attempt *)

(* src: packages/config/src/index.ts:312-338 getLiveActionsConfig *)
Record LiveConfig := { lc_liveEnabled : bool; lc_facebookHideEnabled : bool; lc_dryRun : bool; lc_testConfirm : string;
  lc_productionSafeMode : bool; lc_globalKillSwitch : bool }.
Definition canExecuteLive (c : LiveConfig) : bool := lc_liveEnabled c && lc_facebookHideEnabled c && negb (lc_dryRun c).
Definition liveConfirmed (c : LiveConfig) : bool := lc_testConfirm c =s "YES".
Inductive HideExecutionStatus := E_blocked | E_dry_run | E_executed | E_failed.
#[export] Instance HideExecutionStatus_dec : EqDecision HideExecutionStatus.
Proof. solve_decision. Defined.
(* src: packages/sync/src/live-actions.ts:21-21 HideExecutionStatus *)
#[export] Program Instance HideExecutionStatus_enum : JsEnum HideExecutionStatus := {|
  js_name x := match x with E_blocked => "blocked" | E_dry_run => "dry_run" | E_executed => "executed" | E_failed => "failed" end;
  js_values := [E_blocked; E_dry_run; E_executed; E_failed] |}.
Solve All Obligations with solve_js_enum.
(* src: packages/sync/src/live-actions.ts:23-31 HideExecutionResult *)
Record HideExecutionResult := { er_id : string; er_status : HideExecutionStatus; er_reason : string; er_idempotent : bool; er_createdAt : option Z }.
(** The account as the caller hands it over. *)
Record HideAccount := { ha_status : string; ha_health : string; ha_grantedPermissions : list string; ha_accessToken : option string;
  ha_pageId : option string; ha_externalId : string; ha_tokenExpiresAt : option Z; ha_needsReconnect : bool;
  ha_connectionStatus : option string; ha_tokenHealth : option string }.
(* src: packages/sync/src/live-actions.ts:33-66 HideContext *)
Record HideContext := { cx_tenant : string; cx_brand : string; cx_item : string; cx_queueItem : option string; cx_policy : option string;
  cx_account : string; cx_platform : string; cx_comment : option string; cx_post : option string; cx_category : string;
  cx_confidence : Q; cx_riskLevel : string; cx_mode : string; cx_trigger : Trigger; cx_acct : HideAccount; cx_requestedBy : option string }.
Definition with_acct (a : HideAccount) (c : HideContext) : HideContext := {| cx_tenant := cx_tenant c; cx_brand := cx_brand c; cx_item := cx_item c;
  cx_queueItem := cx_queueItem c; cx_policy := cx_policy c; cx_account := cx_account c; cx_platform := cx_platform c; cx_comment := cx_comment c;
  cx_post := cx_post c; cx_category := cx_category c; cx_confidence := cx_confidence c; cx_riskLevel := cx_riskLevel c; cx_mode := cx_mode c;
  cx_trigger := cx_trigger c; cx_acct := a; cx_requestedBy := cx_requestedBy c |}.
(* src: packages/sync/src/live-actions.ts:68-68 MIN_CONFIDENCE *)
Definition MIN_CONFIDENCE : Q := 8 # 10.
Definition truthy (o : option string) : bool := match o with Some s => nonempty s | None => false end.
Definition bad_token (h : option string) : bool := match h with Some s => includes ["expired"; "invalid"; "revoked"] s | None => false end.
Definition expired (now : Z) (a : HideAccount) : bool := match ha_tokenExpiresAt a with Some t => t <=? now | None => false end.
(* src: packages/sync/src/live-actions.ts:110-134 gate *)
Definition gate (now : Z) (c : HideContext) (cfg : LiveConfig) : option string :=
  let a := cx_acct c in
  if negb (lc_liveEnabled cfg) then Some "global_disabled"
  else if negb (lc_facebookHideEnabled cfg) then Some "facebook_hide_disabled"
  else if negb (cx_platform c =s "facebook_page") then Some "unsupported_platform"
  else if ha_status a =s "mock_connected" then Some "account_is_demo"
  else if negb (ha_status a =s "active") then Some "account_not_active"
  else if truthy (ha_connectionStatus a) && negb (status_is (ha_connectionStatus a) "connected") then Some "reconnect_required"
  else if bad_token (ha_tokenHealth a) then Some "token_not_healthy"
  else if ha_needsReconnect a then Some "token_expired"
  else if expired now a then Some "token_expired"
  else if negb (ha_health a =s "healthy") then Some "unhealthy_account"
  else if negb (includes (ha_grantedPermissions a) FACEBOOK_HIDE_PERMISSION) then Some "missing_permission"
  else if has_category NEVER_AUTONOMOUS (cx_category c) then Some "safety_never_autonomous"
  else if negb (has_category AUTONOMOUS_ELIGIBLE (cx_category c)) then Some "category_not_eligible"
  else if (cx_trigger c =e By_autonomy) && negb (cx_mode c =s "autonomous") then Some "policy_not_autonomous"
  else if q_ltb (cx_confidence c) MIN_CONFIDENCE then Some "low_confidence"
  else if (cx_category c =s "threat") && negb (high_or_critical (cx_riskLevel c)) then Some "threat_requires_critical"
  else if negb (truthy (cx_comment c)) then Some "missing_comment_id"
  else None.
Inductive PredictedOutcome := Pr_blocked | Pr_dry_run | Pr_live_possible.
#[export] Instance PredictedOutcome_dec : EqDecision PredictedOutcome.
Proof. solve_decision. Defined.
(* src: packages/sync/src/live-actions.ts:76-85 predictHideOutcome *)
Definition predictHideOutcome (now : Z) (c : HideContext) (cfg : LiveConfig) : PredictedOutcome * string :=
  match gate now c cfg with
  | Some reason => (Pr_blocked, reason)
  | None =>
      if lc_dryRun cfg || negb (canExecuteLive cfg) then (Pr_dry_run, "dry_run_mode")
      else if negb (liveConfirmed cfg) then (Pr_blocked, "live_confirm_required")
      else (Pr_live_possible, "all_gates_passed_and_confirmed")
  end.
Inductive PrimaryAction := Pa_live_hide | Pa_approve | Pa_hard_stop.
(* src: packages/sync/src/live-actions.ts:96-107 resolvePrimaryAction *)
Definition resolvePrimaryAction (proposedAction : string) (expected : option PredictedOutcome) (alreadyExecuted : bool) : PrimaryAction * bool * bool :=
  let isHide := proposedAction =s HIDE_ACTION in
  if isHide && alreadyExecuted then (Pa_hard_stop, false, false)
  else if isHide && negb alreadyExecuted && match expected with Some Pr_live_possible => true | _ => false end then (Pa_live_hide, false, true)
  else (Pa_approve, true, false).

(** ** Steps of an attempt *)

Section Attempt.
(** The process: its transport and configuration, the instant of the attempt (one for the whole
    of it) and the id of the row it may create. *)
Context (tp : FacebookHideTransport) (cfg : LiveConfig) (now : Z) (newId : string).

Definition of_tenant_x (tenant : string) (x : Execution) : bool := x_tenant x =s tenant.
(* src: packages/sync/src/live-actions.ts:156-166 attemptWhere *)
Definition attemptWhere (c : HideContext) (x : Execution) : bool :=
  (x_tenant x =s cx_tenant c) && bool_decide (x_item x = Some (cx_item c)) && bool_decide (x_queueItem x = cx_queueItem c) &&
  (x_account x =s cx_account c) && (x_actionType x =s HIDE_ACTION) && (x_trigger x =s js_name (cx_trigger c)) && bool_decide (x_policy x = cx_policy c).
Definition newest_first (l : list Execution) : list Execution := js_sort (fun a b => x_createdAt b - x_createdAt a) l.
(* src: packages/sync/src/live-actions.ts:169-174 findExistingExecutions *)
Definition findExistingExecutions (c : HideContext) (w : LiveDb) : list Execution := newest_first (List.filter (attemptWhere c) (w_execs w)).
(* src: packages/sync/src/live-actions.ts:140-150 findPreflightDryRun *)
Definition findPreflightDryRun (tenant : string) (queueItem policy : option string) (w : LiveDb) : option Execution :=
  match queueItem with
  | Some q => if nonempty q then head (newest_first (List.filter (fun x => (x_tenant x =s tenant) && bool_decide (x_queueItem x = Some q) &&
      bool_decide (x_policy x = policy) && (x_actionType x =s HIDE_ACTION) && (x_trigger x =s "approval") && (x_status x =s "dry_run") &&
      is_none (x_executedAt x)) (w_execs w))) else None
  | None => None
  end.
Definition update_account (c : HideContext) (p : LiveAccount -> bool) (f : AccountConn -> AccountConn) (w : LiveDb) : LiveDb :=
  set_accounts (update_where (fun a => own_account (cx_tenant c) (cx_account c) a && p a)
    (fun a => {| la_id := la_id a; la_tenant := la_tenant a; la_brand := la_brand a; la_status := la_status a; la_killSwitch := la_killSwitch a; la_conn := f (la_conn a) |})
    (w_accounts w)) w.
(* src: packages/sync/src/live-actions.ts:290-296 resolveQueueItem *)
Definition resolveQueueItem (c : HideContext) (state : QueueState) (w : LiveDb) : LiveDb :=
  match cx_queueItem c with
  | Some q => if nonempty q then set_queue (update_where (fun i => (qi_tenant i =s cx_tenant c) && (qi_id i =s q) && negb (qi_state i =s "rejected"))
      (fun i => {| qi_id := qi_id i; qi_tenant := qi_tenant i; qi_brand := qi_brand i; qi_item := qi_item i; qi_category := qi_category i;
         qi_confidence := qi_confidence i; qi_proposedAction := qi_proposedAction i; qi_state := js_name state; qi_safetyBlocked := qi_safetyBlocked i;
         qi_approvedBy := qi_approvedBy i; qi_rejectedBy := qi_rejectedBy i |}) (w_queue w)) w else w
  | None => w
  end.
Definition opt_map {A B} (f : A -> option B) (o : option A) : option B := obind o f.
Definition new_execution (c : HideContext) (status : HideExecutionStatus) (reason : string) (provider : option HideCommentResult) : Execution :=
  {| x_id := newId; x_tenant := cx_tenant c; x_brand := cx_brand c; x_item := Some (cx_item c); x_queueItem := cx_queueItem c; x_policy := cx_policy c;
     x_account := cx_account c; x_platform := cx_platform c; x_actionType := HIDE_ACTION; x_requestedBy := cx_requestedBy c ?? "system";
     x_trigger := js_name (cx_trigger c); x_status := js_name status; x_reason := Some reason; x_category := Some (cx_category c);
     x_confidence := Some (cx_confidence c); x_comment := cx_comment c; x_post := cx_post c;
     x_responseCode := opt_map pc_responseCode provider; x_errorCode := opt_map pc_errorCode provider; x_errorMessage := opt_map pc_errorMessage provider;
     x_createdAt := now; x_executedAt := if status =e E_executed then Some now else None; x_rolledBackAt := None |}.
(** The partial unique index over executed rows of a queue item. *)
Definition same_action (x y : Execution) : bool :=
  match x_queueItem x, x_queueItem y with
  | Some p, Some q => (p =s q) && (x_actionType x =s x_actionType y) && (x_trigger x =s x_trigger y) && (x_status x =s "executed") && (x_status y =s "executed")
  | _, _ => false
  end.
Definition status_event (s : HideExecutionStatus) : string :=
  match s with E_executed => "platform_action.executed" | E_failed => "platform_action.failed" | E_dry_run => "platform_action.dry_run" | E_blocked => "platform_action.blocked" end.
Definition execution_audit (c : HideContext) (event target : string) (reason : string) : LiveAudit :=
  {| lu_tenant := cx_tenant c; lu_brand := Some (cx_brand c); lu_event := event; lu_targetType := "platform_action_execution"; lu_target := target; lu_reason := Some reason |}.
(* src: packages/sync/src/live-actions.ts:208-211 record *)
Definition mark_token_expired (c : HideContext) : LiveDb -> LiveDb := update_account c (fun _ => true) (fun n =>
  {| cn_connectionStatus := cn_connectionStatus n; cn_tokenHealth := cn_tokenHealth n; cn_health := "error"; cn_reconnectReason := cn_reconnectReason n;
     cn_lastError := Some "token_expired"; cn_lastErrorAt := Some now; cn_lastTokenCheckAt := cn_lastTokenCheckAt n;
     cn_lastTokenCheckResult := cn_lastTokenCheckResult n; cn_lastGoodCheckAt := cn_lastGoodCheckAt n; cn_tokenExpiresAt := cn_tokenExpiresAt n |}).
(* src: packages/sync/src/live-actions.ts:176-230 record *)
Definition record (c : HideContext) (status : HideExecutionStatus) (reason : string) (provider : option HideCommentResult) : prog HideExecutionResult :=
  let exec := new_execution c status reason provider in
  taken ← read (fun w => existsb (same_action exec) (w_execs w));
  if taken : bool then
    existing ← read (fun w => head (newest_first (List.filter (fun x => attemptWhere c x && (x_status x =s "executed")) (w_execs w))));
    match existing : option Execution return prog HideExecutionResult with
    | Some x => mret {| er_id := x_id x; er_status := E_executed; er_reason := x_reason x ?? reason; er_idempotent := true; er_createdAt := Some (x_createdAt x) |}
    | None => throw P2002
    end
  else
    write (fun w => set_execs (w_execs w ++ [exec]) w);;
    (if (status =e E_failed) && match provider with Some p => status_is (pc_errorCode p) "token_expired" | None => false end
     then write (mark_token_expired c) else mret tt);;
    (if status =e E_executed then write (resolveQueueItem c Q_executed) else mret tt);;
    write (add_audit (execution_audit c (status_event status) newId reason));;
    mret {| er_id := newId; er_status := status; er_reason := reason; er_idempotent := false; er_createdAt := None |}.
(* src: packages/sync/src/live-actions.ts:238-245 accountLooksStale *)
Definition accountLooksStale (a : HideAccount) : bool :=
  (truthy (ha_connectionStatus a) && negb (status_is (ha_connectionStatus a) "connected")) || bad_token (ha_tokenHealth a) || ha_needsReconnect a || expired now a.
Definition token_health_of (errorCode : string) : string :=
  if errorCode =s "token_expired" then "expired" else if errorCode =s "revoked" then "revoked" else "invalid".
Definition repaired (a : HideAccount) : HideAccount := {| ha_status := ha_status a; ha_health := ha_health a; ha_grantedPermissions := ha_grantedPermissions a;
  ha_accessToken := ha_accessToken a; ha_pageId := ha_pageId a; ha_externalId := ha_externalId a; ha_tokenExpiresAt := None; ha_needsReconnect := false;
  ha_connectionStatus := Some "connected"; ha_tokenHealth := Some "ok" |}.
Definition condemned (health : string) (a : HideAccount) : HideAccount := {| ha_status := ha_status a; ha_health := ha_health a;
  ha_grantedPermissions := ha_grantedPermissions a; ha_accessToken := ha_accessToken a; ha_pageId := ha_pageId a; ha_externalId := ha_externalId a;
  ha_tokenExpiresAt := ha_tokenExpiresAt a; ha_needsReconnect := ha_needsReconnect a;
  ha_connectionStatus := Some "needs_reconnect"; ha_tokenHealth := Some health |}.
(** The mutated context is returned. *)
(* src: packages/sync/src/live-actions.ts:254-283 revalidateAndRepair *)
Definition revalidateAndRepair (c : HideContext) : prog HideContext :=
  let a := cx_acct c in
  match tp_getPageTokenState tp, ha_accessToken a with
  | Some check, Some token =>
      if negb (nonempty token) then mret c
      else
        st ← ask_page check (ha_pageId a ?? ha_externalId a) token;
        match st return prog HideContext with
        | Page_ok _ _ =>
            write (update_account c (fun r => negb (la_status r =s "disconnected")) (fun n =>
              {| cn_connectionStatus := Some "connected"; cn_tokenHealth := Some "ok"; cn_health := "healthy"; cn_reconnectReason := None;
                 cn_lastError := None; cn_lastErrorAt := None; cn_lastTokenCheckAt := Some now; cn_lastTokenCheckResult := Some "ok";
                 cn_lastGoodCheckAt := Some now; cn_tokenExpiresAt := None |}));;
            mret (with_acct (repaired a) c)
        | Page_error e =>
            if includes ["rate_limit"; "network"; "generic"] e then
              write (update_account c (fun _ => true) (fun n =>
                {| cn_connectionStatus := cn_connectionStatus n; cn_tokenHealth := cn_tokenHealth n; cn_health := cn_health n;
                   cn_reconnectReason := cn_reconnectReason n; cn_lastError := cn_lastError n; cn_lastErrorAt := cn_lastErrorAt n;
                   cn_lastTokenCheckAt := Some now; cn_lastTokenCheckResult := Some e; cn_lastGoodCheckAt := cn_lastGoodCheckAt n;
                   cn_tokenExpiresAt := cn_tokenExpiresAt n |}));;
              mret c
            else
              let tokenHealth := token_health_of e in
              write (update_account c (fun _ => true) (fun n =>
                {| cn_connectionStatus := Some "needs_reconnect"; cn_tokenHealth := Some tokenHealth; cn_health := "error"; cn_reconnectReason := Some e;
                   cn_lastError := Some e; cn_lastErrorAt := Some now; cn_lastTokenCheckAt := Some now; cn_lastTokenCheckResult := Some e;
                   cn_lastGoodCheckAt := cn_lastGoodCheckAt n; cn_tokenExpiresAt := cn_tokenExpiresAt n |}));;
              mret (with_acct (condemned tokenHealth a) c)
        end
  | _, _ => mret c
  end.
(* src: packages/sync/src/live-actions.ts:299-305 markAccountReconnect *)
Definition markAccountReconnect (c : HideContext) (errorCode : string) : LiveDb -> LiveDb := update_account c (fun _ => true) (fun n =>
  {| cn_connectionStatus := Some "needs_reconnect"; cn_tokenHealth := Some (token_health_of errorCode); cn_health := "error";
     cn_reconnectReason := Some errorCode; cn_lastError := Some errorCode; cn_lastErrorAt := Some now; cn_lastTokenCheckAt := cn_lastTokenCheckAt n;
     cn_lastTokenCheckResult := cn_lastTokenCheckResult n; cn_lastGoodCheckAt := cn_lastGoodCheckAt n; cn_tokenExpiresAt := cn_tokenExpiresAt n |}).
Definition token_of (c : HideContext) : string := ha_accessToken (cx_acct c) ?? "".
(* src: packages/sync/src/live-actions.ts:312-337 commentPreflight *)
Definition commentPreflight (c : HideContext) : prog (option HideExecutionResult) :=
  let done status reason := r ← record c status reason None; mret (Some r) in
  match tp_getCommentState tp, cx_comment c with
  | Some look, Some comment =>
      if negb (nonempty comment) then mret None
      else
        st ← ask_comment look comment (token_of c);
        match st return prog (option HideExecutionResult) with
        | Comment_error e =>
            if e =s "not_found" then write (resolveQueueItem c Q_no_action);; done E_blocked "comment_deleted_or_unavailable"
            else if includes ["token_expired"; "token_invalid"; "revoked"] e then write (markAccountReconnect c e);; done E_blocked "reconnect_required"
            else if e =s "permission" then done E_blocked "missing_permission"
            else done E_failed e
        | Comment_ok canHide isHidden =>
            if isHidden then done E_executed "already_hidden"
            else if negb canHide then write (resolveQueueItem c Q_no_action);; done E_blocked "facebook_can_hide_false"
            else mret None
        end
  | _, _ => mret None
  end.
(* src: packages/sync/src/live-actions.ts:344-352 recordVerifiedHide *)
Definition recordVerifiedHide (c : HideContext) (provider : HideCommentResult) : prog HideExecutionResult :=
  let succeed := record c E_executed "live_hide_executed" (Some provider) in
  match tp_getCommentState tp, cx_comment c with
  | Some look, Some comment =>
      if negb (nonempty comment) then succeed
      else
        v ← ask_comment look comment (token_of c);
        match v return prog HideExecutionResult with
        | Comment_ok _ false => record c E_failed "verification_failed" (Some provider)
        | _ => succeed
        end
  | _, _ => succeed
  end.
(* src: packages/sync/src/live-actions.ts:355-363 writeSafetyAudit *)
Definition writeSafetyAudit (c : HideContext) (ev : SafetyEvaluation) : LiveDb -> LiveDb :=
  add_audit {| lu_tenant := cx_tenant c; lu_brand := Some (cx_brand c); lu_event := sv_auditEvent ev; lu_targetType := "action_queue_item";
    lu_target := cx_queueItem c ?? cx_item c; lu_reason := Some (sv_reason ev) |}.

(** ** The attempt *)

(* src: packages/sync/src/live-actions.ts:367-371 attemptFacebookHide *)
Record AttemptOpts := { op_retry : bool; op_liveAttempt : bool; op_safety : option ProductionSafetyContext }.
Definition page_of (c : HideContext) : string := ha_pageId (cx_acct c) ?? ha_externalId (cx_acct c).
(** [ctx.externalCommentId!]: the gate has let it through. *)
Definition comment_of (c : HideContext) : string := cx_comment c ?? "".
(* src: packages/sync/src/live-actions.ts:504-512 attemptFacebookHide *)
Definition hide_for_real (c : HideContext) : prog HideExecutionResult :=
  pre ← commentPreflight c;
  match pre : option HideExecutionResult return prog HideExecutionResult with
  | Some r => mret r
  | None =>
      r ← hideComment tp (page_of c) (comment_of c) (token_of c) false;
      match pc_status r with
      | H_executed => recordVerifiedHide c r
      | _ => record c E_failed (pc_errorCode r ?? "provider_error") (Some r)
      end
  end.
(* src: packages/sync/src/live-actions.ts:474-478 attemptFacebookHide *)
Definition simulate (c : HideContext) : prog HideExecutionResult :=
  r ← hideComment tp (page_of c) (comment_of c) "" true; record c E_dry_run "dry_run_mode" (Some r).
Definition repair_if_stale (o : AttemptOpts) (c : HideContext) : prog HideContext :=
  if (canExecuteLive cfg || op_liveAttempt o) && accountLooksStale (cx_acct c) then revalidateAndRepair c else mret c.
Definition productionOptIn (o : AttemptOpts) (c : HideContext) : bool :=
  (cx_trigger c =e By_autonomy) && match op_safety o with Some s => sf_productionSafeMode s | None => false end.
(** From the gate on. *)
(* src: packages/sync/src/live-actions.ts:446-512 attemptFacebookHide *)
Definition gated_attempt (o : AttemptOpts) (c : HideContext) : prog HideExecutionResult :=
  match gate now c cfg with
  | Some reason => record c E_blocked reason None
  | None =>
      if op_liveAttempt o then
        if lc_dryRun cfg then record c E_blocked "dry_run_still_enabled" None
        else if negb (canExecuteLive cfg) then record c E_blocked "live_not_enabled" None
        else if negb (liveConfirmed cfg) then record c E_blocked "live_confirm_required" None
        else hide_for_real c
      else if lc_dryRun cfg || negb (canExecuteLive cfg) then simulate c
      else if negb (liveConfirmed cfg) && negb (productionOptIn o c) then record c E_blocked "live_confirm_required" None
      else if negb (cx_trigger c =e By_autonomy) then simulate c
      else hide_for_real c
  end.
(** A fresh attempt: the envelope, then the repair, then the gate. *)
(* src: packages/sync/src/live-actions.ts:427-444 attemptFacebookHide *)
Definition fresh_attempt (o : AttemptOpts) (c : HideContext) : prog HideExecutionResult :=
  let go := c' ← repair_if_stale o c; gated_attempt o c' in
  match op_safety o with
  | None => go
  | Some s =>
      let ev := evaluateProductionSafety (cx_trigger c) (cx_category c) (cx_confidence c) (cx_riskLevel c) s in
      write (writeSafetyAudit c ev);;
      match sv_outcome ev with So_allow => go | _ => record c E_blocked (sv_reason ev) None end
  end.
Definition reuse (x : Execution) (status : HideExecutionStatus) (reason : string) : HideExecutionResult :=
  {| er_id := x_id x; er_status := status; er_reason := reason; er_idempotent := true; er_createdAt := Some (x_createdAt x) |}.
(** An attempt that read [existing]; another may have written since. *)
(* src: packages/sync/src/live-actions.ts:385-425 attemptFacebookHide *)
Definition attempt_seeing (existing : list Execution) (o : AttemptOpts) (c : HideContext) : prog HideExecutionResult :=
  match existing with
  | [] => fresh_attempt o c
  | latest :: _ =>
      match List.find (fun r => x_status r =s "executed") existing with
      | Some executed => mret (reuse executed E_executed "already_executed")
      | None =>
          match (if op_liveAttempt o then None else List.find (fun r => x_status r =s "dry_run") existing) with
          | Some dry => mret (reuse dry E_dry_run (x_reason dry ?? "dry_run_mode"))
          | None =>
              if (x_status latest =s "failed") && negb (op_retry o) then mret (reuse latest E_failed (x_reason latest ?? "provider_error"))
              else if x_status latest =s "blocked" then
                c' ← repair_if_stale o c;
                match gate now c' cfg with
                | Some nowReason => if nonempty nowReason && status_is (x_reason latest) nowReason then mret (reuse latest E_blocked nowReason) else fresh_attempt o c'
                | None => fresh_attempt o c'
                end
              else fresh_attempt o c
          end
      end
  end.
(* src: packages/sync/src/live-actions.ts:365-513 attemptFacebookHide *)
Definition attemptFacebookHide (o : AttemptOpts) (c : HideContext) : prog HideExecutionResult :=
  existing ← read (findExistingExecutions c); attempt_seeing existing o c.

(** ** After the fact *)

Inductive CommentLifecycle := L_visible | L_hidden | L_deleted | L_cannot_hide | L_token_error | L_unknown.
(** The token is the one the vault resolves, if any. *)
(* src: packages/sync/src/live-actions.ts:522-541 getCommentLifecycle *)
Definition getCommentLifecycle (token : option string) (comment : string) : prog CommentLifecycle :=
  if negb (nonempty comment) then mret L_unknown
  else match tp_getCommentState tp, token with
  | Some look, Some t =>
      if negb (nonempty t) then mret L_unknown
      else
        st ← ask_comment look comment t;
        mret (match st with
          | Comment_error e => if e =s "not_found" then L_deleted else if includes ["token_expired"; "token_invalid"; "revoked"] e then L_token_error else L_unknown
          | Comment_ok canHide isHidden => if isHidden then L_hidden else if negb canHide then L_cannot_hide else L_visible
          end)
  | _, _ => mret L_unknown
  end.
Inductive RollbackStatus := R_rolled_back | R_dry_run | R_failed.
Definition with_rollback (x : Execution) : Execution := {| x_id := x_id x; x_tenant := x_tenant x; x_brand := x_brand x; x_item := x_item x;
  x_queueItem := x_queueItem x; x_policy := x_policy x; x_account := x_account x; x_platform := x_platform x; x_actionType := x_actionType x;
  x_requestedBy := x_requestedBy x; x_trigger := x_trigger x; x_status := "rolled_back"; x_reason := x_reason x; x_category := x_category x;
  x_confidence := x_confidence x; x_comment := x_comment x; x_post := x_post x; x_responseCode := x_responseCode x; x_errorCode := x_errorCode x;
  x_errorMessage := x_errorMessage x; x_createdAt := x_createdAt x; x_executedAt := x_executedAt x; x_rolledBackAt := Some now |}.
Definition own_execution (tenant executionId : string) (x : Execution) : bool := (x_tenant x =s tenant) && (x_id x =s executionId).
(* src: packages/sync/src/live-actions.ts:553-588 rollbackHide *)
Definition rollbackHide (tenant executionId : string) (token : option string) (live : bool) : prog (RollbackStatus * string) :=
  exec ← read (fun w => List.find (fun x => own_execution tenant executionId x && (x_status x =s "executed")) (w_execs w));
  match exec : option Execution return prog (RollbackStatus * string) with
  | None => mret (R_failed, "no_executed_row")
  | Some x =>
      match x_comment x with
      | None => mret (R_failed, "no_executed_row")
      | Some comment =>
          if negb (nonempty comment) then mret (R_failed, "no_executed_row")
          else
            let auditRollback event reason := write (add_audit {| lu_tenant := x_tenant x; lu_brand := Some (x_brand x); lu_event := event;
              lu_targetType := "platform_action_execution"; lu_target := x_id x; lu_reason := Some reason |}) in
            auditRollback "live_hide.rollback_requested" "requested";;
            r ← unhideComment tp comment (token ?? "") (negb live);
            match pc_status r return prog (RollbackStatus * string) with
            | H_executed =>
                write (fun w => set_execs (update_where (own_execution tenant (x_id x)) with_rollback (w_execs w)) w);;
                auditRollback "live_hide.rolled_back" "rolled_back";;
                mret (R_rolled_back, "ok")
            | H_dry_run => mret (R_dry_run, "rollback_dry_run")
            | H_failed =>
                let reason := pc_errorCode r ?? "rollback_failed" in
                auditRollback "live_hide.failed" reason;; mret (R_failed, reason)
            end
      end
  end.

(** * The callers *)

(** What the web action reads beside the queue item: the comment with its connected account, as
    they are at that moment, with the page token the vault resolves; and the brand's active policy. *)
Record HideSubject := { su_riskLevel : string; su_comment : option string; su_post : option string; su_account : string; su_platform : string;
  su_status : string; su_health : string; su_grantedPermissions : list string; su_pageId : option string; su_externalId : string;
  su_tokenExpiresAt : option Z; su_lastError : option string; su_connectionStatus : option string; su_tokenHealth : option string;
  su_token : option string }.
Definition needs_reconnect (s : HideSubject) : bool :=
  status_is (su_connectionStatus s) "needs_reconnect" || bad_token (su_tokenHealth s) || status_is (su_lastError s) "token_expired".
Definition account_of (s : HideSubject) : HideAccount := {| ha_status := su_status s; ha_health := su_health s; ha_grantedPermissions := su_grantedPermissions s;
  ha_accessToken := su_token s; ha_pageId := su_pageId s; ha_externalId := su_externalId s; ha_tokenExpiresAt := su_tokenExpiresAt s;
  ha_needsReconnect := needs_reconnect s; ha_connectionStatus := su_connectionStatus s; ha_tokenHealth := su_tokenHealth s |}.
(* src: apps/web/src/app/dashboard/action-queue/[id]/actions.ts:53-61 runHideForQueueItem *)
Definition manual_context (tenant : string) (q : QueueItem) (s : HideSubject) (policy : option (string * string)) : HideContext :=
  {| cx_tenant := tenant; cx_brand := qi_brand q; cx_item := qi_item q; cx_queueItem := Some (qi_id q); cx_policy := option_map fst policy;
     cx_account := su_account s; cx_platform := su_platform s; cx_comment := su_comment s; cx_post := su_post s; cx_category := qi_category q;
     cx_confidence := qi_confidence q; cx_riskLevel := su_riskLevel s; cx_mode := option_map snd policy ?? "approval"; cx_trigger := By_approval;
     cx_acct := account_of s; cx_requestedBy := Some "user" |}.
(** What the page of the item predicts on: the same, but for the token, its expiry and the reconnect mark,
    which it does not pass. (Where the stored connection does not look well and live execution is on, the
    page first has the token checked and predicts on the outcome; that is not part of the model.) *)
(* src: apps/web/src/app/dashboard/action-queue/[id]/page.tsx:89-96 predicted *)
Definition predicted_context (c : HideContext) : HideContext := let a := cx_acct c in
  with_acct {| ha_status := ha_status a; ha_health := ha_health a; ha_grantedPermissions := ha_grantedPermissions a; ha_accessToken := None;
    ha_pageId := ha_pageId a; ha_externalId := ha_externalId a; ha_tokenExpiresAt := None; ha_needsReconnect := false;
    ha_connectionStatus := ha_connectionStatus a; ha_tokenHealth := ha_tokenHealth a |} c.
Definition resolve_by (tenant queueItem : string) (state : QueueState) (user : option string) (w : LiveDb) : LiveDb :=
  set_queue (update_where (fun i => (qi_tenant i =s tenant) && (qi_id i =s queueItem) && negb (qi_state i =s "rejected"))
    (fun i => {| qi_id := qi_id i; qi_tenant := qi_tenant i; qi_brand := qi_brand i; qi_item := qi_item i; qi_category := qi_category i;
       qi_confidence := qi_confidence i; qi_proposedAction := qi_proposedAction i; qi_state := js_name state; qi_safetyBlocked := qi_safetyBlocked i;
       qi_approvedBy := or_else user (qi_approvedBy i); qi_rejectedBy := qi_rejectedBy i |}) (w_queue w)) w.
(** The notices are words for the result; [None]: the tenant may not operate, or there is no
    account to act on. *)
(* src: apps/web/src/app/dashboard/action-queue/[id]/actions.ts:24-70 runHideForQueueItem *)
Definition runHideForQueueItem (operates : bool) (o : operator) (q : QueueItem) (subject : LiveDb -> option HideSubject) (policy : option (string * string))
    (retry liveAttempt : bool) : prog (option HideExecutionResult) :=
  if liveAttempt && negb operates then mret None
  else
  found ← read subject;
  match found : option HideSubject return prog (option HideExecutionResult) with
  | None => mret None
  | Some s =>
      res ← attemptFacebookHide {| op_retry := retry; op_liveAttempt := liveAttempt; op_safety := None |} (manual_context (op_tenant o) q s policy);
      (if er_status res =e E_executed then write (resolve_by (op_tenant o) (qi_id q) Q_executed (Some (op_user o)))
       else if er_reason res =s "comment_deleted_or_unavailable" then write (resolve_by (op_tenant o) (qi_id q) Q_no_action None)
       else mret tt);;
      mret (Some res)
  end.
Definition queue_update (tenant i : string) (f : QueueItem -> QueueItem) (w : LiveDb) : LiveDb :=
  set_queue (update_where (fun x => (qi_tenant x =s tenant) && (qi_id x =s i)) f (w_queue w)) w.
Definition with_queue_state (state : QueueState) (approved rejected : option string) (i : QueueItem) : QueueItem :=
  {| qi_id := qi_id i; qi_tenant := qi_tenant i; qi_brand := qi_brand i; qi_item := qi_item i; qi_category := qi_category i;
     qi_confidence := qi_confidence i; qi_proposedAction := qi_proposedAction i; qi_state := js_name state; qi_safetyBlocked := qi_safetyBlocked i;
     qi_approvedBy := or_else approved (qi_approvedBy i); qi_rejectedBy := or_else rejected (qi_rejectedBy i) |}.
Definition queue_audit (o : operator) (event : string) (q : QueueItem) : LiveDb -> LiveDb :=
  operator_audit o event (Some (qi_brand q)) "action_queue_item" (qi_id q).
Definition own_queue_item (tenant i : string) (x : QueueItem) : bool := (qi_tenant x =s tenant) && (qi_id x =s i).
(** An action starts by [assertCan] and by loading the item; both throw. *)
Inductive action_result := Refused (error : string) | Done (result : option HideExecutionResult).
(* src: apps/web/src/app/dashboard/action-queue/[id]/actions.ts:17-21 loadQueueItem *)
Definition loadQueueItem (o : operator) (p : Access.Permission) (i : string) (k : QueueItem -> prog action_result) : prog action_result := fun w =>
  match Access.assertCan (op_role o) p with
  | Throw e => (w, Ret (Refused e))
  | Ret _ => match List.find (own_queue_item (op_tenant o) i) (w_queue w) with None => (w, Ret (Refused "Queue item not found")) | Some q => k q w end
  end.
(* src: apps/web/src/app/dashboard/action-queue/[id]/actions.ts:103-119 approveQueueItem *)
Definition approveQueueItem (operates : bool) (o : operator) (i : string) (subject : LiveDb -> option HideSubject) (policy : option (string * string)) : prog action_result :=
  loadQueueItem o Access.ProposalApprove i (fun q =>
    write (fun w => queue_audit o "approval.approved" q (queue_update (op_tenant o) i (with_queue_state Q_approved (Some (op_user o)) None) w));;
    if qi_proposedAction q =s HIDE_ACTION then r ← runHideForQueueItem operates o q subject policy false false; mret (Done r) else mret (Done None)).
(* src: apps/web/src/app/dashboard/action-queue/[id]/actions.ts:126-136 approveWithoutHide *)
Definition approveWithoutHide (o : operator) (i : string) : prog action_result :=
  loadQueueItem o Access.ProposalApprove i (fun q =>
    write (fun w => queue_audit o "approval.approved" q (queue_update (op_tenant o) i (with_queue_state Q_approved (Some (op_user o)) None) w));; mret (Done None)).
(* src: apps/web/src/app/dashboard/action-queue/[id]/actions.ts:143-152 retryQueueItem *)
Definition retryQueueItem (operates : bool) (o : operator) (i : string) (subject : LiveDb -> option HideSubject) (policy : option (string * string)) : prog action_result :=
  loadQueueItem o Access.ProposalApprove i (fun q =>
    if negb (qi_proposedAction q =s HIDE_ACTION) then mret (Done None)
    else write (queue_audit o "approval.retried" q);; r ← runHideForQueueItem operates o q subject policy true false; mret (Done r)).
(* src: apps/web/src/app/dashboard/action-queue/[id]/actions.ts:197-207 markHandledQueueItem *)
Definition markHandledQueueItem (o : operator) (i : string) : prog action_result :=
  loadQueueItem o Access.ProposalApprove i (fun q =>
    write (fun w => queue_audit o "approval.resolved" q (queue_update (op_tenant o) i (with_queue_state Q_no_action None None) w));; mret (Done None)).
(* src: apps/web/src/app/dashboard/action-queue/[id]/actions.ts:209-220 rejectQueueItem *)
Definition rejectQueueItem (o : operator) (i : string) : prog action_result :=
  loadQueueItem o Access.ProposalApprove i (fun q =>
    write (fun w => queue_audit o "approval.rejected" q (queue_update (op_tenant o) i (with_queue_state Q_rejected None (Some (op_user o))) w));; mret (Done None)).

(** ** The ingestion *)

(** What the ingestion of a new comment has when it reaches the control center: the item it
    created, the comment with its account, the verdicts of billing and protection settings. *)
Record Ingest := { ig_tenant : string; ig_brand : string; ig_item : string; ig_subject : HideSubject; ig_operates : bool; ig_hideFeature : bool;
  ig_autoHideEnabled : bool; ig_autoHideMode : string; ig_queueId : string }.
Definition decided (queueId : string) (g : Ingest) (d : ControlDecision) (before : option QueueItem) : QueueItem :=
  {| qi_id := match before with Some i => qi_id i | None => queueId end; qi_tenant := ig_tenant g; qi_brand := match before with Some i => qi_brand i | None => ig_brand g end;
     qi_item := ig_item g; qi_category := js_name (cd_matchedCategory d); qi_confidence := cd_confidence d; qi_proposedAction := js_name (cd_proposedAction d);
     qi_state := js_name (cd_queueState d); qi_safetyBlocked := cd_safetyBlocked d;
     qi_approvedBy := match before with Some i => qi_approvedBy i | None => None end; qi_rejectedBy := match before with Some i => qi_rejectedBy i | None => None end |}.
Definition queued_for (g : Ingest) (i : QueueItem) : bool := (qi_tenant i =s ig_tenant g) && (qi_item i =s ig_item g).
(** The upsert by item; gives the id of the row. *)
(* src: packages/sync/src/index.ts:949-953 persistNewItem *)
Definition upsert_queue (g : Ingest) (d : ControlDecision) : prog string := fun w =>
  match List.find (queued_for g) (w_queue w) with
  | Some i => (set_queue (update_where (queued_for g) (fun x => decided (ig_queueId g) g d (Some x)) (w_queue w)) w, Ret (qi_id i))
  | None => (set_queue (w_queue w ++ [decided (ig_queueId g) g d None]) w, Ret (ig_queueId g))
  end.
(* src: packages/sync/src/index.ts:970-985 persistNewItem *)
Definition autonomous_context (g : Ingest) (queueId : string) (policy : ControlPolicyLite) (d : ControlDecision) (riskLevel : string) : HideContext :=
  let s := ig_subject g in
  {| cx_tenant := ig_tenant g; cx_brand := ig_brand g; cx_item := ig_item g; cx_queueItem := Some queueId; cx_policy := Some (pl_id policy);
     cx_account := su_account s; cx_platform := su_platform s; cx_comment := su_comment s; cx_post := su_post s;
     cx_category := js_name (cd_matchedCategory d); cx_confidence := cd_confidence d; cx_riskLevel := riskLevel; cx_mode := pl_mode policy;
     cx_trigger := By_autonomy; cx_acct := account_of s; cx_requestedBy := Some "system" |}.
Definition TERMINAL : list string := ["comment_deleted_or_unavailable"; "facebook_can_hide_false"].
Definition to_approval (tenant queueId : string) : LiveDb -> LiveDb := queue_update tenant queueId (fun i =>
  {| qi_id := qi_id i; qi_tenant := qi_tenant i; qi_brand := qi_brand i; qi_item := qi_item i; qi_category := qi_category i; qi_confidence := qi_confidence i;
     qi_proposedAction := qi_proposedAction i; qi_state := js_name Q_approval_required; qi_safetyBlocked := true; qi_approvedBy := qi_approvedBy i;
     qi_rejectedBy := qi_rejectedBy i |}).
Definition may_act (g : Ingest) (d : ControlDecision) (policy : option ControlPolicyLite) : bool :=
  match policy with Some p => pl_mode p =s "autonomous" | None => false end && cd_wouldExecute d && ig_operates g && ig_hideFeature g &&
  ig_autoHideEnabled g && (ig_autoHideMode g =s "automatic").
(** [policies] are the brand's active ones. The incidents an item may raise are left out. *)
(* src: packages/sync/src/index.ts:939-995 persistNewItem *)
Definition control_phase (midnight : Z -> Z) (g : Ingest) (i : ControlInput) (policies : list ControlPolicyLite) : prog (option HideExecutionResult) :=
  match policies with
  | [] => mret None
  | _ =>
      let d := evaluateControl i policies in
      queueId ← upsert_queue g d;
      let matched := List.find (fun p => pl_category p =s js_name (cd_matchedCategory d)) policies in
      match matched return prog (option HideExecutionResult) with
      | Some p =>
          if may_act g d matched then
            safety ← read (loadProductionSafetyContext (lc_productionSafeMode cfg) (lc_globalKillSwitch cfg) midnight (ig_tenant g) (ig_brand g)
              (su_account (ig_subject g)) (js_name (cd_matchedCategory d)) now);
            res ← attemptFacebookHide {| op_retry := false; op_liveAttempt := false; op_safety := Some safety |} (autonomous_context g queueId p d (ci_riskLevel i));
            (if (er_status res =e E_blocked) && negb (includes TERMINAL (er_reason res)) then write (to_approval (ig_tenant g) queueId) else mret tt);;
            mret (Some res)
          else mret None
      | None => mret None
      end
  end.
End Attempt.

(** The preflight of a live hide writes a row of its own. *)
(* src: apps/web/src/app/dashboard/action-queue/[id]/actions.ts:162-191 executeLiveHide *)
Definition executeLiveHide (tp : FacebookHideTransport) (cfg : LiveConfig) (now : Z) (preflightId newId : string) (operates : bool) (o : operator)
    (i confirmPhrase : string) (understood isRetry : bool) (subject : LiveDb -> option HideSubject) (policy : option (string * string)) : prog action_result :=
  loadQueueItem o Access.ProposalApprove i (fun q =>
    if negb (qi_proposedAction q =s HIDE_ACTION) then mret (Done None)
    else if negb understood || negb (trim confirmPhrase =s "LIVE HIDE") then mret (Done None)
    else
      dry ← read (findPreflightDryRun (op_tenant o) (Some (qi_id q)) (option_map fst policy));
      (if is_some (dry : option Execution) then mret None else runHideForQueueItem tp cfg now preflightId operates o q subject policy false false);;
      write (queue_audit o "platform_action.live_requested" q);;
      r ← runHideForQueueItem tp cfg now newId operates o q subject policy isRetry true; mret (Done r)).

(** * What an attempt may do *)

Section Effects.
Context (tp : FacebookHideTransport) (cfg : LiveConfig) (now : Z) (newId : string).

(** The tables no attempt writes. *)
Definition settled (w w' : LiveDb) : Prop := w_brands w' = w_brands w /\ w_settings w' = w_settings w /\ w_feedback w' = w_feedback w.
(** A call about the comment of the context with its token; a hide only where [K]. *)
Definition call_ok (c : HideContext) (K : Prop) (call : GraphCall) : Prop :=
  match call with
  | Asked_hide comment token _ => K /\ comment = comment_of c /\ token = token_of c
  | Asked_unhide _ _ _ => False
  | Asked_comment comment token _ => comment = comment_of c /\ token = token_of c
  | Asked_page _ token _ => token = token_of c
  end.
Definition calls_ok (c : HideContext) (K : Prop) (w w' : LiveDb) : Prop := exists new, w_calls w' = w_calls w ++ new /\ Forall (call_ok c K) new.
(** At most one row is added, an executed one only where [K]. *)
Definition row_added (c : HideContext) (K : Prop) (w w' : LiveDb) : Prop :=
  w_execs w' = w_execs w \/ exists status reason provider, let x := new_execution now newId c status reason provider in
    (status = E_executed -> K) /\ existsb (same_action x) (w_execs w) = false /\ w_execs w' = w_execs w ++ [x].
Definition effect (c : HideContext) (K : Prop) (w w' : LiveDb) : Prop := settled w w' /\ calls_ok c K w w' /\ row_added c K w w'.
Definition quiet (c : HideContext) (K : Prop) (w w' : LiveDb) : Prop := settled w w' /\ calls_ok c K w w' /\ w_execs w' = w_execs w.
Definition has_effect {A} (c : HideContext) (K : Prop) (m : prog A) : Prop := forall w, effect c K w (m w).1.
Definition is_quiet {A} (c : HideContext) (K : Prop) (m : prog A) : Prop := forall w, quiet c K w (m w).1.

Lemma quiet_refl c K w : quiet c K w w.
Proof. split; [done|]. split; [|done]. exists []. by rewrite app_nil_r. Qed.
Lemma quiet_effect c K w w' : quiet c K w w' -> effect c K w w'.
Proof. intros (Hs & Hc & He). split; [done|]. split; [done|by left]. Qed.
Lemma calls_trans c K w1 w2 w3 : calls_ok c K w1 w2 -> calls_ok c K w2 w3 -> calls_ok c K w1 w3.
Proof. intros (n1 & E1 & F1) (n2 & E2 & F2). exists (n1 ++ n2). rewrite E2, E1, app_assoc. split; [done|]. by apply Forall_app. Qed.
Lemma quiet_then_effect c K w1 w2 w3 : quiet c K w1 w2 -> effect c K w2 w3 -> effect c K w1 w3.
Proof.
  intros ((B1 & S1 & F1) & C1 & E1) ((B2 & S2 & F2) & C2 & R). split; [unfold settled; by rewrite B2, S2, F2|].
  split; [by apply (calls_trans c K w1 w2)|]. unfold row_added. by rewrite <- E1.
Qed.
Lemma effect_then_quiet c K w1 w2 w3 : effect c K w1 w2 -> quiet c K w2 w3 -> effect c K w1 w3.
Proof.
  intros ((B1 & S1 & F1) & C1 & R) ((B2 & S2 & F2) & C2 & E2). split; [unfold settled; by rewrite B2, S2, F2|].
  split; [by apply (calls_trans c K w1 w2)|]. unfold row_added. by rewrite E2.
Qed.
Lemma quiet_trans c K w1 w2 w3 : quiet c K w1 w2 -> quiet c K w2 w3 -> quiet c K w1 w3.
Proof.
  intros ((B1 & S1 & F1) & C1 & E1) ((B2 & S2 & F2) & C2 & E2). split; [unfold settled; by rewrite B2, S2, F2|].
  split; [by apply (calls_trans c K w1 w2)|]. by rewrite E2.
Qed.
Lemma effect_weaken c (K K' : Prop) w w' : (K -> K') -> effect c K w w' -> effect c K' w w'.
Proof.
  intros H (Hs & (new & Hc & Hf) & Hr). split; [done|]. split.
  - exists new. split; [done|]. apply (Forall_impl _ _ _ Hf). intros [] Hk; simpl in *; naive_solver.
  - destruct Hr as [?|(st & r & p & Hk & Hx)]; [by left|]. right. exists st, r, p. split; [auto|done].
Qed.
Lemma bind_quiet {A B} c K (m : prog A) (k : A -> prog B) : is_quiet c K m -> (forall a, is_quiet c K (k a)) -> is_quiet c K (m ≫= k).
Proof.
  intros Hm Hk w. specialize (Hm w). unfold mbind, prog_bind. destruct (m w) as [w1 [a|e]]; [|done].
  apply (quiet_trans c K w w1); [exact Hm|apply Hk].
Qed.
Lemma bind_effect {A B} c K (m : prog A) (k : A -> prog B) : is_quiet c K m -> (forall a, has_effect c K (k a)) -> has_effect c K (m ≫= k).
Proof.
  intros Hm Hk w. specialize (Hm w). unfold mbind, prog_bind. destruct (m w) as [w1 [a|e]]; [|by apply quiet_effect].
  apply (quiet_then_effect c K w w1); [exact Hm|apply Hk].
Qed.
Lemma effect_bind {A B} c K (m : prog A) (k : A -> prog B) : has_effect c K m -> (forall a, is_quiet c K (k a)) -> has_effect c K (m ≫= k).
Proof.
  intros Hm Hk w. specialize (Hm w). unfold mbind, prog_bind. destruct (m w) as [w1 [a|e]]; [|done].
  apply (effect_then_quiet c K w w1); [exact Hm|apply Hk].
Qed.
Lemma mret_quiet {A} c K (a : A) : is_quiet c K (mret a).
Proof. intros w. apply quiet_refl. Qed.
Lemma throw_quiet {A} c K e : is_quiet c K (throw e : prog A).
Proof. intros w. apply quiet_refl. Qed.
Lemma read_quiet {A} c K (f : LiveDb -> A) : is_quiet c K (read f).
Proof. intros w. apply quiet_refl. Qed.
Lemma write_quiet c K (f : LiveDb -> LiveDb) : (forall w, settled w (f w) /\ w_calls (f w) = w_calls w /\ w_execs (f w) = w_execs w) -> is_quiet c K (write f).
Proof. intros H w. destruct (H w) as (Hs & Hc & He). split; [done|]. split; [|done]. exists []. simpl. by rewrite Hc, app_nil_r. Qed.
Lemma quiet_has_effect {A} c K (m : prog A) : is_quiet c K m -> has_effect c K m.
Proof. intros H w. apply quiet_effect, H. Qed.
Lemma call_quiet c K call w : call_ok c K call -> quiet c K w (add_call call w).
Proof. intros H. split; [done|]. split; [|done]. exists [call]. split; [done|]. by apply Forall_singleton. Qed.
Lemma ask_comment_quiet c K f : is_quiet c K (ask_comment f (comment_of c) (token_of c)).
Proof. intros w. by apply call_quiet. Qed.
Lemma ask_hide_quiet c (K : Prop) : K -> is_quiet c K (ask_hide tp (comment_of c) (token_of c)).
Proof. intros H w. by apply call_quiet. Qed.
Lemma resolve_settled c state w : settled w (resolveQueueItem c state w) /\ w_calls (resolveQueueItem c state w) = w_calls w /\ w_execs (resolveQueueItem c state w) = w_execs w.
Proof. unfold resolveQueueItem. destruct (cx_queueItem c) as [q|]; [destruct (nonempty q)|]; done. Qed.

Lemma record_effect c (K : Prop) status reason provider : (status = E_executed -> K) -> has_effect c K (record now newId c status reason provider).
Proof.
  intros HK. unfold record. cbv zeta. intros w. unfold mbind at 1, prog_bind at 1, read at 1. cbn [fst].
  destruct (existsb _ (w_execs w)) eqn:Ht.
  - apply (quiet_has_effect c K). apply bind_quiet; [apply read_quiet|]. intros [x|]; [apply mret_quiet|apply throw_quiet].
  - set (x := new_execution now newId c status reason provider) in *.
    apply (effect_then_quiet c K w (set_execs (w_execs w ++ [x]) w)).
    + split; [done|]. split; [exists []; by rewrite app_nil_r|]. right. by exists status, reason, provider.
    + unfold mbind at 1, prog_bind at 1, write at 1. cbn [fst].
      match goal with |- quiet c K ?w1 (?m ?w1).1 => generalize w1; change (is_quiet c K m) end.
      apply bind_quiet; [|intros _; apply bind_quiet; [|intros _; apply bind_quiet; [by apply write_quiet|intros _; apply mret_quiet]]].
      * destruct (_ && _); [by apply write_quiet|apply mret_quiet].
      * destruct (status =e E_executed); [apply write_quiet; intros w1; apply resolve_settled|apply mret_quiet].
Qed.

Lemma revalidate_quiet c K : is_quiet c K (revalidateAndRepair tp now c).
Proof.
  unfold revalidateAndRepair. destruct (tp_getPageTokenState tp) as [check|]; [|apply mret_quiet].
  destruct (ha_accessToken (cx_acct c)) as [token|] eqn:Ht; [|apply mret_quiet]. destruct (nonempty token); [|apply mret_quiet]. cbn [negb].
  apply bind_quiet.
  - intros w. apply call_quiet. simpl. unfold token_of. by rewrite Ht.
  - intros [? ?|e]; [apply bind_quiet; [by apply write_quiet|intros _; apply mret_quiet]|].
    destruct (includes _ e); (apply bind_quiet; [by apply write_quiet|intros _; apply mret_quiet]).
Qed.
(** The repaired context: the same account, but for what a token check tells of it. *)
Definition renewed (c c' : HideContext) : Prop := exists a, c' = with_acct a c /\ ha_status a = ha_status (cx_acct c) /\ ha_health a = ha_health (cx_acct c) /\
  ha_grantedPermissions a = ha_grantedPermissions (cx_acct c) /\ ha_accessToken a = ha_accessToken (cx_acct c).
Lemma renewed_refl c : renewed c c.
Proof. exists (cx_acct c). by destruct c. Qed.
Lemma renewed_trans c1 c2 c3 : renewed c1 c2 -> renewed c2 c3 -> renewed c1 c3.
Proof. intros (a & -> & H1 & H2 & H3 & H4) (b & -> & K1 & K2 & K3 & K4). exists b. cbn [cx_acct with_acct] in *. repeat split; congruence. Qed.
Lemma renewed_effect c c' K w w' : renewed c c' -> effect c' K w w' -> effect c K w w'.
Proof.
  intros (a & -> & _ & _ & _ & Ht) (Hs & (new & Hc & Hf) & Hr). split; [done|]. split; [|exact Hr]. exists new. split; [done|].
  apply (Forall_impl _ _ _ Hf). intros []; simpl; unfold token_of, comment_of; cbn [with_acct cx_acct cx_comment]; rewrite ?Ht; auto.
Qed.
Lemma revalidate_renewed c w c' : (revalidateAndRepair tp now c w).2 = Ret c' -> renewed c c'.
Proof.
  unfold revalidateAndRepair. destruct (tp_getPageTokenState tp) as [check|]; [|intros [= <-]; apply renewed_refl].
  destruct (ha_accessToken (cx_acct c)) as [token|] eqn:Ht; [|intros [= <-]; apply renewed_refl].
  destruct (nonempty token); [|intros [= <-]; apply renewed_refl]. cbn [negb].
  unfold mbind, prog_bind, ask_page, write, mret, prog_ret. cbn beta iota. destruct (check (w_calls w) _ _) as [? ?|e]; cbn [snd].
  - intros [= <-]. by exists (repaired (cx_acct c)).
  - destruct (includes _ e); cbn [snd]; intros [= <-]; [apply renewed_refl|by eexists].
Qed.

Lemma preflight_effect c (K : Prop) : K -> has_effect c K (commentPreflight tp now newId c).
Proof.
  intros HK. unfold commentPreflight. cbv zeta.
  assert (Hrec : forall status reason, has_effect c K (r ← record now newId c status reason None; mret (Some r))).
  { intros status reason. apply effect_bind; [by apply record_effect|intros r; apply mret_quiet]. }
  destruct (tp_getCommentState tp) as [look|]; [|apply quiet_has_effect, mret_quiet].
  destruct (cx_comment c) as [comment|] eqn:Hc; [|apply quiet_has_effect, mret_quiet].
  destruct (nonempty comment); cbn [negb]; [|apply quiet_has_effect, mret_quiet].
  apply bind_effect; [pose proof (ask_comment_quiet c K look) as Ha; unfold comment_of in Ha; by rewrite Hc in Ha|].
  intros [can hidden|e].
  - destruct hidden; [apply Hrec|]. destruct can; cbn [negb]; [apply quiet_has_effect, mret_quiet|].
    apply bind_effect; [apply write_quiet; intros w; apply resolve_settled|intros _; apply Hrec].
  - destruct (e =s "not_found"); [apply bind_effect; [apply write_quiet; intros w; apply resolve_settled|intros _; apply Hrec]|].
    destruct (includes _ e); [apply bind_effect; [by apply write_quiet|intros _; apply Hrec]|].
    destruct (e =s "permission"); apply Hrec.
Qed.
(** A preflight that lets the hide through recorded nothing. *)
Lemma preflight_through c K w w' : commentPreflight tp now newId c w = (w', Ret None) -> quiet c K w w'.
Proof.
  unfold commentPreflight. cbv zeta. destruct (tp_getCommentState tp) as [look|]; [|intros [= <-]; apply quiet_refl].
  destruct (cx_comment c) as [comment|] eqn:Hc; [|intros [= <-]; apply quiet_refl].
  destruct (nonempty comment); cbn [negb]; [|intros [= <-]; apply quiet_refl].
  pose proof (ask_comment_quiet c K look w) as Ha. unfold comment_of in Ha. rewrite Hc in Ha. cbn [nullish] in Ha.
  unfold mbind at 1, prog_bind at 1. unfold ask_comment in *. cbn [fst] in Ha.
  assert (Hrec : forall status reason w1, (r ← record now newId c status reason None; mret (Some r) : prog (option HideExecutionResult)) w1 = (w', Ret None) -> False).
  { intros status reason w1. unfold mbind, prog_bind. destruct (record _ _ _ _ _ _ w1) as [w2 [r|e]]; [unfold mret, prog_ret|]; congruence. }
  destruct (look _ _ _) as [can hidden|e].
  - destruct hidden; [intros H; by apply Hrec in H|]. destruct can; cbn [negb]; [intros [= <-]; exact Ha|]. intros H. by apply Hrec in H.
  - destruct (e =s "not_found"); [intros H; by apply Hrec in H|]. destruct (includes _ e); [intros H; by apply Hrec in H|].
    destruct (e =s "permission"); intros H; by apply Hrec in H.
Qed.
Lemma verified_effect c (K : Prop) r : K -> has_effect c K (recordVerifiedHide tp now newId c r).
Proof.
  intros HK. unfold recordVerifiedHide. cbv zeta.
  destruct (tp_getCommentState tp) as [look|]; [|by apply record_effect].
  destruct (cx_comment c) as [comment|] eqn:Hc; [|by apply record_effect]. destruct (nonempty comment); cbn [negb]; [|by apply record_effect].
  apply bind_effect; [pose proof (ask_comment_quiet c K look) as Ha; unfold comment_of in Ha; by rewrite Hc in Ha|].
  intros [can []|e]; by apply record_effect.
Qed.
Lemma hideComment_quiet c (K : Prop) dryRun token : (dryRun = false -> K /\ token = token_of c) -> is_quiet c K (hideComment tp (page_of c) (comment_of c) token dryRun).
Proof.
  intros H. unfold hideComment. destruct (_ || _); [apply mret_quiet|]. destruct dryRun; [apply mret_quiet|]. destruct (H eq_refl) as [HK ->].
  apply bind_quiet; [by apply ask_hide_quiet|intros r; apply mret_quiet].
Qed.
Lemma real_effect c (K : Prop) : K -> has_effect c K (hide_for_real tp now newId c).
Proof.
  intros HK w. unfold hide_for_real. unfold mbind at 1, prog_bind at 1. pose proof (preflight_effect c K HK w) as Hp.
  destruct (commentPreflight _ _ _ _ w) as [w1 [[r|]|e]] eqn:Hpre; [exact Hp| |exact Hp].
  apply (quiet_then_effect c K w w1); [by apply preflight_through|]. revert w1 Hp Hpre. intros w1 _ _. revert w1.
  apply bind_effect; [by apply hideComment_quiet|]. intros r. destruct (pc_status r); [by apply record_effect|by apply verified_effect|by apply record_effect].
Qed.
Lemma simulate_effect c (K : Prop) : has_effect c K (simulate tp now newId c).
Proof. unfold simulate. apply bind_effect; [by apply hideComment_quiet|]. intros r. by apply record_effect. Qed.

(** When a real hide is allowed: the gate passes on the account as renewed, the process may
    execute, the envelope allows, and either a live attempt is confirmed or autonomy is. *)
Definition may_hide (o : AttemptOpts) (c : HideContext) : Prop :=
  (exists c', renewed c c' /\ gate now c' cfg = None) /\ canExecuteLive cfg = true /\
  (forall s, op_safety o = Some s -> sv_outcome (evaluateProductionSafety (cx_trigger c) (cx_category c) (cx_confidence c) (cx_riskLevel c) s) = So_allow) /\
  (if op_liveAttempt o then liveConfirmed cfg = true else cx_trigger c = By_autonomy /\ (liveConfirmed cfg = true \/ productionOptIn o c = true)).
Lemma may_hide_renewed o c c' : renewed c c' -> may_hide o c' -> may_hide o c.
Proof.
  intros Hr ((c2 & Hr2 & Hg) & Hc & Hs & Hl). split; [exists c2; split; [by apply (renewed_trans c c')|done]|]. split; [done|].
  destruct Hr as (a & -> & _). split; [exact Hs|exact Hl].
Qed.
Lemma gated_effect o c c' (K : Prop) : renewed c c' ->
  (gate now c' cfg = None -> canExecuteLive cfg = true ->
   (if op_liveAttempt o then liveConfirmed cfg = true else cx_trigger c = By_autonomy /\ (liveConfirmed cfg = true \/ productionOptIn o c = true)) -> K) ->
  has_effect c K (gated_attempt tp cfg now newId o c').
Proof.
  intros Hr HK w. apply (renewed_effect c c'); [exact Hr|]. revert w. unfold gated_attempt.
  destruct (gate now c' cfg) as [reason|]; [by apply record_effect|].
  assert (Htr : cx_trigger c' = cx_trigger c) by (by destruct Hr as (? & -> & _)).
  assert (Hopt : productionOptIn o c' = productionOptIn o c) by (unfold productionOptIn; by rewrite Htr). rewrite Htr, Hopt.
  destruct (op_liveAttempt o).
  - destruct (lc_dryRun cfg); [by apply record_effect|]. destruct (canExecuteLive cfg); cbn [negb]; [|by apply record_effect].
    destruct (liveConfirmed cfg); cbn [negb]; [|by apply record_effect]. apply real_effect. auto.
  - destruct (lc_dryRun cfg), (canExecuteLive cfg); cbn [orb negb]; try apply simulate_effect.
    destruct (negb (liveConfirmed cfg) && negb (productionOptIn o c)) eqn:Hn; [by apply record_effect|].
    destruct (cx_trigger c =e By_autonomy) eqn:Ha; cbn [negb]; [|apply simulate_effect]. apply real_effect. apply enum_eqb_eq in Ha.
    apply HK; [done|done|]. split; [done|]. destruct (liveConfirmed cfg); [by left|]. right. by destruct (productionOptIn o c).
Qed.
Lemma repair_quiet o c K : is_quiet c K (repair_if_stale tp cfg now o c).
Proof. unfold repair_if_stale. destruct (_ && _); [apply revalidate_quiet|apply mret_quiet]. Qed.
Lemma repair_renewed o c w c' : (repair_if_stale tp cfg now o c w).2 = Ret c' -> renewed c c'.
Proof. unfold repair_if_stale. destruct (_ && _); [apply revalidate_renewed|intros [= <-]; apply renewed_refl]. Qed.
Lemma repair_then {A} o c K (k : HideContext -> prog A) : (forall c', renewed c c' -> has_effect c K (k c')) ->
  has_effect c K (c' ← repair_if_stale tp cfg now o c; k c').
Proof.
  intros Hk w. unfold mbind, prog_bind. pose proof (repair_quiet o c K w) as Hq. pose proof (repair_renewed o c w) as Hr.
  destruct (repair_if_stale _ _ _ _ _ w) as [w1 [c'|e]]; [|by apply quiet_effect].
  apply (quiet_then_effect c K w w1); [exact Hq|]. by apply Hk, Hr.
Qed.
Lemma fresh_effect o c : has_effect c (may_hide o c) (fresh_attempt tp cfg now newId o c).
Proof.
  unfold fresh_attempt. cbv zeta.
  assert (Hgo : (forall s, op_safety o = Some s -> sv_outcome (evaluateProductionSafety (cx_trigger c) (cx_category c) (cx_confidence c) (cx_riskLevel c) s) = So_allow) ->
    has_effect c (may_hide o c) (c' ← repair_if_stale tp cfg now o c; gated_attempt tp cfg now newId o c')).
  { intros Hs. apply repair_then. intros c' Hr. apply gated_effect; [exact Hr|]. intros Hg Hc Hl. split; [by exists c'|]. by split. }
  destruct (op_safety o) as [s|] eqn:Hs; [|by apply Hgo; intros s Hs'].
  apply bind_effect; [by apply write_quiet|]. intros _.
  destruct (sv_outcome _) eqn:Ho; [apply Hgo; intros s' Hs'; by injection Hs' as <-| |]; by apply record_effect.
Qed.
Definition not_executed (existing : list Execution) : Prop := forall x, In x existing -> x_status x <> "executed".
Lemma attempt_effect existing o c : has_effect c (may_hide o c /\ not_executed existing) (attempt_seeing tp cfg now newId existing o c).
Proof.
  unfold attempt_seeing. destruct existing as [|latest rest].
  { intros w. apply (effect_weaken c (may_hide o c)); [intros H; split; [exact H|by intros ? []]|]. apply fresh_effect. }
  destruct (List.find (fun r => x_status r =s "executed") (latest :: rest)) as [x|] eqn:Hf; [apply quiet_has_effect, mret_quiet|].
  assert (Hno : not_executed (latest :: rest)).
  { intros x Hx E. pose proof (find_none _ _ Hf x Hx) as H. cbn beta in H. rewrite E in H. discriminate H. }
  assert (Hfresh : forall c', renewed c c' -> has_effect c (may_hide o c /\ not_executed (latest :: rest)) (fresh_attempt tp cfg now newId o c')).
  { intros c' Hr w. apply (renewed_effect c c'); [done|]. apply (effect_weaken c' (may_hide o c')); [|apply fresh_effect].
    intros H. split; [by apply (may_hide_renewed o c c')|done]. }
  destruct (if op_liveAttempt o then None else _) as [dry|]; [apply quiet_has_effect, mret_quiet|].
  destruct (_ && _); [apply quiet_has_effect, mret_quiet|]. destruct (_ =s _); [|apply Hfresh, renewed_refl].
  apply repair_then. intros c' Hr. destruct (gate now c' cfg) as [reason|]; [|by apply Hfresh].
  destruct (_ && _); [apply quiet_has_effect, mret_quiet|by apply Hfresh].
Qed.
End Effects.

(** ** What the gate lets through *)

Lemma guard_none (b : bool) (r : string) (x : option string) : (if b then Some r else x) = None <-> b = false /\ x = None.
Proof. destruct b; [split; [done|by intros [? _]]|tauto]. Qed.
(** Connection and token look well, at the instant of the attempt. *)
Definition connected (now : Z) (a : HideAccount) : Prop :=
  (forall s, ha_connectionStatus a = Some s -> s <> "" -> s = "connected") /\ (forall h, ha_tokenHealth a = Some h -> ~ In h ["expired"; "invalid"; "revoked"]) /\
  ha_needsReconnect a = false /\ (forall t, ha_tokenExpiresAt a = Some t -> now < t).
Definition subject_fits (c : HideContext) : Prop :=
  (exists k, js_name k = cx_category c /\ k ∈ AUTONOMOUS_ELIGIBLE) /\ (forall k, js_name k = cx_category c -> k ∉ NEVER_AUTONOMOUS) /\
  (8 # 10 <= cx_confidence c)%Q /\ (cx_category c = "threat" -> In (cx_riskLevel c) ["high"; "critical"]) /\
  (cx_trigger c = By_autonomy -> cx_mode c = "autonomous") /\ (exists comment, cx_comment c = Some comment /\ comment <> "").
Definition account_fits (c : HideContext) : Prop :=
  let a := cx_acct c in cx_platform c = "facebook_page" /\ ha_status a = "active" /\ ha_health a = "healthy" /\ In FACEBOOK_HIDE_PERMISSION (ha_grantedPermissions a).
Lemma connected_iff now a : connected now a <-> truthy (ha_connectionStatus a) && negb (status_is (ha_connectionStatus a) "connected") = false /\
  bad_token (ha_tokenHealth a) = false /\ ha_needsReconnect a = false /\ expired now a = false.
Proof.
  unfold connected, truthy, bad_token, expired, status_is, nonempty.
  assert (H1 : (forall s, ha_connectionStatus a = Some s -> s <> "" -> s = "connected") <->
    match ha_connectionStatus a with Some s => negb (s =s "") | None => false end && negb match ha_connectionStatus a with Some x => x =s "connected" | None => false end = false).
  { destruct (ha_connectionStatus a) as [s|]; [|split; [intros _; reflexivity|intros _ s [=]]]. rewrite andb_false_iff, !negb_false_iff, !String.eqb_eq.
    split; [intros H; destruct (decide (s = "")); [by left|right; by apply H]|intros H s' [= <-] Hn; by destruct H]. }
  assert (H2 : (forall h, ha_tokenHealth a = Some h -> ~ In h ["expired"; "invalid"; "revoked"]) <->
    match ha_tokenHealth a with Some s => includes ["expired"; "invalid"; "revoked"] s | None => false end = false).
  { destruct (ha_tokenHealth a) as [h|]; [|split; [intros _; reflexivity|intros _ h [=]]]. rewrite <- not_true_iff_false, includes_In.
    split; [intros H; by apply H|by intros H h' [= <-]]. }
  assert (H3 : (forall t, ha_tokenExpiresAt a = Some t -> now < t) <-> match ha_tokenExpiresAt a with Some t => t <=? now | None => false end = false).
  { destruct (ha_tokenExpiresAt a) as [t|]; [|split; [intros _; reflexivity|intros _ t [=]]]. rewrite Z.leb_gt. split; [intros H; by apply H|by intros H t' [= <-]]. }
  tauto.
Qed.
Lemma gate_None now c cfg : gate now c cfg = None <->
  lc_liveEnabled cfg = true /\ lc_facebookHideEnabled cfg = true /\ account_fits c /\ connected now (cx_acct c) /\ subject_fits c.
Proof.
  unfold gate, account_fits. cbv zeta. rewrite !guard_none, connected_iff, !negb_false_iff, !String.eqb_eq, includes_In.
  assert (Hne : (ha_status (cx_acct c) =s "mock_connected") = false /\ ha_status (cx_acct c) = "active" <-> ha_status (cx_acct c) = "active").
  { rewrite String.eqb_neq. split; [tauto|by intros ->]. }
  assert (Hsub : subject_fits c <-> has_category NEVER_AUTONOMOUS (cx_category c) = false /\ has_category AUTONOMOUS_ELIGIBLE (cx_category c) = true /\
    (cx_trigger c =e By_autonomy) && negb (cx_mode c =s "autonomous") = false /\ q_ltb (cx_confidence c) MIN_CONFIDENCE = false /\
    (cx_category c =s "threat") && negb (high_or_critical (cx_riskLevel c)) = false /\ truthy (cx_comment c) = true); [|rewrite Hsub; tauto].
  unfold subject_fits. rewrite has_category_In, <- not_true_iff_false, has_category_In, q_ltb_false, <- high_or_critical_In.
  assert (Hn : (forall k, js_name k = cx_category c -> k ∉ NEVER_AUTONOMOUS) <-> ~ exists k, In k NEVER_AUTONOMOUS /\ js_name k = cx_category c).
  { split; [intros H (k & Hk%list_elem_of_In & E); exact (H k E Hk)|intros H k E Hk%list_elem_of_In; apply H; by exists k]. }
  assert (He : (exists k, js_name k = cx_category c /\ k ∈ AUTONOMOUS_ELIGIBLE) <-> exists k, In k AUTONOMOUS_ELIGIBLE /\ js_name k = cx_category c).
  { split; intros (k & H1 & H2); exists k; rewrite list_elem_of_In in *; by split. }
  assert (Ha : (cx_trigger c =e By_autonomy) && negb (cx_mode c =s "autonomous") = false <-> (cx_trigger c = By_autonomy -> cx_mode c = "autonomous")).
  { destruct (cx_trigger c); simpl; [split; [by intros _ [=]|done]|]. rewrite negb_false_iff, String.eqb_eq. tauto. }
  assert (Ht : (cx_category c =s "threat") && negb (high_or_critical (cx_riskLevel c)) = false <-> (cx_category c = "threat" -> high_or_critical (cx_riskLevel c) = true)).
  { rewrite andb_false_iff, negb_false_iff, or_imp, String.eqb_eq. tauto. }
  assert (Hc : (exists comment, cx_comment c = Some comment /\ comment <> "") <-> truthy (cx_comment c) = true).
  { unfold truthy, nonempty. destruct (cx_comment c) as [s|]; [|split; [by intros (? & [=] & _)|done]]. rewrite negb_true_iff, String.eqb_neq.
    split; [by intros (? & [= <-] & ?)|by exists s]. }
  rewrite Hn, He, Ha, Ht, Hc. unfold MIN_CONFIDENCE. tauto.
Qed.

(** ** At most one post *)

Definition is_post (call : GraphCall) : bool := match call with Asked_hide _ _ _ | Asked_unhide _ _ _ => true | _ => false end.
Definition posts (l : list GraphCall) : nat := length (List.filter is_post l).
Definition at_most {A} (n : nat) (m : prog A) : Prop := forall w, (posts (w_calls (m w).1) <= posts (w_calls w) + n)%nat.
Lemma posts_app l l' : posts (l ++ l') = (posts l + posts l')%nat.
Proof. unfold posts. by rewrite List.filter_app, length_app. Qed.
Lemma bind_at_most {A B} n1 n2 (m : prog A) (k : A -> prog B) : at_most n1 m -> (forall a, at_most n2 (k a)) -> at_most (n1 + n2) (m ≫= k).
Proof.
  intros Hm Hk w. specialize (Hm w). unfold mbind, prog_bind. destruct (m w) as [w1 [a|e]]; cbn [fst] in *; [|lia].
  specialize (Hk a w1). lia.
Qed.
Lemma bind_none {A B} n (m : prog A) (k : A -> prog B) : at_most 0 m -> (forall a, at_most n (k a)) -> at_most n (m ≫= k).
Proof. apply (bind_at_most 0). Qed.
Lemma mret_at_most {A} n (a : A) : at_most n (mret a).
Proof. intros w. cbn. lia. Qed.
Lemma throw_at_most {A} n e : at_most n (throw e : prog A).
Proof. intros w. cbn. lia. Qed.
Lemma read_at_most {A} n (f : LiveDb -> A) : at_most n (read f).
Proof. intros w. cbn. lia. Qed.
Lemma write_at_most n f : (forall w, w_calls (f w) = w_calls w) -> at_most n (write f).
Proof. intros H w. cbn. rewrite H. lia. Qed.
Lemma ask_comment_at_most n f comment token : at_most n (ask_comment f comment token).
Proof. intros w. unfold ask_comment. cbn [fst add_call w_calls]. rewrite posts_app. cbn. lia. Qed.
Lemma ask_page_at_most n f page token : at_most n (ask_page f page token).
Proof. intros w. unfold ask_page. cbn [fst add_call w_calls]. rewrite posts_app. cbn. lia. Qed.
Lemma ask_hide_at_most tp comment token : at_most 1 (ask_hide tp comment token).
Proof. intros w. unfold ask_hide. cbn [fst add_call w_calls]. rewrite posts_app. cbn. lia. Qed.
Lemma resolve_at_most n c state : at_most n (write (resolveQueueItem c state)).
Proof. apply write_at_most. intros w. apply resolve_settled. Qed.
Create HintDb posts.
#[export] Hint Resolve mret_at_most throw_at_most read_at_most ask_comment_at_most ask_page_at_most ask_hide_at_most resolve_at_most : posts.
#[export] Hint Extern 1 (at_most _ (write _)) => apply write_at_most; reflexivity : posts.
(** Follow the branches; every step but the last makes no post. *)
Ltac count_posts := repeat match goal with
  | |- at_most _ (_ ≫= _) => apply bind_none; [|intros ?]
  | |- at_most _ (match ?x with _ => _ end) => destruct x
  end; auto with posts.
Section Posts.
Context (tp : FacebookHideTransport) (cfg : LiveConfig) (now : Z) (newId : string).
Lemma record_at_most n c status reason provider : at_most n (record now newId c status reason provider).
Proof. unfold record. cbv zeta. count_posts. Qed.
#[local] Hint Resolve record_at_most : posts.
Lemma preflight_at_most n c : at_most n (commentPreflight tp now newId c).
Proof. unfold commentPreflight. cbv zeta. count_posts. Qed.
Lemma verified_at_most n c r : at_most n (recordVerifiedHide tp now newId c r).
Proof. unfold recordVerifiedHide. cbv zeta. count_posts. Qed.
Lemma hideComment_at_most page comment token (dryRun : bool) : at_most (if dryRun then 0 else 1)%nat (hideComment tp page comment token dryRun).
Proof. unfold hideComment. destruct (_ || _); [auto with posts|]. destruct dryRun; [auto with posts|]. apply (bind_at_most 1 0); auto with posts. Qed.
Lemma revalidate_at_most n c : at_most n (revalidateAndRepair tp now c).
Proof. unfold revalidateAndRepair. cbv zeta. count_posts. Qed.
#[local] Hint Resolve preflight_at_most verified_at_most revalidate_at_most : posts.
Lemma real_at_most c : at_most 1 (hide_for_real tp now newId c).
Proof.
  unfold hide_for_real. apply bind_none; [auto with posts|]. intros [r|]; [auto with posts|].
  apply (bind_at_most 1 0); [apply (hideComment_at_most _ _ _ false)|]. intros r. destruct (pc_status r); auto with posts.
Qed.
Lemma simulate_at_most n c : at_most n (simulate tp now newId c).
Proof. unfold simulate. apply bind_none; [apply (hideComment_at_most _ _ _ true)|auto with posts]. Qed.
#[local] Hint Resolve real_at_most simulate_at_most : posts.
Lemma fresh_at_most o c : at_most 1 (fresh_attempt tp cfg now newId o c).
Proof. unfold fresh_attempt, repair_if_stale, gated_attempt. cbv zeta. count_posts. Qed.
#[local] Hint Resolve fresh_at_most : posts.
Lemma attempt_at_most existing o c : at_most 1 (attempt_seeing tp cfg now newId existing o c).
Proof. unfold attempt_seeing, repair_if_stale. count_posts. Qed.
End Posts.

(** What an allowance comes down to. *)
Lemma may_hide_fits cfg now o c : may_hide cfg now o c -> canExecuteLive cfg = true /\ account_fits c /\ subject_fits c /\
  (forall s, op_safety o = Some s -> sv_outcome (evaluateProductionSafety (cx_trigger c) (cx_category c) (cx_confidence c) (cx_riskLevel c) s) = So_allow) /\
  (op_liveAttempt o = true /\ liveConfirmed cfg = true \/
   op_liveAttempt o = false /\ cx_trigger c = By_autonomy /\ (liveConfirmed cfg = true \/ productionOptIn o c = true)).
Proof.
  intros ((c' & (a & -> & Hs & Hh & Hg & Ht) & Hgate) & Hlive & Hsafe & Hmode).
  apply gate_None in Hgate as (_ & _ & (Hp1 & Hp2 & Hp3 & Hp4) & _ & Hsub). cbn [with_acct cx_acct cx_platform] in Hp1, Hp2, Hp3, Hp4.
  split; [done|]. split; [unfold account_fits; by rewrite <- Hs, <- Hh, <- Hg|]. split; [exact Hsub|]. split; [exact Hsafe|].
  destruct (op_liveAttempt o); [by left|]. right. by split.
Qed.
Lemma attempt_calls tp cfg now newId existing o c w : exists new, w_calls (attempt_seeing tp cfg now newId existing o c w).1 = w_calls w ++ new /\
  (posts new <= 1)%nat /\ (forall call, In call new -> call_ok c (may_hide cfg now o c /\ not_executed existing) call).
Proof.
  destruct (attempt_effect tp cfg now newId existing o c w) as (_ & (new & Hc & Hf) & _). exists new. split; [exact Hc|].
  pose proof (attempt_at_most tp cfg now newId existing o c w) as Hp. rewrite Hc, posts_app in Hp. split; [lia|]. by apply List.Forall_forall.
Qed.
Lemma subject_comment c : subject_fits c -> cx_comment c = Some (comment_of c).
Proof. intros (_ & _ & _ & _ & _ & (cm & E & _)). unfold comment_of. by rewrite E. Qed.

(** C5 — a real hide is posted only where everything allows it: whatever an attempt read of
    earlier executions and whatever the provider answers, it makes at most one post (one call of the
    transport, which may repeat its request), for the
    comment and with the token of its context, and only if live actions are enabled and not in
    dry run, page, account and permission fit, the category is eligible and no customer voice, the
    confidence and a threat's level suffice, no execution of the action was read, the safety
    envelope allows it where one is given, and a live attempt is confirmed or autonomy is. *)
Theorem real_hide_needs_every_gate (tp : FacebookHideTransport) (cfg : LiveConfig) (now : Z) (newId : string) (existing : list Execution)
    (o : AttemptOpts) (c : HideContext) (w : LiveDb) :
  exists new, w_calls (attempt_seeing tp cfg now newId existing o c w).1 = w_calls w ++ new /\ (posts new <= 1)%nat /\
  (forall comment token answer, ~ In (Asked_unhide comment token answer) new) /\
  (forall comment token answer, In (Asked_hide comment token answer) new ->
     cx_comment c = Some comment /\ token = token_of c /\ canExecuteLive cfg = true /\ account_fits c /\ subject_fits c /\
     (forall x, In x existing -> x_status x <> "executed") /\
     (forall s, op_safety o = Some s -> sv_outcome (evaluateProductionSafety (cx_trigger c) (cx_category c) (cx_confidence c) (cx_riskLevel c) s) = So_allow) /\
     (op_liveAttempt o = true /\ liveConfirmed cfg = true \/
      op_liveAttempt o = false /\ cx_trigger c = By_autonomy /\ (liveConfirmed cfg = true \/ productionOptIn o c = true))).
Proof.
  destruct (attempt_calls tp cfg now newId existing o c w) as (new & Hc & Hp & Hf). exists new. split; [exact Hc|]. split; [exact Hp|].
  split; [intros ? ? ? H; exact (Hf _ H)|]. intros comment token answer H. destruct (Hf _ H) as ((Hmay & Hno) & -> & ->).
  apply may_hide_fits in Hmay as (Hlive & Hacct & Hsub & Hrest). split; [by apply subject_comment|]. by repeat (split; [done|]).
Qed.

End LiveActions.
