(* ===== verification/LiveRuns.v ===== *)
(** What holds of live actions whatever is asked of the system: the steps of every operation, one
    execution per action, honesty about success, repetition, the prediction, rollback, the limits
    and the licence of an autonomous hide; and where code and documentation part. *)
From S2P Require Import Prelude JsValue Outbox Access Evidence RiskRules HybridPipeline ControlCenter LiveSafety LiveActions.
From Stdlib Require Import QArith Lqa.
Open Scope string_scope.
Open Scope list_scope.
Open Scope Z_scope.
Open Scope tam_scope.
Import Evidence RiskRules HybridPipeline ControlCenter LiveSafety LiveActions.

Module LiveRuns.

(** * Every operation of the system *)

(** One step: a request or an ingestion, run to its end. An attempt may have read the
    executions at any earlier time. *)
Inductive live_step : LiveDb -> LiveDb -> Prop :=
| Step_attempt tp cfg now newId existing o c w : live_step w (attempt_seeing tp cfg now newId existing o c w).1
| Step_ingest tp cfg now newId midnight g i policies w : live_step w (control_phase tp cfg now newId midnight g i policies w).1
| Step_approve tp cfg now newId operates o i subject policy w : live_step w (approveQueueItem tp cfg now newId operates o i subject policy w).1
| Step_retry tp cfg now newId operates o i subject policy w : live_step w (retryQueueItem tp cfg now newId operates o i subject policy w).1
| Step_live tp cfg now preflightId newId operates o i phrase understood isRetry subject policy w :
    live_step w (executeLiveHide tp cfg now preflightId newId operates o i phrase understood isRetry subject policy w).1
| Step_without_hide o i w : live_step w (approveWithoutHide o i w).1
| Step_handled o i w : live_step w (markHandledQueueItem o i w).1
| Step_reject o i w : live_step w (rejectQueueItem o i w).1
| Step_rollback tp now tenant executionId token live w : live_step w (rollbackHide tp now tenant executionId token live w).1
| Step_brand_switch o brand on w : live_step w (toggleBrandKillSwitch o brand on w).2
| Step_account_switch o account on w : live_step w (toggleAccountKillSwitch o account on w).2
| Step_opt_in available o brand on ack w : live_step w (setBrandAutoHide available o brand on ack w).2
| Step_feedback f w : live_step w (set_feedback (w_feedback w ++ [f]) w).

Definition preserves {A} (P : LiveDb -> Prop) (m : prog A) : Prop := forall w, P w -> P (m w).1.
Section Preserve.
Context (P : LiveDb -> Prop).
Lemma bind_preserves {A B} (m : prog A) (k : A -> prog B) : preserves P m -> (forall a, preserves P (k a)) -> preserves P (m ≫= k).
Proof. intros Hm Hk w Hw. specialize (Hm w Hw). unfold mbind, prog_bind. destruct (m w) as [w1 [a|e]]; [by apply Hk|done]. Qed.
Lemma mret_preserves {A} (a : A) : preserves P (mret a).
Proof. by intros w. Qed.
Lemma read_preserves {A} (f : LiveDb -> A) : preserves P (read f).
Proof. by intros w. Qed.
Lemma write_preserves f : (forall w, P w -> P (f w)) -> preserves P (write f).
Proof. intros H w Hw. exact (H w Hw). Qed.

(** What the attempts keep and what does not look at the queue and the audit rows, every
    queue action and the ingestion keep. *)
Context (P_attempt : forall tp cfg now newId existing o c, preserves P (attempt_seeing tp cfg now newId existing o c))
  (P_queue : forall v w, P w -> P (set_queue v w)) (P_audit : forall a w, P w -> P (add_audit a w)).
Lemma whole_attempt_preserves tp cfg now newId o c : preserves P (attemptFacebookHide tp cfg now newId o c).
Proof. unfold attemptFacebookHide. apply bind_preserves; [apply read_preserves|intros existing; apply P_attempt]. Qed.
Lemma run_hide_preserves tp cfg now newId operates o q subject policy retry live :
  preserves P (runHideForQueueItem tp cfg now newId operates o q subject policy retry live).
Proof.
  unfold runHideForQueueItem. destruct (_ && _); [apply mret_preserves|]. apply bind_preserves; [apply read_preserves|]. intros [s|]; [|apply mret_preserves].
  apply bind_preserves; [apply whole_attempt_preserves|]. intros r. apply bind_preserves; [|intros _; apply mret_preserves].
  destruct (_ =e _); [apply write_preserves; intros w; apply P_queue|]. destruct (_ =s _); [apply write_preserves; intros w; apply P_queue|apply mret_preserves].
Qed.
Lemma load_preserves o p i k : (forall q, preserves P (k q)) -> preserves P (loadQueueItem o p i k).
Proof. intros H w Hw. unfold loadQueueItem. destruct (Access.assertCan _ _); [|done]. destruct (List.find _ _); [by apply H|done]. Qed.
Lemma queue_write_preserves o event q tenant i f : preserves P (write (fun w => queue_audit o event q (queue_update tenant i f w))).
Proof. apply write_preserves. intros w Hw. by apply P_audit, P_queue. Qed.
Lemma approve_preserves tp cfg now newId operates o i subject policy : preserves P (approveQueueItem tp cfg now newId operates o i subject policy).
Proof.
  apply load_preserves. intros q. apply bind_preserves; [apply queue_write_preserves|]. intros _. destruct (_ =s _); [|apply mret_preserves].
  apply bind_preserves; [apply run_hide_preserves|intros r; apply mret_preserves].
Qed.
Lemma audit_preserves o event q : preserves P (write (queue_audit o event q)).
Proof. apply write_preserves. intros w. apply P_audit. Qed.
Lemma retry_preserves tp cfg now newId operates o i subject policy : preserves P (retryQueueItem tp cfg now newId operates o i subject policy).
Proof.
  apply load_preserves. intros q. destruct (negb _); [apply mret_preserves|]. apply bind_preserves; [apply audit_preserves|].
  intros _. apply bind_preserves; [apply run_hide_preserves|intros r; apply mret_preserves].
Qed.
Lemma live_preserves tp cfg now preflightId newId operates o i phrase understood isRetry subject policy :
  preserves P (executeLiveHide tp cfg now preflightId newId operates o i phrase understood isRetry subject policy).
Proof.
  apply load_preserves. intros q. destruct (negb _); [apply mret_preserves|]. destruct (_ || _); [apply mret_preserves|].
  apply bind_preserves; [apply read_preserves|]. intros dry. apply bind_preserves; [destruct (is_some dry); [apply mret_preserves|apply run_hide_preserves]|].
  intros _. apply bind_preserves; [apply audit_preserves|]. intros _. apply bind_preserves; [apply run_hide_preserves|intros r; apply mret_preserves].
Qed.
Lemma ingest_preserves tp cfg now newId midnight g i policies : preserves P (control_phase tp cfg now newId midnight g i policies).
Proof.
  unfold control_phase. destruct policies as [|p ps]; [apply mret_preserves|]. cbv zeta. apply bind_preserves.
  { intros w Hw. unfold upsert_queue. destruct (List.find _ _); by apply P_queue. }
  intros queueId. destruct (List.find _ _) as [q|]; [|apply mret_preserves]. destruct (may_act _ _ _); [|apply mret_preserves].
  apply bind_preserves; [apply read_preserves|]. intros safety. apply bind_preserves; [apply whole_attempt_preserves|]. intros r.
  apply bind_preserves; [|intros _; apply mret_preserves]. destruct (_ && _); [apply write_preserves; intros w; apply P_queue|apply mret_preserves].
Qed.
Lemma step_preserves w w' : live_step w w' -> P w ->
  (forall tp now tenant executionId token live, preserves P (rollbackHide tp now tenant executionId token live)) ->
  (forall v w, P w -> P (set_brands v w)) -> (forall v w, P w -> P (set_accounts v w)) -> (forall v w, P w -> P (set_feedback v w)) ->
  (forall available o brand on ack w, P w -> P (setBrandAutoHide available o brand on ack w).2) -> P w'.
Proof.
  intros Hstep Hw Hroll Hbrands Haccounts Hfeedback Hopt. destruct Hstep.
  - by apply P_attempt.
  - by apply ingest_preserves.
  - by apply approve_preserves.
  - by apply retry_preserves.
  - by apply live_preserves.
  - revert w Hw. apply load_preserves. intros q. apply bind_preserves; [apply queue_write_preserves|intros _; apply mret_preserves].
  - revert w Hw. apply load_preserves. intros q. apply bind_preserves; [apply queue_write_preserves|intros _; apply mret_preserves].
  - revert w Hw. apply load_preserves. intros q. apply bind_preserves; [apply queue_write_preserves|intros _; apply mret_preserves].
  - by apply Hroll.
  - unfold toggleBrandKillSwitch, allowed. destruct (Access.assertCan _ _); [|done]. destruct (List.find _ _); [by apply P_audit, Hbrands|done].
  - unfold toggleAccountKillSwitch, allowed. destruct (Access.assertCan _ _); [|done]. destruct (List.find _ _); [by apply P_audit, Haccounts|done].
  - by apply Hopt.
  - by apply Hfeedback.
Qed.
End Preserve.

(** ** One execution per action *)

Definition executed_unique (w : LiveDb) : Prop :=
  forall i j x y, w_execs w !! i = Some x -> w_execs w !! j = Some y -> same_action x y = true -> i = j.
Lemma same_action_sym x y : same_action x y = same_action y x.
Proof.
  unfold same_action. destruct (x_queueItem x) as [p|], (x_queueItem y) as [q|]; [|done..].
  rewrite (String.eqb_sym q p), (String.eqb_sym (x_actionType y)), (String.eqb_sym (x_trigger y)).
  destruct (p =s q), (x_actionType x =s x_actionType y), (x_trigger x =s x_trigger y), (x_status x =s "executed"), (x_status y =s "executed"); done.
Qed.
Lemma attempt_keeps_unique tp cfg now newId existing o c : preserves executed_unique (attempt_seeing tp cfg now newId existing o c).
Proof.
  intros w Hu. destruct (attempt_effect tp cfg now newId existing o c w) as (_ & _ & [He|(st & r & p & _ & Hno & He)]); unfold executed_unique; rewrite He; [exact Hu|].
  set (n := new_execution _ _ _ _ _ _) in *. intros i j x y Hx Hy Hsame.
  assert (Hold : forall k z, w_execs w !! k = Some z -> same_action n z = false).
  { intros k z Hz. apply not_true_iff_false. intros Ht. apply not_true_iff_false in Hno. apply Hno. apply existsb_exists. exists z. split; [|done].
    apply list_elem_of_In. by apply list_elem_of_lookup_2 in Hz. }
  rewrite lookup_app in Hx, Hy. destruct (w_execs w !! i) as [x'|] eqn:Ei, (w_execs w !! j) as [y'|] eqn:Ej.
  - injection Hx as ->. injection Hy as ->. by apply (Hu i j x y).
  - injection Hx as ->. apply list_lookup_singleton_Some in Hy as [_ <-]. rewrite same_action_sym, (Hold i x Ei) in Hsame. discriminate Hsame.
  - injection Hy as ->. apply list_lookup_singleton_Some in Hx as [_ <-]. rewrite (Hold j y Ej) in Hsame. discriminate Hsame.
  - apply list_lookup_singleton_Some in Hx as [Hi _]. apply list_lookup_singleton_Some in Hy as [Hj _].
    apply lookup_ge_None in Ei, Ej. lia.
Qed.
Lemma rollback_keeps_unique tp now tenant executionId token live : preserves executed_unique (rollbackHide tp now tenant executionId token live).
Proof.
  unfold rollbackHide. apply bind_preserves; [apply read_preserves|]. intros [x|]; [|apply mret_preserves]. destruct (x_comment x) as [comment|]; [|apply mret_preserves].
  destruct (negb _); [apply mret_preserves|]. cbv zeta. apply bind_preserves; [by apply write_preserves|]. intros _. apply bind_preserves.
  { unfold unhideComment. destruct (negb (nonempty comment)); [apply mret_preserves|]. destruct (negb live); [apply mret_preserves|].
    apply bind_preserves; [by intros w|intros r; apply mret_preserves]. }
  intros r. destruct (pc_status r); [apply mret_preserves| |apply bind_preserves; [by apply write_preserves|intros _; apply mret_preserves]].
  apply bind_preserves; [|intros _; apply bind_preserves; [by apply write_preserves|intros _; apply mret_preserves]].
  apply write_preserves. intros w Hu i j a b Ha Hb Hs. cbn [set_execs w_execs] in Ha, Hb. unfold update_where in Ha, Hb.
  rewrite list_lookup_fmap in Ha, Hb. destruct (w_execs w !! i) as [a'|] eqn:Ei; [|discriminate Ha]. destruct (w_execs w !! j) as [b'|] eqn:Ej; [|discriminate Hb].
  injection Ha as <-. injection Hb as <-. apply (Hu i j a' b' Ei Ej).
  destruct (own_execution tenant (x_id x) a'), (own_execution tenant (x_id x) b'); [..|exact Hs];
    unfold same_action in *; cbn [with_rollback x_queueItem x_status x_actionType x_trigger] in Hs;
    destruct (x_queueItem a'), (x_queueItem b'); try discriminate Hs; rewrite ?andb_false_r in Hs; try discriminate Hs.
Qed.

(** C15 — one execution per action: whatever steps the system takes, attempts working on stale
    reads included, no two executed rows share queue item, action and trigger. *)
Theorem one_execution_per_action (w w' : LiveDb) : rtc live_step w w' -> executed_unique w -> executed_unique w'.
Proof.
  intros H. induction H as [w|w w1 w' Hstep _ IH]; [done|]. intros Hu. apply IH.
  apply (step_preserves executed_unique attempt_keeps_unique (fun _ _ H => H) (fun _ _ H => H) w w1 Hstep Hu rollback_keeps_unique); try done.
  intros available o brand on ack w2. unfold setBrandAutoHide, allowed. destruct (Access.assertCan _ _); [|done]. destruct (List.find _ _); [|done].
  destruct (_ && _); [done|]. by destruct (_ && _).
Qed.

(** ** Success is what the provider said *)

Definition last_call (l : list GraphCall) : option GraphCall := head (rev l).
(** What vouches for an execution recorded with a reason. *)
Definition vouched (c : HideContext) (reason : string) (new : list GraphCall) : Prop :=
  (reason = "already_hidden" /\ exists can, last_call new = Some (Asked_comment (comment_of c) (token_of c) (Comment_ok can true))) \/
  (reason = "live_hide_executed" /\ (exists answer, In (Asked_hide (comment_of c) (token_of c) answer) new /\ ht_ok answer = true) /\
   forall comment token can, last_call new <> Some (Asked_comment comment token (Comment_ok can false))).
Definition honest (c : HideContext) (m : prog HideExecutionResult) : Prop := forall w w' r, m w = (w', Ret r) -> er_status r = E_executed ->
  er_idempotent r = false -> exists new, w_calls w' = w_calls w ++ new /\ vouched c (er_reason r) new.
Lemma last_call_app l l' : l' <> [] -> last_call (l ++ l') = last_call l'.
Proof. intros H. unfold last_call. rewrite rev_app_distr. destruct (rev l') as [|x r] eqn:E; [|done]. apply (f_equal (@rev _)) in E. rewrite rev_involutive in E. by destruct H. Qed.
Lemma vouched_app c reason l l' : vouched c reason l' -> vouched c reason (l ++ l').
Proof.
  assert (Hne : forall a, In a l' -> last_call (l ++ l') = last_call l') by (intros a Ha; apply last_call_app; by intros ->).
  intros [(E & can & H)|(E & (a & Ha & Hok) & H)].
  - left. split; [done|]. exists can. destruct l' as [|x l']; [discriminate H|]. rewrite (Hne x); [done|by left].
  - right. split; [done|]. split; [exists a; rewrite in_app_iff; auto|]. by rewrite (Hne _ Ha).
Qed.
Lemma record_result now newId c status reason provider w w' r : record now newId c status reason provider w = (w', Ret r) ->
  w_calls w' = w_calls w /\ (er_idempotent r = true \/ er_status r = status /\ er_reason r = reason).
Proof.
  unfold record. cbv zeta. unfold mbind at 1, prog_bind at 1, read at 1. destruct (existsb _ _).
  - unfold mbind, prog_bind, read. destruct (head _) as [x|]; [|intros [=]]. intros [= <- <-]. split; [done|by left].
  - destruct (_ && _), (status =e E_executed); cbn; intros [= <- <-]; (split; [|by right]); try reflexivity;
      unfold resolveQueueItem; (destruct (cx_queueItem c) as [q|]; [destruct (nonempty q)|]); reflexivity.
Qed.
Lemma record_honest now newId c status reason provider : status <> E_executed -> honest c (record now newId c status reason provider).
Proof. intros Hs w w' r Hr He Hi. destruct (record_result _ _ _ _ _ _ _ _ _ Hr) as [_ [Hi'|[Hst _]]]; congruence. Qed.
(** Steps before an honest one only add calls. *)
Definition adds_calls {A} (m : prog A) : Prop := forall w, exists new, w_calls (m w).1 = w_calls w ++ new.
Lemma bind_honest {A} c (m : prog A) k : adds_calls m -> (forall a, honest c (k a)) -> honest c (m ≫= k).
Proof.
  intros Hm Hk w w' r. unfold mbind, prog_bind. destruct (Hm w) as [n1 E1]. destruct (m w) as [w1 [a|e]]; [|intros [=]]. cbn [fst] in E1.
  intros Hr He Hi. destruct (Hk a w1 w' r Hr He Hi) as (n2 & E2 & Hv). exists (n1 ++ n2). rewrite E2, E1, app_assoc. split; [done|by apply vouched_app].
Qed.
Lemma quiet_adds {A} now newId c K (m : prog A) : has_effect now newId c K m -> adds_calls m.
Proof. intros H w. destruct (H w) as (_ & (new & E & _) & _). by exists new. Qed.
Lemma mret_adds {A} (a : A) : adds_calls (mret a).
Proof. intros w. exists []. by rewrite app_nil_r. Qed.

Section Honest.
Context (tp : FacebookHideTransport) (cfg : LiveConfig) (now : Z) (newId : string).
Lemma idempotent_honest c r : er_idempotent r = true -> honest c (mret r).
Proof. intros H w w' r' [= <- <-]. congruence. Qed.
Lemma verified_honest c r w w' res before answer : w_calls w = before ++ [Asked_hide (comment_of c) (token_of c) answer] -> ht_ok answer = true ->
  recordVerifiedHide tp now newId c r w = (w', Ret res) -> er_status res = E_executed -> er_idempotent res = false ->
  exists new, w_calls w' = before ++ new /\ vouched c (er_reason res) new.
Proof.
  intros Hw Hok. set (h := Asked_hide _ _ _) in *. unfold recordVerifiedHide. cbv zeta.
  assert (Hdone : forall st reason p w1 new, w_calls w1 = before ++ h :: new -> record now newId c st reason p w1 = (w', Ret res) -> st = E_executed -> reason = "live_hide_executed" ->
    (forall comment token can, last_call (h :: new) <> Some (Asked_comment comment token (Comment_ok can false))) ->
    er_status res = E_executed -> er_idempotent res = false -> exists new, w_calls w' = before ++ new /\ vouched c (er_reason res) new).
  { intros st reason p w1 new Hc Hr -> -> Hl _ Hi. destruct (record_result _ _ _ _ _ _ _ _ _ Hr) as [E [Hi'|[_ Hre]]]; [congruence|].
    exists (h :: new). rewrite E, Hre. split; [done|]. right. split; [done|]. split; [exists answer; split; [by left|done]|exact Hl]. }
  assert (Hplain : record now newId c E_executed "live_hide_executed" (Some r) w = (w', Ret res) -> er_status res = E_executed -> er_idempotent res = false ->
    exists new, w_calls w' = before ++ new /\ vouched c (er_reason res) new).
  { intros Hr. by apply (Hdone _ _ _ w [] Hw Hr). }
  destruct (tp_getCommentState tp) as [look|]; [|exact Hplain]. destruct (cx_comment c) as [comment|] eqn:Hc; [|exact Hplain].
  destruct (negb (nonempty comment)); [exact Hplain|]. unfold mbind at 1, prog_bind at 1, ask_comment.
  set (v := look _ _ _). set (w1 := add_call _ w). assert (Hw1 : w_calls w1 = before ++ h :: [Asked_comment comment (token_of c) v]) by (cbn; by rewrite Hw, <- app_assoc).
  destruct v as [can [|]|e]; intros Hr; [by apply (Hdone _ _ _ w1 _ Hw1 Hr)| |by apply (Hdone _ _ _ w1 _ Hw1 Hr)].
  intros He Hi. destruct (record_result _ _ _ _ _ _ _ _ _ Hr) as [_ [Hi'|[Hst _]]]; congruence.
Qed.
Lemma preflight_honest c w w' r : commentPreflight tp now newId c w = (w', Ret (Some r)) -> er_status r = E_executed -> er_idempotent r = false ->
  exists new, w_calls w' = w_calls w ++ new /\ vouched c (er_reason r) new.
Proof.
  unfold commentPreflight. cbv zeta. destruct (tp_getCommentState tp) as [look|]; [|intros [=]].
  destruct (cx_comment c) as [comment|] eqn:Hc; [|intros [=]]. destruct (negb (nonempty comment)); [intros [=]|].
  assert (Hrec : forall status reason w1, (r ← record now newId c status reason None; mret (Some r) : prog (option HideExecutionResult)) w1 = (w', Ret (Some r)) ->
    record now newId c status reason None w1 = (w', Ret r)).
  { intros status reason w1. unfold mbind, prog_bind. destruct (record _ _ _ _ _ _ w1) as [w2 [r2|e]]; [|intros [=]]. unfold mret, prog_ret. congruence. }
  unfold mbind at 1, prog_bind at 1, ask_comment. set (st := look _ _ _). set (w1 := add_call _ w).
  assert (Hno : forall status reason w2, status <> E_executed -> record now newId c status reason None w2 = (w', Ret r) -> er_status r = E_executed ->
    er_idempotent r = false -> exists new, w_calls w' = w_calls w ++ new /\ vouched c (er_reason r) new).
  { intros status reason w2 Hs Hr He Hi. destruct (record_result _ _ _ _ _ _ _ _ _ Hr) as [_ [Hi'|[Hst _]]]; congruence. }
  destruct st as [can hidden|e] eqn:Est.
  - destruct hidden; [|destruct (negb can); [unfold mbind at 1, prog_bind at 1, write; intros Hr%Hrec; exact (Hno E_blocked _ _ ltac:(discriminate) Hr)|intros [=]]].
    intros Hr%Hrec He Hi. destruct (record_result _ _ _ _ _ _ _ _ _ Hr) as [E [Hi'|[_ Hre]]]; [congruence|].
    exists [Asked_comment comment (token_of c) (Comment_ok can true)]. rewrite E, Hre. split; [done|]. left. split; [done|]. exists can.
    unfold comment_of. by rewrite Hc.
  - destruct (e =s "not_found"); [unfold mbind at 1, prog_bind at 1, write; intros Hr%Hrec; exact (Hno E_blocked _ _ ltac:(discriminate) Hr)|].
    destruct (includes _ e); [unfold mbind at 1, prog_bind at 1, write; intros Hr%Hrec; exact (Hno E_blocked _ _ ltac:(discriminate) Hr)|].
    destruct (e =s "permission"); intros Hr%Hrec; [exact (Hno E_blocked _ _ ltac:(discriminate) Hr)|exact (Hno E_failed _ _ ltac:(discriminate) Hr)].
Qed.
Lemma real_honest c : honest c (hide_for_real tp now newId c).
Proof.
  intros w w' res. unfold hide_for_real. unfold mbind at 1, prog_bind at 1.
  destruct (commentPreflight _ _ _ _ w) as [w1 [[r|]|e]] eqn:Hpre; [| |intros [=]].
  { intros [= <- <-]. by apply preflight_honest. }
  destruct (preflight_through tp now newId c False w w1 Hpre) as (_ & (n1 & E1 & _) & _).
  assert (Hno : forall reason p w2, record now newId c E_failed reason p w2 = (w', Ret res) -> er_status res = E_executed ->
    er_idempotent res = false -> exists new, w_calls w' = w_calls w ++ new /\ vouched c (er_reason res) new).
  { intros reason p w2 Hr He Hi. destruct (record_result _ _ _ _ _ _ _ _ _ Hr) as [_ [Hi'|[Hst _]]]; congruence. }
  unfold mbind at 1, prog_bind at 1, hideComment. destruct (_ || _); [intros Hr; exact (Hno _ _ _ Hr)|].
  unfold mbind at 1, prog_bind at 1, ask_hide. cbn [mret prog_ret]. destruct (tp_hide tp _ _ _) as [ok code err msg] eqn:Ha. set (w2 := add_call _ w1).
  cbn [ht_ok]. destruct ok; cbn [provider_success provider_failure pc_status].
  - intros Hr He Hi. destruct (verified_honest c _ w2 w' res (w_calls w1) _ eq_refl eq_refl Hr He Hi) as (n2 & E2 & Hv).
    exists (n1 ++ n2). rewrite E2, E1, app_assoc. split; [done|by apply vouched_app].
  - intros Hr. exact (Hno _ _ _ Hr).
Qed.
Lemma renewed_vouched c c' reason l : renewed c c' -> vouched c' reason l -> vouched c reason l.
Proof.
  intros (a & -> & _ & _ & _ & Ht) H. unfold vouched, comment_of, token_of in *. cbn [with_acct cx_acct cx_comment] in H. by rewrite Ht in H.
Qed.
Lemma simulate_honest c : honest c (simulate tp now newId c).
Proof.
  unfold simulate. apply bind_honest; [|intros r; by apply record_honest]. apply (quiet_adds now newId c False).
  apply quiet_has_effect. by apply hideComment_quiet.
Qed.
Lemma gated_honest o c c' : renewed c c' -> honest c (gated_attempt tp cfg now newId o c').
Proof.
  intros Hr. assert (Hh : honest c' (gated_attempt tp cfg now newId o c')).
  { unfold gated_attempt. destruct (gate now c' cfg); [by apply record_honest|]. destruct (op_liveAttempt o).
    - destruct (lc_dryRun cfg); [by apply record_honest|]. destruct (negb _); [by apply record_honest|]. destruct (negb _); [by apply record_honest|apply real_honest].
    - destruct (_ || _); [apply simulate_honest|]. destruct (_ && _); [by apply record_honest|]. destruct (negb _); [apply simulate_honest|apply real_honest]. }
  intros w w' r Hw He Hi. destruct (Hh w w' r Hw He Hi) as (new & E & Hv). exists new. split; [exact E|by apply (renewed_vouched c c')].
Qed.
Lemma repair_honest o c k : (forall c', renewed c c' -> honest c (k c')) -> honest c (c' ← repair_if_stale tp cfg now o c; k c').
Proof.
  intros Hk w w' r. unfold mbind, prog_bind. destruct (repair_quiet tp cfg now o c False w) as (_ & (n1 & E1 & _) & _).
  pose proof (repair_renewed tp cfg now o c w) as Hr. destruct (repair_if_stale _ _ _ _ _ w) as [w1 [c'|e]]; [|intros [=]]. cbn [fst snd] in *.
  intros Hw He Hi. destruct (Hk c' (Hr _ eq_refl) w1 w' r Hw He Hi) as (n2 & E2 & Hv). exists (n1 ++ n2). rewrite E2, E1, app_assoc. split; [done|by apply vouched_app].
Qed.
Lemma fresh_honest o c c' : renewed c c' -> honest c (fresh_attempt tp cfg now newId o c').
Proof.
  intros Hr. assert (Hown : honest c' (fresh_attempt tp cfg now newId o c')).
  { unfold fresh_attempt. cbv zeta. pose proof (repair_honest o c' _ (fun c2 H => gated_honest o c' c2 H)) as Hgo. destruct (op_safety o) as [s|]; [|exact Hgo].
    apply bind_honest; [intros w; exists []; by rewrite app_nil_r|]. intros _. destruct (sv_outcome _); [exact Hgo|by apply record_honest|by apply record_honest]. }
  intros w w' r Hw He Hi. destruct (Hown w w' r Hw He Hi) as (new & E & Hv). exists new. split; [exact E|by apply (renewed_vouched c c')].
Qed.
Lemma attempt_honest existing o c : honest c (attempt_seeing tp cfg now newId existing o c).
Proof.
  unfold attempt_seeing. destruct existing as [|latest rest]; [apply fresh_honest, renewed_refl|].
  destruct (List.find (fun r => x_status r =s "executed") _); [by apply idempotent_honest|].
  destruct (if op_liveAttempt o then None else _); [by apply idempotent_honest|]. destruct (_ && _); [by apply idempotent_honest|].
  destruct (_ =s _); [|apply fresh_honest, renewed_refl]. apply repair_honest. intros c' Hr.
  destruct (gate now c' cfg); [|by apply fresh_honest]. destruct (_ && _); [by apply idempotent_honest|by apply fresh_honest].
Qed.
End Honest.

(** C7 — success is what the provider said: an attempt that reports an execution of its own
    either was told, in its last call, that the comment is hidden already, or made a post for
    that comment that the provider accepted and that no later look contradicted. *)
Theorem success_is_never_faked (tp : FacebookHideTransport) (cfg : LiveConfig) (now : Z) (newId : string) (o : AttemptOpts) (c : HideContext) (w : LiveDb) :
  match attemptFacebookHide tp cfg now newId o c w with
  | (w', Ret r) => er_status r = E_executed -> er_idempotent r = false ->
      exists new, w_calls w' = w_calls w ++ new /\
      (er_reason r = "already_hidden" /\ (exists can, last_call new = Some (Asked_comment (comment_of c) (token_of c) (Comment_ok can true))) \/
       er_reason r = "live_hide_executed" /\ (exists answer, In (Asked_hide (comment_of c) (token_of c) answer) new /\ ht_ok answer = true) /\
       (forall comment token can, last_call new <> Some (Asked_comment comment token (Comment_ok can false))))
  | (_, Throw _) => True
  end.
Proof.
  destruct (attemptFacebookHide tp cfg now newId o c w) as [w' [r|e]] eqn:H; [|done]. intros He Hi.
  unfold attemptFacebookHide, mbind, prog_bind, read in H. by destruct (attempt_honest tp cfg now newId _ o c w w' r H He Hi) as (new & E & Hv); exists new.
Qed.

(** ** Repetition *)

(** Two contexts name the same action. *)
Definition same_key (c c' : HideContext) : Prop := cx_tenant c' = cx_tenant c /\ cx_item c' = cx_item c /\ cx_queueItem c' = cx_queueItem c /\
  cx_account c' = cx_account c /\ cx_trigger c' = cx_trigger c /\ cx_policy c' = cx_policy c.
Lemma same_key_where c c' x : same_key c c' -> attemptWhere c' x = attemptWhere c x.
Proof. intros (H1 & H2 & H3 & H4 & H5 & H6). unfold attemptWhere. by rewrite H1, H2, H3, H4, H5, H6. Qed.
Lemma own_key now newId c status reason provider : attemptWhere c (new_execution now newId c status reason provider) = true.
Proof. unfold attemptWhere. cbn. rewrite !String.eqb_refl, !bool_decide_eq_true_2 by done. done. Qed.
Definition has_executed (c : HideContext) (w : LiveDb) : Prop := exists x, In x (w_execs w) /\ attemptWhere c x = true /\ x_status x = "executed".
Lemma newest_In l x : In x (newest_first l) <-> In x l.
Proof. unfold newest_first. split; apply Permutation_in; [|symmetry]; apply js_sort_perm. Qed.
Lemma hard_stop tp cfg now newId o c w : has_executed c w ->
  exists x, In x (w_execs w) /\ attemptWhere c x = true /\ x_status x = "executed" /\
    attemptFacebookHide tp cfg now newId o c w = (w, Ret (reuse x E_executed "already_executed")).
Proof.
  intros (x & Hx & Hw & Hs). unfold attemptFacebookHide, mbind, prog_bind, read.
  assert (Hin : In x (findExistingExecutions c w)) by (apply newest_In, filter_In; by split).
  unfold attempt_seeing. destruct (findExistingExecutions c w) as [|latest rest] eqn:He; [destruct Hin|].
  destruct (List.find (fun r => x_status r =s "executed") (latest :: rest)) as [y|] eqn:Hf.
  - exists y. apply find_some in Hf as [Hy Hys]. rewrite <- He in Hy. apply newest_In, filter_In in Hy as [Hy Hyw]. apply String.eqb_eq in Hys. by repeat split.
  - pose proof (find_none _ _ Hf x Hin) as Hn. cbn beta in Hn. rewrite Hs in Hn. discriminate Hn.
Qed.
(** What a recorded execution leaves. *)
Lemma record_leaves now newId c reason provider w w' r : record now newId c E_executed reason provider w = (w', Ret r) -> has_executed c w'.
Proof.
  unfold record. cbv zeta. unfold mbind at 1, prog_bind at 1, read at 1. destruct (existsb _ _).
  - unfold mbind, prog_bind, read. destruct (newest_first _) as [|x l] eqn:Hl; [intros [=]|]. cbn [head]. intros [= <- <-].
    assert (Hx : In x (newest_first (List.filter (fun x => attemptWhere c x && (x_status x =s "executed")) (w_execs w)))) by (rewrite Hl; by left).
    apply newest_In, filter_In in Hx as [Hx [Hk Hs]%andb_true_iff]. exists x. by apply String.eqb_eq in Hs.
  - cbn. intros [= <- <-]. exists (new_execution now newId c E_executed reason provider). split; [|split; [apply own_key|done]].
    cbn [add_audit w_execs]. rewrite (proj2 (proj2 (resolve_settled c Q_executed _))). cbn. rewrite in_app_iff. right. by left.
Qed.
(** A computation whose execution, if it reports one, is on record at its end. *)
Definition settles (c : HideContext) (m : prog HideExecutionResult) : Prop := forall w w' r, m w = (w', Ret r) -> er_status r = E_executed -> has_executed c w'.
Lemma bind_settles {A} c (m : prog A) k : (forall a, settles c (k a)) -> settles c (m ≫= k).
Proof. intros Hk w w' r. unfold mbind, prog_bind. destruct (m w) as [w1 [a|e]]; [apply Hk|intros [=]]. Qed.
Lemma record_settles now newId c status reason provider : settles c (record now newId c status reason provider).
Proof.
  intros w w' r. destruct status; [| |intros Hr _; exact (record_leaves _ _ _ _ _ _ _ _ Hr)|]; unfold record; cbv zeta; unfold mbind at 1, prog_bind at 1, read at 1;
    (match goal with |- context [existsb (same_action ?x) ?l] => replace (existsb (same_action x) l) with false end;
      [|symmetry; apply not_true_iff_false; intros (y & _ & Hs)%existsb_exists; unfold same_action in Hs; cbn in Hs;
        destruct (cx_queueItem c), (x_queueItem y); rewrite ?andb_false_r in Hs; discriminate Hs]);
    (destruct (_ && _); cbn; intros [= <- <-]; discriminate).
Qed.
Lemma reuse_settles c x status reason : status <> E_executed -> settles c (mret (reuse x status reason)).
Proof. intros H w w' r [= <- <-] He. by destruct H. Qed.
Section Settles.
Context (tp : FacebookHideTransport) (cfg : LiveConfig) (now : Z) (newId : string).
Lemma preflight_settles c w w' r : commentPreflight tp now newId c w = (w', Ret (Some r)) -> er_status r = E_executed -> has_executed c w'.
Proof.
  assert (H : forall st re w1, (x ← record now newId c st re None; mret (Some x) : prog (option HideExecutionResult)) w1 = (w', Ret (Some r)) ->
    er_status r = E_executed -> has_executed c w').
  { intros st re w1. unfold mbind, prog_bind. destruct (record _ _ _ _ _ _ w1) as [w2 [r2|e]] eqn:Hr; [|intros [=]]. intros [= <- <-]. exact (record_settles _ _ _ _ _ _ _ _ _ Hr). }
  unfold commentPreflight. cbv zeta. destruct (tp_getCommentState tp) as [look|]; [|intros [=]]. destruct (cx_comment c) as [comment|]; [|intros [=]].
  destruct (negb (nonempty comment)); [intros [=]|]. unfold mbind at 1, prog_bind at 1, ask_comment. destruct (look _ _ _) as [can hidden|e].
  - destruct hidden; [apply H|]. destruct (negb can); [|intros [=]]. apply H.
  - destruct (e =s "not_found"); [apply H|]. destruct (includes _ e); [apply H|]. destruct (e =s "permission"); apply H.
Qed.
Lemma verified_settles c p : settles c (recordVerifiedHide tp now newId c p).
Proof.
  unfold recordVerifiedHide. cbv zeta. destruct (tp_getCommentState tp); [|apply record_settles]. destruct (cx_comment c); [|apply record_settles].
  destruct (negb _); [apply record_settles|]. apply bind_settles. intros [? []|?]; apply record_settles.
Qed.
Lemma real_settles c : settles c (hide_for_real tp now newId c).
Proof.
  intros w w' r. unfold hide_for_real. unfold mbind at 1, prog_bind at 1. destruct (commentPreflight _ _ _ _ w) as [w1 [[x|]|e]] eqn:Hp; [| |intros [=]].
  - intros [= <- <-]. exact (preflight_settles _ _ _ _ Hp).
  - revert w1 w' r Hp. intros w1 w' r _. revert w1 w' r. apply bind_settles. intros p. destruct (pc_status p); [apply record_settles|apply verified_settles|apply record_settles].
Qed.
Lemma gated_settles o c : settles c (gated_attempt tp cfg now newId o c).
Proof.
  unfold gated_attempt, simulate. repeat match goal with |- settles _ (match ?x with _ => _ end) => destruct x end;
    first [apply record_settles|apply real_settles|apply bind_settles; intros p; apply record_settles].
Qed.
Lemma repair_settles o c k : (forall c', renewed c c' -> settles c (k c')) -> settles c (c' ← repair_if_stale tp cfg now o c; k c').
Proof.
  intros Hk w w' r. unfold mbind, prog_bind. pose proof (repair_renewed tp cfg now o c w) as Hr.
  destruct (repair_if_stale _ _ _ _ _ w) as [w1 [c'|e]]; [|intros [=]]. by apply Hk, Hr.
Qed.
Lemma renewed_settles c c' m : renewed c c' -> settles c' m -> settles c m.
Proof. intros (a & -> & _) H. exact H. Qed.
Lemma fresh_settles o c c' : renewed c c' -> settles c (fresh_attempt tp cfg now newId o c').
Proof.
  intros Hr. apply (renewed_settles c c' _ Hr). unfold fresh_attempt. cbv zeta.
  assert (Hgo : settles c' (c2 ← repair_if_stale tp cfg now o c'; gated_attempt tp cfg now newId o c2)).
  { apply repair_settles. intros c2 H2. apply (renewed_settles c' c2 _ H2), gated_settles. }
  destruct (op_safety o); [|exact Hgo]. apply bind_settles. intros _. destruct (sv_outcome _); [exact Hgo|apply record_settles|apply record_settles].
Qed.
Lemma whole_settles o c : settles c (attemptFacebookHide tp cfg now newId o c).
Proof.
  intros w w' r. unfold attemptFacebookHide, mbind, prog_bind, read. unfold attempt_seeing.
  destruct (findExistingExecutions c w) as [|latest rest] eqn:He; [apply (fresh_settles o c c (renewed_refl c))|].
  destruct (List.find (fun r => x_status r =s "executed") (latest :: rest)) as [x|] eqn:Hf.
  - intros [= <- <-] _. apply find_some in Hf as [Hx Hs]. rewrite <- He in Hx. apply newest_In, filter_In in Hx as [Hx Hk].
    exists x. by apply String.eqb_eq in Hs.
  - revert w w' r He Hf. intros w w' r _ _. revert w w' r.
    destruct (if op_liveAttempt o then None else _); [by apply reuse_settles|]. destruct (_ && _); [by apply reuse_settles|].
    destruct (_ =s _); [|apply fresh_settles, renewed_refl]. apply repair_settles. intros c' Hr.
    destruct (gate now c' cfg); [|by apply fresh_settles]. destruct (_ && _); [by apply reuse_settles|by apply fresh_settles].
Qed.
End Settles.

(** a hide happens once: after an attempt that reports an execution, every further
    attempt at the same action, live, retried or not, with whatever settings, changes nothing
    and asks the provider nothing; it reports the execution on record. *)
Theorem executed_once (tp tp' : FacebookHideTransport) (cfg cfg' : LiveConfig) (now now' : Z) (newId newId' : string) (o o' : AttemptOpts)
    (c c' : HideContext) (w : LiveDb) :
  match attemptFacebookHide tp cfg now newId o c w with
  | (w1, Ret r) => er_status r = E_executed -> same_key c c' ->
      exists x, In x (w_execs w1) /\ x_status x = "executed" /\
      attemptFacebookHide tp' cfg' now' newId' o' c' w1 =
        (w1, Ret {| er_id := x_id x; er_status := E_executed; er_reason := "already_executed"; er_idempotent := true; er_createdAt := Some (x_createdAt x) |})
  | (_, Throw _) => True
  end.
Proof.
  destruct (attemptFacebookHide tp cfg now newId o c w) as [w1 [r|e]] eqn:H; [|done]. intros He Hkey.
  destruct (whole_settles tp cfg now newId o c w w1 r H He) as (y & Hy & Hw & Hs).
  destruct (hard_stop tp' cfg' now' newId' o' c' w1) as (x & Hx & _ & Hxs & E); [exists y; by rewrite (same_key_where c c') by done|].
  by exists x.
Qed.

(** ** The prediction *)

Lemma gate_reason now c cfg reason : gate now c cfg = Some reason -> nonempty reason = true /\ reason <> "comment_deleted_or_unavailable".
Proof.
  unfold gate. cbv zeta. intros H.
  repeat match type of H with (if ?b then Some _ else _) = _ => destruct b; [injection H as <-; split; [reflexivity|discriminate]|] end. discriminate H.
Qed.
(** The page predicts on less than the action knows; on an account that needs no repair the gate
    does not miss it. *)
Lemma gate_predicted now c cfg : accountLooksStale now (cx_acct c) = false -> gate now (predicted_context c) cfg = gate now c cfg.
Proof.
  unfold accountLooksStale. rewrite !orb_false_iff. intros [[[_ _] Hn] He]. unfold gate, predicted_context. cbv zeta.
  cbn [cx_acct with_acct ha_status ha_health ha_grantedPermissions ha_tokenExpiresAt ha_needsReconnect ha_connectionStatus ha_tokenHealth
    cx_platform cx_category cx_trigger cx_mode cx_confidence cx_riskLevel cx_comment]. by rewrite Hn, He.
Qed.
Definition result_of (i : string) (status : HideExecutionStatus) (reason : string) : HideExecutionResult :=
  {| er_id := i; er_status := status; er_reason := reason; er_idempotent := false; er_createdAt := None |}.
(** A row that is neither an execution nor a failure is written as such, and nothing else changes
    but the audit trail. *)
Lemma record_plain now newId c status reason provider w : status <> E_executed -> status <> E_failed ->
  exists a, record now newId c status reason provider w =
    (add_audit a (set_execs (w_execs w ++ [new_execution now newId c status reason provider]) w), Ret (result_of newId status reason)).
Proof.
  intros He Hf. eexists. unfold record. cbv zeta. unfold mbind, prog_bind, read.
  replace (existsb _ (w_execs w)) with false.
  2: { symmetry. apply not_true_iff_false. intros (y & _ & Hs)%existsb_exists. unfold same_action in Hs. cbn in Hs.
    destruct (cx_queueItem c), (x_queueItem y); try discriminate Hs. rewrite !andb_true_iff in Hs. destruct Hs as [[_ Hs] _]. by destruct status. }
  by destruct status.
Qed.

(** What an operator finds who acts on an item of the queue for the first time: the right to approve, a
    proposal to hide, an account that needs no repair, and no execution of the item on record. The
    account is read again before every attempt, and reads the same while its row does. *)
Record first_action (o : operator) (i : string) (q : QueueItem) (s : HideSubject) (subject : LiveDb -> option HideSubject) (now : Z) (w : LiveDb) : Prop := {
  fa_may : Access.assertCan (op_role o) Access.ProposalApprove = Ret tt;
  fa_item : List.find (own_queue_item (op_tenant o) i) (w_queue w) = Some q;
  fa_hide : qi_proposedAction q = HIDE_ACTION;
  fa_subject : forall w', w_accounts w' = w_accounts w -> subject w' = Some s;
  fa_fresh : accountLooksStale now (account_of s) = false;
  fa_none : forall x, In x (w_execs w) -> x_queueItem x <> Some (qi_id q) }.
(** The executions and the accounts of two states are the same but for rows added, and no call was made. *)
Definition grown (rows : list Execution) (w w' : LiveDb) : Prop :=
  w_execs w' = w_execs w ++ rows /\ w_calls w' = w_calls w /\ w_accounts w' = w_accounts w.
(** A request that ends with this result having added these rows, without asking the provider anything. *)
Definition ends (m : LiveDb * outcome action_result live_error) (w : LiveDb) (r : HideExecutionResult) (rows : list Execution) : Prop :=
  exists w', m = (w', Ret (Done (Some r))) /\ grown rows w w'.
Definition simulation (c : HideContext) : HideCommentResult :=
  if nonempty (page_of c) then simulated "dry_run" else invalid_input "Missing pageId or commentId.".

Section Buttons.
Context (tp : FacebookHideTransport) (cfg : LiveConfig) (now : Z) (o : operator) (q : QueueItem) (s : HideSubject)
  (subject : LiveDb -> option HideSubject) (policy : option (string * string)).
Let c := manual_context (op_tenant o) q s policy.
Context (Hstale : accountLooksStale now (cx_acct c) = false).

(** What an attempt that is not live records: the approval, or the preflight of the live button. *)
Definition rehearsal : HideExecutionStatus * string * option HideCommentResult :=
  match predictHideOutcome now c cfg with (Pr_blocked, reason) => (E_blocked, reason, None) | _ => (E_dry_run, "dry_run_mode", Some (simulation c)) end.
Lemma gate_None_facts : gate now c cfg = None -> canExecuteLive cfg = negb (lc_dryRun cfg) /\ exists cm, cx_comment c = Some cm /\ (cm =s "") = false.
Proof.
  intros (H1 & H2 & _ & _ & (_ & _ & _ & _ & _ & (cm & Hcm & Hne)))%gate_None. unfold canExecuteLive. rewrite H1, H2. split; [done|].
  exists cm. by rewrite String.eqb_neq.
Qed.
Lemma simulate_record newId w : gate now c cfg = None -> simulate tp now newId c w = record now newId c E_dry_run "dry_run_mode" (Some (simulation c)) w.
Proof.
  intros (_ & cm & Hcm & Hne)%gate_None_facts. unfold simulate, hideComment, comment_of, simulation, nonempty. rewrite Hcm. cbn [nullish]. unfold nonempty.
  rewrite Hne. cbn [negb orb]. by destruct (page_of c =s "").
Qed.
Lemma fresh_direct newId retry live w :
  fresh_attempt tp cfg now newId {| op_retry := retry; op_liveAttempt := live; op_safety := None |} c w =
  gated_attempt tp cfg now newId {| op_retry := retry; op_liveAttempt := live; op_safety := None |} c w.
Proof. unfold fresh_attempt, mbind, prog_bind, repair_if_stale. cbn [op_safety op_liveAttempt]. by rewrite Hstale, andb_false_r. Qed.
Lemma rehearsal_attempt newId retry w : gated_attempt tp cfg now newId {| op_retry := retry; op_liveAttempt := false; op_safety := None |} c w =
  let '(status, reason, provider) := rehearsal in record now newId c status reason provider w.
Proof.
  unfold rehearsal, predictHideOutcome, gated_attempt. cbn [op_liveAttempt]. destruct (gate now c cfg) as [reason|] eqn:Hg; [done|].
  destruct (gate_None_facts Hg) as [Hex _]. rewrite Hex. destruct (lc_dryRun cfg); cbn [orb negb]; [by apply simulate_record|].
  destruct (liveConfirmed cfg); cbn [negb andb orb]; [by apply simulate_record|]. done.
Qed.
Lemma rehearsal_reason : let '(status, reason, _) := rehearsal in
  status <> E_executed /\ status <> E_failed /\ nonempty reason = true /\ reason <> "comment_deleted_or_unavailable".
Proof.
  unfold rehearsal, predictHideOutcome. destruct (gate now c cfg) as [reason|] eqn:Hg.
  { apply gate_reason in Hg as [Hn Hd]. by repeat split. }
  destruct (_ || _); [by repeat split|]. destruct (negb _); by repeat split.
Qed.
(** What the request does after the attempt. *)
Definition conclude (res : HideExecutionResult) : prog (option HideExecutionResult) :=
  (if er_status res =e E_executed then write (resolve_by (op_tenant o) (qi_id q) Q_executed (Some (op_user o)))
   else if er_reason res =s "comment_deleted_or_unavailable" then write (resolve_by (op_tenant o) (qi_id q) Q_no_action None)
   else mret tt);;
  mret (Some res).
(** The request around an attempt: it reads the account, and marks the queue item after it. *)
Lemma run_hide_around newId retry live w : subject w = Some s ->
  let '(w1, r) := attemptFacebookHide tp cfg now newId {| op_retry := retry; op_liveAttempt := live; op_safety := None |} c w in
  match r with
  | Ret res => exists w2, runHideForQueueItem tp cfg now newId true o q subject policy retry live w = (w2, Ret (Some res)) /\
      w_calls w2 = w_calls w1 /\ w_execs w2 = w_execs w1 /\ w_accounts w2 = w_accounts w1
  | Throw e => runHideForQueueItem tp cfg now newId true o q subject policy retry live w = (w1, Throw e)
  end.
Proof.
  intros Hsub. set (run := runHideForQueueItem _ _ _ _ _ _ _ _ _ _ _ w).
  assert (E : run = (res ← attemptFacebookHide tp cfg now newId {| op_retry := retry; op_liveAttempt := live; op_safety := None |} c; conclude res) w).
  { unfold run, runHideForQueueItem. rewrite andb_false_r. unfold mbind at 1, prog_bind at 1, read at 1. by rewrite Hsub. }
  rewrite E. clear E run. unfold mbind, prog_bind. destruct (attemptFacebookHide _ _ _ _ _ c w) as [w1 [res|e]]; [|done].
  unfold conclude, mbind, prog_bind, write, mret, prog_ret. destruct (_ =e _); [|destruct (_ =s _)]; (eexists; split; [reflexivity|done]).
Qed.
Lemma run_hide_not_live newId retry operates w :
  runHideForQueueItem tp cfg now newId operates o q subject policy retry false w = runHideForQueueItem tp cfg now newId true o q subject policy retry false w.
Proof. done. Qed.
Lemma none_existing w : (forall x, In x (w_execs w) -> x_queueItem x <> Some (qi_id q)) -> List.filter (attemptWhere c) (w_execs w) = [].
Proof.
  intros H. induction (w_execs w) as [|x l IH]; [done|]. cbn. rewrite IH by (intros y Hy; apply H; by right).
  replace (attemptWhere c x) with false; [done|]. symmetry. unfold attemptWhere. rewrite (bool_decide_eq_false_2 (x_queueItem x = cx_queueItem c)).
  - by rewrite andb_false_r.
  - apply H. by left.
Qed.
Lemma no_preflight w : (forall x, In x (w_execs w) -> x_queueItem x <> Some (qi_id q)) -> findPreflightDryRun (op_tenant o) (Some (qi_id q)) (option_map fst policy) w = None.
Proof.
  intros H. unfold findPreflightDryRun. destruct (nonempty (qi_id q)); [|done].
  rewrite (proj2 (filter_nil_iff _ _)); [done|]. intros x Hx. rewrite (bool_decide_eq_false_2 (x_queueItem x = Some (qi_id q))) by by apply H.
  by rewrite andb_false_r.
Qed.
(** The rehearsal, on a state with no execution of the item. *)
Lemma rehearsed newId operates w : subject w = Some s -> (forall x, In x (w_execs w) -> x_queueItem x <> Some (qi_id q)) ->
  let '(status, reason, provider) := rehearsal in
  exists w', runHideForQueueItem tp cfg now newId operates o q subject policy false false w = (w', Ret (Some (result_of newId status reason))) /\
    grown [new_execution now newId c status reason provider] w w'.
Proof.
  intros Hsub Hnone. rewrite run_hide_not_live. pose proof (run_hide_around newId false false w Hsub) as Hrun.
  unfold attemptFacebookHide in Hrun. unfold mbind at 1, prog_bind at 1, read at 1 in Hrun. unfold findExistingExecutions in Hrun. rewrite none_existing in Hrun by done.
  change (newest_first []) with (@nil Execution) in Hrun. cbn [attempt_seeing] in Hrun. rewrite fresh_direct, rehearsal_attempt in Hrun.
  pose proof rehearsal_reason as Hre. destruct rehearsal as [[status reason] provider]. destruct Hre as (He & Hf & _ & _).
  destruct (record_plain now newId c status reason provider w He Hf) as (a & Ha). rewrite Ha in Hrun.
  destruct Hrun as (w2 & E & Hc & Hx & Hac). exists w2. split; [exact E|]. by split.
Qed.
(** The live attempt that follows the rehearsal sees its row and no other. *)
Lemma after_rehearsal preflightId status reason provider w w' : (forall x, In x (w_execs w) -> x_queueItem x <> Some (qi_id q)) ->
  w_execs w' = w_execs w ++ [new_execution now preflightId c status reason provider] ->
  findExistingExecutions c w' = [new_execution now preflightId c status reason provider].
Proof.
  intros Hnone Hx. unfold findExistingExecutions. rewrite Hx, List.filter_app, none_existing by done. cbn [List.filter app]. by rewrite own_key.
Qed.
(** What the live attempt does about it. *)
Definition live_attempt (preflightId newId : string) (status : HideExecutionStatus) (reason : string) (provider : option HideCommentResult) (retry : bool) : prog HideExecutionResult :=
  let go := gated_attempt tp cfg now newId {| op_retry := retry; op_liveAttempt := true; op_safety := None |} c in
  if status =e E_blocked then
    match gate now c cfg with
    | Some nowReason => if nonempty nowReason && status_is (Some reason) nowReason then mret (reuse (new_execution now preflightId c status reason provider) E_blocked nowReason) else go
    | None => go
    end
  else go.
Lemma attempt_after_rehearsal preflightId newId status reason provider retry w : status <> E_executed -> status <> E_failed ->
  attempt_seeing tp cfg now newId [new_execution now preflightId c status reason provider] {| op_retry := retry; op_liveAttempt := true; op_safety := None |} c w =
  live_attempt preflightId newId status reason provider retry w.
Proof.
  intros He Hf. unfold attempt_seeing, live_attempt. cbn [op_liveAttempt op_retry]. pose proof (fresh_direct newId retry true w) as Hd.
  destruct status; try done. unfold mbind, prog_bind, repair_if_stale. rewrite Hstale, andb_false_r. cbn.
  destruct (gate now c cfg) as [now'|]; [|exact Hd]. destruct (_ && _); [done|exact Hd].
Qed.
End Buttons.

(** Both buttons load the item and pass the guards. *)
Lemma approve_rehearses tp cfg now newId o i q s subject policy operates w : first_action o i q s subject now w ->
  let '(status, reason, provider) := rehearsal cfg now o q s policy in
  ends (approveQueueItem tp cfg now newId operates o i subject policy w) w (result_of newId status reason)
    [new_execution now newId (manual_context (op_tenant o) q s policy) status reason provider].
Proof.
  intros [Hmay Hitem Hhide Hsub Hfresh Hnone]. unfold approveQueueItem, loadQueueItem. rewrite Hmay, Hitem, Hhide, String.eqb_refl.
  unfold mbind at 1, prog_bind at 1, write. set (w0 := queue_audit _ _ _ _).
  pose proof (rehearsed tp cfg now o q s subject policy Hfresh newId operates w0 (Hsub w0 eq_refl) Hnone) as H.
  destruct (rehearsal cfg now o q s policy) as [[status reason] provider]. destruct H as (w1 & E & Hg). exists w1.
  unfold mbind, prog_bind. rewrite E. by split.
Qed.
Lemma live_after_rehearsal tp cfg now preflightId newId o i phrase q s subject policy retry w : first_action o i q s subject now w -> trim phrase = "LIVE HIDE" ->
  let c := manual_context (op_tenant o) q s policy in
  let live := executeLiveHide tp cfg now preflightId newId true o i phrase true retry subject policy w in
  let '(status, reason, provider) := rehearsal cfg now o q s policy in
  let row := new_execution now preflightId c status reason provider in
  exists w1, grown [row] w w1 /\
  match live_attempt tp cfg now o q s policy preflightId newId status reason provider retry w1 with
  | (w2, Ret r) => exists w3, live = (w3, Ret (Done (Some r))) /\ w_calls w3 = w_calls w2 /\ w_execs w3 = w_execs w2 /\ w_accounts w3 = w_accounts w2
  | (w2, Throw e) => live = (w2, Throw e)
  end.
Proof.
  intros [Hmay Hitem Hhide Hsub Hfresh Hnone] Hphrase. cbv zeta. set (c := manual_context _ q s policy).
  set (live := executeLiveHide _ _ _ _ _ _ _ _ _ _ _ _ _ w).
  pose proof (rehearsed tp cfg now o q s subject policy Hfresh preflightId true w (Hsub w eq_refl) Hnone) as H.
  pose proof (rehearsal_reason cfg now o q s policy) as Hre.
  destruct (rehearsal cfg now o q s policy) as [[status reason] provider]. destruct H as (w0 & E & Hx & Hc & Ha). destruct Hre as (He & Hf & _ & _). fold c in Hx.
  set (w1 := queue_audit o "platform_action.live_requested" q w0). exists w1. split; [by repeat split|].
  assert (El : live = (r ← runHideForQueueItem tp cfg now newId true o q subject policy retry true; mret (Done r)) w1).
  { unfold live, executeLiveHide, loadQueueItem. rewrite Hmay, Hitem, Hhide, Hphrase, !String.eqb_refl. cbn [negb orb].
    unfold mbind at 1, prog_bind at 1, read at 1. rewrite no_preflight by done. cbn [is_some]. unfold mbind at 1, prog_bind at 1. by rewrite E. }
  rewrite El. clear El live.
  pose proof (run_hide_around tp cfg now o q s subject policy newId retry true w1 (Hsub w1 Ha)) as Hrun.
  unfold attemptFacebookHide in Hrun. unfold mbind at 1, prog_bind at 1, read at 1 in Hrun.
  rewrite (after_rehearsal now o q s policy preflightId status reason provider w w1 Hnone Hx) in Hrun. fold c in Hrun.
  pose proof (attempt_after_rehearsal tp cfg now o q s policy Hfresh preflightId newId status reason provider retry w1 He Hf) as Hat. fold c in Hat.
  rewrite Hat in Hrun. unfold mbind, prog_bind.
  destruct (live_attempt _ _ _ _ _ _ _ _ _ _ _ _ _ w1) as [w2 [r|e]]; [|by rewrite Hrun].
  destruct Hrun as (w3 & E3 & H3). exists w3. split; [by rewrite E3|exact H3].
Qed.
(** A live attempt that only records. *)
Lemma live_records now newId c row reason w w1 m : grown [row] w w1 ->
  match record now newId c E_blocked reason None w1 with
  | (w2, Ret r) => exists w3, m = (w3, Ret (Done (Some r))) /\ w_calls w3 = w_calls w2 /\ w_execs w3 = w_execs w2 /\ w_accounts w3 = w_accounts w2
  | (w2, Throw e) => m = (w2, Throw e)
  end -> ends m w (result_of newId E_blocked reason) [row; new_execution now newId c E_blocked reason None].
Proof.
  intros (Hx & Hc & Ha). destruct (record_plain now newId c E_blocked reason None w1) as (a & ->); [done..|]. intros (w3 & -> & Hc3 & Hx3 & Ha3).
  exists w3. split; [done|]. split; [|split; [by rewrite Hc3|by rewrite Ha3]]. rewrite Hx3. cbn [add_audit set_execs w_execs]. by rewrite Hx, <- app_assoc.
Qed.

(** C16 — what the page predicts for a proposed hide is what its two buttons then do: approving, and the live button
    of a tenant that may operate, with its confirmation given, for an operator who may approve, an item never acted
    on, an account that needs no repair, and the settings and time as they were when it predicted. A predicted block:
    approving records that block, and the live button ends blocked with the same reason, all its rows being
    blocked rows of that reason. A predicted dry run: approving records a dry run; the live button records the
    dry run of its own preflight and is then refused, since dry run is on. In both cases neither button asks the
    provider anything. Where a live hide is predicted, approving still only simulates, and the live button first
    records its preflight, without a call, and then goes through the real hide, whose result it reports. *)
Theorem prediction_exact (tp : FacebookHideTransport) (cfg : LiveConfig) (now : Z) (preflightId newId : string) (o : operator) (i phrase : string)
    (operates retry : bool) (q : QueueItem) (s : HideSubject) (subject : LiveDb -> option HideSubject) (policy : option (string * string)) (w : LiveDb) :
  first_action o i q s subject now w -> trim phrase = "LIVE HIDE" ->
  let c := manual_context (op_tenant o) q s policy in
  let approve := approveQueueItem tp cfg now newId operates o i subject policy w in
  let live := executeLiveHide tp cfg now preflightId newId true o i phrase true retry subject policy w in
  let dry id := new_execution now id c E_dry_run "dry_run_mode" (Some (simulation c)) in
  match predictHideOutcome now (predicted_context c) cfg with
  | (Pr_blocked, reason) =>
      ends approve w (result_of newId E_blocked reason) [new_execution now newId c E_blocked reason None] /\
      exists r rows, ends live w r rows /\ er_status r = E_blocked /\ er_reason r = reason /\
        In (new_execution now preflightId c E_blocked reason None) rows /\ Forall (fun x => x_status x = "blocked" /\ x_reason x = Some reason) rows
  | (Pr_dry_run, _) =>
      ends approve w (result_of newId E_dry_run "dry_run_mode") [dry newId] /\
      ends live w (result_of newId E_blocked "dry_run_still_enabled") [dry preflightId; new_execution now newId c E_blocked "dry_run_still_enabled" None]
  | (Pr_live_possible, _) =>
      ends approve w (result_of newId E_dry_run "dry_run_mode") [dry newId] /\
      exists w1, grown [dry preflightId] w w1 /\
      match hide_for_real tp now newId c w1 with
      | (w2, Ret r) => exists w3, live = (w3, Ret (Done (Some r))) /\ w_calls w3 = w_calls w2 /\ w_execs w3 = w_execs w2
      | (w2, Throw e) => live = (w2, Throw e)
      end
  end.
Proof.
  intros Hfa Hphrase. cbv zeta. set (c := manual_context (op_tenant o) q s policy).
  assert (Hstale : accountLooksStale now (cx_acct c) = false) by apply (fa_fresh _ _ _ _ _ _ _ Hfa).
  pose proof (approve_rehearses tp cfg now newId o i q s subject policy operates w Hfa) as Happrove.
  pose proof (live_after_rehearsal tp cfg now preflightId newId o i phrase q s subject policy retry w Hfa Hphrase) as Hlive. cbv zeta in Hlive.
  unfold rehearsal, live_attempt, gated_attempt in *. fold c in Happrove, Hlive. cbn [op_liveAttempt] in Hlive. unfold predictHideOutcome in *.
  rewrite (gate_predicted now c cfg Hstale). destruct (gate now c cfg) as [reason|] eqn:Hg.
  { destruct Hlive as (w1 & Hw1 & Hlive). split; [exact Happrove|]. destruct (gate_reason _ _ _ _ Hg) as [Hne _].
    rewrite Hne in Hlive. cbn [status_is andb] in Hlive. rewrite String.eqb_refl in Hlive.
    destruct Hlive as (w3 & -> & Hc3 & Hx3 & Ha3). eexists _, [_]. split; [exists w3; split; [reflexivity|]|].
    - destruct Hw1 as (Hx & Hc & Ha). split; [rewrite Hx3; exact Hx|]. by rewrite Hc3, Ha3.
    - split; [done|]. split; [done|]. split; [by left|]. by apply Forall_singleton. }
  destruct (gate_None_facts cfg now o q s policy Hg) as [Hex _]. rewrite Hex in *.
  destruct (lc_dryRun cfg); cbn [orb negb] in *; [|destruct (liveConfirmed cfg); cbn [negb] in *]; destruct Hlive as (w1 & Hw1 & Hlive).
  - split; [exact Happrove|]. exact (live_records now newId c _ _ w w1 _ Hw1 Hlive).
  - split; [exact Happrove|]. exists w1. split; [exact Hw1|]. cbn in Hlive. destruct (hide_for_real tp now newId c w1) as [w2 [r|e]]; [|exact Hlive].
    destruct Hlive as (w3 & E & Hc & Hx & _). by exists w3.
  - split; [exact Happrove|]. eexists _, _. split; [exact (live_records now newId c _ _ w w1 _ Hw1 Hlive)|].
    split; [done|]. split; [done|]. split; [by left|]. by repeat constructor.
Qed.

(** ** Rollback *)

(** C17 — rolling back: the call always returns; nothing is rolled back but an executed row of the
    tenant with a comment; unless it is live nothing is asked and no execution changes; live, the
    row is marked exactly when the provider accepted the post, and no other row ever is. *)
Theorem rollback_exact (tp : FacebookHideTransport) (now : Z) (tenant executionId : string) (token : option string) (live : bool) (w : LiveDb) :
  exists w' status reason, rollbackHide tp now tenant executionId token live w = (w', Ret (status, reason)) /\
  match List.find (fun x => own_execution tenant executionId x && (x_status x =s "executed")) (w_execs w) with
  | Some x =>
      let comment := x_comment x ?? "" in let answer := tp_unhide tp (w_calls w) comment (token ?? "") in
      if nonempty comment && live then
        w_calls w' = w_calls w ++ [Asked_unhide comment (token ?? "") answer] /\
        (status = if ht_ok answer then R_rolled_back else R_failed) /\
        w_execs w' = (if ht_ok answer then update_where (own_execution tenant executionId) (with_rollback now) (w_execs w) else w_execs w)
      else w_calls w' = w_calls w /\ w_execs w' = w_execs w /\ status = (if nonempty comment then R_dry_run else R_failed)
  | None => w' = w /\ status = R_failed
  end.
Proof.
  unfold rollbackHide. unfold mbind at 1, prog_bind at 1, read at 1.
  destruct (List.find _ (w_execs w)) as [x|] eqn:Hf; [|by eexists _, _, _].
  apply find_some in Hf as [_ [[_ Hid]%andb_true_iff _]%andb_true_iff]. apply String.eqb_eq in Hid.
  destruct (x_comment x) as [comment|]; [|by eexists _, _, _]. cbn [nullish]. destruct (nonempty comment) eqn:Hne; cbn [negb andb]; [|by eexists _, _, _].
  cbv zeta. unfold unhideComment. rewrite Hne, Hid. cbn [negb]. destruct live; cbn [negb]; [|eexists _, _, _; split; [reflexivity|done]].
  unfold mbind, prog_bind, write, ask_unhide, mret, prog_ret. cbn [w_calls add_audit].
  destruct (tp_unhide tp _ _ _) as [ok code err msg] eqn:Ha. cbn [ht_ok]. destruct ok; cbn [provider_success provider_failure pc_status];
    eexists _, _, _; (split; [reflexivity|]); done.
Qed.

(** ** The limits hold *)

Lemma upsert_spec g d w : exists i q, upsert_queue g d w = (set_queue q w, Ret i).
Proof. unfold upsert_queue. destruct (List.find _ _); by eexists _, _. Qed.
(** What an ingestion does to the executions: nothing, or one row is added under the envelope
    evaluated on the state it found. *)
Lemma ingest_effect tp cfg now newId midnight g i policies w :
  let w' := (control_phase tp cfg now newId midnight g i policies w).1 in
  settled w w' /\ (w_execs w' = w_execs w \/ exists st r p queueId policy,
    let d := evaluateControl i policies in let c := autonomous_context g queueId policy d (ci_riskLevel i) in
    let s := loadProductionSafetyContext (lc_productionSafeMode cfg) (lc_globalKillSwitch cfg) midnight (ig_tenant g) (ig_brand g)
      (su_account (ig_subject g)) (js_name (cd_matchedCategory d)) now w in
    w_execs w' = w_execs w ++ [new_execution now newId c st r p] /\
    (st = E_executed -> sv_outcome (evaluateProductionSafety By_autonomy (js_name (cd_matchedCategory d)) (cd_confidence d) (ci_riskLevel i) s) = So_allow)).
Proof.
  unfold control_phase. destruct policies as [|p0 ps]; [split; [done|by left]|]. set (policies := p0 :: ps). set (d := evaluateControl i policies). cbv zeta.
  destruct (upsert_spec g d w) as (queueId & q & Hq). unfold mbind, prog_bind, read, write, mret, prog_ret. rewrite Hq. clear Hq.
  destruct (List.find _ policies) as [p|]; [|split; [done|left; reflexivity]]. destruct (may_act g d (Some p)); [|split; [done|left; reflexivity]].
  set (s := loadProductionSafetyContext _ _ _ _ _ _ _ _ _).
  set (o := {| op_retry := false; op_liveAttempt := false; op_safety := Some s |}). set (c := autonomous_context g queueId p d (ci_riskLevel i)).
  assert (He : effect now newId c (may_hide cfg now o c) (set_queue q w) (attemptFacebookHide tp cfg now newId o c (set_queue q w)).1).
  { unfold attemptFacebookHide, mbind, prog_bind, read. apply (effect_weaken now newId c (may_hide cfg now o c /\ not_executed (findExistingExecutions c (set_queue q w)))); [intros [H _]; exact H|]. apply attempt_effect. }
  assert (Hend : forall w1, effect now newId c (may_hide cfg now o c) (set_queue q w) w1 -> settled w w1 /\ (w_execs w1 = w_execs w \/ exists st r p2 queueId policy,
    w_execs w1 = w_execs w ++ [new_execution now newId (autonomous_context g queueId policy d (ci_riskLevel i)) st r p2] /\
    (st = E_executed -> sv_outcome (evaluateProductionSafety By_autonomy (js_name (cd_matchedCategory d)) (cd_confidence d) (ci_riskLevel i) s) = So_allow))).
  { intros w1 (Hs & _ & [Hx|(st & r & p2 & HK & _ & Hx)]); (split; [exact Hs|]); [by left|right]. exists st, r, p2, queueId, p. split; [exact Hx|].
    intros Hst. destruct (HK Hst) as (_ & _ & Hsafe & _). exact (Hsafe s eq_refl). }
  destruct (attemptFacebookHide _ _ _ _ _ _ _) as [w1 [r|e]]; cbn [fst] in *; [|by apply Hend].
  destruct (_ && _); cbn [fst]; by apply (Hend w1) in He.
Qed.
(** The hides of a brand since the start of a day. *)
Definition day_hides (tenant brand : string) (day : Z) (w : LiveDb) : Z := count (fun x => counted_hide tenant brand x && since day x) (w_execs w).
(** An ingestion on the day that began at [day]. *)
Record Ingestion := { in_tp : FacebookHideTransport; in_cfg : LiveConfig; in_now : Z; in_newId : string; in_item : Ingest; in_input : ControlInput;
  in_policies : list ControlPolicyLite }.
Definition ingest_on (day : Z) (w : LiveDb) (p : Ingestion) : LiveDb :=
  (control_phase (in_tp p) (in_cfg p) (in_now p) (in_newId p) (fun _ => day) (in_item p) (in_input p) (in_policies p) w).1.
Lemma ingest_limit day tenant brand w p : settings_of tenant brand (ingest_on day w p) = settings_of tenant brand w /\
  day_hides tenant brand day (ingest_on day w p) <= Z.max (day_hides tenant brand day w) (ss_dailyAutoHideLimit (settings_of tenant brand w)).
Proof.
  destruct (ingest_effect (in_tp p) (in_cfg p) (in_now p) (in_newId p) (fun _ => day) (in_item p) (in_input p) (in_policies p) w) as [(_ & Hs & _) Hx].
  fold (ingest_on day w p) in *. split; [unfold settings_of; by rewrite Hs|]. unfold day_hides. destruct Hx as [->|(st & r & pr & qid & pol & -> & Hallow)]; [lia|].
  rewrite count_app, count_one. set (x := new_execution _ _ _ _ _ _). destruct (counted_hide tenant brand x && since day x) eqn:Hc; [|lia].
  unfold counted_hide in Hc. rewrite !andb_true_iff, !String.eqb_eq in Hc. destruct Hc as ((((Ht & Hb) & Hst) & _) & _). cbn in Ht, Hb, Hst.
  assert (st = E_executed) as E by (by destruct st). apply Hallow in E. apply envelope_allows in E as (_ & _ & Hg).
  destruct (Hg eq_refl) as (_ & _ & _ & _ & _ & _ & _ & _ & (_ & Hday & _)). subst tenant brand. cbn in Hday. unfold count in *. lia.
Qed.

(** C14 — the daily limit holds: through any sequence of ingestions in a day, of whatever brands,
    the number of comments hidden by autonomy for a brand never exceeds its daily limit (or what
    it was at the start). *)
Theorem daily_limit_holds (day : Z) (tenant brand : string) (run : list Ingestion) (w : LiveDb) :
  day_hides tenant brand day (fold_left (ingest_on day) run w) <= Z.max (day_hides tenant brand day w) (ss_dailyAutoHideLimit (settings_of tenant brand w)).
Proof.
  revert w. induction run as [|p run IH]; intros w; cbn [fold_left]; [lia|].
  destruct (ingest_limit day tenant brand w p) as [Hs Hl]. specialize (IH (ingest_on day w p)). rewrite Hs in IH. lia.
Qed.

(** ** What the ingestion may hide *)

Lemma ingest_calls tp cfg now newId midnight g i policies w :
  let d := evaluateControl i policies in
  let s := loadProductionSafetyContext (lc_productionSafeMode cfg) (lc_globalKillSwitch cfg) midnight (ig_tenant g) (ig_brand g)
    (su_account (ig_subject g)) (js_name (cd_matchedCategory d)) now w in
  exists new, w_calls (control_phase tp cfg now newId midnight g i policies w).1 = w_calls w ++ new /\ (posts new <= 1)%nat /\
  (new = [] \/ exists p qid o, let c := autonomous_context g qid p d (ci_riskLevel i) in In p policies /\ pl_category p = js_name (cd_matchedCategory d) /\
     may_act g d (Some p) = true /\ op_safety o = Some s /\ op_liveAttempt o = false /\ (forall call, In call new -> call_ok c (may_hide cfg now o c) call)).
Proof.
  cbv zeta. unfold control_phase.
  assert (Hnone : forall w1, w_calls w1 = w_calls w -> exists new, w_calls w1 = w_calls w ++ new /\ (posts new <= 1)%nat /\ (new = [] \/ False)).
  { intros w1 E. exists []. rewrite app_nil_r. split; [done|]. split; [cbn; lia|by left]. }
  destruct policies as [|p0 ps]; [destruct (Hnone w eq_refl) as (new & E & Hp & [Hn|[]]); exists new; split; [exact E|split; [exact Hp|by left]]|].
  set (policies := p0 :: ps). set (d := evaluateControl i policies). cbv zeta.
  destruct (upsert_spec g d w) as (queueId & q & Hq). unfold mbind, prog_bind, read, write, mret, prog_ret. rewrite Hq. clear Hq.
  assert (Hskip : exists new, w_calls (set_queue q w) = w_calls w ++ new /\ (posts new <= 1)%nat /\ new = [])
    by (exists []; rewrite app_nil_r; split; [done|split; [cbn; lia|done]]).
  destruct (List.find _ policies) as [p|] eqn:Hf; [|destruct Hskip as (new & E & Hp & Hn); exists new; split; [exact E|split; [exact Hp|by left]]].
  destruct (may_act g d (Some p)) eqn:Hm; [|destruct Hskip as (new & E & Hp & Hn); exists new; split; [exact E|split; [exact Hp|by left]]].
  apply find_some in Hf as [Hin Hcat]. apply String.eqb_eq in Hcat.
  set (s := loadProductionSafetyContext _ _ _ _ _ _ _ _ _). set (o := {| op_retry := false; op_liveAttempt := false; op_safety := Some s |}).
  set (c := autonomous_context g queueId p d (ci_riskLevel i)).
  destruct (attempt_calls tp cfg now newId (findExistingExecutions c (set_queue q w)) o c (set_queue q w)) as (new & Hc & Hp & Hok).
  assert (Hall : exists new, w_calls (attemptFacebookHide tp cfg now newId o c (set_queue q w)).1 = w_calls w ++ new /\ (posts new <= 1)%nat /\
    forall call, In call new -> call_ok c (may_hide cfg now o c) call).
  { exists new. split; [exact Hc|]. split; [exact Hp|]. intros call Hcall. specialize (Hok call Hcall). destruct call; simpl in *; tauto. }
  clear new Hc Hp Hok. destruct Hall as (new & Hc & Hp & Hok). exists new.
  assert (Hlast : forall w1, w_calls w1 = w_calls w ++ new -> w_calls w1 = w_calls w ++ new /\ (posts new <= 1)%nat /\ (new = [] \/ exists p qid o0,
     In p policies /\ pl_category p = js_name (cd_matchedCategory d) /\ may_act g d (Some p) = true /\ op_safety o0 = Some s /\ op_liveAttempt o0 = false /\
     (forall call, In call new -> call_ok (autonomous_context g qid p d (ci_riskLevel i)) (may_hide cfg now o0 (autonomous_context g qid p d (ci_riskLevel i))) call))).
  { intros w1 E. split; [exact E|]. split; [exact Hp|]. right. exists p, queueId, o. by repeat (split; [done|]). }
  destruct (attemptFacebookHide _ _ _ _ _ _ _) as [w1 [r|e]]; cbn [fst] in Hc |- *; [|by apply Hlast]. destruct (_ && _); cbn [fst]; by apply Hlast.
Qed.

(** C6 — what the ingestion hides, end to end: it makes at most one post (a call of the transport, which may
    repeat its request), for the comment it ingested, and only where live execution, billing, the feature
    switch and the account's automatic mode allow it, the brand's policy for the matched category is
    autonomous, the control center made it a candidate, the category is harmful and no customer voice, no
    kill switch is on, and the brand opted in, is below its limits and, where its settings ask for the
    approval of new categories, had approved the category before. *)
Theorem ingestion_hides_only_licensed (tp : FacebookHideTransport) (cfg : LiveConfig) (now : Z) (newId : string) (midnight : Z -> Z) (g : Ingest)
    (i : ControlInput) (policies : list ControlPolicyLite) (w : LiveDb) :
  let d := evaluateControl i policies in
  let category := js_name (cd_matchedCategory d) in
  let s := loadProductionSafetyContext (lc_productionSafeMode cfg) (lc_globalKillSwitch cfg) midnight (ig_tenant g) (ig_brand g)
    (su_account (ig_subject g)) category now w in
  exists new, w_calls (control_phase tp cfg now newId midnight g i policies w).1 = w_calls w ++ new /\ (posts new <= 1)%nat /\
  (forall comment token answer, In (Asked_hide comment token answer) new ->
     su_comment (ig_subject g) = Some comment /\ canExecuteLive cfg = true /\
     ig_operates g = true /\ ig_hideFeature g = true /\ ig_autoHideEnabled g = true /\ ig_autoHideMode g = "automatic" /\
     (exists p, In p policies /\ pl_category p = category /\ pl_mode p = "autonomous") /\
     cd_wouldExecute d = true /\ (cd_matchedCategory d ∈ AUTONOMOUS_ELIGIBLE) /\ (cd_matchedCategory d ∉ NEVER_AUTONOMOUS) /\
     no_kill_switch s /\ autonomy_granted category (cd_confidence d) (ci_riskLevel i) s).
Proof.
  intros d category s. destruct (ingest_calls tp cfg now newId midnight g i policies w) as (new & Hc & Hp & Hn). exists new. split; [exact Hc|]. split; [exact Hp|].
  intros comment token answer Hin. destruct Hn as [->|(p & qid & o & Hpin & Hcat & Hact & Hsafety & Hlive & Hok)]; [destruct Hin|].
  destruct (Hok _ Hin) as (Hmay & -> & _). apply may_hide_fits in Hmay as (Hex & _ & Hsub & Hsafe & _).
  unfold may_act in Hact. rewrite !andb_true_iff, !String.eqb_eq in Hact. destruct Hact as (((((Hmode & Hwould) & Hop) & Hfeat) & Hauto) & Hautomatic).
  pose proof (proj1 (envelope_allows _ _ _ _ _) (Hsafe s Hsafety)) as (Hkill & _ & Hgrant).
  pose proof (subject_comment _ Hsub) as Hcm. destruct Hsub as ((k & Hk & Hel) & Hnev & _).
  split; [exact Hcm|]. split; [done|]. split; [done|]. split; [done|]. split; [done|]. split; [done|]. split; [by exists p|].
  split; [done|]. split; [by rewrite (js_name_inj k (cd_matchedCategory d) Hk) in Hel|]. split; [by apply Hnev|]. split; [done|]. exact (Hgrant eq_refl).
Qed.

(** * Where the record and the code part *)

Definition accepted : HideTransportResult := {| ht_ok := true; ht_responseCode := Some "200"; ht_errorCode := None; ht_errorMessage := None |}.
Definition page : FacebookHideTransport := MockFacebookHideTransport accepted (Comment_ok true false) (Page_ok "P1" None).
Definition open_config (globalKill : bool) : LiveConfig := {| lc_liveEnabled := true; lc_facebookHideEnabled := true; lc_dryRun := false;
  lc_testConfirm := "YES"; lc_productionSafeMode := true; lc_globalKillSwitch := globalKill |}.
Definition manager : operator := {| op_role := Access.Owner; op_tenant := "t1"; op_user := "u1" |}.
(** The comment on the account "a1" of the tables. *)
Definition subject (token : option string) (w : LiveDb) : option HideSubject :=
  option_map (fun a => let n := la_conn a in {| su_riskLevel := "high"; su_comment := Some "c1"; su_post := None; su_account := la_id a;
    su_platform := "facebook_page"; su_status := la_status a; su_health := cn_health n; su_grantedPermissions := [FACEBOOK_HIDE_PERMISSION];
    su_pageId := Some "P1"; su_externalId := "P1"; su_tokenExpiresAt := cn_tokenExpiresAt n; su_lastError := cn_lastError n;
    su_connectionStatus := cn_connectionStatus n; su_tokenHealth := cn_tokenHealth n; su_token := token |}) (head (w_accounts w)).
Definition item : QueueItem := {| qi_id := "q1"; qi_tenant := "t1"; qi_brand := "b1"; qi_item := "i1"; qi_category := "spam"; qi_confidence := 9 # 10;
  qi_proposedAction := HIDE_ACTION; qi_state := "approval_required"; qi_safetyBlocked := false; qi_approvedBy := None; qi_rejectedBy := None |}.
Definition connection (health : string) (lastError : option string) : AccountConn := {| cn_connectionStatus := Some "connected"; cn_tokenHealth := Some "ok";
  cn_health := health; cn_reconnectReason := None; cn_lastError := lastError; cn_lastErrorAt := None; cn_lastTokenCheckAt := None;
  cn_lastTokenCheckResult := None; cn_lastGoodCheckAt := None; cn_tokenExpiresAt := None |}.
Definition tables (kill : bool) (n : AccountConn) (settings : list SafetyRow) (execs : list Execution) : LiveDb := {| w_execs := execs;
  w_accounts := [{| la_id := "a1"; la_tenant := "t1"; la_brand := "b1"; la_status := "active"; la_killSwitch := kill; la_conn := n |}];
  w_queue := [item]; w_audits := []; w_brands := [{| lb_id := "b1"; lb_tenant := "t1"; lb_killSwitch := kill |}]; w_settings := settings; w_feedback := []; w_calls := [] |}.
Definition healthy : AccountConn := connection "healthy" None.
Definition press (cfg : LiveConfig) (id : string) (token : option string) (w : LiveDb) : LiveDb * outcome action_result live_error :=
  executeLiveHide page cfg 1000 ("pre" +:+ id) id true manager "q1" "LIVE HIDE" true false (subject token) None w.

(** The envelope documents that kill switches block manual and autonomous triggers, and the
    switch tells its user that live actions are stopped. The manual action hands no envelope to
    the attempt: with every kill switch on, the comment is hidden. *)
Theorem manual_hide_ignores_kill_switch :
  let w := tables true healthy [] [] in
  In (Asked_hide "c1" "tok" accepted) (w_calls (press (open_config true) "x1" (Some "tok") w).1) /\
  forall safeMode now, sv_outcome (evaluateProductionSafety By_approval "spam" (9 # 10) "high"
    (loadProductionSafetyContext safeMode true (fun t => t) "t1" "b1" "a1" "spam" now w)) = So_blocked.
Proof. split; [vm_compute; tauto|done]. Qed.

(** Once executed an action is documented to be answered with the row on record. The key of that
    answer holds the policy too: when the policy of the category is gone, or another, the hard
    stop is missed, the database refuses the second row and the action throws; and where the
    comment cannot be looked at first, it is posted a second time before that. *)
Theorem changed_policy_defeats_hard_stop :
  let press_on tp id policy w := executeLiveHide tp (open_config false) 1000 ("pre" +:+ id) id true manager "q1" "LIVE HIDE" true false
    (subject (Some "tok")) policy w in
  let first := press_on page "x1" (Some ("p1", "approval")) (tables false healthy [] []) in
  let again := press_on page "x2" None first.1 in
  posts (w_calls first.1) = 1%nat /\ again.2 = Throw P2002 /\ posts (w_calls again.1) = 1%nat /\
  (let blind := {| tp_hide := tp_hide page; tp_unhide := tp_unhide page; tp_getCommentState := None; tp_getPageTokenState := None |} in
   let third := press_on blind "x3" None first.1 in third.2 = Throw P2002 /\ posts (w_calls third.1) = 2%nat).
Proof. vm_compute. repeat split. Qed.

(** A token that works is documented to unblock: the repair makes the row healthy, but not the
    health the gate is about to look at, so the same attempt is still blocked, by a state that
    no longer is on record. *)
Theorem repair_leaves_health :
  let w0 := tables false (connection "error" (Some "token_expired")) [] [] in
  let '(w, r) := runHideForQueueItem page (open_config false) 1000 "x1" true manager item (subject (Some "tok")) None false true w0 in
  (exists e, r = Ret (Some e) /\ er_status e = E_blocked /\ er_reason e = "unhealthy_account") /\
  map (fun a => cn_health (la_conn a)) (w_accounts w) = ["healthy"] /\ posts (w_calls w) = 0%nat.
Proof. vm_compute. split; [eexists; repeat split|split; reflexivity]. Qed.

(** Without a usable credential no call is to be made; a missing token is replaced by the empty
    one and posted. *)
Theorem missing_token_is_posted :
  In (Asked_hide "c1" "" accepted) (w_calls (press (open_config false) "x1" None (tables false healthy [] [])).1).
Proof. vm_compute. tauto. Qed.

(** The windows are documented to roll; the day is that of the clock: what was hidden a minute
    before midnight does not count a minute after it. *)
Definition hidden_at (t : Z) : Execution := {| x_id := "x"; x_tenant := "t1"; x_brand := "b1"; x_item := Some "i"; x_queueItem := Some "q"; x_policy := None;
  x_account := "a1"; x_platform := "facebook_page"; x_actionType := HIDE_ACTION; x_requestedBy := "system"; x_trigger := "autonomous"; x_status := "executed";
  x_reason := None; x_category := Some "spam"; x_confidence := None; x_comment := Some "c"; x_post := None; x_responseCode := None; x_errorCode := None;
  x_errorMessage := None; x_createdAt := t; x_executedAt := Some t; x_rolledBackAt := None |}.
Definition DAY : Z := 24 * 60 * 60 * 1000.
Theorem day_window_is_no_window :
  let utc t := t / DAY * DAY in let minute := 60000 in
  let count t := sk_dayCount (sf_counts (loadProductionSafetyContext true false utc "t1" "b1" "a1" "spam" t (tables false healthy [] (repeat (hidden_at (DAY - minute)) 10)))) in
  count (DAY - 1) = 10 /\ count (DAY + minute) = 0.
Proof. vm_compute. split; reflexivity. Qed.

(** The opt-in is to let safe categories be hidden. A category must have been approved before,
    and nothing ever approves one: whatever the system does from an empty settings table, no
    ingestion posts a hide. *)
Definition none_approved (w : LiveDb) : Prop :=
  forall r, In r (w_settings w) -> ss_requireHumanApprovalForNewCategory (sy_settings r) = true /\ ss_approvedAutoHideCategories (sy_settings r) = [].
Lemma settled_none_approved {A} (m : prog A) : (forall w, w_settings (m w).1 = w_settings w) -> preserves none_approved m.
Proof. intros H w Hw r. rewrite H. apply Hw. Qed.
Lemma rollback_settings tp now tenant executionId token live w : w_settings (rollbackHide tp now tenant executionId token live w).1 = w_settings w.
Proof.
  unfold rollbackHide, mbind, prog_bind, read. destruct (List.find _ _) as [x|]; [|done]. destruct (x_comment x) as [comment|]; [|done].
  destruct (negb (nonempty comment)) eqn:Hn; [done|]. unfold write, unhideComment. rewrite Hn. destruct (negb live); [done|].
  unfold mbind, prog_bind, ask_unhide, mret, prog_ret. cbn [fst]. destruct (tp_unhide _ _ _ _) as [[] ? ? ?]; done.
Qed.
Lemma step_none_approved w w' : live_step w w' -> none_approved w -> none_approved w'.
Proof.
  intros Hstep Hw. apply (step_preserves none_approved) with (w := w); try done.
  - intros tp cfg now newId existing o c. apply settled_none_approved. intros w0. destruct (attempt_effect tp cfg now newId existing o c w0) as ((_ & Hs & _) & _). exact Hs.
  - intros tp now tenant executionId token live. apply settled_none_approved. intros w0. apply rollback_settings.
  - intros available o brand on ack w0 H0. unfold setBrandAutoHide, allowed. destruct (Access.assertCan _ _); [|done]. destruct (List.find _ _); [|done].
    destruct (_ && _); [done|]. destruct (_ && _); [done|]. cbn [snd]. intros r. cbn [operator_audit add_audit set_settings w_settings]. destruct (existsb _ _).
    + unfold update_where. intros (y & <- & Hy)%in_map_iff. specialize (H0 y Hy). by destruct (own_settings _ _ y).
    + rewrite in_app_iff. intros [Hr|[<-|[]]]; [by apply H0|done].
Qed.
Theorem opt_in_hides_nothing (w w' : LiveDb) (tp : FacebookHideTransport) (cfg : LiveConfig) (now : Z) (newId : string) (midnight : Z -> Z) (g : Ingest)
    (i : ControlInput) (policies : list ControlPolicyLite) : rtc live_step w w' -> w_settings w = [] ->
  exists new, w_calls (control_phase tp cfg now newId midnight g i policies w').1 = w_calls w' ++ new /\
    forall comment token answer, ~ In (Asked_hide comment token answer) new.
Proof.
  intros Hrun H0. assert (Hw : none_approved w').
  { assert (Hstart : none_approved w) by (intros r; by rewrite H0). clear H0. induction Hrun as [w|w w1 w' Hstep _ IH]; [done|]. apply IH. by apply (step_none_approved w). }
  destruct (ingest_calls tp cfg now newId midnight g i policies w') as (new & Hc & _ & Hn). exists new. split; [exact Hc|]. intros comment token answer Hin.
  destruct Hn as [->|(p & qid & o & _ & _ & _ & Hsafety & _ & Hok)]; [destruct Hin|]. destruct (Hok _ Hin) as (Hmay & _). apply may_hide_fits in Hmay as (_ & _ & _ & Hsafe & _).
  apply (Hsafe _) in Hsafety. apply envelope_allows in Hsafety as (_ & _ & Hg). destruct (Hg eq_refl) as (_ & _ & _ & _ & _ & _ & Happroved & _).
  cbn [sf_settings sf_categoryApprovedBefore loadProductionSafetyContext] in Happroved.
  assert (Hset : ss_requireHumanApprovalForNewCategory (settings_of (ig_tenant g) (ig_brand g) w') = true /\
    ss_approvedAutoHideCategories (settings_of (ig_tenant g) (ig_brand g) w') = []).
  { unfold settings_of. destruct (List.find _ (w_settings w')) as [r|] eqn:Hf; [|done]. apply find_some in Hf as [Hr _]. exact (Hw r Hr). }
  destruct Hset as [Hreq Hempty]. specialize (Happroved Hreq). rewrite Hempty in Happroved. discriminate Happroved.
Qed.

(** * The claims at concrete inputs *)

Definition plain : AttemptOpts := {| op_retry := false; op_liveAttempt := true; op_safety := None |}.
Definition sample_subject : HideSubject := {| su_riskLevel := "high"; su_comment := Some "c1"; su_post := None; su_account := "a1";
  su_platform := "facebook_page"; su_status := "active"; su_health := "healthy"; su_grantedPermissions := [FACEBOOK_HIDE_PERMISSION]; su_pageId := Some "P1";
  su_externalId := "P1"; su_tokenExpiresAt := None; su_lastError := None; su_connectionStatus := Some "connected"; su_tokenHealth := Some "ok";
  su_token := Some "tok" |}.
Definition context : HideContext := manual_context "t1" item sample_subject None.
Lemma one_execution_per_action_witness :
  executed_unique (attempt_seeing page (open_config false) 1000 "x1" [] plain context (tables false healthy [] [])).1.
Proof.
  apply (one_execution_per_action (tables false healthy [] [])); [apply rtc_once, Step_attempt|]. intros i j x y H. discriminate H.
Defined.
Lemma sample_first : first_action manager "q1" item sample_subject (fun _ => Some sample_subject) 1000 (tables false healthy [] []).
Proof. split; [reflexivity..|]. intros x []. Qed.
Lemma prediction_exact_witness :
  let w := tables false healthy [] [] in
  predictHideOutcome 1000 (predicted_context context) (open_config false) = (Pr_live_possible, "all_gates_passed_and_confirmed") /\
  ends (approveQueueItem page (open_config false) 1000 "x1" true manager "q1" (fun _ => Some sample_subject) None w) w
    (result_of "x1" E_dry_run "dry_run_mode") [new_execution 1000 "x1" context E_dry_run "dry_run_mode" (Some (simulation context))].
Proof.
  split; [reflexivity|].
  exact (proj1 (prediction_exact page (open_config false) 1000 "x0" "x1" manager "q1" "LIVE HIDE" true false item sample_subject (fun _ => Some sample_subject) None
    (tables false healthy [] []) sample_first eq_refl)).
Defined.

End LiveRuns.
