(* ===== verification/Contacts.v ===== *)
(** Business contacts, the pure domain ([packages/core/src/business-contacts.ts]): the
    platforms and their sources, the sales status and the privacy lifecycle of a contact,
    what lead ads need to work, onboarding summaries, search, notes, timeline, bulk
    selections, export rows and the privacy review. *)
From S2P Require Import Prelude Outbox Workspace Notifications.
From Stdlib Require Import QArith.QArith.
Open Scope string_scope.
Open Scope list_scope.
Open Scope Z_scope.
Open Scope tam_scope.

Module Contacts.

(** * Enumerations *)

(* src: packages/core/src/business-contacts.ts:15-20 BusinessProvider *)
Inductive BusinessProvider := BP_Meta | BP_Google | BP_TikTok | BP_LinkedIn.
#[export] Program Instance BusinessProvider_enum : JsEnum BusinessProvider := {|
  js_name v := match v with BP_Meta => "meta" | BP_Google => "google" | BP_TikTok => "tiktok" | BP_LinkedIn => "linkedin" end;
  js_values := [BP_Meta; BP_Google; BP_TikTok; BP_LinkedIn] |}.
Solve All Obligations with solve_js_enum.
(* src: packages/core/src/business-contacts.ts:25-33 BusinessConnectionStatus *)
Inductive BusinessConnectionStatus :=
| BC_NotConfigured | BC_Pending | BC_Active | BC_ReauthRequired | BC_Disconnected | BC_Error | BC_AwaitingProviderApproval.
#[export] Program Instance BusinessConnectionStatus_enum : JsEnum BusinessConnectionStatus := {|
  js_name v := match v with
    | BC_NotConfigured => "not_configured" | BC_Pending => "pending" | BC_Active => "active" | BC_ReauthRequired => "reauth_required"
    | BC_Disconnected => "disconnected" | BC_Error => "error" | BC_AwaitingProviderApproval => "awaiting_provider_approval" end;
  js_values := [BC_NotConfigured; BC_Pending; BC_Active; BC_ReauthRequired; BC_Disconnected; BC_Error; BC_AwaitingProviderApproval] |}.
Solve All Obligations with solve_js_enum.
(* src: packages/core/src/business-contacts.ts:35-39 BusinessConnectionCapability *)
Inductive BusinessConnectionCapability := LeadIngestion | CommentModeration | BrandMonitoring.
(* src: packages/core/src/business-contacts.ts:41-49 BusinessContactSource *)
Inductive BusinessContactSource := S_Facebook | S_Instagram | S_GoogleAds | S_YouTube | S_TikTok | S_LinkedIn | S_WebForm.
#[export] Program Instance BusinessContactSource_enum : JsEnum BusinessContactSource := {|
  js_name v := match v with
    | S_Facebook => "facebook" | S_Instagram => "instagram" | S_GoogleAds => "google_ads" | S_YouTube => "youtube" | S_TikTok => "tiktok"
    | S_LinkedIn => "linkedin" | S_WebForm => "web_form" end;
  js_values := [S_Facebook; S_Instagram; S_GoogleAds; S_YouTube; S_TikTok; S_LinkedIn; S_WebForm] |}.
Solve All Obligations with solve_js_enum.
(* src: packages/core/src/business-contacts.ts:51-57 BusinessContactStatus *)
Inductive BusinessContactStatus := CS_New | CS_Contacted | CS_Handled | CS_Customer | CS_Rejected.
#[export] Program Instance BusinessContactStatus_enum : JsEnum BusinessContactStatus := {|
  js_name v := match v with
    | CS_New => "new" | CS_Contacted => "contacted" | CS_Handled => "handled" | CS_Customer => "customer" | CS_Rejected => "rejected" end;
  js_values := [CS_New; CS_Contacted; CS_Handled; CS_Customer; CS_Rejected] |}.
Solve All Obligations with solve_js_enum.
#[export] Instance BusinessContactStatus_dec : EqDecision BusinessContactStatus.
Proof. solve_decision. Defined.
(* src: packages/core/src/business-contacts.ts:63-70 BusinessIngestionResult *)
Inductive BusinessIngestionResult := IR_Accepted | IR_Duplicate | IR_Rejected | IR_InvalidSignature | IR_InvalidPayload | IR_UnmappedConnection.
(* src: packages/core/src/business-contacts.ts:849-854 BusinessContactLifecycle *)
Inductive BusinessContactLifecycle := LC_Active | LC_Spam | LC_Archived | LC_Anonymized.
#[export] Program Instance BusinessContactLifecycle_enum : JsEnum BusinessContactLifecycle := {|
  js_name v := match v with LC_Active => "active" | LC_Spam => "spam" | LC_Archived => "archived" | LC_Anonymized => "anonymized" end;
  js_values := [LC_Active; LC_Spam; LC_Archived; LC_Anonymized] |}.
Solve All Obligations with solve_js_enum.
#[export] Instance BusinessContactLifecycle_dec : EqDecision BusinessContactLifecycle.
Proof. solve_decision. Defined.
(* src: packages/core/src/business-contacts.ts:892-898 ContactAnonymizationReason *)
Inductive ContactAnonymizationReason := AR_UserRequest | AR_RetentionPolicy | AR_TestData | AR_DuplicateRecord | AR_OtherInternal.
#[export] Program Instance ContactAnonymizationReason_enum : JsEnum ContactAnonymizationReason := {|
  js_name v := match v with
    | AR_UserRequest => "user_request" | AR_RetentionPolicy => "retention_policy" | AR_TestData => "test_data"
    | AR_DuplicateRecord => "duplicate_record" | AR_OtherInternal => "other_internal" end;
  js_values := [AR_UserRequest; AR_RetentionPolicy; AR_TestData; AR_DuplicateRecord; AR_OtherInternal] |}.
Solve All Obligations with solve_js_enum.

(* src: packages/core/src/business-contacts.ts:58-61 ALL_BUSINESS_CONTACT_STATUSES *)
Definition ALL_BUSINESS_CONTACT_STATUSES : list BusinessContactStatus := [CS_New; CS_Contacted; CS_Handled; CS_Customer; CS_Rejected].
(* src: packages/core/src/business-contacts.ts:855-858 ALL_BUSINESS_CONTACT_LIFECYCLES *)
Definition ALL_BUSINESS_CONTACT_LIFECYCLES : list BusinessContactLifecycle := [LC_Active; LC_Spam; LC_Archived; LC_Anonymized].
(* src: packages/core/src/business-contacts.ts:899-903 ALL_ANONYMIZATION_REASONS *)
Definition ALL_ANONYMIZATION_REASONS : list ContactAnonymizationReason :=
  [AR_UserRequest; AR_RetentionPolicy; AR_TestData; AR_DuplicateRecord; AR_OtherInternal].

(** * Platforms *)

(* src: packages/core/src/business-contacts.ts:78-86 SOURCE_PROVIDER *)
Definition SOURCE_PROVIDER (s : BusinessContactSource) : option BusinessProvider :=
  match s with
  | S_Facebook | S_Instagram => Some BP_Meta
  | S_GoogleAds | S_YouTube => Some BP_Google
  | S_TikTok => Some BP_TikTok
  | S_LinkedIn => Some BP_LinkedIn
  | S_WebForm => None
  end.
(* src: packages/core/src/business-contacts.ts:89-91 sourcesForProvider *)
Definition sourcesForProvider (p : BusinessProvider) : list BusinessContactSource :=
  List.filter (fun s => match SOURCE_PROVIDER s with Some q => q =e p | None => false end) js_values.
(* src: packages/core/src/business-contacts.ts:94-102 BusinessProviderInfo *)
Record BusinessProviderInfo := {
  pi_provider : BusinessProvider; declaredCapabilities : list BusinessConnectionCapability; defaultStatus : BusinessConnectionStatus; connectImplemented : bool }.
(* src: packages/core/src/business-contacts.ts:109-134 BUSINESS_PROVIDER_CATALOGUE *)
Definition BUSINESS_PROVIDER_CATALOGUE (p : BusinessProvider) : BusinessProviderInfo :=
  {| pi_provider := p; defaultStatus := BC_AwaitingProviderApproval; connectImplemented := false;
     declaredCapabilities := match p with
       | BP_Meta => [LeadIngestion; CommentModeration; BrandMonitoring]
       | BP_Google => [LeadIngestion; CommentModeration]
       | BP_TikTok | BP_LinkedIn => [LeadIngestion] end |}.
(* src: packages/core/src/business-contacts.ts:137-139 isBusinessConnectionActive *)
Definition isBusinessConnectionActive (s : BusinessConnectionStatus) : bool := s =e BC_Active.

(** * Status and lifecycle *)

(* src: packages/core/src/business-contacts.ts:147-153 CONTACT_TRANSITIONS *)
Definition CONTACT_TRANSITIONS (s : BusinessContactStatus) : list BusinessContactStatus :=
  match s with
  | CS_New => [CS_Contacted; CS_Handled; CS_Customer; CS_Rejected]
  | CS_Contacted => [CS_New; CS_Handled; CS_Customer; CS_Rejected]
  | CS_Handled => [CS_Contacted; CS_Customer; CS_Rejected; CS_New]
  | CS_Customer => [CS_Handled; CS_Rejected; CS_Contacted]
  | CS_Rejected => [CS_New; CS_Contacted]
  end.
(* src: packages/core/src/business-contacts.ts:155-157 isValidContactStatus *)
Definition isValidContactStatus (v : string) : bool := includes (map js_name ALL_BUSINESS_CONTACT_STATUSES) v.
(* src: packages/core/src/business-contacts.ts:160-163 canTransitionContactStatus *)
Definition canTransitionContactStatus (from to : BusinessContactStatus) : bool := (from =e to) || existsb (fun s => s =e to) (CONTACT_TRANSITIONS from).
(* src: packages/core/src/business-contacts.ts:859-861 isValidContactLifecycle *)
Definition isValidContactLifecycle (v : string) : bool := includes (map js_name ALL_BUSINESS_CONTACT_LIFECYCLES) v.
(* src: packages/core/src/business-contacts.ts:864-866 DEFAULT_HIDDEN_LIFECYCLES *)
Definition DEFAULT_HIDDEN_LIFECYCLES : list BusinessContactLifecycle := [LC_Spam; LC_Archived; LC_Anonymized].
(* src: packages/core/src/business-contacts.ts:873-878 LIFECYCLE_TRANSITIONS *)
Definition LIFECYCLE_TRANSITIONS (l : BusinessContactLifecycle) : list BusinessContactLifecycle :=
  match l with
  | LC_Active => [LC_Spam; LC_Archived; LC_Anonymized]
  | LC_Spam | LC_Archived => [LC_Active; LC_Anonymized]
  | LC_Anonymized => []
  end.
(* src: packages/core/src/business-contacts.ts:879-882 canTransitionContactLifecycle *)
Definition canTransitionContactLifecycle (from to : BusinessContactLifecycle) : bool := (from =e to) || existsb (fun l => l =e to) (LIFECYCLE_TRANSITIONS from).
(* src: packages/core/src/business-contacts.ts:904-906 isValidAnonymizationReason *)
Definition isValidAnonymizationReason (v : string) : bool := includes (map js_name ALL_ANONYMIZATION_REASONS) v.
(* src: packages/core/src/business-contacts.ts:912-912 CONTACT_ANONYMIZATION_CONFIRMATION *)
Definition CONTACT_ANONYMIZATION_CONFIRMATION : string := "ANONYMIZE".
(** [String.prototype.toUpperCase] on Latin-1, where sharp s becomes SS; micro sign and y
    with diaeresis leave Latin-1 and so match no literal: a NUL stands for them. *)
Definition upper_ascii (c : ascii) : string :=
  if is_lower c || (between 224 254 (code c) && negb (code c =? 247)) then String (ascii_of_nat (nat_of_ascii c - 32)) ""
  else if code c =? 223 then "SS" else if (code c =? 181) || (code c =? 255) then String "000" "" else String c "".
Fixpoint toUpperCase (s : string) : string := match s with EmptyString => EmptyString | String c r => upper_ascii c +:+ toUpperCase r end.
(* src: packages/core/src/business-contacts.ts:913-915 isAnonymizationConfirmed *)
Definition isAnonymizationConfirmed (raw : option string) : bool :=
  match raw with Some s => toUpperCase (trim s) =s CONTACT_ANONYMIZATION_CONFIRMATION | None => false end.
(* src: packages/core/src/business-contacts.ts:918-928 ContactActionAvailability *)
Record ContactActionAvailability := {
  canAddNote : bool; canAssign : bool; canChangeStatus : bool; canArchive : bool; canUnarchive : bool; canMarkSpam : bool; canRestoreSpam : bool;
  canAnonymize : bool; canExportIdentifying : bool }.
(* src: packages/core/src/business-contacts.ts:935-948 contactActionAvailability *)
Definition contactActionAvailability (l : BusinessContactLifecycle) : ContactActionAvailability :=
  let anonymized := l =e LC_Anonymized in
  {| canAddNote := negb anonymized; canAssign := negb anonymized; canChangeStatus := negb anonymized; canArchive := l =e LC_Active;
     canUnarchive := l =e LC_Archived; canMarkSpam := l =e LC_Active; canRestoreSpam := l =e LC_Spam; canAnonymize := negb anonymized;
     canExportIdentifying := negb anonymized |}.

(** * Dedupe identity *)

(** [a || b] on optional strings. *)
Definition or_str (a : option string) (b : string) : string := if truthy a then a ?? "" else b.
(* src: packages/core/src/business-contacts.ts:171-184 businessContactDedupeSeed *)
Definition businessContactDedupeSeed (provider : BusinessProvider) (source : BusinessContactSource) (externalLeadId formId contentFingerprint : option string) : string :=
  js_name provider +:+ "|" +:+ js_name source +:+ "|" +:+
  or_str (opt_trim externalLeadId) ("noid:" +:+ (opt_trim formId ?? "") +:+ ":" +:+ (opt_trim contentFingerprint ?? "")).

(** * Lead ads: what is missing *)

(* src: packages/core/src/business-contacts.ts:194-205 MetaLeadCapabilityState *)
Inductive MetaLeadCapabilityState :=
| ML_available | ML_config_missing | ML_entitlement_locked | ML_no_linked_account | ML_connection_inactive | ML_credential_unavailable
| ML_permission_missing | ML_webhook_subscription_missing | ML_awaiting_provider_approval.
#[export] Program Instance MetaLeadCapabilityState_enum : JsEnum MetaLeadCapabilityState := {|
  js_name v := match v with
    | ML_available => "available" | ML_config_missing => "config_missing" | ML_entitlement_locked => "entitlement_locked"
    | ML_no_linked_account => "no_linked_account" | ML_connection_inactive => "connection_inactive"
    | ML_credential_unavailable => "credential_unavailable" | ML_permission_missing => "permission_missing"
    | ML_webhook_subscription_missing => "webhook_subscription_missing" | ML_awaiting_provider_approval => "awaiting_provider_approval" end;
  js_values := [ML_available; ML_config_missing; ML_entitlement_locked; ML_no_linked_account; ML_connection_inactive; ML_credential_unavailable;
    ML_permission_missing; ML_webhook_subscription_missing; ML_awaiting_provider_approval] |}.
Solve All Obligations with solve_js_enum.
(* src: packages/core/src/business-contacts.ts:207-228 MetaLeadCapabilitySignals *)
Record MetaLeadCapabilitySignals := {
  metaConfigured : bool; entitled : bool; hasLinkedActiveAccount : bool; connectionActive : bool; credentialDecryptable : bool;
  leadsPermissionGranted : bool; pageSubscriptionVerified : bool; providerApproved : bool }.
(* src: packages/core/src/business-contacts.ts:234-246 evaluateMetaLeadCapability *)
Definition evaluateMetaLeadCapability (s : MetaLeadCapabilitySignals) : MetaLeadCapabilityState :=
  if negb (metaConfigured s) then ML_config_missing
  else if negb (entitled s) then ML_entitlement_locked
  else if negb (hasLinkedActiveAccount s) then ML_no_linked_account
  else if negb (connectionActive s) then ML_connection_inactive
  else if negb (credentialDecryptable s) then ML_credential_unavailable
  else if negb (leadsPermissionGranted s) then ML_permission_missing
  else if negb (pageSubscriptionVerified s) then ML_webhook_subscription_missing
  else if negb (providerApproved s) then ML_awaiting_provider_approval
  else ML_available.
(* src: packages/core/src/business-contacts.ts:249-251 isMetaLeadCapabilityAvailable *)
Definition isMetaLeadCapabilityAvailable (s : MetaLeadCapabilityState) : bool := s =e ML_available.

(* src: packages/core/src/business-contacts.ts:414-424 META_LEAD_STATE_PRECEDENCE *)
Definition META_LEAD_STATE_PRECEDENCE : list MetaLeadCapabilityState :=
  [ML_config_missing; ML_entitlement_locked; ML_no_linked_account; ML_connection_inactive; ML_credential_unavailable; ML_permission_missing;
   ML_webhook_subscription_missing; ML_awaiting_provider_approval; ML_available].
(* src: packages/core/src/business-contacts.ts:427-431 MetaLeadTenantSignals *)
Record MetaLeadTenantSignals := { mt_metaConfigured : bool; mt_entitled : bool; mt_providerApproved : bool }.
(* src: packages/core/src/business-contacts.ts:437-448 MetaLeadPageSignals *)
Record MetaLeadPageSignals := {
  mp_connectedAccountId : string; mp_displayName : option string; mp_connectionActive : bool; mp_credentialDecryptable : bool;
  mp_leadsPermissionGranted : bool; mp_pageSubscriptionVerified : bool; mp_subscriptionCheckedAt : option Z }.
(* src: packages/core/src/business-contacts.ts:451-461 MetaLeadPageReadiness *)
Record MetaLeadPageReadiness := {
  mr_connectedAccountId : string; mr_displayName : option string; mr_leadsPermissionGranted : bool; mr_credentialAvailable : bool;
  mr_subscriptionVerified : bool; mr_subscriptionCheckedAt : option Z; mr_state : MetaLeadCapabilityState; mr_ready : bool }.
Definition page_signals (t : MetaLeadTenantSignals) (p : MetaLeadPageSignals) : MetaLeadCapabilitySignals := {|
  metaConfigured := mt_metaConfigured t; entitled := mt_entitled t; hasLinkedActiveAccount := true; connectionActive := mp_connectionActive p;
  credentialDecryptable := mp_credentialDecryptable p; leadsPermissionGranted := mp_leadsPermissionGranted p;
  pageSubscriptionVerified := mp_pageSubscriptionVerified p; providerApproved := mt_providerApproved t |}.
(* src: packages/core/src/business-contacts.ts:467-492 evaluateMetaLeadPageReadiness *)
Definition evaluateMetaLeadPageReadiness (t : MetaLeadTenantSignals) (p : MetaLeadPageSignals) : MetaLeadPageReadiness :=
  let state := evaluateMetaLeadCapability (page_signals t p) in
  {| mr_connectedAccountId := mp_connectedAccountId p; mr_displayName := mp_displayName p; mr_leadsPermissionGranted := mp_leadsPermissionGranted p;
     mr_credentialAvailable := mp_credentialDecryptable p; mr_subscriptionVerified := mp_pageSubscriptionVerified p;
     mr_subscriptionCheckedAt := mp_subscriptionCheckedAt p; mr_state := state; mr_ready := isMetaLeadCapabilityAvailable state |}.
(* src: packages/core/src/business-contacts.ts:495-508 MetaLeadReadinessSummary *)
Record MetaLeadReadinessSummary := { ms_pages : list MetaLeadPageReadiness; ms_readyCount : Z; ms_totalCount : Z; ms_overall : MetaLeadCapabilityState }.
(** [META_LEAD_STATE_PRECEDENCE.indexOf(s)] *)
Fixpoint index_of (s : MetaLeadCapabilityState) (l : list MetaLeadCapabilityState) : Z :=
  match l with [] => 0 | x :: r => if x =e s then 0 else 1 + index_of s r end.
Definition rank (s : MetaLeadCapabilityState) : Z := index_of s META_LEAD_STATE_PRECEDENCE.
Definition worse (worst : MetaLeadCapabilityState) (p : MetaLeadPageReadiness) : MetaLeadCapabilityState :=
  if rank (mr_state p) <? rank worst then mr_state p else worst.
(* src: packages/core/src/business-contacts.ts:514-547 summarizeMetaLeadReadiness *)
Definition summarizeMetaLeadReadiness (t : MetaLeadTenantSignals) (pages : list MetaLeadPageSignals) : MetaLeadReadinessSummary :=
  let evaluated := map (evaluateMetaLeadPageReadiness t) pages in
  match evaluated with
  | [] => {| ms_pages := []; ms_readyCount := 0; ms_totalCount := 0; ms_overall := evaluateMetaLeadCapability {|
      metaConfigured := mt_metaConfigured t; entitled := mt_entitled t; hasLinkedActiveAccount := false; connectionActive := false;
      credentialDecryptable := false; leadsPermissionGranted := false; pageSubscriptionVerified := false; providerApproved := mt_providerApproved t |} |}
  | _ => {| ms_pages := evaluated; ms_readyCount := Z.of_nat (length (List.filter mr_ready evaluated)); ms_totalCount := Z.of_nat (length evaluated);
            ms_overall := fold_left worse evaluated ML_available |}
  end.

(** * Choosing assets *)

(* src: packages/core/src/business-contacts.ts:258-261 MetaSelectableAsset *)
Record MetaSelectableAsset := { pageId : string; igBusinessId : option string }.
(** The sets are lists in insertion order. *)
(* src: packages/core/src/business-contacts.ts:264-271 MetaAssetSelection *)
Record MetaAssetSelection := { ma_pages : list string; ma_instagram : list string; ma_rejected : Z }.
(** [value.indexOf(sep)] with what precedes and what follows the separator. *)
Fixpoint cut (sep : ascii) (s : string) : option (string * string) :=
  match s with
  | EmptyString => None
  | String c r => if Ascii.eqb c sep then Some ("", r) else option_map (fun '(a, b) => (String c a, b)) (cut sep r)
  end.
(** Kind and id of a submitted value: both empty unless the separator follows something. *)
Definition kind_id (value : string) : string * string :=
  match cut ":" value with Some (k, i) => if nonempty k then (k, i) else ("", "") | None => ("", "") end.
Definition select_one (knownPages knownIg : list string) (acc : MetaAssetSelection) (value : string) : MetaAssetSelection :=
  let '(kind, id) := kind_id value in
  if (kind =s "facebook") && includes knownPages id
  then {| ma_pages := set_add (ma_pages acc) id; ma_instagram := ma_instagram acc; ma_rejected := ma_rejected acc |}
  else if (kind =s "instagram") && includes knownIg id
  then {| ma_pages := ma_pages acc; ma_instagram := set_add (ma_instagram acc) id; ma_rejected := ma_rejected acc |}
  else {| ma_pages := ma_pages acc; ma_instagram := ma_instagram acc; ma_rejected := ma_rejected acc + 1 |}.
(* src: packages/core/src/business-contacts.ts:279-298 resolveMetaAssetSelection *)
Definition resolveMetaAssetSelection (serverAssets : list MetaSelectableAsset) (rawSelected : list string) : MetaAssetSelection :=
  let knownPages := List.filter nonempty (map pageId serverAssets) in
  let knownIg := List.filter nonempty (omap igBusinessId serverAssets) in
  fold_left (select_one knownPages knownIg) rawSelected {| ma_pages := []; ma_instagram := []; ma_rejected := 0 |}.

(** * Onboarding summaries *)

(* src: packages/core/src/business-contacts.ts:305-317 MetaPageOnboardingOutcome *)
Inductive MetaPageOnboardingOutcome :=
| MO_lead_ads_ready | MO_leads_permission_missing | MO_webhook_not_verified | MO_provider_approval_required | MO_comments_only | MO_verification_unavailable.
#[export] Instance MetaPageOnboardingOutcome_dec : EqDecision MetaPageOnboardingOutcome.
Proof. solve_decision. Defined.
(* src: packages/core/src/business-contacts.ts:320-327 ALL_META_PAGE_ONBOARDING_OUTCOMES *)
Definition ALL_META_PAGE_ONBOARDING_OUTCOMES : list MetaPageOnboardingOutcome :=
  [MO_lead_ads_ready; MO_leads_permission_missing; MO_webhook_not_verified; MO_provider_approval_required; MO_comments_only; MO_verification_unavailable].
Inductive SubscriptionStatus := sub_verified | sub_not_subscribed | sub_unavailable.
(* src: packages/core/src/business-contacts.ts:329-341 MetaPageOnboardingSignals *)
Record MetaPageOnboardingSignals := {
  leadsScopeRequested : bool; os_leadsPermissionGranted : bool; subscriptionStatus : option SubscriptionStatus; os_providerApproved : bool }.
(* src: packages/core/src/business-contacts.ts:349-356 classifyMetaPageOnboarding *)
Definition classifyMetaPageOnboarding (s : MetaPageOnboardingSignals) : MetaPageOnboardingOutcome :=
  if negb (leadsScopeRequested s) then MO_comments_only
  else if negb (os_leadsPermissionGranted s) then MO_leads_permission_missing
  else match subscriptionStatus s with
  | Some sub_unavailable => MO_verification_unavailable
  | Some sub_verified => if negb (os_providerApproved s) then MO_provider_approval_required else MO_lead_ads_ready
  | _ => MO_webhook_not_verified
  end.
(* src: packages/core/src/business-contacts.ts:359-362 MetaOnboardingSummary *)
Record MetaOnboardingSummary := { mo_total : Z; mo_counts : MetaPageOnboardingOutcome -> Z }.
(* src: packages/core/src/business-contacts.ts:364-368 summarizeMetaPageOnboarding *)
Definition summarizeMetaPageOnboarding (outcomes : list MetaPageOnboardingOutcome) : MetaOnboardingSummary :=
  {| mo_total := Z.of_nat (length outcomes); mo_counts o := Z.of_nat (length (List.filter (fun x => bool_decide (x = o)) outcomes)) |}.
(* src: packages/core/src/business-contacts.ts:371-371 ONBOARDING_COUNT_MAX *)
Definition ONBOARDING_COUNT_MAX : Z := 999.
(** [l.join(sep)] and [s.split(sep)] for a separator of one character. *)
Fixpoint str_join (sep : ascii) (l : list string) : string :=
  match l with [] => "" | [x] => x | x :: r => x +:+ String sep (str_join sep r) end.
Fixpoint str_split (sep : ascii) (s : string) : list string :=
  match s with
  | EmptyString => [""]
  | String c r => if Ascii.eqb c sep then "" :: str_split sep r else match str_split sep r with h :: t => String c h :: t | [] => [String c ""] end
  end.
(* src: packages/core/src/business-contacts.ts:377-381 encodeMetaOnboardingSummary *)
Definition encodeMetaOnboardingSummary (s : MetaOnboardingSummary) : string :=
  str_join "." (map (fun o => Outbox.string_of_int (Z.max 0 (Z.min ONBOARDING_COUNT_MAX (mo_counts s o)))) ALL_META_PAGE_ONBOARDING_OUTCOMES).
(** [/^\d{1,3}$/] *)
Definition small_number (s : string) : bool := between 1 3 (str_len s) && str_forallb is_digit s.
Definition sum_of (l : list Z) : Z := fold_left Z.add l 0.
(** The counts by position. *)
Definition counts_of (l : list Z) (o : MetaPageOnboardingOutcome) : Z :=
  nth (match o with MO_lead_ads_ready => 0 | MO_leads_permission_missing => 1 | MO_webhook_not_verified => 2 | MO_provider_approval_required => 3
       | MO_comments_only => 4 | MO_verification_unavailable => 5 end)%nat l 0.
(* src: packages/core/src/business-contacts.ts:387-401 decodeMetaOnboardingSummary *)
Definition decodeMetaOnboardingSummary (raw : option string) : option MetaOnboardingSummary :=
  match raw with
  | None => None
  | Some s =>
      if (str_len s =? 0) || (32 <? str_len s) then None
      else
        let parts := str_split "." s in
        if negb (Nat.eqb (length parts) (length ALL_META_PAGE_ONBOARDING_OUTCOMES)) then None
        else if negb (forallb (fun p => small_number p && (Outbox.number_of_digits p <=? ONBOARDING_COUNT_MAX)) parts) then None
        else
          let counts := map Outbox.number_of_digits parts in
          let total := sum_of counts in
          if total =? 0 then None else Some {| mo_total := total; mo_counts := counts_of counts |}
  end.

(** * Search *)

(* src: packages/core/src/business-contacts.ts:551-551 CONTACT_SEARCH_MIN_LENGTH *)
Definition CONTACT_SEARCH_MIN_LENGTH : Z := 2.
(* src: packages/core/src/business-contacts.ts:553-553 CONTACT_SEARCH_MAX_LENGTH *)
Definition CONTACT_SEARCH_MAX_LENGTH : Z := 100.
Definition is_control (c : ascii) : bool := between 0 31 (code c) || (code c =? 127).
(** [s.replace(/\s+/g, SPACE)]; the flag tells whether the character before was white space. *)
Fixpoint collapse_ws (after_ws : bool) (s : string) : string :=
  match s with
  | EmptyString => EmptyString
  | String c r => if is_ws c then (if after_ws then collapse_ws true r else String " " (collapse_ws true r)) else String c (collapse_ws false r)
  end.
Definition str_take (n : Z) (s : string) : string := String.substring 0 (Z.to_nat n) s.
(* src: packages/core/src/business-contacts.ts:563-568 normalizeContactSearch *)
Definition normalizeContactSearch (raw : option string) : option string :=
  match raw with
  | None => None
  | Some s =>
      let cleaned := trim (collapse_ws false (str_map (fun c => if is_control c then " "%char else c) s)) in
      if str_len cleaned <? CONTACT_SEARCH_MIN_LENGTH then None else Some (str_take CONTACT_SEARCH_MAX_LENGTH cleaned)
  end.
Fixpoint str_filter (p : ascii -> bool) (s : string) : string :=
  match s with EmptyString => EmptyString | String c r => if p c then String c (str_filter p r) else str_filter p r end.
Definition char_in (l : string) (c : ascii) : bool := negb (char_free c l).
(** [/^[+\d][\d\s().+-]*$/] *)
Definition phone_shaped (s : string) : bool :=
  match s with
  | EmptyString => false
  | String c r => (is_digit c || Ascii.eqb c "+") && str_forallb (fun c => is_digit c || is_ws c || char_in "().+-" c) r
  end.
(* src: packages/core/src/business-contacts.ts:575-579 contactSearchPhoneDigits *)
Definition contactSearchPhoneDigits (term : string) : option string :=
  if negb (phone_shaped term) then None
  else let digits := str_filter is_digit term in if 3 <=? str_len digits then Some digits else None.

(** * Notes *)

(* src: packages/core/src/business-contacts.ts:582-582 CONTACT_NOTE_MAX_LENGTH *)
Definition CONTACT_NOTE_MAX_LENGTH : Z := 2000.
(* src: packages/core/src/business-contacts.ts:584-586 ContactNoteValidation *)
Inductive ContactNoteValidation := NoteOk (body : string) | NoteEmpty | NoteTooLong.
(** [s.replace(/\r\n/g, LF)] *)
Fixpoint crlf (s : string) : string :=
  match s with
  | String c r => match r with
                  | String d r' => if (code c =? 13) && (code d =? 10) then String d (crlf r') else String c (crlf r)
                  | EmptyString => s end
  | EmptyString => EmptyString
  end.
(** [\u0000-\u0008 \u000b \u000c \u000e-\u001f \u007f] *)
Definition note_stripped (c : ascii) : bool := between 0 8 (code c) || (code c =? 11) || (code c =? 12) || between 14 31 (code c) || (code c =? 127).
(* src: packages/core/src/business-contacts.ts:594-603 validateContactNoteBody *)
Definition validateContactNoteBody (raw : option string) : ContactNoteValidation :=
  match raw with
  | None => NoteEmpty
  | Some s =>
      let cleaned := trim (str_filter (fun c => negb (note_stripped c)) (crlf s)) in
      if str_len cleaned =? 0 then NoteEmpty
      else if CONTACT_NOTE_MAX_LENGTH <? str_len cleaned then NoteTooLong
      else NoteOk cleaned
  end.

(** * Timeline *)

(* src: packages/core/src/business-contacts.ts:606-609 ContactTimelineKind *)
Inductive ContactTimelineKind :=
| TK_received | TK_status_changed | TK_assignment_changed | TK_note | TK_archived | TK_unarchived | TK_marked_spam | TK_spam_restored | TK_anonymized.
(** A kind is absent where an audit event names an inherited property of the event map. *)
(* src: packages/core/src/business-contacts.ts:611-624 ContactTimelineEntry *)
Record ContactTimelineEntry := {
  te_kind : option ContactTimelineKind; te_at : Z; te_actor : option string; te_status : option BusinessContactStatus; te_assigned : option bool;
  te_body : option string; te_redacted : bool }.
(* src: packages/core/src/business-contacts.ts:627-627 CONTACT_STATUS_AUDIT_EVENT *)
Definition CONTACT_STATUS_AUDIT_EVENT : string := "business_contact.status_changed".
(* src: packages/core/src/business-contacts.ts:628-628 CONTACT_ASSIGNMENT_AUDIT_EVENT *)
Definition CONTACT_ASSIGNMENT_AUDIT_EVENT : string := "business_contact.assignment_changed".
(* src: packages/core/src/business-contacts.ts:629-629 CONTACT_NOTE_AUDIT_EVENT *)
Definition CONTACT_NOTE_AUDIT_EVENT : string := "business_contact.note_added".
(* src: packages/core/src/business-contacts.ts:631-637 CONTACT_LIFECYCLE_AUDIT_EVENTS *)
Definition CONTACT_LIFECYCLE_AUDIT_EVENTS : list (string * ContactTimelineKind) :=
  [("business_contact.archived", TK_archived); ("business_contact.unarchived", TK_unarchived); ("business_contact.marked_spam", TK_marked_spam);
   ("business_contact.spam_restored", TK_spam_restored); ("business_contact.anonymized", TK_anonymized)].
(** The metadata as the timeline reads it: [to] if it is a string, and whether [assigned] is true. *)
(* src: packages/core/src/business-contacts.ts:639-645 ContactAuditRecord *)
Record ContactAuditRecord := { ar_event : string; ar_createdAt : Z; ar_actorUserId : option string; ar_to : option string; ar_assigned : bool }.
(* src: packages/core/src/business-contacts.ts:646-652 ContactNoteRecord *)
Record ContactNoteRecord := { nr_createdAt : Z; nr_authorUserId : option string; nr_body : option string; nr_redactedAt : option Z }.
Definition kind_rank (k : ContactTimelineKind) : Z :=
  match k with
  | TK_received => 0 | TK_status_changed => 1 | TK_assignment_changed => 2 | TK_note => 3 | TK_archived => 4 | TK_unarchived => 5 | TK_marked_spam => 6
  | TK_spam_restored => 7 | TK_anonymized => 8 end.
Section Timeline.
(** The display value of a user, where the map has one. *)
Context (actorDisplay : string -> option string).
Definition display (id : option string) : option string := match id with Some i => if nonempty i then actorDisplay i else None | None => None end.
Definition entry (k : option ContactTimelineKind) (at_ : Z) (actor : option string) : ContactTimelineEntry :=
  {| te_kind := k; te_at := at_; te_actor := actor; te_status := None; te_assigned := None; te_body := None; te_redacted := false |}.
Definition audit_entry (a : ContactAuditRecord) : list ContactTimelineEntry :=
  let actor := display (ar_actorUserId a) in
  if ar_event a =s CONTACT_STATUS_AUDIT_EVENT
  then [{| te_kind := Some TK_status_changed; te_at := ar_createdAt a; te_actor := actor; te_status := parse_opt (ar_to a); te_assigned := None;
           te_body := None; te_redacted := false |}]
  else if ar_event a =s CONTACT_ASSIGNMENT_AUDIT_EVENT
  then [{| te_kind := Some TK_assignment_changed; te_at := ar_createdAt a; te_actor := actor; te_status := None; te_assigned := Some (ar_assigned a);
           te_body := None; te_redacted := false |}]
  else match map_get CONTACT_LIFECYCLE_AUDIT_EVENTS (ar_event a) with
  | Some k => [entry (Some k) (ar_createdAt a) actor]
  | None => if includes object_prototype_keys (ar_event a) then [entry None (ar_createdAt a) actor] else []
  end.
Definition note_entry (n : ContactNoteRecord) : ContactTimelineEntry :=
  {| te_kind := Some TK_note; te_at := nr_createdAt n; te_actor := display (nr_authorUserId n); te_status := None; te_assigned := None;
     te_body := nr_body n; te_redacted := is_none (nr_body n) |}.
(** [a.at - b.at || rank[a.kind] - rank[b.kind]]; a missing rank gives NaN, which compares as equal. *)
Definition timeline_cmp (a b : ContactTimelineEntry) : Z :=
  if te_at a =? te_at b
  then match te_kind a, te_kind b with Some k, Some k' => kind_rank k - kind_rank k' | _, _ => 0 end
  else te_at a - te_at b.
(* src: packages/core/src/business-contacts.ts:663-704 buildContactTimeline *)
Definition buildContactTimeline (receivedAt : Z) (audit : list ContactAuditRecord) (notes : list ContactNoteRecord) (limit : option Z) : list ContactTimelineEntry :=
  let entries := js_sort timeline_cmp (entry (Some TK_received) receivedAt None :: flat_map audit_entry audit ++ map note_entry notes) in
  match limit with
  | Some n => if (0 <? n) && (n <? Z.of_nat (length entries)) then drop (length entries - Z.to_nat n) entries else entries
  | None => entries
  end.
End Timeline.

(** * Bulk selections *)

(* src: packages/core/src/business-contacts.ts:708-708 MAX_BULK_CONTACT_IDS *)
Definition MAX_BULK_CONTACT_IDS : Z := 100.
(* src: packages/core/src/business-contacts.ts:712-714 BulkSelectionResult *)
Inductive BulkSelectionResult := BulkOk (ids : list string) (duplicatesDropped : Z) | BulkEmpty | BulkTooMany | BulkInvalid.
(** [/^[a-z0-9]{16,40}$/] *)
Definition cuid_shaped (s : string) : bool := between 16 40 (str_len s) && str_forallb (fun c => is_lower c || is_digit c) s.
(** [None]: the request is rejected as invalid. A value that is not a string counts as empty. *)
Fixpoint bulk_ids (raw : list (option string)) (ids : list string) (dropped : Z) : option (list string * Z) :=
  match raw with
  | [] => Some (ids, dropped)
  | v :: r =>
      let id := match v with Some s => trim s | None => "" end in
      if negb (nonempty id) then None
      else if negb (cuid_shaped id) then None
      else if includes ids id then bulk_ids r ids (dropped + 1) else bulk_ids r (ids ++ [id]) dropped
  end.
(* src: packages/core/src/business-contacts.ts:727-744 normalizeBulkContactIds *)
Definition normalizeBulkContactIds (raw : option (list (option string))) : BulkSelectionResult :=
  match raw with
  | None | Some [] => BulkEmpty
  | Some l => match bulk_ids l [] 0 with
              | None => BulkInvalid
              | Some (ids, dropped) =>
                  if Nat.eqb (length ids) 0 then BulkEmpty else if MAX_BULK_CONTACT_IDS <? Z.of_nat (length ids) then BulkTooMany else BulkOk ids dropped
              end
  end.
(* src: packages/core/src/business-contacts.ts:747-747 BulkContactFailureReason *)
Inductive BulkContactFailureReason := BF_not_found | BF_invalid_transition.
(* src: packages/core/src/business-contacts.ts:749-754 BulkContactOutcome *)
Record BulkContactOutcome := { bo_changed : list string; bo_failed : list (string * BulkContactFailureReason) }.
(* src: packages/core/src/business-contacts.ts:761-763 summarizeBulkContacts *)
Definition summarizeBulkContacts (o : BulkContactOutcome) : Z * Z := (Z.of_nat (length (bo_changed o)), Z.of_nat (length (bo_failed o))).

(** * Export *)

(* src: packages/core/src/business-contacts.ts:766-766 CONTACT_EXPORT_MAX_ROWS *)
Definition CONTACT_EXPORT_MAX_ROWS : Z := 10000.
(* src: packages/core/src/business-contacts.ts:775-787 CONTACT_EXPORT_COLUMNS *)
Definition CONTACT_EXPORT_COLUMNS : list string :=
  ["full_name"; "email"; "phone"; "company"; "source"; "campaign_name"; "form_name"; "received_at"; "status"; "assigned_to"; "latest_activity_at"].
(* src: packages/core/src/business-contacts.ts:791-809 ContactExportSource *)
Record ContactExportSource := {
  ex_fullName : option string; ex_email : option string; ex_phone : option string; ex_company : option string; ex_sourcePlatform : BusinessContactSource;
  ex_campaignName : option string; ex_formName : option string; ex_receivedAt : Z; ex_status : BusinessContactStatus; ex_assignedTo : option string;
  ex_latestActivityAt : Z; ex_lifecycleState : BusinessContactLifecycle }.
(* src: packages/core/src/business-contacts.ts:819-834 contactExportRow *)
Definition contactExportRow (c : ContactExportSource) : list string :=
  let text v := v ?? "" in
  [text (ex_fullName c); text (ex_email c); text (ex_phone c); text (ex_company c); js_name (ex_sourcePlatform c); text (ex_campaignName c);
   text (ex_formName c); Notifications.toISOString (ex_receivedAt c); js_name (ex_status c); text (ex_assignedTo c);
   Notifications.toISOString (ex_latestActivityAt c)].
(* src: packages/core/src/business-contacts.ts:837-839 contactExportFilename *)
Definition contactExportFilename (now : Z) : string := "tamanor-contacts-" +:+ str_take 10 (Notifications.toISOString now) +:+ ".csv".
(* src: packages/core/src/business-contacts.ts:1032-1042 contactTombstoneExportRow *)
Definition contactTombstoneExportRow (receivedAt latestActivityAt : Z) : list string :=
  [""; ""; ""; ""; ""; ""; ""; Notifications.toISOString receivedAt; js_name LC_Anonymized; ""; Notifications.toISOString latestActivityAt].
(** The row of the export route. *)
(* src: apps/web/src/app/api/dashboard/contacts/export/route.ts:72-74 POST *)
Definition export_row (c : ContactExportSource) : list string :=
  if ex_lifecycleState c =e LC_Anonymized then contactTombstoneExportRow (ex_receivedAt c) (ex_latestActivityAt c) else contactExportRow c.

(** * Privacy review *)

(* src: packages/core/src/business-contacts.ts:956-956 CONTACT_REVIEW_MIN_DAYS *)
Definition CONTACT_REVIEW_MIN_DAYS : Z := 30.
(* src: packages/core/src/business-contacts.ts:957-957 CONTACT_REVIEW_MAX_DAYS *)
Definition CONTACT_REVIEW_MAX_DAYS : Z := 3650.
(* src: packages/core/src/business-contacts.ts:959-959 CONTACT_REVIEW_DEFAULT_DAYS *)
Definition CONTACT_REVIEW_DEFAULT_DAYS : Z := 730.
(** A threshold as received: missing or blank, a finite number (that of a numeric string
    included), or anything else. *)
Inductive threshold := Absent | Finite (q : Q) | NotFinite.
(** [Math.trunc] *)
Definition trunc (q : Q) : Z := Z.quot (Qnum q) (Z.pos (Qden q)).
(* src: packages/core/src/business-contacts.ts:962-971 normalizeReviewThresholdDays *)
Definition normalizeReviewThresholdDays (raw : threshold) : Z :=
  match raw with
  | Absent | NotFinite => CONTACT_REVIEW_DEFAULT_DAYS
  | Finite q => Z.min CONTACT_REVIEW_MAX_DAYS (Z.max CONTACT_REVIEW_MIN_DAYS (trunc q))
  end.
Definition DAY_MS : Z := 24 * 60 * 60 * 1000.
(* src: packages/core/src/business-contacts.ts:980-992 contactNeedsPrivacyReview *)
Definition contactNeedsPrivacyReview (receivedAt : Z) (latestActivityAt : option Z) (lifecycle : BusinessContactLifecycle) (thresholdDays : threshold) (now : Z) : bool :=
  if lifecycle =e LC_Anonymized then false
  else
    let days := normalizeReviewThresholdDays thresholdDays in
    let latest := match latestActivityAt with Some l => if receivedAt <? l then l else receivedAt | None => receivedAt end in
    days * DAY_MS <? now - latest.
(* src: packages/core/src/business-contacts.ts:995-997 contactReviewCutoff *)
Definition contactReviewCutoff (thresholdDays : threshold) (now : Z) : Z := now - normalizeReviewThresholdDays thresholdDays * DAY_MS.
(* src: packages/core/src/business-contacts.ts:1004-1010 CONTACT_ANONYMIZED_FIELDS *)
Definition CONTACT_ANONYMIZED_FIELDS : list string :=
  ["fullName"; "email"; "phone"; "company"; "messageSummary"; "consentReference"; "consentVersion"; "assignedUserId"; "externalLeadId"].

(** * Properties *)

(** ** Onboarding summaries *)

Lemma split_free sep s : char_free sep s = true -> str_split sep s = [s].
Proof.
  induction s as [|c s IH]; [done|]. unfold char_free in *. cbn [str_split str_forallb]. intros [Hc Hs]%andb_true_iff.
  apply negb_true_iff in Hc. by rewrite Hc, (IH Hs).
Qed.
Lemma split_app sep s r : char_free sep s = true -> str_split sep (s +:+ String sep r) = s :: str_split sep r.
Proof.
  induction s as [|c s IH]; simpl; [by rewrite Ascii.eqb_refl|]. unfold char_free in *. cbn [str_forallb].
  intros [Hc Hs]%andb_true_iff. apply negb_true_iff in Hc. by rewrite Hc, (IH Hs).
Qed.
Lemma split_join sep l : l <> [] -> Forall (fun s => char_free sep s = true) l -> str_split sep (str_join sep l) = l.
Proof.
  induction l as [|s [|s' l] IH]; [done| |]; intros _ H; apply Forall_cons in H as [Hs Hl].
  - by apply split_free.
  - change (str_join sep (s :: s' :: l)) with (s +:+ String sep (str_join sep (s' :: l))). by rewrite split_app, IH.
Qed.
Lemma digits_dot_free s : str_forallb is_digit s = true -> char_free "." s = true.
Proof. apply Notifications.str_forallb_impl. intros c Hc. destruct (Ascii.eqb_spec c ".") as [->|]; [by vm_compute in Hc|done]. Qed.
(** Counts print as small numbers. *)
Lemma small_count n : 0 <= n <= ONBOARDING_COUNT_MAX ->
  small_number (Outbox.string_of_int n) = true /\ Outbox.number_of_digits (Outbox.string_of_int n) = n.
Proof.
  intros Hn. change ONBOARDING_COUNT_MAX with 999 in Hn. destruct (Outbox.string_of_int_digits n) as (Hd & Hnum & Hl); [lia|]. split; [|done].
  unfold small_number. rewrite Hd, andb_true_r. unfold between, str_len. rewrite Hl. apply andb_true_iff. rewrite !Z.leb_le.
  destruct (decide (n = 0)) as [->|Hnz]; [by vm_compute|]. pose proof (Outbox.nb_digits_bound (Z.to_N n) 3) as Hb.
  change (10 ^ N.of_nat 3)%N with 1000%N in Hb. specialize (Hb ltac:(lia)).
  destruct (Decimal.nb_digits (N.to_uint (Z.to_N n))) eqn:Hz; [|lia]. apply DecimalFacts.nb_digits_0 in Hz. by apply Outbox.to_uint_nonnil in Hz.
Qed.

Lemma str_len_app a b : str_len (a +:+ b) = str_len a + str_len b.
Proof.
  unfold str_len. assert (H : String.length (a +:+ b) = (String.length a + String.length b)%nat) by (induction a as [|c a IH]; [done|]; change (String c a +:+ b) with (String c (a +:+ b)); cbn [String.length Nat.add]; by rewrite IH). lia.
Qed.
Lemma str_len_join sep k l : l <> [] -> (forall p, In p l -> 1 <= str_len p <= k) -> 1 <= str_len (str_join sep l) <= (k + 1) * Z.of_nat (length l) - 1.
Proof.
  induction l as [|p [|q l] IH]; [done| |]; intros _ H; pose proof (H p (or_introl eq_refl)) as Hp; [cbn [str_join length]; lia|].
  change (str_join sep (p :: q :: l)) with (p +:+ (String sep "" +:+ str_join sep (q :: l))). rewrite !str_len_app.
  change (str_len (String sep "")) with 1. specialize (IH ltac:(done) (fun x Hx => H x (or_intror Hx))). cbn [length] in *. lia.
Qed.
Lemma counts_sum (l : list MetaPageOnboardingOutcome) :
  sum_of (map (mo_counts (summarizeMetaPageOnboarding l)) ALL_META_PAGE_ONBOARDING_OUTCOMES) = Z.of_nat (length l).
Proof.
  unfold sum_of. cbn [map ALL_META_PAGE_ONBOARDING_OUTCOMES summarizeMetaPageOnboarding mo_counts fold_left].
  induction l as [|x l IH]; [done|]. cbn [List.filter]. destruct x; repeat case_bool_decide; try done; cbn [length]; lia.
Qed.
Lemma count_le_total (l : list MetaPageOnboardingOutcome) o : 0 <= mo_counts (summarizeMetaPageOnboarding l) o <= Z.of_nat (length l).
Proof. cbn. pose proof (filter_length_le (fun x => bool_decide (x = o)) l). lia. Qed.
(** Encoded counts decode to themselves. *)
Lemma decode_encode s : (forall o, 0 <= mo_counts s o <= ONBOARDING_COUNT_MAX) -> 0 < sum_of (map (mo_counts s) ALL_META_PAGE_ONBOARDING_OUTCOMES) ->
  decodeMetaOnboardingSummary (Some (encodeMetaOnboardingSummary s)) =
    Some {| mo_total := sum_of (map (mo_counts s) ALL_META_PAGE_ONBOARDING_OUTCOMES); mo_counts := counts_of (map (mo_counts s) ALL_META_PAGE_ONBOARDING_OUTCOMES) |}.
Proof.
  intros Hc Hpos. set (parts := map (fun o => Outbox.string_of_int (mo_counts s o)) ALL_META_PAGE_ONBOARDING_OUTCOMES).
  assert (Hparts : forall p, In p parts -> small_number p = true /\ Outbox.number_of_digits p <= ONBOARDING_COUNT_MAX).
  { intros p (o & <- & _)%in_map_iff. destruct (small_count _ (Hc o)) as [H1 H2]. split; [done|]. rewrite H2. apply Hc. }
  assert (Henc : encodeMetaOnboardingSummary s = str_join "." parts).
  { unfold encodeMetaOnboardingSummary. f_equal. apply map_ext. intros o. f_equal. specialize (Hc o). lia. }
  assert (Hsplit : str_split "." (str_join "." parts) = parts).
  { apply split_join; [done|]. apply Forall_forall. intros p [Hp _]%list_elem_of_In%Hparts. apply digits_dot_free. by apply andb_true_iff in Hp as [_ Hp]. }
  assert (Hlen : 1 <= str_len (str_join "." parts) <= 32).
  { assert (Hl : forall p, In p parts -> 1 <= str_len p <= 3) by (intros p [Hp _]%Hparts; apply andb_true_iff in Hp as [Hp _]; unfold between in Hp; lia).
    apply (str_len_join "." 3) in Hl; [|done]. change (Z.of_nat (length parts)) with 6 in Hl. lia. }
  rewrite Henc. unfold decodeMetaOnboardingSummary. rewrite Hsplit. replace ((str_len _ =? 0) || _) with false by lia.
  replace (Nat.eqb (length parts) _) with true by done. cbn [negb].
  replace (forallb _ parts) with true by (symmetry; apply forallb_forall; intros p [H1 H2]%Hparts; rewrite H1; cbn; lia). cbn [negb].
  assert (Hnum : map Outbox.number_of_digits parts = map (mo_counts s) ALL_META_PAGE_ONBOARDING_OUTCOMES).
  { unfold parts. rewrite map_map. apply map_ext. intros o. by apply small_count. }
  rewrite Hnum. by replace (_ =? 0) with false by lia.
Qed.
Lemma counts_of_map (f : MetaPageOnboardingOutcome -> Z) o : counts_of (map f ALL_META_PAGE_ONBOARDING_OUTCOMES) o = f o.
Proof. by destruct o. Qed.

Lemma number_of_digits_nonneg p : 0 <= Outbox.number_of_digits p.
Proof. unfold Outbox.number_of_digits. destruct (_ p); lia. Qed.
(** The onboarding notice survives the redirect, and a hostile one says nothing: the summary of up to 999 pages, encoded in the URL, decodes to
    the same total and the same count per outcome; whatever text is decoded, the result has counts from 0 to 999 that add up to a positive total,
    from a text of at most 32 characters with exactly six numbers in it. *)
Theorem onboarding_summary_roundtrip (l : list MetaPageOnboardingOutcome) :
  (1 <= length l <= 999)%nat ->
  (exists s, decodeMetaOnboardingSummary (Some (encodeMetaOnboardingSummary (summarizeMetaPageOnboarding l))) = Some s /\
    mo_total s = mo_total (summarizeMetaPageOnboarding l) /\ forall o, mo_counts s o = mo_counts (summarizeMetaPageOnboarding l) o) /\
  forall raw s, decodeMetaOnboardingSummary (Some raw) = Some s ->
    str_len raw <= 32 /\ length (str_split "." raw) = 6%nat /\ Forall (fun p => small_number p = true) (str_split "." raw) /\
    (forall o, 0 <= mo_counts s o <= ONBOARDING_COUNT_MAX) /\ 0 < mo_total s /\ mo_total s = sum_of (map (mo_counts s) ALL_META_PAGE_ONBOARDING_OUTCOMES).
Proof.
  intros Hl. split.
  - eexists. split.
    + apply decode_encode; [|rewrite counts_sum; lia]. intros o. pose proof (count_le_total l o). change ONBOARDING_COUNT_MAX with 999. lia.
    + cbn [mo_total mo_counts]. split; [apply counts_sum|]. intros o. apply counts_of_map.
  - intros raw s. unfold decodeMetaOnboardingSummary. destruct ((str_len raw =? 0) || (32 <? str_len raw)) eqn:Hlen; [done|].
    destruct (Nat.eqb (length (str_split "." raw)) _) eqn:Hsix; [|done]. cbn [negb]. destruct (forallb _ _) eqn:Hall; [|done]. cbn [negb].
    destruct (sum_of _ =? 0) eqn:Hz; [done|]. intros [= <-]. apply Nat.eqb_eq in Hsix. rewrite forallb_forall in Hall. split; [lia|]. split; [done|].
    assert (Hp : forall p, In p (str_split "." raw) -> small_number p = true /\ 0 <= Outbox.number_of_digits p <= ONBOARDING_COUNT_MAX).
    { intros p Hp. apply Hall, andb_true_iff in Hp as [H1 H2]. split; [done|]. split; [apply number_of_digits_nonneg|]. by apply Z.leb_le. }
    split; [apply Forall_forall; intros p Hin%list_elem_of_In; by apply Hp|]. cbn [mo_counts mo_total].
    destruct (str_split "." raw) as [|p1 [|p2 [|p3 [|p4 [|p5 [|p6 [|]]]]]]]; try done.
    assert (Hc : forall p, In p [p1; p2; p3; p4; p5; p6] -> 0 <= Outbox.number_of_digits p <= ONBOARDING_COUNT_MAX) by (intros p; apply Hp).
    split; [intros []; cbn -[Outbox.number_of_digits]; apply Hc; cbn; tauto|].
    pose proof (Hc p1 ltac:(cbn; tauto)). pose proof (Hc p2 ltac:(cbn; tauto)). pose proof (Hc p3 ltac:(cbn; tauto)). pose proof (Hc p4 ltac:(cbn; tauto)).
    pose proof (Hc p5 ltac:(cbn; tauto)). pose proof (Hc p6 ltac:(cbn; tauto)). unfold sum_of in *. cbn -[Outbox.number_of_digits] in *. lia.
Qed.

Definition three_pages : list MetaPageOnboardingOutcome := [MO_lead_ads_ready; MO_comments_only; MO_comments_only].
Lemma onboarding_summary_roundtrip_witness :
  encodeMetaOnboardingSummary (summarizeMetaPageOnboarding three_pages) = "1.0.0.0.2.0" /\
  exists s, decodeMetaOnboardingSummary (Some (encodeMetaOnboardingSummary (summarizeMetaPageOnboarding three_pages))) = Some s /\ mo_total s = 3.
Proof.
  split; [vm_compute; reflexivity|]. assert (Hl : (1 <= length three_pages <= 999)%nat) by (cbn; lia).
  destruct (onboarding_summary_roundtrip three_pages Hl) as ((s & Hs & Ht & _) & _). exists s. split; [exact Hs|exact Ht].
Defined.

(** ** Lead ads *)

Lemma fold_worse (l : list MetaLeadPageReadiness) a : let r := fold_left worse l a in
  (r = a \/ exists p, In p l /\ mr_state p = r) /\ rank r <= rank a /\ forall p, In p l -> rank r <= rank (mr_state p).
Proof.
  revert a. induction l as [|p l IH]; intros a; cbn [fold_left]; [split; [by left|]; split; [lia|by intros ? []]|].
  destruct (IH (worse a p)) as (Hin & Hle & Hall). cbn zeta in *. assert (Hw : (worse a p = a \/ worse a p = mr_state p) /\ rank (worse a p) <= rank a /\ rank (worse a p) <= rank (mr_state p)).
  { unfold worse. destruct (rank (mr_state p) <? rank a) eqn:H; [|split; [by left|lia]]. split; [by right|lia]. }
  destruct Hw as (Hw & Hw1 & Hw2). repeat split.
  - destruct Hin as [-> |(q & Hq & <-)]; [destruct Hw as [-> | ->]; [by left|right; exists p; by split; [left|]]|].
    right. exists q. by split; [right|].
  - lia.
  - intros q [<-|Hq]; [lia|by apply Hall].
Qed.
Lemma rank_inj s s' : rank s = rank s' -> s = s'.
Proof. by destruct s, s'; vm_compute. Qed.
Lemma rank_available s : rank ML_available <= rank s -> s = ML_available.
Proof. destruct s; [done|..]; intros H; exfalso; by apply H. Qed.
Lemma capability_available s : evaluateMetaLeadCapability s = ML_available <->
  metaConfigured s && entitled s && hasLinkedActiveAccount s && connectionActive s && credentialDecryptable s && leadsPermissionGranted s
    && pageSubscriptionVerified s && providerApproved s = true.
Proof. by destruct s as [[] [] [] [] [] [] [] []]. Qed.
(** The preconditions in order, each with the state that reports it missing. *)
Definition preconditions (s : MetaLeadCapabilitySignals) : list (bool * MetaLeadCapabilityState) :=
  combine [metaConfigured s; entitled s; hasLinkedActiveAccount s; connectionActive s; credentialDecryptable s; leadsPermissionGranted s;
    pageSubscriptionVerified s; providerApproved s] META_LEAD_STATE_PRECEDENCE.
Definition first_missing (s : MetaLeadCapabilitySignals) : MetaLeadCapabilityState :=
  match List.find (fun p => negb p.1) (preconditions s) with Some (_, st) => st | None => ML_available end.
(** Lead readiness is truthful: the state of a page is its first missing precondition in the published precedence; a page is ready exactly when
    nothing is missing; the overall state is reached by a page and no page is in a worse one, so that lead ads count as available only when there is a
    page and every page is ready, in whatever order the pages are listed. *)
Theorem lead_readiness_truthful (t : MetaLeadTenantSignals) (pages : list MetaLeadPageSignals) :
  let s := summarizeMetaLeadReadiness t pages in
  (forall g, evaluateMetaLeadCapability g = first_missing g) /\
  ms_pages s = map (evaluateMetaLeadPageReadiness t) pages /\ ms_totalCount s = Z.of_nat (length pages) /\
  (forall r, In r (ms_pages s) -> rank (ms_overall s) <= rank (mr_state r) /\ (mr_ready r = true <-> mr_state r = ML_available)) /\
  (pages <> [] -> exists r, In r (ms_pages s) /\ mr_state r = ms_overall s) /\
  (ms_overall s = ML_available <-> pages <> [] /\ ms_readyCount s = ms_totalCount s) /\
  forall pages', Permutation pages pages' ->
    ms_overall (summarizeMetaLeadReadiness t pages') = ms_overall s /\ ms_readyCount (summarizeMetaLeadReadiness t pages') = ms_readyCount s.
Proof.
  assert (Hready : forall r, In r (map (evaluateMetaLeadPageReadiness t) pages) -> mr_ready r = true <-> mr_state r = ML_available).
  { intros r (p & <- & _)%in_map_iff. exact (enum_eqb_eq (mr_state (evaluateMetaLeadPageReadiness t p)) ML_available). }
  intros s. split; [by intros [[] [] [] [] [] [] [] []]|]. destruct pages as [|p0 pages].
  { split; [done|]. split; [done|]. split; [by intros ? []|]. split; [done|]. split.
    - cbn [s summarizeMetaLeadReadiness map ms_overall ms_readyCount ms_totalCount]. split; [|by intros []].
      intros H%capability_available. by rewrite !andb_false_r in H.
    - by intros pages' ->%Permutation_nil. }
  assert (Hsum : forall q qs, summarizeMetaLeadReadiness t (q :: qs) = let evaluated := map (evaluateMetaLeadPageReadiness t) (q :: qs) in
    {| ms_pages := evaluated; ms_readyCount := Z.of_nat (length (List.filter mr_ready evaluated)); ms_totalCount := Z.of_nat (length evaluated);
       ms_overall := fold_left worse evaluated ML_available |}) by done.
  unfold s. rewrite Hsum. cbn zeta. cbn [ms_pages ms_totalCount ms_overall ms_readyCount]. set (ev := map _ (p0 :: pages)) in *.
  destruct (fold_worse ev ML_available) as (Hin & _ & Hall). cbn zeta in *.
  assert (Hex : exists r, In r ev /\ mr_state r = fold_left worse ev ML_available).
  { destruct Hin as [Ha|Hin]; [|done]. exists (evaluateMetaLeadPageReadiness t p0). split; [by left|]. rewrite Ha. apply rank_available. rewrite <- Ha. apply Hall. by left. }
  split; [done|]. split; [unfold ev; by rewrite length_map|]. split; [intros r Hr; split; auto|]. split; [done|]. split.
  - split.
    + intros Ha. split; [done|]. do 2 f_equal. apply filter_all. intros r Hr. apply Hready, rank_available; [done|]. rewrite <- Ha. by apply Hall.
    + intros [_ Hc]. destruct Hex as (r & Hr & <-). apply Hready; [done|]. destruct (mr_ready r) eqn:Hm; [done|].
      pose proof (filter_split_length mr_ready ev) as Hsp. assert (Hnil : List.filter (fun x => negb (mr_ready x)) ev = []).
      { apply nil_length_inv. lia. }
      pose proof (proj1 (filter_nil_iff _ _) Hnil r Hr) as Hn. cbn beta in Hn. by rewrite Hm in Hn.
  - intros pages' Hp. destruct pages' as [|p1 pages']; [by apply Permutation_sym, Permutation_nil in Hp|]. rewrite Hsum. cbn zeta. cbn [ms_overall ms_readyCount].
    assert (Hev : Permutation ev (map (evaluateMetaLeadPageReadiness t) (p1 :: pages'))) by by apply Permutation_map.
    set (ev' := map _ (p1 :: pages')) in *. split.
    + apply rank_inj, Z.le_antisymm.
      * destruct Hex as (r & Hr & <-). apply fold_worse. by apply (Permutation_in _ Hev).
      * destruct (fold_worse ev' ML_available) as ([Ha|(r & Hr & <-)] & _ & _).
        -- cbn zeta in Ha. rewrite Ha. apply fold_worse.
        -- apply Hall. by apply (Permutation_in _ (Permutation_sym Hev)).
    + f_equal. apply Permutation_length. by apply filter_perm.
Qed.

(** ** Choosing assets *)

Lemma select_one_spec kp ki acc v :
  let acc' := select_one kp ki acc v in
  (forall x, x ∈ ma_pages acc' <-> x ∈ ma_pages acc \/ kind_id v = ("facebook", x) /\ In x kp) /\
  (forall x, x ∈ ma_instagram acc' <-> x ∈ ma_instagram acc \/ kind_id v = ("instagram", x) /\ In x ki) /\
  (NoDup (ma_pages acc) -> NoDup (ma_pages acc')) /\ (NoDup (ma_instagram acc) -> NoDup (ma_instagram acc')) /\
  ma_rejected acc' = ma_rejected acc + (if ((kind_id v).1 =s "facebook") && includes kp (kind_id v).2 || ((kind_id v).1 =s "instagram") && includes ki (kind_id v).2 then 0 else 1).
Proof.
  cbn zeta. unfold select_one. destruct (kind_id v) as [k i] eqn:Hk. cbn [fst snd].
  assert (Hadd : forall l, NoDup l -> NoDup (set_add l i)).
  { intros l Hl. unfold set_add. case_bool_decide; [done|]. apply NoDup_app. split; [done|]. split; [set_solver|apply NoDup_singleton]. }
  destruct ((k =s "facebook") && includes kp i) eqn:Hf; [|destruct ((k =s "instagram") && includes ki i) eqn:Hi]; cbn [ma_pages ma_instagram ma_rejected orb].
  - apply andb_true_iff in Hf as [->%String.eqb_eq Hin%includes_In]. split; [|split; [|auto with zarith]].
    + intros x. rewrite elem_of_set_add. naive_solver.
    + naive_solver.
  - apply andb_true_iff in Hi as [->%String.eqb_eq Hin%includes_In]. split; [naive_solver|split; [|auto with zarith]].
    intros x. rewrite elem_of_set_add. naive_solver.
  - apply andb_false_iff in Hf, Hi. repeat split; try done; try (intros [|[[= -> ->] Hin%includes_In]]; [done|]); try (by left).
    + by destruct Hf as [Hf|Hf]; rewrite ?Hin in Hf.
    + by destruct Hi as [Hi|Hi]; rewrite ?Hin in Hi.
Qed.
(** What the server listed under a kind. *)
Definition listed (serverAssets : list MetaSelectableAsset) (kind x : string) : Prop :=
  x <> "" /\ exists a, In a serverAssets /\ (kind = "facebook" /\ pageId a = x \/ kind = "instagram" /\ igBusinessId a = Some x).
Lemma known_pages assets x : In x (List.filter nonempty (map pageId assets)) <-> listed assets "facebook" x.
Proof.
  rewrite filter_In, in_map_iff. unfold nonempty. rewrite negb_true_iff, String.eqb_neq. split.
  - intros ((a & <- & Ha) & Hx). split; [done|]. exists a. auto.
  - intros (Hx & a & Ha & [[_ <-]|[? _]]); [eauto|done].
Qed.
Lemma known_instagram assets x : In x (List.filter nonempty (omap igBusinessId assets)) <-> listed assets "instagram" x.
Proof.
  rewrite filter_In, <- list_elem_of_In, list_elem_of_omap. unfold nonempty. rewrite negb_true_iff, String.eqb_neq. split.
  - intros ((a & Ha%list_elem_of_In & Hi) & Hx). split; [done|]. exists a. auto.
  - intros (Hx & a & Ha%list_elem_of_In & [[? _]|[_ Hi]]); [done|eauto].
Qed.
Lemma exists_cons {A} (P : A -> Prop) (Q : Prop) v vs : (exists w, In w (v :: vs) /\ P w) /\ Q <-> (P v /\ Q) \/ (exists w, In w vs /\ P w) /\ Q.
Proof.
  cbn [In]. split; [intros ((w & [->|Hw] & Hp) & Hq); [by left|right; eauto]|intros [[Hp Hq]|((w & Hw & Hp) & Hq)]; eauto 6].
Qed.
(** A submitted selection connects only what the server listed: a page or Instagram account is selected exactly when a submitted value names it
    with its kind and the server listed it for this login; nothing is selected twice; every other submitted value is counted as rejected. *)
Theorem asset_selection_exact (serverAssets : list MetaSelectableAsset) (rawSelected : list string) :
  let sel := resolveMetaAssetSelection serverAssets rawSelected in
  (forall x, x ∈ ma_pages sel <-> (exists v, In v rawSelected /\ kind_id v = ("facebook", x)) /\ listed serverAssets "facebook" x) /\
  (forall x, x ∈ ma_instagram sel <-> (exists v, In v rawSelected /\ kind_id v = ("instagram", x)) /\ listed serverAssets "instagram" x) /\
  NoDup (ma_pages sel) /\ NoDup (ma_instagram sel) /\
  0 <= ma_rejected sel <= Z.of_nat (length rawSelected) /\
  (ma_rejected sel = 0 <-> forall v, In v rawSelected -> exists k x, kind_id v = (k, x) /\ (k = "facebook" \/ k = "instagram") /\ listed serverAssets k x).
Proof.
  cbn zeta. unfold resolveMetaAssetSelection. set (kp := List.filter nonempty _). set (ki := List.filter nonempty (omap _ _)).
  assert (Hgen : forall vs acc, let sel := fold_left (select_one kp ki) vs acc in
    (forall x, x ∈ ma_pages sel <-> x ∈ ma_pages acc \/ (exists v, In v vs /\ kind_id v = ("facebook", x)) /\ In x kp) /\
    (forall x, x ∈ ma_instagram sel <-> x ∈ ma_instagram acc \/ (exists v, In v vs /\ kind_id v = ("instagram", x)) /\ In x ki) /\
    (NoDup (ma_pages acc) -> NoDup (ma_pages sel)) /\ (NoDup (ma_instagram acc) -> NoDup (ma_instagram sel)) /\
    ma_rejected acc <= ma_rejected sel <= ma_rejected acc + Z.of_nat (length vs) /\
    (ma_rejected sel = ma_rejected acc <-> forall v, In v vs ->
       ((kind_id v).1 =s "facebook") && includes kp (kind_id v).2 || ((kind_id v).1 =s "instagram") && includes ki (kind_id v).2 = true)).
  { induction vs as [|v vs IH]; intros acc; cbn zeta; cbn [fold_left length].
    - repeat split; try done; try lia; try (by left); try (by intros [?|[(?&[]&?) ?]]); by intros ? [].
    - destruct (select_one_spec kp ki acc v) as (Sp & Si & Np & Ni & Hr). cbn zeta in *. destruct (IH (select_one kp ki acc v)) as (Ip & Ii & INp & INi & Ib & Ir).
      cbn zeta in *. split; [intros x; rewrite Ip, Sp, exists_cons; tauto|]. split; [intros x; rewrite Ii, Si, exists_cons; tauto|].
      split; [auto|]. split; [auto|]. revert Hr Ir. destruct (_ || _) eqn:Hv; intros Hr Ir; (split; [lia|]).
      + rewrite Hr, Z.add_0_r in Ir. rewrite Ir. cbn [In]. split; [intros H w [<-|Hw]; auto|auto].
      + split; [lia|]. intros H. rewrite (H v) in Hv; [done|by left]. }
  destruct (Hgen rawSelected {| ma_pages := []; ma_instagram := []; ma_rejected := 0 |}) as (Hp & Hi & Np & Ni & Hb & Hr). cbn zeta in *. clear Hgen.
  cbn [ma_pages ma_instagram ma_rejected] in *. split; [intros x; rewrite Hp, <- known_pages; set_solver|].
  split; [intros x; rewrite Hi, <- known_instagram; set_solver|]. split; [by apply Np, NoDup_nil|]. split; [by apply Ni, NoDup_nil|]. split; [lia|].
  rewrite Hr. split; intros H v Hv; specialize (H v Hv).
  - destruct (kind_id v) as [k x]. exists k, x. cbn [fst snd] in H. split; [done|].
    apply orb_true_iff in H as [[->%String.eqb_eq Hin%includes_In]%andb_true_iff|[->%String.eqb_eq Hin%includes_In]%andb_true_iff].
    + apply known_pages in Hin. auto.
    + apply known_instagram in Hin. auto.
  - destruct H as (k & x & -> & [-> | ->] & Hl); cbn [fst snd]; apply orb_true_iff; [left|right]; apply andb_true_iff; (split; [done|]); apply includes_In.
    + by apply known_pages.
    + by apply known_instagram.
Qed.

(** ** Bulk selections *)

Lemma trimEnd_no_ws s : str_forallb (fun c => negb (is_ws c)) s = true -> trimEnd s = s.
Proof.
  induction s as [|c s IH]; [done|]. cbn [str_forallb trimEnd]. intros [Hc%negb_true_iff Hs]%andb_true_iff. rewrite (IH Hs).
  destruct s; [by rewrite Hc|done].
Qed.
Lemma trim_no_ws s : str_forallb (fun c => negb (is_ws c)) s = true -> trim s = s.
Proof.
  intros H. unfold trim. rewrite <- (trimEnd_no_ws s H) at 2. f_equal. destruct s as [|c s]; [done|]. cbn [str_forallb trimStart] in *.
  apply andb_true_iff in H as [Hc%negb_true_iff _]. by rewrite Hc.
Qed.
Lemma cuid_trim s : cuid_shaped s = true -> trim s = s /\ nonempty s = true.
Proof.
  unfold cuid_shaped. intros [Hl Hc]%andb_true_iff. split.
  - apply trim_no_ws. revert Hc. apply Notifications.str_forallb_impl. intros c. unfold is_lower, is_digit, is_ws, between.
    destruct (_ || _) eqn:E1; [|done]. intros _. destruct (negb _) eqn:E2; [done|]. lia.
  - unfold nonempty, between in *. destruct s; [by cbn in Hl|done].
Qed.
Lemma bulk_ids_spec raw ids dropped ids' dropped' : bulk_ids raw ids dropped = Some (ids', dropped') ->
  NoDup ids -> Forall (fun i => cuid_shaped i = true) ids ->
  NoDup ids' /\ Forall (fun i => cuid_shaped i = true) ids' /\ (forall i, i ∈ ids' <-> i ∈ ids \/ In (Some i) (map (option_map trim) raw)) /\
  dropped' - dropped = Z.of_nat (length raw) + Z.of_nat (length ids) - Z.of_nat (length ids') /\ dropped <= dropped'.
Proof.
  revert ids dropped. induction raw as [|v raw IH]; cbn [bulk_ids map In length].
  - intros ids dropped [= <- <-] Hn Hc. repeat split; try done; [by left|by intros [?|[]]|lia..].
  - intros ids dropped. set (i := match v with Some s => trim s | None => "" end). destruct (nonempty i) eqn:Hne; [|done]. cbn [negb].
    destruct (cuid_shaped i) eqn:Hc; [|done]. cbn [negb]. assert (Hv : option_map trim v = Some i) by (destruct v; [done|]; by cbn in Hne).
    rewrite Hv. destruct (includes ids i) eqn:Hi; intros H Hn Hf.
    + apply includes_In, list_elem_of_In in Hi. destruct (IH _ _ H Hn Hf) as (N & F & M & D & P). repeat split; try done; [|  |lia|lia].
      * rewrite M. naive_solver.
      * rewrite M. intros [|[[= ->]|]]; auto.
    + apply includes_not_In in Hi. destruct (IH _ _ H) as (N & F & M & D & P).
      * apply NoDup_app. split; [done|]. split; [set_solver|apply NoDup_singleton].
      * apply Forall_app. split; [done|by constructor].
      * rewrite length_app in D. cbn [length] in D. repeat split; try done; [|  |lia].
        -- rewrite M. set_solver.
        -- rewrite M. intros [|[[= ->]|]]; set_solver.
Qed.
Lemma bulk_ids_fixed ids acc d : NoDup (acc ++ ids) -> Forall (fun i => cuid_shaped i = true) ids -> bulk_ids (map Some ids) acc d = Some (acc ++ ids, d).
Proof.
  revert acc. induction ids as [|i ids IH]; intros acc Hn Hf; cbn [map bulk_ids]; [by rewrite app_nil_r|].
  apply Forall_cons in Hf as [Hi Hf]. destruct (cuid_trim i Hi) as [-> ->]. rewrite Hi. cbn [negb].
  replace (includes acc i) with false; [rewrite IH, <- app_assoc; [done|by rewrite <- app_assoc|done]|].
  symmetry. destruct (includes acc i) eqn:H; [|done]. apply includes_In, list_elem_of_In in H. apply NoDup_app in Hn as (_ & Hd & _). exfalso. apply (Hd i H). by left.
Qed.
(** A bulk request acts on a bounded set of contacts: an accepted selection has between 1 and 100 distinct ids, all of the shape the system
    mints, exactly the trimmed submitted ones; with the dropped repetitions they make up the whole submission; and submitting it again selects the same ids. *)
Theorem bulk_selection_bounded (raw : list (option string)) (ids : list string) (duplicatesDropped : Z) :
  normalizeBulkContactIds (Some raw) = BulkOk ids duplicatesDropped ->
  (1 <= length ids <= 100)%nat /\ NoDup ids /\ (forall i, In i ids -> cuid_shaped i = true) /\
  (forall i, In i ids <-> exists s, In (Some s) raw /\ trim s = i) /\ Forall is_Some raw /\
  Z.of_nat (length ids) + duplicatesDropped = Z.of_nat (length raw) /\ 0 <= duplicatesDropped /\
  normalizeBulkContactIds (Some (map Some ids)) = BulkOk ids 0.
Proof.
  unfold normalizeBulkContactIds. destruct raw as [|r0 raw0] eqn:Hraw; [done|]. rewrite <- Hraw in *. clear Hraw r0 raw0.
  destruct (bulk_ids raw [] 0) as [[ids' d]|] eqn:Hb; [|done]. destruct (Nat.eqb_spec (length ids') 0); [done|].
  destruct (MAX_BULK_CONTACT_IDS <? _) eqn:Hmax; [done|]. intros [= -> ->]. change MAX_BULK_CONTACT_IDS with 100 in *.
  destruct (bulk_ids_spec _ _ _ _ _ Hb) as (N & F & M & D & P); [apply NoDup_nil_2|done|]. cbn [length] in D.
  assert (Hmem : forall i, In i ids <-> exists s, In (Some s) raw /\ trim s = i).
  { intros i. rewrite <- list_elem_of_In, M, in_map_iff. split.
    - intros [|([s|] & [= <-] & Hs)]; [set_solver|eauto].
    - intros (s & Hs & <-). right. by exists (Some s). }
  assert (Hsome : Forall is_Some raw).
  { clear - Hb. revert Hb. generalize (@nil string), 0. induction raw as [|[s|] raw IH]; intros a z; [constructor|..]; cbn [bulk_ids].
    - destruct (nonempty _); [|done]. destruct (cuid_shaped _); [|done]. cbn [negb]. destruct (includes _ _); intros H; constructor; eauto.
    - done. }
  rewrite Forall_forall in F. split; [lia|]. split; [done|]. split; [intros i Hi; by apply F, list_elem_of_In|].
  split; [done|]. split; [done|]. split; [lia|]. split; [lia|].
  destruct ids as [|i ids]; [done|]. cbn [map]. change (Some i :: map Some ids) with (map Some (i :: ids)).
  rewrite bulk_ids_fixed; [|done|by apply Forall_forall]. cbn [app length Nat.eqb] in *. by rewrite Hmax.
Qed.

(** ** Privacy review *)

Lemma review_days raw : CONTACT_REVIEW_MIN_DAYS <= normalizeReviewThresholdDays raw <= CONTACT_REVIEW_MAX_DAYS.
Proof. unfold normalizeReviewThresholdDays, CONTACT_REVIEW_MIN_DAYS, CONTACT_REVIEW_MAX_DAYS, CONTACT_REVIEW_DEFAULT_DAYS. destruct raw; lia. Qed.
(** The list's query and the domain rule agree on what to review: a contact is recommended exactly when it is not anonymized and both its arrival and
    its latest activity lie strictly before the cutoff; a contact with a signal in the last 30 days never is, whatever threshold was supplied, and
    a silence of more than ten years always is. *)
Theorem review_rule_matches_cutoff (receivedAt latest : Z) (l : BusinessContactLifecycle) (raw : threshold) (now : Z) :
  contactNeedsPrivacyReview receivedAt (Some latest) l raw now =
    negb (l =e LC_Anonymized) && ((receivedAt <? contactReviewCutoff raw now) && (latest <? contactReviewCutoff raw now)) /\
  (now - 30 * DAY_MS <= Z.max receivedAt latest -> contactNeedsPrivacyReview receivedAt (Some latest) l raw now = false) /\
  (Z.max receivedAt latest < now - 3650 * DAY_MS -> l <> LC_Anonymized -> contactNeedsPrivacyReview receivedAt (Some latest) l raw now = true).
Proof.
  pose proof (review_days raw) as Hd. unfold CONTACT_REVIEW_MIN_DAYS, CONTACT_REVIEW_MAX_DAYS in Hd.
  unfold contactNeedsPrivacyReview, contactReviewCutoff. set (days := normalizeReviewThresholdDays raw) in *.
  assert (Hlat : (if receivedAt <? latest then latest else receivedAt) = Z.max receivedAt latest) by (destruct (Z.ltb_spec receivedAt latest); lia).
  rewrite Hlat. change DAY_MS with 86400000 in *. split; [|split].
  - destruct (l =e LC_Anonymized); [done|]. cbn [negb andb]. apply eq_true_iff_eq. rewrite andb_true_iff, !Z.ltb_lt. lia.
  - intros H. destruct (l =e LC_Anonymized); [done|]. apply Z.ltb_ge. lia.
  - intros H Hne. destruct (l =e LC_Anonymized) eqn:Ha; [by apply enum_eqb_eq in Ha|]. apply Z.ltb_lt. lia.
Qed.
Lemma review_rule_matches_cutoff_witness :
  contactNeedsPrivacyReview 0 (Some 5) LC_Active (Finite 30) (40 * DAY_MS) = true /\ contactNeedsPrivacyReview 0 (Some 5) LC_Active (Finite 1) (29 * DAY_MS) = false.
Proof.
  split.
  - destruct (review_rule_matches_cutoff 0 5 LC_Active (Finite 30) (40 * DAY_MS)) as (H & _ & _). rewrite H. reflexivity.
  - apply (review_rule_matches_cutoff 0 5 LC_Active (Finite 1) (29 * DAY_MS)). vm_compute. discriminate.
Defined.

(** ** Search *)

Lemma str_forallb_take p n s : str_forallb p s = true -> str_forallb p (String.substring 0 n s) = true.
Proof.
  revert n. induction s as [|c s IH]; intros [|n]; [done..|]. cbn [String.substring str_forallb].
  intros [-> H]%andb_true_iff. by rewrite IH.
Qed.
Lemma str_forallb_trim p s : str_forallb p s = true -> str_forallb p (trim s) = true.
Proof.
  assert (Hs : forall t, str_forallb p t = true -> str_forallb p (trimStart t) = true).
  { induction t as [|c r IH]; [done|]. cbn [str_forallb trimStart]. intros [Hc Hr]%andb_true_iff. destruct (is_ws c); [auto|]. cbn [str_forallb]. by rewrite Hc. }
  assert (He : forall t, str_forallb p t = true -> str_forallb p (trimEnd t) = true).
  { induction t as [|c r IH]; [done|]. cbn [str_forallb trimEnd]. intros [Hc Hr]%andb_true_iff. specialize (IH Hr).
    destruct (trimEnd r); [|cbn [str_forallb] in *; by rewrite Hc]. destruct (is_ws c); [done|]. cbn. by rewrite Hc. }
  intros H. unfold trim. auto.
Qed.
Lemma str_forallb_collapse p b s : p " "%char = true -> str_forallb p s = true -> str_forallb p (collapse_ws b s) = true.
Proof.
  intros Hsp. revert b. induction s as [|c r IH]; intros b; [done|]. cbn [str_forallb collapse_ws]. intros [Hc Hr]%andb_true_iff.
  destruct (is_ws c); [destruct b|]; cbn [str_forallb]; rewrite ?Hsp, ?Hc; cbn [andb]; auto.
Qed.
Lemma str_forallb_map p f s : (forall c, p (f c) = true) -> str_forallb p (str_map f s) = true.
Proof. intros Hf. induction s as [|c r IH]; [done|]. cbn [str_forallb str_map]. by rewrite Hf, IH. Qed.
Lemma length_str_take n s : String.length (String.substring 0 n s) = Nat.min n (String.length s).
Proof. revert n. induction s as [|c s IH]; intros [|n]; [done..|]. cbn. by rewrite IH. Qed.
(** A search term is bounded and clean: a term that reaches the query has from 2 to 100 characters and no control character; anything shorter once
    cleaned is not a search; and the digits probed against phone numbers are three or more digits, no more than the term has characters. *)
Theorem search_term_clean (raw : option string) (t : string) :
  normalizeContactSearch raw = Some t ->
  2 <= str_len t <= 100 /\ str_forallb (fun c => negb (is_control c)) t = true /\
  forall d, contactSearchPhoneDigits t = Some d -> 3 <= str_len d <= str_len t /\ str_forallb is_digit d = true.
Proof.
  destruct raw as [s|]; [|done]. unfold normalizeContactSearch. set (cleaned := trim _). destruct (str_len cleaned <? _) eqn:Hl; [done|]. intros [= <-].
  apply Z.ltb_ge in Hl. unfold CONTACT_SEARCH_MIN_LENGTH, CONTACT_SEARCH_MAX_LENGTH, str_take, str_len in *. split; [rewrite length_str_take; lia|]. split.
  - apply str_forallb_take, str_forallb_trim, str_forallb_collapse; [done|]. apply str_forallb_map. intros c. by destruct (is_control c) eqn:H; rewrite ?H.
  - generalize (String.substring 0 (Z.to_nat 100) cleaned). intros t d. unfold contactSearchPhoneDigits. destruct (phone_shaped t); [|done]. cbn [negb].
    destruct (3 <=? _) eqn:H3; [|done]. intros [= <-]. unfold str_len in *. apply Z.leb_le in H3. assert (Hf : (String.length (str_filter is_digit t) <= String.length t)%nat /\ str_forallb is_digit (str_filter is_digit t) = true); [|destruct Hf; split; [lia|done]].
    clear. induction t as [|c t [IH1 IH2]]; [done|]. cbn [str_filter]. destruct (is_digit c) eqn:Hc; cbn [String.length str_forallb]; rewrite ?Hc; split; try done; lia.
Qed.
Lemma search_term_clean_witness :
  normalizeContactSearch (Some " +421  905 ") = Some "+421 905" /\ str_len "+421 905" <= 100 /\ contactSearchPhoneDigits "+421 905" = Some "421905".
Proof.
  assert (H : normalizeContactSearch (Some " +421  905 ") = Some "+421 905") by (vm_compute; reflexivity).
  split; [exact H|]. split; [apply (search_term_clean _ _ H)|vm_compute; reflexivity].
Defined.

(** ** Notes *)

(** A stored note is bounded plain text: it has from 1 to 2000 characters after cleaning, no control character other than tab, newline and carriage
    return, and no white space around it; padding neither makes an empty note count nor lets a longer one through. *)
Theorem note_body_clean (raw : option string) (body : string) :
  validateContactNoteBody raw = NoteOk body ->
  1 <= str_len body <= CONTACT_NOTE_MAX_LENGTH /\ str_forallb (fun c => negb (note_stripped c)) body = true /\
  exists s, raw = Some s /\ body = trim (str_filter (fun c => negb (note_stripped c)) (crlf s)).
Proof.
  destruct raw as [s|]; [|done]. unfold validateContactNoteBody. set (cleaned := trim _). destruct (Z.eqb_spec (str_len cleaned) 0) as [|Hne]; [done|].
  destruct (Z.ltb_spec CONTACT_NOTE_MAX_LENGTH (str_len cleaned)); [done|]. intros [= <-]. split; [unfold str_len in *; lia|]. split; [|by exists s].
  apply str_forallb_trim. generalize (crlf s) as t. induction t as [|c t IH]; [done|]. cbn [str_filter]. destruct (note_stripped c) eqn:Hc; [done|].
  cbn [negb str_forallb]. by rewrite Hc.
Qed.
Lemma note_body_clean_witness : validateContactNoteBody (Some "  call back ") = NoteOk "call back" /\ str_len "call back" <= CONTACT_NOTE_MAX_LENGTH.
Proof.
  assert (H : validateContactNoteBody (Some "  call back ") = NoteOk "call back") by (vm_compute; reflexivity).
  split; [exact H|apply (note_body_clean _ _ H)].
Defined.
Definition cr : string := String "013" "".
Definition lf : string := String "010" "".
(** The comment has only newline and tab survive, with CRLF normalised: a lone carriage return is kept, and CR NUL LF is stored as CRLF. *)
Theorem note_keeps_carriage_return :
  validateContactNoteBody (Some ("a" +:+ cr +:+ "b")) = NoteOk ("a" +:+ cr +:+ "b") /\
  validateContactNoteBody (Some ("a" +:+ cr +:+ String "000" (lf +:+ "b"))) = NoteOk ("a" +:+ cr +:+ lf +:+ "b").
Proof. by vm_compute. Qed.

(** ** Identity of a contact *)

Lemma name_no_bar (p : BusinessProvider) : char_free "|" (js_name p) = true.
Proof. by destruct p. Qed.
Lemma source_no_bar (s : BusinessContactSource) : char_free "|" (js_name s) = true.
Proof. by destruct s. Qed.
Lemma or_str_some s d : nonempty s = true -> or_str (Some s) d = s.
Proof. unfold or_str, truthy. by intros ->. Qed.
(** Leads with a provider id are told apart exactly by provider, source and trimmed id: whatever form and content come with them, two such leads
    have the same dedupe seed only if all three agree, so a replayed lead maps to one key and different leads to different keys. *)
Theorem dedupe_seed_identifies (p p' : BusinessProvider) (s s' : BusinessContactSource) (i i' : string) (f f' c c' : option string) :
  nonempty (trim i) = true -> nonempty (trim i') = true ->
  businessContactDedupeSeed p s (Some i) f c = businessContactDedupeSeed p' s' (Some i') f' c' <-> p = p' /\ s = s' /\ trim i = trim i'.
Proof.
  intros Hi Hi'. unfold businessContactDedupeSeed. cbn [opt_trim option_map]. rewrite !or_str_some by done. split; [|by intros (-> & -> & ->)].
  intros [Hp H]%split_first; [|apply name_no_bar..]. apply split_first in H as [Hs H]; [|apply source_no_bar..].
  split; [by apply js_name_inj|]. split; [by apply js_name_inj|done].
Qed.
Lemma dedupe_seed_identifies_witness :
  businessContactDedupeSeed BP_Meta S_Facebook (Some " 17") (Some "a") None = businessContactDedupeSeed BP_Meta S_Facebook (Some "17") None None.
Proof. apply (proj2 (dedupe_seed_identifies BP_Meta BP_Meta S_Facebook S_Facebook " 17" "17" (Some "a") None None None eq_refl eq_refl)); split; [|split]; vm_compute; reflexivity. Defined.
(** Without a provider id the seed does not identify a lead: everything a source sends without form or fingerprint has the same seed, a colon in the form
    id shifts the boundary, and an id may spell the seed of an unidentified lead. *)
Theorem unidentified_leads_collide (p : BusinessProvider) (s : BusinessContactSource) :
  businessContactDedupeSeed p s None None None = businessContactDedupeSeed p s (Some "  ") (Some "") (Some " ") /\
  businessContactDedupeSeed p s None (Some "a:b") (Some "c") = businessContactDedupeSeed p s None (Some "a") (Some "b:c") /\
  businessContactDedupeSeed p s (Some "noid:a:b") None None = businessContactDedupeSeed p s None (Some "a") (Some "b").
Proof. by destruct p, s. Qed.

(** ** Exported tombstones *)

(** The export row of an anonymized contact depends on two times alone: whatever the record holds, every cell but arrival, state and latest activity
    is empty; and every row, tombstone or not, has one cell per column. *)
Theorem tombstone_row_empty (c d : ContactExportSource) :
  length (export_row c) = length CONTACT_EXPORT_COLUMNS /\
  (ex_lifecycleState c = LC_Anonymized ->
   Forall (fun cell => cell = "" \/ cell = Notifications.toISOString (ex_receivedAt c) \/ cell = "anonymized" \/ cell = Notifications.toISOString (ex_latestActivityAt c)) (export_row c) /\
   (ex_lifecycleState d = LC_Anonymized -> ex_receivedAt d = ex_receivedAt c -> ex_latestActivityAt d = ex_latestActivityAt c -> export_row d = export_row c)).
Proof.
  unfold export_row. split; [by destruct (_ =e _)|]. intros Hc. rewrite Hc. split.
  - unfold contactTombstoneExportRow. cbn [enum_eqb]. repeat (apply Forall_cons; split; [auto 6|]). apply Forall_nil_2.
  - intros Hd Hr Hl. by rewrite Hd, Hr, Hl.
Qed.
Lemma tombstone_row_empty_witness :
  let c := {| ex_fullName := Some "A"; ex_email := None; ex_phone := None; ex_company := None; ex_sourcePlatform := S_Facebook; ex_campaignName := None;
    ex_formName := None; ex_receivedAt := 0; ex_status := CS_New; ex_assignedTo := Some "m"; ex_latestActivityAt := 1; ex_lifecycleState := LC_Anonymized |} in
  hd "A" (export_row c) = "" /\ export_row c = export_row c.
Proof.
  intros c. destruct (tombstone_row_empty c c) as (_ & H). destruct (H eq_refl) as [_ H2]. split; [|exact (H2 eq_refl eq_refl eq_refl)].
  vm_compute. reflexivity.
Defined.

(** ** Timeline *)

Lemma js_sort_ext {A} (f g : A -> A -> Z) l : (forall x y, In x l -> In y l -> f x y = g x y) -> js_sort f l = js_sort g l.
Proof.
  assert (Hins : forall x m, (forall y, In y m -> f x y = g x y) -> sort_insert f x m = sort_insert g x m).
  { intros x. induction m as [|y m IH]; [done|]. intros H. cbn [sort_insert]. rewrite H, IH; [done| |by left]. intros z Hz. apply H. by right. }
  induction l as [|x l IH]; [done|]. intros H. cbn [js_sort foldr]. fold (js_sort f l) (js_sort g l). rewrite IH by (intros; apply H; by right).
  apply Hins. intros y Hy. apply H; [by left|right]. by apply (Permutation_in _ (js_sort_perm g l)).
Qed.
Definition full_rank (e : ContactTimelineEntry) : Z := match te_kind e with Some k => kind_rank k | None => -1 end.
Definition chronological (a b : ContactTimelineEntry) : Z := if te_at a =? te_at b then full_rank a - full_rank b else te_at a - te_at b.
Lemma chronological_total a b : chronological a b <= 0 \/ chronological b a <= 0.
Proof. unfold chronological. destruct (Z.eqb_spec (te_at a) (te_at b)), (Z.eqb_spec (te_at b) (te_at a)); lia. Qed.
Lemma chronological_trans a b c : chronological a b <= 0 -> chronological b c <= 0 -> chronological a c <= 0.
Proof. unfold chronological. destruct (Z.eqb_spec (te_at a) (te_at b)), (Z.eqb_spec (te_at b) (te_at c)), (Z.eqb_spec (te_at a) (te_at c)); lia. Qed.
Lemma entries_have_kinds d audit notes t e : Forall (fun a => includes object_prototype_keys (ar_event a) = false) audit ->
  In e (entry (Some TK_received) t None :: flat_map (audit_entry d) audit ++ map (note_entry d) notes) -> is_Some (te_kind e).
Proof.
  rewrite Forall_forall. intros Ha [<-|[Hin|Hin]%in_app_iff]; [done| |by apply in_map_iff in Hin as (n & <- & _)].
  apply in_flat_map in Hin as (a & Hin%list_elem_of_In & He). apply Ha in Hin. revert He. unfold audit_entry.
  destruct (_ =s _); [by intros [<-|[]]|]. destruct (_ =s _); [by intros [<-|[]]|]. destruct (map_get _ _); [by intros [<-|[]]|].
  by rewrite Hin.
Qed.
(** The timeline is complete and in order: over audit rows of known events, it has the arrival, every status, assignment and lifecycle event and every
    note, once each, oldest first and at equal times by kind; a limit keeps exactly the most recent entries; a redacted note keeps its place without text. *)
Theorem timeline_complete_in_order (d : string -> option string) (receivedAt : Z) (audit : list ContactAuditRecord) (notes : list ContactNoteRecord) :
  Forall (fun a => includes object_prototype_keys (ar_event a) = false) audit ->
  let all := buildContactTimeline d receivedAt audit notes None in
  Permutation all (entry (Some TK_received) receivedAt None :: flat_map (audit_entry d) audit ++ map (note_entry d) notes) /\
  StronglySorted (fun a b => chronological a b <= 0) all /\
  (forall n, 0 < n -> exists older, all = older ++ buildContactTimeline d receivedAt audit notes (Some n) /\
     Z.of_nat (length (buildContactTimeline d receivedAt audit notes (Some n))) = Z.min n (Z.of_nat (length all))) /\
  (forall n, In n notes -> nr_body n = None -> exists e, In e all /\ te_kind e = Some TK_note /\ te_at e = nr_createdAt n /\ te_body e = None /\ te_redacted e = true).
Proof.
  intros Ha all. unfold all, buildContactTimeline. set (es := entry _ _ _ :: _). cbn zeta. split; [apply js_sort_perm|]. split; [|split].
  - rewrite (js_sort_ext _ chronological); [apply js_sort_sorted; [exact chronological_total|exact chronological_trans]|].
    intros x y [k Hk]%(entries_have_kinds _ _ _ _ _ Ha) [k' Hk']%(entries_have_kinds _ _ _ _ _ Ha). unfold timeline_cmp, chronological, full_rank. rewrite Hk, Hk'. done.
  - intros n Hn. generalize (js_sort timeline_cmp es) as l. intros l. replace (0 <? n) with true by lia. cbn [andb].
    destruct (Z.ltb_spec n (Z.of_nat (length l))); [|exists []; split; [done|lia]].
    exists (take (length l - Z.to_nat n) l). split; [by rewrite take_drop|]. rewrite length_drop. lia.
  - intros n Hn Hb. exists (note_entry d n). split; [|by cbn; rewrite Hb].
    apply (Permutation_in _ (Permutation_sym (js_sort_perm timeline_cmp es))). right. apply in_app_iff. right. by apply in_map.
Qed.
Definition sample_audit : ContactAuditRecord := {| ar_event := CONTACT_STATUS_AUDIT_EVENT; ar_createdAt := 5; ar_actorUserId := Some "u"; ar_to := Some "handled"; ar_assigned := false |}.
Definition sample_note : ContactNoteRecord := {| nr_createdAt := 5; nr_authorUserId := Some "w"; nr_body := None; nr_redactedAt := Some 9 |}.
Lemma timeline_complete_in_order_witness :
  let all := buildContactTimeline (fun i => if i =s "u" then Some "u@x" else None) 1 [sample_audit] [sample_note] None in
  map te_kind all = [Some TK_received; Some TK_status_changed; Some TK_note] /\ map te_actor all = [None; Some "u@x"; None] /\
  StronglySorted (fun a b => chronological a b <= 0) all.
Proof.
  intros all. split; [vm_compute; reflexivity|]. split; [vm_compute; reflexivity|].
  apply (timeline_complete_in_order (fun i => if i =s "u" then Some "u@x" else None) 1 [sample_audit] [sample_note]). repeat constructor.
Defined.

End Contacts.
