(* ===== verification/ContactStore.v ===== *)
(** The business contact tables ([packages/db/src/business-contacts-repo.ts]): connections,
    contacts, notes, audit rows and ingestion events of all tenants in one store, every
    repository operation as a function on it, and runs of operations. *)
From S2P Require Import Prelude Keyset Outbox Workspace Notifications Contacts.
From Stdlib Require Import QArith.QArith.
Open Scope string_scope.
Open Scope list_scope.
Open Scope Z_scope.
Open Scope tam_scope.
Import Contacts.

Module ContactStore.

(** * The tables *)

(* src: packages/db/prisma/schema.prisma:4297-4326 BusinessPlatformConnection *)
Record connection := {
  k_id : string; k_tenant : string; k_provider : BusinessProvider; k_externalAccountId : option string; k_displayName : option string;
  k_status : BusinessConnectionStatus; k_capabilities : list BusinessConnectionCapability; k_lastVerifiedAt : option Z;
  k_lastSuccessfulSyncAt : option Z; k_lastErrorCode : option string; k_connectedAccountId : option string }.
(** The columns of a contact that no statement updates. *)
Record contact_origin := {
  o_id : string; o_tenant : string; o_connectionId : option string; o_provider : BusinessProvider; o_sourcePlatform : BusinessContactSource;
  o_dedupeKey : string; o_campaignId : option string; o_campaignName : option string; o_adId : option string; o_adName : option string;
  o_formId : option string; o_formName : option string; o_receivedAt : Z; o_consentValue : option bool; o_createdAt : Z }.
(** The columns that identify a person or a lead. *)
Record contact_personal := {
  p_fullName : option string; p_email : option string; p_phone : option string; p_company : option string; p_messageSummary : option string;
  p_consentReference : option string; p_consentVersion : option string; p_externalLeadId : option string }.
(* src: packages/db/prisma/schema.prisma:4421-4476 BusinessContact *)
Record contact := {
  c_origin : contact_origin; c_personal : contact_personal; c_status : BusinessContactStatus; c_lifecycleState : BusinessContactLifecycle;
  c_anonymizedAt : option Z; c_anonymizationReason : option ContactAnonymizationReason; c_assignedUserId : option string; c_updatedAt : Z }.
Definition c_id (c : contact) : string := o_id (c_origin c).
Definition c_tenant (c : contact) : string := o_tenant (c_origin c).
Definition c_dedupeKey (c : contact) : string := o_dedupeKey (c_origin c).
Definition c_receivedAt (c : contact) : Z := o_receivedAt (c_origin c).
(* src: packages/db/prisma/schema.prisma:4386-4409 BusinessContactNote *)
Record note := {
  n_id : string; n_tenant : string; n_contactId : string; n_authorUserId : option string; n_body : option string; n_createdAt : Z; n_redactedAt : option Z }.
(** The audit ledger; of the metadata, what the timeline reads and the counts of a bulk operation. *)
Record audit := { a_id : string; a_tenant : string; a_targetType : string; a_target : option string; a_record : ContactAuditRecord; a_counts : option (Z * Z) }.
(* src: packages/db/prisma/schema.prisma:4480-4501 BusinessContactIngestionEvent *)
Record ingestion_event := {
  e_tenant : string; e_provider : BusinessProvider; e_providerEventId : option string; e_payloadHash : string; e_signatureVerified : bool;
  e_result : BusinessIngestionResult; e_errorCode : option string; e_receivedAt : Z; e_processedAt : option Z; e_contactId : option string }.
Record member := { m_tenant : string; m_userId : string; m_email : option string }.
Record store := {
  connections : list connection; contacts : list contact; notes : list note; audits : list audit; events : list ingestion_event; members : list member }.
Definition empty : store := {| connections := []; contacts := []; notes := []; audits := []; events := []; members := [] |}.
Definition set_connections (l : list connection) (s : store) : store := {|
  connections := l; contacts := contacts s; notes := notes s; audits := audits s; events := events s; members := members s |}.
Definition set_contacts (l : list contact) (s : store) : store := {|
  connections := connections s; contacts := l; notes := notes s; audits := audits s; events := events s; members := members s |}.
Definition set_notes (l : list note) (s : store) : store := {|
  connections := connections s; contacts := contacts s; notes := l; audits := audits s; events := events s; members := members s |}.
Definition set_audits (l : list audit) (s : store) : store := {|
  connections := connections s; contacts := contacts s; notes := notes s; audits := l; events := events s; members := members s |}.
Definition set_events (l : list ingestion_event) (s : store) : store := {|
  connections := connections s; contacts := contacts s; notes := notes s; audits := audits s; events := l; members := members s |}.

(** Row security: inside [withTenant(t)] only the rows of [t] are visible. *)
Definition has_id (t i : string) (c : contact) : bool := (c_tenant c =s t) && (c_id c =s i).
Definition find_contact (t i : string) (s : store) : option contact := List.find (has_id t i) (contacts s).

(* src: packages/db/src/business-contacts-repo.ts:35-39 clamp *)
Definition clamp (v : option string) (n : Z) : option string :=
  match v with
  | None => None
  | Some s => let t := trim s in if str_len t =? 0 then None else Some (str_take n t)
  end.

(** * Connections *)

Definition of_provider (t : string) (p : BusinessProvider) (k : connection) : bool := (k_tenant k =s t) && (k_provider k =e p).
(** The rows by provider, in the order of the database enumeration. *)
Definition provider_rank (p : BusinessProvider) : Z := match p with BP_Meta => 0 | BP_Google => 1 | BP_TikTok => 2 | BP_LinkedIn => 3 end.
(* src: packages/db/src/business-contacts-repo.ts:55-70 listBusinessConnections *)
Definition listBusinessConnections (t : string) (s : store) : list connection :=
  js_sort (fun a b => provider_rank (k_provider a) - provider_rank (k_provider b)) (List.filter (fun k => k_tenant k =s t) (connections s)).
(* src: packages/db/src/business-contacts-repo.ts:72-79 UpsertConnectionInput *)
Record UpsertConnectionInput := {
  u_provider : BusinessProvider; u_status : BusinessConnectionStatus; u_capabilities : option (list BusinessConnectionCapability);
  u_displayName : option string; u_externalAccountId : option string; u_lastErrorCode : option string }.
Definition apply_upsert (i : UpsertConnectionInput) (k : connection) : connection := {|
  k_id := k_id k; k_tenant := k_tenant k; k_provider := k_provider k; k_externalAccountId := clamp (u_externalAccountId i) 200;
  k_displayName := clamp (u_displayName i) 200; k_status := u_status i; k_capabilities := u_capabilities i ?? k_capabilities k;
  k_lastVerifiedAt := k_lastVerifiedAt k; k_lastSuccessfulSyncAt := k_lastSuccessfulSyncAt k; k_lastErrorCode := clamp (u_lastErrorCode i) 80;
  k_connectedAccountId := k_connectedAccountId k |}.
Definition blank_connection (t newId : string) (p : BusinessProvider) : connection := {|
  k_id := newId; k_tenant := t; k_provider := p; k_externalAccountId := None; k_displayName := None; k_status := BC_NotConfigured; k_capabilities := [];
  k_lastVerifiedAt := None; k_lastSuccessfulSyncAt := None; k_lastErrorCode := None; k_connectedAccountId := None |}.
(* src: packages/db/src/business-contacts-repo.ts:85-104 upsertBusinessConnection *)
Definition upsertBusinessConnection (t : string) (i : UpsertConnectionInput) (newId : string) (s : store) : string * store :=
  match List.find (of_provider t (u_provider i)) (connections s) with
  | Some k => (k_id k, set_connections (update_where (fun x => (k_tenant x =s t) && (k_id x =s k_id k)) (apply_upsert i) (connections s)) s)
  | None => (newId, set_connections (connections s ++ [apply_upsert i (blank_connection t newId (u_provider i))]) s)
  end.
Definition disconnected (k : connection) : connection := {|
  k_id := k_id k; k_tenant := k_tenant k; k_provider := k_provider k; k_externalAccountId := k_externalAccountId k; k_displayName := k_displayName k;
  k_status := BC_Disconnected; k_capabilities := k_capabilities k; k_lastVerifiedAt := k_lastVerifiedAt k; k_lastSuccessfulSyncAt := k_lastSuccessfulSyncAt k;
  k_lastErrorCode := k_lastErrorCode k; k_connectedAccountId := k_connectedAccountId k |}.
(* src: packages/db/src/business-contacts-repo.ts:107-115 disconnectBusinessConnection *)
Definition disconnectBusinessConnection (t : string) (p : BusinessProvider) (s : store) : bool * store :=
  (0 <? count (of_provider t p) (connections s), set_connections (update_where (of_provider t p) disconnected (connections s)) s).
(* src: packages/db/src/business-contacts-repo.ts:119-124 listAssignableMembers *)
Definition listAssignableMembers (t : string) (s : store) : list (string * string) :=
  map (fun m => (m_userId m, m_email m ?? m_userId m)) (List.filter (fun m => m_tenant m =s t) (members s)).

(** * One contact *)

Definition with_status (to : BusinessContactStatus) (now : Z) (c : contact) : contact := {|
  c_origin := c_origin c; c_personal := c_personal c; c_status := to; c_lifecycleState := c_lifecycleState c; c_anonymizedAt := c_anonymizedAt c;
  c_anonymizationReason := c_anonymizationReason c; c_assignedUserId := c_assignedUserId c; c_updatedAt := now |}.
Definition with_assignee (who : option string) (now : Z) (c : contact) : contact := {|
  c_origin := c_origin c; c_personal := c_personal c; c_status := c_status c; c_lifecycleState := c_lifecycleState c; c_anonymizedAt := c_anonymizedAt c;
  c_anonymizationReason := c_anonymizationReason c; c_assignedUserId := who; c_updatedAt := now |}.
Definition with_lifecycle (to : BusinessContactLifecycle) (now : Z) (c : contact) : contact := {|
  c_origin := c_origin c; c_personal := c_personal c; c_status := c_status c; c_lifecycleState := to; c_anonymizedAt := c_anonymizedAt c;
  c_anonymizationReason := c_anonymizationReason c; c_assignedUserId := c_assignedUserId c; c_updatedAt := now |}.
Definition no_personal : contact_personal := {|
  p_fullName := None; p_email := None; p_phone := None; p_company := None; p_messageSummary := None; p_consentReference := None; p_consentVersion := None;
  p_externalLeadId := None |}.
Definition anonymized (reason : option ContactAnonymizationReason) (now : Z) (c : contact) : contact := {|
  c_origin := c_origin c; c_personal := no_personal; c_status := c_status c; c_lifecycleState := LC_Anonymized; c_anonymizedAt := Some now;
  c_anonymizationReason := reason; c_assignedUserId := None; c_updatedAt := now |}.

(* src: packages/db/src/business-contacts-repo.ts:337-337 ContactMutationResult *)
Inductive ContactMutationResult := M_ok | M_not_found | M_invalid_transition | M_invalid_input.
(* src: packages/db/src/business-contacts-repo.ts:340-350 setBusinessContactStatus *)
Definition setBusinessContactStatus (t i : string) (to : BusinessContactStatus) (now : Z) (s : store) : ContactMutationResult * store :=
  match find_contact t i s with
  | None => (M_not_found, s)
  | Some c =>
      if c_status c =e to then (M_ok, s)
      else if negb (canTransitionContactStatus (c_status c) to) then (M_invalid_transition, s)
      else (M_ok, set_contacts (update_where (has_id t i) (with_status to now) (contacts s)) s)
  end.
Definition is_member (t who : string) (s : store) : bool := existsb (fun m => (m_tenant m =s t) && (m_userId m =s who)) (members s).
(* src: packages/db/src/business-contacts-repo.ts:353-363 assignBusinessContact *)
Definition assignBusinessContact (t i : string) (who : option string) (now : Z) (s : store) : ContactMutationResult * store :=
  if truthy who && negb (is_member t (who ?? "") s) then (M_invalid_input, s)
  else if existsb (has_id t i) (contacts s) then (M_ok, set_contacts (update_where (has_id t i) (with_assignee who now) (contacts s)) s)
  else (M_not_found, s).
(** The detail view; it reads no note, so its latest activity is the row's own. *)
(* src: packages/db/src/business-contacts-repo.ts:325-335 getBusinessContact *)
Definition getBusinessContact (t i : string) (s : store) : option (contact * Z) := option_map (fun c => (c, c_updatedAt c)) (find_contact t i s).

(** * Ingestion *)

(* src: packages/db/src/business-contacts-repo.ts:366-388 BusinessContactInput *)
Record BusinessContactInput := {
  i_provider : BusinessProvider; i_sourcePlatform : BusinessContactSource; i_connectionId : option string; i_externalLeadId : option string;
  i_contentFingerprint : option string; i_fullName : option string; i_email : option string; i_phone : option string; i_company : option string;
  i_messageSummary : option string; i_campaignId : option string; i_campaignName : option string; i_adId : option string; i_adName : option string;
  i_formId : option string; i_formName : option string; i_receivedAt : Z; i_consentValue : option bool; i_consentReference : option string;
  i_consentVersion : option string }.
(* src: packages/db/src/business-contacts-repo.ts:390-394 IngestionMeta *)
Record IngestionMeta := { im_providerEventId : option string; im_payloadHash : string; im_signatureVerified : bool }.
(* src: packages/db/src/business-contacts-repo.ts:395-395 BusinessIngestOutcome *)
Record BusinessIngestOutcome := { io_result : BusinessIngestionResult; io_contactId : option string; io_duplicate : bool }.
(* src: packages/db/src/business-contacts-repo.ts:398-412 recordBusinessIngestionEvent *)
Definition recordBusinessIngestionEvent (t : string) (p : BusinessProvider) (providerEventId : option string) (payloadHash : string) (verified : bool)
    (r : BusinessIngestionResult) (errorCode : option string) (receivedAt : Z) (processedAt : option Z) (contactId : option string) (s : store) : store :=
  set_events (events s ++ [{| e_tenant := t; e_provider := p; e_providerEventId := clamp providerEventId 200; e_payloadHash := str_take 128 payloadHash;
    e_signatureVerified := verified; e_result := r; e_errorCode := clamp errorCode 80; e_receivedAt := receivedAt; e_processedAt := processedAt;
    e_contactId := contactId |}]) s.
Definition new_contact (t newId key : string) (i : BusinessContactInput) (now : Z) : contact := {|
  c_origin := {| o_id := newId; o_tenant := t; o_connectionId := i_connectionId i; o_provider := i_provider i; o_sourcePlatform := i_sourcePlatform i;
    o_dedupeKey := key; o_campaignId := clamp (i_campaignId i) 200; o_campaignName := clamp (i_campaignName i) 200; o_adId := clamp (i_adId i) 200;
    o_adName := clamp (i_adName i) 200; o_formId := clamp (i_formId i) 200; o_formName := clamp (i_formName i) 200; o_receivedAt := i_receivedAt i;
    o_consentValue := i_consentValue i; o_createdAt := now |};
  c_personal := {| p_fullName := clamp (i_fullName i) 200; p_email := clamp (i_email i) 320; p_phone := clamp (i_phone i) 60;
    p_company := clamp (i_company i) 200; p_messageSummary := clamp (i_messageSummary i) 1000; p_consentReference := clamp (i_consentReference i) 200;
    p_consentVersion := clamp (i_consentVersion i) 60; p_externalLeadId := clamp (i_externalLeadId i) 200 |};
  c_status := CS_New; c_lifecycleState := LC_Active; c_anonymizedAt := None; c_anonymizationReason := None; c_assignedUserId := None; c_updatedAt := now |}.
Definition has_key (t key : string) (c : contact) : bool := (c_tenant c =s t) && (c_dedupeKey c =s key).
(** [createMany] with [skipDuplicates]: a row is skipped where it meets the unique index on tenant and key, or the primary key. *)
Definition conflicts (c x : contact) : bool := has_key (c_tenant c) (c_dedupeKey c) x || (c_id x =s c_id c).
Definition create_contact (c : contact) (s : store) : bool * store :=
  if existsb (conflicts c) (contacts s) then (false, s) else (true, set_contacts (contacts s ++ [c]) s).

Section Ingest.
(** SHA-256 in hexadecimal. *)
Context (sha256_hex : string -> string).
Definition input_key (i : BusinessContactInput) : string :=
  sha256_hex (businessContactDedupeSeed (i_provider i) (i_sourcePlatform i) (i_externalLeadId i) (i_formId i) (i_contentFingerprint i)).
(* src: packages/db/src/business-contacts-repo.ts:419-453 ingestBusinessContact *)
Definition ingestBusinessContact (t : string) (i : BusinessContactInput) (meta : IngestionMeta) (newId : string) (now : Z) (s : store) : BusinessIngestOutcome * store :=
  let key := input_key i in
  let '(created, s1) := create_contact (new_contact t newId key i now) s in
  let contactId := option_map c_id (List.find (has_key t key) (contacts s1)) in
  let result := if created then IR_Accepted else IR_Duplicate in
  ({| io_result := result; io_contactId := contactId; io_duplicate := negb created |},
   recordBusinessIngestionEvent t (i_provider i) (im_providerEventId meta) (im_payloadHash meta) (im_signatureVerified meta) result None (i_receivedAt i) (Some now) contactId s1).
End Ingest.

(** * Notes and the audit trail *)

(* src: packages/db/src/business-contacts-repo.ts:458-458 CONTACT_TIMELINE_MAX_EVENTS *)
Definition CONTACT_TIMELINE_MAX_EVENTS : Z := 50.
(* src: packages/db/src/business-contacts-repo.ts:460-462 ContactNoteResult *)
Inductive ContactNoteResult := NR_ok (noteId : string) | NR_not_found | NR_invalid_input | NR_too_long.
(* src: packages/db/src/business-contacts-repo.ts:472-493 addBusinessContactNote *)
Definition addBusinessContactNote (t contactId author : string) (rawBody : option string) (newId : string) (now : Z) (s : store) : ContactNoteResult * store :=
  let i := trim contactId in
  if negb (nonempty i) then (NR_invalid_input, s)
  else match validateContactNoteBody rawBody with
  | NoteTooLong => (NR_too_long, s)
  | NoteEmpty => (NR_invalid_input, s)
  | NoteOk body =>
      if is_none (find_contact t i s) then (NR_not_found, s)
      else (NR_ok newId, set_notes (notes s ++ [{| n_id := newId; n_tenant := t; n_contactId := i; n_authorUserId := Some author; n_body := Some body;
                                               n_createdAt := now; n_redactedAt := None |}]) s)
  end.
Definition bounded_take (limit max : Z) : nat := Z.to_nat (Z.max 1 (Z.min limit max)).
Definition note_of (t i : string) (n : note) : bool := (n_tenant n =s t) && (n_contactId n =s i).
Definition note_record (n : note) : ContactNoteRecord :=
  {| nr_createdAt := n_createdAt n; nr_authorUserId := n_authorUserId n; nr_body := n_body n; nr_redactedAt := n_redactedAt n |}.
(* src: packages/db/src/business-contacts-repo.ts:496-510 listBusinessContactNotes *)
Definition listBusinessContactNotes (t contactId : string) (limit : Z) (s : store) : list ContactNoteRecord :=
  map note_record (rev (take (bounded_take limit CONTACT_TIMELINE_MAX_EVENTS)
    (js_sort (Keyset.list_order n_createdAt n_id) (List.filter (note_of t contactId) (notes s))))).
Definition a_createdAt (a : audit) : Z := ar_createdAt (a_record a).
Definition timeline_events : list string := CONTACT_STATUS_AUDIT_EVENT :: CONTACT_ASSIGNMENT_AUDIT_EVENT :: map fst CONTACT_LIFECYCLE_AUDIT_EVENTS.
Definition CONTACT_TARGET : string := "business_contact".
Definition audit_of (t i : string) (a : audit) : bool := (a_tenant a =s t) && (a_targetType a =s CONTACT_TARGET) && status_is (a_target a) i && includes timeline_events (ar_event (a_record a)).
(* src: packages/db/src/business-contacts-repo.ts:521-543 listBusinessContactAuditTrail *)
Definition listBusinessContactAuditTrail (t contactId : string) (limit : Z) (s : store) : list ContactAuditRecord :=
  map a_record (rev (take (bounded_take limit CONTACT_TIMELINE_MAX_EVENTS)
    (js_sort (Keyset.list_order a_createdAt a_id) (List.filter (audit_of t contactId) (audits s))))).
(** One row per contact; [auditId] gives the id the database mints for a contact's row. *)
(* src: packages/db/src/business-contacts-repo.ts:553-568 writeContactAudits *)
Definition writeContactAudits (t actor : string) (ids : list string) (event : string) (to : option string) (assigned : bool) (auditId : string -> string) (now : Z) (s : store) : store :=
  set_audits (audits s ++ map (fun i => {| a_id := auditId i; a_tenant := t; a_targetType := CONTACT_TARGET; a_target := Some i; a_counts := None;
    a_record := {| ar_event := event; ar_createdAt := now; ar_actorUserId := Some actor; ar_to := to; ar_assigned := assigned |} |}) ids) s.

(** * Bulk operations *)

(** What happens to one selected contact. *)
Definition bulk_verdict (t : string) (to : BusinessContactStatus) (s : store) (i : string) : option BulkContactFailureReason :=
  match find_contact t i s with
  | None => Some BF_not_found
  | Some c => if c_status c =e to then None else if negb (canTransitionContactStatus (c_status c) to) then Some BF_invalid_transition else None
  end.
Definition failures (verdict : string -> option BulkContactFailureReason) (ids : list string) : list (string * BulkContactFailureReason) :=
  omap (fun i => option_map (pair i) (verdict i)) ids.
Definition in_set (t : string) (ids : list string) (c : contact) : bool := (c_tenant c =s t) && includes ids (c_id c).
(* src: packages/db/src/business-contacts-repo.ts:583-614 bulkSetBusinessContactStatus *)
Definition bulkSetBusinessContactStatus (t : string) (ids : list string) (to : BusinessContactStatus) (actor : string) (auditId : string -> string) (now : Z) (s : store)
    : BulkContactOutcome * store :=
  let bounded := take (Z.to_nat MAX_BULK_CONTACT_IDS) ids in
  let changed := List.filter (fun i => is_none (bulk_verdict t to s i)) bounded in
  let outcome := {| bo_changed := changed; bo_failed := failures (bulk_verdict t to s) bounded |} in
  let toWrite := List.filter (fun i => match find_contact t i s with Some c => negb (c_status c =e to) | None => true end) changed in
  if Nat.eqb (length toWrite) 0 then (outcome, s)
  else (outcome, writeContactAudits t actor toWrite CONTACT_STATUS_AUDIT_EVENT (Some (js_name to)) false auditId now
                   (set_contacts (update_where (in_set t toWrite) (with_status to now) (contacts s)) s)).
(** [None]: the assignee is not a member. *)
(* src: packages/db/src/business-contacts-repo.ts:623-646 bulkAssignBusinessContacts *)
Definition bulkAssignBusinessContacts (t : string) (ids : list string) (who : option string) (actor : string) (auditId : string -> string) (now : Z) (s : store)
    : option BulkContactOutcome * store :=
  let bounded := take (Z.to_nat MAX_BULK_CONTACT_IDS) ids in
  if Nat.eqb (length bounded) 0 then (Some {| bo_changed := []; bo_failed := [] |}, s)
  else if truthy who && negb (is_member t (who ?? "") s) then (None, s)
  else
    let found i := is_some (find_contact t i s) in
    let changed := List.filter found bounded in
    let outcome := {| bo_changed := changed; bo_failed := failures (fun i => if found i then None else Some BF_not_found) bounded |} in
    if Nat.eqb (length changed) 0 then (Some outcome, s)
    else (Some outcome, writeContactAudits t actor changed CONTACT_ASSIGNMENT_AUDIT_EVENT None (is_some who) auditId now
                          (set_contacts (update_where (in_set t changed) (with_assignee who now) (contacts s)) s)).

(** * Privacy lifecycle *)

(* src: packages/db/src/business-contacts-repo.ts:725-727 LifecycleMutationResult *)
Inductive LifecycleMutationResult := LM_ok (from : BusinessContactLifecycle) | LM_not_found | LM_invalid_transition.
(** A call at a time, as every operation here: the code reads the state and updates the row in two statements without a lock, so that a call that read before
    another anonymized the contact would write after it; such overlaps are not modelled. *)
(* src: packages/db/src/business-contacts-repo.ts:737-752 setBusinessContactLifecycle *)
Definition setBusinessContactLifecycle (t i : string) (to : BusinessContactLifecycle) (now : Z) (s : store) : LifecycleMutationResult * store :=
  if to =e LC_Anonymized then (LM_invalid_transition, s)
  else match find_contact t i s with
  | None => (LM_not_found, s)
  | Some c =>
      let from := c_lifecycleState c in
      if from =e to then (LM_ok from, s)
      else if negb (canTransitionContactLifecycle from to) then (LM_invalid_transition, s)
      else (LM_ok from, set_contacts (update_where (has_id t i) (with_lifecycle to now) (contacts s)) s)
  end.
(* src: packages/db/src/business-contacts-repo.ts:754-756 AnonymizationResult *)
Inductive AnonymizationResult :=
| AN_ok (previousLifecycle : BusinessContactLifecycle) (notesRedacted : Z) (source : BusinessContactSource) (alreadyAnonymized : bool)
| AN_not_found.
Definition has_body (t i : string) (n : note) : bool := note_of t i n && is_some (n_body n).
Definition redacted (now : Z) (n : note) : note := {|
  n_id := n_id n; n_tenant := n_tenant n; n_contactId := n_contactId n; n_authorUserId := n_authorUserId n; n_body := None; n_createdAt := n_createdAt n;
  n_redactedAt := Some now |}.
(** One transaction under the row lock. *)
(* src: packages/db/src/business-contacts-repo.ts:782-830 anonymizeBusinessContact *)
Definition anonymizeBusinessContact (t i : string) (reason : option ContactAnonymizationReason) (now : Z) (s : store) : AnonymizationResult * store :=
  match find_contact t i s with
  | None => (AN_not_found, s)
  | Some c =>
      let source := o_sourcePlatform (c_origin c) in
      if c_lifecycleState c =e LC_Anonymized then (AN_ok (c_lifecycleState c) 0 source true, s)
      else
        let s1 := set_notes (update_where (has_body t i) (redacted now) (notes s)) s in
        (AN_ok (c_lifecycleState c) (count (has_body t i) (notes s)) source false,
         set_contacts (update_where (has_id t i) (anonymized reason now) (contacts s1)) s1)
  end.

(** * Lists *)

(* src: packages/db/src/business-contacts-repo.ts:155-178 BusinessContactFilters *)
Record BusinessContactFilters := {
  f_status : option BusinessContactStatus; f_sourcePlatform : option BusinessContactSource; f_search : option string;
  f_lifecycle : option BusinessContactLifecycle; f_needsReview : bool; f_reviewThresholdDays : option threshold }.
(* src: packages/db/src/business-contacts-repo.ts:184-184 PAGE_SIZE *)
Definition PAGE_SIZE : nat := 20.
(* src: packages/db/src/business-contacts-repo.ts:127-153 BusinessContactRow *)
Record BusinessContactRow := {
  r_id : string; r_provider : BusinessProvider; r_sourcePlatform : BusinessContactSource; r_fullName : option string; r_email : option string;
  r_phone : option string; r_company : option string; r_messageSummary : option string; r_campaignName : option string; r_formName : option string;
  r_receivedAt : Z; r_status : BusinessContactStatus; r_assignedUserId : option string; r_consentValue : option bool; r_createdAt : Z;
  r_lifecycleState : BusinessContactLifecycle; r_anonymizedAt : option Z; r_anonymizationReason : option ContactAnonymizationReason; r_latestActivityAt : Z }.
Definition later (noteAt : option Z) (base : Z) : Z := match noteAt with Some n => if base <? n then n else base | None => base end.
(* src: packages/db/src/business-contacts-repo.ts:185-205 mapContact *)
Definition mapContact (c : contact) (latestNoteAt : option Z) : BusinessContactRow :=
  let o := c_origin c in let p := c_personal c in
  {| r_id := o_id o; r_provider := o_provider o; r_sourcePlatform := o_sourcePlatform o; r_fullName := p_fullName p; r_email := p_email p; r_phone := p_phone p;
     r_company := p_company p; r_messageSummary := p_messageSummary p; r_campaignName := o_campaignName o; r_formName := o_formName o;
     r_receivedAt := o_receivedAt o; r_status := c_status c; r_assignedUserId := c_assignedUserId c; r_consentValue := o_consentValue o;
     r_createdAt := o_createdAt o; r_lifecycleState := c_lifecycleState c; r_anonymizedAt := c_anonymizedAt c;
     r_anonymizationReason := c_anonymizationReason c; r_latestActivityAt := later latestNoteAt (c_updatedAt c) |}.
(* src: packages/db/src/business-contacts-repo.ts:220-223 lifecycleWhere *)
Definition lifecycleWhere (f : BusinessContactFilters) (c : contact) : bool :=
  match f_lifecycle f with
  | Some l => c_lifecycleState c =e l
  | None => negb (existsb (fun l => l =e c_lifecycleState c) DEFAULT_HIDDEN_LIFECYCLES)
  end.
(** [None]: the spread adds nothing. Its lifecycle clause, where there is one, replaces the one before it. *)
(* src: packages/db/src/business-contacts-repo.ts:230-238 reviewWhere *)
Definition reviewWhere (f : BusinessContactFilters) (now : Z) : option (contact -> bool) :=
  if negb (f_needsReview f) then None
  else
    let cutoff := contactReviewCutoff (f_reviewThresholdDays f ?? Finite (inject_Z CONTACT_REVIEW_DEFAULT_DAYS)) now in
    Some (fun c => negb (c_lifecycleState c =e LC_Anonymized) && (c_receivedAt c <? cutoff) && (c_updatedAt c <? cutoff)).

(** ** Cursors *)

Fixpoint span (p : ascii -> bool) (s : string) : string * string :=
  match s with
  | EmptyString => ("", "")
  | String c r => if p c then let '(a, b) := span p r in (String c a, b) else ("", s)
  end.
Definition scaled (m e : Z) : Q := if 0 <=? e then inject_Z (m * 10 ^ e) else (m # Z.to_pos (10 ^ (- e))).
(** The unsigned decimal literals of [Number], read exactly; overflow is infinite. *)
Definition decimal_literal (s : string) : option Q :=
  let '(ip, r) := span is_digit s in
  let '(fp, r) := match r with String c r' => if Ascii.eqb c "." then span is_digit r' else ("", r) | EmptyString => ("", r) end in
  let value e := let q := scaled (Outbox.number_of_digits (ip +:+ fp)) (e - str_len fp) in if Qle_bool (inject_Z (2 ^ 1024 - 2 ^ 970)) q then None else Some q in
  if negb (nonempty (ip +:+ fp)) then None
  else match r with
  | EmptyString => value 0
  | String c r' =>
      if Ascii.eqb (lower_ascii c) "e"
      then let '(sign, ds) := match r' with String g r'' => if Ascii.eqb g "-" then (-1, r'') else if Ascii.eqb g "+" then (1, r'') else (1, r') | EmptyString => (1, r') end in
           if nonempty ds && str_forallb is_digit ds then value (sign * Outbox.number_of_digits ds) else None
      else None
  end.
Definition digit_value (c : ascii) : Z := if is_digit c then code c - 48 else if between 97 102 (code (lower_ascii c)) then code (lower_ascii c) - 87 else 99.
Definition radix_literal (base : Z) (s : string) : option Q :=
  if nonempty s && str_forallb (fun c => digit_value c <? base) s
  then Some (inject_Z (fold_left (fun n c => n * base + digit_value c) (String.list_ascii_of_string s) 0)) else None.
Definition base_of (x : ascii) : option Z :=
  let x := lower_ascii x in if Ascii.eqb x "x" then Some 16 else if Ascii.eqb x "o" then Some 8 else if Ascii.eqb x "b" then Some 2 else None.
(** [Number(s)] where the result is finite. *)
Definition finite_number (s : string) : option Q :=
  match trim s with
  | EmptyString => Some (inject_Z 0)
  | String c r =>
      if Ascii.eqb c "-" then option_map Qopp (decimal_literal r)
      else if Ascii.eqb c "+" then decimal_literal r
      else match r with
      | String x h => match base_of x with Some b => if Ascii.eqb c "0" then radix_literal b h else decimal_literal (String c r) | None => decimal_literal (String c r) end
      | EmptyString => decimal_literal (String c r)
      end
  end.
(** The furthest instant a [Date] can hold, in milliseconds. *)
Definition MAX_TIME : Z := 8640000000000000.
(** No cursor, the row a page starts after, or an invalid date, which the database client refuses. *)
Inductive cursor := FirstPage | After (at_ : Z) (ident : string) | InvalidDate.

Abbreviation newest_first := (Keyset.list_order c_receivedAt c_id).

Section Lists.
(** The database's case-insensitive [contains] (text, then term), and base64url of [Buffer]. *)
Context (ilike : string -> string -> bool) (base64url unbase64url : string -> string).
Definition contains (term : string) (v : option string) : bool := match v with Some x => ilike x term | None => false end.
(* src: packages/db/src/business-contacts-repo.ts:240-252 searchWhere *)
Definition searchWhere (term : string) (c : contact) : bool :=
  let p := c_personal c in
  contains term (p_fullName p) || contains term (p_email p) || contains term (p_company p) || contains term (p_phone p) ||
  match contactSearchPhoneDigits term with Some d => contains d (p_phone p) | None => false end.
(** The conditions the list and the export share. *)
Definition matches (t : string) (f : BusinessContactFilters) (now : Z) (c : contact) : bool :=
  (c_tenant c =s t) && match f_status f with Some st => c_status c =e st | None => true end &&
  match f_sourcePlatform f with Some p => o_sourcePlatform (c_origin c) =e p | None => true end &&
  match reviewWhere f now with Some review => review c | None => lifecycleWhere f c end &&
  (negb (truthy (f_search f)) || searchWhere (f_search f ?? "") c).
(* src: packages/db/src/business-contacts-repo.ts:255-257 encodeCursor *)
Definition encodeCursor (receivedAt : Z) (i : string) : string := base64url (Outbox.string_of_int receivedAt +:+ String ":" i).
(* src: packages/db/src/business-contacts-repo.ts:258-266 decodeCursor *)
Definition decodeCursor (raw : option string) : cursor :=
  if negb (truthy raw) then FirstPage
  else match str_split ":" (unbase64url (raw ?? "")) with
  | ms :: i :: _ =>
      match finite_number ms with
      | None => FirstPage
      | Some q => if nonempty i && str_forallb is_alnum i
                  then if Qle_bool q (inject_Z MAX_TIME) && Qle_bool (inject_Z (- MAX_TIME)) q then After (trunc q) i else InvalidDate
                  else FirstPage
      end
  | _ => FirstPage
  end.
Definition latest_note (t i : string) (s : store) : option Z :=
  match map n_createdAt (List.filter (note_of t i) (notes s)) with [] => None | x :: r => Some (fold_left Z.max r x) end.
Definition row_of (t : string) (s : store) (c : contact) : BusinessContactRow := mapContact c (latest_note t (c_id c) s).
Definition after_cursor (k : cursor) (c : contact) : bool :=
  match k with After a i => (c_receivedAt c <? a) || ((c_receivedAt c =? a) && str_ltb (c_id c) i) | _ => true end.
(** [None]: the query fails. *)
(* src: packages/db/src/business-contacts-repo.ts:269-302 listBusinessContacts *)
Definition listBusinessContacts (t : string) (f : BusinessContactFilters) (raw : option string) (now : Z) (s : store) : option (list BusinessContactRow * option string) :=
  match decodeCursor raw with
  | InvalidDate => None
  | k =>
      let rows := take (PAGE_SIZE + 1) (js_sort newest_first (List.filter (fun c => matches t f now c && after_cursor k c) (contacts s))) in
      let page := take PAGE_SIZE rows in
      let nextCursor := if (PAGE_SIZE <? length rows)%nat then option_map (fun c => encodeCursor (c_receivedAt c) (c_id c)) (last page) else None in
      Some (map (row_of t s) page, nextCursor)
  end.
Definition no_status (f : BusinessContactFilters) : BusinessContactFilters := {|
  f_status := None; f_sourcePlatform := f_sourcePlatform f; f_search := f_search f; f_lifecycle := f_lifecycle f; f_needsReview := f_needsReview f;
  f_reviewThresholdDays := f_reviewThresholdDays f |}.
(* src: packages/db/src/business-contacts-repo.ts:305-322 businessContactCounts *)
Definition businessContactCounts (t : string) (f : BusinessContactFilters) (now : Z) (s : store) : Z * (BusinessContactStatus -> Z) :=
  let grouped := fun st => count (fun c => matches t (no_status f) now c && (c_status c =e st)) (contacts s) in
  (fold_left Z.add (map grouped ALL_BUSINESS_CONTACT_STATUSES) 0, grouped).
Definition member_email (t who : string) (s : store) : option string :=
  match List.find (fun m => (m_tenant m =s t) && (m_userId m =s who)) (members s) with Some m => m_email m | None => None end.
Definition export_source (t : string) (s : store) (c : contact) : ContactExportSource :=
  let o := c_origin c in let p := c_personal c in
  {| ex_fullName := p_fullName p; ex_email := p_email p; ex_phone := p_phone p; ex_company := p_company p; ex_sourcePlatform := o_sourcePlatform o;
     ex_campaignName := o_campaignName o; ex_formName := o_formName o; ex_receivedAt := o_receivedAt o; ex_status := c_status c;
     ex_assignedTo := if truthy (c_assignedUserId c) then member_email t (c_assignedUserId c ?? "") s else None;
     ex_latestActivityAt := later (latest_note t (c_id c) s) (c_updatedAt c); ex_lifecycleState := c_lifecycleState c |}.
(* src: packages/db/src/business-contacts-repo.ts:665-721 exportBusinessContacts *)
Definition exportBusinessContacts (t : string) (f : BusinessContactFilters) (limit : Z) (now : Z) (s : store) : list ContactExportSource * bool :=
  let n := bounded_take limit CONTACT_EXPORT_MAX_ROWS in
  let rows := take (n + 1) (js_sort newest_first (List.filter (matches t f now) (contacts s))) in
  let limited := (n <? length rows)%nat in
  (map (export_source t s) (if limited then take n rows else rows), limited).
End Lists.

(** * Runs *)

(** One repository call, with the tenant of its transaction and what the database mints. *)
Inductive op :=
| OUpsert (t : string) (i : UpsertConnectionInput) (newId : string)
| ODisconnect (t : string) (p : BusinessProvider)
| OStatus (t i : string) (to : BusinessContactStatus) (now : Z)
| OAssign (t i : string) (who : option string) (now : Z)
| OIngest (t : string) (i : BusinessContactInput) (meta : IngestionMeta) (newId : string) (now : Z)
| OEvent (t : string) (p : BusinessProvider) (eventId : option string) (h : string) (verified : bool) (r : BusinessIngestionResult) (err : option string) (received : Z)
| ONote (t i author : string) (raw : option string) (newId : string) (now : Z)
| OBulkStatus (t : string) (ids : list string) (to : BusinessContactStatus) (actor : string) (auditId : string -> string) (now : Z)
| OBulkAssign (t : string) (ids : list string) (who : option string) (actor : string) (auditId : string -> string) (now : Z)
| OLifecycle (t i : string) (to : BusinessContactLifecycle) (now : Z)
| OAnonymize (t i : string) (reason : option ContactAnonymizationReason) (now : Z).
Definition tenant_of (o : op) : string :=
  match o with
  | OUpsert t _ _ | ODisconnect t _ | OStatus t _ _ _ | OAssign t _ _ _ | OIngest t _ _ _ _ | OEvent t _ _ _ _ _ _ _ | ONote t _ _ _ _ _
  | OBulkStatus t _ _ _ _ _ | OBulkAssign t _ _ _ _ _ | OLifecycle t _ _ _ | OAnonymize t _ _ _ => t end.

Section Runs.
Context (sha256_hex : string -> string).
Definition exec (o : op) (s : store) : store :=
  match o with
  | OUpsert t i newId => (upsertBusinessConnection t i newId s).2
  | ODisconnect t p => (disconnectBusinessConnection t p s).2
  | OStatus t i to now => (setBusinessContactStatus t i to now s).2
  | OAssign t i who now => (assignBusinessContact t i who now s).2
  | OIngest t i meta newId now => (ingestBusinessContact sha256_hex t i meta newId now s).2
  | OEvent t p eventId h verified r err received => recordBusinessIngestionEvent t p eventId h verified r err received None None s
  | ONote t i author raw newId now => (addBusinessContactNote t i author raw newId now s).2
  | OBulkStatus t ids to actor auditId now => (bulkSetBusinessContactStatus t ids to actor auditId now s).2
  | OBulkAssign t ids who actor auditId now => (bulkAssignBusinessContacts t ids who actor auditId now s).2
  | OLifecycle t i to now => (setBusinessContactLifecycle t i to now s).2
  | OAnonymize t i reason now => (anonymizeBusinessContact t i reason now s).2
  end.
Definition run (os : list op) (s : store) : store := fold_left (fun s o => exec o s) os s.
Lemma run_app os os' s : run (os ++ os') s = run os' (run os s).
Proof. apply fold_left_app. Qed.
Lemma run_cons o os s : run (o :: os) s = run os (exec o s).
Proof. done. Qed.

(** * Invariants *)

(** Ids are the primary key, tenant and dedupe key are unique, and an anonymized row carries nothing personal. *)
Definition tombstone (c : contact) : Prop := c_lifecycleState c = LC_Anonymized -> c_personal c = no_personal /\ is_Some (c_anonymizedAt c).
Record wf (s : store) : Prop := {
  wf_ids : NoDup (map c_id (contacts s));
  wf_keys : NoDup (map (fun c => (c_tenant c, c_dedupeKey c)) (contacts s));
  wf_tombstones : Forall tombstone (contacts s) }.
(** What one call may do to a row: its origin stays; an anonymized row stays so, with all that anonymization wrote. *)
Definition advances (c c' : contact) : Prop :=
  c_origin c' = c_origin c /\
  (c_lifecycleState c = LC_Anonymized -> c_lifecycleState c' = LC_Anonymized /\ c_personal c' = c_personal c /\
     c_anonymizedAt c' = c_anonymizedAt c /\ c_anonymizationReason c' = c_anonymizationReason c) /\
  (c_lifecycleState c' = LC_Anonymized -> c_lifecycleState c <> LC_Anonymized -> c_personal c' = no_personal /\ is_Some (c_anonymizedAt c')).
Lemma advances_refl c : advances c c.
Proof. by repeat split. Qed.
Lemma advances_trans a b c : advances a b -> advances b c -> advances a c.
Proof.
  intros (O1 & K1 & N1) (O2 & K2 & N2). split; [congruence|]. split.
  - intros Ha. destruct (K1 Ha) as (Hb & P & A & R). destruct (K2 Hb) as (Hc & P' & A' & R').
    rewrite <- P, <- A, <- R. auto.
  - intros Hc Ha. destruct (decide (c_lifecycleState b = LC_Anonymized)) as [Hb|Hb]; [|by apply N2].
    destruct (K2 Hb) as (_ & -> & -> & _). by apply N1.
Qed.
Lemma tombstone_step c c' : tombstone c -> advances c c' -> tombstone c'.
Proof.
  intros Ht (_ & K & N) Hc'. destruct (decide (c_lifecycleState c = LC_Anonymized)) as [Hc|Hc]; [|by apply N].
  destruct (K Hc) as (_ & -> & -> & _). by apply Ht.
Qed.
Abbreviation grows := (evolves advances tombstone).

Lemma find_contact_unique t i c s x : NoDup (map c_id (contacts s)) -> find_contact t i s = Some c -> In x (contacts s) -> has_id t i x = true -> x = c.
Proof.
  intros Hn Hf Hx Hi. apply List.find_some in Hf as [Hc Hi']. unfold has_id in *. apply andb_true_iff in Hi as [_ Hi%String.eqb_eq].
  apply andb_true_iff in Hi' as [_ Hi'%String.eqb_eq]. apply (NoDup_key_inj c_id (contacts s)); [done..|congruence].
Qed.
Lemma update_grows p f l : (forall c, In c l -> p c = true -> advances c (f c)) -> grows l (update_where p f l).
Proof.
  intros H. apply evolves_map. intros c Hc. destruct (p c) eqn:Hp; [by apply H|apply advances_refl].
Qed.
Lemma advances_status to now c : advances c (with_status to now c).
Proof. by repeat split. Qed.
Lemma advances_assignee who now c : advances c (with_assignee who now c).
Proof. by repeat split. Qed.
Lemma advances_anonymized reason now c : c_lifecycleState c <> LC_Anonymized -> advances c (anonymized reason now c).
Proof. intros Hc. by repeat split. Qed.
Lemma advances_lifecycle to now c : to <> LC_Anonymized -> canTransitionContactLifecycle (c_lifecycleState c) to = true -> c_lifecycleState c <> to ->
  advances c (with_lifecycle to now c).
Proof.
  intros Hto Hcan Hne. split; [done|]. split; [|done]. intros Hc. rewrite Hc in *. by destruct to.
Qed.

Lemma create_spec c s : let r := create_contact c s in
  (r.1 = true /\ contacts r.2 = contacts s ++ [c] /\ (forall x, In x (contacts s) -> conflicts c x = false)) \/
  (r.1 = false /\ r.2 = s /\ exists x, In x (contacts s) /\ conflicts c x = true).
Proof.
  cbn zeta. unfold create_contact. destruct (existsb _ _) eqn:H; [right|left].
  - apply existsb_exists in H. done.
  - split; [done|]. split; [done|]. by apply existsb_false.
Qed.
(** The contacts after each call. *)
Lemma exec_grows o s : wf s -> grows (contacts s) (contacts (exec o s)).
Proof.
  intros [Hids _ _]. pose proof (evolves_refl advances tombstone advances_refl (contacts s)) as Hrefl. destruct o; cbn [exec].
  - unfold upsertBusinessConnection. by destruct (List.find _ _).
  - done.
  - unfold setBusinessContactStatus. destruct (find_contact t i s) as [c|]; [|done]. destruct (_ =e to); [done|]. destruct (canTransitionContactStatus _ _); [|done].
    apply update_grows. intros. apply advances_status.
  - unfold assignBusinessContact. destruct (_ && _); [done|]. destruct (existsb _ _); [|done]. apply update_grows. intros. apply advances_assignee.
  - unfold ingestBusinessContact. destruct (create_contact _ s) as [b s1] eqn:Hc. pose proof (create_spec (new_contact t newId (input_key sha256_hex i) i now) s) as Hs.
    rewrite Hc in Hs. cbn in Hs |- *. destruct Hs as [(_ & -> & _)|(_ & -> & _)]; [|done]. apply evolves_grow; [exact advances_refl|]. by repeat constructor.
  - done.
  - unfold addBusinessContactNote. destruct (negb _); [done|]. destruct (validateContactNoteBody raw); try done. by destruct (is_none _).
  - unfold bulkSetBusinessContactStatus. destruct (Nat.eqb _ _); [done|]. apply update_grows. intros. apply advances_status.
  - unfold bulkAssignBusinessContacts. destruct (Nat.eqb _ _); [done|]. destruct (_ && _); [done|]. destruct (Nat.eqb _ _); [done|].
    apply update_grows. intros. apply advances_assignee.
  - unfold setBusinessContactLifecycle. destruct (to =e _) eqn:Hto; [done|]. destruct (find_contact t i s) as [c|] eqn:Hf; [|done].
    destruct (_ =e to) eqn:Hne; [done|]. destruct (canTransitionContactLifecycle _ _) eqn:Hcan; [|done]. apply update_grows. intros x Hx Hp.
    rewrite (find_contact_unique t i c s x Hids Hf Hx Hp). apply advances_lifecycle; [|done|]; intros E; rewrite E, enum_eqb_refl in *; done.
  - unfold anonymizeBusinessContact. destruct (find_contact t i s) as [c|] eqn:Hf; [|done]. destruct (_ =e _) eqn:Ha; [done|]. apply update_grows.
    intros x Hx Hp. rewrite (find_contact_unique t i c s x Hids Hf Hx Hp). apply advances_anonymized. intros E. by rewrite E, enum_eqb_refl in Ha.
Qed.
Lemma exec_origins o s : map c_origin (contacts (exec o s)) = map c_origin (contacts s) \/
  exists c, contacts (exec o s) = contacts s ++ [c] /\ forall x, In x (contacts s) -> conflicts c x = false.
Proof.
  assert (Hupd : forall p f, (forall c, c_origin (f c) = c_origin c) -> map c_origin (update_where p f (contacts s)) = map c_origin (contacts s)) by (intros; by apply update_where_keys).
  destruct o; cbn [exec]; try (left; done).
  - left. unfold upsertBusinessConnection. by destruct (List.find _ _).
  - left. unfold setBusinessContactStatus. destruct (find_contact t i s); [|done]. destruct (_ =e to); [done|]. destruct (canTransitionContactStatus _ _); [|done]. by apply Hupd.
  - left. unfold assignBusinessContact. destruct (_ && _); [done|]. destruct (existsb _ _); [|done]. by apply Hupd.
  - unfold ingestBusinessContact. destruct (create_contact _ s) as [b s1] eqn:Hc. pose proof (create_spec (new_contact t newId (input_key sha256_hex i) i now) s) as Hs.
    rewrite Hc in Hs. cbn in Hs |- *. destruct Hs as [(_ & -> & Hno)|(_ & -> & _)]; [right|by left]. by eexists.
  - left. unfold addBusinessContactNote. destruct (negb _); [done|]. destruct (validateContactNoteBody raw); try done. by destruct (is_none _).
  - left. unfold bulkSetBusinessContactStatus. destruct (Nat.eqb _ _); [done|]. by apply Hupd.
  - left. unfold bulkAssignBusinessContacts. destruct (Nat.eqb _ _); [done|]. destruct (_ && _); [done|]. destruct (Nat.eqb _ _); [done|]. by apply Hupd.
  - left. unfold setBusinessContactLifecycle. destruct (to =e _); [done|]. destruct (find_contact t i s); [|done]. destruct (_ =e to); [done|].
    destruct (canTransitionContactLifecycle _ _); [|done]. by apply Hupd.
  - left. unfold anonymizeBusinessContact. destruct (find_contact t i s); [|done]. destruct (_ =e _); [done|]. by apply Hupd.
Qed.
Lemma NoDup_snoc {A} (l : list A) x : NoDup l -> x ∉ l -> NoDup (l ++ [x]).
Proof. intros Hl Hx. apply NoDup_app. split; [done|]. split; [set_solver|apply NoDup_singleton]. Qed.
Lemma exec_wf o s : wf s -> wf (exec o s).
Proof.
  intros Hwf. pose proof (exec_grows o s Hwf) as Hg. destruct Hwf as [Hi Hk Ht]. destruct Hg as (kept & new & Hl & Hkept & Hnew).
  assert (Htomb : Forall tombstone (contacts (exec o s))).
  { rewrite Hl. apply Forall_app. split; [|done]. by apply (Forall_step advances tombstone tombstone_step _ _ Ht). }
  destruct (exec_origins o s) as [Ho|(c & Hc & Hno)].
  - split; [| |done].
    + replace (map c_id _) with (map o_id (map c_origin (contacts (exec o s)))) by by rewrite map_map. by rewrite Ho, map_map.
    + replace (map _ _) with (map (fun r => (o_tenant r, o_dedupeKey r)) (map c_origin (contacts (exec o s)))) by by rewrite map_map. by rewrite Ho, map_map.
  - split; [| |done]; rewrite Hc, map_app; apply NoDup_snoc; try done.
    + intros (x & Hx & Hin%list_elem_of_In)%list_elem_of_fmap. apply Hno in Hin. unfold conflicts in Hin. by rewrite Hx, String.eqb_refl, orb_true_r in Hin.
    + intros (x & Hx & Hin%list_elem_of_In)%list_elem_of_fmap. apply Hno in Hin. injection Hx as Hx1 Hx2. unfold conflicts, has_key in Hin.
      by rewrite Hx1, Hx2, !String.eqb_refl in Hin.
Qed.
Lemma empty_wf : wf empty.
Proof. by split; constructor. Qed.
Lemma run_wf os s : wf s -> wf (run os s).
Proof. revert s. induction os as [|o os IH]; intros s H; [done|]. apply IH. by apply exec_wf. Qed.
Lemma run_grows os s : wf s -> grows (contacts s) (contacts (run os s)).
Proof.
  revert s. induction os as [|o os IH]; intros s H; [apply evolves_refl, advances_refl|].
  eapply (evolves_trans advances tombstone advances_trans tombstone_step); [by apply exec_grows|]. by apply IH, exec_wf.
Qed.
(** A row keeps its place in the table. *)
Lemma run_find os s t i c : wf s -> find_contact t i s = Some c -> exists c', find_contact t i (run os s) = Some c' /\ advances c c'.
Proof.
  intros Hwf Hf. destruct (run_grows os s Hwf) as (kept & new & Hl & Hk & _).
  unfold find_contact in *. rewrite Hl. clear Hl. induction Hk as [|x y l l' (Ho & Hrest) _ IH]; [done|]. cbn [app List.find] in *.
  assert (Hsame : has_id t i y = has_id t i x) by (unfold has_id, c_tenant, c_id; by rewrite Ho). rewrite Hsame. destruct (has_id t i x); [|by apply IH].
  injection Hf as ->. by exists y.
Qed.
Lemma find_by_key os s t key c : wf s -> In c (contacts (run os s)) -> has_key t key c = true -> List.find (has_key t key) (contacts (run os s)) = Some c.
Proof.
  intros Hwf Hc Hk. destruct (run_wf os s Hwf) as [_ Hkeys _]. destruct (List.find _ _) as [d|] eqn:Hd.
  - apply List.find_some in Hd as [Hd Hkd]. f_equal. unfold has_key in *. apply andb_true_iff in Hk as [H1%String.eqb_eq H2%String.eqb_eq].
    apply andb_true_iff in Hkd as [H3%String.eqb_eq H4%String.eqb_eq].
    apply (NoDup_map_inj_in _ _ _ _ Hkeys Hd Hc). congruence.
  - by rewrite (List.find_none _ _ Hd c Hc) in Hk.
Qed.

(** Notes are only appended and redacted. *)
Definition note_kept (n n' : note) : Prop :=
  n_id n' = n_id n /\ n_tenant n' = n_tenant n /\ n_contactId n' = n_contactId n /\ n_authorUserId n' = n_authorUserId n /\ n_createdAt n' = n_createdAt n /\
  (n_body n' = n_body n \/ n_body n' = None).
Definition any_note (n : note) : Prop := True.
Lemma note_kept_refl n : note_kept n n.
Proof. by repeat split; [..|left]. Qed.
Lemma note_kept_trans a b c : note_kept a b -> note_kept b c -> note_kept a c.
Proof. unfold note_kept. intros (-> & -> & -> & -> & -> & H) (-> & -> & -> & -> & -> & G). repeat split. destruct G as [-> | ->]; [done|by right]. Qed.
Abbreviation notes_grow := (evolves note_kept any_note).
Lemma exec_notes o s : notes_grow (notes s) (notes (exec o s)).
Proof.
  pose proof (evolves_refl note_kept any_note note_kept_refl (notes s)) as Hrefl. destruct o; cbn [exec]; try done.
  - unfold upsertBusinessConnection. by destruct (List.find _ _).
  - unfold setBusinessContactStatus. destruct (find_contact t i s); [|done]. destruct (_ =e to); [done|]. by destruct (canTransitionContactStatus _ _).
  - unfold assignBusinessContact. destruct (_ && _); [done|]. by destruct (existsb _ _).
  - unfold ingestBusinessContact, create_contact. by destruct (existsb _ _).
  - unfold addBusinessContactNote. destruct (negb _); [done|]. destruct (validateContactNoteBody raw); try done. destruct (is_none _); [done|].
    apply evolves_grow; [exact note_kept_refl|by repeat constructor].
  - unfold bulkSetBusinessContactStatus. by destruct (Nat.eqb _ _).
  - unfold bulkAssignBusinessContacts. destruct (Nat.eqb _ _); [done|]. destruct (_ && _); [done|]. by destruct (Nat.eqb _ _).
  - unfold setBusinessContactLifecycle. destruct (to =e _); [done|]. destruct (find_contact t i s); [|done]. destruct (_ =e to); [done|].
    by destruct (canTransitionContactLifecycle _ _).
  - unfold anonymizeBusinessContact. destruct (find_contact t i s); [|done]. destruct (_ =e _); [done|]. apply evolves_map. intros n _.
    destruct (has_body t i n); [|apply note_kept_refl]. by repeat split; [..|right].
Qed.
Lemma run_notes os s : notes_grow (notes s) (notes (run os s)).
Proof.
  revert s. induction os as [|o os IH]; intros s; [apply evolves_refl, note_kept_refl|].
  eapply (evolves_trans note_kept any_note note_kept_trans (fun _ _ _ _ => I)); [apply exec_notes|apply IH].
Qed.

(** * Anonymization *)

Lemma anonymize_notes t i reason now s n : In n (notes s) -> note_of t i n = true -> forall c, find_contact t i s = Some c -> c_lifecycleState c <> LC_Anonymized ->
  exists n', In n' (notes (exec (OAnonymize t i reason now) s)) /\ n_id n' = n_id n /\ n_body n' = None.
Proof.
  intros Hn Ho c Hf Hc. cbn [exec]. unfold anonymizeBusinessContact. rewrite Hf. destruct (_ =e _) eqn:E; [by apply enum_eqb_eq in E|].
  cbn [snd set_contacts set_notes notes]. exists (if has_body t i n then redacted now n else n). split; [apply in_map_iff; by exists n|].
  destruct (has_body t i n) eqn:Hb; [done|]. split; [done|]. unfold has_body in Hb. rewrite Ho in Hb. by destruct (n_body n).
Qed.
Lemma run_note os s n : In n (notes s) -> n_body n = None -> exists n', In n' (notes (run os s)) /\ n_id n' = n_id n /\ n_body n' = None.
Proof.
  intros Hn Hb. destruct (run_notes os s) as (kept & new & Hl & Hk & _). rewrite Hl. apply list_elem_of_In in Hn.
  apply list_elem_of_lookup in Hn as [j Hj]. destruct (Forall2_lookup_l _ _ _ _ _ Hk Hj) as (n' & Hj' & Hid & _ & _ & _ & _ & Hbody).
  exists n'. split; [apply in_app_iff; left; apply list_elem_of_In; by eapply list_elem_of_lookup_2|]. split; [done|]. destruct Hbody; congruence.
Qed.
(** C30 — Anonymization is final: once a contact is anonymized, then after any further calls of any tenant its row still exists, anonymized at the same time
    for the same reason, without name, address, phone, company, message, consent reference or lead id; no row of its tenant has its dedupe key but itself;
    and every note it had at that moment is without text. *)
Theorem anonymization_final (os os' : list op) (t i : string) (reason : option ContactAnonymizationReason) (now : Z) (c : contact) :
  find_contact t i (run os empty) = Some c -> c_lifecycleState c <> LC_Anonymized ->
  let s' := run (os ++ OAnonymize t i reason now :: os') empty in
  exists c', find_contact t i s' = Some c' /\ c_origin c' = c_origin c /\ c_lifecycleState c' = LC_Anonymized /\ c_personal c' = no_personal /\
    c_anonymizedAt c' = Some now /\ c_anonymizationReason c' = reason /\
    (forall d, In d (contacts s') -> has_key t (c_dedupeKey c) d = true -> d = c') /\
    (forall n, In n (notes (run os empty)) -> note_of t i n = true -> exists n', In n' (notes s') /\ n_id n' = n_id n /\ n_body n' = None).
Proof.
  intros Hf Hlive s'. unfold s'. rewrite run_app, run_cons. set (s := run os empty) in *. set (o := OAnonymize t i reason now).
  assert (Hwf : wf s) by apply run_wf, empty_wf. assert (Hwf1 : wf (exec o s)) by by apply exec_wf.
  assert (Hf1 : find_contact t i (exec o s) = Some (anonymized reason now c)).
  { cbn [exec o]. unfold anonymizeBusinessContact. rewrite Hf. destruct (_ =e _) eqn:E; [by apply enum_eqb_eq in E|].
    unfold find_contact in *. cbn [snd set_contacts set_notes contacts]. by rewrite find_key_update, Hf. }
  destruct (run_find os' _ t i _ Hwf1 Hf1) as (c' & Hf' & Ho & Hk & _). destruct (Hk eq_refl) as (Hl & Hp & Ha & Hr). exists c'.
  split; [done|]. split; [done|]. split; [done|]. split; [done|]. split; [done|]. split; [done|]. split.
  - intros d Hd Hdk. pose proof (find_by_key os' _ t _ d Hwf1 Hd Hdk) as H1. apply List.find_some in Hf' as [Hc' Hid]. unfold has_id in Hid.
    apply andb_true_iff in Hid as [Hid _]. assert (Hck : has_key t (c_dedupeKey c) c' = true).
    { unfold has_key, c_dedupeKey in *. rewrite Hid, Ho. by rewrite String.eqb_refl. }
    pose proof (find_by_key os' _ t _ c' Hwf1 Hc' Hck) as H2. congruence.
  - intros n Hn Hno. destruct (anonymize_notes t i reason now s n Hn Hno c Hf Hlive) as (n1 & Hn1 & Hi1 & Hb1).
    destruct (run_note os' _ n1 Hn1 Hb1) as (n2 & Hn2 & Hi2 & Hb2). exists n2. split; [done|]. split; [congruence|done].
Qed.
(** A note written on a tombstone is stored, and no anonymization ever removes its text; the tombstone also takes an assignee again. *)
Theorem tombstone_takes_notes (s : store) (t i author body newId : string) (now later' : Z) (reason : option ContactAnonymizationReason) (c : contact) :
  find_contact t i s = Some c -> c_lifecycleState c = LC_Anonymized -> trim i = i -> i <> "" -> validateContactNoteBody (Some body) = NoteOk body ->
  canAddNote (contactActionAvailability LC_Anonymized) = false /\
  exists n, In n (notes (exec (OAnonymize t i reason later') (exec (ONote t i author (Some body) newId now) s))) /\ n_body n = Some body /\ note_of t i n = true.
Proof.
  intros Hf Hc Ht Hi Hb. split; [done|]. cbn [exec]. unfold addBusinessContactNote. rewrite Ht. assert (Hne : nonempty i = true) by (unfold nonempty; by destruct (String.eqb_spec i "")).
  rewrite Hne, Hb. cbn [negb]. rewrite Hf. cbn [is_none is_some negb]. cbn [snd]. unfold anonymizeBusinessContact. unfold find_contact in *. cbn [set_notes contacts]. rewrite Hf, Hc, enum_eqb_refl.
  cbn [snd set_notes notes]. eexists. split; [apply in_app_iff; right; by left|]. split; [done|]. unfold note_of. cbn. by rewrite !String.eqb_refl.
Qed.
Theorem tombstone_takes_assignee (s : store) (t i who : string) (now : Z) (c : contact) :
  find_contact t i s = Some c -> c_lifecycleState c = LC_Anonymized -> is_member t who s = true ->
  canAssign (contactActionAvailability LC_Anonymized) = false /\
  exists c', find_contact t i (exec (OAssign t i (Some who) now) s) = Some c' /\ c_lifecycleState c' = LC_Anonymized /\ c_assignedUserId c' = Some who.
Proof.
  intros Hf Hc Hm. split; [done|]. cbn [exec]. unfold assignBusinessContact. cbn [nullish]. rewrite Hm, andb_false_r. unfold find_contact in *.
  assert (Hex : existsb (has_id t i) (contacts s) = true) by (apply existsb_exists; exists c; by apply List.find_some). rewrite Hex.
  cbn [snd set_contacts contacts]. rewrite find_key_update, Hf by done. by exists (with_assignee (Some who) now c).
Qed.

(** * Ingestion *)

Lemma ingest_contacts t i meta newId now s : let r := ingestBusinessContact sha256_hex t i meta newId now s in
  contacts r.2 = contacts (create_contact (new_contact t newId (input_key sha256_hex i) i now) s).2 /\
  io_duplicate r.1 = negb (create_contact (new_contact t newId (input_key sha256_hex i) i now) s).1 /\
  io_contactId r.1 = option_map c_id (List.find (has_key t (input_key sha256_hex i)) (contacts r.2)) /\
  io_result r.1 = if io_duplicate r.1 then IR_Duplicate else IR_Accepted.
Proof. cbn zeta. unfold ingestBusinessContact. destruct (create_contact _ s) as [b s1]. cbn. by destruct b. Qed.
Lemma find_key_mono os s t key c : wf s -> List.find (has_key t key) (contacts s) = Some c ->
  exists c', List.find (has_key t key) (contacts (run os s)) = Some c' /\ c_id c' = c_id c.
Proof.
  intros Hwf Hf. destruct (run_grows os s Hwf) as (kept & new & Hl & Hk & _). rewrite Hl. clear Hl.
  induction Hk as [|x y l l' (Ho & Hrest) _ IH]; [done|]. cbn [app List.find] in *.
  assert (Hsame : has_key t key y = has_key t key x) by (unfold has_key, c_tenant, c_dedupeKey; by rewrite Ho). rewrite Hsame.
  destruct (has_key t key x); [|by apply IH]. injection Hf as ->. exists y. split; [done|]. unfold c_id. by rewrite Ho.
Qed.
(** A replay never makes a second contact: after a lead was ingested, and whatever happened since (its anonymization included), ingesting a lead of the same key
    in the same tenant reports a duplicate of the contact of the first, changes no contact, and records one more event. *)
Theorem ingest_once (os os' : list op) (t : string) (i i' : BusinessContactInput) (meta meta' : IngestionMeta) (newId newId' : string) (now now' : Z) :
  input_key sha256_hex i' = input_key sha256_hex i -> (forall x, In x (contacts (run os empty)) -> c_id x <> newId) ->
  let first := ingestBusinessContact sha256_hex t i meta newId now (run os empty) in
  let s := run os' first.2 in
  let again := ingestBusinessContact sha256_hex t i' meta' newId' now' s in
  is_Some (io_contactId first.1) /\ io_result again.1 = IR_Duplicate /\ io_duplicate again.1 = true /\ io_contactId again.1 = io_contactId first.1 /\
  contacts again.2 = contacts s /\ length (events again.2) = S (length (events s)).
Proof.
  intros Hkey Hfresh first s again. assert (Hwf : wf (run os empty)) by apply run_wf, empty_wf. set (s0 := run os empty) in *.
  assert (Hfirst : first.2 = exec (OIngest t i meta newId now) s0) by done. assert (Hwf1 : wf first.2) by (rewrite Hfirst; by apply exec_wf).
  destruct (ingest_contacts t i meta newId now s0) as (Hc & _ & Hid & _). fold first in Hc, Hid.
  assert (Hex : exists c, List.find (has_key t (input_key sha256_hex i)) (contacts first.2) = Some c).
  { destruct (List.find _ (contacts first.2)) as [c|] eqn:Hnone; [by exists c|]. exfalso. rewrite Hc in Hnone.
    pose proof (create_spec (new_contact t newId (input_key sha256_hex i) i now) s0) as [(_ & Hl & _)|(_ & Hl & x & Hx & Hconf)]; rewrite Hl in Hnone.
    - pose proof (List.find_none _ _ Hnone (new_contact t newId (input_key sha256_hex i) i now)) as Hn. unfold has_key in Hn. cbn in Hn.
      rewrite !String.eqb_refl in Hn. by discriminate Hn; apply in_app_iff; right; left.
    - unfold conflicts in Hconf. cbn in Hconf. pose proof (List.find_none _ _ Hnone x Hx) as Hn. cbn in Hn. change (has_key t (input_key sha256_hex i) x || (c_id x =s newId) = true) in Hconf.
      rewrite Hn in Hconf. apply String.eqb_eq in Hconf. by apply (Hfresh x). }
  destruct Hex as (c & Hfind). destruct (find_key_mono os' _ t _ c Hwf1 Hfind) as (c' & Hfind' & Hcid). fold s in Hfind'.
  destruct (ingest_contacts t i' meta' newId' now' s) as (Hc2 & Hd2 & Hid2 & Hr2). fold again in Hc2, Hd2, Hid2, Hr2. rewrite Hkey in *.
  assert (Hskip : create_contact (new_contact t newId' (input_key sha256_hex i) i' now') s = (false, s)).
  { unfold create_contact. replace (existsb _ _) with true; [done|]. symmetry. apply existsb_exists. exists c'. apply List.find_some in Hfind' as [Hin Hk].
    split; [done|]. unfold conflicts. change (has_key t (input_key sha256_hex i) c' || (c_id c' =s newId') = true). by rewrite Hk. }
  rewrite Hskip in Hc2, Hd2. cbn [fst snd negb] in Hc2, Hd2. rewrite Hc2, Hfind' in Hid2. rewrite Hfind in Hid. cbn [option_map] in Hid, Hid2.
  split; [rewrite Hid; by eexists|]. split; [by rewrite Hr2, Hd2|]. split; [done|]. split; [congruence|]. split; [done|].
  unfold again, ingestBusinessContact. rewrite Hkey, Hskip. cbn. rewrite length_app. cbn. lia.
Qed.

(** * Tenants *)

(** What row security shows to a tenant. *)
Definition view (t : string) (s : store) : store := {|
  connections := List.filter (fun k => k_tenant k =s t) (connections s); contacts := List.filter (fun c => c_tenant c =s t) (contacts s);
  notes := List.filter (fun n => n_tenant n =s t) (notes s); audits := List.filter (fun a => a_tenant a =s t) (audits s);
  events := List.filter (fun e => e_tenant e =s t) (events s); members := List.filter (fun m => m_tenant m =s t) (members s) |}.
Lemma store_eq s s' : connections s = connections s' -> contacts s = contacts s' -> notes s = notes s' -> audits s = audits s' -> events s = events s' ->
  members s = members s' -> s = s'.
Proof. destruct s, s'. cbn. by intros -> -> -> -> -> ->. Qed.

Section Restrict.
Context {A : Type} (p q : A -> bool).
Hypothesis p_q : forall x, p x = true -> q x = true.
Lemma find_restrict l : List.find p (List.filter q l) = List.find p l.
Proof.
  induction l as [|x l IH]; [done|]. cbn [List.filter List.find]. destruct (p x) eqn:Hp; [rewrite (p_q x Hp); cbn; by rewrite Hp|].
  destruct (q x); cbn; by rewrite ?Hp.
Qed.
Lemma existsb_restrict l : existsb p (List.filter q l) = existsb p l.
Proof. induction l as [|x l IH]; [done|]. cbn [List.filter existsb]. destruct (p x) eqn:Hp; [rewrite (p_q x Hp); cbn; by rewrite Hp|]. destruct (q x); cbn; by rewrite ?Hp. Qed.
Lemma filter_restrict l : List.filter p (List.filter q l) = List.filter p l.
Proof. induction l as [|x l IH]; [done|]. cbn [List.filter]. destruct (p x) eqn:Hp; [rewrite (p_q x Hp); cbn; by rewrite Hp, IH|]. destruct (q x); cbn; by rewrite ?Hp. Qed.
Lemma count_restrict l : count p (List.filter q l) = count p l.
Proof. unfold count. by rewrite filter_restrict. Qed.
End Restrict.
Lemma filter_update {A} (q p : A -> bool) f l : (forall x, q (f x) = q x) -> List.filter q (update_where p f l) = update_where p f (List.filter q l).
Proof.
  intros Hq. induction l as [|x l IH]; [done|]. change (update_where p f (x :: l)) with ((if p x then f x else x) :: update_where p f l).
  cbn [List.filter]. replace (q (if p x then f x else x)) with (q x) by by destruct (p x). destruct (q x); rewrite IH; done.
Qed.
Lemma filter_update_other {A} (q p : A -> bool) f l : (forall x, q (f x) = q x) -> (forall x, p x = true -> q x = false) -> List.filter q (update_where p f l) = List.filter q l.
Proof.
  intros Hq Hp. rewrite filter_update by done. apply update_none. intros x Hx. apply filter_In in Hx as [_ Hx]. destruct (p x) eqn:E; [|done].
  by rewrite (Hp x E) in Hx.
Qed.
Lemma filter_other_none {A} (q : A -> bool) l new : (forall x, In x new -> q x = false) -> List.filter q (l ++ new) = List.filter q l.
Proof. intros H. rewrite List.filter_app, (proj2 (filter_nil_iff q new)) by done. apply app_nil_r. Qed.
Lemma has_id_tenant t i c : has_id t i c = true -> (c_tenant c =s t) = true.
Proof. unfold has_id. by intros [-> _]%andb_true_iff. Qed.
Lemma find_contact_view t i s : find_contact t i (view t s) = find_contact t i s.
Proof. apply find_restrict, has_id_tenant. Qed.
Lemma is_member_view t who s : is_member t who (view t s) = is_member t who s.
Proof. apply (existsb_restrict _ (fun m => m_tenant m =s t)). by intros x [-> _]%andb_true_iff. Qed.

(** Calls that only read and update one tenant's rows. *)
Definition other (t t' : string) : Prop := t' <> t.
Lemma eqb_other t t' x : x = t' -> t' <> t -> (x =s t) = false.
Proof. intros -> H. by apply String.eqb_neq. Qed.
Ltac other_rows := let x := fresh in let H := fresh in intros x H; guards_in H; unfold has_id, in_set, of_provider, has_body, note_of in *; guards_in H; destruct_and?; by eapply eqb_other.
Lemma exec_other o s t : tenant_of o <> t -> view t (exec o s) = view t s.
Proof.
  intros Ht. destruct o; cbn [tenant_of exec] in *.
  - unfold upsertBusinessConnection. destruct (List.find _ _) as [k|]; unfold view; cbn; f_equal; [apply filter_update_other; [done|other_rows]|].
    apply filter_other_none. intros x [<-|[]]. by eapply eqb_other.
  - unfold disconnectBusinessConnection, view; cbn; f_equal. apply filter_update_other; [done|other_rows].
  - unfold setBusinessContactStatus. destruct (find_contact t0 i s); [|done]. destruct (_ =e to); [done|]. destruct (canTransitionContactStatus _ _); [|done].
    unfold view; cbn; f_equal. apply filter_update_other; [done|other_rows].
  - unfold assignBusinessContact. destruct (_ && _); [done|]. destruct (existsb _ _); [|done]. unfold view; cbn; f_equal. apply filter_update_other; [done|other_rows].
  - unfold ingestBusinessContact, create_contact. destruct (existsb _ _); unfold view; cbn; f_equal; apply filter_other_none; intros x [<-|[]]; by eapply eqb_other.
  - unfold recordBusinessIngestionEvent, view; cbn; f_equal. apply filter_other_none. intros x [<-|[]]. by eapply eqb_other.
  - unfold addBusinessContactNote. destruct (negb _); [done|]. destruct (validateContactNoteBody raw); try done. destruct (is_none _); [done|].
    unfold view; cbn; f_equal. apply filter_other_none. intros x [<-|[]]. by eapply eqb_other.
  - unfold bulkSetBusinessContactStatus. destruct (Nat.eqb _ _); [done|]. unfold view, writeContactAudits; cbn; f_equal; [apply filter_update_other; [done|other_rows]|].
    apply filter_other_none. intros x (i & <- & _)%in_map_iff. by eapply eqb_other.
  - unfold bulkAssignBusinessContacts. destruct (Nat.eqb _ _); [done|]. destruct (_ && _); [done|]. destruct (Nat.eqb _ _); [done|].
    unfold view, writeContactAudits; cbn; f_equal; [apply filter_update_other; [done|other_rows]|].
    apply filter_other_none. intros x (i & <- & _)%in_map_iff. by eapply eqb_other.
  - unfold setBusinessContactLifecycle. destruct (to =e _); [done|]. destruct (find_contact t0 i s); [|done]. destruct (_ =e to); [done|].
    destruct (canTransitionContactLifecycle _ _); [|done]. unfold view; cbn; f_equal. apply filter_update_other; [done|other_rows].
  - unfold anonymizeBusinessContact. destruct (find_contact t0 i s); [|done]. destruct (_ =e _); [done|].
    unfold view; cbn; f_equal; (apply filter_update_other; [done|other_rows]).
Qed.
(** What the database mints for a call is new. *)
Definition fresh (o : op) (s : store) : Prop := match o with OIngest _ _ _ newId _ => forall c, In c (contacts s) -> c_id c <> newId | _ => True end.
Lemma filter_own_one {A} (q : A -> bool) l x : q x = true -> List.filter q (l ++ [x]) = List.filter q l ++ [x].
Proof. intros H. rewrite List.filter_app. cbn. by rewrite H. Qed.
Lemma filter_own {A} (q : A -> bool) l new : (forall x, In x new -> q x = true) -> List.filter q (l ++ new) = List.filter q l ++ new.
Proof. intros H. rewrite List.filter_app. f_equal. by apply filter_all. Qed.
Lemma verdict_view t to s i : bulk_verdict t to (view t s) i = bulk_verdict t to s i.
Proof. unfold bulk_verdict. by rewrite find_contact_view. Qed.
Lemma conflicts_view c s : (forall x, In x (contacts s) -> c_id x <> c_id c) -> existsb (conflicts c) (contacts (view (c_tenant c) s)) = existsb (conflicts c) (contacts s).
Proof.
  intros Hf. cbn. induction (contacts s) as [|x l IH]; [done|]. cbn [List.filter existsb].
  assert (Hx : conflicts c x = has_key (c_tenant c) (c_dedupeKey c) x).
  { unfold conflicts. destruct (String.eqb_spec (c_id x) (c_id c)) as [E|]; [|apply orb_false_r]. by destruct (Hf x (or_introl eq_refl)). }
  specialize (IH (fun y Hy => Hf y (or_intror Hy))). destruct (c_tenant x =s c_tenant c) eqn:Ht; cbn [existsb]; rewrite IH; [done|].
  rewrite Hx. unfold has_key. by rewrite Ht.
Qed.
Lemma exec_own o s t : tenant_of o = t -> fresh o s -> view t (exec o s) = exec o (view t s).
Proof.
  intros <- Hfresh. destruct o; cbn [tenant_of exec fresh] in *.
  - unfold upsertBusinessConnection. cbn [view connections]. rewrite find_restrict by (intros x; unfold of_provider; by intros [-> _]%andb_true_iff).
    destruct (List.find _ _) as [k|]; apply store_eq; try done; cbn; [by apply filter_update|]. apply filter_own_one. apply String.eqb_refl.
  - apply store_eq; try done. by apply filter_update.
  - unfold setBusinessContactStatus. rewrite find_contact_view. destruct (find_contact t i s); [|done]. destruct (_ =e to); [done|].
    destruct (canTransitionContactStatus _ _); [|done]. apply store_eq; try done. by apply filter_update.
  - unfold assignBusinessContact. rewrite is_member_view. cbn [view contacts]. rewrite existsb_restrict by apply has_id_tenant.
    destruct (_ && _); [done|]. destruct (existsb _ _); [|done]. apply store_eq; try done. by apply filter_update.
  - unfold ingestBusinessContact, create_contact. set (c := new_contact t newId (input_key sha256_hex i) i now).
    pose proof (conflicts_view c s) as Hv. change (c_tenant c) with t in Hv. rewrite Hv by done.
    assert (Hk : forall l, List.find (has_key t (input_key sha256_hex i)) (List.filter (fun c => c_tenant c =s t) l) = List.find (has_key t (input_key sha256_hex i)) l).
    { intros l. apply find_restrict. intros x. unfold has_key. by intros [-> _]%andb_true_iff. }
    destruct (existsb (conflicts c) (contacts s)); unfold recordBusinessIngestionEvent; apply store_eq; cbn [snd set_events set_contacts view contacts connections notes audits events members]; try done.
    + rewrite Hk. by apply filter_own_one, String.eqb_refl.
    + by apply filter_own_one, String.eqb_refl.
    + rewrite <- (Hk (contacts s ++ [c])), (filter_own_one (fun c => c_tenant c =s t)) by apply String.eqb_refl. by apply filter_own_one, String.eqb_refl.
  - apply store_eq; try done. by apply filter_own_one, String.eqb_refl.
  - unfold addBusinessContactNote. rewrite find_contact_view. destruct (negb _); [done|]. destruct (validateContactNoteBody raw); try done.
    destruct (is_none _); [done|]. apply store_eq; try done. by apply filter_own_one, String.eqb_refl.
  - unfold bulkSetBusinessContactStatus. rewrite (List.filter_ext _ _ (fun i => f_equal is_none (verdict_view t to s i))).
    erewrite (List.filter_ext (fun i => match find_contact t i (view t s) with Some _ => _ | None => _ end)) by (intros i; by rewrite find_contact_view).
    destruct (Nat.eqb _ _); [done|]. apply store_eq; try done; cbn; [by apply filter_update|]. apply filter_own. intros x (j & <- & _)%in_map_iff. apply String.eqb_refl.
  - unfold bulkAssignBusinessContacts. rewrite is_member_view. rewrite (List.filter_ext _ _ (fun i => f_equal is_some (find_contact_view t i s))).
    destruct (Nat.eqb _ _); [done|]. destruct (_ && _); [done|]. destruct (Nat.eqb _ _); [done|]. apply store_eq; try done; cbn; [by apply filter_update|].
    apply filter_own. intros x (j & <- & _)%in_map_iff. apply String.eqb_refl.
  - unfold setBusinessContactLifecycle. rewrite find_contact_view. destruct (to =e _); [done|]. destruct (find_contact t i s); [|done]. destruct (_ =e to); [done|].
    destruct (canTransitionContactLifecycle _ _); [|done]. apply store_eq; try done. by apply filter_update.
  - unfold anonymizeBusinessContact. rewrite find_contact_view. destruct (find_contact t i s); [|done]. destruct (_ =e _); [done|].
    apply store_eq; try done; by apply filter_update.
Qed.

(** * Bulk operations *)

(** What a status change does to a row. *)
Definition step_status (t : string) (to : BusinessContactStatus) (now : Z) (hit : contact -> bool) (c : contact) : contact :=
  if (c_tenant c =s t) && hit c && negb (c_status c =e to) && canTransitionContactStatus (c_status c) to then with_status to now c else c.
Lemma map_same {A} (f : A -> A) l : (forall x, In x l -> f x = x) -> l = map f l.
Proof. intros H. rewrite <- (map_id l) at 1. apply map_ext_in. intros x Hx. by rewrite H. Qed.
Lemma single_map t i to now s : NoDup (map c_id (contacts s)) ->
  contacts (exec (OStatus t i to now) s) = map (step_status t to now (fun c => c_id c =s i)) (contacts s).
Proof.
  intros Hn. cbn [exec]. unfold setBusinessContactStatus. destruct (find_contact t i s) as [c|] eqn:Hf.
  - assert (Hx : forall x, In x (contacts s) -> has_id t i x = true -> x = c) by (intros; by eapply find_contact_unique).
    destruct (c_status c =e to) eqn:He; [|destruct (canTransitionContactStatus _ _) eqn:Hcan].
    + apply map_same. intros x Hin. unfold step_status. fold (has_id t i x). destruct (has_id t i x) eqn:Hi; [|done].
      specialize (Hx x Hin Hi). subst x. by rewrite He.
    + apply map_ext_in. intros x Hin. unfold step_status. fold (has_id t i x). destruct (has_id t i x) eqn:Hi; [|done].
      specialize (Hx x Hin Hi). subst x. by rewrite He, Hcan.
    + apply map_same. intros x Hin. unfold step_status. fold (has_id t i x). destruct (has_id t i x) eqn:Hi; [|done].
      specialize (Hx x Hin Hi). subst x. by rewrite Hcan, andb_false_r.
  - apply map_same. intros x Hin. unfold step_status. fold (has_id t i x).
    pose proof (List.find_none _ _ Hf x Hin) as Hi. by rewrite Hi.
Qed.
Lemma step_step t to now h h' c : step_status t to now h' (step_status t to now h c) = step_status t to now (fun c => h c || h' c) c.
Proof.
  unfold step_status at 2. destruct ((c_tenant c =s t) && h c && negb (c_status c =e to) && canTransitionContactStatus (c_status c) to) eqn:Hb.
  - unfold step_status. cbn [with_status c_status]. rewrite enum_eqb_refl, andb_false_r. cbn [andb].
    rewrite !andb_true_iff in Hb. destruct Hb as (((-> & ->) & ->) & ->). done.
  - unfold step_status. do 2 (destruct (c_tenant c =s t), (h c), (h' c), (negb (c_status c =e to)), (canTransitionContactStatus (c_status c) to); try done).
Qed.
Lemma singles_map t to now ids s : wf s ->
  contacts (fold_left (fun s i => exec (OStatus t i to now) s) ids s) = map (step_status t to now (fun c => includes ids (c_id c))) (contacts s).
Proof.
  revert s. induction ids as [|i ids IH]; intros s Hwf; cbn [fold_left].
  - apply map_same. intros c _. unfold step_status. by rewrite andb_false_r.
  - rewrite IH by by apply exec_wf. rewrite single_map by apply Hwf. rewrite map_map. apply map_ext. intros c.
    rewrite step_step. unfold step_status, includes. cbn [existsb]. done.
Qed.
Lemma find_own t c s : wf s -> In c (contacts s) -> (c_tenant c =s t) = true -> find_contact t (c_id c) s = Some c.
Proof.
  intros Hwf Hc Ht. destruct (find_contact t (c_id c) s) as [d|] eqn:Hf.
  - assert (Hid : has_id t (c_id c) c = true) by (unfold has_id; by rewrite Ht, String.eqb_refl).
    by rewrite (find_contact_unique t (c_id c) d s c (wf_ids s Hwf) Hf Hc Hid).
  - pose proof (List.find_none _ _ Hf c Hc) as H. unfold has_id in H. by rewrite Ht, String.eqb_refl in H.
Qed.
Lemma includes_filter p ids i : includes (List.filter p ids) i = includes ids i && p i.
Proof.
  apply eq_true_iff_eq. rewrite andb_true_iff, !includes_In. apply filter_In.
Qed.
Definition still_to_write (t : string) (to : BusinessContactStatus) (s : store) (ids : list string) : list string :=
  List.filter (fun i => match find_contact t i s with Some c => negb (c_status c =e to) | None => true end)
    (List.filter (fun i => is_none (bulk_verdict t to s i)) ids).
Lemma bulk_map t ids to actor auditId now s : wf s -> (length ids <= 100)%nat ->
  contacts (exec (OBulkStatus t ids to actor auditId now) s) = map (step_status t to now (fun c => includes ids (c_id c))) (contacts s).
Proof.
  intros Hwf Hlen. cbn [exec]. unfold bulkSetBusinessContactStatus. rewrite take_ge by exact Hlen. fold (still_to_write t to s ids).
  assert (Hone : forall c, In c (contacts s) ->
    (if in_set t (still_to_write t to s ids) c then with_status to now c else c) = step_status t to now (fun c => includes ids (c_id c)) c).
  { intros c Hc. unfold in_set, step_status. destruct (c_tenant c =s t) eqn:Ht; [|done]. cbn [andb]. unfold still_to_write. rewrite !includes_filter.
    unfold bulk_verdict. rewrite (find_own t c s Hwf Hc Ht). destruct (includes ids (c_id c)); [|done]. cbn [andb].
    destruct (c_status c =e to); [done|]. by destruct (canTransitionContactStatus _ _). }
  destruct (Nat.eqb_spec (length (still_to_write t to s ids)) 0) as [Hz|_].
  - apply map_same. intros c Hc. rewrite <- Hone by done. apply nil_length_inv in Hz. rewrite Hz. unfold in_set. by rewrite andb_false_r.
  - apply map_ext_in. exact Hone.
Qed.
(** A bulk status change does what the same changes one by one would: over a selection of at most a hundred ids, the contacts afterwards are those of
    changing each selected contact in turn; an id counts as changed exactly when its own change would succeed, and fails for the reason it would fail; and a timeline entry is
    written for exactly the selected contacts whose status differed before. *)
Theorem bulk_status_is_singles (os : list op) (t : string) (ids : list string) (to : BusinessContactStatus) (actor : string) (auditId : string -> string) (now : Z) :
  (length ids <= 100)%nat ->
  let s := run os empty in
  let r := bulkSetBusinessContactStatus t ids to actor auditId now s in
  contacts r.2 = contacts (fold_left (fun s i => (setBusinessContactStatus t i to now s).2) ids s) /\
  (forall i, In i (bo_changed r.1) <-> In i ids /\ (setBusinessContactStatus t i to now s).1 = M_ok) /\
  (forall i why, In (i, why) (bo_failed r.1) <-> In i ids /\
     (setBusinessContactStatus t i to now s).1 = match why with BF_not_found => M_not_found | BF_invalid_transition => M_invalid_transition end) /\
  (length (bo_changed r.1) + length (bo_failed r.1) = length ids)%nat /\
  (exists new, audits r.2 = audits s ++ new /\ forall i, In (Some i) (map a_target new) <->
     In i ids /\ exists c, find_contact t i s = Some c /\ c_status c <> to /\ canTransitionContactStatus (c_status c) to = true).
Proof.
  intros Hlen s r. assert (Hwf : wf s) by apply run_wf, empty_wf.
  assert (Hv : forall i, (setBusinessContactStatus t i to now s).1 = match bulk_verdict t to s i with
    None => M_ok | Some BF_not_found => M_not_found | Some BF_invalid_transition => M_invalid_transition end).
  { intros i. unfold setBusinessContactStatus, bulk_verdict. destruct (find_contact t i s) as [c|]; [|done]. destruct (_ =e to); [done|].
    by destruct (canTransitionContactStatus _ _). }
  assert (Hout : r.1 = {| bo_changed := List.filter (fun i => is_none (bulk_verdict t to s i)) ids; bo_failed := failures (bulk_verdict t to s) ids |}).
  { unfold r, bulkSetBusinessContactStatus. rewrite take_ge by exact Hlen. by destruct (Nat.eqb _ _). }
  split; [|split; [|split; [|split]]].
  - change r.2 with (exec (OBulkStatus t ids to actor auditId now) s). by rewrite bulk_map, <- singles_map.
  - intros i. rewrite Hout. cbn [bo_changed]. rewrite filter_In, Hv. destruct (bulk_verdict t to s i) as [[]|]; naive_solver.
  - intros i why. rewrite Hout. cbn [bo_failed]. unfold failures. rewrite <- list_elem_of_In, list_elem_of_omap, Hv. split.
    + intros (j & Hj%list_elem_of_In & Hw). destruct (bulk_verdict t to s j) as [w|] eqn:E; [|done]. injection Hw as -> ->. rewrite E. by destruct why.
    + intros [Hi Hw]. exists i. rewrite list_elem_of_In. split; [done|]. by destruct (bulk_verdict t to s i) as [[]|], why.
  - rewrite Hout. cbn [bo_changed bo_failed]. clear. induction ids as [|i ids IH]; [done|]. unfold failures in *. cbn [List.filter omap list_omap].
    destruct (bulk_verdict t to s i); cbn; lia.
  - assert (Hmem : forall i, In i (still_to_write t to s ids) <-> In i ids /\ exists c, find_contact t i s = Some c /\ c_status c <> to /\ canTransitionContactStatus (c_status c) to = true).
    { intros i. unfold still_to_write. rewrite !filter_In. unfold bulk_verdict. destruct (find_contact t i s) as [c|].
      - split; [|intros (Hi & d & [= <-] & Hne & Hc)].
        + intros [[Hi Hn] Hw%negb_true_iff]. rewrite Hw in Hn. destruct (canTransitionContactStatus _ _) eqn:Hc; [|done]. split; [done|]. exists c.
          split; [done|]. split; [|done]. intros E. by rewrite E, enum_eqb_refl in Hw.
        + destruct (c_status c =e to) eqn:He; [by apply enum_eqb_eq in He|]. by rewrite Hc.
      - split; [by intros [[_ Hn] _]|by intros (_ & c & Hn & _)]. }
    unfold r, bulkSetBusinessContactStatus. rewrite take_ge by exact Hlen. fold (still_to_write t to s ids).
    destruct (Nat.eqb_spec (length (still_to_write t to s ids)) 0) as [Hz|_]; cbn [snd writeContactAudits set_audits set_contacts audits].
    + exists []. rewrite app_nil_r. split; [done|]. intros i. rewrite <- Hmem. apply nil_length_inv in Hz. rewrite Hz. done.
    + eexists. split; [done|]. intros i. rewrite map_map, <- Hmem, in_map_iff. cbn. naive_solver.
Qed.

(** * Lists *)

Context (ilike : string -> string -> bool) (base64url unbase64url : string -> string).
Abbreviation wanted := (matches ilike).
Lemma matches_tenant t f now c : wanted t f now c = true -> (c_tenant c =s t) = true.
Proof. unfold matches. rewrite !andb_true_iff. tauto. Qed.
Lemma latest_note_view t i s : latest_note t i (view t s) = latest_note t i s.
Proof. unfold latest_note. cbn [view notes]. rewrite filter_restrict; [done|]. intros n. unfold note_of. by intros [-> _]%andb_true_iff. Qed.
(** C34 — Tenants do not meet: a call changes no row of any other tenant; on the rows of its own tenant it has the effect it would have if no other rows
    existed; and the contact list, its counts, the export, the notes, the audit trail and a contact's detail are the same whatever other tenants store. *)
Theorem tenant_isolation (o : op) (s : store) (t : string) (f : BusinessContactFilters) (cur : option string) (now limit : Z) (i : string) :
  (tenant_of o <> t -> view t (exec o s) = view t s) /\
  (tenant_of o = t -> fresh o s -> view t (exec o s) = exec o (view t s)) /\
  listBusinessContacts ilike base64url unbase64url t f cur now (view t s) = listBusinessContacts ilike base64url unbase64url t f cur now s /\
  (businessContactCounts ilike t f now (view t s)).1 = (businessContactCounts ilike t f now s).1 /\
  exportBusinessContacts ilike t f limit now (view t s) = exportBusinessContacts ilike t f limit now s /\
  listBusinessContactNotes t i limit (view t s) = listBusinessContactNotes t i limit s /\
  listBusinessContactAuditTrail t i limit (view t s) = listBusinessContactAuditTrail t i limit s /\
  getBusinessContact t i (view t s) = getBusinessContact t i s.
Proof.
  split; [apply exec_other|]. split; [apply exec_own|].
  assert (Hrow : forall c, row_of t (view t s) c = row_of t s c) by (intros c; unfold row_of; by rewrite latest_note_view).
  assert (Hmem : forall w, member_email t w (view t s) = member_email t w s).
  { intros w. unfold member_email. cbn [view members]. rewrite (find_restrict _ (fun m => m_tenant m =s t)); [done|]. by intros m [-> _]%andb_true_iff. }
  split; [|split; [|split; [|split; [|split]]]].
  - unfold listBusinessContacts. cbn [view contacts]. destruct (decodeCursor unbase64url cur); [| |done];
      rewrite !(filter_restrict _ (fun c => c_tenant c =s t)) by (intros c [H _]%andb_true_iff; by apply matches_tenant in H); f_equal; f_equal; apply map_ext; exact Hrow.
  - unfold businessContactCounts. cbn [view contacts fst]. f_equal. apply map_ext. intros st. apply count_restrict.
    intros c [H _]%andb_true_iff. by apply matches_tenant in H.
  - unfold exportBusinessContacts. cbn [view contacts]. rewrite !(filter_restrict _ (fun c => c_tenant c =s t)) by (intros c; apply matches_tenant).
    f_equal. apply map_ext. intros c. unfold export_source. by rewrite latest_note_view, Hmem.
  - unfold listBusinessContactNotes. cbn [view notes]. rewrite filter_restrict; [done|]. intros n. unfold note_of. by intros [-> _]%andb_true_iff.
  - unfold listBusinessContactAuditTrail. cbn [view audits]. rewrite filter_restrict; [done|]. intros a. unfold audit_of. rewrite !andb_true_iff. tauto.
  - unfold getBusinessContact. by rewrite find_contact_view.
Qed.

End Runs.

Section Pages.
Context (ilike : string -> string -> bool) (base64url unbase64url : string -> string).
Abbreviation wanted := (matches ilike).
(** The whole list, and the walk through its pages. *)
Definition listing (t : string) (f : BusinessContactFilters) (now : Z) (s : store) : list contact := js_sort newest_first (List.filter (wanted t f now) (contacts s)).
Fixpoint walk (fuel : nat) (t : string) (f : BusinessContactFilters) (cur : option string) (now : Z) (s : store) : option (list (list BusinessContactRow)) :=
  match fuel with
  | O => None
  | S n => match listBusinessContacts ilike base64url unbase64url t f cur now s with
           | None => None
           | Some (page, None) => Some [page]
           | Some (page, Some k) => option_map (cons page) (walk n t f (Some k) now s)
           end
  end.

(** Cursors decode to what they encode. *)
Definition listable (c : contact) : bool := nonempty (c_id c) && str_forallb is_alnum (c_id c) && between (- MAX_TIME) MAX_TIME (c_receivedAt c).
Hypothesis codec : forall x, unbase64url (base64url x) = x /\ (x <> "" -> base64url x <> "").
Lemma span_all p s : str_forallb p s = true -> span p s = (s, "").
Proof. induction s as [|c s IH]; [done|]. cbn [str_forallb span]. intros [-> Hs]%andb_true_iff. by rewrite IH. Qed.
Lemma app_empty (s : string) : s +:+ "" = s.
Proof. induction s as [|c s IH]; [done|]. change (String c s +:+ "") with (String c (s +:+ "")). by rewrite IH. Qed.
Lemma decimal_digits s : str_forallb is_digit s = true -> s <> "" -> Outbox.number_of_digits s <= MAX_TIME -> decimal_literal s = Some (inject_Z (Outbox.number_of_digits s)).
Proof.
  intros Hd Hne Hb. unfold decimal_literal. rewrite (span_all _ _ Hd), app_empty. replace (nonempty s) with true by (unfold nonempty; by destruct (String.eqb_spec s "")).
  cbn [negb]. change (0 - str_len "") with 0. unfold scaled. cbn [Z.leb Z.compare Z.pow Z.pow_pos Pos.iter]. rewrite Z.mul_1_r.
  replace (Qle_bool _ _) with false; [done|]. symmetry. apply not_true_iff_false. intros H%Qle_bool_iff. unfold Qle, inject_Z in H. cbn [Qnum Qden] in H.
  rewrite !Z.mul_1_r in H. assert (MAX_TIME < 2 ^ 1024 - 2 ^ 970) by (vm_compute; reflexivity). lia.
Qed.
Lemma digit_not_ws s : str_forallb is_digit s = true -> str_forallb (fun c => negb (is_ws c)) s = true.
Proof. apply Notifications.str_forallb_impl. intros c. unfold is_digit, is_ws, between. intros H. apply negb_true_iff. destruct (_ || _) eqn:E; [|done]. lia. Qed.
Lemma digit_base x : is_digit x = true -> base_of x = None.
Proof.
  intros H. unfold base_of. assert (Hl : lower_ascii x = x) by (unfold lower_ascii; destruct (_ || _) eqn:U; [unfold is_digit, is_upper, between in *; lia|done]).
  rewrite Hl. destruct (Ascii.eqb_spec x "x") as [->|]; [done|]. destruct (Ascii.eqb_spec x "o") as [->|]; [done|]. by destruct (Ascii.eqb_spec x "b") as [->|].
Qed.
Lemma finite_int n : - MAX_TIME <= n <= MAX_TIME -> finite_number (Outbox.string_of_int n) = Some (inject_Z n).
Proof.
  intros Hn. assert (Hpos : forall m, 0 <= m <= MAX_TIME -> let d := Outbox.string_of_int m in str_forallb is_digit d = true /\ d <> "" /\ decimal_literal d = Some (inject_Z m)).
  { intros m Hm. cbn zeta. destruct (Outbox.string_of_int_digits m) as (Hd & Hnum & Hlen); [lia|]. split; [done|].
    assert (Hne : Outbox.string_of_int m <> "") by (intros E; rewrite E in Hlen; cbn in Hlen; symmetry in Hlen; apply DecimalFacts.nb_digits_0 in Hlen; by apply Outbox.to_uint_nonnil in Hlen).
    split; [done|]. rewrite decimal_digits; [by rewrite Hnum|done..|lia]. }
  destruct (Z.ltb_spec n 0) as [Hneg|Hnn].
  - assert (Hs : Outbox.string_of_int n = String "-" (Outbox.string_of_int (- n))).
    { unfold Outbox.string_of_int. replace (n <? 0) with true by lia. replace (- n <? 0) with false by lia. done. }
    destruct (Hpos (- n)) as (Hd & Hne & Hdec); [lia|]. rewrite Hs. unfold finite_number. rewrite Contacts.trim_no_ws by (cbn [str_forallb]; by rewrite (digit_not_ws _ Hd)).
    cbn [Ascii.eqb Bool.eqb]. rewrite Hdec. cbn. f_equal. unfold Qopp, inject_Z. cbn. f_equal. lia.
  - destruct (Hpos n) as (Hd & Hne & Hdec); [lia|]. unfold finite_number. rewrite Contacts.trim_no_ws by by apply digit_not_ws.
    destruct (Outbox.string_of_int n) as [|c r] eqn:E; [done|]. cbn [str_forallb] in Hd. apply andb_true_iff in Hd as [Hc Hr].
    destruct (Ascii.eqb_spec c "-") as [->|]; [done|]. destruct (Ascii.eqb_spec c "+") as [->|]; [done|].
    destruct r as [|x h]; [done|]. cbn [str_forallb] in Hr. apply andb_true_iff in Hr as [Hx _]. by rewrite (digit_base x Hx).
Qed.
Lemma decode_encode_cursor a i : nonempty i = true -> str_forallb is_alnum i = true -> - MAX_TIME <= a <= MAX_TIME ->
  decodeCursor unbase64url (Some (encodeCursor base64url a i)) = After a i.
Proof.
  intros Hi Ha Hb. unfold decodeCursor, encodeCursor, truthy. destruct (codec (Outbox.string_of_int a +:+ String ":" i)) as [Hdec Hne].
  assert (Hfree : char_free ":" (Outbox.string_of_int a) = true).
  { assert (Hdig : forall m, 0 <= m -> char_free ":" (Outbox.string_of_int m) = true).
    { intros m Hm. destruct (Outbox.string_of_int_digits m Hm) as (Hd & _). revert Hd. apply Notifications.str_forallb_impl. intros c Hc.
      destruct (Ascii.eqb_spec c ":") as [->|]; [by vm_compute in Hc|done]. }
    destruct (Z.ltb_spec a 0); [|by apply Hdig]. assert (Hs : Outbox.string_of_int a = String "-" (Outbox.string_of_int (- a))).
    { unfold Outbox.string_of_int. replace (a <? 0) with true by lia. replace (- a <? 0) with false by lia. done. }
    rewrite Hs. unfold char_free. cbn [str_forallb]. apply Hdig. lia. }
  assert (Hifree : char_free ":" i = true).
  { revert Ha. apply Notifications.str_forallb_impl. intros c Hc. destruct (Ascii.eqb_spec c ":") as [->|]; [by vm_compute in Hc|done]. }
  set (enc := base64url _) in *. assert (Hnz : enc <> "") by (apply Hne; by destruct (Outbox.string_of_int a)).
  replace (nonempty enc) with true by (unfold nonempty; by destruct (String.eqb_spec enc "")). cbn [negb nullish]. rewrite Hdec, Contacts.split_app, Contacts.split_free by done.
  rewrite (finite_int a Hb), Ha, Hi. cbn [andb].
  replace (Qle_bool (inject_Z a) _) with true by (symmetry; apply Qle_bool_iff; unfold Qle, inject_Z; cbn [Qnum Qden]; lia).
  replace (Qle_bool _ (inject_Z a)) with true by (symmetry; apply Qle_bool_iff; unfold Qle, inject_Z; cbn [Qnum Qden]; lia).
  cbn [andb]. unfold Contacts.trunc, inject_Z. cbn [Qnum Qden]. by rewrite Z.quot_1_r.
Qed.
Lemma rows_at_cursor t f now s x pre rest : NoDup (map c_id (contacts s)) -> listing t f now s = pre ++ x :: rest ->
  js_sort newest_first (List.filter (fun c => wanted t f now c && after_cursor (After (c_receivedAt x) (c_id x)) c) (contacts s)) = rest.
Proof.
  intros Hn Hl. rewrite <- (Keyset.rows_after c_receivedAt c_id (wanted t f now) (contacts s) pre x rest Hn Hl). f_equal. apply List.filter_ext.
  intros c. unfold Keyset.newer. cbn [after_cursor]. by rewrite (Z.eqb_sym (c_receivedAt x)).
Qed.
Lemma last_take {A} n (l : list A) : (n < length l)%nat -> exists p x, take (S n) l = p ++ [x] /\ l = p ++ x :: drop (S n) l /\ last (take (S n) l) = Some x.
Proof.
  intros Hn. destruct (lookup_lt_is_Some_2 l n Hn) as [x Hx]. exists (take n l), x. rewrite (take_S_r l n x Hx). split; [done|].
  split; [|apply last_snoc]. by rewrite <- (take_drop_middle l n x Hx) at 1.
Qed.
(** The number of pages a list of this length needs: one for each twenty rows begun, and one for none. *)
Definition pages_needed (n : nat) : nat := S (Nat.pred n / PAGE_SIZE).
Lemma pages_needed_more n : (PAGE_SIZE < n)%nat -> pages_needed n = S (pages_needed (n - PAGE_SIZE)).
Proof.
  intros H. unfold pages_needed, PAGE_SIZE in *. f_equal. replace (Nat.pred n) with (Nat.pred (n - 20) + 1 * 20)%nat by lia.
  rewrite Nat.div_add by lia. lia.
Qed.
Lemma pages_needed_one n : (n <= PAGE_SIZE)%nat -> pages_needed n = 1%nat.
Proof. intros H. unfold pages_needed. f_equal. apply Nat.div_small. unfold PAGE_SIZE in *. lia. Qed.
(** C33 — The pages make up the list: following the cursors from the first page ends, after exactly as many pages as the list needs (one for each twenty rows
    begun, a single empty one for none), and the pages joined are the contacts that match, newest first with ids breaking ties, each once; every page has at most
    twenty. The primary keys of the store are unique, the ids are non-empty and alphanumeric, as the database mints them, the times of receipt are times of the language, and the cursor's encoding decodes to
    what was encoded. *)
Theorem contact_pages_cover (t : string) (f : BusinessContactFilters) (now : Z) (s : store) (fuel : nat) :
  wf s -> (forall c, In c (contacts s) -> listable c = true) -> (pages_needed (length (listing t f now s)) <= fuel)%nat ->
  (exists pages, walk fuel t f None now s = Some pages /\ concat pages = map (row_of t s) (listing t f now s) /\
    length pages = pages_needed (length (listing t f now s))) /\
  (forall c, In c (listing t f now s) <-> In c (contacts s) /\ wanted t f now c = true) /\ NoDup (map c_id (listing t f now s)) /\
  StronglySorted (fun a b => newest_first a b <= 0) (listing t f now s) /\
  forall cur page next, listBusinessContacts ilike base64url unbase64url t f cur now s = Some (page, next) -> (length page <= 20)%nat.
Proof.
  intros [Hids _ _] Hlist Hfuel. split; [|split; [|split; [|split]]].
  - assert (Hgen : forall n cur pre rest, listing t f now s = pre ++ rest -> decodeCursor unbase64url cur <> InvalidDate ->
      js_sort newest_first (List.filter (fun c => wanted t f now c && after_cursor (decodeCursor unbase64url cur) c) (contacts s)) = rest ->
      (pages_needed (length rest) <= n)%nat ->
      exists pages, walk n t f cur now s = Some pages /\ concat pages = map (row_of t s) rest /\ length pages = pages_needed (length rest)).
    { induction n as [|n IH]; intros cur pre rest Hl Hcur Hrows Hn; [unfold pages_needed in Hn; lia|]. cbn [walk]. unfold listBusinessContacts.
      assert (Ht : take PAGE_SIZE (take (PAGE_SIZE + 1) rest) = take PAGE_SIZE rest) by (rewrite take_take; f_equal; done).
      assert (Hb : (PAGE_SIZE <? length (take (PAGE_SIZE + 1) rest))%nat = (PAGE_SIZE <? length rest)%nat).
      { rewrite length_take. unfold PAGE_SIZE. destruct (Nat.ltb_spec 20 (length rest)), (Nat.ltb_spec 20 ((20 + 1) `min` length rest)); lia || done. }
      destruct (decodeCursor unbase64url cur); [| |done]; rewrite Hrows; cbv zeta; rewrite Ht, Hb; clear Ht Hb.
      all: destruct (Nat.ltb_spec PAGE_SIZE (length rest)) as [Hlt|Hge];
        [|rewrite take_ge by done; eexists; split; [reflexivity|]; split; [apply app_nil_r|by rewrite pages_needed_one]].
      all: destruct (last_take 19 rest) as (p & x & Hp & Hrest & Hlast); [unfold PAGE_SIZE in *; lia|]; change (S 19) with PAGE_SIZE in *; rewrite Hlast; cbn [option_map].
      all: assert (Hx : In x (contacts s)) by (assert (Hin : In x (listing t f now s)) by (rewrite Hl, Hrest; apply in_app_iff; right; apply in_app_iff; right; by left);
        apply (Permutation_in _ (js_sort_perm _ _)), filter_In in Hin; tauto).
      all: pose proof (Hlist x Hx) as Hxl; unfold listable, between in Hxl; rewrite !andb_true_iff, !Z.leb_le in Hxl; destruct Hxl as ((Hxi & Hxa) & Hxb).
      all: destruct (IH (Some (encodeCursor base64url (c_receivedAt x) (c_id x))) (pre ++ p ++ [x]) (drop PAGE_SIZE rest)) as (pages & Hw & Hcat & Hlen).
      all: try (rewrite decode_encode_cursor by done; done).
      all: try (rewrite Hl, Hrest at 1; by rewrite <- !app_assoc).
      all: try (rewrite decode_encode_cursor by done; apply (rows_at_cursor t f now s x (pre ++ p)); [done|]; rewrite Hl, Hrest at 1; by rewrite <- app_assoc).
      all: try (rewrite length_drop; rewrite pages_needed_more in Hn by done; lia).
      all: rewrite Hw; eexists; split; [reflexivity|]; cbn [concat length]; rewrite Hcat, Hlen, length_drop, (pages_needed_more (length rest)) by done;
        split; [by rewrite <- map_app, take_drop|done]. }
    apply (Hgen _ None []); [done|done| |unfold PAGE_SIZE; lia]. unfold listing. f_equal. apply List.filter_ext. intros c. apply andb_true_r.
  - intros c. unfold listing. rewrite <- filter_In. split; intros H; [exact (Permutation_in _ (js_sort_perm newest_first _) H)|].
    exact (Permutation_in _ (Permutation_sym (js_sort_perm newest_first _)) H).
  - unfold listing. rewrite js_sort_perm. by apply NoDup_map_filter.
  - apply Keyset.js_sort_listing.
  - intros cur page next. unfold listBusinessContacts. destruct (decodeCursor _ _); [| |done]; intros [= <- _]; rewrite length_map, length_take; unfold PAGE_SIZE; lia.
Qed.

(** ** Counts, views and export *)

Definition of_status (st : BusinessContactStatus) (f : BusinessContactFilters) : BusinessContactFilters := {|
  f_status := Some st; f_sourcePlatform := f_sourcePlatform f; f_search := f_search f; f_lifecycle := f_lifecycle f; f_needsReview := f_needsReview f;
  f_reviewThresholdDays := f_reviewThresholdDays f |}.
Lemma length_listing t f now s : Z.of_nat (length (listing t f now s)) = count (wanted t f now) (contacts s).
Proof. unfold listing, count. by rewrite js_sort_perm. Qed.
Lemma count_by_status p l : fold_left Z.add (map (fun st => count (fun c => p c && (c_status c =e st)) l) ALL_BUSINESS_CONTACT_STATUSES) 0 = count p l.
Proof.
  cbn [map ALL_BUSINESS_CONTACT_STATUSES fold_left]. induction l as [|c l IH]; [done|]. rewrite !count_cons. destruct (p c); [|cbn [andb]; lia]. cbn [andb].
  assert (H : forall st, (c_status c =e st) = bool_decide (c_status c = st)) by (intros st; apply eq_true_iff_eq; by rewrite enum_eqb_eq, bool_decide_eq_true).
  rewrite !H. clear H. destruct (c_status c); repeat case_bool_decide; try done; lia.
Qed.
(** What is counted and exported is what is listed: each status count is the length of the list filtered by that status, the total is the length of the list
    without a status filter; and the export has the listed contacts in the same order, up to its limit, and says so exactly when some are left out. *)
Theorem counts_and_export_match_list (t : string) (f : BusinessContactFilters) (now limit : Z) (s : store) :
  let '(total, byStatus) := businessContactCounts ilike t f now s in
  total = Z.of_nat (length (listing t (no_status f) now s)) /\
  (forall st, byStatus st = Z.of_nat (length (listing t (of_status st f) now s))) /\
  let '(rows, limited) := exportBusinessContacts ilike t f limit now s in
  rows = map (export_source t s) (take (bounded_take limit CONTACT_EXPORT_MAX_ROWS) (listing t f now s)) /\
  Z.of_nat (length rows) <= CONTACT_EXPORT_MAX_ROWS /\ (limited = false <-> length rows = length (listing t f now s)).
Proof.
  unfold businessContactCounts. split; [by rewrite count_by_status, length_listing|]. split.
  - intros st. rewrite length_listing. unfold count. do 2 f_equal. apply List.filter_ext. intros c. unfold matches. cbn [f_status f_sourcePlatform f_search of_status no_status].
    change (reviewWhere (no_status f) now) with (reviewWhere f now). change (reviewWhere (of_status st f) now) with (reviewWhere f now).
    change (lifecycleWhere (no_status f) c) with (lifecycleWhere f c). change (lifecycleWhere (of_status st f) c) with (lifecycleWhere f c).
    generalize (match reviewWhere f now with Some review => review c | None => lifecycleWhere f c end). intros b.
    destruct (c_tenant c =s t), (c_status c =e st), b; cbn [andb]; rewrite ?andb_true_r, ?andb_false_r; done.
  - unfold exportBusinessContacts. fold (listing t f now s). set (n := bounded_take limit CONTACT_EXPORT_MAX_ROWS). set (l := listing t f now s).
    assert (Hn : 1 <= Z.of_nat n <= 10000) by (unfold n, bounded_take, CONTACT_EXPORT_MAX_ROWS; lia).
    assert (Hrows : (if (n <? length (take (n + 1) l))%nat then take n (take (n + 1) l) else take (n + 1) l) = take n l).
    { rewrite length_take. destruct (Nat.ltb_spec n ((n + 1) `min` length l)); [rewrite take_take; f_equal; lia|]. rewrite !take_ge by lia. done. }
    rewrite Hrows. split; [done|]. rewrite length_map, !length_take. split; [unfold CONTACT_EXPORT_MAX_ROWS; lia|]. rewrite Nat.ltb_ge. lia.
Qed.
(** Views keep lifecycles apart: without the review filter, the list and the export show a contact only in the lifecycle that was chosen, or only active
    ones when none was; with it, they show what is due for review by the domain rule, from both signals being older than the cutoff. *)
Theorem views_keep_lifecycles_apart (t : string) (f : BusinessContactFilters) (now : Z) (s : store) (c : contact) :
  In c (listing t f now s) ->
  c_tenant c = t /\
  (f_needsReview f = false -> c_lifecycleState c = f_lifecycle f ?? LC_Active) /\
  (f_needsReview f = true -> contactNeedsPrivacyReview (c_receivedAt c) (Some (c_updatedAt c)) (c_lifecycleState c)
                               (f_reviewThresholdDays f ?? Finite (inject_Z CONTACT_REVIEW_DEFAULT_DAYS)) now = true).
Proof.
  intros Hin. unfold listing in Hin. apply (Permutation_in _ (js_sort_perm _ _)), filter_In in Hin as [_ Hm]. unfold matches in Hm. rewrite !andb_true_iff in Hm.
  destruct Hm as ((((Ht%String.eqb_eq & _) & _) & Hl) & _). split; [done|]. unfold reviewWhere in Hl. destruct (f_needsReview f); cbn [negb] in Hl; (split; [try done|try done]).
  - intros _. rewrite !andb_true_iff in Hl. destruct Hl as [[Hna Hr] Hu]. apply negb_true_iff in Hna. unfold contactNeedsPrivacyReview. rewrite Hna.
    unfold contactReviewCutoff in *. apply Z.ltb_lt in Hr, Hu. apply Z.ltb_lt. destruct (c_receivedAt c <? c_updatedAt c); lia.
  - intros _. unfold lifecycleWhere in Hl. destruct (f_lifecycle f) as [l|]; [by apply enum_eqb_eq in Hl|]. by destruct (c_lifecycleState c).
Qed.
Definition with_view (l : option BusinessContactLifecycle) (f : BusinessContactFilters) : BusinessContactFilters := {|
  f_status := f_status f; f_sourcePlatform := f_sourcePlatform f; f_search := f_search f; f_lifecycle := l; f_needsReview := f_needsReview f;
  f_reviewThresholdDays := f_reviewThresholdDays f |}.
(** The review filter ignores the chosen lifecycle: spam and archived contacts appear in the default view and in its export, and choosing a lifecycle changes nothing. *)
Theorem review_filter_overrides_lifecycle (t : string) (f : BusinessContactFilters) (l l' : option BusinessContactLifecycle) (now : Z) (s : store) :
  f_needsReview f = true -> listing t (with_view l f) now s = listing t (with_view l' f) now s.
Proof.
  intros H. unfold listing. f_equal. apply List.filter_ext. intros c. unfold matches, reviewWhere. cbn [with_view f_needsReview f_status f_sourcePlatform f_search f_reviewThresholdDays].
  by rewrite H.
Qed.
End Pages.

(** A cursor with a number no date can hold makes the list fail, where any malformed cursor is meant to give the first page. *)
Theorem far_cursor_fails (ilike : string -> string -> bool) (base64url unbase64url : string -> string) (raw t : string) (f : BusinessContactFilters) (now : Z) (s : store) :
  raw <> "" -> unbase64url raw = "9e15:a" -> listBusinessContacts ilike base64url unbase64url t f (Some raw) now s = None.
Proof.
  intros Hr Hu. assert (Hc : decodeCursor unbase64url (Some raw) = InvalidDate).
  { unfold decodeCursor, truthy, nonempty. destruct (String.eqb_spec raw ""); [done|]. cbn [negb nullish]. rewrite Hu. vm_compute. reflexivity. }
  unfold listBusinessContacts. by rewrite Hc.
Qed.

(** * Witnesses *)

Definition id_hash (x : string) : string := x.
Definition lead (n : string) : BusinessContactInput := {|
  i_provider := BP_Meta; i_sourcePlatform := S_Facebook; i_connectionId := None; i_externalLeadId := Some n; i_contentFingerprint := None;
  i_fullName := Some " Ann "; i_email := Some "ann@x.test"; i_phone := None; i_company := None; i_messageSummary := None; i_campaignId := None;
  i_campaignName := None; i_adId := None; i_adName := None; i_formId := None; i_formName := None; i_receivedAt := 10; i_consentValue := None;
  i_consentReference := None; i_consentVersion := None |}.
Definition meta0 : IngestionMeta := {| im_providerEventId := None; im_payloadHash := "h"; im_signatureVerified := true |}.
Definition two_leads : list op := [OIngest "t" (lead "1") meta0 "c1" 20; OIngest "t" (lead "2") meta0 "c2" 21; ONote "t" "c1" "u" (Some "call") "n1" 22].
Definition ann : contact := new_contact "t" "c1" (input_key id_hash (lead "1")) (lead "1") 20.
Lemma anonymization_final_witness : exists c', find_contact "t" "c1" (run id_hash (two_leads ++ OAnonymize "t" "c1" None 30 :: [OIngest "t" (lead "1") meta0 "c9" 40]) empty) = Some c' /\
  c_personal c' = no_personal.
Proof.
  destruct (anonymization_final id_hash two_leads [OIngest "t" (lead "1") meta0 "c9" 40] "t" "c1" None 30 ann) as (c' & Hf & _ & _ & Hp & _).
  - vm_compute. reflexivity.
  - vm_compute. discriminate.
  - exists c'. split; [exact Hf|exact Hp].
Defined.
Lemma ingest_once_witness : io_result (ingestBusinessContact id_hash "t" (lead " 1") meta0 "c9" 50
    (run id_hash [OAnonymize "t" "c1" None 30] (ingestBusinessContact id_hash "t" (lead "1") meta0 "c1" 20 (run id_hash [] empty)).2)).1 = IR_Duplicate.
Proof.
  apply (ingest_once id_hash [] [OAnonymize "t" "c1" None 30] "t" (lead "1") (lead " 1") meta0 meta0 "c1" "c9" 20 50).
  - vm_compute. reflexivity.
  - intros x [].
Defined.
Lemma bulk_status_is_singles_witness :
  let s := run id_hash two_leads empty in
  let r := bulkSetBusinessContactStatus "t" ["c1"; "zz"; "c2"] CS_Handled "u" (fun i => i) 60 s in
  map c_status (contacts r.2) = [CS_Handled; CS_Handled] /\ In "c1" (bo_changed r.1).
Proof.
  intros s r. split; [vm_compute; reflexivity|].
  assert (Hl : (length ["c1"; "zz"; "c2"] <= 100)%nat) by (cbn; lia).
  destruct (bulk_status_is_singles id_hash two_leads "t" ["c1"; "zz"; "c2"] CS_Handled "u" (fun i => i) 60 Hl) as (_ & H & _).
  apply (proj2 (H "c1")). split; [left; reflexivity|vm_compute; reflexivity].
Defined.
Definition no_filter : BusinessContactFilters := {|
  f_status := None; f_sourcePlatform := None; f_search := None; f_lifecycle := None; f_needsReview := false; f_reviewThresholdDays := None |}.
Definition plain (x : string) : string := x.
Definition many_leads : list op := map (fun k => OIngest "t" (lead (Outbox.string_of_int (Z.of_nat k))) meta0 ("c" +:+ Outbox.string_of_int (Z.of_nat k)) 20) (seq 0 23).
Definition many_store : store := run id_hash many_leads empty.
Lemma contact_pages_cover_witness :
  exists pages, walk String.eqb plain plain 3 "t" no_filter None 100 many_store = Some pages /\ length pages = 2%nat /\
    concat pages = map (row_of "t" many_store) (listing String.eqb "t" no_filter 100 many_store).
Proof.
  assert (Hc : forall x, plain (plain x) = x /\ (x <> "" -> plain x <> "")) by (intros x; split; [reflexivity|trivial]).
  assert (Hl : forall c, In c (contacts many_store) -> listable c = true) by (apply forallb_forall; vm_compute; reflexivity).
  assert (Hf : (pages_needed (length (listing String.eqb "t" no_filter 100 many_store)) <= 3)%nat) by (vm_compute; repeat constructor).
  destruct (contact_pages_cover String.eqb plain plain Hc "t" no_filter 100 many_store 3 (run_wf id_hash many_leads empty empty_wf) Hl Hf) as ((pages & H & Hcat & Hlen) & _).
  exists pages. split; [exact H|]. split; [|exact Hcat]. rewrite Hlen. vm_compute. reflexivity.
Defined.
Lemma views_keep_lifecycles_apart_witness : In ann (listing String.eqb "t" no_filter 100 (run id_hash two_leads empty)) /\ c_lifecycleState ann = LC_Active.
Proof.
  assert (Hin : In ann (listing String.eqb "t" no_filter 100 (run id_hash two_leads empty))) by (vm_compute; right; left; reflexivity).
  split; [exact Hin|]. destruct (views_keep_lifecycles_apart String.eqb "t" no_filter 100 (run id_hash two_leads empty) ann Hin) as (_ & H & _).
  exact (H eq_refl).
Defined.

End ContactStore.
