(* ===== verification/ContactActions.v ===== *)
(** The server actions of the contacts pages ([apps/web/src/app/dashboard/contacts/actions.ts])
    over the contact store: their gate, the form fields they read, the repository call they
    make, the audit rows they write and where they redirect. *)
From S2P Require Import Prelude Keyset Outbox Workspace Notifications Access Contacts ContactStore.
Open Scope string_scope.
Open Scope list_scope.
Open Scope Z_scope.
Open Scope tam_scope.
Import Contacts ContactStore.

Module ContactActions.

(** * Requests *)

(** What the session, the guards and the form give an action: the capability verdict, the role,
    the identity, the origin check, the bulk limiter's verdict, the text fields, and the
    time and ids of the rows it writes. A missing field is [None]. *)
Record request := {
  rq_allowed : bool; rq_role : Access.Role; rq_tenant : string; rq_user : string; rq_sameOrigin : bool; rq_underLimit : bool;
  rq_get : string -> option string; rq_getAll : string -> list string; rq_now : Z; rq_newId : string; rq_rowAudit : string -> string }.
Inductive reply := Threw (error : string) | Redirect (url : string).
Definition CONTACTS : string := "/dashboard/contacts".
Definition to_list (code : string) : reply := Redirect (CONTACTS +:+ "?" +:+ code).
Definition to_contact (i code : string) : reply := Redirect (CONTACTS +:+ "/" +:+ i +:+ "?" +:+ code).
(* src: apps/web/src/app/dashboard/contacts/actions.ts:29-34 manageGate *)
Definition manageGate (q : request) : option string :=
  if negb (rq_allowed q) then Some "feature_locked"
  else if negb (Access.can (rq_role q) Access.BusinessContactsManage) then Some "permission_denied" else None.
Definition field (q : request) (name : string) : string := rq_get q name ?? "".
(* src: apps/web/src/app/dashboard/contacts/actions.ts:37-37 id *)
Definition contact_id (q : request) : string := trim (field q "contactId").
(** The rows of the ledger that an action writes itself. *)
(* src: apps/web/src/server/audit.ts:16-44 writeAudit *)
Definition writeAudit (q : request) (event targetType : string) (target to : option string) (assigned : bool) (counts : option (Z * Z)) (s : store) : store :=
  set_audits (audits s ++ [{| a_id := rq_newId q; a_tenant := rq_tenant q; a_targetType := targetType; a_target := target;
    a_record := {| ar_event := event; ar_createdAt := rq_now q; ar_actorUserId := Some (rq_user q); ar_to := to; ar_assigned := assigned |};
    a_counts := counts |}]) s.
Definition audit_contact (q : request) (event i : string) (to : option string) (assigned : bool) : store -> store :=
  writeAudit q event CONTACT_TARGET (Some i) to assigned None.

(** * Single contacts *)

(* src: apps/web/src/app/dashboard/contacts/actions.ts:39-50 changeContactStatusAction *)
Definition changeContactStatusAction (q : request) (s : store) : reply * store :=
  match manageGate q with
  | Some e => (Threw e, s)
  | None =>
      let i := contact_id q in
      match (if nonempty i then parse (field q "status") else None) with
      | None => (to_list "e=input", s)
      | Some to =>
          match setBusinessContactStatus (rq_tenant q) i to (rq_now q) s with
          | (M_ok, s1) => (to_contact i "saved=status", audit_contact q CONTACT_STATUS_AUDIT_EVENT i (Some (js_name to)) false s1)
          | (_, s1) => (to_contact i "e=transition", s1)
          end
      end
  end.
Definition assignee_of (q : request) : option string :=
  let raw := trim (field q "assigneeUserId") in if nonempty raw then Some raw else None.
(* src: apps/web/src/app/dashboard/contacts/actions.ts:53-65 assignContactAction *)
Definition assignContactAction (q : request) (s : store) : reply * store :=
  match manageGate q with
  | Some e => (Threw e, s)
  | None =>
      let i := contact_id q in
      let who := assignee_of q in
      if negb (nonempty i) then (to_list "e=input", s)
      else match assignBusinessContact (rq_tenant q) i who (rq_now q) s with
      | (M_ok, s1) => (to_contact i "saved=assign", audit_contact q CONTACT_ASSIGNMENT_AUDIT_EVENT i None (is_some who) s1)
      | (_, s1) => (to_contact i "e=assign", s1)
      end
  end.
(* src: apps/web/src/app/dashboard/contacts/actions.ts:79-94 addContactNoteAction *)
Definition addContactNoteAction (q : request) (s : store) : reply * store :=
  match manageGate q with
  | Some e => (Threw e, s)
  | None =>
      if negb (rq_sameOrigin q) then (to_list "e=csrf", s)
      else
        let i := contact_id q in
        if negb (nonempty i) then (to_list "e=input", s)
        else match addBusinessContactNote (rq_tenant q) i (rq_user q) (Some (field q "body")) (rq_newId q) (rq_now q) s with
        | (NR_ok _, s1) => (to_contact i "saved=note", audit_contact q CONTACT_NOTE_AUDIT_EVENT i None false s1)
        | (NR_too_long, s1) => (to_contact i "e=note_long", s1)
        | (NR_not_found, s1) => (to_contact i "e=not_found", s1)
        | (NR_invalid_input, s1) => (to_contact i "e=note_empty", s1)
        end
  end.
(* src: apps/web/src/app/dashboard/contacts/actions.ts:173-178 LIFECYCLE_EVENT *)
Definition LIFECYCLE_EVENT (from to : BusinessContactLifecycle) : option string :=
  match from, to with
  | LC_Active, LC_Archived => Some "business_contact.archived"
  | LC_Archived, LC_Active => Some "business_contact.unarchived"
  | LC_Active, LC_Spam => Some "business_contact.marked_spam"
  | LC_Spam, LC_Active => Some "business_contact.spam_restored"
  | _, _ => None
  end.
(* src: apps/web/src/app/dashboard/contacts/actions.ts:188-211 changeContactLifecycleAction *)
Definition changeContactLifecycleAction (q : request) (s : store) : reply * store :=
  match manageGate q with
  | Some e => (Threw e, s)
  | None =>
      if negb (rq_sameOrigin q) then (to_list "e=csrf", s)
      else
        let i := contact_id q in
        match (if nonempty i then parse (field q "lifecycle") else None) with
        | None | Some LC_Anonymized => (to_list "e=input", s)
        | Some to =>
            match setBusinessContactLifecycle (rq_tenant q) i to (rq_now q) s with
            | (LM_ok from, s1) =>
                (to_contact i ("saved=lifecycle_" +:+ js_name to),
                 match LIFECYCLE_EVENT from to with Some event => audit_contact q event i (Some (js_name to)) false s1 | None => s1 end)
            | (_, s1) => (to_contact i "e=lifecycle", s1)
            end
        end
  end.
(* src: apps/web/src/app/dashboard/contacts/actions.ts:227-254 anonymizeContactAction *)
Definition anonymizeContactAction (q : request) (s : store) : reply * store :=
  match manageGate q with
  | Some e => (Threw e, s)
  | None =>
      if negb (rq_sameOrigin q) then (to_list "e=csrf", s)
      else
        let i := contact_id q in
        if negb (nonempty i) then (to_list "e=input", s)
        else if negb (isAnonymizationConfirmed (rq_get q "confirm")) then (to_contact i "e=confirm", s)
        else match anonymizeBusinessContact (rq_tenant q) i (parse (field q "reason")) (rq_now q) s with
        | (AN_not_found, s1) => (to_list "e=not_found", s1)
        | (AN_ok _ _ _ already, s1) =>
            (to_contact i "saved=anonymized", if already then s1 else audit_contact q "business_contact.anonymized" i None false s1)
        end
  end.

(** * Bulk *)

(* src: apps/web/src/app/dashboard/contacts/actions.ts:102-104 readSelection *)
Definition readSelection (q : request) : BulkSelectionResult := normalizeBulkContactIds (Some (map Some (rq_getAll q "contactIds"))).
Definition bulk_done (kind : string) (n : Z * Z) : reply :=
  to_list ("bulk=" +:+ kind +:+ "&n=" +:+ Outbox.string_of_int n.1 +:+ "&f=" +:+ Outbox.string_of_int n.2).
Definition audit_bulk (q : request) (event : string) (to : option string) (assigned : bool) (n : Z * Z) : store -> store :=
  writeAudit q event "business_contact_bulk" None to assigned (Some n).
(** The gate, the origin, the limit and the selection, in this order; then the operation on the selected ids. *)
(* src: apps/web/src/app/dashboard/contacts/actions.ts:107-109 selectionErrorCode *)
Definition with_selection (q : request) (s : store) (go : list string -> reply * store) : reply * store :=
  match manageGate q with
  | Some e => (Threw e, s)
  | None =>
      if negb (rq_sameOrigin q) then (to_list "e=csrf", s)
      else if negb (rq_underLimit q) then (to_list "e=rate_limited", s)
      else match readSelection q with
      | BulkEmpty => (to_list "e=bulk_empty", s)
      | BulkTooMany => (to_list "e=bulk_too_many", s)
      | BulkInvalid => (to_list "e=bulk_invalid", s)
      | BulkOk ids _ => go ids
      end
  end.
(* src: apps/web/src/app/dashboard/contacts/actions.ts:123-142 bulkChangeStatusAction *)
Definition bulkChangeStatusAction (q : request) (s : store) : reply * store :=
  with_selection q s (fun ids =>
    match parse (field q "status") with
    | None => (to_list "e=input", s)
    | Some to =>
        let '(outcome, s1) := bulkSetBusinessContactStatus (rq_tenant q) ids to (rq_user q) (rq_rowAudit q) (rq_now q) s in
        let n := summarizeBulkContacts outcome in
        (bulk_done "status" n, audit_bulk q "business_contact.bulk_status_changed" (Some (js_name to)) false n s1)
    end).
(* src: apps/web/src/app/dashboard/contacts/actions.ts:149-169 bulkAssignAction *)
Definition bulkAssignAction (q : request) (s : store) : reply * store :=
  with_selection q s (fun ids =>
    let who := assignee_of q in
    match bulkAssignBusinessContacts (rq_tenant q) ids who (rq_user q) (rq_rowAudit q) (rq_now q) s with
    | (None, s1) => (to_list "e=bulk_assignee", s1)
    | (Some outcome, s1) =>
        let n := summarizeBulkContacts outcome in
        (bulk_done "assign" n, audit_bulk q "business_contact.bulk_assigned" None (is_some who) n s1)
    end).
(** All of them. *)
Inductive action := AStatus | AAssign | ANote | ALifecycle | AAnonymize | ABulkStatus | ABulkAssign.
Definition perform (a : action) (q : request) (s : store) : reply * store :=
  match a with
  | AStatus => changeContactStatusAction q s | AAssign => assignContactAction q s | ANote => addContactNoteAction q s
  | ALifecycle => changeContactLifecycleAction q s | AAnonymize => anonymizeContactAction q s
  | ABulkStatus => bulkChangeStatusAction q s | ABulkAssign => bulkAssignAction q s
  end.

(** * What an action can do *)

(** The repository calls behind an action, at most one, in the requester's tenant; [anonymizes] when it is the confirmed anonymization. *)
Definition anonymizes (a : action) (q : request) : bool :=
  match a with
  | AAnonymize => is_none (manageGate q) && rq_sameOrigin q && isAnonymizationConfirmed (rq_get q "confirm")
  | _ => false
  end.
Definition call_of (o : op) : bool := match o with OAnonymize _ _ _ _ => true | _ => false end.
Definition same_rows (s s' : store) : Prop :=
  connections s' = connections s /\ contacts s' = contacts s /\ notes s' = notes s /\ events s' = events s /\ members s' = members s.
Definition own_audit (q : request) (a : audit) : Prop := a_tenant a = rq_tenant q /\ ar_actorUserId (a_record a) = Some (rq_user q).
Section Effects.
Context (sha256_hex : string -> string).
Abbreviation exec := (ContactStore.exec sha256_hex).
Abbreviation run := (ContactStore.run sha256_hex).
Definition effect (a : action) (q : request) (s s' : store) : Prop :=
  exists os, same_rows (run os s) s' /\ (length os <= 1)%nat /\ Forall (fun o => tenant_of o = rq_tenant q /\ (call_of o = true -> anonymizes a q = true)) os /\
    exists new, audits s' = audits s ++ new /\ Forall (own_audit q) new.
Lemma no_effect a q s : effect a q s s.
Proof. exists []. split; [done|]. split; [cbn; lia|]. split; [done|]. exists []. by rewrite app_nil_r. Qed.
(** The audit rows a call writes, in the name of its actor. *)
Definition actor_of (o : op) : option string := match o with OBulkStatus _ _ _ who _ _ | OBulkAssign _ _ _ who _ _ => Some who | _ => None end.
Lemma exec_audits o s : exists new, audits (exec o s) = audits s ++ new /\ Forall (fun a => a_tenant a = tenant_of o /\ is_Some (actor_of o) /\ ar_actorUserId (a_record a) = actor_of o) new.
Proof.
  assert (Hnone : exists new, audits s = audits s ++ new /\ Forall (fun a => a_tenant a = tenant_of o /\ is_Some (actor_of o) /\ ar_actorUserId (a_record a) = actor_of o) new)
    by (exists []; by rewrite app_nil_r).
  destruct o; cbn [ContactStore.exec]; try exact Hnone.
  - unfold upsertBusinessConnection. by destruct (List.find _ _).
  - unfold setBusinessContactStatus. destruct (find_contact t i s); [|done]. destruct (_ =e to); [done|]. by destruct (canTransitionContactStatus _ _).
  - unfold assignBusinessContact. destruct (_ && _); [done|]. by destruct (existsb _ _).
  - unfold ingestBusinessContact, create_contact. by destruct (existsb _ _).
  - unfold addBusinessContactNote. destruct (negb _); [done|]. destruct (validateContactNoteBody raw); try done. by destruct (is_none _).
  - unfold bulkSetBusinessContactStatus. destruct (Nat.eqb _ _); [done|]. cbn. eexists. split; [done|]. apply Forall_forall. intros x (j & -> & _)%list_elem_of_fmap. by repeat split.
  - unfold bulkAssignBusinessContacts. destruct (Nat.eqb _ _); [done|]. destruct (_ && _); [done|]. destruct (Nat.eqb _ _); [done|]. cbn.
    eexists. split; [done|]. apply Forall_forall. intros x (j & -> & _)%list_elem_of_fmap. by repeat split.
  - unfold setBusinessContactLifecycle. destruct (to =e _); [done|]. destruct (find_contact t i s); [|done]. destruct (_ =e to); [done|].
    by destruct (canTransitionContactLifecycle _ _).
  - unfold anonymizeBusinessContact. destruct (find_contact t i s); [|done]. by destruct (_ =e _).
Qed.
(** A call and at most one audit row of the action's own. *)
Lemma effect_of a q o s s1 : s1 = exec o s -> tenant_of o = rq_tenant q -> (call_of o = true -> anonymizes a q = true) -> (actor_of o = None \/ actor_of o = Some (rq_user q)) ->
  effect a q s s1 /\ forall event tt target to b counts, effect a q s (writeAudit q event tt target to b counts s1).
Proof.
  intros -> Ht Hc Hactor. destruct (exec_audits o s) as (new & Hnew & Hown).
  assert (Hq : Forall (own_audit q) new).
  { eapply Forall_impl; [exact Hown|]. intros x (H1 & [w Hw] & H2). split; [congruence|]. destruct Hactor; congruence. }
  split.
  - exists [o]. split; [done|]. split; [cbn; lia|]. split; [by repeat constructor|]. by exists new.
  - intros event tt target to b counts. exists [o]. split; [done|]. split; [cbn; lia|]. split; [by repeat constructor|].
    eexists (new ++ [_]). cbn [writeAudit set_audits audits]. change (ContactStore.run sha256_hex [o] s) with (exec o s). rewrite Hnew, <- app_assoc. split; [done|].
    apply Forall_app. split; [done|]. by repeat constructor.
Qed.
Lemma selection_effect a q s go : (forall ids, effect a q s (go ids).2) -> effect a q s (with_selection q s go).2.
Proof.
  intros H. unfold with_selection. destruct (manageGate q); [apply no_effect|]. destruct (negb _); [apply no_effect|]. destruct (negb _); [apply no_effect|].
  destruct (readSelection q); [apply H|apply no_effect..].
Qed.
Lemma perform_effect a q s : effect a q s (perform a q s).2.
Proof.
  destruct a; cbn [perform].
  - unfold changeContactStatusAction. destruct (manageGate q); [apply no_effect|]. destruct (if nonempty _ then _ else _) as [to|]; [|apply no_effect].
    destruct (effect_of AStatus q (OStatus (rq_tenant q) (contact_id q) to (rq_now q)) s _ eq_refl) as [H1 H2]; [done|done|by left|]. cbn [ContactStore.exec] in H1, H2.
    destruct (setBusinessContactStatus _ _ to _ s) as [[] s1]; apply H1 || apply H2.
  - unfold assignContactAction. destruct (manageGate q); [apply no_effect|]. destruct (negb _); [apply no_effect|].
    destruct (effect_of AAssign q (OAssign (rq_tenant q) (contact_id q) (assignee_of q) (rq_now q)) s _ eq_refl) as [H1 H2]; [done|done|by left|]. cbn [ContactStore.exec] in H1, H2.
    destruct (assignBusinessContact _ _ _ _ s) as [[] s1]; apply H1 || apply H2.
  - unfold addContactNoteAction. destruct (manageGate q); [apply no_effect|]. destruct (negb _); [apply no_effect|]. destruct (negb _); [apply no_effect|].
    destruct (effect_of ANote q (ONote (rq_tenant q) (contact_id q) (rq_user q) (Some (field q "body")) (rq_newId q) (rq_now q)) s _ eq_refl) as [H1 H2]; [done|done|by left|].
    cbn [ContactStore.exec] in H1, H2. destruct (addBusinessContactNote _ _ _ _ _ _ s) as [[] s1]; apply H1 || apply H2.
  - unfold changeContactLifecycleAction. destruct (manageGate q); [apply no_effect|]. destruct (negb _); [apply no_effect|].
    destruct (if nonempty _ then _ else _) as [to|]; [|apply no_effect].
    destruct (effect_of ALifecycle q (OLifecycle (rq_tenant q) (contact_id q) to (rq_now q)) s _ eq_refl) as [H1 H2]; [done|done|by left|]. cbn [ContactStore.exec] in H1, H2.
    destruct to; [..|apply no_effect]; destruct (setBusinessContactLifecycle _ _ _ _ s) as [[from| |] s1]; try apply H1; destruct (LIFECYCLE_EVENT from _); apply H1 || apply H2.
  - unfold anonymizeContactAction. destruct (manageGate q) eqn:Hg; [apply no_effect|]. destruct (rq_sameOrigin q) eqn:Ho; [|apply no_effect]. cbn [negb].
    destruct (negb _); [apply no_effect|]. destruct (isAnonymizationConfirmed _) eqn:Hc; [|apply no_effect]. cbn [negb].
    destruct (effect_of AAnonymize q (OAnonymize (rq_tenant q) (contact_id q) (parse (field q "reason")) (rq_now q)) s _ eq_refl) as [H1 H2];
      [done|intros _; unfold anonymizes; by rewrite Hg, Ho, Hc|by left|]. cbn [ContactStore.exec] in H1, H2.
    destruct (anonymizeBusinessContact _ _ _ _ s) as [[? ? ? []|] s1]; apply H1 || apply H2.
  - apply selection_effect. intros ids. destruct (parse _) as [to|]; [|apply no_effect].
    destruct (effect_of ABulkStatus q (OBulkStatus (rq_tenant q) ids to (rq_user q) (rq_rowAudit q) (rq_now q)) s _ eq_refl) as [H1 H2]; [done|done|by right|].
    cbn [ContactStore.exec] in H2. destruct (bulkSetBusinessContactStatus _ _ _ _ _ _ s) as [o s1]. apply H2.
  - apply selection_effect. intros ids.
    destruct (effect_of ABulkAssign q (OBulkAssign (rq_tenant q) ids (assignee_of q) (rq_user q) (rq_rowAudit q) (rq_now q)) s _ eq_refl) as [H1 H2]; [done|done|by right|].
    cbn [ContactStore.exec] in H1, H2. cbv zeta. destruct (bulkAssignBusinessContacts _ _ _ _ _ _ s) as [[o|] s1]; apply H1 || apply H2.
Qed.
(** An action does at most one thing, for its requester: the tables after it are those after at most one repository call in the requester's own tenant;
    the audit ledger only grows, by rows of that tenant in the requester's name; and that call anonymizes only when the request passed the gate,
    came from the same origin and carried the confirmation word. *)
Theorem action_is_one_call (a : action) (q : request) (s : store) :
  exists os, same_rows (run os s) (perform a q s).2 /\ (length os <= 1)%nat /\
    Forall (fun o => tenant_of o = rq_tenant q /\ (call_of o = true -> anonymizes a q = true)) os /\
    exists new, audits (perform a q s).2 = audits s ++ new /\ Forall (own_audit q) new.
Proof. exact (perform_effect a q s). Qed.

(** Who may not manage contacts changes nothing: without the plan's capability or without the role's permission every action fails before any write, and
    the anonymizing one also writes nothing from another origin or without the confirmation word. *)
Theorem refused_actions_change_nothing (a : action) (q : request) (s : store) :
  (rq_allowed q = false -> perform a q s = (Threw "feature_locked", s)) /\
  (rq_allowed q = true -> Access.can (rq_role q) Access.BusinessContactsManage = false -> perform a q s = (Threw "permission_denied", s)) /\
  (Access.can (rq_role q) Access.BusinessContactsManage = true -> In (rq_role q) [Access.Owner; Access.Admin; Access.Reviewer]) /\
  (isAnonymizationConfirmed (rq_get q "confirm") = false \/ rq_sameOrigin q = false -> (perform AAnonymize q s).2 = s).
Proof.
  assert (Hg : forall e, manageGate q = Some e -> perform a q s = (Threw e, s)).
  { intros e He. destruct a; cbn [perform]; unfold changeContactStatusAction, assignContactAction, addContactNoteAction, changeContactLifecycleAction, anonymizeContactAction,
      bulkChangeStatusAction, bulkAssignAction, with_selection; by rewrite He. }
  split; [|split; [|split]].
  - intros Ha. apply Hg. unfold manageGate. by rewrite Ha.
  - intros Ha Hc. apply Hg. unfold manageGate. by rewrite Ha, Hc.
  - destruct (rq_role q); vm_compute; intros H; try discriminate; tauto.
  - intros H. cbn [perform]. unfold anonymizeContactAction. destruct (manageGate q); [done|]. destruct (rq_sameOrigin q); [|done]. cbn [negb].
    destruct (negb (nonempty _)); [done|]. destruct H as [-> |]; done.
Qed.

(** Only anonymization anonymizes. *)
Definition keeps_live (c c' : contact) : Prop := c_origin c' = c_origin c /\ (c_lifecycleState c' = LC_Anonymized -> c_lifecycleState c = LC_Anonymized).
Lemma exec_keeps_live o s t i c : call_of o = false -> find_contact t i s = Some c -> forall c', find_contact t i (exec o s) = Some c' ->
  c_lifecycleState c <> LC_Anonymized -> c_lifecycleState c' <> LC_Anonymized.
Proof.
  intros Ho Hf c' Hf' Hlive. assert (Hupd : forall p f, (forall x, keeps_live x (f x)) -> contacts (exec o s) = update_where p f (contacts s) -> c_lifecycleState c' <> LC_Anonymized).
  { intros p f Hk Hc. unfold find_contact in *. rewrite Hc, find_update_where, Hf in Hf'.
    - injection Hf' as <-. destruct (p c); [|done]. intros Ha. by apply Hk in Ha.
    - intros x. unfold has_id, c_tenant, c_id. by rewrite (proj1 (Hk x)). }
  assert (Hsame : contacts (exec o s) = contacts s -> c_lifecycleState c' <> LC_Anonymized) by (intros Hc; unfold find_contact in *; congruence).
  destruct o; try discriminate Ho; cbn [ContactStore.exec] in Hupd, Hsame, Hf'; try (by apply Hsame).
  - unfold upsertBusinessConnection in *. apply Hsame. by destruct (List.find _ _).
  - unfold setBusinessContactStatus in *. destruct (find_contact t0 i0 s); [|by apply Hsame]. destruct (_ =e to); [by apply Hsame|].
    destruct (canTransitionContactStatus _ _); [|by apply Hsame]. eapply Hupd; [|done]. by intros x.
  - unfold assignBusinessContact in *. destruct (_ && _); [by apply Hsame|]. destruct (existsb _ _); [|by apply Hsame]. eapply Hupd; [|done]. by intros x.
  - unfold ingestBusinessContact, create_contact in *. destruct (existsb _ _); [by apply Hsame|]. cbn in Hf'. unfold find_contact in *. cbn in Hf'.
    rewrite (find_app_l _ _ _ _ Hf) in Hf'. congruence.
  - unfold addBusinessContactNote in *. destruct (negb _); [by apply Hsame|]. destruct (validateContactNoteBody raw); try (by apply Hsame). destruct (is_none _); by apply Hsame.
  - unfold bulkSetBusinessContactStatus in *. destruct (Nat.eqb _ _); [by apply Hsame|]. eapply Hupd; [|done]. by intros x.
  - unfold bulkAssignBusinessContacts in *. destruct (Nat.eqb _ _); [by apply Hsame|]. destruct (_ && _); [by apply Hsame|]. destruct (Nat.eqb _ _); [by apply Hsame|].
    eapply Hupd; [|done]. by intros x.
  - unfold setBusinessContactLifecycle in *. destruct (to =e _) eqn:Hto; [by apply Hsame|]. destruct (find_contact t0 i0 s); [|by apply Hsame]. destruct (_ =e to); [by apply Hsame|].
    destruct (canTransitionContactLifecycle _ _); [|by apply Hsame]. eapply Hupd; [|done]. intros x. split; [done|]. cbn. intros ->. by rewrite enum_eqb_refl in Hto.
Qed.

(** ** Actions in sequence *)

Definition serve (rs : list (action * request)) (s : store) : store := fold_left (fun s r => (perform r.1 r.2 s).2) rs s.
Lemma same_rows_wf s s' : same_rows s s' -> wf s -> wf s'.
Proof. intros (_ & Hc & _) [H1 H2 H3]. split; by rewrite Hc. Qed.
Lemma perform_advances a q s t i c : wf s -> find_contact t i s = Some c ->
  wf (perform a q s).2 /\ exists c', find_contact t i (perform a q s).2 = Some c' /\ advances c c' /\
    (c_lifecycleState c <> LC_Anonymized -> c_lifecycleState c' = LC_Anonymized -> anonymizes a q = true).
Proof.
  intros Hwf Hf. destruct (perform_effect a q s) as (os & Hsame & Hlen & Hall & _).
  split; [apply (same_rows_wf _ _ Hsame); by apply run_wf|]. destruct (run_find sha256_hex os s t i c Hwf Hf) as (c' & Hf' & Hadv). exists c'.
  unfold find_contact in *. destruct Hsame as (_ & Hc & _). rewrite Hc. split; [done|]. split; [done|]. intros Hlive Hanon.
  destruct os as [|o [|]]; [cbn in Hf'; congruence| |cbn in Hlen; lia]. apply Forall_cons in Hall as [[_ Hcall] _]. apply Hcall. destruct (call_of o) eqn:Ho; [done|].
  exfalso. change (ContactStore.run sha256_hex [o] s) with (exec o s) in Hf'. exact (exec_keeps_live o s t i c Ho Hf c' Hf' Hlive Hanon).
Qed.
Lemma serve_advances rs s t i c : wf s -> find_contact t i s = Some c ->
  exists c', find_contact t i (serve rs s) = Some c' /\ advances c c' /\
    (c_lifecycleState c <> LC_Anonymized -> c_lifecycleState c' = LC_Anonymized -> exists a q, In (a, q) rs /\ anonymizes a q = true).
Proof.
  revert s c. induction rs as [|[a q] rs IH]; intros s c Hwf Hf; [exists c; split; [done|]; split; [apply advances_refl|congruence]|].
  cbn [serve fold_left fst snd]. destruct (perform_advances a q s t i c Hwf Hf) as (Hwf1 & c1 & Hf1 & H1 & A1).
  destruct (IH _ c1 Hwf1 Hf1) as (c2 & Hf2 & H2 & A2). exists c2. split; [done|]. split; [by eapply advances_trans|]. intros Hlive Hanon.
  destruct (decide (c_lifecycleState c1 = LC_Anonymized)) as [Ha|Ha]; [exists a, q; split; [by left|by apply A1]|].
  destruct (A2 Ha Hanon) as (b & r & Hin & Hb). exists b, r. split; [by right|done].
Qed.
(** C31 — No sequence of requests brings a person back, and none anonymizes by accident: whatever actions whichever users of any tenants perform, a contact keeps its
    origin; one that was anonymized stays so with the same time, reason and empty personal fields; and one that became anonymized did so in a
    request that passed the gate, came from the same origin and carried the confirmation word. *)
Theorem actions_respect_anonymization (os : list op) (rs : list (action * request)) (t i : string) (c : contact) :
  find_contact t i (run os empty) = Some c ->
  exists c', find_contact t i (serve rs (run os empty)) = Some c' /\ c_origin c' = c_origin c /\
    (c_lifecycleState c = LC_Anonymized -> c_lifecycleState c' = LC_Anonymized /\ c_personal c' = no_personal /\
       c_anonymizedAt c' = c_anonymizedAt c /\ c_anonymizationReason c' = c_anonymizationReason c) /\
    (c_lifecycleState c <> LC_Anonymized -> c_lifecycleState c' = LC_Anonymized -> exists a q, In (a, q) rs /\
       a = AAnonymize /\ manageGate q = None /\ rq_sameOrigin q = true /\ isAnonymizationConfirmed (rq_get q "confirm") = true).
Proof.
  intros Hf. assert (Hwf : wf (run os empty)) by apply run_wf, empty_wf.
  destruct (serve_advances rs _ t i c Hwf Hf) as (c' & Hf' & (Ho & Hk & _) & Ha). exists c'. split; [done|]. split; [done|]. split.
  - intros Hc. destruct (Hk Hc) as (H1 & H2 & H3 & H4). split; [done|]. split; [|done]. rewrite H2. pose proof (wf_tombstones _ Hwf) as Ht.
    rewrite Forall_forall in Ht. apply List.find_some in Hf as [Hin _]. by apply (Ht c (proj2 (list_elem_of_In _ _) Hin)).
  - intros Hc Hc'. destruct (Ha Hc Hc') as (a & q & Hin & Hq). exists a, q. split; [done|]. destruct a; try discriminate Hq. cbn in Hq.
    rewrite !andb_true_iff in Hq. destruct Hq as ((Hm & Hs) & Hconf). by destruct (manageGate q).
Qed.
(** The single action logs a status change that did not happen; the bulk one does not. *)
Theorem same_status_logs_change (q : request) (s : store) (c : contact) :
  manageGate q = None -> contact_id q <> "" -> find_contact (rq_tenant q) (contact_id q) s = Some c -> parse (field q "status") = Some (c_status c) ->
  contacts (perform AStatus q s).2 = contacts s /\ length (audits (perform AStatus q s).2) = S (length (audits s)) /\
  audits (bulkSetBusinessContactStatus (rq_tenant q) [contact_id q] (c_status c) (rq_user q) (rq_rowAudit q) (rq_now q) s).2 = audits s.
Proof.
  intros Hg Hi Hf Hp. cbn [perform]. unfold changeContactStatusAction. rewrite Hg. replace (nonempty (contact_id q)) with true by (unfold nonempty; by destruct (String.eqb_spec (contact_id q) "")).
  rewrite Hp. unfold setBusinessContactStatus. rewrite Hf, enum_eqb_refl. split; [done|]. split; [cbn; rewrite length_app; cbn; lia|].
  unfold bulkSetBusinessContactStatus. rewrite take_ge by (apply Nat.leb_le; reflexivity). cbn [List.filter]. unfold bulk_verdict.
  rewrite Hf, enum_eqb_refl. cbn [is_none is_some negb List.filter]. rewrite Hf, enum_eqb_refl. done.
Qed.
(** The history shows every lifecycle change: where the domain allows a contact to move to another state, the action has an audit event for the move, and that event
    is one the timeline reads and renders as the matching entry. *)
Theorem lifecycle_events_complete (from to : BusinessContactLifecycle) :
  canTransitionContactLifecycle from to = true -> from <> to -> to <> LC_Anonymized ->
  exists event kind, LIFECYCLE_EVENT from to = Some event /\ map_get CONTACT_LIFECYCLE_AUDIT_EVENTS event = Some kind /\ includes timeline_events event = true /\
    (kind = TK_archived <-> to = LC_Archived) /\ (kind = TK_marked_spam <-> to = LC_Spam).
Proof.
  destruct from, to; intros Hc Hne Ha; try done; do 2 eexists; (split; [reflexivity|]; split; [vm_compute; reflexivity|]; split; [vm_compute; reflexivity|]; by split; split).
Qed.
End Effects.
Lemma lifecycle_events_complete_witness : exists event kind, LIFECYCLE_EVENT LC_Spam LC_Active = Some event /\ map_get CONTACT_LIFECYCLE_AUDIT_EVENTS event = Some kind.
Proof.
  destruct (lifecycle_events_complete LC_Spam LC_Active) as (e & k & H1 & H2 & _); [vm_compute; reflexivity|discriminate|discriminate|].
  exists e, k. split; [exact H1|exact H2].
Defined.
Definition manager : request := {|
  rq_allowed := true; rq_role := Access.Admin; rq_tenant := "t"; rq_user := "u"; rq_sameOrigin := true; rq_underLimit := true;
  rq_get := fun f => if f =s "contactId" then Some "c1" else if f =s "confirm" then Some " anonymize " else None; rq_getAll := fun _ => []; rq_now := 70;
  rq_newId := "a1"; rq_rowAudit := fun i => i |}.
Lemma actions_respect_anonymization_witness :
  let s := ContactStore.run id_hash two_leads empty in
  find_contact "t" "c1" s = Some ann /\ option_map c_lifecycleState (find_contact "t" "c1" (serve [(AAnonymize, manager)] s)) = Some LC_Anonymized /\
  exists a q, In (a, q) [(AAnonymize, manager)] /\ a = AAnonymize /\ isAnonymizationConfirmed (rq_get q "confirm") = true.
Proof.
  intros s. assert (Hf : find_contact "t" "c1" s = Some ann) by (vm_compute; reflexivity). split; [exact Hf|].
  assert (Hl : option_map c_lifecycleState (find_contact "t" "c1" (serve [(AAnonymize, manager)] s)) = Some LC_Anonymized) by (vm_compute; reflexivity). split; [exact Hl|].
  destruct (actions_respect_anonymization id_hash two_leads [(AAnonymize, manager)] "t" "c1" ann Hf) as (c' & Hf' & _ & _ & H).
  assert (Hc' : c_lifecycleState c' = LC_Anonymized) by (unfold s in Hl; rewrite Hf' in Hl; injection Hl as Hl; exact Hl).
  destruct H as (a & q & Hin & Ha & _ & _ & Hc); [vm_compute; discriminate|exact Hc'|]. exists a, q. split; [exact Hin|split; [exact Ha|exact Hc]].
Defined.

End ContactActions.
