(* ===== verification/MetaLeads.v ===== *)
(** Meta lead ads ([packages/sync/src/meta-leads.ts]): parsing a webhook body into lead
    changes, normalising a fetched lead into a contact, and the ingestion of one event's
    changes into the contact store. *)
From S2P Require Import Prelude JsValue Keyset Outbox Workspace Notifications Contacts ContactStore.
Open Scope string_scope.
Open Scope list_scope.
Open Scope Z_scope.
Open Scope tam_scope.
Import JsValue Contacts ContactStore.

Module MetaLeads.

(** * Parsing *)

(* src: packages/sync/src/meta-leads.ts:25-25 MAX_LEADGEN_CHANGES *)
Definition MAX_LEADGEN_CHANGES : nat := 200.
(* src: packages/sync/src/meta-leads.ts:26-26 str *)
Definition str (v : raw_value) (max : Z) : option string :=
  match v with VString s => if nonempty s && (str_len s <=? max) then Some s else None | _ => None end.
Definition str_opt (v : option string) (max : Z) : option string := match v with Some s => str (VString s) max | None => None end.
(* src: packages/sync/src/meta-leads.ts:29-35 MetaLeadgenChange *)
Record MetaLeadgenChange := {
  ch_pageId : string; ch_leadgenId : string; ch_formId : option string; ch_adId : option string; ch_createdTime : option string }.
(** [v.k]: a TypeError on null and undefined; the names read here are no property of any other primitive. *)
Definition prop (v : raw_value) (k : string) : outcome raw_value string :=
  match v with
  | VUndefined | VNull => Throw "TypeError"
  | VObject fs => Ret (JsValue.field fs k)
  | _ => Ret VUndefined
  end.
(** Whether the value is an object, an array included. *)
Definition is_object (v : raw_value) : bool := match v with VObject _ | VArray _ => true | _ => false end.
Definition prop_of_object (v : raw_value) (k : string) : raw_value := match v with VObject fs => JsValue.field fs k | _ => VUndefined end.
(** The change a [leadgen] value describes, for the page of its entry. *)
Definition read_change (entryPageId : option string) (v : raw_value) : option MetaLeadgenChange :=
  match str (prop_of_object v "leadgen_id") 64, or_else (str (prop_of_object v "page_id") 64) entryPageId with
  | Some leadgenId, Some pageId => Some {| ch_pageId := pageId; ch_leadgenId := leadgenId; ch_formId := str (prop_of_object v "form_id") 64;
      ch_adId := str (prop_of_object v "ad_id") 64; ch_createdTime := str (prop_of_object v "created_time") 64 |}
  | _, _ => None
  end.
Definition is_leadgen (v : raw_value) : bool := match v with VString s => s =s "leadgen" | _ => false end.
Fixpoint parse_changes (entryPageId : option string) (changes : list raw_value) (out : list MetaLeadgenChange) : outcome (list MetaLeadgenChange) string :=
  match changes with
  | [] => Ret out
  | c :: r =>
      if (MAX_LEADGEN_CHANGES <=? length out)%nat then Ret out
      else match prop c "field" with
      | Throw e => Throw e
      | Ret f =>
          let value := prop_of_object c "value" in
          if is_leadgen f && is_object value
          then match read_change entryPageId value with
               | Some ch => parse_changes entryPageId r (out ++ [ch])
               | None => parse_changes entryPageId r out end
          else parse_changes entryPageId r out
      end
  end.
Fixpoint parse_entries (entries : list raw_value) (out : list MetaLeadgenChange) : outcome (list MetaLeadgenChange) string :=
  match entries with
  | [] => Ret out
  | e :: r =>
      if (MAX_LEADGEN_CHANGES <=? length out)%nat then Ret out
      else match prop e "id" with
      | Throw err => Throw err
      | Ret i =>
          match prop_of_object e "changes" with
          | VArray changes => match parse_changes (str i 64) changes out with Ret out' => parse_entries r out' | Throw err => Throw err end
          | _ => parse_entries r out
          end
      end
  end.
(* src: packages/sync/src/meta-leads.ts:41-63 parseMetaLeadgenChanges *)
Definition parseMetaLeadgenChanges (payload : raw_value) : outcome (list MetaLeadgenChange) string :=
  match prop_of_object payload "object", prop_of_object payload "entry" with
  | VString o, VArray entries => if o =s "page" then parse_entries entries [] else Ret []
  | _, _ => Ret []
  end.

(** * Normalisation *)

(** An answer of the lead form, where it is one; of its values, those that are strings. *)
Record answer := { an_name : option string; an_values : option (list (option string)) }.
(* src: packages/sync/src/meta-leads.ts:71-80 MetaGraphLead *)
Record MetaGraphLead := {
  gl_created_time : option string; gl_ad_id : option string; gl_ad_name : option string; gl_form_id : option string; gl_campaign_id : option string;
  gl_campaign_name : option string; gl_field_data : option (list (option answer)) }.
Definition first_value (a : answer) : option string :=
  match an_values a with
  | Some vs => match List.find truthy vs with Some v => v | None => None end
  | None => None
  end.
(** The first answer with one of the names that has a value. *)
Fixpoint field_value (answers : list (option answer)) (names : list string) : option string :=
  match answers with
  | [] => None
  | Some a :: r =>
      if truthy (an_name a) && includes names (toLowerCase (an_name a ?? ""))
      then match first_value a with Some v => Some (str_take 320 v) | None => field_value r names end
      else field_value r names
  | None :: r => field_value r names
  end.
(* src: packages/sync/src/meta-leads.ts:83-91 fieldValue *)
Definition fieldValue (lead : MetaGraphLead) (names : list string) : option string := field_value (gl_field_data lead ?? []) names.
(** [\[first, last\].filter(Boolean).join(SPACE).trim() || null] *)
Definition joined_name (first last : option string) : option string :=
  let parts := List.filter nonempty (omap id [first; last]) in
  let s := trim (str_join " " parts) in if nonempty s then Some s else None.
Section Normalise.
(** The time value of [new Date(s)], [None] where it is invalid. *)
Context (date_parse : string -> option Z).
(* src: packages/sync/src/meta-leads.ts:94-123 normalizeMetaLead *)
Definition normalizeMetaLead (lead : MetaGraphLead) (ch : MetaLeadgenChange) (connectionId : option string) (now : Z) : BusinessContactInput :=
  let received := or_else (ch_createdTime ch) (gl_created_time lead) in
  {| i_provider := BP_Meta; i_sourcePlatform := S_Facebook; i_connectionId := connectionId; i_externalLeadId := Some (ch_leadgenId ch);
     i_contentFingerprint := None;
     i_fullName := or_else (fieldValue lead ["full_name"]) (joined_name (fieldValue lead ["first_name"]) (fieldValue lead ["last_name"]));
     i_email := fieldValue lead ["email"]; i_phone := fieldValue lead ["phone_number"; "phone"];
     i_company := fieldValue lead ["company_name"; "company"]; i_messageSummary := None;
     i_campaignId := str_opt (gl_campaign_id lead) 200; i_campaignName := str_opt (gl_campaign_name lead) 200;
     i_adId := or_else (str_opt (gl_ad_id lead) 200) (ch_adId ch); i_adName := str_opt (gl_ad_name lead) 200;
     i_formId := or_else (str_opt (gl_form_id lead) 200) (ch_formId ch); i_formName := None;
     i_receivedAt := if truthy received then date_parse (received ?? "") ?? now else now;
     i_consentValue := None; i_consentReference := None; i_consentVersion := None |}.
End Normalise.

(** * Failures *)

(* src: packages/sync/src/meta-leads.ts:134-136 META_LEAD_DETAIL_FIELDS *)
Definition META_LEAD_DETAIL_FIELDS : list string := ["id"; "created_time"; "field_data"; "ad_id"; "ad_name"; "form_id"; "campaign_id"; "campaign_name"].
(** What the fetch may throw: the typed Graph error with its detail, or anything else with a message. *)
Record GraphDetail := { gd_kind : string; gd_status : Z; gd_code : option Z; gd_subcode : option Z; gd_retryable : bool; gd_fbtraceId : option string }.
Inductive fetch_error := GraphError (d : GraphDetail) | OtherError (message : string).
(* src: packages/sync/src/meta-leads.ts:155-171 MetaLeadFetchClassification *)
Record MetaLeadFetchClassification := {
  fc_reason : string; fc_status : option Z; fc_code : option Z; fc_subcode : option Z; fc_transient : option bool; fc_fbtraceId : option string }.
(* src: packages/sync/src/meta-leads.ts:178-190 classifyMetaLeadFetchError *)
Definition classifyMetaLeadFetchError (e : fetch_error) : MetaLeadFetchClassification :=
  match e with
  | OtherError _ => {| fc_reason := "unknown"; fc_status := None; fc_code := None; fc_subcode := None; fc_transient := None; fc_fbtraceId := None |}
  | GraphError d => {| fc_reason := gd_kind d; fc_status := Some (gd_status d); fc_code := gd_code d; fc_subcode := gd_subcode d;
      fc_transient := Some (gd_retryable d); fc_fbtraceId := if truthy (gd_fbtraceId d) then gd_fbtraceId d else None |}
  end.
(** Why the vault gives no token: a row that does not decrypt, one that was retired, or anything else. *)
Inductive vault_error := VaultDecryptError | VaultCredentialUnusableError (reason : string) | OtherVaultError.
Definition vault_code (e : vault_error) : string :=
  match e with VaultDecryptError => "vault_decrypt_failed" | VaultCredentialUnusableError r => "vault_" +:+ r | OtherVaultError => "error" end.

(** * Ingestion *)

Record lead_account := { la_id : string; la_tenantId : string; la_externalId : string }.
(* src: packages/sync/src/meta-leads.ts:143-143 MetaLeadgenIngestResult *)
Record MetaLeadgenIngestResult := { ingested : Z; duplicates : Z; rejected : Z; fetchFailures : Z }.
Inductive change_result := Ingested | DuplicateLead | Rejected | FetchFailed.
Definition tally (rs : list change_result) : MetaLeadgenIngestResult := {|
  ingested := count (fun r => match r with Ingested => true | _ => false end) rs; duplicates := count (fun r => match r with DuplicateLead => true | _ => false end) rs;
  rejected := count (fun r => match r with Rejected => true | _ => false end) rs; fetchFailures := count (fun r => match r with FetchFailed => true | _ => false end) rs |}.
(** [new Map(accounts.map(a => \[a.externalId, a\])).get(pageId)]: the last account of a page wins. *)
Definition account_of (accounts : list lead_account) (pageId : string) : option lead_account := List.find (fun a => la_externalId a =s pageId) (rev accounts).
(* src: packages/db/src/repositories.ts:206-208 findBusinessConnectionForAccount *)
Definition findBusinessConnectionForAccount (t account : string) (s : store) : option string :=
  option_map k_id (List.find (fun k => (k_tenant k =s t) && status_is (k_connectedAccountId k) account) (connections s)).
Section Ingestion.
(** The hash, the date parser, the vault, the lead fetch, and the accounts of a set of pages. *)
Context (sha256_hex : string -> string) (date_parse : string -> option Z) (resolveMetaAccessToken : lead_account -> outcome (option string) vault_error)
  (fetchLead : string -> string -> outcome MetaGraphLead fetch_error) (accounts : list lead_account).
Definition reject_event (a : lead_account) (ch : MetaLeadgenChange) (code : string) (now : Z) (s : store) : store :=
  recordBusinessIngestionEvent (la_tenantId a) BP_Meta (Some (ch_leadgenId ch)) (sha256_hex ("meta:leadgen:" +:+ ch_leadgenId ch)) true IR_Rejected (Some code) now None None s.
(** One change, with the id the database would mint for its contact. *)
Definition ingest_change (now : Z) (newId : string) (ch : MetaLeadgenChange) (s : store) : change_result * store :=
  match account_of accounts (ch_pageId ch) with
  | None => (Rejected, s)
  | Some a =>
      match resolveMetaAccessToken a with
      | Throw e => (Rejected, reject_event a ch (vault_code e) now s)
      | Ret None => (Rejected, reject_event a ch "no_credential" now s)
      | Ret (Some token) =>
          match fetchLead (ch_leadgenId ch) token with
          | Throw _ => (FetchFailed, reject_event a ch "fetch_failed" now s)
          | Ret lead =>
              let contact := normalizeMetaLead date_parse lead ch (findBusinessConnectionForAccount (la_tenantId a) (la_id a) s) now in
              let meta := {| im_providerEventId := Some (ch_leadgenId ch); im_payloadHash := sha256_hex ("meta:leadgen:" +:+ ch_leadgenId ch); im_signatureVerified := true |} in
              let '(outcome, s1) := ingestBusinessContact sha256_hex (la_tenantId a) contact meta newId now s in
              (if io_duplicate outcome then DuplicateLead else Ingested, s1)
          end
      end
  end.
Fixpoint ingest_all (now : Z) (mint : nat -> string) (changes : list MetaLeadgenChange) (s : store) : list change_result * store :=
  match changes with
  | [] => ([], s)
  | ch :: r =>
      let '(res, s1) := ingest_change now (mint (length r)) ch s in
      let '(rest, s2) := ingest_all now mint r s1 in (res :: rest, s2)
  end.
(* src: packages/sync/src/meta-leads.ts:206-256 ingestMetaLeadgenChanges *)
Definition ingestMetaLeadgenChanges (now : Z) (mint : nat -> string) (changes : list MetaLeadgenChange) (s : store) : MetaLeadgenIngestResult * store :=
  let '(results, s1) := ingest_all now mint changes s in (tally results, s1).

(** * A lead event *)

(** The key of the contact a change leads to, in the tenant of its page; none where no lead is obtained. *)
Definition change_key (ch : MetaLeadgenChange) : option (string * string) :=
  match account_of accounts (ch_pageId ch) with
  | None => None
  | Some a => match resolveMetaAccessToken a with
      | Ret (Some token) => match fetchLead (ch_leadgenId ch) token with
          | Ret lead => Some (la_tenantId a, input_key sha256_hex (normalizeMetaLead date_parse lead ch None 0))
          | Throw _ => None end
      | _ => None end
  end.
Definition settled (ch : MetaLeadgenChange) (s : store) : Prop :=
  match change_key ch with Some (t, key) => exists x, List.find (has_key t key) (contacts s) = Some x | None => True end.
(** The tenant of an event that a mapped change records. *)
Definition mapped (ch : MetaLeadgenChange) : option string := option_map la_tenantId (account_of accounts (ch_pageId ch)).
Lemma change_spec now newId ch s : wf s -> let r := ingest_change now newId ch s in
  wf r.2 /\ length (events r.2) = (length (events s) + (match mapped ch with Some _ => 1 | None => 0 end))%nat /\
  (forall t, mapped ch <> Some t -> view t r.2 = view t s) /\
  match change_key ch with
  | None => (r.1 = Rejected \/ r.1 = FetchFailed) /\ contacts r.2 = contacts s
  | Some (t, key) =>
      (r.1 = DuplicateLead /\ contacts r.2 = contacts s \/
       r.1 = Ingested /\ exists c, contacts r.2 = contacts s ++ [c] /\ c_id c = newId /\ has_key t key c = true) /\
      ((exists x, List.find (has_key t key) (contacts s) = Some x) -> r.1 = DuplicateLead) /\
      ((forall x, In x (contacts s) -> c_id x <> newId) -> exists x, List.find (has_key t key) (contacts r.2) = Some x)
  end.
Proof.
  intros Hwf. cbn zeta. unfold ingest_change, change_key, mapped. destruct (account_of accounts (ch_pageId ch)) as [a|]; cbn [option_map]; [|split; [done|]; split; [cbn; lia|]; split; [done|]; split; [by left|done]].
  assert (Hrej : forall code, wf (reject_event a ch code now s) /\ length (events (reject_event a ch code now s)) = (length (events s) + 1)%nat /\
    (forall t, Some (la_tenantId a) <> Some t -> view t (reject_event a ch code now s) = view t s) /\ contacts (reject_event a ch code now s) = contacts s).
  { intros code. split; [destruct Hwf; by split|]. split; [cbn; by rewrite length_app|]. split; [|done]. intros t Ht.
    apply (exec_other sha256_hex (OEvent (la_tenantId a) BP_Meta (Some (ch_leadgenId ch)) (sha256_hex ("meta:leadgen:" +:+ ch_leadgenId ch)) true IR_Rejected (Some code) now)).
    cbn. congruence. }
  destruct (resolveMetaAccessToken a) as [[token|]|e]; cbn [fst snd].
  3: by (destruct (Hrej (vault_code e)) as (H1 & H2 & H3 & H4); split; [|split; [|split; [|split; [left|]]]]).
  2: by (destruct (Hrej "no_credential") as (H1 & H2 & H3 & H4); split; [|split; [|split; [|split; [left|]]]]).
  destruct (fetchLead (ch_leadgenId ch) token) as [lead|e]; cbn [fst snd].
  2: by (destruct (Hrej "fetch_failed") as (H1 & H2 & H3 & H4); split; [|split; [|split; [|split; [right|]]]]).
  set (conn := findBusinessConnectionForAccount _ _ s). set (i := normalizeMetaLead date_parse lead ch conn now). set (meta := {| im_providerEventId := _ |}).
  change (input_key sha256_hex (normalizeMetaLead date_parse lead ch None 0)) with (input_key sha256_hex i). set (t := la_tenantId a).
  pose proof (exec_wf sha256_hex (OIngest t i meta newId now) s Hwf) as Hwf'. pose proof (fun t' => exec_other sha256_hex (OIngest t i meta newId now) s t') as Hother.
  cbn [exec tenant_of] in Hwf', Hother. destruct (ingest_contacts sha256_hex t i meta newId now s) as (Hc & Hd & _ & _).
  assert (Hev : length (events (ingestBusinessContact sha256_hex t i meta newId now s).2) = (length (events s) + 1)%nat).
  { unfold ingestBusinessContact, create_contact. destruct (existsb _ _); cbn; by rewrite length_app. }
  destruct (ingestBusinessContact sha256_hex t i meta newId now s) as [o s1] eqn:E. cbn [fst snd] in *.
  split; [done|]. split; [done|]. split; [intros t' Ht'; apply Hother; congruence|].
  pose proof (create_spec (new_contact t newId (input_key sha256_hex i) i now) s) as Hs. rewrite Hd, Hc.
  assert (Hself : has_key t (input_key sha256_hex i) (new_contact t newId (input_key sha256_hex i) i now) = true) by (unfold has_key; cbn; by rewrite !String.eqb_refl).
  destruct Hs as [(-> & -> & Hno)|(-> & -> & x & Hx & Hconf)]; cbn [negb].
  - split; [right; split; [done|by eexists]|]. split.
    + intros (x & [Hx Hk]%List.find_some). specialize (Hno x Hx). unfold conflicts in Hno. change (has_key t (input_key sha256_hex i) x || (c_id x =s newId) = false) in Hno. by rewrite Hk in Hno.
    + intros _. destruct (List.find _ (_ ++ _)) as [y|] eqn:Hn; [by exists y|]. pose proof (List.find_none _ _ Hn (new_contact t newId (input_key sha256_hex i) i now)) as H.
      rewrite Hself in H. discriminate H. apply in_app_iff. right. by left.
  - split; [by left|]. split; [done|]. intros Hfresh. change (has_key t (input_key sha256_hex i) x || (c_id x =s newId) = true) in Hconf.
    destruct (List.find _ (contacts s)) as [y|] eqn:Hn; [by exists y|]. pose proof (List.find_none _ _ Hn x Hx) as H. cbn in H. rewrite H in Hconf.
    apply String.eqb_eq in Hconf. by destruct (Hfresh x Hx).
Qed.
Lemma settled_change now newId ch ch' s : wf s -> settled ch' s -> settled ch' (ingest_change now newId ch s).2.
Proof.
  intros Hwf. unfold settled. destruct (change_key ch') as [[t key]|]; [|done]. intros (x & Hx). destruct (change_spec now newId ch s Hwf) as (_ & _ & _ & H).
  cbn zeta in H. destruct (change_key ch) as [[t' key']|]; [|destruct H as [_ ->]; by exists x]. destruct H as ([[_ ->]|(_ & c & -> & _)] & _ & _); [by exists x|].
  exists x. by apply find_app_l.
Qed.
Definition fresh_ids (mint : nat -> string) (n : nat) (s : store) : Prop :=
  (forall i j, (i < n)%nat -> (j < n)%nat -> mint i = mint j -> i = j) /\ forall k c, (k < n)%nat -> In c (contacts s) -> c_id c <> mint k.
Lemma fresh_step now mint n ch s : wf s -> fresh_ids mint (S n) s -> fresh_ids mint n (ingest_change now (mint n) ch s).2.
Proof.
  intros Hwf [Hinj Hf]. split; [intros i j Hi Hj; apply Hinj; lia|]. intros k c Hk Hc. destruct (change_spec now (mint n) ch s Hwf) as (_ & _ & _ & H). cbn zeta in H.
  assert (Hold : forall d, In d (contacts s) -> c_id d <> mint k) by (intros d; apply Hf; lia).
  destruct (change_key ch) as [[t key]|]; [|destruct H as [_ Heq]; rewrite Heq in Hc; by apply Hold].
  destruct H as ([[_ Heq]|(_ & d & Heq & Hd & _)] & _); rewrite Heq in Hc; [by apply Hold|]. apply in_app_iff in Hc as [Hc|[<-|[]]]; [by apply Hold|].
  rewrite Hd. intros E. apply Hinj in E; lia.
Qed.
Lemma all_spec now mint changes s : wf s -> let r := ingest_all now mint changes s in
  wf r.2 /\ length r.1 = length changes /\
  length (events r.2) = (length (events s) + length (omap mapped changes))%nat /\
  (forall t, t ∉ omap mapped changes -> view t r.2 = view t s) /\
  (forall ch, settled ch s -> settled ch r.2) /\
  Z.of_nat (length (contacts r.2)) = Z.of_nat (length (contacts s)) + ingested (tally r.1) /\
  (Forall (fun ch => settled ch s) changes -> ingested (tally r.1) = 0 /\ contacts r.2 = contacts s /\
     duplicates (tally r.1) = Z.of_nat (length (omap change_key changes))) /\
  (fresh_ids mint (length changes) s -> Forall (fun ch => settled ch r.2) changes) /\
  ingested (tally r.1) + duplicates (tally r.1) = Z.of_nat (length (omap change_key changes)).
Proof.
  revert s. induction changes as [|ch changes IH]; intros s Hwf; cbn zeta.
  { cbn [ingest_all fst snd]. change (tally []) with {| ingested := 0; duplicates := 0; rejected := 0; fetchFailures := 0 |}. cbn [length omap list_omap ingested duplicates].
    split; [done|]. split; [done|]. split; [lia|]. split; [done|]. split; [done|]. split; [lia|]. split; [done|]. split; [done|lia]. }
  cbn [ingest_all]. pose proof (change_spec now (mint (length changes)) ch s Hwf) as Hch. pose proof (settled_change now (mint (length changes)) ch) as Hkeep.
  pose proof (fresh_step now mint (length changes) ch s Hwf) as Hfresh. cbn zeta in Hch.
  destruct (ingest_change now (mint (length changes)) ch s) as [res s1] eqn:E1. cbn [fst snd] in *. destruct Hch as (Hwf1 & Hev1 & Hv1 & Hk1).
  specialize (IH s1 Hwf1). cbn zeta in IH. destruct (ingest_all now mint changes s1) as [rest s2]. cbn [fst snd] in *.
  destruct IH as (Hwf2 & Hlen & Hev & Hview & Hset & Hcon & Hrep & Hall & Hsum).
  assert (Hkeep' : forall ch', settled ch' s -> settled ch' s1) by (intros ch' H'; specialize (Hkeep ch' s Hwf H'); by rewrite E1 in Hkeep).
  assert (Hone : ingested (tally (res :: rest)) = (match res with Ingested => 1 | _ => 0 end) + ingested (tally rest) /\
                 duplicates (tally (res :: rest)) = (match res with DuplicateLead => 1 | _ => 0 end) + duplicates (tally rest)).
  { unfold tally; cbn [ingested duplicates]. rewrite !count_cons. by destruct res. }
  destruct Hone as [Hi1 Hd1]. rewrite Hi1, Hd1. split; [done|]. split; [cbn; by rewrite Hlen|]. split.
  { rewrite Hev, Hev1. cbn [omap list_omap]. destruct (mapped ch); cbn [length]; lia. }
  split.
  { intros t Ht. cbn [omap list_omap] in Ht. rewrite Hview, Hv1; [done| |]; destruct (mapped ch); set_solver. }
  split; [auto|]. cbn [omap list_omap length].
  destruct (change_key ch) as [[t key]|] eqn:Hkey; cbn [length].
  - destruct Hk1 as (Hres & Hdup & Hnow). assert (Hcount : Z.of_nat (length (contacts s1)) = Z.of_nat (length (contacts s)) + match res with Ingested => 1 | _ => 0 end /\
      match res with Ingested => 1 | _ => 0 end + match res with DuplicateLead => 1 | _ => 0 end = 1).
    { destruct Hres as [[-> ->]|(-> & c & -> & _)]; [lia|]. rewrite length_app. cbn. lia. }
    split; [lia|]. split; [|split; [|lia]].
    + intros [Hs Hrest]%Forall_cons. unfold settled in Hs. rewrite Hkey in Hs. specialize (Hdup Hs). subst res.
      destruct Hres as [[_ Heq]|(? & _)]; [|done]. destruct Hrep as (H1 & H2 & H3); [eapply Forall_impl; [exact Hrest|exact Hkeep']|].
      split; [lia|]. split; [congruence|]. lia.
    + intros Hf. constructor; [|auto]. apply Hset. unfold settled. rewrite Hkey. apply Hnow. intros x Hx. apply (proj2 Hf); [lia|done].
  - destruct Hk1 as [Hres Heq]. assert (Hz : match res with Ingested => 1 | _ => 0 end = 0 /\ match res with DuplicateLead => 1 | _ => 0 end = 0) by by destruct Hres as [-> | ->].
    rewrite <- Heq. split; [lia|]. split; [|split; [|lia]].
    + intros [_ Hrest]%Forall_cons. destruct Hrep as (H1 & H2 & H3); [eapply Forall_impl; [exact Hrest|exact Hkeep']|]. split; [lia|]. split; [congruence|lia].
    + intros Hf. constructor; [unfold settled; by rewrite Hkey|auto].
Qed.
Lemma tally_total rs : let r := tally rs in ingested r + duplicates r + rejected r + fetchFailures r = Z.of_nat (length rs).
Proof.
  cbn zeta. unfold tally. cbn [ingested duplicates rejected fetchFailures]. induction rs as [|r rs IH]; [done|]. rewrite !count_cons. cbn [length].
  destruct r; lia.
Qed.
End Ingestion.

(** C32 — A redelivered lead event adds nothing: ingesting an event's changes counts each change once, adds as many contacts as it reports ingested, records one event
    per change of a known page and touches no tenant but those of the pages; and ingesting the same changes again, with whatever was stored in between by any tenant,
    ingests none, reports every lead obtained as a duplicate and leaves the contacts as they are. The pages' accounts, the vault and the provider may answer otherwise
    the second time, as long as a lead obtained then was obtained the first time too, for the same tenant and under the same form: a lead that only the redelivery
    obtains, after a failed fetch or for a page connected meanwhile, is a new contact, as it should be. The ids minted the first time are assumed fresh. *)
Theorem lead_event_idempotent (sha256_hex : string -> string) (date_parse : string -> option Z)
    (resolve resolve' : lead_account -> outcome (option string) vault_error) (fetchLead fetchLead' : string -> string -> outcome MetaGraphLead fetch_error)
    (accounts accounts' : list lead_account) (os os' : list op) (now now' : Z) (mint mint' : nat -> string) (changes : list MetaLeadgenChange) :
  let s := run sha256_hex os empty in
  let r := ingestMetaLeadgenChanges sha256_hex date_parse resolve fetchLead accounts now mint changes s in
  let s1 := run sha256_hex os' r.2 in
  let again := ingestMetaLeadgenChanges sha256_hex date_parse resolve' fetchLead' accounts' now' mint' changes s1 in
  let key := change_key sha256_hex date_parse resolve fetchLead accounts in
  let key' := change_key sha256_hex date_parse resolve' fetchLead' accounts' in
  fresh_ids mint (length changes) s -> Forall (fun ch => key' ch = None \/ key' ch = key ch) changes ->
  ingested r.1 + duplicates r.1 + rejected r.1 + fetchFailures r.1 = Z.of_nat (length changes) /\
  ingested r.1 + duplicates r.1 = Z.of_nat (length (omap key changes)) /\
  Z.of_nat (length (contacts r.2)) = Z.of_nat (length (contacts s)) + ingested r.1 /\
  length (events r.2) = (length (events s) + length (omap (mapped accounts) changes))%nat /\
  (forall t, t ∉ omap (mapped accounts) changes -> view t r.2 = view t s) /\
  ingested again.1 = 0 /\ duplicates again.1 = Z.of_nat (length (omap key' changes)) /\ contacts again.2 = contacts s1.
Proof.
  intros s r s1 again key key' Hfresh Hsame. assert (Hwf : wf s) by apply run_wf, empty_wf.
  destruct (all_spec sha256_hex date_parse resolve fetchLead accounts now mint changes s Hwf) as (Hwf1 & Hlen & Hev & Hview & _ & Hcon & _ & Hall & Hsum). cbn zeta in *.
  pose proof (tally_total (ingest_all sha256_hex date_parse resolve fetchLead accounts now mint changes s).1) as Htot. cbn zeta in Htot.
  unfold again, s1, r, ingestMetaLeadgenChanges. destruct (ingest_all sha256_hex date_parse resolve fetchLead accounts now mint changes s) as [results s'] eqn:E.
  cbn [fst snd] in *. specialize (Hall Hfresh).
  assert (Hset : Forall (fun ch => settled sha256_hex date_parse resolve' fetchLead' accounts' ch (run sha256_hex os' s')) changes).
  { apply Forall_forall. intros ch Hch. rewrite Forall_forall in Hall, Hsame. specialize (Hall ch Hch). unfold settled in *. fold key in Hall. fold key'.
    destruct (Hsame ch Hch) as [-> | ->]; [done|]. destruct (key ch) as [[t k]|]; [|done]. destruct Hall as (x & Hx).
    destruct (find_key_mono sha256_hex os' s' t k x Hwf1 Hx) as (y & Hy & _). by exists y. }
  destruct (all_spec sha256_hex date_parse resolve' fetchLead' accounts' now' mint' changes (run sha256_hex os' s')) as (_ & _ & _ & _ & _ & _ & Hrep & _); [by apply run_wf|].
  cbn zeta in Hrep. destruct (ingest_all _ _ _ _ accounts' now' mint' changes (run sha256_hex os' s')) as [results' s2]. cbn [fst snd] in *.
  destruct (Hrep Hset) as (H1 & H2 & H3). split; [lia|]. by repeat split.
Qed.
(** Of two accounts of one page only one gets its leads, though both tenants connected the page. *)
Theorem shared_page_serves_one_tenant (a b : lead_account) (page : string) :
  la_externalId a = page -> la_externalId b = page ->
  account_of [a; b] page = Some b /\ account_of [b; a] page = Some a.
Proof. intros Ha Hb. unfold account_of. cbn. by rewrite Ha, Hb, !String.eqb_refl. Qed.

(** * Parsing *)

Definition bounded_text (s : string) : Prop := s <> "" /\ str_len s <= 64.
Definition bounded_opt (o : option string) : Prop := match o with Some s => bounded_text s | None => True end.
Definition well_formed (ch : MetaLeadgenChange) : Prop :=
  bounded_text (ch_pageId ch) /\ bounded_text (ch_leadgenId ch) /\ bounded_opt (ch_formId ch) /\ bounded_opt (ch_adId ch) /\ bounded_opt (ch_createdTime ch).
Lemma str_bounded v : bounded_opt (str v 64).
Proof.
  unfold str. destruct v; try done. destruct (nonempty s && _) eqn:H; [|done]. apply andb_true_iff in H as [Hn Hl]. split; [|by apply Z.leb_le].
  intros ->. done.
Qed.
Lemma read_change_bounded e v ch : bounded_opt e -> read_change e v = Some ch -> well_formed ch.
Proof.
  intros He. unfold read_change. pose proof (str_bounded (prop_of_object v "leadgen_id")) as Hl. pose proof (str_bounded (prop_of_object v "page_id")) as Hp.
  destruct (str (prop_of_object v "leadgen_id") 64) as [l|]; [|done]. destruct (or_else _ e) as [p|] eqn:E; [|done]. intros [= <-].
  split; [|split; [done|]]; cbn; [|split; [|split]; apply str_bounded]. destruct (str (prop_of_object v "page_id") 64); cbn in E; [injection E as <-; done|by subst e].
Qed.
Lemma parse_changes_bounded e changes out out' : bounded_opt e -> (length out <= 200)%nat -> Forall well_formed out -> parse_changes e changes out = Ret out' ->
  (length out' <= 200)%nat /\ Forall well_formed out'.
Proof.
  intros He. revert out. induction changes as [|c r IH]; intros out Hlen Hwf; cbn [parse_changes]; [by intros [= <-]|].
  destruct (Nat.leb_spec MAX_LEADGEN_CHANGES (length out)) as [|Hlt]; [by intros [= <-]|]. destruct (prop c "field"); [|done].
  destruct (_ && _); [|by apply IH]. destruct (read_change e _) as [ch|] eqn:Hch; [|by apply IH]. apply IH.
  - rewrite length_app. cbn. unfold MAX_LEADGEN_CHANGES in Hlt. lia.
  - apply Forall_app. split; [done|]. constructor; [by eapply read_change_bounded|done].
Qed.
Lemma parse_entries_bounded es out out' : (length out <= 200)%nat -> Forall well_formed out -> parse_entries es out = Ret out' -> (length out' <= 200)%nat /\ Forall well_formed out'.
Proof.
  revert out. induction es as [|e r IH]; intros out Hlen Hwf; cbn [parse_entries]; [by intros [= <-]|]. destruct (MAX_LEADGEN_CHANGES <=? length out)%nat; [by intros [= <-]|].
  destruct (prop e "id") as [i|]; [|done]. destruct (prop_of_object e "changes"); try by apply IH.
  destruct (parse_changes (str i 64) l out) as [out1|] eqn:Hp; [|done]. apply parse_changes_bounded in Hp as [H1 H2]; [|apply str_bounded|done..]. by apply IH.
Qed.
(** A webhook body fans out boundedly: whatever is sent, at most 200 changes are taken from it, each with a page id and a lead id of 1 to 64 characters and
    no longer text elsewhere; a body that is not a page event gives none. *)
Theorem lead_parse_bounded (payload : raw_value) (changes : list MetaLeadgenChange) :
  parseMetaLeadgenChanges payload = Ret changes ->
  (length changes <= 200)%nat /\ Forall well_formed changes /\ (changes <> [] -> prop_of_object payload "object" = VString "page").
Proof.
  unfold parseMetaLeadgenChanges. destruct (prop_of_object payload "object") as [| | | |o| |]; try (by intros [= <-]; split; [cbn; lia|split]).
  destruct (prop_of_object payload "entry"); try (by intros [= <-]; split; [cbn; lia|split]). destruct (String.eqb_spec o "page") as [->|]; [|by intros [= <-]; split; [cbn; lia|split]].
  intros H. apply parse_entries_bounded in H as [H1 H2]; [done|cbn; lia|done].
Qed.
(** One null entry fails the whole body, and the leads beside it are lost: everything else is said to be ignored. *)
Theorem null_entry_loses_leads (entries : list raw_value) :
  parseMetaLeadgenChanges (VObject [("object", VString "page"); ("entry", VArray (VNull :: entries))]) = Throw "TypeError".
Proof. done. Qed.

(** * Normalisation *)

Definition ALLOWED : list string := ["first_name"; "last_name"; "full_name"; "email"; "phone_number"; "phone"; "company_name"; "company"].
Definition allowed (a : option answer) : bool := match a with Some a => truthy (an_name a) && includes ALLOWED (toLowerCase (an_name a ?? "")) | None => false end.
Definition only_allowed (lead : MetaGraphLead) : MetaGraphLead := {|
  gl_created_time := gl_created_time lead; gl_ad_id := gl_ad_id lead; gl_ad_name := gl_ad_name lead; gl_form_id := gl_form_id lead;
  gl_campaign_id := gl_campaign_id lead; gl_campaign_name := gl_campaign_name lead; gl_field_data := option_map (List.filter allowed) (gl_field_data lead) |}.
Lemma field_value_allowed names answers : (forall n, includes names n = true -> includes ALLOWED n = true) ->
  field_value (List.filter allowed answers) names = field_value answers names.
Proof.
  intros Hn. induction answers as [|[a|] r IH]; [done| |exact IH]. cbn [List.filter allowed field_value].
  destruct (truthy (an_name a)) eqn:Ht; cbn [andb]; [|exact IH]. specialize (Hn (toLowerCase (an_name a ?? ""))).
  destruct (includes names (toLowerCase (an_name a ?? ""))) eqn:Hin.
  - rewrite Hn by done. cbn [field_value]. rewrite Ht, Hin. cbn [andb]. destruct (first_value a); [done|exact IH].
  - destruct (includes ALLOWED _); [cbn [field_value]; rewrite Hin, andb_false_r|]; exact IH.
Qed.
Lemma fieldValue_allowed lead names : forallb (includes ALLOWED) names = true -> fieldValue (only_allowed lead) names = fieldValue lead names.
Proof.
  intros Hn. unfold fieldValue. cbn [only_allowed gl_field_data]. destruct (gl_field_data lead) as [l|]; [|done]. apply field_value_allowed.
  intros n Hin%includes_In. rewrite forallb_forall in Hn. by apply Hn.
Qed.
(** What a personal field may hold: the beginning, at most 320 characters, of a value that an answer of one of the names gave. *)
Definition answered (lead : MetaGraphLead) (names : list string) (v : string) : Prop :=
  str_len v <= 320 /\ exists a s, In (Some a) (gl_field_data lead ?? []) /\ In (toLowerCase (an_name a ?? "")) names /\ In (Some s) (an_values a ?? []) /\ v = str_take 320 s.
Lemma fieldValue_answered lead names v : fieldValue lead names = Some v -> answered lead names v.
Proof.
  unfold fieldValue, answered. induction (gl_field_data lead ?? []) as [|[a|] r IH]; [done| |].
  - cbn [field_value]. destruct (truthy (an_name a) && _) eqn:Hn.
    + apply andb_true_iff in Hn as [_ Hn%includes_In]. destruct (first_value a) as [s|] eqn:Hs.
      * intros [= <-]. split; [unfold str_len, str_take; rewrite length_str_take; lia|]. exists a, s. split; [by left|]. split; [done|]. split; [|done].
        revert Hs. unfold first_value. destruct (an_values a) as [vs|]; [|done]. destruct (List.find truthy vs) as [[w|]|] eqn:Hf; try done.
        intros [= ->]. by apply List.find_some in Hf as [Hf _].
      * intros H. destruct (IH H) as (Hl & b & s & Hb & Hrest). split; [done|]. exists b, s. split; [by right|done].
    + intros H. destruct (IH H) as (Hl & b & s & Hb & Hrest). split; [done|]. exists b, s. split; [by right|done].
  - cbn [field_value]. intros H. destruct (IH H) as (Hl & b & s & Hb & Hrest). split; [done|]. exists b, s. split; [by right|done].
Qed.
(** Only identity answers are read, and consent is never inferred: answers outside the allow-list make no difference to the stored contact; consent, message and form
    name stay empty whatever the lead says; the identity of the contact is the lead id of the trusted change; and each address, phone and company stored
    is the beginning of a value that an answer of its own name gave. *)
Theorem lead_allow_list (date_parse : string -> option Z) (lead : MetaGraphLead) (ch : MetaLeadgenChange) (conn : option string) (now : Z) :
  let i := normalizeMetaLead date_parse lead ch conn now in
  normalizeMetaLead date_parse (only_allowed lead) ch conn now = i /\
  i_consentValue i = None /\ i_consentReference i = None /\ i_consentVersion i = None /\ i_messageSummary i = None /\ i_formName i = None /\
  i_provider i = BP_Meta /\ i_externalLeadId i = Some (ch_leadgenId ch) /\
  (forall v, i_email i = Some v -> answered lead ["email"] v) /\
  (forall v, i_phone i = Some v -> answered lead ["phone_number"; "phone"] v) /\
  (forall v, i_company i = Some v -> answered lead ["company_name"; "company"] v).
Proof.
  intros i. split; [unfold i, normalizeMetaLead; rewrite !fieldValue_allowed by (vm_compute; reflexivity); done|].
  do 7 (split; [done|]). split; [|split]; intros v; apply fieldValue_answered.
Qed.

(** * Witnesses *)

Definition page1 : lead_account := {| la_id := "acc"; la_tenantId := "t"; la_externalId := "p1" |}.
Definition lead1 : MetaGraphLead := {|
  gl_created_time := None; gl_ad_id := None; gl_ad_name := None; gl_form_id := None; gl_campaign_id := None; gl_campaign_name := None;
  gl_field_data := Some [Some {| an_name := Some "EMAIL"; an_values := Some [None; Some "a@x.test"] |}; Some {| an_name := Some "budget"; an_values := Some [Some "9"] |}] |}.
Definition body1 : raw_value := VObject [("object", VString "page"); ("entry", VArray [VObject [("id", VString "p1"); ("changes", VArray [
  VObject [("field", VString "leadgen"); ("value", VObject [("leadgen_id", VString "L1")])]; VObject [("field", VString "feed")];
  VObject [("field", VString "leadgen"); ("value", VObject [("leadgen_id", VString "L2"); ("page_id", VString "p2")])]])]])].
Definition changes1 : list MetaLeadgenChange := [
  {| ch_pageId := "p1"; ch_leadgenId := "L1"; ch_formId := None; ch_adId := None; ch_createdTime := None |};
  {| ch_pageId := "p2"; ch_leadgenId := "L2"; ch_formId := None; ch_adId := None; ch_createdTime := None |}].
Lemma lead_parse_bounded_witness : parseMetaLeadgenChanges body1 = Ret changes1 /\ Forall well_formed changes1.
Proof.
  assert (H : parseMetaLeadgenChanges body1 = Ret changes1) by (vm_compute; reflexivity). split; [exact H|]. apply (lead_parse_bounded body1 changes1 H).
Defined.
Definition vault0 (a : lead_account) : outcome (option string) vault_error := Ret (Some "token").
Definition fetch0 (i token : string) : outcome MetaGraphLead fetch_error := Ret lead1.
Definition mint0 (k : nat) : string := match k with O => "m0" | S O => "m1" | _ => "m" end.
(** Redelivered after the page was disconnected. *)
Lemma lead_event_idempotent_witness :
  let r := ingestMetaLeadgenChanges id_hash (fun _ => None) vault0 fetch0 [page1] 5 mint0 changes1 empty in
  let again accounts := ingestMetaLeadgenChanges id_hash (fun _ => None) vault0 fetch0 accounts 9 mint0 changes1 r.2 in
  r.1 = {| ingested := 1; duplicates := 0; rejected := 1; fetchFailures := 0 |} /\
  ingested (again [page1]).1 = 0 /\ duplicates (again [page1]).1 = 1 /\ contacts (again []).2 = contacts r.2.
Proof.
  intros r again. split; [vm_compute; reflexivity|].
  assert (Hf : fresh_ids mint0 (length changes1) (run id_hash [] empty)).
  { split; [|intros k c _ []]. intros i j Hi Hj. cbn in Hi, Hj. destruct i as [|[|i]], j as [|[|j]]; try lia; intros H; discriminate H. }
  destruct (lead_event_idempotent id_hash (fun _ => None) vault0 vault0 fetch0 fetch0 [page1] [page1] [] [] 5 9 mint0 mint0 changes1 Hf) as (_ & _ & _ & _ & _ & H & Hd & _).
  { repeat constructor; by right. }
  split; [exact H|]. split; [exact Hd|].
  destruct (lead_event_idempotent id_hash (fun _ => None) vault0 vault0 fetch0 fetch0 [page1] [] [] [] 5 9 mint0 mint0 changes1 Hf) as (_ & _ & _ & _ & _ & _ & _ & Hc).
  { repeat constructor; by left. }
  exact Hc.
Defined.

End MetaLeads.
